(* ===== verification/_CoqProject ===== *)
-Q . S2P
Prelude.v
Cstring.v
Riscv.v
Kalloc.v
Vm.v
VmTheory.v
UvmTheory.v
CopyTheory.v
UvmProps.v
UvmFree.v
KvmProps.v
Block.v
Bio.v
BioTheory.v
Log.v
LogTheory.v
LogCrash.v
LogProto.v
Fs.v
FsTheory.v
FsFile.v
FsWrite.v
FsProps.v
FsDir.v
FsPath.v
Mkfs.v
MkfsTheory.v
MkfsProps.v
BootProps.v
Pipe.v
File.v
FileTheory.v
Spinlock.v
Proc.v
ProcTheory.v
ProcInv.v
ProcProps.v
ProcMem.v
ProcMemProps.v
Datetime.v
Syscall.v
Sysproc.v
Trap.v
TrapProps.v
Asm.v
AsmTheory.v
AsmProps.v
Sysfile.v
Exec.v
FdProps.v
FdProc.v
ExecMem.v
Ulib.v
UlibFlags.v
Printf.v
Uprintf.v
PrintfTheory.v
Console.v
ConsoleTheory.v
Grep.v
GameTree.v
Xo.v
C4.v
Umalloc.v
UmallocProps.v
Sh.v
ShPrint.v
Virtio.v
VirtioInv.v
VirtioDriver.v
VirtioProps.v
Usys.v
Cmds.v
CmdsTheory.v
CmdsProps.v
Reffs.v
Utils.v
UtilsTheory.v
MoveTheory.v
TreeProps.v
