(* ===== verification/Prelude.v ===== *)
(** * Verification of the xv6-riscv derived operating system of this repository

    ** The program and its parts

    The repository is a small operating system for RISC-V: a kernel
    (src/kernel), the user programs and their library (src/user) and the host
    program that makes the image of the file system (src/mkfs).  The parts
    build on each other as follows.

    - Physical pages (kalloc.c) hold page tables and user memory (vm.c);
      kernel and user exchange data with copyin and copyout.
    - The disk driver (virtio_disk.c) serves the buffer cache (bio.c), the
      cache serves the log (log.c), the log serves the file system (fs.c),
      and that serves open files (file.c) beside pipes (pipe.c) and the
      console (console.c over uart.c).
    - Processes (proc.c) run under one of three scheduling policies, enter
      the kernel through traps (trampoline.S, kernelvec.S, trap.c, plic.c), and
      call it through the table of system calls (syscall.c, sysproc.c,
      sysfile.c, exec.c); spin locks (spinlock.c) protect all of this.
    - User programs use ulib.c, printf.c and umalloc.c and run under the
      shell (sh.c); mv and cp share utils.c.
    - mkfs.c writes the image that the kernel's fs.c reads.

    ** Files and the code that they model

    Definitions have the names of the C functions.  A function with an error
    result returns it; [panic], blocking and running out of fuel are the
    outcomes [Panic], [Blocked] and [NoFuel] of the monad [outcome] below.
    Integers are [Z], with the width written out where the code converts or
    stores.  A file whose name ends in Theory, Inv, Steps or Props has lemmas
    and theorems on the file whose name it starts with.

    - Prelude (this file): machine integers, little-endian bytes, the
      [outcome] monad, tactics and hints.  Cstring: byte-addressed memory and
      kernel/string.c.  Riscv: address macros of riscv.h and memlayout.h.
    - Kalloc: kalloc.c over that memory, with the free list threaded through
      the pages.  Vm, VmTheory, UvmTheory, CopyTheory, UvmProps, UvmFree,
      KvmProps: vm.c with the three-level tables in physical memory;
      [translate] is the abstract content of a table, [as_inv] an address
      space and [proc_as] that of a process.
    - Block: structures inside disk blocks.  Bio, BioTheory: bio.c and
      sleeplock.c; the class [BlockCache] is the contract with the log.  Log,
      LogTheory, LogCrash, LogProto: log.c against that class.  Fs, FsTheory,
      FsFile, FsWrite, FsProps: fs.c against the class [TxStore] of a
      transactional block store, which FsProps discharges with the log over the
      cache.  FsDir: directories.  FsPath: [namei] on the tree of directories.
    - Pipe: pipe.c.  File, FileTheory: file.c, over fs.c, pipe.c and the device
      switch.
    - Spinlock: spinlock.c on several harts.  Proc, ProcTheory, ProcInv,
      ProcProps: proc.c, cut into the segments between two points where a
      process gives up the processor.  ProcMem, ProcMemProps: which process
      owns which page ([mem_inv]).  Syscall, Sysproc, Sysfile, Exec: the
      system calls.  FdProps, FdProc: descriptors and the counts of open files
      across all of them.  Trap, TrapProps: trap.c and plic.c.
    - Asm, AsmTheory, AsmProps: trampoline.S, swtch.S, kernelvec.S and entry.S
      as lists of instructions of a hart whose memory accesses and instruction
      fetches go through the page table in [satp].
    - Datetime: datetime.c.  Printf, Uprintf, PrintfTheory: printf.c of
      kernel and library.  Console, ConsoleTheory: console.c and uart.c.
    - Virtio, VirtioInv, VirtioDriver, VirtioProps: virtio_disk.c beside a
      device that follows the VIRTIO specification.
    - Ulib, UlibFlags: user/ulib.c.  Grep: user/grep.c.  GameTree, Xo, C4:
      user/xo.c and user/c4.c.  Umalloc, UmallocProps: user/umalloc.c.  Sh,
      ShPrint: user/sh.c.
    - Usys: the monad of user programs over the class [Sys] of system calls.
      Cmds: cat, wc, wce, tail, diff, echo, add, fact, sleep, kill, ln, rm,
      mkdir and touch; CmdsTheory, CmdsProps: theorems against the class
      [Streams] of laws of reading and writing.  Reffs: a reference file system
      of trees, an instance of both classes.  Utils: utils.c with mv and cp,
      ls and find; UtilsTheory, MoveTheory, TreeProps: theorems on trees.
    - Mkfs, MkfsTheory, MkfsProps: mkfs/mkfs.c.  BootProps: the kernel on an
      image that mkfs made.

    ** What the theorems show

    - Memory (C1 to C5, C16, C25, C27): the allocator neither loses nor
      shares a page; [mappages] maps the range or reports failure and changes
      no translation outside of it; [uvmalloc] adds all of the user's pages or
      none, and leaks none; copies between kernel and user move exactly the
      bytes they promise; [kvmmake] maps what the kernel needs and nothing
      else; [fork] copies a process; and in every run each page is free or
      belongs to one process.
    - Storage (C6 to C9, C12, C18 to C20, C30, C38, C39): a transaction is
      atomic under a crash at any write, torn writes and crashes of recovery
      included; the log has room for every admitted call if it has the size
      the code intends, and does not have it with the size that mkfs makes;
      a file is a sequence of bytes for [readi], [writei] and [filewrite], a
      directory a map from names to inodes, and a path leads [namei] to the
      inode of its elements; the disk driver serves each request once, in
      full, and never gets stuck.
    - Pipes and devices (C10, C11, C26): the rings of pipe and console refine
      queues and a line editor under every interleaving; no wakeup of a pipe
      is lost, unless a writer is killed.
    - Locks, processes, system calls (C13 to C15, C31 to C33): mutual
      exclusion; the process table under every interleaving of the segments;
      what each policy picks; sleep; a system call from the [ecall] to the
      instruction behind it; reference counts.  The context switch and
      interrupts in the kernel are in AsmProps, accounting of waiting times and
      the starvation of round robin in ProcProps.
    - Libraries and programs (C17, C21 to C23, C28, C29, C34 to C37): mv and cp
      on whole trees, the calendar against a closed formula, parsers of options
      against a reference, numerals and formats, regular expressions against
      their language, game searches against exhaustive search, the heap, and
      that the shell runs the command that was printed.  CmdsProps and
      TreeProps have what cat, wc, wce, tail, diff, add, fact and find print.
    - The image (C24, C40): mkfs makes a well-formed file system with the files
      it was given, and the kernel finds and reads them.

    ** Fuel and bounds

    Loops that are not structural have fuel.  The buffer cache's searches get
    one unit for each buffer of the list; [freerange] one for each page;
    [copyinstr] one for each byte of its bound; [uartstart] one
    for each byte of its ring; the printing of digits one for each binary
    digit of a word, and formats one for each byte; the year loop of the
    calendar one for each day; [malloc] two turns around a list that has at
    most one block for each header of the heap; the parser of the shell a
    multiple of the length of the line; the user programs one for each read of
    a file, and mv, cp and find the [cost] of the tree.  The theorems state that the functions
    return a result, so none of them holds because fuel ran out.

    ** Assumptions

    Code outside the repository, and hardware, are arguments of the
    definitions with named hypotheses: the linker's symbols (the end of the
    kernel, the trampoline), the timer's readings, the answers of the UART,
    the device of the disk driver, the pieces in which [read] delivers input,
    the host of mkfs, the table of system calls of the user programs.  The
    instructions and the translation of addresses in Asm are those of the RISC-V
    manuals; compiled C code keeps the callee-saved registers.  In mv and cp
    [malloc] succeeds, and the reference file system has room.  The atomic swap of the lock is one step, and memory is
    sequentially consistent, which the fences of the code provide for.

    ** Not modelled

    - start.c, which writes control registers of machine mode, and main.c,
      which calls the initialisers; initcode.S and the stubs of usys.pl.
    - The TLB and its flushes; the register accessors of riscv.h, which are
      single instructions.
    - Test programs (usertests.c, grind.c and the like).
    - init, ps, and the programs that print the result of one system call.
    - [procdump], the menus of the games, and prompts. *)

From Stdlib Require Export ZArith Lia Bool.
From stdpp Require Export base tactics numbers list gmap strings option.
Export list_basics.list list_relations.list list_monad.list list_misc.list list_numbers.list.

#[global] Open Scope Z_scope.

Declare Scope kern_scope.
Delimit Scope kern_scope with kern.
#[global] Open Scope kern_scope.

(** ** Machine integers

    Every C integer is a [Z]; the width is written out at the place where
    the C code stores or converts the value. *)

Definition u8 (x : Z) : Z := x mod 256.
Definition u16 (x : Z) : Z := x mod 65536.
Definition u32 (x : Z) : Z := x mod 4294967296.
Definition u64 (x : Z) : Z := x mod 18446744073709551616.
Definition s32 (x : Z) : Z := (x + 2147483648) mod 4294967296 - 2147483648.
Definition s16 (x : Z) : Z := (x + 32768) mod 65536 - 32768.

(** C truth values. *)
Definition b2z (b : bool) : Z := if b then 1 else 0.
Definition z2b (x : Z) : bool := negb (x =? 0).

(** [lia] with division and modulo by constants. *)
Ltac zlia := Z.to_euclidean_division_equations; lia.

Ltac unfold_ints := unfold u8, u16, u32, u64, s32, s16 in *.

(** Turn the boolean tests of the code into propositions. *)
Ltac bool_to_prop :=
  repeat match goal with
  | H : _ && _ = true |- _ => apply andb_true_iff in H; destruct H
  | H : _ || _ = false |- _ => apply orb_false_iff in H; destruct H
  | H : _ && _ = false |- _ => apply andb_false_iff in H
  | H : _ || _ = true |- _ => apply orb_true_iff in H
  | H : negb _ = true |- _ => apply negb_true_iff in H
  | H : negb _ = false |- _ => apply negb_false_iff in H
  | H : (_ =? _) = true |- _ => apply Z.eqb_eq in H
  | H : (_ =? _) = false |- _ => apply Z.eqb_neq in H
  | H : (_ <? _) = true |- _ => apply Z.ltb_lt in H
  | H : (_ <? _) = false |- _ => apply Z.ltb_ge in H
  | H : (_ <=? _) = true |- _ => apply Z.leb_le in H
  | H : (_ <=? _) = false |- _ => apply Z.leb_gt in H
  | H : bool_decide _ = true |- _ => apply bool_decide_eq_true in H
  | H : bool_decide _ = false |- _ => apply bool_decide_eq_false in H
  end.

(** Decide the integer comparisons of the goal that [lia] settles. *)
Ltac ztest :=
  repeat match goal with
  | |- context [?a <=? ?b] =>
      first [rewrite (proj2 (Z.leb_le a b)) by lia | rewrite (proj2 (Z.leb_gt a b)) by lia]
  | |- context [?a <? ?b] =>
      first [rewrite (proj2 (Z.ltb_lt a b)) by lia | rewrite (proj2 (Z.ltb_ge a b)) by lia]
  | |- context [?a =? ?b] =>
      first [rewrite (proj2 (Z.eqb_eq a b)) by lia | rewrite (proj2 (Z.eqb_neq a b)) by lia]
  end; cbn [negb andb orb].

(** Case analysis on the first boolean test or option matched in the goal. *)
Ltac case_test :=
  match goal with
  | |- context [if ?b then _ else _] => destruct b eqn:?
  | |- context [match ?x with _ => _ end] => destruct x eqn:?
  end.

(** Case analysis on the first [decide] of the goal. *)
Ltac dcase :=
  match goal with |- context [@decide ?P ?i] => destruct (@decide P i) end.

Lemma u8_range x : 0 <= u8 x < 256.
Proof. unfold u8. zlia. Qed.
Lemma u16_range x : 0 <= u16 x < 65536.
Proof. unfold u16. zlia. Qed.
Lemma u32_range x : 0 <= u32 x < 4294967296.
Proof. unfold u32. zlia. Qed.
Lemma u64_range x : 0 <= u64 x < 18446744073709551616.
Proof. unfold u64. zlia. Qed.
Lemma s32_range x : -2147483648 <= s32 x < 2147483648.
Proof. unfold s32. zlia. Qed.

Lemma u8_id x : 0 <= x < 256 -> u8 x = x.
Proof. intros; unfold u8; zlia. Qed.
Lemma u16_id x : 0 <= x < 65536 -> u16 x = x.
Proof. intros; unfold u16; zlia. Qed.
Lemma u32_id x : 0 <= x < 4294967296 -> u32 x = x.
Proof. intros; unfold u32; zlia. Qed.
Lemma u64_id x : 0 <= x < 18446744073709551616 -> u64 x = x.
Proof. intros; unfold u64; zlia. Qed.
Lemma s32_id x : -2147483648 <= x < 2147483648 -> s32 x = x.
Proof. intros; unfold s32; zlia. Qed.
Lemma s16_id x : -32768 <= x < 32768 -> s16 x = x.
Proof. intros; unfold s16; zlia. Qed.

(** Counters that are less than a wrap apart are equal when their low
    words are. *)
Lemma u32_near a b : -4294967296 < a - b < 4294967296 -> u32 a = u32 b -> a = b.
Proof. unfold u32. intros. zlia. Qed.

Lemma Zpair_dec (a b c d : Z) : (a = c /\ b = d) \/ (a <> c \/ b <> d).
Proof. lia. Qed.

Create HintDb kern.
Create Rewrite HintDb kern.
#[export] Hint Resolve u8_range u16_range u32_range u64_range s32_range : kern.
#[export] Hint Rewrite u8_id u16_id u32_id u64_id s32_id using lia : kern.

(** Point update of a function. *)
Definition upd {A} (f : nat -> A) (i : nat) (x : A) : nat -> A :=
  fun j => if decide (j = i) then x else f j.

Lemma upd_eq {A} (f : nat -> A) i x : upd f i x i = x.
Proof. unfold upd. by rewrite decide_True. Qed.
Lemma upd_ne {A} (f : nat -> A) i j x : j <> i -> upd f i x j = f j.
Proof. intros. unfold upd. by rewrite decide_False. Qed.

(** ** Outcomes

    A kernel function either returns, or stops the machine through
    [panic()] (kernel/printf.c) with a message, or puts the process to sleep
    until another process acts: [Blocked].  A loop whose recursion is
    not structural carries fuel and answers [NoFuel] when it is used up; the
    theorems about such a loop show that the fuel the caller passes is
    enough. *)

Inductive outcome (A : Type) : Type :=
| Ok (a : A)
| Panic (msg : string)
| Blocked
| NoFuel.
Arguments Ok {A} a.
Arguments Panic {A} msg.
Arguments Blocked {A}.
Arguments NoFuel {A}.

#[export] Instance outcome_ret : MRet outcome := @Ok.
#[export] Instance outcome_bind : MBind outcome :=
  fun A B f x => match x with Ok a => f a | Panic s => Panic s | Blocked => Blocked | NoFuel => NoFuel end.
#[export] Instance outcome_fmap : FMap outcome :=
  fun A B f x => match x with Ok a => Ok (f a) | Panic s => Panic s | Blocked => Blocked | NoFuel => NoFuel end.

Definition is_ok {A} (x : outcome A) : bool := match x with Ok _ => true | _ => false end.

(** [panic_if b msg] is the statement [if (b) panic(msg);]. *)
Definition panic_if (b : bool) (msg : string) : outcome unit :=
  if b then Panic msg else Ok tt.

Lemma bind_ok {A B} (x : outcome A) (f : A -> outcome B) b :
  (x ≫= f) = Ok b <-> exists a, x = Ok a /\ f a = Ok b.
Proof. destruct x; simpl; naive_solver. Qed.

Lemma panic_if_ok b msg u : panic_if b msg = Ok u <-> b = false.
Proof. destruct b, u; simpl; naive_solver. Qed.

(** [inv_ok]: decompose a successful run into its successful steps. *)
Ltac inv_ok :=
  repeat match goal with
  | H : (_ ≫= _) = Ok _ |- _ => apply bind_ok in H as (? & ? & H)
  | H : panic_if _ _ = Ok _ |- _ => apply panic_if_ok in H
  | H : Ok _ = Ok _ |- _ => injection H as H
  | H : Panic _ = Ok _ |- _ => discriminate H
  | H : NoFuel = Ok _ |- _ => discriminate H
  | H : Blocked = Ok _ |- _ => discriminate H
  | H : mret _ = Ok _ |- _ => injection H as H
  end.
