(* ===== verification/Cstring.v ===== *)
(** * Byte-addressed memory and kernel/string.c

    The kernel's physical memory is a finite map from addresses to bytes;
    an address that was never written reads as 0.  [char] is unsigned, as it
    is on RISC-V, and a store truncates to eight bits.  The functions of
    kernel/string.c are translated loop by loop over this memory. *)
From S2P Require Import Prelude.

Abbreviation mem := (gmap Z Z).

(** ** Loads and stores *)

Definition ld8 (m : mem) (a : Z) : Z := default 0 (m !! a).
Definition st8 (m : mem) (a v : Z) : mem := <[a := u8 v]> m.

(** Little-endian words of [n] bytes. *)
Fixpoint ld_le (m : mem) (a : Z) (n : nat) : Z :=
  match n with
  | O => 0
  | S k => ld8 m a + 256 * ld_le m (a + 1) k
  end.

Fixpoint st_le (m : mem) (a v : Z) (n : nat) : mem :=
  match n with
  | O => m
  | S k => st_le (st8 m a v) (a + 1) (v / 256) k
  end.

Definition ld32 (m : mem) (a : Z) : Z := ld_le m a 4.
Definition ld64 (m : mem) (a : Z) : Z := ld_le m a 8.
Definition st32 (m : mem) (a v : Z) : mem := st_le m a (u32 v) 4.
Definition st64 (m : mem) (a v : Z) : mem := st_le m a (u64 v) 8.

(** The [n] bytes at [a]. *)
Fixpoint bytes (m : mem) (a : Z) (n : nat) : list Z :=
  match n with
  | O => []
  | S k => ld8 m a :: bytes m (a + 1) k
  end.

(** Storing a list of bytes at [a]. *)
Fixpoint st_bytes (m : mem) (a : Z) (l : list Z) : mem :=
  match l with
  | [] => m
  | b :: l' => st_bytes (st8 m a b) (a + 1) l'
  end.

(** ** kernel/string.c *)

Fixpoint memset_loop (m : mem) (cdst c : Z) (k : nat) (i : Z) : mem :=
  match k with
  | O => m
  | S k' => memset_loop (st8 m (cdst + i) c) cdst c k' (i + 1)
  end.

Definition memset (m : mem) (dst c n : Z) : mem :=
  memset_loop m dst c (Z.to_nat (u32 n)) 0.

Fixpoint memcmp_loop (m : mem) (s1 s2 : Z) (n : nat) : Z :=
  match n with
  | O => 0
  | S n' => if negb (ld8 m s1 =? ld8 m s2) then ld8 m s1 - ld8 m s2
            else memcmp_loop m (s1 + 1) (s2 + 1) n'
  end.

Definition memcmp (m : mem) (v1 v2 n : Z) : Z := memcmp_loop m v1 v2 (Z.to_nat (u32 n)).

(** [while(n-- > 0) *--d = *--s;] *)
Fixpoint copy_down (m : mem) (d s : Z) (n : nat) : mem :=
  match n with
  | O => m
  | S n' => copy_down (st8 m (d - 1) (ld8 m (s - 1))) (d - 1) (s - 1) n'
  end.

(** [while(n-- > 0) *d++ = *s++;] *)
Fixpoint copy_up (m : mem) (d s : Z) (n : nat) : mem :=
  match n with
  | O => m
  | S n' => copy_up (st8 m d (ld8 m s)) (d + 1) (s + 1) n'
  end.

Definition memmove (m : mem) (dst src n : Z) : mem :=
  let n := u32 n in
  if n =? 0 then m
  else if (src <? dst) && (dst <? src + n)
       then copy_down m (dst + n) (src + n) (Z.to_nat n)
       else copy_up m dst src (Z.to_nat n).

Definition memcpy (m : mem) (dst src n : Z) : mem := memmove m dst src n.

Fixpoint strncmp_loop (m : mem) (p q : Z) (n : nat) : Z :=
  match n with
  | O => 0
  | S n' => if negb (ld8 m p =? 0) && (ld8 m p =? ld8 m q)
            then strncmp_loop m (p + 1) (q + 1) n'
            else ld8 m p - ld8 m q
  end.

Definition strncmp (m : mem) (p q n : Z) : Z := strncmp_loop m p q (Z.to_nat (u32 n)).

(** The second loop of [strncpy]: [while(n-- > 0) *s++ = 0;] *)
Fixpoint zero_fill (m : mem) (s : Z) (n : nat) : mem :=
  match n with
  | O => m
  | S n' => zero_fill (st8 m s 0) (s + 1) n'
  end.

Fixpoint strncpy_loop (m : mem) (s t : Z) (n : nat) : mem :=
  match n with
  | O => m
  | S n' =>
      let c := ld8 m t in
      let m' := st8 m s c in
      if negb (c =? 0) then strncpy_loop m' (s + 1) (t + 1) n'
      else zero_fill m' (s + 1) n'
  end.

Definition strncpy (m : mem) (s t n : Z) : mem := strncpy_loop m s t (Z.to_nat n).

(** [k] is the value of [--n] before the test. *)
Fixpoint safestrcpy_loop (m : mem) (s t : Z) (k : nat) : mem :=
  match k with
  | O => st8 m s 0
  | S k' =>
      let c := ld8 m t in
      let m' := st8 m s c in
      if negb (c =? 0) then safestrcpy_loop m' (s + 1) (t + 1) k'
      else st8 m' (s + 1) 0
  end.

Definition safestrcpy (m : mem) (s t n : Z) : mem :=
  if n <=? 0 then m else safestrcpy_loop m s t (Z.to_nat (n - 1)).

(** [strlen] runs until it meets a NUL; [fuel] bounds the scan by the size
    of the buffer the caller passes. *)
Fixpoint strlen_loop (m : mem) (s : Z) (fuel : nat) (n : Z) : outcome Z :=
  if ld8 m (s + n) =? 0 then Ok n
  else match fuel with
       | O => NoFuel
       | S f => strlen_loop m s f (n + 1)
       end.

Definition strlen (fuel : nat) (m : mem) (s : Z) : outcome Z := strlen_loop m s fuel 0.

(** ** Lemmas on loads and stores *)

Lemma ld8_st8_eq m a v : ld8 (st8 m a v) a = u8 v.
Proof. unfold ld8, st8. by rewrite lookup_insert_eq. Qed.

Lemma ld8_st8_ne m a b v : a <> b -> ld8 (st8 m a v) b = ld8 m b.
Proof. intros. unfold ld8, st8. by rewrite lookup_insert_ne. Qed.

Lemma ld8_st8 m a b v : ld8 (st8 m a v) b = if decide (a = b) then u8 v else ld8 m b.
Proof. case_decide; [subst; apply ld8_st8_eq | by apply ld8_st8_ne]. Qed.

Lemma ld_le_ext m m' a n :
  (forall x, a <= x < a + Z.of_nat n -> ld8 m x = ld8 m' x) -> ld_le m a n = ld_le m' a n.
Proof.
  revert a; induction n as [|n IH]; intros a H; simpl; [done|].
  rewrite (H a), (IH (a + 1)); [done| |lia]. intros; apply H; lia.
Qed.

Lemma ld8_st_le_other m a v n x :
  x < a \/ a + Z.of_nat n <= x -> ld8 (st_le m a v n) x = ld8 m x.
Proof.
  revert m a v; induction n as [|n IH]; intros m a v H; simpl; [done|].
  rewrite IH by lia. apply ld8_st8_ne; lia.
Qed.

Lemma ld_le_st_le_same m a v n :
  0 <= v < 256 ^ Z.of_nat n -> ld_le (st_le m a v n) a n = v.
Proof.
  revert m a v; induction n as [|n IH]; intros m a v H.
  { simpl in *; lia. }
  rewrite Nat2Z.inj_succ, Z.pow_succ_r in H by lia. cbn [ld_le st_le].
  rewrite ld8_st_le_other, ld8_st8_eq, IH by zlia. unfold u8. zlia.
Qed.

Lemma ld_le_st_le_other m a v n b k :
  b + Z.of_nat k <= a \/ a + Z.of_nat n <= b -> ld_le (st_le m a v n) b k = ld_le m b k.
Proof. intros. apply ld_le_ext. intros. apply ld8_st_le_other. lia. Qed.

Lemma ld_le_range m a n :
  (forall x, a <= x < a + Z.of_nat n -> 0 <= ld8 m x < 256) ->
  0 <= ld_le m a n < 256 ^ Z.of_nat n.
Proof.
  revert a; induction n as [|n IH]; intros a H; [simpl; lia|].
  rewrite Nat2Z.inj_succ, Z.pow_succ_r by lia. simpl.
  specialize (IH (a + 1)). pose proof (H a ltac:(lia)).
  assert (0 <= ld_le m (a + 1) n < 256 ^ Z.of_nat n) by (apply IH; intros; apply H; lia).
  lia.
Qed.

Lemma ld64_st64_eq m a v : ld64 (st64 m a v) a = u64 v.
Proof. apply ld_le_st_le_same. apply u64_range. Qed.

Lemma ld64_st64_ne m a b v : b + 8 <= a \/ a + 8 <= b -> ld64 (st64 m a v) b = ld64 m b.
Proof. intros. apply ld_le_st_le_other. lia. Qed.

Lemma ld64_ext m m' a :
  (forall x, a <= x < a + 8 -> ld8 m x = ld8 m' x) -> ld64 m a = ld64 m' a.
Proof. intros. by apply ld_le_ext. Qed.

Lemma ld64_zero m a : (forall x, a <= x < a + 8 -> ld8 m x = 0) -> ld64 m a = 0.
Proof. intros H. rewrite (ld64_ext m ∅); [done|]. intros. by rewrite H. Qed.

Lemma ld8_st64_other m a v x : x < a \/ a + 8 <= x -> ld8 (st64 m a v) x = ld8 m x.
Proof. intros. apply ld8_st_le_other. lia. Qed.

#[export] Hint Rewrite ld8_st8_eq ld64_st64_eq : kern.
#[export] Hint Rewrite ld8_st8_ne ld64_st64_ne ld8_st64_other using lia : kern.

Lemma length_bytes m a n : length (bytes m a n) = n.
Proof. revert a; induction n as [|n IH]; intros a; simpl; auto. Qed.

Lemma lookup_bytes m a n i :
  (i < n)%nat -> bytes m a n !! i = Some (ld8 m (a + Z.of_nat i)).
Proof.
  revert a i; induction n as [|n IH]; intros a i H; [lia|].
  destruct i as [|i]; simpl; [by rewrite Z.add_0_r|].
  rewrite IH by lia. do 2 f_equal; lia.
Qed.

Lemma bytes_ext m m' a a' n :
  (forall i, 0 <= i < Z.of_nat n -> ld8 m (a + i) = ld8 m' (a' + i)) ->
  bytes m a n = bytes m' a' n.
Proof.
  intros H. apply list_eq_same_length with n; rewrite ?length_bytes; auto.
  intros i x y Hi. rewrite !lookup_bytes by lia. intros [= <-] [= <-]. apply H; lia.
Qed.

Lemma ld8_st_bytes_other m a l x :
  x < a \/ a + Z.of_nat (length l) <= x -> ld8 (st_bytes m a l) x = ld8 m x.
Proof.
  revert m a; induction l as [|b l IH]; intros m a H; simpl in *; [done|].
  rewrite IH by lia. apply ld8_st8_ne; lia.
Qed.

Lemma ld8_st_bytes_in m a l x b :
  l !! x = Some b -> ld8 (st_bytes m a l) (a + Z.of_nat x) = u8 b.
Proof.
  revert m a x; induction l as [|c l IH]; intros m a x H; [done|].
  destruct x as [|x]; simpl in *.
  - injection H as <-. rewrite ld8_st_bytes_other, Z.add_0_r by lia. apply ld8_st8_eq.
  - replace (a + Z.of_nat (S x)) with (a + 1 + Z.of_nat x) by lia. by apply IH.
Qed.

Lemma st64_unfold m a v : st64 m a v = st_le m a (u64 v) 8.
Proof. done. Qed.

(** Memory all of whose bytes are in range. *)
Definition mem_wf (m : mem) : Prop := forall a, 0 <= ld8 m a < 256.

Lemma st8_wf m a v : mem_wf m -> mem_wf (st8 m a v).
Proof. intros H x. rewrite ld8_st8. case_decide; auto with kern. Qed.
#[export] Hint Resolve st8_wf : kern.

Lemma st_le_wf m a v n : mem_wf m -> mem_wf (st_le m a v n).
Proof. revert m a v; induction n as [|n IH]; intros m a v Hm; simpl; auto with kern. Qed.

Lemma st64_wf m a v : mem_wf m -> mem_wf (st64 m a v).
Proof. apply st_le_wf. Qed.

Lemma st_bytes_wf m a l : mem_wf m -> mem_wf (st_bytes m a l).
Proof. revert m a; induction l as [|b l IH]; intros m a Hm; simpl; auto with kern. Qed.
#[export] Hint Resolve st64_wf st_bytes_wf : kern.

(** ** Correctness of the string functions *)

Lemma memset_loop_spec m d c k i x :
  ld8 (memset_loop m d c k i) x =
  if decide (d + i <= x < d + i + Z.of_nat k) then u8 c else ld8 m x.
Proof.
  revert m i; induction k as [|k IH]; intros m i; simpl.
  { by rewrite decide_False by lia. }
  rewrite IH, ld8_st8. repeat case_decide; try lia; done.
Qed.

Lemma memset_spec m d c n x :
  0 <= n < 4294967296 ->
  ld8 (memset m d c n) x = if decide (d <= x < d + n) then u8 c else ld8 m x.
Proof.
  intros Hn. unfold memset. rewrite u32_id, memset_loop_spec by lia.
  repeat case_decide; try lia; done.
Qed.

Lemma memset_wf m d c n : mem_wf m -> 0 <= n < 4294967296 -> mem_wf (memset m d c n).
Proof. intros H Hn x. rewrite memset_spec by lia. case_decide; auto with kern. Qed.
#[export] Hint Resolve memset_wf : kern.

Lemma copy_up_spec m d s n x :
  mem_wf m -> (d <= s \/ s + Z.of_nat n <= d) ->
  ld8 (copy_up m d s n) x =
  if decide (d <= x < d + Z.of_nat n) then ld8 m (s + (x - d)) else ld8 m x.
Proof.
  revert m d s; induction n as [|n IH]; intros m d s Hwf Hd; simpl.
  { by rewrite decide_False by lia. }
  pose proof (Hwf s). rewrite IH by (auto with kern; lia).
  rewrite !ld8_st8. repeat case_decide; try lia; try (f_equal; lia).
  rewrite u8_id by lia. f_equal; lia.
Qed.

Lemma copy_down_spec m d s n x :
  mem_wf m -> s <= d ->
  ld8 (copy_down m d s n) x =
  if decide (d - Z.of_nat n <= x < d) then ld8 m (s + (x - d)) else ld8 m x.
Proof.
  revert m d s; induction n as [|n IH]; intros m d s Hwf Hd; simpl.
  { by rewrite decide_False by lia. }
  pose proof (Hwf (s - 1)). rewrite IH by (auto with kern; lia).
  rewrite !ld8_st8. repeat case_decide; try lia; try (f_equal; lia).
  rewrite u8_id by lia. f_equal; lia.
Qed.

(** [memmove] moves the bytes the source held before the call, also when
    the two regions overlap, and changes nothing else. *)
Lemma memmove_at m dst src n x :
  mem_wf m -> 0 <= n < 4294967296 ->
  ld8 (memmove m dst src n) x =
  if decide (dst <= x < dst + n) then ld8 m (src + (x - dst)) else ld8 m x.
Proof.
  intros Hwf Hn. unfold memmove. rewrite u32_id by lia.
  destruct (n =? 0) eqn:E0; [bool_to_prop; by rewrite decide_False by lia|].
  destruct ((src <? dst) && (dst <? src + n)) eqn:E.
  - bool_to_prop. rewrite copy_down_spec by (auto; lia).
    repeat case_decide; try lia; f_equal; lia.
  - assert (dst <= src \/ src + n <= dst) by (bool_to_prop; lia).
    rewrite copy_up_spec by (auto; lia). repeat case_decide; try lia; done.
Qed.

Lemma memmove_wf m dst src n : mem_wf m -> 0 <= n < 4294967296 -> mem_wf (memmove m dst src n).
Proof. intros H Hn x. rewrite memmove_at by auto. case_decide; auto. Qed.
#[export] Hint Resolve memmove_wf : kern.

(** C strings over lists of bytes: comparison of at most [n] characters,
    reading a missing byte as NUL. *)
Fixpoint strncmp_l (p q : list Z) (n : nat) : Z :=
  match n with
  | O => 0
  | S n' =>
      let a := default 0 (head p) in
      let b := default 0 (head q) in
      if negb (a =? 0) && (a =? b) then strncmp_l (tail p) (tail q) n' else a - b
  end.

Lemma strncmp_bytes m p q n :
  strncmp_loop m p q n = strncmp_l (bytes m p n) (bytes m q n) n.
Proof.
  revert p q; induction n as [|n IH]; intros p q; simpl; [done|]. by rewrite IH.
Qed.

(** The string a [char] array of length [n] denotes: the bytes before the
    first NUL, all of them when there is none. *)
Fixpoint cstr (l : list Z) : list Z :=
  match l with
  | [] => []
  | b :: l' => if b =? 0 then [] else b :: cstr l'
  end.

Lemma strncmp_l_zero p q n :
  length p = n -> length q = n -> strncmp_l p q n = 0 <-> cstr p = cstr q.
Proof.
  revert p q; induction n as [|n IH]; intros [|a p] [|b q] Hp Hq; try done.
  simpl in *. destruct (a =? 0) eqn:Ea, (b =? 0) eqn:Eb, (a =? b) eqn:Eab;
    simpl; bool_to_prop; subst; try lia; try (split; [lia|done]).
  - split; intros; congruence || lia.
  - rewrite IH by lia. split; intros; congruence.
  - split; intros; [lia|congruence].
Qed.

Lemma bytes_S m a n : bytes m a (S n) = ld8 m a :: bytes m (a + 1) n.
Proof. done. Qed.

Lemma cstr_cons b l : cstr (b :: l) = if b =? 0 then [] else b :: cstr l.
Proof. done. Qed.

(** The bytes [safestrcpy] leaves at the destination. *)
Lemma safestrcpy_loop_other m s t k x :
  x < s \/ s + Z.of_nat k < x -> ld8 (safestrcpy_loop m s t k) x = ld8 m x.
Proof.
  revert m s t; induction k as [|k IH]; intros m s t H; simpl.
  { apply ld8_st8_ne; lia. }
  destruct (ld8 m t =? 0); simpl; [rewrite !ld8_st8_ne by lia; done|].
  rewrite IH by lia. apply ld8_st8_ne; lia.
Qed.

Lemma safestrcpy_loop_cstr m s t k :
  mem_wf m -> (s + Z.of_nat k < t \/ t + Z.of_nat k <= s) ->
  cstr (bytes (safestrcpy_loop m s t k) s (S k)) = cstr (bytes m t k).
Proof.
  revert m s t; induction k as [|k IH]; intros m s t Hwf Hd; [simpl|].
  { by rewrite ld8_st8_eq. }
  assert (Hdef : safestrcpy_loop m s t (S k) =
    if negb (ld8 m t =? 0) then safestrcpy_loop (st8 m s (ld8 m t)) (s + 1) (t + 1) k
    else st8 (st8 m s (ld8 m t)) (s + 1) 0) by done.
  rewrite Hdef. pose proof (Hwf t).
  rewrite bytes_S, cstr_cons, (bytes_S m t), cstr_cons.
  destruct (ld8 m t =? 0) eqn:E; cbn [negb].
  - rewrite ld8_st8_ne, ld8_st8_eq, u8_id, E by lia. done.
  - rewrite safestrcpy_loop_other, ld8_st8_eq, u8_id, E by lia. f_equal.
    rewrite IH by (auto with kern; lia). f_equal. apply bytes_ext.
    intros i Hi. apply ld8_st8_ne; lia.
Qed.

(** [safestrcpy] on disjoint buffers copies the longest prefix of the source
    string that leaves room for the NUL, and writes nothing outside the
    destination buffer. *)
Lemma safestrcpy_spec m s t n :
  mem_wf m -> 0 < n -> (s + n <= t \/ t + n - 1 <= s) ->
  cstr (bytes (safestrcpy m s t n) s (Z.to_nat n)) = cstr (bytes m t (Z.to_nat (n - 1))) /\
  (length (cstr (bytes (safestrcpy m s t n) s (Z.to_nat n))) < Z.to_nat n)%nat /\
  (forall x, x < s \/ s + n <= x -> ld8 (safestrcpy m s t n) x = ld8 m x).
Proof.
  intros Hwf Hn Hd. unfold safestrcpy.
  replace (n <=? 0) with false by (symmetry; apply Z.leb_gt; lia).
  assert (Z.to_nat n = S (Z.to_nat (n - 1))) as -> by lia.
  assert (forall l, (length (cstr l) <= length l)%nat) as Hlen.
  { induction l as [|b l IH]; simpl; [lia|]. destruct (b =? 0); simpl; lia. }
  rewrite safestrcpy_loop_cstr by (auto; lia). split_and!; [done| |].
  - specialize (Hlen (bytes m t (Z.to_nat (n - 1)))). rewrite length_bytes in Hlen. lia.
  - intros x Hx. apply safestrcpy_loop_other. lia.
Qed.

Lemma zero_fill_spec m s n x :
  ld8 (zero_fill m s n) x = if decide (s <= x < s + Z.of_nat n) then 0 else ld8 m x.
Proof.
  revert m s; induction n as [|n IH]; intros m s; simpl.
  { by rewrite decide_False by lia. }
  rewrite IH, ld8_st8. repeat case_decide; try lia; done.
Qed.

(** [strncpy] over lists: the source string padded with NULs to [n] bytes,
    cut off without a NUL when it is longer. *)
Definition strncpy_l (t : list Z) (n : nat) : list Z :=
  let s := cstr (take n t) in s ++ replicate (n - length s) 0.

Lemma strncpy_loop_other m s t n x :
  x < s \/ s + Z.of_nat n <= x -> ld8 (strncpy_loop m s t n) x = ld8 m x.
Proof.
  revert m s t; induction n as [|n IH]; intros m s t H; simpl; [done|].
  destruct (ld8 m t =? 0); simpl.
  - rewrite zero_fill_spec, decide_False by lia. apply ld8_st8_ne; lia.
  - rewrite IH by lia. apply ld8_st8_ne; lia.
Qed.

Lemma bytes_replicate m a n :
  (forall i, 0 <= i < Z.of_nat n -> ld8 m (a + i) = 0) -> bytes m a n = replicate n 0.
Proof.
  revert a; induction n as [|n IH]; intros a H; simpl; [done|].
  rewrite IH by (intros i Hi; replace (a + 1 + i) with (a + (1 + i)) by lia; apply H; lia).
  f_equal. rewrite <- (Z.add_0_r a). apply H; lia.
Qed.

Lemma strncpy_spec m s t n :
  mem_wf m -> (s + Z.of_nat n <= t \/ t + Z.of_nat n <= s) ->
  bytes (strncpy_loop m s t n) s n = strncpy_l (bytes m t n) n.
Proof.
  revert m s t; induction n as [|n IH]; intros m s t Hwf Hd; [done|].
  pose proof (Hwf t). cbn [strncpy_loop bytes]. unfold strncpy_l. cbn [take cstr].
  destruct (ld8 m t =? 0) eqn:E; cbn [negb].
  - bool_to_prop. rewrite zero_fill_spec, decide_False, ld8_st8_eq, E by lia. simpl.
    f_equal. apply bytes_replicate. intros i Hi. rewrite zero_fill_spec, decide_True by lia. done.
  - rewrite strncpy_loop_other, ld8_st8_eq, u8_id by lia. simpl. f_equal.
    rewrite IH by (auto with kern; lia). unfold strncpy_l.
    rewrite (bytes_ext _ m (t + 1) (t + 1)); [done|].
    intros i Hi. apply ld8_st8_ne; lia.
Qed.

(** [strlen] returns the position of the first NUL. *)
Lemma strlen_loop_spec m s k n f :
  (forall i, 0 <= i < Z.of_nat k -> ld8 m (s + n + i) <> 0) ->
  ld8 m (s + n + Z.of_nat k) = 0 -> (k <= f)%nat ->
  strlen_loop m s f n = Ok (n + Z.of_nat k).
Proof.
  revert n f; induction k as [|k IH]; intros n f Hnz Hz Hf.
  - rewrite Z.add_0_r in *. destruct f; simpl; rewrite Hz; done.
  - destruct f as [|f]; [lia|]. simpl.
    rewrite (proj2 (Z.eqb_neq _ _)) by (rewrite <- (Z.add_0_r (s + n)); apply Hnz; lia).
    rewrite IH; [f_equal; lia| | |lia].
    + intros i Hi. replace (s + (n + 1) + i) with (s + n + (1 + i)) by lia. apply Hnz; lia.
    + rewrite <- Hz. f_equal; lia.
Qed.

(** The byte loops are reasoned about through the lemmas above only. *)
#[global] Opaque memset memmove memcpy ld64 st64 ld32 st32.
