(* ===== verification/Riscv.v ===== *)
(** * Address arithmetic of kernel/riscv.h and kernel/memlayout.h

    The macros are translated with the bit operations they use, on 64-bit
    unsigned values; the lemmas restate them as division and remainder so
    that [lia] applies. *)
From S2P Require Import Prelude.

Definition PGSIZE : Z := 4096.
Definition PGSHIFT : Z := 12.
Definition PGROUNDUP (sz : Z) : Z := Z.land (u64 (sz + PGSIZE - 1)) (Z.lnot (PGSIZE - 1)).
Definition PGROUNDDOWN (a : Z) : Z := Z.land a (Z.lnot (PGSIZE - 1)).

Definition PTE_V : Z := 1.
Definition PTE_R : Z := 2.
Definition PTE_W : Z := 4.
Definition PTE_X : Z := 8.
Definition PTE_U : Z := 16.

Definition PA2PTE (pa : Z) : Z := u64 (Z.shiftl (Z.shiftr pa 12) 10).
Definition PTE2PA (pte : Z) : Z := u64 (Z.shiftl (Z.shiftr pte 10) 12).
Definition PTE_FLAGS (pte : Z) : Z := Z.land pte 1023.

Definition PXMASK : Z := 511.
Definition PXSHIFT (level : Z) : Z := PGSHIFT + 9 * level.
Definition PX (level va : Z) : Z := Z.land (Z.shiftr va (PXSHIFT level)) PXMASK.

Definition MAXVA : Z := Z.shiftl 1 (9 + 9 + 9 + 12 - 1).
Definition SATP_SV39 : Z := Z.shiftl 8 60.
Definition MAKE_SATP (pagetable : Z) : Z := Z.lor SATP_SV39 (Z.shiftr pagetable 12).

Definition KERNBASE : Z := 2147483648.
Definition PHYSTOP : Z := KERNBASE + 128 * 1024 * 1024.
Definition TRAMPOLINE : Z := MAXVA - PGSIZE.
Definition KSTACK (p : Z) : Z := TRAMPOLINE - (p + 1) * 2 * PGSIZE.
Definition TRAPFRAME : Z := TRAMPOLINE - PGSIZE.

(** ** The macros as arithmetic *)

Lemma land_lnot_ones x n : 0 <= n -> Z.land x (Z.lnot (Z.ones n)) = x / 2 ^ n * 2 ^ n.
Proof.
  intros. rewrite <- Z.shiftl_mul_pow2, <- Z.shiftr_div_pow2 by lia.
  rewrite <- Z.ldiff_land. by apply Z.ldiff_ones_r.
Qed.

Lemma PGROUNDDOWN_eq a : PGROUNDDOWN a = a / 4096 * 4096.
Proof. exact (land_lnot_ones a 12 ltac:(lia)). Qed.

Lemma PGROUNDUP_eq sz :
  0 <= sz < 18446744073709547520 -> PGROUNDUP sz = (sz + 4095) / 4096 * 4096.
Proof.
  intros. unfold PGROUNDUP, PGSIZE. rewrite u64_id by lia.
  replace (sz + 4096 - 1) with (sz + 4095) by lia. exact (land_lnot_ones _ 12 ltac:(lia)).
Qed.

Lemma PX_eq level va : 0 <= level -> PX level va = va / 2 ^ (12 + 9 * level) mod 512.
Proof.
  intros. unfold PX, PXSHIFT, PGSHIFT, PXMASK. rewrite Z.shiftr_div_pow2 by lia.
  exact (Z.land_ones _ 9 ltac:(lia)).
Qed.

Lemma PX_range level va : 0 <= level -> 0 <= PX level va < 512.
Proof. intros. rewrite PX_eq by lia. zlia. Qed.

Lemma PX0 va : PX 0 va = va / 4096 mod 512.
Proof. by rewrite PX_eq by lia. Qed.
Lemma PX1 va : PX 1 va = va / 2097152 mod 512.
Proof. by rewrite PX_eq by lia. Qed.
Lemma PX2 va : PX 2 va = va / 1073741824 mod 512.
Proof. by rewrite PX_eq by lia. Qed.

Lemma MAXVA_eq : MAXVA = 274877906944.
Proof. reflexivity. Qed.
Lemma TRAMPOLINE_eq : TRAMPOLINE = 274877902848.
Proof. reflexivity. Qed.
Lemma TRAPFRAME_eq : TRAPFRAME = 274877898752.
Proof. reflexivity. Qed.
Lemma PHYSTOP_eq : PHYSTOP = 2281701376.
Proof. reflexivity. Qed.

Lemma PA2PTE_eq pa : 0 <= pa < 2 ^ 56 -> PA2PTE pa = pa / 4096 * 1024.
Proof.
  intros. unfold PA2PTE. rewrite Z.shiftr_div_pow2, Z.shiftl_mul_pow2 by lia.
  change (2 ^ 12) with 4096. change (2 ^ 10) with 1024. apply u64_id.
  change (2 ^ 56) with 72057594037927936 in *. zlia.
Qed.

Lemma PTE2PA_eq pte : 0 <= pte < 2 ^ 54 -> PTE2PA pte = pte / 1024 * 4096.
Proof.
  intros. unfold PTE2PA. rewrite Z.shiftr_div_pow2, Z.shiftl_mul_pow2 by lia.
  change (2 ^ 12) with 4096. change (2 ^ 10) with 1024. apply u64_id.
  change (2 ^ 54) with 18014398509481984 in *. zlia.
Qed.

Lemma PTE_FLAGS_eq pte : PTE_FLAGS pte = pte mod 1024.
Proof. exact (Z.land_ones _ 10 ltac:(lia)). Qed.

Lemma land_high_low hi lo n : 0 <= n -> 0 <= lo < 2 ^ n -> Z.land (hi * 2 ^ n) lo = 0.
Proof.
  intros Hn Hlo. rewrite <- (Z.mod_small lo (2 ^ n)) by lia.
  rewrite <- Z.land_ones, (Z.land_comm lo), Z.land_assoc, Z.land_ones, Z.mod_mul by lia. done.
Qed.

(** Or-ing flag bits below the page number is addition. *)
Lemma lor_low_add hi lo n : 0 <= n -> 0 <= lo < 2 ^ n -> Z.lor (hi * 2 ^ n) lo = hi * 2 ^ n + lo.
Proof.
  intros. rewrite Z.add_nocarry_lxor, Z.lxor_lor; auto using land_high_low.
Qed.

(** A page-table entry for an aligned physical page and ten flag bits. *)
Lemma pte_pack pa fl :
  0 <= pa < 2 ^ 56 -> 0 <= fl < 1024 ->
  Z.lor (PA2PTE pa) fl = pa / 4096 * 1024 + fl.
Proof.
  intros. rewrite PA2PTE_eq by lia. exact (lor_low_add (pa / 4096) fl 10 ltac:(lia) ltac:(lia)).
Qed.

Lemma pte_unpack pa fl :
  0 <= pa < 2 ^ 56 -> pa mod 4096 = 0 -> 0 <= fl < 1024 ->
  PTE2PA (Z.lor (PA2PTE pa) fl) = pa /\ PTE_FLAGS (Z.lor (PA2PTE pa) fl) = fl.
Proof.
  intros Hpa Ha Hf. rewrite pte_pack by lia.
  change (2 ^ 56) with 72057594037927936 in *.
  rewrite PTE2PA_eq, PTE_FLAGS_eq by (change (2 ^ 54) with 18014398509481984; zlia).
  split; zlia.
Qed.

(** Testing one flag bit of a word. *)
Definition has (x bit : Z) : bool := negb (Z.land x bit =? 0).

Lemma has_V x : has x PTE_V = Z.odd x.
Proof.
  unfold has, PTE_V. change 1 with (Z.ones 1). rewrite Z.land_ones by lia.
  change (2 ^ 1) with 2. rewrite Zmod_odd. by destruct (Z.odd x).
Qed.

#[global] Opaque PA2PTE PTE2PA PTE_FLAGS PX PGROUNDUP PGROUNDDOWN.
