(* ===== verification/Kalloc.v ===== *)
(** * kernel/kalloc.c: the physical page allocator

    The free pages form a linked list threaded through their first eight
    bytes.  [kend] is the linker symbol [end].  A critical section under
    [kmem.lock] is one step; the lock itself is modelled in Spinlock.v. *)
From S2P Require Import Prelude Cstring Riscv.

(** Physical memory with the head of [kmem.freelist]. *)
Record phys := Phys { pmem : mem; freelist : Z }.

Section Kalloc.
Variable kend : Z.

Definition kfree (pa : Z) (s : phys) : outcome phys :=
  if negb (pa mod PGSIZE =? 0) || (pa <? kend) || (PHYSTOP <=? pa) then Panic "kfree"
  else
    let m := memset (pmem s) pa 1 PGSIZE in
    let r := pa in
    Ok (Phys (st64 m r (freelist s)) r).

Definition kalloc (s : phys) : Z * phys :=
  let r := freelist s in
  let s := if negb (r =? 0) then Phys (pmem s) (ld64 (pmem s) r) else s in
  let s := if negb (r =? 0) then Phys (memset (pmem s) r 5 PGSIZE) (freelist s) else s in
  (r, s).

Fixpoint freerange_loop (fuel : nat) (p pa_end : Z) (s : phys) : outcome phys :=
  if p + PGSIZE <=? pa_end then
    match fuel with
    | O => NoFuel
    | S f => s ← kfree p s; freerange_loop f (p + PGSIZE) pa_end s
    end
  else Ok s.

(** One iteration per page between the bounds. *)
Definition freerange (pa_start pa_end : Z) (s : phys) : outcome phys :=
  freerange_loop (Z.to_nat ((pa_end - pa_start) / PGSIZE + 1)) (PGROUNDUP pa_start) pa_end s.

(** [kmem] is zero-initialised static data. *)
Definition kinit (m : mem) : outcome phys := freerange kend PHYSTOP (Phys m 0).

(** ** The free list *)

(** An address [kfree] accepts. *)
Definition page_ok (p : Z) : Prop := p mod PGSIZE = 0 /\ kend <= p < PHYSTOP.

(** The list of pages starting at [h]. *)
Fixpoint freelist_at (m : mem) (h : Z) (l : list Z) : Prop :=
  match l with
  | [] => h = 0
  | p :: l' => h = p /\ freelist_at m (ld64 m p) l'
  end.

Record kalloc_inv (s : phys) (l : list Z) : Prop := {
  ki_list : freelist_at (pmem s) (freelist s) l;
  ki_nodup : NoDup l;
  ki_pages : Forall page_ok l;
  ki_wf : mem_wf (pmem s)
}.

Lemma freelist_at_ext m m' h l :
  (forall p x, p ∈ l -> p <= x < p + 8 -> ld8 m' x = ld8 m x) ->
  freelist_at m h l -> freelist_at m' h l.
Proof.
  revert h; induction l as [|p l IH]; intros h H; simpl; [done|].
  intros [-> Hl]. split; [done|].
  assert (ld64 m' p = ld64 m p) as ->.
  { apply ld64_ext. intros. apply (H p); [set_solver|lia]. }
  apply IH; [|done]. intros q x Hq. apply H. set_solver.
Qed.

Lemma page_disjoint p q x :
  page_ok p -> page_ok q -> p <> q -> p <= x < p + PGSIZE -> x < q \/ q + PGSIZE <= x.
Proof. unfold page_ok, PGSIZE. intros [] [] ? ?. zlia. Qed.

(** Writes outside the free pages keep the free list. *)
Lemma kalloc_inv_write s l m :
  kalloc_inv s l -> mem_wf m ->
  (forall p x, p ∈ l -> p <= x < p + PGSIZE -> ld8 m x = ld8 (pmem s) x) ->
  kalloc_inv (Phys m (freelist s)) l.
Proof.
  intros [Hl Hnd Hp Hw] Hm H. split; simpl; auto.
  eapply freelist_at_ext; [|done]. intros p x Hpl Hx. apply (H p); [done|]. unfold PGSIZE; lia.
Qed.

Hypothesis Hkend : 0 < kend.

(** What [kalloc] returns and leaves, as a function of the free list. *)
Lemma kalloc_nil s : kalloc_inv s [] -> kalloc s = (0, s).
Proof. intros []. simpl in *. unfold kalloc. by rewrite ki_list0. Qed.

Lemma kalloc_cons s p l r s' :
  kalloc_inv s (p :: l) -> kalloc s = (r, s') ->
  r = p /\ kalloc_inv s' l /\
  (forall x, ld8 (pmem s') x = if decide (p <= x < p + PGSIZE) then 5 else ld8 (pmem s) x).
Proof.
  intros [[Hh Hl] Hnd Hp Hwf] E. unfold kalloc in E. rewrite Hh in E.
  apply Forall_cons in Hp as [Hpp Hp]. apply list.NoDup_cons in Hnd as [Hni Hnd].
  assert (p <> 0) by (destruct Hpp as [_ ?]; lia).
  replace (p =? 0) with false in E by (symmetry; by apply Z.eqb_neq).
  simpl in E. injection E as <- <-.
  assert (Hmem : forall x, ld8 (memset (pmem s) p 5 PGSIZE) x =
            if decide (p <= x < p + PGSIZE) then 5 else ld8 (pmem s) x).
  { intros. by rewrite memset_spec by (unfold PGSIZE; lia). }
  split_and!; [done| |done]. split; simpl; auto.
  - eapply freelist_at_ext; [|done]. intros q x Hq Hx. rewrite Hmem, decide_False; [done|].
    rewrite Forall_forall in Hp. specialize (Hp q Hq).
    destruct (page_disjoint q p x) as [|]; auto; [set_solver| |lia|lia].
    unfold PGSIZE; lia.
  - apply memset_wf; [done|]. unfold PGSIZE; lia.
Qed.

Lemma kfree_ok s p l :
  kalloc_inv s l -> page_ok p -> p ∉ l ->
  exists s', kfree p s = Ok s' /\ kalloc_inv s' (p :: l) /\
    (forall x, x < p \/ p + PGSIZE <= x -> ld8 (pmem s') x = ld8 (pmem s) x).
Proof.
  intros [Hl Hnd Hp Hwf] Hpp Hni. pose proof Hpp as [Hal Hb].
  unfold kfree. rewrite Hal, Z.eqb_refl.
  replace (p <? kend) with false by (symmetry; apply Z.ltb_ge; lia).
  replace (PHYSTOP <=? p) with false by (symmetry; apply Z.leb_gt; lia). simpl.
  eexists; split; [done|]. rewrite PHYSTOP_eq in *.
  assert (Hout : forall x, x < p \/ p + PGSIZE <= x ->
    ld8 (st64 (memset (pmem s) p 1 PGSIZE) p (freelist s)) x = ld8 (pmem s) x).
  { intros x Hx. unfold PGSIZE in *.
    rewrite ld8_st64_other, memset_spec, decide_False by lia. done. }
  assert (Hfl : 0 <= freelist s < 18446744073709551616).
  { destruct l as [|q l]; simpl in Hl; [lia|]. destruct Hl as [-> _].
    apply Forall_cons in Hp as [[_ ?] _]. rewrite PHYSTOP_eq in *. lia. }
  split; [|done]. split; simpl.
  - split; [done|]. rewrite ld64_st64_eq, u64_id by lia.
    eapply freelist_at_ext; [|done]. intros q x Hq Hx. apply Hout.
    rewrite Forall_forall in Hp. apply (page_disjoint q p x); auto; [set_solver|].
    unfold PGSIZE; lia.
  - apply NoDup_cons. split; [done|done].
  - by apply Forall_cons.
  - apply st64_wf, memset_wf; [done|]. unfold PGSIZE; lia.
Qed.

(** ** Start-up *)

Fixpoint pages (p : Z) (n : nat) : list Z :=
  match n with
  | O => []
  | S k => p :: pages (p + PGSIZE) k
  end.

Lemma elem_of_pages p n q :
  q ∈ pages p n <-> exists i, 0 <= i < Z.of_nat n /\ q = p + PGSIZE * i.
Proof.
  revert p; induction n as [|n IH]; intros p; simpl.
  - split; [set_solver|]. intros (i & ? & _). lia.
  - rewrite elem_of_cons, IH. split.
    + intros [->|(i & Hi & ->)]; [exists 0; lia|exists (i + 1); unfold PGSIZE; lia].
    + intros (i & Hi & ->). destruct (decide (i = 0)) as [->|]; [left; lia|].
      right. exists (i - 1). unfold PGSIZE; lia.
Qed.

Lemma freerange_loop_ok n fuel p pe s l :
  (n <= fuel)%nat -> p + PGSIZE * Z.of_nat n <= pe < p + PGSIZE * (Z.of_nat n + 1) ->
  pe <= PHYSTOP -> p mod PGSIZE = 0 -> kend <= p -> kalloc_inv s l -> Forall (fun q => q < p) l ->
  exists s', freerange_loop fuel p pe s = Ok s' /\ kalloc_inv s' (reverse (pages p n) ++ l).
Proof.
  revert fuel p s l; induction n as [|n IH]; intros fuel p s l Hf Hpe Hstop Hal Hk Hinv Hlt.
  - exists s. split; [|done]. destruct fuel; simpl; unfold PGSIZE in *; ztest; done.
  - destruct fuel as [|fuel]; [lia|]. simpl. unfold PGSIZE in *. ztest.
    destruct (kfree_ok s p l) as (s1 & -> & Hinv1 & _); [done|split; unfold PGSIZE; lia| |].
    { rewrite Forall_forall in Hlt. intros Hin. specialize (Hlt p Hin). lia. }
    simpl. destruct (IH fuel (p + 4096) s1 (p :: l)) as (s' & -> & Hinv'); try lia; try done.
    { zlia. }
    { apply Forall_cons. split; [lia|]. eapply Forall_impl; [done|]. simpl; lia. }
    exists s'. split; [done|]. rewrite reverse_cons, <- app_assoc. done.
Qed.

(** After [kinit] every page between [end] and [PHYSTOP] is on the free
    list, once. *)
Lemma kinit_ok m :
  mem_wf m -> kend <= PHYSTOP ->
  exists s l, kinit m = Ok s /\ kalloc_inv s l /\ (forall q, q ∈ l <-> page_ok q).
Proof.
  intros Hwf Hk. unfold kinit, freerange. rewrite PHYSTOP_eq in Hk.
  rewrite PGROUNDUP_eq by lia.
  set (p := (kend + 4095) / 4096 * 4096). set (n := Z.to_nat ((PHYSTOP - p) / 4096)).
  assert (p <= 2281701376) by (unfold p; zlia).
  assert (Hn : p + 4096 * Z.of_nat n = PHYSTOP).
  { unfold n. rewrite PHYSTOP_eq, Z2Nat.id by zlia. unfold p. zlia. }
  destruct (freerange_loop_ok n (Z.to_nat ((PHYSTOP - kend) / PGSIZE + 1)) p PHYSTOP (Phys m 0) [])
    as (s & -> & Hinv); unfold PGSIZE; try lia.
  - unfold n. rewrite PHYSTOP_eq. unfold p. zlia.
  - unfold p; zlia.
  - unfold p; zlia.
  - split; simpl; auto. constructor.
  - done.
  - exists s, (reverse (pages p n)). rewrite app_nil_r in Hinv. split_and!; [done|done|].
    intros q. rewrite elem_of_reverse, elem_of_pages. unfold page_ok, PGSIZE. split.
    + intros (i & Hi & ->). split; [unfold p; zlia|]. unfold p in *; zlia.
    + intros [Hal Hb]. exists ((q - p) / 4096). unfold p in *. zlia.
Qed.

(** ** The allocator and its clients

    A state is the allocator's memory together with the set of pages that
    clients hold.  Between calls a client may write the pages it holds. *)
Inductive kstep : phys * gset Z -> phys * gset Z -> Prop :=
| kstep_alloc s s' A r :
    kalloc s = (r, s') -> r <> 0 -> kstep (s, A) (s', {[r]} ∪ A)
| kstep_alloc_fail s s' A :
    kalloc s = (0, s') -> kstep (s, A) (s', A)
| kstep_free s s' A p :
    p ∈ A -> kfree p s = Ok s' -> kstep (s, A) (s', A ∖ {[p]})
| kstep_write s m A :
    mem_wf m ->
    (forall x, ld8 m x <> ld8 (pmem s) x -> exists p, p ∈ A /\ p <= x < p + PGSIZE) ->
    kstep (s, A) (Phys m (freelist s), A).

(** Every page is either on the free list or held by a client. *)
Definition partitioned (st : phys * gset Z) : Prop :=
  exists l, kalloc_inv st.1 l /\ (forall p, p ∈ l -> p ∉ st.2) /\
    (forall p, page_ok p <-> p ∈ l \/ p ∈ st.2).

Lemma partitioned_init m s :
  mem_wf m -> kend <= PHYSTOP -> kinit m = Ok s -> partitioned (s, ∅).
Proof.
  intros Hwf Hk E. destruct (kinit_ok m Hwf Hk) as (s' & l & E' & Hinv & Hl).
  rewrite E in E'. injection E' as <-. exists l. split_and!; [done|set_solver|].
  intros p. rewrite Hl. set_solver.
Qed.

Lemma partitioned_step st st' : kstep st st' -> partitioned st -> partitioned st'.
Proof.
  intros Hs (l & Hinv & Hdis & Hall). destruct Hs as [s s' A r E Hr|s s' A E|s s' A p Hp E|s m A Hwf Hm];
    simpl in *.
  - destruct l as [|p l]; [rewrite (kalloc_nil s Hinv) in E; congruence|].
    destruct (kalloc_cons s p l r s' Hinv E) as (-> & Hinv' & _).
    pose proof (ki_nodup _ _ Hinv) as Hnd. apply NoDup_cons in Hnd as [Hni _].
    exists l. simpl. split_and!; [done|set_solver|]. intros q. rewrite Hall. set_solver.
  - destruct l as [|p l]; [rewrite (kalloc_nil s Hinv) in E; injection E as <-; by exists []|].
    destruct (kalloc_cons s p l 0 s' Hinv E) as (Hp0 & _ & _).
    pose proof (ki_pages _ _ Hinv) as Hp. apply Forall_cons in Hp as [[_ ?] _]. lia.
  - assert (page_ok p) as Hpp by (apply Hall; auto).
    destruct (kfree_ok s p l Hinv Hpp) as (s1 & E1 & Hinv1 & _); [intros H; by apply (Hdis p)|].
    rewrite E in E1. injection E1 as <-. exists (p :: l). simpl. split_and!; [done|set_solver|].
    intros q. rewrite Hall. destruct (decide (q = p)); set_solver.
  - exists l. split_and!; [|done|done]. destruct Hinv as [Hl Hnd Hp Hw]. split; simpl; auto.
    eapply freelist_at_ext; [|done]. intros q x Hq Hx.
    destruct (decide (ld8 m x = ld8 (pmem s) x)) as [|Hne]; [done|].
    destruct (Hm x Hne) as (p & HpA & Hpx). rewrite Forall_forall in Hp.
    assert (page_ok p) as Hpp by (apply Hall; auto).
    destruct (page_disjoint q p x) as [|]; auto; try lia; [|unfold PGSIZE; lia].
    intros ->. by apply (Hdis p).
Qed.

End Kalloc.

(** C1: the page allocator partitions physical memory.  [kinit] succeeds,
    and whatever sequence of [kalloc], [kfree] and client writes follows,
    every page between [end] and [PHYSTOP] is either on the free list or held
    by a client, never both.  So [kalloc] returns a page that nobody holds,
    fails only when every page is held, and [kfree] of a held page does not
    panic. *)
Theorem kalloc_partition kend m :
  0 < kend -> kend <= PHYSTOP -> mem_wf m ->
  exists s0, kinit kend m = Ok s0 /\
  forall st, rtc (kstep kend) (s0, ∅) st ->
    partitioned kend st /\
    (forall r s', kalloc st.1 = (r, s') ->
       if decide (r = 0) then forall p, page_ok kend p -> p ∈ st.2 else page_ok kend r /\ r ∉ st.2) /\
    (forall p, p ∈ st.2 -> is_ok (kfree kend p st.1) = true).
Proof.
  intros Hk0 Hk Hwf. destruct (kinit_ok kend Hk0 m Hwf Hk) as (s0 & l0 & E & _).
  exists s0. split; [done|]. intros st Hr.
  assert (Hp : partitioned kend st).
  { pose proof (partitioned_init kend Hk0 m s0 Hwf Hk E) as H0. clear E.
    remember (s0, ∅) as st0. clear Heqst0. induction Hr; [done|].
    apply IHHr. eapply partitioned_step; eauto. }
  split; [done|]. destruct Hp as (l & Hinv & Hdis & Hall). split.
  - intros r s' Er. destruct l as [|p l].
    + rewrite (kalloc_nil kend _ Hinv) in Er. injection Er as <- _. rewrite decide_True by done.
      intros p Hp%Hall. set_solver.
    + destruct (kalloc_cons kend Hk0 _ p l r s' Hinv Er) as (-> & _ & _).
      assert (page_ok kend p) as Hp by (apply Hall; left; set_solver).
      rewrite decide_False by (destruct Hp; lia). split; [done|apply Hdis; set_solver].
  - intros p Hp. destruct (kfree_ok kend Hk0 st.1 p l Hinv) as (s' & -> & _); [apply Hall; auto| |done].
    intros H. by apply (Hdis p).
Qed.

Lemma kalloc_partition_witness :
  exists s0, kinit (PHYSTOP - 8192) ∅ = Ok s0 /\ partitioned (PHYSTOP - 8192) (s0, ∅).
Proof.
  destruct (kalloc_partition (PHYSTOP - 8192) ∅) as (s0 & E & H);
    [reflexivity|vm_compute; congruence|intros a; unfold ld8; rewrite lookup_empty; simpl; lia|].
  exists s0. split; [exact E|]. apply (H (s0, ∅)). apply rtc_refl.
Defined.
