(* ===== verification/Vm.v ===== *)
(** * kernel/vm.c: Sv39 page tables and user address spaces

    The definitions follow kernel/vm.c function by function, together with
    [proc_pagetable] and [proc_freepagetable] of kernel/proc.c, which only
    compose them.  Page tables live in physical memory ([Kalloc.phys]); a
    [pagetable_t] is the address of a page and a [pte_t *] the address of an
    eight-byte entry.  [kend] is the linker symbol [end], [trampoline] and
    [etext] the linker symbols of the same names. *)
From S2P Require Import Prelude Cstring Riscv Kalloc.

Section Vm.
Variable kend : Z.

Definition with_mem (m : mem) (s : phys) : phys := Phys m (freelist s).

(** [walk]: the loop over [level], from [level] down to 0. *)
Fixpoint walk_loop (level : nat) (pagetable va : Z) (alloc : bool) (s : phys) : Z * phys :=
  match level with
  | O => (pagetable + 8 * PX 0 va, s)
  | S l =>
      let pte := pagetable + 8 * PX (Z.of_nat level) va in
      let e := ld64 (pmem s) pte in
      if has e PTE_V then walk_loop l (PTE2PA e) va alloc s
      else if negb alloc then (0, s)
      else
        let '(pagetable, s) := kalloc s in
        if pagetable =? 0 then (0, s)
        else
          let m := memset (pmem s) pagetable 0 PGSIZE in
          let m := st64 m pte (Z.lor (PA2PTE pagetable) PTE_V) in
          walk_loop l pagetable va alloc (with_mem m s)
  end.

Definition walk (pagetable va : Z) (alloc : bool) (s : phys) : outcome (Z * phys) :=
  if MAXVA <=? va then Panic "walk" else Ok (walk_loop 2 pagetable va alloc s).

Definition walkaddr (pagetable va : Z) (s : phys) : outcome Z :=
  if MAXVA <=? va then Ok 0
  else
    '(pte, s) ← walk pagetable va false s;
    if pte =? 0 then Ok 0
    else if negb (has (ld64 (pmem s) pte) PTE_V) then Ok 0
    else if negb (has (ld64 (pmem s) pte) PTE_U) then Ok 0
    else Ok (PTE2PA (ld64 (pmem s) pte)).

(** The [for(;;)] loop of [mappages]; [n] is the number of pages left. *)
Fixpoint mappages_loop (n : nat) (pagetable a last pa perm : Z) (s : phys) : outcome (Z * phys) :=
  match n with
  | O => NoFuel
  | S n' =>
      '(pte, s) ← walk pagetable a true s;
      if pte =? 0 then Ok (-1, s)
      else if has (ld64 (pmem s) pte) PTE_V then Panic "mappages: remap"
      else
        let e := Z.lor (Z.lor (PA2PTE pa) perm) PTE_V in
        let s := with_mem (st64 (pmem s) pte e) s in
        if a =? last then Ok (0, s)
        else mappages_loop n' pagetable (u64 (a + PGSIZE)) last (u64 (pa + PGSIZE)) perm s
  end.

Definition mappages (pagetable va size pa perm : Z) (s : phys) : outcome (Z * phys) :=
  if negb (va mod PGSIZE =? 0) then Panic "mappages: va not aligned"
  else if negb (size mod PGSIZE =? 0) then Panic "mappages: size not aligned"
  else if size =? 0 then Panic "mappages: size"
  else mappages_loop (Z.to_nat (size / PGSIZE)) pagetable va (u64 (va + size - PGSIZE)) pa perm s.

Definition kvmmap (kpgtbl va pa sz perm : Z) (s : phys) : outcome phys :=
  '(r, s) ← mappages kpgtbl va sz pa perm s;
  if negb (r =? 0) then Panic "kvmmap" else Ok s.

(** The [for] loop of [uvmunmap]: [a] runs up to [stop]. *)
Fixpoint uvmunmap_loop (n : nat) (pagetable a stop : Z) (do_free : bool) (s : phys) : outcome phys :=
  if a <? stop then
    match n with
    | O => NoFuel
    | S n' =>
        '(pte, s) ← walk pagetable a false s;
        if pte =? 0 then Panic "uvmunmap: walk"
        else if negb (has (ld64 (pmem s) pte) PTE_V) then Panic "uvmunmap: not mapped"
        else if PTE_FLAGS (ld64 (pmem s) pte) =? PTE_V then Panic "uvmunmap: not a leaf"
        else
          s ← (if do_free then kfree kend (PTE2PA (ld64 (pmem s) pte)) s else Ok s);
          let s := with_mem (st64 (pmem s) pte 0) s in
          uvmunmap_loop n' pagetable (u64 (a + PGSIZE)) stop do_free s
    end
  else Ok s.

Definition uvmunmap (pagetable va npages : Z) (do_free : bool) (s : phys) : outcome phys :=
  if negb (va mod PGSIZE =? 0) then Panic "uvmunmap: not aligned"
  else uvmunmap_loop (Z.to_nat npages) pagetable va (u64 (va + npages * PGSIZE)) do_free s.

Definition uvmcreate (s : phys) : Z * phys :=
  let '(pagetable, s) := kalloc s in
  if pagetable =? 0 then (0, s)
  else (pagetable, with_mem (memset (pmem s) pagetable 0 PGSIZE) s).

(** [src] is the list of [sz] bytes of initcode.  The result of [kalloc]
    and of [mappages] is not checked, as in the source. *)
Definition uvmfirst (pagetable : Z) (src : list Z) (s : phys) : outcome phys :=
  if PGSIZE <=? Z.of_nat (length src) then Panic "uvmfirst: more than a page"
  else
    let '(mem, s) := kalloc s in
    let s := with_mem (memset (pmem s) mem 0 PGSIZE) s in
    '(_, s) ← mappages pagetable 0 PGSIZE mem (Z.lor (Z.lor (Z.lor PTE_W PTE_R) PTE_X) PTE_U) s;
    Ok (with_mem (st_bytes (pmem s) mem src) s).

Definition uvmdealloc (pagetable oldsz newsz : Z) (s : phys) : outcome (Z * phys) :=
  if oldsz <=? newsz then Ok (oldsz, s)
  else if PGROUNDUP newsz <? PGROUNDUP oldsz then
    let npages := s32 ((PGROUNDUP oldsz - PGROUNDUP newsz) / PGSIZE) in
    s ← uvmunmap pagetable (PGROUNDUP newsz) (u64 npages) true s;
    Ok (newsz, s)
  else Ok (newsz, s).

(** The [for] loop of [uvmalloc]; [n] bounds the iterations. *)
Fixpoint uvmalloc_loop (n : nat) (pagetable a oldsz newsz xperm : Z) (s : phys)
    : outcome (Z * phys) :=
  if a <? newsz then
    match n with
    | O => NoFuel
    | S n' =>
        let '(mem, s) := kalloc s in
        if mem =? 0 then
          '(_, s) ← uvmdealloc pagetable a oldsz s;
          Ok (0, s)
        else
          let s := with_mem (memset (pmem s) mem 0 PGSIZE) s in
          '(r, s) ← mappages pagetable a PGSIZE mem (Z.lor (Z.lor PTE_R PTE_U) xperm) s;
          if negb (r =? 0) then
            s ← kfree kend mem s;
            '(_, s) ← uvmdealloc pagetable a oldsz s;
            Ok (0, s)
          else uvmalloc_loop n' pagetable (u64 (a + PGSIZE)) oldsz newsz xperm s
    end
  else Ok (newsz, s).

Definition uvmalloc (pagetable oldsz newsz xperm : Z) (s : phys) : outcome (Z * phys) :=
  if newsz <? oldsz then Ok (oldsz, s)
  else
    let oldsz := PGROUNDUP oldsz in
    uvmalloc_loop (Z.to_nat ((newsz - oldsz) / PGSIZE + 1)) pagetable oldsz oldsz newsz xperm s.

(** [freewalk] at a table of height [level]: [entries] entries are left,
    starting at index [i]; [rec] frees a child table. *)
Fixpoint freewalk_loop (rec : Z -> phys -> outcome phys) (pagetable : Z) (entries : nat) (i : Z)
    (s : phys) : outcome phys :=
  match entries with
  | O => Ok s
  | S k =>
      let pte := ld64 (pmem s) (pagetable + 8 * i) in
      if has pte PTE_V && negb (has pte (Z.lor (Z.lor PTE_R PTE_W) PTE_X)) then
        s ← rec (PTE2PA pte) s;
        let s := with_mem (st64 (pmem s) (pagetable + 8 * i) 0) s in
        freewalk_loop rec pagetable k (i + 1) s
      else if has pte PTE_V then Panic "freewalk: leaf"
      else freewalk_loop rec pagetable k (i + 1) s
  end.

(** The recursion of [freewalk] is bounded by [depth] nested tables. *)
Fixpoint freewalk (depth : nat) (pagetable : Z) (s : phys) : outcome phys :=
  match depth with
  | O => NoFuel
  | S d =>
      s ← freewalk_loop (freewalk d) pagetable 512 0 s;
      kfree kend pagetable s
  end.

(** Sv39 tables are three levels deep. *)
Definition uvmfree (pagetable sz : Z) (s : phys) : outcome phys :=
  s ← (if 0 <? sz then uvmunmap pagetable 0 (PGROUNDUP sz / PGSIZE) true s else Ok s);
  freewalk 3 pagetable s.

Fixpoint uvmcopy_loop (n : nat) (old new i sz : Z) (s : phys) : outcome (Z * phys) :=
  if i <? sz then
    match n with
    | O => NoFuel
    | S n' =>
        '(pte, s) ← walk old i false s;
        if pte =? 0 then Panic "uvmcopy: pte should exist"
        else if negb (has (ld64 (pmem s) pte) PTE_V) then Panic "uvmcopy: page not present"
        else
          let pa := PTE2PA (ld64 (pmem s) pte) in
          let flags := PTE_FLAGS (ld64 (pmem s) pte) in
          let '(mem, s) := kalloc s in
          if mem =? 0 then
            s ← uvmunmap new 0 (i / PGSIZE) true s; Ok (-1, s)
          else
            let s := with_mem (memmove (pmem s) mem pa PGSIZE) s in
            '(r, s) ← mappages new i PGSIZE mem flags s;
            if negb (r =? 0) then
              s ← kfree kend mem s;
              s ← uvmunmap new 0 (i / PGSIZE) true s; Ok (-1, s)
            else uvmcopy_loop n' old new (u64 (i + PGSIZE)) sz s
    end
  else Ok (0, s).

Definition uvmcopy (old new sz : Z) (s : phys) : outcome (Z * phys) :=
  uvmcopy_loop (Z.to_nat (sz / PGSIZE + 1)) old new 0 sz s.

Definition uvmclear (pagetable va : Z) (s : phys) : outcome phys :=
  '(pte, s) ← walk pagetable va false s;
  if pte =? 0 then Panic "uvmclear"
  else Ok (with_mem (st64 (pmem s) pte (Z.land (ld64 (pmem s) pte) (Z.lnot PTE_U))) s).

(** ** Copying between the kernel and user space

    The kernel buffer is a list of bytes: [src] for [copyout], the bytes
    stored at [dst] so far for [copyin] and [copyinstr]. *)

Fixpoint copyout_loop (n : nat) (pagetable dstva : Z) (src : list Z) (s : phys)
    : outcome (Z * phys) :=
  if 0 <? Z.of_nat (length src) then
    match n with
    | O => NoFuel
    | S n' =>
        let va0 := PGROUNDDOWN dstva in
        if MAXVA <=? va0 then Ok (-1, s)
        else
          '(pte, s) ← walk pagetable va0 false s;
          let e := ld64 (pmem s) pte in
          if (pte =? 0) || negb (has e PTE_V) || negb (has e PTE_U) || negb (has e PTE_W)
          then Ok (-1, s)
          else
            let pa0 := PTE2PA e in
            let n := Z.min (PGSIZE - (dstva - va0)) (Z.of_nat (length src)) in
            let chunk := take (Z.to_nat n) src in
            let s := with_mem (st_bytes (pmem s) (pa0 + (dstva - va0)) chunk) s in
            copyout_loop n' pagetable (u64 (va0 + PGSIZE)) (drop (Z.to_nat n) src) s
    end
  else Ok (0, s).

(** At most one iteration per byte. *)
Definition copyout (pagetable dstva : Z) (src : list Z) (s : phys) : outcome (Z * phys) :=
  copyout_loop (length src) pagetable dstva src s.

Fixpoint copyin_loop (n : nat) (pagetable srcva len : Z) (dst : list Z) (s : phys)
    : outcome (Z * list Z) :=
  if 0 <? len then
    match n with
    | O => NoFuel
    | S n' =>
        let va0 := PGROUNDDOWN srcva in
        pa0 ← walkaddr pagetable va0 s;
        if pa0 =? 0 then Ok (-1, dst)
        else
          let n := Z.min (PGSIZE - (srcva - va0)) len in
          let chunk := bytes (pmem s) (pa0 + (srcva - va0)) (Z.to_nat n) in
          copyin_loop n' pagetable (u64 (va0 + PGSIZE)) (len - n) (dst ++ chunk) s
    end
  else Ok (0, dst).

Definition copyin (pagetable srcva len : Z) (s : phys) : outcome (Z * list Z) :=
  copyin_loop (Z.to_nat len) pagetable srcva len [] s.

(** The inner loop of [copyinstr]: copy up to [n] bytes from [p], stopping
    after a NUL.  The result says whether a NUL was met. *)
Fixpoint copyinstr_page (n : nat) (p : Z) (dst : list Z) (s : phys) : bool * list Z :=
  match n with
  | O => (false, dst)
  | S n' =>
      if ld8 (pmem s) p =? 0 then (true, dst ++ [0])
      else copyinstr_page n' (p + 1) (dst ++ [ld8 (pmem s) p]) s
  end.

Fixpoint copyinstr_loop (fuel : nat) (pagetable srcva max : Z) (dst : list Z) (s : phys)
    : outcome (Z * list Z) :=
  if 0 <? max then
    match fuel with
    | O => NoFuel
    | S fuel' =>
        let va0 := PGROUNDDOWN srcva in
        pa0 ← walkaddr pagetable va0 s;
        if pa0 =? 0 then Ok (-1, dst)
        else
          let n := Z.min (PGSIZE - (srcva - va0)) max in
          let '(got_null, dst) := copyinstr_page (Z.to_nat n) (pa0 + (srcva - va0)) dst s in
          if got_null then Ok (0, dst)
          else copyinstr_loop fuel' pagetable (u64 (va0 + PGSIZE)) (max - n) dst s
    end
  else Ok (-1, dst).

Definition copyinstr (pagetable srcva max : Z) (s : phys) : outcome (Z * list Z) :=
  copyinstr_loop (Z.to_nat max) pagetable srcva max [] s.

(** ** The kernel page table *)

(** [proc_mapstacks]: one page and one guard page per process slot; [n]
    slots are left, the next one is [i]. *)
Fixpoint proc_mapstacks (n : nat) (i : Z) (kpgtbl : Z) (s : phys) : outcome phys :=
  match n with
  | O => Ok s
  | S n' =>
      let '(pa, s) := kalloc s in
      if pa =? 0 then Panic "kalloc"
      else
        s ← kvmmap kpgtbl (KSTACK i) pa PGSIZE (Z.lor PTE_R PTE_W) s;
        proc_mapstacks n' (i + 1) kpgtbl s
  end.

Definition UART0 : Z := 268435456.
Definition VIRTIO0 : Z := 268439552.
Definition PLIC : Z := 201326592.
Definition NPROC : nat := 64.

Definition kvmmake (etext trampoline : Z) (s : phys) : outcome (Z * phys) :=
  let RW := Z.lor PTE_R PTE_W in
  let RX := Z.lor PTE_R PTE_X in
  let '(kpgtbl, s) := kalloc s in
  let s := with_mem (memset (pmem s) kpgtbl 0 PGSIZE) s in
  s ← kvmmap kpgtbl UART0 UART0 PGSIZE RW s;
  s ← kvmmap kpgtbl VIRTIO0 VIRTIO0 PGSIZE RW s;
  s ← kvmmap kpgtbl PLIC PLIC 67108864 RW s;
  s ← kvmmap kpgtbl KERNBASE KERNBASE (etext - KERNBASE) RX s;
  s ← kvmmap kpgtbl etext etext (PHYSTOP - etext) RW s;
  s ← kvmmap kpgtbl TRAMPOLINE trampoline PGSIZE RX s;
  s ← kvmmap kpgtbl 1048576 1048576 PGSIZE RW s;
  let clint_mtime_page := Z.land 33603576 (Z.lnot 4095) in
  s ← kvmmap kpgtbl clint_mtime_page clint_mtime_page PGSIZE RW s;
  s ← proc_mapstacks NPROC 0 kpgtbl s;
  Ok (kpgtbl, s).

(** ** A process's page table (kernel/proc.c) *)

Definition proc_pagetable (trampoline trapframe : Z) (s : phys) : outcome (Z * phys) :=
  let '(pagetable, s) := uvmcreate s in
  if pagetable =? 0 then Ok (0, s)
  else
    '(r, s) ← mappages pagetable TRAMPOLINE PGSIZE trampoline (Z.lor PTE_R PTE_X) s;
    if r <? 0 then s ← uvmfree pagetable 0 s; Ok (0, s)
    else
      '(r, s) ← mappages pagetable TRAPFRAME PGSIZE trapframe (Z.lor PTE_R PTE_W) s;
      if r <? 0 then
        s ← uvmunmap pagetable TRAMPOLINE 1 false s;
        s ← uvmfree pagetable 0 s; Ok (0, s)
      else Ok (pagetable, s).

Definition proc_freepagetable (pagetable sz : Z) (s : phys) : outcome phys :=
  s ← uvmunmap pagetable TRAMPOLINE 1 false s;
  s ← uvmunmap pagetable TRAPFRAME 1 false s;
  uvmfree pagetable sz s.

End Vm.
