(* ===== verification/VmTheory.v ===== *)
(** * Correctness of the page-table code of Vm.v

    [translate m root va] is the abstract content of a page table: the leaf
    entry that the three-level walk finds for [va], if it is valid.  The
    well-formedness predicate [pt_wf] records, for every page-table page,
    its level and the prefix of the virtual addresses it serves; since a page
    has one position only, no two positions share a page, and a store to one
    entry changes the translation of one virtual page. *)
From S2P Require Import Prelude Cstring Riscv Kalloc Vm.

(** The translation below a table of height [level]. *)
Fixpoint xl (m : mem) (level : nat) (pt va : Z) : option Z :=
  let e := ld64 m (pt + 8 * PX (Z.of_nat level) va) in
  if has e PTE_V then
    match level with
    | O => Some e
    | S l => xl m l (PTE2PA e) va
    end
  else None.

Definition translate (m : mem) (root va : Z) : option Z := xl m 2 root va.

(** The address of the leaf entry for [va], when the tables above exist. *)
Fixpoint slot (m : mem) (level : nat) (pt va : Z) : option Z :=
  match level with
  | O => Some (pt + 8 * PX 0 va)
  | S l =>
      let e := ld64 m (pt + 8 * PX (Z.of_nat level) va) in
      if has e PTE_V then slot m l (PTE2PA e) va else None
  end.

(** The part of [va] that selects a table of height [level]. *)
Definition prefix (level : nat) (va : Z) : Z := va / 2 ^ (12 + 9 * (Z.of_nat level + 1)).

Definition same_page (va va' : Z) : Prop := va / 4096 = va' / 4096.

#[export] Instance same_page_dec va va' : Decision (same_page va va') := Z.eq_dec _ _.

Lemma prefix_step l va : prefix l va = prefix (S l) va * 512 + PX (Z.of_nat (S l)) va.
Proof.
  unfold prefix. rewrite PX_eq by lia.
  replace (12 + 9 * (Z.of_nat (S l) + 1)) with (12 + 9 * Z.of_nat (S l) + 9) by lia.
  replace (12 + 9 * (Z.of_nat l + 1)) with (12 + 9 * Z.of_nat (S l)) by lia.
  rewrite (Z.pow_add_r 2 _ 9), <- Z.div_div by lia. change (2 ^ 9) with 512. zlia.
Qed.

Lemma PX_same_page l va va' : 0 <= l -> same_page va va' -> PX l va = PX l va'.
Proof.
  intros Hl H. rewrite !PX_eq by lia. rewrite !Z.pow_add_r, <- !Z.div_div by lia.
  change (2 ^ 12) with 4096. by rewrite H.
Qed.

Lemma page_of_indices va va' :
  prefix 0 va = prefix 0 va' -> PX 0 va = PX 0 va' -> same_page va va'.
Proof.
  unfold prefix, same_page. rewrite !PX0. simpl. change (2 ^ (12 + 9 * 1)) with 2097152. zlia.
Qed.

Lemma prefix_root va : 0 <= va < MAXVA -> prefix 2 va = 0.
Proof. rewrite MAXVA_eq. intros. apply Z.div_small. simpl. lia. Qed.

Lemma prefix_low l va : 0 <= va < MAXVA -> prefix l va * 2 ^ (9 * (Z.of_nat l + 1)) < 2 ^ 26.
Proof.
  rewrite MAXVA_eq. intros Hva. unfold prefix. rewrite Z.pow_add_r, <- Z.div_div by lia.
  pose proof (Z.mul_div_le (va / 2 ^ 12) (2 ^ (9 * (Z.of_nat l + 1))) ltac:(lia)).
  change (2 ^ 26) with 67108864. assert (va / 2 ^ 12 < 67108864) by (change (2 ^ 12) with 4096; zlia). lia.
Qed.

Lemma slot_same_page m l p va va' : same_page va va' -> slot m l p va = slot m l p va'.
Proof.
  intros H. revert p. induction l as [|l IH]; intros p; simpl.
  - by rewrite (PX_same_page 0 va va') by (lia || done).
  - rewrite (PX_same_page _ va va') by (lia || done). by rewrite IH.
Qed.

Lemma xl_slot m l p va :
  xl m l p va = match slot m l p va with
                | Some a => if has (ld64 m a) PTE_V then Some (ld64 m a) else None
                | None => None
                end.
Proof.
  revert p; induction l as [|l IH]; intros p; [done|].
  cbn [xl slot]. by destruct (has _ PTE_V).
Qed.

Lemma walk_noalloc l p va s :
  walk_loop l p va false s = (default 0 (slot (pmem s) l p va), s).
Proof.
  revert p; induction l as [|l IH]; intros p; [done|].
  cbn [walk_loop slot]. by destruct (has _ PTE_V).
Qed.

Lemma pte_val_range pa fl :
  0 <= pa < 2 ^ 56 -> 0 <= fl < 1024 ->
  0 <= Z.lor (PA2PTE pa) fl < 18446744073709551616.
Proof.
  intros. rewrite pte_pack by lia. change (2 ^ 56) with 72057594037927936 in *. zlia.
Qed.

Lemma pte_has_V pa fl :
  0 <= pa < 2 ^ 56 -> 0 <= fl < 1024 -> has (Z.lor (PA2PTE pa) fl) PTE_V = Z.odd fl.
Proof.
  intros. rewrite has_V, pte_pack, Z.odd_add, Z.odd_mul by lia. simpl.
  by rewrite andb_false_r, xorb_false_l.
Qed.

Section VmTheory.
Variable kend : Z.
Hypothesis Hkend : 0 < kend.

Record pt_wf (m : mem) (root : Z) (G : gmap Z (nat * Z)) : Prop := {
  pw_root : G !! root = Some (2%nat, 0);
  pw_page : forall p lp, G !! p = Some lp -> page_ok kend p;
  pw_next : forall p l pre i,
    G !! p = Some (S l, pre) -> 0 <= i < 512 -> has (ld64 m (p + 8 * i)) PTE_V = true ->
    G !! PTE2PA (ld64 m (p + 8 * i)) = Some (l, pre * 512 + i);
  pw_flags : forall p l pre i,
    G !! p = Some (S l, pre) -> 0 <= i < 512 -> has (ld64 m (p + 8 * i)) PTE_V = true ->
    PTE_FLAGS (ld64 m (p + 8 * i)) = PTE_V;
  pw_range : forall p l pre,
    G !! p = Some (l, pre) -> 0 <= pre /\ pre * 2 ^ (9 * (Z.of_nat l + 1)) < 2 ^ 26;
  pw_parent : forall p l pre, G !! p = Some (l, pre) -> p = root \/
    (l < 2)%nat /\ exists q pre' i, G !! q = Some (S l, pre') /\ 0 <= i < 512 /\ pre = pre' * 512 + i /\
      has (ld64 m (q + 8 * i)) PTE_V = true /\ PTE2PA (ld64 m (q + 8 * i)) = p
}.

(** Only the entries of the inner tables matter. *)
Lemma pt_wf_ext m m' root G :
  pt_wf m root G ->
  (forall p l pre i, G !! p = Some (S l, pre) -> 0 <= i < 512 ->
     ld64 m' (p + 8 * i) = ld64 m (p + 8 * i)) ->
  pt_wf m' root G.
Proof.
  intros [Hr Hp Hn Hf Hrg Hpar] Hx. split; auto.
  - intros p l pre i Hpl Hi. rewrite (Hx p l pre i) by done. eauto.
  - intros p l pre i Hpl Hi. rewrite (Hx p l pre i) by done. eauto.
  - intros p l pre Hpl. destruct (Hpar p l pre Hpl) as [?|(? & q & pre' & i & Hq & Hi & ?)]; [by left|].
    right. split; [done|]. exists q, pre', i. rewrite (Hx q l pre' i) by done. auto.
Qed.

(** A page table and the free pages it can grow into. *)
Record vm_inv (s : phys) (fl : list Z) (root : Z) (G : gmap Z (nat * Z)) : Prop := {
  vi_kalloc : kalloc_inv kend s fl;
  vi_wf : pt_wf (pmem s) root G;
  vi_own : forall p, p ∈ dom G -> p ∉ fl
}.

Definition outside (x p : Z) : Prop := x < p \/ p + PGSIZE <= x.

Lemma page_ok_bounds p : page_ok kend p -> 0 < p /\ p < 2281701376 /\ p mod 4096 = 0.
Proof. intros [? ?]. rewrite PHYSTOP_eq in *. unfold PGSIZE in *. lia. Qed.

Lemma entry_disjoint p q i j :
  page_ok kend p -> page_ok kend q -> 0 <= i < 512 -> 0 <= j < 512 -> p <> q \/ i <> j ->
  p + 8 * i + 8 <= q + 8 * j \/ q + 8 * j + 8 <= p + 8 * i.
Proof. intros (? & ? & ?)%page_ok_bounds (? & ? & ?)%page_ok_bounds. zlia. Qed.

Lemma entry_frame m m' p i :
  (forall x, p <= x < p + PGSIZE -> ld8 m' x = ld8 m x) -> 0 <= i < 512 ->
  ld64 m' (p + 8 * i) = ld64 m (p + 8 * i).
Proof. intros H Hi. apply ld64_ext. intros. apply H. unfold PGSIZE. lia. Qed.

(** Memory that agrees on the table pages has the same translation. *)
Lemma xl_frame m m' root G l p va :
  pt_wf m root G ->
  (forall q x, q ∈ dom G -> q <= x < q + PGSIZE -> ld8 m' x = ld8 m x) ->
  G !! p = Some (l, prefix l va) -> xl m' l p va = xl m l p va.
Proof.
  intros Hwf Hm. revert p. induction l as [|l IH]; intros p Hp; cbn [xl].
  all: rewrite (entry_frame m m' p)
    by first [apply PX_range; lia | intros; apply (Hm p); [by eapply elem_of_dom_2|done]].
  - done.
  - destruct (has _ PTE_V) eqn:E; [|done]. apply IH. rewrite prefix_step.
    eapply pw_next; eauto. apply PX_range; lia.
Qed.

Lemma slot_leaf m root G l p va a :
  pt_wf m root G -> G !! p = Some (l, prefix l va) -> slot m l p va = Some a ->
  exists q, G !! q = Some (O, prefix 0 va) /\ a = q + 8 * PX 0 va.
Proof.
  intros Hwf. revert p. induction l as [|l IH]; intros p Hp; cbn [slot].
  - intros [= <-]. eauto.
  - destruct (has _ PTE_V) eqn:E; [|done]. apply IH. rewrite prefix_step.
    eapply pw_next; eauto. apply PX_range; lia.
Qed.

(** A store to a leaf entry does not change where entries are found. *)
Lemma slot_set m root G q pre i e l p va :
  pt_wf m root G -> G !! q = Some (O, pre) -> 0 <= i < 512 ->
  G !! p = Some (l, prefix l va) ->
  slot (st64 m (q + 8 * i) e) l p va = slot m l p va.
Proof.
  intros Hwf Hq Hi. revert p. induction l as [|l IH]; intros p Hp; cbn [slot]; [done|].
  assert (p <> q) by congruence.
  pose proof (PX_range (Z.of_nat (S l)) va ltac:(lia)) as Hx.
  rewrite ld64_st64_ne
    by (apply entry_disjoint; auto; eapply pw_page; eauto).
  destruct (has _ PTE_V) eqn:E; [|done]. apply IH. rewrite prefix_step. eapply pw_next; eauto.
Qed.

(** The effect of a store to the leaf entry of [va] on every translation. *)
Lemma translate_set m root G va a e va' :
  pt_wf m root G -> 0 <= va < MAXVA -> 0 <= va' < MAXVA ->
  slot m 2 root va = Some a -> 0 <= e < 18446744073709551616 ->
  translate (st64 m a e) root va' =
  if decide (same_page va va') then (if has e PTE_V then Some e else None)
  else translate m root va'.
Proof.
  intros Hwf Hva Hva' Ha He. unfold translate.
  pose proof (pw_root _ _ _ Hwf) as Hr.
  assert (Hroot : forall v, 0 <= v < MAXVA -> G !! root = Some (2%nat, prefix 2 v))
    by (intros; by rewrite prefix_root).
  destruct (slot_leaf _ _ _ _ _ _ _ Hwf (Hroot va Hva) Ha) as (q & Hq & Eq).
  pose proof (PX_range 0 va ltac:(lia)) as Hi.
  rewrite !xl_slot. rewrite Eq at 1. erewrite slot_set by eauto.
  case_decide as Hs.
  - rewrite <- (slot_same_page m 2 root va va' Hs), Ha. rewrite ld64_st64_eq, u64_id by lia. done.
  - destruct (slot m 2 root va') as [a'|] eqn:Ha'; [|done].
    destruct (slot_leaf _ _ _ _ _ _ _ Hwf (Hroot va' Hva') Ha') as (q' & Hq' & ->).
    pose proof (PX_range 0 va' ltac:(lia)).
    rewrite Eq, ld64_st64_ne; [done|].
    apply entry_disjoint; auto; try (eapply pw_page; by eauto).
    destruct (decide (q = q')) as [->|]; [right|left; congruence].
    intros Hpx. apply Hs, page_of_indices; congruence.
Qed.

Lemma pt_wf_set_leaf m root G q pre i e :
  pt_wf m root G -> G !! q = Some (O, pre) -> 0 <= i < 512 ->
  pt_wf (st64 m (q + 8 * i) e) root G.
Proof.
  intros Hwf Hq Hi. apply (pt_wf_ext m); [done|]. intros p l pr j Hpl Hj.
  assert (p <> q) by congruence. pose proof (pw_page _ _ _ Hwf).
  rewrite ld64_st64_ne by (apply entry_disjoint; eauto). done.
Qed.

(** ** Growing the table *)

(** What a step that may add table pages keeps: the translation from every
    table, the valid inner entries, and the bytes outside the tables. *)
Record grows (s s' : phys) (G G' : gmap Z (nat * Z)) : Prop := {
  gr_sub : G ⊆ G';
  gr_xl : forall k q w, G !! q = Some (k, prefix k w) -> xl (pmem s') k q w = xl (pmem s) k q w;
  gr_valid : forall k q pre i, G !! q = Some (S k, pre) -> 0 <= i < 512 ->
    has (ld64 (pmem s) (q + 8 * i)) PTE_V = true ->
    ld64 (pmem s') (q + 8 * i) = ld64 (pmem s) (q + 8 * i);
  gr_out : forall x, (forall q, q ∈ dom G' -> outside x q) -> ld8 (pmem s') x = ld8 (pmem s) x
}.

Lemma grows_refl s G : grows s s G G.
Proof. split; auto. Qed.

Lemma grows_trans s1 s2 s3 G1 G2 G3 :
  grows s1 s2 G1 G2 -> grows s2 s3 G2 G3 -> grows s1 s3 G1 G3.
Proof.
  intros [S1 X1 V1 O1] [S2 X2 V2 O2].
  assert (Hsub : forall p v, G1 !! p = Some v -> G2 !! p = Some v)
    by (intros; by eapply lookup_weaken).
  split.
  - by etransitivity.
  - intros. rewrite X2, X1; auto.
  - intros k q pre i Hq Hi Hv. rewrite (V2 k q pre i), (V1 k q pre i); auto. by rewrite (V1 k q pre i).
  - intros x Hx. rewrite O2, O1; auto. intros q Hq. apply Hx.
    apply subseteq_dom in S2. by apply S2.
Qed.

(** [xl] through a page of zeroes finds nothing. *)
Lemma xl_zero m l p va :
  (forall x, p <= x < p + PGSIZE -> ld8 m x = 0) -> xl m l p va = None.
Proof.
  intros H. pose proof (PX_range (Z.of_nat l) va ltac:(lia)).
  assert (ld64 m (p + 8 * PX (Z.of_nat l) va) = 0) as E.
  { apply ld64_zero. intros. apply H. unfold PGSIZE; lia. }
  destruct l; cbn [xl]; by rewrite E.
Qed.

(** Linking a fresh zeroed page [p1] into the invalid entry [i] of [p]. *)
Lemma link_table s fl1 root G p l pre i p1 m3 :
  (l < 2)%nat -> (pre * 512 + i) * 2 ^ (9 * (Z.of_nat l + 1)) < 2 ^ 26 -> vm_inv s (p1 :: fl1) root G -> G !! p = Some (S l, pre) -> 0 <= i < 512 ->
  has (ld64 (pmem s) (p + 8 * i)) PTE_V = false ->
  m3 = st64 (memset (memset (pmem s) p1 5 PGSIZE) p1 0 PGSIZE) (p + 8 * i)
         (Z.lor (PA2PTE p1) PTE_V) ->
  let s3 := Phys m3 (ld64 (pmem s) p1) in
  let G1 := <[p1 := (l, pre * 512 + i)]> G in
  vm_inv s3 fl1 root G1 /\ grows s s3 G G1 /\
  ld64 m3 (p + 8 * i) = Z.lor (PA2PTE p1) PTE_V.
Proof.
  intros Hl2 Hpre [Hk Hwf Hown] Hp Hi Hinv Hm3 s3 G1.
  pose proof (ki_pages _ _ _ Hk) as Hpg. apply Forall_cons in Hpg as [Hp1 Hpg].
  pose proof (ki_nodup _ _ _ Hk) as Hnd1. apply NoDup_cons in Hnd1 as [Hni _].
  destruct (page_ok_bounds p1 Hp1) as (? & ? & ?).
  pose proof (pw_page _ _ _ Hwf p _ Hp) as Hpp.
  assert (HG1 : G !! p1 = None).
  { apply not_elem_of_dom. intros Hd. apply (Hown p1 Hd), elem_of_cons. by left. }
  assert (Hne : p <> p1) by congruence.
  assert (HV : 0 <= Z.lor (PA2PTE p1) PTE_V < 18446744073709551616)
    by (apply pte_val_range; unfold PTE_V; lia).
  assert (Hent : ld64 m3 (p + 8 * i) = Z.lor (PA2PTE p1) PTE_V)
    by (subst m3; rewrite ld64_st64_eq, u64_id by lia; done).
  destruct (pte_unpack p1 PTE_V) as [Hpa Hflg]; [lia|lia|unfold PTE_V; lia|].
  assert (Hmem : forall x, outside x p1 -> x < p + 8 * i \/ p + 8 * i + 8 <= x ->
            ld8 m3 x = ld8 (pmem s) x).
  { unfold outside, PGSIZE. intros x Hx Hx'. subst m3.
    rewrite ld8_st64_other, memset_spec, decide_False, memset_spec, decide_False
      by (unfold PGSIZE; lia). reflexivity. }
  assert (Hzero : forall x, p1 <= x < p1 + PGSIZE -> ld8 m3 x = 0).
  { intros x Hx. subst m3. destruct (page_disjoint kend p1 p x Hp1 Hpp (not_eq_sym Hne) Hx);
      unfold PGSIZE in *; rewrite ld8_st64_other, memset_spec, decide_True by (unfold PGSIZE; lia); reflexivity. }
  assert (Hoth : forall q j, G !! q <> None -> 0 <= j < 512 -> q <> p \/ j <> i ->
            ld64 m3 (q + 8 * j) = ld64 (pmem s) (q + 8 * j)).
  { intros q j Hq Hj Hqj. destruct (G !! q) as [lq|] eqn:Eq; [|contradiction].
    pose proof (pw_page _ _ _ Hwf q _ Eq) as Hqp. apply ld64_ext. intros x Hx. apply Hmem.
    - apply (page_disjoint kend q p1 x Hqp Hp1); [congruence|unfold PGSIZE; lia].
    - destruct (entry_disjoint q p j i Hqp Hpp Hj Hi Hqj); lia. }
  split_and!; [split| |assumption].
  - (* the allocator *)
    assert (Hkc : kalloc s = (p1, Phys (memset (pmem s) p1 5 PGSIZE) (ld64 (pmem s) p1))).
    { unfold kalloc. destruct (ki_list _ _ _ Hk) as [-> _]. ztest. done. }
    destruct (kalloc_cons kend Hkend s p1 fl1 _ _ Hk Hkc) as (_ & [Hl Hnd Hps Hw] & _). simpl in *.
    split; simpl; auto.
    + eapply freelist_at_ext; [|done]. intros q x Hq Hx. subst m3.
      rewrite Forall_forall in Hps. specialize (Hps q Hq).
      assert (q <> p1) by (intros ->; contradiction).
      assert (q <> p)
        by (intros ->; apply (Hown p); [by eapply elem_of_dom_2|apply elem_of_cons; by right]).
      assert (Hx' : q <= x < q + PGSIZE) by (unfold PGSIZE; lia).
      pose proof (page_disjoint kend q p1 x Hps Hp1 ltac:(assumption) Hx').
      pose proof (page_disjoint kend q p x Hps Hpp ltac:(assumption) Hx').
      unfold PGSIZE in *. rewrite ld8_st64_other, memset_spec, decide_False by lia. reflexivity.
    + subst m3. apply st64_wf, memset_wf; [done|]. unfold PGSIZE; lia.
  - (* the tables *)
    destruct Hwf as [Hr Hpo Hn Hf Hrg Hpar]. split; simpl; unfold G1.
    + rewrite lookup_insert_ne by congruence. assumption.
    + intros q lq. rewrite lookup_insert_Some. intros [[<- _]|[_ Hq]]; [assumption|eapply Hpo; eassumption].
    + intros q lq pq j. rewrite lookup_insert_Some.
      intros [[<- [= El Ep]]|[Hq1 Hq]] Hj Hv.
      * exfalso. revert Hv. rewrite ld64_zero; [discriminate|]. intros. apply Hzero. unfold PGSIZE; lia.
      * destruct (Zpair_dec q j p i) as [[-> ->]|Hd].
        { rewrite Hent, Hpa, lookup_insert_eq. congruence. }
        rewrite Hoth in * by (assumption || congruence).
        pose proof (Hn q lq pq j Hq Hj Hv) as Hx. rewrite lookup_insert_ne; congruence.
    + intros q lq pq j. rewrite lookup_insert_Some. intros [[<- _]|[Hq1 Hq]] Hj Hv.
      * exfalso. revert Hv. rewrite ld64_zero; [discriminate|]. intros. apply Hzero. unfold PGSIZE; lia.
      * destruct (Zpair_dec q j p i) as [[-> ->]|Hd]; [congruence|].
        rewrite Hoth in * by (assumption || congruence). eapply Hf; eassumption.
    + intros q lq pq. rewrite lookup_insert_Some. intros [[<- [= <- <-]]|[Hq1 Hq]]; [|by eauto].
      destruct (Hrg p (S l) pre Hp). lia.
    + intros q lq pq. rewrite lookup_insert_Some. intros [[<- [= <- <-]]|[Hq1 Hq]].
      * right. split; [assumption|]. exists p, pre, i. rewrite lookup_insert_ne, Hent, Hpa by congruence.
        split_and!; auto; try lia. rewrite pte_has_V by (unfold PTE_V; lia). reflexivity.
      * destruct (Hpar q lq pq Hq) as [?|(? & u & pu & j & Hu & Hj & Hpq & Hv & Hpa')]; [by left|].
        right. split; [assumption|]. exists u, pu, j. rewrite lookup_insert_ne by congruence.
        rewrite Hoth; [auto|congruence|assumption|].
        destruct (decide (u = p)) as [->|]; [right|by left]. intros ->. congruence.
  - intros q. unfold G1. rewrite dom_insert_L. intros Hq Hf.
    apply elem_of_union in Hq as [->%elem_of_singleton|Hq]; [contradiction|].
    apply (Hown q Hq), elem_of_cons. by right.
  - (* what is kept *)
    split.
    + unfold G1. by apply insert_subseteq.
    + intros k q w. revert q. induction k as [|k IH]; intros q Hq; cbn [xl];
        pose proof (PX_range 0 w ltac:(lia)).
      * rewrite Hoth by (first [assumption | congruence | left; congruence]). reflexivity.
      * pose proof (PX_range (Z.of_nat (S k)) w ltac:(lia)).
        destruct (Zpair_dec q (PX (Z.of_nat (S k)) w) p i) as [[-> Ei]|Hqj].
        { rewrite Ei. cbn [pmem s3]. rewrite Hent, pte_has_V by (unfold PTE_V; lia).
          rewrite Hinv, Hpa. simpl. by apply xl_zero. }
        rewrite Hoth by (assumption || congruence).
        destruct (has (ld64 (pmem s) (q + 8 * PX (Z.of_nat (S k)) w)) PTE_V) eqn:E;
          [|reflexivity]. apply IH. rewrite prefix_step.
        eapply pw_next; eauto.
    + intros k q pr j Hq Hj Hv. apply Hoth; [congruence|assumption|].
      destruct (decide (q = p)) as [->|]; [right|by left]. intros ->. congruence.
    + intros x Hx. apply Hmem.
      * apply Hx. unfold G1. rewrite dom_insert_L. apply elem_of_union_l, elem_of_singleton. reflexivity.
      * apply elem_of_dom_2 in Hp. destruct (Hx p) as [|]; [|lia|unfold PGSIZE in *; lia].
        unfold G1. rewrite dom_insert_L. by apply elem_of_union_r.
Qed.

Lemma walk_alloc l : forall p va s fl root G a s',
  (l <= 2)%nat -> 0 <= va < MAXVA -> vm_inv s fl root G -> G !! p = Some (l, prefix l va) ->
  walk_loop l p va true s = (a, s') ->
  exists fl' G' used,
    vm_inv s' fl' root G' /\ grows s s' G G' /\ fl = used ++ fl' /\
    ((forall q, q ∈ dom G' <-> q ∈ dom G \/ q ∈ used) /\ (length used <= l)%nat /\ (is_Some (slot (pmem s) l p va) -> used = [])) /\
    (a <> 0 -> slot (pmem s') l p va = Some a) /\ (a = 0 -> fl' = []).
Proof.
  induction l as [|l IH]; intros p va s fl root G a s' Hl2 Hva Hinv Hp E; cbn [walk_loop] in E.
  { injection E as <- <-. exists fl, G, []. split_and!; auto using grows_refl.
    { intros q. rewrite elem_of_nil. tauto. }
    pose proof (pw_page _ _ _ (vi_wf _ _ _ _ Hinv) p _ Hp) as (? & ? & ?)%page_ok_bounds.
    pose proof (PX_range 0 va ltac:(lia)). intros; lia. }
  set (i := PX (Z.of_nat (S l)) va) in *.
  assert (Hi : 0 <= i < 512) by (apply PX_range; lia).
  assert (Hpre : prefix l va = prefix (S l) va * 512 + i) by apply prefix_step.
  destruct (has (ld64 (pmem s) (p + 8 * i)) PTE_V) eqn:HV.
  - destruct (IH (PTE2PA (ld64 (pmem s) (p + 8 * i))) va s fl root G a s')
      as (fl' & G' & used & Hinv' & Hg & Hfl & (Hus & Hul & Hup) & Ha & Ha0); [lia|done|done| |done|].
    { rewrite Hpre. eapply pw_next; eauto. apply Hinv. }
    exists fl', G', used. split_and!; auto; cbn [slot]; fold i; [by rewrite HV|]. intros Hne.
    rewrite (gr_valid _ _ _ _ Hg l p (prefix (S l) va) i) by auto. rewrite HV. auto.
  - cbn [negb] in E. destruct fl as [|p1 fl1].
    { rewrite (kalloc_nil kend s (vi_kalloc _ _ _ _ Hinv)) in E. injection E as <- <-.
      exists [], G, []. split_and!; auto using grows_refl; [|cbn; lia|congruence..].
      intros q. rewrite elem_of_nil. tauto. }
    assert (Hp1 : 0 < p1).
    { pose proof (ki_pages _ _ _ (vi_kalloc _ _ _ _ Hinv)) as H. apply Forall_cons in H as [H _].
      by apply page_ok_bounds in H as (? & _). }
    assert (Hk : kalloc s = (p1, Phys (memset (pmem s) p1 5 PGSIZE) (ld64 (pmem s) p1))).
    { unfold kalloc. destruct (ki_list _ _ _ (vi_kalloc _ _ _ _ Hinv)) as [-> _]. by ztest. }
    rewrite Hk in E. revert E. ztest. intros E.
    destruct (link_table s fl1 root G p l (prefix (S l) va) i p1 _ ltac:(lia) ltac:(rewrite <- Hpre; by apply prefix_low) Hinv Hp Hi HV eq_refl)
      as (Hinv1 & Hg1 & Hent).
    unfold with_mem in E. cbn [pmem freelist] in E.
    edestruct (IH p1 va) as (fl' & G' & used & Hinv' & Hg & Hfl & (Hus & Hul & _) & Ha & Ha0); [lia|exact Hva|exact Hinv1| |exact E|].
    { rewrite lookup_insert_eq, Hpre. done. }
    exists fl', G', (p1 :: used). split_and!; [done|by eapply grows_trans|by rewrite Hfl| |cbn; lia| | |done].
    { intros q. rewrite Hus, dom_insert_L, elem_of_union, elem_of_singleton, elem_of_cons. tauto. }
    { cbn [slot]. fold i. rewrite HV. by intros [? ?]. }
    intros Hne. cbn [slot]. fold i.
    destruct (pte_unpack p1 PTE_V) as [Hpa _]; [| |unfold PTE_V; lia|].
    1, 2: pose proof (ki_pages _ _ _ (vi_kalloc _ _ _ _ Hinv)) as H; apply Forall_cons in H as [H _];
      apply page_ok_bounds in H; lia.
    assert (HV1 : has (Z.lor (PA2PTE p1) PTE_V) PTE_V = true).
    { pose proof (ki_pages _ _ _ (vi_kalloc _ _ _ _ Hinv)) as H. apply Forall_cons in H as [H _].
      apply page_ok_bounds in H. rewrite pte_has_V by (unfold PTE_V; lia). done. }
    rewrite (gr_valid _ _ _ _ Hg l p (prefix (S l) va) i); [| |exact Hi|].
    + cbn [pmem]. rewrite Hent, HV1, Hpa. exact (Ha Hne).
    + rewrite lookup_insert_ne; [assumption|]. intros <-.
      apply (vi_own _ _ _ _ Hinv p1); [by eapply elem_of_dom_2|apply elem_of_cons; by left].
    + cbn [pmem]. by rewrite Hent.
Qed.

(** [walk] with [alloc] at the root: it fails only when the free list is
    used up, changes no translation, and returns the address of the leaf
    entry of [va]. *)
Lemma walk_root s fl root G va :
  vm_inv s fl root G -> 0 <= va < MAXVA ->
  exists a s' fl' G' used,
    walk root va true s = Ok (a, s') /\ vm_inv s' fl' root G' /\ grows s s' G G' /\
    fl = used ++ fl' /\ ((forall q, q ∈ dom G' <-> q ∈ dom G \/ q ∈ used) /\ (length used <= 2)%nat /\
      (is_Some (slot (pmem s) 2 root va) -> used = [])) /\
    (forall w, 0 <= w < MAXVA -> translate (pmem s') root w = translate (pmem s) root w) /\
    (a <> 0 -> slot (pmem s') 2 root va = Some a) /\ (a = 0 -> fl' = []).
Proof.
  intros Hinv Hva. unfold walk. rewrite MAXVA_eq in *. ztest.
  destruct (walk_loop 2 root va true s) as [a s'] eqn:E.
  assert (Hr : forall w, 0 <= w < MAXVA -> G !! root = Some (2%nat, prefix 2 w)).
  { intros. rewrite prefix_root by done. apply (vi_wf _ _ _ _ Hinv). }
  rewrite MAXVA_eq in Hr.
  destruct (walk_alloc 2 root va s fl root G a s' ltac:(lia) Hva Hinv (Hr va Hva) E)
    as (fl' & G' & used & Hinv' & Hg & Hfl & (Hus & Hul & Hup) & Ha & Ha0).
  exists a, s', fl', G', used. split_and!; auto.
  intros w Hw. apply (gr_xl _ _ _ _ Hg). auto.
Qed.

(** ** Leaf entries *)

Lemma vm_inv_set_leaf s fl root G va a e :
  vm_inv s fl root G -> 0 <= va < MAXVA -> slot (pmem s) 2 root va = Some a ->
  vm_inv (with_mem (st64 (pmem s) a e) s) fl root G /\ a <> 0 /\
  (forall x, (forall q, q ∈ dom G -> outside x q) -> ld8 (st64 (pmem s) a e) x = ld8 (pmem s) x).
Proof.
  intros [Hk Hwf Hown] Hva Ha.
  assert (Hr : G !! root = Some (2%nat, prefix 2 va)) by (rewrite prefix_root by done; apply Hwf).
  destruct (slot_leaf _ _ _ _ _ _ _ Hwf Hr Ha) as (q & Hq & ->).
  pose proof (PX_range 0 va ltac:(lia)) as Hi.
  pose proof (pw_page _ _ _ Hwf q _ Hq) as Hqp. destruct (page_ok_bounds q Hqp) as (? & ? & ?).
  assert (Hdom : q ∈ dom G) by (by eapply elem_of_dom_2).
  split_and!; [|lia|].
  - split; simpl; [| |assumption].
    + apply kalloc_inv_write; [done|apply st64_wf, Hk|].
      intros p x Hp Hx. apply ld8_st64_other.
      pose proof (ki_pages _ _ _ Hk) as Hpg. rewrite Forall_forall in Hpg.
      assert (p <> q) by (intros ->; by apply (Hown q)).
      pose proof (page_disjoint kend p q x (Hpg p Hp) Hqp ltac:(assumption) Hx).
      unfold PGSIZE in *. lia.
    + by eapply pt_wf_set_leaf.
  - intros x Hx. apply ld8_st64_other. specialize (Hx q Hdom).
    unfold outside, PGSIZE in Hx. lia.
Qed.

Definition leaf_pte (pa perm : Z) : Z := Z.lor (Z.lor (PA2PTE pa) perm) PTE_V.

Lemma leaf_pte_eq pa perm :
  leaf_pte pa perm = Z.lor (PA2PTE pa) (Z.lor perm PTE_V).
Proof. unfold leaf_pte. by rewrite Z.lor_assoc. Qed.

Lemma lor_range a b n : 0 <= n -> 0 <= a < 2 ^ n -> 0 <= b < 2 ^ n -> 0 <= Z.lor a b < 2 ^ n.
Proof.
  intros Hn Ha Hb.
  assert (Z.lor a b = Z.lor a b mod 2 ^ n) as ->; [|apply Z.mod_pos_bound; lia].
  rewrite <- Z.land_ones, Z.land_lor_distr_l, !Z.land_ones, !Z.mod_small by lia. done.
Qed.

Lemma leaf_pte_facts pa perm :
  0 <= pa < 2 ^ 56 -> pa mod 4096 = 0 -> 0 <= perm < 1024 ->
  0 <= leaf_pte pa perm < 18446744073709551616 /\ has (leaf_pte pa perm) PTE_V = true /\
  PTE2PA (leaf_pte pa perm) = pa /\ PTE_FLAGS (leaf_pte pa perm) = Z.lor perm PTE_V.
Proof.
  intros Hpa Hal Hperm. rewrite leaf_pte_eq.
  assert (0 <= Z.lor perm PTE_V < 1024) by (apply (lor_range _ _ 10); unfold PTE_V; lia).
  destruct (pte_unpack pa (Z.lor perm PTE_V)) as [H1 H2]; auto.
  split_and!; auto; [by apply pte_val_range..|].
  rewrite pte_has_V by auto. unfold PTE_V. rewrite <- Z.bit0_odd, Z.lor_spec. simpl.
  by rewrite orb_true_r.
Qed.

(** A permission that is asked for is granted. *)
Lemma leaf_pte_has pa perm bit : has perm bit = true -> has (leaf_pte pa perm) bit = true.
Proof.
  unfold has, leaf_pte. rewrite !negb_true_iff, !Z.eqb_neq, !Z.land_lor_distr_l, !Z.lor_eq_0_iff. tauto.
Qed.

(** ** [mappages] *)

(** Pages that share all but the last index share their last table. *)
Lemma slot_region m p va va' : prefix 0 va = prefix 0 va' -> is_Some (slot m 2 p va) -> is_Some (slot m 2 p va').
Proof.
  intros E. assert (E2 : PX 1 va = PX 1 va' /\ PX 2 va = PX 2 va').
  { unfold prefix in E. change (2 ^ (12 + 9 * (Z.of_nat 0 + 1))) with 2097152 in E. rewrite !PX_eq by lia.
    change (2 ^ (12 + 9 * 1)) with 2097152. change (2 ^ (12 + 9 * 2)) with (2097152 * 512). rewrite <- !Z.div_div, E by lia. done. }
  destruct E2 as [E1 E2]. cbn [slot]. change (Z.of_nat 2) with 2. change (Z.of_nat 1) with 1. rewrite <- E1, <- E2.
  destruct (has _ PTE_V); [|by intros [? ?]]. destruct (has _ PTE_V); [by eexists|by intros [? ?]].
Qed.

(** How many tables mapping [n] pages from [a] on may need: two for every
    region of 2 MB, except the first if its table is there. *)
Definition new_tables (m : mem) (root a : Z) (n : nat) : Z :=
  2 * ((a + 4096 * Z.of_nat n - 1) / 2097152 - a / 2097152 + (if decide (is_Some (slot m 2 root a)) then 0 else 1)).

Lemma mappages_loop_ok n : forall a pa s fl root G perm,
  vm_inv s fl root G -> (1 <= n)%nat -> 0 <= perm < 1024 ->
  a mod 4096 = 0 -> pa mod 4096 = 0 -> 0 <= a -> a + 4096 * Z.of_nat n <= MAXVA ->
  0 <= pa -> pa + 4096 * Z.of_nat n <= 2 ^ 56 ->
  (forall w, a <= w < a + 4096 * Z.of_nat n -> translate (pmem s) root w = None) ->
  exists r s' fl' G' used k,
    mappages_loop n root a (a + 4096 * (Z.of_nat n - 1)) pa perm s = Ok (r, s') /\
    vm_inv s' fl' root G' /\ G ⊆ G' /\ fl = used ++ fl' /\
    ((forall q, q ∈ dom G' <-> q ∈ dom G \/ q ∈ used) /\ (length used <= 2 * n)%nat /\
      Z.of_nat (length used) <= new_tables (pmem s) root a n) /\
    (r = 0 /\ k = Z.of_nat n \/ r = -1 /\ 0 <= k < Z.of_nat n /\ fl' = []) /\
    (forall w, 0 <= w < MAXVA -> translate (pmem s') root w =
       if decide (a <= w < a + 4096 * k) then Some (leaf_pte (pa + (w - a) / 4096 * 4096) perm)
       else translate (pmem s) root w) /\
    (forall x, (forall q, q ∈ dom G' -> outside x q) -> ld8 (pmem s') x = ld8 (pmem s) x).
Proof.
  induction n as [|n IH]; intros a pa s fl root G perm Hinv Hn Hperm Hal Hpal Ha HaM Hpa HpaM Hfree;
    [lia|].
  destruct (walk_root s fl root G a Hinv) as
    (pte & s1 & fl1 & G1 & used1 & Hw & Hinv1 & Hg1 & Hfl1 & (Hus1 & Hul1 & Hup1) & Hxl1 & Hslot & Hnil); [lia|].
  assert (Hu1 : Z.of_nat (length used1) <= 2 * (if decide (is_Some (slot (pmem s) 2 root a)) then 0 else 1))
    by (destruct (decide (is_Some _)) as [Hi|_]; [by rewrite (Hup1 Hi)|lia]).
  cbn [mappages_loop]. rewrite Hw. cbn [mbind outcome_bind].
  destruct (Z.eqb_spec pte 0) as [Hz|Hnz].
  { exists (-1), s1, fl1, G1, used1, 0. split_and!; auto; [apply Hg1|lia|unfold new_tables; zlia|right; split_and!; auto; lia| |apply Hg1].
    intros w Hw'. rewrite decide_False by lia. auto. }
  specialize (Hslot Hnz).
  assert (HnV : has (ld64 (pmem s1) pte) PTE_V = false).
  { pose proof (Hfree a ltac:(lia)) as Hf. rewrite <- Hxl1 in Hf by lia.
    unfold translate in Hf. rewrite xl_slot, Hslot in Hf. by destruct (has _ PTE_V). }
  rewrite HnV.
  destruct (leaf_pte_facts pa perm) as (He & HeV & _); [lia..|].
  destruct (vm_inv_set_leaf s1 fl1 root G1 a pte (leaf_pte pa perm) Hinv1) as (Hinv2 & _ & Hout2);
    [lia|done|].
  assert (Hset := fun w Hw' => translate_set (pmem s1) root G1 a pte (leaf_pte pa perm) w
     (vi_wf _ _ _ _ Hinv1) ltac:(lia) Hw' Hslot He).
  assert (Hroot : forall w, 0 <= w < MAXVA -> G1 !! root = Some (2%nat, prefix 2 w))
    by (intros w Hw'; rewrite prefix_root by done; apply (vi_wf _ _ _ _ Hinv1)).
  rewrite HeV in Hset. fold (leaf_pte pa perm).
  set (s2 := with_mem (st64 (pmem s1) pte (leaf_pte pa perm)) s1) in *.
  assert (Hpage : forall w, same_page a w <-> a <= w < a + 4096) by (intros; unfold same_page; split; zlia).
  destruct n as [|n].
  - replace (a + 4096 * (Z.of_nat 1 - 1)) with a by lia. rewrite Z.eqb_refl.
    exists 0, s2, fl1, G1, used1, 1. split_and!; auto; [apply Hg1|unfold new_tables; zlia| |].
    + intros w Hw'. cbn [s2 with_mem pmem]. rewrite Hset by done.
      destruct (decide (same_page a w)) as [Hs|Hs]; rewrite Hpage in Hs.
      * rewrite decide_True by lia. do 2 f_equal. zlia.
      * rewrite decide_False by lia. auto.
    + intros x Hx. cbn [s2 with_mem pmem]. rewrite Hout2 by done. by apply Hg1.
  - destruct (Z.eqb_spec a (a + 4096 * (Z.of_nat (S (S n)) - 1))); [lia|].
    assert (u64 (a + PGSIZE) = a + 4096) as ->
      by (rewrite MAXVA_eq in *; apply u64_id; unfold PGSIZE; lia).
    assert (u64 (pa + PGSIZE) = pa + 4096) as ->
      by (change (2 ^ 56) with 72057594037927936 in *; apply u64_id; unfold PGSIZE; lia).
    replace (a + 4096 * (Z.of_nat (S (S n)) - 1)) with ((a + 4096) + 4096 * (Z.of_nat (S n) - 1)) by lia.
    destruct (IH (a + 4096) (pa + 4096) s2 fl1 root G1 perm)
      as (r & s' & fl' & G' & used & k & Hrun & Hinv' & Hsub & Hfl & (Hus & Hul & Huq) & Hr & Hx' & Hout); auto; try lia; try zlia.
    { intros w Hw'. cbn [s2 with_mem pmem]. rewrite Hset by lia. rewrite decide_False by (rewrite Hpage; lia).
      rewrite Hxl1 by lia. apply Hfree. lia. }
    exists r, s', fl', G', (used1 ++ used), (k + 1). split_and!; auto.
    + etransitivity; [apply Hg1|done].
    + by rewrite Hfl1, Hfl, app_assoc.
    + intros q. rewrite Hus, Hus1, elem_of_app. tauto.
    + rewrite length_app. lia.
    + rewrite length_app. unfold new_tables in *. destruct (decide (is_Some (slot (pmem s2) 2 root (a + 4096)))) as [_|Hn2].
      { zlia. }
      destruct (decide (a / 2097152 = (a + 4096) / 2097152)) as [Heq|Hneq]; [|zlia]. exfalso. apply Hn2, (slot_region _ _ a); [exact Heq|].
      cbn [s2 with_mem pmem]. destruct (slot_leaf _ _ _ _ _ _ _ (vi_wf _ _ _ _ Hinv1) (Hroot a ltac:(lia)) Hslot) as (q & Hq & ->).
      erewrite slot_set; [by eexists|exact (vi_wf _ _ _ _ Hinv1)|exact Hq|apply PX_range; lia|by apply Hroot; lia].
    + destruct Hr as [[-> ->]|(-> & ? & ->)]; [left|right]; split_and!; auto; lia.
    + assert (0 <= k) by lia. clear Hu1 Huq. intros w Hw'. rewrite Hx' by done. cbn [s2 with_mem pmem]. rewrite Hset by done.
      destruct (decide (same_page a w)) as [Hs|Hs]; rewrite Hpage in Hs.
      * rewrite decide_False, decide_True by lia. do 2 f_equal. zlia.
      * case_decide; [rewrite decide_True by lia; do 2 f_equal; zlia|].
        rewrite decide_False by lia. auto.
    + intros x Hx. rewrite Hout by done. cbn [s2 with_mem pmem].
      assert (Hx1 : forall q, q ∈ dom G1 -> outside x q).
      { intros q Hq. apply Hx. apply subseteq_dom in Hsub. by apply Hsub. }
      rewrite Hout2 by done. by apply Hg1.
Qed.

End VmTheory.
