(* ===== verification/UvmTheory.v ===== *)
(** * User address spaces: the theory of [uvmunmap], [uvmalloc],
      [uvmdealloc], [copyout] and [copyin]

    [as_inv] describes an address space: the page table of VmTheory.v and
    the map [M] from virtual page numbers to the physical frames that the
    address space owns. *)
From S2P Require Import Prelude Cstring Riscv Kalloc Vm VmTheory.

Section Uvm.
Variable kend : Z.
Hypothesis Hkend : 0 < kend.

Record as_inv (s : phys) (fl : list Z) (root : Z) (G : gmap Z (nat * Z)) (M : gmap Z Z) : Prop := {
  ai_vm : vm_inv kend s fl root G;
  ai_map : forall v f, M !! v = Some f ->
    0 <= v < MAXVA / 4096 /\
    exists e, translate (pmem s) root (v * 4096) = Some e /\ PTE2PA e = f /\ PTE_FLAGS e <> PTE_V;
  ai_frame : forall v f, M !! v = Some f -> page_ok kend f /\ f ∉ fl /\ f ∉ dom G;
  ai_inj : forall v v' f, M !! v = Some f -> M !! v' = Some f -> v = v';
  ai_user : forall w e, 0 <= w < MAXVA -> translate (pmem s) root w = Some e ->
    has e PTE_U = true -> M !! (w / 4096) = Some (PTE2PA e)
}.

Lemma translate_page m root w : translate m root w = translate m root (w / 4096 * 4096).
Proof.
  unfold translate. rewrite !xl_slot, (slot_same_page m 2 root w (w / 4096 * 4096)); [done|].
  unfold same_page. zlia.
Qed.

Lemma root_pos s fl root G va :
  vm_inv kend s fl root G -> 0 <= va < MAXVA -> G !! root = Some (2%nat, prefix 2 va).
Proof. intros Hi Hva. rewrite prefix_root by done. apply (vi_wf _ _ _ _ _ Hi). Qed.

(** [walk] without allocation finds the entry of a translated page. *)
Lemma walk_found s fl root G va e :
  vm_inv kend s fl root G -> 0 <= va < MAXVA -> translate (pmem s) root va = Some e ->
  exists a, walk root va false s = Ok (a, s) /\ a <> 0 /\
    slot (pmem s) 2 root va = Some a /\ ld64 (pmem s) a = e /\ has e PTE_V = true.
Proof.
  intros Hinv Hva He. unfold walk. rewrite walk_noalloc, MAXVA_eq in *. ztest.
  unfold translate in He. rewrite xl_slot in He.
  destruct (slot (pmem s) 2 root va) as [a|] eqn:Ea; [|done].
  destruct (has (ld64 (pmem s) a) PTE_V) eqn:EV; [|done]. injection He as <-.
  exists a. split_and!; auto.
  eapply (vm_inv_set_leaf kend Hkend s fl root G va a 0); auto.
Qed.

(** ** Removing one page *)

(** The state after freeing frame [f] and clearing the entry of page [v]. *)
Lemma unmap_page s fl root G M v f a :
  as_inv s fl root G M -> M !! v = Some f -> slot (pmem s) 2 root (v * 4096) = Some a ->
  exists s1, kfree kend f s = Ok s1 /\
    let s2 := with_mem (st64 (pmem s1) a 0) s1 in
    as_inv s2 (f :: fl) root G (delete v M) /\
    (forall w, 0 <= w < MAXVA -> translate (pmem s2) root w =
       if decide (w / 4096 = v) then None else translate (pmem s) root w) /\
    (forall x, outside x f -> (forall q, q ∈ dom G -> outside x q) ->
       ld8 (pmem s2) x = ld8 (pmem s) x).
Proof.
  intros [Hvm Hmap Hfr Hinj Hus] Hv Ha.
  destruct (Hfr v f Hv) as (Hpf & Hnf & HnG). destruct (Hmap v f Hv) as (Hvr & e & He & Hef & Hfl).
  rewrite MAXVA_eq in Hvr. change (274877906944 / 4096) with 67108864 in Hvr.
  destruct (kfree_ok kend Hkend s f fl (vi_kalloc _ _ _ _ _ Hvm) Hpf Hnf) as (s1 & E1 & Hk1 & Hm1).
  exists s1. split; [done|]. intros s2.
  assert (Htab : forall q x, q ∈ dom G -> q <= x < q + PGSIZE -> ld8 (pmem s1) x = ld8 (pmem s) x).
  { intros q x Hq Hx. apply Hm1. apply elem_of_dom in Hq as [lq Hq].
    apply (page_disjoint kend q f x); auto; [eapply pw_page; eauto; apply Hvm|].
    intros ->. apply HnG. by eapply elem_of_dom_2. }
  assert (Hxl1 : forall k p w, G !! p = Some (k, prefix k w) -> xl (pmem s1) k p w = xl (pmem s) k p w).
  { intros. eapply xl_frame; eauto. apply Hvm. }
  assert (Hvm1 : vm_inv kend s1 (f :: fl) root G).
  { split; auto.
    - apply (pt_wf_ext kend (pmem s)); [apply Hvm|]. intros p l pre i Hpl Hi.
      apply entry_frame; [|done]. intros x Hx. apply (Htab p); [by eapply elem_of_dom_2|done].
    - intros p Hp. rewrite elem_of_cons. intros [->|Hin]; [done|]. by eapply (vi_own _ _ _ _ _ Hvm). }
  assert (Hslot1 : slot (pmem s1) 2 root (v * 4096) = Some a).
  { assert (Hs : forall k p, G !! p = Some (k, prefix k (v * 4096)) ->
      slot (pmem s1) k p (v * 4096) = slot (pmem s) k p (v * 4096)).
    { induction k as [|k IH]; intros p Hp; cbn [slot]; [done|].
      rewrite (entry_frame (pmem s) (pmem s1) p); [|intros x Hx; apply (Htab p); [by eapply elem_of_dom_2|done]|apply PX_range; lia].
      destruct (has _ PTE_V) eqn:EV; [|done]. apply IH. rewrite prefix_step.
      eapply pw_next; eauto; [apply Hvm|apply PX_range; lia]. }
    rewrite Hs; [done|]. eapply root_pos; eauto. rewrite MAXVA_eq. lia. }
  assert (Hva : 0 <= v * 4096 < MAXVA) by (rewrite MAXVA_eq; lia).
  destruct (vm_inv_set_leaf kend Hkend s1 (f :: fl) root G (v * 4096) a 0 Hvm1 Hva Hslot1)
    as (Hvm2 & _ & Hout2).
  assert (Htr : forall w, 0 <= w < MAXVA -> translate (pmem s2) root w =
            if decide (w / 4096 = v) then None else translate (pmem s) root w).
  { intros w Hw. cbn [s2 with_mem pmem].
    rewrite (translate_set kend Hkend (pmem s1) root G (v * 4096) a 0 w (vi_wf _ _ _ _ _ Hvm1)) by (auto; lia).
    assert (Hsp : same_page (v * 4096) w <-> w / 4096 = v) by (unfold same_page; split; zlia).
    destruct (decide (same_page (v * 4096) w)) as [Hs|Hs]; rewrite Hsp in Hs.
    - by rewrite decide_True.
    - rewrite decide_False by done. apply Hxl1. by eapply root_pos. }
  split_and!; [|done|].
  - split; auto.
    + intros v' f'. rewrite lookup_delete_Some. intros [Hne Hv'].
      destruct (Hmap v' f' Hv') as (Hr' & e' & He' & Hef' & Hfl'). split; [done|].
      rewrite MAXVA_eq in *. change (274877906944 / 4096) with 67108864 in *.
      exists e'. rewrite Htr, decide_False by zlia. auto.
    + intros v' f'. rewrite lookup_delete_Some. intros [Hne Hv'].
      destruct (Hfr v' f' Hv') as (? & ? & ?). split_and!; auto.
      rewrite elem_of_cons. intros [->|]; [|done]. by apply Hne, (Hinj v v' f).
    + intros v1 v2 f'. rewrite !lookup_delete_Some. intros [_ ?] [_ ?]. eauto.
    + intros w e' Hw. rewrite Htr by done. case_decide as Hd; [done|]. intros He' HU.
      rewrite lookup_delete_ne by done. by apply Hus.
  - intros x Hx Hq. cbn [s2 with_mem pmem]. rewrite Hout2 by done. by apply Hm1.
Qed.

(** ** [uvmunmap] with [do_free] *)

Fixpoint del_range (v : Z) (n : nat) (M : gmap Z Z) : gmap Z Z :=
  match n with
  | O => M
  | S k => del_range (v + 1) k (delete v M)
  end.

Lemma lookup_del_range v n M i :
  del_range v n M !! i = if decide (v <= i < v + Z.of_nat n) then None else M !! i.
Proof.
  revert v M; induction n as [|n IH]; intros v M; simpl.
  - by rewrite decide_False by lia.
  - rewrite IH, lookup_delete. repeat case_decide; try lia; done.
Qed.

Lemma uvmunmap_free_ok n : forall v s fl root G M,
  as_inv s fl root G M -> 0 <= v -> v + Z.of_nat n <= MAXVA / 4096 ->
  (forall i, v <= i < v + Z.of_nat n -> is_Some (M !! i)) ->
  exists s' freed,
    uvmunmap_loop kend n root (v * 4096) ((v + Z.of_nat n) * 4096) true s = Ok s' /\
    as_inv s' (freed ++ fl) root G (del_range v n M) /\
    (forall f, f ∈ freed <-> exists i, v <= i < v + Z.of_nat n /\ M !! i = Some f) /\
    (forall w, 0 <= w < MAXVA -> translate (pmem s') root w =
       if decide (v <= w / 4096 < v + Z.of_nat n) then None else translate (pmem s) root w) /\
    (forall x, (forall q, q ∈ dom G \/ q ∈ freed -> outside x q) -> ld8 (pmem s') x = ld8 (pmem s) x).
Proof.
  rewrite MAXVA_eq. change (274877906944 / 4096) with 67108864.
  induction n as [|n IH]; intros v s fl root G M Hinv Hv Hvn Hin.
  { exists s, []. cbn [uvmunmap_loop]. ztest. split_and!; auto.
    - intros f. split; [intros Hf; by apply elem_of_nil in Hf|intros (i & ? & _); lia].
    - intros w Hw. by rewrite decide_False by lia. }
  destruct (Hin v ltac:(lia)) as [f Hf].
  destruct (ai_map _ _ _ _ _ Hinv v f Hf) as (_ & e & He & Hef & Hfl).
  destruct (walk_found s fl root G (v * 4096) e (ai_vm _ _ _ _ _ Hinv)) as (a & Hw & Ha0 & Hslot & Hld & HV);
    [rewrite MAXVA_eq; lia|done|].
  destruct (unmap_page s fl root G M v f a Hinv Hf Hslot) as (s1 & E1 & Hinv2 & Htr2 & Hout2).
  cbn [uvmunmap_loop]. ztest. rewrite Hw. cbn [mbind outcome_bind]. rewrite Hld, HV. cbn [negb].
  rewrite (proj2 (Z.eqb_neq _ _) Hfl), Hef, E1. cbn [mbind outcome_bind]. ztest.
  set (s2 := with_mem (st64 (pmem s1) a 0) s1) in *.
  assert (u64 (v * 4096 + PGSIZE) = (v + 1) * 4096) as -> by (rewrite u64_id; unfold PGSIZE; lia).
  replace ((v + Z.of_nat (S n)) * 4096) with ((v + 1 + Z.of_nat n) * 4096) by lia.
  destruct (IH (v + 1) s2 (f :: fl) root G (delete v M) Hinv2)
    as (s' & freed & Hrun & Hinv' & Hfreed & Htr & Hout); [lia|lia| |].
  { intros i Hi. rewrite lookup_delete_ne by lia. apply Hin. lia. }
  exists s', (freed ++ [f]). split_and!; auto.
  - rewrite <- app_assoc. done.
  - intros f'. rewrite elem_of_app, Hfreed, list_elem_of_singleton. split.
    + intros [(i & Hi & Hif)| ->]; [|exists v; split; [lia|done]].
      exists i. rewrite lookup_delete_ne in Hif by lia. split; [lia|done].
    + intros (i & Hi & Hif). destruct (decide (i = v)) as [->|]; [right; congruence|].
      left. exists i. rewrite lookup_delete_ne by lia. split; [lia|done].
  - intros w Hw'. rewrite Htr by done. rewrite Htr2 by (rewrite MAXVA_eq; done).
    repeat case_decide; try lia; done.
  - intros x Hx. rewrite Hout.
    + apply Hout2; [apply Hx; right; rewrite elem_of_app, list_elem_of_singleton; by right|].
      intros q Hq. apply Hx. by left.
    + intros q [Hq|Hq]; apply Hx; [by left|right; rewrite elem_of_app; by left].
Qed.

(** ** Adding one page *)

(** A change that keeps the tables' bytes keeps the address space, when
    no page of the address space enters the free list. *)
Lemma as_inv_tables s s' fl fl' root G M :
  as_inv s fl root G M -> kalloc_inv kend s' fl' ->
  (forall p, p ∈ fl' -> p ∈ fl \/ p ∉ dom G /\ forall v g, M !! v = Some g -> g <> p) ->
  (forall p x, p ∈ dom G -> p <= x < p + PGSIZE -> ld8 (pmem s') x = ld8 (pmem s) x) ->
  as_inv s' fl' root G M /\
  (forall w, 0 <= w < MAXVA -> translate (pmem s') root w = translate (pmem s) root w).
Proof.
  intros [Hvm Hmap Hfr Hinj Hus] Hk Hfl Hx.
  assert (Htr : forall w, 0 <= w < MAXVA -> translate (pmem s') root w = translate (pmem s) root w).
  { intros w Hw. apply (xl_frame kend) with root G; [apply Hvm|by eauto|by eapply root_pos]. }
  assert (Hr : forall v f, M !! v = Some f -> 0 <= v * 4096 < MAXVA).
  { intros v f Hv. destruct (Hmap v f Hv) as [? _]. rewrite MAXVA_eq in *. zlia. }
  split; [|done]. split; auto.
  - destruct Hvm as [_ Hwf Hown]. split; [done| |].
    2: { intros p Hpd Hpf. destruct (Hfl p Hpf) as [?|[? _]]; [|done]. by apply (Hown p Hpd). }
    apply (pt_wf_ext kend (pmem s)); [done|]. intros p l pre i Hpl Hi.
    apply entry_frame; [|done]. intros x Hpx. apply (Hx p); [by eapply elem_of_dom_2|done].
  - intros v f Hv. destruct (Hmap v f Hv) as (? & e & ? & ? & ?). split; [done|].
    exists e. rewrite Htr by eauto. done.
  - intros v f Hv. destruct (Hfr v f Hv) as (? & Hni & ?). split_and!; auto.
    intros Hin. destruct (Hfl f Hin) as [?|[_ Hne]]; [done|]. by apply (Hne v f Hv).
  - intros w e Hw. rewrite Htr by done. by apply Hus.
Qed.

Lemma as_inv_frame s fl root G M m :
  as_inv s fl root G M -> mem_wf m ->
  (forall p x, p ∈ fl \/ p ∈ dom G -> p <= x < p + PGSIZE -> ld8 m x = ld8 (pmem s) x) ->
  as_inv (with_mem m s) fl root G M /\
  (forall w, 0 <= w < MAXVA -> translate m root w = translate (pmem s) root w).
Proof.
  intros Hinv Hm Hx. apply (as_inv_tables s (with_mem m s) fl fl); auto.
  2: { intros p x Hp. apply (Hx p). by right. }
  apply kalloc_inv_write; [apply Hinv|done|]. intros p x Hp. apply (Hx p). by left.
Qed.

Lemma free_or_table s fl root G M p :
  as_inv s fl root G M -> p ∈ fl \/ p ∈ dom G -> page_ok kend p.
Proof.
  intros Hinv [Hp|Hp].
  - pose proof (ki_pages _ _ _ (vi_kalloc _ _ _ _ _ (ai_vm _ _ _ _ _ Hinv))) as Hf.
    rewrite Forall_forall in Hf. auto.
  - apply elem_of_dom in Hp as [lp Hp]. eapply pw_page; [|done]. apply Hinv.
Qed.

(** A page of the address space is apart from the free pages and the
    tables. *)
Lemma frame_apart s fl root G M v f x q :
  as_inv s fl root G M -> M !! v = Some f -> f <= x < f + PGSIZE ->
  q ∈ fl \/ q ∈ dom G -> outside x q.
Proof.
  intros Hinv Hv Hx Hq. destruct (ai_frame _ _ _ _ _ Hinv v f Hv) as (Hp & Hnf & HnG).
  apply (page_disjoint kend f q x); auto; [by eapply free_or_table|]. intros ->. tauto.
Qed.

(** Taking the first free page. *)
Lemma as_inv_kalloc s f fl root G M :
  as_inv s (f :: fl) root G M ->
  exists s1, kalloc s = (f, s1) /\ as_inv s1 fl root G M /\ page_ok kend f /\ f <> 0 /\
    f ∉ fl /\ f ∉ dom G /\ (forall v g, M !! v = Some g -> g <> f) /\
    (forall w, 0 <= w < MAXVA -> translate (pmem s1) root w = translate (pmem s) root w) /\
    (forall x, outside x f -> ld8 (pmem s1) x = ld8 (pmem s) x).
Proof.
  intros Hinv. pose proof (vi_kalloc _ _ _ _ _ (ai_vm _ _ _ _ _ Hinv)) as Hk.
  pose proof (ki_nodup _ _ _ Hk) as Hnd. apply NoDup_cons in Hnd as [Hni _].
  pose proof (ki_pages _ _ _ Hk) as Hpg. apply Forall_cons in Hpg as [Hpf _].
  assert (HnG : f ∉ dom G).
  { intros Hd. apply (vi_own _ _ _ _ _ (ai_vm _ _ _ _ _ Hinv) f Hd), elem_of_cons. by left. }
  assert (HnM : forall v g, M !! v = Some g -> g <> f).
  { intros v g Hv ->. destruct (ai_frame _ _ _ _ _ Hinv v f Hv) as (_ & Hn & _).
    apply Hn, elem_of_cons. by left. }
  destruct (kalloc s) as [r s1] eqn:E.
  destruct (kalloc_cons kend Hkend s f fl r s1 Hk E) as (-> & Hk1 & Hm1).
  assert (Hout : forall x, outside x f -> ld8 (pmem s1) x = ld8 (pmem s) x).
  { intros x Hx. rewrite Hm1, decide_False; [done|]. unfold outside in Hx. lia. }
  assert (Htab : forall q x, q ∈ dom G -> q <= x < q + PGSIZE -> ld8 (pmem s1) x = ld8 (pmem s) x).
  { intros q x Hq Hx. apply Hout. apply elem_of_dom in Hq as [lq Hq].
    apply (page_disjoint kend q f x); auto; [eapply pw_page; eauto; apply Hinv|].
    intros ->. apply HnG. by eapply elem_of_dom_2. }
  destruct (page_ok_bounds kend Hkend f Hpf) as (? & _ & _).
  exists s1. destruct (as_inv_tables s s1 (f :: fl) fl root G M Hinv Hk1) as [? ?]; [|by auto|].
  { intros p Hp. left. apply elem_of_cons. by right. }
  split_and!; auto. lia.
Qed.

(** The address space after a step that takes [used] pages from the free
    list for its tables: each page of [M'] is an old one or a new one. *)
Lemma as_inv_grow s s' used fl fl' root G G' M M' :
  as_inv s fl root G M -> vm_inv kend s' fl' root G' -> fl = used ++ fl' ->
  (forall q, q ∈ dom G' <-> q ∈ dom G \/ q ∈ used) ->
  (forall v g, M' !! v = Some g ->
     M !! v = Some g /\ translate (pmem s') root (v * 4096) = translate (pmem s) root (v * 4096) \/
     (forall v', M' !! v' = Some g -> v' = v) /\ page_ok kend g /\ g ∉ fl /\ g ∉ dom G /\
     0 <= v < MAXVA / 4096 /\
     exists e, translate (pmem s') root (v * 4096) = Some e /\ PTE2PA e = g /\ PTE_FLAGS e <> PTE_V) ->
  (forall w e, 0 <= w < MAXVA -> translate (pmem s') root w = Some e -> has e PTE_U = true ->
     M' !! (w / 4096) = Some (PTE2PA e)) ->
  as_inv s' fl' root G' M'.
Proof.
  intros [Hvm Hmap Hfr Hinj _] Hvm' Hfl Hdom Hnew Hus. split; auto.
  - intros v g Hv. destruct (Hnew v g Hv) as [[Ho Ht]|(_ & _ & _ & _ & ? & ?)]; [|done].
    rewrite Ht. by apply Hmap.
  - intros v g Hv.
    assert (Hg : page_ok kend g /\ g ∉ fl /\ g ∉ dom G).
    { destruct (Hnew v g Hv) as [[Ho _]|(_ & ? & ? & ? & _)]; [by eapply Hfr|done]. }
    destruct Hg as (Hp & Hni & HnG). rewrite Hfl, elem_of_app in Hni. split_and!; [done|by auto|].
    rewrite Hdom. intros [?|?]; [done|]. apply Hni. by left.
  - intros v v' g Hv Hv'. destruct (Hnew v g Hv) as [[Ho _]|(Hu & _)]; [|symmetry; by apply Hu].
    destruct (Hnew v' g Hv') as [[Ho' _]|(Hu & _)]; [by eapply Hinj|by apply Hu].
Qed.

(** [mappages] of one page. *)
Lemma mappages_one s fl root G v pa perm :
  vm_inv kend s fl root G -> 0 <= pa < 2 ^ 55 -> pa mod 4096 = 0 ->
  0 <= v < MAXVA / 4096 -> translate (pmem s) root (v * 4096) = None -> 0 <= perm < 1024 ->
  exists r s' fl' G' used,
    mappages root (v * 4096) PGSIZE pa perm s = Ok (r, s') /\ vm_inv kend s' fl' root G' /\
    G ⊆ G' /\ fl = used ++ fl' /\
    ((forall q, q ∈ dom G' <-> q ∈ dom G \/ q ∈ used) /\ (length used <= 2)%nat) /\
    (r = 0 \/ r = -1 /\ fl' = []) /\
    (forall w, 0 <= w < MAXVA -> translate (pmem s') root w =
       if decide (r = 0 /\ w / 4096 = v) then Some (leaf_pte pa perm) else translate (pmem s) root w) /\
    (forall x, (forall q, q ∈ dom G' -> outside x q) -> ld8 (pmem s') x = ld8 (pmem s) x).
Proof.
  intros Hinv Hpa Hal Hv Hfree Hperm.
  rewrite MAXVA_eq in Hv. change (274877906944 / 4096) with 67108864 in Hv.
  destruct (mappages_loop_ok kend Hkend 1 (v * 4096) pa s fl root G perm)
    as (r & s' & fl' & G' & used & k & Hrun & Hvm & Hsub & Hfl & (Hus & Hul & _) & Hr & Htr & Hout); auto; try zlia.
  1: rewrite MAXVA_eq; lia.
  1: { intros w Hw. rewrite translate_page. replace (w / 4096) with v by zlia. done. }
  assert (Hk : (r = 0 /\ k = 1) \/ (r = -1 /\ k = 0 /\ fl' = [])).
  { destruct Hr as [[]|(? & ? & ?)]; [left|right]; split_and!; auto; lia. }
  exists r, s', fl', G', used. split_and!; auto; [|tauto|].
  - unfold mappages. unfold PGSIZE. ztest.
    replace (v * 4096 mod 4096) with 0 by zlia. rewrite Z.eqb_refl. cbn [negb].
    change (4096 mod 4096 =? 0) with true. cbn [negb].
    change (Z.to_nat (4096 / 4096)) with 1%nat. rewrite u64_id by lia.
    replace (v * 4096 + 4096 - 4096) with (v * 4096 + 4096 * (Z.of_nat 1 - 1)) by lia. done.
  - intros w Hw. rewrite Htr by done. repeat case_decide; try zlia; [|done]. do 2 f_equal. zlia.
Qed.

Lemma mapped_range s fl root G M v f : as_inv s fl root G M -> M !! v = Some f -> 0 <= v * 4096 < MAXVA.
Proof. intros Hinv Hv. destruct (ai_map _ _ _ _ _ Hinv v f Hv) as [? _]. rewrite MAXVA_eq in *. zlia. Qed.

(** Mapping a page [f] that the allocator handed out at the free virtual
    page [v].  Whether [mappages] finds memory for the tables or not, the
    rest of the address space keeps its translation. *)
Lemma map_page s fl root G M v f perm :
  as_inv s fl root G M -> page_ok kend f -> f ∉ fl -> f ∉ dom G ->
  (forall v' g, M !! v' = Some g -> g <> f) ->
  0 <= v < MAXVA / 4096 -> translate (pmem s) root (v * 4096) = None ->
  0 <= perm < 1024 -> Z.lor perm PTE_V <> PTE_V ->
  exists r s' fl' G' used,
    mappages root (v * 4096) PGSIZE f perm s = Ok (r, s') /\
    G ⊆ G' /\ fl = used ++ fl' /\
    ((forall q, q ∈ dom G' <-> q ∈ dom G \/ q ∈ used) /\ (length used <= 2)%nat) /\
    (r = 0 /\ as_inv s' fl' root G' (<[v := f]> M) \/ r = -1 /\ fl' = [] /\ as_inv s' fl' root G' M) /\
    (forall w, 0 <= w < MAXVA -> translate (pmem s') root w =
       if decide (r = 0 /\ w / 4096 = v) then Some (leaf_pte f perm) else translate (pmem s) root w) /\
    (forall x, (forall q, q ∈ dom G' -> outside x q) -> ld8 (pmem s') x = ld8 (pmem s) x).
Proof.
  intros Hinv Hpf Hnf HnG HnM Hv Hfree Hperm Hleaf.
  destruct (page_ok_bounds kend Hkend f Hpf) as (Hf0 & Hf1 & Hfa).
  destruct (mappages_one s fl root G v f perm (ai_vm _ _ _ _ _ Hinv))
    as (r & s' & fl' & G' & used & Hrun & Hvm & Hsub & Hfl & [Hus Hul] & Hr & Htr & Hout); auto; [lia|].
  exists r, s', fl', G', used. split_and!; auto.
  destruct (leaf_pte_facts f perm) as (_ & _ & Hpa & Hflags); auto; [lia|].
  assert (0 <= v * 4096 < MAXVA /\ v * 4096 / 4096 = v) as [Hva Hvd] by (rewrite MAXVA_eq in *; zlia).
  destruct Hr as [->|[-> ->]]; [left|right]; split_and!; auto;
    apply (as_inv_grow s s' used fl _ root G G' M); try assumption.
  - intros v' g. rewrite lookup_insert_Some. intros [[<- <-]|[Hne Hv']]; [right|left].
    + split_and!; auto; try apply Hv.
      * intros v'. rewrite lookup_insert_Some. intros [[<- _]|[_ Hv']]; [done|]. by destruct (HnM v' f Hv').
      * exists (leaf_pte f perm). rewrite Htr, decide_True by auto. rewrite Hflags. auto.
    + split; [done|]. rewrite Htr, decide_False; [done|zlia|by eapply mapped_range].
  - intros w e Hw. rewrite Htr by done. destruct (decide (0 = 0 /\ w / 4096 = v)) as [Hd|Hd].
    + intros He _. assert (e = leaf_pte f perm) as -> by congruence. destruct Hd as [_ <-]. by rewrite lookup_insert_eq, Hpa.
    + intros He HU. rewrite lookup_insert_ne by (intros ->; auto). by eapply ai_user.
  - intros v' g Hv'. left. split; [done|]. rewrite Htr, decide_False; [done|lia|by eapply mapped_range].
  - intros w e Hw. rewrite Htr, decide_False by (auto; lia). by eapply ai_user.
Qed.

(** Mapping a page that the address space does not own, such as the
    trampoline, out of the user's reach. *)
Lemma map_shared s fl root G M v pa perm :
  as_inv s fl root G M -> 0 <= pa < 2 ^ 55 -> pa mod 4096 = 0 ->
  0 <= v < MAXVA / 4096 -> translate (pmem s) root (v * 4096) = None ->
  0 <= perm < 1024 -> has (leaf_pte pa perm) PTE_U = false ->
  exists r s' fl' G' used,
    mappages root (v * 4096) PGSIZE pa perm s = Ok (r, s') /\ as_inv s' fl' root G' M /\
    fl = used ++ fl' /\
    ((forall q, q ∈ dom G' <-> q ∈ dom G \/ q ∈ used) /\ (length used <= 2)%nat) /\ (r = 0 \/ r = -1 /\ fl' = []) /\
    (forall w, 0 <= w < MAXVA -> translate (pmem s') root w =
       if decide (r = 0 /\ w / 4096 = v) then Some (leaf_pte pa perm) else translate (pmem s) root w) /\
    (forall x, (forall q, q ∈ dom G' -> outside x q) -> ld8 (pmem s') x = ld8 (pmem s) x).
Proof.
  intros Hinv Hpa Hal Hv Hfree Hperm HU.
  destruct (mappages_one s fl root G v pa perm (ai_vm _ _ _ _ _ Hinv))
    as (r & s' & fl' & G' & used & Hrun & Hvm & Hsub & Hfl & [Hus Hul] & Hr & Htr & Hout); auto.
  exists r, s', fl', G', used. split_and!; auto.
  apply (as_inv_grow s s' used fl _ root G G' M); try assumption.
  - intros v' g Hv'. left. split; [done|]. rewrite Htr by (by eapply mapped_range).
    rewrite decide_False; [done|]. intros [_ Hd].
    destruct (ai_map _ _ _ _ _ Hinv v' g Hv') as (_ & e & He & _).
    replace v' with v in He by zlia. congruence.
  - intros w e Hw. rewrite Htr by done.
    destruct (decide (r = 0 /\ w / 4096 = v)); [|by eapply ai_user]. intros He HU'. congruence.
Qed.

(** ** A new address space *)

Lemma uvmcreate_run s f fl :
  kalloc_inv kend s (f :: fl) ->
  exists s', uvmcreate s = (f, s') /\ as_inv s' fl f {[f := (2%nat, 0)]} ∅ /\
    (forall w, translate (pmem s') f w = None) /\
    (forall x, outside x f -> ld8 (pmem s') x = ld8 (pmem s) x).
Proof.
  intros Hk. pose proof (ki_nodup _ _ _ Hk) as Hnd. apply NoDup_cons in Hnd as [Hni _].
  pose proof (ki_pages _ _ _ Hk) as Hpg. apply Forall_cons in Hpg as [Hpf Hpg].
  destruct (page_ok_bounds kend Hkend f Hpf) as (Hf0 & _ & _).
  unfold uvmcreate. destruct (kalloc s) as [r s1] eqn:E.
  destruct (kalloc_cons kend Hkend s f fl r s1 Hk E) as (-> & Hk1 & Hm1). ztest.
  set (m := memset (pmem s1) f 0 PGSIZE).
  assert (Hm : forall x, ld8 m x = if decide (f <= x < f + PGSIZE) then 0 else ld8 (pmem s1) x)
    by (intros; unfold m; rewrite memset_spec by (unfold PGSIZE; lia); done).
  assert (Hnone : forall l w, xl m l f w = None).
  { intros. apply xl_zero. intros x Hx. rewrite Hm, decide_True by done. done. }
  exists (with_mem m s1). split_and!; [done| |intros; apply Hnone|].
  2: { intros x Hx. cbn [with_mem pmem]. unfold outside in Hx. rewrite Hm, Hm1, !decide_False by lia. done. }
  split.
  - split.
    + apply kalloc_inv_write; [done|apply memset_wf; [apply Hk1|unfold PGSIZE; lia]|].
      intros p x Hp Hx. rewrite Hm, decide_False; [done|].
      rewrite Forall_forall in Hpg. destruct (page_disjoint kend p f x); auto; [|lia|lia]. by intros ->.
    + split; [apply lookup_singleton_eq|..].
      * intros p lp Hp. apply lookup_singleton_Some in Hp as [<- _]. done.
      * intros p l pre i Hp Hi. apply lookup_singleton_Some in Hp as [<- Hp]. injection Hp as <- <-.
        cbn [with_mem pmem]. rewrite ld64_zero; [done|]. intros x Hx.
        rewrite Hm, decide_True by (unfold PGSIZE; lia). done.
      * intros p l pre i Hp Hi. apply lookup_singleton_Some in Hp as [<- Hp].
        cbn [with_mem pmem]. rewrite ld64_zero; [done|]. intros x Hx.
        rewrite Hm, decide_True by (unfold PGSIZE; lia). done.
      * intros p l pre Hp. apply lookup_singleton_Some in Hp as [_ Hp]. injection Hp as <- <-. by split.
      * intros p l pre Hp. apply lookup_singleton_Some in Hp as [<- _]. by left.
    + intros p Hp. rewrite dom_singleton_L, elem_of_singleton in Hp. by subst p.
  - intros v g Hv. by rewrite lookup_empty in Hv.
  - intros v g Hv. by rewrite lookup_empty in Hv.
  - intros v v' g Hv. by rewrite lookup_empty in Hv.
  - intros w e _ He. cbn [with_mem pmem] in He. unfold translate in He. by rewrite Hnone in He.
Qed.

End Uvm.

(** ** A small machine: eight pages of memory after start-up *)

Definition small_end : Z := PHYSTOP - 8 * 4096.

Lemma mem_wf_empty : mem_wf ∅.
Proof. intros a. unfold ld8. rewrite lookup_empty. simpl. lia. Qed.

Lemma small_boot :
  exists s f fl, kinit small_end ∅ = Ok s /\ kalloc_inv small_end s (f :: fl).
Proof.
  destruct (kinit_ok small_end) with (m := (∅ : mem)) as (s & l & E & Hinv & Hl);
    [done|apply mem_wf_empty|done|].
  destruct l as [|f fl]; [|by exists s, f, fl].
  assert (small_end ∈ ([] : list Z)) as H%elem_of_nil by (apply Hl; split; [done|vm_compute; split; congruence]).
  done.
Qed.

Lemma small_space :
  exists s fl root G, as_inv small_end s fl root G ∅ /\ (forall w, translate (pmem s) root w = None).
Proof.
  destruct small_boot as (s & f & fl & _ & Hk).
  destruct (uvmcreate_run small_end ltac:(done) s f fl Hk) as (s' & _ & Hinv & Htr & _).
  by exists s', fl, f, {[f := (2%nat, 0)]}.
Qed.

(** * Growing and shrinking user memory: [uvmalloc] and [uvmdealloc]

    [grown k] relates the state before a loop that adds pages (that of
    [uvmalloc], or that of [uvmcopy]) to the state after it has added [k]
    pages; [grown 0] is also what the failure path restores.  The pages that belong to the tables, to the free list or to
    the added range are the same set throughout, so no page leaks. *)

(** The page number of the first page at or above [sz]. *)
Definition pgno (sz : Z) : Z := (sz + 4095) / 4096.

Section Grow.
Variable kend : Z.
Hypothesis Hkend : 0 < kend.

Lemma PGROUNDUP_pgno sz : 0 <= sz <= MAXVA -> PGROUNDUP sz = pgno sz * 4096.
Proof. rewrite MAXVA_eq. intros. by rewrite PGROUNDUP_eq by lia. Qed.

Lemma pgno_bounds sz : 0 <= sz <= MAXVA -> 0 <= pgno sz <= MAXVA / 4096.
Proof. rewrite MAXVA_eq. unfold pgno. zlia. Qed.

(** [uvmdealloc] frees exactly the pages between the two sizes. *)
Lemma uvmdealloc_run s fl root G M oldsz newsz :
  as_inv kend s fl root G M -> 0 <= newsz < oldsz -> oldsz <= MAXVA ->
  (forall i, pgno newsz <= i < pgno oldsz -> is_Some (M !! i)) ->
  let n := Z.to_nat (pgno oldsz - pgno newsz) in
  exists s' freed,
    uvmdealloc kend root oldsz newsz s = Ok (newsz, s') /\
    as_inv kend s' (freed ++ fl) root G (del_range (pgno newsz) n M) /\
    (forall f, f ∈ freed <-> exists i, pgno newsz <= i < pgno oldsz /\ M !! i = Some f) /\
    (forall w, 0 <= w < MAXVA -> translate (pmem s') root w =
       if decide (pgno newsz <= w / 4096 < pgno oldsz) then None else translate (pmem s) root w) /\
    (forall x, (forall q, q ∈ dom G \/ q ∈ freed -> outside x q) -> ld8 (pmem s') x = ld8 (pmem s) x).
Proof.
  intros Hinv Hsz Hold Hin n. unfold uvmdealloc. rewrite !PGROUNDUP_pgno by lia. ztest.
  pose proof (pgno_bounds oldsz ltac:(lia)) as Ho. pose proof (pgno_bounds newsz ltac:(lia)) as Hn.
  assert (pgno newsz <= pgno oldsz) by (unfold pgno; zlia).
  destruct (uvmunmap_free_ok kend Hkend n (pgno newsz) s fl root G M Hinv)
    as (s' & freed & Hrun & Hinv' & Hfreed & Htr & Hout); [lia|lia|intros; apply Hin; lia|].
  replace (pgno newsz + Z.of_nat n) with (pgno oldsz) in * by lia.
  exists s', freed. split_and!; auto.
  rewrite MAXVA_eq in *. change (274877906944 / 4096) with 67108864 in *.
  destruct (Z.ltb_spec (pgno newsz * 4096) (pgno oldsz * 4096)).
  - unfold uvmunmap, PGSIZE. replace (pgno newsz * 4096 mod 4096) with 0 by zlia. cbn [Z.eqb negb].
    replace ((pgno oldsz * 4096 - pgno newsz * 4096) / 4096) with (pgno oldsz - pgno newsz) by zlia.
    rewrite s32_id, (u64_id (pgno oldsz - pgno newsz)), u64_id by lia. fold n.
    replace (pgno newsz * 4096 + (pgno oldsz - pgno newsz) * 4096) with (pgno oldsz * 4096) by lia.
    rewrite Hrun. done.
  - assert (n = 0%nat) as Hn0 by lia. rewrite Hn0 in Hrun. cbn [uvmunmap_loop] in Hrun.
    destruct (pgno newsz * 4096 <? pgno oldsz * 4096) eqn:E; [bool_to_prop; lia|].
    injection Hrun as <-. done.
Qed.

(** ** Adding pages one by one *)

Section Grown.
Variables (s0 : phys) (fl0 : list Z) (root : Z) (G0 : gmap Z (nat * Z)) (M0 : gmap Z Z).
(** Page [i] is mapped with the flags [perm i] and holds the bytes [fill i]. *)
Variables (v0 N : Z) (perm : Z -> Z) (fill : Z -> Z -> Z).

(** [k] pages have been added from page [v0] on. *)
Record grown (k : Z) (s : phys) (fl : list Z) (G : gmap Z (nat * Z)) (M : gmap Z Z) : Prop := {
  g_as : as_inv kend s fl root G M;
  g_pages : forall q, (q ∈ dom G \/ q ∈ fl \/ exists i, v0 <= i < v0 + k /\ M !! i = Some q) <->
    (q ∈ dom G0 \/ q ∈ fl0);
  g_sub : G0 ⊆ G;
  g_map : forall i, ~ (v0 <= i < v0 + k) -> M !! i = M0 !! i;
  g_new : forall i, v0 <= i < v0 + k -> exists f, M !! i = Some f /\
    translate (pmem s) root (i * 4096) = Some (leaf_pte f (perm i)) /\
    (forall x, f <= x < f + PGSIZE -> ld8 (pmem s) x = fill i (x - f));
  g_tr : forall w, 0 <= w < MAXVA -> ~ (v0 <= w / 4096 < v0 + k) ->
    translate (pmem s) root w = translate (pmem s0) root w;
  g_out : forall x, (forall q, q ∈ dom G0 \/ q ∈ fl0 -> outside x q) ->
    ld8 (pmem s) x = ld8 (pmem s0) x
}.

Hypothesis Hinv0 : as_inv kend s0 fl0 root G0 M0.

Lemma grown_start : grown 0 s0 fl0 G0 M0.
Proof.
  split; auto.
  - intros q. split; [|tauto]. intros [?|[?|(i & ? & _)]]; [auto..|lia].
  - intros; lia.
Qed.

(** The [N] pages from [v0] on are free at the start. *)
Hypothesis Hrange : 0 <= v0 /\ 0 <= N /\ v0 + N <= MAXVA / 4096.
Hypothesis Hfree : forall w, v0 <= w / 4096 < v0 + N -> translate (pmem s0) root w = None.

Lemma fresh_unmapped i : v0 <= i < v0 + N -> M0 !! i = None.
Proof.
  intros Hi. destruct (M0 !! i) as [f|] eqn:E; [|done].
  destruct (ai_map _ _ _ _ _ _ Hinv0 i f E) as (_ & e & He & _).
  rewrite Hfree in He; [done|]. replace (i * 4096 / 4096) with i by zlia. done.
Qed.

(** Undoing the additions: the failure paths unmap and free the [k] pages. *)
Lemma grown_unmap k s fl G M :
  grown k s fl G M -> 0 <= k <= N ->
  exists s' fl' M',
    uvmunmap kend root (v0 * 4096) k true s = Ok s' /\ grown 0 s' fl' G M'.
Proof.
  intros Hg Hk.
  destruct (uvmunmap_free_ok kend Hkend (Z.to_nat k) v0 s fl root G M)
    as (s' & freed & Hrun & Hinv' & Hfreed & Htr & Hout); [apply Hg|lia|lia| |].
  { intros i Hi. destruct (g_new _ _ _ _ _ Hg i) as (f & -> & _); [lia|]. by eexists. }
  replace (v0 + Z.of_nat (Z.to_nat k)) with (v0 + k) in * by lia.
  exists s', (freed ++ fl), (del_range v0 (Z.to_nat k) M). split.
  { rewrite MAXVA_eq in *. unfold uvmunmap, PGSIZE. replace (v0 * 4096 mod 4096) with 0 by zlia.
    cbn [Z.eqb negb]. rewrite u64_id by zlia. by replace (v0 * 4096 + k * 4096) with ((v0 + k) * 4096) by lia. }
  split; [done|..].
  - intros q. rewrite <- (g_pages _ _ _ _ _ Hg), elem_of_app, Hfreed. split; [|by tauto].
    intros [?|[[?|?]|(i & ? & _)]]; [tauto..|lia].
  - apply Hg.
  - intros i Hi. rewrite lookup_del_range. case_decide as Hd; [|apply Hg; lia].
    symmetry. apply fresh_unmapped. lia.
  - intros; lia.
  - intros w Hw _. rewrite Htr by done. case_decide; [|apply Hg; lia].
    rewrite Hfree by lia. done.
  - intros x Hx. rewrite Hout; [by apply Hg|]. intros q Hq. apply Hx.
    apply (g_pages _ _ _ _ _ Hg). rewrite <- Hfreed. tauto.
Qed.

Lemma grown_undo k s fl G M :
  grown k s fl G M -> 0 <= k <= N ->
  exists r s' fl' M',
    uvmdealloc kend root ((v0 + k) * 4096) (v0 * 4096) s = Ok (r, s') /\ grown 0 s' fl' G M'.
Proof.
  intros Hg Hk. unfold uvmdealloc. destruct (decide (k = 0)) as [->|Hk0].
  { exists ((v0 + 0) * 4096), s, fl, M. split; [by ztest|done]. }
  assert (0 <= v0 * 4096 /\ (v0 + k) * 4096 <= MAXVA /\ v0 + k <= 67108864) by (rewrite MAXVA_eq in *; zlia).
  rewrite !PGROUNDUP_pgno by lia. unfold pgno.
  replace ((v0 * 4096 + 4095) / 4096) with v0 by zlia.
  replace (((v0 + k) * 4096 + 4095) / 4096) with (v0 + k) by zlia. ztest. unfold PGSIZE.
  replace (((v0 + k) * 4096 - v0 * 4096) / 4096) with k by zlia. rewrite s32_id, u64_id by lia.
  destruct (grown_unmap k s fl G M Hg Hk) as (s' & fl' & M' & -> & Hg').
  by exists (v0 * 4096), s', fl', M'.
Qed.

(** The state after page [v0 + k] is mapped to the filled page [f]. *)
Lemma grown_next k s f fl G M s2 fl' G' used :
  grown k s (f :: fl) G M -> 0 <= k < N ->
  as_inv kend s2 fl' root G' (<[v0 + k := f]> M) -> G ⊆ G' -> fl = used ++ fl' ->
  (forall q, q ∈ dom G' <-> q ∈ dom G \/ q ∈ used) ->
  (forall w, 0 <= w < MAXVA -> translate (pmem s2) root w =
     if decide (w / 4096 = v0 + k) then Some (leaf_pte f (perm (v0 + k))) else translate (pmem s) root w) ->
  (forall x, (forall q, q ∈ dom G' -> outside x q) ->
     ld8 (pmem s2) x = if decide (f <= x < f + PGSIZE) then fill (v0 + k) (x - f) else ld8 (pmem s) x) ->
  grown (k + 1) s2 fl' G' (<[v0 + k := f]> M).
Proof.
  intros Hg Hk Hinv2 Hsub Hfl Hdom Htr Hout.
  assert (Hne : forall i, v0 <= i < v0 + k -> v0 + k <> i) by lia.
  assert (Hw : forall i, v0 <= i < v0 + N -> 0 <= i * 4096 < MAXVA /\ i * 4096 / 4096 = i)
    by (rewrite MAXVA_eq in *; intros; zlia).
  split; [done|..].
  - intros q. rewrite <- (g_pages _ _ _ _ _ Hg), Hdom, Hfl, elem_of_cons, elem_of_app. split.
    + intros [[?|?]|[?|(i & Hi & Hq)]]; [tauto..|]. apply lookup_insert_Some in Hq as [[_ <-]|[Hn Hq]];
        [tauto|]. right; right. exists i. split; [lia|done].
    + intros [?|[[->|[?|?]]|(i & Hi & Hq)]]; [tauto| |tauto..|].
      * right; right. exists (v0 + k). rewrite lookup_insert_eq. split; [lia|done].
      * right; right. exists i. rewrite lookup_insert_ne by lia. split; [lia|done].
  - etransitivity; [apply Hg|done].
  - intros i Hi. rewrite lookup_insert_ne by lia. apply Hg. lia.
  - intros i Hi. destruct (Hw i) as [Hr Hd]; [lia|]. destruct (decide (i = v0 + k)) as [->|Hn].
    + exists f. rewrite lookup_insert_eq, Htr, decide_True by done. split_and!; auto.
      intros x Hx. rewrite Hout, decide_True; auto. intros q Hq.
      eapply (frame_apart kend); [done|apply lookup_insert_eq|done|by right].
    + destruct (g_new _ _ _ _ _ Hg i) as (g & Hig & Hti & Hz); [lia|]. exists g.
      rewrite lookup_insert_ne, Htr, decide_False by lia. split_and!; auto.
      intros x Hx. rewrite Hout.
      * rewrite decide_False; [by apply Hz|]. destruct (decide (g = f)) as [->|Hgf].
        { pose proof (ai_inj _ _ _ _ _ _ Hinv2 (v0 + k) i f) as Hij. rewrite lookup_insert_eq in Hij.
          rewrite lookup_insert_ne in Hij by lia. specialize (Hij eq_refl Hig). lia. }
        destruct (ai_frame _ _ _ _ _ _ (g_as _ _ _ _ _ Hg) i g Hig) as (Hpg & _).
        destruct (ai_frame _ _ _ _ _ _ Hinv2 (v0 + k) f) as (Hpf & _); [apply lookup_insert_eq|].
        destruct (page_disjoint kend g f x Hpg Hpf Hgf Hx); lia.
      * intros q Hq. eapply (frame_apart kend) with (v := i); [done| |done|by right].
        rewrite lookup_insert_ne by lia. done.
  - intros w Hr Hn. rewrite Htr, decide_False by (auto; lia). apply Hg; [done|lia].
  - intros x Hx. rewrite Hout.
    + rewrite decide_False; [by apply Hg|]. destruct (Hx f) as [|]; [|lia|lia].
      apply (g_pages _ _ _ _ _ Hg). right; left. apply elem_of_cons. by left.
    + intros q Hq. apply Hx, (g_pages _ _ _ _ _ Hg). rewrite Hfl, elem_of_cons, elem_of_app.
      apply Hdom in Hq. tauto.
Qed.

(** The state after [f] is returned: only the tables have grown. *)
Lemma grown_back k s f fl G M s2 fl' G' used :
  grown k s (f :: fl) G M -> f ∉ dom G -> (forall v g, M !! v = Some g -> g <> f) -> f ∉ fl ->
  page_ok kend f ->
  as_inv kend s2 fl' root G' M -> G ⊆ G' -> fl = used ++ fl' ->
  (forall q, q ∈ dom G' <-> q ∈ dom G \/ q ∈ used) ->
  (forall w, 0 <= w < MAXVA -> translate (pmem s2) root w = translate (pmem s) root w) ->
  (forall x, (forall q, q ∈ dom G' -> outside x q) -> outside x f -> ld8 (pmem s2) x = ld8 (pmem s) x) ->
  exists s3, kfree kend f s2 = Ok s3 /\ grown k s3 (f :: fl') G' M.
Proof.
  intros Hg HnG HnM Hnf Hpf Hinv2 Hsub Hfl Hdom Htr Hout.
  rewrite Hfl, elem_of_app in Hnf.
  assert (HnG' : f ∉ dom G') by (rewrite Hdom; tauto).
  destruct (kfree_ok kend Hkend s2 f fl') as (s3 & E & Hk3 & Hm3);
    [apply Hinv2|done|tauto|]. exists s3. split; [done|].
  destruct (as_inv_tables kend s2 s3 fl' (f :: fl') root G' M Hinv2 Hk3) as [Hinv3 Htr3].
  { intros p. rewrite elem_of_cons. intros [->|?]; [right|left]; auto. }
  { intros p x Hp Hx. apply Hm3. apply (page_disjoint kend p f x); auto; [|by intros ->].
    eapply free_or_table; eauto. }
  assert (Hpages : forall q, (q ∈ dom G' \/ q ∈ f :: fl') <-> (q ∈ dom G \/ q ∈ f :: fl)).
  { intros q. rewrite Hdom, Hfl, !elem_of_cons, elem_of_app. tauto. }
  split; [done|..].
  - intros q. rewrite <- (g_pages _ _ _ _ _ Hg). specialize (Hpages q). tauto.
  - etransitivity; [apply Hg|done].
  - apply Hg.
  - intros i Hi. destruct (g_new _ _ _ _ _ Hg i Hi) as (g & Hig & Hti & Hz). exists g.
    destruct (ai_map _ _ _ _ _ _ Hinv3 i g Hig) as [Hr _].
    rewrite Htr3, Htr by (rewrite MAXVA_eq in *; zlia). split_and!; auto.
    intros x Hx. pose proof (fun q => frame_apart kend s3 (f :: fl') root G' M i g x q Hinv3 Hig Hx) as Ha.
    assert (outside x f) by (apply Ha; left; apply elem_of_cons; by left).
    rewrite Hm3, Hout by auto. by apply Hz.
  - intros w Hw Hn. rewrite Htr3, Htr by done. by apply Hg.
  - intros x Hx. assert (Hx' : forall q, q ∈ dom G' \/ q ∈ f :: fl' -> outside x q).
    { intros q Hq. apply Hx, (g_pages _ _ _ _ _ Hg). specialize (Hpages q). tauto. }
    assert (outside x f) by (apply Hx'; right; apply elem_of_cons; by left).
    rewrite Hm3, Hout by auto. by apply Hg.
Qed.

(** One page: allocate, fill, map.  [init] is how the loop fills the new
    page.  When the tables cannot be extended the page goes back to the free
    list. *)
Definition fills (init : mem -> mem) (f k : Z) (s : phys) : Prop :=
  forall m, mem_wf m -> (forall x, outside x f -> ld8 m x = ld8 (pmem s) x) ->
    mem_wf (init m) /\
    forall x, ld8 (init m) x = if decide (f <= x < f + PGSIZE) then fill (v0 + k) (x - f) else ld8 m x.

Lemma grown_step init k s f fl G M :
  grown k s (f :: fl) G M -> 0 <= k < N ->
  0 <= perm (v0 + k) < 1024 -> Z.lor (perm (v0 + k)) PTE_V <> PTE_V -> fills init f k s ->
  exists s1 r s2, kalloc s = (f, s1) /\ f <> 0 /\
    mappages root ((v0 + k) * 4096) PGSIZE f (perm (v0 + k)) (with_mem (init (pmem s1)) s1) = Ok (r, s2) /\
    (r = 0 /\ (exists fl' G' M', grown (k + 1) s2 fl' G' M' /\ M' !! (v0 + k) = Some f) \/
     r = -1 /\ (length fl <= 2)%nat /\ exists s3 fl' G', kfree kend f s2 = Ok s3 /\ grown k s3 fl' G' M).
Proof.
  intros Hg Hk Hperm Hleaf Hinit.
  destruct (as_inv_kalloc kend Hkend s f fl root G M (g_as _ _ _ _ _ Hg))
    as (s1 & Ek & Hinv1 & Hpf & Hf0 & Hnf & HnG & HnM & Htr1 & Hout1).
  destruct (Hinit (pmem s1)) as [Hwf1 Hm1]; [apply Hinv1|done|]. set (m1 := init (pmem s1)) in *.
  destruct (as_inv_frame kend s1 fl root G M m1 Hinv1 Hwf1) as [Hinv2 Htr2].
  { intros p x Hp Hx. rewrite Hm1, decide_False; [done|].
    pose proof (free_or_table kend s1 fl root G M p Hinv1 Hp) as Hpp.
    pose proof (page_disjoint kend p f x Hpp Hpf) as Hd. destruct Hd; [|done|lia|lia].
    intros ->. tauto. }
  destruct (map_page kend Hkend (with_mem m1 s1) fl root G M (v0 + k) f (perm (v0 + k)) Hinv2 Hpf Hnf HnG HnM)
    as (r & s2 & fl' & G' & used & Hrun & Hsub & Hfl & [Hdom Hul] & Hr & Htr & Hout); auto; [lia| |].
  { cbn [with_mem pmem]. assert (0 <= (v0 + k) * 4096 < MAXVA) by (rewrite MAXVA_eq in *; zlia).
    rewrite Htr2, Htr1, (g_tr _ _ _ _ _ Hg) by (auto; zlia). apply Hfree. zlia. }
  cbn [with_mem pmem] in *.
  assert (Htr' : forall w, 0 <= w < MAXVA -> translate (pmem s2) root w =
     if decide (r = 0 /\ w / 4096 = v0 + k) then Some (leaf_pte f (perm (v0 + k))) else translate (pmem s) root w)
    by (intros; rewrite Htr, Htr2, Htr1 by done; done).
  exists s1, r, s2. split_and!; auto.
  destruct Hr as [[-> Hinv3]|(-> & Hnil & Hinv3)]; [left|right]; (split; [done|]).
  - exists fl', G', (<[v0 + k := f]> M). split; [|apply lookup_insert_eq]. eapply grown_next; eauto.
    + intros w Hw. rewrite Htr' by done. destruct (decide (0 = 0 /\ _)), (decide (_ = v0 + k)); tauto || done.
    + intros x Hx. rewrite Hout, Hm1 by done.
      destruct (decide (f <= x < f + PGSIZE)); [done|]. apply Hout1. unfold outside. lia.
  - split; [rewrite Hfl, Hnil, app_nil_r; exact Hul|].
    destruct (grown_back k s f fl G M s2 fl' G' used) as (s3 & E3 & Hg3); try assumption.
    + intros x Hx Hxf. rewrite Hout, Hm1, decide_False by (auto; unfold outside in Hxf; lia). by apply Hout1.
    + by exists s3, (f :: fl'), G'.
Qed.

(** ** The loop of [uvmalloc] *)

Lemma user_perm xperm :
  0 <= xperm < 1024 ->
  0 <= Z.lor (Z.lor PTE_R PTE_U) xperm < 1024 /\
  Z.lor (Z.lor (Z.lor PTE_R PTE_U) xperm) PTE_V <> PTE_V.
Proof.
  intros Hx. split; [apply (lor_range _ _ 10); [lia|vm_compute; split; congruence|exact Hx]|].
  intros H. apply (f_equal (fun z => Z.testbit z 1)) in H. rewrite !Z.lor_spec in H. done.
Qed.

Lemma uvmalloc_loop_run newsz xperm n : forall fuel k s fl G M,
  0 <= xperm < 1024 -> (forall i, perm i = Z.lor (Z.lor PTE_R PTE_U) xperm) -> (forall i o, fill i o = 0) ->
  (forall j, j < v0 + N -> j * 4096 < newsz) ->
  (forall s fl G M, grown N s fl G M -> newsz <= (v0 + N) * 4096) ->
  grown k s fl G M -> 0 <= k -> k + Z.of_nat n = N -> (n <= fuel)%nat ->
  exists r s' fl' G' M',
    uvmalloc_loop kend fuel root ((v0 + k) * 4096) (v0 * 4096) newsz xperm s = Ok (r, s') /\
    (r = newsz /\ grown N s' fl' G' M' \/ r = 0 /\ grown 0 s' fl' G' M').
Proof.
  intros fuel k s fl G M [Hp1 Hp2]%user_perm Hpe Hz Hlt Hend. revert fuel k s fl G M.
  induction n as [|n IH]; intros fuel k s fl G M Hg Hk HkN Hfuel.
  { assert (k = N) as -> by lia. exists newsz, s, fl, G, M. split; [|left; done].
    pose proof (Hend s fl G M Hg). destruct fuel; cbn [uvmalloc_loop]; by ztest. }
  pose proof (Hlt (v0 + k) ltac:(lia)).
  destruct fuel as [|fuel]; [lia|]. cbn [uvmalloc_loop]. ztest. destruct fl as [|f fl].
  { rewrite (kalloc_nil kend s (vi_kalloc _ _ _ _ _ (ai_vm _ _ _ _ _ _ (g_as _ _ _ _ _ Hg)))).
    cbn [Z.eqb]. destruct (grown_undo k s [] G M Hg) as (r & s' & fl' & M' & -> & Hg'); [lia|].
    exists 0, s', fl', G, M'. split; [done|right; done]. }
  destruct (grown_step (fun m => memset m f 0 PGSIZE) k s f fl G M Hg)
    as (s1 & r & s2 & -> & Hf0 & Hmap & Hcase); [lia|by rewrite Hpe..| |].
  { intros m Hm _. split; [apply memset_wf; [done|unfold PGSIZE; lia]|].
    intros x. rewrite memset_spec, Hz by (unfold PGSIZE; lia). done. }
  rewrite Hpe in Hmap. rewrite (proj2 (Z.eqb_neq f 0) Hf0), Hmap. cbn [mbind outcome_bind].
  destruct Hcase as [[-> (fl' & G' & M' & Hg' & _)]|(-> & _ & s3 & fl' & G' & -> & Hg')]; cbn [Z.eqb negb mbind outcome_bind].
  - assert (u64 ((v0 + k) * 4096 + PGSIZE) = (v0 + (k + 1)) * 4096) as ->
      by (rewrite MAXVA_eq in *; rewrite u64_id; unfold PGSIZE; zlia).
    apply (IH fuel (k + 1) s2 fl' G' M'); auto; lia.
  - destruct (grown_undo k s3 fl' G' M Hg') as (r & s' & fl2 & M' & -> & Hg2); [lia|].
    exists 0, s', fl2, G', M'. split; [done|right; done].
Qed.

End Grown.

(** [uvmalloc] adds [N] pages, those that the new size asks for, or none.
    Where [N] pages are more than there can be, it adds none. *)
Lemma uvmalloc_pages s fl root G M oldsz newsz xperm N :
  let user := fun _ : Z => Z.lor (Z.lor PTE_R PTE_U) xperm in
  let zeros := fun _ _ : Z => 0 in
  as_inv kend s fl root G M -> 0 <= oldsz <= newsz -> 0 <= N -> pgno oldsz + N <= MAXVA / 4096 -> 0 <= xperm < 1024 ->
  (forall w, pgno oldsz <= w / 4096 < pgno oldsz + N -> translate (pmem s) root w = None) ->
  (forall j, j < pgno oldsz + N -> j * 4096 < newsz) ->
  (forall s' fl' G' M', grown s fl root G M (pgno oldsz) user zeros N s' fl' G' M' -> newsz <= (pgno oldsz + N) * 4096) ->
  exists r s' fl' G' M',
    uvmalloc kend root oldsz newsz xperm s = Ok (r, s') /\
    (r = newsz /\ grown s fl root G M (pgno oldsz) user zeros N s' fl' G' M' \/
     r = 0 /\ grown s fl root G M (pgno oldsz) user zeros 0 s' fl' G' M').
Proof.
  intros user zeros Hinv Hsz HN Hmax Hx Hfree Hlt Hend.
  pose proof (Hlt (pgno oldsz + N - 1) ltac:(lia)) as Hlast.
  assert (oldsz <= MAXVA) by (unfold pgno in Hmax; rewrite MAXVA_eq in *; zlia).
  pose proof (pgno_bounds oldsz ltac:(lia)). unfold uvmalloc. ztest. rewrite PGROUNDUP_pgno by lia.
  destruct (uvmalloc_loop_run s fl root G M (pgno oldsz) N user zeros Hinv) with (newsz := newsz) (xperm := xperm)
    (n := Z.to_nat N) (fuel := Z.to_nat ((newsz - pgno oldsz * 4096) / PGSIZE + 1)) (k := 0)
    (s := s) (fl := fl) (G := G) (M := M) as (r & s' & fl' & G' & M' & Hrun & Hr); auto; try lia.
  - by apply grown_start.
  - unfold PGSIZE. zlia.
  - rewrite Z.add_0_r in Hrun. exists r, s', fl', G', M'. auto.
Qed.

(** [uvmalloc] adds all the pages between the sizes, or none. *)
Lemma uvmalloc_run s fl root G M oldsz newsz xperm :
  as_inv kend s fl root G M -> 0 <= oldsz <= newsz -> newsz <= MAXVA -> 0 <= xperm < 1024 ->
  (forall w, pgno oldsz <= w / 4096 < pgno newsz -> translate (pmem s) root w = None) ->
  exists r s' fl' G' M',
    uvmalloc kend root oldsz newsz xperm s = Ok (r, s') /\
    (r = newsz /\ grown s fl root G M (pgno oldsz) (fun _ => Z.lor (Z.lor PTE_R PTE_U) xperm) (fun _ _ => 0)
                    (pgno newsz - pgno oldsz) s' fl' G' M' \/
     r = 0 /\ grown s fl root G M (pgno oldsz) (fun _ => Z.lor (Z.lor PTE_R PTE_U) xperm) (fun _ _ => 0) 0 s' fl' G' M').
Proof.
  intros Hinv Hsz Hmax Hx Hfree. pose proof (pgno_bounds newsz ltac:(lia)).
  assert (pgno oldsz <= pgno newsz) by (unfold pgno; zlia).
  apply uvmalloc_pages; auto; try lia.
  - intros w Hw. apply Hfree. lia.
  - intros j Hj. unfold pgno in *. zlia.
  - intros _ _ _ _ _. unfold pgno. zlia.
Qed.

End Grow.
