(* ===== verification/CopyTheory.v ===== *)
(** * Copying between kernel and user space: [copyout], [copyin],
      [copyinstr]

    The user's view of an address space is the byte behind a virtual
    address, [ubyte].  [copyout] stores a prefix of its buffer in that view,
    all of it unless it meets a page that is not writable by the user;
    [copyin] reads it back. *)
From S2P Require Import Prelude Cstring Riscv Kalloc Vm VmTheory UvmTheory.

(** The byte that the user sees at [w], through the page map [M]. *)
Definition ubyte (m : mem) (M : gmap Z Z) (w : Z) : option Z :=
  f ← M !! (w / 4096); Some (ld8 m (f + w mod 4096)).

(** The user may read, and may write, address [w]. *)
Definition ureadable (m : mem) (root w : Z) : Prop :=
  0 <= w < MAXVA /\ exists e, translate m root w = Some e /\ has e PTE_U = true.
Definition uwritable (m : mem) (root w : Z) : Prop :=
  0 <= w < MAXVA /\ exists e, translate m root w = Some e /\ has e PTE_U = true /\ has e PTE_W = true.

Section Copy.
Variable kend : Z.
Hypothesis Hkend : 0 < kend.

(** [walk] without allocation, as a function of the translation. *)
Lemma walk_false s fl root G va :
  vm_inv kend s fl root G -> 0 <= va < MAXVA ->
  exists a, walk root va false s = Ok (a, s) /\
    translate (pmem s) root va =
      if a =? 0 then None
      else if has (ld64 (pmem s) a) PTE_V then Some (ld64 (pmem s) a) else None.
Proof.
  intros Hinv Hva. unfold walk. rewrite walk_noalloc, MAXVA_eq in *. ztest.
  unfold translate. rewrite xl_slot.
  destruct (slot (pmem s) 2 root va) as [a|] eqn:Ea; [|by exists 0].
  exists a. split; [done|].
  destruct (vm_inv_set_leaf kend Hkend s fl root G va a 0) as (_ & Ha & _); auto.
  by rewrite (proj2 (Z.eqb_neq a 0) Ha).
Qed.

Lemma same_page_translate m root w w' : w / 4096 = w' / 4096 -> translate m root w = translate m root w'.
Proof. intros H. rewrite translate_page, H. symmetry. apply translate_page. Qed.

Lemma uwritable_page m root w w' :
  w / 4096 = w' / 4096 -> uwritable m root w -> uwritable m root w'.
Proof.
  intros H [Hw He]. split; [rewrite MAXVA_eq in *; zlia|]. by rewrite <- (same_page_translate m root w).
Qed.

(** The page [copyout] finds at [va0]. *)
Lemma copyout_page s fl root G M va0 :
  as_inv kend s fl root G M -> 0 <= va0 < MAXVA ->
  exists pte, walk root va0 false s = Ok (pte, s) /\
    let e := ld64 (pmem s) pte in
    if (pte =? 0) || negb (has e PTE_V) || negb (has e PTE_U) || negb (has e PTE_W)
    then ~ uwritable (pmem s) root va0
    else uwritable (pmem s) root va0 /\ M !! (va0 / 4096) = Some (PTE2PA e).
Proof.
  intros Hinv Hva. destruct (walk_false s fl root G va0 (ai_vm _ _ _ _ _ _ Hinv) Hva) as (a & Hw & Ht).
  exists a. split; [done|]. cbv zeta.
  destruct (a =? 0) eqn:Ea; cbn [orb].
  { intros (_ & e & He & _). congruence. }
  destruct (has (ld64 (pmem s) a) PTE_V) eqn:EV; cbn [orb negb].
  2: { intros (_ & e & He & _). congruence. }
  destruct (has (ld64 (pmem s) a) PTE_U) eqn:EU; cbn [orb negb].
  2: { intros (_ & e & He & HU & _). congruence. }
  destruct (has (ld64 (pmem s) a) PTE_W) eqn:EW; cbn [orb negb].
  2: { intros (_ & e & He & _ & HW). congruence. }
  split; [split; [done|eexists; eauto]|]. by eapply ai_user.
Qed.

(** Storing bytes inside a user frame. *)
Lemma store_user s fl root G M w l f :
  as_inv kend s fl root G M -> M !! (w / 4096) = Some f ->
  w mod 4096 + Z.of_nat (length l) <= 4096 ->
  let m := st_bytes (pmem s) (f + w mod 4096) l in
  as_inv kend (with_mem m s) fl root G M /\
  (forall x, 0 <= x < MAXVA -> translate m root x = translate (pmem s) root x) /\
  (forall x, ubyte m M x =
     if decide (w <= x < w + Z.of_nat (length l)) then u8 <$> l !! Z.to_nat (x - w)
     else ubyte (pmem s) M x) /\
  (forall x, outside x f -> ld8 m x = ld8 (pmem s) x).
Proof.
  intros Hinv Hf Hl m. pose proof (Z.mod_pos_bound w 4096 ltac:(lia)) as Hm.
  assert (Hout : forall x, outside x f -> ld8 m x = ld8 (pmem s) x).
  { intros x Hx. apply ld8_st_bytes_other. unfold outside, PGSIZE in Hx. lia. }
  destruct (as_inv_frame kend s fl root G M m Hinv) as [Hinv' Htr].
  { apply st_bytes_wf, Hinv. }
  { intros p x Hp Hx. apply Hout. pose proof (free_or_table kend s fl root G M p Hinv Hp) as Hpp.
    destruct (ai_frame _ _ _ _ _ _ Hinv _ f Hf) as (Hpf & Hnf & HnG).
    apply (page_disjoint kend p f x); auto. intros ->. tauto. }
  split_and!; auto. intros x. unfold ubyte.
  destruct (M !! (x / 4096)) as [g|] eqn:Eg; cbn [mbind option_bind].
  2: { rewrite decide_False; [done|]. intros Hx. replace (x / 4096) with (w / 4096) in Eg by zlia. congruence. }
  destruct (decide (x / 4096 = w / 4096)) as [Hp|Hp].
  - assert (g = f) as -> by congruence. unfold m.
    destruct (decide (w <= x < w + Z.of_nat (length l))) as [Hx|Hx].
    + destruct (lookup_lt_is_Some_2 l (Z.to_nat (x - w))) as [b Hb]; [lia|].
      rewrite Hb. replace (f + x mod 4096) with (f + w mod 4096 + Z.of_nat (Z.to_nat (x - w))) by zlia.
      by rewrite (ld8_st_bytes_in _ _ _ _ b Hb).
    + rewrite ld8_st_bytes_other; [done|]. zlia.
  - rewrite decide_False by zlia. rewrite Hout; [done|].
    destruct (ai_frame _ _ _ _ _ _ Hinv _ f Hf) as (Hpf & _). destruct (ai_frame _ _ _ _ _ _ Hinv _ g Eg) as (Hpg & _).
    apply (page_disjoint kend g f); auto; [|unfold PGSIZE; zlia].
    intros ->. apply Hp. by eapply (ai_inj _ _ _ _ _ _ Hinv).
Qed.

(** ** [copyout] *)

(** [k] bytes of [src] have been stored from [dstva] on. *)
Record copied (s : phys) fl root G M (dstva : Z) (src : list Z) (k : Z) (s' : phys) : Prop := {
  cp_as : as_inv kend s' fl root G M;
  cp_tr : forall w, 0 <= w < MAXVA -> translate (pmem s') root w = translate (pmem s) root w;
  cp_ubyte : forall w, ubyte (pmem s') M w =
    if decide (dstva <= w < dstva + k) then u8 <$> src !! Z.to_nat (w - dstva)
    else ubyte (pmem s) M w;
  cp_out : forall x, (forall v f, M !! v = Some f -> outside x f) -> ld8 (pmem s') x = ld8 (pmem s) x
}.

Lemma copied_none s fl root G M dstva src :
  as_inv kend s fl root G M -> copied s fl root G M dstva src 0 s.
Proof. intros. split; auto. intros w. by rewrite decide_False by lia. Qed.

Lemma copied_app s s1 s2 fl root G M dstva src1 src2 k :
  copied s fl root G M dstva src1 (Z.of_nat (length src1)) s1 ->
  copied s1 fl root G M (dstva + Z.of_nat (length src1)) src2 k s2 -> 0 <= k ->
  copied s fl root G M dstva (src1 ++ src2) (Z.of_nat (length src1) + k) s2.
Proof.
  intros [A1 T1 U1 O1] [A2 T2 U2 O2] Hk. split; auto.
  - intros. by rewrite T2, T1.
  - intros w. rewrite U2, U1. destruct (decide (dstva <= w < dstva + (Z.of_nat (length src1) + k))) as [Hw|Hw].
    + case_decide as H2.
      * rewrite lookup_app_r by lia. do 2 f_equal. lia.
      * rewrite decide_True, lookup_app_l by lia. done.
    + rewrite !decide_False by lia. done.
  - intros x Hx. by rewrite O2, O1.
Qed.

Lemma uwritable_tr s s' root w :
  (forall w, 0 <= w < MAXVA -> translate (pmem s') root w = translate (pmem s) root w) ->
  uwritable (pmem s') root w <-> uwritable (pmem s) root w.
Proof. intros H. split; intros [Hw He]; (split; [done|]); by rewrite ?H in *. Qed.

Lemma copyout_loop_run n : forall dstva src s fl root G M,
  as_inv kend s fl root G M -> 0 <= dstva < 18446744073709551616 -> (length src <= n)%nat ->
  exists r s' k, copyout_loop n root dstva src s = Ok (r, s') /\
    copied s fl root G M dstva src k s' /\
    (forall w, dstva <= w < dstva + k -> uwritable (pmem s) root w) /\
    (r = 0 /\ k = Z.of_nat (length src) \/
     r = -1 /\ 0 <= k < Z.of_nat (length src) /\ ~ uwritable (pmem s) root (dstva + k)).
Proof.
  induction n as [|n IH]; intros dstva src s fl root G M Hinv Hdst Hlen; cbn [copyout_loop];
    destruct (Z.ltb_spec 0 (Z.of_nat (length src))) as [Hl|Hl]; try lia.
  1, 3: exists 0, s, 0; split_and!; auto using copied_none; [intros; lia|left; lia].
  cbv zeta. rewrite PGROUNDDOWN_eq. set (va0 := dstva / 4096 * 4096).
  assert (Hpg : dstva / 4096 = va0 / 4096) by (unfold va0; zlia).
  destruct (Z.leb_spec MAXVA va0) as [Hmax|Hmax].
  { exists (-1), s, 0. split_and!; auto using copied_none; [intros; lia|right; split_and!; auto; [lia|]].
    rewrite Z.add_0_r. intros [? _]. unfold va0 in *. zlia. }
  destruct (copyout_page s fl root G M va0 Hinv) as (pte & -> & Hpte); [unfold va0 in *; zlia|].
  cbn [mbind outcome_bind]. cbv zeta in Hpte. destruct (_ || _) eqn:Eok.
  { exists (-1), s, 0. split_and!; auto using copied_none; [intros; lia|right; split_and!; auto; [lia|]].
    rewrite Z.add_0_r. intros H. apply Hpte. by eapply uwritable_page. }
  destruct Hpte as [Hwr HM]. rewrite <- Hpg in HM. rewrite MAXVA_eq in Hmax.
  set (n1 := Z.min (PGSIZE - (dstva - va0)) (Z.of_nat (length src))).
  set (chunk := take (Z.to_nat n1) src).
  assert (Hn1 : 0 < n1 <= Z.of_nat (length src) /\ dstva mod 4096 + n1 <= 4096)
    by (unfold n1, va0, PGSIZE; zlia).
  assert (Hch : Z.of_nat (length chunk) = n1) by (unfold chunk; rewrite length_take; lia).
  replace (dstva - va0) with (dstva mod 4096) by (unfold va0; zlia).
  destruct (store_user s fl root G M dstva chunk _ Hinv HM) as (Hinv1 & Htr1 & Hub1 & Hout1); [lia|].
  set (s1 := with_mem (st_bytes (pmem s) (PTE2PA (ld64 (pmem s) pte) + dstva mod 4096) chunk) s) in *.
  assert (Hc1 : copied s fl root G M dstva chunk (Z.of_nat (length chunk)) s1).
  { split; auto. intros x Hx. apply Hout1. by eapply Hx. }
  destruct (decide (n1 = Z.of_nat (length src))) as [Hall|Hsome].
  - rewrite drop_ge by lia. assert (chunk = src) as Hcs by (unfold chunk; rewrite take_ge by lia; done).
    rewrite Hcs in Hc1. exists 0, s1, (Z.of_nat (length src)). split_and!; auto.
    + by destruct n.
    + intros w Hw. eapply uwritable_page; [|exact Hwr]. unfold n1, va0, PGSIZE in *. zlia.
  - assert (Hnext : u64 (va0 + PGSIZE) = dstva + Z.of_nat (length chunk)).
    { rewrite u64_id; unfold n1, va0, PGSIZE in *; zlia. }
    destruct (IH (u64 (va0 + PGSIZE)) (drop (Z.to_nat n1) src) s1 fl root G M Hinv1)
      as (r & s' & k & Hrun & Hc & Hw & Hr); [apply u64_range|rewrite length_drop; lia|].
    rewrite Hnext in Hw, Hc, Hr. rewrite length_drop in Hr.
    exists r, s', (Z.of_nat (length chunk) + k). split_and!; auto.
    + rewrite <- (take_drop (Z.to_nat n1) src). apply copied_app with s1; auto. lia.
    + intros w Hdw. destruct (decide (w < dstva + n1)).
      * eapply uwritable_page; [|exact Hwr]. unfold n1, va0, PGSIZE in *. zlia.
      * apply (uwritable_tr s s1 root w); [by apply Hc1|]. apply Hw. lia.
    + rewrite (uwritable_tr s s1 root) in Hr by apply Hc1. rewrite Z.add_assoc.
      destruct Hr as [[]|(? & ? & ?)]; [left|right]; split_and!; auto; lia.
Qed.

(** ** [copyin] *)

Lemma ureadable_page m root w w' :
  w / 4096 = w' / 4096 -> ureadable m root w -> ureadable m root w'.
Proof.
  intros H [Hw He]. split; [rewrite MAXVA_eq in *; zlia|]. by rewrite <- (same_page_translate m root w).
Qed.

Lemma walkaddr_run s fl root G M va :
  as_inv kend s fl root G M -> 0 <= va ->
  exists pa, walkaddr root va s = Ok pa /\
    if pa =? 0 then ~ ureadable (pmem s) root va
    else ureadable (pmem s) root va /\ M !! (va / 4096) = Some pa.
Proof.
  intros Hinv Hva. unfold walkaddr. destruct (Z.leb_spec MAXVA va) as [Hm|Hm].
  { exists 0. split; [done|]. intros [? _]. lia. }
  destruct (walk_false s fl root G va (ai_vm _ _ _ _ _ _ Hinv) ltac:(lia)) as (a & -> & Ht).
  cbn [mbind outcome_bind]. destruct (a =? 0).
  { exists 0. split; [done|]. intros (_ & e & He & _). congruence. }
  destruct (has (ld64 (pmem s) a) PTE_V); cbn [negb].
  2: { exists 0. split; [done|]. intros (_ & e & He & _). congruence. }
  destruct (has (ld64 (pmem s) a) PTE_U) eqn:EU; cbn [negb].
  2: { exists 0. split; [done|]. intros (_ & e & He & HU). congruence. }
  assert (HM : M !! (va / 4096) = Some (PTE2PA (ld64 (pmem s) a))) by (eapply ai_user; eauto; lia).
  exists (PTE2PA (ld64 (pmem s) a)). split; [done|].
  destruct (ai_frame _ _ _ _ _ _ Hinv _ _ HM) as ((? & _)%(page_ok_bounds kend Hkend) & _). ztest.
  split; [split; [lia|eexists; eauto]|done].
Qed.

Lemma bytes_ubyte m M w f n i :
  M !! (w / 4096) = Some f -> w mod 4096 + Z.of_nat n <= 4096 -> (i < n)%nat ->
  bytes m (f + w mod 4096) n !! i = ubyte m M (w + Z.of_nat i).
Proof.
  intros Hf Hn Hi. rewrite lookup_bytes by done. unfold ubyte.
  replace ((w + Z.of_nat i) / 4096) with (w / 4096) by zlia. rewrite Hf. cbn [mbind option_bind].
  do 2 f_equal. zlia.
Qed.

Lemma copyin_loop_run n : forall srcva len dst s fl root G M,
  as_inv kend s fl root G M -> 0 <= srcva < 18446744073709551616 -> 0 <= len <= Z.of_nat n ->
  exists r l, copyin_loop n root srcva len dst s = Ok (r, dst ++ l) /\
    (forall i, (i < length l)%nat -> l !! i = ubyte (pmem s) M (srcva + Z.of_nat i)) /\
    (forall w, srcva <= w < srcva + Z.of_nat (length l) -> ureadable (pmem s) root w) /\
    (r = 0 /\ Z.of_nat (length l) = len \/
     r = -1 /\ Z.of_nat (length l) < len /\ ~ ureadable (pmem s) root (srcva + Z.of_nat (length l))).
Proof.
  induction n as [|n IH]; intros srcva len dst s fl root G M Hinv Hsrc Hlen; cbn [copyin_loop];
    destruct (Z.ltb_spec 0 len) as [Hl|Hl]; try lia.
  1, 3: exists 0, []; rewrite app_nil_r; split_and!; auto; [..|left; simpl; lia]; simpl; intros; lia.
  rewrite PGROUNDDOWN_eq. set (va0 := srcva / 4096 * 4096).
  assert (Hpg : srcva / 4096 = va0 / 4096) by (unfold va0; zlia).
  destruct (walkaddr_run s fl root G M va0 Hinv) as (pa & -> & Hpa); [unfold va0; zlia|].
  cbn [mbind outcome_bind]. destruct (pa =? 0).
  { exists (-1), []. rewrite app_nil_r. split_and!; auto; [simpl; intros; lia..|right].
    simpl. rewrite Z.add_0_r. split_and!; auto. intros H. apply Hpa. by eapply ureadable_page. }
  destruct Hpa as [Hrd HM]. rewrite <- Hpg in HM. pose proof Hrd as [Hmax _]. rewrite MAXVA_eq in Hmax.
  set (n1 := Z.min (PGSIZE - (srcva - va0)) len).
  assert (Hn1 : 0 < n1 <= len /\ srcva mod 4096 + n1 <= 4096) by (unfold n1, va0, PGSIZE; zlia).
  assert (Hpage : forall w, srcva <= w < srcva + n1 -> ureadable (pmem s) root w).
  { intros w Hw. eapply ureadable_page; [|exact Hrd]. unfold va0. zlia. }
  replace (srcva - va0) with (srcva mod 4096) by (unfold va0; zlia).
  set (chunk := bytes (pmem s) (pa + srcva mod 4096) (Z.to_nat n1)).
  assert (Hcl : length chunk = Z.to_nat n1) by apply length_bytes.
  assert (Hch : forall i, (i < length chunk)%nat -> chunk !! i = ubyte (pmem s) M (srcva + Z.of_nat i)).
  { intros i Hi. apply bytes_ubyte; [done|lia|lia]. }
  destruct (decide (n1 = len)) as [Hall|Hsome].
  - exists 0, chunk. split_and!; auto; [|intros; apply Hpage; lia|left; lia].
    rewrite Hall, Z.sub_diag. destruct n; done.
  - assert (Hnext : u64 (va0 + PGSIZE) = srcva + n1) by (rewrite u64_id; unfold n1, va0, PGSIZE in *; zlia).
    destruct (IH (u64 (va0 + PGSIZE)) (len - n1) (dst ++ chunk) s fl root G M Hinv)
      as (r & l & Hrun & Hb & Hw & Hr); [apply u64_range|lia|].
    rewrite Hnext in Hb, Hw, Hr. exists r, (chunk ++ l).
    rewrite <- app_assoc in Hrun. rewrite length_app, Hcl. split_and!; auto.
    + intros i Hi. destruct (decide (i < length chunk)%nat).
      * rewrite lookup_app_l by done. by apply Hch.
      * rewrite lookup_app_r, Hb by lia. f_equal. lia.
    + intros w Hdw. destruct (decide (w < srcva + n1)); [apply Hpage; lia|apply Hw; lia].
    + replace (srcva + Z.of_nat (Z.to_nat n1 + length l)) with (srcva + n1 + Z.of_nat (length l)) by lia.
      destruct Hr as [[]|(? & ? & ?)]; [left|right]; split_and!; auto; lia.
Qed.

(** ** [copyinstr] *)

Lemma copyinstr_page_run n : forall p dst s,
  exists b l, copyinstr_page n p dst s = (b, dst ++ l) /\ (length l <= n)%nat /\
    (forall i, (i < length l)%nat -> l !! i = Some (ld8 (pmem s) (p + Z.of_nat i))) /\
    (b = true /\ (exists l0, l = l0 ++ [0] /\ 0 ∉ l0) \/ b = false /\ length l = n /\ 0 ∉ l).
Proof.
  induction n as [|n IH]; intros p dst s; cbn [copyinstr_page].
  { exists false, []. rewrite app_nil_r. split_and!; [done..|simpl; intros; lia|].
    right. split_and!; auto. apply not_elem_of_nil. }
  destruct (Z.eqb_spec (ld8 (pmem s) p) 0) as [E|E].
  { exists true, [0]. split_and!; [done|simpl; lia| |left; split; [done|exists []; split; [done|apply not_elem_of_nil]]].
    intros [|i] Hi; simpl in *; [|lia]. by rewrite Z.add_0_r, E. }
  destruct (IH (p + 1) (dst ++ [ld8 (pmem s) p]) s) as (b & l & -> & Hl & Hb & Hc).
  exists b, (ld8 (pmem s) p :: l). rewrite <- app_assoc. split_and!; [done|simpl; lia|..].
  - intros [|i] Hi; simpl in *; [by rewrite Z.add_0_r|]. rewrite Hb by lia. do 2 f_equal. lia.
  - assert (Hn : forall l, 0 ∉ l -> 0 ∉ ld8 (pmem s) p :: l) by (intros l' H'; rewrite elem_of_cons; intros [?|?]; auto).
    destruct Hc as [[-> (l0 & -> & Hl0)]|(-> & <- & Hl0)]; [left|right]; split; auto.
    exists (ld8 (pmem s) p :: l0). auto.
Qed.

Lemma copyinstr_loop_run n : forall srcva max dst s fl root G M,
  as_inv kend s fl root G M -> 0 <= srcva < 18446744073709551616 -> 0 <= max <= Z.of_nat n ->
  exists r l, copyinstr_loop n root srcva max dst s = Ok (r, dst ++ l) /\ Z.of_nat (length l) <= max /\
    (forall i, (i < length l)%nat -> l !! i = ubyte (pmem s) M (srcva + Z.of_nat i)) /\
    (forall w, srcva <= w < srcva + Z.of_nat (length l) -> ureadable (pmem s) root w) /\
    (r = 0 /\ (exists l0, l = l0 ++ [0] /\ 0 ∉ l0) \/
     r = -1 /\ 0 ∉ l /\
       (Z.of_nat (length l) = max \/ ~ ureadable (pmem s) root (srcva + Z.of_nat (length l)))).
Proof.
  induction n as [|n IH]; intros srcva max dst s fl root G M Hinv Hsrc Hmx; cbn [copyinstr_loop];
    destruct (Z.ltb_spec 0 max) as [Hl|Hl]; try lia.
  1, 3: exists (-1), []; rewrite app_nil_r, elem_of_nil; split_and!; auto; simpl; [lia|intros; lia..|right; auto with lia].
  rewrite PGROUNDDOWN_eq. set (va0 := srcva / 4096 * 4096).
  assert (Hpg : srcva / 4096 = va0 / 4096) by (unfold va0; zlia).
  destruct (walkaddr_run s fl root G M va0 Hinv) as (pa & -> & Hpa); [unfold va0; zlia|].
  cbn [mbind outcome_bind]. destruct (pa =? 0).
  { exists (-1), []. rewrite app_nil_r, elem_of_nil. split_and!; auto; simpl; [lia|intros; lia..|right].
    rewrite Z.add_0_r. split_and!; auto. right. intros H. apply Hpa. by eapply ureadable_page. }
  destruct Hpa as [Hrd HM]. rewrite <- Hpg in HM. pose proof Hrd as [Hmax _]. rewrite MAXVA_eq in Hmax.
  set (n1 := Z.min (PGSIZE - (srcva - va0)) max).
  assert (Hn1 : 0 < n1 <= max /\ srcva mod 4096 + n1 <= 4096) by (unfold n1, va0, PGSIZE; zlia).
  assert (Hpage : forall w, srcva <= w < srcva + n1 -> ureadable (pmem s) root w).
  { intros w Hw. eapply ureadable_page; [|exact Hrd]. unfold va0. zlia. }
  replace (srcva - va0) with (srcva mod 4096) by (unfold va0; zlia).
  destruct (copyinstr_page_run (Z.to_nat n1) (pa + srcva mod 4096) dst s) as (b & chunk & -> & Hcl & Hcb & Hc).
  assert (Hch : forall i, (i < length chunk)%nat -> chunk !! i = ubyte (pmem s) M (srcva + Z.of_nat i)).
  { intros i Hi. rewrite Hcb by done. rewrite <- (bytes_ubyte _ _ _ pa (Z.to_nat n1)) by (auto; lia).
    by rewrite lookup_bytes by lia. }
  destruct Hc as [[-> Hnul]|(-> & Hcl' & Hnz)].
  { exists 0, chunk. split_and!; auto; [lia|intros; apply Hpage; lia]. }
  assert (Hnext : n1 = max \/ u64 (va0 + PGSIZE) = srcva + n1) by
    (unfold n1 in *; rewrite u64_id; unfold va0, PGSIZE in *; zlia).
  destruct (IH (u64 (va0 + PGSIZE)) (max - n1) (dst ++ chunk) s fl root G M Hinv)
    as (r & l & -> & Hlm & Hb & Hw & Hr); [apply u64_range|lia|].
  exists r, (chunk ++ l). rewrite <- app_assoc, length_app, Hcl'.
  assert (Hn : (l = [] /\ n1 = max) \/ u64 (va0 + PGSIZE) = srcva + n1).
  { destruct Hnext as [->|]; [left|by right]. split; [destruct l; [done|simpl in *; lia]|done]. }
  destruct Hn as [[-> ->]|Hn].
  - split_and!; auto; [simpl; lia|by rewrite app_nil_r; intros; apply Hch; simpl in *; lia|
      intros; apply Hpage; simpl in *; lia|].
    rewrite app_nil_r. destruct Hr as [[_ (l0 & Hl0 & _)]|(-> & _ & _)]; [by destruct l0|].
    right. split_and!; auto. left. simpl. lia.
  - rewrite Hn in Hb, Hw, Hr. split_and!; auto; [lia|..].
    + intros i Hi. destruct (decide (i < length chunk)%nat).
      * rewrite lookup_app_l by done. by apply Hch.
      * rewrite lookup_app_r, Hb by lia. f_equal. lia.
    + intros w Hdw. destruct (decide (w < srcva + n1)); [apply Hpage; lia|apply Hw; lia].
    + replace (srcva + Z.of_nat (Z.to_nat n1 + length l)) with (srcva + n1 + Z.of_nat (length l)) by lia.
      destruct Hr as [[-> (l0 & -> & Hl0)]|(-> & Hz & Hr)]; [left|right]; split_and!; auto.
      * exists (chunk ++ l0). rewrite app_assoc, elem_of_app. tauto.
      * rewrite elem_of_app. tauto.
      * destruct Hr; [left; lia|by right].
Qed.

End Copy.
