(* ===== verification/UvmProps.v ===== *)
(** * What user memory promises

    The main theorems about kernel/vm.c's user side, in terms of the user's
    view of memory ([CopyTheory.ubyte]): growing the address space, and
    copying data into it and out of it again. *)
From S2P Require Import Prelude Cstring Riscv Kalloc Vm VmTheory UvmTheory CopyTheory.

(** What an operation that leaves pages [lo .. hi) aside keeps: the
    translations, the bytes the user sees and the kernel's other memory. *)
Definition keeps_outside (lo hi : Z) (s s' : phys) root (M M' : gmap Z Z) : Prop :=
  forall w, 0 <= w < MAXVA -> ~ (lo <= w / 4096 < hi) ->
    translate (pmem s') root w = translate (pmem s) root w /\
    ubyte (pmem s') M' w = ubyte (pmem s) M w.

Section Props.
Variable kend : Z.
Hypothesis Hkend : 0 < kend.

(** The user's bytes outside the added pages survive [uvmalloc]. *)
Lemma grown_keeps s0 fl0 root G0 M0 v0 perm fill k s fl G M :
  as_inv kend s0 fl0 root G0 M0 -> grown kend s0 fl0 root G0 M0 v0 perm fill k s fl G M ->
  keeps_outside v0 (v0 + k) s0 s root M0 M.
Proof.
  intros Hinv0 Hg w Hw Hout. split; [by apply (g_tr _ _ _ _ _ _ _ _ _ _ _ _ _ _ Hg)|].
  unfold ubyte. rewrite (g_map _ _ _ _ _ _ _ _ _ _ _ _ _ _ Hg) by done.
  destruct (M0 !! (w / 4096)) as [f|] eqn:Ef; [|done]. cbn [mbind option_bind]. f_equal.
  apply (g_out _ _ _ _ _ _ _ _ _ _ _ _ _ _ Hg). intros q Hq.
  eapply (frame_apart kend); [exact Hinv0|exact Ef|unfold PGSIZE; zlia|tauto].
Qed.

Lemma grown_new_page s0 fl0 root G0 M0 v0 perm fill k s fl G M w :
  grown kend s0 fl0 root G0 M0 v0 perm fill k s fl G M -> v0 <= w / 4096 < v0 + k ->
  ubyte (pmem s) M w = Some (fill (w / 4096) (w mod 4096)) /\
  exists f, M !! (w / 4096) = Some f /\ translate (pmem s) root w = Some (leaf_pte f (perm (w / 4096))).
Proof.
  intros Hg Hw. destruct (g_new _ _ _ _ _ _ _ _ _ _ _ _ _ _ Hg _ Hw) as (f & Hf & Ht & Hz).
  rewrite <- translate_page in Ht. split; [|by eauto].
  unfold ubyte. rewrite Hf. cbn [mbind option_bind]. rewrite Hz by (unfold PGSIZE; zlia).
  do 2 f_equal. zlia.
Qed.

End Props.



(** ** The small machine with two writable user pages *)

Definition small_run : outcome (Z * Z * phys) :=
  s ← kinit small_end ∅;
  let '(root, s) := uvmcreate s in
  '(r, s) ← uvmalloc small_end root 0 8192 PTE_W s;
  Ok (root, r, s).

Lemma small_run_grows :
  match small_run with Ok (_, r, _) => r =? 8192 | _ => false end = true.
Proof. vm_compute. reflexivity. Qed.

Lemma small_user :
  exists s fl root G M, as_inv small_end s fl root G M /\
    (forall w, 0 <= w < 8192 -> uwritable (pmem s) root w).
Proof.
  destruct small_boot as (s0 & f & fl & E0 & Hk).
  destruct (uvmcreate_run small_end ltac:(done) s0 f fl Hk) as (s1 & E1 & Hinv & Htr & _).
  destruct (uvmalloc_run small_end ltac:(done) s1 fl f _ ∅ 0 8192 PTE_W Hinv)
    as (r & s' & fl' & G' & M' & E2 & Hr); [lia|done|unfold PTE_W; lia|intros; apply Htr|].
  pose proof small_run_grows as Hrun. unfold small_run in Hrun. rewrite E0 in Hrun.
  cbn [mbind outcome_bind] in Hrun. rewrite E1, E2 in Hrun. cbn [mbind outcome_bind] in Hrun.
  apply Z.eqb_eq in Hrun as ->. destruct Hr as [[_ Hg]|[Hr _]]; [|discriminate Hr].
  exists s', fl', f, G', M'. split; [apply Hg|]. intros w Hw.
  split; [rewrite MAXVA_eq; lia|].
  destruct (grown_new_page small_end _ _ _ _ _ _ _ _ _ _ _ _ _ w Hg) as (_ & g & Hg' & Ht).
  { change (pgno 0) with 0. change (pgno 8192) with 2. zlia. }
  rewrite Ht. eexists. split; [done|].
  split; apply leaf_pte_has; reflexivity.
Qed.

(** C4: [copyout] followed by [copyin] of the same range returns the bytes
    that were stored, whenever the range is mapped writable for the user,
    also when it crosses pages.  The copy succeeds, keeps the translation,
    and changes no other byte of the user's memory nor any memory outside
    the user's frames. *)
Theorem copyout_copyin_roundtrip kend s fl root G M dstva src :
  0 < kend -> as_inv kend s fl root G M -> 0 <= dstva < 18446744073709551616 ->
  Forall (fun b => 0 <= b < 256) src ->
  (forall w, dstva <= w < dstva + Z.of_nat (length src) -> uwritable (pmem s) root w) ->
  exists s',
    copyout root dstva src s = Ok (0, s') /\
    copyin root dstva (Z.of_nat (length src)) s' = Ok (0, src) /\
    copied kend s fl root G M dstva src (Z.of_nat (length src)) s'.
Proof.
  intros Hk Hinv Hd Hb Hw.
  destruct (copyout_loop_run kend Hk (length src) dstva src s fl root G M Hinv Hd ltac:(lia))
    as (r & s' & k & Hrun & Hc & _ & Hr).
  destruct Hr as [[-> ->]|(-> & Hlt & Hn)]; [|destruct Hn; apply Hw; lia].
  exists s'. split_and!; [done| |done].
  destruct (copyin_loop_run kend Hk (length src) dstva (Z.of_nat (length src)) [] s' fl root G M)
    as (r & l & Hin & Hl & _ & Hr); [apply Hc|done|lia|].
  unfold copyin. rewrite Nat2Z.id, Hin. cbn [app].
  destruct Hr as [[-> Hlen]|(-> & Hlt & Hn)].
  - do 2 f_equal. apply list_eq_same_length with (length src); [lia|lia|].
    intros i x y Hi Hx Hy. rewrite Hl in Hx by lia.
    rewrite (cp_ubyte _ _ _ _ _ _ _ _ _ _ Hc), decide_True in Hx by lia.
    replace (Z.to_nat (dstva + Z.of_nat i - dstva)) with i in Hx by lia.
    rewrite Hy in Hx. injection Hx as <-. apply u8_id.
    rewrite Forall_lookup in Hb. by eapply Hb.
  - destruct Hn. pose proof (Hw (dstva + Z.of_nat (length l)) ltac:(lia)) as [Hm (e & He & HU & _)].
    split; [done|]. exists e. by rewrite (cp_tr _ _ _ _ _ _ _ _ _ _ Hc).
Qed.

Lemma copyout_copyin_roundtrip_witness :
  exists s root s', copyout root 4094 [104; 105; 33; 0] s = Ok (0, s') /\
    copyin root 4094 4 s' = Ok (0, [104; 105; 33; 0]).
Proof.
  destruct small_user as (s & fl & root & G & M & Hinv & Hw).
  destruct (copyout_copyin_roundtrip small_end s fl root G M 4094 [104; 105; 33; 0])
    as (s' & H1 & H2 & _); [done|done|lia|repeat constructor; lia| |].
  - intros w Hr. apply Hw. simpl in Hr. lia.
  - exists s, root, s'. split; assumption.
Defined.

(** C5: [copyinstr] reads the string at a user address: it answers 0 with
    the bytes up to and including the first NUL when that lies within [max]
    readable bytes, and -1 otherwise, having met [max] bytes without a NUL or
    an address the user cannot read.  It never reads past [max] bytes,
    never panics and has enough fuel. *)
Theorem copyinstr_spec kend s fl root G M srcva max :
  0 < kend -> as_inv kend s fl root G M -> 0 <= srcva < 18446744073709551616 -> 0 <= max ->
  exists r l, copyinstr root srcva max s = Ok (r, l) /\ Z.of_nat (length l) <= max /\
    (forall i, (i < length l)%nat -> l !! i = ubyte (pmem s) M (srcva + Z.of_nat i)) /\
    (r = 0 /\ (exists l0, l = l0 ++ [0] /\ 0 ∉ l0) \/
     r = -1 /\ 0 ∉ l /\
       (Z.of_nat (length l) = max \/ ~ ureadable (pmem s) root (srcva + Z.of_nat (length l)))).
Proof.
  intros Hk Hinv Hs Hm.
  destruct (copyinstr_loop_run kend Hk (Z.to_nat max) srcva max [] s fl root G M Hinv Hs ltac:(lia))
    as (r & l & Hrun & Hlen & Hb & _ & Hr).
  exists r, l. auto.
Qed.

Lemma copyinstr_spec_witness :
  exists s root r l, copyinstr root 8190 16 s = Ok (r, l) /\ Z.of_nat (length l) <= 16.
Proof.
  destruct small_user as (s & fl & root & G & M & Hinv & _).
  destruct (copyinstr_spec small_end s fl root G M 8190 16) as (r & l & H1 & H2 & _); [done|done|lia|lia|].
  exists s, root, r, l. split; assumption.
Defined.

(** C2: [mappages] on a well-formed page table and an unmapped, aligned
    range.  It does not panic.  When it answers 0, every page of the range
    translates to the corresponding physical page with the permissions asked
    for; when it answers -1 the free list is used up and only a prefix of the
    range is mapped.  Every other translation, the well-formedness of the
    table and the memory outside the table are kept, and the pages the
    table has grown by come from the free list. *)
Theorem mappages_spec kend s fl root G va size pa perm :
  0 < kend -> vm_inv kend s fl root G -> 0 <= perm < 1024 ->
  va mod 4096 = 0 -> size mod 4096 = 0 -> pa mod 4096 = 0 ->
  0 <= va -> 0 < size -> va + size <= MAXVA -> 0 <= pa -> pa + size <= 2 ^ 56 ->
  (forall w, va <= w < va + size -> translate (pmem s) root w = None) ->
  exists r s' fl' G' used k,
    mappages root va size pa perm s = Ok (r, s') /\ vm_inv kend s' fl' root G' /\
    fl = used ++ fl' /\ (forall q, q ∈ dom G' <-> q ∈ dom G \/ q ∈ used) /\
    (r = 0 /\ k = size / 4096 \/ r = -1 /\ 0 <= k < size / 4096 /\ fl' = []) /\
    (forall w, 0 <= w < MAXVA -> translate (pmem s') root w =
       if decide (va <= w < va + 4096 * k) then Some (leaf_pte (pa + (w - va) / 4096 * 4096) perm)
       else translate (pmem s) root w) /\
    (forall x, (forall q, q ∈ dom G' -> outside x q) -> ld8 (pmem s') x = ld8 (pmem s) x).
Proof.
  intros Hk Hinv Hperm Hva Hsz Hpa Hva0 Hsz0 HvaM Hpa0 HpaM Hfree.
  set (n := Z.to_nat (size / 4096)). assert (Hn : Z.of_nat n * 4096 = size) by (unfold n; zlia).
  destruct (mappages_loop_ok kend Hk n va pa s fl root G perm)
    as (r & s' & fl' & G' & used & k & Hrun & Hvm & _ & Hfl & [Hus _] & Hr & Htr & Hout); auto; try lia.
  { intros w Hw. apply Hfree. lia. }
  exists r, s', fl', G', used, k. split_and!; auto.
  - unfold mappages, PGSIZE. rewrite Hva, Hsz. cbn [Z.eqb negb]. ztest. fold n.
    rewrite u64_id by (rewrite MAXVA_eq in *; lia).
    by replace (va + size - 4096) with (va + 4096 * (Z.of_nat n - 1)) by lia.
  - replace (size / 4096) with (Z.of_nat n) by zlia. done.
Qed.

Lemma mappages_spec_witness :
  exists s fl root r s' fl' k, mappages root 12288 8192 2147483648 PTE_R s = Ok (r, s') /\
    (r = 0 /\ k = 2 \/ r = -1 /\ 0 <= k < 2 /\ fl' = ([] : list Z)) /\ vm_inv small_end s fl root {[root := (2%nat, 0)]}.
Proof.
  destruct small_boot as (s0 & f & fl & _ & Hk).
  destruct (uvmcreate_run small_end ltac:(done) s0 f fl Hk) as (s & _ & Hinv & Htr & _).
  destruct (mappages_spec small_end s fl f {[f := (2%nat, 0)]} 12288 8192 2147483648 PTE_R)
    as (r & s' & fl' & G' & used & k & H1 & _ & _ & _ & H2 & _);
    [reflexivity|apply Hinv|unfold PTE_R; lia|reflexivity|reflexivity|reflexivity|lia|lia|
     vm_compute; congruence|lia|vm_compute; congruence|intros; apply Htr|].
  exists s, fl, f, r, s', fl', k. split_and!; [exact H1|exact H2|apply Hinv].
Defined.

(** * Copying an address space: [uvmcopy]

    The parent's pages are neither free nor tables of the child, so the loop
    that fills the child, an instance of [UvmTheory.grown], leaves them alone;
    the child receives the parent's bytes and permissions page by page. *)

Section UvmCopy.
Variable kend : Z.
Hypothesis Hkend : 0 < kend.

(** No page of the address space [(GO, MO)] is a table of [GN]. *)
Definition apart (GO : gmap Z (nat * Z)) (MO : gmap Z Z) (GN : gmap Z (nat * Z)) : Prop :=
  forall p, p ∈ dom GO \/ (exists v, MO !! v = Some p) -> p ∉ dom GN.

Variables (s0 : phys) (fl0 : list Z).
Variables (old : Z) (GO : gmap Z (nat * Z)) (MO : gmap Z Z).
Variables (new : Z) (GN : gmap Z (nat * Z)) (MN : gmap Z Z).
Variable N : Z.
Hypothesis Hold : as_inv kend s0 fl0 old GO MO.
Hypothesis Hnew : as_inv kend s0 fl0 new GN MN.
Hypothesis Hapart : apart GO MO GN.
Hypothesis HN : 0 <= N <= MAXVA / 4096.
Hypothesis Hall : forall i, 0 <= i < N -> is_Some (MO !! i).
Hypothesis Hfree : forall w, 0 <= w / 4096 < N -> translate (pmem s0) new w = None.

(** The parent's flags and bytes for page [i]. *)
Definition pflags (i : Z) : Z :=
  match translate (pmem s0) old (i * 4096) with Some e => PTE_FLAGS e | None => 0 end.
Definition pbytes (i o : Z) : Z :=
  match MO !! i with Some f => ld8 (pmem s0) (f + o) | None => 0 end.

Abbreviation cloned := (grown kend s0 fl0 new GN MN 0 pflags pbytes).

Lemma old_page_outside p x q :
  p ∈ dom GO \/ (exists v, MO !! v = Some p) -> p <= x < p + PGSIZE ->
  q ∈ dom GN \/ q ∈ fl0 -> outside x q.
Proof.
  intros Hp Hx Hq.
  assert (page_ok kend p) as Hpp.
  { destruct Hp as [Hp|[v Hv]]; [eapply free_or_table; [exact Hold|by right]|].
    by apply (ai_frame _ _ _ _ _ _ Hold v). }
  assert (page_ok kend q) as Hpq by (eapply free_or_table; [exact Hnew|tauto]).
  apply (page_disjoint kend p q x); auto. intros <-.
  destruct Hq as [Hq|Hq]; [exact (Hapart p Hp Hq)|].
  destruct Hp as [Hp|[v Hv]]; [exact (vi_own _ _ _ _ _ (ai_vm _ _ _ _ _ _ Hold) p Hp Hq)|].
  destruct (ai_frame _ _ _ _ _ _ Hold v p Hv) as (_ & Hn & _). exact (Hn Hq).
Qed.

(** The parent is untouched throughout. *)
Lemma cloned_old k s fl G M :
  cloned k s fl G M ->
  as_inv kend s fl old GO MO /\
  (forall w, 0 <= w < MAXVA -> translate (pmem s) old w = translate (pmem s0) old w) /\
  (forall w, ubyte (pmem s) MO w = ubyte (pmem s0) MO w).
Proof.
  intros Hg.
  assert (Hx : forall p x, p ∈ dom GO \/ (exists v, MO !! v = Some p) -> p <= x < p + PGSIZE ->
    ld8 (pmem s) x = ld8 (pmem s0) x).
  { intros p x Hp Hx. apply (g_out _ _ _ _ _ _ _ _ _ _ _ _ _ _ Hg). intros q Hq.
    by eapply old_page_outside. }
  destruct (as_inv_tables kend s0 s fl0 fl old GO MO Hold) as [Hinv Htr].
  - apply (g_as _ _ _ _ _ _ _ _ _ _ _ _ _ _ Hg).
  - intros p Hp. assert (Hq : p ∈ dom GN \/ p ∈ fl0)
      by (apply (g_pages _ _ _ _ _ _ _ _ _ _ _ _ _ _ Hg); tauto).
    destruct Hq as [Hq|Hq]; [right|by left]. split; [intros ?; apply (Hapart p); auto|].
    intros v g Hv ->. apply (Hapart p); eauto.
  - intros p x Hp. apply Hx. by left.
  - split_and!; auto. intros w. unfold ubyte. destruct (MO !! (w / 4096)) as [f|] eqn:Ef; [|done].
    cbn [mbind option_bind]. f_equal. apply (Hx f); [eauto|unfold PGSIZE; zlia].
Qed.

Lemma flags_valid e : has e PTE_V = true -> Z.lor (PTE_FLAGS e) PTE_V = PTE_FLAGS e.
Proof.
  rewrite has_V. intros Ho. rewrite PTE_FLAGS_eq. unfold PTE_V. apply Z.bits_inj'. intros n Hn.
  rewrite Z.lor_spec. destruct (decide (n = 0)) as [->|Hn0].
  - change 1024 with (2 ^ 10). rewrite Z.mod_pow2_bits_low, Z.bit0_odd, Ho by lia. reflexivity.
  - rewrite (Z.bits_above_log2 1 n), orb_false_r by (change (Z.log2 1) with 0; lia). reflexivity.
Qed.

(** The parent's entry for page [i], as the loop finds it. *)
Lemma parent_entry k s fl G M i :
  cloned k s fl G M -> 0 <= i < N ->
  exists a f, walk old (i * 4096) false s = Ok (a, s) /\ a <> 0 /\
    has (ld64 (pmem s) a) PTE_V = true /\ MO !! i = Some f /\ PTE2PA (ld64 (pmem s) a) = f /\
    PTE_FLAGS (ld64 (pmem s) a) = pflags i /\ 0 <= pflags i < 1024 /\
    Z.lor (pflags i) PTE_V = pflags i /\ pflags i <> PTE_V.
Proof.
  intros Hg Hi. destruct (cloned_old k s fl G M Hg) as (Hinv & Htr & _).
  destruct (Hall i Hi) as [f Hf].
  destruct (ai_map _ _ _ _ _ _ Hinv i f Hf) as (Hr & e & He & Hpa & Hfl).
  assert (0 <= i * 4096 < MAXVA) as Hr' by (rewrite MAXVA_eq in *; zlia).
  destruct (walk_found kend Hkend s fl old GO (i * 4096) e) as (a & Hw & Ha & _ & Hld & HV);
    [apply Hinv|done|done|].
  exists a, f. rewrite Hld. unfold pflags. rewrite <- Htr, He by done. split_and!; auto.
  1,2: rewrite PTE_FLAGS_eq; zlia.
  by apply flags_valid.
Qed.

(** The new page is filled with the parent's. *)
Lemma copy_fills k s f fl G M pa :
  cloned k s (f :: fl) G M -> 0 <= k -> MO !! k = Some pa ->
  fills 0 pbytes (fun m => memmove m f pa PGSIZE) f k s.
Proof.
  intros Hg Hk Hpa m Hm Hx. assert (0 <= PGSIZE < 4294967296) by (unfold PGSIZE; lia).
  split; [by apply memmove_wf|]. intros x. rewrite memmove_at by done.
  case_decide as Hd; [|done]. change (0 + k) with k. unfold pbytes. rewrite Hpa.
  assert (Hin : f ∈ dom GN \/ f ∈ fl0).
  { apply (g_pages _ _ _ _ _ _ _ _ _ _ _ _ _ _ Hg). right; left. apply elem_of_cons. by left. }
  rewrite Hx by (apply (old_page_outside pa); [eauto|lia|done]).
  apply (g_out _ _ _ _ _ _ _ _ _ _ _ _ _ _ Hg). intros q Hq.
  apply (old_page_outside pa); [eauto|lia|done].
Qed.

Lemma uvmcopy_loop_run sz n : forall fuel k s fl G M,
  pgno sz = N -> cloned k s fl G M -> 0 <= k -> k + Z.of_nat n = N -> (n <= fuel)%nat ->
  exists r s' fl' G' M',
    uvmcopy_loop kend fuel old new (k * 4096) sz s = Ok (r, s') /\
    (r = 0 /\ cloned N s' fl' G' M' \/ r = -1 /\ cloned 0 s' fl' G' M').
Proof.
  intros fuel k s fl G M Hsz. revert fuel k s fl G M.
  assert (Hcmp : forall j, (j * 4096 <? sz) = (j <? N)).
  { intros j. apply eq_true_iff_eq. rewrite !Z.ltb_lt, <- Hsz. unfold pgno. split; zlia. }
  induction n as [|n IH]; intros fuel k s fl G M Hg Hk HkN Hfuel.
  { assert (k = N) as -> by lia. exists 0, s, fl, G, M. split; [|left; done].
    destruct fuel; cbn [uvmcopy_loop]; rewrite Hcmp; by ztest. }
  destruct fuel as [|fuel]; [lia|]. cbn [uvmcopy_loop]. rewrite Hcmp. ztest.
  destruct (parent_entry k s fl G M k Hg) as (a & pa & -> & Ha & HV & Hpa & Epa & Efl & Hp1 & Hp2 & Hp3); [lia|].
  cbn [mbind outcome_bind]. rewrite (proj2 (Z.eqb_neq a 0) Ha), HV, Epa, Efl. cbn [negb].
  unfold PGSIZE at 1 2. replace (k * 4096 / 4096) with k by zlia.
  assert (Hundo : forall s1 fl1 G1 M1, cloned k s1 fl1 G1 M1 ->
    exists s' fl' M', uvmunmap kend new 0 k true s1 = Ok s' /\ cloned 0 s' fl' G1 M').
  { intros s1 fl1 G1 M1 H1. apply (grown_unmap kend Hkend s0 fl0 new GN MN 0 N pflags pbytes Hnew) with (fl := fl1) (M := M1);
      auto; lia. }
  destruct fl as [|f fl].
  { rewrite (kalloc_nil kend s (vi_kalloc _ _ _ _ _ (ai_vm _ _ _ _ _ _ (g_as _ _ _ _ _ _ _ _ _ _ _ _ _ _ Hg)))).
    cbn [Z.eqb]. destruct (Hundo s [] G M Hg) as (s' & fl' & M' & -> & Hg').
    exists (-1), s', fl', G, M'. split; [done|right; done]. }
  destruct (grown_step kend Hkend s0 fl0 new GN MN 0 N pflags pbytes) with
    (init := fun m => memmove m f pa PGSIZE) (k := k) (s := s) (f := f) (fl := fl) (G := G) (M := M)
    as (s1 & r & s2 & -> & Hf0 & Hmap & Hcase); auto; [lia|lia|change (0 + k) with k; by rewrite Hp2|by apply (copy_fills k s f fl G M)|].
  change (0 + k) with k in Hmap. rewrite (proj2 (Z.eqb_neq f 0) Hf0), Hmap. cbn [mbind outcome_bind].
  destruct Hcase as [[-> (fl' & G' & M' & Hg' & _)]|(-> & _ & s3 & fl' & G' & -> & Hg')]; cbn [Z.eqb negb mbind outcome_bind].
  - assert (u64 (k * 4096 + PGSIZE) = (k + 1) * 4096) as ->
      by (rewrite MAXVA_eq in *; rewrite u64_id; unfold PGSIZE; zlia).
    apply (IH fuel (k + 1) s2 fl' G' M'); auto; lia.
  - destruct (Hundo s3 fl' G' M Hg') as (s' & fl2 & M' & -> & Hg2).
    exists (-1), s', fl2, G', M'. split; [done|right; done].
Qed.

(** What a copied page looks like in the child. *)
Lemma cloned_page k s fl G M w :
  cloned k s fl G M -> k <= N -> 0 <= w / 4096 < k ->
  ubyte (pmem s) M w = ubyte (pmem s0) MO w /\
  exists e e', translate (pmem s0) old w = Some e /\ translate (pmem s) new w = Some e' /\
    PTE_FLAGS e' = PTE_FLAGS e /\ forall v, MO !! v <> Some (PTE2PA e').
Proof.
  intros Hg Hk Hw.
  destruct (grown_new_page kend _ _ _ _ _ _ _ _ _ _ _ _ _ w Hg) as (Hb & f & Hf & Ht); [lia|].
  destruct (parent_entry k s fl G M (w / 4096) Hg) as (_ & pa & _ & _ & _ & Hpa & _ & _ & Hp1 & Hp2 & _); [lia|].
  destruct (ai_map _ _ _ _ _ _ Hold _ _ Hpa) as (_ & e & He & _).
  destruct (ai_frame _ _ _ _ _ _ (g_as _ _ _ _ _ _ _ _ _ _ _ _ _ _ Hg) _ _ Hf) as (Hpf & _).
  destruct (page_ok_bounds kend Hkend f Hpf) as (? & ? & ?).
  destruct (leaf_pte_facts f (pflags (w / 4096))) as (_ & _ & Epa & Efl); [lia|done|done|].
  split.
  - rewrite Hb. unfold ubyte, pbytes. rewrite Hpa. cbn [mbind option_bind]. reflexivity.
  - exists e, (leaf_pte f (pflags (w / 4096))). rewrite Epa, Efl, Hp2. unfold pflags at 2.
    rewrite (translate_page _ old), He. split_and!; auto. intros v Hv.
    assert (Hq : f ∈ dom GN \/ f ∈ fl0).
    { apply (g_pages _ _ _ _ _ _ _ _ _ _ _ _ _ _ Hg). right; right. exists (w / 4096). split; [lia|done]. }
    assert (Ho : exists v, MO !! v = Some f) by eauto.
    destruct (old_page_outside f f f (or_intror Ho)); [unfold PGSIZE; lia|done|unfold PGSIZE in *; lia..].
Qed.

End UvmCopy.

(** [uvmcopy] copies all the pages below [sz], or none. *)
Lemma uvmcopy_run kend s fl old GO MO new GN MN sz :
  0 < kend -> as_inv kend s fl old GO MO -> as_inv kend s fl new GN MN -> apart GO MO GN ->
  0 <= sz <= MAXVA -> (forall i, 0 <= i < pgno sz -> is_Some (MO !! i)) ->
  (forall w, 0 <= w / 4096 < pgno sz -> translate (pmem s) new w = None) ->
  exists r s' fl' G' M' hi,
    uvmcopy kend old new sz s = Ok (r, s') /\ (r = 0 /\ hi = pgno sz \/ r = -1 /\ hi = 0) /\
    grown kend s fl new GN MN 0 (pflags s old) (pbytes s MO) hi s' fl' G' M'.
Proof.
  intros Hk Hold Hnew Hap Hsz Hall Hfree. pose proof (pgno_bounds sz ltac:(lia)) as HN.
  destruct (uvmcopy_loop_run kend Hk s fl old GO MO new GN MN (pgno sz) Hold Hnew Hap HN Hall Hfree sz
    (Z.to_nat (pgno sz)) (Z.to_nat (sz / PGSIZE + 1)) 0 s fl GN MN) as (r & s' & fl' & G' & M' & Hrun & Hr);
    [done|by apply grown_start|lia|lia|unfold pgno, PGSIZE; zlia|].
  destruct Hr as [[-> Hg]|[-> Hg]].
  - exists 0, s', fl', G', M', (pgno sz). split; [exact Hrun|]. auto.
  - exists (-1), s', fl', G', M', 0. split; [exact Hrun|]. auto.
Qed.

(** ** A second address space *)

(** [uvmcreate] takes a free page and leaves an existing address space as
    it was, apart from the new one. *)
Lemma uvmcreate_keeps kend s f fl root G M s' :
  0 < kend -> as_inv kend s (f :: fl) root G M -> uvmcreate s = (f, s') ->
  as_inv kend s' fl root G M /\ apart G M {[f := (2%nat, 0)]} /\
  (forall w, 0 <= w < MAXVA -> translate (pmem s') root w = translate (pmem s) root w).
Proof.
  intros Hk Hinv E.
  destruct (as_inv_kalloc kend Hk s f fl root G M Hinv)
    as (s1 & Ek & Hinv1 & Hpf & Hf0 & Hnf & HnG & HnM & Htr1 & _).
  unfold uvmcreate in E. rewrite Ek, (proj2 (Z.eqb_neq f 0) Hf0) in E. injection E as <-.
  destruct (as_inv_frame kend s1 fl root G M (memset (pmem s1) f 0 PGSIZE) Hinv1) as [Hinv2 Htr2].
  { apply memset_wf; [apply Hinv1|unfold PGSIZE; lia]. }
  { intros p x Hp Hx. rewrite memset_spec by (unfold PGSIZE; lia). rewrite decide_False; [done|].
    pose proof (free_or_table kend s1 fl root G M p Hinv1 Hp) as Hpp.
    destruct (page_disjoint kend p f x Hpp Hpf); [|done|lia|lia]. intros ->. tauto. }
  split_and!; auto.
  - intros p Hp. rewrite dom_singleton, elem_of_singleton. intros ->.
    destruct Hp as [?|[v Hv]]; [done|]. by apply (HnM v f).
  - intros w Hw. cbn [with_mem pmem]. by rewrite Htr2, Htr1.
Qed.

(** [uvmcopy] gives the child a copy of the parent's memory, or
    nothing.  When it answers 0, every byte below [sz] reads in the child as
    in the parent and every page has the parent's permissions, in a frame
    that the parent does not use; when it answers -1, no page has been
    mapped.  In both cases the parent keeps its translation and its bytes,
    the child keeps what it had elsewhere, the pages of the child's tables,
    of the free list and of the copied range are the pages its tables and
    the free list had (no page leaks), and the loop has enough fuel and does
    not panic. *)
Theorem uvmcopy_all_or_nothing kend s fl old GO MO new GN MN sz :
  0 < kend -> as_inv kend s fl old GO MO -> as_inv kend s fl new GN MN -> apart GO MO GN ->
  0 <= sz <= MAXVA -> (forall i, 0 <= i < pgno sz -> is_Some (MO !! i)) ->
  (forall w, 0 <= w / 4096 < pgno sz -> translate (pmem s) new w = None) ->
  exists r s' fl' GN' MN' hi,
    uvmcopy kend old new sz s = Ok (r, s') /\ (r = 0 /\ hi = pgno sz \/ r = -1 /\ hi = 0) /\
    as_inv kend s' fl' old GO MO /\ as_inv kend s' fl' new GN' MN' /\
    keeps_outside 0 0 s s' old MO MO /\ keeps_outside 0 hi s s' new MN MN' /\
    (forall w, 0 <= w / 4096 < hi ->
       ubyte (pmem s') MN' w = ubyte (pmem s) MO w /\
       exists e e', translate (pmem s) old w = Some e /\ translate (pmem s') new w = Some e' /\
         PTE_FLAGS e' = PTE_FLAGS e /\ forall v, MO !! v <> Some (PTE2PA e')) /\
    (forall q, (q ∈ dom GN' \/ q ∈ fl' \/ exists i, 0 <= i < hi /\ MN' !! i = Some q) <->
       (q ∈ dom GN \/ q ∈ fl)).
Proof.
  intros Hk Hold Hnew Hap Hsz Hall Hfree. pose proof (pgno_bounds sz ltac:(lia)) as HN.
  destruct (uvmcopy_run kend s fl old GO MO new GN MN sz) as (r & s' & fl' & G' & M' & hi & Hrun & Hhi & Hg); auto.
  destruct (cloned_old kend s fl old GO MO new GN MN (pgno sz) Hold Hnew Hap HN hi s' fl' G' M' Hg) as (Ho1 & Ho2 & Ho3).
  exists r, s', fl', G', M', hi. split_and!; auto.
  - apply Hg.
  - intros w Hw _. auto.
  - exact (grown_keeps kend _ _ _ _ _ _ _ _ _ _ _ _ _ Hnew Hg).
  - intros w Hw. eapply (cloned_page kend Hk s fl old GO MO new GN MN); eauto; lia.
  - apply Hg.
Qed.

(** ** One page copied on the small machine *)

Definition copy_run : outcome (Z * Z * Z * phys) :=
  s ← kinit small_end ∅;
  let '(old, s) := uvmcreate s in
  '(r, s) ← uvmalloc small_end old 0 4096 PTE_W s;
  let '(new, s) := uvmcreate s in
  '(r', s) ← uvmcopy small_end old new 4096 s;
  Ok (r, new, r', s).

Lemma copy_run_ok :
  match copy_run with Ok (r, new, r', _) => (r =? 4096) && negb (new =? 0) && (r' =? 0) | _ => false end = true.
Proof. vm_compute. reflexivity. Qed.

Lemma uvmcopy_all_or_nothing_witness :
  exists s fl old GO MO new GN, as_inv small_end s fl old GO MO /\ as_inv small_end s fl new GN ∅ /\
    exists s' fl' GN' MN',
    uvmcopy small_end old new 4096 s = Ok (0, s') /\ as_inv small_end s' fl' new GN' MN' /\
      (forall w, 0 <= w < 4096 -> ubyte (pmem s') MN' w = ubyte (pmem s) MO w).
Proof.
  destruct small_boot as (s0 & f & fl & E0 & Hk).
  destruct (uvmcreate_run small_end ltac:(done) s0 f fl Hk) as (s1 & E1 & Hinv & Htr & _).
  destruct (uvmalloc_run small_end ltac:(done) s1 fl f _ ∅ 0 4096 PTE_W Hinv)
    as (r & s2 & fl2 & GO & MO & E2 & Hr); [lia|done|unfold PTE_W; lia|intros; apply Htr|].
  pose proof copy_run_ok as Hrun. unfold copy_run in Hrun. rewrite E0 in Hrun.
  cbn [mbind outcome_bind] in Hrun. rewrite E1, E2 in Hrun. cbn [mbind outcome_bind] in Hrun.
  destruct Hr as [[-> Hg]|[-> _]]; [|by destruct (uvmcreate s2) as [? ?], (uvmcopy _ _ _ _ _) as [[? ?]| | |]].
  pose proof (g_as _ _ _ _ _ _ _ _ _ _ _ _ _ _ Hg) as Hold. destruct fl2 as [|g fl2].
  { unfold uvmcreate in Hrun. rewrite (kalloc_nil small_end s2) in Hrun; [|apply Hold].
    cbn [Z.eqb] in Hrun. by destruct (uvmcopy _ _ _ _ _) as [[? ?]| | |]. }
  destruct (uvmcreate_run small_end ltac:(done) s2 g fl2) as (s3 & E3 & Hnew & Htr3 & _); [apply Hold|].
  destruct (uvmcreate_keeps small_end s2 g fl2 f GO MO s3 ltac:(done) Hold E3) as (Hold3 & Hap & _).
  rewrite E3 in Hrun. exists s3, fl2, f, GO, MO, g, {[g := (2%nat, 0)]}. split_and!; [done|done|].
  destruct (uvmcopy_all_or_nothing small_end s3 fl2 f GO MO g {[g := (2%nat, 0)]} ∅ 4096)
    as (r & s' & fl' & GN' & MN' & hi & E & Hr & _ & Hnew' & _ & _ & Hb & _);
    [done|exact Hold3|exact Hnew|exact Hap|rewrite MAXVA_eq; lia| |intros; apply Htr3|].
  { intros i Hi. destruct (g_new _ _ _ _ _ _ _ _ _ _ _ _ _ _ Hg i Hi) as (h & -> & _). by eexists. }
  rewrite E in Hrun. cbn [mbind outcome_bind] in Hrun. apply andb_prop in Hrun as [_ Hr0].
  apply Z.eqb_eq in Hr0 as ->. exists s', fl', GN', MN'. split_and!; auto.
  intros w Hw. apply Hb. destruct Hr as [[_ ->]|[? _]]; [|lia]. change (pgno 4096) with 1. zlia.
Defined.
