(* ===== verification/UvmFree.v ===== *)
(** * Freeing an address space: [freewalk] and [uvmfree]

    [tables] lists the page-table pages under a table in the order in which
    [freewalk] frees them.  The well-formedness of VmTheory.v makes that list
    free of duplicates and equal to the set of the address space's tables, so
    that freeing returns every page. *)
From S2P Require Import Prelude Cstring Riscv Kalloc Vm VmTheory UvmTheory.

(** ** The tables under a table *)

Fixpoint tables (m : mem) (l : nat) (p : Z) : list Z :=
  match l with
  | O => []
  | S k =>
      flat_map (fun i => if has (ld64 m (p + 8 * i)) PTE_V
                         then tables m k (PTE2PA (ld64 m (p + 8 * i))) else []) (seqZ 0 512)
  end ++ [p].

(** The tables under the entries [js] of [p]. *)
Definition kids (m : mem) (k : nat) (p : Z) (js : list Z) : list Z :=
  flat_map (fun i => if has (ld64 m (p + 8 * i)) PTE_V
                     then tables m k (PTE2PA (ld64 m (p + 8 * i))) else []) js.

(** What [freewalk] expects: inner entries point to tables, leaf entries are
    cleared. *)
Fixpoint freeable (m : mem) (l : nat) (p : Z) : Prop :=
  forall i, 0 <= i < 512 -> has (ld64 m (p + 8 * i)) PTE_V = true ->
    match l with
    | O => False
    | S k => PTE_FLAGS (ld64 m (p + 8 * i)) = PTE_V /\ freeable m k (PTE2PA (ld64 m (p + 8 * i)))
    end.

Lemma tables_self m l p : p ∈ tables m l p.
Proof. destruct l; cbn [tables]; rewrite elem_of_app, list_elem_of_singleton; by right. Qed.

Lemma elem_of_flat_map {A B} (f : A -> list B) l y : y ∈ flat_map f l <-> exists x, x ∈ l /\ y ∈ f x.
Proof.
  induction l as [|a l IH]; cbn [flat_map].
  - rewrite elem_of_nil. split; [done|]. intros (x & Hx & _). by apply elem_of_nil in Hx.
  - rewrite elem_of_app, IH. split.
    + intros [?|(x & ? & ?)]; [exists a|exists x]; rewrite elem_of_cons; auto.
    + intros (x & Hx & ?). apply elem_of_cons in Hx as [->|?]; eauto.
Qed.

Lemma elem_of_kids m k p js q :
  q ∈ kids m k p js <-> exists i, i ∈ js /\ has (ld64 m (p + 8 * i)) PTE_V = true /\
    q ∈ tables m k (PTE2PA (ld64 m (p + 8 * i))).
Proof.
  unfold kids. rewrite elem_of_flat_map. apply exist_proper. intros i. destruct (has _ PTE_V).
  - tauto.
  - rewrite elem_of_nil. split; [tauto|]. intros (_ & ? & _). done.
Qed.

(** The tables depend only on their own bytes. *)
Lemma tables_ext m m' l : forall p,
  (forall q x, q ∈ tables m l p -> q <= x < q + PGSIZE -> ld8 m' x = ld8 m x) ->
  tables m' l p = tables m l p /\ (freeable m l p -> freeable m' l p).
Proof.
  induction l as [|k IH]; intros p Hx.
  all: assert (He : forall i, 0 <= i < 512 -> ld64 m' (p + 8 * i) = ld64 m (p + 8 * i))
    by (intros; apply entry_frame; [intros x; apply Hx, tables_self|done]).
  - split; [done|]. cbn [freeable]. intros Hf i Hi. rewrite He by done. by apply Hf.
  - assert (Hk : forall i, 0 <= i < 512 -> has (ld64 m (p + 8 * i)) PTE_V = true ->
      forall q x, q ∈ tables m k (PTE2PA (ld64 m (p + 8 * i))) -> q <= x < q + PGSIZE ->
      ld8 m' x = ld8 m x).
    { intros i Hi HV q x Hq. apply Hx. cbn [tables]. rewrite elem_of_app. left.
      apply elem_of_kids. exists i. rewrite elem_of_seqZ. auto. }
    split.
    + cbn [tables]. f_equal. rewrite !flat_map_concat_map. f_equal. apply map_ext_in. intros i Hi.
      apply list_elem_of_In, elem_of_seqZ in Hi. rewrite He by lia.
      destruct (has _ PTE_V) eqn:HV; [|done]. apply IH, Hk; [lia|done].
    + cbn [freeable]. intros Hf i Hi. rewrite He by done. intros HV.
      destruct (Hf i Hi HV) as [? ?]. split; [done|]. by apply (IH _ (Hk i Hi HV)).
Qed.

Lemma kids_ext m m' k p js :
  (forall i, i ∈ js -> ld64 m' (p + 8 * i) = ld64 m (p + 8 * i)) ->
  (forall q x, q ∈ kids m k p js -> q <= x < q + PGSIZE -> ld8 m' x = ld8 m x) ->
  kids m' k p js = kids m k p js.
Proof.
  intros He Hx. unfold kids. rewrite !flat_map_concat_map. f_equal. apply map_ext_in. intros i Hi.
  apply list_elem_of_In in Hi. rewrite He by done. destruct (has _ PTE_V) eqn:HV; [|done].
  apply tables_ext. intros q x Hq. apply Hx, elem_of_kids. eauto.
Qed.

Lemma has_flags e b : 0 <= b < 1024 -> has e b = has (PTE_FLAGS e) b.
Proof.
  intros Hb. unfold has. rewrite PTE_FLAGS_eq. change 1024 with (2 ^ 10).
  rewrite <- Z.land_ones, <- Z.land_assoc, (Z.land_comm (Z.ones 10)), Z.land_ones, Z.mod_small by lia.
  done.
Qed.

Section Free.
Variable kend : Z.
Hypothesis Hkend : 0 < kend.

(** The pages [T] can be handed to [kfree] one after the other. *)
Record to_free (T fl : list Z) : Prop := {
  tf_nodup : NoDup T;
  tf_pages : Forall (page_ok kend) T;
  tf_new : forall q, q ∈ T -> q ∉ fl
}.

Lemma to_free_app T1 T2 fl : to_free (T1 ++ T2) fl ->
  to_free T1 fl /\ to_free T2 (reverse T1 ++ fl).
Proof.
  intros [Hn Hp Hf]. apply NoDup_app in Hn as (Hn1 & Hd & Hn2). apply Forall_app in Hp as [Hp1 Hp2].
  split; split; auto.
  - intros q Hq. apply Hf, elem_of_app. by left.
  - intros q Hq. rewrite elem_of_app, elem_of_reverse. intros [?|?]; [by apply (Hd q)|].
    apply (Hf q); [apply elem_of_app; by right|done].
Qed.

Lemma to_free_disjoint T1 T2 fl p q x : to_free (T1 ++ T2) fl ->
  p ∈ T1 -> q ∈ T2 -> q <= x < q + PGSIZE -> outside x p.
Proof.
  intros [Hn Hp _] H1 H2 Hx. rewrite Forall_forall in Hp. apply NoDup_app in Hn as (_ & Hd & _).
  apply (page_disjoint kend q p x); [apply Hp, elem_of_app; auto..| |done].
  intros ->. by apply (Hd p).
Qed.

(** [s'] is [s] with the pages [T] freed. *)
Definition freed (T : list Z) (s : phys) (fl : list Z) (s' : phys) : Prop :=
  kalloc_inv kend s' (reverse T ++ fl) /\
  forall x, (forall q, q ∈ T -> outside x q) -> ld8 (pmem s') x = ld8 (pmem s) x.

Definition freewalk_spec (k : nat) : Prop := forall p s fl,
  kalloc_inv kend s fl -> freeable (pmem s) k p -> to_free (tables (pmem s) k p) fl ->
  exists s', freewalk kend (S k) p s = Ok s' /\ freed (tables (pmem s) k p) s fl s'.

(** Clearing an entry of a table that is not free. *)
Lemma clear_entry s fl p i :
  kalloc_inv kend s fl -> page_ok kend p -> p ∉ fl -> 0 <= i < 512 ->
  let s' := with_mem (st64 (pmem s) (p + 8 * i) 0) s in
  kalloc_inv kend s' fl /\
  (forall x, outside x p -> ld8 (pmem s') x = ld8 (pmem s) x) /\
  (forall j, 0 <= j < 512 -> j <> i -> ld64 (pmem s') (p + 8 * j) = ld64 (pmem s) (p + 8 * j)).
Proof.
  intros Hk Hp Hni Hi s'.
  assert (Hout : forall x, outside x p -> ld8 (pmem s') x = ld8 (pmem s) x).
  { unfold outside, PGSIZE. intros x Hx. apply ld8_st64_other. lia. }
  split_and!; auto.
  - apply kalloc_inv_write; [done|apply st64_wf, Hk|]. intros q x Hq Hx. apply Hout.
    pose proof (ki_pages _ _ _ Hk) as Hpg. rewrite Forall_forall in Hpg.
    apply (page_disjoint kend q p x); auto. by intros ->.
  - intros j Hj Hne. apply ld64_st64_ne. apply (entry_disjoint kend Hkend); auto.
Qed.

Lemma freewalk_loop_run k n : forall p i s fl,
  freewalk_spec k -> i + Z.of_nat n = 512 -> 0 <= i -> kalloc_inv kend s fl ->
  page_ok kend p -> p ∉ fl -> p ∉ kids (pmem s) k p (seqZ i (Z.of_nat n)) ->
  (forall j, i <= j < 512 -> has (ld64 (pmem s) (p + 8 * j)) PTE_V = true ->
     PTE_FLAGS (ld64 (pmem s) (p + 8 * j)) = PTE_V /\ freeable (pmem s) k (PTE2PA (ld64 (pmem s) (p + 8 * j)))) ->
  to_free (kids (pmem s) k p (seqZ i (Z.of_nat n))) fl ->
  exists s', freewalk_loop (freewalk kend (S k)) p n i s = Ok s' /\
    kalloc_inv kend s' (reverse (kids (pmem s) k p (seqZ i (Z.of_nat n))) ++ fl) /\
    forall x, outside x p -> (forall q, q ∈ kids (pmem s) k p (seqZ i (Z.of_nat n)) -> outside x q) ->
      ld8 (pmem s') x = ld8 (pmem s) x.
Proof.
  induction n as [|n IH]; intros p i s fl Hspec Hin Hi Hk Hp Hni Hpk Hent Hfree.
  { exists s. by split_and!. }
  set (e := ld64 (pmem s) (p + 8 * i)). set (rest := seqZ (i + 1) (Z.of_nat n)).
  assert (Eseq : seqZ i (Z.of_nat (S n)) = i :: rest).
  { rewrite seqZ_cons by lia. unfold rest. do 2 f_equal; lia. }
  rewrite Eseq in *. cbn [kids flat_map] in *. fold e in Hpk, Hfree |- *.
  change (flat_map _ rest) with (kids (pmem s) k p rest) in *.
  cbn [freewalk_loop]. fold e. destruct (has e PTE_V) eqn:HV; cbn [andb].
  2: { cbn [app] in *. unfold rest in *. apply IH; auto; try lia. intros j Hj. apply Hent. lia. }
  destruct (Hent i ltac:(lia) HV) as [Hfl Hsub]. fold e in Hfl, Hsub.
  rewrite has_flags, Hfl by (vm_compute; split; congruence).
  change (has PTE_V (Z.lor (Z.lor PTE_R PTE_W) PTE_X)) with false. cbn [negb].
  destruct (to_free_app _ _ _ Hfree) as [Hf1 Hf2].
  destruct (Hspec (PTE2PA e) s fl Hk Hsub Hf1) as (s1 & -> & Hk1 & Hm1). cbn [mbind outcome_bind].
  set (T1 := tables (pmem s) k (PTE2PA e)) in *. rewrite elem_of_app in Hpk.
  assert (Hni1 : p ∉ reverse T1 ++ fl) by (rewrite elem_of_app, elem_of_reverse; tauto).
  assert (Hp1 : forall x, p <= x < p + PGSIZE -> ld8 (pmem s1) x = ld8 (pmem s) x).
  { intros x Hx. apply Hm1. intros q Hq. pose proof (tf_pages _ _ Hf1) as Hpg. rewrite Forall_forall in Hpg.
    apply (page_disjoint kend p q x); auto. intros ->. tauto. }
  destruct (clear_entry s1 _ p i Hk1 Hp Hni1 ltac:(lia)) as (Hk2 & Hm2 & He2).
  set (s2 := with_mem (st64 (pmem s1) (p + 8 * i) 0) s1) in *.
  assert (Hentry : forall j, i + 1 <= j < 512 -> ld64 (pmem s2) (p + 8 * j) = ld64 (pmem s) (p + 8 * j)).
  { intros j Hj. rewrite He2 by lia. apply entry_frame; [done|lia]. }
  assert (Hkid : forall q x, q ∈ kids (pmem s) k p rest -> q <= x < q + PGSIZE ->
    ld8 (pmem s2) x = ld8 (pmem s) x).
  { intros q x Hq Hx. rewrite Hm2, Hm1; [done| |].
    - intros t Ht. by eapply to_free_disjoint.
    - pose proof (tf_pages _ _ Hf2) as Hpg. rewrite Forall_forall in Hpg.
      apply (page_disjoint kend q p x); auto. intros ->. tauto. }
  assert (Ek : kids (pmem s2) k p rest = kids (pmem s) k p rest).
  { apply kids_ext; [|done]. intros j. unfold rest. rewrite elem_of_seqZ. intros. apply Hentry. lia. }
  destruct (IH p (i + 1) s2 (reverse T1 ++ fl)) as (s' & Hrun & Hk' & Hm'); auto; try lia;
    fold rest; rewrite ?Ek; auto.
  { intros j Hj. rewrite Hentry by lia. intros HVj. destruct (Hent j ltac:(lia) HVj) as [? Hsubj].
    split; [done|]. eapply tables_ext; [|done]. intros q x Hq. apply Hkid.
    apply elem_of_kids. exists j. unfold rest. rewrite elem_of_seqZ. split; [lia|done]. }
  fold rest in Hk', Hm'. rewrite Ek in Hk', Hm'.
  exists s'. split; [exact Hrun|]. rewrite reverse_app, <- app_assoc. split; [done|].
  intros x Hx Hq. rewrite Hm', Hm2, Hm1; auto.
  - intros q Hq1. apply Hq, elem_of_app. by left.
  - intros q Hq1. apply Hq, elem_of_app. by right.
Qed.

(** A leaf table has no entry to follow. *)
Lemma freewalk_loop_leaf rec n : forall p i s,
  i + Z.of_nat n = 512 -> 0 <= i -> freeable (pmem s) 0 p -> freewalk_loop rec p n i s = Ok s.
Proof.
  induction n as [|n IH]; intros p i s Hin Hi Hf; cbn [freewalk_loop]; [done|].
  destruct (has (ld64 (pmem s) (p + 8 * i)) PTE_V) eqn:HV; [|apply IH; auto; lia].
  destruct (Hf i ltac:(lia) HV).
Qed.

Lemma freewalk_S d p s :
  freewalk kend (S d) p s = (s ← freewalk_loop (freewalk kend d) p 512 0 s; kfree kend p s).
Proof. reflexivity. Qed.

(** [freewalk] frees the tables, in order. *)
Lemma freewalk_run l : freewalk_spec l.
Proof.
  induction l as [|k IH]; intros p s fl Hk Hf Ht.
  - destruct Ht as [_ Hpg Hnew]. apply Forall_cons in Hpg as [Hp _]. cbn [freewalk].
    rewrite freewalk_loop_leaf by (done || lia). cbn [mbind outcome_bind].
    destruct (kfree_ok kend Hkend s p fl Hk Hp) as (s' & -> & Hk' & Hm'); [apply Hnew, tables_self|].
    exists s'. split; [done|]. split; [done|]. intros x Hx. apply Hm', Hx, tables_self.
  - change (tables (pmem s) (S k) p) with (kids (pmem s) k p (seqZ 0 (Z.of_nat 512)) ++ [p]) in *.
    rewrite freewalk_S.
    destruct (to_free_app _ _ _ Ht) as [Ht1 [_ Hpg Hnew]]. apply Forall_cons in Hpg as [Hp _].
    pose proof (freewalk_loop_run k 512 p 0 s fl IH eq_refl ltac:(lia) Hk Hp) as Hrun.
    set (T := kids (pmem s) k p (seqZ 0 (Z.of_nat 512))) in *. clearbody T.
    assert (Hpn : p ∉ reverse T ++ fl) by (apply Hnew, list_elem_of_singleton; reflexivity).
    pose proof Hpn as Hpn'. rewrite elem_of_app, elem_of_reverse in Hpn'.
    destruct Hrun as (s1 & -> & Hk1 & Hm1); [tauto|tauto|intros j Hj; apply Hf; lia|exact Ht1|].
    cbn [mbind outcome_bind].
    destruct (kfree_ok kend Hkend s1 p _ Hk1 Hp Hpn) as (s' & -> & Hk' & Hm').
    exists s'. split; [done|]. split; [by rewrite reverse_app|]. intros x Hx.
    assert (outside x p) by (apply Hx; rewrite elem_of_app, list_elem_of_singleton; auto).
    rewrite Hm', Hm1; auto. intros q Hq. apply Hx, elem_of_app. by left.
Qed.

(** ** The tables of a well-formed page table *)

Section Tables.
Variables (m : mem) (root : Z) (G : gmap Z (nat * Z)).
Hypothesis Hwf : pt_wf kend m root G.

(** A table under [p] has a position under that of [p]. *)
Lemma tables_below l : forall p pre q,
  G !! p = Some (l, pre) -> q ∈ tables m l p ->
  exists lq pq, G !! q = Some (lq, pq) /\ (lq <= l)%nat /\
    pq / 2 ^ (9 * (Z.of_nat l - Z.of_nat lq)) = pre.
Proof.
  induction l as [|k IH]; intros p pre q Hp Hq.
  - apply list_elem_of_singleton in Hq as ->. exists 0%nat, pre. split_and!; auto.
    change (pre / 1 = pre). apply Z.div_1_r.
  - change (tables m (S k) p) with (kids m k p (seqZ 0 512) ++ [p]) in Hq.
    rewrite elem_of_app, list_elem_of_singleton, elem_of_kids in Hq.
    destruct Hq as [(i & Hi & HV & Hq)| ->].
    + apply elem_of_seqZ in Hi.
      destruct (IH _ _ q (pw_next _ _ _ _ Hwf p k pre i Hp ltac:(lia) HV) Hq) as (lq & pq & Hq' & Hle & Hpos).
      exists lq, pq. split_and!; auto.
      replace (9 * (Z.of_nat (S k) - Z.of_nat lq)) with (9 * (Z.of_nat k - Z.of_nat lq) + 9) by lia.
      rewrite Z.pow_add_r, <- Z.div_div, Hpos by lia. change (2 ^ 9) with 512. zlia.
    + exists (S k), pre. rewrite Z.sub_diag. split_and!; auto. change (pre / 1 = pre). apply Z.div_1_r.
Qed.

Lemma kids_nodup k p pre js :
  G !! p = Some (S k, pre) -> NoDup js -> (forall i, i ∈ js -> 0 <= i < 512) ->
  (forall c pc, G !! c = Some (k, pc) -> NoDup (tables m k c)) -> NoDup (kids m k p js).
Proof.
  intros Hp. induction js as [|i js IH]; intros Hnd Hin Hsub; cbn [kids flat_map]; [constructor|].
  apply NoDup_cons in Hnd as [Hni Hnd].
  assert (Hi : 0 <= i < 512) by (apply Hin, elem_of_cons; auto).
  assert (Hrest : NoDup (kids m k p js)) by (apply IH; auto; intros; apply Hin, elem_of_cons; auto).
  destruct (has (ld64 m (p + 8 * i)) PTE_V) eqn:HV; [|exact Hrest].
  pose proof (pw_next _ _ _ _ Hwf p k pre i Hp Hi HV) as Hc.
  apply NoDup_app. split_and!; [by eapply Hsub| |exact Hrest].
  intros q Hq (j & Hj & HVj & Hqj)%elem_of_kids.
  assert (0 <= j < 512) by (apply Hin, elem_of_cons; auto).
  pose proof (pw_next _ _ _ _ Hwf p k pre j Hp ltac:(done) HVj) as Hcj.
  destruct (tables_below k _ _ q Hc Hq) as (lq & pq & Hq1 & _ & Hpos1).
  destruct (tables_below k _ _ q Hcj Hqj) as (lq' & pq' & Hq2 & _ & Hpos2).
  rewrite Hq1 in Hq2. injection Hq2 as <- <-. assert (i = j) as -> by lia. done.
Qed.

Lemma tables_nodup l : forall p pre, G !! p = Some (l, pre) -> NoDup (tables m l p).
Proof.
  induction l as [|k IH]; intros p pre Hp; [apply NoDup_singleton|].
  change (tables m (S k) p) with (kids m k p (seqZ 0 512) ++ [p]). apply NoDup_app. split_and!.
  - eapply kids_nodup; eauto; [apply NoDup_seqZ|]. intros i. rewrite elem_of_seqZ. lia.
  - intros q (i & Hi & HV & Hq)%elem_of_kids. rewrite list_elem_of_singleton. intros ->.
    apply elem_of_seqZ in Hi.
    destruct (tables_below k _ _ p (pw_next _ _ _ _ Hwf p k pre i Hp ltac:(lia) HV) Hq) as (lq & pq & Hp' & Hle & _).
    rewrite Hp in Hp'. injection Hp' as <- _. lia.
  - apply NoDup_singleton.
Qed.

(** Every table of the address space is under the root. *)
Lemma tables_up n : forall q lq pq,
  (lq + n = 2)%nat -> G !! q = Some (lq, pq) -> forall x, x ∈ tables m lq q -> x ∈ tables m 2 root.
Proof.
  induction n as [|n IH]; intros q lq pq Hn Hq x Hx;
    destruct (pw_parent _ _ _ _ Hwf q lq pq Hq) as [->|(Hl & p & pp & i & Hp & Hi & _ & HV & Hc)];
    try lia.
  1, 2: rewrite (pw_root _ _ _ _ Hwf) in Hq; injection Hq as <- _; done || lia.
  apply (IH p (S lq) pp); [lia|done|].
  change (tables m (S lq) p) with (kids m lq p (seqZ 0 512) ++ [p]).
  rewrite elem_of_app, elem_of_kids. left. exists i. rewrite elem_of_seqZ, Hc. auto.
Qed.

Lemma tables_all q : q ∈ tables m 2 root <-> q ∈ dom G.
Proof.
  split.
  - intros Hq. destruct (tables_below 2 root 0 q (pw_root _ _ _ _ Hwf) Hq) as (lq & pq & H & _).
    by eapply elem_of_dom_2.
  - intros [[lq pq] Hq]%elem_of_dom.
    assert (lq <= 2)%nat.
    { destruct (pw_parent _ _ _ _ Hwf q lq pq Hq) as [->|[? _]]; [|lia].
      rewrite (pw_root _ _ _ _ Hwf) in Hq. injection Hq as <- _. lia. }
    apply (tables_up (2 - lq) q lq pq); [lia|done|apply tables_self].
Qed.

(** Translation from the root passes through the table at the position. *)
Lemma xl_from n : forall p l pre w,
  (l + n = 2)%nat -> G !! p = Some (l, pre) -> prefix l w = pre -> xl m 2 root w = xl m l p w.
Proof.
  induction n as [|n IH]; intros p l pre w Hn Hp Hw;
    destruct (pw_parent _ _ _ _ Hwf p l pre Hp) as [->|(Hl & q & pq & i & Hq & Hi & Hpre & HV & Hc)];
    try lia.
  1, 2: rewrite (pw_root _ _ _ _ Hwf) in Hp; injection Hp as <- _; done || lia.
  pose proof (prefix_step l w) as Hs. pose proof (PX_range (Z.of_nat (S l)) w ltac:(lia)).
  rewrite (IH q (S l) pq w) by (lia || done). cbn [xl].
  replace (PX (Z.of_nat (S l)) w) with i by lia. by rewrite HV, Hc.
Qed.

Lemma freeable_wf l : forall p pre,
  (forall w, 0 <= w < MAXVA -> translate m root w = None) ->
  (l <= 2)%nat -> G !! p = Some (l, pre) -> freeable m l p.
Proof.
  induction l as [|k IH]; intros p pre Hnone Hl Hp i Hi HV.
  - destruct (pw_range _ _ _ _ Hwf p 0 pre Hp) as [Hp0 Hp1].
    change (2 ^ (9 * (Z.of_nat 0 + 1))) with 512 in Hp1. change (2 ^ 26) with 67108864 in Hp1.
    set (w := (pre * 512 + i) * 4096).
    assert (Hw : 0 <= w < MAXVA) by (rewrite MAXVA_eq; unfold w; zlia).
    pose proof (xl_from 2 p 0 pre w eq_refl Hp) as Hx. pose proof (Hnone w Hw) as Hn.
    unfold translate in Hn. rewrite Hx in Hn by (unfold prefix, w; change (2 ^ _) with 2097152; zlia).
    cbn [xl] in Hn. replace (PX (Z.of_nat 0) w) with i in Hn by (rewrite PX_eq by lia; unfold w; change (2 ^ _) with 4096; zlia).
    by rewrite HV in Hn.
  - split; [eapply pw_flags; eauto|]. eapply IH; [done|lia|]. eapply pw_next; eauto.
Qed.

End Tables.

(** ** [uvmfree] *)

(** The address space maps user pages only, those below [sz]. *)
Definition only_user (s : phys) (root : Z) (M : gmap Z Z) (sz : Z) : Prop :=
  (forall i, is_Some (M !! i) <-> 0 <= i < pgno sz) /\
  (forall w, 0 <= w < MAXVA -> M !! (w / 4096) = None -> translate (pmem s) root w = None).

(** The pages that the address space and the free list have between them. *)
Definition pages_of (fl : list Z) (G : gmap Z (nat * Z)) (M : gmap Z Z) (q : Z) : Prop :=
  q ∈ fl \/ q ∈ dom G \/ exists i, M !! i = Some q.

Lemma freewalk_empty s fl root G :
  vm_inv kend s fl root G -> (forall w, 0 <= w < MAXVA -> translate (pmem s) root w = None) ->
  exists s' fl', freewalk kend 3 root s = Ok s' /\ kalloc_inv kend s' fl' /\
    (forall q, q ∈ fl' <-> q ∈ fl \/ q ∈ dom G) /\
    (forall x, (forall q, q ∈ dom G -> outside x q) -> ld8 (pmem s') x = ld8 (pmem s) x).
Proof.
  intros [Hk Hwf Hown] Hnone. pose proof (tables_all (pmem s) root G Hwf) as Hall.
  pose proof (pw_root _ _ _ _ Hwf) as Hr.
  destruct (freewalk_run 2 root s fl Hk) as (s' & E & Hk' & Hm').
  - by apply (freeable_wf (pmem s) root G Hwf 2 root 0).
  - split.
    + by apply (tables_nodup (pmem s) root G Hwf 2 root 0).
    + apply Forall_forall. intros q [[? ?] Hq]%Hall%elem_of_dom. by eapply (pw_page _ _ _ _ Hwf).
    + intros q Hq%Hall. by apply Hown.
  - exists s', (reverse (tables (pmem s) 2 root) ++ fl). split_and!; auto.
    + intros q. rewrite elem_of_app, elem_of_reverse, Hall. tauto.
    + intros x Hx. apply Hm'. intros q Hq%Hall. auto.
Qed.

(** [uvmfree] returns the user pages and the tables. *)
Lemma uvmfree_run s fl root G M sz :
  as_inv kend s fl root G M -> only_user s root M sz -> 0 <= sz <= MAXVA ->
  exists s' fl', uvmfree kend root sz s = Ok s' /\ kalloc_inv kend s' fl' /\
    (forall q, q ∈ fl' <-> pages_of fl G M q) /\
    (forall x, (forall q, pages_of [] G M q -> outside x q) -> ld8 (pmem s') x = ld8 (pmem s) x).
Proof.
  intros Hinv [Hdom Hnone] Hsz. pose proof (pgno_bounds sz ltac:(lia)) as HN.
  destruct (uvmunmap_free_ok kend Hkend (Z.to_nat (pgno sz)) 0 s fl root G M Hinv)
    as (s1 & frs & E1 & Hinv1 & Hfrs & Htr1 & Hm1); [lia|lia|intros i Hi; apply Hdom; lia|].
  replace (0 + Z.of_nat (Z.to_nat (pgno sz))) with (pgno sz) in * by lia.
  destruct (freewalk_empty s1 (frs ++ fl) root G) as (s' & fl' & E2 & Hk' & Hfl' & Hm').
  { apply Hinv1. }
  { intros w Hw. rewrite Htr1 by done. case_decide as Hd; [done|]. apply Hnone; [done|].
    destruct (M !! (w / 4096)) as [f|] eqn:Ef; [|done].
    exfalso. apply Hd. apply Hdom. by eexists. }
  assert (HM : forall q, q ∈ frs <-> exists i, M !! i = Some q).
  { intros q. rewrite Hfrs. split; [intros (i & _ & ?); eauto|]. intros (i & Hi). exists i.
    split; [apply Hdom; by eexists|done]. }
  exists s', fl'. split_and!; auto.
  - unfold uvmfree. rewrite PGROUNDUP_pgno by lia. unfold PGSIZE.
    replace (pgno sz * 4096 / 4096) with (pgno sz) by zlia.
    destruct (Z.ltb_spec 0 sz).
    + unfold uvmunmap, PGSIZE. change (0 mod 4096 =? 0) with true. cbn [negb].
      rewrite u64_id by (rewrite MAXVA_eq in *; zlia).
      replace (0 + pgno sz * 4096) with (pgno sz * 4096) by lia.
      change (0 * 4096) with 0 in E1. rewrite E1. exact E2.
    + assert (Hz : pgno sz = 0) by (unfold pgno; zlia). rewrite Hz in E1.
      cbn [uvmunmap_loop Z.to_nat] in E1. injection E1 as <-. exact E2.
  - intros q. unfold pages_of. rewrite Hfl', elem_of_app, HM. tauto.
  - intros x Hx. rewrite Hm', Hm1; auto.
    + intros q Hq. apply Hx. unfold pages_of. rewrite <- HM. tauto.
    + intros q Hq. apply Hx. unfold pages_of. tauto.
Qed.

(** ** The page table of a process *)

(** [uvmunmap] of one page that the address space does not own. *)
Lemma unmap_shared s fl root G M v e :
  as_inv kend s fl root G M -> 0 <= v < MAXVA / 4096 -> M !! v = None ->
  translate (pmem s) root (v * 4096) = Some e -> PTE_FLAGS e <> PTE_V ->
  exists s', uvmunmap kend root (v * 4096) 1 false s = Ok s' /\ as_inv kend s' fl root G M /\
    (forall w, 0 <= w < MAXVA -> translate (pmem s') root w =
       if decide (w / 4096 = v) then None else translate (pmem s) root w) /\
    (forall x, (forall q, q ∈ dom G -> outside x q) -> ld8 (pmem s') x = ld8 (pmem s) x).
Proof.
  intros Hinv Hv HM He Hfl. assert (Hva : 0 <= v * 4096 < MAXVA) by (rewrite MAXVA_eq in *; zlia).
  destruct (walk_found kend Hkend s fl root G (v * 4096) e (ai_vm _ _ _ _ _ _ Hinv) Hva He)
    as (a & Hw & Ha & Hslot & Hld & HV).
  destruct (vm_inv_set_leaf kend Hkend s fl root G (v * 4096) a 0 (ai_vm _ _ _ _ _ _ Hinv) Hva Hslot)
    as (Hvm & _ & Hout).
  assert (Htr : forall w, 0 <= w < MAXVA -> translate (st64 (pmem s) a 0) root w =
    if decide (w / 4096 = v) then None else translate (pmem s) root w).
  { intros w Hr. rewrite (translate_set kend Hkend (pmem s) root G (v * 4096) a 0 w); auto; [|apply Hinv|lia].
    unfold same_page. destruct (decide (v * 4096 / 4096 = w / 4096)), (decide (w / 4096 = v)); try zlia; done. }
  exists (with_mem (st64 (pmem s) a 0) s). split_and!; auto.
  - rewrite MAXVA_eq in Hv. unfold uvmunmap, PGSIZE. replace (v * 4096 mod 4096) with 0 by zlia.
    cbn [Z.eqb negb]. rewrite u64_id by zlia. change (Z.to_nat 1) with 1%nat. cbn [uvmunmap_loop].
    ztest. rewrite Hw. cbn [mbind outcome_bind]. rewrite Hld, HV. cbn [negb].
    rewrite (proj2 (Z.eqb_neq a 0) Ha), (proj2 (Z.eqb_neq _ _) Hfl). cbn [mbind outcome_bind].
    unfold PGSIZE. rewrite u64_id by zlia. by ztest.
  - destruct Hinv as [_ Hmap Hfr Hinj Hus]. split; auto; cbn [with_mem pmem].
    + intros v' f Hv'. destruct (Hmap v' f Hv') as (Hr & e' & He' & Hpa & Hfl'). split; [done|].
      assert (0 <= v' * 4096 < MAXVA /\ v' * 4096 / 4096 = v') as [Hr' Hd] by (rewrite MAXVA_eq in *; zlia).
      exists e'. rewrite Htr, Hd, decide_False by congruence. auto.
    + intros w e' Hr. rewrite Htr by done. destruct (decide (w / 4096 = v)); [done|]. by apply Hus.
Qed.

(** The page table of a process: the trampoline, the trap frame and the
    user pages below [sz]. *)
Record proc_as (tramp tf : Z) (s : phys) (fl : list Z) (root : Z) (G : gmap Z (nat * Z)) (M : gmap Z Z)
    (sz : Z) : Prop := {
  pa_as : as_inv kend s fl root G M;
  pa_dom : forall i, is_Some (M !! i) <-> 0 <= i < pgno sz;
  pa_tramp : translate (pmem s) root TRAMPOLINE = Some (leaf_pte tramp (Z.lor PTE_R PTE_X));
  pa_tf : translate (pmem s) root TRAPFRAME = Some (leaf_pte tf (Z.lor PTE_R PTE_W));
  pa_only : forall w, 0 <= w < MAXVA -> w / 4096 <> 67108863 -> w / 4096 <> 67108862 ->
    M !! (w / 4096) = None -> translate (pmem s) root w = None
}.

(** A page that the kernel maps for itself. *)
Definition kernel_page (pa : Z) : Prop := 0 <= pa < 2 ^ 55 /\ pa mod 4096 = 0.

Lemma kernel_leaf pa perm :
  kernel_page pa -> 0 <= perm < 1024 -> has (Z.lor perm PTE_V) PTE_U = false -> Z.lor perm PTE_V <> PTE_V ->
  has (leaf_pte pa perm) PTE_U = false /\ PTE_FLAGS (leaf_pte pa perm) <> PTE_V.
Proof.
  intros [Hpa Hal] Hperm HU HV. destruct (leaf_pte_facts pa perm) as (_ & _ & _ & Efl); auto; [lia|].
  rewrite has_flags, Efl by (unfold PTE_U; lia). auto.
Qed.

Lemma kernel_perms :
  (0 <= Z.lor PTE_R PTE_X < 1024 /\ has (Z.lor (Z.lor PTE_R PTE_X) PTE_V) PTE_U = false /\
   Z.lor (Z.lor PTE_R PTE_X) PTE_V <> PTE_V) /\
  (0 <= Z.lor PTE_R PTE_W < 1024 /\ has (Z.lor (Z.lor PTE_R PTE_W) PTE_V) PTE_U = false /\
   Z.lor (Z.lor PTE_R PTE_W) PTE_V <> PTE_V).
Proof. vm_compute. repeat split; congruence. Qed.

Lemma only_user_none s root :
  (forall w, 0 <= w < MAXVA -> translate (pmem s) root w = None) -> only_user s root ∅ 0.
Proof.
  intros Hn. split; [|auto]. intros i. rewrite lookup_empty. split; [by intros [? ?]|].
  change (pgno 0) with 0. lia.
Qed.

Lemma TRAMPOLINE_page : 67108863 * 4096 = TRAMPOLINE.
Proof. reflexivity. Qed.
Lemma TRAPFRAME_page : 67108862 * 4096 = TRAPFRAME.
Proof. reflexivity. Qed.
Lemma top_pages :
  0 <= TRAMPOLINE < MAXVA /\ TRAMPOLINE / 4096 = 67108863 /\
  0 <= TRAPFRAME < MAXVA /\ TRAPFRAME / 4096 = 67108862.
Proof. vm_compute. repeat split; congruence. Qed.

(** What [proc_pagetable] leaves when it runs out of memory. *)
Definition undone (fl : list Z) (s s' : phys) : Prop :=
  exists fl', kalloc_inv kend s' fl' /\ (forall q, q ∈ fl' <-> q ∈ fl) /\
    (forall x, (forall q, q ∈ fl -> outside x q) -> ld8 (pmem s') x = ld8 (pmem s) x).

(** Freeing a page table without user pages. *)
Lemma uvmfree_undone s0 fl0 s fl root G :
  as_inv kend s fl root G ∅ -> (forall w, 0 <= w < MAXVA -> translate (pmem s) root w = None) ->
  (forall q, q ∈ fl0 <-> q ∈ fl \/ q ∈ dom G) ->
  (forall x, (forall q, q ∈ fl0 -> outside x q) -> ld8 (pmem s) x = ld8 (pmem s0) x) ->
  exists s', uvmfree kend root 0 s = Ok s' /\ undone fl0 s0 s'.
Proof.
  intros Hinv Hn Hfl Hm. destruct (uvmfree_run s fl root G ∅ 0 Hinv (only_user_none _ _ Hn))
    as (s' & fl' & E & Hk & Hpg & Hm'); [rewrite MAXVA_eq; lia|].
  assert (He : forall q, ~ exists i : Z, (∅ : gmap Z Z) !! i = Some q)
    by (intros q (i & Hi); by rewrite lookup_empty in Hi).
  exists s'. split; [done|]. exists fl'. split_and!; auto.
  - intros q. rewrite Hpg, Hfl. unfold pages_of. specialize (He q). tauto.
  - intros x Hx. rewrite Hm', Hm; auto. intros q [Hq|[Hq|Hq]].
    + by apply elem_of_nil in Hq.
    + apply Hx, Hfl. auto.
    + by destruct (He q).
Qed.

(** What [proc_pagetable] leaves when it succeeds. *)
Definition made (tramp tf : Z) (fl : list Z) (s s' : phys) (root : Z) : Prop :=
  root <> 0 /\ exists fl' G, proc_as tramp tf s' fl' root G ∅ 0 /\
    (forall q, q ∈ fl <-> q ∈ fl' \/ q ∈ dom G) /\
    (forall x, (forall q, q ∈ fl -> outside x q) -> ld8 (pmem s') x = ld8 (pmem s) x) /\
    (length fl <= length fl' + 5)%nat.

Lemma bind_Ok {A B} (a : A) (f : A -> outcome B) : mbind f (Ok a) = f a.
Proof. reflexivity. Qed.

(** The end of [proc_pagetable], with the trampoline mapped. *)
Lemma map_trapframe tramp tf s0 fl0 s fl root G :
  kernel_page tramp -> kernel_page tf -> root <> 0 -> as_inv kend s fl root G ∅ ->
  (length fl0 <= length fl + 3)%nat ->
  (forall w, 0 <= w < MAXVA -> translate (pmem s) root w =
     if decide (w / 4096 = 67108863) then Some (leaf_pte tramp (Z.lor PTE_R PTE_X)) else None) ->
  (forall q, q ∈ fl0 <-> q ∈ fl \/ q ∈ dom G) ->
  (forall x, (forall q, q ∈ fl0 -> outside x q) -> ld8 (pmem s) x = ld8 (pmem s0) x) ->
  exists r s1, mappages root TRAPFRAME PGSIZE tf (Z.lor PTE_R PTE_W) s = Ok (r, s1) /\
    (r = 0 /\ made tramp tf fl0 s0 s1 root \/
     r = -1 /\ (length fl0 <= 5)%nat /\ exists s2 s', uvmunmap kend root TRAMPOLINE 1 false s1 = Ok s2 /\
       uvmfree kend root 0 s2 = Ok s' /\ undone fl0 s0 s').
Proof.
  intros Htr Htf Hroot Hinv Hlen Ht Hp Hm. destruct kernel_perms as [(A1 & A2 & A3) (B1 & B2 & B3)].
  destruct (kernel_leaf tramp _ Htr A1 A2 A3) as [A4 A5]. destruct (kernel_leaf tf _ Htf B1 B2 B3) as [B4 B5].
  destruct top_pages as (HT1 & HT2 & HT3 & HT4).
  destruct (map_shared kend Hkend s fl root G ∅ 67108862 tf (Z.lor PTE_R PTE_W) Hinv)
    as (r & s1 & fl1 & G1 & used & E & Hinv1 & Hfl1 & [Hdom1 Hul] & Hr & Ht1 & Hm1);
    [apply Htf|apply Htf|rewrite MAXVA_eq; zlia| |exact B1|exact B4|].
  { rewrite TRAPFRAME_page, Ht, HT4 by done. apply decide_False. lia. }
  rewrite TRAPFRAME_page in E. exists r, s1. split; [exact E|].
  assert (Hp1 : forall q, q ∈ fl0 <-> q ∈ fl1 \/ q ∈ dom G1).
  { intros q. rewrite Hp, Hdom1, Hfl1, elem_of_app. tauto. }
  assert (Hmem1 : forall x, (forall q, q ∈ fl0 -> outside x q) -> ld8 (pmem s1) x = ld8 (pmem s0) x).
  { intros x Hx. rewrite Hm1, Hm; [done|exact Hx|]. intros q Hq. apply Hx, Hp1. by right. }
  assert (Hlen1 : length fl = (length used + length fl1)%nat) by (rewrite Hfl1; apply length_app).
  destruct Hr as [->|[-> Hnil]]; [left|right]; (split; [reflexivity|]).
  - split; [exact Hroot|]. exists fl1, G1. split; [|split_and!; [assumption..|lia]]. split; [exact Hinv1|..].
    + intros i. rewrite lookup_empty. change (pgno 0) with 0. split; [by intros [? ?]|lia].
    + rewrite Ht1, HT2, decide_False, Ht, HT2, decide_True by lia. reflexivity.
    + rewrite Ht1, HT4, decide_True by lia. reflexivity.
    + intros w Hw Hw1 Hw2 _. rewrite Ht1, decide_False, Ht, decide_False by lia. reflexivity.
  - destruct (unmap_shared s1 fl1 root G1 ∅ 67108863 (leaf_pte tramp (Z.lor PTE_R PTE_X)) Hinv1)
      as (s2 & E2 & Hinv2 & Ht2 & Hm2); [rewrite MAXVA_eq; zlia|apply lookup_empty| |exact A5|].
    { rewrite TRAMPOLINE_page, Ht1, HT2, decide_False, Ht, HT2, decide_True by lia. reflexivity. }
    rewrite TRAMPOLINE_page in E2.
    destruct (uvmfree_undone s0 fl0 s2 fl1 root G1 Hinv2) as (s' & E3 & Hu); [|exact Hp1| |].
    { intros w Hw. rewrite Ht2, Ht1, Ht by done. destruct (decide (w / 4096 = 67108863)); [reflexivity|].
      rewrite decide_False by lia. reflexivity. }
    { intros x Hx. rewrite Hm2, Hmem1; [done|exact Hx|]. intros q Hq. apply Hx, Hp1. by right. }
    split; [rewrite Hnil in Hlen1; cbn in Hlen1; lia|]. exists s2, s'. split_and!; assumption.
Qed.

(** [proc_pagetable] makes the page table of a process without memory, or
    gives back what it took. *)
Lemma proc_pagetable_run tramp tf s fl :
  kalloc_inv kend s fl -> kernel_page tramp -> kernel_page tf ->
  exists r s', proc_pagetable kend tramp tf s = Ok (r, s') /\
    (r = 0 /\ undone fl s s' /\ (length fl <= 5)%nat \/ made tramp tf fl s s' r).
Proof.
  intros Hk Htr Htf. destruct kernel_perms as [(A1 & A2 & A3) _].
  destruct (kernel_leaf tramp _ Htr A1 A2 A3) as [A4 A5].
  destruct fl as [|f fl].
  { exists 0, s. unfold proc_pagetable, uvmcreate. rewrite (kalloc_nil kend s Hk). split; [done|left].
    split; [done|]. split; [by exists []|cbn; lia]. }
  destruct (uvmcreate_run kend Hkend s f fl Hk) as (s1 & E1 & Hinv1 & Hn1 & Hm1).
  assert (Hf0 : f <> 0).
  { pose proof (ki_pages _ _ _ Hk) as Hp. apply Forall_cons in Hp as [Hp _].
    destruct (page_ok_bounds kend Hkend f Hp). lia. }
  unfold proc_pagetable. rewrite E1, (proj2 (Z.eqb_neq f 0) Hf0).
  destruct (map_shared kend Hkend s1 fl f _ ∅ 67108863 tramp (Z.lor PTE_R PTE_X) Hinv1)
    as (r1 & s2 & fl2 & G2 & used2 & E2 & Hinv2 & Hfl2 & [Hdom2 Hul] & Hr1 & Ht2 & Hm2);
    [apply Htr|apply Htr|rewrite MAXVA_eq; zlia|apply Hn1|exact A1|exact A4|].
  rewrite TRAMPOLINE_page in E2. rewrite E2. cbn [mbind outcome_bind].
  assert (Hp2 : forall q, q ∈ f :: fl <-> q ∈ fl2 \/ q ∈ dom G2).
  { intros q. rewrite Hdom2, Hfl2, elem_of_cons, elem_of_app, dom_singleton_L, elem_of_singleton. tauto. }
  assert (Hmem2 : forall x, (forall q, q ∈ f :: fl -> outside x q) -> ld8 (pmem s2) x = ld8 (pmem s) x).
  { intros x Hx. rewrite Hm2, Hm1; [done|apply Hx, elem_of_cons; auto|]. intros q Hq. apply Hx, Hp2. auto. }
  assert (Hlen1 : length fl = (length used2 + length fl2)%nat) by (rewrite Hfl2; apply length_app).
  destruct (Z.ltb_spec r1 0) as [Hneg|Hneg].
  { destruct (uvmfree_undone s (f :: fl) s2 fl2 f G2 Hinv2) as (s' & -> & Hu); [|exact Hp2|exact Hmem2|].
    { intros w Hw. rewrite Ht2, decide_False by (auto; lia). apply Hn1. }
    exists 0, s'. split; [reflexivity|left]. split; [reflexivity|]. split; [exact Hu|].
    destruct Hr1 as [?|[_ ->]]; [lia|]. cbn in *. lia. }
  assert (r1 = 0) as Hr0 by lia.
  destruct (map_trapframe tramp tf s (f :: fl) s2 fl2 f G2) as (r2 & s3 & -> & Hcase); try assumption.
  { cbn. lia. }
  { intros w Hw. rewrite Ht2, Hn1 by done.
    destruct (decide (r1 = 0 /\ w / 4096 = 67108863)), (decide (w / 4096 = 67108863)); tauto || done. }
  cbn [mbind outcome_bind].
  destruct Hcase as [[Hr2 Hmade]|(Hr2 & Hl5 & s4 & s' & E4 & E5 & Hu)]; destruct (Z.ltb_spec r2 0); try lia.
  - exists f, s3. split; [reflexivity|right; exact Hmade].
  - rewrite E4, bind_Ok, E5, bind_Ok. exists 0, s'. split; [reflexivity|left]. split; [reflexivity|]. by split.
Qed.

(** [proc_freepagetable] returns every page of the process's address space;
    the trampoline and the trap frame are not its own. *)
Lemma proc_freepagetable_run tramp tf s fl root G M sz :
  proc_as tramp tf s fl root G M sz -> kernel_page tramp -> kernel_page tf -> 0 <= sz <= TRAPFRAME ->
  exists s' fl', proc_freepagetable kend root sz s = Ok s' /\ kalloc_inv kend s' fl' /\
    (forall q, q ∈ fl' <-> pages_of fl G M q) /\
    (forall x, (forall q, pages_of [] G M q -> outside x q) -> ld8 (pmem s') x = ld8 (pmem s) x).
Proof.
  intros [Hinv Hdom Ht1 Ht2 Honly] Htr Htf Hsz. destruct kernel_perms as [(A1 & A2 & A3) (B1 & B2 & B3)].
  destruct (kernel_leaf tramp _ Htr A1 A2 A3) as [_ A5]. destruct (kernel_leaf tf _ Htf B1 B2 B3) as [_ B5].
  rewrite TRAPFRAME_eq in Hsz.
  assert (HM : forall v, pgno sz <= v -> M !! v = None).
  { intros v Hv. destruct (M !! v) as [f|] eqn:Ef; [|done].
    assert (0 <= v < pgno sz) by (apply Hdom; by eexists). lia. }
  assert (Hpg : pgno sz <= 67108862) by (unfold pgno; zlia).
  destruct top_pages as (HT1 & HT2 & HT3 & HT4).
  destruct (unmap_shared s fl root G M 67108863 (leaf_pte tramp (Z.lor PTE_R PTE_X)) Hinv)
    as (s1 & E1 & Hinv1 & Htr1 & Hm1);
    [rewrite MAXVA_eq; zlia|apply HM; lia|by rewrite TRAMPOLINE_page|exact A5|].
  destruct (unmap_shared s1 fl root G M 67108862 (leaf_pte tf (Z.lor PTE_R PTE_W)) Hinv1)
    as (s2 & E2 & Hinv2 & Htr2 & Hm2); [rewrite MAXVA_eq; zlia|apply HM; lia| |exact B5|].
  { rewrite TRAPFRAME_page, Htr1, HT4, decide_False by lia. exact Ht2. }
  destruct (uvmfree_run s2 fl root G M sz Hinv2) as (s' & fl' & E3 & Hk & Hfl & Hm).
  { split; [done|]. intros w Hw HMw. rewrite Htr2, Htr1 by done.
    destruct (decide (w / 4096 = 67108862)); [done|]. destruct (decide (w / 4096 = 67108863)); [done|].
    by apply Honly. }
  { rewrite MAXVA_eq. lia. }
  exists s', fl'. split_and!; auto.
  - unfold proc_freepagetable. rewrite TRAMPOLINE_page in E1. rewrite TRAPFRAME_page in E2.
    rewrite E1, bind_Ok, E2, bind_Ok. exact E3.
  - intros x Hx. rewrite Hm, Hm2, Hm1; auto; intros q Hq; apply Hx; right; by left.
Qed.

(** A change elsewhere in memory. *)
Lemma proc_as_frame tramp tf s s' fl fl' root G M sz :
  proc_as tramp tf s fl root G M sz -> kalloc_inv kend s' fl' ->
  (forall q, q ∈ fl' -> q ∉ dom G /\ forall v, M !! v <> Some q) ->
  (forall q x, q ∈ dom G -> q <= x < q + PGSIZE -> ld8 (pmem s') x = ld8 (pmem s) x) ->
  proc_as tramp tf s' fl' root G M sz.
Proof.
  intros [Has Hdom Ht1 Ht2 Honly] Hk Hfl Hx.
  destruct (as_inv_tables kend s s' fl fl' root G M Has Hk) as [Has' Htr]; [|exact Hx|].
  { intros q Hq. right. destruct (Hfl q Hq) as [? Hv]. split; [done|]. intros v g Hg ->. by apply (Hv v). }
  destruct top_pages as (HT1 & _ & HT3 & _).
  split; [exact Has'|exact Hdom|by rewrite Htr|by rewrite Htr|].
  intros w Hw. rewrite Htr by done. by apply Honly.
Qed.

End Free.
