(* ===== verification/KvmProps.v ===== *)
(** * The page table of the kernel: what [kvmmake] maps *)
From S2P Require Import Prelude Cstring Riscv Kalloc Vm VmTheory UvmTheory CopyTheory UvmProps UvmFree.

(** A range of virtual addresses mapped to a range of memory. *)
Record region := Region { r_va : Z; r_pa : Z; r_len : Z; r_perm : Z }.

(** The entry for an address, in a list of regions. *)
Fixpoint tr (l : list region) (w : Z) : option Z :=
  match l with
  | [] => None
  | r :: l =>
      if decide (r_va r <= w < r_va r + r_len r) then Some (leaf_pte (r_pa r + (w - r_va r) / 4096 * 4096) (r_perm r))
      else tr l w
  end.

(** Whole pages within the address space. *)
Record fine_region (r : region) : Prop := {
  fr_align : r_va r mod 4096 = 0 /\ r_pa r mod 4096 = 0 /\ r_len r mod 4096 = 0;
  fr_va : 0 <= r_va r /\ 0 < r_len r /\ r_va r + r_len r <= MAXVA;
  fr_pa : 0 <= r_pa r /\ r_pa r + r_len r <= 2 ^ 56;
  fr_perm : 0 <= r_perm r < 1024
}.

Definition apart_from (r r' : region) : Prop := r_va r' + r_len r' <= r_va r \/ r_va r + r_len r <= r_va r'.

Lemma tr_none r l w : Forall (apart_from r) l -> r_va r <= w < r_va r + r_len r -> tr l w = None.
Proof. induction 1 as [|r' l Ha _ IH]; intros Hw; cbn [tr]; [done|]. unfold apart_from in Ha. rewrite decide_False by lia. by apply IH. Qed.

Definition in_region (w : Z) (r : region) : Prop := r_va r <= w < r_va r + r_len r.

Lemma tr_outside l w : (forall r, r ∈ l -> ~ in_region w r) -> tr l w = None.
Proof.
  induction l as [|r l IH]; intros H; cbn [tr]; [done|]. rewrite decide_False by (apply (H r); by left). apply IH. intros r' Hr'. apply H. by right.
Qed.

(** No two regions overlap. *)
Fixpoint disjoint (l : list region) : Prop := match l with [] => True | r :: l => Forall (apart_from r) l /\ disjoint l end.

Lemma tr_region l r w : disjoint l -> r ∈ l -> in_region w r -> tr l w = Some (leaf_pte (r_pa r + (w - r_va r) / 4096 * 4096) (r_perm r)).
Proof.
  unfold in_region. induction l as [|r' l IH]; intros Hd Hin Hw; cbn [tr disjoint] in *; [by apply elem_of_nil in Hin|]. destruct Hd as [Hd1 Hd2].
  apply elem_of_cons in Hin as [<-|Hin]; [by rewrite decide_True|]. rewrite decide_False by
    (pose proof (proj1 (Forall_forall _ _) Hd1 r Hin) as Ha; unfold apart_from in Ha; lia). by apply IH.
Qed.

(** Table pages that mapping a region may take. *)
Definition cost_of (r : region) : Z := 2 * ((r_va r + r_len r - 1) / 2097152 - r_va r / 2097152 + 1).

Section Kvm.
Variable kend : Z.
Hypothesis Hkend : 0 < kend.

(** The page table at [root] maps the regions [l]; of the free pages [fl0]
    at the start, [fl] are left, and [stk] are kernel stacks. *)
Record kvm (fl0 : list Z) (s0 : phys) (s : phys) (fl : list Z) (root : Z) (G : gmap Z (nat * Z)) (stk : list Z) (l : list region)
    : Prop := {
  kv_vm : vm_inv kend s fl root G;
  kv_tr : forall w, 0 <= w < MAXVA -> translate (pmem s) root w = tr l w;
  kv_disjoint : disjoint l;
  kv_pages : forall q, q ∈ fl0 <-> q ∈ fl \/ q ∈ dom G \/ q ∈ stk;
  kv_stk : NoDup stk /\ forall q, q ∈ stk -> q ∉ fl /\ q ∉ dom G;
  kv_out : forall x, (forall q, q ∈ fl0 -> outside x q) -> ld8 (pmem s) x = ld8 (pmem s0) x
}.

Lemma kvmmap_adds fl0 s0 s fl root G stk l r :
  kvm fl0 s0 s fl root G stk l -> fine_region r -> Forall (apart_from r) l -> cost_of r < Z.of_nat (length fl) ->
  exists s' fl' G', kvmmap root (r_va r) (r_pa r) (r_len r) (r_perm r) s = Ok s' /\ kvm fl0 s0 s' fl' root G' stk (r :: l) /\
    Z.of_nat (length fl) <= Z.of_nat (length fl') + cost_of r.
Proof.
  intros [Hvm Htr Hdj Hpg [Hnd Hstk] Hout] [(A1 & A2 & A3) (V1 & V2 & V3) (P1 & P2) Hp] Hap Hc.
  set (n := Z.to_nat (r_len r / 4096)). assert (Hn : Z.of_nat n * 4096 = r_len r) by (unfold n; zlia).
  destruct (mappages_loop_ok kend Hkend n (r_va r) (r_pa r) s fl root G (r_perm r))
    as (x & s' & fl' & G' & used & k & Hrun & Hvm' & Hsub & Hfl & (Hus & _ & Hlen) & Hr & Htr' & Hout'); auto; try lia.
  { intros w Hw. rewrite Htr by lia. apply (tr_none r); [done|lia]. }
  assert (Hu : Z.of_nat (length used) <= cost_of r).
  { unfold new_tables, cost_of in *. replace (4096 * Z.of_nat n) with (r_len r) in Hlen by lia. destruct (decide (is_Some _)); lia. }
  destruct Hr as [[-> ->]|(_ & _ & ->)]; [|exfalso; rewrite app_nil_r in Hfl; subst; lia].
  exists s', fl', G'. rewrite Hfl, length_app in *. split_and!; [| |lia].
  - unfold kvmmap, mappages, PGSIZE. rewrite A1, A3. cbn [Z.eqb negb]. ztest. fold n. rewrite u64_id by (rewrite MAXVA_eq in *; lia).
    replace (r_va r + r_len r - 4096) with (r_va r + 4096 * (Z.of_nat n - 1)) by lia. by rewrite Hrun.
  - split; auto.
    + intros w Hw. rewrite Htr' by done. cbn [tr]. replace (4096 * Z.of_nat n) with (r_len r) by lia.
      destruct (decide (r_va r <= w < r_va r + r_len r)); [done|by apply Htr].
    + by split.
    + intros q. rewrite Hpg, Hus, elem_of_app. tauto.
    + split; [done|]. intros q Hq. destruct (Hstk q Hq) as [N1 N2]. rewrite elem_of_app in N1. rewrite Hus. tauto.
    + intros y Hy. rewrite Hout'; [by apply Hout|]. intros q Hq. apply Hy, Hpg. rewrite Hus in Hq. rewrite elem_of_app. tauto.
Qed.

(** A page for a stack. *)
Lemma kvm_kalloc fl0 s0 s f fl root G stk l : kvm fl0 s0 s (f :: fl) root G stk l ->
  exists s1, kalloc s = (f, s1) /\ f <> 0 /\ page_ok kend f /\ kvm fl0 s0 s1 fl root G (f :: stk) l.
Proof.
  intros [[Hk Hwf Hown] Htr Hdj Hpg [Hnd Hstk] Hout]. pose proof (ki_nodup _ _ _ Hk) as Hndf. apply list.NoDup_cons in Hndf as [Hni _].
  pose proof (ki_pages _ _ _ Hk) as Hps. apply Forall_cons in Hps as [Hpf _].
  destruct (kalloc s) as [r s1] eqn:E. destruct (kalloc_cons kend Hkend s f fl r s1 Hk E) as (-> & Hk1 & Hm1).
  assert (Hf : f ∉ dom G) by (intros Hf; apply (Hown f Hf), elem_of_cons; by left).
  assert (Hx : forall q x, q ∈ dom G -> q <= x < q + PGSIZE -> ld8 (pmem s1) x = ld8 (pmem s) x).
  { intros q x Hq Hx. rewrite Hm1, decide_False; [done|]. assert (q <> f) by (intros ->; done). apply elem_of_dom in Hq as [lp Hq].
    destruct (page_disjoint kend q f x (pw_page _ _ _ _ Hwf q lp Hq) Hpf); [done|done|lia|unfold PGSIZE in *; lia]. }
  exists s1. split; [done|]. destruct (page_ok_bounds kend Hkend f Hpf) as (F1 & _). split; [lia|]. split; [done|]. split.
  - split; [done| |intros p Hp Hpf'; apply (Hown p Hp), elem_of_cons; by right].
    apply (pt_wf_ext kend (pmem s)); [done|]. intros p lv pre j Hp Hj. apply entry_frame; [|done].
    intros x Hxx. apply (Hx p); [by eapply elem_of_dom_2|done].
  - intros w Hw. rewrite <- Htr by done. unfold translate. apply (xl_frame kend _ _ root G); auto.
    rewrite prefix_root by done. apply (pw_root _ _ _ _ Hwf).
  - exact Hdj.
  - intros q. rewrite Hpg, !elem_of_cons. tauto.
  - split.
    + apply list.NoDup_cons. split; [|done]. intros Hin. destruct (Hstk f Hin) as [[] _]. by left.
    + intros q [->|Hq]%elem_of_cons; [done|]. destruct (Hstk q Hq) as [N1 N2]. rewrite elem_of_cons in N1. tauto.
  - intros x Hx'. rewrite Hm1, decide_False; [by apply Hout|].
    assert (outside x f) as Ho by (apply Hx', Hpg; left; apply elem_of_cons; by left). unfold outside, PGSIZE in *. lia.
Qed.

(** ** The stacks *)

Abbreviation RW := (Z.lor PTE_R PTE_W).
Abbreviation RX := (Z.lor PTE_R PTE_X).

(** The regions of the stacks from number [i] on. *)
Fixpoint stacks (i : Z) (pas : list Z) : list region :=
  match pas with
  | [] => []
  | pa :: pas => Region (KSTACK i) pa PGSIZE RW :: stacks (i + 1) pas
  end.

Lemma KSTACK_eq i : KSTACK i = 274877902848 - (i + 1) * 8192.
Proof. unfold KSTACK, PGSIZE. change TRAMPOLINE with 274877902848. lia. Qed.

Lemma proc_mapstacks_run n : forall i fl0 s0 s fl root G stk l,
  kvm fl0 s0 s fl root G stk l -> 0 <= i -> i + Z.of_nat n <= 64 ->
  Forall (fun r => r_va r + r_len r <= KSTACK (i + Z.of_nat n - 1) \/ KSTACK i + 4096 <= r_va r) l -> (5 * n < length fl)%nat ->
  exists s' fl' G' pas, proc_mapstacks n i root s = Ok s' /\ length pas = n /\
    kvm fl0 s0 s' fl' root G' (reverse pas ++ stk) (reverse (stacks i pas) ++ l) /\ (length fl <= length fl' + 5 * n)%nat.
Proof.
  induction n as [|n IH]; intros i fl0 s0 s fl root G stk l Hk Hi Hn Hl Hfl.
  { exists s, fl, G, []. split_and!; [done|done|exact Hk|lia]. }
  destruct fl as [|f fl]; [cbn in Hfl; lia|]. destruct (kvm_kalloc fl0 s0 s f fl root G stk l Hk) as (s1 & E1 & Hf & Hpf & Hk1).
  cbn [proc_mapstacks]. rewrite E1, (proj2 (Z.eqb_neq f 0) Hf). destruct (page_ok_bounds kend Hkend f Hpf) as (F1 & F2 & F3).
  set (r := Region (KSTACK i) f PGSIZE RW).
  assert (Hcost : cost_of r <= 4) by (unfold cost_of; cbn [r_va r_len r]; rewrite KSTACK_eq; unfold PGSIZE; zlia).
  destruct (kvmmap_adds fl0 s0 s1 fl root G (f :: stk) l r Hk1) as (s2 & fl2 & G2 & E2 & Hk2 & Hlen2).
  { split; cbn [r_va r_pa r_len r_perm r]; rewrite ?KSTACK_eq, ?MAXVA_eq; unfold PGSIZE; [split_and!; [zlia|done|done]|lia| |vm_compute; split; congruence].
    change (2 ^ 56) with 72057594037927936. lia. }
  { eapply Forall_impl; [exact Hl|]. intros r' Hr'. unfold apart_from. cbn [r_va r_len r]. rewrite !KSTACK_eq in *. unfold PGSIZE. lia. }
  { cbn [length] in Hfl. lia. }
  cbn [r_va r_pa r_len r_perm r] in E2. rewrite E2. cbn [mbind outcome_bind]. cbn [length] in Hfl.
  destruct (IH (i + 1) fl0 s0 s2 fl2 root G2 (f :: stk) (r :: l) Hk2) as (s' & fl' & G' & pas & E & Hp & Hk' & Hlen); try lia.
  { constructor; [right; cbn [r_va r]; rewrite !KSTACK_eq; lia|]. eapply Forall_impl; [exact Hl|]. intros r' Hr'. rewrite !KSTACK_eq in *. lia. }
  exists s', fl', G', (f :: pas). split_and!; [done|by cbn; rewrite Hp| |cbn [length]; lia].
  cbn [stacks]. rewrite !reverse_cons, <- !(assoc_L (++)). exact Hk'.
Qed.

(** ** [kvmmake] *)

Definition mtime_page : Z := Z.land 33603576 (Z.lnot 4095).

(** The devices, the kernel's text, its data and the rest of memory, and the
    trampoline. *)
Definition direct_map (etext trampoline : Z) : list region :=
  [Region UART0 UART0 PGSIZE RW; Region VIRTIO0 VIRTIO0 PGSIZE RW; Region PLIC PLIC 67108864 RW;
   Region KERNBASE KERNBASE (etext - KERNBASE) RX; Region etext etext (PHYSTOP - etext) RW;
   Region TRAMPOLINE trampoline PGSIZE RX; Region 1048576 1048576 PGSIZE RW; Region mtime_page mtime_page PGSIZE RW].

Lemma kvm_root s f fl : kalloc_inv kend s (f :: fl) ->
  exists s1, kalloc s = (f, s1) /\ kvm (f :: fl) s (with_mem (memset (pmem s1) f 0 PGSIZE) s1) fl f {[f := (2%nat, 0)]} [] [].
Proof.
  intros Hk. destruct (uvmcreate_run kend Hkend s f fl Hk) as (s' & E & Has & Htr & Hm).
  pose proof (ki_pages _ _ _ Hk) as Hps. apply Forall_cons in Hps as [Hpf _]. destruct (page_ok_bounds kend Hkend f Hpf) as (F1 & _).
  unfold uvmcreate in E. destruct (kalloc s) as [r s1] eqn:Ek.
  destruct (kalloc_cons kend Hkend s f fl r s1 Hk Ek) as (-> & _). rewrite (proj2 (Z.eqb_neq f 0)) in E by lia.
  injection E as <-. exists s1. split; [done|]. split.
  - apply (ai_vm _ _ _ _ _ _ Has).
  - intros w _. apply Htr.
  - done.
  - intros q. rewrite elem_of_cons, dom_singleton_L, elem_of_singleton, elem_of_nil. tauto.
  - split; [constructor|]. intros q Hq. by apply elem_of_nil in Hq.
  - intros x Hx. apply Hm, Hx. by left.
Qed.

Fixpoint costs (l : list region) : Z := match l with [] => 0 | r :: l => cost_of r + costs l end.

(** Mapping one region after the other. *)
Fixpoint map_regions (root : Z) (l : list region) (s : phys) : outcome phys :=
  match l with
  | [] => Ok s
  | r :: l => s ← kvmmap root (r_va r) (r_pa r) (r_len r) (r_perm r) s; map_regions root l s
  end.

Lemma map_regions_run l : forall fl0 s0 s fl root G stk l0,
  kvm fl0 s0 s fl root G stk l0 -> Forall fine_region l -> disjoint (reverse l ++ l0) -> costs l < Z.of_nat (length fl) ->
  exists s' fl' G', map_regions root l s = Ok s' /\ kvm fl0 s0 s' fl' root G' stk (reverse l ++ l0) /\
    Z.of_nat (length fl) <= Z.of_nat (length fl') + costs l.
Proof.
  induction l as [|r l IH]; intros fl0 s0 s fl root G stk l0 Hk Hf Hd Hc; cbn [map_regions costs] in *.
  { exists s, fl, G. split_and!; [done|exact Hk|lia]. }
  apply Forall_cons in Hf as [Hr Hf]. rewrite reverse_cons, <- (assoc_L (++)) in *. cbn [app] in *.
  assert (Hd1 : Forall (apart_from r) l0) by (clear -Hd; induction (reverse l) as [|x k IH]; cbn [app disjoint] in Hd; [apply Hd|apply IH, Hd]).
  assert (Hpos : 0 <= costs l).
  { clear -Hf. induction Hf as [|x k [_ (V1 & V2 & _) _ _] _ IHk]; cbn [costs]; [lia|]. unfold cost_of. zlia. }
  destruct (kvmmap_adds fl0 s0 s fl root G stk l0 r Hk Hr Hd1) as (s1 & fl1 & G1 & E1 & Hk1 & Hl1); [lia|].
  rewrite E1. cbn [mbind outcome_bind]. destruct (IH fl0 s0 s1 fl1 root G1 stk (r :: l0) Hk1 Hf Hd) as (s' & fl' & G' & E & Hk' & Hl'); [lia|].
  exists s', fl', G'. split_and!; [done|done|lia].
Qed.

Lemma map_bind {B} root r l s (K : phys -> outcome B) : mbind K (map_regions root (r :: l) s) =
  mbind (fun s => mbind K (map_regions root l s)) (kvmmap root (r_va r) (r_pa r) (r_len r) (r_perm r) s).
Proof. cbn [map_regions]. by destruct (kvmmap _ _ _ _ _ s). Qed.

Lemma bind_same {A B} (m : outcome A) (f g : A -> outcome B) : (forall a, f a = g a) -> mbind f m = mbind g m.
Proof. intros H. destruct m; [apply H|done..]. Qed.

#[local] Opaque kvmmap proc_mapstacks.

Lemma kvmmake_regions etext trampoline s : kvmmake etext trampoline s =
  let '(kpgtbl, s) := kalloc s in
  s ← map_regions kpgtbl (direct_map etext trampoline) (with_mem (memset (pmem s) kpgtbl 0 PGSIZE) s);
  s ← proc_mapstacks NPROC 0 kpgtbl s;
  Ok (kpgtbl, s).
Proof.
  unfold kvmmake. destruct (kalloc s) as [k s1]. cbv zeta. fold mtime_page. unfold direct_map.
  do 8 (rewrite map_bind; cbn [r_va r_pa r_len r_perm]; apply bind_same; intros ?). reflexivity.
Qed.

Lemma direct_map_fine etext trampoline : etext mod 4096 = 0 -> KERNBASE < etext < PHYSTOP -> kernel_page trampoline ->
  Forall fine_region (direct_map etext trampoline) /\ disjoint (reverse (direct_map etext trampoline)) /\ costs (direct_map etext trampoline) <= 340.
Proof.
  rewrite PHYSTOP_eq. unfold KERNBASE. intros He Hr [Ht Hta]. split_and!.
  - unfold direct_map. change mtime_page with 33599488. change TRAMPOLINE with 274877902848. unfold UART0, VIRTIO0, PLIC, KERNBASE, PGSIZE. rewrite PHYSTOP_eq.
    change (2 ^ 55) with 36028797018963968 in Ht.
    repeat constructor; cbn [r_va r_pa r_len r_perm]; rewrite ?MAXVA_eq; change (2 ^ 56) with 72057594037927936; try done; try zlia.
  - unfold direct_map. cbn [reverse rev_append disjoint]. change mtime_page with 33599488. change TRAMPOLINE with 274877902848.
    unfold UART0, VIRTIO0, PLIC, KERNBASE, PGSIZE, apart_from. rewrite PHYSTOP_eq.
    repeat first [apply Forall_nil; exact I|apply Forall_cons; split|split|exact I|cbn [r_va r_len]; lia].
  - unfold direct_map, costs, cost_of. cbn [r_va r_len]. change mtime_page with 33599488. change TRAMPOLINE with 274877902848. unfold UART0, VIRTIO0, PLIC, KERNBASE, PGSIZE. rewrite PHYSTOP_eq.
    zlia.
Qed.

Lemma stacks_in pas r : forall i, r ∈ stacks i pas -> exists j pa, i <= j < i + Z.of_nat (length pas) /\ r = Region (KSTACK j) pa PGSIZE RW.
Proof.
  induction pas as [|pa pas IH]; intros i Hr; cbn [stacks length] in *; [by apply elem_of_nil in Hr|].
  apply elem_of_cons in Hr as [->|Hr]; [exists i, pa; split; [lia|done]|]. destruct (IH (i + 1) Hr) as (j & pa' & Hj & ->). exists j, pa'. split; [lia|done].
Qed.

Lemma direct_map_low etext trampoline r : etext < PHYSTOP -> r ∈ direct_map etext trampoline -> r_va r = TRAMPOLINE \/ r_va r + r_len r <= PHYSTOP.
Proof.
  rewrite PHYSTOP_eq. intros He Hr. unfold direct_map in Hr. rewrite PHYSTOP_eq in Hr. change mtime_page with 33599488 in Hr.
  repeat (apply elem_of_cons in Hr as [->|Hr]; [cbn [r_va r_len]; first [by left|right; unfold UART0, VIRTIO0, PLIC, KERNBASE, PGSIZE; lia]|]).
  by apply elem_of_nil in Hr.
Qed.

(** The page below a stack is in no region. *)
Lemma guard_free etext trampoline pas i w r : etext < PHYSTOP -> length pas = NPROC -> 0 <= i < 64 -> KSTACK i - 4096 <= w < KSTACK i ->
  r ∈ direct_map etext trampoline ++ stacks 0 pas -> ~ in_region w r.
Proof.
  intros He Hp Hi Hw Hr. rewrite KSTACK_eq in Hw. unfold in_region. apply elem_of_app in Hr as [Hr|Hr].
  - destruct (direct_map_low etext trampoline r He Hr) as [->|Hlow]; [change TRAMPOLINE with 274877902848; lia|]. rewrite PHYSTOP_eq in Hlow. lia.
  - destruct (stacks_in pas r 0 Hr) as (j & pa & Hj & ->). cbn [r_va r_len]. rewrite KSTACK_eq. unfold PGSIZE. lia.
Qed.

Lemma kvmmake_run etext trampoline s fl :
  kalloc_inv kend s fl -> (700 <= length fl)%nat -> etext mod 4096 = 0 -> KERNBASE < etext < PHYSTOP -> kernel_page trampoline ->
  exists root s' fl' G pas, kvmmake etext trampoline s = Ok (root, s') /\ length pas = NPROC /\
    kvm fl s s' fl' root G (reverse pas) (reverse (direct_map etext trampoline ++ stacks 0 pas)).
Proof.
  intros Hk Hl He Hr Ht. destruct fl as [|f fl]; [cbn in Hl; lia|]. cbn [length] in Hl.
  destruct (direct_map_fine etext trampoline He Hr Ht) as (Df & Dd & Dc). destruct (kvm_root s f fl Hk) as (s1 & E1 & K1).
  rewrite kvmmake_regions, E1.
  destruct (map_regions_run (direct_map etext trampoline) _ _ _ _ _ _ _ [] K1 Df) as (s2 & fl2 & G2 & E2 & K2 & L2); [by rewrite app_nil_r|lia|].
  rewrite E2. cbn [mbind outcome_bind]. rewrite app_nil_r in K2.
  destruct (proc_mapstacks_run NPROC 0 _ _ _ _ _ _ _ _ K2) as (s3 & fl3 & G3 & pas & E3 & Hp & K3 & _); [lia|unfold NPROC; lia| |unfold NPROC; lia|].
  { apply Forall_forall. intros r Hrv. rewrite elem_of_reverse in Hrv. destruct (direct_map_low etext trampoline r ltac:(lia) Hrv) as [->|Hlow].
    - right. rewrite KSTACK_eq. change TRAMPOLINE with 274877902848. lia.
    - left. rewrite KSTACK_eq, PHYSTOP_eq in *. unfold NPROC. lia. }
  rewrite E3. cbn [mbind outcome_bind]. exists f, s3, fl3, G3, pas. rewrite app_nil_r in K3. rewrite reverse_app.
  split; [reflexivity|]. split; [exact Hp|exact K3].
Qed.

End Kvm.

(** C27: [kvmmake] builds the kernel's page table.  From 700 free pages on it does
    not panic.  It maps the devices and the memory at their own addresses
    (the text readable and executable, the rest readable and writable), the
    trampoline at the top, and below it a stack of one page for every
    process; no other address is mapped, in particular not the page below a
    stack.  The pages of the table and of the stacks are taken from the free
    list, each is used once, and nothing else in memory changes. *)
Theorem kvmmake_maps kend etext trampoline s fl :
  0 < kend -> kalloc_inv kend s fl -> (700 <= length fl)%nat -> etext mod 4096 = 0 -> KERNBASE < etext < PHYSTOP -> kernel_page trampoline ->
  exists root s' fl' G pas, kvmmake etext trampoline s = Ok (root, s') /\ vm_inv kend s' fl' root G /\ length pas = NPROC /\ NoDup pas /\
    (forall r w, r ∈ direct_map etext trampoline ++ stacks 0 pas -> in_region w r -> 0 <= w < MAXVA ->
       translate (pmem s') root w = Some (leaf_pte (r_pa r + (w - r_va r) / 4096 * 4096) (r_perm r))) /\
    (forall w, 0 <= w < MAXVA -> (forall r, r ∈ direct_map etext trampoline ++ stacks 0 pas -> ~ in_region w r) -> translate (pmem s') root w = None) /\
    (forall i w, 0 <= i < 64 -> KSTACK i - 4096 <= w < KSTACK i -> translate (pmem s') root w = None) /\
    (forall q, q ∈ fl <-> q ∈ fl' \/ q ∈ dom G \/ q ∈ pas) /\ (forall q, q ∈ pas -> q ∉ fl' /\ q ∉ dom G) /\
    (forall x, (forall q, q ∈ fl -> outside x q) -> ld8 (pmem s') x = ld8 (pmem s) x).
Proof.
  intros Hk Hf Hl He Hr Ht. destruct (kvmmake_run kend Hk etext trampoline s fl Hf Hl He Hr Ht) as (root & s' & fl' & G & pas & E & Hp & [Kv Ktr Kd Kp [Kn Ks] Ko]).
  exists root, s', fl', G, pas. setoid_rewrite elem_of_reverse in Kp. setoid_rewrite elem_of_reverse in Ks.
  assert (Hnone : forall w, 0 <= w < MAXVA -> (forall r, r ∈ direct_map etext trampoline ++ stacks 0 pas -> ~ in_region w r) -> translate (pmem s') root w = None).
  { intros w Hw Hn. rewrite (Ktr w Hw). apply tr_outside. intros r Hrv. rewrite elem_of_reverse in Hrv. exact (Hn r Hrv). }
  split; [exact E|]. split; [exact Kv|]. split; [exact Hp|]. split; [rewrite reverse_Permutation in Kn; exact Kn|].
  split; [|split; [exact Hnone|split; [|split; [exact Kp|split; [exact Ks|exact Ko]]]]].
  - intros r w Hin Hw Hwr. rewrite (Ktr w Hwr). apply tr_region; [exact Kd|by rewrite elem_of_reverse|exact Hw].
  - intros i w Hi Hw. apply Hnone; [rewrite KSTACK_eq in Hw; rewrite MAXVA_eq; lia|]. intros r Hin. exact (guard_free etext trampoline pas i w r (proj2 Hr) Hp Hi Hw Hin).
Qed.

(** 800 pages of memory. *)
Definition kvm_end : Z := PHYSTOP - 800 * 4096.

Lemma kvm_pages : exists s fl, kalloc_inv kvm_end s fl /\ (700 <= length fl)%nat.
Proof.
  destruct (kinit_ok kvm_end) with (m := (∅ : mem)) as (s & l & _ & Hinv & Hl); [by vm_compute|apply mem_wf_empty|by vm_compute|].
  exists s, l. split; [exact Hinv|].
  transitivity (length (map (fun k => kvm_end + Z.of_nat k * 4096) (seq 0 700))); [by rewrite length_map, length_seq|].
  apply submseteq_length, NoDup_submseteq.
  - assert (Inj (=) (=) (fun k => kvm_end + Z.of_nat k * 4096)) by (intros a b; lia). apply (NoDup_fmap_2 _), NoDup_seq.
  - intros q (k & -> & Hk%elem_of_seq)%list_elem_of_fmap. apply Hl. unfold page_ok, kvm_end. rewrite PHYSTOP_eq. unfold PGSIZE. split; [|lia]. zlia.
Qed.

Lemma kvmmake_maps_witness : exists s root s', kvmmake (KERNBASE + 32768) (KERNBASE + 28672) s = Ok (root, s') /\
  translate (pmem s') root TRAMPOLINE = Some (leaf_pte (KERNBASE + 28672) (Z.lor PTE_R PTE_X)).
Proof.
  destruct kvm_pages as (s & fl & Hk & Hl).
  destruct (kvmmake_maps kvm_end (KERNBASE + 32768) (KERNBASE + 28672) s fl) as (root & s' & fl' & G & pas & E & _ & _ & _ & H & _).
  - reflexivity.
  - exact Hk.
  - exact Hl.
  - reflexivity.
  - split; reflexivity.
  - vm_compute. split; [split; [discriminate|reflexivity]|reflexivity].
  - exists s, root, s'. split; [exact E|].
    apply (H (Region TRAMPOLINE (KERNBASE + 28672) PGSIZE (Z.lor PTE_R PTE_X)) TRAMPOLINE).
    + apply elem_of_app. left. do 5 right. left.
    + split; [apply Z.le_refl|reflexivity].
    + split; [discriminate|reflexivity].
Defined.
