(* ===== verification/Block.v ===== *)
(** * Disk blocks as byte lists

    A disk block is a list of [BSIZE] bytes.  The C code reads and writes
    structures inside a block through casts of the data pointer; here these
    accesses are little-endian reads and writes at a byte offset. *)
From S2P Require Import Prelude.

Definition BSIZE : nat := 1024.

Abbreviation block := (list Z).

Definition zero_block : block := replicate BSIZE 0.

(** [n] bytes at offset [off], and [src] stored at offset [off]. *)
Definition slice (l : list Z) (off n : nat) : list Z := take n (drop off l).
Definition splice (l : list Z) (off : nat) (src : list Z) : list Z :=
  take off l ++ src ++ drop (off + length src) l.

Fixpoint le_bytes (n : nat) (v : Z) : list Z :=
  match n with
  | O => []
  | S n' => v mod 256 :: le_bytes n' (v / 256)
  end.

Fixpoint le_val (l : list Z) : Z :=
  match l with
  | [] => 0
  | b :: l' => b + 256 * le_val l'
  end.

Definition get16 (l : block) (off : nat) : Z := le_val (slice l off 2).
Definition get32 (l : block) (off : nat) : Z := le_val (slice l off 4).
Definition put16 (l : block) (off : nat) (v : Z) : block := splice l off (le_bytes 2 (u16 v)).
Definition put32 (l : block) (off : nat) (v : Z) : block := splice l off (le_bytes 4 (u32 v)).

(** ** Slices and splices *)

Lemma length_splice l off src :
  (off + length src <= length l)%nat -> length (splice l off src) = length l.
Proof. intros. unfold splice. rewrite !length_app, length_take, length_drop. lia. Qed.

Lemma length_slice l off n : (off + n <= length l)%nat -> length (slice l off n) = n.
Proof. intros. unfold slice. rewrite length_take, length_drop. lia. Qed.

Lemma lookup_slice l off n i : (i < n)%nat -> slice l off n !! i = l !! (off + i)%nat.
Proof. intros. unfold slice. by rewrite lookup_take_lt, lookup_drop by done. Qed.

Lemma lookup_splice l off src i :
  (off + length src <= length l)%nat ->
  splice l off src !! i =
    if decide (off <= i < off + length src)%nat then src !! (i - off)%nat else l !! i.
Proof.
  intros H. unfold splice. destruct (decide (off <= i < off + length src)%nat) as [Hi|Hi].
  - rewrite lookup_app_r, length_take by (rewrite length_take; lia).
    rewrite lookup_app_l by lia. f_equal. lia.
  - destruct (decide (i < off)%nat).
    + rewrite lookup_app_l by (rewrite length_take; lia). by apply lookup_take_lt.
    + rewrite lookup_app_r, length_take by (rewrite length_take; lia).
      rewrite lookup_app_r, lookup_drop by lia. f_equal. lia.
Qed.

Lemma slice_splice_same l off src :
  (off + length src <= length l)%nat -> slice (splice l off src) off (length src) = src.
Proof.
  intros H. apply list_eq_same_length with (length src);
    rewrite ?length_slice by (rewrite length_splice by lia; lia); auto.
  intros i x y Hi. rewrite lookup_slice, lookup_splice, decide_True by lia.
  replace (off + i - off)%nat with i by lia. congruence.
Qed.

Lemma slice_ext l l' off off' n :
  (off + n <= length l)%nat -> (off' + n <= length l')%nat ->
  (forall i, (i < n)%nat -> l !! (off + i)%nat = l' !! (off' + i)%nat) -> slice l off n = slice l' off' n.
Proof.
  intros Hl Hl' H. apply list_eq_same_length with n; try (by rewrite length_slice by lia).
  intros i x y Hi. rewrite !lookup_slice by lia. rewrite H by lia. congruence.
Qed.

Lemma slice_splice_other l off src off' n :
  (off + length src <= length l)%nat -> (off' + n <= length l)%nat ->
  (off' + n <= off \/ off + length src <= off')%nat ->
  slice (splice l off src) off' n = slice l off' n.
Proof.
  intros H H' Hd. apply slice_ext; rewrite ?length_splice by lia; try lia.
  intros i Hi. rewrite lookup_splice, decide_False by lia. done.
Qed.

Lemma splice_all l src : length src = length l -> splice l 0 src = src.
Proof. intros H. unfold splice. rewrite take_0, drop_ge by lia. by rewrite app_nil_l, app_nil_r. Qed.

(** ** Little-endian numbers *)

Lemma length_le_bytes n v : length (le_bytes n v) = n.
Proof. revert v; induction n; intros; simpl; auto. Qed.

Lemma le_val_bytes n v : 0 <= v < 256 ^ Z.of_nat n -> le_val (le_bytes n v) = v.
Proof.
  revert v; induction n as [|n IH]; intros v H; [simpl in *; lia|].
  rewrite Nat2Z.inj_succ, Z.pow_succ_r in H by lia. cbn [le_bytes le_val]. rewrite IH; zlia.
Qed.

Definition is_bytes (l : list Z) : Prop := Forall (fun b => 0 <= b < 256) l.

Lemma le_bytes_ok n v : is_bytes (le_bytes n v).
Proof. revert v; induction n; intros v; constructor; [zlia|apply IHn]. Qed.

Lemma le_val_range l : is_bytes l -> 0 <= le_val l < 256 ^ Z.of_nat (length l).
Proof.
  induction 1 as [|b l Hb Hl IH]; [simpl; lia|].
  cbn [le_val length]. rewrite Nat2Z.inj_succ, Z.pow_succ_r by lia. lia.
Qed.

Lemma le_bytes_val l : is_bytes l -> le_bytes (length l) (le_val l) = l.
Proof.
  induction 1 as [|b l Hb Hl IH]; [done|]. cbn [le_val length le_bytes].
  replace ((b + 256 * le_val l) mod 256) with b by zlia.
  replace ((b + 256 * le_val l) / 256) with (le_val l) by zlia. by rewrite IH.
Qed.

Lemma is_bytes_slice l off n : is_bytes l -> is_bytes (slice l off n).
Proof. intros. by apply Forall_take, Forall_drop. Qed.

Lemma is_bytes_splice l off src : is_bytes l -> is_bytes src -> is_bytes (splice l off src).
Proof. intros. apply Forall_app. split; [by apply Forall_take|]. apply Forall_app. split; [done|by apply Forall_drop]. Qed.

(** ** Fields *)

Lemma get32_put32_eq l off v :
  (off + 4 <= length l)%nat -> get32 (put32 l off v) off = u32 v.
Proof.
  intros H. unfold get32, put32. pose proof (length_le_bytes 4 (u32 v)) as Hl.
  rewrite <- Hl at 2. rewrite slice_splice_same by lia. apply le_val_bytes. pose proof (u32_range v). simpl. lia.
Qed.

Lemma get32_put32_ne l off off' v :
  (off + 4 <= length l)%nat -> (off' + 4 <= length l)%nat -> (off' + 4 <= off \/ off + 4 <= off')%nat ->
  get32 (put32 l off v) off' = get32 l off'.
Proof.
  intros. unfold get32, put32. rewrite slice_splice_other; rewrite ?length_le_bytes; done.
Qed.

Lemma length_put32 l off v : (off + 4 <= length l)%nat -> length (put32 l off v) = length l.
Proof. intros. unfold put32. apply length_splice. by rewrite length_le_bytes. Qed.

Lemma get16_put16_eq l off v :
  (off + 2 <= length l)%nat -> get16 (put16 l off v) off = u16 v.
Proof.
  intros H. unfold get16, put16. pose proof (length_le_bytes 2 (u16 v)) as Hl.
  rewrite <- Hl at 2. rewrite slice_splice_same by lia. apply le_val_bytes. pose proof (u16_range v). simpl. lia.
Qed.

Lemma length_put16 l off v : (off + 2 <= length l)%nat -> length (put16 l off v) = length l.
Proof. intros. unfold put16. apply length_splice. by rewrite length_le_bytes. Qed.

Lemma get32_range l off : is_bytes l -> (off + 4 <= length l)%nat -> 0 <= get32 l off < 4294967296.
Proof.
  intros Hb Hl. pose proof (le_val_range _ (is_bytes_slice l off 4 Hb)) as H.
  rewrite length_slice in H by lia. unfold get32. simpl in H. lia.
Qed.
