(* ===== verification/Bio.v ===== *)
(** * kernel/bio.c and kernel/sleeplock.c: the buffer cache

    The cache is an array of [NBUF] buffers and a list head, linked by [prev]
    and [next] in order of use; here a buffer pointer is an index and [HEAD]
    is the index of the list head.  [virtio_disk_rw] transfers one block; the
    state keeps the durable contents of the disk and, for the crash theorems
    of Log.v, the sequence of the block writes.  [me] is [myproc()->pid].
    The bodies of the critical sections under [bcache.lock] and the sleep
    lock's spin lock run as one step. *)
From S2P Require Import Prelude Block.

(** ** Sleep locks (kernel/sleeplock.c) *)

Record sleeplock := SleepLock { locked : bool; lk_pid : Z }.

Definition initsleeplock : sleeplock := SleepLock false 0.

(** [acquiresleep] sleeps while the lock is held. *)
Definition acquiresleep (me : Z) (lk : sleeplock) : outcome sleeplock :=
  if locked lk then Blocked else Ok (SleepLock true me).

Definition releasesleep (lk : sleeplock) : sleeplock := SleepLock false 0.

Definition holdingsleep (me : Z) (lk : sleeplock) : bool := locked lk && (lk_pid lk =? me).

(** ** The cache *)

Definition NBUF : nat := 30.
Definition HEAD : nat := NBUF.

Record buf := Buf {
  valid : bool;
  dev : Z;
  blockno : Z;
  lock : sleeplock;
  refcnt : Z;
  prev : nat;
  next : nat;
  data : block
}.

Definition set_valid v b := Buf v (dev b) (blockno b) (lock b) (refcnt b) (prev b) (next b) (data b).
Definition set_dev v b := Buf (valid b) v (blockno b) (lock b) (refcnt b) (prev b) (next b) (data b).
Definition set_blockno v b := Buf (valid b) (dev b) v (lock b) (refcnt b) (prev b) (next b) (data b).
Definition set_lock v b := Buf (valid b) (dev b) (blockno b) v (refcnt b) (prev b) (next b) (data b).
Definition set_refcnt v b := Buf (valid b) (dev b) (blockno b) (lock b) v (prev b) (next b) (data b).
Definition set_prev v b := Buf (valid b) (dev b) (blockno b) (lock b) (refcnt b) v (next b) (data b).
Definition set_next v b := Buf (valid b) (dev b) (blockno b) (lock b) (refcnt b) (prev b) v (data b).
Definition set_data v b := Buf (valid b) (dev b) (blockno b) (lock b) (refcnt b) (prev b) (next b) v.

(** Static data starts as zero bytes. *)
Definition buf0 : buf := Buf false 0 0 (SleepLock false 0) 0 0 0 zero_block.

Record bcache := Bcache {
  bufs : gmap nat buf;
  disk : gmap Z block;
  writes : list (Z * block)
}.

Definition getb (c : bcache) (b : nat) : buf := default buf0 (bufs c !! b).
Definition setb (b : nat) (f : buf -> buf) (c : bcache) : bcache :=
  Bcache (<[b := f (getb c b)]> (bufs c)) (disk c) (writes c).

Definition disk_block (d : gmap Z block) (bn : Z) : block := default zero_block (d !! bn).

(** The body of the loop of [binit] for buffer [b]. *)
Definition binit_step (b : nat) (c : bcache) : bcache :=
  let c := setb b (set_next (next (getb c HEAD))) c in
  let c := setb b (set_prev HEAD) c in
  let c := setb b (set_lock initsleeplock) c in
  let c := setb (next (getb c HEAD)) (set_prev b) c in
  setb HEAD (set_next b) c.

Definition binit (d : gmap Z block) : bcache :=
  let c := Bcache ∅ d [] in
  let c := setb HEAD (set_prev HEAD) c in
  let c := setb HEAD (set_next HEAD) c in
  fold_left (fun c b => binit_step b c) (seq 0 NBUF) c.

(** The forward search of [bget]. *)
Fixpoint bget_find (fuel b : nat) (d bn : Z) (c : bcache) : outcome (option nat) :=
  match fuel with
  | O => NoFuel
  | S f =>
      if Nat.eqb b HEAD then Ok None
      else if (dev (getb c b) =? d) && (blockno (getb c b) =? bn) then Ok (Some b)
      else bget_find f (next (getb c b)) d bn c
  end.

(** The backward search for an unused buffer. *)
Fixpoint bget_lru (fuel b : nat) (c : bcache) : outcome (option nat) :=
  match fuel with
  | O => NoFuel
  | S f =>
      if Nat.eqb b HEAD then Ok None
      else if refcnt (getb c b) =? 0 then Ok (Some b)
      else bget_lru f (prev (getb c b)) c
  end.

(** The list has [NBUF] buffers. *)
Definition bget (me d bn : Z) (c : bcache) : outcome (nat * bcache) :=
  hit ← bget_find (S NBUF) (next (getb c HEAD)) d bn c;
  match hit with
  | Some b =>
      let c := setb b (fun x => set_refcnt (u32 (refcnt x + 1)) x) c in
      lk ← acquiresleep me (lock (getb c b));
      Ok (b, setb b (set_lock lk) c)
  | None =>
      free ← bget_lru (S NBUF) (prev (getb c HEAD)) c;
      match free with
      | Some b =>
          let c := setb b (set_dev d) c in
          let c := setb b (set_blockno bn) c in
          let c := setb b (set_valid false) c in
          let c := setb b (set_refcnt 1) c in
          lk ← acquiresleep me (lock (getb c b));
          Ok (b, setb b (set_lock lk) c)
      | None => Panic "bget: no buffers"
      end
  end.

(** [virtio_disk_rw]: transfer the block of buffer [b]. *)
Definition virtio_disk_rw (b : nat) (write : bool) (c : bcache) : bcache :=
  let bn := blockno (getb c b) in
  if write then Bcache (bufs c) (<[bn := data (getb c b)]> (disk c)) (writes c ++ [(bn, data (getb c b))])
  else setb b (set_data (disk_block (disk c) bn)) c.

Definition bread (me d bn : Z) (c : bcache) : outcome (nat * bcache) :=
  '(b, c) ← bget me d bn c;
  if negb (valid (getb c b)) then
    let c := virtio_disk_rw b false c in
    Ok (b, setb b (set_valid true) c)
  else Ok (b, c).

Definition bwrite (me : Z) (b : nat) (c : bcache) : outcome bcache :=
  if negb (holdingsleep me (lock (getb c b))) then Panic "bwrite"
  else Ok (virtio_disk_rw b true c).

(** The assignments of [brelse] that move [b] to the head of the list. *)
Definition relink (b : nat) (c : bcache) : bcache :=
  let c := setb (next (getb c b)) (set_prev (prev (getb c b))) c in
  let c := setb (prev (getb c b)) (set_next (next (getb c b))) c in
  let c := setb b (set_next (next (getb c HEAD))) c in
  let c := setb b (set_prev HEAD) c in
  let c := setb (next (getb c HEAD)) (set_prev b) c in
  setb HEAD (set_next b) c.

Definition brelse (me : Z) (b : nat) (c : bcache) : outcome bcache :=
  if negb (holdingsleep me (lock (getb c b))) then Panic "brelse"
  else
    let c := setb b (fun x => set_lock (releasesleep (lock x)) x) c in
    let c := setb b (fun x => set_refcnt (u32 (refcnt x - 1)) x) c in
    if refcnt (getb c b) =? 0 then Ok (relink b c) else Ok c.

Definition bpin (b : nat) (c : bcache) : bcache :=
  setb b (fun x => set_refcnt (u32 (refcnt x + 1)) x) c.
Definition bunpin (b : nat) (c : bcache) : bcache :=
  setb b (fun x => set_refcnt (u32 (refcnt x - 1)) x) c.
