(* ===== verification/BioTheory.v ===== *)
(** * The buffer cache: list invariant and the promise to its clients

    [path] is the doubly linked list in order of use.  The class
    [BlockCache] states what the log relies on: the contents a block has for
    its readers ([cview]), what is durable ([cdisk]), the references that keep
    a block in the cache, and the effect of every operation on them.  The
    cache of Bio.v is an instance. *)
From S2P Require Import Prelude Block Bio.

(** ** Doubly linked lists over [next] and [prev] *)

Definition upd (f : nat -> nat) (k v : nat) : nat -> nat := fun x => if decide (x = k) then v else f x.

(** The list [l] leads from [a] to [z] along [nx], and back along [pv]. *)
Fixpoint path (nx pv : nat -> nat) (a : nat) (l : list nat) (z : nat) : Prop :=
  match l with
  | [] => nx a = z /\ pv z = a
  | b :: l' => nx a = b /\ pv b = a /\ path nx pv b l' z
  end.

Lemma path_app nx pv a l1 b l2 z :
  path nx pv a (l1 ++ b :: l2) z <-> path nx pv a l1 b /\ path nx pv b l2 z.
Proof. revert a; induction l1 as [|c l1 IH]; intros a; simpl; [|rewrite IH]; tauto. Qed.

Lemma path_ext nx pv nx' pv' a l z :
  (forall x, x = a \/ x ∈ l -> nx' x = nx x) -> (forall x, x = z \/ x ∈ l -> pv' x = pv x) ->
  path nx pv a l z -> path nx' pv' a l z.
Proof.
  revert a; induction l as [|b l IH]; intros a Hn Hp; simpl.
  - rewrite Hn, Hp by auto. done.
  - intros (H1 & H2 & H3). rewrite Hn, Hp by (rewrite ?elem_of_cons; auto). split_and!; auto.
    apply IH; auto; intros x Hx; [apply Hn|apply Hp]; rewrite elem_of_cons; tauto.
Qed.

(** The successor and predecessor of a node of the list. *)
Lemma path_head nx pv a l z : path nx pv a l z -> nx a = hd z l.
Proof. destruct l; simpl; tauto. Qed.

(** The last node of [a :: l]. *)
Fixpoint endof (a : nat) (l : list nat) : nat :=
  match l with
  | [] => a
  | b :: l' => endof b l'
  end.

Lemma path_last nx pv a l z : path nx pv a l z -> pv z = endof a l.
Proof. revert a; induction l as [|b l IH]; intros a; simpl; [tauto|]. intros (_ & _ & H). by apply IH. Qed.

Lemma endof_in a l : endof a l = a \/ endof a l ∈ l.
Proof.
  revert a; induction l as [|b l IH]; intros a; simpl; [auto|]. right. rewrite elem_of_cons.
  destruct (IH b); auto.
Qed.

(** Redirecting the end of a list. *)
Lemma path_retarget nx pv a l z z' :
  NoDup (a :: l) -> z' ∉ l -> path nx pv a l z ->
  path (upd nx (endof a l) z') (upd pv z' (endof a l)) a l z'.
Proof.
  revert a; induction l as [|b l IH]; intros a Hnd Hz; simpl.
  - intros _. unfold upd. by rewrite !decide_True.
  - intros (H1 & H2 & H3). apply NoDup_cons in Hnd as [Hni Hnd]. rewrite elem_of_cons in Hz, Hni.
    split_and!; [| |apply IH; auto].
    + unfold upd. rewrite decide_False; [done|]. intros E. apply Hni. rewrite E. apply endof_in.
    + unfold upd. rewrite decide_False; [done|]. intros ->. tauto.
Qed.

Lemma hd_in (z : nat) l : hd z l = z \/ hd z l ∈ l.
Proof. destruct l; simpl; [auto|]. right. apply elem_of_cons. by left. Qed.

(** Taking [b] out of a list that starts and ends at [h]. *)
Lemma path_unlink nx pv h l1 b l2 :
  NoDup (h :: l1 ++ b :: l2) -> path nx pv h (l1 ++ b :: l2) h ->
  path (upd nx (endof h l1) (hd h l2)) (upd pv (hd h l2) (endof h l1)) h (l1 ++ l2) h.
Proof.
  intros Hnd. rewrite path_app. intros [H1 H2].
  rewrite NoDup_cons, NoDup_app, NoDup_cons in Hnd. destruct Hnd as (Hh & Hnd1 & Hd & Hb & Hnd2).
  rewrite elem_of_app, elem_of_cons in Hh.
  assert (Hd' : forall x, x ∈ l1 -> x ∉ l2) by (intros x Hx Hx2; apply (Hd x Hx), elem_of_cons; auto).
  assert (Hhd : NoDup (h :: l1)) by (apply NoDup_cons; tauto).
  destruct l2 as [|c l2]; simpl in *.
  - rewrite app_nil_r. eapply path_retarget; eauto; tauto.
  - destruct H2 as (Hbc & Hcb & H2). apply path_app. rewrite NoDup_cons in Hnd2. destruct Hnd2 as [Hc Hnd2].
    rewrite elem_of_cons in *. split.
    + eapply path_retarget; eauto. intros Hin. apply (Hd' c Hin), elem_of_cons. auto.
    + eapply path_ext; [..|exact H2]; intros x Hx; unfold upd; rewrite decide_False; auto; intros ->.
      * destruct (endof_in h l1) as [E|E]; rewrite ?E in Hx.
        -- destruct Hx as [<-|Hx]; [apply Hh; auto|]. apply Hh; auto.
        -- destruct Hx as [Hx|Hx]; [rewrite Hx in E|]; apply (Hd' _ E), elem_of_cons; auto.
      * destruct Hx as [->|Hx]; [apply Hh; auto|done].
Qed.

(** Putting [b] in front. *)
Lemma path_front nx pv h b l :
  b <> h -> b ∉ l -> NoDup (h :: l) -> path nx pv h l h ->
  path (upd (upd nx b (nx h)) h b) (upd (upd pv b h) (nx h) b) h (b :: l) h.
Proof.
  intros Hbh Hb Hnd Hp. pose proof (path_head _ _ _ _ _ Hp) as Hh.
  apply NoDup_cons in Hnd as [Hhl Hnd].
  simpl. unfold upd. rewrite decide_True by done.
  rewrite decide_False.
  2: { rewrite Hh. intros E. destruct (hd_in h l) as [E'|E']; [congruence|]. by rewrite <- E in E'. }
  rewrite decide_True by done. split_and!; auto.
  destruct l as [|c l]; simpl in *.
  - destruct Hp as [-> Hp]. rewrite !decide_False, !decide_True by auto. done.
  - destruct Hp as (-> & Hpc & Hp). rewrite elem_of_cons in *.
    apply NoDup_cons in Hnd as [Hc Hnd]. rewrite !decide_False, !decide_True by tauto. split_and!; auto.
    eapply path_ext; [..|exact Hp]; intros x Hx; cbv beta; rewrite !decide_False; auto; intros ->;
      rewrite ?elem_of_cons in *; naive_solver.
Qed.

(** ** The interface of the cache

    [cwf c H]: the cache is well formed and [H] maps the handles that the
    running process holds to their block numbers. *)
Class BlockCache (C : Type) := {
  cread : Z -> C -> outcome (nat * C);
  cwrite : nat -> C -> outcome C;
  crelse : nat -> C -> outcome C;
  cpin : nat -> C -> C;
  cunpin : nat -> C -> C;
  cdata : C -> nat -> block;
  cset : nat -> block -> C -> C;
  cblockno : C -> nat -> Z;
  (* what the operations are about *)
  cview : C -> Z -> block;
  cdisk : C -> Z -> block;
  cwrites : C -> list (Z * block);
  crefs : C -> Z -> Z;
  cwf : C -> gmap nat Z -> Prop
}.

(** The two states have the same contents, durable contents, writes and
    references. *)
Record csame {C} `{BlockCache C} (c c' : C) : Prop := {
  cs_view : forall b, cview c' b = cview c b;
  cs_disk : forall b, cdisk c' b = cdisk c b;
  cs_writes : cwrites c' = cwrites c
}.

(** There is a buffer for block [bn]. *)
Definition croom {C} `{BlockCache C} (c : C) (bn : Z) : Prop :=
  0 < crefs c bn \/ exists U : gset Z, (size U < NBUF)%nat /\ forall b, 0 < crefs c b -> b ∈ U.

Class BlockCacheLaws (C : Type) `{BlockCache C} := {
  law_held c H h bn : cwf c H -> H !! h = Some bn ->
    cdata c h = cview c bn /\ cblockno c h = bn /\ 1 <= crefs c bn;
  law_refs c H bn : cwf c H -> 0 <= crefs c bn < 4294967296;
  law_len c H bn : cwf c H -> length (cview c bn) = BSIZE /\ length (cdisk c bn) = BSIZE;
  law_clean c H bn : cwf c H -> crefs c bn = 0 -> cview c bn = cdisk c bn;
  law_read c H bn :
    cwf c H -> (forall h, H !! h <> Some bn) -> croom c bn -> crefs c bn < 4294967295 ->
    exists h c', cread bn c = Ok (h, c') /\ H !! h = None /\ cwf c' (<[h := bn]> H) /\ csame c c' /\
      (forall b, crefs c' b = crefs c b + if decide (b = bn) then 1 else 0);
  law_set c H h bn d :
    cwf c H -> H !! h = Some bn -> length d = BSIZE ->
    cwf (cset h d c) H /\ (forall b, cview (cset h d c) b = if decide (b = bn) then d else cview c b) /\
    (forall b, cdisk (cset h d c) b = cdisk c b) /\ cwrites (cset h d c) = cwrites c /\
    (forall b, crefs (cset h d c) b = crefs c b);
  law_write c H h bn :
    cwf c H -> H !! h = Some bn ->
    exists c', cwrite h c = Ok c' /\ cwf c' H /\ (forall b, cview c' b = cview c b) /\
      (forall b, cdisk c' b = if decide (b = bn) then cview c bn else cdisk c b) /\
      cwrites c' = cwrites c ++ [(bn, cview c bn)] /\ (forall b, crefs c' b = crefs c b);
  law_relse c H h bn :
    cwf c H -> H !! h = Some bn -> (crefs c bn = 1 -> cview c bn = cdisk c bn) ->
    exists c', crelse h c = Ok c' /\ cwf c' (delete h H) /\ csame c c' /\
      (forall b, crefs c' b = crefs c b - if decide (b = bn) then 1 else 0);
  law_pin c H h bn :
    cwf c H -> H !! h = Some bn -> crefs c bn < 4294967295 ->
    cwf (cpin h c) H /\ csame c (cpin h c) /\
    (forall b, crefs (cpin h c) b = crefs c b + if decide (b = bn) then 1 else 0);
  law_unpin c H h bn :
    cwf c H -> H !! h = Some bn -> 2 <= crefs c bn ->
    cwf (cunpin h c) H /\ csame c (cunpin h c) /\
    (forall b, crefs (cunpin h c) b = crefs c b - if decide (b = bn) then 1 else 0)
}.

(** ** The cache of Bio.v *)

Definition nxc (c : bcache) (i : nat) : nat := next (getb c i).
Definition pvc (c : bcache) (i : nat) : nat := prev (getb c i).

Lemma getb_setb b f c i : getb (setb b f c) i = if decide (i = b) then f (getb c b) else getb c i.
Proof.
  unfold getb, setb. simpl. destruct (decide (i = b)) as [->|].
  - by rewrite lookup_insert_eq.
  - by rewrite lookup_insert_ne.
Qed.

Lemma setb_setb b f g c : setb b f (setb b g c) = setb b (fun x => f (g x)) c.
Proof.
  unfold setb at 1. rewrite getb_setb, decide_True by done. unfold setb. simpl.
  by rewrite insert_insert_eq.
Qed.

Section Instance.
Variables (me D : Z).

Definition is_buf (c : bcache) (bn : Z) (i : nat) : bool :=
  (dev (getb c i) =? D) && (blockno (getb c i) =? bn).

(** The buffer that caches block [bn] of device [D]. *)
Definition cached (c : bcache) (bn : Z) : option nat := snd <$> list_find (is_buf c bn) (seq 0 NBUF).

Definition view_of (c : bcache) (bn : Z) : block :=
  match cached c bn with
  | Some i => if valid (getb c i) then data (getb c i) else disk_block (disk c) bn
  | None => disk_block (disk c) bn
  end.

Definition refs_of (c : bcache) (bn : Z) : Z :=
  match cached c bn with Some i => refcnt (getb c i) | None => 0 end.

Record bio_wf (c : bcache) (H : gmap nat Z) : Prop := {
  bw_lru : exists l, path (nxc c) (pvc c) HEAD l HEAD /\ l ≡ₚ seq 0 NBUF;
  bw_uniq : forall i j bn, (i < NBUF)%nat -> (j < NBUF)%nat ->
    is_buf c bn i = true -> is_buf c bn j = true -> i = j;
  bw_dev : forall i, (i < NBUF)%nat -> dev (getb c i) = D \/ refcnt (getb c i) = 0;
  bw_ref : forall i, (i < NBUF)%nat -> 0 <= refcnt (getb c i) < 4294967296;
  bw_free : forall i, (i < NBUF)%nat -> H !! i = None -> locked (lock (getb c i)) = false;
  bw_held : forall i bn, H !! i = Some bn -> (i < NBUF)%nat /\ is_buf c bn i = true /\
    lock (getb c i) = SleepLock true me /\ valid (getb c i) = true /\ 1 <= refcnt (getb c i);
  bw_valid : forall i, (i < NBUF)%nat -> 0 < refcnt (getb c i) -> valid (getb c i) = true;
  bw_clean : forall i, (i < NBUF)%nat -> refcnt (getb c i) = 0 -> valid (getb c i) = true ->
    dev (getb c i) = D -> data (getb c i) = disk_block (disk c) (blockno (getb c i));
  bw_len : forall i, (i < NBUF)%nat -> valid (getb c i) = true -> length (data (getb c i)) = BSIZE;
  bw_dlen : forall bn, length (disk_block (disk c) bn) = BSIZE
}.

Lemma cached_Some c H bn i :
  bio_wf c H -> cached c bn = Some i <-> (i < NBUF)%nat /\ is_buf c bn i = true.
Proof.
  intros Hw. unfold cached. split.
  - destruct (list_find _ _) as [[k x]|] eqn:E; [|done]. simpl. intros [= ->].
    apply list_find_Some in E as (Hk & Hb & _). apply lookup_seq in Hk as [-> ?]. simpl. split; [done|by apply Is_true_true].
  - intros [Hi Hb]. destruct (list_find (is_buf c bn) (seq 0 NBUF)) as [[k x]|] eqn:E; simpl.
    + apply list_find_Some in E as (Hk & Hx & _). apply lookup_seq in Hk as [-> Hk].
      f_equal. simpl in *. apply (bw_uniq c H Hw k i bn); auto. by apply Is_true_true.
    + eapply list_find_None in E. rewrite Forall_forall in E.
      destruct (E i); [apply elem_of_seq; lia|by apply Is_true_true].
Qed.

Lemma cached_None c bn i : cached c bn = None -> (i < NBUF)%nat -> is_buf c bn i = false.
Proof.
  unfold cached. intros E Hi. destruct (list_find _ _) eqn:E'; [done|].
  apply list_find_None in E'. rewrite Forall_forall in E'. apply not_true_is_false.
  intros Hb. destruct (E' i); [apply elem_of_seq; lia|by apply Is_true_true].
Qed.

(** *** Searching the list *)

Lemma path_rev nx pv a l z : path nx pv a l z -> path pv nx z (reverse l) a.
Proof.
  revert a; induction l as [|b l IH]; intros a; simpl; [tauto|].
  intros (H1 & H2 & H3). rewrite reverse_cons. apply path_app. simpl. auto.
Qed.

Lemma bget_find_run c bn l : forall a fuel,
  path (nxc c) (pvc c) a l HEAD -> HEAD ∉ l -> (length l < fuel)%nat ->
  exists r, bget_find fuel (nxc c a) D bn c = Ok r /\
    match r with
    | Some b => b ∈ l /\ is_buf c bn b = true
    | None => forall b, b ∈ l -> is_buf c bn b = false
    end.
Proof.
  induction l as [|b l IH]; intros a fuel Hp Hh Hf; cbn [path length] in *;
    (destruct fuel as [|fuel]; [lia|]); cbn [bget_find bget_lru].
  - destruct Hp as [-> _]. exists None. rewrite Nat.eqb_refl. split; [done|].
    intros b Hb. by apply elem_of_nil in Hb.
  - destruct Hp as (-> & _ & Hp). rewrite elem_of_cons in Hh.
    rewrite (proj2 (Nat.eqb_neq b HEAD)) by (intros ->; tauto). fold (is_buf c bn b) (nxc c b).
    destruct (is_buf c bn b) eqn:Eb.
    + exists (Some b). split; [done|]. split; [apply elem_of_cons; by left|done].
    + destruct (IH b fuel Hp) as (r & -> & Hr); [tauto|lia|]. exists r. split; [done|].
      destruct r as [b'|]; [destruct Hr; split; [apply elem_of_cons; by right|done]|].
      intros b'. rewrite elem_of_cons. intros [->|]; auto.
Qed.

Lemma bget_lru_run c l : forall z fuel,
  path (pvc c) (nxc c) z l HEAD -> HEAD ∉ l -> (length l < fuel)%nat ->
  exists r, bget_lru fuel (pvc c z) c = Ok r /\
    match r with
    | Some b => b ∈ l /\ refcnt (getb c b) = 0
    | None => forall b, b ∈ l -> refcnt (getb c b) <> 0
    end.
Proof.
  induction l as [|b l IH]; intros z fuel Hp Hh Hf; cbn [path length] in *;
    (destruct fuel as [|fuel]; [lia|]); cbn [bget_find bget_lru].
  - destruct Hp as [-> _]. exists None. rewrite Nat.eqb_refl. split; [done|].
    intros b Hb. by apply elem_of_nil in Hb.
  - destruct Hp as (-> & _ & Hp). rewrite elem_of_cons in Hh.
    rewrite (proj2 (Nat.eqb_neq b HEAD)) by (intros ->; tauto). fold (pvc c b).
    destruct (Z.eqb_spec (refcnt (getb c b)) 0) as [Eb|Eb].
    + exists (Some b). split; [done|]. split; [apply elem_of_cons; by left|done].
    + destruct (IH b fuel Hp) as (r & -> & Hr); [tauto|lia|]. exists r. split; [done|].
      destruct r as [b'|]; [destruct Hr; split; [apply elem_of_cons; by right|done]|].
      intros b'. rewrite elem_of_cons. intros [->|]; auto.
Qed.

(** *** Changing one buffer *)

(** Everything but the links. *)
Definition core (x : buf) : buf := set_next 0 (set_prev 0 x).

Lemma core_eq x y : core x = core y ->
  valid x = valid y /\ dev x = dev y /\ blockno x = blockno y /\ lock x = lock y /\
  refcnt x = refcnt y /\ data x = data y.
Proof. intros [=]. auto 10. Qed.

Ltac core_rw E :=
  let Ev := fresh in let Ed := fresh in let Eb := fresh in
  let El := fresh in let Er := fresh in let Et := fresh in
  destruct (core_eq _ _ E) as (Ev & Ed & Eb & El & Er & Et);
  rewrite ?Ev, ?Ed, ?Eb, ?El, ?Er, ?Et.

Record changed (c c' : bcache) (H H' : gmap nat Z) (b : nat) : Prop := {
  ch_buf : (b < NBUF)%nat;
  ch_others : forall i, i <> b -> core (getb c' i) = core (getb c i);
  ch_held : forall i, i <> b -> H' !! i = H !! i;
  ch_disk : disk c' = disk c;
  ch_path : exists l, path (nxc c') (pvc c') HEAD l HEAD /\ l ≡ₚ seq 0 NBUF;
  ch_dev : dev (getb c' b) = D;
  ch_uniq : forall j, (j < NBUF)%nat -> j <> b -> is_buf c (blockno (getb c' b)) j = false;
  ch_ref : 0 <= refcnt (getb c' b) < 4294967296;
  ch_lock : match H' !! b with
    | None => locked (lock (getb c' b)) = false
    | Some bn => blockno (getb c' b) = bn /\ lock (getb c' b) = SleepLock true me /\
        valid (getb c' b) = true /\ 1 <= refcnt (getb c' b)
    end;
  ch_valid : 0 < refcnt (getb c' b) -> valid (getb c' b) = true;
  ch_clean : refcnt (getb c' b) = 0 -> valid (getb c' b) = true ->
    data (getb c' b) = disk_block (disk c) (blockno (getb c' b));
  ch_len : valid (getb c' b) = true -> length (data (getb c' b)) = BSIZE
}.

Lemma is_buf_core c c' bn i : core (getb c' i) = core (getb c i) -> is_buf c' bn i = is_buf c bn i.
Proof. intros (_ & Hd & Hb & _)%core_eq. unfold is_buf. by rewrite Hd, Hb. Qed.

Lemma changed_wf c c' H H' b : bio_wf c H -> changed c c' H H' b -> bio_wf c' H'.
Proof.
  intros Hw Hc. destruct Hc as [Hb Ho Hh Hdk Hp Hd Hu Hr Hl Hv Hcl Hln].
  assert (Hb' : is_buf c' (blockno (getb c' b)) b = true) by (unfold is_buf; rewrite Hd, !Z.eqb_refl; done).
  assert (Hid : forall bn i, is_buf c' bn i = true -> i = b -> bn = blockno (getb c' b)).
  { intros bn i Hi ->. unfold is_buf in Hi. bool_to_prop. done. }
  split; auto.
  - intros i j bn Hi Hj Hbi Hbj. destruct (decide (i = b)) as [->|Hib], (decide (j = b)) as [->|Hjb]; auto.
    + rewrite (Hid bn b Hbi eq_refl), (is_buf_core c c') in Hbj by auto. rewrite Hu in Hbj by auto. done.
    + rewrite (Hid bn b Hbj eq_refl), (is_buf_core c c') in Hbi by auto. rewrite Hu in Hbi by auto. done.
    + rewrite (is_buf_core c c') in Hbi, Hbj by auto. by apply (bw_uniq c H Hw i j bn).
  - intros i Hi. destruct (decide (i = b)) as [->|Hib]; [auto|].
    core_rw (Ho i Hib). by apply Hw.
  - intros i Hi. destruct (decide (i = b)) as [->|Hib]; [auto|].
    core_rw (Ho i Hib). by apply Hw.
  - intros i Hi HH. destruct (decide (i = b)) as [->|Hib]; [by rewrite HH in Hl|].
    core_rw (Ho i Hib). apply Hw; auto. by rewrite <- Hh.
  - intros i bn HH. destruct (decide (i = b)) as [->|Hib].
    + rewrite HH in Hl. destruct Hl as (<- & ? & ? & ?). auto.
    + rewrite (is_buf_core c c') by auto. rewrite Hh in HH by done.
      core_rw (Ho i Hib). by apply Hw.
  - intros i Hi. destruct (decide (i = b)) as [->|Hib]; [auto|].
    core_rw (Ho i Hib). by apply Hw.
  - intros i Hi. rewrite Hdk. destruct (decide (i = b)) as [->|Hib]; [auto|].
    core_rw (Ho i Hib). by apply Hw.
  - intros i Hi. destruct (decide (i = b)) as [->|Hib]; [auto|].
    core_rw (Ho i Hib). by apply Hw.
  - rewrite Hdk. apply Hw.
Qed.

(** What readers see after the change. *)
Lemma changed_obs c c' H H' b bn :
  bio_wf c H -> changed c c' H H' b ->
  view_of c' bn = (if decide (bn = blockno (getb c' b))
                   then if valid (getb c' b) then data (getb c' b) else disk_block (disk c) bn
                   else if is_buf c bn b then disk_block (disk c) bn else view_of c bn) /\
  refs_of c' bn = (if decide (bn = blockno (getb c' b)) then refcnt (getb c' b)
                   else if is_buf c bn b then 0 else refs_of c bn).
Proof.
  intros Hw Hc. pose proof (changed_wf c c' H H' b Hw Hc) as Hw'.
  destruct Hc as [Hb Ho _ Hdk _ Hd _ _ _ _ _ _]. unfold view_of, refs_of. rewrite Hdk.
  case_decide as Hbn.
  - assert (cached c' bn = Some b) as ->; [|done]. apply (cached_Some c' H' bn b Hw').
    split; [done|]. unfold is_buf. by rewrite Hd, Hbn, !Z.eqb_refl.
  - assert (Hno : is_buf c' bn b = false).
    { apply not_true_is_false. intros Hi. unfold is_buf in Hi. bool_to_prop. auto. }
    assert (Hsame : forall i, i <> b -> (cached c' bn = Some i <-> cached c bn = Some i)).
    { intros i Hi. rewrite (cached_Some c' H' bn i Hw'), (cached_Some c H bn i Hw).
      by rewrite (is_buf_core c c') by auto. }
    assert (Hnb : cached c' bn <> Some b).
    { intros E. apply (cached_Some c' H' bn b Hw') in E as [_ E]. congruence. }
    destruct (is_buf c bn b) eqn:Eb.
    + assert (cached c bn = Some b) as Ec by (apply (cached_Some c H bn b Hw); auto).
      assert (cached c' bn = None) as ->; [|done].
      destruct (cached c' bn) as [i|] eqn:Ei; [|done].
      assert (i <> b) as Hib by congruence. pose proof (proj1 (Hsame i Hib) eq_refl). congruence.
    + assert (cached c' bn = cached c bn) as ->.
      { destruct (cached c' bn) as [i|] eqn:Ei.
        - symmetry. apply Hsame; [congruence|done].
        - destruct (cached c bn) as [j|] eqn:Ej; [|done]. assert (j <> b).
          { intros ->. apply (cached_Some c H bn b Hw) in Ej as [_ ?]. congruence. }
          pose proof (proj2 (Hsame j ltac:(assumption)) eq_refl). congruence. }
      destruct (cached c bn) as [j|] eqn:Ej; [|done].
      assert (j <> b) as Hjb by (intros ->; apply (cached_Some c H bn b Hw) in Ej as [_ ?]; congruence).
      by core_rw (Ho j Hjb).
Qed.

(** A change that keeps the links keeps the list. *)
Lemma links_kept c c' H :
  bio_wf c H -> (forall i, next (getb c' i) = next (getb c i) /\ prev (getb c' i) = prev (getb c i)) ->
  exists l, path (nxc c') (pvc c') HEAD l HEAD /\ l ≡ₚ seq 0 NBUF.
Proof.
  intros Hw Hl. destruct (bw_lru c H Hw) as (l & Hp & Hperm). exists l. split; [|done].
  eapply path_ext; [..|exact Hp]; intros x _; apply Hl.
Qed.

Lemma lru_list c H : bio_wf c H ->
  exists l, path (nxc c) (pvc c) HEAD l HEAD /\ NoDup (HEAD :: l) /\ length l = NBUF /\
    (forall i, i ∈ l <-> (i < NBUF)%nat).
Proof.
  intros Hw. destruct (bw_lru c H Hw) as (l & Hp & Hperm). exists l.
  assert (Hin : forall i, i ∈ l <-> (i < NBUF)%nat) by (intros; rewrite Hperm, elem_of_seq; lia).
  split_and!; auto; [|by rewrite Hperm, length_seq]. apply NoDup_cons. split.
  - rewrite Hin. unfold HEAD. lia.
  - rewrite Hperm. apply NoDup_seq.
Qed.

(** The state [bread] leaves: buffer [b] has block [bn], one more
    reference, the lock and valid data. *)
Lemma bread_changed c c' H b bn :
  bio_wf c H -> (forall h, H !! h <> Some bn) -> H !! b = None -> (b < NBUF)%nat ->
  (forall j, (j < NBUF)%nat -> j <> b -> is_buf c bn j = false) ->
  (is_buf c bn b = true \/ refcnt (getb c b) = 0) ->
  refs_of c bn < 4294967295 -> disk c' = disk c -> writes c' = writes c ->
  (forall i, getb c' i = if decide (i = b) then
     Buf true D bn (SleepLock true me) (refs_of c bn + 1) (prev (getb c b)) (next (getb c b)) (view_of c bn)
     else getb c i) ->
  length (view_of c bn) = BSIZE -> 0 <= refs_of c bn ->
  changed c c' H (<[b := bn]> H) b.
Proof.
  intros Hw Hn HH Hb Hu Hor Href Hdk Hwr Hg Hlen Hr0.
  assert (Hgb := Hg b). rewrite decide_True in Hgb by done.
  split; rewrite ?Hgb; cbn [dev blockno refcnt lock valid data]; auto.
  - intros i Hi. by rewrite Hg, decide_False.
  - intros i Hi. by rewrite lookup_insert_ne.
  - apply (links_kept c c' H Hw). intros i. rewrite Hg. destruct (decide (i = b)) as [->|]; done.
  - lia.
  - rewrite lookup_insert_eq. split_and!; auto. lia.
  - lia.
Qed.

Lemma wf_view_len c H bn : bio_wf c H -> length (view_of c bn) = BSIZE.
Proof.
  intros Hw. unfold view_of. destruct (cached c bn) as [i|] eqn:E; [|apply Hw].
  apply (cached_Some c H bn i Hw) in E as [Hi _].
  destruct (valid (getb c i)) eqn:Ev; [by apply Hw|apply Hw].
Qed.

Lemma wf_refs_range c H bn : bio_wf c H -> 0 <= refs_of c bn < 4294967296.
Proof.
  intros Hw. unfold refs_of. destruct (cached c bn) as [i|] eqn:E; [|lia].
  apply (cached_Some c H bn i Hw) in E as [Hi _]. by apply Hw.
Qed.

(** The buffers that are in use cache different blocks. *)
Lemma all_used_size c H (U : gset Z) :
  bio_wf c H -> (forall b, (b < NBUF)%nat -> refcnt (getb c b) <> 0) ->
  (forall bn, 0 < refs_of c bn -> bn ∈ U) -> (NBUF <= size U)%nat.
Proof.
  intros Hw Hall HU. set (f := fun i => blockno (getb c i)).
  assert (Hid : forall i, (i < NBUF)%nat -> is_buf c (f i) i = true).
  { intros i Hi. unfold is_buf, f. destruct (bw_dev c H Hw i Hi) as [->|E]; [by rewrite !Z.eqb_refl|].
    by destruct (Hall i Hi). }
  assert (Hnd : NoDup (f <$> seq 0 NBUF)).
  { apply NoDup_fmap_2_strong; [|apply NoDup_seq]. intros i j Hi Hj E.
    rewrite !elem_of_seq in *. apply (bw_uniq c H Hw i j (f i)); try lia; [apply Hid; lia|].
    rewrite E. apply Hid. lia. }
  assert (Hsub : (list_to_set (f <$> seq 0 NBUF) : gset Z) ⊆ U).
  { intros bn. rewrite elem_of_list_to_set. intros (i & -> & Hi)%list_elem_of_fmap.
    rewrite elem_of_seq in Hi. apply HU. unfold refs_of.
    assert (cached c (f i) = Some i) as -> by (apply (cached_Some c H _ _ Hw); split; [lia|apply Hid; lia]).
    pose proof (bw_ref c H Hw i ltac:(lia)). pose proof (Hall i ltac:(lia)). lia. }
  apply subseteq_size in Hsub. rewrite size_list_to_set in Hsub by done.
  by rewrite length_fmap, length_seq in Hsub.
Qed.

(** *** [bread] *)

Ltac buf_cbn :=
  unfold set_valid, set_dev, set_blockno, set_lock, set_refcnt, set_prev, set_next, set_data;
  cbn [valid dev blockno lock refcnt prev next data disk].

(** Look up buffer [i] after updates of buffer [b]. *)
Ltac setb_at i b :=
  destruct (decide (i = b)) as [->|];
  [repeat (rewrite getb_setb, decide_True by done)|repeat (rewrite getb_setb, decide_False by done); try done].

(** What [bread] promises, for the buffer [b] that it picks. *)
Definition bread_post c H bn (b : nat) c' : Prop :=
  H !! b = None /\ writes c' = writes c /\ changed c c' H (<[b := bn]> H) b /\
  getb c' b = Buf true D bn (SleepLock true me) (refs_of c bn + 1) (prev (getb c b)) (next (getb c b)) (view_of c bn) /\
  (forall bn', bn' <> bn -> is_buf c bn' b = true -> view_of c bn' = disk_block (disk c) bn' /\ refs_of c bn' = 0).

Lemma bread_post_intro c c' H b bn :
  bio_wf c H -> (forall h, H !! h <> Some bn) -> H !! b = None -> (b < NBUF)%nat ->
  (forall j, (j < NBUF)%nat -> j <> b -> is_buf c bn j = false) ->
  (is_buf c bn b = true \/ refcnt (getb c b) = 0) ->
  refs_of c bn < 4294967295 -> disk c' = disk c -> writes c' = writes c ->
  (forall i, getb c' i = if decide (i = b) then
     Buf true D bn (SleepLock true me) (refs_of c bn + 1) (prev (getb c b)) (next (getb c b)) (view_of c bn)
     else getb c i) ->
  bread_post c H bn b c'.
Proof.
  intros Hw Hn HH Hb Hu Hor Href Hdk Hwr Hg. split_and!; auto.
  - eapply bread_changed; eauto; [by eapply wf_view_len|]. apply (wf_refs_range c H bn Hw).
  - by rewrite Hg, decide_True.
  - intros bn' Hne Hb'. destruct Hor as [Hid|H0]; [unfold is_buf in *; bool_to_prop; congruence|].
    assert (Hc : cached c bn' = Some b) by (apply (cached_Some c H bn' b Hw); auto).
    unfold view_of, refs_of. rewrite Hc, H0. split; [|done].
    destruct (valid (getb c b)) eqn:Ev; [|done]. unfold is_buf in Hb'. bool_to_prop.
    rewrite (bw_clean c H Hw b) by auto. congruence.
Qed.

(** The block is cached in [b]. *)
Lemma bread_hit c H bn b :
  bio_wf c H -> (forall h, H !! h <> Some bn) -> refs_of c bn < 4294967295 ->
  bget_find (S NBUF) (next (getb c HEAD)) D bn c = Ok (Some b) -> (b < NBUF)%nat -> is_buf c bn b = true ->
  exists c', bread me D bn c = Ok (b, c') /\ bread_post c H bn b c'.
Proof.
  intros Hw Hn Href Hfind Hb Hid. unfold bread, bget. rewrite Hfind. cbn [mbind outcome_bind].
  assert (Hcb : cached c bn = Some b) by (by apply (cached_Some c H bn b Hw)).
  assert (HHb : H !! b = None).
  { destruct (H !! b) as [bn'|] eqn:E; [|done]. destruct (bw_held c H Hw b bn' E) as (_ & Hid' & _).
    unfold is_buf in *. bool_to_prop. destruct (Hn b). congruence. }
  pose proof (wf_refs_range c H bn Hw) as Hrr.
  assert (Er : refs_of c bn = refcnt (getb c b)) by (unfold refs_of; by rewrite Hcb).
  assert (Ev : view_of c bn = if valid (getb c b) then data (getb c b) else disk_block (disk c) bn)
    by (unfold view_of; by rewrite Hcb).
  assert (Hids : dev (getb c b) = D /\ blockno (getb c b) = bn) by (unfold is_buf in Hid; bool_to_prop; auto).
  destruct Hids as [Hd Hbn].
  rewrite getb_setb, decide_True by done. buf_cbn. unfold acquiresleep.
  rewrite (bw_free c H Hw b Hb HHb). cbn [mbind outcome_bind].
  do 2 (rewrite getb_setb, decide_True by done; buf_cbn).
  assert (Hu32 : u32 (refcnt (getb c b) + 1) = refs_of c bn + 1) by (rewrite Er, u32_id; lia).
  assert (Huq : forall j, (j < NBUF)%nat -> j <> b -> is_buf c bn j = false).
  { intros j Hj Hjb. apply not_true_is_false. intros E. apply Hjb. by apply (bw_uniq c H Hw j b bn). }
  destruct (valid (getb c b)) eqn:Evd; cbn [negb]; eexists; (split; [done|]); apply bread_post_intro; auto.
  - intros i. setb_at i b. buf_cbn. by rewrite Hu32, Hd, Hbn, Evd, Ev.
  - intros i. unfold virtio_disk_rw. setb_at i b. buf_cbn. by rewrite Hu32, Hd, Hbn, Ev.
Qed.

(** The block is not cached and [b] is recycled. *)
Lemma bread_miss c H bn b :
  bio_wf c H -> (forall h, H !! h <> Some bn) ->
  bget_find (S NBUF) (next (getb c HEAD)) D bn c = Ok None ->
  (forall j, (j < NBUF)%nat -> is_buf c bn j = false) ->
  bget_lru (S NBUF) (prev (getb c HEAD)) c = Ok (Some b) -> (b < NBUF)%nat -> refcnt (getb c b) = 0 ->
  exists c', bread me D bn c = Ok (b, c') /\ bread_post c H bn b c'.
Proof.
  intros Hw Hn Hfind Hno Hlru Hb Hr0. unfold bread, bget. rewrite Hfind, Hlru. cbn [mbind outcome_bind].
  assert (HHb : H !! b = None).
  { destruct (H !! b) as [bn'|] eqn:E; [|done]. destruct (bw_held c H Hw b bn' E) as (_ & _ & _ & _ & ?). lia. }
  assert (Hc : cached c bn = None).
  { destruct (cached c bn) as [i|] eqn:E; [|done]. apply (cached_Some c H bn i Hw) in E as [? E].
    by rewrite Hno in E. }
  assert (Er : refs_of c bn = 0) by (unfold refs_of; by rewrite Hc).
  assert (Ev : view_of c bn = disk_block (disk c) bn) by (unfold view_of; by rewrite Hc).
  rewrite !setb_setb, getb_setb, decide_True by done. buf_cbn. unfold acquiresleep.
  rewrite (bw_free c H Hw b Hb HHb). cbn [mbind outcome_bind].
  rewrite !setb_setb, getb_setb, decide_True by done. buf_cbn. cbn [negb].
  eexists; (split; [done|]); apply bread_post_intro; auto; [lia|].
  intros i. unfold virtio_disk_rw. rewrite !setb_setb. setb_at i b. buf_cbn. by rewrite Er, Ev.
Qed.

Lemma bread_run c H bn :
  bio_wf c H -> (forall h, H !! h <> Some bn) -> refs_of c bn < 4294967295 ->
  (0 < refs_of c bn \/ exists U : gset Z, (size U < NBUF)%nat /\ forall b, 0 < refs_of c b -> b ∈ U) ->
  exists b c', bread me D bn c = Ok (b, c') /\ bread_post c H bn b c'.
Proof.
  intros Hw Hn Href Hroom. destruct (lru_list c H Hw) as (l & Hp & Hnd & Hlen & Hin).
  apply NoDup_cons in Hnd as [HnH Hnd].
  destruct (bget_find_run c bn l HEAD (S NBUF) Hp HnH) as (r & Hfind & Hr); [lia|].
  unfold nxc in Hfind. destruct r as [b|].
  { destruct Hr as [Hb%Hin Hid]. exists b. by apply bread_hit. }
  assert (Hno : forall j, (j < NBUF)%nat -> is_buf c bn j = false) by (intros j Hj; apply Hr, Hin, Hj).
  destruct (bget_lru_run c (reverse l) HEAD (S NBUF)) as (r & Hlru & Hr').
  { by apply path_rev. } { by rewrite elem_of_reverse. } { rewrite length_reverse. lia. }
  unfold pvc in Hlru. destruct r as [b|].
  - destruct Hr' as [Hb Hr0]. rewrite elem_of_reverse, Hin in Hb. exists b. by apply bread_miss.
  - exfalso. destruct Hroom as [Hpos|(U & HU & Hsub)].
    + unfold refs_of in Hpos. destruct (cached c bn) as [i|] eqn:E; [|lia].
      apply (cached_Some c H bn i Hw) in E as [Hi Hid]. by rewrite Hno in Hid.
    + assert (NBUF <= size U)%nat; [|lia]. apply (all_used_size c H); auto.
      intros b Hb. apply Hr'. by rewrite elem_of_reverse, Hin.
Qed.

(** *** [brelse] *)

Lemma nxc_next k v c x : nxc (setb k (set_next v) c) x = upd (nxc c) k v x.
Proof. unfold nxc, upd. rewrite getb_setb. case_decide; [by subst|done]. Qed.
Lemma nxc_prev k v c x : nxc (setb k (set_prev v) c) x = nxc c x.
Proof. unfold nxc. rewrite getb_setb. case_decide; [by subst|done]. Qed.
Lemma pvc_prev k v c x : pvc (setb k (set_prev v) c) x = upd (pvc c) k v x.
Proof. unfold pvc, upd. rewrite getb_setb. case_decide; [by subst|done]. Qed.
Lemma pvc_next k v c x : pvc (setb k (set_next v) c) x = pvc c x.
Proof. unfold pvc. rewrite getb_setb. case_decide; [by subst|done]. Qed.

Lemma core_setb k f c i :
  (forall x, core (f x) = core x) -> core (getb (setb k f c) i) = core (getb c i).
Proof. intros Hf. rewrite getb_setb. case_decide; [subst; apply Hf|done]. Qed.

Lemma core_relink b c i : core (getb (relink b c) i) = core (getb c i).
Proof. unfold relink. rewrite !core_setb; done. Qed.

Lemma upd_ext f g k v x : f x = g x -> upd f k v x = upd g k v x.
Proof. unfold upd. by case_decide. Qed.

Lemma relink_links b c x :
  b <> nxc c b -> b <> HEAD ->
  let nx := upd (nxc c) (pvc c b) (nxc c b) in
  let pv := upd (pvc c) (nxc c b) (pvc c b) in
  nxc (relink b c) x = upd (upd nx b (nx HEAD)) HEAD b x /\
  pvc (relink b c) x = upd (upd pv b HEAD) (nx HEAD) b x.
Proof.
  intros Hn Hh nx pv. unfold relink.
  set (c1 := setb (next (getb c b)) (set_prev (prev (getb c b))) c).
  assert (N1 : forall y, nxc c1 y = nxc c y) by (intros; apply nxc_prev).
  assert (P1 : forall y, pvc c1 y = pv y) by (intros; apply pvc_prev).
  assert (Hp1 : prev (getb c1 b) = pvc c b) by (fold (pvc c1 b); rewrite P1; unfold pv, upd; by rewrite decide_False).
  assert (Hn1 : next (getb c1 b) = nxc c b) by (fold (nxc c1 b); apply N1).
  rewrite Hp1, Hn1. set (c2 := setb (pvc c b) (set_next (nxc c b)) c1).
  assert (N2 : forall y, nxc c2 y = nx y) by (intros; unfold c2; rewrite nxc_next; by apply upd_ext).
  assert (P2 : forall y, pvc c2 y = pv y) by (intros; unfold c2; by rewrite pvc_next).
  fold (nxc c2 HEAD). rewrite N2. set (c3 := setb b (set_next (nx HEAD)) c2).
  assert (N3 : forall y, nxc c3 y = upd nx b (nx HEAD) y) by (intros; unfold c3; rewrite nxc_next; by apply upd_ext).
  set (c4 := setb b (set_prev HEAD) c3).
  assert (N4 : forall y, nxc c4 y = upd nx b (nx HEAD) y) by (intros; unfold c4; by rewrite nxc_prev).
  assert (P4 : forall y, pvc c4 y = upd pv b HEAD y).
  { intros. unfold c4, c3. rewrite pvc_prev. apply upd_ext. by rewrite pvc_next. }
  assert (Hn4 : next (getb c4 HEAD) = nx HEAD).
  { fold (nxc c4 HEAD). rewrite N4. unfold upd at 1. by rewrite decide_False by auto. }
  rewrite Hn4. split.
  - rewrite nxc_next. apply upd_ext. by rewrite nxc_prev.
  - rewrite pvc_next, pvc_prev. by apply upd_ext.
Qed.

Lemma relink_path c l b :
  path (nxc c) (pvc c) HEAD l HEAD -> NoDup (HEAD :: l) -> b ∈ l ->
  exists l', path (nxc (relink b c)) (pvc (relink b c)) HEAD l' HEAD /\ l' ≡ₚ l.
Proof.
  intros Hp Hnd Hb. apply list_elem_of_split in Hb as (l1 & l2 & ->).
  exists (b :: l1 ++ l2). split; [|by rewrite Permutation_middle].
  pose proof Hp as Hp0. apply path_app in Hp0 as [Hp1 Hp2].
  assert (Hnb : nxc c b = hd HEAD l2) by (eapply path_head; exact Hp2).
  assert (Hpb : pvc c b = endof HEAD l1) by (eapply path_last; exact Hp1).
  pose proof (path_unlink _ _ _ _ _ _ Hnd Hp) as Hu. rewrite <- Hnb, <- Hpb in Hu.
  rewrite NoDup_cons, NoDup_app, NoDup_cons in Hnd. destruct Hnd as (HnH & Hnd1 & Hd & Hb2 & Hnd2).
  rewrite elem_of_app, elem_of_cons in HnH.
  assert (Hb1 : b ∉ l1) by (intros Hin; apply (Hd b Hin), elem_of_cons; by left).
  assert (HbH : b <> HEAD) by (intros ->; tauto).
  assert (Hnbb : b <> nxc c b).
  { rewrite Hnb. intros E. destruct (hd_in HEAD l2) as [E'|E']; [congruence|]. by rewrite <- E in E'. }
  apply path_front with (b := b) in Hu; [|done|by rewrite elem_of_app; tauto|].
  2: { rewrite NoDup_cons, NoDup_app, elem_of_app. split_and!; auto; [tauto|].
       intros x Hx Hx2. apply (Hd x Hx), elem_of_cons. by right. }
  eapply path_ext; [..|exact Hu]; intros x _; by apply relink_links.
Qed.

(** A buffer of block [bn] that the process holds changes its data, its
    references or its lock. *)
Lemma held_changed c c' H H' b bn lk r d :
  bio_wf c H -> H !! b = Some bn -> disk c' = disk c ->
  (exists l, path (nxc c') (pvc c') HEAD l HEAD /\ l ≡ₚ seq 0 NBUF) ->
  (forall i, i <> b -> core (getb c' i) = core (getb c i)) -> (forall i, i <> b -> H' !! i = H !! i) ->
  core (getb c' b) = Buf true D bn lk r 0 0 d ->
  0 <= r < 4294967296 -> length d = BSIZE -> (r = 0 -> d = disk_block (disk c) bn) ->
  match H' !! b with
  | None => locked lk = false
  | Some bn' => bn' = bn /\ lk = SleepLock true me /\ 1 <= r
  end ->
  changed c c' H H' b /\
  (forall bn', view_of c' bn' = if decide (bn' = bn) then d else view_of c bn') /\
  (forall bn', refs_of c' bn' = if decide (bn' = bn) then r else refs_of c bn').
Proof.
  intros Hw HH Hdk Hp Ho Hho Hcb Hr Hd Hcl Hl.
  destruct (bw_held c H Hw b bn HH) as (Hb & Hid & _).
  assert (E : valid (getb c' b) = true /\ dev (getb c' b) = D /\ blockno (getb c' b) = bn /\
    lock (getb c' b) = lk /\ refcnt (getb c' b) = r /\ data (getb c' b) = d).
  { unfold core, set_next, set_prev in Hcb. cbn [valid dev blockno lock refcnt prev next data] in Hcb.
    injection Hcb. auto 10. }
  destruct E as (Ev & Ed & Eb & El & Er & Et).
  assert (Hc : changed c c' H H' b).
  { split; rewrite ?Ev, ?Ed, ?Eb, ?El, ?Er, ?Et; auto.
    - intros j Hj Hjb. apply not_true_is_false. intros E. apply Hjb. by apply (bw_uniq c H Hw j b bn).
    - destruct (H' !! b) as [bn'|]; [|done]. destruct Hl as (-> & -> & ?). auto. }
  assert (Hne : forall bn', bn' <> bn -> is_buf c bn' b = false).
  { intros bn' Hne. apply not_true_is_false. intros E. unfold is_buf in *. bool_to_prop. congruence. }
  split; [done|]. split; intros bn'; destruct (changed_obs c c' H H' b bn' Hw Hc) as [Hv Hrf];
    rewrite ?Hv, ?Hrf, Eb, ?Ev, ?Er, ?Et; (dcase; [done|by rewrite Hne]).
Qed.

Lemma held_view c H b bn :
  bio_wf c H -> H !! b = Some bn ->
  cached c bn = Some b /\ view_of c bn = data (getb c b) /\ refs_of c bn = refcnt (getb c b) /\
  core (getb c b) = Buf true D bn (SleepLock true me) (refs_of c bn) 0 0 (view_of c bn).
Proof.
  intros Hw HH. destruct (bw_held c H Hw b bn HH) as (Hb & Hid & Hlk & Hv & _).
  assert (Hc : cached c bn = Some b) by (apply (cached_Some c H bn b Hw); auto).
  unfold view_of, refs_of. rewrite Hc, Hv. split_and!; auto.
  unfold is_buf in Hid. bool_to_prop. unfold core. buf_cbn. congruence.
Qed.

Lemma bwrite_run c H b bn :
  bio_wf c H -> H !! b = Some bn ->
  exists c', bwrite me b c = Ok c' /\ bio_wf c' H /\ (forall bn', view_of c' bn' = view_of c bn') /\
    (forall bn', disk_block (disk c') bn' = if decide (bn' = bn) then view_of c bn else disk_block (disk c) bn') /\
    writes c' = writes c ++ [(bn, view_of c bn)] /\ (forall bn', refs_of c' bn' = refs_of c bn').
Proof.
  intros Hw HH. destruct (bw_held c H Hw b bn HH) as (Hb & Hid & Hlk & Hv & Hr).
  destruct (held_view c H b bn Hw HH) as (Hc & Hvw & _ & _).
  assert (Hbn : blockno (getb c b) = bn) by (unfold is_buf in Hid; bool_to_prop; done).
  unfold bwrite. rewrite Hlk. unfold holdingsleep. cbn [locked lk_pid andb]. rewrite Z.eqb_refl. cbn [negb].
  eexists. split; [done|]. unfold virtio_disk_rw. rewrite Hbn, Hvw.
  set (c' := Bcache _ _ _).
  assert (Hdk : forall bn', disk_block (disk c') bn' =
    if decide (bn' = bn) then data (getb c b) else disk_block (disk c) bn').
  { intros bn'. unfold disk_block. cbn [c' disk]. case_decide; [subst bn'; by rewrite lookup_insert_eq|].
    by rewrite lookup_insert_ne by auto. }
  split_and!; auto.
  - destruct Hw. split; auto; change (getb c') with (getb c).
    + intros i Hi Hri Hvi Hdi. rewrite Hdk. case_decide as E; [|auto].
      assert (i = b) as ->; [|lia]. apply (bw_uniq0 i b bn); auto. unfold is_buf. by rewrite Hdi, E, !Z.eqb_refl.
    + intros bn'. rewrite Hdk. case_decide; auto.
  - intros bn'. unfold view_of. change (cached c') with (cached c). change (getb c') with (getb c).
    rewrite Hdk. case_decide as E; [subst bn'; by rewrite Hc, Hv|done].
Qed.

Lemma brelse_run c H b bn :
  bio_wf c H -> H !! b = Some bn -> (refs_of c bn = 1 -> view_of c bn = disk_block (disk c) bn) ->
  exists c', brelse me b c = Ok c' /\ writes c' = writes c /\ disk c' = disk c /\
    changed c c' H (delete b H) b /\
    (forall bn', view_of c' bn' = view_of c bn') /\
    (forall bn', refs_of c' bn' = refs_of c bn' - if decide (bn' = bn) then 1 else 0).
Proof.
  intros Hw HH Hcl. destruct (bw_held c H Hw b bn HH) as (Hb & Hid & Hlk & Hv & Hr).
  destruct (held_view c H b bn Hw HH) as (Hc & Hvw & Hrf & Hcore).
  pose proof (wf_refs_range c H bn Hw) as Hrr.
  unfold brelse. rewrite Hlk. unfold holdingsleep. cbn [locked lk_pid andb]. rewrite Z.eqb_refl. cbn [negb].
  cbv zeta. rewrite setb_setb. set (c1 := setb b _ c).
  assert (Hc1 : forall i, core (getb c1 i) = if decide (i = b)
    then Buf true D bn (SleepLock false 0) (refs_of c bn - 1) 0 0 (view_of c bn) else core (getb c i)).
  { intros i. unfold c1. rewrite getb_setb. case_decide; [|done].
    unfold core, set_refcnt, set_lock, set_next, set_prev in *.
    cbn [valid dev blockno lock refcnt prev next data] in *. injection Hcore as -> -> -> _ -> ->.
    f_equal. rewrite u32_id; lia. }
  assert (Hl1 : forall i, next (getb c1 i) = next (getb c i) /\ prev (getb c1 i) = prev (getb c i)).
  { intros i. unfold c1. rewrite getb_setb. case_decide; [subst|]; done. }
  assert (Hfin : forall c', disk c' = disk c -> (forall i, core (getb c' i) = core (getb c1 i)) ->
    (exists l, path (nxc c') (pvc c') HEAD l HEAD /\ l ≡ₚ seq 0 NBUF) ->
    changed c c' H (delete b H) b /\ (forall bn', view_of c' bn' = view_of c bn') /\
    (forall bn', refs_of c' bn' = refs_of c bn' - if decide (bn' = bn) then 1 else 0)).
  { intros c' Hdk Hcr Hp.
    destruct (held_changed c c' H (delete b H) b bn (SleepLock false 0) (refs_of c bn - 1) (view_of c bn))
      as (Hch & Hvv & Hrr'); auto.
    - intros i Hi. by rewrite Hcr, Hc1, decide_False.
    - intros i Hi. by rewrite lookup_delete_ne.
    - by rewrite Hcr, Hc1, decide_True.
    - lia.
    - by eapply wf_view_len.
    - intros. apply Hcl. lia.
    - by rewrite lookup_delete_eq.
    - split; [done|]. split; intros bn'; rewrite ?Hvv, ?Hrr'; dcase; subst; auto; lia. }
  assert (Hp1 := links_kept c c1 H Hw Hl1).
  destruct (refcnt (getb c1 b) =? 0).
  - eexists. split; [done|]. split_and!; [done|done|..]; apply Hfin; auto using core_relink.
    all: destruct (lru_list c H Hw) as (l & Hp & Hnd & _ & Hin).
    all: destruct (relink_path c1 l b) as (l' & Hp' & Hperm); [|done|by apply Hin|].
    all: try (eapply path_ext; [..|exact Hp]; intros x _; apply Hl1).
    all: exists l'; split; [done|]. all: rewrite Hperm. all: apply NoDup_Permutation; [by apply NoDup_cons in Hnd as []|apply NoDup_seq|].
    all: intros i; rewrite Hin, elem_of_seq; lia.
  - eexists. split; [done|]. split_and!; [done|done|..]; apply Hfin; auto.
Qed.

(** A reference more or less, or new data, on a held buffer. *)
Lemma held_update c H b bn f r d :
  bio_wf c H -> H !! b = Some bn ->
  (forall x, next (f x) = next x /\ prev (f x) = prev x) ->
  core (f (getb c b)) = Buf true D bn (SleepLock true me) r 0 0 d ->
  1 <= r < 4294967296 -> length d = BSIZE ->
  bio_wf (setb b f c) H /\
  (forall bn', view_of (setb b f c) bn' = if decide (bn' = bn) then d else view_of c bn') /\
  (forall bn', refs_of (setb b f c) bn' = if decide (bn' = bn) then r else refs_of c bn').
Proof.
  intros Hw HH Hf Hcore Hr Hd.
  destruct (held_changed c (setb b f c) H H b bn (SleepLock true me) r d) as (Hch & Hv & Hrf); auto.
  - apply (links_kept c _ H Hw). intros i. rewrite getb_setb. dcase; [subst i; apply Hf|done].
  - intros i Hi. by rewrite getb_setb, decide_False.
  - by rewrite getb_setb, decide_True.
  - lia.
  - lia.
  - rewrite HH. split_and!; auto. lia.
  - split; [by eapply changed_wf|done].
Qed.

#[local] Instance bio_cache : BlockCache bcache := {
  cread := bread me D;
  cwrite := bwrite me;
  crelse := brelse me;
  cpin := bpin;
  cunpin := bunpin;
  cdata c b := data (getb c b);
  cset b d := setb b (set_data d);
  cblockno c b := blockno (getb c b);
  cview := view_of;
  cdisk c := disk_block (disk c);
  cwrites := writes;
  crefs := refs_of;
  cwf := bio_wf
}.

Lemma bio_law_read c H bn :
  cwf c H -> (forall h, H !! h <> Some bn) -> croom c bn -> crefs c bn < 4294967295 ->
  exists h c', cread bn c = Ok (h, c') /\ H !! h = None /\ cwf c' (<[h := bn]> H) /\ csame c c' /\
    (forall b, crefs c' b = crefs c b + if decide (b = bn) then 1 else 0).
Proof.
  intros Hw Hn Hroom Href. destruct (bread_run c H bn Hw Hn Href Hroom) as (b & c' & Hrun & Hb).
  destruct Hb as (HH & Hwr & Hch & Hgb & Hoth). exists b, c'.
  assert (Hobs := fun bn' => changed_obs c c' H _ b bn' Hw Hch). rewrite Hgb in Hobs.
  cbn [blockno valid data refcnt] in Hobs.
  split_and!; auto; [by eapply changed_wf|split; auto|].
  - intros bn'. destruct (Hobs bn') as [Hv _]. cbn. rewrite Hv. dcase; [by subst|].
    destruct (is_buf c bn' b) eqn:E; [|done]. symmetry. by apply Hoth.
  - cbn. intros bn'. by rewrite (ch_disk _ _ _ _ _ Hch).
  - intros bn'. destruct (Hobs bn') as [_ Hr]. cbn. rewrite Hr. dcase; [by subst|].
    destruct (is_buf c bn' b) eqn:E; [|lia]. destruct (Hoth bn') as [_ ->]; auto.
Qed.

Lemma bio_laws : BlockCacheLaws bcache.
Proof.
  split.
  - intros c H h bn Hw HH. cbn. destruct (held_view c H h bn Hw HH) as (_ & Hv & Hr & _).
    destruct (bw_held c H Hw h bn HH) as (_ & Hid & _ & _ & Hr1).
    unfold is_buf in Hid. bool_to_prop. split_and!; auto. lia.
  - intros c H bn Hw. by apply (wf_refs_range c H).
  - intros c H bn Hw. split; [by eapply wf_view_len|apply Hw].
  - intros c H bn Hw Hr. cbn in *. unfold view_of, refs_of in *.
    destruct (cached c bn) as [i|] eqn:E; [|done].
    apply (cached_Some c H bn i Hw) in E as [Hi Hid]. destruct (valid (getb c i)) eqn:Ev; [|done].
    unfold is_buf in Hid. bool_to_prop. rewrite (bw_clean c H Hw i) by auto. congruence.
  - exact bio_law_read.
  - intros c H h bn d Hw HH Hd. cbn. destruct (held_view c H h bn Hw HH) as (_ & _ & Hr & Hcore).
    destruct (bw_held c H Hw h bn HH) as (_ & _ & _ & _ & Hr1). pose proof (wf_refs_range c H bn Hw).
    destruct (held_update c H h bn (set_data d) (refs_of c bn) d) as (Hw' & Hv & Hrf); auto; [|lia|].
    { unfold core in *. revert Hcore. buf_cbn. congruence. }
    split_and!; auto. intros b. rewrite Hrf. dcase; congruence.
  - intros c H h bn Hw HH. by apply bwrite_run.
  - intros c H h bn Hw HH Hcl. destruct (brelse_run c H h bn Hw HH Hcl) as (c' & Hrun & Hwr & Hdk & Hch & Hv & Hr).
    exists c'. split_and!; auto; [by eapply changed_wf|]. split; auto. intros b. cbn. by rewrite Hdk.
  - intros c H h bn Hw HH Href. cbn in *. destruct (held_view c H h bn Hw HH) as (_ & _ & Hr & Hcore).
    pose proof (wf_refs_range c H bn Hw).
    destruct (held_update c H h bn (fun x => set_refcnt (u32 (refcnt x + 1)) x) (refs_of c bn + 1) (view_of c bn))
      as (Hw' & Hv & Hrf); auto; [|lia|by eapply wf_view_len|].
    { unfold core in *. revert Hcore. buf_cbn. intros E. injection E as -> -> -> -> _ ->.
      f_equal. rewrite <- Hr, u32_id; lia. }
    unfold bpin. split_and!; auto; [split; auto|].
    + intros b. cbn. rewrite Hv. dcase; congruence.
    + intros b. rewrite Hrf. dcase; [subst; done|lia].
  - intros c H h bn Hw HH Href. cbn in *. destruct (held_view c H h bn Hw HH) as (_ & _ & Hr & Hcore).
    pose proof (wf_refs_range c H bn Hw).
    destruct (held_update c H h bn (fun x => set_refcnt (u32 (refcnt x - 1)) x) (refs_of c bn - 1) (view_of c bn))
      as (Hw' & Hv & Hrf); auto; [|lia|by eapply wf_view_len|].
    { unfold core in *. revert Hcore. buf_cbn. intros E. injection E as -> -> -> -> _ ->.
      f_equal. rewrite <- Hr, u32_id; lia. }
    unfold bunpin. split_and!; auto; [split; auto|].
    + intros b. cbn. rewrite Hv. dcase; congruence.
    + intros b. rewrite Hrf. dcase; [subst; done|lia].
Qed.

End Instance.

(** ** Start-up *)

Lemma binit_buf d i : (i < NBUF)%nat ->
  valid (getb (binit d) i) = false /\ dev (getb (binit d) i) = 0 /\
  refcnt (getb (binit d) i) = 0 /\ locked (lock (getb (binit d) i)) = false.
Proof.
  intros Hi.
  assert (H : forallb (fun i => negb (valid (getb (binit d) i)) && (dev (getb (binit d) i) =? 0) &&
    (refcnt (getb (binit d) i) =? 0) && negb (locked (lock (getb (binit d) i)))) (seq 0 NBUF) = true)
    by (vm_compute; reflexivity).
  rewrite forallb_forall in H. specialize (H i). rewrite in_seq in H.
  specialize (H ltac:(lia)). bool_to_prop. auto.
Qed.

Lemma binit_path d : path (nxc (binit d)) (pvc (binit d)) HEAD (reverse (seq 0 NBUF)) HEAD.
Proof. vm_compute. repeat split. Qed.

Lemma binit_disk d : disk (binit d) = d /\ writes (binit d) = [].
Proof. vm_compute. split; reflexivity. Qed.

#[global] Opaque binit.

Lemma binit_wf me D d :
  D <> 0 -> (forall bn, length (disk_block d bn) = BSIZE) ->
  bio_wf me D (binit d) ∅ /\ (forall bn, refs_of D (binit d) bn = 0) /\
  (forall bn, view_of D (binit d) bn = disk_block d bn) /\ disk (binit d) = d /\ writes (binit d) = [].
Proof.
  intros HD Hlen.
  destruct (binit_disk d) as [Hd Hwr].
  assert (Hno : forall bn i, (i < NBUF)%nat -> is_buf D (binit d) bn i = false).
  { intros bn i Hi. destruct (binit_buf d i Hi) as (_ & Hdv & _). unfold is_buf. rewrite Hdv.
    by rewrite (proj2 (Z.eqb_neq 0 D)) by lia. }
  assert (Hw : bio_wf me D (binit d) ∅).
  { split; try (intros i Hi; destruct (binit_buf d i Hi) as (? & ? & ? & ?); auto; try lia; try congruence).
    - exists (reverse (seq 0 NBUF)). split; [apply binit_path|]. apply reverse_Permutation.
    - intros i j bn Hi Hj H. rewrite (Hno bn i Hi) in H. discriminate H.
    - intros i bn H. by rewrite lookup_empty in H.
    - by rewrite Hd. }
  assert (Hc : forall bn, cached D (binit d) bn = None).
  { intros bn. destruct (cached D (binit d) bn) as [i|] eqn:E; [|done].
    apply (cached_Some me D _ ∅ bn i Hw) in E as [Hi E]. rewrite (Hno bn i Hi) in E. discriminate E. }
  split_and!; auto; intros bn; unfold refs_of, view_of; rewrite Hc; [done|by rewrite Hd].
Qed.
