(* ===== verification/Log.v ===== *)
(** * kernel/log.c: the write-ahead log

    The functions of log.c on top of a buffer cache (class [BlockCache] of
    BioTheory.v).  [log.dev] is the device that the cache is for.  The
    in-memory header is a counter and an array of [LOGSIZE] block numbers; on
    disk, field [n] of [struct logheader] is at offset 0 and [block[i]] at
    offset [4 + 4 * i] of block [log.start]. *)
From S2P Require Import Prelude Block Bio BioTheory.

Definition MAXOPBLOCKS : Z := 10.
Definition LOGSIZE : Z := MAXOPBLOCKS * 3.

Record log := Log {
  start : Z;
  size : Z;
  outstanding : Z;
  committing : bool;
  lh_n : Z;
  lh_block : list Z
}.

Definition set_outstanding v l := Log (start l) (size l) v (committing l) (lh_n l) (lh_block l).
Definition set_committing v l := Log (start l) (size l) (outstanding l) v (lh_n l) (lh_block l).
Definition set_lh_n v l := Log (start l) (size l) (outstanding l) (committing l) v (lh_block l).
Definition set_lh_block i v l :=
  Log (start l) (size l) (outstanding l) (committing l) (lh_n l) (<[i := v]> (lh_block l)).

(** [log] is zero-initialised static data. *)
Definition log0 : log := Log 0 0 0 false 0 (replicate (Z.to_nat LOGSIZE) 0).

(** [log.lh.block[i]]. *)
Definition lh_at (l : log) (i : nat) : Z := default 0 (lh_block l !! i).

Section Log.
Context {C : Type} {HC : BlockCache C}.

(** The loop of [install_trans]: [k] blocks are left, the next is [tail]. *)
Fixpoint install_trans_loop (k tail : nat) (recovering : bool) (l : log) (c : C) : outcome C :=
  match k with
  | O => Ok c
  | S k' =>
      '(lbuf, c) ← cread (start l + Z.of_nat tail + 1) c;
      '(dbuf, c) ← cread (lh_at l tail) c;
      let c := cset dbuf (cdata c lbuf) c in
      c ← cwrite dbuf c;
      let c := if negb recovering then cunpin dbuf c else c in
      c ← crelse lbuf c;
      c ← crelse dbuf c;
      install_trans_loop k' (S tail) recovering l c
  end.

Definition install_trans (recovering : bool) (l : log) (c : C) : outcome C :=
  install_trans_loop (Z.to_nat (lh_n l)) 0 recovering l c.

(** The loop of [read_head], on the header block's data. *)
Fixpoint read_head_loop (k i : nat) (d : block) (l : log) : log :=
  match k with
  | O => l
  | S k' => read_head_loop k' (S i) d (set_lh_block i (s32 (get32 d (4 + 4 * i))) l)
  end.

Definition read_head (l : log) (c : C) : outcome (log * C) :=
  '(buf, c) ← cread (start l) c;
  let l := set_lh_n (s32 (get32 (cdata c buf) 0)) l in
  let l := read_head_loop (Z.to_nat (lh_n l)) 0 (cdata c buf) l in
  c ← crelse buf c;
  Ok (l, c).

(** The loop of [write_head]. *)
Fixpoint write_head_loop (k i : nat) (l : log) (d : block) : block :=
  match k with
  | O => d
  | S k' => write_head_loop k' (S i) l (put32 d (4 + 4 * i) (lh_at l i))
  end.

Definition write_head (l : log) (c : C) : outcome C :=
  '(buf, c) ← cread (start l) c;
  let d := put32 (cdata c buf) 0 (lh_n l) in
  let c := cset buf (write_head_loop (Z.to_nat (lh_n l)) 0 l d) c in
  c ← cwrite buf c;
  crelse buf c.

Definition recover_from_log (l : log) (c : C) : outcome (log * C) :=
  '(l, c) ← read_head l c;
  c ← install_trans true l c;
  let l := set_lh_n 0 l in
  c ← write_head l c;
  Ok (l, c).

(** [sb->logstart] and [sb->nlog]; [sizeof(struct logheader)] is
    [4 + 4 * LOGSIZE]. *)
Definition initlog (logstart nlog : Z) (c : C) : outcome (log * C) :=
  if Z.of_nat BSIZE <=? 4 + 4 * LOGSIZE then Panic "initlog: too big logheader"
  else
    let l := Log (s32 logstart) (s32 nlog) (outstanding log0) (committing log0) (lh_n log0) (lh_block log0) in
    recover_from_log l c.

(** One pass of the loop of [begin_op]: sleeping is [Blocked]. *)
Definition begin_op (l : log) : outcome log :=
  if committing l then Blocked
  else if LOGSIZE <? lh_n l + (outstanding l + 1) * MAXOPBLOCKS then Blocked
  else Ok (set_outstanding (outstanding l + 1) l).

(** The first critical section of [end_op]: the flag is [do_commit]. *)
Definition end_op_start (l : log) : outcome (bool * log) :=
  let l := set_outstanding (outstanding l - 1) l in
  if committing l then Panic "log.committing"
  else if outstanding l =? 0 then Ok (true, set_committing true l)
  else Ok (false, l).

(** The loop of [write_log]. *)
Fixpoint write_log_loop (k tail : nat) (l : log) (c : C) : outcome C :=
  match k with
  | O => Ok c
  | S k' =>
      '(to, c) ← cread (start l + Z.of_nat tail + 1) c;
      '(from, c) ← cread (lh_at l tail) c;
      let c := cset to (cdata c from) c in
      c ← cwrite to c;
      c ← crelse from c;
      c ← crelse to c;
      write_log_loop k' (S tail) l c
  end.

Definition write_log (l : log) (c : C) : outcome C := write_log_loop (Z.to_nat (lh_n l)) 0 l c.

Definition commit (l : log) (c : C) : outcome (log * C) :=
  if 0 <? lh_n l then
    c ← write_log l c;
    c ← write_head l c;
    c ← install_trans false l c;
    let l := set_lh_n 0 l in
    c ← write_head l c;
    Ok (l, c)
  else Ok (l, c).

Definition end_op (l : log) (c : C) : outcome (log * C) :=
  '(do_commit, l) ← end_op_start l;
  if (do_commit : bool) then
    '(l, c) ← commit l c;
    Ok (set_committing false l, c)
  else Ok (l, c).

(** The absorption loop of [log_write]. *)
Fixpoint log_write_find (k i : nat) (bn : Z) (l : log) : nat :=
  match k with
  | O => i
  | S k' => if lh_at l i =? bn then i else log_write_find k' (S i) bn l
  end.

(** [b->blockno] is unsigned and is compared with, and stored in, an [int]. *)
Definition log_write (b : nat) (l : log) (c : C) : outcome (log * C) :=
  if (LOGSIZE <=? lh_n l) || (size l - 1 <=? lh_n l) then Panic "too big a transaction"
  else if outstanding l <? 1 then Panic "log_write outside of trans"
  else
    let bn := s32 (cblockno c b) in
    let i := log_write_find (Z.to_nat (lh_n l)) 0 bn l in
    let l := set_lh_block i bn l in
    if Z.of_nat i =? lh_n l then Ok (set_lh_n (lh_n l + 1) l, cpin b c)
    else Ok (l, c).

End Log.
