(* ===== verification/LogTheory.v ===== *)
(** * Crash safety of the log

    [logical] is the file system that a disk image denotes: the home blocks,
    overridden by the logged blocks when the header on disk is not empty.
    Every write of [commit] and of recovery, complete or torn, keeps the
    logical contents, except for the header write that commits, which
    changes them from the old to the new in one go; and recovery turns the
    logical contents into the home blocks. *)
From S2P Require Import Prelude Block Bio BioTheory Log.

(** ** Disks and writes *)

Definition dupd (d : Z -> block) (b : Z) (v : block) : Z -> block :=
  fun x => if decide (x = b) then v else d x.

Fixpoint apply_writes (w : list (Z * block)) (d : Z -> block) : Z -> block :=
  match w with
  | [] => d
  | (b, v) :: w' => apply_writes w' (dupd d b v)
  end.

Lemma apply_ext w d d' x : (forall b, d b = d' b) -> apply_writes w d x = apply_writes w d' x.
Proof.
  revert d d'; induction w as [|[b v] w IH]; intros d d' Hd; simpl; [done|].
  apply IH. intros y. unfold dupd. by rewrite Hd.
Qed.

Lemma apply_app w1 w2 d : apply_writes (w1 ++ w2) d = apply_writes w2 (apply_writes w1 d).
Proof. revert d; induction w1 as [|[b v] w1 IH]; intros d; simpl; auto. Qed.

Lemma apply_notin w d x : x ∉ w.*1 -> apply_writes w d x = d x.
Proof.
  revert d; induction w as [|[b v] w IH]; intros d; cbn [fmap list_fmap fst]; [done|].
  rewrite elem_of_cons. intros Hx. cbn [apply_writes]. rewrite IH by tauto. unfold dupd. by rewrite decide_False by tauto.
Qed.

(** Writes to different blocks leave each block with its own data. *)
Lemma apply_in w d x v : NoDup w.*1 -> (x, v) ∈ w -> apply_writes w d x = v.
Proof.
  revert d; induction w as [|[b u] w IH]; intros d; cbn [fmap list_fmap fst]; [by intros _ ?%elem_of_nil|].
  rewrite NoDup_cons, elem_of_cons. intros [Hb Hnd] [[= -> ->]|Hx]; cbn [apply_writes]; [|by apply IH].
  rewrite apply_notin by done. unfold dupd. by rewrite decide_True.
Qed.

(** ** Copying a block through the cache *)

Section Copy.
Context {C : Type} {HC : BlockCache C} {HL : BlockCacheLaws C}.

(** Room for the buffers in use and [k] more. *)
Definition room (c : C) (k : nat) : Prop :=
  exists U : gset Z, (base.size U + k <= NBUF)%nat /\ forall b, 0 < crefs c b -> b ∈ U.

(** What copying [src] over [dst] leaves. *)
Record block_copied (c c' : C) (src dst : Z) (unpin : bool) : Prop := {
  bk_wf : cwf c' ∅;
  bk_view : forall b, cview c' b = if decide (b = dst) then cview c src else cview c b;
  bk_disk : forall b, cdisk c' b = if decide (b = dst) then cview c src else cdisk c b;
  bk_writes : cwrites c' = cwrites c ++ [(dst, cview c src)];
  bk_refs : forall b, crefs c' b = crefs c b - if decide (b = dst) then b2z unpin else 0
}.

Lemma croom_one c bn : room c 1 -> croom c bn.
Proof. intros (U & HU & Hsub). right. exists U. split; [lia|done]. Qed.

(** Reading a second block while the first is held. *)
Lemma croom_two c c1 bn bn1 :
  (forall b, crefs c1 b = crefs c b + if decide (b = bn1) then 1 else 0) ->
  room c 2 \/ room c 1 /\ 0 < crefs c bn -> croom c1 bn.
Proof.
  intros Hr [(U & HU & Hsub)|[_ Hpos]].
  - right. exists ({[bn1]} ∪ U). split.
    + pose proof (size_union_alt ({[bn1]} : gset Z) U) as E. rewrite size_singleton in E.
      assert (base.size (U ∖ {[bn1]}) <= base.size U)%nat by (apply subseteq_size; set_solver). lia.
    + intros b Hb. rewrite Hr in Hb. destruct (decide (b = bn1)); [set_solver|].
      apply elem_of_union_r, Hsub. lia.
  - left. rewrite Hr. dcase; lia.
Qed.

(** Two different blocks are read one after the other. *)
Lemma read_two c b1 b2 :
  cwf c ∅ -> b1 <> b2 -> room c 2 \/ room c 1 /\ 0 < crefs c b2 ->
  crefs c b1 < 4294967295 -> crefs c b2 < 4294967295 ->
  exists h1 c1 h2 c2, cread b1 c = Ok (h1, c1) /\ cread b2 c1 = Ok (h2, c2) /\ h1 <> h2 /\
    cwf c2 (<[h2 := b2]> (<[h1 := b1]> ∅)) /\ csame c c2 /\
    (forall b, crefs c2 b = crefs c b + if decide (b = b1 \/ b = b2) then 1 else 0).
Proof.
  intros Hw Hne Hroom Hs Hd.
  assert (Hroom1 : room c 1) by (destruct Hroom as [(U & ? & ?)|[? _]]; [exists U; split; [lia|done]|done]).
  destruct (law_read c ∅ b1 Hw) as (h1 & c1 & E1 & Ht & Hw1 & Hs1 & Hr1);
    [by intros; rewrite lookup_empty|by apply croom_one|done|].
  destruct (law_read c1 (<[h1 := b1]> ∅) b2 Hw1) as (h2 & c2 & E2 & Hf & Hw2 & Hs2 & Hr2).
  { intros h. rewrite lookup_insert_Some, lookup_empty. intros [[_ ?]|[_ ?]]; congruence. }
  { by eapply croom_two. }
  { rewrite Hr1, decide_False by done. lia. }
  exists h1, c1, h2, c2. split_and!; auto.
  - intros ->. by rewrite lookup_insert_eq in Hf.
  - split; intros; by rewrite ?(cs_view _ _ Hs2), ?(cs_view _ _ Hs1), ?(cs_disk _ _ Hs2), ?(cs_disk _ _ Hs1),
      ?(cs_writes _ _ Hs2), ?(cs_writes _ _ Hs1).
  - intros b. rewrite Hr2, Hr1. repeat dcase; lia || naive_solver.
Qed.

(** Copying between two held buffers and writing the target. *)
Lemma copy_held c H to from dst src (unpin : bool) :
  cwf c H -> H !! to = Some dst -> H !! from = Some src ->
  (unpin = true -> 2 <= crefs c dst) ->
  exists c', cwrite to (cset to (cdata c from) c) = Ok c' /\
    let c'' := if unpin then cunpin to c' else c' in
    cwf c'' H /\
    (forall b, cview c'' b = if decide (b = dst) then cview c src else cview c b) /\
    (forall b, cdisk c'' b = if decide (b = dst) then cview c src else cdisk c b) /\
    cwrites c'' = cwrites c ++ [(dst, cview c src)] /\
    (forall b, crefs c'' b = crefs c b - if decide (b = dst) then b2z unpin else 0).
Proof.
  intros Hw Hto Hfr Hun. destruct (law_held c H from src Hw Hfr) as (-> & _ & _).
  destruct (law_set c H to dst (cview c src) Hw Hto) as (Hw3 & Hv3 & Hd3 & Hwr3 & Hr3).
  { by apply (law_len c H). }
  set (c3 := cset to (cview c src) c) in *.
  assert (Hv3d : cview c3 dst = cview c src) by (by rewrite Hv3, decide_True).
  destruct (law_write c3 H to dst Hw3 Hto) as (c4 & -> & Hw4 & Hv4 & Hd4 & Hwr4 & Hr4).
  rewrite Hv3d in *. rewrite Hwr3 in Hwr4.
  assert (Hd4' : forall b, cdisk c4 b = if decide (b = dst) then cview c src else cdisk c b)
    by (intros; rewrite Hd4; by rewrite Hd3).
  exists c4. split; [done|]. destruct unpin.
  - destruct (law_unpin c4 H to dst Hw4 Hto) as (Hw5 & Hs5 & Hr5); [rewrite Hr4, Hr3; auto|].
    split_and!; [done|..].
    + intros b. by rewrite (cs_view _ _ Hs5), Hv4, Hv3.
    + intros b. by rewrite (cs_disk _ _ Hs5), Hd4'.
    + by rewrite (cs_writes _ _ Hs5).
    + intros b. rewrite Hr5, Hr4, Hr3. dcase; done.
  - split_and!; auto.
    + intros b. by rewrite Hv4, Hv3.
    + intros b. rewrite Hr4, Hr3. dcase; simpl; lia.
Qed.

(** Releasing two held buffers. *)
Lemma relse_two c h1 h2 b1 b2 :
  h1 <> h2 -> b1 <> b2 -> cwf c (<[h2 := b2]> (<[h1 := b1]> ∅)) ->
  (crefs c b1 = 1 -> cview c b1 = cdisk c b1) -> (crefs c b2 = 1 -> cview c b2 = cdisk c b2) ->
  exists c', (c ← crelse h2 c; crelse h1 c) = Ok c' /\ cwf c' ∅ /\ csame c c' /\
    (forall b, crefs c' b = crefs c b - if decide (b = b1 \/ b = b2) then 1 else 0).
Proof.
  intros Hh Hb Hw H1 H2. set (H12 := <[h2 := b2]> (<[h1 := b1]> (∅ : gmap nat Z))) in *.
  destruct (law_relse c H12 h2 b2 Hw) as (c5 & -> & Hw5 & Hs5 & Hr5); [unfold H12; by rewrite lookup_insert_eq|done|].
  cbn [mbind outcome_bind].
  destruct (law_relse c5 (delete h2 H12) h1 b1 Hw5) as (c6 & -> & Hw6 & Hs6 & Hr6).
  { unfold H12. by rewrite lookup_delete_ne, lookup_insert_ne, lookup_insert_eq by done. }
  { rewrite Hr5, decide_False, (cs_view _ _ Hs5), (cs_disk _ _ Hs5) by done. intros. apply H1. lia. }
  exists c6. split; [done|].
  assert (HH : delete h1 (delete h2 H12) = ∅).
  { apply map_eq. intros h. rewrite lookup_empty. unfold H12.
    destruct (decide (h = h1)) as [->|]; [by rewrite lookup_delete_eq|].
    destruct (decide (h = h2)) as [->|]; [by rewrite lookup_delete_ne, lookup_delete_eq by done|].
    by rewrite !lookup_delete_ne, !lookup_insert_ne, lookup_empty by done. }
  rewrite HH in Hw6. split_and!; [done| |].
  - split; intros; by rewrite ?(cs_view _ _ Hs6), ?(cs_view _ _ Hs5), ?(cs_disk _ _ Hs6), ?(cs_disk _ _ Hs5),
      ?(cs_writes _ _ Hs6), ?(cs_writes _ _ Hs5).
  - intros b. rewrite Hr6, Hr5. repeat dcase; lia || naive_solver.
Qed.

(** The body of the loop of [write_log]. *)
Lemma copy_to_log c src dst :
  cwf c ∅ -> src <> dst -> room c 2 \/ room c 1 /\ 0 < crefs c src ->
  crefs c src < 4294967295 -> crefs c dst < 4294967295 ->
  exists to c1 from c2 c4 c5 c6,
    cread dst c = Ok (to, c1) /\ cread src c1 = Ok (from, c2) /\
    cwrite to (cset to (cdata c2 from) c2) = Ok c4 /\ crelse from c4 = Ok c5 /\ crelse to c5 = Ok c6 /\
    block_copied c c6 src dst false.
Proof.
  intros Hw Hne Hroom Hs Hd.
  destruct (read_two c dst src) as (to & c1 & from & c2 & E1 & E2 & Hh & Hw2 & Hs2 & Hr2); auto.
  destruct (copy_held c2 _ to from dst src false Hw2) as (c4 & E4 & Hw4 & Hv4 & Hd4 & Hwr4 & Hr4);
    [by rewrite lookup_insert_ne, lookup_insert_eq|by rewrite lookup_insert_eq|done|].
  assert (Hcl : crefs c4 src = 1 -> cview c4 src = cdisk c4 src).
  { rewrite Hr4, Hr2, Hv4, Hd4, !(decide_False (P := src = dst)), decide_True by auto. intros.
    rewrite (cs_view _ _ Hs2), (cs_disk _ _ Hs2). apply (law_clean c ∅); [done|]. lia. }
  destruct (relse_two c4 to from dst src) as (c6 & E6 & Hw6 & Hs6 & Hr6); auto.
  { intros _. by rewrite Hv4, Hd4, !decide_True. }
  apply bind_ok in E6 as (c5 & E5 & E6).
  exists to, c1, from, c2, c4, c5, c6. split_and!; auto. split; [done|..].
  - intros b. by rewrite (cs_view _ _ Hs6), Hv4, !(cs_view _ _ Hs2).
  - intros b. by rewrite (cs_disk _ _ Hs6), Hd4, (cs_disk _ _ Hs2), (cs_view _ _ Hs2).
  - by rewrite (cs_writes _ _ Hs6), Hwr4, (cs_writes _ _ Hs2), (cs_view _ _ Hs2).
  - intros b. rewrite Hr6, Hr4, Hr2. simpl. repeat dcase; lia.
Qed.

(** The body of the loop of [install_trans]. *)
Lemma copy_to_home c src dst (recovering : bool) :
  cwf c ∅ -> src <> dst -> room c 2 \/ room c 1 /\ 0 < crefs c dst ->
  crefs c src < 4294967295 -> crefs c dst < 4294967295 ->
  (recovering = false -> 1 <= crefs c dst) ->
  exists lbuf c1 dbuf c2 c4 c5 c6,
    cread src c = Ok (lbuf, c1) /\ cread dst c1 = Ok (dbuf, c2) /\
    cwrite dbuf (cset dbuf (cdata c2 lbuf) c2) = Ok c4 /\
    crelse lbuf (if negb recovering then cunpin dbuf c4 else c4) = Ok c5 /\ crelse dbuf c5 = Ok c6 /\
    block_copied c c6 src dst (negb recovering).
Proof.
  intros Hw Hne Hroom Hs Hd Hun.
  destruct (read_two c src dst) as (lbuf & c1 & dbuf & c2 & E1 & E2 & Hh & Hw2 & Hs2 & Hr2); auto.
  rewrite insert_insert_ne in Hw2 by done.
  destruct (copy_held c2 _ dbuf lbuf dst src (negb recovering) Hw2) as (c4 & E4 & Hw4 & Hv4 & Hd4 & Hwr4 & Hr4);
    [by rewrite lookup_insert_ne, lookup_insert_eq|by rewrite lookup_insert_eq| |].
  { intros Hb. rewrite Hr2, decide_True by auto. apply negb_true_iff in Hb. specialize (Hun Hb). lia. }
  set (c4' := if negb recovering then cunpin dbuf c4 else c4) in *.
  assert (Hcl : crefs c4' src = 1 -> cview c4' src = cdisk c4' src).
  { rewrite Hr4, Hr2, Hv4, Hd4, !(decide_False (P := src = dst)), decide_True by auto. intros.
    rewrite (cs_view _ _ Hs2), (cs_disk _ _ Hs2). apply (law_clean c ∅); [done|]. lia. }
  destruct (relse_two c4' dbuf lbuf dst src) as (c6 & E6 & Hw6 & Hs6 & Hr6); auto.
  { intros _. by rewrite Hv4, Hd4, !decide_True. }
  apply bind_ok in E6 as (c5 & E5 & E6).
  exists lbuf, c1, dbuf, c2, c4, c5, c6. split_and!; auto. split; [done|..].
  - intros b. by rewrite (cs_view _ _ Hs6), Hv4, !(cs_view _ _ Hs2).
  - intros b. by rewrite (cs_disk _ _ Hs6), Hd4, (cs_disk _ _ Hs2), (cs_view _ _ Hs2).
  - by rewrite (cs_writes _ _ Hs6), Hwr4, (cs_writes _ _ Hs2), (cs_view _ _ Hs2).
  - intros b. rewrite Hr6, Hr4, Hr2. repeat dcase; lia || naive_solver.
Qed.

(** ** The loops *)

(** The writes of [write_log] and of [install_trans]. *)
Definition log_writes (l : log) (v : Z -> block) (tail k : nat) : list (Z * block) :=
  map (fun j => (start l + Z.of_nat j + 1, v (lh_at l j))) (seq tail k).
Definition home_writes (l : log) (v : Z -> block) (tail k : nat) : list (Z * block) :=
  map (fun j => (lh_at l j, v (start l + Z.of_nat j + 1))) (seq tail k).

(** The blocks for data of a log of [LOGSIZE] blocks, the first of which is the
    header. *)
Definition LOGDATA : Z := LOGSIZE - 1.

(** Block numbers outside the log. *)
Definition home (l : log) (b : Z) : Prop := ~ (start l <= b <= start l + LOGDATA).

Lemma write_log_run l k : forall tail c,
  cwf c ∅ -> room c 1 -> (forall b, crefs c b < 4294967295) -> Z.of_nat (tail + k) <= LOGDATA ->
  (forall j, (tail <= j < tail + k)%nat -> home l (lh_at l j) /\ 0 < crefs c (lh_at l j)) ->
  let w := log_writes l (cview c) tail k in
  exists c', write_log_loop k tail l c = Ok c' /\ cwf c' ∅ /\
    (forall b, cview c' b = apply_writes w (cview c) b) /\
    (forall b, cdisk c' b = apply_writes w (cdisk c) b) /\
    cwrites c' = cwrites c ++ w /\ (forall b, crefs c' b = crefs c b).
Proof.
  induction k as [|k IH]; intros tail c Hw Hroom Href Hmax Hj w.
  { exists c. split_and!; auto. by rewrite app_nil_r. }
  destruct (Hj tail) as [Hhome Hpos]; [lia|]. set (dst := start l + Z.of_nat tail + 1). set (src := lh_at l tail).
  assert (Hne : src <> dst) by (unfold home, src, dst in *; lia).
  destruct (copy_to_log c src dst) as (to & c1 & from & c2 & c4 & c5 & c6 & E1 & E2 & E4 & E5 & E6 & Hbc); auto.
  cbn [write_log_loop]. fold dst src. rewrite E1. cbn [mbind outcome_bind]. rewrite E2. cbn [mbind outcome_bind].
  rewrite E4. cbn [mbind outcome_bind]. rewrite E5. cbn [mbind outcome_bind]. rewrite E6. cbn [mbind outcome_bind].
  destruct Hbc as [Hw6 Hv6 Hd6 Hwr6 Hr6]. simpl in Hr6.
  assert (Hr6' : forall b, crefs c6 b = crefs c b) by (intros b; rewrite Hr6; dcase; lia).
  assert (Hww : log_writes l (cview c6) (S tail) k = log_writes l (cview c) (S tail) k).
  { apply map_ext_in. intros j Hin. apply in_seq in Hin. destruct (Hj j) as [Hh _]; [lia|].
    f_equal. rewrite Hv6, decide_False; [done|]. unfold home, dst in *. lia. }
  destruct (IH (S tail) c6) as (c' & Hrun & Hw' & Hv' & Hd' & Hwr' & Hr'); auto; [| |lia| |].
  { destruct Hroom as (U & HU & Hsub). exists U. split; [done|]. intros b. rewrite Hr6'. auto. }
  { intros b. by rewrite Hr6'. }
  { intros j Hjr. rewrite Hr6'. apply Hj. lia. }
  rewrite Hww in *. assert (w = (dst, cview c src) :: log_writes l (cview c) (S tail) k) as -> by done.
  exists c'. split_and!; [done|done|..].
  - intros b. rewrite Hv'. cbn [apply_writes]. by apply apply_ext.
  - intros b. rewrite Hd'. cbn [apply_writes]. by apply apply_ext.
  - rewrite Hwr', Hwr6, <- app_assoc. done.
  - intros b. by rewrite Hr'.
Qed.

Lemma install_run l recovering k : forall tail c,
  cwf c ∅ -> (if recovering : bool then room c 2 else room c 1) -> (forall b, crefs c b < 4294967295) ->
  Z.of_nat (tail + k) <= LOGDATA -> NoDup (map (lh_at l) (seq tail k)) ->
  (forall j, (tail <= j < tail + k)%nat -> home l (lh_at l j) /\ (recovering = false -> 0 < crefs c (lh_at l j))) ->
  let w := home_writes l (cview c) tail k in
  exists c', install_trans_loop k tail recovering l c = Ok c' /\ cwf c' ∅ /\
    (forall b, cview c' b = apply_writes w (cview c) b) /\
    (forall b, cdisk c' b = apply_writes w (cdisk c) b) /\
    cwrites c' = cwrites c ++ w /\
    (forall b, crefs c' b = crefs c b -
       if decide (b ∈ map (lh_at l) (seq tail k)) then b2z (negb recovering) else 0).
Proof.
  induction k as [|k IH]; intros tail c Hw Hroom Href Hmax Hnd Hj w.
  { exists c. split_and!; auto; [by rewrite app_nil_r|]. intros b. rewrite decide_False; [lia|]. apply not_elem_of_nil. }
  destruct (Hj tail) as [Hhome Hpos]; [lia|]. set (src := start l + Z.of_nat tail + 1). set (dst := lh_at l tail).
  assert (Hne : src <> dst) by (unfold home, src, dst in *; lia).
  cbn [seq map] in Hnd. apply NoDup_cons in Hnd as [Hni Hnd]. fold dst in Hni.
  destruct (copy_to_home c src dst recovering) as (lbuf & c1 & dbuf & c2 & c4 & c5 & c6 & E1 & E2 & E4 & E5 & E6 & Hbc); auto.
  { destruct recovering; auto. }
  { intros E. specialize (Hpos E). fold dst in Hpos. lia. }
  cbn [install_trans_loop]. fold dst src. rewrite E1. cbn [mbind outcome_bind]. rewrite E2. cbn [mbind outcome_bind].
  rewrite E4. cbn [mbind outcome_bind]. rewrite E5. cbn [mbind outcome_bind]. rewrite E6. cbn [mbind outcome_bind].
  destruct Hbc as [Hw6 Hv6 Hd6 Hwr6 Hr6].
  assert (Hle : forall b, crefs c6 b <= crefs c b) by (intros b; rewrite Hr6; destruct recovering; simpl; dcase; lia).
  assert (Hroom6 : forall n, room c n -> room c6 n).
  { intros n (U & HU & Hsub). exists U. split; [done|]. intros b Hb. apply Hsub. specialize (Hle b). lia. }
  assert (Hww : home_writes l (cview c6) (S tail) k = home_writes l (cview c) (S tail) k).
  { apply map_ext_in. intros j Hin. apply in_seq in Hin. f_equal. rewrite Hv6, decide_False; [done|].
    unfold home in Hhome. fold dst in Hhome. lia. }
  destruct (IH (S tail) c6) as (c' & Hrun & Hw' & Hv' & Hd' & Hwr' & Hr'); auto; [| |lia| |].
  { destruct recovering; auto. }
  { intros b. specialize (Hle b). specialize (Href b). lia. }
  { intros j Hjr. destruct (Hj j) as [? Hp]; [lia|]. split; [done|]. intros E. rewrite Hr6, decide_False; [specialize (Hp E); lia|].
    intros E'. apply Hni. rewrite <- E'. apply list_elem_of_In, in_map, in_seq. lia. }
  rewrite Hww in *. assert (w = (dst, cview c src) :: home_writes l (cview c) (S tail) k) as -> by done.
  exists c'. split_and!; [done|done|..].
  - intros b. rewrite Hv'. cbn [apply_writes]. by apply apply_ext.
  - intros b. rewrite Hd'. cbn [apply_writes]. by apply apply_ext.
  - rewrite Hwr', Hwr6, <- app_assoc. done.
  - intros b. rewrite Hr', Hr6. cbn [seq map]. fold dst.
    destruct (decide (b = dst)) as [->|Hb].
    + rewrite (decide_False (P := dst ∈ _)) by done. rewrite decide_True by (apply elem_of_cons; by left). lia.
    + destruct (decide (b ∈ map (lh_at l) (seq (S tail) k))); [rewrite decide_True by (apply elem_of_cons; by right)|
        rewrite decide_False by (rewrite elem_of_cons; tauto)]; lia.
Qed.

(** Rewriting one block that is read, changed and released. *)
Lemma update_block c bn f :
  cwf c ∅ -> room c 1 -> crefs c bn < 4294967295 -> (forall d, length d = BSIZE -> length (f d) = BSIZE) ->
  exists h c1 c3 c4, cread bn c = Ok (h, c1) /\ cdata c1 h = cview c bn /\
    cwrite h (cset h (f (cdata c1 h)) c1) = Ok c3 /\ crelse h c3 = Ok c4 /\ cwf c4 ∅ /\
    (forall b, cview c4 b = dupd (cview c) bn (f (cview c bn)) b) /\
    (forall b, cdisk c4 b = dupd (cdisk c) bn (f (cview c bn)) b) /\
    cwrites c4 = cwrites c ++ [(bn, f (cview c bn))] /\ (forall b, crefs c4 b = crefs c b).
Proof.
  intros Hw Hroom Href Hf.
  destruct (law_read c ∅ bn Hw) as (h & c1 & E1 & _ & Hw1 & Hs1 & Hr1);
    [by intros; rewrite lookup_empty|by apply croom_one|done|].
  set (H1 := <[h := bn]> (∅ : gmap nat Z)) in *.
  assert (Hh : H1 !! h = Some bn) by (unfold H1; by rewrite lookup_insert_eq).
  destruct (law_held c1 H1 h bn Hw1 Hh) as (Hd & _ & _). rewrite (cs_view _ _ Hs1) in Hd.
  destruct (law_set c1 H1 h bn (f (cview c bn)) Hw1 Hh) as (Hw2 & Hv2 & Hd2 & Hwr2 & Hr2).
  { apply Hf. by apply (law_len c ∅). }
  set (c2 := cset h (f (cview c bn)) c1) in *.
  assert (Hv2b : cview c2 bn = f (cview c bn)) by (by rewrite Hv2, decide_True).
  destruct (law_write c2 H1 h bn Hw2 Hh) as (c3 & E3 & Hw3 & Hv3 & Hd3 & Hwr3 & Hr3). rewrite Hv2b in *.
  destruct (law_relse c3 H1 h bn Hw3 Hh) as (c4 & E4 & Hw4 & Hs4 & Hr4).
  { intros _. by rewrite Hv3, Hv2b, Hd3, decide_True. }
  assert (HH : delete h H1 = ∅) by (unfold H1; by rewrite delete_insert_eq, delete_empty). rewrite HH in Hw4.
  exists h, c1, c3, c4. rewrite Hd. split_and!; auto; unfold dupd.
  - intros b. by rewrite (cs_view _ _ Hs4), Hv3, Hv2, (cs_view _ _ Hs1).
  - intros b. by rewrite (cs_disk _ _ Hs4), Hd3, Hd2, (cs_disk _ _ Hs1).
  - by rewrite (cs_writes _ _ Hs4), Hwr3, Hwr2, (cs_writes _ _ Hs1).
  - intros b. rewrite Hr4, Hr3, Hr2, Hr1. dcase; lia.
Qed.

End Copy.

(** ** The header block *)

Lemma write_head_loop_get l k : forall i d,
  length d = BSIZE -> (4 + 4 * (i + k) <= BSIZE)%nat ->
  length (write_head_loop k i l d) = BSIZE /\
  get32 (write_head_loop k i l d) 0 = get32 d 0 /\
  (forall j, (4 + 4 * j + 4 <= BSIZE)%nat -> get32 (write_head_loop k i l d) (4 + 4 * j) =
     if decide (i <= j < i + k)%nat then u32 (lh_at l j) else get32 d (4 + 4 * j)).
Proof.
  induction k as [|k IH]; intros i d Hd Hk; cbn [write_head_loop].
  { split_and!; auto. intros j _. by rewrite decide_False by lia. }
  assert (Hlen : length (put32 d (4 + 4 * i) (lh_at l i)) = BSIZE) by (rewrite length_put32 by lia; done).
  destruct (IH (S i) (put32 d (4 + 4 * i) (lh_at l i)) Hlen) as (Hl & H0 & Hj); [lia|].
  split_and!; [done|by rewrite H0, get32_put32_ne by lia|].
  intros j Hjb. rewrite Hj by done. destruct (decide (j = i)) as [->|Hne].
  - rewrite decide_False, decide_True by lia. by rewrite get32_put32_eq by lia.
  - rewrite get32_put32_ne by lia. repeat dcase; try lia; done.
Qed.

(** The blocks named by a header. *)
Definition hdr (d : block) : list Z :=
  map (fun j => s32 (get32 d (4 + 4 * j))) (seq 0 (Z.to_nat (s32 (get32 d 0)))).

(** The header [d] names exactly the blocks [bs]. *)
Definition head_is (d : block) (bs : list Z) : Prop :=
  s32 (get32 d 0) = Z.of_nat (length bs) /\ hdr d = bs.

Definition new_head (l : log) (d : block) : block :=
  write_head_loop (Z.to_nat (lh_n l)) 0 l (put32 d 0 (lh_n l)).

(** The blocks of the in-memory header. *)
Definition lh_blocks (l : log) : list Z := map (lh_at l) (seq 0 (Z.to_nat (lh_n l))).

Lemma s32_u32 x : s32 (u32 x) = s32 x.
Proof. unfold s32, u32. zlia. Qed.

Lemma new_head_ok l d :
  length d = BSIZE -> 0 <= lh_n l <= LOGSIZE -> (forall j, -2147483648 <= lh_at l j < 2147483648) ->
  length (new_head l d) = BSIZE /\ head_is (new_head l d) (lh_blocks l).
Proof.
  intros Hd Hn Hr. unfold LOGDATA, LOGSIZE, MAXOPBLOCKS in Hn.
  assert (Hlen : length (put32 d 0 (lh_n l)) = BSIZE) by (rewrite length_put32 by (rewrite Hd; unfold BSIZE; lia); done).
  destruct (write_head_loop_get l (Z.to_nat (lh_n l)) 0 _ Hlen) as (Hl & H0 & Hj); [unfold BSIZE; lia|].
  split; [done|]. unfold head_is, hdr, new_head, lh_blocks.
  rewrite H0, get32_put32_eq, s32_u32, s32_id by (rewrite ?Hd; unfold BSIZE; lia).
  split; [rewrite length_map, length_seq; lia|]. apply map_ext_in. intros j Hin. apply in_seq in Hin.
  rewrite Hj, decide_True, s32_u32 by (unfold BSIZE; lia). apply s32_id. apply Hr.
Qed.

(** [read_head] loads the header that is on disk. *)
Lemma read_head_loop_at d k : forall i l j,
  (i + k <= length (lh_block l))%nat ->
  lh_at (read_head_loop k i d l) j = if decide (i <= j < i + k)%nat then s32 (get32 d (4 + 4 * j)) else lh_at l j.
Proof.
  induction k as [|k IH]; intros i l j Hl; cbn [read_head_loop]; [by rewrite decide_False by lia|].
  rewrite IH by (cbn; rewrite length_insert; lia). unfold lh_at at 1. cbn [set_lh_block lh_block].
  destruct (decide (j = i)) as [->|Hne].
  - rewrite decide_False, decide_True, list_lookup_insert_eq by lia. done.
  - rewrite list_lookup_insert_ne by done. repeat dcase; try lia; done.
Qed.

Lemma read_head_loop_keep d k : forall i l,
  lh_n (read_head_loop k i d l) = lh_n l /\ start (read_head_loop k i d l) = start l /\
  size (read_head_loop k i d l) = size l /\ outstanding (read_head_loop k i d l) = outstanding l /\
  committing (read_head_loop k i d l) = committing l /\
  length (lh_block (read_head_loop k i d l)) = length (lh_block l).
Proof.
  induction k as [|k IH]; intros i l; cbn [read_head_loop]; [done|].
  destruct (IH (S i) (set_lh_block i (s32 (get32 d (4 + 4 * i))) l)) as (-> & -> & -> & -> & -> & ->).
  cbn. rewrite length_insert. done.
Qed.

(** ** The file system that a disk denotes *)

Definition logical (st : Z) (d : Z -> block) (b : Z) : block :=
  match list_find (fun x => x = b) (hdr (d st)) with
  | Some (i, _) => d (st + Z.of_nat i + 1)
  | None => d b
  end.

(** A write that power loss interrupts: each of the two 512-byte sectors of
    the block has its old or its new contents. *)
Definition torn (old new mid : block) : Prop :=
  (take 512 mid = take 512 old \/ take 512 mid = take 512 new) /\
  (drop 512 mid = drop 512 old \/ drop 512 mid = drop 512 new).

(** The disks that a crash can leave during the writes [w]. *)
Inductive crash (d : Z -> block) : list (Z * block) -> (Z -> block) -> Prop :=
| crash_now w : crash d w d
| crash_torn b v w mid : torn (d b) v mid -> crash d ((b, v) :: w) (dupd d b mid)
| crash_later b v w d' : crash (dupd d b v) w d' -> crash d ((b, v) :: w) d'.

Lemma crash_app w1 w2 : forall d d',
  crash d (w1 ++ w2) d' -> crash d w1 d' \/ crash (apply_writes w1 d) w2 d'.
Proof.
  induction w1 as [|[b v] w1 IH]; intros d d' Hc; cbn [app apply_writes] in *; [by right|].
  inversion Hc; subst; [left; constructor|left; by constructor|].
  edestruct IH as [?|?]; [eassumption|left; by constructor|by right].
Qed.

(** The crash after the last write. *)
Lemma crash_all w : forall d, crash d w (apply_writes w d).
Proof. induction w as [|[b v] w IH]; intros d; constructor. apply IH. Qed.

(** Blocks keep their length in a crash. *)
Lemma crash_length w d d' :
  (forall b, length (d b) = BSIZE) -> Forall (fun e => length e.2 = BSIZE) w ->
  crash d w d' -> forall b, length (d' b) = BSIZE.
Proof.
  intros Hd Hw Hc. induction Hc as [d w|d b v w mid Ht|d b v w d' Hc IH]; auto; apply Forall_cons in Hw as [Hv Hw].
  - intros x. unfold dupd. dcase; [|done]. simpl in Hv. rewrite <- (take_drop 512 mid), length_app.
    destruct Ht as [[->| ->] [->| ->]]; rewrite length_take, length_drop, ?Hd, ?Hv; unfold BSIZE; lia.
  - apply IH; [|done]. intros x. unfold dupd. dcase; done.
Qed.

Lemma get32_take d d' off :
  take 512 d = take 512 d' -> (off + 4 <= 512)%nat -> get32 d off = get32 d' off.
Proof.
  intros Ht Ho. unfold get32, slice. f_equal.
  rewrite <- (take_drop 512 d), <- (take_drop 512 d'), Ht.
  destruct (decide (512 <= length d')%nat) as [Hl|Hl].
  - rewrite !drop_app_le by (rewrite length_take; lia).
    rewrite !take_app_le by (rewrite length_drop, length_take; lia). done.
  - assert (length (take 512 d) = length (take 512 d')) as E by (by rewrite Ht). rewrite !length_take in E.
    rewrite (drop_ge d), (drop_ge d') by lia. done.
Qed.

Lemma head_take d d' bs :
  take 512 d = take 512 d' -> (length bs <= Z.to_nat LOGDATA)%nat -> head_is d' bs -> head_is d bs.
Proof.
  intros Ht Hl [Hn Hb]. unfold LOGDATA, LOGSIZE, MAXOPBLOCKS in Hl. unfold head_is, hdr in *.
  rewrite (get32_take d d' 0 Ht) by lia. split; [done|]. rewrite <- Hb. apply map_ext_in. intros j Hin%in_seq.
  rewrite (get32_take d d') by (auto; lia). done.
Qed.

Section Phases.
Variables (st : Z) (bs : list Z) (old new : Z -> block).
Definition homeb (b : Z) : Prop := ~ (st <= b <= st + LOGDATA).

(** Nothing is committed: the home blocks count. *)
Definition idle (v d : Z -> block) : Prop := head_is (d st) [] /\ forall b, homeb b -> d b = v b.

(** The transaction is committed: the log counts for the blocks of [bs]. *)
Definition committed (d : Z -> block) : Prop :=
  head_is (d st) bs /\
  (forall j b, bs !! j = Some b -> d (st + Z.of_nat j + 1) = new b) /\
  (forall b, homeb b -> b ∉ bs -> d b = new b).

Lemma logical_idle v d b : idle v d -> homeb b -> logical st d b = v b.
Proof. intros [[_ Hh] Hd] Hb. unfold logical. rewrite Hh. simpl. by apply Hd. Qed.

Lemma logical_committed d b : committed d -> homeb b -> logical st d b = new b.
Proof.
  intros ([_ Hh] & Hl & Ho) Hb. unfold logical. rewrite Hh.
  destruct (list_find (fun x => x = b) bs) as [[i x]|] eqn:E.
  - apply list_find_Some in E as (Hi & -> & _). by apply Hl.
  - apply list_find_None in E. rewrite Forall_forall in E. apply Ho; [done|]. intros Hin. by apply (E b Hin).
Qed.

(** Writes inside the log, apart from the header, keep [idle]. *)
Lemma crash_idle v w : forall d d',
  Forall (fun e => st < e.1 <= st + LOGDATA) w -> idle v d -> crash d w d' -> idle v d'.
Proof.
  intros d d' Hw Hi Hc. induction Hc as [d w|d b u w mid Ht|d b u w d' Hc IH]; auto.
  - apply Forall_cons in Hw as [Hb _]. destruct Hi as [Hh Hd]. simpl in Hb. split.
    + unfold dupd. rewrite decide_False by lia. done.
    + intros x Hx. unfold dupd. rewrite decide_False; [by apply Hd|]. unfold homeb in Hx. lia.
  - apply Forall_cons in Hw as [Hb Hw]. apply IH; auto. destruct Hi as [Hh Hd]. simpl in Hb. split.
    + unfold dupd. rewrite decide_False by lia. done.
    + intros x Hx. unfold dupd. rewrite decide_False; [by apply Hd|]. unfold homeb in Hx. lia.
Qed.

Hypothesis Hbs : (length bs <= Z.to_nat LOGDATA)%nat.
Hypothesis Hhome : forall b, b ∈ bs -> homeb b.

(** Writes to the blocks of the transaction keep [committed]. *)
Lemma crash_committed w : forall d d',
  Forall (fun e => e.1 ∈ bs) w -> committed d -> crash d w d' -> committed d'.
Proof.
  assert (Hone : forall d b v, b ∈ bs -> committed d -> committed (dupd d b v)).
  { intros d b v Hb (Hh & Hl & Ho). pose proof (Hhome b Hb) as Hhb. unfold homeb in Hhb. unfold LOGDATA, LOGSIZE, MAXOPBLOCKS in *.
    split_and!; unfold dupd.
    - rewrite decide_False by lia. done.
    - intros j x Hj. rewrite decide_False; [by apply Hl|]. apply lookup_lt_Some in Hj. lia.
    - intros x Hx Hn. rewrite decide_False; [by apply Ho|]. by intros ->. }
  intros d d' Hw Hi Hc. induction Hc as [d w|d b u w mid Ht|d b u w d' Hc IH]; auto;
    apply Forall_cons in Hw as [Hb Hw]; auto.
Qed.

(** The header write that commits. *)
Lemma crash_commit_point d hb d' :
  idle old d -> (forall j b, bs !! j = Some b -> d (st + Z.of_nat j + 1) = new b) ->
  (forall b, homeb b -> b ∉ bs -> old b = new b) -> head_is hb bs ->
  crash d [(st, hb)] d' -> idle old d' \/ committed d'.
Proof.
  intros Hi Hl Ho Hhb Hc. pose proof Hi as [Hh Hd].
  assert (Hset : forall mid, head_is mid [] \/ head_is mid bs -> idle old (dupd d st mid) \/ committed (dupd d st mid)).
  { intros mid Hm.
    assert (Hx : forall x, homeb x -> dupd d st mid x = d x).
    { intros x Hx. unfold dupd. rewrite decide_False; [done|]. unfold homeb, LOGDATA, LOGSIZE, MAXOPBLOCKS in *. lia. }
    assert (Hs : dupd d st mid st = mid) by (unfold dupd; by rewrite decide_True).
    destruct Hm as [Hm|Hm]; [left|right]; (split; [by rewrite Hs|]).
    - intros b Hb. rewrite Hx by done. by apply Hd.
    - split; [|intros b Hb Hn; rewrite Hx, Hd, Ho by done; done].
      intros j b Hj. unfold dupd. rewrite decide_False by lia. by apply Hl. }
  inversion Hc as [|? ? ? mid [Hm _]|? ? ? ? Hc']; subst; [by left| |].
  - apply Hset. destruct Hm as [Hm|Hm]; [left|right].
    + apply (head_take mid (d st) [] Hm); [simpl; lia|done].
    + by apply (head_take mid hb bs Hm).
  - inversion Hc'; subst. apply Hset. by right.
Qed.

(** The header write that erases the log. *)
Lemma crash_erase d h0 d' :
  committed d -> (forall b, homeb b -> d b = new b) -> head_is h0 [] ->
  crash d [(st, h0)] d' -> committed d' \/ idle new d'.
Proof.
  intros Hcm Hd Hh0 Hc. pose proof Hcm as (Hh & Hl & Ho).
  assert (Hset : forall mid, head_is mid bs \/ head_is mid [] -> committed (dupd d st mid) \/ idle new (dupd d st mid)).
  { intros mid Hm.
    assert (Hx : forall x, x <> st -> dupd d st mid x = d x) by (intros; unfold dupd; by rewrite decide_False).
    assert (Hhx : forall x, homeb x -> x <> st) by (intros x Hxb ->; unfold homeb, LOGDATA, LOGSIZE, MAXOPBLOCKS in *; lia).
    assert (Hs : dupd d st mid st = mid) by (unfold dupd; by rewrite decide_True).
    destruct Hm as [Hm|Hm]; [left|right]; (split; [by rewrite Hs|]).
    - split; [intros j b Hj; rewrite Hx by lia; by apply Hl|]. intros b Hb Hn. rewrite Hx by auto. auto.
    - intros b Hb. rewrite Hx by auto. auto. }
  inversion Hc as [|? ? ? mid [Hm _]|? ? ? ? Hc']; subst; [by left| |].
  - apply Hset. destruct Hm as [Hm|Hm]; [left|right].
    + by apply (head_take mid (d st) bs Hm).
    + apply (head_take mid h0 [] Hm); [simpl; lia|done].
  - inversion Hc'; subst. apply Hset. by right.
Qed.

End Phases.
