(* ===== verification/LogCrash.v ===== *)
(** * Transactions are atomic

    [commit] makes the pending blocks durable and every crash during it
    leaves a disk that denotes the file system before or after the whole
    transaction; recovery makes the home blocks equal to what the disk
    denotes, whatever crashes happen during recovery itself. *)
From S2P Require Import Prelude Block Bio BioTheory Log LogTheory.

Section Crash.
Context {C : Type} {HC : BlockCache C} {HL : BlockCacheLaws C}.

(** A transaction is pending: its blocks are different home blocks, pinned
    in the cache; no other buffer is in use and the log on disk is empty. *)
Record pending (l : log) (c : C) : Prop := {
  pd_wf : cwf c ∅;
  pd_n : 0 <= lh_n l < Z.of_nat NBUF;
  pd_nd : NoDup (lh_blocks l);
  pd_home : forall b, b ∈ lh_blocks l -> home l b;
  pd_int : forall j, -2147483648 <= lh_at l j < 2147483648;
  pd_refs : forall b, crefs c b = if decide (b ∈ lh_blocks l) then 1 else 0;
  pd_hdr : head_is (cdisk c (start l)) []
}.

Lemma lh_blocks_at l j : (j < Z.to_nat (lh_n l))%nat -> lh_at l j ∈ lh_blocks l.
Proof. intros Hj. apply list_elem_of_In, in_map, in_seq. lia. Qed.

Lemma length_lh_blocks l : length (lh_blocks l) = Z.to_nat (lh_n l).
Proof. unfold lh_blocks. by rewrite length_map, length_seq. Qed.

Lemma lookup_lh_blocks l j b : lh_blocks l !! j = Some b -> (j < Z.to_nat (lh_n l))%nat /\ lh_at l j = b.
Proof.
  intros Hj. pose proof (lookup_lt_Some _ _ _ Hj) as Hl. rewrite length_lh_blocks in Hl. split; [done|].
  unfold lh_blocks in Hj.
  change (map (lh_at l) (seq 0 (Z.to_nat (lh_n l)))) with (lh_at l <$> seq 0 (Z.to_nat (lh_n l))) in Hj.
  rewrite list_lookup_fmap, lookup_seq_lt in Hj by done. by injection Hj.
Qed.

Lemma pending_room l c : pending l c -> room c 1.
Proof.
  intros Hp. exists (list_to_set (lh_blocks l)). split.
  - rewrite size_list_to_set by apply Hp. rewrite length_lh_blocks. pose proof (pd_n l c Hp). lia.
  - intros b Hb. rewrite (pd_refs l c Hp) in Hb. apply elem_of_list_to_set.
    destruct (decide (b ∈ lh_blocks l)); [done|lia].
Qed.

Lemma pending_clean l c b : pending l c -> b ∉ lh_blocks l -> cview c b = cdisk c b.
Proof.
  intros Hp Hb. apply (law_clean c ∅); [apply Hp|]. by rewrite (pd_refs l c Hp), decide_False.
Qed.

Lemma start_not_home l c : pending l c -> start l ∉ lh_blocks l.
Proof. intros Hp Hin. pose proof (pd_home l c Hp _ Hin) as H. unfold home, LOGDATA, LOGSIZE, MAXOPBLOCKS in H. lia. Qed.

(** [write_head] replaces the header block. *)
Lemma write_head_run l c :
  cwf c ∅ -> room c 1 -> crefs c (start l) < 4294967295 -> 0 <= lh_n l <= LOGSIZE ->
  (forall j, -2147483648 <= lh_at l j < 2147483648) ->
  let h := new_head l (cview c (start l)) in
  exists c', write_head l c = Ok c' /\ cwf c' ∅ /\
    (forall b, cview c' b = dupd (cview c) (start l) h b) /\
    (forall b, cdisk c' b = dupd (cdisk c) (start l) h b) /\
    cwrites c' = cwrites c ++ [(start l, h)] /\ (forall b, crefs c' b = crefs c b) /\
    head_is h (lh_blocks l).
Proof.
  intros Hw Hroom Href Hn Hint h.
  destruct (update_block c (start l) (new_head l)) as (b & c1 & c3 & c4 & E1 & Hd & E3 & E4 & Hw4 & Hv & Hdk & Hwr & Hr);
    auto; [intros d Hlen; by apply new_head_ok|].
  exists c4. split_and!; auto.
  - unfold write_head. rewrite E1. cbn [mbind outcome_bind]. fold (new_head l (cdata c1 b)).
    rewrite E3. cbn [mbind outcome_bind]. done.
  - apply new_head_ok; auto. by apply (law_len c ∅).
Qed.

(** The writes of the home blocks in [commit]. *)
Definition install_writes (l : log) (v : Z -> block) : list (Z * block) :=
  map (fun j => (lh_at l j, v (lh_at l j))) (seq 0 (Z.to_nat (lh_n l))).

Lemma log_writes_fst l v n : (log_writes l v 0 n).*1 = (fun j => start l + Z.of_nat j + 1) <$> seq 0 n.
Proof. unfold log_writes. change (map ?f ?x) with (f <$> x). by rewrite <- list_fmap_compose. Qed.

Lemma log_writes_nodup l v n : NoDup (log_writes l v 0 n).*1.
Proof.
  rewrite log_writes_fst. apply NoDup_fmap_2_strong; [|apply NoDup_seq]. intros i j _ _. lia.
Qed.

Lemma log_writes_at l v n d j : (j < n)%nat ->
  apply_writes (log_writes l v 0 n) d (start l + Z.of_nat j + 1) = v (lh_at l j).
Proof.
  intros Hj. apply apply_in; [apply log_writes_nodup|]. apply list_elem_of_In, in_map_iff.
  exists j. split; [done|apply in_seq; lia].
Qed.

Lemma log_writes_other l v n d b : ~ (start l < b <= start l + Z.of_nat n) ->
  apply_writes (log_writes l v 0 n) d b = d b.
Proof.
  intros Hb. apply apply_notin. rewrite log_writes_fst. intros (j & -> & Hj%elem_of_seq)%list_elem_of_fmap. lia.
Qed.

Lemma install_writes_fst l v : (install_writes l v).*1 = lh_blocks l.
Proof. unfold install_writes, lh_blocks. change (map ?f ?x) with (f <$> x). by rewrite <- list_fmap_compose. Qed.

Lemma install_writes_at l v d b : NoDup (lh_blocks l) ->
  apply_writes (install_writes l v) d b = if decide (b ∈ lh_blocks l) then v b else d b.
Proof.
  intros Hnd. destruct (decide (b ∈ lh_blocks l)) as [Hin|Hin].
  - apply apply_in; [by rewrite install_writes_fst|]. unfold lh_blocks in Hin.
    apply list_elem_of_In, in_map_iff in Hin as (j & <- & Hj). apply list_elem_of_In, in_map_iff. by exists j.
  - apply apply_notin. by rewrite install_writes_fst.
Qed.

(** The writes of a commit, from the contents [v] of the cache. *)
Definition commit_writes (l : log) (v : Z -> block) : list (Z * block) :=
  let h1 := new_head l (v (start l)) in
  log_writes l v 0 (Z.to_nat (lh_n l)) ++ (start l, h1) :: install_writes l v ++
  [(start l, new_head (set_lh_n 0 l) h1)].

(** A run of [commit]. *)
Lemma commit_run l c :
  pending l c -> 0 < lh_n l ->
  exists c', commit l c = Ok (set_lh_n 0 l, c') /\ cwf c' ∅ /\
    (forall b, home l b -> cview c' b = cview c b) /\
    (forall b, cdisk c' b = apply_writes (commit_writes l (cview c)) (cdisk c) b) /\
    cwrites c' = cwrites c ++ commit_writes l (cview c) /\ (forall b, crefs c' b = 0) /\
    head_is (cdisk c' (start l)) [].
Proof.
  intros Hp Hpos. pose proof Hp as [Hw Hn Hnd Hhome Hint Href Hhdr].
  assert (HnL : 0 <= lh_n l <= LOGDATA) by (unfold LOGDATA, LOGSIZE, MAXOPBLOCKS, NBUF in *; lia).
  assert (HnS : 0 <= lh_n l <= LOGSIZE) by (unfold LOGDATA in *; lia).
  set (n := Z.to_nat (lh_n l)). set (st := start l).
  assert (Hj : forall j, (j < n)%nat -> home l (lh_at l j) /\ crefs c (lh_at l j) = 1).
  { intros j Hj. pose proof (lh_blocks_at l j Hj). split; [auto|]. by rewrite Href, decide_True. }
  assert (Hb : forall b, crefs c b < 4294967295) by (intros b; rewrite Href; dcase; lia).
  destruct (write_log_run l n 0 c Hw (pending_room l c Hp) Hb) as (c1 & E1 & Hw1 & Hv1 & Hd1 & Hwr1 & Hr1);
    [lia|intros j Hjr; destruct (Hj j); [lia|split; [done|lia]]|].
  assert (Hroom : forall c', (forall b, crefs c' b = crefs c b) -> room c' 1).
  { intros c' Hr. destruct (pending_room l c Hp) as (U & HU & Hs). exists U. split; [done|].
    intros b. rewrite Hr. auto. }
  assert (Hv1st : cview c1 st = cview c st) by (rewrite Hv1, log_writes_other by (unfold st; lia); done).
  destruct (write_head_run l c1 Hw1 (Hroom c1 Hr1)) as (c2 & E2 & Hw2 & Hv2 & Hd2 & Hwr2 & Hr2 & Hh2); auto;
    [by rewrite Hr1|]. fold st in Hv2, Hd2, Hwr2, Hh2. rewrite Hv1st in *.
  set (h1 := new_head l (cview c st)) in *.
  assert (Hr2' : forall b, crefs c2 b = crefs c b) by (intros; by rewrite Hr2).
  destruct (install_run l false n 0 c2 Hw2 (Hroom c2 Hr2')) as (c3 & E3 & Hw3 & Hv3 & Hd3 & Hwr3 & Hr3); auto; try lia.
  { intros b. by rewrite Hr2'. }
  { intros j Hjr. destruct (Hj j); [lia|]. rewrite Hr2'. split; [done|lia]. }
  assert (Hiw : home_writes l (cview c2) 0 n = install_writes l (cview c)).
  { apply map_ext_in. intros j Hin%in_seq. f_equal. rewrite Hv2. unfold dupd. rewrite decide_False by (unfold st; lia).
    rewrite Hv1. by rewrite log_writes_at by lia. }
  rewrite Hiw in *.
  assert (Hr3' : forall b, crefs c3 b = 0).
  { intros b. rewrite Hr3, Hr2', Href. fold (lh_blocks l). simpl. repeat dcase; lia || contradiction. }
  assert (Hv3st : cview c3 st = h1).
  { rewrite Hv3, install_writes_at, decide_False, Hv2 by (auto; by eapply start_not_home).
    unfold dupd. by rewrite decide_True. }
  destruct (write_head_run (set_lh_n 0 l) c3 Hw3) as (c4 & E4 & Hw4 & Hv4 & Hd4 & Hwr4 & Hr4 & Hh4); auto.
  { exists ∅. split; [rewrite size_empty; unfold NBUF; lia|]. intros b. rewrite Hr3'. lia. }
  { rewrite Hr3'. lia. } { simpl. unfold LOGDATA, LOGSIZE, MAXOPBLOCKS. lia. }
  cbn [set_lh_n start] in Hv4, Hd4, Hwr4, Hh4. fold st in Hv4, Hd4, Hwr4, Hh4. rewrite Hv3st in *.
  exists c4. split_and!; auto.
  - unfold commit. ztest. unfold write_log. fold n. rewrite E1. cbn [mbind outcome_bind]. rewrite E2.
    cbn [mbind outcome_bind]. unfold install_trans. fold n. rewrite E3. cbn [mbind outcome_bind].
    rewrite E4. done.
  - intros b Hhb. assert (b <> st) by (intros ->; unfold home, LOGDATA, LOGSIZE, MAXOPBLOCKS, st in *; lia).
    rewrite Hv4. unfold dupd. rewrite decide_False by done.
    rewrite Hv3, install_writes_at by done. destruct (decide (b ∈ lh_blocks l)); [done|].
    rewrite Hv2. unfold dupd. rewrite decide_False, Hv1, log_writes_other; auto.
    unfold home in Hhb. lia.
  - intros b. unfold commit_writes. fold st n h1. rewrite apply_app. cbn [apply_writes]. rewrite apply_app.
    cbn [apply_writes]. rewrite Hd4. unfold dupd at 1 2. dcase; [done|]. rewrite Hd3.
    apply apply_ext. intros x. rewrite Hd2. unfold dupd. dcase; [done|]. apply Hd1.
  - rewrite Hwr4, Hwr3, Hwr2, Hwr1. unfold commit_writes. fold st n h1. by rewrite <- !app_assoc.
  - intros b. by rewrite Hr4.
  - fold st. rewrite Hd4. unfold dupd. rewrite decide_True by done. exact Hh4.
Qed.

(** What a crash during [commit] leaves. *)
Lemma commit_crash l c d :
  pending l c -> crash (cdisk c) (commit_writes l (cview c)) d ->
  idle (start l) (cdisk c) d \/ committed (start l) (lh_blocks l) (cview c) d \/
  idle (start l) (cview c) d.
Proof.
  intros Hp Hc. pose proof Hp as [Hw Hn Hnd Hhome Hint Href Hhdr].
  assert (HnL : 0 <= lh_n l <= LOGDATA) by (unfold LOGDATA, LOGSIZE, MAXOPBLOCKS, NBUF in *; lia).
  assert (HnS : 0 <= lh_n l <= LOGSIZE) by (unfold LOGDATA in *; lia).
  assert (Hlen : (length (lh_blocks l) <= Z.to_nat LOGDATA)%nat) by (rewrite length_lh_blocks; lia).
  set (st := start l) in *. set (bs := lh_blocks l) in *.
  assert (Hi0 : idle st (cdisk c) (cdisk c)) by done.
  assert (Hlw : Forall (fun e => st < e.1 <= st + LOGDATA) (log_writes l (cview c) 0 (Z.to_nat (lh_n l)))).
  { apply Forall_forall. intros e He. apply list_elem_of_In, in_map_iff in He as (j & <- & Hj%in_seq). simpl. unfold st. lia. }
  unfold commit_writes in Hc. fold st in Hc. apply crash_app in Hc as [Hc|Hc].
  { left. by eapply crash_idle. }
  set (d1 := apply_writes _ _) in Hc. set (h1 := new_head l (cview c st)) in *.
  assert (Hhh : head_is h1 bs) by (apply new_head_ok; auto; by apply (law_len c ∅)).
  assert (Hi1 : idle st (cdisk c) d1).
  { split; [unfold d1; rewrite log_writes_other by (unfold st; lia); done|].
    intros b Hb. unfold d1. apply log_writes_other. unfold homeb, st in Hb. lia. }
  assert (Hl1 : forall j b, bs !! j = Some b -> d1 (st + Z.of_nat j + 1) = cview c b).
  { intros j b Hj. apply lookup_lh_blocks in Hj as [Hj <-]. unfold d1, st. by rewrite log_writes_at. }
  assert (Hold : forall b, homeb st b -> b ∉ bs -> cdisk c b = cview c b)
    by (intros; symmetry; by eapply pending_clean).
  change ((st, h1) :: ?w) with ([(st, h1)] ++ w) in Hc. apply crash_app in Hc as [Hc|Hc].
  { destruct (crash_commit_point st bs (cdisk c) (cview c) Hlen d1 h1 d Hi1 Hl1 Hold Hhh Hc); auto. }
  right. cbn [apply_writes] in Hc.
  assert (Hc2 : committed st bs (cview c) (dupd d1 st h1)).
  { split_and!; unfold dupd.
    - by rewrite decide_True.
    - intros j b Hj. rewrite decide_False by lia. by apply Hl1.
    - intros b Hb Hn'. rewrite decide_False by (intros ->; unfold homeb, LOGDATA, LOGSIZE, MAXOPBLOCKS in Hb; lia).
      destruct Hi1 as [_ ->]; auto. }
  assert (Hiw : Forall (fun e => e.1 ∈ bs) (install_writes l (cview c))).
  { apply Forall_forall. intros e He. unfold bs. rewrite <- (install_writes_fst l (cview c)).
    apply list_elem_of_fmap. by exists e. }
  apply crash_app in Hc as [Hc|Hc].
  { left. by apply (crash_committed st bs (cview c) Hlen Hhome _ _ _ Hiw Hc2). }
  set (d3 := apply_writes _ _) in Hc.
  assert (Hd3 : forall b, d3 b = if decide (b ∈ bs) then cview c b else dupd d1 st h1 b)
    by (intros; unfold d3; by rewrite install_writes_at).
  assert (Hc3 : committed st bs (cview c) d3).
  { destruct Hc2 as (A1 & A2 & A3). split_and!.
    - rewrite Hd3, decide_False by (by eapply start_not_home). done.
    - intros j b Hj. rewrite Hd3, decide_False; [by apply A2|]. intros Hb. apply Hhome in Hb.
      apply lookup_lt_Some in Hj. unfold home, st in *. lia.
    - intros b Hb Hn'. rewrite Hd3, decide_False by done. by apply A3. }
  assert (Hh0 : head_is (new_head (set_lh_n 0 l) h1) []).
  { apply (new_head_ok (set_lh_n 0 l)); auto; [|simpl; unfold LOGDATA, LOGSIZE, MAXOPBLOCKS; lia].
    apply new_head_ok; auto. by apply (law_len c ∅). }
  destruct (crash_erase st bs (cview c) Hlen d3 (new_head (set_lh_n 0 l) h1) d Hc3) as [?|?]; auto.
  intros b Hb. rewrite Hd3. dcase; [done|]. by apply Hc2.
Qed.

(** ** Building a transaction *)

Lemma log_write_find_run l bn k : forall i,
  let j := log_write_find k i bn l in
  (i <= j <= i + k)%nat /\ (forall x, (i <= x < j)%nat -> lh_at l x <> bn) /\
  ((j < i + k)%nat -> lh_at l j = bn).
Proof.
  induction k as [|k IH]; intros i; cbn [log_write_find].
  { split_and!; lia. }
  destruct (Z.eqb_spec (lh_at l i) bn) as [E|E]; [split; [lia|split; [intros; lia|done]]|].
  destruct (IH (S i)) as (H1 & H2 & H3). split; [lia|split; [|intros; apply H3; lia]].
  intros x Hx. destruct (decide (x = i)) as [->|]; [done|]. apply H2. lia.
Qed.

Lemma lh_at_set l i v j : (i < length (lh_block l))%nat ->
  lh_at (set_lh_block i v l) j = if decide (j = i) then v else lh_at l j.
Proof.
  intros Hi. unfold lh_at. cbn [set_lh_block lh_block]. destruct (decide (j = i)) as [->|].
  - by rewrite list_lookup_insert_eq.
  - by rewrite list_lookup_insert_ne.
Qed.

(** The header after [log_write] of block [bn]: absorbed or appended. *)
Lemma log_write_blocks l bn :
  let n := Z.to_nat (lh_n l) in
  let i := log_write_find n 0 bn l in
  let l1 := set_lh_block i bn l in
  let l2 := if Z.of_nat i =? lh_n l then set_lh_n (lh_n l + 1) l1 else l1 in
  0 <= lh_n l -> (n < length (lh_block l))%nat ->
  (if decide (bn ∈ lh_blocks l) then lh_n l2 = lh_n l /\ (Z.of_nat i =? lh_n l) = false
   else lh_n l2 = lh_n l + 1 /\ (Z.of_nat i =? lh_n l) = true) /\
  lh_blocks l2 = (if decide (bn ∈ lh_blocks l) then lh_blocks l else lh_blocks l ++ [bn]) /\
  (forall j, lh_at l2 j = bn \/ lh_at l2 j = lh_at l j) /\ length (lh_block l2) = length (lh_block l) /\
  start l2 = start l /\ size l2 = size l /\ outstanding l2 = outstanding l.
Proof.
  intros n i l1 l2 Hn0 Hlen.
  destruct (log_write_find_run l bn n 0) as (Hi & Hbefore & Hat). fold i in Hi, Hbefore, Hat.
  assert (Hin : bn ∈ lh_blocks l <-> (i < n)%nat).
  { split.
    - intros Hb. apply list_elem_of_In, in_map_iff in Hb as (j & Hj & Hjn%in_seq).
      destruct (decide (i < n)%nat); [done|]. destruct (Hbefore j); [lia|done].
    - intros Hlt. rewrite <- (Hat ltac:(lia)). by apply lh_blocks_at. }
  assert (Hl1 : forall j, lh_at l1 j = if decide (j = i) then bn else lh_at l j) by (intros; apply lh_at_set; lia).
  assert (Hat2 : forall j, lh_at l2 j = lh_at l1 j) by (intros; unfold l2; by destruct (_ =? _)).
  split_and!; try (unfold l2, l1; destruct (_ =? _); cbn; rewrite ?length_insert; done).
  - unfold l2. destruct (Z.eqb_spec (Z.of_nat i) (lh_n l)), (decide (bn ∈ lh_blocks l)) as [Hb|Hb];
      rewrite Hin in Hb; try lia; done.
  - unfold lh_blocks at 1. unfold l2 at 2.
    destruct (Z.eqb_spec (Z.of_nat i) (lh_n l)) as [E|E], (decide (bn ∈ lh_blocks l)) as [Hb|Hb];
      rewrite Hin in Hb; try lia; cbn [set_lh_n lh_n].
    + replace (Z.to_nat (lh_n l + 1)) with (n + 1)%nat by lia. rewrite seq_app, map_app. f_equal.
      * apply map_ext_in. intros j Hj%in_seq. rewrite Hat2, Hl1, decide_False by lia. done.
      * simpl. rewrite Hat2, Hl1, decide_True by lia. done.
    + cbn [l1 set_lh_block lh_n]. apply map_ext_in. intros j Hj%in_seq. rewrite Hat2, Hl1.
      dcase; [subst j; symmetry; apply Hat; lia|done].
  - intros j. rewrite Hat2, Hl1. dcase; auto.
Qed.

(** A block is read, changed and handed to [log_write], as the file system
    does it; the transaction stays well formed. *)
Definition log_update (bn : Z) (f : block -> block) (l : log) (c : C) : outcome (log * C) :=
  '(b, c) ← cread bn c;
  let c := cset b (f (cdata c b)) c in
  '(l, c) ← log_write b l c;
  c ← crelse b c;
  Ok (l, c).

(** [log_write] of a block that the process holds. *)
Record logged (l : log) (c : C) (H : gmap nat Z) (bn : Z) (l' : log) (c' : C) : Prop := {
  lg_wf : cwf c' H;
  lg_same : csame c c';
  lg_refs : forall b, crefs c' b = crefs c b + if decide (b = bn /\ bn ∉ lh_blocks l) then 1 else 0;
  lg_blocks : lh_blocks l' = (if decide (bn ∈ lh_blocks l) then lh_blocks l else lh_blocks l ++ [bn]);
  lg_n : lh_n l' = lh_n l + if decide (bn ∈ lh_blocks l) then 0 else 1;
  lg_at : forall j, lh_at l' j = bn \/ lh_at l' j = lh_at l j;
  lg_len : length (lh_block l') = length (lh_block l);
  lg_start : start l' = start l;
  lg_size : size l' = size l;
  lg_out : outstanding l' = outstanding l;
  lg_comm : committing l' = committing l
}.

Lemma log_write_run l c H h bn :
  cwf c H -> H !! h = Some bn -> length (lh_block l) = Z.to_nat LOGSIZE -> 1 <= outstanding l ->
  0 <= lh_n l < LOGSIZE -> lh_n l < size l - 1 -> 0 <= bn < 2147483648 -> crefs c bn < 4294967295 ->
  exists l' c', log_write h l c = Ok (l', c') /\ logged l c H bn l' c'.
Proof.
  intros Hw Hh Hlen Hout HnL Hsz Hr Href. unfold LOGDATA, LOGSIZE, MAXOPBLOCKS in *.
  destruct (law_held c H h bn Hw Hh) as (_ & Hbno & _).
  destruct (log_write_blocks l bn) as (Hcase & Hbs & Hat & Hl2 & Hst2 & Hsz2 & Hout2); [lia|lia|].
  set (i := log_write_find _ 0 bn l) in *. set (l1 := set_lh_block i bn l) in *.
  set (l2 := if Z.of_nat i =? lh_n l then _ else _) in *.
  exists l2, (if Z.of_nat i =? lh_n l then cpin h c else c). split.
  { unfold log_write, LOGDATA, LOGSIZE, MAXOPBLOCKS. ztest. rewrite Hbno, s32_id by lia. fold i l1. unfold l2.
    change (lh_n l1) with (lh_n l). by destruct (_ =? _). }
  assert (Hcm : committing l2 = committing l) by (unfold l2; by destruct (_ =? _)).
  destruct (decide (bn ∈ lh_blocks l)) as [Hin|Hin]; destruct Hcase as [Hn2 ->].
  - split; auto; try (by rewrite decide_True); [by split| |rewrite decide_True by done; lia].
    intros b. rewrite decide_False by tauto. lia.
  - destruct (law_pin c H h bn Hw Hh Href) as (? & ? & Hr3). split; auto; try (by rewrite decide_False).
    intros b. rewrite Hr3. repeat dcase; tauto || lia.
Qed.

Lemma pending_set l l2 c c' bn :
  pending l c -> home l bn -> -2147483648 <= bn < 2147483648 ->
  lh_blocks l2 = (if decide (bn ∈ lh_blocks l) then lh_blocks l else lh_blocks l ++ [bn]) ->
  0 <= lh_n l2 < Z.of_nat NBUF -> (forall j, lh_at l2 j = bn \/ lh_at l2 j = lh_at l j) -> start l2 = start l ->
  cwf c' ∅ -> (forall b, cdisk c' b = cdisk c b) ->
  (forall b, crefs c' b = if decide (b ∈ lh_blocks l2) then 1 else 0) -> pending l2 c'.
Proof.
  intros [Hw Hn Hnd Hhome Hint Href Hhdr] Hbn Hr Hbs Hn2 Hat Hst Hw' Hd Href'.
  assert (Hin : forall b, b ∈ lh_blocks l2 -> b ∈ lh_blocks l \/ b = bn).
  { intros b. rewrite Hbs. destruct (decide _); [by left|]. rewrite elem_of_app, list_elem_of_singleton. tauto. }
  split; auto.
  - rewrite Hbs. destruct (decide (bn ∈ lh_blocks l)); [done|]. apply NoDup_app. split_and!; [done| |apply NoDup_singleton].
    intros x Hx. rewrite list_elem_of_singleton. by intros ->.
  - intros b Hb. unfold home. rewrite Hst. destruct (Hin b Hb) as [?| ->]; [by apply Hhome|done].
  - intros j. destruct (Hat j) as [->| ->]; auto.
  - rewrite Hst, Hd. done.
Qed.

Lemma log_update_run l c bn f :
  pending l c -> length (lh_block l) = Z.to_nat LOGSIZE -> 1 <= outstanding l ->
  lh_n l < LOGSIZE -> lh_n l < size l - 1 -> lh_n l < Z.of_nat NBUF - 1 ->
  home l bn -> 0 <= bn < 2147483648 -> (forall d, length d = BSIZE -> length (f d) = BSIZE) ->
  exists l' c', log_update bn f l c = Ok (l', c') /\ pending l' c' /\
    (forall b, cview c' b = if decide (b = bn) then f (cview c bn) else cview c b) /\
    (forall b, cdisk c' b = cdisk c b) /\ cwrites c' = cwrites c /\
    lh_blocks l' = (if decide (bn ∈ lh_blocks l) then lh_blocks l else lh_blocks l ++ [bn]) /\
    length (lh_block l') = length (lh_block l) /\ size l' = size l /\ outstanding l' = outstanding l /\
    start l' = start l.
Proof.
  intros Hp Hlen Hout HnL Hsz Hnb Hbn Hr Hf. pose proof Hp as [Hw Hn _ _ _ Href _].
  unfold LOGDATA, LOGSIZE, MAXOPBLOCKS in *.
  destruct (law_read c ∅ bn Hw) as (h & c1 & E1 & _ & Hw1 & Hs1 & Hr1).
  { by intros; rewrite lookup_empty. } { apply croom_one. by eapply pending_room. } { rewrite Href. dcase; lia. }
  set (H1 := <[h := bn]> (∅ : gmap nat Z)) in *.
  assert (Hh : H1 !! h = Some bn) by apply lookup_insert_eq.
  destruct (law_held c1 H1 h bn Hw1 Hh) as (Hd & _ & _). rewrite (cs_view _ _ Hs1) in Hd.
  destruct (law_set c1 H1 h bn (f (cview c bn)) Hw1 Hh) as (Hw2 & Hv2 & Hd2 & Hwr2 & Hr2).
  { apply Hf. by apply (law_len c ∅). }
  set (c2 := cset h (f (cview c bn)) c1) in *.
  destruct (log_write_run l c2 H1 h bn) as (l2 & c3 & Hlw & [Hw3 Hs3 Hr3 Hbs Hn2 Hat Hl2 Hst2 Hsz2 Hout2]); auto;
    unfold LOGDATA, LOGSIZE, MAXOPBLOCKS; try lia.
  { rewrite Hr2, Hr1, Href. repeat dcase; lia. }
  destruct (law_relse c3 H1 h bn Hw3 Hh) as (c4 & E4 & Hw4 & Hs4 & Hr4).
  { rewrite Hr3, Hr2, Hr1, Href. repeat dcase; try tauto; lia. }
  assert (HH : delete h H1 = ∅) by (unfold H1; by rewrite delete_insert_eq, delete_empty). rewrite HH in Hw4.
  assert (Hdk : forall b, cdisk c4 b = cdisk c b) by (intros; by rewrite (cs_disk _ _ Hs4), (cs_disk _ _ Hs3), Hd2, (cs_disk _ _ Hs1)).
  exists l2, c4. split_and!; auto.
  - unfold log_update. rewrite E1. cbn [mbind outcome_bind]. rewrite Hd. fold c2. rewrite Hlw. cbn [mbind outcome_bind].
    rewrite E4. done.
  - apply (pending_set l l2 c c4 bn); auto; [lia|unfold NBUF in *; destruct (decide (bn ∈ lh_blocks l)); lia|].
    intros b. rewrite Hbs, Hr4, Hr3, Hr2, Hr1, Href. destruct (decide (b = bn)) as [->|Hne].
    + destruct (decide (bn ∈ lh_blocks l)) as [Hin|Hin].
      * rewrite (decide_False (P := _ /\ _)) by tauto. rewrite decide_True by done. lia.
      * rewrite !decide_True by (rewrite ?elem_of_app, ?list_elem_of_singleton; tauto). lia.
    + rewrite (decide_False (P := _ /\ _)) by tauto. destruct (decide (bn ∈ lh_blocks l)); [lia|].
      destruct (decide (b ∈ lh_blocks l)); [rewrite decide_True by (rewrite elem_of_app; tauto)|
        rewrite decide_False by (rewrite elem_of_app, list_elem_of_singleton; tauto)]; lia.
  - intros b. by rewrite (cs_view _ _ Hs4), (cs_view _ _ Hs3), Hv2, (cs_view _ _ Hs1).
  - by rewrite (cs_writes _ _ Hs4), (cs_writes _ _ Hs3), Hwr2, (cs_writes _ _ Hs1).
Qed.

(** ** Recovery *)

(** A disk with a log that [write_head] wrote. *)
Record log_disk (st : Z) (d : Z -> block) : Prop := {
  ld_n : 0 <= s32 (get32 (d st) 0) <= LOGDATA;
  ld_nd : NoDup (hdr (d st));
  ld_home : forall b, b ∈ hdr (d st) -> homeb st b
}.

(** The log before start-up: nothing is known but the size of the array. *)
Definition log_array (l : log) : Prop :=
  length (lh_block l) = Z.to_nat LOGSIZE /\ forall j, -2147483648 <= lh_at l j < 2147483648.

(** The parts of the log that do not come from the disk. *)
Definition same_conf (l l' : log) : Prop := size l' = size l /\ outstanding l' = outstanding l /\ committing l' = committing l.

Lemma read_head_run l c :
  cwf c ∅ -> (forall b, crefs c b = 0) -> log_disk (start l) (cdisk c) -> log_array l ->
  exists l' c', read_head l c = Ok (l', c') /\ cwf c' ∅ /\ csame c c' /\ (forall b, crefs c' b = 0) /\
    start l' = start l /\ lh_n l' = s32 (get32 (cdisk c (start l)) 0) /\
    lh_blocks l' = hdr (cdisk c (start l)) /\ log_array l' /\ same_conf l l'.
Proof.
  intros Hw Href [Hn Hnd Hhome] [Hlen Hint]. unfold read_head.
  destruct (law_read c ∅ (start l) Hw) as (h & c1 & -> & _ & Hw1 & Hs1 & Hr1).
  { by intros; rewrite lookup_empty. }
  { apply croom_one. exists ∅. split; [rewrite size_empty; unfold NBUF; lia|]. intros b. rewrite Href. lia. }
  { rewrite Href. lia. }
  cbn [mbind outcome_bind].
  destruct (law_held c1 _ h (start l) Hw1 (lookup_insert_eq ∅ h (start l))) as (-> & _ & _).
  rewrite (cs_view _ _ Hs1), (law_clean c ∅ (start l) Hw (Href _)).
  set (d := cdisk c (start l)) in *. set (n := s32 (get32 d 0)) in *. cbn [set_lh_n lh_n].
  set (l1 := set_lh_n n l). destruct (read_head_loop_keep d (Z.to_nat n) 0 l1) as (Hkn & Hks & Hkz & Hko & Hkc & Hkl).
  set (l' := read_head_loop (Z.to_nat n) 0 d l1) in *.
  assert (Hat : forall j, lh_at l' j = if decide (0 <= j < 0 + Z.to_nat n)%nat then s32 (get32 d (4 + 4 * j)) else lh_at l j).
  { intros j. unfold l'. rewrite read_head_loop_at; [done|]. simpl. unfold LOGDATA, LOGSIZE, MAXOPBLOCKS in *. lia. }
  destruct (law_relse c1 (<[h := start l]> ∅) h (start l) Hw1) as (c2 & -> & Hw2 & Hs2 & Hr2).
  { apply lookup_insert_eq. }
  { intros _. rewrite (cs_view _ _ Hs1), (cs_disk _ _ Hs1). by apply (law_clean c ∅). }
  cbn [mbind outcome_bind]. rewrite delete_insert_eq, delete_empty in Hw2.
  exists l', c2. split_and!; auto.
  - split; intros; by rewrite ?(cs_view _ _ Hs2), ?(cs_view _ _ Hs1), ?(cs_disk _ _ Hs2), ?(cs_disk _ _ Hs1),
      ?(cs_writes _ _ Hs2), ?(cs_writes _ _ Hs1).
  - intros b. rewrite Hr2, Hr1, Href. dcase; lia.
  - unfold lh_blocks, hdr. rewrite Hkn. cbn [l1 set_lh_n lh_n]. fold n. apply map_ext_in. intros j Hj%in_seq.
    rewrite Hat, decide_True by lia. done.
  - split; [by rewrite Hkl|]. intros j. rewrite Hat. dcase; [apply s32_range|apply Hint].
  - by split_and!.
Qed.

Lemma committed_logical st d :
  log_disk st d -> committed st (hdr (d st)) (logical st d) d.
Proof.
  intros [Hn Hnd Hhome]. split_and!.
  { split; [|done]. unfold hdr. rewrite length_map, length_seq. lia. }
  - intros j b Hj. unfold logical. destruct (list_find (fun x => x = b) (hdr (d st))) as [[i x]|] eqn:E.
    + apply list_find_Some in E as (Hi & -> & _). by rewrite (NoDup_lookup _ i j b Hnd Hi Hj).
    + apply list_find_None in E. rewrite Forall_forall in E. destruct (E b); [by eapply list_elem_of_lookup_2|done].
  - intros b Hb Hni. unfold logical. destruct (list_find (fun x => x = b) (hdr (d st))) as [[i x]|] eqn:E; [|done].
    apply list_find_Some in E as (Hi & -> & _). destruct Hni. by eapply list_elem_of_lookup_2.
Qed.

Lemma recover_run l c :
  cwf c ∅ -> (forall b, crefs c b = 0) -> log_disk (start l) (cdisk c) -> log_array l ->
  exists l' c' w, recover_from_log l c = Ok (l', c') /\ cwf c' ∅ /\ (forall b, crefs c' b = 0) /\
    lh_n l' = 0 /\ start l' = start l /\ head_is (cdisk c' (start l)) [] /\
    (forall b, home l b -> cdisk c' b = logical (start l) (cdisk c) b) /\
    cwrites c' = cwrites c ++ w /\
    (forall d b, crash (cdisk c) w d -> home l b -> logical (start l) d b = logical (start l) (cdisk c) b) /\
    log_array l' /\ same_conf l l'.
Proof.
  intros Hw Href Hld Hla. pose proof Hld as [Hn Hnd Hhome]. set (st := start l) in *.
  pose proof (committed_logical st (cdisk c) Hld) as Hcm.
  set (bs := hdr (cdisk c st)) in *. set (new := logical st (cdisk c)) in *.
  destruct (read_head_run l c Hw Href Hld Hla) as (l1 & c1 & E1 & Hw1 & Hs1 & Hr1 & Hst1 & Hn1 & Hbs1 & Hla1 & Hcf1).
  fold st in Hst1, Hn1, Hbs1. fold bs in Hbs1.
  assert (Hroom : forall c', (forall b, crefs c' b = 0) -> forall k, (k <= NBUF)%nat -> room c' k).
  { intros c' Hr k Hk. exists ∅. split; [rewrite size_empty; lia|]. intros b. rewrite Hr. lia. }
  assert (Hview : forall b, cview c1 b = cdisk c b) by (intros b; rewrite (cs_view _ _ Hs1); apply (law_clean c ∅ b Hw (Href b))).
  assert (Hlen : (length bs <= Z.to_nat LOGDATA)%nat) by (rewrite <- Hbs1, length_lh_blocks; lia).
  set (n := Z.to_nat (lh_n l1)).
  destruct (install_run l1 true n 0 c1 Hw1) as (c2 & E2 & Hw2 & Hv2 & Hd2 & Hwr2 & Hr2).
  { apply (Hroom c1 Hr1). unfold NBUF. lia. } { intros b. rewrite Hr1. lia. } { lia. }
  { change (NoDup (lh_blocks l1)). by rewrite Hbs1. }
  { intros j Hj. split; [|done]. pose proof (lh_blocks_at l1 j ltac:(lia)) as Hb. rewrite Hbs1 in Hb.
    unfold home. rewrite Hst1. by apply Hhome. }
  assert (Hiw : home_writes l1 (cview c1) 0 n = install_writes l1 new).
  { apply map_ext_in. intros j Hj%in_seq. f_equal. rewrite Hview, Hst1.
    destruct Hcm as (_ & Hl & _). apply Hl. rewrite <- Hbs1. unfold lh_blocks.
    change (map (lh_at l1) ?x) with (lh_at l1 <$> x). rewrite list_lookup_fmap, lookup_seq_lt by lia. done. }
  rewrite Hiw in *.
  assert (Hr2' : forall b, crefs c2 b = 0) by (intros b; rewrite Hr2, Hr1; simpl; dcase; lia).
  destruct (write_head_run (set_lh_n 0 l1) c2 Hw2) as (c3 & E3 & Hw3 & Hv3 & Hd3 & Hwr3 & Hr3 & Hh3); auto.
  { apply (Hroom c2 Hr2'). unfold NBUF. lia. } { rewrite Hr2'. lia. } { simpl. unfold LOGDATA, LOGSIZE, MAXOPBLOCKS. lia. }
  { apply Hla1. }
  cbn [set_lh_n start] in *. rewrite Hst1 in *. set (h0 := new_head _ _) in *.
  assert (Hins : forall d b, apply_writes (install_writes l1 new) d b = if decide (b ∈ bs) then new b else d b).
  { intros d b. rewrite install_writes_at by (by rewrite Hbs1). by rewrite Hbs1. }
  assert (Hsth : forall b, homeb st b -> b <> st) by (intros b Hb ->; unfold homeb, LOGDATA, LOGSIZE, MAXOPBLOCKS in *; lia).
  assert (Hin : Forall (fun e => e.1 ∈ bs) (install_writes l1 new)).
  { apply Forall_forall. intros e He. rewrite <- Hbs1, <- (install_writes_fst l1 new). apply list_elem_of_fmap. by exists e. }
  exists (set_lh_n 0 l1), c3, (install_writes l1 new ++ [(st, h0)]). split_and!; auto.
  - unfold recover_from_log. rewrite E1. cbn [mbind outcome_bind]. unfold install_trans. fold n. rewrite E2.
    cbn [mbind outcome_bind]. rewrite E3. done.
  - intros b. by rewrite Hr3.
  - rewrite Hd3. unfold dupd. by rewrite decide_True.
  - intros b Hb. rewrite Hd3. unfold dupd. rewrite decide_False by (apply Hsth; exact Hb). rewrite Hd2, Hins.
    dcase; [done|]. rewrite (cs_disk _ _ Hs1). by apply Hcm.
  - rewrite Hwr3, Hwr2, (cs_writes _ _ Hs1). by rewrite <- app_assoc.
  - intros d b Hc Hb. apply crash_app in Hc as [Hc|Hc].
    + eapply logical_committed; [|done]. by apply (crash_committed st bs new Hlen Hhome _ _ _ Hin Hcm).
    + assert (Hc3 : committed st bs new (apply_writes (install_writes l1 new) (cdisk c)))
        by (apply (crash_committed st bs new Hlen Hhome _ _ _ Hin Hcm), crash_all).
      destruct (crash_erase st bs new Hlen _ h0 d Hc3) as [?|?]; auto.
      * intros x Hx. rewrite Hins. dcase; [done|]. by apply Hcm.
      * by eapply logical_committed.
      * by apply logical_idle.
Qed.

(** Such a disk has a well-formed log. *)
Lemma idle_log_disk st v d : idle st v d -> log_disk st d.
Proof.
  intros [[Hn Hh] _]. split; rewrite ?Hn, ?Hh.
  - unfold LOGDATA, LOGSIZE, MAXOPBLOCKS. simpl. lia.
  - constructor.
  - by intros b ?%elem_of_nil.
Qed.

Lemma committed_log_disk l c d : pending l c -> committed (start l) (lh_blocks l) (cview c) d -> log_disk (start l) d.
Proof.
  intros Hp [[Hn Hh] _]. split; rewrite ?Hn, ?Hh.
  - rewrite length_lh_blocks. pose proof (pd_n l c Hp). unfold LOGDATA, LOGSIZE, MAXOPBLOCKS, NBUF in *. lia.
  - apply Hp.
  - intros b. apply Hp.
Qed.

Lemma commit_writes_length l c : pending l c -> Forall (fun e => length e.2 = BSIZE) (commit_writes l (cview c)).
Proof.
  intros Hp. pose proof Hp as [Hw Hn _ _ Hint _ _].
  assert (Hl : forall b, length (cview c b) = BSIZE) by (intros; by apply (law_len c ∅)).
  assert (HnL : 0 <= lh_n l <= LOGDATA) by (unfold LOGDATA, LOGSIZE, MAXOPBLOCKS, NBUF in *; lia).
  assert (HnS : 0 <= lh_n l <= LOGSIZE) by (unfold LOGDATA in *; lia).
  assert (Hh : length (new_head l (cview c (start l))) = BSIZE) by (by apply new_head_ok).
  unfold commit_writes. rewrite Forall_app, Forall_cons, Forall_app, Forall_cons. split_and!; auto.
  - apply Forall_forall. intros e He. apply list_elem_of_In, in_map_iff in He as (j & <- & _). apply Hl.
  - apply Forall_forall. intros e He. apply list_elem_of_In, in_map_iff in He as (j & <- & _). apply Hl.
  - apply (new_head_ok (set_lh_n 0 l)); auto. simpl. unfold LOGDATA, LOGSIZE, MAXOPBLOCKS. lia.
Qed.

End Crash.

(** ** The log on the buffer cache of Bio.v *)

Section OnBio.
Variables (me D : Z).
#[local] Instance the_cache : BlockCache bcache := bio_cache me D.
#[local] Instance the_laws : BlockCacheLaws bcache := bio_laws me D.

(** C6: a transaction is atomic with respect to crashes.  [commit] of the
    pending blocks succeeds and makes them durable; and if the machine stops
    at any point of its disk writes, also in the middle of a block, then
    starting again with an empty cache and running [initlog] leaves every
    block outside the log either as it was on disk before the commit, all
    of them, or as it was in the cache, all of them. *)
Theorem commit_crash_atomic l c :
  D <> 0 -> pending l c -> 0 < lh_n l ->
  -2147483648 <= start l < 2147483648 ->
  exists c' w,
    commit l c = Ok (set_lh_n 0 l, c') /\
    (forall b, home l b -> disk_block (disk c') b = view_of D c b) /\
    writes c' = writes c ++ w /\
    forall dd, crash (disk_block (disk c)) w (disk_block dd) ->
    exists l2 c2, initlog (start l) (size l) (binit dd) = Ok (l2, c2) /\ lh_n l2 = 0 /\
      ((forall b, home l b -> disk_block (disk c2) b = disk_block (disk c) b) \/
       (forall b, home l b -> disk_block (disk c2) b = view_of D c b)).
Proof.
  intros HD Hp Hpos Hst.
  destruct (commit_run l c Hp Hpos) as (c' & Hrun & Hw' & Hv & Hd & Hwr & Hr & _).
  exists c', (commit_writes l (cview c)). split_and!; auto.
  - intros b Hb. specialize (Hv b Hb). rewrite <- (law_clean c' ∅ b Hw' (Hr b)) at 1. exact Hv.
  - intros dd Hc. pose proof (commit_crash l c _ Hp Hc) as Hph.
    assert (Hlen : forall b, length (disk_block dd b) = BSIZE).
    { apply (crash_length _ _ _ (fun b => proj2 (law_len c ∅ b (pd_wf l c Hp))) (commit_writes_length l c Hp) Hc). }
    destruct (binit_wf me D dd HD Hlen) as (Hwb & Hrb & Hvb & Hdb & Hwrb).
    assert (Hld : log_disk (start l) (disk_block dd)).
    { destruct Hph as [Hi|[Hi|Hi]]; eauto using idle_log_disk, committed_log_disk. }
    set (l0 := Log (start l) (s32 (size l)) 0 false 0 (lh_block log0)).
    assert (Hd0 : cdisk (binit dd) = disk_block dd) by (cbn; by rewrite Hdb).
    destruct (recover_run (HC := the_cache) l0 (binit dd) Hwb Hrb) as (l2 & c2 & w & Hrec & _ & _ & Hn2 & _ & _ & Hh2 & _).
    { by rewrite Hd0. }
    { split; [done|]. intros j. unfold lh_at, l0, log0. cbn [lh_block].
      destruct (replicate (Z.to_nat LOGSIZE) 0 !! j) as [x|] eqn:E; simpl; [|lia].
      apply lookup_replicate in E as [-> _]. lia. }
    exists l2, c2. split_and!; auto.
    { unfold initlog. cbn [Z.leb]. rewrite s32_id by done. exact Hrec. }
    rewrite Hd0 in Hh2.
    destruct Hph as [Hi|[Hi|Hi]]; [left|right|right]; intros b Hb; (etransitivity; [exact (Hh2 b Hb)|]).
    + by apply logical_idle with (v := disk_block (disk c)).
    + by eapply logical_committed.
    + by apply logical_idle with (v := view_of D c).
Qed.

(** A started log with an empty cache: no transaction is pending. *)
Lemma pending_boot st sz out dd :
  D <> 0 -> (forall b, length (disk_block dd b) = BSIZE) -> head_is (disk_block dd st) [] ->
  pending (Log st sz out false 0 (lh_block log0)) (binit dd).
Proof.
  intros HD Hlen Hh. destruct (binit_wf me D dd HD Hlen) as (Hwb & Hrb & _ & Hdb & _).
  assert (Hd0 : head_is (cdisk (binit dd) st) []) by (cbn; by rewrite Hdb).
  split; [exact Hwb|..|exact Hd0].
  - cbn. unfold NBUF. lia.
  - constructor.
  - by intros b ?%elem_of_nil.
  - intros j. unfold lh_at. cbn [lh_block log0]. destruct (replicate _ 0 !! j) as [x|] eqn:E; simpl; [|lia].
    apply lookup_replicate in E as [-> _]. lia.
  - intros b. rewrite decide_False by apply not_elem_of_nil. apply Hrb.
Qed.

(** C7: updating a block inside a transaction.  Reading it, changing it,
    [log_write] and [brelse] succeed while the transaction has room; readers
    see the new contents, the disk is not touched, and the block is recorded
    once in the header however often it is written (absorption), so the
    transaction stays well formed for [commit]. *)
Theorem log_write_transaction l c bn f :
  pending l c -> length (lh_block l) = Z.to_nat LOGSIZE -> 1 <= outstanding l ->
  lh_n l < LOGSIZE -> lh_n l < size l - 1 -> lh_n l < Z.of_nat NBUF - 1 ->
  home l bn -> 0 <= bn < 2147483648 -> (forall d, length d = BSIZE -> length (f d) = BSIZE) ->
  exists l' c',
    ('(b, c) ← bread me D bn c;
     let c := setb b (set_data (f (data (getb c b)))) c in
     '(l, c) ← log_write b l c;
     c ← brelse me b c;
     Ok (l, c)) = Ok (l', c') /\ pending l' c' /\
    (forall b, view_of D c' b = if decide (b = bn) then f (view_of D c bn) else view_of D c b) /\
    (forall b, disk_block (disk c') b = disk_block (disk c) b) /\ writes c' = writes c /\
    lh_blocks l' = (if decide (bn ∈ lh_blocks l) then lh_blocks l else lh_blocks l ++ [bn]).
Proof.
  intros. destruct (log_update_run l c bn f) as (l' & c' & Hrun & Hp & Hv & Hd & Hwr & Hbs & _); auto.
  exists l', c'. auto 10.
Qed.

End OnBio.

(** ** Witnesses: one block of a new disk is changed in a transaction *)

Lemma zero_disk_length b : length (disk_block ∅ b) = BSIZE.
Proof. unfold disk_block. rewrite lookup_empty. reflexivity. Qed.

Lemma zero_disk_head st : head_is (disk_block ∅ st) [].
Proof. unfold disk_block. rewrite lookup_empty. vm_compute. split; reflexivity. Qed.

Definition log1 : log := Log 2 30 1 false 0 (lh_block log0).

Lemma log_write_transaction_witness :
  pending (HC := bio_cache 7 1) log1 (binit ∅) /\
  exists l' c',
    ('(b, c) ← bread 7 1 50 (binit ∅);
     let c := setb b (set_data (put32 (data (getb c b)) 0 99)) c in
     '(l, c) ← log_write (HC := bio_cache 7 1) b log1 c;
     c ← brelse 7 b c;
     Ok (l, c)) = Ok (l', c') /\ lh_blocks l' = [50].
Proof.
  assert (Hp : pending (HC := bio_cache 7 1) log1 (binit ∅))
    by (apply pending_boot; [lia|apply zero_disk_length|apply zero_disk_head]).
  split; [exact Hp|].
  destruct (log_write_transaction 7 1 log1 (binit ∅) 50 (fun d => put32 d 0 99) Hp) as (l' & c' & H1 & _ & _ & _ & _ & H2);
    [reflexivity|cbn; lia|vm_compute; reflexivity|vm_compute; reflexivity|vm_compute; reflexivity|
     unfold home, LOGDATA, LOGSIZE, MAXOPBLOCKS; cbn; lia|lia| |].
  - intros d Hd. rewrite length_put32; [exact Hd|rewrite Hd; unfold BSIZE; lia].
  - exists l', c'. split; [exact H1|exact H2].
Defined.

Lemma commit_crash_atomic_witness :
  exists l c, pending (HC := bio_cache 7 1) l c /\ lh_blocks l = [50] /\
  exists c', commit (HC := bio_cache 7 1) l c = Ok (set_lh_n 0 l, c') /\
    (forall b, home l b -> disk_block (disk c') b = view_of 1 c b).
Proof.
  destruct (log_update_run (HL := bio_laws 7 1) log1 (binit ∅) 50 (fun d => put32 d 0 99))
    as (l & c & _ & Hp & _ & _ & _ & Hbs & _ & _ & _ & Hst);
    [apply pending_boot; [lia|apply zero_disk_length|apply zero_disk_head]|reflexivity|cbn; lia|
     vm_compute; reflexivity|vm_compute; reflexivity|vm_compute; reflexivity|
     unfold home, LOGDATA, LOGSIZE, MAXOPBLOCKS; cbn; lia|lia|
     intros d Hd; rewrite length_put32; [exact Hd|rewrite Hd; unfold BSIZE; lia]|].
  rewrite decide_False in Hbs by apply not_elem_of_nil.
  exists l, c. split; [exact Hp|]. split; [exact Hbs|].
  destruct (commit_crash_atomic 7 1 l c) as (c' & w & H1 & H2 & _);
    [lia|exact Hp| |rewrite Hst; cbn; lia|exists c'; split; [exact H1|exact H2]].
  assert (Hl1 : length (lh_blocks l) = 1%nat) by (rewrite Hbs; reflexivity). rewrite length_lh_blocks in Hl1. lia.
Defined.
