(* ===== verification/LogProto.v ===== *)
(** * Concurrent file-system calls and the space of the log

    Many processes run between [begin_op] and [end_op] at the same time.
    This file follows the log header through their interleavings: the calls
    of log.c that change it are the steps, each under [log.lock].  An
    operation is represented by the set of blocks it has passed to
    [log_write]; the file system's promise is that it has at most
    [MAXOPBLOCKS] elements. *)
From S2P Require Import Prelude Block Bio BioTheory Log LogTheory LogCrash.

(** Only the block number of a buffer matters to the header: a cache whose
    single buffer has block number [c]. *)
#[local] Instance one_buf : BlockCache Z := {
  cread _ c := Ok (0%nat, c); cwrite _ c := Ok c; crelse _ c := Ok c; cpin _ c := c; cunpin _ c := c;
  cdata _ _ := []; cset _ _ c := c; cblockno c _ := c;
  cview _ _ := []; cdisk _ _ := []; cwrites _ := []; crefs _ _ := 0; cwf _ _ := True
}.

(** [log_write] of a buffer of block [bn], as far as the header goes. *)
Definition log_write_head (bn : Z) (l : log) : outcome log := fst <$> log_write 0 l bn.

(** The log, the running operations and whether some process commits. *)
Record proto := Proto { pl : log; ops : list (gset Z); busy : bool }.

Inductive pstep : proto -> proto -> Prop :=
| ps_begin l l' os by_ :
    begin_op l = Ok l' -> pstep (Proto l os by_) (Proto l' (∅ :: os) by_)
| ps_write l l' os1 B os2 bn by_ :
    (base.size ({[bn]} ∪ B) <= Z.to_nat MAXOPBLOCKS)%nat -> 0 <= bn < 2147483648 ->
    log_write_head bn l = Ok l' ->
    pstep (Proto l (os1 ++ B :: os2) by_) (Proto l' (os1 ++ ({[bn]} ∪ B) :: os2) by_)
| ps_end l l' os1 B os2 by_ c :
    end_op_start l = Ok (c, l') ->
    pstep (Proto l (os1 ++ B :: os2) by_) (Proto l' (os1 ++ os2) (by_ || c))
| ps_commit l os :
    (* the committer returns from commit() and clears [log.committing] *)
    pstep (Proto l os true) (Proto (set_committing false (set_lh_n 0 l)) os false).

(** The blocks an operation may still add. *)
Definition budget (B : gset Z) : Z := MAXOPBLOCKS - Z.of_nat (base.size B).
Definition reserved (os : list (gset Z)) : Z := foldr (fun B n => budget B + n) 0 os.

Record proto_inv (s : proto) : Prop := {
  pi_out : outstanding (pl s) = Z.of_nat (length (ops s));
  pi_three : outstanding (pl s) <= 3;
  pi_busy : committing (pl s) = busy s;
  pi_excl : busy s = true -> ops s = [];
  pi_ops : Forall (fun B => 0 <= budget B) (ops s);
  pi_n : 0 <= lh_n (pl s);
  pi_arr : length (lh_block (pl s)) = Z.to_nat LOGSIZE;
  pi_rec : forall B b, B ∈ ops s -> b ∈ B -> b ∈ lh_blocks (pl s);
  pi_space : lh_n (pl s) + reserved (ops s) <= LOGSIZE
}.

Lemma reserved_app os1 B os2 : reserved (os1 ++ B :: os2) = budget B + reserved (os1 ++ os2).
Proof. unfold reserved. induction os1 as [|B' os1 IH]; simpl in *; [done|]. rewrite IH. lia. Qed.

Lemma reserved_bound os : Forall (fun B => 0 <= budget B) os ->
  0 <= reserved os <= MAXOPBLOCKS * Z.of_nat (length os).
Proof.
  induction 1 as [|B os HB Hos IH]; [simpl; lia|]. cbn [reserved foldr length]. fold (reserved os).
  assert (budget B <= MAXOPBLOCKS) by (unfold budget; lia). unfold MAXOPBLOCKS in *. lia.
Qed.

(** The header after [log_write]. *)
Lemma log_write_head_ok bn l l' :
  0 <= bn < 2147483648 -> 0 <= lh_n l -> length (lh_block l) = Z.to_nat LOGSIZE ->
  log_write_head bn l = Ok l' ->
  lh_n l' = lh_n l + (if decide (bn ∈ lh_blocks l) then 0 else 1) /\
  lh_blocks l' = (if decide (bn ∈ lh_blocks l) then lh_blocks l else lh_blocks l ++ [bn]) /\
  length (lh_block l') = length (lh_block l) /\ outstanding l' = outstanding l /\ committing l' = committing l.
Proof.
  intros Hbn Hn Hlen H. unfold log_write_head, log_write in H. cbn [cblockno one_buf cpin] in H.
  destruct (_ || _) eqn:E1 in H; [done|]. destruct (_ <? 1) in H; [done|]. bool_to_prop.
  rewrite s32_id in H by lia.
  destruct (log_write_blocks l bn) as (Hc & Hbs & _ & Hl2 & _ & _ & Ho); [done|unfold LOGSIZE, MAXOPBLOCKS in *; lia|].
  set (i := log_write_find _ 0 bn l) in *. set (l1 := set_lh_block i bn l) in *.
  change (lh_n l1) with (lh_n l) in H.
  assert (l' = if Z.of_nat i =? lh_n l then set_lh_n (lh_n l + 1) l1 else l1) as E.
  { destruct (_ =? _); simpl in H; congruence. }
  rewrite <- E in *. split_and!; auto.
  - destruct (decide (bn ∈ lh_blocks l)); destruct Hc as [-> _]; lia.
  - rewrite E. by destruct (_ =? _).
Qed.

Lemma proto_step s s' : proto_inv s -> pstep s s' -> proto_inv s'.
Proof.
  intros [Hout Hthree Hbusy Hex Hops Hn Harr Hrec Hsp] Hs. destruct Hs as
    [l l' os by_ Hb|l l' os1 B os2 bn by_ Hsz Hbn Hw|l l' os1 B os2 by_ c He|l os]; cbn [pl ops busy] in *.
  - unfold begin_op in Hb. destruct (committing l) eqn:Ec; [done|].
    destruct (Z.ltb_spec LOGSIZE (lh_n l + (outstanding l + 1) * MAXOPBLOCKS)); [done|].
    injection Hb as <-. pose proof (reserved_bound os Hops).
    split; cbn [pl ops busy set_outstanding outstanding committing lh_n lh_block]; auto.
    + rewrite Hout. cbn [length]. lia.
    + unfold LOGSIZE, MAXOPBLOCKS in *. lia.
    + by rewrite Ec.
    + intros E. by rewrite <- Hbusy in E.
    + apply Forall_cons. split; [|done]. unfold budget. rewrite size_empty. unfold MAXOPBLOCKS. simpl. lia.
    + intros B b. rewrite elem_of_cons. intros [->|HB] Hbb; [set_solver|]. by apply (Hrec B).
    + cbn [reserved foldr]. fold (reserved os). unfold budget. rewrite size_empty. unfold MAXOPBLOCKS in *. simpl. lia.
  - destruct (log_write_head_ok bn l l' Hbn Hn Harr Hw) as (Hn' & Hbs & Hlen & Ho & Hc).
    rewrite reserved_app in *. apply Forall_app in Hops as [Ho1 Ho2]. apply Forall_cons in Ho2 as [HB Ho2].
    split; cbn [pl ops busy]; auto.
    + rewrite Ho, Hout, !length_app. done.
    + by rewrite Ho.
    + by rewrite Hc.
    + intros E. specialize (Hex E). by destruct os1.
    + apply Forall_app. split; [done|]. apply Forall_cons. split; [|done]. unfold budget. unfold MAXOPBLOCKS in *. lia.
    + destruct (decide (bn ∈ lh_blocks l)); lia.
    + by rewrite Hlen.
    + assert (Hin : forall b, b ∈ lh_blocks l -> b ∈ lh_blocks l').
      { intros b Hb. rewrite Hbs. destruct (decide _); [done|]. apply elem_of_app. by left. }
      assert (Hbn' : bn ∈ lh_blocks l').
      { rewrite Hbs. destruct (decide _); [done|]. apply elem_of_app. right. by apply list_elem_of_singleton. }
      intros B' b. rewrite elem_of_app, elem_of_cons. intros [HB'|[->|HB']] Hb.
      * apply Hin, (Hrec B'); [|done]. apply elem_of_app. by left.
      * apply elem_of_union in Hb as [->%elem_of_singleton|Hb]; [done|]. apply Hin, (Hrec B); [|done].
        apply elem_of_app. right. apply elem_of_cons. by left.
      * apply Hin, (Hrec B'); [|done]. apply elem_of_app. right. apply elem_of_cons. by right.
    + rewrite reserved_app. unfold budget in *. destruct (decide (bn ∈ B)) as [HbB|HbB].
      * assert (bn ∈ lh_blocks l) by (apply (Hrec B); [apply elem_of_app; right; apply elem_of_cons; by left|done]).
        rewrite decide_True in Hn' by done. assert ({[bn]} ∪ B = B) as -> by set_solver. lia.
      * rewrite size_union, size_singleton by set_solver. destruct (decide (bn ∈ lh_blocks l)); lia.
  - unfold end_op_start in He. cbn [set_outstanding committing outstanding] in He.
    destruct (committing l) eqn:Ec; [done|]. rewrite reserved_app in Hsp.
    rewrite Hout, length_app in He. rewrite length_app in Hout. cbn [length] in He, Hout.
    apply Forall_app in Hops as [Ho1 Ho2]. apply Forall_cons in Ho2 as [HB Ho2].
    assert (Hrec' : forall B' b, B' ∈ os1 ++ os2 -> b ∈ B' -> b ∈ lh_blocks l).
    { intros B' b HB'. apply (Hrec B'). rewrite elem_of_app, elem_of_cons in *. tauto. }
    assert (l' = if Z.of_nat (length os1 + S (length os2)) - 1 =? 0 then
        set_committing true (set_outstanding (Z.of_nat (length os1 + S (length os2)) - 1) l)
      else set_outstanding (Z.of_nat (length os1 + S (length os2)) - 1) l) as ->.
    { destruct (_ =? _); congruence. }
    destruct (Z.eqb_spec (Z.of_nat (length os1 + S (length os2)) - 1) 0) as [E0|E0]; injection He as <-;
      split; cbn [pl ops busy set_committing set_outstanding outstanding committing lh_n lh_block] in *;
      rewrite ?length_app; auto; try lia; try (by apply Forall_app).
    + intros _. destruct os1, os2; simpl in *; try lia; done.
    + by rewrite orb_false_r, Ec.
    + rewrite orb_false_r. intros E. specialize (Hex E). by destruct os1.
  - specialize (Hex eq_refl) as ->. split; cbn; auto; try lia.
    + by intros B b ?%elem_of_nil.
    + unfold LOGSIZE, MAXOPBLOCKS. lia.
Qed.

Definition start_log (st sz : Z) : log := Log st sz 0 false 0 (lh_block log0).

Lemma proto_start st sz : proto_inv (Proto (start_log st sz) [] false).
Proof.
  split; cbn; try done; try lia. by intros B b ?%elem_of_nil.
Qed.

Lemma proto_reachable st sz s : rtc pstep (Proto (start_log st sz) [] false) s -> proto_inv s.
Proof.
  intros Hr. remember (Proto (start_log st sz) [] false) as s0.
  assert (H0 : proto_inv s0) by (subst; apply proto_start). clear Heqs0.
  induction Hr; eauto using proto_step.
Qed.

Lemma size_reachable st sz s : rtc pstep (Proto (start_log st sz) [] false) s -> size (pl s) = sz.
Proof.
  intros Hr. remember (Proto (start_log st sz) [] false) as s0.
  assert (H0 : size (pl s0) = sz) by (by subst). clear Heqs0.
  induction Hr as [s|s s1 s2 Hs Hr IH]; [done|]. apply IH.
  destruct Hs as [l l' os by_ Hb|l l' os1 B os2 bn by_ Hsz Hbn Hw|l l' os1 B os2 by_ c He|l os]; cbn [pl] in *; auto.
  - unfold begin_op in Hb. destruct (committing l); [done|]. destruct (_ <? _); [done|]. by injection Hb as <-.
  - unfold log_write_head, log_write in Hw. destruct (_ || _); [done|]. destruct (_ <? _); [done|].
    destruct (_ =? _); simpl in Hw; injection Hw as <-; done.
  - unfold end_op_start in He. cbn in He. destruct (committing l); [done|].
    destruct (_ =? _); injection He as _ <-; done.
Qed.


(** ** Running a script of calls *)

Inductive call := CBegin | CWrite (op : nat) (bn : Z).

Definition exec1 (a : call) (s : proto) : option proto :=
  match a with
  | CBegin =>
      match begin_op (pl s) with Ok l => Some (Proto l (∅ :: ops s) (busy s)) | _ => None end
  | CWrite op bn =>
      match ops s !! op, log_write_head bn (pl s) with
      | Some B, Ok l =>
          if (base.size ({[bn]} ∪ B) <=? Z.to_nat MAXOPBLOCKS)%nat && (0 <=? bn) && (bn <? 2147483648)
          then Some (Proto l (<[op := {[bn]} ∪ B]> (ops s)) (busy s)) else None
      | _, _ => None
      end
  end.

Fixpoint exec (s : proto) (p : list call) : option proto :=
  match p with
  | [] => Some s
  | a :: p' => s ← exec1 a s; exec s p'
  end.

Lemma exec1_sound a s s' : exec1 a s = Some s' -> pstep s s'.
Proof.
  destruct s as [l os b]. destruct a as [|op bn]; simpl.
  - destruct (begin_op l) eqn:E; try done. intros [= <-]. by constructor.
  - destruct (os !! op) as [B|] eqn:EB; [|done]. destruct (log_write_head bn l) eqn:E; try done.
    destruct (_ && _) eqn:Ec; [|done]. intros [= <-]. bool_to_prop. apply Nat.leb_le in H.
    rewrite insert_take_drop by (by eapply lookup_lt_Some).
    rewrite <- (take_drop_middle os op B EB) at 1. by constructor.
Qed.

Lemma exec_sound p : forall s s', exec s p = Some s' -> rtc pstep s s'.
Proof.
  induction p as [|a p IH]; intros s s'; simpl; [intros [= <-]; apply rtc_refl|].
  destruct (exec1 a s) as [s1|] eqn:E; simpl; [|done]. intros H.
  eapply rtc_l; [by eapply exec1_sound|by apply IH].
Qed.

(** Three operations that log ten, ten and nine blocks. *)
Definition three_ops : list call :=
  [CBegin; CBegin; CBegin] ++ map (fun i => CWrite (i / 10) (100 + Z.of_nat i)) (seq 0 29).

(** C9: with the log that mkfs makes, of [LOGSIZE] blocks with its header,
    the reservation of [begin_op] is one block short: three operations are
    admitted, and after 29 blocks the third, which has logged nine of its
    [MAXOPBLOCKS] blocks, panics on the tenth. *)
Theorem log_reservation_short st :
  exists s B, rtc pstep (Proto (start_log st LOGSIZE) [] false) s /\
    B ∈ ops s /\ base.size B = 9%nat /\ log_write_head 900 (pl s) = Panic "too big a transaction".
Proof.
  destruct (exec (Proto (start_log st LOGSIZE) [] false) three_ops) as [s|] eqn:E; [|vm_compute in E; discriminate E].
  exists s. pose proof (exec_sound _ _ _ E) as Hr.
  assert (Hc : match exec (Proto (start_log st LOGSIZE) [] false) three_ops with
    | Some s => match ops s !! 2%nat with Some B => Nat.eqb (base.size B) 9 | None => false end &&
        match log_write_head 900 (pl s) with Panic m => String.eqb m "too big a transaction" | _ => false end
    | None => false end = true) by (vm_compute; reflexivity).
  rewrite E in Hc. clear E. apply andb_true_iff in Hc as [H1 H2].
  destruct (ops s !! 2%nat) as [B|] eqn:EB; [|done]. exists B. split_and!; [exact Hr|by eapply list_elem_of_lookup_2| |].
  - by apply Nat.eqb_eq.
  - destruct (log_write_head 900 (pl s)); try done. f_equal. by apply String.eqb_eq.
Qed.

(** A script that ends in state [s], with [n] blocks in the set of operation [i]. *)
Lemma script_run s0 p i n :
  match exec s0 p with Some s => match ops s !! i with Some B => Nat.eqb (base.size B) n | None => false end | None => false end = true ->
  exists s B, rtc pstep s0 s /\ B ∈ ops s /\ base.size B = n.
Proof.
  destruct (exec s0 p) as [s|] eqn:E; [|done]. destruct (ops s !! i) as [B|] eqn:EB; [|done]. intros Hn%Nat.eqb_eq.
  exists s, B. split_and!; [by apply (exec_sound p)|by eapply list_elem_of_lookup_2|done].
Qed.

