(* ===== verification/Fs.v ===== *)
(** * kernel/fs.c: blocks, inodes, directories and path names

    The functions of fs.c over a transactional block store: the class
    [TxStore] has the calls that fs.c makes to the buffer cache and to the
    log ([bread], stores through [b->data], [log_write], [brelse] and
    [initlog]) for the one device of the system.  FsProps.v discharges it with
    Log.v and Bio.v.

    An inode pointer is an index of the inode table, [None] the null pointer.
    [me] is [myproc()->pid].  A critical section under [itable.lock] is part
    of one definition.  A path name is the list of its bytes without the NUL
    that ends it; a name is the list of the at most [DIRSIZ] bytes that the
    buffer [name] holds before its NUL. *)
From S2P Require Import Prelude Cstring Riscv Kalloc Vm Block Bio.

Definition ROOTINO : Z := 1.
Definition ROOTDEV : Z := 1.
Definition FSMAGIC : Z := 270544960.
Definition NDIRECT : nat := 12.
Definition NINDIRECT : nat := 256.
Definition MAXFILE : Z := 268.
Definition NINODE : nat := 50.
Definition DIRSIZ : nat := 14.
Definition IPB : Z := 16.
Definition BPB : Z := 8192.
Definition T_DIR : Z := 1.
Definition T_FILE : Z := 2.
Definition T_DEVICE : Z := 3.

Record superblock := Superblock {
  magic : Z;
  fsize : Z;
  nblocks : Z;
  ninodes : Z;
  nlog : Z;
  logstart : Z;
  inodestart : Z;
  bmapstart : Z
}.

Definition IBLOCK (i : Z) (sb : superblock) : Z := i / IPB + inodestart sb.
Definition BBLOCK (b : Z) (sb : superblock) : Z := b / BPB + bmapstart sb.

(** The in-memory inode. *)
Record inode := Inode {
  i_dev : Z;
  inum : Z;
  i_ref : Z;
  i_lock : sleeplock;
  i_valid : bool;
  i_type : Z;
  i_major : Z;
  i_minor : Z;
  nlink : Z;
  i_size : Z;
  addrs : list Z
}.

Definition set_ref v p := Inode (i_dev p) (inum p) v (i_lock p) (i_valid p) (i_type p) (i_major p) (i_minor p) (nlink p) (i_size p) (addrs p).
Definition set_ilock v p := Inode (i_dev p) (inum p) (i_ref p) v (i_valid p) (i_type p) (i_major p) (i_minor p) (nlink p) (i_size p) (addrs p).
Definition set_ivalid v p := Inode (i_dev p) (inum p) (i_ref p) (i_lock p) v (i_type p) (i_major p) (i_minor p) (nlink p) (i_size p) (addrs p).
Definition set_type v p := Inode (i_dev p) (inum p) (i_ref p) (i_lock p) (i_valid p) v (i_major p) (i_minor p) (nlink p) (i_size p) (addrs p).
Definition set_major v p := Inode (i_dev p) (inum p) (i_ref p) (i_lock p) (i_valid p) (i_type p) v (i_minor p) (nlink p) (i_size p) (addrs p).
Definition set_minor v p := Inode (i_dev p) (inum p) (i_ref p) (i_lock p) (i_valid p) (i_type p) (i_major p) v (nlink p) (i_size p) (addrs p).
Definition set_nlink v p := Inode (i_dev p) (inum p) (i_ref p) (i_lock p) (i_valid p) (i_type p) (i_major p) (i_minor p) v (i_size p) (addrs p).
Definition set_size v p := Inode (i_dev p) (inum p) (i_ref p) (i_lock p) (i_valid p) (i_type p) (i_major p) (i_minor p) (nlink p) v (addrs p).
Definition set_addrs v p := Inode (i_dev p) (inum p) (i_ref p) (i_lock p) (i_valid p) (i_type p) (i_major p) (i_minor p) (nlink p) (i_size p) v.
Definition set_addr (i : nat) (v : Z) p := set_addrs (<[i := v]> (addrs p)) p.

(** [ip->addrs[i]]. *)
Definition addr_at (p : inode) (i : nat) : Z := default 0 (addrs p !! i).

(** Static data starts as zero bytes. *)
Definition inode0 : inode := Inode 0 0 0 (SleepLock false 0) false 0 0 0 0 0 (replicate 13 0).

(** ** The store *)

Class TxStore (T : Type) := {
  tread : Z -> T -> outcome (nat * T);
  tdata : T -> nat -> block;
  tset : nat -> block -> T -> T;
  tlog : nat -> T -> outcome T;
  trelse : nat -> T -> outcome T;
  tinitlog : Z -> Z -> T -> outcome T
}.

(** [begin_op] and [end_op] on the store, for the callers of fs.c. *)
Class TxOps (T : Type) := {
  tbegin : T -> outcome T;
  tend : T -> outcome T
}.

Record fs (T : Type) := Fs { fsb : superblock; itable : list inode; store : T }.
Arguments Fs {T}.
Arguments fsb {T}.
Arguments itable {T}.
Arguments store {T}.

(** ** [either_copyout] and [either_copyin] (kernel/proc.c)

    The destination is a user address, with the page table and the memory it
    refers to, or a kernel buffer, as the bytes stored so far; the source is a
    user address or the bytes of a kernel buffer that are left.  Each call
    advances the address, as the callers in fs.c do. *)

Inductive dest := UserDst (pagetable dst : Z) (m : phys) | KernelDst (got : list Z).
Inductive source := UserSrc (pagetable src : Z) (m : phys) | KernelSrc (rest : list Z).

Definition either_copyout (d : dest) (src : list Z) : outcome (Z * dest) :=
  match d with
  | UserDst pt dst m =>
      '(r, m) ← copyout pt dst src m;
      Ok (r, UserDst pt (u64 (dst + Z.of_nat (length src))) m)
  | KernelDst got => Ok (0, KernelDst (got ++ src))
  end.

(** The result, and the bytes that have been copied. *)
Definition either_copyin (s : source) (len : Z) : outcome (Z * list Z * source) :=
  match s with
  | UserSrc pt src m =>
      '(r, l) ← copyin pt src len m;
      Ok (r, l, UserSrc pt (u64 (src + len)) m)
  | KernelSrc rest => Ok (0, take (Z.to_nat len) rest, KernelSrc (drop (Z.to_nat len) rest))
  end.

Section Fs.
Context {T : Type} {HT : TxStore T}.
Variable me : Z.
Abbreviation fst_ := (fs T).

Definition set_store (t : T) (s : fst_) : fst_ := Fs (fsb s) (itable s) t.
Definition geti (s : fst_) (ip : nat) : inode := default inode0 (itable s !! ip).
Definition seti (ip : nat) (f : inode -> inode) (s : fst_) : fst_ := Fs (fsb s) (alter f ip (itable s)) (store s).

(** [bread], a store to the block's data, [log_write] and [brelse] on the
    store of the state. *)
Definition bread_ (bn : Z) (s : fst_) : outcome (nat * fst_) :=
  '(b, t) ← tread bn (store s); Ok (b, set_store t s).
Definition bdata (s : fst_) (b : nat) : block := tdata (store s) b.
Definition bset (b : nat) (d : block) (s : fst_) : fst_ := set_store (tset b d (store s)) s.
Definition log_write_ (b : nat) (s : fst_) : outcome fst_ := t ← tlog b (store s); Ok (set_store t s).
Definition brelse_ (b : nat) (s : fst_) : outcome fst_ := t ← trelse b (store s); Ok (set_store t s).

(** ** Blocks *)

Definition sb_of (d : block) : superblock :=
  Superblock (get32 d 0) (get32 d 4) (get32 d 8) (get32 d 12) (get32 d 16) (get32 d 20) (get32 d 24) (get32 d 28).

Definition readsb (s : fst_) : outcome fst_ :=
  '(bp, s) ← bread_ 1 s;
  let s := Fs (sb_of (bdata s bp)) (itable s) (store s) in
  brelse_ bp s.

Definition fsinit (s : fst_) : outcome fst_ :=
  s ← readsb s;
  if negb (magic (fsb s) =? FSMAGIC) then Panic "invalid file system"
  else t ← tinitlog (logstart (fsb s)) (nlog (fsb s)) (store s); Ok (set_store t s).

Definition bzero (bno : Z) (s : fst_) : outcome fst_ :=
  '(bp, s) ← bread_ bno s;
  let s := bset bp zero_block s in
  s ← log_write_ bp s;
  brelse_ bp s.

(** Bit [bi] of a bitmap block, and the block with that bit set or cleared;
    [data] is an array of [uchar]. *)
Definition bit_mask (bi : Z) : Z := Z.shiftl 1 (bi mod 8).
Definition byte_at (d : block) (i : Z) : Z := default 0 (d !! Z.to_nat i).
Definition bit_set (d : block) (bi : Z) : bool := negb (Z.land (byte_at d (bi / 8)) (bit_mask bi) =? 0).
Definition mark_bit (d : block) (bi : Z) : block :=
  <[Z.to_nat (bi / 8) := u8 (Z.lor (byte_at d (bi / 8)) (bit_mask bi))]> d.
Definition clear_bit (d : block) (bi : Z) : block :=
  <[Z.to_nat (bi / 8) := u8 (Z.land (byte_at d (bi / 8)) (Z.lnot (bit_mask bi)))]> d.

(** The inner loop of [balloc]: the first free bit from [bi] on. *)
Fixpoint balloc_bits (k : nat) (b bi : Z) (d : block) (size : Z) : option Z :=
  match k with
  | O => None
  | S k' =>
      if (bi <? BPB) && (b + bi <? size) then
        if negb (bit_set d bi) then Some bi else balloc_bits k' b (bi + 1) d size
      else None
  end.

Fixpoint balloc_loop (k : nat) (b : Z) (s : fst_) : outcome (Z * fst_) :=
  if b <? fsize (fsb s) then
    match k with
    | O => NoFuel
    | S k' =>
        '(bp, s) ← bread_ (BBLOCK b (fsb s)) s;
        match balloc_bits (Z.to_nat BPB) b 0 (bdata s bp) (fsize (fsb s)) with
        | Some bi =>
            let s := bset bp (mark_bit (bdata s bp) bi) s in
            s ← log_write_ bp s;
            s ← brelse_ bp s;
            s ← bzero (b + bi) s;
            Ok (b + bi, s)
        | None =>
            s ← brelse_ bp s;
            balloc_loop k' (b + BPB) s
        end
    end
  else Ok (0, s).

(** One turn for each block of the bitmap. *)
Definition balloc (s : fst_) : outcome (Z * fst_) := balloc_loop (Z.to_nat (fsize (fsb s) / BPB + 1)) 0 s.

Definition bfree (b : Z) (s : fst_) : outcome fst_ :=
  '(bp, s) ← bread_ (BBLOCK b (fsb s)) s;
  let bi := b mod BPB in
  if negb (bit_set (bdata s bp) bi) then Panic "freeing free block"
  else
    let s := bset bp (clear_bit (bdata s bp) bi) s in
    s ← log_write_ bp s;
    brelse_ bp s.

(** ** Inodes *)

Definition iinit (s : fst_) : fst_ :=
  Fs (fsb s) (map (set_ilock initsleeplock) (itable s)) (store s).

(** The byte offset of inode [i] in its block: [inum % IPB] inodes of 64
    bytes. *)
Definition dinode_off (i : Z) : nat := Z.to_nat (64 * (i mod IPB)).

Definition dip_type (d : block) (off : nat) : Z := s16 (get16 d off).

(** [dip->xxx = ip->xxx] for every field, and back. *)
Definition put_addrs (l : list Z) : list Z := concat (map (fun a => le_bytes 4 (u32 a)) l).
Definition dinode_put (p : inode) (d : block) (off : nat) : block :=
  let d := put16 d off (i_type p) in
  let d := put16 d (off + 2) (i_major p) in
  let d := put16 d (off + 4) (i_minor p) in
  let d := put16 d (off + 6) (nlink p) in
  let d := put32 d (off + 8) (i_size p) in
  splice d (off + 12) (put_addrs (addrs p)).

Fixpoint get_addrs (k : nat) (d : block) (off : nat) : list Z :=
  match k with
  | O => []
  | S k' => get32 d off :: get_addrs k' d (off + 4)
  end.
Definition dinode_get (d : block) (off : nat) (p : inode) : inode :=
  let p := set_type (s16 (get16 d off)) p in
  let p := set_major (s16 (get16 d (off + 2))) p in
  let p := set_minor (s16 (get16 d (off + 4))) p in
  let p := set_nlink (s16 (get16 d (off + 6))) p in
  let p := set_size (get32 d (off + 8)) p in
  set_addrs (get_addrs (NDIRECT + 1) d (off + 12)) p.

Definition iupdate (ip : nat) (s : fst_) : outcome fst_ :=
  let p := geti s ip in
  '(bp, s) ← bread_ (IBLOCK (inum p) (fsb s)) s;
  let s := bset bp (dinode_put p (bdata s bp) (dinode_off (inum p))) s in
  s ← log_write_ bp s;
  brelse_ bp s.

(** The search of [iget]: the entry for the inode, or the first empty one. *)
Fixpoint iget_find (k ip : nat) (dev num : Z) (empty : option nat) (s : fst_) : (nat + option nat) :=
  match k with
  | O => inr empty
  | S k' =>
      let p := geti s ip in
      if (0 <? i_ref p) && (i_dev p =? dev) && (inum p =? num) then inl ip
      else
        let empty := match empty with None => if i_ref p =? 0 then Some ip else None | _ => empty end in
        iget_find k' (S ip) dev num empty s
  end.

Definition iget (dev num : Z) (s : fst_) : outcome (nat * fst_) :=
  match iget_find NINODE 0 dev num None s with
  | inl ip => Ok (ip, seti ip (fun p => set_ref (s32 (i_ref p + 1)) p) s)
  | inr None => Panic "iget: no inodes"
  | inr (Some ip) =>
      Ok (ip, seti ip (fun p => Inode dev num 1 (i_lock p) false (i_type p) (i_major p) (i_minor p)
                                   (nlink p) (i_size p) (addrs p)) s)
  end.

Fixpoint ialloc_loop (k : nat) (num : Z) (dev type : Z) (s : fst_) : outcome (option nat * fst_) :=
  if num <? ninodes (fsb s) then
    match k with
    | O => NoFuel
    | S k' =>
        '(bp, s) ← bread_ (IBLOCK num (fsb s)) s;
        let off := dinode_off num in
        if dip_type (bdata s bp) off =? 0 then
          let d := splice (bdata s bp) off (replicate 64 0) in
          let s := bset bp (put16 d off type) s in
          s ← log_write_ bp s;
          s ← brelse_ bp s;
          '(ip, s) ← iget dev num s;
          Ok (Some ip, s)
        else
          s ← brelse_ bp s;
          ialloc_loop k' (num + 1) dev type s
    end
  else Ok (None, s).

Definition ialloc (dev type : Z) (s : fst_) : outcome (option nat * fst_) :=
  ialloc_loop (Z.to_nat (ninodes (fsb s))) 1 dev type s.

Definition idup (ip : nat) (s : fst_) : fst_ := seti ip (fun p => set_ref (s32 (i_ref p + 1)) p) s.

Definition ilock (ip : nat) (s : fst_) : outcome fst_ :=
  if i_ref (geti s ip) <? 1 then Panic "ilock"
  else
    lk ← acquiresleep me (i_lock (geti s ip));
    let s := seti ip (set_ilock lk) s in
    if negb (i_valid (geti s ip)) then
      let num := inum (geti s ip) in
      '(bp, s) ← bread_ (IBLOCK num (fsb s)) s;
      let s := seti ip (dinode_get (bdata s bp) (dinode_off num)) s in
      s ← brelse_ bp s;
      let s := seti ip (set_ivalid true) s in
      if i_type (geti s ip) =? 0 then Panic "ilock: no type" else Ok s
    else Ok s.

Definition iunlock (ip : nat) (s : fst_) : outcome fst_ :=
  if negb (holdingsleep me (i_lock (geti s ip))) || (i_ref (geti s ip) <? 1) then Panic "iunlock"
  else Ok (seti ip (fun p => set_ilock (releasesleep (i_lock p)) p) s).

(** ** Inode content *)

Definition bmap (ip : nat) (bn : Z) (s : fst_) : outcome (Z * fst_) :=
  if bn <? Z.of_nat NDIRECT then
    let addr := addr_at (geti s ip) (Z.to_nat bn) in
    if addr =? 0 then
      '(addr, s) ← balloc s;
      if addr =? 0 then Ok (0, s)
      else Ok (addr, seti ip (set_addr (Z.to_nat bn) addr) s)
    else Ok (addr, s)
  else
    let bn := bn - Z.of_nat NDIRECT in
    if bn <? Z.of_nat NINDIRECT then
      let addr := addr_at (geti s ip) NDIRECT in
      '(addr, s) ← (if addr =? 0 then
                      '(addr, s) ← balloc s;
                      if addr =? 0 then Ok (0, s) else Ok (addr, seti ip (set_addr NDIRECT addr) s)
                    else Ok (addr, s));
      if addr =? 0 then Ok (0, s)
      else
        '(bp, s) ← bread_ addr s;
        let off := (4 * Z.to_nat bn)%nat in
        let addr := get32 (bdata s bp) off in
        '(addr, s) ← (if addr =? 0 then
                        '(addr, s) ← balloc s;
                        if negb (addr =? 0) then
                          let s := bset bp (put32 (bdata s bp) off addr) s in
                          s ← log_write_ bp s;
                          Ok (addr, s)
                        else Ok (addr, s)
                      else Ok (addr, s));
        s ← brelse_ bp s;
        Ok (addr, s)
    else Panic "bmap: out of range".

(** The two loops of [itrunc]. *)
Fixpoint itrunc_direct (k i : nat) (ip : nat) (s : fst_) : outcome fst_ :=
  match k with
  | O => Ok s
  | S k' =>
      let a := addr_at (geti s ip) i in
      if negb (a =? 0) then
        s ← bfree a s;
        itrunc_direct k' (S i) ip (seti ip (set_addr i 0) s)
      else itrunc_direct k' (S i) ip s
  end.

Fixpoint itrunc_indirect (k j : nat) (bp : nat) (s : fst_) : outcome fst_ :=
  match k with
  | O => Ok s
  | S k' =>
      let a := get32 (bdata s bp) (4 * j) in
      if negb (a =? 0) then s ← bfree a s; itrunc_indirect k' (S j) bp s
      else itrunc_indirect k' (S j) bp s
  end.

Definition itrunc (ip : nat) (s : fst_) : outcome fst_ :=
  s ← itrunc_direct NDIRECT 0 ip s;
  let a := addr_at (geti s ip) NDIRECT in
  s ← (if negb (a =? 0) then
         '(bp, s) ← bread_ a s;
         s ← itrunc_indirect NINDIRECT 0 bp s;
         s ← brelse_ bp s;
         s ← bfree a s;
         Ok (seti ip (set_addr NDIRECT 0) s)
       else Ok s);
  iupdate ip (seti ip (set_size 0) s).

(** A condition on the reference count, read under [itable.lock]. *)
Definition iput (ip : nat) (s : fst_) : outcome fst_ :=
  let p := geti s ip in
  s ← (if (i_ref p =? 1) && i_valid p && (nlink p =? 0) then
         lk ← acquiresleep me (i_lock p);
         let s := seti ip (set_ilock lk) s in
         s ← itrunc ip s;
         let s := seti ip (set_type 0) s in
         s ← iupdate ip s;
         let s := seti ip (set_ivalid false) s in
         Ok (seti ip (fun p => set_ilock (releasesleep (i_lock p)) p) s)
       else Ok s);
  Ok (seti ip (fun p => set_ref (s32 (i_ref p - 1)) p) s).

Definition iunlockput (ip : nat) (s : fst_) : outcome fst_ := s ← iunlock ip s; iput ip s.

(** [struct stat]. *)
Record stat := Stat { st_dev : Z; st_ino : Z; st_type : Z; st_nlink : Z; st_size : Z }.

Definition stati (ip : nat) (s : fst_) : stat :=
  let p := geti s ip in Stat (s32 (i_dev p)) (inum p) (i_type p) (nlink p) (i_size p).

(** The loop of [readi]: [tot] of [n] bytes are done; the result [-1] is
    that of the [uint] [tot] returned as an [int]. *)
Fixpoint readi_loop (k : nat) (ip : nat) (d : dest) (off n tot : Z) (s : fst_) : outcome (Z * dest * fst_) :=
  if tot <? n then
    match k with
    | O => NoFuel
    | S k' =>
        '(addr, s) ← bmap ip (off / Z.of_nat BSIZE) s;
        if addr =? 0 then Ok (tot, d, s)
        else
          '(bp, s) ← bread_ addr s;
          let m := Z.min (n - tot) (Z.of_nat BSIZE - off mod Z.of_nat BSIZE) in
          '(r, d) ← either_copyout d (slice (bdata s bp) (Z.to_nat (off mod Z.of_nat BSIZE)) (Z.to_nat m));
          if r =? -1 then s ← brelse_ bp s; Ok (-1, d, s)
          else
            s ← brelse_ bp s;
            readi_loop k' ip d (off + m) n (tot + m) s
    end
  else Ok (tot, d, s).

(** Each turn copies at least one byte. *)
Definition readi (ip : nat) (d : dest) (off n : Z) (s : fst_) : outcome (Z * dest * fst_) :=
  let size := i_size (geti s ip) in
  if (size <? off) || (u32 (off + n) <? off) then Ok (0, d, s)
  else
    let n := if size <? u32 (off + n) then u32 (size - off) else n in
    readi_loop (Z.to_nat n) ip d off n 0 s.

(** The loop of [writei]; the result carries the offset reached. *)
Fixpoint writei_loop (k : nat) (ip : nat) (src : source) (off n tot : Z) (s : fst_)
    : outcome (Z * Z * source * fst_) :=
  if tot <? n then
    match k with
    | O => NoFuel
    | S k' =>
        '(addr, s) ← bmap ip (off / Z.of_nat BSIZE) s;
        if addr =? 0 then Ok (tot, off, src, s)
        else
          '(bp, s) ← bread_ addr s;
          let m := Z.min (n - tot) (Z.of_nat BSIZE - off mod Z.of_nat BSIZE) in
          '(r, l, src) ← either_copyin src m;
          let s := bset bp (splice (bdata s bp) (Z.to_nat (off mod Z.of_nat BSIZE)) l) s in
          if r =? -1 then s ← brelse_ bp s; Ok (tot, off, src, s)
          else
            s ← log_write_ bp s;
            s ← brelse_ bp s;
            writei_loop k' ip src (off + m) n (tot + m) s
    end
  else Ok (tot, off, src, s).

Definition writei (ip : nat) (src : source) (off n : Z) (s : fst_) : outcome (Z * source * fst_) :=
  let size := i_size (geti s ip) in
  if (size <? off) || (u32 (off + n) <? off) then Ok (-1, src, s)
  else if MAXFILE * Z.of_nat BSIZE <? u32 (off + n) then Ok (-1, src, s)
  else
    '(tot, off, src, s) ← writei_loop (Z.to_nat n) ip src off n 0 s;
    let s := if i_size (geti s ip) <? off then seti ip (set_size off) s else s in
    s ← iupdate ip s;
    Ok (tot, src, s).

(** ** Directories *)

Definition namecmp (s t : list Z) : Z := strncmp_l s t DIRSIZ.

(** A [struct dirent] of 16 bytes. *)
Definition de_inum (de : list Z) : Z := get16 de 0.
Definition de_name (de : list Z) : list Z := slice de 2 DIRSIZ.
Definition mk_dirent (num : Z) (name : list Z) : list Z := le_bytes 2 (u16 num) ++ strncpy_l name DIRSIZ.

(** [readi(dp, 0, (uint64)&de, off, sizeof(de))]. *)
Definition read_dirent (dp : nat) (off : Z) (s : fst_) : outcome (Z * list Z * fst_) :=
  '(r, d, s) ← readi dp (KernelDst []) off 16 s;
  Ok (r, match d with KernelDst l => l | _ => [] end, s).

Fixpoint dirlookup_loop (k : nat) (dp : nat) (name : list Z) (off : Z) (s : fst_)
    : outcome (option (nat * Z) * fst_) :=
  if off <? i_size (geti s dp) then
    match k with
    | O => NoFuel
    | S k' =>
        '(r, de, s) ← read_dirent dp off s;
        if negb (r =? 16) then Panic "dirlookup read"
        else if de_inum de =? 0 then dirlookup_loop k' dp name (off + 16) s
        else if namecmp name (de_name de) =? 0 then
          '(ip, s) ← iget (i_dev (geti s dp)) (de_inum de) s;
          Ok (Some (ip, off), s)
        else dirlookup_loop k' dp name (off + 16) s
    end
  else Ok (None, s).

(** The inode found and, for a caller that passes [poff], its offset. *)
Definition dirlookup (dp : nat) (name : list Z) (s : fst_) : outcome (option (nat * Z) * fst_) :=
  if negb (i_type (geti s dp) =? T_DIR) then Panic "dirlookup not DIR"
  else dirlookup_loop (Z.to_nat (i_size (geti s dp) / 16 + 1)) dp name 0 s.

(** The search of [dirlink] for an empty entry. *)
Fixpoint dirlink_find (k : nat) (dp : nat) (off : Z) (s : fst_) : outcome (Z * fst_) :=
  if off <? i_size (geti s dp) then
    match k with
    | O => NoFuel
    | S k' =>
        '(r, de, s) ← read_dirent dp off s;
        if negb (r =? 16) then Panic "dirlink read"
        else if de_inum de =? 0 then Ok (off, s)
        else dirlink_find k' dp (off + 16) s
    end
  else Ok (off, s).

Definition dirlink (dp : nat) (name : list Z) (num : Z) (s : fst_) : outcome (Z * fst_) :=
  '(o, s) ← dirlookup dp name s;
  match o with
  | Some (ip, _) => s ← iput ip s; Ok (-1, s)
  | None =>
      '(off, s) ← dirlink_find (Z.to_nat (i_size (geti s dp) / 16 + 1)) dp 0 s;
      '(r, _, s) ← writei dp (KernelSrc (mk_dirent num name)) off 16 s;
      if negb (r =? 16) then Ok (-1, s) else Ok (0, s)
  end.

(** ** Path names *)

Definition slash : Z := 47.

Fixpoint skip_slashes (path : list Z) : list Z :=
  match path with
  | c :: p => if c =? slash then skip_slashes p else path
  | [] => []
  end.

(** The element and what follows it. *)
Fixpoint span_elem (path : list Z) : list Z * list Z :=
  match path with
  | c :: p => if c =? slash then ([], path) else let '(e, r) := span_elem p in (c :: e, r)
  | [] => ([], [])
  end.

(** The rest of the path and the name. *)
Definition skipelem (path : list Z) : option (list Z * list Z) :=
  match skip_slashes path with
  | [] => None
  | path =>
      let '(e, r) := span_elem path in
      Some (skip_slashes r, if (DIRSIZ <=? length e)%nat then take DIRSIZ e else e)
  end.

(** The loop of [namex]; each turn uses up at least one byte of the path. *)
Fixpoint namex_loop (k : nat) (path : list Z) (parent : bool) (name : list Z) (ip : nat) (s : fst_)
    : outcome (option nat * list Z * fst_) :=
  match k with
  | O => NoFuel
  | S k' =>
      match skipelem path with
      | None =>
          if parent then s ← iput ip s; Ok (None, name, s) else Ok (Some ip, name, s)
      | Some (path, name) =>
          s ← ilock ip s;
          if negb (i_type (geti s ip) =? T_DIR) then s ← iunlockput ip s; Ok (None, name, s)
          else if parent && bool_decide (path = []) then s ← iunlock ip s; Ok (Some ip, name, s)
          else
            '(o, s) ← dirlookup ip name s;
            match o with
            | None => s ← iunlockput ip s; Ok (None, name, s)
            | Some (next, _) => s ← iunlockput ip s; namex_loop k' path parent name next s
            end
      end
  end.

(** [cwd] is [myproc()->cwd]. *)
Definition namex (path : list Z) (parent : bool) (cwd : nat) (s : fst_) : outcome (option nat * list Z * fst_) :=
  '(ip, s) ← (if bool_decide (head path = Some slash) then iget ROOTDEV ROOTINO s else Ok (cwd, idup cwd s));
  namex_loop (S (length path)) path parent [] ip s.

Definition namei (path : list Z) (cwd : nat) (s : fst_) : outcome (option nat * fst_) :=
  '(ip, _, s) ← namex path false cwd s; Ok (ip, s).

Definition nameiparent (path : list Z) (cwd : nat) (s : fst_) : outcome (option nat * list Z * fst_) :=
  namex path true cwd s.

End Fs.
