(* ===== verification/FsTheory.v ===== *)
(** * Theory of fs.c: the store's contract, the block allocator

    [TxLaws] is what fs.c relies on: inside a transaction, a block read has
    the contents that the last [log_write] gave it, and the transaction can
    take up to [tcap] different blocks.  On top of it: the free bitmap and
    [balloc], [bfree]. *)
From S2P Require Import Prelude Cstring Riscv Kalloc Vm Block Bio Fs.

(** [twf t H W]: the handles [H] are held, and [W] are the blocks logged so
    far.  [tview] is the contents as the transaction sees them, [tok] the
    blocks it may use. *)
Class TxLaws (T : Type) {HT : TxStore T} := {
  tview : T -> Z -> block;
  twf : T -> gmap nat Z -> gset Z -> Prop;
  tcap : nat;
  tok : Z -> Prop;
  tlaw_data t H W h bn : twf t H W -> H !! h = Some bn -> tdata t h = tview t bn;
  tlaw_len t H W bn : twf t H W -> length (tview t bn) = BSIZE;
  tlaw_read t H W bn :
    twf t H W -> tok bn -> (forall h, H !! h <> Some bn) -> (size H < 2)%nat ->
    exists h t', tread bn t = Ok (h, t') /\ H !! h = None /\ twf t' (<[h := bn]> H) W /\
      (forall b, tview t' b = tview t b);
  tlaw_log t H W h bn d :
    twf t H W -> H !! h = Some bn -> length d = BSIZE -> bn ∈ W \/ (size W < tcap)%nat ->
    exists t', tlog h (tset h d t) = Ok t' /\ twf t' H ({[bn]} ∪ W) /\
      (forall b, tview t' b = if decide (b = bn) then d else tview t b);
  tlaw_relse t H W h bn :
    twf t H W -> H !! h = Some bn ->
    exists t', trelse h t = Ok t' /\ twf t' (delete h H) W /\ (forall b, tview t' b = tview t b)
}.

(** Transactions, one at a time: from an idle store [begin_op] starts one
    with no block logged, and [end_op] commits it. *)
Class TxOpsLaws (T : Type) {HT : TxStore T} {HL : TxLaws T} {HO : TxOps T} := {
  tidle : T -> Prop;
  tlaw_begin t :
    tidle t -> exists t', tbegin t = Ok t' /\ twf t' ∅ ∅ /\ (forall b, tview t' b = tview t b);
  tlaw_end t W :
    twf t ∅ W -> exists t', tend t = Ok t' /\ tidle t' /\ (forall b, tok b -> tview t' b = tview t b)
}.

(** Writing a value at a block number. *)
Definition updz {A} (f : Z -> A) (k : Z) (x : A) : Z -> A := fun j => if decide (j = k) then x else f j.

Lemma updz_eq {A} (f : Z -> A) k x : updz f k x k = x.
Proof. unfold updz. by rewrite decide_True. Qed.
Lemma updz_ne {A} (f : Z -> A) k j x : j <> k -> updz f k x j = f j.
Proof. intros. unfold updz. by rewrite decide_False. Qed.

Section Store.
Context {T : Type} {HT : TxStore T} {HL : TxLaws T}.
Implicit Types s : fs T.

Definition fview s (b : Z) : block := tview (store s) b.

(** [s'] has the contents [v], handles [H] and logged blocks [W], and is
    otherwise [s]. *)
Record in_store s s' (v : Z -> block) (H : gmap nat Z) (W : gset Z) : Prop := {
  in_sb : fsb s' = fsb s;
  in_tab : itable s' = itable s;
  in_wf : twf (store s') H W;
  in_view : forall b, fview s' b = v b
}.

Lemma bread_store s H W bn :
  twf (store s) H W -> tok bn -> (forall h, H !! h <> Some bn) -> (size H < 2)%nat ->
  exists h s', bread_ bn s = Ok (h, s') /\ H !! h = None /\ in_store s s' (fview s) (<[h := bn]> H) W /\
    bdata s' h = fview s bn.
Proof.
  intros Hw Hok Hn Hs. destruct (tlaw_read _ H W bn Hw Hok Hn Hs) as (h & t' & E & Hh & Hw' & Hv).
  exists h, (set_store t' s). unfold bread_. rewrite E. split; [done|]. split; [done|]. split; [by split|].
  unfold bdata. cbn [store set_store]. rewrite (tlaw_data _ _ _ h bn Hw' (lookup_insert_eq _ _ _)). apply Hv.
Qed.

Lemma bset_log_run s H W h bn d :
  twf (store s) H W -> H !! h = Some bn -> length d = BSIZE -> bn ∈ W \/ (size W < tcap)%nat ->
  exists s', log_write_ h (bset h d s) = Ok s' /\ in_store s s' (updz (fview s) bn d) H ({[bn]} ∪ W).
Proof.
  intros Hw Hh Hd Hc. destruct (tlaw_log _ H W h bn d Hw Hh Hd Hc) as (t' & E & Hw' & Hv).
  exists (set_store t' s). unfold log_write_, bset. cbn [store set_store]. rewrite E. split; [done|]. by split.
Qed.

Lemma brelse_store s H W h bn :
  twf (store s) H W -> H !! h = Some bn ->
  exists s', brelse_ h s = Ok s' /\ in_store s s' (fview s) (delete h H) W.
Proof.
  intros Hw Hh. destruct (tlaw_relse _ H W h bn Hw Hh) as (t' & E & Hw' & Hv).
  exists (set_store t' s). unfold brelse_. rewrite E. split; [done|]. by split.
Qed.

Lemma in_store_trans s s' s'' v H W v' H' W' :
  in_store s s' v H W -> in_store s' s'' v' H' W' -> in_store s s'' v' H' W'.
Proof. intros [A1 A2 A3 A4] [B1 B2 B3 B4]. split; congruence. Qed.

Lemma in_store_ext s s' v v' H W : in_store s s' v H W -> (forall b, v b = v' b) -> in_store s s' v' H W.
Proof. intros [A1 A2 A3 A4] E. split; auto. intros b. by rewrite A4. Qed.

Lemma in_store_refl s H W : twf (store s) H W -> in_store s s (fview s) H W.
Proof. intros. by split. Qed.

(** The release of the handle that was taken last. *)
Lemma brelse_last s0 s H W h bn v :
  in_store s0 s v (<[h := bn]> H) W -> H !! h = None ->
  exists s', brelse_ h s = Ok s' /\ in_store s0 s' v H W.
Proof.
  intros Hi Hh. destruct (brelse_store s (<[h := bn]> H) W h bn) as (s' & E & Hi').
  { apply Hi. } { apply lookup_insert_eq. }
  exists s'. split; [done|]. rewrite delete_insert_id in Hi' by done.
  eapply in_store_ext; [exact (in_store_trans _ _ _ _ _ _ _ _ _ Hi Hi')|]. apply Hi.
Qed.

(** A block is read, replaced, logged and released. *)
Lemma replace_run s H W bn (f : block -> block) :
  twf (store s) H W -> tok bn -> (forall h, H !! h <> Some bn) -> (size H < 2)%nat ->
  (forall d, length d = BSIZE -> length (f d) = BSIZE) -> bn ∈ W \/ (size W < tcap)%nat ->
  exists h s1 s2 s3, bread_ bn s = Ok (h, s1) /\ bdata s1 h = fview s bn /\
    log_write_ h (bset h (f (fview s bn)) s1) = Ok s2 /\ brelse_ h s2 = Ok s3 /\
    in_store s s3 (updz (fview s) bn (f (fview s bn))) H ({[bn]} ∪ W) /\ fsb s1 = fsb s /\ itable s1 = itable s.
Proof.
  intros Hw Hok Hn Hsz Hf Hc. destruct (bread_store s H W bn Hw Hok Hn Hsz) as (h & s1 & E1 & Hh & I1 & D1).
  destruct (bset_log_run s1 (<[h := bn]> H) W h bn (f (fview s bn))) as (s2 & E2 & I2).
  { apply I1. } { apply lookup_insert_eq. } { apply Hf, (tlaw_len _ H W bn Hw). } { done. }
  assert (I2' : in_store s s2 (updz (fview s) bn (f (fview s bn))) (<[h := bn]> H) ({[bn]} ∪ W)).
  { eapply in_store_ext; [exact (in_store_trans _ _ _ _ _ _ _ _ _ I1 I2)|].
    intros b. unfold updz. dcase; [done|]. apply I1. }
  destruct (brelse_last _ _ _ _ _ _ _ I2' Hh) as (s3 & E3 & I3).
  exists h, s1, s2, s3. split_and!; auto; apply I1.
Qed.
End Store.

(** ** Bits of a bitmap block *)

Lemma land_bit x k : 0 <= k -> negb (Z.land x (Z.shiftl 1 k) =? 0) = Z.testbit x k.
Proof.
  intros Hk. rewrite Z.shiftl_1_l. destruct (Z.testbit x k) eqn:E.
  - apply negb_true_iff, Z.eqb_neq. intros H. apply (f_equal (fun y => Z.testbit y k)) in H.
    rewrite Z.land_spec, E, Z.pow2_bits_true, Z.bits_0 in H by lia. done.
  - apply negb_false_iff, Z.eqb_eq. apply Z.bits_inj'. intros j Hj. rewrite Z.land_spec, Z.bits_0.
    destruct (decide (j = k)) as [->|]; [by rewrite E|]. rewrite Z.pow2_bits_false by lia. apply andb_false_r.
Qed.

Lemma bit_set_test d bi : bit_set d bi = Z.testbit (byte_at d (bi / 8)) (bi mod 8).
Proof. unfold bit_set, bit_mask. apply land_bit. zlia. Qed.

Lemma testbit_u8 x j : 0 <= j < 8 -> Z.testbit (u8 x) j = Z.testbit x j.
Proof. intros. unfold u8. change 256 with (2 ^ 8). by rewrite Z.mod_pow2_bits_low by lia. Qed.

Lemma byte_at_insert d i j x : (i < length d)%nat ->
  byte_at (<[i := x]> d) j = if decide (Z.to_nat j = i) then x else byte_at d j.
Proof.
  intros Hi. unfold byte_at. destruct (decide (Z.to_nat j = i)) as [<-|].
  - by rewrite list_lookup_insert_eq.
  - by rewrite list_lookup_insert_ne.
Qed.

Lemma bit_range bi : 0 <= bi < BPB -> (Z.to_nat (bi / 8) < BSIZE)%nat /\ 0 <= bi / 8 /\ 0 <= bi mod 8 < 8.
Proof. unfold BPB, BSIZE. intros. split_and!; zlia. Qed.

Lemma same_bit bi bj : 0 <= bi -> 0 <= bj -> Z.to_nat (bj / 8) = Z.to_nat (bi / 8) -> bj mod 8 = bi mod 8 -> bi = bj.
Proof. intros. assert (bj / 8 = bi / 8) by zlia. zlia. Qed.

Lemma bit_set_mark d bi bj : length d = BSIZE -> 0 <= bi < BPB -> 0 <= bj < BPB ->
  bit_set (mark_bit d bi) bj = if decide (bi = bj) then true else bit_set d bj.
Proof.
  intros Hd Hi Hj. destruct (bit_range bi Hi) as (R1 & R2 & R3). destruct (bit_range bj Hj) as (S1 & S2 & S3).
  rewrite !bit_set_test. unfold mark_bit. rewrite byte_at_insert by lia. unfold bit_mask.
  destruct (decide (Z.to_nat (bj / 8) = Z.to_nat (bi / 8))) as [E|E].
  - assert (bj / 8 = bi / 8) as -> by zlia. rewrite testbit_u8, Z.lor_spec, Z.shiftl_1_l by lia.
    destruct (decide (bi = bj)) as [->|Hne]; [rewrite Z.pow2_bits_true by lia; apply orb_true_r|].
    rewrite Z.pow2_bits_false, orb_false_r; [done|]. intros Hm. apply Hne. apply same_bit; lia.
  - rewrite decide_False; [done|]. by intros ->.
Qed.

Lemma bit_set_clear d bi bj : length d = BSIZE -> 0 <= bi < BPB -> 0 <= bj < BPB ->
  bit_set (clear_bit d bi) bj = if decide (bi = bj) then false else bit_set d bj.
Proof.
  intros Hd Hi Hj. destruct (bit_range bi Hi) as (R1 & R2 & R3). destruct (bit_range bj Hj) as (S1 & S2 & S3).
  rewrite !bit_set_test. unfold clear_bit. rewrite byte_at_insert by lia. unfold bit_mask.
  destruct (decide (Z.to_nat (bj / 8) = Z.to_nat (bi / 8))) as [E|E].
  - assert (bj / 8 = bi / 8) as -> by zlia. rewrite testbit_u8, Z.land_spec, Z.lnot_spec, Z.shiftl_1_l by lia.
    destruct (decide (bi = bj)) as [->|Hne]; [rewrite Z.pow2_bits_true by lia; apply andb_false_r|].
    rewrite Z.pow2_bits_false, andb_true_r; [done|]. intros Hm. apply Hne. apply same_bit; lia.
  - rewrite decide_False; [done|]. by intros ->.
Qed.

Lemma length_mark_bit d bi : length (mark_bit d bi) = length d.
Proof. apply length_insert. Qed.
Lemma length_clear_bit d bi : length (clear_bit d bi) = length d.
Proof. apply length_insert. Qed.

(** The inner search of [balloc]. *)
Lemma balloc_bits_spec k b bi d size :
  0 <= bi -> BPB - bi <= Z.of_nat k ->
  match balloc_bits k b bi d size with
  | Some r => bi <= r < BPB /\ b + r < size /\ bit_set d r = false /\ (forall j, bi <= j < r -> bit_set d j = true)
  | None => forall j, bi <= j < BPB -> b + j < size -> bit_set d j = true
  end.
Proof.
  revert bi. induction k as [|k IH]; intros bi Hb Hk; cbn [balloc_bits]; [lia|].
  destruct (bi <? BPB) eqn:E1; cbn [andb]; bool_to_prop; [|lia].
  destruct (b + bi <? size) eqn:E2; bool_to_prop; [|intros j Hj; lia].
  destruct (bit_set d bi) eqn:Eb; cbn [negb]; [|split_and!; auto; lia].
  specialize (IH (bi + 1)). destruct (balloc_bits k b (bi + 1) d size) as [r|].
  - destruct IH as (A1 & A2 & A3 & A4); [lia|lia|]. split_and!; auto; try lia.
    intros j Hj. destruct (decide (j = bi)) as [->|]; [done|]. apply A4. lia.
  - intros j Hj Hs. destruct (decide (j = bi)) as [->|]; [done|]. apply IH; lia.
Qed.

(** ** The block allocator *)

(** Block [b] is marked in the bitmap of the contents [v]. *)
Definition used (sb : superblock) (v : Z -> block) (b : Z) : bool := bit_set (v (BBLOCK b sb)) (b mod BPB).

(** The first block after the bitmap. *)
Definition datastart (sb : superblock) : Z := bmapstart sb + (fsize sb - 1) / BPB + 1.

Definition is_bmap (sb : superblock) (b : Z) : Prop := exists x, 0 <= x < fsize sb /\ b = BBLOCK x sb.

(** The layout that mkfs gives a disk: inodes, then the bitmap, then data. *)
Record layout_ok {T} {HT : TxStore T} {HL : TxLaws T} (sb : superblock) : Prop := {
  lay_size : 0 < fsize sb < 2147475456;
  lay_inode : 0 < inodestart sb;
  lay_iblock : forall i, 0 <= i < ninodes sb -> IBLOCK i sb < bmapstart sb;
  lay_bmap : inodestart sb <= bmapstart sb;
  lay_data : datastart sb <= fsize sb;
  lay_tok : forall b, inodestart sb <= b < fsize sb -> tok b
}.

Lemma BBLOCK_bmap sb x : 0 <= x < fsize sb -> bmapstart sb <= BBLOCK x sb < datastart sb.
Proof. unfold BBLOCK, datastart, BPB. intros. zlia. Qed.

Lemma same_bblock sb x y : 0 <= x -> 0 <= y -> BBLOCK x sb = BBLOCK y sb -> x mod BPB = y mod BPB -> x = y.
Proof. unfold BBLOCK, BPB. intros. zlia. Qed.

Lemma mod_BPB x : 0 <= x mod BPB < BPB.
Proof. unfold BPB. zlia. Qed.

Section Alloc.
Context {T : Type} {HT : TxStore T} {HL : TxLaws T}.
Implicit Types s : fs T.

(** The bitmap marks everything before the data. *)
Definition bitmap_ok (sb : superblock) (v : Z -> block) : Prop :=
  forall b, 0 <= b < datastart sb -> used sb v b = true.

Definition marked (sb : superblock) (v : Z -> block) (b : Z) : Z -> block :=
  updz v (BBLOCK b sb) (mark_bit (v (BBLOCK b sb)) (b mod BPB)).
Definition cleared (sb : superblock) (v : Z -> block) (b : Z) : Z -> block :=
  updz v (BBLOCK b sb) (clear_bit (v (BBLOCK b sb)) (b mod BPB)).

Lemma used_marked sb v b c : (forall x, length (v x) = BSIZE) -> 0 <= b -> 0 <= c ->
  used sb (marked sb v b) c = if decide (b = c) then true else used sb v c.
Proof.
  intros Hv Hb Hc. unfold used, marked, updz. destruct (decide (BBLOCK c sb = BBLOCK b sb)) as [E|E].
  - rewrite bit_set_mark; [|apply Hv|apply mod_BPB|apply mod_BPB]. rewrite E.
    destruct (decide (b mod BPB = c mod BPB)) as [Em|Em].
    + rewrite decide_True; [done|]. by apply (same_bblock sb).
    + rewrite decide_False; [done|]. by intros ->.
  - rewrite decide_False; [done|]. by intros ->.
Qed.

Lemma used_cleared sb v b c : (forall x, length (v x) = BSIZE) -> 0 <= b -> 0 <= c ->
  used sb (cleared sb v b) c = if decide (b = c) then false else used sb v c.
Proof.
  intros Hv Hb Hc. unfold used, cleared, updz. destruct (decide (BBLOCK c sb = BBLOCK b sb)) as [E|E].
  - rewrite bit_set_clear; [|apply Hv|apply mod_BPB|apply mod_BPB]. rewrite E.
    destruct (decide (b mod BPB = c mod BPB)) as [Em|Em].
    + rewrite decide_True; [done|]. by apply (same_bblock sb).
    + rewrite decide_False; [done|]. by intros ->.
  - rewrite decide_False; [done|]. by intros ->.
Qed.

(** Contents of a block that is not part of the bitmap do not matter. *)
Lemma used_updz sb v b d c : ~ is_bmap sb b -> 0 <= c < fsize sb -> used sb (updz v b d) c = used sb v c.
Proof.
  intros Hb Hc. unfold used. rewrite updz_ne; [done|]. intros E. apply Hb. by exists c.
Qed.

(** The blocks of the bitmap, and a transaction with room for all of them
    and [n] blocks more. *)
Definition bms (sb : superblock) : gset Z :=
  list_to_set (map (fun i => bmapstart sb + Z.of_nat i) (seq 0 (Z.to_nat ((fsize sb - 1) / BPB + 1)))).

Definition room (sb : superblock) (W : gset Z) (n : nat) : Prop := (size (W ∪ bms sb) + n <= tcap)%nat.

Lemma elem_of_bms sb b : 0 < fsize sb -> b ∈ bms sb <-> is_bmap sb b.
Proof.
  intros Hf. unfold bms, is_bmap. rewrite elem_of_list_to_set, list_elem_of_fmap. unfold BBLOCK, BPB. split.
  - intros (i & -> & Hi). apply elem_of_seq in Hi. exists (8192 * Z.of_nat i). split; zlia.
  - intros (x & Hx & ->). exists (Z.to_nat (x / 8192)). rewrite elem_of_seq. split; zlia.
Qed.

Lemma room_log_bmap sb W n b : room sb W n -> b ∈ bms sb ->
  (b ∈ W \/ (size W < tcap)%nat) /\ room sb ({[b]} ∪ W) n.
Proof.
  unfold room. intros Hr Hb. split.
  - destruct (decide (b ∈ W)) as [|Hn]; [by left|right].
    assert (W ⊂ W ∪ bms sb) as Hs%subset_size by set_solver. lia.
  - replace ({[b]} ∪ W ∪ bms sb) with (W ∪ bms sb) by set_solver. done.
Qed.

Lemma room_log sb W n b : room sb W (S n) ->
  (b ∈ W \/ (size W < tcap)%nat) /\ room sb ({[b]} ∪ W) n.
Proof.
  unfold room. intros Hr. assert (size W <= size (W ∪ bms sb))%nat by (apply subseteq_size; set_solver). split; [lia|].
  assert (size ({[b]} ∪ W ∪ bms sb) <= S (size (W ∪ bms sb)))%nat; [|lia].
  rewrite <- (assoc_L _), size_union_alt, size_singleton.
  assert (size ((W ∪ bms sb) ∖ {[b]}) <= size (W ∪ bms sb))%nat by (apply subseteq_size; set_solver). lia.
Qed.

Lemma room_le sb W n m : room sb W n -> (m <= n)%nat -> room sb W m.
Proof. unfold room. lia. Qed.

Lemma bzero_run s H W b :
  twf (store s) H W -> tok b -> (forall h, H !! h <> Some b) -> (size H < 2)%nat -> b ∈ W \/ (size W < tcap)%nat ->
  exists s', bzero b s = Ok s' /\ in_store s s' (updz (fview s) b zero_block) H ({[b]} ∪ W).
Proof.
  intros Hw Hok Hn Hs Hc.
  destruct (replace_run s H W b (fun _ => zero_block) Hw Hok Hn Hs) as (h & s1 & s2 & s3 & E1 & _ & E2 & E3 & I & _);
    [done|done|].
  exists s3. split; [|done]. unfold bzero. rewrite E1. cbn [mbind outcome_bind]. rewrite E2. exact E3.
Qed.

(** No handle is on a bitmap block or a free block. *)
Definition handles_ok (sb : superblock) (v : Z -> block) (H : gmap nat Z) : Prop :=
  (size H < 2)%nat /\ forall h b, H !! h = Some b -> ~ is_bmap sb b /\ (0 <= b < fsize sb -> used sb v b = true).

Lemma handles_empty sb v : handles_ok sb v ∅.
Proof. split; [rewrite map_size_empty; lia|]. intros h b. by rewrite lookup_empty. Qed.

Section Run.
Context (sb : superblock) (Hlay : layout_ok sb).

Lemma bmap_tok x : 0 <= x < fsize sb -> tok (BBLOCK x sb).
Proof.
  intros Hx. apply (lay_tok _ Hlay). pose proof (BBLOCK_bmap sb x Hx). pose proof (lay_bmap _ Hlay).
  pose proof (lay_data _ Hlay). lia.
Qed.

Lemma free_is_data v b : bitmap_ok sb v -> 0 <= b < fsize sb -> used sb v b = false -> datastart sb <= b < fsize sb.
Proof.
  intros Hb Hr Hu. split; [|lia]. destruct (decide (b < datastart sb)); [|lia]. rewrite Hb in Hu by lia. done.
Qed.

Lemma data_tok b : datastart sb <= b < fsize sb -> tok b /\ ~ is_bmap sb b /\ 0 < b.
Proof.
  intros Hb. pose proof (lay_bmap _ Hlay) as Hs. pose proof (lay_inode _ Hlay). pose proof (lay_size _ Hlay).
  assert (bmapstart sb <= datastart sb) by (unfold datastart, BPB; zlia). split_and!; [|..|lia].
  - apply (lay_tok _ Hlay). lia.
  - intros (x & Hx & ->). pose proof (BBLOCK_bmap sb x Hx). lia.
Qed.

(** How [balloc] ends. *)
Definition balloc_post s H W (r : Z) s' : Prop :=
  (r = 0 /\ in_store s s' (fview s) H W /\ forall b, 0 <= b < fsize sb -> used sb (fview s) b = true) \/
  (datastart sb <= r < fsize sb /\ used sb (fview s) r = false /\
   (forall b, 0 <= b < r -> used sb (fview s) b = true) /\
   in_store s s' (updz (marked sb (fview s) r) r zero_block) H ({[r]} ∪ ({[BBLOCK r sb]} ∪ W))).

Lemma balloc_found s0 H W b bi h s1 :
  fsb s0 = sb -> bitmap_ok sb (fview s0) -> handles_ok sb (fview s0) H -> room sb W 1 ->
  0 <= b -> b mod BPB = 0 -> 0 <= bi < BPB -> b + bi < fsize sb -> used sb (fview s0) (b + bi) = false ->
  (forall x, 0 <= x < b + bi -> used sb (fview s0) x = true) ->
  in_store s0 s1 (fview s0) (<[h := BBLOCK b sb]> H) W -> H !! h = None ->
  exists s', (s ← log_write_ h (bset h (mark_bit (fview s0 (BBLOCK b sb)) bi) s1);
    s ← brelse_ h s; s ← bzero (b + bi) s; Ok (b + bi, s)) = Ok (b + bi, s') /\ balloc_post s0 H W (b + bi) s'.
Proof.
  intros Hsb Hbm [Hsz Hh] Hroom Hb Hb8 Hbi Hlt Hu Hlow I1 Hnone.
  assert (HB : BBLOCK (b + bi) sb = BBLOCK b sb) by (unfold BBLOCK, BPB in *; zlia).
  assert (Hbit : (b + bi) mod BPB = bi) by (unfold BPB in *; zlia).
  pose proof (free_is_data _ _ Hbm (conj (ltac:(lia) : 0 <= b + bi) Hlt) Hu) as Hdat.
  destruct (data_tok _ Hdat) as (Htok & Hnb & Hpos).
  assert (Hin : BBLOCK b sb ∈ bms sb).
  { rewrite elem_of_bms by (pose proof (lay_size _ Hlay); lia). exists b. split; [lia|done]. }
  destruct (room_log_bmap sb W 1 _ Hroom Hin) as [Hc1 Hroom1].
  destruct (room_log sb _ 0 (b + bi) Hroom1) as [Hc2 _].
  destruct (bset_log_run s1 _ W h (BBLOCK b sb) (mark_bit (fview s0 (BBLOCK b sb)) bi)
    (in_wf _ _ _ _ _ I1) (lookup_insert_eq _ _ _)) as (s2 & E2 & I2).
  { rewrite length_mark_bit. rewrite <- (in_view _ _ _ _ _ I1). apply (tlaw_len _ _ _ _ (in_wf _ _ _ _ _ I1)). } { exact Hc1. }
  assert (I2' : in_store s0 s2 (marked sb (fview s0) (b + bi)) (<[h := BBLOCK b sb]> H) ({[BBLOCK b sb]} ∪ W)).
  { eapply in_store_ext; [exact (in_store_trans _ _ _ _ _ _ _ _ _ I1 I2)|]. intros x. unfold marked. rewrite HB, Hbit.
    unfold updz. dcase; [done|]. apply I1. }
  destruct (brelse_last _ _ _ _ _ _ _ I2' Hnone) as (s3 & E3 & I3).
  destruct (bzero_run s3 H ({[BBLOCK b sb]} ∪ W) (b + bi) (in_wf _ _ _ _ _ I3) Htok) as (s4 & E4 & I4); [|done|exact Hc2|].
  { intros h' Hh'. destruct (Hh h' _ Hh') as [_ Hu']. rewrite Hu' in Hu by lia. done. }
  exists s4. rewrite E2. cbn [mbind outcome_bind]. rewrite E3. cbn [mbind outcome_bind]. rewrite E4. split; [done|].
  right. split; [done|]. split; [done|]. split; [done|]. rewrite HB.
  eapply in_store_ext; [exact (in_store_trans _ _ _ _ _ _ _ _ _ I3 I4)|].
  intros x. unfold updz at 1 2. dcase; [done|]. apply I3.
Qed.

Lemma balloc_loop_run k b s0 H W s :
  fsb s0 = sb -> bitmap_ok sb (fview s0) -> handles_ok sb (fview s0) H -> room sb W 1 ->
  in_store s0 s (fview s0) H W ->
  0 <= b -> b mod BPB = 0 -> fsize sb <= b + BPB * Z.of_nat k ->
  (forall x, 0 <= x < b -> x < fsize sb -> used sb (fview s0) x = true) ->
  exists r s', balloc_loop k b s = Ok (r, s') /\ balloc_post s0 H W r s'.
Proof.
  intros Hsb Hbm Hho Hroom. revert b s. induction k as [|k IH]; intros b s I0 Hb Hb8 Hk Hlow; cbn [balloc_loop];
    rewrite (in_sb _ _ _ _ _ I0), Hsb; destruct (b <? fsize sb) eqn:E; bool_to_prop; try lia.
  { exists 0, s. split; [done|]. left. split; [done|]. split; [done|]. intros x Hx. apply Hlow; lia. }
  2: { exists 0, s. split; [done|]. left. split; [done|]. split; [done|]. intros x Hx. apply Hlow; lia. }
  destruct (bread_store s H W (BBLOCK b sb) (in_wf _ _ _ _ _ I0)) as (h & s1 & E1 & Hnone & I1 & D1).
  { apply bmap_tok. lia. } { intros h Hh. destruct (proj2 Hho h _ Hh) as [Hnb _]. apply Hnb. exists b. split; [lia|done]. }
  { apply Hho. }
  rewrite E1. cbn [mbind outcome_bind]. rewrite (in_sb _ _ _ _ _ I1), (in_sb _ _ _ _ _ I0), Hsb, D1.
  rewrite (in_view _ _ _ _ _ I0).
  assert (I01 : in_store s0 s1 (fview s0) (<[h := BBLOCK b sb]> H) W).
  { eapply in_store_ext; [exact (in_store_trans _ _ _ _ _ _ _ _ _ I0 I1)|]. apply I0. }
  assert (Hused : forall j, 0 <= j < BPB -> used sb (fview s0) (b + j) = bit_set (fview s0 (BBLOCK b sb)) j).
  { intros j Hj. unfold used. assert (BBLOCK (b + j) sb = BBLOCK b sb) as -> by (unfold BBLOCK, BPB in *; zlia).
    assert ((b + j) mod BPB = j) as -> by (unfold BPB in *; zlia). done. }
  pose proof (balloc_bits_spec (Z.to_nat BPB) b 0 (fview s0 (BBLOCK b sb)) (fsize sb)) as Hbits.
  destruct (balloc_bits _ b 0 _ _) as [bi|].
  - destruct Hbits as (A1 & A2 & A3 & A4); [lia|unfold BPB; lia|]. rewrite <- Hused in A3 by lia.
    destruct (balloc_found s0 H W b bi h s1) as (s' & E' & P'); auto.
    + intros x Hx. destruct (decide (x < b)); [apply Hlow; lia|]. replace x with (b + (x - b)) by lia.
      rewrite Hused by lia. apply A4. lia.
    + by exists (b + bi), s'.
  - destruct (brelse_last _ _ _ _ _ _ _ I01 Hnone) as (s2 & E2 & I2). rewrite E2. cbn [mbind outcome_bind].
    apply IH; [exact I2|unfold BPB in *; lia|unfold BPB in *; zlia|lia|].
    intros x Hx Hxs. destruct (decide (x < b)); [apply Hlow; lia|]. replace x with (b + (x - b)) by lia.
    rewrite Hused by lia. apply Hbits; unfold BPB in *; lia.
Qed.

Lemma balloc_run s H W :
  fsb s = sb -> bitmap_ok sb (fview s) -> handles_ok sb (fview s) H -> room sb W 1 -> twf (store s) H W ->
  exists r s', balloc s = Ok (r, s') /\ balloc_post s H W r s'.
Proof.
  intros Hsb Hbm Hho Hroom Hw. unfold balloc. rewrite Hsb. apply balloc_loop_run; auto.
  - by apply in_store_refl.
  - lia.
  - pose proof (lay_size _ Hlay). unfold BPB. zlia.
  - lia.
Qed.

Lemma bfree_run s H W b :
  fsb s = sb -> twf (store s) H W -> (size H < 2)%nat -> (forall h, H !! h <> Some (BBLOCK b sb)) ->
  room sb W 0 -> 0 <= b < fsize sb -> used sb (fview s) b = true ->
  exists s', bfree b s = Ok s' /\ in_store s s' (cleared sb (fview s) b) H ({[BBLOCK b sb]} ∪ W).
Proof.
  intros Hsb Hw Hsz Hh Hroom Hb Hu.
  assert (Hin : BBLOCK b sb ∈ bms sb) by (rewrite elem_of_bms by (pose proof (lay_size _ Hlay); lia); by exists b).
  destruct (room_log_bmap sb W 0 _ Hroom Hin) as [Hc _].
  destruct (replace_run s H W (BBLOCK b sb) (fun d => clear_bit d (b mod BPB)) Hw (bmap_tok _ Hb) Hh Hsz)
    as (h & s1 & s2 & s3 & E1 & D1 & E2 & E3 & I & _); [|done|].
  { intros d Hd. by rewrite length_clear_bit. }
  exists s3. split; [|exact I]. unfold bfree. rewrite Hsb, E1. cbn [mbind outcome_bind]. rewrite D1.
  unfold used in Hu. rewrite Hu. cbn [negb]. rewrite E2. exact E3.
Qed.
End Run.
End Alloc.
