(* ===== verification/FsFile.v ===== *)
(** * Files as sequences of bytes

    The block map of an inode and [bmap]; [readi] and [writei] as reading
    and writing of a sequence of bytes. *)
From S2P Require Import Prelude Cstring Riscv Kalloc Vm Block Bio Fs FsTheory.

Abbreviation BS := (Z.of_nat BSIZE).

(** The address of block [n] of a file, 0 when there is none. *)
Definition iblk (v : Z -> block) (p : inode) (n : Z) : Z :=
  if n <? 12 then addr_at p (Z.to_nat n)
  else if addr_at p NDIRECT =? 0 then 0
  else get32 (v (addr_at p NDIRECT)) (4 * Z.to_nat (n - 12)).

Definition data_block (sb : superblock) (v : Z -> block) (b : Z) : Prop :=
  datastart sb <= b < fsize sb /\ used sb v b = true.

(** A file whose blocks are its own. *)
Record file_ok (sb : superblock) (v : Z -> block) (p : inode) : Prop := {
  f_len : length (addrs p) = 13%nat;
  f_size : 0 <= i_size p <= MAXFILE * BS;
  f_blk : forall n, 0 <= n < MAXFILE -> iblk v p n <> 0 -> data_block sb v (iblk v p n);
  f_ind : addr_at p NDIRECT <> 0 -> data_block sb v (addr_at p NDIRECT);
  f_inj : forall n m, 0 <= n < MAXFILE -> 0 <= m < MAXFILE -> iblk v p n <> 0 -> iblk v p n = iblk v p m -> n = m;
  f_indne : forall n, 0 <= n < MAXFILE -> iblk v p n <> 0 -> iblk v p n <> addr_at p NDIRECT;
  f_full : forall n, 0 <= n -> n * BS < i_size p -> iblk v p n <> 0
}.

(** Blocks that belong to neither the bitmap nor the file's indirect block
    keep their contents when they are in use. *)
Definition keeps (sb : superblock) (p : inode) (v v' : Z -> block) : Prop :=
  forall b, 0 <= b < fsize sb -> used sb v b = true -> ~ is_bmap sb b -> b <> addr_at p NDIRECT -> v' b = v b.

Definition ind_set (p : inode) : gset Z := if addr_at p NDIRECT =? 0 then ∅ else {[addr_at p NDIRECT]}.

Section File.
Context {T : Type} {HT : TxStore T} {HL : TxLaws T}.
Implicit Types s : fs T.
Context (sb : superblock) (Hlay : layout_ok sb).

(** The transaction can take the bitmap, the indirect block and [n] blocks
    more. *)
Definition budget (W : gset Z) (p : inode) (n : nat) : Prop :=
  room sb (W ∪ ind_set p) (n + if addr_at p NDIRECT =? 0 then 1 else 0).

Lemma room_subset W W' n : W' ⊆ W -> room sb W n -> room sb W' n.
Proof.
  unfold room. intros Hs Hr. assert (size (W' ∪ bms sb) <= size (W ∪ bms sb))%nat by (apply subseteq_size; set_solver). lia.
Qed.

Lemma budget_room W p n : budget W p n -> room sb W n.
Proof. unfold budget. intros H. eapply room_le; [|apply Nat.le_add_r]. eapply room_subset; [|exact H]. set_solver. Qed.

Lemma budget_log W p n b : budget W p (S n) -> budget ({[b]} ∪ W) p n.
Proof.
  unfold budget. intros H. apply (room_log sb _ _ b) in H as [_ H]. by rewrite <- (assoc_L _).
Qed.

Lemma budget_bmap W p n b : b ∈ bms sb -> budget W p n -> budget ({[b]} ∪ W) p n.
Proof.
  unfold budget. intros Hb H. apply (room_log_bmap sb _ _ b) in H as [_ H]; [|done]. by rewrite <- (assoc_L _).
Qed.

Lemma budget_le W p n m : budget W p n -> (m <= n)%nat -> budget W p m.
Proof. unfold budget. intros H Hm. eapply room_le; [exact H|lia]. Qed.

(** The indirect block itself costs nothing. *)
Lemma budget_ind W p n : addr_at p NDIRECT <> 0 -> budget W p n ->
  (addr_at p NDIRECT ∈ W \/ (size W < tcap)%nat) /\ budget ({[addr_at p NDIRECT]} ∪ W) p n.
Proof.
  unfold budget, ind_set. intros Ha. rewrite (proj2 (Z.eqb_neq _ _)) by done. intros H. split.
  - destruct (decide (addr_at p NDIRECT ∈ W)) as [|Hn]; [by left|right].
    assert (W ⊂ W ∪ {[addr_at p NDIRECT]} ∪ bms sb) as Hs%subset_size by set_solver. unfold room in H. lia.
  - eapply room_subset; [|exact H]. set_solver.
Qed.

(** Giving the file its indirect block. *)
Lemma budget_new_ind W p n a : addr_at p NDIRECT = 0 -> a <> 0 -> length (addrs p) = 13%nat ->
  budget W p n -> budget ({[a]} ∪ W) (set_addr NDIRECT a p) n.
Proof.
  unfold budget, ind_set. intros Ha Hne Hl. rewrite Ha. cbn [Z.eqb].
  assert (addr_at (set_addr NDIRECT a p) NDIRECT = a) as ->.
  { unfold addr_at, set_addr. cbn [addrs set_addrs]. rewrite list_lookup_insert_eq by (unfold NDIRECT; lia). done. }
  rewrite (proj2 (Z.eqb_neq _ _)) by done. rewrite Nat.add_0_r, Nat.add_1_r. intros H.
  apply (room_log sb _ _ a) in H as [_ H]. eapply room_subset; [|exact H]. set_solver.
Qed.

(** The inode at [ip] becomes [p], the other entries of the table stay. *)
Definition only_inode (ip : nat) (p : inode) s s' : Prop :=
  fsb s' = fsb s /\ itable s' = alter (fun _ => p) ip (itable s).

Record bmap_post (ip : nat) (bn : Z) s (W : gset Z) (n : nat) (r : Z) s' (W' : gset Z) (p' : inode) : Prop := {
  bp_only : only_inode ip p' s s';
  bp_inode : p' = set_addrs (addrs p') (geti s ip);
  bp_wf : twf (store s') ∅ W';
  bp_bitmap : bitmap_ok sb (fview s');
  bp_file : file_ok sb (fview s') p';
  bp_addr : r = iblk (fview s') p' bn;
  bp_other : forall m, 0 <= m < MAXFILE -> m <> bn -> iblk (fview s') p' m = iblk (fview s) (geti s ip) m;
  bp_same : iblk (fview s) (geti s ip) bn <> 0 -> r = iblk (fview s) (geti s ip) bn /\ (forall b, fview s' b = fview s b);
  bp_new : iblk (fview s) (geti s ip) bn = 0 -> r <> 0 -> fview s' r = zero_block /\ used sb (fview s) r = false;
  bp_none : r = 0 -> forall b, 0 <= b < fsize sb -> used sb (fview s') b = true;
  bp_keeps : keeps sb (geti s ip) (fview s) (fview s');
  bp_used : forall b, 0 <= b < fsize sb -> used sb (fview s) b = true -> used sb (fview s') b = true;
  bp_budget : budget W' p' n;
  bp_budget_r : r <> 0 -> budget ({[r]} ∪ W') p' n;
  bp_ind : addr_at p' NDIRECT <> addr_at (geti s ip) NDIRECT -> used sb (fview s) (addr_at p' NDIRECT) = false
}.

(** ** Allocation and the blocks of a file *)

(** The contents after [balloc] has returned [r]. *)
Definition alloc_view (v : Z -> block) (r : Z) : Z -> block := updz (marked sb v r) r zero_block.

Record alloc_facts (v : Z -> block) (r : Z) (v' : Z -> block) : Prop := {
  af_data : data_block sb v' r;
  af_free : used sb v r = false;
  af_zero : v' r = zero_block;
  af_keep : forall b, 0 <= b < fsize sb -> used sb v b = true -> ~ is_bmap sb b -> v' b = v b;
  af_used : forall b, 0 <= b < fsize sb -> used sb v' b = if decide (r = b) then true else used sb v b;
  af_bitmap : bitmap_ok sb v'
}.

Lemma alloc_view_facts v r v' : (forall x, length (v x) = BSIZE) -> bitmap_ok sb v ->
  datastart sb <= r < fsize sb -> used sb v r = false -> (forall b, v' b = alloc_view v r b) -> alloc_facts v r v'.
Proof.
  intros Hv Hbm Hr Hf E. destruct (data_tok sb Hlay r Hr) as (_ & Hnb & Hpos).
  pose proof (lay_data _ Hlay) as Hd.
  assert (Hu : forall b, 0 <= b < fsize sb -> used sb v' b = if decide (r = b) then true else used sb v b).
  { intros b Hb. rewrite <- (used_marked sb v r b Hv) by lia. unfold used. rewrite E. unfold alloc_view.
    rewrite updz_ne; [done|]. intros <-. apply Hnb. by exists b. }
  split; auto.
  - split; [done|]. rewrite Hu, decide_True by (try done; lia). done.
  - rewrite E. apply updz_eq.
  - intros b Hb Hub Hnbm. rewrite E. unfold alloc_view. rewrite updz_ne by congruence.
    unfold marked. rewrite updz_ne; [done|]. intros ->. apply Hnbm. exists r. split; [lia|done].
  - intros b Hb. rewrite Hu by lia. dcase; [done|]. auto.
Qed.

Lemma data_block_range v b : data_block sb v b -> 0 <= b < fsize sb /\ ~ is_bmap sb b /\ b <> 0 /\ tok b.
Proof. intros [Hb _]. destruct (data_tok sb Hlay b Hb) as (? & ? & ?). split_and!; auto; lia. Qed.

(** The map of a file is the same under contents that keep its indirect
    block. *)
Lemma iblk_keep v v' p n : (addr_at p NDIRECT <> 0 -> v' (addr_at p NDIRECT) = v (addr_at p NDIRECT)) ->
  iblk v' p n = iblk v p n.
Proof.
  intros H. unfold iblk. destruct (n <? 12); [done|]. destruct (addr_at p NDIRECT =? 0) eqn:E; [done|].
  bool_to_prop. by rewrite H.
Qed.

Lemma file_ok_mono v v' p :
  file_ok sb v p -> (forall n, iblk v' p n = iblk v p n) ->
  (forall b, 0 <= b < fsize sb -> used sb v b = true -> used sb v' b = true) -> file_ok sb v' p.
Proof.
  intros [F1 F2 F3 F4 F5 F6 F7] Hi Hu.
  assert (Hd : forall b, data_block sb v b -> data_block sb v' b).
  { intros b Hb. pose proof (data_block_range v b Hb) as (? & _). destruct Hb. split; auto. }
  split; auto.
  - intros n. rewrite Hi. auto.
  - intros n m. rewrite !Hi. auto.
  - intros n. rewrite Hi. auto.
  - intros n. rewrite Hi. auto.
Qed.

Lemma alloc_iblk v r v' p n : alloc_facts v r v' -> file_ok sb v p -> iblk v' p n = iblk v p n.
Proof.
  intros Ha Hf. apply iblk_keep. intros Hne. destruct (f_ind _ _ _ Hf Hne) as [Hb Hu].
  destruct (data_block_range v _ (conj Hb Hu)) as (Hr & Hnb & _). by apply (af_keep _ _ _ Ha).
Qed.

Lemma alloc_file v r v' p : alloc_facts v r v' -> file_ok sb v p -> file_ok sb v' p.
Proof.
  intros Ha Hf. apply (file_ok_mono v); [done|intros; by eapply alloc_iblk|].
  intros b Hb Hu. rewrite (af_used _ _ _ Ha b Hb). by dcase.
Qed.

(** A fresh block is not one of the file's. *)
Lemma alloc_fresh v r v' p : alloc_facts v r v' -> file_ok sb v p ->
  (forall n, 0 <= n < MAXFILE -> iblk v' p n <> r) /\ addr_at p NDIRECT <> r.
Proof.
  intros Ha Hf. destruct (data_block_range _ _ (af_data _ _ _ Ha)) as (_ & _ & Hr0 & _). split.
  - intros n Hn E. rewrite (alloc_iblk v r) in E by done.
    destruct (f_blk _ _ _ Hf n Hn) as [_ Hu]; [congruence|]. rewrite E, (af_free _ _ _ Ha) in Hu. done.
  - intros E. destruct (f_ind _ _ _ Hf) as [_ Hu]; [congruence|]. rewrite E, (af_free _ _ _ Ha) in Hu. done.
Qed.

(** A fresh block becomes block [bn] of the file. *)
Lemma file_ok_set v v' p p' bn r :
  file_ok sb v p -> 0 <= bn < MAXFILE -> iblk v p bn = 0 ->
  length (addrs p') = 13%nat -> i_size p' = i_size p -> addr_at p' NDIRECT = addr_at p NDIRECT ->
  (forall n, 0 <= n < MAXFILE -> iblk v' p' n = if decide (n = bn) then r else iblk v p n) ->
  data_block sb v' r -> (forall n, 0 <= n < MAXFILE -> iblk v p n <> r) -> addr_at p NDIRECT <> r ->
  (forall b, 0 <= b < fsize sb -> used sb v b = true -> used sb v' b = true) -> file_ok sb v' p'.
Proof.
  intros [F1 F2 F3 F4 F5 F6 F7] Hbn Hz Hl Hs Ha Hi Hr Hfr Hfa Hu.
  assert (Hd : forall b, data_block sb v b -> data_block sb v' b).
  { intros b Hb. pose proof (data_block_range v b Hb) as (? & _). destruct Hb. split; auto. }
  assert (r <> 0) by apply (data_block_range _ _ Hr).
  assert (Hm : forall n, 0 <= n -> n * BS < i_size p -> 0 <= n < MAXFILE) by (unfold BSIZE in *; lia).
  split; rewrite ?Hs, ?Ha; auto.
  - intros n Hn. rewrite Hi by done. dcase; [done|]. auto.
  - intros n m Hn Hm'. rewrite !Hi by done. repeat dcase; subst; auto.
    + intros _ E. symmetry in E. by apply Hfr in E.
    + intros _ E. by apply Hfr in E.
  - intros n Hn. rewrite Hi by done. dcase; [congruence|]. auto.
  - intros n Hn Hlt. rewrite Hi by auto. dcase; [done|]. auto.
Qed.

Lemma get32_zero off : (off + 4 <= BSIZE)%nat -> get32 zero_block off = 0.
Proof.
  intros H. unfold get32, slice, zero_block. rewrite drop_replicate, take_replicate.
  replace (4 `min` (BSIZE - off))%nat with 4%nat by lia. reflexivity.
Qed.

Lemma addr_at_set p i j a : length (addrs p) = 13%nat -> (i < 13)%nat ->
  addr_at (set_addr i a p) j = if decide (i = j) then a else addr_at p j.
Proof.
  intros Hl Hi. unfold addr_at, set_addr. cbn [addrs set_addrs]. destruct (decide (i = j)) as [<-|].
  - by rewrite list_lookup_insert_eq by lia.
  - by rewrite list_lookup_insert_ne.
Qed.

(** A fresh zeroed block becomes the indirect block. *)
Lemma file_ok_new_ind v p r :
  file_ok sb v p -> addr_at p NDIRECT = 0 -> data_block sb v r -> v r = zero_block ->
  (forall n, 0 <= n < MAXFILE -> iblk v p n <> r) ->
  file_ok sb v (set_addr NDIRECT r p) /\ (forall n, 0 <= n < MAXFILE -> iblk v (set_addr NDIRECT r p) n = iblk v p n).
Proof.
  intros [F1 F2 F3 F4 F5 F6 F7] Ha Hr Hz Hfr.
  assert (Hr0 : r <> 0) by apply (data_block_range _ _ Hr).
  assert (Ha' : addr_at (set_addr NDIRECT r p) NDIRECT = r) by (rewrite addr_at_set by (done || unfold NDIRECT; lia); by rewrite decide_True).
  assert (Hi : forall n, 0 <= n < MAXFILE -> iblk v (set_addr NDIRECT r p) n = iblk v p n).
  { intros n Hn. unfold iblk. rewrite Ha', Ha. cbn [Z.eqb]. destruct (n <? 12) eqn:E; bool_to_prop.
    - rewrite addr_at_set by (done || unfold NDIRECT; lia). rewrite decide_False by (unfold NDIRECT; lia). done.
    - rewrite (proj2 (Z.eqb_neq _ _)) by done. rewrite Hz, get32_zero; [done|]. unfold BSIZE, MAXFILE in *. lia. }
  assert (Hm : forall n, 0 <= n -> n * BS < i_size p -> 0 <= n < MAXFILE) by (unfold BSIZE in *; lia).
  split; [|exact Hi]. split; rewrite ?Ha'; auto.
  - cbn [addrs set_addr set_addrs]. by rewrite length_insert.
  - intros n Hn. rewrite Hi by done. auto.
  - intros n m Hn Hm'. rewrite !Hi by done. auto.
  - intros n Hn. rewrite Hi by done. intros _. by apply Hfr.
  - intros n Hn Hlt. rewrite Hi by auto. auto.
Qed.

(** ** [bmap] *)

Lemma alter_const {A} (f : A -> A) (d : A) i (l : list A) : alter f i l = alter (fun _ => f (default d (l !! i))) i l.
Proof. apply list_alter_ext; [|done]. intros x E. by rewrite E. Qed.

Lemma only_refl ip s s' : fsb s' = fsb s -> itable s' = itable s -> only_inode ip (geti s ip) s s'.
Proof.
  intros E1 E2. split; [done|]. rewrite E2. unfold geti. rewrite <- (alter_const (fun x => x)). symmetry.
  apply list_alter_id. done.
Qed.

Lemma only_seti ip f s s1 : fsb s1 = fsb s -> itable s1 = itable s -> only_inode ip (f (geti s ip)) s (seti ip f s1).
Proof.
  intros E1 E2. split; [done|]. unfold seti. cbn [itable]. rewrite E2. unfold geti. apply alter_const.
Qed.

Lemma only_trans ip p p' s s1 s2 : only_inode ip p s s1 -> only_inode ip p' s1 s2 -> only_inode ip p' s s2.
Proof.
  intros [A1 A2] [B1 B2]. split; [congruence|]. rewrite B2, A2. apply list_eq. intros j.
  destruct (decide (ip = j)) as [<-|]; [rewrite !list_lookup_alter_eq|by rewrite !list_lookup_alter_ne].
  by destruct (itable s !! ip).
Qed.

Lemma geti_only ip p s s' : (ip < length (itable s))%nat -> only_inode ip p s s' -> geti s' ip = p.
Proof.
  intros Hi [_ E]. unfold geti. rewrite E, list_lookup_alter_eq.
  destruct (itable s !! ip) eqn:E'; [done|]. apply lookup_ge_None in E'. lia.
Qed.

Lemma length_only ip p s s' : only_inode ip p s s' -> length (itable s') = length (itable s).
Proof. intros [_ ->]. apply length_alter. Qed.

Lemma geti_seti ip g s : (ip < length (itable s))%nat -> geti (seti ip g s) ip = g (geti s ip).
Proof.
  intros Hi. unfold geti, seti. cbn [itable]. rewrite list_lookup_alter_eq. apply lookup_lt_is_Some in Hi as [x ->]. done.
Qed.
Lemma geti_seti_ne ip g s jp : jp <> ip -> geti (seti ip g s) jp = geti s jp.
Proof. intros. unfold geti, seti. cbn [itable]. by rewrite list_lookup_alter_ne. Qed.

Lemma set_addrs_self p : p = set_addrs (addrs p) p.
Proof. by destruct p. Qed.

(** What the first part of the indirect case establishes. *)
Record staged (ip : nat) s (W : gset Z) (n : nat) s1 (W1 : gset Z) (p1 : inode) : Prop := {
  sg_only : only_inode ip p1 s s1;
  sg_inode : p1 = set_addrs (addrs p1) (geti s ip);
  sg_wf : twf (store s1) ∅ W1;
  sg_bitmap : bitmap_ok sb (fview s1);
  sg_file : file_ok sb (fview s1) p1;
  sg_iblk : forall m, 0 <= m < MAXFILE -> iblk (fview s1) p1 m = iblk (fview s) (geti s ip) m;
  sg_same : addr_at (geti s ip) NDIRECT <> 0 -> (forall b, fview s1 b = fview s b) /\ p1 = geti s ip;
  sg_fresh : addr_at (geti s ip) NDIRECT = 0 -> used sb (fview s) (addr_at p1 NDIRECT) = false;
  sg_keeps : forall b, 0 <= b < fsize sb -> used sb (fview s) b = true -> ~ is_bmap sb b -> fview s1 b = fview s b;
  sg_used : forall b, 0 <= b < fsize sb -> used sb (fview s) b = true -> used sb (fview s1) b = true;
  sg_budget : budget W1 p1 (S n)
}.

Section Bmap.
Context (ip : nat) (s : fs T) (W : gset Z) (n : nat).
Let p := geti s ip.
Context (Hip : (ip < length (itable s))%nat) (Hsb : fsb s = sb).
Context (Hbm : bitmap_ok sb (fview s)) (Hfile : file_ok sb (fview s) p).
Context (Hw : twf (store s) ∅ W) (Hbud : budget W p (S n)).

Lemma view_len b : length (fview s b) = BSIZE.
Proof. apply (tlaw_len _ _ _ _ Hw). Qed.

(** Nothing is allocated. *)
Lemma bmap_unchanged s' bn r :
  in_store s s' (fview s) ∅ W -> r = iblk (fview s) p bn ->
  (r = 0 -> forall b, 0 <= b < fsize sb -> used sb (fview s) b = true) ->
  bmap_post ip bn s W n r s' W p.
Proof.
  intros I Hr Hnone.
  assert (Hu : forall b, used sb (fview s') b = used sb (fview s) b) by (intros b; unfold used; by rewrite (in_view _ _ _ _ _ I)).
  assert (Hi : forall m, iblk (fview s') p m = iblk (fview s) p m) by (intros m; apply iblk_keep; intros _; apply I).
  split; auto.
  - apply only_refl; apply I.
  - apply set_addrs_self.
  - apply I.
  - intros b Hb. rewrite Hu. auto.
  - apply (file_ok_mono (fview s)); auto. intros. by rewrite Hu.
  - by rewrite Hi.
  - intros Hne. split; [done|apply I].
  - intros E Hne. destruct Hne. rewrite Hr. exact E.
  - intros E b Hb. rewrite Hu. auto.
  - intros b _ _ _ _. apply I.
  - intros b Hb Hub. by rewrite Hu.
  - eapply budget_le; [exact Hbud|lia].
  - intros _. by apply budget_log.
  - intros Hne. by destruct Hne.
Qed.

Lemma balloc_facts s' H r W1 :
  datastart sb <= r < fsize sb -> used sb (fview s) r = false ->
  in_store s s' (updz (marked sb (fview s) r) r zero_block) H W1 -> alloc_facts (fview s) r (fview s').
Proof.
  intros Hr Hf I. apply alloc_view_facts; auto using view_len. intros b. apply (in_view _ _ _ _ _ I).
Qed.

Lemma balloc_budget r : datastart sb <= r < fsize sb ->
  budget ({[r]} ∪ ({[BBLOCK r sb]} ∪ W)) p n /\ room sb W 1.
Proof.
  intros Hr. split.
  - apply budget_log, budget_bmap; [|done]. pose proof (lay_size _ Hlay). rewrite elem_of_bms by lia.
    pose proof (data_tok sb Hlay r Hr) as (_ & _ & ?). exists r. split; [lia|done].
  - apply budget_room in Hbud. eapply room_le; [exact Hbud|lia].
Qed.

Lemma bmap_direct bn : 0 <= bn < 12 ->
  exists r s' W' p', bmap ip bn s = Ok (r, s') /\ bmap_post ip bn s W n r s' W' p'.
Proof.
  intros Hbn. unfold bmap. rewrite (proj2 (Z.ltb_lt _ _)) by (unfold NDIRECT; lia). fold p.
  assert (Hi : iblk (fview s) p bn = addr_at p (Z.to_nat bn)) by (unfold iblk; by rewrite (proj2 (Z.ltb_lt _ _)) by lia).
  destruct (addr_at p (Z.to_nat bn) =? 0) eqn:E; bool_to_prop.
  2: { exists (addr_at p (Z.to_nat bn)), s, W, p. split; [done|]. apply bmap_unchanged; [by apply in_store_refl|done|done]. }
  destruct (balloc_run sb Hlay s ∅ W Hsb Hbm (handles_empty _ _)) as (r & s1 & Eb & [(-> & I & Hall)|(Hr & Hfree & _ & I)]).
  { eapply room_le; [exact (budget_room _ _ _ Hbud)|lia]. } { done. }
  { rewrite Eb. cbn [mbind outcome_bind Z.eqb]. exists 0, s1, W, p. split; [done|]. apply bmap_unchanged; [done|congruence|auto]. }
  rewrite Eb. cbn [mbind outcome_bind]. pose proof (balloc_facts _ _ _ _ Hr Hfree I) as Ha.
  destruct (alloc_fresh _ _ _ _ Ha Hfile) as [Hfr Hfa].
  assert (Hr0 : r <> 0) by apply (data_block_range _ _ (af_data _ _ _ Ha)).
  rewrite (proj2 (Z.eqb_neq _ _)) by done. set (p' := set_addr (Z.to_nat bn) r p).
  pose proof (f_len _ _ _ Hfile) as Hlen.
  assert (Ha12 : addr_at p' NDIRECT = addr_at p NDIRECT).
  { unfold p'. rewrite addr_at_set by (done || lia). rewrite decide_False by (unfold NDIRECT; lia). done. }
  assert (Hib : forall m, 0 <= m < MAXFILE -> iblk (fview s1) p' m = if decide (m = bn) then r else iblk (fview s) p m).
  { intros m Hm. rewrite <- (alloc_iblk _ _ _ _ m Ha Hfile). unfold iblk. rewrite Ha12. destruct (m <? 12) eqn:E'; bool_to_prop.
    - unfold p'. rewrite addr_at_set by (done || lia). repeat dcase; try done; lia.
    - rewrite decide_False by lia. done. }
  exists r, (seti ip (set_addr (Z.to_nat bn) r) s1), ({[r]} ∪ ({[BBLOCK r sb]} ∪ W)), p'. split; [done|].
  destruct (balloc_budget r Hr) as [Hb1 _].
  assert (Hb2 : budget ({[r]} ∪ ({[BBLOCK r sb]} ∪ W)) p' n).
  { unfold budget, ind_set in *. by rewrite Ha12. }
  assert (Hmax : 0 <= bn < MAXFILE) by (unfold MAXFILE; lia).
  split; change (fview (seti ip (set_addr (Z.to_nat bn) r) s1)) with (fview s1);
    change (store (seti ip (set_addr (Z.to_nat bn) r) s1)) with (store s1); auto.
  - apply (only_seti ip (set_addr (Z.to_nat bn) r)); apply I.
  - apply I.
  - apply Ha.
  - apply (file_ok_set (fview s) (fview s1) p p' bn r); auto; [congruence|..].
    + unfold p'. cbn [addrs set_addr set_addrs]. by rewrite length_insert.
    + apply Ha.
    + intros m Hm. rewrite <- (alloc_iblk _ _ _ _ m Ha Hfile). auto.
    + intros b Hb Hu. rewrite (af_used _ _ _ Ha) by done. by dcase.
  - rewrite Hib by done. by rewrite decide_True.
  - intros m Hm Hne. rewrite Hib by done. by rewrite decide_False.
  - intros Hne. fold p in Hne. congruence.
  - intros _ _. split; apply Ha.
  - intros b Hb Hu Hnb _. by apply (af_keep _ _ _ Ha).
  - intros b Hb Hu. rewrite (af_used _ _ _ Ha) by done. by dcase.
  - intros _. assert ({[r]} ∪ ({[r]} ∪ ({[BBLOCK r sb]} ∪ W)) = {[r]} ∪ ({[BBLOCK r sb]} ∪ W)) as -> by set_solver. done.
  - intros Hne. by destruct Hne.
Qed.

Lemma bmap_stage1 :
  exists a s1 W1 p1,
    (if addr_at p NDIRECT =? 0 then
       '(addr, s) ← balloc s; if addr =? 0 then Ok (0, s) else Ok (addr, seti ip (set_addr NDIRECT addr) s)
     else Ok (addr_at p NDIRECT, s)) = Ok (a, s1) /\
    ((a = 0 /\ addr_at p NDIRECT = 0 /\ in_store s s1 (fview s) ∅ W /\
      forall b, 0 <= b < fsize sb -> used sb (fview s) b = true) \/
     (a <> 0 /\ a = addr_at p1 NDIRECT /\ staged ip s W n s1 W1 p1)).
Proof.
  destruct (addr_at p NDIRECT =? 0) eqn:E; bool_to_prop.
  2: { exists (addr_at p NDIRECT), s, W, p. split; [done|]. right. split; [done|]. split; [done|].
       split; auto using set_addrs_self; [by apply only_refl|]. intros E0. by destruct E. }
  destruct (balloc_run sb Hlay s ∅ W Hsb Hbm (handles_empty _ _)) as (r & s1 & Eb & [(-> & I & Hall)|(Hr & Hfree & _ & I)]).
  { eapply room_le; [exact (budget_room _ _ _ Hbud)|lia]. } { done. }
  { rewrite Eb. cbn [mbind outcome_bind Z.eqb]. exists 0, s1, W, p. split; [done|]. by left. }
  rewrite Eb. cbn [mbind outcome_bind]. pose proof (balloc_facts _ _ _ _ Hr Hfree I) as Ha.
  destruct (alloc_fresh _ _ _ _ Ha Hfile) as [Hfr Hfa].
  assert (Hr0 : r <> 0) by apply (data_block_range _ _ (af_data _ _ _ Ha)).
  rewrite (proj2 (Z.eqb_neq _ _)) by done. set (p' := set_addr NDIRECT r p). pose proof (f_len _ _ _ Hfile) as Hlen.
  exists r, (seti ip (set_addr NDIRECT r) s1), ({[r]} ∪ ({[BBLOCK r sb]} ∪ W)), p'. split; [done|]. right.
  destruct (file_ok_new_ind (fview s1) p r) as [Hf' Hi']; auto; [by apply (alloc_file (fview s) r)|apply Ha|apply Ha|].
  split; [done|]. split.
  { unfold p'. rewrite addr_at_set by (done || unfold NDIRECT; lia). by rewrite decide_True. }
  split; change (fview (seti ip (set_addr NDIRECT r) s1)) with (fview s1);
    change (store (seti ip (set_addr NDIRECT r) s1)) with (store s1); auto.
  - apply (only_seti ip (set_addr NDIRECT r)); apply I.
  - apply I.
  - apply Ha.
  - intros m Hm. unfold p'. rewrite Hi' by done. by apply (alloc_iblk _ r).
  - intros Hne. fold p in Hne. congruence.
  - intros _. unfold p'. rewrite addr_at_set by (done || unfold NDIRECT; lia). by rewrite decide_True.
  - intros b Hb Hu Hnb. by apply (af_keep _ _ _ Ha).
  - intros b Hb Hu. rewrite (af_used _ _ _ Ha) by done. by dcase.
  - apply budget_new_ind; auto. apply budget_bmap; [|done]. rewrite elem_of_bms by (pose proof (lay_size _ Hlay); lia).
    pose proof (data_tok sb Hlay r Hr) as (_ & _ & ?). exists r. split; [lia|done].
Qed.
End Bmap.

Lemma staged_ind ip s W n s1 W1 p1 : staged ip s W n s1 W1 p1 ->
  addr_at p1 NDIRECT <> addr_at (geti s ip) NDIRECT -> used sb (fview s) (addr_at p1 NDIRECT) = false.
Proof.
  intros Hg Hne. apply (sg_fresh _ _ _ _ _ _ _ Hg). destruct (decide (addr_at (geti s ip) NDIRECT = 0)) as [|E]; [done|].
  destruct (sg_same _ _ _ _ _ _ _ Hg E) as [_ Ep]. by rewrite Ep in Hne.
Qed.

(** The result of the second part when block [bn] exists already or the disk
    is full. *)
Lemma staged_post ip bn s W n s1 W1 p1 s' r :
  0 <= bn < MAXFILE -> staged ip s W n s1 W1 p1 -> in_store s1 s' (fview s1) ∅ W1 -> r = iblk (fview s1) p1 bn ->
  (r = 0 -> forall b, 0 <= b < fsize sb -> used sb (fview s1) b = true) ->
  (iblk (fview s) (geti s ip) bn <> 0 -> addr_at (geti s ip) NDIRECT <> 0) ->
  bmap_post ip bn s W n r s' W1 p1.
Proof.
  intros Hbn Hg I Hr Hnone Hnz. pose proof (staged_ind _ _ _ _ _ _ _ Hg) as Hind.
  destruct Hg as [G1 G2 G3 G4 G5 G6 G7 _ G8 G9 G10].
  assert (Hu : forall b, used sb (fview s') b = used sb (fview s1) b) by (intros b; unfold used; by rewrite (in_view _ _ _ _ _ I)).
  assert (Hi : forall m, iblk (fview s') p1 m = iblk (fview s1) p1 m) by (intros m; apply iblk_keep; intros _; apply I).
  split; auto.
  - destruct G1 as [A1 A2]. split; [by rewrite (in_sb _ _ _ _ _ I)|by rewrite (in_tab _ _ _ _ _ I)].
  - apply I.
  - intros b Hb. rewrite Hu. auto.
  - apply (file_ok_mono (fview s1)); auto. intros. by rewrite Hu.
  - by rewrite Hi.
  - intros m Hm _. rewrite Hi. auto.
  - intros Hne. destruct (G7 (Hnz Hne)) as [E1 E2]. split; [by rewrite Hr, G6|]. intros b. by rewrite (in_view _ _ _ _ _ I).
  - intros E Hne. destruct Hne. by rewrite Hr, G6.
  - intros E b Hb. rewrite Hu. auto.
  - intros b Hb Hub Hnb _. rewrite (in_view _ _ _ _ _ I). auto.
  - intros b Hb Hub. rewrite Hu. auto.
  - eapply budget_le; [exact G10|lia].
  - intros _. by apply budget_log.
Qed.

(** A fresh block is entered in the indirect block. *)
Lemma staged_enter ip bn s W n s1 W1 p1 s' r v2 :
  12 <= bn < MAXFILE -> staged ip s W n s1 W1 p1 -> addr_at p1 NDIRECT <> 0 -> iblk (fview s1) p1 bn = 0 ->
  alloc_facts (fview s1) r v2 -> (forall b, length (v2 b) = BSIZE) -> datastart sb <= r < fsize sb ->
  in_store s1 s' (updz v2 (addr_at p1 NDIRECT) (put32 (v2 (addr_at p1 NDIRECT)) (4 * Z.to_nat (bn - 12)) r)) ∅
    ({[addr_at p1 NDIRECT]} ∪ ({[r]} ∪ ({[BBLOCK r sb]} ∪ W1))) ->
  bmap_post ip bn s W n r s' ({[addr_at p1 NDIRECT]} ∪ ({[r]} ∪ ({[BBLOCK r sb]} ∪ W1))) p1.
Proof.
  intros Hbn Hg Ha Hz Haf Hlen Hr I. pose proof (staged_ind _ _ _ _ _ _ _ Hg) as Hind.
  destruct Hg as [G1 G2 G3 G4 G5 G6 G7 Gf G8 G9 G10]. set (a := addr_at p1 NDIRECT) in *.
  pose proof (lay_size _ Hlay) as Hls. pose proof (f_ind _ _ _ G5 Ha) as Hda.
  destruct (data_block_range _ _ Hda) as (Har & Hanb & _ & _). destruct Hda as [Had Hau].
  destruct (alloc_fresh _ _ _ _ Haf G5) as [Hfr Hfa]. destruct (data_block_range _ _ (af_data _ _ _ Haf)) as (Hrr & Hrnb & Hr0 & _).
  assert (Hua : forall b, 0 <= b < fsize sb -> used sb (fview s') b = used sb v2 b).
  { intros b Hb. unfold used. rewrite (in_view _ _ _ _ _ I), updz_ne; [done|]. intros E. apply Hanb. exists b. split; [done|]. symmetry. exact E. }
  assert (Hva : v2 a = fview s1 a) by (apply (af_keep _ _ _ Haf); auto).
  assert (Hoff : (4 * Z.to_nat (bn - 12) + 4 <= BSIZE)%nat) by (unfold BSIZE, MAXFILE in *; lia).
  assert (Hi : forall m, 0 <= m < MAXFILE -> iblk (fview s') p1 m = if decide (m = bn) then r else iblk (fview s1) p1 m).
  { intros m Hm. unfold iblk. fold a. rewrite (proj2 (Z.eqb_neq a 0)) by done. rewrite (in_view _ _ _ _ _ I), updz_eq.
    destruct (m <? 12) eqn:E; bool_to_prop; [by rewrite decide_False by lia|]. destruct (decide (m = bn)) as [->|].
    - rewrite get32_put32_eq, u32_id by (rewrite ?Hlen; lia). done.
    - rewrite get32_put32_ne, Hva by (rewrite ?Hlen; unfold BSIZE, MAXFILE in *; lia). done. }
  assert (Hmono : forall b, 0 <= b < fsize sb -> used sb (fview s1) b = true -> used sb (fview s') b = true).
  { intros b Hb Hub. rewrite Hua, (af_used _ _ _ Haf) by done. by dcase. }
  assert (Hin : BBLOCK r sb ∈ bms sb) by (rewrite elem_of_bms by lia; exists r; split; [lia|done]).
  assert (Hb1 : budget ({[r]} ∪ ({[BBLOCK r sb]} ∪ W1)) p1 n) by (apply budget_log, budget_bmap; auto).
  destruct (budget_ind _ _ _ Ha Hb1) as [_ Hb2]. fold a in Hb2.
  assert (Hmax : 0 <= bn < MAXFILE) by lia.
  split; auto.
  - destruct G1 as [A1 A2]. split; [by rewrite (in_sb _ _ _ _ _ I)|by rewrite (in_tab _ _ _ _ _ I)].
  - apply I.
  - intros b Hb. pose proof (lay_data _ Hlay). rewrite Hua by lia. by apply (af_bitmap _ _ _ Haf).
  - apply (file_ok_set (fview s1) (fview s') p1 p1 bn r); auto; [apply G5| |].
    + split; [done|]. rewrite Hua by done. apply Haf.
    + intros m Hm. rewrite <- (alloc_iblk _ _ _ _ m Haf G5). auto.
  - rewrite Hi, decide_True by done. done.
  - intros m Hm Hne. rewrite Hi, decide_False by done. auto.
  - intros Hne. destruct Hne. by rewrite <- G6.
  - intros _ _. split.
    + rewrite (in_view _ _ _ _ _ I), updz_ne by (intros E; apply Hfa; symmetry; exact E). apply Haf.
    + destruct (used sb (fview s) r) eqn:E; [|done]. pose proof (af_free _ _ _ Haf) as Hf. rewrite G9 in Hf; [done|lia|done].
  - intros b Hb Hub Hnb Hne. rewrite (in_view _ _ _ _ _ I). destruct (decide (b = a)) as [->|Hba].
    + exfalso. destruct (decide (addr_at (geti s ip) NDIRECT = 0)) as [E0|E0]; [rewrite Gf in Hub by done; done|].
      destruct (G7 E0) as [_ Ep]. unfold a in Hne. by rewrite Ep in Hne.
    + rewrite updz_ne by done. rewrite (af_keep _ _ _ Haf) by auto. auto.
  - intros _. assert ({[r]} ∪ ({[a]} ∪ ({[r]} ∪ ({[BBLOCK r sb]} ∪ W1))) = {[a]} ∪ ({[r]} ∪ ({[BBLOCK r sb]} ∪ W1))) as -> by set_solver. done.
Qed.

Lemma size_single (h : nat) (b : Z) : (size ({[h := b]} : gmap nat Z) < 2)%nat.
Proof. rewrite map_size_singleton. lia. Qed.

Lemma handles_one v h b : data_block sb v b -> handles_ok sb v {[h := b]}.
Proof.
  intros Hb. split; [apply size_single|]. intros h' b' E. apply lookup_singleton_Some in E as [_ <-].
  destruct (data_block_range _ _ Hb) as (_ & Hnb & _). split; [done|]. intros _. apply Hb.
Qed.

Lemma bmap_stage2 ip bn s W n s1 W1 p1 :
  (ip < length (itable s))%nat -> fsb s = sb ->
  12 <= bn < MAXFILE -> staged ip s W n s1 W1 p1 -> addr_at p1 NDIRECT <> 0 ->
  exists r s' W',
    ('(bp, s) ← bread_ (addr_at p1 NDIRECT) s1;
     let off := (4 * Z.to_nat (bn - 12))%nat in
     let addr := get32 (bdata s bp) off in
     '(addr, s) ← (if addr =? 0 then
                     '(addr, s) ← balloc s;
                     if negb (addr =? 0) then
                       let s := bset bp (put32 (bdata s bp) off addr) s in
                       s ← log_write_ bp s;
                       Ok (addr, s)
                     else Ok (addr, s)
                   else Ok (addr, s));
     s ← brelse_ bp s;
     Ok (addr, s)) = Ok (r, s') /\ bmap_post ip bn s W n r s' W' p1.
Proof.
  intros Hip Hsb Hbn Hg Ha. set (a := addr_at p1 NDIRECT) in *. pose proof (f_ind _ _ _ (sg_file _ _ _ _ _ _ _ Hg) Ha) as Hda.
  fold a in Hda. destruct (data_block_range _ _ Hda) as (_ & _ & _ & Htok). cbn zeta.
  destruct (bread_store s1 ∅ W1 a (sg_wf _ _ _ _ _ _ _ Hg) Htok) as (h & s2 & E2 & _ & I2 & D2).
  { by intros; rewrite lookup_empty. } { rewrite map_size_empty. lia. }
  assert (Hi : get32 (fview s1 a) (4 * Z.to_nat (bn - 12)) = iblk (fview s1) p1 bn).
  { unfold iblk. fold a. rewrite (proj2 (Z.ltb_ge _ _)), (proj2 (Z.eqb_neq _ _)) by (done || lia). done. }
  assert (Hnz : iblk (fview s) (geti s ip) bn <> 0 -> addr_at (geti s ip) NDIRECT <> 0).
  { unfold iblk. rewrite (proj2 (Z.ltb_ge _ _)) by lia. intros Hne E. apply Hne. by rewrite E. }
  assert (Hmax : 0 <= bn < MAXFILE) by lia.
  rewrite E2. cbn [mbind outcome_bind]. rewrite D2, Hi. rewrite insert_empty in I2.
  destruct (iblk (fview s1) p1 bn =? 0) eqn:Ez; bool_to_prop; cbn [mbind outcome_bind].
  2: { destruct (brelse_last s1 s2 ∅ W1 h a (fview s1)) as (s3 & E3 & I3); [by rewrite insert_empty|apply lookup_empty|].
       rewrite E3. cbn [mbind outcome_bind]. eexists _, s3, W1. split; [done|].
       apply (staged_post ip bn s W n s1 W1 p1); auto. }
  assert (Hsb2 : fsb s2 = sb) by (rewrite (in_sb _ _ _ _ _ I2), (proj1 (sg_only _ _ _ _ _ _ _ Hg)); done).
  assert (Hv2 : forall b, fview s2 b = fview s1 b) by apply I2.
  assert (Hu2 : forall b, used sb (fview s2) b = used sb (fview s1) b) by (intros b; unfold used; by rewrite Hv2).
  destruct (balloc_run sb Hlay s2 {[h := a]} W1 Hsb2) as (r & s3 & Eb & [(-> & I & Hall)|(Hr & Hfree & _ & I)]).
  { intros b Hb. rewrite Hu2. by apply (sg_bitmap _ _ _ _ _ _ _ Hg). }
  { apply handles_one. destruct Hda. split; [done|by rewrite Hu2]. }
  { eapply room_le; [exact (budget_room _ _ _ (sg_budget _ _ _ _ _ _ _ Hg))|lia]. } { apply I2. }
  - rewrite Eb. cbn [mbind outcome_bind Z.eqb negb].
    assert (I13 : in_store s1 s3 (fview s1) (<[h := a]> ∅) W1).
    { rewrite insert_empty. eapply in_store_ext; [exact (in_store_trans _ _ _ _ _ _ _ _ _ I2 I)|exact Hv2]. }
    destruct (brelse_last s1 s3 ∅ W1 h a (fview s1) I13 (lookup_empty _)) as (s4 & E4 & I4). rewrite E4.
    cbn [mbind outcome_bind]. exists 0, s4, W1. split; [done|]. apply (staged_post ip bn s W n s1 W1 p1); auto.
    intros _ b Hb. rewrite <- Hu2. auto.
  - assert (Hvl : forall t H1 W2, twf (store t) H1 W2 -> forall b, length (fview t b) = BSIZE).
    { intros t H1 W2 Hw b. apply (tlaw_len _ _ _ _ Hw). }
    assert (Haf : alloc_facts (fview s1) r (fview s3)).
    { apply alloc_view_facts; auto.
      - apply (Hvl s1 ∅ W1), Hg.
      - apply Hg.
      - by rewrite <- Hu2.
      - intros b. rewrite (in_view _ _ _ _ _ I). unfold alloc_view, updz, marked, updz. by rewrite !Hv2. }
    destruct (data_block_range _ _ (af_data _ _ _ Haf)) as (_ & _ & Hr0 & _).
    rewrite Eb. cbn [mbind outcome_bind]. rewrite (proj2 (Z.eqb_neq r 0)) by done. cbn [negb].
    assert (Hd3 : bdata s3 h = fview s3 a).
    { unfold bdata. rewrite (tlaw_data _ _ _ h a (in_wf _ _ _ _ _ I)); [done|apply lookup_singleton_eq]. }
    pose proof (budget_log W1 p1 n r (sg_budget _ _ _ _ _ _ _ Hg)) as Hb0.
    assert (Hin : BBLOCK r sb ∈ bms sb).
    { pose proof (lay_size _ Hlay). pose proof (data_tok sb Hlay r Hr) as (_ & _ & ?). rewrite elem_of_bms by lia.
      exists r. split; [lia|done]. }
    assert (Hb1 : budget ({[r]} ∪ ({[BBLOCK r sb]} ∪ W1)) p1 n) by (apply budget_log, budget_bmap; [done|apply Hg]).
    destruct (budget_ind _ _ _ Ha Hb1) as [Hc _]. fold a in Hc.
    destruct (bset_log_run s3 _ _ h a (put32 (fview s3 a) (4 * Z.to_nat (bn - 12)) r) (in_wf _ _ _ _ _ I)
      (lookup_singleton_eq _ _)) as (s4 & E4 & I4).
    { rewrite length_put32; rewrite (Hvl _ _ _ (in_wf _ _ _ _ _ I)); [done|]. unfold BSIZE, MAXFILE in *. lia. } { exact Hc. }
    rewrite Hd3, E4. cbn [mbind outcome_bind].
    assert (I14 : in_store s1 s4 (updz (fview s3) a (put32 (fview s3 a) (4 * Z.to_nat (bn - 12)) r)) (<[h := a]> ∅)
      ({[a]} ∪ ({[r]} ∪ ({[BBLOCK r sb]} ∪ W1)))).
    { rewrite insert_empty. exact (in_store_trans _ _ _ _ _ _ _ _ _ I2 (in_store_trans _ _ _ _ _ _ _ _ _ I I4)). }
    destruct (brelse_last s1 s4 ∅ _ h a _ I14 (lookup_empty _)) as (s5 & E5 & I5). rewrite E5. cbn [mbind outcome_bind].
    exists r, s5, ({[a]} ∪ ({[r]} ∪ ({[BBLOCK r sb]} ∪ W1))). split; [done|].
    apply (staged_enter ip bn s W n s1 W1 p1 s5 r (fview s3)); auto. apply (Hvl _ _ _ (in_wf _ _ _ _ _ I)).
Qed.

Lemma bmap_run ip bn s W n :
  (ip < length (itable s))%nat -> fsb s = sb -> bitmap_ok sb (fview s) -> file_ok sb (fview s) (geti s ip) ->
  twf (store s) ∅ W -> budget W (geti s ip) (S n) -> 0 <= bn < MAXFILE ->
  exists r s' W' p', bmap ip bn s = Ok (r, s') /\ bmap_post ip bn s W n r s' W' p'.
Proof.
  intros Hip Hsb Hbm Hf Hw Hb Hbn. destruct (decide (bn < 12)); [apply bmap_direct; auto; lia|].
  unfold bmap. rewrite (proj2 (Z.ltb_ge _ _)) by (unfold NDIRECT; lia).
  change (Z.of_nat NDIRECT) with 12. rewrite (proj2 (Z.ltb_lt _ _)) by (unfold NINDIRECT, MAXFILE in *; lia).
  destruct (bmap_stage1 ip s W n) as (a & s1 & W1 & p1 & E1 & [(-> & Ha & I & Hall)|(Hne & -> & Hg)]); auto;
    rewrite E1; cbn [mbind outcome_bind].
  - cbn [Z.eqb]. exists 0, s1, W, (geti s ip). split; [done|]. apply bmap_unchanged; auto.
    unfold iblk. rewrite (proj2 (Z.ltb_ge _ _)), Ha by lia. done.
  - rewrite (proj2 (Z.eqb_neq _ _)) by done.
    destruct (bmap_stage2 ip bn s W n s1 W1 p1) as (r & s' & W' & E2 & Hp); auto; [lia|].
    exists r, s', W', p1. split; [exact E2|done].
Qed.
End File.

(** * [readi] and [writei]: a file as a sequence of bytes *)

(** Byte [i] of a file, 0 where the file has no block, and [len] bytes from
    [off] on. *)
Definition fbyte (v : Z -> block) (p : inode) (i : Z) : Z :=
  if iblk v p (i / BS) =? 0 then 0 else byte_at (v (iblk v p (i / BS))) (i mod BS).
Definition fslice (v : Z -> block) (p : inode) (off : Z) (len : nat) : list Z :=
  map (fun i => fbyte v p (off + Z.of_nat i)) (seq 0 len).

Lemma length_fslice v p off len : length (fslice v p off len) = len.
Proof. unfold fslice. by rewrite length_map, length_seq. Qed.

Lemma fslice_add v p off a b : fslice v p off (a + b) = fslice v p off a ++ fslice v p (off + Z.of_nat a) b.
Proof.
  unfold fslice. rewrite seq_app, map_app. f_equal. cbn [Nat.add].
  apply list_eq. intros i. rewrite !list_lookup_fmap.
  destruct (decide (i < b)%nat) as [Hi|Hi]; [|by rewrite !lookup_seq_ge by lia].
  rewrite !lookup_seq_lt by done. cbn. do 2 f_equal. lia.
Qed.

Lemma fslice_ext v p v' p' off off' len :
  (forall i, 0 <= i < Z.of_nat len -> fbyte v p (off + i) = fbyte v' p' (off' + i)) ->
  fslice v p off len = fslice v' p' off' len.
Proof. intros H. unfold fslice. apply map_ext_in. intros i Hi%in_seq. apply H. lia. Qed.

Lemma lookup_fslice v p off len i : (i < len)%nat -> fslice v p off len !! i = Some (fbyte v p (off + Z.of_nat i)).
Proof. intros Hi. unfold fslice. rewrite list_lookup_fmap, lookup_seq_lt by done. done. Qed.

(** A piece inside one block. *)
Lemma fslice_block v p off m : 0 <= off -> iblk v p (off / BS) <> 0 -> off mod BS + Z.of_nat m <= BS -> length (v (iblk v p (off / BS))) = BSIZE ->
  slice (v (iblk v p (off / BS))) (Z.to_nat (off mod BS)) m = fslice v p off m.
Proof.
  intros Ho Hne Hm Hl. apply list_eq_same_length with m; [by rewrite length_fslice| |].
  { rewrite length_slice; [done|]. rewrite Hl. unfold BSIZE in *. zlia. }
  intros i x y Hi. rewrite lookup_slice, lookup_fslice by done. intros E [= <-]. unfold fbyte, byte_at.
  assert ((off + Z.of_nat i) / BS = off / BS) as -> by (unfold BSIZE in *; zlia).
  rewrite (proj2 (Z.eqb_neq _ _)) by done.
  assert ((off + Z.of_nat i) mod BS = off mod BS + Z.of_nat i) as -> by (unfold BSIZE in *; zlia).
  rewrite Z2Nat.inj_add, Nat2Z.id, E by (unfold BSIZE; zlia). done.
Qed.

(** ** Destinations *)

(** [d'] is [d] after the bytes [l] have been copied to it, in pieces. *)
Inductive fed : dest -> list Z -> dest -> Prop :=
| fed_nil d : fed d [] d
| fed_cons d c d1 l d' r : either_copyout d c = Ok (r, d1) -> r <> -1 -> fed d1 l d' -> fed d (c ++ l) d'.

(** The copy of [l] to [d] ended early, with an error. *)
Definition cut (d : dest) (l : list Z) (d' : dest) : Prop :=
  exists l1 c l2 d1, l = l1 ++ c ++ l2 /\ fed d l1 d1 /\ either_copyout d1 c = Ok (-1, d').

Lemma cut_cons d c d1 l d' r : either_copyout d c = Ok (r, d1) -> r <> -1 -> cut d1 l d' -> cut d (c ++ l) d'.
Proof.
  intros Hc Hr (l1 & c' & l2 & d2 & -> & Hf & He). exists (c ++ l1), c', l2, d2. split; [by rewrite <- (assoc_L _)|].
  split; [|done]. by econstructor.
Qed.

Lemma fed_kernel got l d : fed (KernelDst got) l d -> d = KernelDst (got ++ l).
Proof.
  intros H. remember (KernelDst got) as d0 eqn:E. revert got E.
  induction H as [d|d c d1 l d' r Hc Hr H IH]; intros got ->; [by rewrite app_nil_r|].
  cbn in Hc. injection Hc as <- <-. rewrite (IH _ eq_refl). by rewrite (assoc_L _).
Qed.

Section Read.
Context {T : Type} {HT : TxStore T} {HL : TxLaws T}.
Implicit Types s : fs T.
Context (sb : superblock) (Hlay : layout_ok sb).

(** [bmap] of a block that exists changes nothing. *)
Lemma bmap_found ip bn s W :
  file_ok sb (fview s) (geti s ip) -> twf (store s) ∅ W -> 0 <= bn < MAXFILE -> iblk (fview s) (geti s ip) bn <> 0 ->
  exists s', bmap ip bn s = Ok (iblk (fview s) (geti s ip) bn, s') /\ in_store s s' (fview s) ∅ W.
Proof.
  intros Hf Hw Hbn Hne. unfold bmap. set (p := geti s ip) in *. unfold iblk in *. change (Z.of_nat NDIRECT) with 12.
  destruct (bn <? 12) eqn:E; bool_to_prop.
  { rewrite (proj2 (Z.eqb_neq _ _)) by done. exists s. split; [done|]. by apply in_store_refl. }
  rewrite (proj2 (Z.ltb_lt (bn - 12) _)) by (unfold NINDIRECT, MAXFILE in *; lia).
  destruct (addr_at p NDIRECT =? 0) eqn:E0; bool_to_prop; [done|]. cbn [mbind outcome_bind].
  rewrite (proj2 (Z.eqb_neq _ _)) by done.
  destruct (data_block_range sb Hlay _ _ (f_ind _ _ _ Hf E0)) as (_ & _ & _ & Htok).
  destruct (bread_store s ∅ W (addr_at p NDIRECT) Hw Htok) as (h & s2 & E2 & _ & I2 & D2).
  { by intros; rewrite lookup_empty. } { rewrite map_size_empty. lia. }
  rewrite E2. cbn [mbind outcome_bind]. rewrite D2. rewrite (proj2 (Z.eqb_neq _ _)) by done. cbn [mbind outcome_bind].
  destruct (brelse_last s s2 ∅ W h _ _ I2 (lookup_empty _)) as (s3 & E3 & I3). rewrite E3. by exists s3.
Qed.

Lemma geti_in s s' v H W ip : in_store s s' v H W -> geti s' ip = geti s ip.
Proof. intros I. unfold geti. by rewrite (in_tab _ _ _ _ _ I). Qed.

(** A destination that every copy leaves usable. *)
Context (dest_ok : dest -> Prop).
Hypothesis dest_step : forall d c, dest_ok d -> exists r d', either_copyout d c = Ok (r, d') /\ dest_ok d'.

Lemma readi_loop_run k ip d off n tot s0 W s :
  let p := geti s0 ip in
  file_ok sb (fview s0) p -> in_store s0 s (fview s0) ∅ W -> dest_ok d ->
  0 <= off -> 0 <= tot <= n -> off + (n - tot) <= i_size p -> n - tot <= Z.of_nat k ->
  exists r d' s', readi_loop k ip d off n tot s = Ok (r, d', s') /\ in_store s0 s' (fview s0) ∅ W /\ dest_ok d' /\
    ((r = n /\ fed d (fslice (fview s0) p off (Z.to_nat (n - tot))) d') \/
     (r = -1 /\ cut d (fslice (fview s0) p off (Z.to_nat (n - tot))) d')).
Proof.
  intros p Hf. revert d off tot s. induction k as [|k IH]; intros d off tot s I Hd Ho Ht Hs Hk; cbn [readi_loop].
  { rewrite (proj2 (Z.ltb_ge _ _)) by lia. exists tot, d, s. split; [done|]. split; [done|]. split; [done|]. left.
    split; [lia|]. replace (Z.to_nat (n - tot)) with 0%nat by lia. constructor. }
  destruct (tot <? n) eqn:E; bool_to_prop.
  2: { exists tot, d, s. split; [done|]. split; [done|]. split; [done|]. left.
       split; [lia|]. replace (Z.to_nat (n - tot)) with 0%nat by lia. constructor. }
  assert (Hgs : geti s ip = p) by apply (geti_in _ _ _ _ _ _ I).
  assert (Hi : forall b, iblk (fview s) (geti s ip) b = iblk (fview s0) p b).
  { intros b. rewrite Hgs. apply iblk_keep. intros _. apply I. }
  pose proof (f_size _ _ _ Hf) as Hsz. unfold BSIZE in *.
  assert (Hn : iblk (fview s0) p (off / 1024) <> 0) by (apply (f_full _ _ _ Hf); unfold BSIZE; zlia).
  assert (Hmax : 0 <= off / 1024 < MAXFILE) by (unfold MAXFILE in *; zlia).
  destruct (bmap_found ip (off / Z.of_nat 1024) s W) as (s1 & E1 & I1); [|apply I|done|by rewrite Hi|].
  { rewrite Hgs. apply (file_ok_mono sb Hlay (fview s0)); auto; [intros; by rewrite <- Hi, Hgs|].
    intros b Hb. unfold used. by rewrite (in_view _ _ _ _ _ I). }
  rewrite E1. cbn [mbind outcome_bind]. rewrite Hi. change (Z.of_nat 1024) with 1024 in *.
  rewrite (proj2 (Z.eqb_neq _ _)) by done.
  destruct (data_block_range sb Hlay _ _ (f_blk _ _ _ Hf _ Hmax Hn)) as (_ & _ & _ & Htok).
  assert (I01 : in_store s0 s1 (fview s0) ∅ W).
  { eapply in_store_ext; [exact (in_store_trans _ _ _ _ _ _ _ _ _ I I1)|apply I]. }
  destruct (bread_store s1 ∅ W _ (in_wf _ _ _ _ _ I01) Htok) as (h & s2 & E2 & _ & I2 & D2).
  { by intros; rewrite lookup_empty. } { rewrite map_size_empty. lia. }
  rewrite E2. cbn [mbind outcome_bind]. rewrite D2, (in_view _ _ _ _ _ I01).
  set (m := Z.min (n - tot) (1024 - off mod 1024)). assert (Hm : 0 < m <= n - tot /\ off mod 1024 + m <= 1024) by (unfold m; zlia).
  assert (Hlen : forall b, length (fview s0 b) = BSIZE).
  { intros b. rewrite <- (in_view _ _ _ _ _ I). apply (tlaw_len _ _ _ _ (in_wf _ _ _ _ _ I)). }
  rewrite (fslice_block (fview s0) p off (Z.to_nat m)) by (rewrite ?Hlen; done || unfold BSIZE; lia).
  destruct (dest_step d (fslice (fview s0) p off (Z.to_nat m)) Hd) as (r & d1 & Ec & Hd1). rewrite Ec.
  cbn [mbind outcome_bind].
  assert (I02 : in_store s0 s2 (fview s0) (<[h := iblk (fview s0) p (off / 1024)]> ∅) W).
  { eapply in_store_ext; [exact (in_store_trans _ _ _ _ _ _ _ _ _ I01 I2)|apply I01]. }
  destruct (brelse_last s0 s2 ∅ W h _ _ I02 (lookup_empty _)) as (s3 & E3 & I3).
  destruct (r =? -1) eqn:Er; bool_to_prop; rewrite E3; cbn [mbind outcome_bind].
  { exists (-1), d1, s3. split; [done|]. split; [done|]. split; [done|]. right. split; [done|].
    replace (Z.to_nat (n - tot)) with (Z.to_nat m + Z.to_nat (n - (tot + m)))%nat by lia. rewrite fslice_add.
    eexists [], (fslice (fview s0) p off (Z.to_nat m)), _, d. split; [done|]. split; [constructor|]. by subst r. }
  destruct (IH d1 (off + m) (tot + m) s3) as (r' & d' & s' & E' & I' & Hd' & Hcase); try done; try lia.
  rewrite E'. exists r', d', s'. split; [done|]. split; [done|]. split; [done|].
  replace (Z.to_nat (n - tot)) with (Z.to_nat m + Z.to_nat (n - (tot + m)))%nat by lia.
  rewrite fslice_add, Z2Nat.id by lia.
  destruct Hcase as [[-> Hfed]|[-> Hcut]]; [left|right]; (split; [done|]); [econstructor; eauto|eapply cut_cons; eauto].
Qed.

(** How many bytes [readi] gives. *)
Definition read_len (size off n : Z) : Z := if decide (off <= size) then Z.min n (size - off) else 0.

Lemma readi_run ip d off n s W :
  let p := geti s ip in
  file_ok sb (fview s) p -> twf (store s) ∅ W -> dest_ok d -> 0 <= off < 4294967296 -> 0 <= n < 4294967296 ->
  off + n < 4294967296 ->
  exists r d' s', readi ip d off n s = Ok (r, d', s') /\ in_store s s' (fview s) ∅ W /\ dest_ok d' /\
    ((r = read_len (i_size p) off n /\ fed d (fslice (fview s) p off (Z.to_nat (read_len (i_size p) off n))) d') \/
     (r = -1 /\ cut d (fslice (fview s) p off (Z.to_nat (read_len (i_size p) off n))) d')).
Proof.
  intros p Hf Hw Hd Ho Hn Hon. unfold readi. fold p. rewrite u32_id by lia. unfold read_len.
  pose proof (f_size _ _ _ Hf) as Hsz.
  destruct (i_size p <? off) eqn:E1; cbn [orb]; bool_to_prop.
  { exists 0, d, s. split; [done|]. split; [by apply in_store_refl|]. split; [done|]. left. rewrite decide_False by lia.
    split; [done|]. constructor. }
  rewrite (proj2 (Z.ltb_ge (off + n) off)), decide_True by lia.
  set (n' := if i_size p <? off + n then _ else n).
  assert (Hn' : n' = Z.min n (i_size p - off)).
  { unfold n'. unfold MAXFILE, BSIZE in *. destruct (_ <? _) eqn:E; bool_to_prop; [rewrite u32_id|]; lia. }
  rewrite Hn'. set (q := Z.min n (i_size p - off)).
  destruct (readi_loop_run (Z.to_nat q) ip d off q 0 s W s) as (r & d' & s' & E & I & Hd' & Hc); auto; fold p; try lia.
  { by apply in_store_refl. }
  exists r, d', s'. rewrite Z.sub_0_r in Hc. auto.
Qed.
End Read.
