(* ===== verification/FsWrite.v ===== *)
(** * [writei]: writing a sequence of bytes into a file *)
From S2P Require Import Prelude Cstring Riscv Kalloc Vm VmTheory UvmTheory CopyTheory Block Bio Fs FsTheory FsFile.

Section Write.
Context {T : Type} {HT : TxStore T} {HL : TxLaws T}.
Implicit Types s : fs T.
Context (sb : superblock) (Hlay : layout_ok sb).

(** ** How a file may change while it is written

    Blocks that it has stay, new ones were free, and blocks in use that are
    not the file's keep their contents. *)
Record fext (v : Z -> block) (p : inode) (v' : Z -> block) (p' : inode) : Prop := {
  fx_inode : p' = set_addrs (addrs p') p;
  fx_iblk : forall m, 0 <= m < MAXFILE -> iblk v p m <> 0 -> iblk v' p' m = iblk v p m;
  fx_new : forall m, 0 <= m < MAXFILE -> iblk v p m = 0 -> iblk v' p' m <> 0 ->
    0 <= iblk v' p' m < fsize sb /\ used sb v (iblk v' p' m) = false;
  fx_ind : addr_at p' NDIRECT <> addr_at p NDIRECT ->
    0 <= addr_at p' NDIRECT < fsize sb /\ used sb v (addr_at p' NDIRECT) = false;
  fx_keep : forall b, 0 <= b < fsize sb -> used sb v b = true -> ~ is_bmap sb b -> b <> addr_at p NDIRECT ->
    (forall m, 0 <= m < MAXFILE -> iblk v p m <> b) -> v' b = v b;
  fx_used : forall b, 0 <= b < fsize sb -> used sb v b = true -> used sb v' b = true
}.

Lemma fext_refl v v' p : (forall b, v' b = v b) -> fext v p v' p.
Proof.
  intros E. assert (Hi : forall m, iblk v' p m = iblk v p m) by (intros m; apply iblk_keep; auto). split; auto using set_addrs_self.
  - intros m _ Hz Hn. by rewrite Hi in Hn.
  - intros Hn. by destruct Hn.
  - intros b _ Hu. unfold used in *. by rewrite E.
Qed.

Lemma fext_trans v p v1 p1 v2 p2 : fext v p v1 p1 -> fext v1 p1 v2 p2 -> fext v p v2 p2.
Proof.
  intros [A1 A2 A3 A4 A5 A6] [B1 B2 B3 B4 B5 B6].
  assert (Hback : forall b, 0 <= b < fsize sb -> used sb v1 b = false -> used sb v b = false).
  { intros b Hb Hu. destruct (used sb v b) eqn:E; [|done]. by rewrite (A6 b Hb E) in Hu. }
  split.
  - rewrite B1. rewrite A1. done.
  - intros m Hm Hn. rewrite B2; auto. by rewrite A2.
  - intros m Hm Hz Hn. destruct (decide (iblk v1 p1 m = 0)) as [E|E].
    + destruct (B3 m Hm E Hn). auto.
    + rewrite B2 in * by done. auto.
  - intros Hn. destruct (decide (addr_at p2 NDIRECT = addr_at p1 NDIRECT)) as [E|E].
    + rewrite E in *. auto.
    + destruct (B4 E). auto.
  - intros b Hb Hu Hnb Hni Hno. rewrite B5; auto.
    + intros E. destruct (decide (addr_at p1 NDIRECT = addr_at p NDIRECT)) as [E'|E']; [congruence|].
      destruct (A4 E'). congruence.
    + intros m Hm E. destruct (decide (iblk v p m = 0)) as [E'|E'].
      * assert (iblk v1 p1 m <> 0) as Hne.
        { intros E0. rewrite E0 in E. subst b. apply (Hno m Hm E'). }
        destruct (A3 m Hm E' Hne). congruence.
      * rewrite A2 in E by done. by apply (Hno m Hm).
  - auto.
Qed.

(** ** A file that is being written *)
Record writing (ip : nat) (W : gset Z) (n : nat) s : Prop := {
  wr_ip : (ip < length (itable s))%nat;
  wr_sb : fsb s = sb;
  wr_bitmap : bitmap_ok sb (fview s);
  wr_file : file_ok sb (fview s) (geti s ip);
  wr_wf : twf (store s) ∅ W;
  wr_budget : budget sb W (geti s ip) n
}.

Lemma byte_at_zero i : byte_at zero_block i = 0.
Proof.
  unfold byte_at, zero_block. destruct (_ !! _) eqn:E; [|done]. apply lookup_replicate in E as [-> _]. done.
Qed.

Definition in_file (i : Z) : Prop := 0 <= i < MAXFILE * BS.

Lemma in_file_block i : in_file i -> 0 <= i / BS < MAXFILE.
Proof. unfold in_file, BSIZE, MAXFILE. zlia. Qed.

Lemma own_keep v v' p m : file_ok sb v p -> keeps sb p v v' -> 0 <= m < MAXFILE -> iblk v p m <> 0 ->
  v' (iblk v p m) = v (iblk v p m).
Proof.
  intros Hf Hk Hm Hn. pose proof (f_blk _ _ _ Hf m Hm Hn) as Hd. destruct (data_block_range sb Hlay _ _ Hd) as (? & ? & _).
  apply Hk; auto; [apply Hd|]. by apply (f_indne _ _ _ Hf).
Qed.

Section Step.
Context (ip : nat) (bn : Z) (s : fs T) (W : gset Z) (n : nat) (r : Z) (s' : fs T) (W' : gset Z) (p' : inode).
Context (Hbn : 0 <= bn < MAXFILE).
Context (Hwr : writing ip W (S n) s).
Context (Hp : bmap_post sb ip bn s W n r s' W' p').

Lemma bmap_geti : geti s' ip = p'.
Proof. apply (geti_only ip p' s); [apply Hwr|apply Hp]. Qed.

Lemma bmap_fext : fext (fview s) (geti s ip) (fview s') p'.
Proof.
  destruct Hp as [P1 P2 P3 P4 P5 P6 P7 P8 P9 P10 P11 P12 P13 P14 P15]. destruct Hwr as [W1 W2 W3 W4 W5 W6].
  assert (Hrange : forall b, data_block sb (fview s') b -> 0 <= b < fsize sb).
  { intros b Hb. by destruct (data_block_range sb Hlay _ _ Hb). }
  pose proof (lay_data _ Hlay). pose proof (lay_inode _ Hlay).
  split; auto.
  - intros m Hm Hn. destruct (decide (m = bn)) as [->|]; [|auto]. destruct (P8 Hn). congruence.
  - intros m Hm Hz Hn. split; [apply Hrange; apply (f_blk _ _ _ P5); auto|].
    destruct (decide (m = bn)) as [->|Hne]; [|rewrite P7 in Hn by done; done]. rewrite <- P6 in *. by apply P9.
  - intros Hn. pose proof (P15 Hn) as Hu. split; [|done]. apply Hrange, (f_ind _ _ _ P5). intros E. rewrite E in Hu.
    assert (0 < datastart sb) by (pose proof (data_tok sb Hlay (datastart sb)); pose proof (lay_bmap _ Hlay);
      unfold datastart, BPB in *; pose proof (lay_size _ Hlay); zlia).
    rewrite W3 in Hu by lia. done.
Qed.

(** The contents are those before: a new block is a block of zeros. *)
Lemma bmap_bytes i : in_file i -> fbyte (fview s') p' i = fbyte (fview s) (geti s ip) i.
Proof.
  intros Hi%in_file_block. unfold fbyte. set (m := i / BS) in *.
  destruct Hp as [P1 P2 P3 P4 P5 P6 P7 P8 P9 P10 P11 P12 P13 P14 P15]. pose proof (wr_file _ _ _ _ Hwr) as Hf.
  destruct (decide (m = bn)) as [E|E].
  - rewrite E, <- P6. destruct (decide (iblk (fview s) (geti s ip) bn = 0)) as [Ez|Ez].
    + rewrite Ez. cbn [Z.eqb]. destruct (decide (r = 0)) as [->|Hr]; [done|].
      rewrite (proj2 (Z.eqb_neq _ _)) by done. destruct (P9 Ez Hr) as [-> _]. apply byte_at_zero.
    + destruct (P8 Ez) as [-> Hv]. by rewrite Hv.
  - rewrite P7 by done. destruct (iblk (fview s) (geti s ip) m =? 0) eqn:Ez; [done|]. bool_to_prop.
    f_equal. by apply own_keep.
Qed.

Lemma bmap_full off : (forall b, 0 <= b -> b * BS < off -> iblk (fview s) (geti s ip) b <> 0) -> 0 <= off <= MAXFILE * BS ->
  forall b, 0 <= b -> b * BS < off -> iblk (fview s') p' b <> 0.
Proof.
  intros Hfull Ho b Hb Hlt. pose proof (Hfull b Hb Hlt) as Hn. rewrite (fx_iblk _ _ _ _ bmap_fext); auto.
  unfold BSIZE in *. lia.
Qed.
End Step.

(** ** The write of one block *)
Lemma block_write_iblk v p b d m : addr_at p NDIRECT <> b -> iblk (updz v b d) p m = iblk v p m.
Proof. intros Hn. apply iblk_keep. intros _. by rewrite updz_ne. Qed.

Lemma block_write_used v b d x : ~ is_bmap sb b -> 0 <= x < fsize sb -> used sb (updz v b d) x = used sb v x.
Proof. intros Hn Hx. unfold used. rewrite updz_ne; [done|]. intros E. apply Hn. exists x. split; [done|]. symmetry. exact E. Qed.

Lemma block_write_fext v p m d : file_ok sb v p -> 0 <= m < MAXFILE -> iblk v p m <> 0 ->
  fext v p (updz v (iblk v p m) d) p /\ file_ok sb (updz v (iblk v p m) d) p /\
  (bitmap_ok sb v -> bitmap_ok sb (updz v (iblk v p m) d)).
Proof.
  intros Hf Hm Hn. set (b := iblk v p m) in *. assert (Ha : addr_at p NDIRECT <> b).
  { intros E. apply (f_indne _ _ _ Hf m Hm Hn). symmetry. exact E. }
  destruct (data_block_range sb Hlay _ _ (f_blk _ _ _ Hf m Hm Hn)) as (Hr & Hnb & _).
  pose proof (fun m => block_write_iblk v p b d m Ha) as Hi. pose proof (fun x => block_write_used v b d x Hnb) as Hu.
  split_and!.
  - split; auto using set_addrs_self.
    + intros m' _ Hz Hn'. by rewrite Hi in Hn'.
    + intros E. by destruct E.
    + intros x Hx Hux Hxb Hxa Hxo. rewrite updz_ne; [done|]. intros ->. by apply (Hxo m).
    + intros x Hx Hux. by rewrite Hu.
  - apply (file_ok_mono sb Hlay v); auto. intros x Hx Hux. by rewrite Hu.
  - intros Hb x Hx. pose proof (lay_data _ Hlay). rewrite Hu by lia. auto.
Qed.

Lemma byte_at_splice d o l j : (o + length l <= length d)%nat -> 0 <= j ->
  byte_at (splice d o l) j =
    if decide (Z.of_nat o <= j < Z.of_nat o + Z.of_nat (length l)) then nth (Z.to_nat (j - Z.of_nat o)) l 0 else byte_at d j.
Proof.
  intros Hl Hj. unfold byte_at. rewrite lookup_splice by done. repeat dcase; try (lia || done).
  rewrite nth_lookup. do 2 f_equal. lia.
Qed.

(** The bytes of a file after [l] has been written at [off]. *)
Definition written (f : Z -> Z) (off : Z) (l : list Z) (i : Z) : Z :=
  if decide (off <= i < off + Z.of_nat (length l)) then nth (Z.to_nat (i - off)) l 0 else f i.

Lemma block_write_bytes v p off l i :
  file_ok sb v p -> 0 <= off -> in_file off -> iblk v p (off / BS) <> 0 -> length (v (iblk v p (off / BS))) = BSIZE ->
  off mod BS + Z.of_nat (length l) <= BS -> in_file i ->
  fbyte (updz v (iblk v p (off / BS)) (splice (v (iblk v p (off / BS))) (Z.to_nat (off mod BS)) l)) p i =
    written (fbyte v p) off l i.
Proof.
  intros Hf Ho Hio Hn Hlen Hl Hi. pose proof (in_file_block _ Hio) as Hm. pose proof (in_file_block _ Hi) as Hm'.
  set (m := off / BS) in *. set (b := iblk v p m) in *.
  assert (Ha : addr_at p NDIRECT <> b) by (intros E; apply (f_indne _ _ _ Hf m Hm Hn); symmetry; exact E).
  unfold fbyte at 1. rewrite block_write_iblk by done. unfold written.
  destruct (decide (i / BS = m)) as [E|E].
  - rewrite E. fold b. rewrite (proj2 (Z.eqb_neq b 0)) by done. rewrite updz_eq.
    rewrite byte_at_splice by (rewrite ?Hlen; unfold in_file, BSIZE in *; zlia).
    rewrite Z2Nat.id by (unfold BSIZE; zlia). unfold fbyte. rewrite E. fold b. rewrite (proj2 (Z.eqb_neq b 0)) by done.
    assert (i mod BS - off mod BS = i - off) as <- by (unfold m, BSIZE in *; zlia).
    assert (off + Z.of_nat (length l) = off - off mod BS + (off mod BS + Z.of_nat (length l))) as -> by lia.
    assert (i = off - off mod BS + i mod BS) as Ei by (unfold m, BSIZE in *; zlia).
    repeat dcase; done || lia.
  - rewrite decide_False by (unfold m, in_file, BSIZE in *; zlia). unfold fbyte.
    destruct (iblk v p (i / BS) =? 0) eqn:Ez; [done|]. bool_to_prop. rewrite updz_ne; [done|].
    intros E'. apply E. by apply (f_inj _ _ _ Hf).
Qed.

Lemma written_app f off l1 l2 i :
  written (written f off l1) (off + Z.of_nat (length l1)) l2 i = written f off (l1 ++ l2) i.
Proof.
  unfold written. rewrite length_app. repeat dcase; try lia; try done.
  - rewrite app_nth2 by lia. f_equal. lia.
  - rewrite app_nth1 by lia. done.
Qed.
(** The blocks that [len] bytes from [off] on touch. *)
Definition nblk (off len : Z) : nat := if decide (len <= 0) then 0 else Z.to_nat ((off + len - 1) / BS - off / BS + 1).

Lemma nblk_step off len m : 0 <= off -> 0 < len -> m = Z.min len (BS - off mod BS) ->
  nblk off len = S (nblk (off + m) (len - m)).
Proof.
  unfold nblk, BSIZE. change (Z.of_nat 1024) with 1024. intros Ho Hl ->. pose proof (Z.div_mod off 1024 ltac:(lia)).
  pose proof (Z.mod_pos_bound off 1024 ltac:(lia)). set (q := off / 1024) in *. set (o := off mod 1024) in *.
  rewrite decide_False by lia. dcase.
  - assert ((off + len - 1) / 1024 = q) as ->; [|lia]. symmetry. apply (Z.div_unique _ _ _ (o + len - 1)); lia.
  - rewrite Z.min_r in * by lia.
    assert ((off + (1024 - o)) / 1024 = q + 1) as -> by (symmetry; apply (Z.div_unique _ _ _ 0); lia).
    replace (off + (1024 - o) + (len - (1024 - o)) - 1) with (off + len - 1) by lia.
    pose proof (Z.div_le_mono (off + 1024 - o) (off + len - 1) 1024 ltac:(lia) ltac:(lia)) as Hd.
    assert ((off + 1024 - o) / 1024 = q + 1) by (symmetry; apply (Z.div_unique _ _ _ 0); lia). lia.
Qed.

(** [l] has been written at [off]. *)
Record wrote (ip : nat) s (off : Z) (l : list Z) s' (W' : gset Z) (n : nat) : Prop := {
  wt_only : only_inode ip (geti s' ip) s s';
  wt_writing : writing ip W' n s';
  wt_fext : fext (fview s) (geti s ip) (fview s') (geti s' ip);
  wt_bytes : forall i, in_file i -> fbyte (fview s') (geti s' ip) i = written (fbyte (fview s) (geti s ip)) off l i;
  wt_full : forall b, 0 <= b -> b * BS < off + Z.of_nat (length l) -> iblk (fview s') (geti s' ip) b <> 0
}.

Lemma budget_fits W p n b : budget sb W p (S n) -> b ∈ W \/ (size W < tcap)%nat.
Proof.
  intros Hb. apply budget_room in Hb; [|done]. right. unfold room in Hb.
  assert (size W <= size (W ∪ bms sb))%nat by (apply subseteq_size; set_solver). lia.
Qed.

(** The bytes [c] go to the block of [off]. *)
Lemma write_block ip off c s W n r s1 W1 p1 :
  in_file off -> 0 < Z.of_nat (length c) -> off mod BS + Z.of_nat (length c) <= BS ->
  writing ip W (S (S n)) s -> bmap_post sb ip (off / BS) s W (S n) r s1 W1 p1 -> r <> 0 ->
  (forall b, 0 <= b -> b * BS < off -> iblk (fview s) (geti s ip) b <> 0) ->
  exists h s2 s3 s4, bread_ r s1 = Ok (h, s2) /\
    log_write_ h (bset h (splice (bdata s2 h) (Z.to_nat (off mod BS)) c) s2) = Ok s3 /\ brelse_ h s3 = Ok s4 /\
    wrote ip s off c s4 ({[r]} ∪ W1) (S n).
Proof.
  intros Hoff Hc Hm Hwr Hp Hr Hfull. pose proof (in_file_block _ Hoff) as Hbn.
  pose proof (bmap_geti ip _ s W _ r s1 W1 p1 Hwr Hp) as G1. pose proof (bp_file _ _ _ _ _ _ _ _ _ _ Hp) as Hf1.
  pose proof (bp_addr _ _ _ _ _ _ _ _ _ _ Hp) as Er. pose proof Hr as Hr1. rewrite Er in Hr1.
  destruct (data_block_range sb Hlay _ _ (f_blk _ _ _ Hf1 _ Hbn Hr1)) as (_ & _ & _ & Htok).
  assert (Hlen1 : forall b, length (fview s1 b) = BSIZE) by (intros; apply (tlaw_len _ _ _ _ (bp_wf _ _ _ _ _ _ _ _ _ _ Hp))).
  assert (Ho : 0 <= off) by apply Hoff.
  destruct (replace_run s1 ∅ W1 r (fun d => splice d (Z.to_nat (off mod BS)) c)) as (h & s2 & s3 & s4 & E2 & D2 & E3 & E4 & I4 & _ & _).
  { apply Hp. } { by rewrite Er. } { by intros; rewrite lookup_empty. } { rewrite map_size_empty. lia. }
  { intros d Hd. rewrite length_splice; [done|]. rewrite Hd. unfold BSIZE in *. zlia. }
  { eapply budget_fits, (bp_budget _ _ _ _ _ _ _ _ _ _ Hp). }
  exists h, s2, s3, s4. rewrite D2. split; [done|]. split; [done|]. split; [done|].
  assert (G4 : geti s4 ip = p1) by (rewrite <- G1; apply (geti_in _ _ _ _ _ _ I4)).
  assert (O4 : only_inode ip p1 s s4).
  { destruct (bp_only _ _ _ _ _ _ _ _ _ _ Hp) as [A1 A2]. split; [rewrite (in_sb _ _ _ _ _ I4)|rewrite (in_tab _ _ _ _ _ I4)]; done. }
  destruct (block_write_fext (fview s1) p1 (off / BS) (splice (fview s1 r) (Z.to_nat (off mod BS)) c)) as (X1 & X2 & X3); auto.
  rewrite <- Er in X1, X2, X3.
  assert (Hfx : fext (fview s) (geti s ip) (fview s4) p1).
  { eapply fext_trans; [apply (bmap_fext ip _ s W _ r s1 W1 p1 Hbn Hwr Hp)|]. eapply fext_trans; [exact X1|].
    apply fext_refl. apply I4. }
  assert (Hib : forall m, iblk (fview s4) p1 m = iblk (fview s1) p1 m).
  { intros m. rewrite <- (block_write_iblk (fview s1) p1 r (splice (fview s1 r) (Z.to_nat (off mod BS)) c)).
    - apply iblk_keep. intros _. apply I4.
    - rewrite Er. intros E. apply (f_indne _ _ _ Hf1 _ Hbn Hr1). symmetry. exact E. }
  split; rewrite ?G4; auto.
  - split; rewrite ?G4; auto.
    + rewrite (length_only _ _ _ _ O4). apply Hwr.
    + destruct O4 as [-> _]. apply Hwr.
    + intros b Hb. unfold used. rewrite (in_view _ _ _ _ _ I4). apply (X3 (bp_bitmap _ _ _ _ _ _ _ _ _ _ Hp) b Hb).
    + apply (file_ok_mono sb Hlay _ _ _ X2).
      * intros m. apply iblk_keep. intros _. apply I4.
      * intros b Hb. unfold used. by rewrite (in_view _ _ _ _ _ I4).
    + apply I4.
    + by apply (bp_budget_r _ _ _ _ _ _ _ _ _ _ Hp).
  - intros i Hi. assert (fbyte (fview s4) p1 i = written (fbyte (fview s1) p1) off c i) as ->.
    { rewrite <- (block_write_bytes (fview s1) p1 off c i) by (rewrite <- ?Er; auto). unfold fbyte. rewrite <- Er.
      rewrite (iblk_keep _ (fview s4)) by (intros _; apply I4). by rewrite (in_view _ _ _ _ _ I4). }
    unfold written. dcase; [done|]. by apply (bmap_bytes ip (off / BS) s W (S n) r s1 W1 p1 Hwr Hp).
  - intros b Hb Hlt. rewrite Hib. destruct (decide (b = off / BS)) as [->|Hne]; [done|].
    apply (bmap_full ip (off / BS) s W (S n) r s1 W1 p1 Hbn Hwr Hp off); auto; unfold in_file, BSIZE in *; [lia|zlia].
Qed.

Lemma wrote_nil ip s W n off s' : writing ip W n s -> in_store s s' (fview s) ∅ W ->
  (forall b, 0 <= b -> b * BS < off -> iblk (fview s) (geti s ip) b <> 0) -> wrote ip s off [] s' W n.
Proof.
  intros [W1 W2 W3 W4 W5 W6] I Hf. pose proof (geti_in _ _ _ _ _ ip I) as G.
  assert (Hi : forall m, iblk (fview s') (geti s ip) m = iblk (fview s) (geti s ip) m) by (intros m; apply iblk_keep; intros _; apply I).
  assert (Hu : forall b, used sb (fview s') b = used sb (fview s) b) by (intros b; unfold used; by rewrite (in_view _ _ _ _ _ I)).
  split; rewrite ?G.
  - apply only_refl; apply I.
  - split; rewrite ?G; auto; try apply I.
    + by rewrite (in_tab _ _ _ _ _ I).
    + by rewrite (in_sb _ _ _ _ _ I).
    + intros b Hb. rewrite Hu. auto.
    + apply (file_ok_mono sb Hlay (fview s)); auto. intros. by rewrite Hu.
  - apply fext_refl. apply I.
  - intros i _. unfold written. rewrite decide_False by (cbn; lia). unfold fbyte. by rewrite Hi, (in_view _ _ _ _ _ I).
  - intros b Hb. rewrite Hi. cbn [length]. rewrite Z.add_0_r. auto.
Qed.

Lemma wrote_app ip s off c s1 W1 n l s2 W2 m :
  wrote ip s off c s1 W1 n -> wrote ip s1 (off + Z.of_nat (length c)) l s2 W2 m -> wrote ip s off (c ++ l) s2 W2 m.
Proof.
  intros [A1 A2 A3 A4 A5] [B1 B2 B3 B4 B5]. split.
  - eapply only_trans; eauto.
  - done.
  - eapply fext_trans; eauto.
  - intros i Hi. rewrite <- written_app, B4 by done. unfold written at 1 2. dcase; [done|]. auto.
  - intros b Hb Hlt. apply B5; [done|]. rewrite length_app in Hlt. lia.
Qed.

Lemma bmap_wrote ip bn s W n s1 W1 p1 off : writing ip W (S n) s -> 0 <= bn < MAXFILE -> in_file off ->
  (forall b, 0 <= b -> b * BS < off -> iblk (fview s) (geti s ip) b <> 0) ->
  bmap_post sb ip bn s W n 0 s1 W1 p1 -> wrote ip s off [] s1 W1 n.
Proof.
  intros Hwr Hbn Hoff Hf Hp. pose proof (bmap_geti ip _ s W _ _ s1 W1 p1 Hwr Hp) as G.
  pose proof (bp_only _ _ _ _ _ _ _ _ _ _ Hp) as O. split; rewrite ?G; auto.
  - split; rewrite ?G; try apply Hp.
    + rewrite (length_only _ _ _ _ O). apply Hwr.
    + destruct O as [-> _]. apply Hwr.
  - apply (bmap_fext ip _ s W _ _ s1 W1 p1 Hbn Hwr Hp).
  - intros i Hi. unfold written. rewrite decide_False by (cbn; lia). by apply (bmap_bytes ip bn s W n 0 s1 W1 p1 Hwr Hp).
  - intros b Hb. cbn [length]. rewrite Z.add_0_r. apply (bmap_full ip bn s W n 0 s1 W1 p1 Hbn Hwr Hp off); auto.
    unfold in_file in Hoff. lia.
Qed.

(** Every block of the disk is in use. *)
Definition disk_full s : Prop := forall b, 0 <= b < fsize sb -> used sb (fview s) b = true.

(** A source that gives the bytes [l]. *)
Context (gives : source -> list Z -> Prop).
Hypothesis source_step : forall src c l, c <> [] -> gives src (c ++ l) ->
  exists r src', either_copyin src (Z.of_nat (length c)) = Ok (r, c, src') /\ r <> -1 /\ gives src' l.

Lemma writei_loop_run k ip src l off n tot s W :
  writing ip W (S (nblk off (n - tot))) s -> gives src l -> Z.of_nat (length l) = n - tot -> 0 <= off ->
  off + (n - tot) <= MAXFILE * BS -> n - tot <= Z.of_nat k ->
  (forall b, 0 <= b -> b * BS < off -> iblk (fview s) (geti s ip) b <> 0) ->
  exists j src' s' W', writei_loop k ip src off n tot s = Ok (tot + Z.of_nat j, off + Z.of_nat j, src', s') /\
    (j <= length l)%nat /\ wrote ip s off (take j l) s' W' 1 /\ ((j < length l)%nat -> disk_full s').
Proof.
  revert src l off tot s W. induction k as [|k IH]; intros src l off tot s W Hwr Hg Hl Ho Hmax Hk Hfull; cbn [writei_loop];
    (destruct (tot <? n) eqn:E; bool_to_prop; [try lia|exists 0%nat, src, s, W; rewrite !Z.add_0_r; split_and!;
      [done|lia| |lia]; cbn [take]; apply wrote_nil; [|apply in_store_refl, Hwr|done];
      unfold nblk in Hwr; rewrite decide_True in Hwr by lia; exact Hwr]).
  set (m := Z.min (n - tot) (BS - off mod BS)). assert (Hm : 0 < m <= n - tot /\ off mod BS + m <= BS) by (unfold m, BSIZE; zlia).
  rewrite (nblk_step off (n - tot) m) in Hwr by (done || lia).
  assert (Hoff : in_file off) by (unfold in_file; lia). pose proof (in_file_block _ Hoff) as Hbn.
  destruct (bmap_run sb Hlay ip (off / BS) s W (S (nblk (off + m) (n - tot - m)))) as (r & s1 & W1 & p1 & E1 & Hp); try apply Hwr; [done|].
  rewrite E1. cbn [mbind outcome_bind]. destruct (r =? 0) eqn:Er; bool_to_prop.
  { subst r. exists 0%nat, src, s1, W1. rewrite !Z.add_0_r. split_and!; [done|lia| |].
    - destruct (bmap_wrote _ _ _ _ _ _ _ _ _ Hwr Hbn Hoff Hfull Hp) as [A1 A2 A3 A4 A5]. split; auto.
      destruct A2 as [B1 B2 B3 B4 B5 B6]. split; auto. eapply budget_le; [exact B6|lia].
    - intros _. exact (bp_none _ _ _ _ _ _ _ _ _ _ Hp eq_refl). }
  set (c := take (Z.to_nat m) l). set (l' := drop (Z.to_nat m) l).
  assert (Hcl : Z.of_nat (length c) = m) by (unfold c; rewrite length_take; lia).
  assert (El : l = c ++ l') by (unfold c, l'; by rewrite take_drop).
  destruct (write_block ip off c s W (nblk (off + m) (n - tot - m)) r s1 W1 p1 Hoff) as (h & s2 & s3 & s4 & E2 & E3 & E4 & Hw4); eauto; try lia.
  destruct (source_step src c l') as (rc & src' & Ec & Hrc & Hg'); [by destruct c; cbn in Hcl; [lia|]|by rewrite <- El|].
  rewrite E2. cbn [mbind outcome_bind]. cbn zeta. fold m. rewrite Hcl in Ec. rewrite Ec. cbn [mbind outcome_bind].
  rewrite (proj2 (Z.eqb_neq rc _)) by done. rewrite E3. cbn [mbind outcome_bind]. rewrite E4. cbn [mbind outcome_bind].
  destruct (IH src' l' (off + m) (tot + m) s4 ({[r]} ∪ W1)) as (j & src2 & s5 & W5 & E5 & Hj & Hw5 & Hd).
  { replace (n - (tot + m)) with (n - tot - m) by lia. apply Hw4. } { done. }
  { unfold l'. rewrite length_drop. lia. } { lia. } { lia. } { lia. }
  { intros b Hb Hlt. apply (wt_full _ _ _ _ _ _ _ Hw4); [done|by rewrite Hcl]. }
  rewrite E5. exists (Z.to_nat m + j)%nat, src2, s5, W5. split_and!.
  - do 4 f_equal; lia.
  - unfold l' in Hj. rewrite length_drop in Hj. lia.
  - rewrite El, take_app. rewrite (take_ge c) by lia. replace (Z.to_nat m + j - length c)%nat with j by lia.
    eapply wrote_app; [exact Hw4|]. by rewrite Hcl.
  - intros Hlt. apply Hd. unfold l'. rewrite length_drop. lia.
Qed.

(** ** The inode on the disk *)

Lemma length_put_addrs l : length (put_addrs l) = (4 * length l)%nat.
Proof.
  unfold put_addrs. induction l as [|a l IH]; [done|]. cbn [map concat]. rewrite length_app, length_le_bytes, IH. cbn. lia.
Qed.

Lemma length_dinode_put p d off : length (addrs p) = 13%nat -> (off + 64 <= length d)%nat ->
  length (dinode_put p d off) = length d.
Proof.
  intros Ha Hl. unfold dinode_put. repeat first [rewrite length_splice | rewrite length_put32 | rewrite length_put16];
    rewrite ?length_put_addrs; lia.
Qed.

Lemma dinode_off_fits i : 0 <= i -> (dinode_off i + 64 <= BSIZE)%nat.
Proof. intros. unfold dinode_off, IPB, BSIZE. zlia. Qed.

(** The block and the slot of inode [i] are its own. *)
Lemma iblock_facts i : 0 <= i < ninodes sb ->
  0 <= IBLOCK i sb < fsize sb /\ ~ is_bmap sb (IBLOCK i sb) /\ IBLOCK i sb < datastart sb /\ tok (IBLOCK i sb).
Proof.
  intros Hi. pose proof (lay_iblock _ Hlay i Hi). pose proof (lay_inode _ Hlay). pose proof (lay_size _ Hlay).
  pose proof (lay_data _ Hlay). assert (inodestart sb <= IBLOCK i sb) by (unfold IBLOCK, IPB; zlia).
  assert (bmapstart sb < datastart sb) by (unfold datastart, BPB; zlia).
  split_and!; try lia.
  - intros (x & Hx & E). pose proof (BBLOCK_bmap sb x Hx). lia.
  - apply (lay_tok _ Hlay). lia.
Qed.

Lemma iupdate_run ip s W :
  fsb s = sb -> length (addrs (geti s ip)) = 13%nat -> 0 <= inum (geti s ip) < ninodes sb -> twf (store s) ∅ W ->
  IBLOCK (inum (geti s ip)) sb ∈ W \/ (size W < tcap)%nat ->
  let b := IBLOCK (inum (geti s ip)) sb in
  exists s', iupdate ip s = Ok s' /\
    in_store s s' (updz (fview s) b (dinode_put (geti s ip) (fview s b) (dinode_off (inum (geti s ip))))) ∅ ({[b]} ∪ W).
Proof.
  intros Hsb Ha Hi Hw Hc b. destruct (iblock_facts _ Hi) as (_ & _ & _ & Htok).
  destruct (replace_run s ∅ W b (fun d => dinode_put (geti s ip) d (dinode_off (inum (geti s ip)))))
    as (h & s1 & s2 & s3 & E1 & D1 & E2 & E3 & I3 & F1 & T1); auto.
  { intros d Hd. rewrite length_dinode_put; rewrite ?Hd; auto. apply dinode_off_fits. lia. }
  exists s3. split; [|done]. unfold iupdate. rewrite Hsb. fold b. rewrite E1. cbn [mbind outcome_bind].
  rewrite D1, E2. cbn [mbind outcome_bind]. exact E3.
Qed.

(** What [writei] leaves when it has written the bytes [l] at [off]. *)
Record writei_post (ip : nat) s (off : Z) (l : list Z) s' : Prop := {
  wp_only : only_inode ip (geti s' ip) s s';
  wp_inode : geti s' ip = set_size (Z.max (i_size (geti s ip)) (off + Z.of_nat (length l))) (set_addrs (addrs (geti s' ip)) (geti s ip));
  wp_wf : exists W, twf (store s') ∅ W;
  wp_bitmap : bitmap_ok sb (fview s');
  wp_file : file_ok sb (fview s') (geti s' ip);
  wp_bytes : forall i, in_file i -> fbyte (fview s') (geti s' ip) i = written (fbyte (fview s) (geti s ip)) off l i;
  wp_disk : fview s' (IBLOCK (inum (geti s ip)) sb) =
    dinode_put (geti s' ip) (fview s (IBLOCK (inum (geti s ip)) sb)) (dinode_off (inum (geti s ip)));
  wp_keep : forall b, 0 <= b < fsize sb -> used sb (fview s) b = true -> ~ is_bmap sb b ->
    b <> addr_at (geti s ip) NDIRECT -> (forall m, 0 <= m < MAXFILE -> iblk (fview s) (geti s ip) m <> b) ->
    b <> IBLOCK (inum (geti s ip)) sb -> fview s' b = fview s b;
  wp_used : forall b, 0 <= b < fsize sb -> used sb (fview s) b = true -> used sb (fview s') b = true;
  wp_new : forall m, 0 <= m < MAXFILE -> iblk (fview s') (geti s' ip) m <> 0 ->
    iblk (fview s') (geti s' ip) m = iblk (fview s) (geti s ip) m \/ used sb (fview s) (iblk (fview s') (geti s' ip) m) = false;
  wp_ind : addr_at (geti s' ip) NDIRECT = addr_at (geti s ip) NDIRECT \/ used sb (fview s) (addr_at (geti s' ip) NDIRECT) = false
}.

Lemma file_ok_size v p z : file_ok sb v p -> 0 <= z <= MAXFILE * BS -> (forall n, 0 <= n -> n * BS < z -> iblk v p n <> 0) ->
  file_ok sb v (set_size z p).
Proof. intros [F1 F2 F3 F4 F5 F6 F7] Hz Hfull. by split. Qed.

(** Writing an inode block touches no file and no bitmap. *)
Lemma inode_write_views v v' i d p : 0 <= i < ninodes sb -> file_ok sb v p -> bitmap_ok sb v ->
  (forall b, v' b = updz v (IBLOCK i sb) d b) ->
  file_ok sb v' p /\ bitmap_ok sb v' /\ (forall b, 0 <= b < fsize sb -> used sb v' b = used sb v b) /\
  (forall j, in_file j -> fbyte v' p j = fbyte v p j) /\ (forall m, iblk v' p m = iblk v p m).
Proof.
  intros Hi Hf Hb E. destruct (iblock_facts _ Hi) as (Hb1 & Hb2 & Hb3 & _). set (ib := IBLOCK i sb) in *.
  assert (Hnd : forall b, data_block sb v b -> b <> ib) by (intros b [? _]; lia).
  assert (Hib : forall m, iblk v' p m = iblk v p m).
  { intros m. apply iblk_keep. intros Hn. rewrite E, updz_ne; [done|]. apply Hnd, (f_ind _ _ _ Hf). done. }
  assert (Hu : forall b, 0 <= b < fsize sb -> used sb v' b = used sb v b).
  { intros b Hbr. rewrite <- (block_write_used v ib d b) by done. unfold used. by rewrite E. }
  pose proof (lay_data _ Hlay). split_and!; auto.
  - apply (file_ok_mono sb Hlay v); auto. intros b Hbr. by rewrite Hu.
  - intros b Hbr. rewrite Hu by lia. auto.
  - intros j Hj. unfold fbyte. rewrite Hib. destruct (iblk v p (j / BS) =? 0) eqn:Ez; [done|].
    bool_to_prop. rewrite E, updz_ne; [done|]. apply Hnd, (f_blk _ _ _ Hf); [by apply in_file_block|done].
Qed.

(** The inode block of a file is not one of its blocks. *)
Lemma iblock_foreign v p i : 0 <= i < ninodes sb -> file_ok sb v p -> bitmap_ok sb v ->
  used sb v (IBLOCK i sb) = true /\ IBLOCK i sb <> addr_at p NDIRECT /\ (forall m, 0 <= m < MAXFILE -> iblk v p m <> IBLOCK i sb).
Proof.
  intros Hi Hf Hb. destruct (iblock_facts _ Hi) as (Hb1 & Hb2 & Hb3 & _). pose proof (lay_inode _ Hlay).
  assert (0 < IBLOCK i sb) by (unfold IBLOCK, IPB; zlia). split_and!.
  - apply Hb. lia.
  - intros E. destruct (f_ind _ _ _ Hf) as [? _]; lia.
  - intros m Hm E. destruct (f_blk _ _ _ Hf m Hm) as [? _]; lia.
Qed.

Lemma grow_size ip e s : (ip < length (itable s))%nat ->
  let s' := if i_size (geti s ip) <? e then seti ip (set_size e) s else s in
  fsb s' = fsb s /\ store s' = store s /\ only_inode ip (set_size (Z.max (i_size (geti s ip)) e) (geti s ip)) s s'.
Proof.
  intros Hip. cbn zeta. destruct (_ <? e) eqn:E; bool_to_prop; split_and!; auto.
  - rewrite Z.max_r by lia. by apply (only_seti ip (set_size e)).
  - rewrite Z.max_l by lia. assert (set_size (i_size (geti s ip)) (geti s ip) = geti s ip) as -> by (by destruct (geti s ip)).
    by apply only_refl.
Qed.

(** The end of [writei]: the size grows and the inode goes to the disk. *)
Lemma writei_finish ip s off l s1 W1 :
  wrote ip s off l s1 W1 1 -> 0 <= inum (geti s ip) < ninodes sb -> 0 <= off ->
  off + Z.of_nat (length l) <= MAXFILE * BS -> file_ok sb (fview s) (geti s ip) -> bitmap_ok sb (fview s) ->
  let e := off + Z.of_nat (length l) in
  exists s', iupdate ip (if i_size (geti s1 ip) <? e then seti ip (set_size e) s1 else s1) = Ok s' /\
    writei_post ip s off l s' /\ (disk_full s1 -> disk_full s').
Proof.
  intros [A1 A2 A3 A4 A5] Hi Ho Hmax Hfile Hbm e. destruct A2 as [B1 B2 B3 B4 B5 B6].
  destruct (grow_size ip e s1 B1) as (F2 & S2 & O2). set (s2 := if _ <? _ then _ else _) in *. set (p1 := geti s1 ip) in *.
  assert (Hp1 : p1 = set_addrs (addrs p1) (geti s ip)) by apply A3.
  assert (Esz : i_size p1 = i_size (geti s ip)) by (rewrite Hp1; done).
  assert (Enum : inum p1 = inum (geti s ip)) by (rewrite Hp1; done).
  set (p2 := set_size (Z.max (i_size p1) e) p1) in *. pose proof (geti_only _ _ _ _ B1 O2) as G2.
  assert (V2 : fview s2 = fview s1) by (unfold fview; by rewrite S2). pose proof (f_size _ _ _ B4) as Hs1.
  assert (Hf2 : file_ok sb (fview s1) p2).
  { apply file_ok_size; [done|lia|]. intros n Hn Hlt. destruct (decide (n * BS < e)); [by apply A5|].
    apply (f_full _ _ _ B4); [done|lia]. }
  destruct (iupdate_run ip s2 W1) as (s' & E' & I'); rewrite ?G2; try done; [congruence|apply Hf2|cbn [p2 inum set_size]; lia|by rewrite S2|
    by eapply budget_fits|].
  exists s'. split; [exact E'|]. rewrite G2, V2 in I'. change (inum p2) with (inum p1) in I'. rewrite Enum in I'.
  assert (G' : geti s' ip = p2) by (rewrite <- G2; apply (geti_in _ _ _ _ _ _ I')).
  destruct (inode_write_views _ _ _ _ _ Hi Hf2 B3 (in_view _ _ _ _ _ I')) as (Hf' & Hb' & Hu' & Hby & _).
  destruct (iblock_foreign _ _ _ Hi Hfile Hbm) as (X1 & X2 & X3). destruct (iblock_facts _ Hi) as (Y1 & Y2 & _).
  set (ib := IBLOCK (inum (geti s ip)) sb) in *.
  split; [|intros Hd b Hb; rewrite Hu' by done; auto]. split; rewrite ?G'; auto.
  - eapply only_trans; [exact A1|]. destruct O2 as [O2 O2']. split; [by rewrite (in_sb _ _ _ _ _ I')|by rewrite (in_tab _ _ _ _ _ I')].
  - unfold p2. rewrite Esz. rewrite Hp1 at 1. done.
  - exists ({[ib]} ∪ W1). apply I'.
  - intros i Hi'. rewrite Hby by done. by apply A4.
  - rewrite (in_view _ _ _ _ _ I'), updz_eq. f_equal. by apply (fx_keep _ _ _ _ A3).
  - intros b Hb Hub Hnb Hna Hno Hne. rewrite (in_view _ _ _ _ _ I'), updz_ne by done. by apply (fx_keep _ _ _ _ A3).
  - intros b Hb Hub. rewrite Hu' by done. by apply (fx_used _ _ _ _ A3).
  - intros m Hm. assert (iblk (fview s') p2 m = iblk (fview s1) p1 m) as ->.
    { change (iblk (fview s1) p1 m) with (iblk (fview s1) p2 m). apply iblk_keep. intros Hn. rewrite (in_view _ _ _ _ _ I').
      apply updz_ne. intros E. destruct (iblock_foreign _ _ _ Hi Hf2 B3) as (_ & Z2 & _). by apply Z2. }
    intros Hn. destruct (decide (iblk (fview s) (geti s ip) m = 0)) as [E|E].
    + right. by apply (fx_new _ _ _ _ A3).
    + left. by apply (fx_iblk _ _ _ _ A3).
  - change (addr_at p2 NDIRECT) with (addr_at p1 NDIRECT).
    destruct (decide (addr_at p1 NDIRECT = addr_at (geti s ip) NDIRECT)) as [E|E]; [by left|right]. by apply (fx_ind _ _ _ _ A3).
Qed.

(** [writei]: refused, or a prefix of the bytes is written, all of them
    unless the disk is full. *)
Lemma writei_run ip src l off s W :
  let p := geti s ip in
  writing ip W (S (nblk off (Z.of_nat (length l)))) s -> 0 <= inum p < ninodes sb -> gives src l ->
  0 <= off < 4294967296 -> off + Z.of_nat (length l) < 4294967296 ->
  exists r src' s', writei ip src off (Z.of_nat (length l)) s = Ok (r, src', s') /\
    ((r = -1 /\ s' = s /\ (i_size p < off \/ MAXFILE * BS < off + Z.of_nat (length l))) \/
     exists j, r = Z.of_nat j /\ (j <= length l)%nat /\ writei_post ip s off (take j l) s' /\
       ((j < length l)%nat -> disk_full s')).
Proof.
  intros p Hwr Hi Hg Ho Hon. unfold writei. fold p. rewrite u32_id by lia.
  destruct (i_size p <? off) eqn:E1; cbn [orb]; bool_to_prop.
  { exists (-1), src, s. split; [done|]. left. auto. }
  rewrite (proj2 (Z.ltb_ge (off + _) off)) by lia.
  destruct (MAXFILE * BS <? off + Z.of_nat (length l)) eqn:E2; bool_to_prop.
  { exists (-1), src, s. split; [done|]. left. auto. }
  pose proof (wr_file _ _ _ _ Hwr) as Hf. fold p in Hf.
  destruct (writei_loop_run (Z.to_nat (Z.of_nat (length l))) ip src l off (Z.of_nat (length l)) 0 s W)
    as (j & src' & s1 & W1 & El & Hj & Hw & Hd); rewrite ?Z.sub_0_r; auto; try lia.
  { intros b Hb Hlt. apply (f_full _ _ _ Hf); [done|lia]. }
  rewrite El. cbn [mbind outcome_bind]. rewrite Z.add_0_l. pose proof (wt_only _ _ _ _ _ _ _ Hw) as Hon1.
  destruct (writei_finish ip s off (take j l) s1 W1) as (s' & E' & Hp & Hd'); auto; try apply Hwr; [lia|rewrite length_take; lia|].
  rewrite length_take, Nat.min_l in E' by lia. rewrite E'. cbn [mbind outcome_bind].
  exists (Z.of_nat j), src', s'. split; [done|]. right. exists j. split_and!; auto.
Qed.
End Write.

(** * File data and user memory

    The copies between a file and user memory, for [readi] and [writei]: the
    theory of [copyout] and [copyin] discharges what they ask of a
    destination and of a source. *)

Section User.
Context (kend : Z) (Hkend : 0 < kend).

Definition dest_ok (d : dest) : Prop :=
  match d with
  | UserDst pt va m => 0 <= va < 18446744073709551616 /\ exists fl G M, as_inv kend m fl pt G M
  | KernelDst _ => True
  end.

Lemma dest_step d c : dest_ok d -> exists r d', either_copyout d c = Ok (r, d') /\ dest_ok d'.
Proof.
  destruct d as [pt va m|got]; cbn [either_copyout dest_ok].
  - intros (Hva & fl & G & M & Hinv). unfold copyout.
    destruct (copyout_loop_run kend Hkend (length c) va c m fl pt G M Hinv Hva ltac:(lia)) as (r & m' & k & -> & Hc & _ & _).
    cbn [mbind outcome_bind]. eexists _, _. split; [done|]. cbn. split; [apply u64_range|]. exists fl, G, M. apply Hc.
  - intros _. by eexists _, _.
Qed.

(** Bytes that have been copied to a user address are there. *)
Lemma fed_user pt va m l d fl G M :
  fed (UserDst pt va m) l d -> as_inv kend m fl pt G M -> 0 <= va -> va + Z.of_nat (length l) < 18446744073709551616 ->
  exists m', d = UserDst pt (va + Z.of_nat (length l)) m' /\
    copied kend m fl pt G M va l (Z.of_nat (length l)) m' /\
    (forall w, va <= w < va + Z.of_nat (length l) -> uwritable (pmem m) pt w).
Proof.
  intros H. remember (UserDst pt va m) as d0 eqn:E0. revert va m E0.
  induction H as [d|d c d1 l d' r Hc Hr H IH]; intros va m -> Hinv Hva Hl.
  { exists m. cbn. rewrite Z.add_0_r. split; [done|]. split; [by apply copied_none|]. intros. lia. }
  cbn [either_copyout] in Hc. unfold copyout in Hc. rewrite length_app, Nat2Z.inj_add in *.
  destruct (copyout_loop_run kend Hkend (length c) va c m fl pt G M Hinv ltac:(lia) ltac:(lia)) as (r' & m1 & k & E & Hc1 & Hw & Hk).
  rewrite E in Hc. cbn [mbind outcome_bind] in Hc. injection Hc as <- <-.
  destruct Hk as [[-> ->]|[-> _]]; [|done]. rewrite u64_id in * by lia.
  destruct (IH (va + Z.of_nat (length c)) m1) as (m' & -> & Hc2 & Hw2); auto; [apply Hc1|lia|lia|].
  exists m'. split; [f_equal; lia|]. split.
  - apply (copied_app kend _ _ _ _ _ _ _ _ _ _ _ Hc1 Hc2). lia.
  - intros w Hwr. destruct (decide (w < va + Z.of_nat (length c))); [apply Hw; lia|].
    apply (uwritable_tr m m1); [apply Hc1|]. apply Hw2. lia.
Qed.

(** A copy ends early only at an address that the user may not write. *)
Lemma cut_user pt va m l d fl G M :
  cut (UserDst pt va m) l d -> as_inv kend m fl pt G M -> 0 <= va -> va + Z.of_nat (length l) < 18446744073709551616 ->
  exists w, va <= w < va + Z.of_nat (length l) /\ ~ uwritable (pmem m) pt w.
Proof.
  intros (l1 & c & l2 & d1 & -> & Hf & Hc) Hinv Hva Hl. rewrite !length_app, !Nat2Z.inj_add in *.
  destruct (fed_user _ _ _ _ _ _ _ _ Hf Hinv Hva ltac:(lia)) as (m1 & -> & Hc1 & _).
  cbn [either_copyout] in Hc. unfold copyout in Hc.
  destruct (copyout_loop_run kend Hkend (length c) (va + Z.of_nat (length l1)) c m1 fl pt G M (cp_as _ _ _ _ _ _ _ _ _ _ Hc1) ltac:(lia) ltac:(lia))
    as (r' & m2 & k & E & _ & _ & Hk).
  rewrite E in Hc. cbn [mbind outcome_bind] in Hc. injection Hc as -> _. destruct Hk as [[? _]|(_ & Hk & Hn)]; [done|].
  exists (va + Z.of_nat (length l1) + k). split; [lia|]. intros Hw. apply Hn.
  apply (uwritable_tr m m1); [apply Hc1|done].
Qed.

(** The bytes at a source. *)
Definition source_gives (src : source) (l : list Z) : Prop :=
  match src with
  | UserSrc pt va m => 0 <= va /\ va + Z.of_nat (length l) < 18446744073709551616 /\ exists fl G M, as_inv kend m fl pt G M /\
      forall i x, l !! i = Some x -> ureadable (pmem m) pt (va + Z.of_nat i) /\ ubyte (pmem m) M (va + Z.of_nat i) = Some x
  | KernelSrc rest => rest = l
  end.

Lemma source_step src c l : c <> [] -> source_gives src (c ++ l) ->
  exists r src', either_copyin src (Z.of_nat (length c)) = Ok (r, c, src') /\ r <> -1 /\ source_gives src' l.
Proof.
  intros Hne. destruct src as [pt va m|rest]; cbn [either_copyin source_gives].
  - rewrite length_app, Nat2Z.inj_add. intros (Hva & Hl & fl & G & M & Hinv & Hb). unfold copyin. rewrite Nat2Z.id.
    destruct (copyin_loop_run kend Hkend (length c) va (Z.of_nat (length c)) [] m fl pt G M Hinv ltac:(lia) ltac:(lia))
      as (r & x & E & Hx & _ & Hr). rewrite E. cbn [mbind outcome_bind app].
    destruct Hr as [[-> Hlen]|(-> & Hlt & Hn)].
    + assert (x = c) as ->.
      { apply list_eq_same_length with (length c); [done|lia|]. intros i y z Hi Hy Hz. rewrite Hx in Hy by lia.
        destruct (Hb i z) as [_ Hu]; [by rewrite lookup_app_l by lia|]. congruence. }
      eexists _, _. split; [done|]. split; [done|]. rewrite u64_id by lia. cbn. split; [lia|]. split; [lia|].
      exists fl, G, M. split; [done|]. intros i y Hy. rewrite <- Z.add_assoc, <- Nat2Z.inj_add. apply Hb.
      rewrite lookup_app_r by lia. replace (length c + i - length c)%nat with i by lia. done.
    + destruct Hn. assert (Hi : (length x < length c)%nat) by lia. apply lookup_lt_is_Some in Hi as [y Hy].
      apply (Hb (length x) y). rewrite lookup_app_l; [done|]. apply lookup_lt_Some in Hy. done.
  - intros ->. eexists _, _. rewrite Nat2Z.id, take_app_length, drop_app_length. done.
Qed.
End User.
