(* ===== verification/FsProps.v ===== *)
(** * The file system's block store: the log over a buffer cache

    The pair of the log of log.c and a buffer cache is a store for the file
    system: [bread], [log_write] and [brelse] satisfy the laws that the
    theorems on fs.c assume, inside a transaction with room for [cap] blocks. *)
From S2P Require Import Prelude Cstring Riscv Kalloc Vm VmTheory UvmTheory CopyTheory UvmProps Block Bio BioTheory.
From S2P Require Import Log LogTheory LogCrash Fs FsTheory FsFile FsWrite.

Lemma size_list_to_set_le (l : list Z) : (base.size (list_to_set l : gset Z) <= length l)%nat.
Proof.
  induction l as [|a l IH]; [done|]. cbn [list_to_set length].
  rewrite size_union_alt, size_singleton. pose proof (subseteq_size (list_to_set l ∖ {[a]}) (list_to_set l : gset Z)).
  assert ((base.size ((list_to_set l : gset Z) ∖ {[a]}) <= base.size (list_to_set l : gset Z))%nat) by (apply subseteq_size; set_solver). lia.
Qed.

Section Store.
Context {C : Type} {HC : BlockCache C} {HL : BlockCacheLaws C}.

#[global] Instance log_store : TxStore (log * C) := {
  tread bn t := '(h, c) ← cread bn (snd t); Ok (h, (fst t, c));
  tdata t h := cdata (snd t) h;
  tset h d t := (fst t, cset h d (snd t));
  tlog h t := '(l, c) ← log_write h (fst t) (snd t); Ok (l, c);
  trelse h t := c ← crelse h (snd t); Ok (fst t, c);
  tinitlog logstart nlog t := '(l, c) ← initlog logstart nlog (snd t); Ok (l, c)
}.

#[global] Instance log_ops : TxOps (log * C) := {
  tbegin t := l ← begin_op (fst t); Ok (l, snd t);
  tend t := '(l, c) ← end_op (fst t) (snd t); Ok (l, c)
}.

(** The log starts at [st], and [cap] blocks may be in it. *)
Context (st : Z) (cap : nat) (Hcap : (cap <= NBUF - 2)%nat).

Definition held (H : gmap nat Z) : gset Z := map_img H.

(** Blocks of the file system: outside the log. *)
Definition tx_ok (b : Z) : Prop := homeb st b /\ 0 <= b < 2147483648.

(** Inside a transaction: [H] are the handles held and [W] the blocks
    logged. *)
Record in_tx (t : log * C) (H : gmap nat Z) (W : gset Z) : Prop := {
  tx_wf : cwf (snd t) H;
  tx_start : start (fst t) = st;
  tx_room : LOGSIZE <= size (fst t);
  tx_out : outstanding (fst t) = 1;
  tx_nc : committing (fst t) = false;
  tx_len : length (lh_block (fst t)) = Z.to_nat LOGSIZE;
  tx_n : 0 <= lh_n (fst t) <= Z.of_nat cap;
  tx_nd : NoDup (lh_blocks (fst t));
  tx_logged : W = list_to_set (lh_blocks (fst t));
  tx_home : forall b, b ∈ lh_blocks (fst t) -> home (fst t) b;
  tx_int : forall j, -2147483648 <= lh_at (fst t) j < 2147483648;
  tx_few : (base.size H <= 2)%nat;
  tx_inj : forall h h' b, H !! h = Some b -> H !! h' = Some b -> h = h';
  tx_refs : forall b, crefs (snd t) b =
    (if decide (b ∈ lh_blocks (fst t)) then 1 else 0) + (if decide (b ∈ held H) then 1 else 0);
  tx_clean : forall b, b ∉ lh_blocks (fst t) -> cview (snd t) b = cdisk (snd t) b;
  tx_hdr : head_is (cdisk (snd t) st) [];
  tx_hok : forall h b, H !! h = Some b -> tx_ok b
}.

Lemma elem_of_held H b : b ∈ held H <-> exists h, H !! h = Some b.
Proof. apply elem_of_map_img. Qed.

Lemma held_insert H h b x : H !! h = None -> x ∈ held (<[h := b]> H) <-> x = b \/ x ∈ held H.
Proof.
  intros Hh. rewrite !elem_of_held. split.
  - intros (k & Hk). destruct (decide (k = h)) as [->|Hne].
    + rewrite lookup_insert_eq in Hk. left. congruence.
    + rewrite lookup_insert_ne in Hk by done. right. by exists k.
  - intros [->|(k & Hk)]; [exists h; by rewrite lookup_insert_eq|]. exists k. rewrite lookup_insert_ne; [done|]. congruence.
Qed.

Lemma held_delete t H W h b x : in_tx t H W -> H !! h = Some b -> x ∈ held (delete h H) <-> x <> b /\ x ∈ held H.
Proof.
  intros Ht Hh. rewrite !elem_of_held. split.
  - intros (k & Hk). apply lookup_delete_Some in Hk as [Hne Hk]. split; [|by exists k].
    intros ->. apply Hne. by apply (tx_inj _ _ _ Ht _ _ b).
  - intros (Hne & k & Hk). exists k. rewrite lookup_delete_ne; [done|]. congruence.
Qed.

Lemma size_held t H W : in_tx t H W -> (base.size (held H) <= 2)%nat.
Proof.
  intros Ht. etransitivity; [|apply (tx_few _ _ _ Ht)]. unfold held.
  rewrite <- (length_map_to_list H), map_img_alt, <- (length_fmap snd). apply size_list_to_set_le.
Qed.

Lemma tx_read t H W bn :
  in_tx t H W -> tx_ok bn -> (forall h, H !! h <> Some bn) -> (base.size H < 2)%nat ->
  exists h t', tread bn t = Ok (h, t') /\ H !! h = None /\ in_tx t' (<[h := bn]> H) W /\
    (forall b, cview (snd t') b = cview (snd t) b).
Proof.
  intros Ht [Hb1 Hb2] Hn Hs. destruct t as [l c]. pose proof Ht as [T1 T2 T3 T4 T0 T5 T6 T7 T8 T9 T10 T11 T12 T13 T14 T15 T16]. cbn in *.
  assert (Hnh : bn ∉ held H) by (rewrite elem_of_held; intros [h Hh]; by apply (Hn h)).
  destruct (law_read c H bn T1 Hn) as (h & c' & E & Hh & Hw' & [S1 S2 S3] & Hr).
  { right. exists (list_to_set (lh_blocks l) ∪ held H). split.
    - rewrite size_union_alt. pose proof (size_list_to_set_le (lh_blocks l)). rewrite length_lh_blocks in *.
      assert (base.size (held H ∖ list_to_set (lh_blocks l)) <= base.size (held H))%nat by (apply subseteq_size; set_solver).
      assert (base.size (held H) <= base.size H)%nat.
      { unfold held. rewrite <- (length_map_to_list H), map_img_alt, <- (length_fmap snd). apply size_list_to_set_le. }
      unfold NBUF in *. lia.
    - intros b Hb. rewrite T13 in Hb. rewrite elem_of_union, elem_of_list_to_set. repeat case_decide; auto. lia. }
  { rewrite T13. repeat case_decide; lia. }
  rewrite E. cbn [mbind outcome_bind]. exists h, (l, c'). split; [done|]. split; [done|]. split; [|done].
  split; cbn; auto.
  - rewrite map_size_insert_None by done. lia.
  - intros k k' b Hk Hk'. apply lookup_insert_Some in Hk as [[<- <-]|[? Hk]], Hk' as [[<- E']|[? Hk']]; try done.
    + by destruct (Hn k').
    + subst b. by destruct (Hn k).
    + by apply (T12 _ _ b).
  - intros b. rewrite Hr, T13. pose proof (held_insert H h bn b Hh) as Hi. repeat case_decide; subst; tauto || lia.
  - intros b Hb. rewrite S1, S2. auto.
  - by rewrite S2.
  - intros k b Hk. apply lookup_insert_Some in Hk as [[_ <-]|[_ Hk]]; [done|eauto].
Qed.

Lemma tx_relse t H W h bn :
  in_tx t H W -> H !! h = Some bn ->
  exists t', trelse h t = Ok t' /\ in_tx t' (delete h H) W /\ (forall b, cview (snd t') b = cview (snd t) b).
Proof.
  intros Ht Hh. destruct t as [l c]. pose proof Ht as [T1 T2 T3 T4 T0 T5 T6 T7 T8 T9 T10 T11 T12 T13 T14 T15 T16]. cbn in *.
  assert (Hin : bn ∈ held H) by (rewrite elem_of_held; by exists h).
  destruct (law_relse c H h bn T1 Hh) as (c' & E & Hw' & [S1 S2 S3] & Hr).
  { rewrite T13. intros E. apply T14. repeat case_decide; done || lia. }
  rewrite E. cbn [mbind outcome_bind]. exists (l, c'). split; [done|]. split; [|done]. split; cbn; auto.
  - rewrite map_size_delete_Some by (by exists bn). lia.
  - intros k k' b Hk Hk'. apply lookup_delete_Some in Hk as [_ Hk], Hk' as [_ Hk']. by apply (T12 _ _ b).
  - intros b. rewrite Hr, T13. pose proof (held_delete _ _ _ h bn b Ht Hh) as Hi. repeat case_decide; subst; tauto || lia.
  - intros b Hb. rewrite S1, S2. auto.
  - by rewrite S2.
  - intros k b Hk. apply lookup_delete_Some in Hk as [_ Hk]. eauto.
Qed.

Lemma tx_log t H W h bn d :
  in_tx t H W -> H !! h = Some bn -> length d = BSIZE -> bn ∈ W \/ (base.size W < cap)%nat ->
  exists t', tlog h (tset h d t) = Ok t' /\ in_tx t' H ({[bn]} ∪ W) /\
    (forall b, cview (snd t') b = if decide (b = bn) then d else cview (snd t) b).
Proof.
  intros Ht Hh Hd Hroom. destruct t as [l c]. pose proof Ht as [T1 T2 T3 T4 T0 T5 T6 T7 T8 T9 T10 T11 T12 T13 T14 T15 T16]. cbn in *.
  destruct (T16 h bn Hh) as [Hbn1 Hbn2].
  assert (Hsz : base.size W = Z.to_nat (lh_n l)) by (rewrite T8, size_list_to_set by done; apply length_lh_blocks).
  assert (Hin : bn ∈ held H) by (rewrite elem_of_held; by exists h).
  destruct (law_set c H h bn d T1 Hh Hd) as (Hw2 & Hv2 & Hd2 & Hwr2 & Hr2). set (c2 := cset h d c) in *.
  destruct (log_write_run l c2 H h bn) as (l2 & c3 & E3 & [Hw3 [S1 S2 S3] Hr3 Hbs Hn2 Hat Hl2 Hst2 Hsz2 Hout2 Hcm2]); auto;
    unfold LOGDATA, LOGSIZE, MAXOPBLOCKS, NBUF in *; try lia.
  { rewrite Hr2, T13. repeat case_decide; lia. }
  assert (Hel : forall b, b ∈ lh_blocks l2 <-> b = bn \/ b ∈ lh_blocks l).
  { intros b. rewrite Hbs. case_decide; [|rewrite elem_of_app, list_elem_of_singleton; tauto].
    split; [tauto|]. by intros [->|]. }
  rewrite E3. cbn [mbind outcome_bind]. exists (l2, c3). split; [done|].
  split; [|intros b; cbn; by rewrite S1, Hv2]. split; cbn; unfold LOGDATA, LOGSIZE, MAXOPBLOCKS; auto; try congruence; try lia.
  - rewrite Hn2. case_decide as Hc; [lia|]. destruct Hroom as [Hw|]; [|lia]. rewrite T8, elem_of_list_to_set in Hw. done.
  - rewrite Hbs. case_decide; [done|]. apply NoDup_app. split_and!; [done| |apply NoDup_singleton].
    intros x Hx. rewrite list_elem_of_singleton. by intros ->.
  - apply set_eq. intros b. rewrite elem_of_list_to_set, Hel, T8, elem_of_union, elem_of_singleton, elem_of_list_to_set. done.
  - intros b. rewrite Hel. unfold home. rewrite Hst2. intros [->|Hb]; [|by apply T9]. rewrite T2. apply Hbn1.
  - intros j. destruct (Hat j) as [->| ->]; [lia|auto].
  - intros b. rewrite Hr3, Hr2, T13. pose proof (Hel b) as Hb. destruct (decide (b = bn)) as [->|Hne]; repeat dcase; tauto || lia.
  - intros b Hb. rewrite Hel in Hb. rewrite S1, S2, Hd2, Hv2, decide_False by tauto. auto.
Qed.

(** Outside the transaction's handles nothing is held: the log is ready for
    [commit]. *)
Lemma tx_pending t W : in_tx t ∅ W -> pending (fst t) (snd t).
Proof.
  intros [T1 T2 T3 T4 T0 T5 T6 T7 T8 T9 T10 T11 T12 T13 T14 T15 T16]. split; auto.
  - unfold NBUF in *. lia.
  - intros b. rewrite T13. rewrite (decide_False (P := b ∈ held _)); [lia|].
    rewrite elem_of_held. intros [h Hh]. by rewrite lookup_empty in Hh.
  - by rewrite T2.
Qed.

Definition log_store_laws : TxLaws (log * C).
Proof.
  refine {| tview t := cview (snd t); twf := in_tx; tcap := cap; tok := tx_ok |}.
  - intros t H W h bn Ht Hh. by destruct (law_held _ _ _ _ (tx_wf _ _ _ Ht) Hh).
  - intros t H W bn Ht. by destruct (law_len _ _ bn (tx_wf _ _ _ Ht)).
  - exact tx_read.
  - exact tx_log.
  - exact tx_relse.
Defined.

(** Between transactions: nothing is logged and no buffer is in use. *)
Record idle_tx (t : log * C) : Prop := {
  id_wf : cwf (snd t) ∅;
  id_start : start (fst t) = st;
  id_size : LOGSIZE <= size (fst t);
  id_out : outstanding (fst t) = 0;
  id_nc : committing (fst t) = false;
  id_len : length (lh_block (fst t)) = Z.to_nat LOGSIZE;
  id_n : lh_n (fst t) = 0;
  id_int : forall j, -2147483648 <= lh_at (fst t) j < 2147483648;
  id_refs : forall b, crefs (snd t) b = 0;
  id_hdr : head_is (cdisk (snd t) st) []
}.

Lemma idle_begin t : idle_tx t -> exists t', tbegin t = Ok t' /\ in_tx t' ∅ ∅ /\ snd t' = snd t.
Proof.
  intros [I1 I2 I3 I4 I5 I6 I7 I8 I9 I10]. destruct t as [l c]. cbn in *.
  unfold begin_op. rewrite I5, I7, I4. cbn. exists (set_outstanding (outstanding l + 1) l, c). rewrite I4. split; [done|].
  assert (Hbs : lh_blocks (set_outstanding (outstanding l + 1) l) = []) by (unfold lh_blocks; cbn; by rewrite I7).
  rewrite <- I4. split; [|done]. split; cbn [fst snd]; rewrite ?Hbs; cbn; auto; try lia; try set_solver.
  - apply NoDup_nil_2.
  - intros b _. by apply (law_clean c ∅).
Qed.

Lemma tx_end t W : in_tx t ∅ W ->
  exists t', tend t = Ok t' /\ idle_tx t' /\ (forall b, tx_ok b -> cview (snd t') b = cview (snd t) b).
Proof.
  intros Ht. pose proof (tx_pending t W Ht) as Hp. destruct Ht as [T1 T2 T3 T4 T0 T5 T6 T7 T8 T9 T10 T11 T12 T13 T14 T15 T16].
  destruct t as [l c]. cbn [fst snd] in *. cbn [tend log_ops fst snd]. unfold end_op, end_op_start.
  cbn [committing set_outstanding outstanding]. rewrite T0, T4. cbn [mbind outcome_bind Z.sub Z.eqb].
  set (l1 := set_committing true _). change (1 - 1 =? 0) with true. cbn [mbind outcome_bind].
  assert (Hp1 : pending l1 c) by (destruct Hp as [P1 P2 P3 P4 P5 P6 P7]; by split).
  destruct (decide (0 < lh_n l)) as [Hpos|Hz].
  - destruct (commit_run l1 c Hp1 Hpos) as (c' & E & Hw & Hv & _ & _ & Hr & Hh). rewrite E. cbn [mbind outcome_bind].
    eexists. split; [done|]. cbn [fst snd]. split; [split; try done; by rewrite <- T2|]. intros b [Hb _]. apply Hv. unfold home, homeb in *. change (start l1) with (start l). by rewrite T2.
  - assert (Hn : lh_n l = 0) by lia. unfold commit. change (lh_n l1) with (lh_n l). rewrite Hn. cbn [Z.ltb Z.compare mbind outcome_bind].
    eexists. split; [done|]. cbn [fst snd]. split; [|done]. split; try done.
    intros b. cbn [snd]. rewrite (pd_refs _ _ Hp), decide_False; [done|]. unfold lh_blocks. rewrite Hn. set_solver.
Qed.

Definition log_ops_laws : TxOpsLaws (log * C) (HL := log_store_laws).
Proof.
  refine {| tidle := idle_tx : log * C -> Prop |}.
  - intros t Ht. destruct (idle_begin t Ht) as (t' & E & Hx & Es). exists t'. split_and!; [done|done|]. intros b. cbn. by rewrite Es.
  - exact tx_end.
Defined.
End Store.

(** * Files as byte sequences: what reading and writing promise

    The properties of [readi] and [writei] against the interface of the block
    store, with witnesses on the log over the buffer cache, with a small disk
    that has an empty file. *)

Section Props.
Context {T : Type} {HT : TxStore T} {HL : TxLaws T}.
Implicit Types s : fs T.

(** Two files that share no block. *)
Definition apart (v : Z -> block) (p q : inode) : Prop :=
  (forall n m, 0 <= n < MAXFILE -> 0 <= m < MAXFILE -> iblk v q n <> 0 -> iblk v p m <> iblk v q n) /\
  (forall n, 0 <= n < MAXFILE -> iblk v q n <> 0 -> addr_at p NDIRECT <> iblk v q n) /\
  (addr_at q NDIRECT <> 0 -> addr_at p NDIRECT <> addr_at q NDIRECT /\
    forall m, 0 <= m < MAXFILE -> iblk v p m <> addr_at q NDIRECT).

(** Writing a file gives it only blocks that no file has. *)
Lemma apart_mono sb s ip s' q : file_ok sb (fview s) q ->
  (forall m, 0 <= m < MAXFILE -> iblk (fview s') (geti s' ip) m <> 0 ->
    iblk (fview s') (geti s' ip) m = iblk (fview s) (geti s ip) m \/ used sb (fview s) (iblk (fview s') (geti s' ip) m) = false) ->
  addr_at (geti s' ip) NDIRECT = addr_at (geti s ip) NDIRECT \/ used sb (fview s) (addr_at (geti s' ip) NDIRECT) = false ->
  (forall n, iblk (fview s') q n = iblk (fview s) q n) ->
  apart (fview s) (geti s ip) q -> apart (fview s') (geti s' ip) q.
Proof.
  intros Hf Hnew Hind Hiq (A1 & A2 & A3).
  assert (Hm : forall m b, 0 <= m < MAXFILE -> b <> 0 -> used sb (fview s) b = true ->
    iblk (fview s) (geti s ip) m <> b -> iblk (fview s') (geti s' ip) m <> b).
  { intros m b Hm Hb Hu Hne E. destruct (Hnew m Hm) as [E'|E']; congruence. }
  split_and!.
  - intros n m Hn Hm' Hq. rewrite Hiq in *. apply Hm; auto. by apply (f_blk _ _ _ Hf).
  - intros n Hn Hq. rewrite Hiq in *. destruct (f_blk _ _ _ Hf n Hn Hq) as [_ Hu]. intros E.
    destruct Hind as [E'|E']; [|congruence]. apply (A2 n Hn Hq). congruence.
  - intros Hq. destruct (A3 Hq) as [B1 B2]. destruct (f_ind _ _ _ Hf Hq) as [_ Hu]. split.
    + intros E. destruct Hind as [E'|E']; congruence.
    + intros m Hm'. apply Hm; auto.
Qed.

Lemma write_apart sb ip s off l s' q : layout_ok sb -> writei_post sb ip s off l s' ->
  0 <= inum (geti s ip) < ninodes sb -> file_ok sb (fview s) q -> apart (fview s) (geti s ip) q ->
  file_ok sb (fview s') q /\ (forall i, in_file i -> fbyte (fview s') q i = fbyte (fview s) q i) /\
  apart (fview s') (geti s' ip) q.
Proof.
  intros Hlay Hp Hi Hf (A1 & A2 & A3). destruct (iblock_facts sb Hlay _ Hi) as (_ & _ & Hib & _).
  assert (Hsame : forall b, data_block sb (fview s) b -> b <> addr_at (geti s ip) NDIRECT ->
    (forall m, 0 <= m < MAXFILE -> iblk (fview s) (geti s ip) m <> b) -> fview s' b = fview s b).
  { intros b Hb H1 H2. destruct (data_block_range sb Hlay _ _ Hb) as (? & ? & _). destruct Hb.
    apply (wp_keep _ _ _ _ _ _ Hp); auto. lia. }
  assert (Hiq : forall n, iblk (fview s') q n = iblk (fview s) q n).
  { intros n. apply iblk_keep. intros Hn. destruct (A3 Hn). apply Hsame; auto. by apply (f_ind _ _ _ Hf). }
  split; [apply (file_ok_mono sb Hlay (fview s)); auto; apply Hp|]. split.
  2: { apply (apart_mono sb s ip s' q Hf); [apply Hp|apply Hp|done|by split_and!]. }
  intros i Hr%in_file_block. unfold fbyte. rewrite Hiq. destruct (_ =? 0) eqn:E; [done|]. bool_to_prop.
  f_equal. apply Hsame; [by apply (f_blk _ _ _ Hf)| |]; auto. intros E'. apply (A2 _ Hr E). symmetry. exact E'.
Qed.

(** C19: a file is a sequence of bytes.  [writei] of the bytes [l] at [off],
    from a kernel buffer or from user memory, is refused exactly when [off]
    is past the end or the file would grow too large, and then changes
    nothing; otherwise it writes a prefix of [l], all of it unless no block
    is free.  Afterwards [readi] at any place gives the old bytes with the
    prefix written over them, up to the new size; and every file that shares
    no block with this one keeps its bytes.  The transaction needs only the
    bitmap blocks, the indirect block, the inode's block and the blocks
    touched. *)
Theorem file_write_read kend sb ip src l off s W :
  0 < kend -> layout_ok sb -> writing sb ip W (S (nblk off (Z.of_nat (length l)))) s ->
  0 <= inum (geti s ip) < ninodes sb -> source_gives kend src l ->
  0 <= off < 4294967296 -> off + Z.of_nat (length l) < 4294967296 ->
  exists r src' s', writei ip src off (Z.of_nat (length l)) s = Ok (r, src', s') /\
    ((r = -1 /\ s' = s /\ (i_size (geti s ip) < off \/ MAXFILE * BS < off + Z.of_nat (length l))) \/
     exists j, r = Z.of_nat j /\ (j <= length l)%nat /\ ((j < length l)%nat -> disk_full sb s') /\
       let size := Z.max (i_size (geti s ip)) (off + Z.of_nat j) in
       (forall q n, 0 <= q < 4294967296 -> 0 <= n < 4294967296 -> q + n < 4294967296 ->
          exists s'', readi ip (KernelDst []) q n s' = Ok (read_len size q n,
            KernelDst (map (fun i => written (fbyte (fview s) (geti s ip)) off (take j l) (q + Z.of_nat i))
              (seq 0 (Z.to_nat (read_len size q n)))), s'')) /\
       (forall q, file_ok sb (fview s) q -> apart (fview s) (geti s ip) q ->
          forall i, in_file i -> fbyte (fview s') q i = fbyte (fview s) q i)).
Proof.
  intros Hk Hlay Hwr Hi Hg Ho Hon.
  destruct (writei_run sb Hlay (source_gives kend) (source_step kend Hk) ip src l off s W Hwr Hi Hg Ho Hon)
    as (r & src' & s' & E & [Hneg|(j & -> & Hj & Hp & Hd)]); exists r, src', s' || exists (Z.of_nat j), src', s'; (split; [done|]).
  { by left. }
  right. exists j. split; [done|]. split; [done|]. split; [done|]. cbn zeta. split.
  - intros q n Hq Hn Hqn. destruct (wp_wf _ _ _ _ _ _ Hp) as [W' Hw'].
    destruct (readi_run sb Hlay (fun d => exists g, d = KernelDst g)) with (ip := ip) (d := KernelDst []) (off := q) (n := n) (s := s') (W := W')
      as (r' & d' & s'' & E' & _ & [g ->] & Hcase); eauto.
    { intros d c [g ->]. cbn. eauto. } { apply Hp. }
    assert (Esz : i_size (geti s' ip) = Z.max (i_size (geti s ip)) (off + Z.of_nat j)).
    { rewrite (wp_inode _ _ _ _ _ _ Hp). cbn [i_size set_size]. by rewrite length_take, Nat.min_l by lia. }
    rewrite Esz in Hcase. destruct Hcase as [[-> Hf]|[_ (l1 & c & l2 & d1 & _ & Hf & Hc)]].
    2: { apply fed_kernel in Hf as ->. by cbn in Hc. }
    apply fed_kernel in Hf. rewrite app_nil_l in Hf. exists s''. rewrite E', Hf. do 4 f_equal. unfold fslice.
    apply map_ext_in. intros i Hin%in_seq. apply (wp_bytes _ _ _ _ _ _ Hp). unfold in_file.
    pose proof (f_size _ _ _ (wp_file _ _ _ _ _ _ Hp)) as Hs. rewrite Esz in Hs. unfold read_len in Hin. destruct (decide _); lia.
  - intros q Hf Ha i Hin. by apply (write_apart sb ip s off (take j l) s' q).
Qed.

(** C20: [readi] to user memory.  The file's bytes from [off] on, up to the
    end of the file, appear at the user's address and nothing else of the
    user's memory changes; or the result is -1 and the range contains an
    address that the user may not write.  The file system is not changed,
    and needs no room in the log. *)
Theorem readi_user kend sb ip pt va m fl G M off n s W :
  0 < kend -> layout_ok sb -> file_ok sb (fview s) (geti s ip) -> twf (store s) ∅ W ->
  as_inv kend m fl pt G M -> 0 <= va -> 0 <= off < 4294967296 -> 0 <= n < 4294967296 -> off + n < 4294967296 ->
  va + n < 18446744073709551616 ->
  let len := read_len (i_size (geti s ip)) off n in
  let bytes := fslice (fview s) (geti s ip) off (Z.to_nat len) in
  exists r d s', readi ip (UserDst pt va m) off n s = Ok (r, d, s') /\
    itable s' = itable s /\ twf (store s') ∅ W /\ (forall b, fview s' b = fview s b) /\
    ((r = len /\ exists m', d = UserDst pt (va + len) m' /\ copied kend m fl pt G M va bytes len m') \/
     (r = -1 /\ exists w, va <= w < va + len /\ ~ uwritable (pmem m) pt w)).
Proof.
  intros Hk Hlay Hf Hw Hinv Hva Ho Hn Hon Hvn len bytes.
  destruct (readi_run sb Hlay (dest_ok kend) (dest_step kend Hk) ip (UserDst pt va m) off n s W)
    as (r & d & s' & E & I & _ & Hcase); auto; [cbn; split; [lia|by exists fl, G, M]|].
  exists r, d, s'. split; [done|]. split; [apply I|]. split; [apply I|]. split; [apply I|].
  fold len in Hcase. fold bytes in Hcase. assert (Hl : 0 <= len <= n) by (unfold len, read_len; destruct (decide _); lia).
  assert (Hb : Z.of_nat (length bytes) = len) by (unfold bytes; rewrite length_fslice; lia).
  destruct Hcase as [[-> Hfed]|[-> Hcut]]; [left|right]; (split; [done|]).
  - destruct (fed_user kend Hk _ _ _ _ _ _ _ _ Hfed Hinv Hva) as (m' & -> & Hc & _); [lia|].
    rewrite Hb in *. by exists m'.
  - destruct (cut_user kend Hk _ _ _ _ _ _ _ _ Hcut Hinv Hva) as (w & Hr & Hnw); [lia|]. rewrite Hb in Hr. by exists w.
Qed.
End Props.

(** ** A small disk *)

(** 200 blocks: the log from 2 on, 16 inodes from 33, the bitmap in 35. *)
Definition small_sb : superblock := Superblock 270544960 200 164 16 30 2 33 35.
Definition small_bitmap : block := [255; 255; 255; 255; 15] ++ replicate 1019 0.
Definition small_disk : gmap Z block := {[35 := small_bitmap]}.
Definition small_inode : inode := Inode 1 1 1 (SleepLock true 7) true 2 0 0 1 0 (replicate 13 0).

Abbreviation bio := (bio_cache 7 1).
#[local] Instance small_tx : TxStore (log * bcache) := log_store (HC := bio).
#[local] Instance small_laws : TxLaws (log * bcache) :=
  log_store_laws (HC := bio) (HL := bio_laws 7 1) 2 10 ltac:(unfold NBUF; lia).

Definition small_fs : fs (log * bcache) := Fs small_sb [small_inode] (log1, binit small_disk).

Lemma small_length b : length (disk_block small_disk b) = BSIZE.
Proof.
  unfold disk_block, small_disk. destruct (decide (b = 35)) as [->|Hn].
  - rewrite lookup_singleton_eq. reflexivity.
  - rewrite lookup_singleton_ne by congruence. reflexivity.
Qed.

Lemma small_block b : b <> 35 -> disk_block small_disk b = zero_block.
Proof. intros Hn. unfold disk_block, small_disk. rewrite lookup_singleton_ne by congruence. done. Qed.

Lemma small_view b : fview small_fs b = disk_block small_disk b.
Proof. apply (binit_wf 7 1 small_disk); [lia|apply small_length]. Qed.

Lemma small_twf : twf (store small_fs) ∅ ∅.
Proof.
  destruct (binit_wf 7 1 small_disk) as (Hw & Hr & Hv & Hd & _); [lia|apply small_length|].
  split; cbn [fst snd small_fs store log1 start Log.size outstanding lh_block lh_n]; try done; try lia.
  - apply NoDup_nil_2.
  - by intros b ?%elem_of_nil.
  - intros j. unfold lh_at. cbn [lh_block log0 log1]. destruct (replicate _ 0 !! j) as [x|] eqn:E; simpl; [|lia].
    apply lookup_replicate in E as [-> _]. lia.
  - rewrite map_size_empty. lia.
Qed.

Lemma small_layout : layout_ok small_sb.
Proof.
  split; cbn; try lia.
  - unfold IBLOCK, IPB. cbn. intros. zlia.
  - unfold datastart, BPB. vm_compute; discriminate.
  - intros b Hb. split; [|lia]. unfold homeb, LOGDATA, LOGSIZE, MAXOPBLOCKS. cbn. lia.
Qed.

Lemma small_writing : writing small_sb 0 ∅ 5 small_fs.
Proof.
  split.
  - cbn. lia.
  - reflexivity.
  - intros b Hb. change (datastart small_sb) with 36 in Hb. unfold used. rewrite small_view.
    assert (BBLOCK b small_sb = 35) as -> by (unfold BBLOCK, BPB; cbn; zlia).
    assert (Hc : forallb (fun n => bit_set (disk_block small_disk 35) (Z.of_nat n mod BPB)) (seq 0 36) = true) by (vm_compute; reflexivity).
    rewrite forallb_forall in Hc. specialize (Hc (Z.to_nat b)). rewrite Z2Nat.id in Hc by lia. apply Hc, in_seq. lia.
  - assert (Hz : forall n, 0 <= n < MAXFILE -> iblk (fview small_fs) small_inode n = 0).
    { intros n Hn. unfold iblk. destruct (n <? 12) eqn:E; [|done]. bool_to_prop. unfold addr_at, small_inode. cbn [addrs].
      rewrite lookup_replicate_2 by lia. done. }
    change (geti small_fs 0) with small_inode. split.
    + reflexivity.
    + cbn [i_size small_inode]. unfold MAXFILE, BSIZE. lia.
    + intros n Hn Hne. by destruct (Hne (Hz n Hn)).
    + intros Hne. by destruct Hne.
    + intros n m Hn Hm Hne. by destruct (Hne (Hz n Hn)).
    + intros n Hn Hne. by destruct (Hne (Hz n Hn)).
    + intros n Hn. cbn [i_size small_inode]. unfold BSIZE. lia.
  - apply small_twf.
  - vm_compute. lia.
Qed.

Lemma file_write_read_witness :
  exists r src' s', writei 0 (KernelSrc [104; 105]) 0 2 small_fs = Ok (r, src', s') /\ r <> -1.
Proof.
  destruct (file_write_read 1 small_sb 0 (KernelSrc [104; 105]) [104; 105] 0 small_fs ∅) as (r & src' & s' & E & Hc).
  - lia.
  - exact small_layout.
  - destruct small_writing as [A1 A2 A3 A4 A5 A6]. split; auto. eapply budget_le; [exact A6|]. vm_compute. lia.
  - cbn. lia.
  - reflexivity.
  - lia.
  - cbn. lia.
  - exists r, src', s'. split; [exact E|]. destruct Hc as [(_ & _ & [Hc|Hc])|(j & -> & _)]; [cbn in Hc; lia|vm_compute in Hc; discriminate|lia].
Defined.

(** The same disk with a file of two bytes in block 40. *)
Definition full_disk : gmap Z block := {[35 := [255; 255; 255; 255; 15; 1] ++ replicate 1018 0; 40 := [104; 105] ++ replicate 1022 0]}.
Definition full_inode : inode := Inode 1 1 1 (SleepLock true 7) true 2 0 0 1 2 (40 :: replicate 12 0).
Definition full_fs : fs (log * bcache) := Fs small_sb [full_inode] (log1, binit full_disk).

Lemma full_length b : length (disk_block full_disk b) = BSIZE.
Proof.
  unfold disk_block, full_disk. destruct (decide (b = 35)) as [->|H1]; [rewrite lookup_insert_eq; reflexivity|rewrite lookup_insert_ne by congruence].
  destruct (decide (b = 40)) as [->|H2]; [rewrite lookup_singleton_eq; reflexivity|rewrite lookup_singleton_ne by congruence; reflexivity].
Qed.

Lemma full_view b : fview full_fs b = disk_block full_disk b.
Proof. apply (binit_wf 7 1 full_disk); [lia|apply full_length]. Qed.

Lemma full_twf : twf (store full_fs) ∅ ∅.
Proof.
  destruct (binit_wf 7 1 full_disk) as (Hw & Hr & Hv & Hd & _); [lia|apply full_length|].
  split; cbn [fst snd full_fs store log1 start Log.size outstanding lh_block lh_n]; try done; try lia.
  - apply NoDup_nil_2.
  - by intros b ?%elem_of_nil.
  - intros j. unfold lh_at. cbn [lh_block log0 log1]. destruct (replicate _ 0 !! j) as [x|] eqn:E; simpl; [|lia].
    apply lookup_replicate in E as [-> _]. lia.
  - rewrite map_size_empty. lia.
Qed.

Lemma full_file : file_ok small_sb (fview full_fs) full_inode.
Proof.
  assert (Hz : forall n, 0 <= n < MAXFILE -> iblk (fview full_fs) full_inode n = if decide (n = 0) then 40 else 0).
  { intros n Hn. unfold iblk. destruct (n <? 12) eqn:E; [|by rewrite decide_False by (bool_to_prop; lia)]. bool_to_prop. unfold addr_at, full_inode. cbn [addrs].
    destruct (decide (n = 0)) as [->|Hne]; [done|]. replace (Z.to_nat n) with (S (Z.to_nat (n - 1))) by lia.
    change ((40 :: replicate 12 0) !! S (Z.to_nat (n - 1))) with (replicate 12 0 !! Z.to_nat (n - 1)). by rewrite lookup_replicate_2 by lia. }
  assert (H40 : data_block small_sb (fview full_fs) 40) by (split; [by vm_compute|unfold used; rewrite full_view; by vm_compute]).
  split; try done.
  - intros n Hn. rewrite Hz by done. by case_decide.
  - intros n m Hn Hm. rewrite !Hz by done. repeat case_decide; lia.
  - intros n Hn Hlt. change (n * BS < 2) in Hlt. unfold BSIZE in Hlt. assert (n = 0) as -> by lia. rewrite Hz by (unfold MAXFILE; lia). by rewrite decide_True.
Qed.

Lemma full_bytes : fslice (fview full_fs) full_inode 0 2 = [104; 105].
Proof.
  assert (H : forall i, 0 <= i < 2 -> fbyte (fview full_fs) full_inode i = byte_at (disk_block full_disk 40) (i mod BS)).
  { intros i Hi. unfold fbyte. assert (i / BS = 0) as -> by (unfold BSIZE; zlia). change (iblk (fview full_fs) full_inode 0) with 40. by rewrite full_view. }
  unfold fslice. cbn [map seq]. rewrite !H by lia. vm_compute. reflexivity.
Qed.

(** The two bytes are read to a user address. *)
Lemma readi_user_witness :
  exists m root M a m' s', readi 0 (UserDst root 4094 m) 0 10 full_fs = Ok (2, UserDst root a m', s') /\
    ubyte (pmem m') M 4094 = Some 104 /\ ubyte (pmem m') M 4095 = Some 105.
Proof.
  destruct small_user as (m & fl & root & G & M & Hinv & Hw).
  destruct (readi_user small_end small_sb 0 root 4094 m fl G M 0 10 full_fs ∅) as (r & d & s' & E & _ & _ & _ & Hc).
  - reflexivity.
  - exact small_layout.
  - exact full_file.
  - exact full_twf.
  - exact Hinv.
  - lia.
  - lia.
  - lia.
  - lia.
  - lia.
  - destruct Hc as [(-> & m' & -> & Hc)|(_ & w & Hr & Hn)].
    + eexists m, root, M, _, m', s'. split; [exact E|]. rewrite !(cp_ubyte _ _ _ _ _ _ _ _ _ _ Hc). change (fslice _ _ _ _) with (fslice (fview full_fs) full_inode 0 2). rewrite full_bytes. split; reflexivity.
    + destruct Hn. apply Hw. change (read_len (i_size (geti full_fs 0)) 0 10) with 2 in Hr. lia.
Defined.
