(* ===== verification/FsDir.v ===== *)
(** * Directories of fs.c as maps from names to inode numbers

    A directory is a file of entries of 16 bytes.  [find_name] is the search
    over the list of its entries; [dirlookup] and [dirlink] are shown to
    search and to extend that list. *)
From S2P Require Import Prelude Cstring Riscv Kalloc Vm VmTheory UvmTheory CopyTheory UvmProps Block Bio BioTheory.
From S2P Require Import Log LogTheory LogCrash Fs FsTheory FsFile FsWrite FsProps.

(** ** Names *)

Lemma strncmp_l_cstr n : forall p q, strncmp_l p q n = 0 <-> cstr (take n p) = cstr (take n q).
Proof.
  induction n as [|n IH]; intros p q; [done|]. cbn [strncmp_l].
  destruct p as [|a p], q as [|b q]; simpl.
  - done.
  - cbn [Z.eqb negb andb]. destruct (b =? 0) eqn:Eb; bool_to_prop; [by subst|]. split; [lia|done].
  - destruct (a =? 0) eqn:Ea; cbn [negb andb]; bool_to_prop; [by subst|]. split; [lia|done].
  - destruct (a =? 0) eqn:Ea, (b =? 0) eqn:Eb, (a =? b) eqn:Eab; cbn [negb andb]; bool_to_prop; subst; try done;
      try (split; [lia|congruence]).
    rewrite IH. split; [by intros ->|by intros [=]].
Qed.

Lemma cstr_nonzero l : Forall (fun c => c <> 0) (cstr l).
Proof. induction l as [|a l IH]; cbn; [constructor|]. destruct (a =? 0) eqn:E; bool_to_prop; by constructor. Qed.

Lemma cstr_pad l n : Forall (fun c => c <> 0) l -> cstr (l ++ replicate n 0) = l.
Proof.
  induction 1 as [|a l Ha _ IH]; cbn; [by destruct n|]. rewrite (proj2 (Z.eqb_neq _ _) Ha). by f_equal.
Qed.

Lemma length_cstr l : (length (cstr l) <= length l)%nat.
Proof. induction l as [|a l IH]; cbn; [lia|]. destruct (a =? 0); cbn; lia. Qed.

Lemma length_strncpy_l t n : length (strncpy_l t n) = n.
Proof.
  unfold strncpy_l. rewrite length_app, length_replicate. pose proof (length_cstr (take n t)) as H. rewrite length_take in H. lia.
Qed.

Lemma cstr_strncpy t n : cstr (take n (strncpy_l t n)) = cstr (take n t).
Proof. rewrite take_ge by (rewrite length_strncpy_l; done). unfold strncpy_l. apply cstr_pad, cstr_nonzero. Qed.

(** The part of a name that counts: up to [DIRSIZ] bytes before a NUL. *)
Definition dname (name : list Z) : list Z := cstr (take DIRSIZ name).

Lemma namecmp_zero s t : namecmp s t = 0 <-> dname s = dname t.
Proof. apply strncmp_l_cstr. Qed.

Lemma length_mk_dirent num name : length (mk_dirent num name) = 16%nat.
Proof. unfold mk_dirent. rewrite length_app, length_le_bytes, length_strncpy_l. done. Qed.

Lemma de_inum_mk num name : 0 <= num < 65536 -> de_inum (mk_dirent num name) = num.
Proof.
  intros H. unfold de_inum, get16, mk_dirent, slice. rewrite drop_0, take_app_length' by (by rewrite length_le_bytes).
  rewrite le_val_bytes, u16_id by (change (256 ^ Z.of_nat 2) with 65536; pose proof (u16_range num); lia). done.
Qed.

Lemma de_name_mk num name : dname (de_name (mk_dirent num name)) = dname name.
Proof.
  unfold dname, de_name, mk_dirent, slice. rewrite drop_app_length' by (by rewrite length_le_bytes).
  rewrite take_take, Nat.min_id. apply cstr_strncpy.
Qed.

(** ** Entries *)

Definition entry (v : Z -> block) (p : inode) (k : nat) : list Z := fslice v p (16 * Z.of_nat k) 16.
Definition nents (p : inode) : nat := Z.to_nat (i_size p / 16).
Definition dirents (v : Z -> block) (p : inode) : list (list Z) := map (entry v p) (seq 0 (nents p)).

(** The entry that [dirlookup] looks for: the first one in use with the
    name. *)
Definition is_entry (name e : list Z) : bool := negb (de_inum e =? 0) && (namecmp name (de_name e) =? 0).
Definition find_name (name : list Z) (es : list (list Z)) : option (nat * list Z) := list_find (fun e => is_entry name e = true) es.
(** The number that a name has in a directory. *)
Definition names_inum (name : list Z) (es : list (list Z)) : option Z := de_inum ∘ snd <$> find_name name es.

(** The first unused entry, or the end, where [dirlink] puts a new one. *)
Definition free_entry (es : list (list Z)) : nat :=
  match list_find (fun e => de_inum e = 0) es with Some (k, _) => k | None => length es end.
Definition add_entry (e : list Z) (es : list (list Z)) : list (list Z) :=
  take (free_entry es) es ++ e :: drop (S (free_entry es)) es.

Lemma length_dirents v p : length (dirents v p) = nents p.
Proof. unfold dirents. by rewrite length_map, length_seq. Qed.

Lemma lookup_dirents v p k : (k < nents p)%nat -> dirents v p !! k = Some (entry v p k).
Proof. intros H. unfold dirents. rewrite list_lookup_fmap, lookup_seq_lt by done. done. Qed.

Lemma drop_dirents v p k : (k < nents p)%nat -> drop k (dirents v p) = entry v p k :: drop (S k) (dirents v p).
Proof. intros H. apply drop_S. by apply lookup_dirents. Qed.

Record dir_ok (sb : superblock) (v : Z -> block) (p : inode) : Prop := {
  d_file : file_ok sb v p;
  d_type : i_type p = T_DIR;
  d_size : i_size p mod 16 = 0
}.

Lemma nents_size sb v p : dir_ok sb v p -> i_size p = 16 * Z.of_nat (nents p) /\ Z.of_nat (nents p) <= 17152.
Proof.
  intros [Hf _ Hm]. pose proof (f_size _ _ _ Hf) as Hs. change (MAXFILE * BS) with 274432 in Hs. unfold nents.
  assert (i_size p = 16 * (i_size p / 16)) by zlia. lia.
Qed.

(** A name that is added is found, and the other names keep their numbers. *)
Lemma names_cons name e es : names_inum name (e :: es) = if is_entry name e then Some (de_inum e) else names_inum name es.
Proof.
  unfold names_inum, find_name. cbn [list_find]. destruct (is_entry name e) eqn:E.
  - rewrite decide_True by done. done.
  - rewrite decide_False by done. by destruct (list_find _ es) as [[k x]|].
Qed.

Lemma names_app name es es' : names_inum name (es ++ es') = match names_inum name es with Some n => Some n | None => names_inum name es' end.
Proof.
  induction es as [|e es IH]; [done|]. cbn [app]. rewrite !names_cons. by destruct (is_entry name e).
Qed.

Lemma names_none name es : find_name name es = None <-> names_inum name es = None.
Proof. unfold names_inum. by destruct (find_name name es). Qed.

Lemma add_entry_names num name es name' : 0 < num < 65536 -> names_inum name es = None ->
  names_inum name' (add_entry (mk_dirent num name) es) = if decide (dname name' = dname name) then Some num else names_inum name' es.
Proof.
  intros Hn Hnone. unfold add_entry. set (k := free_entry es).
  assert (He : forall x, is_entry x (mk_dirent num name) = bool_decide (dname x = dname name)).
  { intros x. unfold is_entry. rewrite de_inum_mk by lia. rewrite (proj2 (Z.eqb_neq num 0)) by lia. cbn [negb andb].
    apply eq_bool_prop_intro. rewrite !Is_true_true, Z.eqb_eq, bool_decide_eq_true, namecmp_zero, de_name_mk. done. }
  assert (Hgone : forall x, names_inum x es = match names_inum x (take k es) with Some n => Some n | None => names_inum x (drop (S k) es) end).
  { intros x. unfold k, free_entry. destruct (list_find _ es) as [[i e]|] eqn:E.
    - apply list_find_Some in E as (Hi & Hz & _). rewrite <- (take_drop_middle es i e Hi) at 1. rewrite names_app. destruct (names_inum x (take i es)); [done|].
      rewrite names_cons. unfold is_entry. by rewrite Hz.
    - rewrite take_ge, drop_ge by lia. by destruct (names_inum x es). }
  assert (Hsame : forall x, dname x = dname name -> names_inum x es = None).
  { intros x Ex. rewrite <- Hnone. unfold names_inum, find_name. f_equal. clear -Ex. induction es as [|e es IH]; [done|]. cbn [list_find].
    assert (is_entry x e = is_entry name e) as ->.
    { unfold is_entry. f_equal. apply eq_bool_prop_intro. by rewrite !Is_true_true, !Z.eqb_eq, !namecmp_zero, Ex. }
    by rewrite IH. }
  rewrite names_app, names_cons, He, de_inum_mk by lia. destruct (decide (dname name' = dname name)) as [E|E].
  - rewrite bool_decide_eq_true_2 by done. specialize (Hgone name'). rewrite (Hsame name' E) in Hgone. by destruct (names_inum name' (take k es)).
  - rewrite bool_decide_eq_false_2 by done. by rewrite <- Hgone.
Qed.

Lemma fbyte_view v v' p i : (forall b, v' b = v b) -> fbyte v' p i = fbyte v p i.
Proof. intros E. unfold fbyte. rewrite (iblk_keep v v' p) by auto. by rewrite E. Qed.

Lemma entry_view v v' p k : (forall b, v' b = v b) -> entry v' p k = entry v p k.
Proof. intros E. apply fslice_ext. intros i _. by apply fbyte_view. Qed.

Lemma dirents_view v v' p : (forall b, v' b = v b) -> dirents v' p = dirents v p.
Proof. intros E. apply map_ext_in. intros k _. by apply entry_view. Qed.

(** ** [iget] *)

Section Iget.
Context {T : Type} {HT : TxStore T}.
Implicit Types s : fs T.

Definition cached (dev num : Z) (p : inode) : Prop := 0 < i_ref p /\ i_dev p = dev /\ inum p = num.

(** What [iget] makes of the entry it returns. *)
Definition reuse (dev num : Z) (p : inode) : inode :=
  Inode dev num 1 (i_lock p) false (i_type p) (i_major p) (i_minor p) (nlink p) (i_size p) (addrs p).

Lemma iget_find_spec k ip dev num empty s :
  match iget_find k ip dev num empty s with
  | inl jp => (ip <= jp < ip + k)%nat /\ cached dev num (geti s jp)
  | inr o => (forall jp, (ip <= jp < ip + k)%nat -> ~ cached dev num (geti s jp)) /\
      match empty with
      | Some _ => o = empty
      | None => match o with
                | Some jp => (ip <= jp < ip + k)%nat /\ i_ref (geti s jp) = 0
                | None => forall jp, (ip <= jp < ip + k)%nat -> i_ref (geti s jp) <> 0
                end
      end
  end.
Proof.
  revert ip empty. induction k as [|k IH]; intros ip empty; cbn [iget_find].
  { split; [intros; lia|]. destruct empty; [done|intros; lia]. }
  destruct (_ && _) eqn:E.
  { apply andb_prop in E as [[E1 E2]%andb_prop E3]. bool_to_prop. split; [lia|done]. }
  assert (Hno : ~ cached dev num (geti s ip)).
  { intros (H1 & H2 & H3). rewrite (proj2 (Z.ltb_lt _ _) H1), H2, H3, !Z.eqb_refl in E. done. }
  set (e' := match empty with None => _ | _ => _ end). specialize (IH (S ip) e').
  destruct (iget_find k (S ip) dev num e' s) as [jp|o].
  { destruct IH as [Hr Hc]. split; [lia|done]. }
  destruct IH as [Hn Hm]. split.
  { intros jp Hj. destruct (decide (jp = ip)) as [->|]; [done|]. apply Hn. lia. }
  destruct empty as [x|]; [done|]. unfold e' in Hm. destruct (i_ref (geti s ip) =? 0) eqn:Ez; bool_to_prop.
  { subst o. split; [lia|done]. }
  destruct o as [jp|].
  { destruct Hm as [Hr Hz]. split; [lia|done]. }
  intros jp Hj. destruct (decide (jp = ip)) as [->|]; [done|]. apply Hm. lia.
Qed.

(** [iget] returns the entry of the inode, or takes an unused one. *)
Lemma iget_run dev num s :
  (exists ip, (ip < NINODE)%nat /\ (cached dev num (geti s ip) \/ i_ref (geti s ip) = 0)) ->
  exists ip f, (ip < NINODE)%nat /\ iget dev num s = Ok (ip, seti ip f s) /\
    ((cached dev num (geti s ip) /\ f = (fun p => set_ref (s32 (i_ref p + 1)) p)) \/
     ((forall jp, (jp < NINODE)%nat -> ~ cached dev num (geti s jp)) /\ i_ref (geti s ip) = 0 /\ f = reuse dev num)).
Proof.
  intros (ip0 & H0 & Hc). unfold iget. pose proof (iget_find_spec NINODE 0 dev num None s) as H.
  destruct (iget_find NINODE 0 dev num None s) as [ip|[ip|]]; cbn [Nat.add] in H.
  - destruct H as [Hr Hcc]. eexists ip, _. split; [lia|]. split; [reflexivity|]. by left.
  - destruct H as (Hn & Hr & Hz). eexists ip, _. split; [lia|]. split; [reflexivity|]. right. split; [|done]. intros jp Hj. apply Hn. lia.
  - destruct H as [Hn Hz]. destruct Hc as [Hc|Hc]; [by destruct (Hn ip0 ltac:(lia))|by destruct (Hz ip0 ltac:(lia))].
Qed.
End Iget.

(** ** [dirlookup] *)

Section Dir.
Context {T : Type} {HT : TxStore T} {HL : TxLaws T}.
Implicit Types s : fs T.
Context (sb : superblock) (Hlay : layout_ok sb).

Lemma file_ok_view v v' p : (forall b, v' b = v b) -> file_ok sb v p -> file_ok sb v' p.
Proof.
  intros E Hf. apply (file_ok_mono sb Hlay v); auto.
  - intros n. apply iblk_keep. auto.
  - intros b _. unfold used. by rewrite E.
Qed.

Lemma dir_ok_view v v' p : (forall b, v' b = v b) -> dir_ok sb v p -> dir_ok sb v' p.
Proof. intros E [Hf Ht Hs]. split; auto. by eapply file_ok_view. Qed.

(** One entry. *)
Lemma read_dirent_run dp k s0 W s :
  dir_ok sb (fview s0) (geti s0 dp) -> in_store s0 s (fview s0) ∅ W -> (k < nents (geti s0 dp))%nat ->
  exists s', read_dirent dp (16 * Z.of_nat k) s = Ok (16, entry (fview s0) (geti s0 dp) k, s') /\ in_store s0 s' (fview s0) ∅ W.
Proof.
  intros Hd I Hk. destruct (nents_size _ _ _ Hd) as [Esz Hn]. assert (Hg : geti s dp = geti s0 dp) by apply (geti_in _ _ _ _ _ _ I).
  destruct (readi_run sb Hlay (fun d => exists g, d = KernelDst g)) with (ip := dp) (d := KernelDst []) (off := 16 * Z.of_nat k) (n := 16) (s := s) (W := W)
    as (r & d & s' & E & I' & [g ->] & Hcase); eauto; try lia.
  { intros d c [g ->]. cbn. eauto. } { rewrite Hg. apply (file_ok_view (fview s0)); [apply I|apply Hd]. } { apply I. }
  assert (Hl : read_len (i_size (geti s dp)) (16 * Z.of_nat k) 16 = 16) by (rewrite Hg; unfold read_len; rewrite decide_True; lia).
  rewrite Hl in Hcase. exists s'. unfold read_dirent. rewrite E. cbn [mbind outcome_bind].
  destruct Hcase as [[-> Hf]|[_ (l1 & c & l2 & d1 & _ & Hf & Hc)]]; [|apply fed_kernel in Hf as ->; by cbn in Hc].
  apply fed_kernel in Hf. injection Hf as ->. split.
  - do 3 f_equal. rewrite Hg. unfold entry. apply fslice_ext. intros i _. apply fbyte_view, I.
  - eapply in_store_ext; [exact (in_store_trans _ _ _ _ _ _ _ _ _ I I')|apply I].
Qed.

(** [dirlookup] continues with [iget] on the entry that [find_name] gives. *)
Definition lookup_result (dp : nat) (name : list Z) (i : nat) (o : option (nat * list Z)) s : outcome (option (nat * Z) * fs T) :=
  match o with
  | None => Ok (None, s)
  | Some (j, e) => '(ip, s) ← iget (i_dev (geti s dp)) (de_inum e) s; Ok (Some (ip, 16 * Z.of_nat (i + j)), s)
  end.

Lemma dirlookup_loop_run fuel dp name i s0 W s :
  dir_ok sb (fview s0) (geti s0 dp) -> in_store s0 s (fview s0) ∅ W -> (nents (geti s0 dp) - i <= fuel)%nat -> (i <= nents (geti s0 dp))%nat ->
  exists s', in_store s0 s' (fview s0) ∅ W /\
    dirlookup_loop fuel dp name (16 * Z.of_nat i) s = lookup_result dp name i (find_name name (drop i (dirents (fview s0) (geti s0 dp)))) s'.
Proof.
  intros Hd. destruct (nents_size _ _ _ Hd) as [Esz Hn]. set (p := geti s0 dp) in *. revert i s.
  induction fuel as [|fuel IH]; intros i s I Hf Hi; cbn [dirlookup_loop]; rewrite (geti_in _ _ _ _ _ _ I); fold p.
  { rewrite (proj2 (Z.ltb_ge _ _)) by lia. exists s. split; [done|]. rewrite drop_ge by (rewrite length_dirents; lia). done. }
  destruct (_ <? i_size p) eqn:E; bool_to_prop.
  2: { exists s. split; [done|]. rewrite drop_ge by (rewrite length_dirents; lia). done. }
  assert (Hk : (i < nents p)%nat) by lia. destruct (read_dirent_run dp i s0 W s Hd I Hk) as (s1 & -> & I1). cbn [mbind outcome_bind].
  change (negb (16 =? 16)) with false. cbv iota. fold p. rewrite drop_dirents by done. set (e := entry (fview s0) p i).
  assert (Hnext : is_entry name e = false -> exists s', in_store s0 s' (fview s0) ∅ W /\ dirlookup_loop fuel dp name (16 * Z.of_nat i + 16) s1 =
    lookup_result dp name i (find_name name (e :: drop (S i) (dirents (fview s0) p))) s').
  { intros Hne. destruct (IH (S i) s1 I1 ltac:(lia) ltac:(lia)) as (s' & I' & E'). exists s'. split; [done|].
    replace (16 * Z.of_nat i + 16) with (16 * Z.of_nat (S i)) by lia. rewrite E'. unfold find_name. cbn [list_find].
    rewrite decide_False by (by rewrite Hne). destruct (list_find _ (drop (S i) _)) as [[j x]|]; [|done]. cbn [fmap option_fmap option_map prod_map fst snd lookup_result].
    unfold lookup_result. destruct (iget _ _ s') as [[ip s'']| | |]; try done. cbn [mbind outcome_bind]. do 4 f_equal. unfold id, fst, snd. cbn. f_equal. lia. }
  unfold is_entry in Hnext. destruct (de_inum e =? 0) eqn:Ez; cbn [negb andb] in Hnext; [by apply Hnext|].
  destruct (namecmp name (de_name e) =? 0) eqn:Ec; [|by apply Hnext]. exists s1. split; [done|].
  unfold find_name. cbn [list_find]. rewrite decide_True by (unfold is_entry; by rewrite Ez, Ec). cbn [lookup_result]. by rewrite Nat.add_0_r.
Qed.

Lemma dirlookup_run dp name s W :
  dir_ok sb (fview s) (geti s dp) -> twf (store s) ∅ W ->
  exists s', in_store s s' (fview s) ∅ W /\ dirlookup dp name s = lookup_result dp name 0 (find_name name (dirents (fview s) (geti s dp))) s'.
Proof.
  intros Hd Hw. unfold dirlookup. rewrite (d_type _ _ _ Hd), Z.eqb_refl. cbn [negb].
  destruct (dirlookup_loop_run (Z.to_nat (i_size (geti s dp) / 16 + 1)) dp name 0 s W s Hd) as (s' & I & E).
  { by apply in_store_refl. } { unfold nents. lia. } { lia. }
  exists s'. split; [done|]. change (16 * Z.of_nat 0) with 0 in E. by rewrite E, drop_0.
Qed.

(** ** [dirlink] *)

Lemma dirlink_find_run fuel dp i s0 W s :
  dir_ok sb (fview s0) (geti s0 dp) -> in_store s0 s (fview s0) ∅ W -> (nents (geti s0 dp) - i <= fuel)%nat -> (i <= nents (geti s0 dp))%nat ->
  exists s', in_store s0 s' (fview s0) ∅ W /\
    dirlink_find fuel dp (16 * Z.of_nat i) s = Ok (16 * Z.of_nat (i + free_entry (drop i (dirents (fview s0) (geti s0 dp)))), s').
Proof.
  intros Hd. destruct (nents_size _ _ _ Hd) as [Esz Hn]. set (p := geti s0 dp) in *. revert i s.
  induction fuel as [|fuel IH]; intros i s I Hf Hi; cbn [dirlink_find]; rewrite (geti_in _ _ _ _ _ _ I); fold p.
  { rewrite (proj2 (Z.ltb_ge _ _)) by lia. exists s. split; [done|]. rewrite drop_ge by (rewrite length_dirents; lia). by rewrite Nat.add_0_r. }
  destruct (_ <? i_size p) eqn:E; bool_to_prop.
  2: { exists s. split; [done|]. rewrite drop_ge by (rewrite length_dirents; lia). by rewrite Nat.add_0_r. }
  assert (Hk : (i < nents p)%nat) by lia. destruct (read_dirent_run dp i s0 W s Hd I Hk) as (s1 & -> & I1). cbn [mbind outcome_bind].
  change (negb (16 =? 16)) with false. cbv iota. fold p. rewrite drop_dirents by done. set (e := entry (fview s0) p i).
  unfold free_entry. cbn [list_find length]. destruct (de_inum e =? 0) eqn:Ez; bool_to_prop.
  { exists s1. split; [done|]. rewrite decide_True by done. by rewrite Nat.add_0_r. }
  rewrite decide_False by done. destruct (IH (S i) s1 I1 ltac:(lia) ltac:(lia)) as (s' & I' & E'). exists s'. split; [done|].
  replace (16 * Z.of_nat i + 16) with (16 * Z.of_nat (S i)) by lia. rewrite E'. unfold free_entry.
  destruct (list_find _ (drop (S i) _)) as [[j x]|]; cbn; do 3 f_equal; lia.
Qed.

(** The table of inodes has an entry to spare, and no count is about to
    overflow. *)
Record table_room s : Prop := {
  tr_len : length (itable s) = NINODE;
  tr_free : exists ip, (ip < NINODE)%nat /\ i_ref (geti s ip) = 0;
  tr_ref : forall ip, 0 <= i_ref (geti s ip) < 2147483647
}.

(** [iput] of an inode that [iget] has just returned takes the reference
    back, and never frees the inode. *)
Lemma iget_iput me dev num s : table_room s ->
  exists ip s1 s2, iget dev num s = Ok (ip, s1) /\ iput me ip s1 = Ok s2 /\ fsb s2 = fsb s /\ store s2 = store s /\
    table_room s2 /\ forall jp, 0 < i_ref (geti s jp) -> geti s2 jp = geti s jp.
Proof.
  intros [Hlen (ip0 & Hip0 & Hz0) Hr]. destruct (iget_run dev num s) as (ip & f & Hip & E & Hcase); [exists ip0; auto|].
  rewrite <- Hlen in Hip. exists ip. eexists _, (seti ip (fun p => set_ref (s32 (i_ref p - 1)) p) (seti ip f s)). split; [exact E|].
  assert (Hg : geti (seti ip f s) ip = f (geti s ip)) by (by apply geti_seti).
  split. { unfold iput. rewrite Hg. pose proof (Hr ip). destruct Hcase as [[[Hc _] ->]|(_ & Hz & ->)]; cbn [i_ref i_valid set_ref reuse].
    - rewrite s32_id by lia. rewrite (proj2 (Z.eqb_neq _ _)) by lia. reflexivity.
    - rewrite andb_false_r. reflexivity. }
  assert (Hsame : i_ref (geti (seti ip (fun p => set_ref (s32 (i_ref p - 1)) p) (seti ip f s)) ip) = i_ref (geti s ip)).
  { rewrite geti_seti by (cbn [seti itable]; by rewrite length_alter). rewrite Hg. pose proof (Hr ip). destruct Hcase as [[[Hc _] ->]|(_ & Hz & ->)]; cbn [i_ref set_ref reuse]; [|by rewrite Hz].
    rewrite (s32_id (_ + 1)) by lia. rewrite s32_id; lia. }
  split; [done|]. split; [done|]. split; [split|].
  - cbn [seti itable]. by rewrite !length_alter.
  - exists ip0. split; [done|]. destruct (decide (ip0 = ip)) as [->|]; [by rewrite Hsame|]. by rewrite !geti_seti_ne.
  - intros jp. destruct (decide (jp = ip)) as [->|]; [by rewrite Hsame|]. by rewrite !geti_seti_ne.
  - intros jp Hj. destruct (decide (jp = ip)) as [->|]; [|by rewrite !geti_seti_ne]. rewrite geti_seti by (cbn [seti itable]; by rewrite length_alter). rewrite Hg.
    destruct Hcase as [[[Hc _] ->]|(_ & Hz & _)]; [|lia]. pose proof (Hr ip). cbn [i_ref set_ref]. rewrite (s32_id (_ + 1)) by lia. rewrite s32_id by lia.
    replace (i_ref (geti s ip) + 1 - 1) with (i_ref (geti s ip)) by lia. by destruct (geti s ip).
Qed.

Lemma writing_in dp W n s s' : in_store s s' (fview s) ∅ W -> writing sb dp W n s -> writing sb dp W n s'.
Proof.
  intros I [H1 H2 H3 H4 H5 H6]. pose proof (geti_in _ _ _ _ _ dp I) as Hg. split.
  - by rewrite (in_tab _ _ _ _ _ I).
  - by rewrite (in_sb _ _ _ _ _ I).
  - intros b Hb. unfold used. rewrite (in_view _ _ _ _ _ I). by apply H3.
  - rewrite Hg. apply (file_ok_view (fview s)); [apply I|done].
  - apply I.
  - by rewrite Hg.
Qed.

(** A write of 16 bytes at a multiple of 16 is done at once, or not at all. *)
Lemma writei_whole dp src off s r src' s' :
  writei dp src off 16 s = Ok (r, src', s') -> 0 <= off -> off mod 16 = 0 -> r = -1 \/ r = 0 \/ r = 16.
Proof.
  unfold writei. intros E Ho Hm. destruct (_ || _); [injection E as <- _ _; auto|].
  destruct (_ <? _); [injection E as <- _ _; auto|]. change (Z.to_nat 16) with (S 15) in E. revert E. generalize 15%nat as f. intros f E. cbn [writei_loop] in E. change (0 <? 16) with true in E. cbv iota in E.
  destruct (bmap dp _ s) as [[a s1]| | |]; cbn [mbind outcome_bind] in E; try discriminate E.
  destruct (a =? 0); [cbn [mbind outcome_bind] in E; destruct (iupdate _ _); cbn [mbind outcome_bind] in E; try discriminate E; injection E as <- _ _; auto|].
  destruct (bread_ a s1) as [[h s2]| | |]; cbn [mbind outcome_bind] in E; try discriminate E.
  assert (Hmin : Z.min (16 - 0) (BS - off mod BS) = 16) by (change BS with 1024; zlia). rewrite Hmin in E.
  destruct (either_copyin src 16) as [[[q l] src1]| | |]; cbn [mbind outcome_bind] in E; try discriminate E.
  destruct (q =? -1).
  - destruct (brelse_ _ _); cbn [mbind outcome_bind] in E; try discriminate E. destruct (iupdate _ _); cbn [mbind outcome_bind] in E; try discriminate E. injection E as <- _ _. auto.
  - destruct (log_write_ _ _); cbn [mbind outcome_bind] in E; try discriminate E. destruct (brelse_ _ _); cbn [mbind outcome_bind] in E; try discriminate E.
    change (0 + 16) with 16 in E. destruct f; cbn [writei_loop] in E; change (16 <? 16) with false in E; cbv iota in E; cbn [mbind outcome_bind] in E; destruct (iupdate _ _); cbn [mbind outcome_bind] in E; try discriminate E; injection E as <- _ _; auto.
Qed.

(** An entry in a block of the file is always written. *)
Lemma writei_mapped dp e off s W r src' s' :
  writei dp (KernelSrc e) off 16 s = Ok (r, src', s') -> file_ok sb (fview s) (geti s dp) -> twf (store s) ∅ W ->
  0 <= off -> off mod 16 = 0 -> off / BS < MAXFILE -> iblk (fview s) (geti s dp) (off / BS) <> 0 -> r <> 0.
Proof.
  intros E Hf Hw Ho Hm Hb Hn. destruct (bmap_found sb Hlay dp (off / BS) s W Hf Hw) as (s1 & Eb & _); [split; [by apply Z.div_pos|done]|done|].
  revert E. unfold writei. destruct (_ || _); [by intros [= <- _ _]|]. destruct (_ <? _); [by intros [= <- _ _]|].
  change (Z.to_nat 16) with (S 15). generalize 15%nat as f. intros f E. cbn [writei_loop] in E. change (0 <? 16) with true in E. cbv iota in E.
  rewrite Eb in E. cbn [mbind outcome_bind] in E. rewrite (proj2 (Z.eqb_neq _ _)) in E by done.
  destruct (bread_ _ s1) as [[h s2]| | |]; cbn [mbind outcome_bind] in E; try discriminate E.
  assert (Hmin : Z.min (16 - 0) (BS - off mod BS) = 16) by (change BS with 1024; zlia). rewrite Hmin in E.
  cbn [either_copyin mbind outcome_bind Z.eqb] in E.
  destruct (log_write_ _ _); cbn [mbind outcome_bind] in E; try discriminate E. destruct (brelse_ _ _); cbn [mbind outcome_bind] in E; try discriminate E.
  change (0 + 16) with 16 in E. destruct f; cbn [writei_loop] in E; change (16 <? 16) with false in E; cbv iota in E; cbn [mbind outcome_bind] in E; destruct (iupdate _ _); cbn [mbind outcome_bind] in E; try discriminate E; by injection E as <- _ _.
Qed.

Lemma free_entry_le es : (free_entry es <= length es)%nat.
Proof.
  unfold free_entry. destruct (list_find _ es) as [[i x]|] eqn:E; [|lia]. apply list_find_Some in E as (Hi & _). apply lookup_lt_Some in Hi. lia.
Qed.

Lemma lookup_add_entry e es k : add_entry e es !! k = if decide (k = free_entry es) then Some e else es !! k.
Proof.
  unfold add_entry. pose proof (free_entry_le es) as Hle.
  set (i := free_entry es) in *. destruct (decide (k = i)) as [->|Hne].
  { rewrite lookup_app_r by (rewrite length_take; lia). rewrite length_take, Nat.min_l by done. by rewrite Nat.sub_diag. }
  destruct (decide (k < i)%nat).
  - rewrite lookup_app_l by (rewrite length_take; lia). by rewrite lookup_take_lt.
  - rewrite lookup_app_r by (rewrite length_take; lia). rewrite length_take, Nat.min_l by done.
    replace (k - i)%nat with (S (k - S i)) by lia.
    change ((e :: drop (S i) es) !! S (k - S i)) with (drop (S i) es !! (k - S i)%nat). rewrite lookup_drop. f_equal. lia.
Qed.

(** The entries of a directory after [writei] has written one of them. *)
Lemma dirents_written dp s i l s' : dir_ok sb (fview s) (geti s dp) -> writei_post sb dp s (16 * Z.of_nat i) l s' ->
  (i <= nents (geti s dp))%nat -> l = [] \/ length l = 16%nat ->
  dir_ok sb (fview s') (geti s' dp) /\
  forall k, dirents (fview s') (geti s' dp) !! k = if decide (k = i /\ l <> []) then Some l else dirents (fview s) (geti s dp) !! k.
Proof.
  intros Hd Hp Hi Hl. destruct (nents_size _ _ _ Hd) as [Esz _]. pose proof (wp_inode _ _ _ _ _ _ Hp) as Ei.
  assert (Esz' : i_size (geti s' dp) = Z.max (i_size (geti s dp)) (16 * Z.of_nat i + Z.of_nat (length l))) by (by rewrite Ei).
  assert (Hd' : dir_ok sb (fview s') (geti s' dp)).
  { split; [apply (wp_file _ _ _ _ _ _ Hp)|rewrite Ei; apply (d_type _ _ _ Hd)|rewrite Esz', Esz]. destruct Hl as [->| ->]; [rewrite Z.max_l by (cbn [length]; lia)|replace (Z.max _ _) with (16 * Z.max (Z.of_nat (nents (geti s dp))) (Z.of_nat i + 1)) by lia];
      rewrite Z.mul_comm; by apply Z.mod_mul. }
  split; [done|]. destruct (nents_size _ _ _ Hd') as [Esz2 Hmax].
  assert (En : nents (geti s' dp) = if decide (l = []) then nents (geti s dp) else Nat.max (nents (geti s dp)) (S i)).
  { destruct Hl as [->|Hl]; [rewrite decide_True by done; cbn in Esz'; lia|]. rewrite decide_False by (by intros ->). lia. }
  intros k. destruct (decide (k < nents (geti s' dp))%nat) as [Hk|Hk].
  2: { rewrite lookup_ge_None_2 by (rewrite length_dirents; lia). rewrite En in Hk.
       destruct (decide (l = [])); [rewrite decide_False by naive_solver|rewrite decide_False by lia]; rewrite lookup_ge_None_2 by (rewrite length_dirents; lia); done. }
  rewrite lookup_dirents by done.
  assert (Hb : forall j, 0 <= j < 16 -> fbyte (fview s') (geti s' dp) (16 * Z.of_nat k + j) = written (fbyte (fview s) (geti s dp)) (16 * Z.of_nat i) l (16 * Z.of_nat k + j)).
  { intros j Hj. apply (wp_bytes _ _ _ _ _ _ Hp). unfold in_file. change (MAXFILE * BS) with 274432. lia. }
  destruct (decide (k = i /\ l <> [])) as [[-> Hne]|Hne].
  - destruct Hl as [->|Hl]; [done|]. f_equal. apply (list_eq_same_length _ _ 16); [done|by unfold entry; rewrite length_fslice|].
    intros j x y Hj. unfold entry. rewrite lookup_fslice by done. intros [= <-] Hy. rewrite Hb by lia. unfold written. rewrite decide_True by lia.
    replace (16 * Z.of_nat i + Z.of_nat j - 16 * Z.of_nat i) with (Z.of_nat j) by lia. rewrite Nat2Z.id. by apply nth_lookup_Some.
  - rewrite lookup_dirents.
    2: { rewrite En in Hk. destruct (decide (l = [])); [done|]. destruct (decide (k = i)); [by destruct Hne|lia]. }
    f_equal. apply fslice_ext. intros j Hj. rewrite Hb by lia. unfold written. clear En. destruct (decide _) as [Hr|]; [|done].
    destruct Hl as [->|Hl]; [cbn in Hr; lia|]. assert (k = i) by lia. destruct Hne. split; [done|]. by intros ->.
Qed.

(** A directory of the greatest size, with every entry in use. *)
Definition full_dir (es : list (list Z)) : Prop := 16 * Z.of_nat (length es) = MAXFILE * BS /\ Forall (fun e => de_inum e <> 0) es.

(** Every entry is in use, and the block for the next one is not allocated. *)
Definition needs_block (v : Z -> block) (p : inode) : Prop :=
  Forall (fun e => de_inum e <> 0) (dirents v p) /\ iblk v p (16 * Z.of_nat (nents p) / BS) = 0.

Lemma free_entry_full es : Forall (fun e => de_inum e <> 0) es -> free_entry es = length es.
Proof.
  intros Hf. unfold free_entry. destruct (list_find _ es) as [[i x]|] eqn:E; [|done].
  apply list_find_Some in E as (Hi & Hx & _). by destruct (proj1 (Forall_lookup _ _) Hf i x Hi).
Qed.

Lemma free_entry_end es : free_entry es = length es -> Forall (fun e => de_inum e <> 0) es.
Proof.
  unfold free_entry. destruct (list_find _ es) as [[i x]|] eqn:E; [|by apply list_find_None in E].
  apply list_find_Some in E as (Hi & _). apply lookup_lt_Some in Hi. lia.
Qed.

(** What is left of the state around a directory that has been changed. *)
Record dir_after (dp : nat) s s' : Prop := {
  da_sb : fsb s' = fsb s;
  da_wf : exists W, twf (store s') ∅ W;
  da_dir : dir_ok sb (fview s') (geti s' dp);
  da_room : table_room s';
  da_dev : i_dev (geti s' dp) = i_dev (geti s dp);
  da_ref : i_ref (geti s' dp) = i_ref (geti s dp)
}.

Lemma table_room_only dp s s' : table_room s -> only_inode dp (geti s' dp) s s' -> i_ref (geti s' dp) = i_ref (geti s dp) -> table_room s'.
Proof.
  intros [Hl (ip & Hip & Hz) Hr] [_ Ho] Hd.
  assert (Hsame : forall jp, i_ref (geti s' jp) = i_ref (geti s jp)).
  { intros jp. destruct (decide (jp = dp)) as [->|Hne]; [done|]. unfold geti at 1. rewrite Ho, list_lookup_alter_ne by done. done. }
  split.
  - rewrite Ho. by rewrite length_alter.
  - exists ip. by rewrite Hsame.
  - intros jp. rewrite Hsame. apply Hr.
Qed.

Lemma table_room_in s s' v H W : table_room s -> in_store s s' v H W -> table_room s'.
Proof.
  intros [Hl (ip & Hip & Hz) Hr] I. split.
  - by rewrite (in_tab _ _ _ _ _ I).
  - exists ip. by rewrite (geti_in _ _ _ _ _ _ I).
  - intros jp. rewrite (geti_in _ _ _ _ _ _ I). apply Hr.
Qed.

(** The write fails for lack of a block only if it needs one. *)
Lemma unwritten_needs dp e s0 W s src s' :
  dir_ok sb (fview s0) (geti s0 dp) -> in_store s0 s (fview s0) ∅ W ->
  writei dp (KernelSrc e) (16 * Z.of_nat (free_entry (dirents (fview s0) (geti s0 dp)))) 16 s = Ok (Z.of_nat 0, src, s') ->
  needs_block (fview s0) (geti s0 dp).
Proof.
  intros Hd I E. set (es := dirents (fview s0) (geti s0 dp)) in *. set (k := free_entry es) in *. destruct (nents_size _ _ _ Hd) as [Esz Hn].
  pose proof (free_entry_le es) as Hk. fold k in Hk. unfold es in Hk. rewrite length_dirents in Hk.
  pose proof (geti_in _ _ _ _ _ dp I) as Hg. assert (Hd1 : dir_ok sb (fview s) (geti s dp)) by (rewrite Hg; apply (dir_ok_view (fview s0)); [apply I|done]).
  assert (Hi : forall m, iblk (fview s) (geti s dp) m = iblk (fview s0) (geti s0 dp) m) by (intros m; rewrite Hg; apply iblk_keep; intros _; apply I).
  assert (Hz : k = nents (geti s0 dp) /\ iblk (fview s0) (geti s0 dp) (16 * Z.of_nat k / BS) = 0).
  { destruct (decide (iblk (fview s0) (geti s0 dp) (16 * Z.of_nat k / BS) = 0)) as [Hz|Hz].
    - split; [|done]. destruct (decide (k < nents (geti s0 dp))%nat) as [Hlt|]; [|lia].
      destruct (f_full _ _ _ (d_file _ _ _ Hd) (16 * Z.of_nat k / BS)); [change BS with 1024; zlia|change BS with 1024; rewrite Esz; zlia|done].
    - destruct (decide (16 * Z.of_nat k / BS < MAXFILE)) as [Hb|Hb].
      + destruct (writei_mapped dp e (16 * Z.of_nat k) s W _ _ _ E); [apply Hd1|apply I|lia|zlia|done|by rewrite Hi|done].
      + revert E. unfold writei. destruct (_ || _); [done|]. rewrite u32_id by lia. rewrite (proj2 (Z.ltb_lt _ _)); [done|]. unfold MAXFILE in *. change BS with 1024 in *. cbn in *. zlia. }
  destruct Hz as [Ek Hz]. split; [|by rewrite <- Ek]. apply free_entry_end. fold es. fold k. unfold es. by rewrite length_dirents.
Qed.

(** A new entry means that there was room for it. *)
Lemma added_room es e dp s' : dir_ok sb (fview s') (geti s' dp) -> dirents (fview s') (geti s' dp) = add_entry e es -> ~ full_dir es.
Proof.
  intros Hd' E [Hl Hf]. apply (f_equal length) in E. unfold add_entry in E. rewrite (free_entry_full es Hf), length_dirents in E.
  rewrite length_app, take_ge, drop_ge in E by lia. cbn [length] in E. destruct (nents_size _ _ _ Hd') as [_ Hn]. change (MAXFILE * BS) with 274432 in Hl. lia.
Qed.

Lemma added_block dp e s0 W s s' :
  dir_ok sb (fview s0) (geti s0 dp) -> in_store s0 s (fview s0) ∅ W -> length e = 16%nat ->
  writei_post sb dp s (16 * Z.of_nat (free_entry (dirents (fview s0) (geti s0 dp)))) e s' ->
  ~ (needs_block (fview s0) (geti s0 dp) /\ disk_full sb s0).
Proof.
  intros Hd I He Hp [[Hf Hz] Hdf]. rewrite (free_entry_full _ Hf), length_dirents in Hp. set (k := nents (geti s0 dp)) in *.
  destruct (nents_size _ _ _ Hd) as [Esz Hn]. fold k in Esz, Hn. pose proof (geti_in _ _ _ _ _ dp I) as Hg.
  assert (Esz' : i_size (geti s' dp) = 16 * Z.of_nat k + 16) by (rewrite (wp_inode _ _ _ _ _ _ Hp), Hg; cbn [i_size set_size set_addrs]; rewrite He, Esz; lia).
  pose proof (f_size _ _ _ (wp_file _ _ _ _ _ _ Hp)) as Hs. rewrite Esz' in Hs. change (MAXFILE * BS) with 274432 in Hs.
  assert (Hm : 0 <= 16 * Z.of_nat k / BS < MAXFILE) by (unfold MAXFILE; change BS with 1024; cbn; zlia).
  assert (Hnz : iblk (fview s') (geti s' dp) (16 * Z.of_nat k / BS) <> 0) by (apply (f_full _ _ _ (wp_file _ _ _ _ _ _ Hp)); [lia|rewrite Esz'; change BS with 1024; zlia]).
  destruct (wp_new _ _ _ _ _ _ Hp _ Hm Hnz) as [E|E].
  - rewrite E, Hg in Hnz. apply Hnz. rewrite <- Hz. apply iblk_keep. intros _. apply I.
  - destruct (data_block_range sb Hlay _ _ (f_blk _ _ _ (wp_file _ _ _ _ _ _ Hp) _ Hm Hnz)) as (Hr & _).
    specialize (Hdf _ Hr). unfold used in E, Hdf. rewrite (in_view _ _ _ _ _ I) in E. congruence.
Qed.

(** The write of the new entry. *)
Lemma dirlink_write dp name num s0 W s :
  writing sb dp W 2 s0 -> dir_ok sb (fview s0) (geti s0 dp) -> 0 <= inum (geti s0 dp) < ninodes sb -> table_room s0 ->
  in_store s0 s (fview s0) ∅ W ->
  let es := dirents (fview s0) (geti s0 dp) in
  exists r src s', writei dp (KernelSrc (mk_dirent num name)) (16 * Z.of_nat (free_entry es)) 16 s = Ok (r, src, s') /\ dir_after dp s0 s' /\
    let es' := dirents (fview s') (geti s' dp) in
    ((r <> 16 /\ es' = es /\ (full_dir es \/ needs_block (fview s0) (geti s0 dp) /\ disk_full sb s')) \/
     (r = 16 /\ ~ full_dir es /\ ~ (needs_block (fview s0) (geti s0 dp) /\ disk_full sb s0) /\ es' = add_entry (mk_dirent num name) es)).
Proof.
  intros Hwr Hd Hi Htr I es. set (k := free_entry es). set (e := mk_dirent num name). pose proof (writing_in _ _ _ _ _ I Hwr) as Hw1.
  pose proof (geti_in _ _ _ _ _ dp I) as Hg. destruct (nents_size _ _ _ Hd) as [Esz Hn]. pose proof (free_entry_le es) as Hk. fold k in Hk. unfold es in Hk. rewrite length_dirents in Hk.
  assert (He : length e = 16%nat) by apply length_mk_dirent.
  assert (Hd1 : dir_ok sb (fview s) (geti s dp)) by (rewrite Hg; apply (dir_ok_view (fview s0)); [apply I|done]).
  assert (Hes : dirents (fview s) (geti s dp) = es) by (rewrite Hg; apply dirents_view; apply I).
  destruct (writei_run sb Hlay (fun src l => src = KernelSrc l)) with (ip := dp) (src := KernelSrc e) (l := e) (off := 16 * Z.of_nat k) (s := s) (W := W)
    as (r & src & s' & E & Hcase).
  { intros src c l _ ->. exists 0. eexists. cbn [either_copyin]. rewrite Nat2Z.id, take_app_length, drop_app_length. done. }
  { rewrite He. assert (nblk (16 * Z.of_nat k) (Z.of_nat 16) = 1%nat) as ->; [|done]. unfold nblk. rewrite decide_False by lia. change BS with 1024. zlia. }
  { by rewrite Hg. } { done. } { lia. } { rewrite He. lia. }
  rewrite He in E. change (Z.of_nat 16) with 16 in E. exists r, src, s'. split; [exact E|].
  assert (Hafter : forall l, l = [] \/ l = e -> writei_post sb dp s (16 * Z.of_nat k) l s' -> dir_after dp s0 s' /\
    forall x, dirents (fview s') (geti s' dp) !! x = if decide (x = k /\ l <> []) then Some l else es !! x).
  { intros l Hl Hp. destruct (dirents_written dp s k l s' Hd1 Hp) as [Hd2 Hent]; [by rewrite Hg|destruct Hl as [->| ->]; auto|].
    pose proof (wp_inode _ _ _ _ _ _ Hp) as Ei. rewrite Hg in Ei. split; [|intros x; by rewrite <- Hes].
    assert (Hr : i_ref (geti s' dp) = i_ref (geti s dp)) by (rewrite Ei, Hg; done).
    split; [|apply (wp_wf _ _ _ _ _ _ Hp)|done| |by rewrite Ei|by rewrite Hr, Hg].
    - destruct (wp_only _ _ _ _ _ _ Hp) as [-> _]. apply I.
    - apply (table_room_only dp s); [by eapply table_room_in|apply (wp_only _ _ _ _ _ _ Hp)|done]. }
  destruct Hcase as [(-> & -> & Hfull)|(j & -> & Hj & Hp & Hdf)].
  - split; [split; [apply I|by exists W; apply I|done|by eapply table_room_in|by rewrite Hg|by rewrite Hg]|]. left. split; [lia|]. rewrite Hes. split; [done|]. left.
    rewrite Hg, He, Esz in Hfull. change (MAXFILE * BS) with 274432 in *. assert (k = nents (geti s0 dp)) as Ek by lia.
    split; [change (MAXFILE * BS) with 274432; unfold es; rewrite length_dirents; lia|]. apply free_entry_end. fold k. unfold es. by rewrite length_dirents.
  - assert (j = 0%nat \/ j = 16%nat) as [-> | ->].
    { destruct (writei_whole _ _ _ _ _ _ _ E) as [?|[?|?]]; lia || zlia. }
    + destruct (Hafter []) as [Ha Hent]; [auto|by rewrite take_0 in Hp|]. split; [done|]. left. split; [lia|]. split.
      { apply list_eq. intros x. rewrite Hent. rewrite decide_False; [done|]. by intros [_ ?]. }
      right. split; [|apply Hdf; lia]. by apply (unwritten_needs dp e s0 W s src s').
    + destruct (Hafter e) as [Ha Hent]; [auto|rewrite take_ge in Hp by lia; exact Hp|]. rewrite take_ge in Hp by lia.
      assert (Eadd : dirents (fview s') (geti s' dp) = add_entry e es); [|split; [done|]; right; split_and!; [done|exact (added_room es e dp s' (da_dir _ _ _ Ha) Eadd)|by apply (added_block dp e s0 W s s')|done]].
      apply list_eq. intros x. rewrite Hent, lookup_add_entry. fold k. destruct (decide (x = k)) as [->|Hx].
      * rewrite decide_True; [done|]. split; [done|]. intros E'. by rewrite E' in He.
      * rewrite decide_False; [done|]. by intros [? _].
Qed.

(** [dirlookup] gives a reference to the inode whose number the name has. *)
Lemma dirlookup_finds dp name s W :
  dir_ok sb (fview s) (geti s dp) -> twf (store s) ∅ W -> table_room s ->
  exists o s', dirlookup dp name s = Ok (o, s') /\
    match names_inum name (dirents (fview s) (geti s dp)) with
    | None => o = None /\ itable s' = itable s
    | Some num => exists ip off, o = Some (ip, off) /\ (ip < NINODE)%nat /\ cached (i_dev (geti s dp)) num (geti s' ip)
    end.
Proof.
  intros Hd Hw Htr. destruct (dirlookup_run dp name s W Hd Hw) as (s1 & I & E). unfold names_inum. rewrite E.
  destruct (find_name name _) as [[j e]|]; cbn [lookup_result fmap option_fmap option_map compose snd].
  2: { exists None, s1. split; [done|]. split; [done|]. apply I. }
  destruct (table_room_in _ _ _ _ _ Htr I) as [Hlen (ip0 & Hip0 & Hz) Hr].
  destruct (iget_run (i_dev (geti s1 dp)) (de_inum e) s1) as (ip & f & Hip & -> & Hcase); [exists ip0; auto|]. cbn [mbind outcome_bind].
  eexists _, _. split; [reflexivity|]. eexists ip, _. split; [reflexivity|]. split; [done|]. rewrite <- Hlen in Hip. rewrite geti_seti by done.
  rewrite (geti_in _ _ _ _ _ dp I) in Hcase. pose proof (Hr ip). destruct Hcase as [[(H1 & H2 & H3) ->]|(_ & _ & ->)]; split_and!; cbn [i_ref i_dev inum set_ref reuse]; auto; try lia.
  rewrite s32_id; lia.
Qed.

Lemma dirlink_run me dp name num s W :
  writing sb dp W 2 s -> dir_ok sb (fview s) (geti s dp) -> 0 <= inum (geti s dp) < ninodes sb -> 0 < i_ref (geti s dp) -> table_room s ->
  let es := dirents (fview s) (geti s dp) in
  exists r s', dirlink me dp name num s = Ok (r, s') /\ dir_after dp s s' /\
    let es' := dirents (fview s') (geti s' dp) in
    ((r = -1 /\ es' = es /\ (names_inum name es <> None \/ full_dir es \/ needs_block (fview s) (geti s dp) /\ disk_full sb s')) \/
     (r = 0 /\ names_inum name es = None /\ ~ full_dir es /\ ~ (needs_block (fview s) (geti s dp) /\ disk_full sb s) /\
      es' = add_entry (mk_dirent num name) es)).
Proof.
  intros Hwr Hd Hi Href Htr es. unfold dirlink. destruct (dirlookup_run dp name s W Hd (wr_wf _ _ _ _ _ Hwr)) as (s1 & I1 & ->). fold es.
  pose proof (geti_in _ _ _ _ _ dp I1) as Hg1. pose proof (table_room_in _ _ _ _ _ Htr I1) as Htr1.
  destruct (find_name name es) as [[j e]|] eqn:Ef; cbn [lookup_result].
  - destruct (iget_iput me (i_dev (geti s1 dp)) (de_inum e) s1 Htr1) as (ip & s2 & s3 & -> & E3 & B1 & B2 & B3 & B4). cbn [mbind outcome_bind].
    rewrite E3. cbn [mbind outcome_bind]. exists (-1), s3. split; [done|].
    assert (Hg : geti s3 dp = geti s dp) by (rewrite B4 by (by rewrite Hg1); exact Hg1).
    assert (Hv : forall b, fview s3 b = fview s b) by (intros b; unfold fview at 1; rewrite B2; apply I1).
    split; [split|].
    + rewrite B1. apply I1.
    + exists W. rewrite B2. apply I1.
    + rewrite Hg. by apply (dir_ok_view (fview s)).
    + done.
    + by rewrite Hg.
    + by rewrite Hg.
    + left. split; [done|]. split; [rewrite Hg; by apply dirents_view|]. left. unfold names_inum. rewrite Ef. done.
  - cbn [mbind outcome_bind]. rewrite Hg1.
    destruct (dirlink_find_run (Z.to_nat (i_size (geti s dp) / 16 + 1)) dp 0 s W s1 Hd I1) as (s2 & I2 & E2); [unfold nents; lia|lia|].
    change (16 * Z.of_nat 0) with 0 in E2. rewrite E2. cbn [mbind outcome_bind]. rewrite drop_0. fold es. cbn [Nat.add].
    destruct (dirlink_write dp name num s W s2 Hwr Hd Hi Htr I2) as (r & src & s' & E' & Ha & Hcase). fold es in E', Hcase. rewrite E'. cbn [mbind outcome_bind].
    assert (Hnone : names_inum name es = None) by (by apply names_none).
    destruct Hcase as [(Hr & He & Hf)|(-> & He1 & He2 & He)].
    + rewrite (proj2 (Z.eqb_neq r 16)) by done. cbn [negb]. exists (-1), s'. split; [done|]. split; [done|]. left. auto.
    + change (negb (16 =? 16)) with false. cbv iota. exists 0, s'. split; [done|]. split; [done|]. right. auto.
Qed.
End Dir.

(** * Directories: what [dirlink] and [dirlookup] promise *)

Section Props.
Context {T : Type} {HT : TxStore T} {HL : TxLaws T}.
Implicit Types s : fs T.

End Props.

(** ** An empty directory on the small disk *)

#[local] Existing Instance small_tx.
#[local] Existing Instance small_laws.

Definition small_dir : inode := set_type T_DIR small_inode.
Definition small_dir_fs : fs (log * bcache) := Fs small_sb (small_dir :: replicate 49 inode0) (log1, binit small_disk).

Lemma small_dir_file : file_ok small_sb (fview small_dir_fs) small_dir.
Proof. destruct (wr_file _ _ _ _ _ small_writing) as [F1 F2 F3 F4 F5 F6 F7]. by split. Qed.

Lemma small_dir_writing : writing small_sb 0 ∅ 2 small_dir_fs.
Proof.
  destruct small_writing as [A1 A2 A3 A4 A5 A6]. split; auto.
  - cbn. lia.
  - exact small_dir_file.
  - eapply budget_le; [exact A6|lia].
Qed.

Lemma small_table_room : table_room small_dir_fs.
Proof.
  split; [done|exists 1%nat; split; [unfold NINODE; lia|done]|]. intros ip.
  assert (Hf : Forall (fun p => 0 <= i_ref p < 2147483647) (itable small_dir_fs)) by (apply Forall_cons; split; [cbn; lia|apply Forall_replicate; cbn; lia]).
  unfold geti. destruct (itable small_dir_fs !! ip) as [p|] eqn:E; [|cbn; lia]. exact (proj1 (Forall_lookup _ _) Hf ip p E).
Qed.

