(* ===== verification/FsPath.v ===== *)
(** * Path names: [namex] walks the tree of directories on the disk

    [disk_inode] is an inode as the disk has it and [resolve] follows names
    from inode to inode.  [itab] relates the table of inodes in memory to the
    disk and to the number of references that are held to each inode. *)
From S2P Require Import Prelude Cstring Riscv Kalloc Vm Block Bio Fs FsTheory FsFile FsWrite FsDir.

(** ** The tree on the disk *)

Definition disk_inode (sb : superblock) (v : Z -> block) (num : Z) : inode :=
  dinode_get (v (IBLOCK num sb)) (dinode_off num) inode0.

(** Every inode in use is a file or directory with a link to it, and the
    entries of directories refer to inodes in use. *)
Record tree_ok (sb : superblock) (v : Z -> block) : Prop := {
  t_file : forall num, 0 < num < ninodes sb -> i_type (disk_inode sb v num) <> 0 ->
    file_ok sb v (disk_inode sb v num) /\ nlink (disk_inode sb v num) <> 0;
  t_dir : forall num, 0 < num < ninodes sb -> i_type (disk_inode sb v num) = T_DIR ->
    i_size (disk_inode sb v num) mod 16 = 0 /\
    forall e, e ∈ dirents v (disk_inode sb v num) -> de_inum e <> 0 ->
      0 < de_inum e < ninodes sb /\ i_type (disk_inode sb v (de_inum e)) <> 0
}.

(** The elements of a path: what is between slashes, cut to [DIRSIZ]
    characters. *)
Fixpoint split_at (c : Z) (l : list Z) : list (list Z) :=
  match l with
  | [] => [[]]
  | x :: l' =>
      if x =? c then [] :: split_at c l'
      else match split_at c l' with w :: ws => (x :: w) :: ws | [] => [[x]] end
  end.
Definition elems (path : list Z) : list (list Z) := take DIRSIZ <$> filter (fun w => w <> []) (split_at slash path).

(** The inode that a list of names leads to. *)
Fixpoint resolve (sb : superblock) (v : Z -> block) (num : Z) (names : list (list Z)) : option Z :=
  match names with
  | [] => Some num
  | n :: names' =>
      if i_type (disk_inode sb v num) =? T_DIR then
        match names_inum n (dirents v (disk_inode sb v num)) with
        | Some num' => resolve sb v num' names'
        | None => None
        end
      else None
  end.

(** ** [skipelem] *)

Lemma elems_slash path : elems (slash :: path) = elems path.
Proof. unfold elems. cbn [split_at]. rewrite Z.eqb_refl. cbn [filter]. done. Qed.

Lemma elems_skip path : elems (skip_slashes path) = elems path.
Proof.
  induction path as [|c p IH]; [done|]. cbn [skip_slashes]. destruct (c =? slash) eqn:E; [|done]. bool_to_prop. subst c. by rewrite elems_slash.
Qed.

Lemma split_span path : let '(e, r) := span_elem path in
  split_at slash path = match r with [] => [e] | _ :: r' => e :: split_at slash r' end /\
  (r = [] \/ exists r', r = slash :: r') /\ (length r <= length path)%nat.
Proof.
  induction path as [|c p IH]; [by cbn; auto|]. cbn [span_elem split_at]. destruct (c =? slash) eqn:E; bool_to_prop.
  { subst c. split; [done|]. split; [eauto|done]. }
  destruct (span_elem p) as [e r]. destruct IH as (-> & Hr & Hl). split; [by destruct r|]. split; [done|]. cbn. lia.
Qed.

Lemma skip_slashes_head path c p : skip_slashes path = c :: p -> c <> slash.
Proof. induction path as [|x q IH]; [done|]. cbn [skip_slashes]. destruct (x =? slash) eqn:E; [done|]. bool_to_prop. by intros [= <- _]. Qed.

Lemma length_skip_slashes path : (length (skip_slashes path) <= length path)%nat.
Proof. induction path as [|c p IH]; [done|]. cbn [skip_slashes]. destruct (c =? slash); cbn; lia. Qed.

Lemma skipelem_spec path :
  match skipelem path with
  | None => elems path = []
  | Some (rest, name) => elems path = name :: elems rest /\ (length rest < length path)%nat /\ (rest = [] <-> elems rest = [])
  end.
Proof.
  unfold skipelem. rewrite <- (elems_skip path). pose proof (length_skip_slashes path) as Hlp. destruct (skip_slashes path) as [|c p] eqn:Es; [done|].
  pose proof (skip_slashes_head _ _ _ Es) as Hc. pose proof (split_span (c :: p)) as H. cbn [span_elem] in *. rewrite (proj2 (Z.eqb_neq _ _) Hc) in *.
  destruct (span_elem p) as [e r] eqn:Esp. destruct H as (Hs & Hr & Hl).
  assert (Hcut : (if (DIRSIZ <=? length (c :: e))%nat then take DIRSIZ (c :: e) else c :: e) = take DIRSIZ (c :: e)).
  { destruct (_ <=? _)%nat eqn:E; [done|]. apply Nat.leb_gt in E. by rewrite take_ge by lia. }
  rewrite Hcut. rewrite elems_skip. split; [|split].
  - unfold elems at 1. rewrite Hs. destruct Hr as [->|[r' ->]].
    + rewrite filter_cons_True by done. done.
    + rewrite filter_cons_True by done. done.
  - assert (length r <= length p)%nat. { pose proof (split_span p) as Hp. rewrite Esp in Hp. apply Hp. }
    pose proof (length_skip_slashes r). cbn [length] in *. lia.
  - split; [intros E; rewrite <- elems_skip, E; done|]. intros E. destruct (skip_slashes r) as [|x q] eqn:Ex; [done|].
    pose proof (skip_slashes_head _ _ _ Ex) as Hx. rewrite <- elems_skip, Ex in E. unfold elems in E.
    pose proof (split_span (x :: q)) as H. cbn [span_elem] in H. rewrite (proj2 (Z.eqb_neq _ _) Hx) in H. destruct (span_elem q) as [e' r']. destruct H as (Hs' & _).
    rewrite Hs' in E. destruct r'; rewrite filter_cons_True in E by done; done.
Qed.

(** ** The table of inodes *)

(** The part of an inode that the disk has. *)
Definition same_node (p q : inode) : Prop := i_type p = i_type q /\ nlink p = nlink q /\ i_size p = i_size q /\ addrs p = addrs q.

Definition refs (A : gmap Z Z) (num : Z) : Z := default 0 (A !! num).
Definition incr (num : Z) (A : gmap Z Z) : gmap Z Z := <[num := refs A num + 1]> A.
Definition decr (num : Z) (A : gmap Z Z) : gmap Z Z := if decide (refs A num = 1) then delete num A else <[num := refs A num - 1]> A.

Lemma decr_incr num A : A !! num <> Some 0 -> decr num (incr num A) = A.
Proof.
  intros H. unfold decr, incr, refs. rewrite lookup_insert_eq. cbn [default]. destruct (A !! num) as [r|] eqn:E; cbn [default from_option].
  - rewrite decide_False by (unfold default; cbn; intros ?; apply H; f_equal; lia). rewrite insert_insert_eq. apply insert_id. rewrite E. f_equal. unfold default. cbn. lia.
  - rewrite decide_True by done. rewrite delete_insert_id; done.
Qed.

Lemma refs_incr num A n : refs (incr num A) n = refs A n + (if decide (n = num) then 1 else 0).
Proof.
  unfold incr. unfold refs at 1. destruct (decide (n = num)) as [->|]; [by rewrite lookup_insert_eq|]. rewrite lookup_insert_ne by done. unfold refs. lia.
Qed.

Lemma size_incr num A : (size A <= size (incr num A) <= S (size A))%nat.
Proof. unfold incr. destruct (A !! num) eqn:E; [rewrite map_size_insert_Some by (by rewrite E); lia|rewrite map_size_insert_None by done; lia]. Qed.

Definition positive (A : gmap Z Z) : Prop := forall n r, A !! n = Some r -> 0 < r.

Lemma incr_comm n m A : n <> m -> incr n (incr m A) = incr m (incr n A).
Proof.
  intros Hne. unfold incr, refs. rewrite !lookup_insert_ne by done. by apply insert_insert_ne.
Qed.

Lemma decr_incr_other n m A : n <> m -> decr n (incr m A) = incr m (decr n A).
Proof.
  intros Hne. unfold decr, incr, refs. rewrite (lookup_insert_ne A m n) by done. destruct (decide _).
  - rewrite lookup_delete_ne by done. by rewrite delete_insert_ne.
  - rewrite (lookup_insert_ne A n m) by done. by apply insert_insert_ne.
Qed.

(** The reference to a directory is given up once the next inode is had. *)
Lemma decr_incr_next n m A : positive A -> decr n (incr m (incr n A)) = incr m A.
Proof.
  intros Hp. destruct (decide (n = m)) as [->|Hne].
  - apply decr_incr. unfold incr. rewrite lookup_insert_eq. unfold refs. destruct (A !! m) as [r|] eqn:E; cbn; intros [= Hz]. pose proof (Hp m r E). lia.
  - rewrite decr_incr_other by done. f_equal. apply decr_incr. intros E. pose proof (Hp n 0 E). lia.
Qed.

Lemma refs_pos A n : positive A -> 0 <= refs A n.
Proof. intros Hp. unfold refs. destruct (A !! n) as [r|] eqn:E; [|done]. pose proof (Hp n r E). unfold default. cbn. lia. Qed.

Section Path.
Context {T : Type} {HT : TxStore T} {HL : TxLaws T}.
Implicit Types s : fs T.
Context (sb : superblock) (Hlay : layout_ok sb) (me : Z).

(** No block is held, and the contents are [v]. *)
Record at_rest (v : Z -> block) (W : gset Z) s : Prop := {
  ar_sb : fsb s = sb;
  ar_wf : twf (store s) ∅ W;
  ar_view : forall b, fview s b = v b
}.

(** [A] has the references to each inode; entry [L] is locked by the current
    process and all others are unlocked. *)
Record itab (v : Z -> block) s (A : gmap Z Z) (L : option nat) : Prop := {
  it_len : length (itable s) = NINODE;
  it_in : forall ip, 0 < i_ref (geti s ip) -> A !! inum (geti s ip) = Some (i_ref (geti s ip));
  it_of : forall num r, A !! num = Some r -> 0 < r /\ exists ip, (ip < NINODE)%nat /\ inum (geti s ip) = num /\ i_ref (geti s ip) = r;
  it_uniq : forall ip jp, 0 < i_ref (geti s ip) -> 0 < i_ref (geti s jp) -> inum (geti s ip) = inum (geti s jp) -> ip = jp;
  it_ref : forall ip, 0 <= i_ref (geti s ip);
  it_dev : forall ip, 0 < i_ref (geti s ip) -> i_dev (geti s ip) = ROOTDEV;
  it_num : forall num r, A !! num = Some r -> 0 < num < ninodes sb /\ i_type (disk_inode sb v num) <> 0;
  it_disk : forall ip, 0 < i_ref (geti s ip) -> i_valid (geti s ip) = true -> same_node (geti s ip) (disk_inode sb v (inum (geti s ip)));
  it_lock : forall ip, (ip < NINODE)%nat -> if decide (L = Some ip) then i_lock (geti s ip) = SleepLock true me else locked (i_lock (geti s ip)) = false
}.

Lemma itab_slot v s A L num : itab v s A L -> num ∈ dom A \/ (size A < NINODE)%nat ->
  exists ip, (ip < NINODE)%nat /\ (cached ROOTDEV num (geti s ip) \/ i_ref (geti s ip) = 0).
Proof.
  intros Ht [[r Hr]%elem_of_dom|Hs].
  { destruct (it_of _ _ _ _ Ht num r Hr) as (Hr0 & ip & Hip & Hn & Hi). exists ip. split; [done|]. left. split; [lia|]. split; [apply (it_dev _ _ _ _ Ht); lia|done]. }
  destruct (decide (Exists (fun ip => i_ref (geti s ip) = 0) (seq 0 NINODE))) as [He|He].
  { apply Exists_exists in He as (ip & Hip & Hz). apply elem_of_seq in Hip. exists ip. split; [lia|by right]. }
  exfalso. apply not_Exists_Forall in He; [|typeclasses eauto].
  assert (Hall : forall ip, (ip < NINODE)%nat -> 0 < i_ref (geti s ip)).
  { intros ip Hip. rewrite Forall_forall in He. specialize (He ip). pose proof (it_ref _ _ _ _ Ht ip). assert (i_ref (geti s ip) <> 0); [apply He, elem_of_seq; lia|lia]. }
  assert (Hnd : NoDup ((fun ip => inum (geti s ip)) <$> seq 0 NINODE)).
  { apply NoDup_fmap_2_strong; [|apply NoDup_seq]. intros x y Hx%elem_of_seq Hy%elem_of_seq. apply (it_uniq _ _ _ _ Ht); apply Hall; lia. }
  assert (Hsub : list_to_set ((fun ip => inum (geti s ip)) <$> seq 0 NINODE) ⊆ dom A).
  { intros x. rewrite elem_of_list_to_set, list_elem_of_fmap. intros (ip & -> & Hip%elem_of_seq). apply elem_of_dom. eexists. apply (it_in _ _ _ _ Ht), Hall. lia. }
  apply subseteq_size in Hsub. rewrite size_list_to_set, length_fmap, length_seq, size_dom in Hsub by done. lia.
Qed.

(** One entry changes and still stands for the same inode. *)
Lemma itab_update v s A L A' L' ip f : itab v s A L -> (ip < NINODE)%nat ->
  let p := geti s ip in
  (forall n, n <> inum (f p) -> A' !! n = A !! n) ->
  (0 < i_ref p -> inum (f p) = inum p) -> (i_ref p = 0 -> A !! inum (f p) = None) ->
  0 <= i_ref (f p) -> A' !! inum (f p) = (if decide (i_ref (f p) = 0) then None else Some (i_ref (f p))) ->
  (0 < i_ref (f p) -> i_dev (f p) = ROOTDEV /\ 0 < inum (f p) < ninodes sb /\ i_type (disk_inode sb v (inum (f p))) <> 0) ->
  (0 < i_ref (f p) -> i_valid (f p) = true -> same_node (f p) (disk_inode sb v (inum (f p)))) ->
  (forall jp, jp <> ip -> (L' = Some jp <-> L = Some jp)) ->
  (if decide (L' = Some ip) then i_lock (f p) = SleepLock true me else locked (i_lock (f p)) = false) ->
  itab v (seti ip f s) A' L'.
Proof.
  intros [I1 I2 I3 I4 I5 I6 I7 I8 I9] Hip p Hother Hnum Hnew Hr HA Hdev Hdisk HLk Hlock.
  assert (Hg : geti (seti ip f s) ip = f p) by (apply geti_seti; by rewrite I1).
  assert (Hne : forall jp, jp <> ip -> geti (seti ip f s) jp = geti s jp) by (intros jp Hj; by apply geti_seti_ne).
  assert (Hdiff : forall jp, jp <> ip -> 0 < i_ref (geti s jp) -> inum (geti s jp) <> inum (f p)).
  { intros jp Hj Hrj E. destruct (decide (i_ref p = 0)) as [Hz|Hz].
    - specialize (Hnew Hz). rewrite <- E, I2 in Hnew by done. done.
    - assert (H0 : 0 < i_ref p) by (pose proof (I5 ip : 0 <= i_ref p); lia). apply Hj, I4; auto. rewrite E. by apply Hnum. }
  assert (Hcase : forall (P : nat -> inode -> Prop), (forall jp, jp <> ip -> P jp (geti s jp)) -> P ip (f p) -> forall jp, P jp (geti (seti ip f s) jp)).
  { intros P H1 H2 jp. destruct (decide (jp = ip)) as [->|Hj]; [by rewrite Hg|rewrite Hne by done; auto]. }
  split.
  - cbn [seti itable]. by rewrite length_alter.
  - apply (Hcase (fun _ q => 0 < i_ref q -> A' !! inum q = Some (i_ref q))).
    + intros jp Hj Hrj. rewrite Hother by auto. auto.
    + intros H0. rewrite HA, decide_False by lia. done.
  - intros n r. destruct (decide (n = inum (f p))) as [->|Hn].
    + rewrite HA. destruct (decide _); [done|]. intros [= <-]. split; [lia|]. exists ip. by rewrite Hg.
    + rewrite Hother by done. intros Hn'. destruct (I3 n r Hn') as (Hr0 & jp & Hj & Hnj & Hrj). split; [done|]. exists jp.
      destruct (decide (jp = ip)) as [->|Hji]; [|by rewrite Hne]. exfalso. fold p in Hnj, Hrj. apply Hn. rewrite Hnum by lia. done.
  - intros ip1 ip2. destruct (decide (ip1 = ip)) as [->|H1], (decide (ip2 = ip)) as [->|H2]; rewrite ?Hg, ?Hne by done; auto.
    + intros _ Hr2 E. by destruct (Hdiff ip2 H2 Hr2).
    + intros Hr1 _ E. by destruct (Hdiff ip1 H1 Hr1).
  - apply (Hcase (fun _ q => 0 <= i_ref q)); auto.
  - apply (Hcase (fun _ q => 0 < i_ref q -> i_dev q = ROOTDEV)); auto. intros H0. by apply Hdev.
  - intros n r. destruct (decide (n = inum (f p))) as [->|Hn]; [|rewrite Hother by done; apply I7].
    rewrite HA. destruct (decide _); [done|]. intros _. apply Hdev. lia.
  - apply (Hcase (fun _ q => 0 < i_ref q -> i_valid q = true -> same_node q (disk_inode sb v (inum q)))); auto.
  - apply (Hcase (fun jp q => (jp < NINODE)%nat -> if decide (L' = Some jp) then i_lock q = SleepLock true me else locked (i_lock q) = false)); auto.
    intros jp Hj Hl. specialize (I9 jp Hl). destruct (HLk jp Hj). destruct (decide (L' = Some jp)), (decide (L = Some jp)); tauto.
Qed.

(** The entries that are in use stay what they are. *)
Definition keeps_entries s s' : Prop := forall jp, 0 < i_ref (geti s jp) -> inum (geti s' jp) = inum (geti s jp) /\ 0 < i_ref (geti s' jp).

Lemma iget_itab v s A L num : itab v s A L -> num ∈ dom A \/ (size A < NINODE)%nat ->
  refs A num < 2147483647 -> 0 < num < ninodes sb -> i_type (disk_inode sb v num) <> 0 ->
  exists ip f, (ip < NINODE)%nat /\ iget ROOTDEV num s = Ok (ip, seti ip f s) /\ itab v (seti ip f s) (incr num A) L /\
    inum (geti (seti ip f s) ip) = num /\ 0 < i_ref (geti (seti ip f s) ip) /\ keeps_entries s (seti ip f s).
Proof.
  intros Ht Hs Hr Hn Hty. destruct (iget_run ROOTDEV num s (itab_slot _ _ _ _ _ Ht Hs)) as (ip & f & Hip & E & Hcase). exists ip, f. split; [done|]. split; [exact E|].
  assert (Hg : geti (seti ip f s) ip = f (geti s ip)) by (apply geti_seti; by rewrite (it_len _ _ _ _ Ht)).
  pose proof (it_lock _ _ _ _ Ht ip Hip) as Hlk. rewrite Hg.
  destruct Hcase as [[(H0 & Hd & Hi) ->]|(Hno & Hz & ->)].
  - pose proof (it_in _ _ _ _ Ht ip H0) as HA. rewrite Hi in HA. assert (Er : refs A num = i_ref (geti s ip)) by (unfold refs; by rewrite HA).
    assert (Es : s32 (i_ref (geti s ip) + 1) = i_ref (geti s ip) + 1) by (apply s32_id; lia).
    split; [|split; [by cbn|split; [cbn [i_ref set_ref]; lia|]]].
    + apply (itab_update v s A L); auto; cbn [i_ref i_dev inum i_valid i_lock set_ref]; rewrite ?Es; try lia; auto.
      * intros n Hne. unfold incr. rewrite Hi in Hne. by rewrite lookup_insert_ne.
      * rewrite decide_False by lia. unfold incr. rewrite Hi, lookup_insert_eq. f_equal. lia.
      * intros _. split; [done|]. by rewrite Hi.
      * intros _ Hv. apply (it_disk _ _ _ _ Ht ip H0 Hv).
    + intros jp Hj. destruct (decide (jp = ip)) as [->|]; [rewrite Hg; cbn [inum i_ref set_ref]; split; [done|lia]|by rewrite geti_seti_ne].
  - assert (HA : A !! num = None).
    { destruct (A !! num) as [r|] eqn:EA; [|done]. destruct (it_of _ _ _ _ Ht num r EA) as (Hr0 & jp & Hj & Hnj & Hrj). destruct (Hno jp Hj). split_and!; auto; [lia|apply (it_dev _ _ _ _ Ht); lia]. }
    split; [|split; [done|split; [cbn; lia|]]].
    + apply (itab_update v s A L); auto; cbn [i_ref i_dev inum i_valid i_lock reuse]; try lia; auto.
      * intros n Hne. unfold incr. by rewrite lookup_insert_ne.
      * rewrite decide_False by lia. unfold incr, refs. rewrite lookup_insert_eq, HA. done.
    + intros jp Hj. destruct (decide (jp = ip)) as [->|]; [lia|by rewrite geti_seti_ne].
Qed.

Lemma at_rest_seti v W s ip f : at_rest v W s -> at_rest v W (seti ip f s).
Proof. intros [H1 H2 H3]. by split. Qed.

Lemma itab_in v s A L s' w H W : itab v s A L -> in_store s s' w H W -> itab v s' A L.
Proof.
  intros [I1 I2 I3 I4 I5 I6 I7 I8 I9] I. assert (Hg : forall ip, geti s' ip = geti s ip) by (intros ip; apply (geti_in _ _ _ _ _ _ I)).
  split.
  - by rewrite (in_tab _ _ _ _ _ I).
  - intros ip. rewrite Hg. auto.
  - intros num r Hr. destruct (I3 num r Hr) as (H0 & jp & Hj). split; [done|]. exists jp. by rewrite Hg.
  - intros ip jp. rewrite !Hg. auto.
  - intros ip. rewrite Hg. auto.
  - intros ip. rewrite Hg. auto.
  - done.
  - intros ip. rewrite Hg. auto.
  - intros ip. rewrite Hg. apply I9.
Qed.

(** Changes of the lock and of the parts that come from the disk. *)
Lemma itab_refresh v s A L L' ip f : itab v s A L -> (ip < NINODE)%nat -> 0 < i_ref (geti s ip) ->
  i_ref (f (geti s ip)) = i_ref (geti s ip) -> inum (f (geti s ip)) = inum (geti s ip) -> i_dev (f (geti s ip)) = i_dev (geti s ip) ->
  (i_valid (f (geti s ip)) = true -> same_node (f (geti s ip)) (disk_inode sb v (inum (geti s ip)))) ->
  (forall jp, jp <> ip -> (L' = Some jp <-> L = Some jp)) ->
  (if decide (L' = Some ip) then i_lock (f (geti s ip)) = SleepLock true me else locked (i_lock (f (geti s ip))) = false) ->
  itab v (seti ip f s) A L'.
Proof.
  intros Ht Hip H0 Er En Ed Hv HLk Hl. pose proof (it_in _ _ _ _ Ht ip H0) as HA. apply (itab_update v s A L); auto; rewrite ?Er, ?En, ?Ed; auto; try lia.
  - rewrite decide_False by lia. done.
  - intros _. split; [by apply (it_dev _ _ _ _ Ht)|]. by apply (it_num _ _ _ _ Ht _ _ HA).
Qed.

Lemma ilock_itab v W s A ip : at_rest v W s -> itab v s A None -> (ip < NINODE)%nat -> 0 < i_ref (geti s ip) ->
  exists s', ilock me ip s = Ok s' /\ at_rest v W s' /\ itab v s' A (Some ip) /\
    inum (geti s' ip) = inum (geti s ip) /\ i_ref (geti s' ip) = i_ref (geti s ip) /\
    same_node (geti s' ip) (disk_inode sb v (inum (geti s ip))).
Proof.
  intros Ha Ht Hip H0. unfold ilock. rewrite (proj2 (Z.ltb_ge _ _)) by lia. pose proof (it_lock _ _ _ _ Ht ip Hip) as Hl. rewrite decide_False in Hl by done.
  unfold acquiresleep. rewrite Hl. cbn [mbind outcome_bind]. set (s1 := seti ip (set_ilock _) s).
  assert (Hlen : (ip < length (itable s))%nat) by (by rewrite (it_len _ _ _ _ Ht)).
  assert (Hg1 : geti s1 ip = set_ilock (SleepLock true me) (geti s ip)) by (by apply geti_seti).
  assert (HLk : forall jp, jp <> ip -> (Some ip = Some jp <-> None = Some jp)) by (intros jp Hj; split; [by intros [= ->]|done]).
  assert (Ht1 : itab v s1 A (Some ip)).
  { apply (itab_refresh v s A None); auto; [|by rewrite decide_True]. intros Hv. by apply (it_disk _ _ _ _ Ht). }
  assert (Ha1 : at_rest v W s1) by (by apply at_rest_seti). pose proof (it_in _ _ _ _ Ht ip H0) as HA. destruct (it_num _ _ _ _ Ht _ _ HA) as [Hn Hty].
  rewrite Hg1. cbn [i_valid inum set_ilock]. destruct (i_valid (geti s ip)) eqn:Ev; cbn [negb].
  { exists s1. split; [done|]. split; [done|]. split; [done|]. rewrite Hg1. split; [done|]. split; [done|]. by apply (it_disk _ _ _ _ Ht). }
  rewrite (ar_sb _ _ _ Ha1). set (num := inum (geti s ip)) in *. destruct (iblock_facts sb Hlay num ltac:(lia)) as (_ & _ & _ & Htok).
  destruct (bread_store s1 ∅ W (IBLOCK num sb) (ar_wf _ _ _ Ha1) Htok) as (h & s2 & E2 & _ & I2 & D2); [by intros; rewrite lookup_empty|rewrite map_size_empty; lia|].
  rewrite E2. cbn [mbind outcome_bind]. rewrite D2, (ar_view _ _ _ Ha1). set (d := v (IBLOCK num sb)). set (g := dinode_get d (dinode_off num)). set (s3 := seti ip g s2).
  assert (Hlen2 : (ip < length (itable s2))%nat) by (rewrite (in_tab _ _ _ _ _ I2); cbn; by rewrite length_alter).
  assert (Hg2 : geti s2 ip = set_ilock (SleepLock true me) (geti s ip)) by (by rewrite (geti_in _ _ _ _ _ _ I2)).
  assert (Hg3 : geti s3 ip = g (set_ilock (SleepLock true me) (geti s ip))) by (unfold s3; by rewrite geti_seti, Hg2).
  assert (Ht3 : itab v s3 A (Some ip)).
  { pose proof (itab_in _ _ _ _ _ _ _ _ Ht1 I2) as Ht2. apply (itab_refresh v s2 A (Some ip)); rewrite ?Hg2; auto; [cbn; by rewrite Ev|]. by rewrite decide_True. }
  assert (I3 : in_store s3 s3 v {[h := IBLOCK num sb]} W).
  { split; auto; [apply I2|]. intros b. change (fview s3 b) with (fview s2 b). rewrite (in_view _ _ _ _ _ I2). apply (ar_view _ _ _ Ha1). }
  destruct (brelse_last s3 s3 ∅ W h _ _ I3 (lookup_empty _)) as (s4 & -> & I4). cbn [mbind outcome_bind].
  assert (Hg4 : geti s4 ip = geti s3 ip) by apply (geti_in _ _ _ _ _ _ I4). pose proof (itab_in _ _ _ _ _ _ _ _ Ht3 I4) as Ht4.
  assert (Hlen4 : (ip < length (itable s4))%nat) by (rewrite (in_tab _ _ _ _ _ I4); cbn; by rewrite length_alter).
  rewrite geti_seti by done. rewrite Hg4, Hg3. change (i_type (set_ivalid true (g _))) with (i_type (disk_inode sb v num)). rewrite (proj2 (Z.eqb_neq _ _) Hty).
  exists (seti ip (set_ivalid true) s4). split; [done|]. rewrite geti_seti, Hg4, Hg3 by done. split; [|split; [|done]].
  - apply at_rest_seti. split; [rewrite (in_sb _ _ _ _ _ I4); change (fsb s3) with (fsb s2); rewrite (in_sb _ _ _ _ _ I2); apply Ha1|apply I4|apply I4].
  - refine (itab_refresh v s4 A (Some ip) (Some ip) ip (set_ivalid true) Ht4 Hip _ eq_refl eq_refl eq_refl _ _ _); [rewrite Hg4, Hg3; exact H0| |done|].
    + intros _. rewrite Hg4, Hg3. done.
    + rewrite decide_True by done. rewrite Hg4, Hg3. done.
Qed.

Lemma iunlock_itab v W s A ip : at_rest v W s -> itab v s A (Some ip) -> (ip < NINODE)%nat -> 0 < i_ref (geti s ip) ->
  exists s', iunlock me ip s = Ok s' /\ at_rest v W s' /\ itab v s' A None /\ inum (geti s' ip) = inum (geti s ip) /\ i_ref (geti s' ip) = i_ref (geti s ip) /\
    (forall jp, jp <> ip -> geti s' jp = geti s jp).
Proof.
  intros Ha Ht Hip H0. unfold iunlock. pose proof (it_lock _ _ _ _ Ht ip Hip) as Hl. rewrite decide_True in Hl by done. rewrite Hl. unfold holdingsleep. cbn [locked lk_pid]. rewrite Z.eqb_refl.
  cbn [andb negb orb]. rewrite (proj2 (Z.ltb_ge _ _)) by lia. eexists. split; [reflexivity|]. split; [by apply at_rest_seti|].
  assert (Hlen : (ip < length (itable s))%nat) by (by rewrite (it_len _ _ _ _ Ht)). rewrite geti_seti by done. split; [|split; [done|split; [done|intros jp Hj; by apply geti_seti_ne]]].
  apply (itab_refresh v s A (Some ip)); auto.
  - intros Hv. by apply (it_disk _ _ _ _ Ht).
  - intros jp Hj. split; [done|]. by intros [= ->].
  - by rewrite decide_False.
Qed.

Lemma iput_itab v W s A ip : at_rest v W s -> itab v s A None -> (ip < NINODE)%nat -> 0 < i_ref (geti s ip) < 2147483648 ->
  nlink (disk_inode sb v (inum (geti s ip))) <> 0 ->
  exists s', iput me ip s = Ok s' /\ at_rest v W s' /\ itab v s' (decr (inum (geti s ip)) A) None /\
    (forall jp, jp <> ip -> geti s' jp = geti s jp) /\ inum (geti s' ip) = inum (geti s ip) /\ i_ref (geti s' ip) = i_ref (geti s ip) - 1.
Proof.
  intros Ha Ht Hip H0 Hnl. unfold iput. set (p := geti s ip) in *.
  assert (E : (i_ref p =? 1) && i_valid p && (nlink p =? 0) = false).
  { destruct (i_valid p) eqn:Ev; [|by rewrite andb_false_r]. destruct (it_disk _ _ _ _ Ht ip (proj1 H0) Ev) as (_ & Enl & _). fold p in Enl.
    rewrite (proj2 (Z.eqb_neq (nlink p) 0)); [by rewrite andb_false_r|]. by rewrite Enl. }
  rewrite E. cbn [mbind outcome_bind]. eexists. split; [reflexivity|]. split; [by apply at_rest_seti|].
  assert (Hlen : (ip < length (itable s))%nat) by (by rewrite (it_len _ _ _ _ Ht)). pose proof (it_in _ _ _ _ Ht ip (proj1 H0)) as HA. fold p in HA.
  assert (Er : refs A (inum p) = i_ref p) by (unfold refs; by rewrite HA). assert (Es : s32 (i_ref p - 1) = i_ref p - 1) by (apply s32_id; lia).
  split; [|split; [intros jp Hj; by apply geti_seti_ne|rewrite geti_seti by done; split; [done|exact Es]]].
  apply (itab_update v s A None); auto; fold p; cbn [i_ref i_dev inum i_valid i_lock set_ref]; rewrite ?Es; try lia; auto.
  - intros n Hne. unfold decr. destruct (decide _); [by rewrite lookup_delete_ne|by rewrite lookup_insert_ne].
  - unfold decr. rewrite Er. destruct (decide (i_ref p = 1)) as [E1|E1].
    + rewrite decide_True by lia. apply lookup_delete_eq.
    + rewrite decide_False by lia. apply lookup_insert_eq.
  - intros H1. split; [apply (it_dev _ _ _ _ Ht ip), H0|]. by apply (it_num _ _ _ _ Ht _ _ HA).
  - intros H1 Hv. apply (it_disk _ _ _ _ Ht ip); [apply H0|done].
  - by apply (it_lock _ _ _ _ Ht ip Hip).
Qed.

(** ** [namex] *)

(** What a walk along [names] ends at; with [parent], one element earlier. *)
Fixpoint walkto (parent : bool) (v : Z -> block) (num : Z) (names : list (list Z)) : option Z :=
  match names with
  | [] => if parent then None else Some num
  | n :: names' =>
      if i_type (disk_inode sb v num) =? T_DIR then
        if parent && bool_decide (names' = []) then Some num
        else match names_inum n (dirents v (disk_inode sb v num)) with
             | Some num' => walkto parent v num' names'
             | None => None
             end
      else None
  end.

Lemma walkto_resolve v names : forall num, walkto false v num names = resolve sb v num names.
Proof.
  induction names as [|n names IH]; intros num; [done|]. cbn [walkto resolve andb]. destruct (_ =? _); [|done]. destruct (names_inum n _); [apply IH|done].
Qed.

Lemma file_ok_node v p q : same_node p q -> file_ok sb v q -> file_ok sb v p.
Proof.
  intros (_ & _ & Es & Ea) [F1 F2 F3 F4 F5 F6 F7].
  assert (Hi : forall n, iblk v p n = iblk v q n) by (intros n; unfold iblk, addr_at; by rewrite Ea).
  assert (Hd : addr_at p NDIRECT = addr_at q NDIRECT) by (unfold addr_at; by rewrite Ea).
  split; rewrite ?Ea, ?Es, ?Hd; auto; intros n; rewrite !Hi; auto. intros m. rewrite Hi. auto.
Qed.

Lemma dirents_node v p q : same_node p q -> dirents v p = dirents v q.
Proof.
  intros (_ & _ & Es & Ea). unfold dirents, nents. rewrite Es. apply map_ext_in. intros k _. apply fslice_ext. intros i _.
  unfold fbyte, iblk, addr_at. by rewrite Ea.
Qed.

(** A reference is held to inode [num], at entry [ip]. *)
Record has_ref (ip : nat) (num : Z) s : Prop := { hr_ip : (ip < NINODE)%nat; hr_num : inum (geti s ip) = num; hr_ref : 0 < i_ref (geti s ip) }.

Lemma iunlockput_itab v W s A B ip num : at_rest v W s -> tree_ok sb v -> itab v s B (Some ip) -> has_ref ip num s ->
  refs B num < 2147483648 -> decr num B = A ->
  exists s', iunlockput me ip s = Ok s' /\ at_rest v W s' /\ itab v s' A None /\
    forall jp m, has_ref jp m s -> refs A m <> 0 -> has_ref jp m s'.
Proof.
  intros Ha Htree Ht [Hip Hn H0] Hb <-. unfold iunlockput. destruct (iunlock_itab v W s B ip Ha Ht Hip H0) as (s1 & -> & Ha1 & Ht1 & Hn1 & Hr1 & Ho1). cbn [mbind outcome_bind].
  pose proof (it_in _ _ _ _ Ht ip H0) as HB. rewrite Hn in HB. destruct (it_num _ _ _ _ Ht _ _ HB) as [Hnum Hty]. assert (Eref : refs B num = i_ref (geti s ip)) by (unfold refs; by rewrite HB).
  destruct (iput_itab v W s1 B ip Ha1 Ht1 Hip) as (s2 & E2 & Ha2 & Ht2 & Ho2 & Hn2 & Hr2); [lia|rewrite Hn1, Hn; by apply (t_file _ _ Htree)|].
  rewrite Hn1, Hn in *. exists s2. split; [done|]. split; [done|]. split; [done|]. intros jp m [J1 J2 J3] Hm.
  destruct (decide (jp = ip)) as [->|Hj]; [|split; [done|by rewrite Ho2, Ho1|by rewrite Ho2, Ho1]]. assert (m = num) as -> by congruence.
  split; [done|congruence|]. rewrite Hr2, Hr1. unfold decr, refs in Hm. rewrite HB in Hm. unfold default in Hm. cbn in Hm.
  destruct (decide (i_ref (geti s ip) = 1)) as [E|E]; [rewrite lookup_delete_eq in Hm; by destruct Hm|lia].
Qed.

Definition namex_result (v : Z -> block) (W : gset Z) (A : gmap Z Z) (o : option nat) (r : option Z) s' : Prop :=
  at_rest v W s' /\
  match r with
  | Some n => exists ip, o = Some ip /\ has_ref ip n s' /\ itab v s' (incr n A) None
  | None => o = None /\ itab v s' A None
  end.

(** The step into a directory: the reference moves to the inode that the name
    has there. *)
Lemma dirlookup_itab v W s A ip num name : at_rest v W s -> tree_ok sb v -> itab v s (incr num A) (Some ip) -> has_ref ip num s ->
  same_node (geti s ip) (disk_inode sb v num) -> i_type (disk_inode sb v num) = T_DIR ->
  positive A -> (size A <= 48)%nat -> (forall n, refs A n + 2 < 2147483648) ->
  exists o s', dirlookup ip name s = Ok (o, s') /\ at_rest v W s' /\ has_ref ip num s' /\
    match names_inum name (dirents v (disk_inode sb v num)) with
    | None => o = None /\ itab v s' (incr num A) (Some ip)
    | Some n => exists jp off, o = Some (jp, off) /\ has_ref jp n s' /\ itab v s' (incr n (incr num A)) (Some ip)
    end.
Proof.
  intros Ha Htree Ht [Hip Hn H0] Hsame Hty Hpos Hsize Hrefs. pose proof (it_in _ _ _ _ Ht ip H0) as HA. rewrite Hn in HA. destruct (it_num _ _ _ _ Ht _ _ HA) as [Hnum Hty0].
  destruct (t_file _ _ Htree num Hnum Hty0) as [Hf _]. destruct (t_dir _ _ Htree num Hnum Hty) as [Hm He].
  assert (Hd : dir_ok sb (fview s) (geti s ip)).
  { apply (dir_ok_view sb Hlay v); [apply Ha|]. destruct Hsame as (E1 & E2 & E3 & E4). split; [by eapply file_ok_node|congruence|congruence]. }
  assert (Hes : dirents (fview s) (geti s ip) = dirents v (disk_inode sb v num)).
  { rewrite (dirents_view v) by apply Ha. by apply dirents_node. }
  destruct (dirlookup_run sb Hlay ip name s W Hd (ar_wf _ _ _ Ha)) as (s1 & I1 & ->). rewrite Hes. pose proof (geti_in _ _ _ _ _ ip I1) as Hg1. pose proof (itab_in _ _ _ _ _ _ _ _ Ht I1) as Ht1.
  assert (Ha1 : at_rest v W s1) by (split; [rewrite (in_sb _ _ _ _ _ I1); apply Ha|apply I1|intros b; rewrite (in_view _ _ _ _ _ I1); apply Ha]).
  unfold names_inum. destruct (find_name name _) as [[j e]|] eqn:Ef; cbn [lookup_result fmap option_fmap option_map compose snd].
  2: { exists None, s1. split; [done|]. split; [done|]. split; [split; [done|by rewrite Hg1|by rewrite Hg1]|done]. }
  apply list_find_Some in Ef as (Hj & Hin & _). apply andb_prop in Hin as [Hin _]. apply negb_true_iff in Hin. bool_to_prop.
  destruct (He e) as [Hne Hte]; [by eapply list_elem_of_lookup_2|done|]. rewrite (it_dev _ _ _ _ Ht1 ip) by (by rewrite Hg1).
  destruct (iget_itab v s1 (incr num A) (Some ip) (de_inum e) Ht1) as (jp & f & Hjp & -> & Ht2 & Hn2 & Hr2 & Hk); auto.
  { right. pose proof (size_incr num A). unfold NINODE. lia. } { rewrite refs_incr. specialize (Hrefs (de_inum e)). destruct (decide _); lia. }
  cbn [mbind outcome_bind]. eexists _, _. split; [reflexivity|]. split; [by apply at_rest_seti|]. destruct (Hk ip) as [K1 K2]; [by rewrite Hg1|]. rewrite Hg1, Hn in K1.
  split; [by split|]. eexists jp, _. split; [reflexivity|]. by split.
Qed.

Lemma namex_loop_run v W A : tree_ok sb v -> positive A -> (size A <= 48)%nat -> (forall n, refs A n + 2 < 2147483648) ->
  forall k path parent name ip num s, at_rest v W s -> itab v s (incr num A) None -> has_ref ip num s -> (length path < k)%nat ->
  exists o name' s', namex_loop me k path parent name ip s = Ok (o, name', s') /\
    namex_result v W A o (walkto parent v num (elems path)) s' /\ (parent = true -> o <> None -> last (elems path) = Some name').
Proof.
  intros Htree Hpos Hsize Hrefs. assert (Hgone : forall n, decr n (incr n A) = A) by (intros n; apply decr_incr; intros E; pose proof (Hpos n 0 E); lia).
  induction k as [|k IH]; intros path parent name ip num s Ha Ht Hr Hk; [lia|]. cbn [namex_loop].
  assert (Hb : refs (incr num A) num < 2147483648) by (rewrite refs_incr, decide_True by done; specialize (Hrefs num); lia).
  pose proof (it_in _ _ _ _ Ht ip (hr_ref _ _ _ Hr)) as HA. rewrite (hr_num _ _ _ Hr) in HA. destruct (it_num _ _ _ _ Ht _ _ HA) as [Hnum Hty]. destruct (t_file _ _ Htree num Hnum Hty) as [_ Hnl].
  assert (Hrf : i_ref (geti s ip) < 2147483648) by (unfold refs in Hb; rewrite HA in Hb; exact Hb).
  pose proof (skipelem_spec path) as Hskip. destruct (skipelem path) as [[rest x]|].
  2: { rewrite Hskip. cbn [walkto]. destruct parent.
       - destruct (iput_itab v W s (incr num A) ip Ha Ht (hr_ip _ _ _ Hr)) as (s' & -> & Ha' & Ht' & _); [split; [apply Hr|done]|by rewrite (hr_num _ _ _ Hr)|].
         cbn [mbind outcome_bind]. rewrite (hr_num _ _ _ Hr), Hgone in Ht'. exists None, name, s'. split; [done|]. split; [by split|done].
       - exists (Some ip), name, s. split; [done|]. split; [split; [done|]; by exists ip|done]. }
  destruct Hskip as (-> & Hlen & Hrest). cbn [walkto].
  destruct (ilock_itab v W s (incr num A) ip Ha Ht (hr_ip _ _ _ Hr) (hr_ref _ _ _ Hr)) as (s1 & -> & Ha1 & Ht1 & Hn1 & Hr1 & Hs1). cbn [mbind outcome_bind].
  rewrite (hr_num _ _ _ Hr) in Hn1, Hs1. assert (Hh1 : has_ref ip num s1) by (split; [apply Hr|done|rewrite Hr1; apply Hr]).
  assert (Et : i_type (geti s1 ip) = i_type (disk_inode sb v num)) by apply Hs1. rewrite Et.
  destruct (i_type (disk_inode sb v num) =? T_DIR) eqn:Ed; cbn [negb]; bool_to_prop.
  2: { destruct (iunlockput_itab v W s1 A (incr num A) ip num Ha1 Htree Ht1 Hh1 Hb (Hgone num)) as (s2 & -> & Ha2 & Ht2 & _). cbn [mbind outcome_bind].
       exists None, x, s2. split; [done|]. split; [by split|done]. }
  assert (Eb : bool_decide (rest = []) = bool_decide (elems rest = [])) by (by apply bool_decide_ext). rewrite Eb.
  destruct (parent && bool_decide (elems rest = [])) eqn:Ep.
  { destruct (iunlock_itab v W s1 (incr num A) ip Ha1 Ht1 (hr_ip _ _ _ Hh1) (hr_ref _ _ _ Hh1)) as (s2 & -> & Ha2 & Ht2 & Hn2 & Hr2 & _). cbn [mbind outcome_bind].
    exists (Some ip), x, s2. split; [done|]. split.
    - split; [done|]. exists ip. split; [done|]. split; [|done]. split; [apply Hr|congruence|rewrite Hr2; apply Hh1].
    - intros _ _. apply andb_prop in Ep as [_ Ep%bool_decide_eq_true]. by rewrite Ep. }
  destruct (dirlookup_itab v W s1 A ip num x Ha1 Htree Ht1 Hh1 Hs1 Ed Hpos Hsize Hrefs) as (o & s2 & -> & Ha2 & Hh2 & Hcase). cbn [mbind outcome_bind].
  destruct (names_inum x _) as [n|].
  - destruct Hcase as (jp & off & -> & Hj & Ht2).
    destruct (iunlockput_itab v W s2 (incr n A) (incr n (incr num A)) ip num Ha2 Htree Ht2 Hh2) as (s3 & -> & Ha3 & Ht3 & Hkeep).
    { rewrite !refs_incr. specialize (Hrefs num). repeat destruct (decide _); lia. } { by apply decr_incr_next. }
    cbn [mbind outcome_bind]. assert (Hj3 : has_ref jp n s3).
    { apply Hkeep; [done|]. rewrite refs_incr, decide_True by done. pose proof (refs_pos A n Hpos). lia. }
    destruct (IH rest parent x jp n s3 Ha3 Ht3 Hj3 ltac:(lia)) as (o' & name' & s' & E' & Hres & Hlast). exists o', name', s'. split; [done|]. split; [done|].
    intros Hp Ho. specialize (Hlast Hp Ho). destruct (elems rest) as [|y ys]; [done|]. exact Hlast.
  - destruct Hcase as [-> Ht2]. destruct (iunlockput_itab v W s2 A (incr num A) ip num Ha2 Htree Ht2 Hh2 Hb (Hgone num)) as (s3 & -> & Ha3 & Ht3 & _). cbn [mbind outcome_bind].
    exists None, x, s3. split; [done|]. split; [by split|done].
Qed.

Lemma itab_positive v s A L : itab v s A L -> positive A.
Proof. intros Ht n r Hn. by apply (it_of _ _ _ _ Ht n r). Qed.

Lemma idup_itab v W s A ip num : at_rest v W s -> itab v s A None -> has_ref ip num s -> refs A num < 2147483647 ->
  at_rest v W (idup ip s) /\ itab v (idup ip s) (incr num A) None /\ has_ref ip num (idup ip s).
Proof.
  intros Ha Ht [Hip Hn H0] Hr. split; [by apply at_rest_seti|]. assert (Hlen : (ip < length (itable s))%nat) by (by rewrite (it_len _ _ _ _ Ht)).
  pose proof (it_in _ _ _ _ Ht ip H0) as HA. rewrite Hn in HA. assert (Er : refs A num = i_ref (geti s ip)) by (unfold refs; by rewrite HA).
  assert (Es : s32 (i_ref (geti s ip) + 1) = i_ref (geti s ip) + 1) by (apply s32_id; lia). split.
  - apply (itab_update v s A None); auto; cbn [i_ref i_dev inum i_valid i_lock set_ref]; rewrite ?Es; try lia; auto.
    + intros n Hne. unfold incr. rewrite Hn in Hne. by rewrite lookup_insert_ne.
    + rewrite decide_False by lia. unfold incr. rewrite Hn, lookup_insert_eq. f_equal. lia.
    + intros _. split; [by apply (it_dev _ _ _ _ Ht)|]. rewrite Hn. by apply (it_num _ _ _ _ Ht _ _ HA).
    + intros _ Hv. by apply (it_disk _ _ _ _ Ht ip).
    + by apply (it_lock _ _ _ _ Ht ip Hip).
  - split; [done| |]; unfold idup; rewrite geti_seti by done; [done|]. cbn [i_ref set_ref]. lia.
Qed.

(** Where a path starts. *)
Definition start_inum (path : list Z) (cn : Z) : Z := if decide (head path = Some slash) then ROOTINO else cn.

Lemma namex_run v W A path parent cwd cn s : tree_ok sb v -> at_rest v W s -> itab v s A None -> (size A <= 48)%nat ->
  (forall n, refs A n + 2 < 2147483648) -> ROOTINO < ninodes sb -> i_type (disk_inode sb v ROOTINO) <> 0 ->
  (head path <> Some slash -> has_ref cwd cn s) ->
  exists o name' s', namex me path parent cwd s = Ok (o, name', s') /\
    namex_result v W A o (walkto parent v (start_inum path cn) (elems path)) s' /\ (parent = true -> o <> None -> last (elems path) = Some name').
Proof.
  intros Htree Ha Ht Hs Hr Hroot Hrt Hcwd. unfold namex, start_inum. pose proof (itab_positive _ _ _ _ Ht) as Hpos. destruct (decide (head path = Some slash)) as [E|E].
  - rewrite bool_decide_eq_true_2 by done.
    destruct (iget_itab v s A None ROOTINO Ht) as (ip & f & Hip & -> & Ht1 & Hn1 & Hr1 & _); [right; unfold NINODE; lia|specialize (Hr ROOTINO); lia|unfold ROOTINO in *; lia|done|].
    cbn [mbind outcome_bind]. apply namex_loop_run; auto; [by apply at_rest_seti|by split].
  - rewrite bool_decide_eq_false_2 by done. cbn [mbind outcome_bind]. destruct (idup_itab v W s A cwd cn Ha Ht (Hcwd E)) as (H1 & H2 & H3); [specialize (Hr cn); lia|].
    apply namex_loop_run; auto.
Qed.

(** The parent of the last element. *)
Lemma walkto_parent v names last : forall num, walkto true v num (names ++ [last]) =
  match resolve sb v num names with
  | Some n => if i_type (disk_inode sb v n) =? T_DIR then Some n else None
  | None => None
  end.
Proof.
  induction names as [|n names IH]; intros num; cbn [app walkto resolve].
  - by rewrite bool_decide_eq_true_2.
  - destruct (_ =? _); [|done]. rewrite bool_decide_eq_false_2 by (by destruct names). cbn [andb]. destruct (names_inum n _); [apply IH|done].
Qed.
End Path.
