(* ===== verification/Mkfs.v ===== *)
(** * mkfs/mkfs.c: the image of the file system

    The program runs on the host when the system is built.  The image is a
    map from sectors to blocks with the number of sectors the file has; a
    [struct dinode] is the part of an [inode] of fs.c that is stored on the
    disk.  [host name] tells what the host has for a file name: the pieces that
    [read] returns for the opened file, or nothing when it cannot be opened.
    The host is little-endian, and the image can be created and written. *)
From stdpp Require Import gmap.
From S2P Require Import Prelude Cstring Block Fs.

Module Mkfs.

Definition NINODES : Z := 200.
Definition FSSIZE : Z := 10000.
Definition LOGSIZE : Z := 30.

Definition nbitmap : Z := FSSIZE / BPB + 1.
Definition ninodeblocks : Z := NINODES / IPB + 1.
Definition nlog_ : Z := LOGSIZE.
Definition nmeta : Z := 2 + nlog_ + ninodeblocks + nbitmap.
Definition nblocks_ : Z := FSSIZE - nmeta.

(** The bytes that [xshort] and [xint] store, read back by the host. *)
Definition xshort (x : Z) : Z := le_val [u8 x; u8 (Z.shiftr x 8)].
Definition xint (x : Z) : Z := le_val [u8 x; u8 (Z.shiftr x 8); u8 (Z.shiftr x 16); u8 (Z.shiftr x 24)].

Definition sb : superblock :=
  Superblock FSMAGIC (xint FSSIZE) (xint nblocks_) (xint NINODES) (xint nlog_) (xint 2) (xint (2 + nlog_)) (xint (2 + nlog_ + ninodeblocks)).

Definition sb_bytes (s : superblock) : list Z :=
  concat (map (fun x => le_bytes 4 (u32 x)) [magic s; fsize s; nblocks s; ninodes s; nlog s; logstart s; inodestart s; bmapstart s]).

Record mk := Mk { img : gmap Z block; nsect : Z; freeinode : Z; freeblock : Z }.

Definition sect (s : mk) (n : Z) : block := default zero_block (img s !! n).

(** The offset in the image is an [uint]. *)
Definition sector_of (sec : Z) : Z := u32 (sec * Z.of_nat BSIZE) / Z.of_nat BSIZE.

Definition wsect (sec : Z) (buf : block) (s : mk) : mk :=
  let n := sector_of sec in
  Mk (<[n := buf]> (img s)) (Z.max (nsect s) (n + 1)) (freeinode s) (freeblock s).

Definition rsect (sec : Z) (s : mk) : outcome block :=
  let n := sector_of sec in
  if n <? nsect s then Ok (sect s n) else Panic "read".

Definition winode (inum : Z) (ip : inode) (s : mk) : outcome mk :=
  let bn := IBLOCK inum sb in
  buf ← rsect bn s;
  Ok (wsect bn (dinode_put ip buf (dinode_off inum)) s).

Definition rinode (inum : Z) (s : mk) : outcome inode :=
  let bn := IBLOCK inum sb in
  buf ← rsect bn s;
  Ok (dinode_get buf (dinode_off inum) inode0).

Definition ialloc (type : Z) (s : mk) : outcome (Z * mk) :=
  let inum := freeinode s in
  let s := Mk (img s) (nsect s) (u32 (freeinode s + 1)) (freeblock s) in
  let din := set_size (xint 0) (set_nlink (xshort 1) (set_type (xshort type) inode0)) in
  s ← winode inum din s;
  Ok (inum, s).

(** [freeblock++] *)
Definition next_block (s : mk) : Z * mk := (freeblock s, Mk (img s) (nsect s) (freeinode s) (u32 (freeblock s + 1))).

Definition balloc (used : Z) (s : mk) : outcome mk :=
  if negb (used <? BPB) then Panic "assert"
  else
    let buf := foldl mark_bit zero_block (seqZ 0 used) in
    Ok (wsect (bmapstart sb) buf s).

(** The block [fbn] of a file, which is allocated when there is none. *)
Definition file_block (fbn : Z) (din : inode) (s : mk) : outcome (Z * inode * mk) :=
  if fbn <? Z.of_nat NDIRECT then
    let '(din, s) :=
      if xint (addr_at din (Z.to_nat fbn)) =? 0 then
        let '(b, s) := next_block s in (set_addr (Z.to_nat fbn) (xint b) din, s)
      else (din, s) in
    Ok (xint (addr_at din (Z.to_nat fbn)), din, s)
  else
    let '(din, s) :=
      if xint (addr_at din NDIRECT) =? 0 then
        let '(b, s) := next_block s in (set_addr NDIRECT (xint b) din, s)
      else (din, s) in
    indirect ← rsect (xint (addr_at din NDIRECT)) s;
    let off := (4 * Z.to_nat (fbn - Z.of_nat NDIRECT))%nat in
    let '(indirect, s) :=
      if get32 indirect off =? 0 then
        let '(b, s) := next_block s in
        let indirect := put32 indirect off (xint b) in
        (indirect, wsect (xint (addr_at din NDIRECT)) indirect s)
      else (indirect, s) in
    Ok (xint (get32 indirect off), din, s).

(** The loop of [iappend]: [p] is what is left.  Every turn takes at least
    one byte. *)
Fixpoint iappend_loop (k : nat) (p : list Z) (off : Z) (din : inode) (s : mk) : outcome (Z * inode * mk) :=
  match p with
  | [] => Ok (off, din, s)
  | _ =>
      match k with
      | O => NoFuel
      | S k' =>
          let fbn := off / Z.of_nat BSIZE in
          if negb (fbn <? MAXFILE) then Panic "assert"
          else
            '(x, din, s) ← file_block fbn din s;
            let n1 := Z.min (Z.of_nat (length p)) (u32 ((fbn + 1) * Z.of_nat BSIZE - off)) in
            buf ← rsect x s;
            let s := wsect x (splice buf (Z.to_nat (off - fbn * Z.of_nat BSIZE)) (take (Z.to_nat n1) p)) s in
            iappend_loop k' (drop (Z.to_nat n1) p) (u32 (off + n1)) din s
      end
  end.

Definition iappend (inum : Z) (p : list Z) (s : mk) : outcome mk :=
  din ← rinode inum s;
  let off := xint (i_size din) in
  '(off, din, s) ← iappend_loop (length p) p off din s;
  winode inum (set_size (xint off) din) s.

(** [struct dirent]: [bzero], the number and the name. *)
Definition dirent (inum : Z) (name : list Z) : list Z := le_bytes 2 (xshort inum) ++ strncpy_l name DIRSIZ.

Section Main.
Variable host : list Z -> option (list (list Z)).

Fixpoint append_all (inum : Z) (l : list (list Z)) (s : mk) : outcome mk :=
  match l with
  | [] => Ok s
  | p :: l' => s ← iappend inum p s; append_all inum l' s
  end.

(** ["user/"] *)
Definition user_dir : list Z := [117; 115; 101; 114; 47].

(** The name in the image; the first assertion is that it has no slash. *)
Definition short_name (arg : list Z) : outcome (list Z) :=
  let n := if bool_decide (take 5 arg = user_dir) then drop 5 arg else arg in
  if bool_decide (slash ∈ n) then Panic "assert" else Ok n.

Definition skip_underscore (n : list Z) : list Z :=
  match n with c :: r => if c =? 95 then r else n | [] => [] end.

Definition add_file (rootino : Z) (arg : list Z) (s : mk) : outcome mk :=
  shortname ← short_name arg;
  match host arg with
  | None => Panic "die"
  | Some pieces =>
      let shortname := skip_underscore shortname in
      if negb (length shortname <=? DIRSIZ)%nat then Panic "assert"
      else
        '(inum, s) ← ialloc T_FILE s;
        s ← iappend rootino (dirent inum shortname) s;
        append_all inum pieces s
  end.

Fixpoint add_files (rootino : Z) (args : list (list Z)) (s : mk) : outcome mk :=
  match args with
  | [] => Ok s
  | a :: args' => s ← add_file rootino a s; add_files rootino args' s
  end.

(** The sectors of zeros, and the super block. *)
Definition blank : mk :=
  let s := Mk ∅ 0 1 nmeta in
  let s := foldl (fun s i => wsect i zero_block s) s (seqZ 0 FSSIZE) in
  wsect 1 (splice zero_block 0 (sb_bytes sb)) s.

(** The files are the arguments behind the name of the image. *)
Definition main (args : list (list Z)) : outcome mk :=
  '(rootino, s) ← ialloc T_DIR blank;
  if negb (rootino =? ROOTINO) then Panic "assert"
  else
    s ← iappend rootino (dirent rootino [46]) s;
    s ← iappend rootino (dirent rootino [46; 46]) s;
    s ← add_files rootino args s;
    din ← rinode rootino s;
    let off := xint (i_size din) in
    let off := u32 ((off / Z.of_nat BSIZE + 1) * Z.of_nat BSIZE) in
    s ← winode rootino (set_size (xint off) din) s;
    balloc (freeblock s) s.

End Main.

End Mkfs.
