(* ===== verification/MkfsTheory.v ===== *)
(** * mkfs: the blocks of a file that is being appended to *)
From stdpp Require Import gmap.
From S2P Require Import Prelude Cstring Block Bio Fs FsTheory FsFile Mkfs.

Import Mkfs.

(** A run whose result is as described, and that can only fail, with a
    message, when [F] does not hold. *)
Definition fine {A} (F : Prop) (o : outcome A) (P : A -> Prop) : Prop :=
  match o with Ok a => P a | Panic _ => ~ F | _ => False end.

Lemma fine_bind {A B} F (x : outcome A) (f : A -> outcome B) P Q : fine F x P -> (forall a, P a -> fine F (f a) Q) -> fine F (x ≫= f) Q.
Proof. destruct x; cbn; auto. Qed.

Lemma fine_mono {A} (F F' : Prop) (x : outcome A) (P Q : A -> Prop) : fine F x P -> (F' -> F) -> (forall a, P a -> Q a) -> fine F' x Q.
Proof. destruct x; cbn; auto. Qed.

Lemma xint_u32 x : xint x = u32 x.
Proof.
  unfold xint, u8, u32. cbn [le_val]. rewrite !Z.shiftr_div_pow2 by lia. change (2 ^ 8) with 256. change (2 ^ 16) with 65536. change (2 ^ 24) with 16777216. zlia.
Qed.

Lemma xshort_u16 x : xshort x = u16 x.
Proof. unfold xshort, u8, u16. cbn [le_val]. rewrite Z.shiftr_div_pow2 by lia. change (2 ^ 8) with 256. zlia. Qed.

(** ** Sectors *)

Lemma sector_id n : 0 <= n < 4194304 -> sector_of n = n.
Proof. intros H. unfold sector_of, BSIZE. rewrite u32_id by lia. zlia. Qed.

Lemma sect_wsect n b s m : 0 <= n < 4194304 -> sect (wsect n b s) m = if decide (m = n) then b else sect s m.
Proof.
  intros Hn. unfold sect, wsect. cbn [img]. rewrite sector_id by done. destruct (decide (m = n)) as [->|Hne]; [by rewrite lookup_insert_eq|by rewrite lookup_insert_ne by done].
Qed.

Lemma rsect_ok (F : Prop) n s : 0 <= n < 4194304 -> (F -> n < nsect s) -> fine F (rsect n s) (fun b => b = sect s n /\ n < nsect s).
Proof. intros Hn HF. unfold rsect. rewrite sector_id by done. destruct (n <? nsect s) eqn:E; bool_to_prop; cbn; [done|]. intros Hf. apply HF in Hf. lia. Qed.

(** The image while it is being filled. *)
Record base (s : mk) : Prop := {
  b_nsect : nsect s = FSSIZE;
  b_len : forall n, length (sect s n) = BSIZE;
  b_free : nmeta <= freeblock s <= FSSIZE;
  b_zero : forall n, freeblock s <= n -> sect s n = zero_block
}.

(** ** The blocks of a file *)

(** An inode with [nb] blocks between [lo] and [hi], with the bytes [g]. *)
Record FileI (v : Z -> block) (lo hi : Z) (p : inode) (nb : Z) (g : Z -> Z) : Prop := {
  fi_len : length (addrs p) = 13%nat;
  fi_nb : 0 <= nb <= MAXFILE;
  fi_blk : forall n, 0 <= n < MAXFILE -> (iblk v p n = 0 /\ nb <= n) \/ (lo <= iblk v p n < hi /\ n < nb);
  fi_ind : (addr_at p NDIRECT = 0 /\ nb <= 12) \/ (lo <= addr_at p NDIRECT < hi /\ 12 < nb);
  fi_inj : forall n m, 0 <= n < nb -> 0 <= m < nb -> iblk v p n = iblk v p m -> n = m;
  fi_indne : forall n, 0 <= n < nb -> iblk v p n <> addr_at p NDIRECT;
  fi_data : forall n k, 0 <= n < nb -> 0 <= k < BS -> byte_at (v (iblk v p n)) k = g (n * BS + k)
}.

Definition own (v : Z -> block) (p : inode) (nb b : Z) : Prop :=
  (exists n, 0 <= n < nb /\ b = iblk v p n) \/ (12 < nb /\ b = addr_at p NDIRECT).

(** The blocks that a file of [nb] blocks takes: the indirect one, too. *)
Definition cst (nb : Z) : Z := if 12 <? nb then nb + 1 else nb.

Lemma cst_mono n m : n <= m -> cst n <= cst m.
Proof. intros H. unfold cst. destruct (12 <? n) eqn:E, (12 <? m) eqn:E'; bool_to_prop; lia. Qed.

(** The blocks are found in the inode and in its indirect block. *)
Lemma iblk_ext v v' p p' n : addrs p' = addrs p -> (addr_at p NDIRECT <> 0 -> v' (addr_at p NDIRECT) = v (addr_at p NDIRECT)) -> iblk v' p' n = iblk v p n.
Proof.
  intros Ha Hv. unfold iblk, addr_at in *. rewrite Ha. destruct (n <? 12); [done|]. destruct (default 0 (addrs p !! NDIRECT) =? 0) eqn:E; [done|]. apply Z.eqb_neq in E. by rewrite Hv.
Qed.

Lemma own_range v lo hi p nb g b : FileI v lo hi p nb g -> own v p nb b -> lo <= b < hi.
Proof.
  intros [_ Hn Hb Hi _ _ _] [(n & Hn' & ->)|[H12 ->]]; [destruct (Hb n ltac:(lia)); lia|lia].
Qed.

Lemma FileI_frame v v' lo hi hi' p p' nb g : FileI v lo hi p nb g -> addrs p' = addrs p -> hi <= hi' -> 0 <= lo ->
  (forall b, own v p nb b -> v' b = v b) -> FileI v' lo hi' p' nb g /\ (forall b, own v' p' nb b <-> own v p nb b).
Proof.
  intros Hf Ha Hh Hlo Hv. pose proof Hf as [H1 H2 H3 H4 H5 H6 H7].
  assert (Hi : forall n, iblk v' p' n = iblk v p n).
  { intros n. apply iblk_ext; [done|]. intros Hne. apply Hv. right. split; [lia|done]. }
  assert (Had : addr_at p' NDIRECT = addr_at p NDIRECT) by (unfold addr_at; by rewrite Ha).
  split; [split|].
  - by rewrite Ha.
  - done.
  - intros n Hn. rewrite Hi. destruct (H3 n Hn); [by left|right; lia].
  - rewrite Had. lia.
  - intros n m. rewrite !Hi. apply H5.
  - intros n. rewrite Hi, Had. apply H6.
  - intros n k Hn Hk. rewrite Hi, Hv by (left; eauto). by apply H7.
  - intros b. unfold own. rewrite Had. setoid_rewrite Hi. done.
Qed.

(** What appending does to the image: the blocks of other files stay, and new
    blocks are taken from the free ones. *)
Record grows (s : mk) (p : inode) (nb : Z) (s' : mk) (p' : inode) (nb' : Z) : Prop := {
  g_base : nsect s' = nsect s /\ freeinode s' = freeinode s /\ freeblock s <= freeblock s';
  g_inode : p' = set_addrs (addrs p') p;
  g_frame : forall b, b < freeblock s -> ~ own (sect s) p nb b -> sect s' b = sect s b;
  g_own : forall b, own (sect s') p' nb' b -> own (sect s) p nb b \/ freeblock s <= b < freeblock s'
}.

Lemma appended_trans s p nb s1 p1 nb1 s2 p2 nb2 : grows s p nb s1 p1 nb1 -> grows s1 p1 nb1 s2 p2 nb2 -> grows s p nb s2 p2 nb2.
Proof.
  intros [(A1 & A2 & A3) A4 A5 A6] [(B1 & B2 & B3) B4 B5 B6]. split.
  - split_and!; [congruence|congruence|lia].
  - rewrite B4, A4. done.
  - intros b Hb Hn. rewrite B5; [by apply A5|lia|]. intros [?|?]%A6; [done|lia].
  - intros b [H|H]%B6; [|right; lia]. apply A6 in H as [?|?]; [by left|right; lia].
Qed.

(** ** A new block *)

Lemma zero_byte k : byte_at zero_block k = 0.
Proof. unfold byte_at, zero_block. destruct (replicate BSIZE 0 !! Z.to_nat k) eqn:E; [|done]. by apply lookup_replicate in E as [-> _]. Qed.

Lemma addr_set p i a n : length (addrs p) = 13%nat -> (i < 13)%nat -> addr_at (set_addr i a p) n = if decide (n = i) then a else addr_at p n.
Proof.
  intros Hl Hi. unfold addr_at, set_addr. cbn [addrs set_addrs]. destruct (decide (n = i)) as [->|Hne]; [by rewrite list_lookup_insert_eq by lia|by rewrite list_lookup_insert_ne by done].
Qed.

Lemma new_direct v hi p nb g : FileI v nmeta hi p nb g -> nb < 12 -> v hi = zero_block -> nmeta <= hi -> (forall i, nb * BS <= i -> g i = 0) ->
  let p' := set_addr (Z.to_nat nb) hi p in
  FileI v nmeta (hi + 1) p' (nb + 1) g /\ iblk v p' nb = hi /\ (forall b, own v p' (nb + 1) b -> own v p nb b \/ b = hi).
Proof.
  intros Hf Hnb Hz Hhi Hg p'. pose proof Hf as [H1 H2 H3 H4 H5 H6 H7]. assert (Hnm : nmeta = 47) by done.
  assert (Hi : forall n, 0 <= n < MAXFILE -> iblk v p' n = if decide (n = nb) then hi else iblk v p n).
  { intros n Hn. unfold iblk, p'. rewrite !addr_set by (done || lia). unfold NDIRECT. rewrite (decide_False (P := (12 = Z.to_nat nb)%nat)) by lia.
    destruct (n <? 12) eqn:E; bool_to_prop; [|rewrite decide_False by lia; done]. repeat case_decide; try done; lia. }
  assert (Ha : addr_at p' NDIRECT = 0) by (unfold p'; rewrite addr_set by (done || lia); unfold NDIRECT in *; rewrite decide_False by lia; lia).
  assert (Hm : MAXFILE = 268) by done. assert (Hib : iblk v p' nb = hi) by (rewrite Hi, decide_True; [done..|lia]).
  split_and!; [split| |].
  - unfold p', set_addr. cbn. by rewrite length_insert.
  - lia.
  - intros n Hn. rewrite Hi by done. case_decide; [right; lia|]. destruct (H3 n Hn); [left|right]; lia.
  - rewrite Ha. left. lia.
  - intros n m Hn Hm'. rewrite !Hi by lia. destruct (H3 n ltac:(lia)), (H3 m ltac:(lia)). all: repeat case_decide; try lia. intros E. apply H5; lia.
  - intros n Hn. rewrite Hi, Ha by lia. case_decide; [lia|]. destruct (H3 n ltac:(lia)); lia.
  - intros n k Hn Hk. rewrite Hi by lia. case_decide as E; [|apply H7; lia]. rewrite Hz, zero_byte. symmetry. apply Hg. lia.
  - done.
  - intros b [(n & Hn & ->)|[H12 _]]; [|lia]. rewrite Hi by lia. case_decide; [by right|left; left]. exists n. split; [lia|done].
Qed.

(** The entry for block [nb] in the indirect block [a] of [p1], which is the
    one of [p] or a new one. *)
Lemma new_indirect v hi p nb g p1 a hi1 : FileI v nmeta hi p nb g -> 12 <= nb < MAXFILE -> nmeta <= hi <= hi1 -> hi1 < 4294967296 -> v hi1 = zero_block ->
  (forall i, nb * BS <= i -> g i = 0) -> (forall b, length (v b) = BSIZE) ->
  length (addrs p1) = 13%nat -> (forall n, (n < 12)%nat -> addr_at p1 n = addr_at p n) -> addr_at p1 NDIRECT = a -> nmeta <= a < hi1 ->
  (forall n, 0 <= n < nb -> iblk v p n <> a) -> (forall n, 12 <= n < MAXFILE -> get32 (v a) (4 * Z.to_nat (n - 12)) = if decide (n < nb) then iblk v p n else 0) ->
  let v' := updz v a (put32 (v a) (4 * Z.to_nat (nb - 12)) hi1) in
  FileI v' nmeta (hi1 + 1) p1 (nb + 1) g /\ iblk v' p1 nb = hi1 /\ (forall b, own v' p1 (nb + 1) b -> (exists n, 0 <= n < nb /\ b = iblk v p n) \/ b = a \/ b = hi1).
Proof.
  intros Hf Hnb Hhi Hh Hz Hg Hl Hl1 Hd Ha Har Hna Hent v'. pose proof Hf as [H1 H2 H3 H4 H5 H6 H7]. assert (Hnm : nmeta = 47) by done. assert (Hm : MAXFILE = 268) by done.
  assert (Hi : forall n, 0 <= n < MAXFILE -> iblk v' p1 n = if decide (n = nb) then hi1 else iblk v p n).
  { intros n Hn. unfold iblk at 1. destruct (n <? 12) eqn:E; bool_to_prop.
    - rewrite Hd by lia. rewrite decide_False by lia. unfold iblk. ztest. done.
    - rewrite Ha. destruct (a =? 0) eqn:E0; bool_to_prop; [lia|]. unfold v'. rewrite updz_eq. case_decide as En.
      + subst n. rewrite get32_put32_eq by (rewrite Hl; unfold BSIZE; lia). apply u32_id. lia.
      + rewrite get32_put32_ne by (rewrite ?Hl; unfold BSIZE; lia). rewrite Hent by lia. case_decide; [done|]. destruct (H3 n Hn); lia. }
  assert (Hold : forall n, 0 <= n < nb -> nmeta <= iblk v p n < hi) by (intros n Hn; destruct (H3 n ltac:(lia)); lia).
  assert (Hib : iblk v' p1 nb = hi1) by (rewrite Hi, decide_True; [done..|lia]).
  split_and!; [split| |].
  - done.
  - lia.
  - intros n Hn. rewrite Hi by done. case_decide; [right; lia|]. destruct (H3 n Hn); [left|right]; lia.
  - rewrite Ha. right. lia.
  - intros n m Hn Hm'. rewrite !Hi by lia. repeat case_decide; try lia; [intros E; pose proof (Hold m ltac:(lia)); lia|intros E; pose proof (Hold n ltac:(lia)); lia|]. intros E. apply H5; lia.
  - intros n Hn. rewrite Hi, Ha by lia. case_decide; [lia|]. apply Hna. lia.
  - intros n k Hn Hk. rewrite Hi by lia. case_decide as E.
    + unfold v'. rewrite updz_ne by lia. rewrite Hz, zero_byte. symmetry. apply Hg. lia.
    + unfold v'. rewrite updz_ne by (apply Hna; lia). apply H7; lia.
  - done.
  - intros b [(n & Hn & ->)|[H12 ->]]; [|auto]. rewrite Hi by lia. case_decide; [auto|left]. exists n. split; [lia|done].
Qed.

(** ** [file_block] *)

Lemma updz_ext (v : Z -> block) a b n : updz v a b n = if decide (n = a) then b else v n.
Proof. done. Qed.

Lemma FileI_ext v v' lo hi p nb g : (forall b, v' b = v b) -> FileI v lo hi p nb g -> FileI v' lo hi p nb g.
Proof.
  intros Hv Hf. assert (Hi : forall n, iblk v' p n = iblk v p n) by (intros n; apply iblk_ext; [done|intros; apply Hv]). destruct Hf as [H1 H2 H3 H4 H5 H6 H7].
  split; auto; intros n; rewrite ?Hi; auto. - intros m. rewrite Hi. auto. - intros k Hn Hk. rewrite Hv. auto.
Qed.

Lemma own_ext v v' p nb b : (forall b, v' b = v b) -> own v' p nb b <-> own v p nb b.
Proof. intros Hv. unfold own. assert (Hi : forall n, iblk v' p n = iblk v p n) by (intros n; apply iblk_ext; [done|intros; apply Hv]). setoid_rewrite Hi. done. Qed.

(** The result: the block [x] is block [fbn] of the file, new and zero or one
    that it had. *)
Record got_block (s : mk) (p : inode) (nb fbn : Z) (g : Z -> Z) (x : Z) (p' : inode) (s' : mk) : Prop := {
  gb_file : FileI (sect s') nmeta (freeblock s') p' (Z.max nb (fbn + 1)) g;
  gb_x : x = iblk (sect s') p' fbn;
  gb_grows : grows s p nb s' p' (Z.max nb (fbn + 1));
  gb_len : forall b, length (sect s' b) = BSIZE;
  gb_zero : forall b, freeblock s' <= b -> sect s' b = zero_block;
  gb_free : freeblock s' <= Z.max (freeblock s) (x + 1) /\ freeblock s' <= FSSIZE + 2;
  gb_cost : freeblock s' = freeblock s + cst (Z.max nb (fbn + 1)) - cst nb
}.

Lemma got_old s p nb fbn g : base s -> FileI (sect s) nmeta (freeblock s) p nb g -> 0 <= fbn < nb -> got_block s p nb fbn g (iblk (sect s) p fbn) p s.
Proof.
  intros Hb Hf Hn. rewrite <- (Z.max_l nb (fbn + 1)) in Hf by lia. pose proof (b_free s Hb). split; auto; [|apply Hb|apply Hb|lia|rewrite Z.max_l by lia; lia].
  rewrite Z.max_l in * by lia. split; [split_and!; lia|by destruct p|done|by left].
Qed.

Lemma file_block_direct (F : Prop) s p nb fbn g : base s -> FileI (sect s) nmeta (freeblock s) p nb g -> (forall i, nb * BS <= i -> g i = 0) -> 0 <= fbn <= nb -> fbn < 12 ->
  fine F (file_block fbn p s) (fun '(x, p', s') => got_block s p nb fbn g x p' s').
Proof.
  intros Hb Hf Hg Hfb H12. unfold file_block. change (Z.of_nat NDIRECT) with 12. ztest. rewrite !xint_u32. pose proof (b_free s Hb) as Hfr. assert (Hnm : nmeta = 47) by done. assert (Hfs : FSSIZE = 10000) by done.
  assert (Hm : MAXFILE = 268) by done.
  assert (Hi : iblk (sect s) p fbn = addr_at p (Z.to_nat fbn)) by (unfold iblk; ztest; done). destruct (fi_blk _ _ _ _ _ _ Hf fbn ltac:(lia)) as [[H0 Hn]|[Hr Hn]].
  - rewrite <- Hi, H0. cbn [u32 Z.modulo Z.div_eucl Z.eqb]. change (u32 0 =? 0) with true. cbn [fine next_block]. assert (fbn = nb) as -> by lia. rewrite !xint_u32, (u32_id (freeblock s)) by lia.
    rewrite addr_set, decide_True by (apply Hf || lia). rewrite (u32_id (freeblock s)), (u32_id (freeblock s + 1)) by lia.
    destruct (new_direct (sect s) (freeblock s) p nb g Hf H12 (b_zero s Hb (freeblock s) ltac:(lia)) ltac:(lia) Hg) as (F1 & F2 & F3).
    split; cbn [freeblock]; rewrite ?Z.max_r by lia; [exact F1|by symmetry| |apply (b_len s Hb)|intros b Hbb; apply (b_zero s Hb); lia|lia|unfold cst; ztest; lia].
    split; [cbn; split_and!; lia|by destruct p|done|]. cbn [freeblock]. intros b [?| ->]%F3; [by left|right; lia].
  - rewrite <- Hi, u32_id by lia. destruct (iblk (sect s) p fbn =? 0) eqn:E; bool_to_prop; [lia|]. cbn [fine]. rewrite xint_u32, <- Hi, u32_id by lia. apply got_old; [done|done|lia].
Qed.

Lemma get32_zero_block off : (off + 4 <= BSIZE)%nat -> get32 zero_block off = 0.
Proof.
  intros H. unfold get32. assert (E : slice zero_block off 4 = replicate 4 0); [|by rewrite E].
  unfold slice, zero_block. rewrite drop_replicate, take_replicate. f_equal. lia.
Qed.

(** Everything but the allocation of the indirect block. *)
Lemma indirect_entry s0 p0 s p nb g a : base s0 -> FileI (sect s0) nmeta (freeblock s0) p0 nb g -> (forall i, nb * BS <= i -> g i = 0) -> 12 <= nb < MAXFILE ->
  (nsect s = nsect s0 /\ freeinode s = freeinode s0 /\ img s = img s0) -> freeblock s0 <= freeblock s <= FSSIZE + 1 -> p = set_addrs (addrs p) p0 -> length (addrs p) = 13%nat ->
  (forall n, (n < 12)%nat -> addr_at p n = addr_at p0 n) -> addr_at p NDIRECT = a -> nmeta <= a < freeblock s -> a < FSSIZE ->
  (12 < nb /\ addr_at p0 NDIRECT = a \/ nb = 12 /\ a = freeblock s0) -> (freeblock s = freeblock s0 \/ freeblock s = a + 1) ->
  let indirect := sect s0 a in
  let s1 := Mk (img s) (nsect s) (freeinode s) (freeblock s + 1) in
  let ind1 := put32 indirect (4 * Z.to_nat (nb - 12)) (freeblock s) in
  got_block s0 p0 nb nb g (freeblock s) p (wsect a ind1 s1).
Proof.
  intros Hb Hf Hg Hnb (E1 & E2 & E3) Hfr Hp Hl Hd Ha Har Haf Hcase Hfc indirect s1 ind1. pose proof (b_free s0 Hb) as Hfr0. assert (Hnm : nmeta = 47) by done. assert (Hfs : FSSIZE = 10000) by done. assert (Hm : MAXFILE = 268) by done.
  assert (Hs : forall n, sect s n = sect s0 n) by (intros n; unfold sect; by rewrite E3).
  assert (Hna : forall n, 0 <= n < nb -> iblk (sect s0) p0 n <> a).
  { intros n Hn. destruct Hcase as [[H1 <-]|[H1 ->]]; [by apply (fi_indne _ _ _ _ _ _ Hf)|]. destruct (fi_blk _ _ _ _ _ _ Hf n ltac:(lia)); lia. }
  assert (Hent : forall n, 12 <= n < MAXFILE -> get32 (sect s0 a) (4 * Z.to_nat (n - 12)) = if decide (n < nb) then iblk (sect s0) p0 n else 0).
  { intros n Hn. destruct Hcase as [[H1 H2]|[H1 ->]].
    - assert (En : iblk (sect s0) p0 n = get32 (sect s0 a) (4 * Z.to_nat (n - 12))).
      { unfold iblk. ztest. rewrite H2. destruct (a =? 0) eqn:E; bool_to_prop; [lia|done]. }
      rewrite <- En. case_decide; [done|]. destruct (fi_blk _ _ _ _ _ _ Hf n ltac:(lia)); lia.
    - rewrite decide_False by lia. rewrite (b_zero s0 Hb) by lia. apply get32_zero_block. unfold BSIZE. lia. }
  destruct (new_indirect (sect s0) (freeblock s0) p0 nb g p a (freeblock s) Hf Hnb ltac:(lia) ltac:(lia) (b_zero s0 Hb _ (proj1 Hfr)) Hg (b_len s0 Hb) Hl Hd Ha Har Hna Hent) as (F1 & F2 & F3).
  set (v' := updz (sect s0) a (put32 (sect s0 a) (4 * Z.to_nat (nb - 12)) (freeblock s))) in *.
  assert (Hv : forall n, sect (wsect a ind1 s1) n = v' n) by (intros n; rewrite sect_wsect by lia; unfold v'; rewrite updz_ext; case_decide; [done|apply Hs]).
  assert (Hib : iblk (sect (wsect a ind1 s1)) p nb = iblk v' p nb) by (apply iblk_ext; [done|intros; apply Hv]).
  split; try change (freeblock (wsect a ind1 s1)) with (freeblock s + 1); rewrite ?Z.max_r by lia.
  - by apply (FileI_ext v').
  - by rewrite Hib, F2.
  - split.
    + cbn. rewrite sector_id, E1 by lia. rewrite (b_nsect s0 Hb). split_and!; [lia|done|lia].
    + done.
    + intros b Hbb Hno. rewrite Hv. unfold v'. rewrite updz_ne; [done|]. intros ->. apply Hno. destruct Hcase as [[H1 H2]|[H1 H2]]; [|lia]. by right.
    + intros b Ho. apply (own_ext v') in Ho; [|done]. change (freeblock (wsect a ind1 s1)) with (freeblock s + 1). apply F3 in Ho as [(n & Hn & ->)|[->| ->]]; [left; left; eauto| |right; lia].
      destruct Hcase as [[H1 H2]|[H1 H2]]; [left; by right|right; lia].
  - intros b. rewrite Hv. unfold v'. rewrite updz_ext. case_decide; [|apply Hb]. rewrite length_put32; [apply Hb|]. rewrite (b_len s0 Hb). unfold BSIZE. lia.
  - intros b. change (freeblock (wsect a ind1 s1)) with (freeblock s + 1). intros Hbb. rewrite Hv. unfold v'. rewrite updz_ne by lia. apply (b_zero s0 Hb). lia.
  - lia.
  - pose proof (fi_ind _ _ _ _ _ _ Hf) as Hi. unfold cst. destruct (12 <? nb + 1) eqn:E4, (12 <? nb) eqn:E5; bool_to_prop; lia.
Qed.

Lemma file_block_fine (F : Prop) s p nb fbn g : (F -> freeblock s + cst (Z.max nb (fbn + 1)) - cst nb <= FSSIZE) -> base s -> FileI (sect s) nmeta (freeblock s) p nb g -> (forall i, nb * BS <= i -> g i = 0) -> 0 <= fbn <= nb -> fbn < MAXFILE ->
  fine F (file_block fbn p s) (fun '(x, p', s') => got_block s p nb fbn g x p' s').
Proof.
  intros HF Hb Hf Hg Hfb Hmx. destruct (decide (fbn < 12)) as [H12|H12]; [by apply file_block_direct|].
  unfold file_block. change (Z.of_nat NDIRECT) with 12. ztest. pose proof (b_free s Hb) as Hfr. assert (Hnm : nmeta = 47) by done. assert (Hfs : FSSIZE = 10000) by done. assert (Hm : MAXFILE = 268) by done.
  pose proof (fi_len _ _ _ _ _ _ Hf) as Hlen. pose proof (fi_ind _ _ _ _ _ _ Hf) as Hind. rewrite !xint_u32.
  assert (Hoff : (4 * Z.to_nat (fbn - 12) + 4 <= BSIZE)%nat) by (unfold BSIZE; lia).
  destruct Hind as [[H0 Hn]|[Hr Hn]].
  - rewrite H0. change (u32 0 =? 0) with true. cbn [next_block]. assert (nb = 12) as -> by lia. assert (fbn = 12) as -> by lia. rewrite !xint_u32, (u32_id (freeblock s)), (u32_id (freeblock s + 1)) by lia.
    rewrite addr_set, decide_True by (done || unfold NDIRECT; lia). rewrite (u32_id (freeblock s)) by lia.
    eapply fine_bind; [apply rsect_ok; [lia|intros H%HF; cbn [nsect]; rewrite (b_nsect s Hb); change (cst (Z.max 12 (12 + 1))) with 14 in H; change (cst 12) with 12 in H; lia]|]. intros ind [-> Hlt]. cbn [nsect] in Hlt. rewrite (b_nsect s Hb) in Hlt.
    change (sect {| img := img s; nsect := nsect s; freeinode := freeinode s; freeblock := freeblock s + 1 |} (freeblock s)) with (sect s (freeblock s)).
    rewrite (b_zero s Hb (freeblock s)) by lia. rewrite get32_zero_block by done. cbn [Z.eqb]. cbn [fine next_block freeblock img nsect freeinode].
    rewrite !xint_u32, (u32_id (freeblock s + 1)), (u32_id (freeblock s + 1 + 1)), get32_put32_eq, !(u32_id (freeblock s + 1)) by (done || lia).
    pose proof (indirect_entry s p (Mk (img s) (nsect s) (freeinode s) (freeblock s + 1)) (set_addr NDIRECT (freeblock s) p) 12 g (freeblock s) Hb Hf Hg) as H.
    cbn [img nsect freeinode freeblock] in H. rewrite (b_zero s Hb (freeblock s)) in H by lia. apply H; auto; try lia.
    + unfold set_addr. cbn. by rewrite length_insert.
    + intros n Hn'. rewrite addr_set, decide_False by (done || unfold NDIRECT; lia). done.
    + by rewrite addr_set, decide_True by (done || unfold NDIRECT; lia).
  - set (a := addr_at p NDIRECT) in *. rewrite (u32_id a) by lia. destruct (a =? 0) eqn:E; bool_to_prop; [lia|]. fold a. rewrite xint_u32, (u32_id a) by lia.
    eapply fine_bind; [apply rsect_ok; [lia|rewrite (b_nsect s Hb); lia]|]. intros ind [-> Hlt].
    assert (Hi : get32 (sect s a) (4 * Z.to_nat (fbn - 12)) = iblk (sect s) p fbn) by (unfold iblk; ztest; fold a; destruct (a =? 0) eqn:E'; bool_to_prop; [lia|done]).
    rewrite Hi. destruct (fi_blk _ _ _ _ _ _ Hf fbn ltac:(lia)) as [[H0' Hn']|[Hr' Hn']].
    + rewrite H0'. cbn [Z.eqb fine next_block]. assert (fbn = nb) as -> by lia. rewrite !xint_u32, (u32_id (freeblock s)), (u32_id (freeblock s + 1)), get32_put32_eq, !(u32_id (freeblock s)) by (lia || rewrite (b_len s Hb); done).
      apply (indirect_entry s p s p nb g a Hb Hf Hg); auto; try lia. by destruct p.
    + destruct (iblk (sect s) p fbn =? 0) eqn:E'; bool_to_prop; [lia|]. cbn [fine]. rewrite xint_u32, Hi, u32_id by lia. apply got_old; [done|done|lia].
Qed.

(** ** Appending *)

Definition nbof (c : list Z) : Z := (Z.of_nat (length c) + 1023) / 1024.
Definition gof (c : list Z) (i : Z) : Z := default 0 (c !! Z.to_nat i).

Lemma byte_splice b o l k : (o + length l <= length b)%nat -> 0 <= k ->
  byte_at (splice b o l) k = if decide (Z.of_nat o <= k < Z.of_nat o + Z.of_nat (length l)) then default 0 (l !! Z.to_nat (k - Z.of_nat o)) else byte_at b k.
Proof.
  intros Hl Hk. unfold byte_at. rewrite lookup_splice by done. destruct (decide (o <= Z.to_nat k < o + length l)%nat).
  - rewrite decide_True by lia. do 2 f_equal. lia.
  - rewrite decide_False by lia. done.
Qed.

Lemma write_file v lo hi p nb g fbn o l g' : FileI v lo hi p nb g -> 0 <= fbn < nb -> 0 < lo -> (o + length l <= BSIZE)%nat -> (forall b, length (v b) = BSIZE) ->
  (forall i, 0 <= i -> g' i = if decide (fbn * BS + Z.of_nat o <= i < fbn * BS + Z.of_nat o + Z.of_nat (length l)) then default 0 (l !! Z.to_nat (i - (fbn * BS + Z.of_nat o))) else g i) ->
  let v' := updz v (iblk v p fbn) (splice (v (iblk v p fbn)) o l) in
  FileI v' lo hi p nb g' /\ forall b, own v' p nb b <-> own v p nb b.
Proof.
  intros Hf Hn Hlo Hl Hlen Hg v'. pose proof Hf as [H1 H2 H3 H4 H5 H6 H7]. assert (HB : BS = 1024) by done.
  assert (Hi : forall n, iblk v' p n = iblk v p n).
  { intros n. apply iblk_ext; [done|]. intros _. unfold v'. rewrite updz_ne; [done|]. intros E. by apply (H6 fbn Hn). }
  split; [split; auto; intros n; rewrite ?Hi; auto|].
  - intros m. rewrite Hi. auto.
  - intros k Hn' Hk. rewrite Hg by lia. unfold v'. rewrite updz_ext. case_decide as E.
    + apply H5 in E; [|lia..]. subst n. rewrite byte_splice by (rewrite ?Hlen; lia). destruct (decide (Z.of_nat o <= k < Z.of_nat o + Z.of_nat (length l))).
      * rewrite decide_True by lia. do 2 f_equal. lia.
      * rewrite decide_False by lia. apply H7; lia.
    + rewrite decide_False; [apply H7; lia|]. intros Hr. apply E. f_equal. unfold BSIZE in *. lia.
  - intros b. unfold own. by setoid_rewrite Hi.
Qed.

Lemma gof_app c l i : 0 <= i -> gof (c ++ l) i = if decide (Z.of_nat (length c) <= i < Z.of_nat (length c) + Z.of_nat (length l)) then default 0 (l !! Z.to_nat (i - Z.of_nat (length c))) else gof c i.
Proof.
  intros Hi. unfold gof. destruct (decide (i < Z.of_nat (length c))).
  - rewrite decide_False by lia. by rewrite lookup_app_l by lia.
  - rewrite lookup_app_r by lia. case_decide; [do 2 f_equal; lia|]. rewrite (lookup_ge_None_2 l), (lookup_ge_None_2 c) by lia. done.
Qed.

Lemma gof_beyond c i : nbof c * BS <= i -> gof c i = 0.
Proof. intros Hi. unfold gof. rewrite lookup_ge_None_2; [done|]. unfold nbof, BSIZE in Hi. zlia. Qed.

Lemma iappend_loop_fine k : forall l c p s, (length l <= k)%nat -> base s -> FileI (sect s) nmeta (freeblock s) p (nbof c) (gof c) -> Z.of_nat (length c) <= MAXFILE * BS ->
  fine (freeblock s + cst (nbof (c ++ l)) - cst (nbof c) <= FSSIZE /\ Z.of_nat (length (c ++ l)) <= MAXFILE * BS)
    (iappend_loop k l (Z.of_nat (length c)) p s) (fun '(off, p', s') => off = Z.of_nat (length (c ++ l)) /\ off <= MAXFILE * BS /\ base s' /\ freeblock s' = freeblock s + cst (nbof (c ++ l)) - cst (nbof c) /\
    FileI (sect s') nmeta (freeblock s') p' (nbof (c ++ l)) (gof (c ++ l)) /\ grows s p (nbof c) s' p' (nbof (c ++ l))).
Proof.
  induction k as [|k IH]; intros l c p s Hk Hb Hf Hc; (destruct l as [|x0 l0]; cbn [iappend_loop];
    [cbn; rewrite app_nil_r; split_and!; auto; [lia|split; [split_and!; lia|by destruct p|done|by left]]|]); [cbn in Hk; lia|].
  set (l := x0 :: l0) in *. assert (HB : BS = 1024) by done. assert (Hm : MAXFILE = 268) by done. assert (Hnm : nmeta = 47) by done. assert (Hfs : FSSIZE = 10000) by done.
  change (Z.of_nat BSIZE) with 1024. set (off := Z.of_nat (length c)) in *. destruct (off / 1024 <? MAXFILE) eqn:Efb; bool_to_prop; [|intros [_ HM]; rewrite length_app in HM; cbn [length l] in HM; zlia]. cbn [negb].
  set (fbn := off / 1024) in *. assert (Hfn : 0 <= fbn <= nbof c) by (unfold fbn, nbof; fold off; zlia).
  assert (Hmono : cst (Z.max (nbof c) (fbn + 1)) <= cst (nbof (c ++ l))) by (apply cst_mono; unfold nbof, fbn; rewrite length_app; fold off; cbn [length l]; zlia).
  eapply fine_bind; [apply (file_block_fine _ s p (nbof c) fbn (gof c)); [intros [HF1 _]; lia|exact Hb|exact Hf|exact (gof_beyond c)|exact Hfn|exact Efb]|]. intros [[x p'] s'] [G1 G2 G3 G4 G5 [G6 G7] G8].
  destruct (fi_blk _ _ _ _ _ _ G1 fbn ltac:(lia)) as [[? ?]|[Hx _]]; [lia|]. rewrite <- G2 in Hx.
  assert (Hoff : fbn * 1024 <= off < (fbn + 1) * 1024) by (unfold fbn; zlia).
  rewrite (u32_id ((fbn + 1) * 1024 - off)) by lia. set (n1 := Z.min (Z.of_nat (length l)) ((fbn + 1) * 1024 - off)).
  assert (Hn1 : 0 < n1 <= Z.of_nat (length l)) by (unfold n1; cbn [length l]; lia). assert (Hn2 : n1 <= (fbn + 1) * 1024 - off) by lia.
  destruct (g_base _ _ _ _ _ _ G3) as (Gn & Gi & Gf). rewrite (b_nsect s Hb) in Gn.
  eapply fine_bind; [apply rsect_ok; [lia|intros [HF1 _]; lia]|]. intros buf [-> Hlt]. rewrite Gn in Hlt.
  set (w := take (Z.to_nat n1) l). assert (Hw : length w = Z.to_nat n1) by (unfold w; rewrite length_take; lia).
  set (o := Z.to_nat (off - fbn * 1024)). set (s2 := wsect x (splice (sect s' x) o w) s'). rewrite (u32_id (off + n1)) by lia.
  assert (Enb : Z.max (nbof c) (fbn + 1) = nbof (c ++ w)) by (unfold nbof, fbn in *; rewrite length_app, Hw; fold off; zlia). rewrite Enb in *.
  assert (Hfit : (o + length w <= BSIZE)%nat) by (unfold o, BSIZE; rewrite Hw; lia).
  assert (Hcw : off = fbn * BS + Z.of_nat o) by (unfold o; lia). destruct (write_file (sect s') nmeta (freeblock s') p' (nbof (c ++ w)) (gof c) fbn o w (gof (c ++ w)) G1) as [F1 F2]; auto; [lia|lia| |].
  { intros i Hi. rewrite (gof_app c w i Hi). fold off. by rewrite <- Hcw. }
  rewrite <- G2 in F1, F2.
  assert (Hv : forall n, sect s2 n = updz (sect s') x (splice (sect s' x) o w) n) by (intros n; unfold s2; rewrite sect_wsect by lia; by rewrite updz_ext).
  assert (Hns : nsect s2 = FSSIZE) by (unfold s2; cbn [nsect wsect]; rewrite sector_id by lia; lia).
  assert (Hb2 : base s2).
  { split; [done| | |].
    - intros n. rewrite Hv, updz_ext. case_decide; [|apply G4]. rewrite length_splice; [apply G4|]. rewrite G4. done.
    - pose proof (b_free s Hb). change (freeblock s2) with (freeblock s'). lia.
    - intros n. change (freeblock s2) with (freeblock s'). intros Hn. rewrite Hv, updz_ne by lia. by apply G5. }
  assert (Hf2 : FileI (sect s2) nmeta (freeblock s2) p' (nbof (c ++ w)) (gof (c ++ w))) by (apply (FileI_ext _ _ _ _ _ _ _ Hv); done).
  assert (Hg2 : grows s p (nbof c) s2 p' (nbof (c ++ w))).
  { apply (appended_trans s p (nbof c) s' p' (nbof (c ++ w))); [done|]. split; [split_and!; [lia|done|change (freeblock s2) with (freeblock s'); lia]|by destruct p'| |].
    - intros b Hbb Hno. rewrite Hv, updz_ne; [done|]. intros ->. apply Hno. left. exists fbn. split; [lia|done].
    - intros b Ho. left. apply (own_ext _ _ _ _ b Hv) in Ho. by apply F2. }
  assert (Eapp : c ++ l = (c ++ w) ++ drop (Z.to_nat n1) l) by (unfold w; by rewrite <- app_assoc, take_drop). rewrite Eapp.
  replace (off + n1) with (Z.of_nat (length (c ++ w))) by (rewrite length_app, Hw; lia).
  change (freeblock s2) with (freeblock s') in *.
  eapply fine_mono; [apply (IH (drop (Z.to_nat n1) l) (c ++ w) p' s2); auto| |].
  - rewrite length_drop. lia.
  - rewrite length_app, Hw. lia.
  - change (freeblock s2) with (freeblock s'). rewrite G8. intros [? ?]. split; [lia|done].
  - intros [[off' p2] s3] (E1 & E2 & E3 & E4 & E5 & E6). change (freeblock s2) with (freeblock s') in E4. split_and!; auto; [lia|]. by apply (appended_trans s p (nbof c) s2 p' (nbof (c ++ w))).
Qed.

(** * mkfs: inodes in their blocks, and the state of the image *)

Import Mkfs.

(** ** The 64 bytes of an inode *)

Definition enc (p : inode) : list Z :=
  le_bytes 2 (u16 (i_type p)) ++ le_bytes 2 (u16 (i_major p)) ++ le_bytes 2 (u16 (i_minor p)) ++ le_bytes 2 (u16 (nlink p)) ++ le_bytes 4 (u32 (i_size p)) ++ put_addrs (addrs p).

Lemma length_enc p : length (addrs p) = 13%nat -> length (enc p) = 64%nat.
Proof.
  intros H. unfold enc. rewrite !length_app, !length_le_bytes. assert (E : forall l, length (put_addrs l) = (4 * length l)%nat); [|rewrite E; lia].
  induction l as [|a l IH]; [done|]. unfold put_addrs in *. cbn [map concat]. rewrite length_app, length_le_bytes, IH. cbn [length]. lia.
Qed.

Lemma splice_adj d off a b : (off + length a + length b <= length d)%nat -> splice (splice d off a) (off + length a) b = splice d off (a ++ b).
Proof.
  intros H. apply list_eq. intros i. rewrite !lookup_splice by (rewrite ?length_splice, ?length_app; lia). rewrite length_app.
  repeat case_decide; try lia; try done; [by rewrite lookup_app_r by lia; f_equal; lia|by rewrite lookup_app_l by lia].
Qed.

Lemma slice_splice_in d off e k n : (off + length e <= length d)%nat -> (k + n <= length e)%nat -> slice (splice d off e) (off + k) n = slice e k n.
Proof.
  intros H1 H2. apply slice_ext; [rewrite length_splice; lia|lia|]. intros i Hi. rewrite lookup_splice, decide_True by lia. f_equal. lia.
Qed.

Lemma slice_slice d off m k n : (off + m <= length d)%nat -> (k + n <= m)%nat -> slice (slice d off m) k n = slice d (off + k) n.
Proof. intros H1 H2. apply slice_ext; [rewrite length_slice; lia|lia|]. intros i Hi. rewrite lookup_slice by lia. f_equal. lia. Qed.

Lemma dinode_put_enc p d off : length (addrs p) = 13%nat -> (off + 64 <= length d)%nat -> dinode_put p d off = splice d off (enc p).
Proof.
  intros Ha Hd. assert (Hp : length (put_addrs (addrs p)) = 52%nat) by (pose proof (length_enc p Ha) as H; unfold enc in H; rewrite !length_app, !length_le_bytes in H; lia).
  unfold dinode_put, put16, put32. set (b1 := le_bytes 2 (u16 (i_type p))). set (b2 := le_bytes 2 (u16 (i_major p))). set (b3 := le_bytes 2 (u16 (i_minor p))). set (b4 := le_bytes 2 (u16 (nlink p))). set (b5 := le_bytes 4 (u32 (i_size p))).
  assert (L1 : length b1 = 2%nat) by apply length_le_bytes. assert (L2 : length b2 = 2%nat) by apply length_le_bytes. assert (L3 : length b3 = 2%nat) by apply length_le_bytes.
  assert (L4 : length b4 = 2%nat) by apply length_le_bytes. assert (L5 : length b5 = 4%nat) by apply length_le_bytes.
  replace (off + 2)%nat with (off + length b1)%nat by lia. rewrite splice_adj by lia.
  replace (off + 4)%nat with (off + length (b1 ++ b2))%nat by (rewrite length_app; lia). rewrite splice_adj by (rewrite ?length_app; lia).
  replace (off + 6)%nat with (off + length ((b1 ++ b2) ++ b3))%nat by (rewrite !length_app; lia). rewrite splice_adj by (rewrite ?length_app; lia).
  replace (off + 8)%nat with (off + length (((b1 ++ b2) ++ b3) ++ b4))%nat by (rewrite !length_app; lia). rewrite splice_adj by (rewrite ?length_app; lia).
  replace (off + 12)%nat with (off + length ((((b1 ++ b2) ++ b3) ++ b4) ++ b5))%nat by (rewrite !length_app; lia). rewrite splice_adj by (rewrite ?length_app; lia).
  unfold enc. fold b1 b2 b3 b4 b5. by rewrite <- !app_assoc.
Qed.

Lemma dinode_get_slice d off q : (off + 64 <= length d)%nat -> dinode_get d off q = dinode_get (slice d off 64) 0 q.
Proof.
  intros Hd. assert (H2 : forall k, (k + 2 <= 64)%nat -> get16 d (off + k) = get16 (slice d off 64) k) by (intros k Hk; unfold get16; by rewrite slice_slice by lia).
  assert (H4 : forall k, (k + 4 <= 64)%nat -> get32 d (off + k) = get32 (slice d off 64) k) by (intros k Hk; unfold get32; by rewrite slice_slice by lia).
  assert (Hg : forall n k, (k + 4 * n <= 64)%nat -> get_addrs n d (off + k) = get_addrs n (slice d off 64) k).
  { induction n as [|n IH]; intros k Hk; [done|]. cbn [get_addrs]. rewrite H4 by lia. f_equal. rewrite <- Nat.add_assoc. apply IH. lia. }
  pose proof (H2 0%nat ltac:(lia)) as H0. rewrite Nat.add_0_r in H0. unfold dinode_get. by rewrite H0, !H2, H4, Hg by (unfold NDIRECT; lia).
Qed.

(** The inodes that mkfs writes. *)
Definition dnode (t size : Z) (a : list Z) : inode := Inode 0 0 0 (SleepLock false 0) false t 0 0 1 size a.

Definition dnode_ok (t size : Z) (a : list Z) : Prop := 0 <= t < 32768 /\ 0 <= size < 4294967296 /\ length a = 13%nat /\ Forall (fun x => 0 <= x < 4294967296) a.

Lemma le_val_16 v : 0 <= v < 32768 -> s16 (le_val (le_bytes 2 (u16 v))) = v.
Proof. intros H. rewrite le_val_bytes by (pose proof (u16_range v); change (256 ^ Z.of_nat 2) with 65536; lia). rewrite u16_id by lia. by rewrite s16_id by lia. Qed.

Lemma le_val_32 v : 0 <= v < 4294967296 -> le_val (le_bytes 4 (u32 v)) = v.
Proof. intros H. rewrite le_val_bytes by (pose proof (u32_range v); change (256 ^ Z.of_nat 4) with 4294967296; lia). by rewrite u32_id by lia. Qed.

Lemma get_addrs_put a : forall l off, length l = off -> Forall (fun x => 0 <= x < 4294967296) a -> get_addrs (length a) (l ++ put_addrs a) off = a.
Proof.
  induction a as [|x a IH]; intros l off Hl Ha; [done|]. apply Forall_cons in Ha as [Hx Ha]. unfold put_addrs. cbn [map concat length get_addrs]. fold (put_addrs a). f_equal.
  - unfold get32, slice. rewrite drop_app_length' by done. rewrite take_app_length' by (by rewrite length_le_bytes). by apply le_val_32.
  - rewrite app_assoc. apply IH; [|done]. rewrite length_app, length_le_bytes. lia.
Qed.

Lemma get_enc t size a : dnode_ok t size a -> dinode_get (enc (dnode t size a)) 0 inode0 = dnode t size a.
Proof.
  intros (Ht & Hs & Hl & Ha). unfold dinode_get. assert (E : get_addrs (NDIRECT + 1) (enc (dnode t size a)) (0 + 12) = a).
  { change (NDIRECT + 1)%nat with 13%nat. rewrite <- Hl. unfold enc. cbn [dnode i_type i_major i_minor nlink i_size addrs]. rewrite !app_assoc. apply get_addrs_put; [|done]. by rewrite !length_app, !length_le_bytes. }
  assert (E1 : s16 (get16 (enc (dnode t size a)) 0) = t) by exact (le_val_16 t Ht).
  assert (E2 : s16 (get16 (enc (dnode t size a)) (0 + 2)) = 0) by done. assert (E3 : s16 (get16 (enc (dnode t size a)) (0 + 4)) = 0) by done.
  assert (E4 : s16 (get16 (enc (dnode t size a)) (0 + 6)) = 1) by done. assert (E5 : get32 (enc (dnode t size a)) (0 + 8) = size) by exact (le_val_32 size Hs).
  by rewrite E, E1, E2, E3, E4, E5.
Qed.

(** ** Inodes of the image *)

Definition inode_at (v : Z -> block) (num : Z) : inode := dinode_get (v (IBLOCK num sb)) (dinode_off num) inode0.

Lemma iblock_eq num : IBLOCK num sb = num / 16 + 32.
Proof. done. Qed.

Lemma off_fits num : 0 <= num -> (dinode_off num + 64 <= BSIZE)%nat.
Proof. intros. unfold dinode_off, IPB, BSIZE. zlia. Qed.

(** Writing an inode changes no other one. *)
Lemma winode_fine num t size a s : base s -> 0 < num < 208 -> dnode_ok t size a ->
  exists s', winode num (dnode t size a) s = Ok s' /\ base s' /\ freeinode s' = freeinode s /\ freeblock s' = freeblock s /\
    (forall n, 45 <= n \/ n < 32 -> sect s' n = sect s n) /\
    (forall m, 0 < m < 208 -> inode_at (sect s') m = if decide (m = num) then dnode t size a else inode_at (sect s) m).
Proof.
  intros Hb Hn Hd. unfold winode, rsect. rewrite iblock_eq, sector_id by zlia. rewrite (b_nsect s Hb). assert (Hfs : FSSIZE = 10000) by done. assert (Hnm : nmeta = 47) by done.
  destruct (num / 16 + 32 <? FSSIZE) eqn:E; bool_to_prop; [|zlia]. cbn [mbind outcome_bind]. set (bn := num / 16 + 32) in *. assert (Hbn : 32 <= bn < 45) by (unfold bn; zlia).
  pose proof (b_len s Hb bn) as Hlen. pose proof (off_fits num ltac:(lia)) as Hoff. destruct (Hd) as (_ & _ & Hl & _). eexists. split; [reflexivity|].
  assert (Hv : forall n, sect (wsect bn (dinode_put (dnode t size a) (sect s bn) (dinode_off num)) s) n = if decide (n = bn) then splice (sect s bn) (dinode_off num) (enc (dnode t size a)) else sect s n).
  { intros n. rewrite sect_wsect by lia. by rewrite dinode_put_enc by (done || lia). }
  pose proof (length_enc (dnode t size a) Hl) as He.
  split_and!; [|done|done| |].
  - destruct Hb as [B1 B2 B3 B4]. split.
    + cbn [nsect wsect]. rewrite sector_id by lia. lia.
    + intros n. rewrite Hv. case_decide; [|done]. rewrite length_splice; [done|]. lia.
    + done.
    + intros n Hn'. rewrite Hv, decide_False by (cbn in Hn'; lia). by apply B4.
  - intros n Hn'. rewrite Hv, decide_False by lia. done.
  - intros m Hm. unfold inode_at. rewrite Hv, iblock_eq. pose proof (off_fits m ltac:(lia)) as Hom. destruct (decide (m = num)) as [->|Hne].
    + rewrite decide_True by done. rewrite dinode_get_slice by (rewrite length_splice; lia). rewrite <- He at 1. rewrite slice_splice_same by lia. by apply get_enc.
    + case_decide as E2; [|done]. rewrite dinode_get_slice by (rewrite length_splice; lia). rewrite slice_splice_other, <- dinode_get_slice; [by rewrite E2|lia|lia|lia|].
      rewrite He. unfold dinode_off, IPB. unfold bn in E2. zlia.
Qed.
