(* ===== verification/MkfsProps.v ===== *)
(** * mkfs: the image is a well-formed file system *)
From stdpp Require Import gmap.
From S2P Require Import Prelude Cstring Block Bio Fs FsTheory FsFile FsProps Mkfs MkfsTheory.

Import Mkfs.

(** ** The image while files are added *)

(** The blocks that files take, and whether they fit. *)
Definition usedz (L : list (Z * list Z)) : Z := foldr (fun x n => cst (nbof x.2) + n) 0 L.
Definition fits (L : list (Z * list Z)) : Prop := nmeta + usedz L <= FSSIZE /\ Forall (fun x => Z.of_nat (length x.2) <= MAXFILE * BS) L.

Fixpoint le_files (L L' : list (Z * list Z)) : Prop :=
  match L, L' with
  | [], _ => True
  | x :: L, y :: L' => (length x.2 <= length y.2)%nat /\ le_files L L'
  | _, [] => False
  end.

Lemma nbof_nonneg c : 0 <= nbof c.
Proof. unfold nbof. zlia. Qed.

Lemma cst_nonneg n : 0 <= n -> 0 <= cst n.
Proof. intros. unfold cst. destruct (12 <? n); lia. Qed.

Lemma usedz_cons x L : usedz (x :: L) = cst (nbof x.2) + usedz L.
Proof. done. Qed.

Lemma usedz_nonneg L : 0 <= usedz L.
Proof. induction L as [|x L IH]; [done|]. rewrite usedz_cons. pose proof (cst_nonneg (nbof x.2) (nbof_nonneg x.2)). lia. Qed.

Lemma usedz_app L L' : usedz (L ++ L') = usedz L + usedz L'.
Proof. induction L as [|x L IH]; [done|]. cbn [app]. rewrite !usedz_cons, IH. lia. Qed.

Lemma usedz_insert L j t c c' : L !! j = Some (t, c) -> usedz (<[j := (t, c')]> L) = usedz L + cst (nbof c') - cst (nbof c).
Proof.
  intros Hj. rewrite insert_take_drop by (by apply lookup_lt_Some in Hj). rewrite <- (take_drop_middle L j _ Hj) at 3. rewrite !usedz_app, !usedz_cons. cbn [snd]. lia.
Qed.

Lemma fits_mono L L' : le_files L L' -> fits L' -> fits L.
Proof.
  intros Hle [H1 H2]. assert (usedz L <= usedz L' /\ Forall (fun x => Z.of_nat (length x.2) <= MAXFILE * BS) L) as [? ?]; [|split; [lia|done]].
  clear H1. revert L' Hle H2. induction L as [|x L IH]; intros [|y L'] Hle H2; cbn [le_files] in Hle; try done; [split; [apply (usedz_nonneg (y :: L'))|done]|].
  destruct Hle as [Hx Hle]. apply Forall_cons in H2 as [Hy H2]. destruct (IH L' Hle H2) as [IH1 IH2]. split; [|constructor; [lia|done]].
  assert (cst (nbof x.2) <= cst (nbof y.2)) by (apply cst_mono; unfold nbof; zlia). rewrite !usedz_cons. lia.
Qed.

Lemma le_files_refl L : le_files L L.
Proof. induction L; cbn; auto. Qed.

Lemma le_files_insert L j x y : (length x.2 <= length y.2)%nat -> le_files (<[j := x]> L) (<[j := y]> L).
Proof. intros H. revert j. induction L as [|z L IH]; intros [|j]; cbn; auto using le_files_refl. Qed.

Lemma le_files_app L L' M : le_files L L' -> le_files L (L' ++ M).
Proof. revert L'. induction L as [|x L IH]; intros [|y L'] H; cbn in *; try done. destruct H. auto. Qed.

(** [L] has the type and the bytes of the inodes made so far. *)
Record MKI (s : mk) (L : list (Z * list Z)) : Prop := {
  m_base : base s;
  m_sb : sect s 1 = splice zero_block 0 (sb_bytes sb);
  m_zero : forall n, 2 <= n < 32 \/ 45 <= n < 47 -> sect s n = zero_block;
  m_next : freeinode s = 1 + Z.of_nat (length L);
  m_count : (length L <= 199)%nat;
  m_used : freeblock s = nmeta + usedz L;
  m_file : forall j t c, L !! j = Some (t, c) -> 0 <= t < 32768 /\ Z.of_nat (length c) <= MAXFILE * BS /\
    exists a, inode_at (sect s) (1 + Z.of_nat j) = dnode t (Z.of_nat (length c)) a /\ FileI (sect s) nmeta (freeblock s) (dnode t (Z.of_nat (length c)) a) (nbof c) (gof c);
  m_apart : forall j k t c t' c' b, j <> k -> L !! j = Some (t, c) -> L !! k = Some (t', c') ->
    own (sect s) (inode_at (sect s) (1 + Z.of_nat j)) (nbof c) b -> ~ own (sect s) (inode_at (sect s) (1 + Z.of_nat k)) (nbof c') b;
  m_unused : forall num, freeinode s <= num < 208 -> i_type (inode_at (sect s) num) = 0
}.

Lemma FileI_empty v t : FileI v nmeta nmeta (dnode t 0 (replicate 13 0)) 0 (gof []).
Proof.
  assert (Ha : forall n, addr_at (dnode t 0 (replicate 13 0)) n = 0) by (intros n; unfold addr_at; cbn [addrs dnode]; destruct (replicate 13 0 !! n) eqn:E; [by apply lookup_replicate in E as [-> _]|done]).
  assert (Hi : forall n, iblk v (dnode t 0 (replicate 13 0)) n = 0) by (intros n; unfold iblk; rewrite !Ha; by destruct (n <? 12)).
  split; try (intros; lia); [done|done| |]; [intros n Hn; left; rewrite Hi; lia|left; rewrite Ha; done].
Qed.

Lemma FileI_addrs v hi p nb g : FileI v nmeta hi p nb g -> hi <= FSSIZE -> Forall (fun x => 0 <= x < 4294967296) (addrs p).
Proof.
  intros [H1 H2 H3 H4 _ _ _] Hh. assert (Hfs : FSSIZE = 10000) by done. assert (Hnm : nmeta = 47) by done. assert (Hm : MAXFILE = 268) by done. apply Forall_lookup_2. intros i x Hx.
  assert (Hi : (i < 13)%nat) by (apply lookup_lt_Some in Hx; lia). assert (Ea : addr_at p i = x) by (unfold addr_at; by rewrite Hx). destruct (decide (i = 12%nat)) as [->|Hne].
  - unfold NDIRECT in H4. lia.
  - specialize (H3 (Z.of_nat i) ltac:(lia)). unfold iblk in H3. rewrite Nat2Z.id, Ea in H3. destruct (Z.of_nat i <? 12) eqn:E; bool_to_prop; lia.
Qed.

(** ** [ialloc] and [iappend] *)

Lemma MKI_keep s L s' j t c a : MKI s L -> L !! j = Some (t, c) -> inode_at (sect s) (1 + Z.of_nat j) = dnode t (Z.of_nat (length c)) a ->
  freeblock s <= freeblock s' -> (forall b, own (sect s) (dnode t (Z.of_nat (length c)) a) (nbof c) b -> sect s' b = sect s b) ->
  FileI (sect s') nmeta (freeblock s') (dnode t (Z.of_nat (length c)) a) (nbof c) (gof c) /\
  forall b, own (sect s') (dnode t (Z.of_nat (length c)) a) (nbof c) b <-> own (sect s) (dnode t (Z.of_nat (length c)) a) (nbof c) b.
Proof.
  intros Hm Hj Ea Hh Hv. destruct (m_file s L Hm j t c Hj) as (_ & _ & a' & Ea' & Hf). rewrite Ea in Ea'. assert (a' = a) as -> by (by injection Ea').
  by apply (FileI_frame (sect s) (sect s') nmeta (freeblock s) (freeblock s') (dnode t (Z.of_nat (length c)) a)).
Qed.

Lemma ialloc_fine (F : Prop) t s L : MKI s L -> (length L < 199)%nat -> 0 < t < 32768 ->
  fine F (ialloc t s) (fun '(n, s') => n = 1 + Z.of_nat (length L) /\ MKI s' (L ++ [(t, [])])).
Proof.
  intros Hm Hc Ht. pose proof Hm as [Hb Hsb Hbm Hn _ Hus Hf Ha Hu]. unfold ialloc. rewrite !xshort_u16, xint_u32.
  assert (Hfs : FSSIZE = 10000) by done. assert (Hnm : nmeta = 47) by done.
  replace (set_size (u32 0) (set_nlink (u16 1) (set_type (u16 t) inode0))) with (dnode t 0 (replicate 13 0)) by (unfold dnode; rewrite (u16_id t) by lia; done).
  rewrite Hn. rewrite u32_id by lia. match goal with |- context [winode _ _ ?x] => set (s0 := x) end.
  assert (Hb0 : base s0) by (destruct Hb; by split). set (num := 1 + Z.of_nat (length L)) in *.
  destruct (winode_fine num t 0 (replicate 13 0) s0 Hb0) as (s' & -> & Hb' & Hfi & Hfb & Hout & Hin); [lia|split_and!; [lia..|done|by apply Forall_replicate]|]. cbn [mbind outcome_bind fine].
  split; [done|]. cbn [freeinode freeblock s0] in Hfi, Hfb. change (sect s0) with (sect s) in *. change (freeblock s0) with (freeblock s) in Hfb.
  assert (Hkeep : forall j t c, L !! j = Some (t, c) -> inode_at (sect s') (1 + Z.of_nat j) = inode_at (sect s) (1 + Z.of_nat j)).
  { intros j t' c Hj. apply lookup_lt_Some in Hj. rewrite Hin by lia. rewrite decide_False by lia. done. }
  assert (Hlook : forall j t' c, (L ++ [(t, [])]) !! j = Some (t', c) -> L !! j = Some (t', c) \/ (j = length L /\ t' = t /\ c = [])).
  { intros j t' c Hj. apply lookup_snoc_Some in Hj as [[_ ?]|[-> [= -> ->]]]; auto. }
  assert (Hold : forall j t c, L !! j = Some (t, c) -> forall b, own (sect s') (inode_at (sect s') (1 + Z.of_nat j)) (nbof c) b <-> own (sect s) (inode_at (sect s) (1 + Z.of_nat j)) (nbof c) b).
  { intros j t' c Hj b. rewrite (Hkeep j t' c Hj). destruct (Hf j t' c Hj) as (_ & _ & a & Ea & HF). rewrite Ea. apply (MKI_keep s L s' j t' c a Hm Hj Ea); [lia|].
    intros b' Ho. apply Hout. apply (own_range _ _ _ _ _ _ _ HF) in Ho. lia. }
  split; auto.
  - by rewrite Hout by lia.
  - intros n Hn'. rewrite Hout by lia. by apply Hbm.
  - rewrite Hfi, length_app. cbn. lia.
  - rewrite length_app. cbn. lia.
  - rewrite Hfb, Hus, usedz_app. change (usedz [(t, [])]) with 0. lia.
  - intros j t' c [Hj|(-> & -> & ->)]%Hlook.
    + rewrite (Hkeep j t' c Hj). destruct (Hf j t' c Hj) as (H1 & H2 & a & Ea & HF). split; [done|]. split; [done|]. exists a. split; [done|].
      apply (MKI_keep s L s' j t' c a Hm Hj Ea); [lia|]. intros b Ho. apply Hout. apply (own_range _ _ _ _ _ _ _ HF) in Ho. lia.
    + fold num. split; [lia|]. split; [change (Z.of_nat (length (@nil Z))) with 0; unfold MAXFILE, BSIZE; lia|]. exists (replicate 13 0). rewrite Hin, decide_True by (done || lia). split; [done|]. pose proof (b_free s Hb).
      destruct (FileI_frame (sect s') (sect s') nmeta nmeta (freeblock s') _ (dnode t 0 (replicate 13 0)) _ _ (FileI_empty (sect s') t)) as [H' _]; [done|lia|lia|done|exact H'].
  - assert (Hnew : forall b, ~ own (sect s') (inode_at (sect s') (1 + Z.of_nat (length L))) (nbof []) b) by (intros b [(n & Hn' & _)|[Hn' _]]; change (nbof []) with 0 in Hn'; lia).
    intros j k t1 c1 t2 c2 b Hjk [Hj|(-> & -> & ->)]%Hlook [Hk|(-> & -> & ->)]%Hlook Ho Ho'; [|by apply Hnew in Ho'|by apply Hnew in Ho|done].
    rewrite (Hold j t1 c1 Hj) in Ho. rewrite (Hold k t2 c2 Hk) in Ho'. by apply (Ha j k t1 c1 t2 c2 b).
  - intros n Hn'. rewrite Hin by lia. rewrite decide_False by lia. apply Hu. lia.
Qed.

Lemma inode_at_ext v v' num : 0 < num < 208 -> (forall n, 32 <= n < 45 -> v' n = v n) -> inode_at v' num = inode_at v num.
Proof. intros Hn Hv. unfold inode_at. rewrite Hv; [done|]. rewrite iblock_eq. zlia. Qed.

(** The other files, when one file has grown. *)
Lemma append_other s L j t c s2 k t' x : MKI s L -> L !! j = Some (t, c) -> L !! k = Some (t', x) -> k <> j -> freeblock s <= freeblock s2 ->
  (forall b, 45 <= b -> b < freeblock s -> ~ own (sect s) (inode_at (sect s) (1 + Z.of_nat j)) (nbof c) b -> sect s2 b = sect s b) ->
  inode_at (sect s2) (1 + Z.of_nat k) = inode_at (sect s) (1 + Z.of_nat k) ->
  inode_at (sect s2) (1 + Z.of_nat k) = inode_at (sect s) (1 + Z.of_nat k) /\
  (exists a', inode_at (sect s) (1 + Z.of_nat k) = dnode t' (Z.of_nat (length x)) a' /\ FileI (sect s2) nmeta (freeblock s2) (dnode t' (Z.of_nat (length x)) a') (nbof x) (gof x)) /\
  forall b, own (sect s2) (inode_at (sect s2) (1 + Z.of_nat k)) (nbof x) b <-> own (sect s) (inode_at (sect s) (1 + Z.of_nat k)) (nbof x) b.
Proof.
  intros Hm Hj Hk Hne Hfb Hfr Ek. assert (Hnm : nmeta = 47) by done. destruct (m_file s L Hm k t' x Hk) as (_ & _ & a' & Ea' & HFk).
  assert (Hko : forall b, own (sect s) (dnode t' (Z.of_nat (length x)) a') (nbof x) b -> sect s2 b = sect s b).
  { intros b Ho. pose proof (own_range _ _ _ _ _ _ _ HFk Ho). apply Hfr; [lia|lia|]. rewrite <- Ea' in Ho. by apply (m_apart s L Hm k j t' x t c b Hne Hk Hj). }
  destruct (MKI_keep s L s2 k t' x a' Hm Hk Ea' Hfb Hko) as [K1 K2]. split_and!; [done|eauto|]. intros b. rewrite Ek, Ea'. apply K2.
Qed.

Lemma iappend_fine s L j t c l : MKI s L -> L !! j = Some (t, c) -> fine (fits (<[j := (t, c ++ l)]> L)) (iappend (1 + Z.of_nat j) l s) (fun s' => MKI s' (<[j := (t, c ++ l)]> L)).
Proof.
  intros Hm Hj. pose proof Hm as [Hb Hsb Hbm Hn Hc Hus Hf Ha Hu]. assert (Hjl : (j < length L)%nat) by (by apply lookup_lt_Some in Hj).
  assert (Hfs : FSSIZE = 10000) by done. assert (Hnm : nmeta = 47) by done. assert (HB : BS = 1024) by done. assert (Hmx : MAXFILE = 268) by done. pose proof (b_free s Hb) as Hfree.
  set (num := 1 + Z.of_nat j) in *. destruct (Hf j t c Hj) as (Ht & Hlen & a & Ea & HF). fold num in Ea. unfold iappend, rinode, rsect. rewrite iblock_eq, sector_id by zlia. rewrite (b_nsect s Hb).
  destruct (num / 16 + 32 <? FSSIZE) eqn:E; bool_to_prop; [|zlia]. cbn [mbind outcome_bind]. rewrite <- iblock_eq. fold (inode_at (sect s) num). rewrite Ea. cbn [i_size dnode]. rewrite xint_u32, u32_id by lia.
  fold (dnode t (Z.of_nat (length c)) a). eapply fine_bind.
  { eapply fine_mono; [apply (iappend_loop_fine (length l) l c _ s); [done|done|exact HF|done]| |intros x Hx; exact Hx].
    intros [Hu1 Hu2]. rewrite (usedz_insert L j t c) in Hu1 by done. rewrite Forall_lookup in Hu2. specialize (Hu2 j (t, c ++ l)). rewrite list_lookup_insert_eq in Hu2 by done. split; [lia|by apply Hu2]. }
  intros [[off p'] s1] (-> & Hoff & Hb1 & Hcost & HF1 & [(G1 & G2 & G3) G4 G5 G6]).
  set (c' := c ++ l) in *. rewrite xint_u32, u32_id by lia. rewrite G4. change (set_size (Z.of_nat (length c')) (set_addrs (addrs p') (dnode t (Z.of_nat (length c)) a))) with (dnode t (Z.of_nat (length c')) (addrs p')).
  assert (Hd : dnode_ok t (Z.of_nat (length c')) (addrs p')) by (split_and!; [lia..|apply HF1|apply (FileI_addrs _ _ _ _ _ HF1), Hb1]).
  destruct (winode_fine num t (Z.of_nat (length c')) (addrs p') s1 Hb1 ltac:(lia) Hd) as (s2 & -> & Hb2 & Hfi & Hfb & Hout & Hin). cbn [fine].
  assert (Hlow : forall n, n < 47 -> sect s1 n = sect s n) by (intros n Hn'; apply G5; [lia|]; intros Ho; apply (own_range _ _ _ _ _ _ _ HF) in Ho; lia).
  assert (Hin1 : forall m, 0 < m < 208 -> inode_at (sect s1) m = inode_at (sect s) m) by (intros m Hm'; apply inode_at_ext; [done|]; intros n Hn'; apply Hlow; lia).
  assert (Hnew : FileI (sect s2) nmeta (freeblock s2) (dnode t (Z.of_nat (length c')) (addrs p')) (nbof c') (gof c') /\
    forall b, own (sect s2) (dnode t (Z.of_nat (length c')) (addrs p')) (nbof c') b <-> own (sect s1) p' (nbof c') b).
  { apply (FileI_frame (sect s1) (sect s2) nmeta (freeblock s1) (freeblock s2) p'); [done|done|lia|lia|]. intros b Ho. apply Hout. apply (own_range _ _ _ _ _ _ _ HF1) in Ho. lia. }
  destruct Hnew as [HF2 Ho2].
  assert (Hother : forall k t' x, L !! k = Some (t', x) -> k <> j -> inode_at (sect s2) (1 + Z.of_nat k) = inode_at (sect s) (1 + Z.of_nat k) /\
    (exists a', inode_at (sect s) (1 + Z.of_nat k) = dnode t' (Z.of_nat (length x)) a' /\ FileI (sect s2) nmeta (freeblock s2) (dnode t' (Z.of_nat (length x)) a') (nbof x) (gof x)) /\
    forall b, own (sect s2) (inode_at (sect s2) (1 + Z.of_nat k)) (nbof x) b <-> own (sect s) (inode_at (sect s) (1 + Z.of_nat k)) (nbof x) b).
  { intros k t' x Hk Hne. assert (Hkl : (k < length L)%nat) by (by apply lookup_lt_Some in Hk). apply (append_other s L j t c s2 k t' x Hm Hj Hk Hne); [lia| |].
    - intros b Hb45 Hbf Hno. rewrite Hout by lia. apply G5; [done|]. by rewrite <- Ea.
    - rewrite Hin by lia. rewrite decide_False by lia. apply Hin1. lia. }
  assert (Hino : inode_at (sect s2) num = dnode t (Z.of_nat (length c')) (addrs p')) by (rewrite Hin, decide_True; [done..|lia]).
  assert (Hlook : forall k t' x, <[j := (t, c')]> L !! k = Some (t', x) -> (k = j /\ t' = t /\ x = c') \/ (k <> j /\ L !! k = Some (t', x))).
  { intros k t' x Hk. destruct (decide (k = j)) as [->|]; [rewrite list_lookup_insert_eq in Hk by done; left; by injection Hk as <- <-|rewrite list_lookup_insert_ne in Hk by done; auto]. }
  split; rewrite ?length_insert; auto.
  - rewrite Hout, Hlow by lia. done.
  - intros n Hn'. rewrite Hout, Hlow by lia. by apply Hbm.
  - lia.
  - rewrite (usedz_insert L j t c) by done. lia.
  - intros k t' x [(-> & -> & ->)|[Hne Hk]]%Hlook; [fold num; split; [done|]; split; [done|]; rewrite Hino; by exists (addrs p')|].
    destruct (Hother k t' x Hk Hne) as (Ek & Hex & _). rewrite Ek. destruct (Hf k t' x Hk) as (H1 & H2 & _). auto.
  - intros k k' t1 c1 t2 c2 b Hkk [(-> & -> & ->)|[Hne Hk]]%Hlook [(-> & -> & ->)|[Hne' Hk']]%Hlook; [done|..].
    + fold num. rewrite Hino, Ho2. destruct (Hother k' t2 c2 Hk' Hne') as (_ & _ & ->). intros Ho Ho'. apply G6 in Ho as [Ho|Ho].
      * rewrite <- Ea in Ho. by apply (Ha j k' t c t2 c2 b Hkk Hj Hk').
      * destruct (Hf k' t2 c2 Hk') as (_ & _ & a' & Ea' & HFk). rewrite Ea' in Ho'. apply (own_range _ _ _ _ _ _ _ HFk) in Ho'. lia.
    + fold num. rewrite Hino, Ho2. destruct (Hother k t1 c1 Hk Hne) as (_ & _ & ->). intros Ho' Ho. apply G6 in Ho as [Ho|Ho].
      * rewrite <- Ea in Ho. by apply (Ha k j t1 c1 t c b Hkk Hk Hj).
      * destruct (Hf k t1 c1 Hk) as (_ & _ & a' & Ea' & HFk). rewrite Ea' in Ho'. apply (own_range _ _ _ _ _ _ _ HFk) in Ho'. lia.
    + destruct (Hother k t1 c1 Hk Hne) as (_ & _ & ->). destruct (Hother k' t2 c2 Hk' Hne') as (_ & _ & ->). by apply (Ha k k' t1 c1 t2 c2 b).
  - intros n Hn'. rewrite Hin by lia. rewrite decide_False by lia. rewrite Hin1 by lia. apply Hu. lia.
Qed.

(** ** The empty image *)

Lemma zero_sectors k : Z.of_nat k <= 4194304 -> let s' := foldl (fun s i => wsect i zero_block s) (Mk ∅ 0 1 nmeta) (seqZ 0 (Z.of_nat k)) in
  (forall n, sect s' n = zero_block) /\ freeinode s' = 1 /\ freeblock s' = nmeta /\ nsect s' = Z.of_nat k.
Proof.
  induction k as [|k IH]; intros Hk; [done|]. replace (Z.of_nat (S k)) with (Z.of_nat k + 1) in * by lia. rewrite seqZ_app by lia. rewrite foldl_app.
  assert (E : seqZ (0 + Z.of_nat k) 1 = [Z.of_nat k]) by (unfold seqZ; cbn; f_equal; lia). rewrite E. cbn [foldl]. destruct (IH ltac:(lia)) as (H1 & H2 & H3 & H4). split_and!; [|done|done|].
  - intros n. rewrite sect_wsect by lia. by case_decide.
  - cbn [nsect wsect]. rewrite sector_id, H4 by lia. lia.
Qed.

Lemma zero_type num : 0 <= num -> i_type (dinode_get zero_block (dinode_off num) inode0) = 0.
Proof.
  intros Hn. unfold dinode_get. cbn [i_type set_addrs set_size set_nlink set_minor set_major set_type]. unfold get16.
  assert (E : slice zero_block (dinode_off num) 2 = [0; 0]); [|by rewrite E]. unfold slice, zero_block. rewrite drop_replicate, take_replicate. pose proof (off_fits num Hn).
  by replace (Nat.min 2 (BSIZE - dinode_off num)) with 2%nat by lia.
Qed.

Lemma sb_MKI s0 : (forall n, sect s0 n = zero_block) -> freeinode s0 = 1 -> freeblock s0 = nmeta -> nsect s0 = FSSIZE -> MKI (wsect 1 (splice zero_block 0 (sb_bytes sb)) s0) [].
Proof.
  intros H1 H2 H3 H4. assert (Hfs : FSSIZE = 10000) by done. assert (Hnm : nmeta = 47) by done. set (b1 := splice zero_block 0 (sb_bytes sb)).
  assert (Hv : forall n, sect (wsect 1 b1 s0) n = if decide (n = 1) then b1 else zero_block) by (intros n; rewrite sect_wsect by lia; case_decide; [done|apply H1]).
  split.
  - split; [cbn [nsect wsect]; rewrite sector_id, H4 by lia; done| |cbn [freeblock wsect]; rewrite H3; lia|].
    + intros n. rewrite Hv. by case_decide.
    + intros n. cbn [freeblock wsect]. rewrite H3. intros Hn. rewrite Hv, decide_False by lia. done.
  - by rewrite Hv.
  - intros n Hn. by rewrite Hv, decide_False by lia.
  - cbn [freeinode wsect]. by rewrite H2.
  - cbn. lia.
  - cbn [freeblock wsect]. rewrite H3. cbn. lia.
  - intros j t c Hj. by rewrite lookup_nil in Hj.
  - intros j k t c t' c' b _ Hj. by rewrite lookup_nil in Hj.
  - cbn [freeinode wsect]. rewrite H2. intros num Hn. unfold inode_at. rewrite Hv, iblock_eq, decide_False by zlia. apply zero_type. lia.
Qed.

Lemma blank_MKI : MKI blank [].
Proof.
  pose proof (zero_sectors (Z.to_nat FSSIZE)) as H. rewrite Z2Nat.id in H by done. destruct (H ltac:(done)) as (H1 & H2 & H3 & H4). exact (sb_MKI _ H1 H2 H3 H4).
Qed.

(** ** The files *)

Section Files.
Variable host : list Z -> option (list (list Z)).

Definition name_of (arg : list Z) : list Z := skip_underscore (if bool_decide (take 5 arg = user_dir) then drop 5 arg else arg).
Definition contents (arg : list Z) : list Z := concat (default [] (host arg)).

(** The entries of the root directory for arguments that get the inodes
    from [n] on. *)
Fixpoint entries (n : Z) (args : list (list Z)) : list Z :=
  match args with
  | [] => []
  | a :: args' => dirent n (name_of a) ++ entries (n + 1) args'
  end.

Definition name_ok (arg : list Z) : Prop := slash ∉ name_of arg /\ (length (name_of arg) <= DIRSIZ)%nat /\ host arg <> None.

Lemma append_all_fine s j t l : forall L c, MKI s L -> L !! j = Some (t, c) -> fine (fits (<[j := (t, c ++ concat l)]> L)) (append_all (1 + Z.of_nat j) l s) (fun s' => MKI s' (<[j := (t, c ++ concat l)]> L)).
Proof.
  revert s. induction l as [|p l IH]; intros s L c Hm Hj; cbn [append_all concat].
  - rewrite app_nil_r, list_insert_id by done. done.
  - eapply fine_bind; [eapply fine_mono; [by apply (iappend_fine s L j t c p)| |intros x Hx; exact Hx]|].
    { apply fits_mono, le_files_insert. cbn. rewrite !length_app. lia. }
    intros s1 Hm1. eapply fine_mono; [apply (IH s1 _ (c ++ p) Hm1)| |].
    + apply list_lookup_insert_eq. by apply lookup_lt_Some in Hj.
    + by rewrite list_insert_insert_eq, <- app_assoc.
    + intros s2. by rewrite list_insert_insert_eq, <- app_assoc.
Qed.

Lemma add_file_fine s r fs a : MKI s ((T_DIR, r) :: fs) -> (length fs < 198)%nat ->
  fine (fits ((T_DIR, r ++ dirent (2 + Z.of_nat (length fs)) (name_of a)) :: fs ++ [(T_FILE, contents a)]) /\ name_ok a) (add_file host 1 a s) (fun s' => MKI s' ((T_DIR, r ++ dirent (2 + Z.of_nat (length fs)) (name_of a)) :: fs ++ [(T_FILE, contents a)]) /\ name_ok a).
Proof.
  intros Hm Hl. unfold add_file, short_name. set (n := if bool_decide (take 5 a = user_dir) then drop 5 a else a). destruct (bool_decide (slash ∈ n)) eqn:Es.
  { apply bool_decide_eq_true in Es. intros [_ [Hno _]]. apply Hno. unfold name_of. fold n. destruct n as [|x n0]; [set_solver|]. cbn [skip_underscore]. destruct (x =? 95) eqn:Ex; [|done]. bool_to_prop. subst x. apply elem_of_cons in Es as [Es|Es]; [done|done]. }
  apply bool_decide_eq_false in Es.
  cbn [mbind outcome_bind]. destruct (host a) as [l|] eqn:Eh; [|by intros (_ & _ & _ & Hh)]. fold (name_of a). change (skip_underscore n) with (name_of a). destruct (length (name_of a) <=? DIRSIZ)%nat eqn:El; [|apply Nat.leb_gt in El; intros (_ & _ & Hh & _); lia]. cbn [negb]. apply Nat.leb_le in El.
  assert (Hok : name_ok a).
  { split_and!; [|done|by rewrite Eh]. unfold name_of. fold n. destruct n as [|x n]; cbn [skip_underscore]; [set_solver|]. destruct (x =? 95); set_solver. }
  eapply fine_bind; [apply (ialloc_fine _ T_FILE s _ Hm); [cbn; lia|done]|]. intros [num s1] [-> Hm1]. cbn [length app] in *.
  set (j := S (length fs)). change (MKI s1 ((T_DIR, r) :: fs ++ [(T_FILE, [])])) in Hm1.
  replace (2 + Z.of_nat (length fs)) with (1 + Z.of_nat j) by (unfold j; lia).
  eapply fine_bind; [eapply fine_mono; [apply (iappend_fine s1 _ 0 T_DIR r (dirent (1 + Z.of_nat j) (name_of a)) Hm1); done| |intros x Hx; exact Hx]|].
  { intros [Hfit _]. apply (fits_mono _ _) with (2 := Hfit). cbn. split; [lia|]. clear. induction fs as [|y fs IH]; cbn; [split; [lia|done]|split; [lia|done]]. }
  intros s2 Hm2. cbn [insert list_insert] in Hm2.
  assert (Eins : <[length fs := (T_FILE, concat l)]> (fs ++ [(T_FILE, [])]) = fs ++ [(T_FILE, contents a)]) by (rewrite insert_app_r_alt, Nat.sub_diag by lia; unfold contents; by rewrite Eh).
  eapply fine_mono; [apply (append_all_fine s2 j T_FILE l _ [] Hm2)| |].
  - change ((fs ++ [(T_FILE, [])]) !! length fs = Some (T_FILE, @nil Z)). by rewrite lookup_app_r, Nat.sub_diag by lia.
  - intros [Hfit _]. unfold j. change (fits ((T_DIR, r ++ dirent (1 + Z.of_nat (S (length fs))) (name_of a)) :: <[length fs := (T_FILE, concat l)]> (fs ++ [(T_FILE, [])]))). by rewrite Eins.
  - intros s3 Hm3. split; [|done]. unfold j in *. change (MKI s3 ((T_DIR, r ++ dirent (1 + Z.of_nat (S (length fs))) (name_of a)) :: <[length fs := (T_FILE, concat l)]> (fs ++ [(T_FILE, [])]))) in Hm3. by rewrite Eins in Hm3.
Qed.

(** The files, with their types. *)
Fixpoint file_list (args : list (list Z)) : list (Z * list Z) :=
  match args with
  | [] => []
  | a :: args' => (T_FILE, contents a) :: file_list args'
  end.

Lemma add_files_fine args : forall s r fs, MKI s ((T_DIR, r) :: fs) -> (length fs + length args <= 198)%nat ->
  fine (fits ((T_DIR, r ++ entries (2 + Z.of_nat (length fs)) args) :: fs ++ file_list args) /\ Forall name_ok args) (add_files host 1 args s)
    (fun s' => MKI s' ((T_DIR, r ++ entries (2 + Z.of_nat (length fs)) args) :: fs ++ file_list args) /\ Forall name_ok args).
Proof.
  induction args as [|a args IH]; intros s r fs Hm Hl; cbn [add_files entries file_list]; [cbn [fine]; rewrite !app_nil_r; by split|]. cbn [length] in Hl.
  eapply fine_bind; [eapply fine_mono; [apply (add_file_fine s r fs a Hm); lia| |intros x Hx; exact Hx]|].
  { intros [Hfit Hok]. apply Forall_cons in Hok as [Hok _]. split; [|done]. apply (fits_mono _ _) with (2 := Hfit). cbn [le_files snd]. split; [rewrite !length_app; lia|].
    clear. induction fs as [|y fs IH]; cbn; [split; [lia|done]|split; [lia|done]]. }
  assert (Eq : (T_DIR, (r ++ dirent (2 + Z.of_nat (length fs)) (name_of a)) ++ entries (2 + Z.of_nat (length (fs ++ [(T_FILE, contents a)]))) args) :: (fs ++ [(T_FILE, contents a)]) ++ file_list args =
    (T_DIR, r ++ dirent (2 + Z.of_nat (length fs)) (name_of a) ++ entries (2 + Z.of_nat (length fs) + 1) args) :: fs ++ (T_FILE, contents a) :: file_list args).
  { rewrite length_app, <- !app_assoc. cbn [length app]. by replace (2 + Z.of_nat (length fs + 1)) with (2 + Z.of_nat (length fs) + 1) by lia. }
  intros s1 [Hm1 Ha]. eapply fine_mono; [apply (IH s1 _ _ Hm1); rewrite length_app; cbn; lia| |]; rewrite Eq.
  - intros [Hfit Hok]. apply Forall_cons in Hok as [_ Hok]. by split.
  - intros s2 [Hm2 Hok]. split; [exact Hm2|by constructor].
Qed.

(** The root directory. *)
Definition rootbytes (args : list (list Z)) : list Z := dirent 1 [46] ++ dirent 1 [46; 46] ++ entries 2 args.

End Files.

(** ** The finished image *)

Lemma bitmap_bits u : forall bi, 0 <= bi < BPB -> (Z.of_nat u <= BPB)%Z ->
  bit_set (foldl mark_bit zero_block (seqZ 0 (Z.of_nat u))) bi = (bi <? Z.of_nat u) /\ length (foldl mark_bit zero_block (seqZ 0 (Z.of_nat u))) = BSIZE.
Proof.
  intros bi Hbi. induction u as [|u IH]; intros Hu.
  - cbn [foldl seqZ]. split; [|done]. unfold bit_set. rewrite zero_byte, Z.land_0_l. symmetry. apply Z.ltb_ge. change (Z.of_nat 0) with 0. lia.
  - replace (Z.of_nat (S u)) with (Z.of_nat u + 1) in * by lia. rewrite seqZ_app by lia. rewrite foldl_app. assert (E : seqZ (0 + Z.of_nat u) 1 = [Z.of_nat u]) by (unfold seqZ; cbn; f_equal; lia). rewrite E. cbn [foldl].
    destruct (IH ltac:(lia)) as [IH1 IH2]. split; [|unfold mark_bit; by rewrite length_insert].
    rewrite bit_set_mark by (done || lia). case_decide; [symmetry; apply Z.ltb_lt; lia|]. rewrite IH1. destruct (bi <? Z.of_nat u) eqn:E1, (bi <? Z.of_nat u + 1) eqn:E2; bool_to_prop; lia.
Qed.

Lemma FileI_file_ok v fb p nb g : FileI v nmeta fb p nb g -> fb <= FSSIZE -> (forall b, 0 <= b < FSSIZE -> used sb v b = (b <? fb)) ->
  0 <= i_size p <= MAXFILE * BS -> (forall n, 0 <= n -> n * BS < i_size p -> n < nb) -> file_ok sb v p.
Proof.
  intros [H1 H2 H3 H4 H5 H6 _] Hfb Hu Hs Hn. assert (Hnm : nmeta = 47) by done. assert (HB : BS = 1024) by done. assert (Hm : MAXFILE = 268) by done.
  assert (Hd : forall b, nmeta <= b < fb -> data_block sb v b).
  { intros b Hb. split; [change (datastart sb) with 47; change (fsize sb) with FSSIZE; lia|]. rewrite Hu by lia. apply Z.ltb_lt. lia. }
  split; auto.
  - intros n Hn' Hne. apply Hd. destruct (H3 n Hn'); lia.
  - intros Hne. apply Hd. lia.
  - intros n m Hn' Hm' Hne E. apply H5; [..|done]; [destruct (H3 n Hn')|destruct (H3 m Hm')]; lia.
  - intros n Hn' Hne. apply H6. destruct (H3 n Hn'); lia.
  - intros n Hn' Hlt. specialize (Hn n Hn' Hlt). destruct (H3 n ltac:(lia)); lia.
Qed.

Lemma FileI_byte v fb p nb g i : FileI v nmeta fb p nb g -> 0 <= i -> i / BS < nb -> fbyte v p i = g i.
Proof.
  intros [H1 H2 H3 _ _ _ H7] Hi Hn. assert (Hnm : nmeta = 47) by done. assert (HB : BS = 1024) by done. assert (Hm : MAXFILE = 268) by done. unfold fbyte.
  destruct (H3 (i / BS) ltac:(zlia)) as [?|[Hr _]]; [lia|]. destruct (iblk v p (i / BS) =? 0) eqn:E; bool_to_prop; [lia|]. rewrite H7 by zlia. f_equal. zlia.
Qed.

Lemma own_apart v fb p nb g q nbq gq : FileI v nmeta fb p nb g -> FileI v nmeta fb q nbq gq -> (forall b, own v p nb b -> ~ own v q nbq b) -> apart v p q.
Proof.
  intros Hp Hq Hd. assert (Hnm : nmeta = 47) by done.
  assert (Hblk : forall r nr gr n, FileI v nmeta fb r nr gr -> 0 <= n < MAXFILE -> iblk v r n <> 0 -> own v r nr (iblk v r n)).
  { intros r nr gr n Hr Hn Hne. left. exists n. destruct (fi_blk _ _ _ _ _ _ Hr n Hn); [lia|]. split; [lia|done]. }
  assert (Hind : forall r nr gr, FileI v nmeta fb r nr gr -> addr_at r NDIRECT <> 0 -> own v r nr (addr_at r NDIRECT)) by (intros r nr gr Hr Hne; right; destruct (fi_ind _ _ _ _ _ _ Hr); [lia|]; split; [lia|done]).
  split_and!.
  - intros n m Hn Hm Hne E. apply (Hd (iblk v q n)); [rewrite <- E; apply (Hblk p nb g m Hp Hm); congruence|by apply (Hblk q nbq gq)].
  - intros n Hn Hne E. apply (Hd (iblk v q n)); [rewrite <- E; apply (Hind p nb g Hp); congruence|by apply (Hblk q nbq gq)].
  - intros Hne. split; [intros E; apply (Hd (addr_at q NDIRECT)); [rewrite <- E; apply (Hind p nb g Hp); congruence|by apply (Hind q nbq gq)]|].
    intros m Hm E. apply (Hd (addr_at q NDIRECT)); [rewrite <- E; apply (Hblk p nb g m Hp Hm); congruence|by apply (Hind q nbq gq)].
Qed.

(** Inode [num] of the image is a well-formed file of type [t] with [size]
    bytes, which are those of [c] and zeros behind them. *)
Record holds (v : Z -> block) (num t size : Z) (c : list Z) : Prop := {
  h_type : i_type (inode_at v num) = t;
  h_link : nlink (inode_at v num) = 1;
  h_size : i_size (inode_at v num) = size;
  h_file : file_ok sb v (inode_at v num);
  h_byte : forall i, 0 <= i < size -> fbyte v (inode_at v num) i = gof c i
}.

(** The blocks that files of the image have: those of their data and the
    indirect ones. *)
Definition block_of (v : Z -> block) (p : inode) (b : Z) : Prop :=
  b <> 0 /\ (b = addr_at p NDIRECT \/ exists n, 0 <= n < MAXFILE /\ b = iblk v p n).

Definition blocks (v : Z -> block) (p : inode) (nb : Z) : list Z :=
  map (iblk v p) (seqZ 0 nb) ++ (if 12 <? nb then [addr_at p NDIRECT] else []).

Lemma elem_of_blocks v p nb b : b ∈ blocks v p nb <-> own v p nb b.
Proof.
  unfold blocks, own. rewrite elem_of_app, list_elem_of_fmap. split.
  - intros [(n & -> & Hn%elem_of_seqZ)|Hb]; [left; exists n; split; [lia|done]|]. destruct (12 <? nb) eqn:E; bool_to_prop; [|by apply elem_of_nil in Hb].
    right. split; [done|]. by apply list_elem_of_singleton.
  - intros [(n & Hn & ->)|[Hn ->]]; [left; exists n; split; [done|]; apply elem_of_seqZ; lia|right]. rewrite (proj2 (Z.ltb_lt _ _)) by lia. by apply list_elem_of_singleton.
Qed.

Lemma length_blocks v p nb : 0 <= nb -> Z.of_nat (length (blocks v p nb)) = cst nb.
Proof. intros Hn. unfold blocks, cst. rewrite length_app, length_map, length_seqZ. destruct (12 <? nb); cbn [length]; lia. Qed.

Lemma NoDup_blocks v lo hi p nb g : FileI v lo hi p nb g -> NoDup (blocks v p nb).
Proof.
  intros [_ _ _ _ H5 H6 _]. unfold blocks. apply NoDup_app. split_and!.
  - apply NoDup_fmap_2_strong; [|apply NoDup_seqZ]. intros n m Hn%elem_of_seqZ Hm%elem_of_seqZ. apply H5; lia.
  - intros b (n & -> & Hn%elem_of_seqZ)%list_elem_of_fmap Hb. destruct (12 <? nb); [|by apply elem_of_nil in Hb].
    apply list_elem_of_singleton in Hb. apply (H6 n); [lia|done].
  - destruct (12 <? nb); [apply NoDup_singleton|constructor].
Qed.

(** The blocks of the files [L], whose inodes have the numbers from [i] on. *)
Fixpoint all_blocks (v : Z -> block) (i : Z) (L : list (Z * list Z)) : list Z :=
  match L with
  | [] => []
  | x :: L' => blocks v (inode_at v i) (nbof x.2) ++ all_blocks v (i + 1) L'
  end.

Lemma length_all_blocks v L : forall i, Z.of_nat (length (all_blocks v i L)) = usedz L.
Proof.
  induction L as [|x L IH]; intros i; [done|]. cbn [all_blocks]. rewrite usedz_cons, length_app, Nat2Z.inj_add, IH, length_blocks by apply nbof_nonneg. done.
Qed.

Lemma elem_of_all_blocks v L b : forall i, b ∈ all_blocks v i L <-> exists j t c, L !! j = Some (t, c) /\ own v (inode_at v (i + Z.of_nat j)) (nbof c) b.
Proof.
  induction L as [|[t c] L IH]; intros i; cbn [all_blocks].
  - split; [by intros ?%elem_of_nil|]. by intros (j & t & c & Hj & _).
  - rewrite elem_of_app, elem_of_blocks, IH. cbn [snd]. split.
    + intros [Ho|(j & t' & c' & Hj & Ho)]; [exists 0%nat, t, c; split; [done|]; by rewrite Z.add_0_r|].
      exists (S j), t', c'. split; [done|]. by replace (i + Z.of_nat (S j)) with (i + 1 + Z.of_nat j) by lia.
    + intros ([|j] & t' & c' & Hj & Ho); [left; injection Hj as <- <-; by rewrite Z.add_0_r in Ho|].
      right. exists j, t', c'. split; [done|]. by replace (i + 1 + Z.of_nat j) with (i + Z.of_nat (S j)) by lia.
Qed.

Lemma NoDup_all_blocks v lo hi L : forall i,
  (forall j t c, L !! j = Some (t, c) -> FileI v lo hi (inode_at v (i + Z.of_nat j)) (nbof c) (gof c)) ->
  (forall j k t c t' c' b, j <> k -> L !! j = Some (t, c) -> L !! k = Some (t', c') ->
    own v (inode_at v (i + Z.of_nat j)) (nbof c) b -> ~ own v (inode_at v (i + Z.of_nat k)) (nbof c') b) ->
  NoDup (all_blocks v i L).
Proof.
  induction L as [|[t c] L IH]; intros i Hf Ha; cbn [all_blocks]; [constructor|]. pose proof (Hf 0%nat t c eq_refl) as H0. rewrite Z.add_0_r in H0.
  assert (Hsh : forall j, i + 1 + Z.of_nat j = i + Z.of_nat (S j)) by lia. apply NoDup_app. split_and!.
  - by apply (NoDup_blocks v lo hi _ _ (gof c)).
  - intros b Hb%elem_of_blocks (j & t' & c' & Hj & Ho)%elem_of_all_blocks. rewrite Hsh in Ho.
    apply (Ha 0%nat (S j) t c t' c' b); [done|done|done|by rewrite Z.add_0_r|done].
  - apply IH; [intros j t' c' Hj; rewrite Hsh; by apply (Hf (S j) t')|]. intros j k t1 c1 t2 c2 b Hjk Hj Hk. rewrite !Hsh. apply (Ha (S j) (S k) t1 c1 t2 c2); [lia|done|done].
Qed.

(** Files that take all blocks of a range by number have each of them. *)
Lemma all_owned v L i b : 
  (forall j t c, L !! j = Some (t, c) -> FileI v nmeta (nmeta + usedz L) (inode_at v (i + Z.of_nat j)) (nbof c) (gof c)) ->
  (forall j k t c t' c' b, j <> k -> L !! j = Some (t, c) -> L !! k = Some (t', c') ->
    own v (inode_at v (i + Z.of_nat j)) (nbof c) b -> ~ own v (inode_at v (i + Z.of_nat k)) (nbof c') b) ->
  nmeta <= b < nmeta + usedz L -> exists j t c, L !! j = Some (t, c) /\ own v (inode_at v (i + Z.of_nat j)) (nbof c) b.
Proof.
  intros Hf Ha Hb. apply elem_of_all_blocks. assert (Hs : all_blocks v i L ⊆+ seqZ nmeta (usedz L)).
  { apply NoDup_submseteq; [by apply (NoDup_all_blocks v nmeta (nmeta + usedz L))|]. intros x (j & t & c & Hj & Ho)%elem_of_all_blocks.
    apply (own_range _ _ _ _ _ _ _ (Hf j t c Hj)) in Ho. apply elem_of_seqZ. lia. }
  assert (Hp : all_blocks v i L ≡ₚ seqZ nmeta (usedz L)) by (apply submseteq_length_Permutation; [done|]; rewrite length_seqZ; pose proof (length_all_blocks v L i); lia).
  rewrite Hp. apply elem_of_seqZ. lia.
Qed.

(** The size of the root directory: whole blocks. *)
Definition root_size (r : list Z) : Z := (Z.of_nat (length r) / BS + 1) * BS.

Record image_of (v : Z -> block) (r : list Z) (fs : list (Z * list Z)) : Prop := {
  im_len : forall n, length (v n) = BSIZE;
  im_sb : sb_of (v 1) = sb /\ magic (sb_of (v 1)) = FSMAGIC;
  im_log : forall n, logstart sb <= n < inodestart sb -> v n = zero_block;
  im_bitmap : forall b, 0 <= b < fsize sb -> (used sb v b = true <->
    b < datastart sb \/ exists j, (j <= length fs)%nat /\ block_of v (inode_at v (1 + Z.of_nat j)) b);
  im_root : holds v ROOTINO T_DIR (root_size r) r;
  im_files : forall j t c, fs !! j = Some (t, c) -> holds v (2 + Z.of_nat j) t (Z.of_nat (length c)) c;
  im_apart : forall j k, (j <= length fs)%nat -> (k <= length fs)%nat -> j <> k -> apart v (inode_at v (1 + Z.of_nat j)) (inode_at v (1 + Z.of_nat k));
  im_unused : forall num, 2 + Z.of_nat (length fs) <= num < ninodes sb -> i_type (inode_at v num) = 0
}.

Lemma holds_file v fb p nb t c num size : FileI v nmeta fb p nb (gof c) -> fb <= FSSIZE -> (forall b, 0 <= b < FSSIZE -> used sb v b = (b <? fb)) ->
  inode_at v num = p -> i_type p = t -> nlink p = 1 -> i_size p = size -> 0 <= size <= MAXFILE * BS -> (size + 1023) / 1024 <= nb -> holds v num t size c.
Proof.
  intros HF Hfb Hu Hp Ht Hl Hs Hsz Hnb. assert (HB : BS = 1024) by done. split; rewrite Hp; auto.
  - apply (FileI_file_ok v fb p nb (gof c)); auto; [by rewrite Hs|]. rewrite Hs. intros n Hn Hlt. zlia.
  - intros i Hi. apply (FileI_byte v fb p nb); [done|lia|]. zlia.
Qed.

Lemma length_marks l : forall d, length (foldl mark_bit d l) = length d.
Proof. induction l as [|x l IH]; intros d; [done|]. cbn [foldl]. by rewrite IH, length_mark_bit. Qed.

(** The blocks that [balloc] marks. *)
Lemma balloc_used s fb : 0 <= fb < BPB -> sect s 46 = zero_block -> exists s', balloc fb s = Ok s' /\ freeblock s' = freeblock s /\
  length (sect s' 45) = BSIZE /\ (forall n, n <> 45 -> sect s' n = sect s n) /\ forall b, 0 <= b < FSSIZE -> used sb (sect s') b = (b <? fb).
Proof.
  intros Hfb H46. assert (Hbp : BPB = 8192) by done. assert (Hfs : FSSIZE = 10000) by done. unfold balloc. rewrite (proj2 (Z.ltb_lt fb BPB)) by lia. cbn [negb]. change (bmapstart sb) with 45.
  destruct (Z_of_nat_complete fb ltac:(lia)) as [u ->]. set (bm := foldl mark_bit zero_block (seqZ 0 (Z.of_nat u))).
  eexists. split; [reflexivity|]. split; [done|]. split; [rewrite sect_wsect, decide_True by lia; unfold bm; by rewrite length_marks|]. split; [intros n Hn; rewrite sect_wsect by lia; by rewrite decide_False|].
  intros b Hb. unfold used, BBLOCK. change (bmapstart sb) with 45. rewrite sect_wsect by lia. rewrite Hbp. destruct (decide (b < 8192)) as [H|H].
  - rewrite decide_True by zlia. rewrite (Z.mod_small b 8192) by lia. apply (bitmap_bits u b); lia.
  - rewrite decide_False by zlia. replace (b / 8192 + 45) with 46 by zlia. rewrite H46. unfold bit_set. rewrite zero_byte, Z.land_0_l. symmetry. apply Z.ltb_ge. lia.
Qed.

(** Marking as many blocks as the files take marks the blocks that they have. *)
Lemma bitmap_exact v r fs fb : fb = nmeta + usedz ((T_DIR, r) :: fs) -> nmeta <= fb <= FSSIZE -> (forall b, 0 <= b < FSSIZE -> used sb v b = (b <? fb)) ->
  (forall j t c, ((T_DIR, r) :: fs) !! j = Some (t, c) -> FileI v nmeta fb (inode_at v (1 + Z.of_nat j)) (nbof c) (gof c)) ->
  (forall j k t c t' c' b, j <> k -> ((T_DIR, r) :: fs) !! j = Some (t, c) -> ((T_DIR, r) :: fs) !! k = Some (t', c') ->
    own v (inode_at v (1 + Z.of_nat j)) (nbof c) b -> ~ own v (inode_at v (1 + Z.of_nat k)) (nbof c') b) ->
  forall b, 0 <= b < fsize sb -> (used sb v b = true <-> b < datastart sb \/ exists j, (j <= length fs)%nat /\ block_of v (inode_at v (1 + Z.of_nat j)) b).
Proof.
  intros Hfb Hr Hu Hf Ha b Hb. change (fsize sb) with FSSIZE in Hb. change (datastart sb) with nmeta. rewrite Hu by done. assert (Hnm : nmeta = 47) by done. assert (Hmx : MAXFILE = 268) by done. split.
  - intros Hlt%Z.ltb_lt. destruct (decide (b < nmeta)) as [Hd|Hd]; [by left|right]. rewrite Hfb in Hf.
    destruct (all_owned v _ 1 b Hf Ha ltac:(lia)) as (j & t & c & Hj & Ho). pose proof (lookup_lt_Some _ _ _ Hj) as Hl. cbn [length] in Hl.
    exists j. split; [lia|]. split; [lia|]. pose proof (fi_nb _ _ _ _ _ _ (Hf j t c Hj)) as Hnb. destruct Ho as [(n & Hn & ->)|[_ ->]]; [right; exists n; split; [lia|done]|by left].
  - intros [Hd|(j & Hj & Hne & Ho)]; apply Z.ltb_lt; [lia|]. destruct (lookup_lt_is_Some_2 ((T_DIR, r) :: fs) j ltac:(cbn; lia)) as [[t c] Lj].
    destruct (Hf j t c Lj) as [_ _ H3 H4 _ _ _]. destruct Ho as [->|(n & Hn & ->)]; [lia|]. destruct (H3 n Hn); lia.
Qed.

(** The end of [main]: the size of the root, and the bitmap. *)
Lemma finish_fine s r fs : MKI s ((T_DIR, r) :: fs) -> Z.of_nat (length r) mod BS <> 0 ->
  fine (nmeta + usedz ((T_DIR, r) :: fs) < BPB) (din ← rinode 1 s; let off := xint (i_size din) in let off := u32 ((off / Z.of_nat BSIZE + 1) * Z.of_nat BSIZE) in
        s ← winode 1 (set_size (xint off) din) s; balloc (freeblock s) s) (fun s' => image_of (sect s') r fs).
Proof.
  intros Hm Hr. pose proof Hm as [Hb Hsb Hz Hn Hc Hus Hf Ha Hu]. assert (HB : BS = 1024) by done. assert (Hmx : MAXFILE = 268) by done. assert (Hfs : FSSIZE = 10000) by done. assert (Hnm : nmeta = 47) by done. rewrite HB in Hr |- *. pose proof (b_free s Hb) as Hfree.
  destruct (Hf 0%nat T_DIR r eq_refl) as (_ & Hlen & a & Ea & HF). change (1 + Z.of_nat 0) with 1 in Ea. set (len := Z.of_nat (length r)) in *.
  assert (Hlen0 : 0 <= len) by lia. assert (Hlen1 : (len / 1024 + 1) * 1024 <= MAXFILE * BS) by zlia.
  unfold rinode, rsect. rewrite iblock_eq, sector_id by zlia. rewrite (b_nsect s Hb). change (1 / 16 + 32 <? FSSIZE) with true. cbn [mbind outcome_bind]. change (1 / 16 + 32) with (IBLOCK 1 sb). fold (inode_at (sect s) 1). rewrite Ea. cbn [i_size dnode].
  rewrite (xint_u32 len), (u32_id len) by lia. rewrite (u32_id ((len / 1024 + 1) * 1024)), xint_u32, (u32_id ((len / 1024 + 1) * 1024)) by zlia. set (size := (len / 1024 + 1) * 1024).
  change (set_size size _) with (dnode T_DIR size a). assert (Hd : dnode_ok T_DIR size a) by (split_and!; [done|done|unfold size; zlia|zlia|exact (fi_len _ _ _ _ _ _ HF)|exact (FileI_addrs _ _ _ _ _ HF (proj2 Hfree))]).
  destruct (winode_fine 1 T_DIR size a s Hb ltac:(lia) Hd) as (s1 & -> & Hb1 & Hfi & Hfb & Hout & Hin). cbn [mbind outcome_bind]. rewrite Hfb.
  destruct (decide (freeblock s < BPB)) as [Hlt|Hge]; [|unfold balloc; rewrite (proj2 (Z.ltb_ge (freeblock s) BPB)) by lia; cbn [negb fine]; lia].
  destruct (balloc_used s1 (freeblock s) ltac:(lia)) as (s2 & -> & Hfb2 & H45 & Hout2 & Hused); [rewrite Hout by lia; apply Hz; lia|]. cbn [fine].
  assert (Hdata : forall n, 47 <= n -> sect s2 n = sect s n) by (intros n Hn'; rewrite Hout2, Hout by lia; done).
  assert (Hinode : forall num, 0 < num < 208 -> inode_at (sect s2) num = if decide (num = 1) then dnode T_DIR size a else inode_at (sect s) num).
  { intros num Hnum. rewrite <- Hin by done. apply inode_at_ext; [done|]. intros n Hn'. apply Hout2. lia. }
  cbn [length] in Hc.
  assert (Hfile : forall j t c, ((T_DIR, r) :: fs) !! j = Some (t, c) -> exists p, inode_at (sect s2) (1 + Z.of_nat j) = p /\ i_type p = t /\ nlink p = 1 /\ i_size p = (if decide (j = 0%nat) then size else Z.of_nat (length c)) /\
    Z.of_nat (length c) <= MAXFILE * BS /\ FileI (sect s2) nmeta (freeblock s) p (nbof c) (gof c) /\ forall b, own (sect s2) p (nbof c) b <-> own (sect s) (inode_at (sect s) (1 + Z.of_nat j)) (nbof c) b).
  { intros j t c Hj. pose proof (lookup_lt_Some _ _ _ Hj) as Hjl. cbn [length] in Hjl. destruct (Hf j t c Hj) as (_ & Hcl & a' & Ea' & HF'). eexists. split; [reflexivity|]. rewrite Hinode by lia.
    set (p := if decide (1 + Z.of_nat j = 1) then dnode T_DIR size a else inode_at (sect s) (1 + Z.of_nat j)).
    assert (Hp : i_type p = t /\ nlink p = 1 /\ i_size p = (if decide (j = 0%nat) then size else Z.of_nat (length c)) /\ addrs p = a').
    { unfold p. destruct (decide (j = 0%nat)) as [->|Hj0]; [|rewrite decide_False by lia; by rewrite Ea'].
      rewrite decide_True by lia. injection Hj as <- <-. change (1 + Z.of_nat 0) with 1 in Ea'. rewrite Ea in Ea'. by injection Ea' as ->. }
    destruct Hp as (P1 & P2 & P3 & P4). destruct (FileI_frame (sect s) (sect s2) nmeta (freeblock s) (freeblock s) _ p _ _ HF') as [F1 F2]; [done|lia|lia|intros b Ho; apply Hdata; apply (own_range _ _ _ _ _ _ _ HF') in Ho; lia|].
    split_and!; auto. by rewrite Ea'. }
  split.
  - intros n. destruct (decide (n = 45)) as [->|Hn']; [exact H45|]. rewrite Hout2 by done. apply (b_len s1 Hb1).
  - assert (E : sect s2 1 = splice zero_block 0 (sb_bytes sb)) by (rewrite Hout2, Hout by lia; done). rewrite E. split; by vm_compute.
  - change (logstart sb) with 2. change (inodestart sb) with 32. intros n Hn'. rewrite Hout2, Hout by lia. apply Hz. lia.
  - apply (bitmap_exact (sect s2) r fs (freeblock s)); [done|lia|done| |].
    + intros j t c Hj. by destruct (Hfile j t c Hj) as (p & -> & _ & _ & _ & _ & P6 & _).
    + intros j k t c t' c' b Hjk Hj Hk. destruct (Hfile j t c Hj) as (p & -> & _ & _ & _ & _ & _ & P7). destruct (Hfile k t' c' Hk) as (q & -> & _ & _ & _ & _ & _ & Q7). rewrite P7, Q7. by apply (Ha j k t c t' c').
  - destruct (Hfile 0%nat T_DIR r eq_refl) as (p & P1 & P2 & P3 & P4 & P5 & P6 & _). assert (Es : root_size r = size) by (unfold root_size; by rewrite HB). rewrite Es.
    apply (holds_file _ (freeblock s) p (nbof r)); [done|lia|done|done|done|done|done|unfold size; zlia|unfold size, nbof; fold len; zlia].
  - intros j t c Hj. destruct (Hfile (S j) t c Hj) as (p & P1 & P2 & P3 & P4 & P5 & P6 & _). replace (2 + Z.of_nat j) with (1 + Z.of_nat (S j)) by lia. apply (holds_file _ (freeblock s) p (nbof c)); [done|lia|done|done|done|done|done|lia|done].
  - intros j k Hj Hk Hjk. destruct (lookup_lt_is_Some_2 ((T_DIR, r) :: fs) j ltac:(cbn; lia)) as [[t c] Lj]. destruct (lookup_lt_is_Some_2 ((T_DIR, r) :: fs) k ltac:(cbn; lia)) as [[t' c'] Lk].
    destruct (Hfile j t c Lj) as (p & -> & _ & _ & _ & _ & P6 & P7). destruct (Hfile k t' c' Lk) as (q & -> & _ & _ & _ & _ & Q6 & Q7). apply (own_apart _ (freeblock s) p (nbof c) (gof c) q (nbof c') (gof c') P6 Q6).
    intros b. rewrite P7, Q7. by apply (Ha j k t c t' c').
  - change (ninodes sb) with 200. intros num Hnum. rewrite Hinode by lia. rewrite decide_False by lia. apply Hu. cbn [length] in Hn. lia.
Qed.

Lemma entries_length args : forall n, length (entries n args) = (16 * length args)%nat.
Proof.
  induction args as [|a args IH]; intros n; [done|]. cbn [entries length]. rewrite length_app, IH. unfold dirent. rewrite length_app, length_le_bytes. assert (E : length (strncpy_l (name_of a) DIRSIZ) = 14%nat); [|rewrite E; lia].
  unfold strncpy_l. rewrite length_app, length_replicate. assert (length (cstr (take DIRSIZ (name_of a))) <= 14)%nat; [|unfold DIRSIZ in *; lia].
  assert (Hc : forall l, (length (cstr l) <= length l)%nat) by (induction l as [|x l IHl]; cbn; [lia|]; destruct (x =? 0); cbn; lia). specialize (Hc (take DIRSIZ (name_of a))). rewrite length_take in Hc. unfold DIRSIZ in *. lia.
Qed.

#[local] Opaque blank.

(** What [main] needs: names that fit an entry of a directory, files of at
    most [MAXFILE] blocks, and room in the image and in the first block of
    the bitmap. *)
Definition feasible (host : list Z -> option (list (list Z))) (args : list (list Z)) : Prop :=
  let L := (T_DIR, rootbytes args) :: file_list host args in
  fits L /\ nmeta + usedz L < BPB /\ Forall (name_ok host) args.

Lemma main_fine host args : (length args <= 198)%nat -> Z.of_nat (length args + 2) mod 64 <> 0 ->
  fine (feasible host args) (main host args) (fun s => image_of (sect s) (rootbytes args) (file_list host args) /\ Forall (name_ok host) args).
Proof.
  intros Hl Hmod. unfold main.
  assert (Hroot : forall c, (length c <= 32)%nat -> fits ((T_DIR, rootbytes args) :: file_list host args) -> fits [(T_DIR, c)]).
  { intros c Hc. apply fits_mono. cbn [le_files snd]. split; [|done]. unfold rootbytes. rewrite !length_app. change (length (dirent 1 [46])) with 16%nat. change (length (dirent 1 [46; 46])) with 16%nat. lia. }
  eapply fine_bind; [apply (ialloc_fine _ T_DIR blank [] blank_MKI); [cbn; lia|done]|]. intros [num s0] [-> Hm0]. change (1 + Z.of_nat (length (@nil (Z * list Z)))) with 1. cbn [negb Z.eqb Pos.eqb ROOTINO app] in *.
  eapply fine_bind; [eapply fine_mono; [apply (iappend_fine s0 _ 0 T_DIR [] (dirent 1 [46]) Hm0 eq_refl)|intros (Hfit & _); apply Hroot; [by apply Nat.leb_le|exact Hfit]|intros x Hx; exact Hx]|]. intros s1 Hm1. cbn [insert list_insert app] in Hm1.
  eapply fine_bind; [eapply fine_mono; [apply (iappend_fine s1 _ 0 T_DIR _ (dirent 1 [46; 46]) Hm1 eq_refl)|intros (Hfit & _); apply Hroot; [by apply Nat.leb_le|exact Hfit]|intros x Hx; exact Hx]|]. intros s2 Hm2. cbn [insert list_insert] in Hm2.
  assert (Er : (T_DIR, (dirent 1 [46] ++ dirent 1 [46; 46]) ++ entries (2 + Z.of_nat (length (@nil (Z * list Z)))) args) :: [] ++ file_list host args = (T_DIR, rootbytes args) :: file_list host args)
    by (cbn [app]; unfold rootbytes; by rewrite <- app_assoc).
  eapply fine_bind; [eapply fine_mono; [apply (add_files_fine host args s2 _ [] Hm2); cbn; lia|rewrite Er; intros (Hfit & _ & Hok); by split|intros x Hx; exact Hx]|].
  intros s3 [Hm3 Hok]. rewrite Er in Hm3.
  eapply fine_mono; [apply (finish_fine s3 _ _ Hm3)|by intros (_ & H & _)|by split]. unfold rootbytes. rewrite !length_app, entries_length. change (length (dirent 1 [46])) with 16%nat. change (length (dirent 1 [46; 46])) with 16%nat. unfold BSIZE. zlia.
Qed.

(** C40: the image that mkfs makes is a well-formed file system with the files
    it was given.  For up to 198 files whose entries with [.] and [..] do not
    fill whole blocks of the root directory, [main] succeeds when the names
    and sizes are possible and the blocks suffice.  Then the super block of
    the image is the layout of fs.h, the log is empty, the bitmap marks the
    blocks in front of the data area and exactly those blocks of it that some
    inode has, as a block of data or as its indirect block, and every inode is
    well-formed in the sense of fs.c, with blocks of its own: inode 1 is the
    root directory with the entries of the files in order, the entry of file
    [j] has the number of an inode with the bytes that the host has for it,
    and all other inodes are free. *)
Theorem mkfs_image_ok host args : (length args <= 198)%nat -> Z.of_nat (length args + 2) mod 64 <> 0 ->
  match main host args with
  | Ok s => image_of (sect s) (rootbytes args) (file_list host args) /\ Forall (name_ok host) args
  | Panic _ => ~ feasible host args
  | _ => False
  end.
Proof. intros Hl Hmod. pose proof (main_fine host args Hl Hmod) as H. unfold fine in H. destruct (main host args); exact H. Qed.

(** A host with one file of 2000 bytes, read in two pieces. *)
Definition host0 (name : list Z) : option (list (list Z)) := if bool_decide (name = [117; 115; 101; 114; 47; 95; 97]) then Some [replicate 1024 7; replicate 976 8] else None.
Definition args0 : list (list Z) := [[117; 115; 101; 114; 47; 95; 97]].

Lemma feasible0 : feasible host0 args0.
Proof.
  split; [split; [by vm_compute|]|split; [by vm_compute|]].
  - apply Forall_cons. split; [by vm_compute|]. apply Forall_cons. split; [by vm_compute|by apply Forall_nil].
  - apply Forall_cons. split; [|by apply Forall_nil]. split; [apply (bool_decide_unpack _); by vm_compute|]. split; [apply Nat.leb_le; by vm_compute|by vm_compute].
Qed.

Lemma mkfs_image_ok_witness : feasible host0 args0 /\ match main host0 args0 return Prop with
  | Ok s => image_of (sect s) (rootbytes args0) (file_list host0 args0) /\ Forall (name_ok host0) args0
  | Panic _ => ~ feasible host0 args0
  | _ => False
  end.
Proof. split; [exact feasible0|]. apply (mkfs_image_ok host0 args0); [cbn; lia|done]. Defined.
