(* ===== verification/BootProps.v ===== *)
(** * From mkfs to an open file: the kernel starts on an image and finds the
      files in it

    [fsinit] reads the super block through an empty buffer cache and recovers
    the log; the directories that mkfs wrote form a tree that [namei] walks. *)
From stdpp Require Import gmap.
From S2P Require Import Prelude Cstring Riscv Kalloc Vm VmTheory UvmTheory CopyTheory Block Bio BioTheory Log.
From S2P Require Import LogTheory LogCrash Fs FsTheory FsFile FsWrite FsProps FsDir FsPath Mkfs MkfsTheory MkfsProps.

Lemma logical_ext st d d' b : (forall x, d x = d' x) -> logical st d b = logical st d' b.
Proof. intros E. unfold logical. rewrite (E st). by destruct (list_find _ _) as [[j x]|]. Qed.

Section Boot.
Variable me : Z.
Abbreviation cache := (bio_cache me 1).
#[local] Instance boot_store : TxStore (log * bcache) := log_store (HC := cache).
#[local] Instance boot_ops : TxOps (log * bcache) := log_ops (HC := cache).

(** The kernel's memory when [fsinit] runs: static data is zero, and [iinit]
    and [binit] have been called. *)
Definition boot_fs (sb0 : superblock) (d : gmap Z block) : fs (log * bcache) := iinit (Fs sb0 (replicate NINODE inode0) (log0, binit d)).

Lemma boot_itable sb0 d : itable (boot_fs sb0 d) = replicate NINODE inode0.
Proof. unfold boot_fs, iinit. cbn [itable]. by rewrite fmap_replicate. Qed.

(** The first read of a block into the empty cache. *)
Lemma first_read (d : gmap Z block) bn : (forall b, length (disk_block d b) = BSIZE) ->
  exists h c1 c2, cread (BlockCache := cache) bn (binit d) = Ok (h, c1) /\ cdata (BlockCache := cache) c1 h = disk_block d bn /\
    crelse (BlockCache := cache) h c1 = Ok c2 /\ cwf (BlockCache := cache) c2 ∅ /\ (forall b, crefs (BlockCache := cache) c2 b = 0) /\
    (forall b, cview (BlockCache := cache) c2 b = disk_block d b) /\ (forall b, cdisk (BlockCache := cache) c2 b = disk_block d b).
Proof.
  intros Hlen. destruct (binit_wf me 1 d) as (Hw & Hr & Hv & Hd & _); [done|done|]. pose (HLc := bio_laws me 1).
  assert (Hv0 : forall b, cview (BlockCache := cache) (binit d) b = disk_block d b) by exact Hv.
  assert (Hd0 : forall b, cdisk (BlockCache := cache) (binit d) b = disk_block d b) by (intros b; cbn; by rewrite Hd).
  destruct (law_read (BlockCacheLaws := HLc) (binit d) ∅ bn Hw) as (h & c1 & E1 & _ & Hw1 & Hs1 & Hr1).
  { by intros; rewrite lookup_empty. }
  { right. exists ∅. split; [rewrite size_empty; unfold NBUF; lia|]. intros b Hb. cbn in Hb. rewrite Hr in Hb. lia. }
  { cbn. rewrite Hr. lia. }
  destruct (law_held (BlockCacheLaws := HLc) c1 _ h bn Hw1 (lookup_insert_eq _ _ _)) as (Hdat & _).
  destruct (law_relse (BlockCacheLaws := HLc) c1 _ h bn Hw1 (lookup_insert_eq _ _ _)) as (c2 & E2 & Hw2 & Hs2 & Hr2).
  { intros _. by rewrite (cs_view _ _ Hs1), (cs_disk _ _ Hs1), Hv0, Hd0. }
  rewrite delete_insert_eq, delete_empty in Hw2. exists h, c1, c2. split_and!; auto.
  - by rewrite Hdat, (cs_view _ _ Hs1).
  - intros b. rewrite Hr2, Hr1. change (crefs (BlockCache := cache) (binit d) b) with (refs_of 1 (binit d) b). rewrite Hr. dcase; lia.
  - intros b. by rewrite (cs_view _ _ Hs2), (cs_view _ _ Hs1).
  - intros b. by rewrite (cs_disk _ _ Hs2), (cs_disk _ _ Hs1).
Qed.

Lemma log0_array st sz : log_array (Log st sz 0 false 0 (lh_block log0)).
Proof.
  split; [by cbn; rewrite length_replicate|]. intros j. unfold lh_at. cbn [lh_block log0]. destruct (replicate _ 0 !! j) as [x|] eqn:E; simpl; [|lia].
  apply lookup_replicate in E as [-> _]. lia.
Qed.

(** [fsinit] on a disk with a log: afterwards the file system is the one that
    the disk denotes. *)
Lemma fsinit_run sb0 (d : gmap Z block) sb : (forall b, length (disk_block d b) = BSIZE) ->
  sb_of (disk_block d 1) = sb -> magic sb = FSMAGIC -> 0 <= logstart sb < 2147483648 -> LOGSIZE <= nlog sb < 2147483648 ->
  log_disk (logstart sb) (disk_block d) ->
  exists s1, fsinit (boot_fs sb0 d) = Ok s1 /\ fsb s1 = sb /\ itable s1 = replicate NINODE inode0 /\ idle_tx (HC := cache) (logstart sb) (store s1) /\
    forall b, homeb (logstart sb) b -> cview (BlockCache := cache) (snd (store s1)) b = logical (logstart sb) (disk_block d) b.
Proof.
  intros Hlen Hsb Hmg Hst Hsz Hld. destruct (first_read d 1 Hlen) as (h & c1 & c2 & E1 & D1 & E2 & Hw2 & Hr2 & Hv2 & Hd2).
  unfold fsinit, readsb, bread_. cbn [boot_fs iinit store tread boot_store log_store fst snd]. rewrite E1. cbn [mbind outcome_bind].
  unfold brelse_, bdata. cbn [set_store store trelse tdata boot_store log_store fst snd fsb itable]. rewrite E2. cbn [mbind outcome_bind fsb set_store store].
  rewrite D1, Hsb, Hmg, Z.eqb_refl. cbn [negb tinitlog boot_store log_store snd]. unfold initlog.
  assert (Hnb : (Z.of_nat BSIZE <=? 4 + 4 * LOGSIZE) = false) by (by vm_compute). rewrite Hnb. rewrite !s32_id by (unfold LOGSIZE, MAXOPBLOCKS in *; lia). change (outstanding log0) with 0. change (committing log0) with false. change (lh_n log0) with 0.
  set (l := Log (logstart sb) (nlog sb) 0 false 0 (lh_block log0)). pose (HLc := bio_laws me 1).
  destruct (recover_run (HC := cache) (HL := HLc) l c2 Hw2 Hr2) as (l' & c' & w & -> & Hw' & Hr' & Hn' & Hst' & Hh' & Hlog & _ & _ & Hla' & (Hz' & Ho' & Hc')); [|apply log0_array|].
  { destruct Hld as [L1 L2 L3]. change (start l) with (logstart sb). split; rewrite Hd2; auto. }
  cbn [mbind outcome_bind set_store]. eexists. split; [reflexivity|]. split; [done|]. split; [apply (boot_itable sb0 d)|]. cbn [store snd]. split.
  - split; cbn [fst snd].
    + exact Hw'.
    + exact Hst'.
    + change (LOGSIZE <= Log.size l'). rewrite Hz'. apply Hsz.
    + exact Ho'.
    + exact Hc'.
    + apply Hla'.
    + exact Hn'.
    + apply Hla'.
    + exact Hr'.
    + exact Hh'.
  - intros b Hb. change (cview (BlockCache := cache) c' b = logical (logstart sb) (disk_block d) b). rewrite (law_clean (BlockCacheLaws := HLc) c' ∅ b Hw' (Hr' b)), Hlog by exact Hb. change (start l) with (logstart sb).
    by apply logical_ext.
Qed.

(** No inode is in use after start-up. *)
Lemma boot_itab sb v (s : fs (log * bcache)) : itable s = replicate NINODE inode0 -> itab sb me v s ∅ None.
Proof.
  intros E. assert (Hg : forall ip, geti s ip = inode0).
  { intros ip. unfold geti. rewrite E. destruct (replicate NINODE inode0 !! ip) as [p|] eqn:Ep; [|done]. by apply lookup_replicate in Ep as [-> _]. }
  split.
  - by rewrite E, length_replicate.
  - intros ip. rewrite Hg. cbn. lia.
  - intros num r. by rewrite lookup_empty.
  - intros ip jp. rewrite Hg. cbn. lia.
  - intros ip. by rewrite Hg.
  - intros ip. rewrite Hg. cbn. lia.
  - intros num r. by rewrite lookup_empty.
  - intros ip. rewrite Hg. cbn. lia.
  - intros ip _. by rewrite Hg.
Qed.
End Boot.

(** * The directory tree of an image that mkfs made *)

Import Mkfs.

(** ** The entries of the root directory *)

Lemma dirent_mk num name : 0 <= num < 65536 -> dirent num name = mk_dirent num name.
Proof. intros H. unfold dirent, mk_dirent. by rewrite xshort_u16. Qed.

Fixpoint file_entries (n : Z) (args : list (list Z)) : list (list Z) :=
  match args with
  | [] => []
  | a :: args' => mk_dirent n (name_of a) :: file_entries (n + 1) args'
  end.
Definition root_entries (args : list (list Z)) : list (list Z) := mk_dirent 1 [46] :: mk_dirent 1 [46; 46] :: file_entries 2 args.

Lemma entries_concat args : forall n, 0 <= n -> n + Z.of_nat (length args) < 65536 -> entries n args = concat (file_entries n args).
Proof.
  induction args as [|a args IH]; intros n Hn Hl; [done|]. cbn [entries file_entries concat length] in *. rewrite IH, dirent_mk by lia. done.
Qed.

Lemma rootbytes_concat args : (length args <= 198)%nat -> rootbytes args = concat (root_entries args).
Proof. intros H. unfold rootbytes, root_entries. cbn [concat]. rewrite entries_concat, !dirent_mk by lia. done. Qed.

Lemma file_entries_16 args : forall n, Forall (fun e => length e = 16%nat) (file_entries n args).
Proof. induction args as [|a args IH]; intros n; constructor; [apply length_mk_dirent|apply IH]. Qed.

Lemma root_entries_16 args : Forall (fun e => length e = 16%nat) (root_entries args).
Proof. repeat constructor; try apply length_mk_dirent. apply file_entries_16. Qed.

Lemma length_file_entries args : forall n, length (file_entries n args) = length args.
Proof. induction args as [|a args IH]; intros n; [done|]. cbn. by rewrite IH. Qed.

(** Piece [k] of a concatenation of pieces of 16 bytes. *)
Lemma concat_piece (L : list (list Z)) : Forall (fun e => length e = 16%nat) L -> forall k j, (j < 16)%nat ->
  concat L !! (16 * k + j)%nat = e ← L !! k; e !! j.
Proof.
  induction 1 as [|e L He _ IH]; intros k j Hj; [done|]. cbn [concat]. destruct k as [|k].
  - rewrite lookup_app_l by lia. done.
  - rewrite lookup_app_r by lia. replace (16 * S k + j - length e)%nat with (16 * k + j)%nat by lia. by apply IH.
Qed.

Lemma length_concat_16 (L : list (list Z)) : Forall (fun e => length e = 16%nat) L -> length (concat L) = (16 * length L)%nat.
Proof. induction 1 as [|e L He _ IH]; [done|]. cbn [concat length]. rewrite length_app, He, IH. lia. Qed.

(** An unused entry. *)
Definition blank_entry : list Z := replicate 16 0.

(** The entries of a directory that holds the bytes of [L] and zeros. *)
Lemma dirents_holds v num size L : holds v num T_DIR size (concat L) -> Forall (fun e => length e = 16%nat) L -> size mod 16 = 0 -> 16 * Z.of_nat (length L) <= size ->
  dirents v (inode_at v num) = L ++ replicate (nents (inode_at v num) - length L) blank_entry.
Proof.
  intros Hh HL Hm Hs. pose proof (h_size _ _ _ _ _ Hh) as Esz.
  assert (En : Z.of_nat (nents (inode_at v num)) = size / 16) by (unfold nents; rewrite Esz; zlia).
  assert (Hn : (length L <= nents (inode_at v num))%nat) by zlia.
  apply (list_eq_same_length _ _ (nents (inode_at v num))); [rewrite length_app, length_replicate; lia|apply length_dirents|].
  intros k e e' Hk He He'. rewrite lookup_dirents in He by done. injection He as <-. apply (list_eq_same_length _ _ 16).
  { destruct (decide (k < length L)%nat).
    - rewrite lookup_app_l in He' by done. rewrite Forall_lookup in HL. by apply (HL k).
    - rewrite lookup_app_r in He' by lia. apply lookup_replicate in He' as [-> _]. done. }
  { unfold entry. by rewrite length_fslice. }
  intros j x y Hj Hx Hy. unfold entry in Hx. rewrite lookup_fslice in Hx by done. injection Hx as <-. rewrite (h_byte _ _ _ _ _ Hh) by zlia.
  unfold gof. replace (Z.to_nat (16 * Z.of_nat k + Z.of_nat j)) with (16 * k + j)%nat by lia. rewrite concat_piece by done.
  destruct (decide (k < length L)%nat).
  - rewrite lookup_app_l in He' by done. rewrite He'. cbn. by rewrite Hy.
  - rewrite (lookup_ge_None_2 L k) by lia. cbn. rewrite lookup_app_r in He' by lia. apply lookup_replicate in He' as [-> _]. by apply lookup_replicate in Hy as [-> _].
Qed.

Lemma names_blank name n : names_inum name (replicate n blank_entry) = None.
Proof. induction n as [|n IH]; [done|]. cbn [replicate]. rewrite names_cons. exact IH. Qed.

(** ** The tree *)

Lemma file_entries_in args : forall n e, e ∈ file_entries n args -> exists i a, args !! i = Some a /\ e = mk_dirent (n + Z.of_nat i) (name_of a).
Proof.
  induction args as [|a args IH]; intros n e; [by intros ?%elem_of_nil|]. cbn [file_entries]. intros [->|He]%elem_of_cons.
  - exists 0%nat, a. split; [done|]. f_equal. lia.
  - destruct (IH (n + 1) e He) as (i & b & Hi & ->). exists (S i), b. split; [done|]. f_equal. lia.
Qed.

Lemma file_entries_find args a : forall n j, args !! j = Some a -> (forall i b, (i < j)%nat -> args !! i = Some b -> dname (name_of b) <> dname (name_of a)) ->
  0 < n -> n + Z.of_nat (length args) < 65536 -> names_inum (name_of a) (file_entries n args) = Some (n + Z.of_nat j).
Proof.
  induction args as [|b args IH]; intros n j Hj Hfirst Hn Hl; [done|]. cbn [file_entries length] in *. rewrite names_cons. unfold is_entry. rewrite de_inum_mk by lia.
  rewrite (proj2 (Z.eqb_neq n 0)) by lia. cbn [negb andb]. destruct (namecmp (name_of a) (de_name (mk_dirent n (name_of b))) =? 0) eqn:E; bool_to_prop; rewrite namecmp_zero, de_name_mk in E.
  - destruct j as [|j]; [f_equal; lia|]. destruct (Hfirst 0%nat b ltac:(lia) eq_refl). done.
  - destruct j as [|j]; [by injection Hj as ->|]. rewrite (IH (n + 1) j); [f_equal; lia|done| |lia|lia]. intros i c Hi Hc. apply (Hfirst (S i) c); [lia|done].
Qed.

Lemma file_list_lookup host args : forall j, file_list host args !! j = (fun a => (T_FILE, contents host a)) <$> args !! j.
Proof. induction args as [|a args IH]; intros [|j]; try done. apply IH. Qed.

Lemma length_file_list host args : length (file_list host args) = length args.
Proof. induction args as [|a args IH]; [done|]. cbn. by rewrite IH. Qed.

(** The files of an image under contents that agree with it outside of the
    boot block, the super block and the log. *)
Definition agree_fs (v v' : Z -> block) : Prop := forall b, inodestart sb <= b < fsize sb -> v' b = v b.

Lemma holds_agree v v' num t size c : agree_fs v v' -> 0 < num < 208 -> holds v num t size c -> holds v' num t size c.
Proof.
  unfold agree_fs. change (inodestart sb) with 32. change (fsize sb) with 10000. intros Hv Hn [H1 H2 H3 H4 H5].
  assert (Ei : inode_at v' num = inode_at v num) by (unfold inode_at; rewrite Hv; [done|]; rewrite iblock_eq; zlia).
  assert (Hu : forall b, 0 <= b < 10000 -> used sb v' b = used sb v b).
  { intros b Hb. unfold used. rewrite Hv; [done|]. unfold BBLOCK, BPB. change (bmapstart sb) with 45. zlia. }
  assert (Hd : forall b, data_block sb v b -> 47 <= b < 10000) by (intros b [Hb _]; exact Hb).
  set (p := inode_at v num) in *. destruct H4 as [F1 F2 F3 F4 F5 F6 F7].
  assert (Hi : forall n, iblk v' p n = iblk v p n) by (intros n; apply iblk_keep; intros Hne; apply Hv; specialize (Hd _ (F4 Hne)); lia).
  assert (Hd' : forall b, data_block sb v b -> data_block sb v' b) by (intros b Hb; specialize (Hd b Hb); destruct Hb as [Hb Hb']; split; [done|]; rewrite Hu by lia; done).
  split; rewrite ?Ei; auto.
  - split; auto; try (intros n; rewrite !Hi; auto). intros m. rewrite Hi. auto.
  - intros i Hsz. rewrite <- H5 by done. unfold fbyte. rewrite Hi. destruct (iblk v p (i / BS) =? 0) eqn:E; [done|]. bool_to_prop. f_equal. apply Hv.
    enough (47 <= iblk v p (i / BS) < 10000) by lia. apply Hd, F3; [|done]. rewrite <- H3 in Hsz. change (MAXFILE * BS) with 274432 in F2. change BS with 1024. change MAXFILE with 268. zlia.
Qed.

Section Tree.
Context (host : list Z -> option (list (list Z))) (args : list (list Z)) (v : Z -> block).
Context (Hroot : holds v ROOTINO T_DIR (root_size (rootbytes args)) (rootbytes args)).
Context (Hfiles : forall j t c, file_list host args !! j = Some (t, c) -> holds v (2 + Z.of_nat j) t (Z.of_nat (length c)) c).
Context (Hunused : forall num, 2 + Z.of_nat (length (file_list host args)) <= num < ninodes sb -> i_type (inode_at v num) = 0).
Context (Hlen : (length args <= 198)%nat).

Lemma image_file j a : args !! j = Some a -> holds v (2 + Z.of_nat j) T_FILE (Z.of_nat (length (contents host a))) (contents host a).
Proof. intros Hj. apply (Hfiles j). by rewrite file_list_lookup, Hj. Qed.

Lemma image_root : dirents v (inode_at v ROOTINO) = root_entries args ++ replicate (nents (inode_at v ROOTINO) - length (root_entries args)) blank_entry /\
  root_size (rootbytes args) mod 16 = 0.
Proof.
  pose proof Hroot as Hr. rewrite rootbytes_concat in Hr |- * by done. pose proof (length_concat_16 _ (root_entries_16 args)) as Hl.
  assert (Hm : root_size (concat (root_entries args)) mod 16 = 0) by (unfold root_size; change BS with 1024; zlia). split; [|done].
  apply (dirents_holds v ROOTINO (root_size (concat (root_entries args)))); auto using root_entries_16. unfold root_size. change BS with 1024. rewrite Hl. zlia.
Qed.

(** The inodes in use. *)
Lemma image_inodes num : 0 < num < ninodes sb -> i_type (inode_at v num) <> 0 ->
  num = ROOTINO \/ exists j a, args !! j = Some a /\ num = 2 + Z.of_nat j.
Proof.
  intros Hn Ht. destruct (decide (num = 1)) as [->|H1]; [by left|right]. destruct (decide (num < 2 + Z.of_nat (length args))) as [Hlt|Hge].
  - destruct (lookup_lt_is_Some_2 args (Z.to_nat (num - 2)) ltac:(lia)) as [a Ha]. exists (Z.to_nat (num - 2)), a. split; [done|]. lia.
  - destruct Ht. apply Hunused. rewrite length_file_list. lia.
Qed.

Lemma image_tree : tree_ok sb v.
Proof.
  split.
  - intros num Hn Ht. change (disk_inode sb v num) with (inode_at v num) in *. destruct (image_inodes num Hn Ht) as [->|(j & a & Hj & ->)].
    + destruct Hroot as [R1 R2 R3 R4 R5]. split; [done|by rewrite R2].
    + destruct (image_file j a Hj) as [R1 R2 R3 R4 R5]. split; [done|by rewrite R2].
  - intros num Hn Ht. change (disk_inode sb v num) with (inode_at v num) in *. destruct (image_inodes num Hn) as [->|(j & a & Hj & ->)]; [by rewrite Ht| |by rewrite (h_type _ _ _ _ _ (image_file j a Hj)) in Ht].
    destruct image_root as [Er Hm]. split; [by rewrite (h_size _ _ _ _ _ Hroot)|]. intros e He Hz. rewrite Er in He.
    apply elem_of_app in He as [He|He]; [|apply elem_of_replicate in He as [-> _]; done].
    assert (Hrt : i_type (inode_at v ROOTINO) <> 0) by (by rewrite (h_type _ _ _ _ _ Hroot)).
    apply elem_of_cons in He as [->|[->|He]%elem_of_cons]; [rewrite de_inum_mk by lia; split; [by vm_compute|exact Hrt]..|].
    destruct (file_entries_in args 2 e He) as (i & a & Hi & ->). pose proof (lookup_lt_Some _ _ _ Hi). rewrite de_inum_mk by lia. split; [change (ninodes sb) with 200; lia|].
    change (disk_inode sb v (2 + Z.of_nat i)) with (inode_at v (2 + Z.of_nat i)). by rewrite (h_type _ _ _ _ _ (image_file i a Hi)).
Qed.

(** The path of a file leads to its inode. *)
Lemma image_resolve j a : args !! j = Some a -> (forall i b, (i < j)%nat -> args !! i = Some b -> dname (name_of b) <> dname (name_of a)) ->
  dname (name_of a) <> [46] -> dname (name_of a) <> [46; 46] -> resolve sb v ROOTINO [name_of a] = Some (2 + Z.of_nat j).
Proof.
  intros Hj Hfirst H1 H2. cbn [resolve]. change (disk_inode sb v ROOTINO) with (inode_at v ROOTINO). rewrite (h_type _ _ _ _ _ Hroot), Z.eqb_refl.
  destruct image_root as [-> _]. rewrite names_app. unfold root_entries. rewrite !names_cons. unfold is_entry. rewrite !de_inum_mk by lia. cbn [Z.eqb negb andb].
  rewrite (proj2 (Z.eqb_neq (namecmp (name_of a) (de_name (mk_dirent 1 [46]))) 0)) by (rewrite namecmp_zero, de_name_mk; exact H1).
  rewrite (proj2 (Z.eqb_neq (namecmp (name_of a) (de_name (mk_dirent 1 [46; 46]))) 0)) by (rewrite namecmp_zero, de_name_mk; exact H2).
  rewrite (file_entries_find args a 2 j Hj Hfirst) by lia. done.
Qed.
End Tree.

Lemma split_at_none c l : c ∉ l -> split_at c l = [l].
Proof.
  induction l as [|x l IH]; [done|]. intros [Hx Hl]%not_elem_of_cons. cbn [split_at]. rewrite (proj2 (Z.eqb_neq x c)) by congruence. by rewrite IH.
Qed.

Lemma elems_file name : slash ∉ name -> name <> [] -> (length name <= DIRSIZ)%nat -> elems (slash :: name) = [name].
Proof.
  intros Hs Hn Hl. rewrite elems_slash. unfold elems. rewrite split_at_none by done. rewrite filter_cons_True by done. cbn. by rewrite take_ge.
Qed.

(** All of it for the image itself. *)
Lemma image_agree host args v v' : image_of v (rootbytes args) (file_list host args) -> (length args <= 198)%nat -> agree_fs v v' ->
  holds v' ROOTINO T_DIR (root_size (rootbytes args)) (rootbytes args) /\
  (forall j t c, file_list host args !! j = Some (t, c) -> holds v' (2 + Z.of_nat j) t (Z.of_nat (length c)) c) /\
  (forall num, 2 + Z.of_nat (length (file_list host args)) <= num < ninodes sb -> i_type (inode_at v' num) = 0).
Proof.
  intros Him Hlen Hv. split; [apply (holds_agree v); [done|by vm_compute|apply Him]|]. split.
  - intros j t c Hj. apply (holds_agree v); [done| |by apply Him]. apply lookup_lt_Some in Hj. rewrite length_file_list in Hj. lia.
  - change (ninodes sb) with 200. intros num Hn. rewrite <- (im_unused _ _ _ Him num Hn). unfold inode_at. rewrite Hv; [done|]. rewrite iblock_eq. change (inodestart sb) with 32. change (fsize sb) with 10000. zlia.
Qed.

(** * Path names, and the way from mkfs to a file that the kernel reads *)

(** C18: path names.  Let the directories on the disk refer only to inodes in
    use, no inode be locked, and at most 48 of the 50 entries of the table of
    inodes be taken.  [namei] returns a reference to the inode that the
    elements of the path lead to, from the root or from the current
    directory, and the null pointer when an element is missing or is not a
    directory.  The references to all other inodes are as before, no inode is
    freed, no lock and no buffer stays held, and the contents of the disk do not
    change.  [nameiparent] does the same for the path without its last
    element, which must lead to a directory, and gives the last element. *)
Theorem namei_resolves {T} {HT : TxStore T} {HL : TxLaws T} me sb v W A path cwd cn (s : fs T) :
  layout_ok sb -> tree_ok sb v -> ROOTINO < ninodes sb -> i_type (disk_inode sb v ROOTINO) = T_DIR ->
  at_rest sb v W s -> itab sb me v s A None -> (base.size A <= 48)%nat -> (forall n, refs A n + 2 < 2147483648) ->
  (head path <> Some slash -> has_ref cwd cn s) ->
  (exists o s', namei me path cwd s = Ok (o, s') /\ namex_result sb me v W A o (resolve sb v (start_inum path cn) (elems path)) s') /\
  exists o name s', nameiparent me path cwd s = Ok (o, name, s') /\
    match elems path with
    | [] => namex_result sb me v W A o None s'
    | e :: es =>
        namex_result sb me v W A o
          (match resolve sb v (start_inum path cn) (removelast (e :: es)) with
           | Some n => if i_type (disk_inode sb v n) =? T_DIR then Some n else None
           | None => None
           end) s' /\ (o <> None -> name = List.last (e :: es) [])
    end.
Proof.
  intros Hlay Htree Hr Hrt Ha Ht Hs Href Hcwd. assert (Hrt0 : i_type (disk_inode sb v ROOTINO) <> 0) by (by rewrite Hrt). split.
  - destruct (namex_run sb Hlay me v W A path false cwd cn s) as (o & name & s' & E & Hres & _); auto. exists o, s'. unfold namei. rewrite E. split; [done|]. by rewrite walkto_resolve in Hres.
  - destruct (namex_run sb Hlay me v W A path true cwd cn s) as (o & name & s' & E & Hres & Hlast); auto. exists o, name, s'. split; [exact E|].
    destruct (elems path) as [|e es] eqn:Ee; [exact Hres|]. rewrite (app_removelast_last (l := e :: es) []) in Hres by done. rewrite walkto_parent in Hres. split; [exact Hres|].
    intros Ho. specialize (Hlast eq_refl Ho). rewrite (app_removelast_last (l := e :: es) []) in Hlast by done. rewrite last_snoc in Hlast. by injection Hlast.
Qed.

Import Mkfs.

Section Boot.
Variable me : Z.
#[local] Instance the_store : TxStore (log * bcache) := boot_store me.
#[local] Instance the_ops : TxOps (log * bcache) := boot_ops me.
#[local] Instance the_laws : TxLaws (log * bcache) :=
  log_store_laws (HC := bio_cache me 1) (HL := bio_laws me 1) 2 10 ltac:(unfold NBUF; lia).

Lemma mkfs_layout : layout_ok sb.
Proof.
  split; cbn -[sb].
  - by vm_compute.
  - by vm_compute.
  - change (ninodes sb) with 200. change (bmapstart sb) with 45. intros i Hi. rewrite iblock_eq. zlia.
  - by vm_compute.
  - by vm_compute.
  - change (inodestart sb) with 32. change (fsize sb) with 10000. intros b Hb. split; [|lia]. unfold homeb, LOGDATA, Log.LOGSIZE, MAXOPBLOCKS. lia.
Qed.

(** The system after start-up on an image, inside a transaction. *)
Lemma boot_run sb0 i r fs : image_of (sect i) r fs ->
  exists s1 t, fsinit (boot_fs sb0 (img i)) = Ok s1 /\ tbegin (store s1) = Ok t /\
    at_rest sb (fview (set_store t s1)) ∅ (set_store t s1) /\ itable s1 = replicate NINODE inode0 /\
    forall b, homeb 2 b -> fview (set_store t s1) b = sect i b.
Proof.
  intros Him. assert (Hlen : forall b, length (disk_block (img i) b) = BSIZE) by exact (im_len _ _ _ Him).
  assert (Hidle : idle 2 (sect i) (sect i)).
  { split; [|done]. assert (sect i 2 = zero_block) as -> by (apply (im_log _ _ _ Him); by vm_compute). split; by vm_compute. }
  destruct (fsinit_run me sb0 (img i) sb Hlen) as (s1 & E1 & Hsb & Htab & Hid & Hv).
  { exact (proj1 (im_sb _ _ _ Him)). } { by vm_compute. } { by vm_compute. } { by vm_compute. } { change (logstart sb) with 2. exact (idle_log_disk 2 _ _ Hidle). }
  destruct (idle_begin (HC := bio_cache me 1) (HL := bio_laws me 1) 2 10 ltac:(unfold NBUF; lia) (store s1) Hid) as (t & E2 & Htx & Es). exists s1, t. split; [exact E1|]. split; [exact E2|].
  split; [by split|]. split; [done|]. intros b Hb. change (fview (set_store t s1) b) with (cview (BlockCache := bio_cache me 1) (snd t) b). rewrite Es, Hv by exact Hb.
  apply (logical_idle 2 (sect i)); [exact Hidle|done].
Qed.

(** A name that a path can have: not empty, no NUL, and neither [.] nor [..]. *)
Definition proper_name (name : list Z) : Prop := name <> [] /\ name <> [46] /\ name <> [46; 46] /\ 0 ∉ name.

Lemma dname_id name : (length name <= DIRSIZ)%nat -> 0 ∉ name -> dname name = name.
Proof.
  intros Hl H0. unfold dname. rewrite take_ge by done. clear Hl. induction name as [|c l IH]; [done|]. apply not_elem_of_cons in H0 as [Hc Hl]. cbn [cstr].
  rewrite (proj2 (Z.eqb_neq c 0)) by congruence. by rewrite IH.
Qed.

(** The whole of a locked file is read. *)
Lemma read_whole v W A s ip num c : at_rest sb v W s -> itab sb me v s A (Some ip) -> same_node (geti s ip) (disk_inode sb v num) ->
  holds v num T_FILE (Z.of_nat (length c)) c ->
  exists s', readi ip (KernelDst []) 0 (Z.of_nat (length c)) s = Ok (Z.of_nat (length c), KernelDst c, s').
Proof.
  intros Ha Ht Hs [H1 H2 H3 H4 H5]. change (inode_at v num) with (disk_inode sb v num) in *. pose proof (file_ok_node sb v _ _ Hs H4) as Hf.
  destruct Hs as (_ & _ & Es & Ead). rewrite H3 in Es. set (p := geti s ip) in *. pose proof (f_size _ _ _ Hf) as Hsz. rewrite Es in Hsz. change (MAXFILE * BS) with 274432 in Hsz.
  destruct (readi_run sb mkfs_layout (fun d => exists g, d = KernelDst g)) with (ip := ip) (d := KernelDst []) (off := 0) (n := Z.of_nat (length c)) (s := s) (W := W)
    as (r & d & s' & E & _ & [g ->] & Hcase); eauto; try lia.
  { intros d x [g ->]. cbn. eauto. } { apply (file_ok_view sb mkfs_layout v); [apply Ha|exact Hf]. } { apply Ha. }
  exists s'. rewrite E. fold p in Hcase. rewrite Es in Hcase. assert (Hl : read_len (Z.of_nat (length c)) 0 (Z.of_nat (length c)) = Z.of_nat (length c)) by (unfold read_len; rewrite decide_True; lia).
  rewrite Hl, Nat2Z.id in Hcase. destruct Hcase as [[-> Hfd]|[_ (l1 & x & l2 & d1 & _ & Hfd & Hc)]]; [|apply fed_kernel in Hfd as ->; by cbn in Hc].
  apply fed_kernel in Hfd. injection Hfd as ->. do 4 f_equal. cbn [app]. apply (list_eq_same_length _ _ (length c)); [done|by rewrite length_fslice|].
  intros j x y Hj Hx Hy. rewrite lookup_fslice in Hx by done. injection Hx as <-. rewrite (fbyte_view v) by apply Ha.
  assert (Eb : fbyte v p (0 + Z.of_nat j) = fbyte v (disk_inode sb v num) (0 + Z.of_nat j)) by (unfold fbyte, iblk, addr_at; by rewrite Ead).
  rewrite Eb, H5 by lia. unfold gof. replace (Z.to_nat (0 + Z.of_nat j)) with j by lia. by rewrite Hy.
Qed.

(** C24: the kernel finds what mkfs wrote.  Start the system on an image made
    by mkfs from up to 198 host files with different names: static data is
    zero, the buffer cache is empty, [fsinit] reads the super block and
    recovers the log.  In a transaction, [namei] of the name of any of the
    files behind a slash returns an inode that [ilock] fills from the disk; it
    is a file of the size of the host file, and [readi] of the whole of it
    gives exactly the bytes of the host file. *)
Theorem mkfs_boot_reads sb0 host args i cwd j a :
  (length args <= 198)%nat -> Z.of_nat (length args + 2) mod 64 <> 0 -> main host args = Ok i ->
  NoDup (name_of <$> args) -> Forall proper_name (name_of <$> args) -> args !! j = Some a ->
  exists s1 t ip s3 s4 s5, fsinit (boot_fs sb0 (img i)) = Ok s1 /\ tbegin (store s1) = Ok t /\
    namei me (slash :: name_of a) cwd (set_store t s1) = Ok (Some ip, s3) /\ ilock me ip s3 = Ok s4 /\
    i_type (geti s4 ip) = T_FILE /\ i_size (geti s4 ip) = Z.of_nat (length (contents host a)) /\
    readi ip (KernelDst []) 0 (Z.of_nat (length (contents host a))) s4 = Ok (Z.of_nat (length (contents host a)), KernelDst (contents host a), s5).
Proof.
  intros Hlen Hmod Hmain Hnd Hprop Hj. pose proof (main_fine host args Hlen Hmod) as Hfine. rewrite Hmain in Hfine. destruct Hfine as [Him Hok].
  destruct (boot_run sb0 i _ _ Him) as (s1 & t & E1 & E2 & Ha & Htab & Hv). set (s2 := set_store t s1) in *. set (v := fview s2) in *.
  assert (Hag : agree_fs (sect i) v).
  { intros b. change (inodestart sb) with 32. change (fsize sb) with 10000. intros Hb. apply Hv. unfold homeb, LOGDATA, Log.LOGSIZE, MAXOPBLOCKS. lia. }
  destruct (image_agree host args (sect i) v Him Hlen Hag) as (Hroot & Hfiles & Hunused). pose proof (image_tree host args v Hroot Hfiles Hunused Hlen) as Htree.
  assert (Ht : itab sb me v s2 ∅ None) by (by apply boot_itab). rewrite Forall_fmap, Forall_lookup in Hprop. rewrite Forall_lookup in Hok.
  assert (Hname : forall k b, args !! k = Some b -> dname (name_of b) = name_of b) by (intros k b Hb; apply dname_id; [apply (Hok k b Hb)|apply (Hprop k b Hb)]).
  destruct (Hprop j a Hj) as (P1 & P2 & P3 & P4). destruct (Hok j a Hj) as (N1 & N2 & N3).
  assert (Hres : resolve sb v ROOTINO [name_of a] = Some (2 + Z.of_nat j)).
  { refine (image_resolve args v Hroot Hlen j a Hj _ _ _); [|rewrite (Hname j a Hj); exact P2|rewrite (Hname j a Hj); exact P3]. intros k b Hk Hb. rewrite (Hname k b Hb), (Hname j a Hj). intros E.
    enough (k = j) by lia. apply (NoDup_lookup (name_of <$> args) k j (name_of a) Hnd); rewrite list_lookup_fmap; [rewrite Hb|rewrite Hj]; cbn; congruence. }
  destruct (namex_run sb mkfs_layout me v ∅ ∅ (slash :: name_of a) false cwd 0 s2 Htree Ha Ht) as (o & nm & s3 & E3 & Hr3 & _); [rewrite map_size_empty; lia|intros n; unfold refs; rewrite lookup_empty; cbn; lia|reflexivity| |intros Hne; by destruct (Hne eq_refl)|].
  { change (disk_inode sb v ROOTINO) with (inode_at v ROOTINO). by rewrite (h_type _ _ _ _ _ Hroot). }
  rewrite elems_file, walkto_resolve in Hr3 by done. change (start_inum (slash :: name_of a) 0) with ROOTINO in Hr3. rewrite Hres in Hr3. destruct Hr3 as (Ha3 & ip & -> & [Hip Hn Href] & Ht3).
  destruct (ilock_itab sb mkfs_layout me v ∅ s3 _ ip Ha3 Ht3 Hip Href) as (s4 & E4 & Ha4 & Ht4 & _ & _ & Hs4). rewrite Hn in Hs4.
  pose proof (image_file host args v Hfiles j a Hj) as Hf. destruct (read_whole v ∅ _ s4 ip _ _ Ha4 Ht4 Hs4 Hf) as (s5 & E5). destruct Hs4 as (T1 & _ & T3 & _).
  exists s1, t, ip, s3, s4, s5. split; [exact E1|]. split; [exact E2|]. split; [fold s2; unfold namei; by rewrite E3|]. split; [exact E4|].
  split; [rewrite T1; apply Hf|]. split; [rewrite T3; apply Hf|exact E5].
Qed.
End Boot.

(** The image of one host file. *)
Lemma main0 : exists i, main host0 args0 = Ok i /\ image_of (sect i) (rootbytes args0) (file_list host0 args0).
Proof.
  pose proof (main_fine host0 args0) as H. assert (Hmod : Z.of_nat (length args0 + 2) mod 64 <> 0) by done. specialize (H ltac:(cbn; lia) Hmod).
  destruct (main host0 args0) as [i|e| |]; cbn [fine] in H; [exists i; split; [done|apply H]|destruct H; exact feasible0|done|done].
Qed.

Definition sb_any : superblock := Superblock 0 0 0 0 0 0 0 0.

Lemma mkfs_boot_reads_witness : exists i s1 t ip s3 s4 s5, main host0 args0 = Ok i /\
  fsinit (HT := the_store 7) (boot_fs sb_any (img i)) = Ok s1 /\ tbegin (TxOps := the_ops 7) (store s1) = Ok t /\
  namei (HT := the_store 7) 7 [47; 97] 0 (set_store t s1) = Ok (Some ip, s3) /\ ilock (HT := the_store 7) 7 ip s3 = Ok s4 /\
  readi (HT := the_store 7) ip (KernelDst []) 0 2000 s4 = Ok (2000, KernelDst (replicate 1024 7 ++ replicate 976 8), s5).
Proof.
  destruct main0 as (i & Ei & _).
  destruct (mkfs_boot_reads 7 sb_any host0 args0 i 0 0 [117; 115; 101; 114; 47; 95; 97]) as (s1 & t & ip & s3 & s4 & s5 & E1 & E2 & E3 & E4 & _ & _ & E5).
  - cbn. lia.
  - done.
  - exact Ei.
  - apply (bool_decide_unpack _). by vm_compute.
  - apply Forall_cons. split; [|by apply Forall_nil]. split_and!; [done|done|done|apply (bool_decide_unpack _); by vm_compute].
  - reflexivity.
  - exists i, s1, t, ip, s3, s4, s5. split; [exact Ei|]. split; [exact E1|]. split; [exact E2|]. split; [exact E3|]. split; [exact E4|]. exact E5.
Defined.

(** The files of that image as the running system sees them. *)
Lemma boot0 : exists s : fs (log * bcache), let v := fview (HL := the_laws 7) s in
  at_rest (HL := the_laws 7) sb v ∅ s /\ itab sb 7 v s ∅ None /\ tree_ok sb v /\ i_type (disk_inode sb v ROOTINO) = T_DIR.
Proof.
  destruct main0 as (i & _ & Him). destruct (boot_run 7 sb_any i _ _ Him) as (s1 & t & _ & _ & Ha & Htab & Hv). exists (set_store t s1). cbn zeta.
  assert (Hag : agree_fs (sect i) (fview (HL := the_laws 7) (set_store t s1))).
  { intros b. change (inodestart sb) with 32. change (fsize sb) with 10000. intros Hb. apply Hv. unfold homeb, LOGDATA, Log.LOGSIZE, MAXOPBLOCKS. lia. }
  destruct (image_agree host0 args0 _ _ Him ltac:(cbn; lia) Hag) as (Hroot & Hfiles & Hunused). split; [exact Ha|]. split; [by apply boot_itab|].
  split; [exact (image_tree host0 args0 _ Hroot Hfiles Hunused ltac:(cbn; lia))|]. apply Hroot.
Qed.

Lemma namei_resolves_witness : exists (s : fs (log * bcache)) o s', namei (HT := the_store 7) 7 [47; 46; 47; 97] 0 s = Ok (o, s').
Proof.
  destruct boot0 as (s & Ha & Ht & Htree & Hrt).
  destruct (namei_resolves (HL := the_laws 7) 7 sb (fview (HL := the_laws 7) s) ∅ ∅ [47; 46; 47; 97] 0 0 s) as [(o & s' & E & _) _].
  - apply mkfs_layout.
  - exact Htree.
  - reflexivity.
  - exact Hrt.
  - exact Ha.
  - exact Ht.
  - rewrite map_size_empty. lia.
  - intros n. unfold refs. rewrite lookup_empty. cbn. lia.
  - intros Hne. by destruct (Hne eq_refl).
  - exists s, o, s'. exact E.
Defined.
