(* ===== verification/Pipe.v ===== *)
(** * kernel/pipe.c: pipes

    A pipe's ring buffer and the calls that use it.  A process holds the
    pipe's lock from the start of a call, or from its return from [sleep],
    to its next [sleep] or to the end of the call; such a segment runs in one
    step, and the segments of different processes interleave freely.
    [fetch i] is the result of [copyin] for byte [addr + i] of a writer and
    [store i] the success of [copyout] for a reader; [killed i] is
    [killed(pr)] as the loop sees it at byte [i]. *)
From S2P Require Import Prelude.

Definition PIPESIZE : Z := 512.

Record pipe := Pipe {
  pdata : list Z;
  nread : Z;
  nwrite : Z;
  readopen : bool;
  writeopen : bool
}.

(** The part of [pipealloc] that initialises the pipe; the contents of the
    page are arbitrary. *)
Definition pipe_init (page : list Z) : pipe := Pipe page 0 0 true true.

Definition put_byte (ch : Z) (pi : pipe) : pipe :=
  Pipe (<[Z.to_nat (nwrite pi mod PIPESIZE) := ch]> (pdata pi)) (nread pi) (u32 (nwrite pi + 1))
    (readopen pi) (writeopen pi).

Definition get_byte (pi : pipe) : Z * pipe :=
  (default 0 (pdata pi !! Z.to_nat (nread pi mod PIPESIZE)),
   Pipe (pdata pi) (u32 (nread pi + 1)) (nwrite pi) (readopen pi) (writeopen pi)).

(** How a segment ends: the call returns, or sleeps having handled [i]
    bytes.  [wakes] says whether the other side has been woken. *)
Inductive ending := Returns (r : Z) (wakes : bool) | Sleeps (i : nat) (wakes : bool).

(** The [while] loop of [pipewrite]; [k] bytes are left.  The list is the
    bytes put in. *)
Fixpoint pipewrite_loop (k i : nat) (killed : nat -> bool) (fetch : nat -> option Z) (pi : pipe)
    : ending * list Z * pipe :=
  match k with
  | O => (Returns (Z.of_nat i) true, [], pi)
  | S k' =>
      if negb (readopen pi) || killed i then (Returns (-1) false, [], pi)
      else if nwrite pi =? u32 (nread pi + PIPESIZE) then (Sleeps i true, [], pi)
      else
        match fetch i with
        | None => (Returns (Z.of_nat i) true, [], pi)
        | Some ch =>
            let '(e, l, pi) := pipewrite_loop k' (S i) killed fetch (put_byte ch pi) in
            (e, ch :: l, pi)
        end
  end.

(** A segment of [pipewrite] of [n] bytes that resumes at byte [i]. *)
Definition pipewrite (n i : nat) (killed : nat -> bool) (fetch : nat -> option Z) (pi : pipe)
    : ending * list Z * pipe :=
  pipewrite_loop (n - i) i killed fetch pi.

(** The [for] loop of [piperead]; the last component is the bytes taken. *)
Fixpoint piperead_loop (k i : nat) (store : nat -> bool) (pi : pipe) : nat * list Z * pipe :=
  match k with
  | O => (i, [], pi)
  | S k' =>
      if nread pi =? nwrite pi then (i, [], pi)
      else
        let '(ch, pi) := get_byte pi in
        if negb (store i) then (i, [ch], pi)
        else
          let '(r, l, pi) := piperead_loop k' (S i) store pi in
          (r, ch :: l, pi)
  end.

(** A segment of [piperead]. *)
Definition piperead (n : nat) (killed : bool) (store : nat -> bool) (pi : pipe)
    : ending * list Z * pipe :=
  if (nread pi =? nwrite pi) && writeopen pi then
    if killed then (Returns (-1) false, [], pi) else (Sleeps 0 false, [], pi)
  else
    let '(i, l, pi) := piperead_loop n 0 store pi in
    (Returns (Z.of_nat i) true, l, pi).

(** [pipeclose]; the flag says that the page is freed. *)
Definition pipeclose (writable : bool) (pi : pipe) : bool * pipe :=
  let pi :=
    if writable then Pipe (pdata pi) (nread pi) (nwrite pi) (readopen pi) false
    else Pipe (pdata pi) (nread pi) (nwrite pi) false (writeopen pi) in
  (negb (readopen pi) && negb (writeopen pi), pi).

(** ** The ring buffer as a queue *)

(** [ins] are all the bytes ever put in and [outs] all those taken out. *)
Record ring (pi : pipe) (ins outs : list Z) : Prop := {
  rg_data : length (pdata pi) = Z.to_nat PIPESIZE;
  rg_in : nwrite pi = u32 (Z.of_nat (length ins));
  rg_out : nread pi = u32 (Z.of_nat (length outs));
  rg_prefix : outs = take (length outs) ins;
  rg_space : (length ins <= length outs + Z.to_nat PIPESIZE)%nat;
  rg_cell : forall k, (length outs <= k < length ins)%nat ->
    pdata pi !! Z.to_nat (Z.of_nat k mod PIPESIZE) = ins !! k
}.

Lemma ring_init page : length page = Z.to_nat PIPESIZE -> ring (pipe_init page) [] [].
Proof. intros. split; simpl; auto; lia. Qed.

Lemma ring_le pi ins outs : ring pi ins outs -> (length outs <= length ins)%nat.
Proof. intros Hr. pose proof (f_equal length (rg_prefix _ _ _ Hr)) as E. rewrite length_take in E. lia. Qed.

(** The two tests of the code say "empty" and "full". *)
Lemma ring_empty pi ins outs : ring pi ins outs ->
  (nread pi =? nwrite pi) = bool_decide (length ins = length outs).
Proof.
  intros Hr. pose proof (ring_le _ _ _ Hr). destruct Hr as [_ Hi Ho _ Hs _].
  rewrite Hi, Ho. unfold PIPESIZE in *. apply eq_true_iff_eq. rewrite Z.eqb_eq, bool_decide_eq_true.
  split; [|by intros ->]. intros E. apply Nat2Z.inj. symmetry. apply u32_near; [lia|done].
Qed.

Lemma ring_full pi ins outs : ring pi ins outs ->
  (nwrite pi =? u32 (nread pi + PIPESIZE)) = bool_decide (length ins = length outs + Z.to_nat PIPESIZE)%nat.
Proof.
  intros Hr. pose proof (ring_le _ _ _ Hr). destruct Hr as [_ Hi Ho _ Hs _].
  rewrite Hi, Ho. unfold PIPESIZE in *. apply eq_true_iff_eq. rewrite Z.eqb_eq, bool_decide_eq_true.
  assert (Hz : u32 (Z.of_nat (length ins)) = u32 (u32 (Z.of_nat (length outs)) + 512) <->
    Z.of_nat (length ins) = Z.of_nat (length outs) + 512).
  { assert (u32 (u32 (Z.of_nat (length outs)) + 512) = u32 (Z.of_nat (length outs) + 512)) as ->
      by (unfold u32; apply Zplus_mod_idemp_l).
    split; [apply u32_near; lia|by intros ->]. }
  rewrite Hz. lia.
Qed.

Lemma ring_put pi ins outs ch :
  ring pi ins outs -> (length ins < length outs + Z.to_nat PIPESIZE)%nat -> ring (put_byte ch pi) (ins ++ [ch]) outs.
Proof.
  intros Hr Hs. pose proof (ring_le _ _ _ Hr) as Hle. destruct Hr as [Hd Hi Ho Hp _ Hc].
  split; cbn [put_byte pdata nread nwrite]; auto; unfold PIPESIZE in *.
  - by rewrite length_insert.
  - rewrite length_app, Hi. cbn [length]. unfold u32. zlia.
  - rewrite take_app_le by done. done.
  - rewrite length_app. cbn [length]. lia.
  - intros k Hk. rewrite length_app in Hk. cbn [length] in Hk.
    assert (Hw : nwrite pi mod 512 = Z.of_nat (length ins) mod 512) by (rewrite Hi; unfold u32; zlia).
    rewrite Hw. destruct (decide (k = length ins)) as [->|Hne].
    + rewrite list_lookup_insert_eq, lookup_app_r, Nat.sub_diag by zlia. done.
    + rewrite list_lookup_insert_ne, lookup_app_l by zlia. apply Hc. lia.
Qed.

Lemma ring_get pi ins outs ch pi' :
  ring pi ins outs -> (length outs < length ins)%nat -> get_byte pi = (ch, pi') ->
  ring pi' ins (outs ++ [ch]).
Proof.
  intros Hr Hlt [= <- <-]. destruct Hr as [Hd Hi Ho Hp Hs Hc].
  assert (Hw : nread pi mod PIPESIZE = Z.of_nat (length outs) mod PIPESIZE) by (rewrite Ho; unfold u32, PIPESIZE; zlia).
  pose proof (Hc (length outs) ltac:(lia)) as Hcell. rewrite Hw, Hcell.
  destruct (lookup_lt_is_Some_2 ins (length outs) Hlt) as [ch Hch]. rewrite Hch. cbn [default].
  split; cbn [pdata nread nwrite]; auto; unfold PIPESIZE in *.
  - rewrite length_app, Ho. cbn [length]. unfold u32. zlia.
  - rewrite length_app. cbn [length]. rewrite Nat.add_1_r, (take_S_r _ _ ch Hch). by rewrite <- Hp.
  - rewrite length_app. cbn [length]. lia.
  - intros k Hk. rewrite length_app in Hk. cbn [length] in Hk. apply Hc. lia.
Qed.

(** ** The loops *)

Lemma pipewrite_run k : forall i killed fetch pi ins outs e l pi',
  ring pi ins outs -> pipewrite_loop k i killed fetch pi = (e, l, pi') ->
  ring pi' (ins ++ l) outs /\ readopen pi' = readopen pi /\ writeopen pi' = writeopen pi /\
  (forall j ch, l !! j = Some ch -> fetch (i + j)%nat = Some ch) /\
  match e with
  | Returns r true => r = Z.of_nat (i + length l) /\ (length l = k \/ fetch (i + length l)%nat = None)
  | Returns r false => r = -1 /\ (readopen pi = false \/ killed (i + length l)%nat = true)
  | Sleeps j w => w = true /\ j = (i + length l)%nat /\ (length l < k)%nat /\
      (length (ins ++ l) = length outs + Z.to_nat PIPESIZE)%nat /\ readopen pi = true
  end.
Proof.
  induction k as [|k IH]; intros i killed fetch pi ins outs e l pi' Hr E; cbn [pipewrite_loop] in E.
  { injection E as <- <- <-. rewrite app_nil_r. split_and!; auto; cbn [length]; try lia; done. }
  destruct (readopen pi) eqn:Ero; cbn [negb orb] in E.
  2: { injection E as <- <- <-. rewrite app_nil_r. split_and!; auto; cbn [length]; try lia; done. }
  destruct (killed i) eqn:Ek.
  { injection E as <- <- <-. rewrite app_nil_r. cbn [length]. rewrite Nat.add_0_r. split_and!; auto; done. }
  rewrite (ring_full pi ins outs Hr) in E. destruct (bool_decide _) eqn:Ef.
  { injection E as <- <- <-. rewrite app_nil_r. bool_to_prop. split_and!; auto; cbn [length]; try lia; done. }
  destruct (fetch i) as [ch|] eqn:Efe.
  2: { injection E as <- <- <-. rewrite app_nil_r. cbn [length]. rewrite Nat.add_0_r. split_and!; auto; done. }
  destruct (pipewrite_loop k (S i) killed fetch (put_byte ch pi)) as [[e' l'] p'] eqn:E'.
  injection E as <- <- <-. bool_to_prop.
  assert (Hr' : ring (put_byte ch pi) (ins ++ [ch]) outs).
  { apply ring_put; [done|]. pose proof (rg_space _ _ _ Hr). lia. }
  destruct (IH _ _ _ _ _ _ _ _ _ Hr' E') as (Hring & Hro & Hwo & Hl & He). rewrite <- app_assoc in *.
  split_and!; auto.
  - by rewrite Hro.
  - intros [|j] c; simpl; [intros [= ->]; by rewrite Nat.add_0_r|].
    intros Hj. rewrite Nat.add_succ_r. by apply (Hl j c).
  - cbn [length]. rewrite Nat.add_succ_r. destruct e' as [r []|j w]; cbn in Hro; rewrite ?Ero in *.
    + destruct He as [-> [<-|He]]; split; auto.
    + destruct He as [-> [He|He]]; [cbn in He; congruence|auto].
    + destruct He as (-> & -> & ? & ? & _). split_and!; auto; lia.
Qed.

Lemma piperead_run k : forall i store pi ins outs r l pi',
  ring pi ins outs -> piperead_loop k i store pi = (r, l, pi') ->
  ring pi' ins (outs ++ l) /\ readopen pi' = readopen pi /\ writeopen pi' = writeopen pi /\
  (length l <= k)%nat /\
  (r = (i + length l)%nat /\ (length l = k \/ length ins = length (outs ++ l)) \/
   S r = (i + length l)%nat /\ store r = false).
Proof.
  induction k as [|k IH]; intros i store pi ins outs r l pi' Hr E; cbn [piperead_loop] in E.
  { injection E as <- <- <-. rewrite app_nil_r. cbn [length]. split_and!; auto with lia. }
  rewrite (ring_empty pi ins outs Hr) in E. destruct (bool_decide _) eqn:Ee.
  { injection E as <- <- <-. rewrite app_nil_r. bool_to_prop. cbn [length]. split_and!; auto with lia. }
  bool_to_prop. pose proof (ring_le _ _ _ Hr).
  destruct (get_byte pi) as [ch p1] eqn:Eg.
  pose proof (ring_get pi ins outs ch p1 Hr ltac:(lia) Eg) as Hr1.
  assert (Ho : readopen p1 = readopen pi /\ writeopen p1 = writeopen pi) by (by injection Eg as _ <-).
  destruct (store i) eqn:Es; cbn [negb] in E.
  - destruct (piperead_loop k (S i) store p1) as [[r' l'] p'] eqn:E'. injection E as <- <- <-.
    destruct (IH _ _ _ _ _ _ _ _ Hr1 E') as (Hring & Hro & Hwo & Hl & Hc). rewrite <- app_assoc in *.
    destruct Ho as [Ho1 Ho2]. split_and!; [done|congruence|congruence|cbn [length]; lia|]. cbn [length].
    destruct Hc as [[-> Hc]|[Hc Hs]]; [left|right]; (split; [lia|]); [|done].
    destruct Hc; [left; lia|by right].
  - injection E as <- <- <-. destruct Ho. split_and!; auto; [simpl; lia|]. right. split; [simpl; lia|done].
Qed.

(** ** Interleavings

    [rwait] and [wwait] count the readers that sleep on [&pi->nread] and the
    writers that sleep on [&pi->nwrite]. *)
Record psys := Psys { pp : pipe; ins : list Z; outs : list Z; rwait : nat; wwait : nat }.

Definition sleeping (e : ending) : nat := match e with Sleeps _ _ => 1%nat | _ => 0%nat end.
Definition waking (e : ending) : bool := match e with Returns _ w | Sleeps _ w => w end.

(** With [mid], [kill] may hit a writer in the middle of a segment. *)
Inductive pipe_step (mid : bool) : psys -> psys -> Prop :=
| pt_write pi xs ys rw ww n i killed fetch e l pi' :
    (mid = true \/ exists b, forall j, killed j = b) ->
    pipewrite n i killed fetch pi = (e, l, pi') ->
    pipe_step mid (Psys pi xs ys rw ww)
      (Psys pi' (xs ++ l) ys (if waking e then 0%nat else rw) (ww + sleeping e))
| pt_read pi xs ys rw ww n killed store e l pi' :
    piperead n killed store pi = (e, l, pi') ->
    pipe_step mid (Psys pi xs ys rw ww)
      (Psys pi' xs (ys ++ l) (rw + sleeping e) (if waking e then 0%nat else ww))
| pt_close_write pi xs ys rw ww fr pi' :
    pipeclose true pi = (fr, pi') -> pipe_step mid (Psys pi xs ys rw ww) (Psys pi' xs ys 0 ww)
| pt_close_read pi xs ys rw ww fr pi' :
    pipeclose false pi = (fr, pi') -> pipe_step mid (Psys pi xs ys rw ww) (Psys pi' xs ys rw 0)
| pt_kill_reader pi xs ys rw ww : pipe_step mid (Psys pi xs ys (S rw) ww) (Psys pi xs ys rw ww)
| pt_kill_writer pi xs ys rw ww : pipe_step mid (Psys pi xs ys rw (S ww)) (Psys pi xs ys rw ww).

(** Nobody sleeps while there is something to do. *)
Record awake (s : psys) : Prop := {
  aw_read : (0 < rwait s)%nat -> length (ins s) = length (outs s) /\ writeopen (pp s) = true;
  aw_write : (0 < wwait s)%nat ->
    (length (ins s) = length (outs s) + Z.to_nat PIPESIZE)%nat /\ readopen (pp s) = true
}.

Lemma ring_step mid s s' :
  pipe_step mid s s' -> ring (pp s) (ins s) (outs s) -> ring (pp s') (ins s') (outs s').
Proof.
  intros Hs Hr. destruct Hs as [pi xs ys rw ww n i killed fetch e l pi' _ E|pi xs ys rw ww n killed store e l pi' E
    |pi xs ys rw ww fr pi' E|pi xs ys rw ww fr pi' E|pi xs ys rw ww|pi xs ys rw ww]; cbn [pp ins outs] in *; auto.
  - by eapply pipewrite_run.
  - unfold piperead in E. destruct (_ && _).
    + destruct killed; injection E as <- <- <-; by rewrite app_nil_r.
    + destruct (piperead_loop n 0 store pi) as [[r l'] p'] eqn:E'. injection E as <- <- <-. by eapply piperead_run.
  - injection E as _ <-. by destruct Hr.
  - injection E as _ <-. by destruct Hr.
Qed.

Lemma awake_step s s' :
  pipe_step false s s' -> ring (pp s) (ins s) (outs s) -> awake s -> awake s'.
Proof.
  intros Hs Hr [Hrd Hwr]. destruct Hs as [pi xs ys rw ww n i killed fetch e l pi' Hk E|pi xs ys rw ww n killed store e l pi' E
    |pi xs ys rw ww fr pi' E|pi xs ys rw ww fr pi' E|pi xs ys rw ww|pi xs ys rw ww];
    cbn [pp ins outs rwait wwait] in *.
  - destruct Hk as [?|[b Hk]]; [done|].
    destruct (pipewrite_run _ _ _ _ _ _ _ _ _ _ Hr E) as (_ & Hro & Hwo & Hf & He).
    assert (Hl0 : waking e = false -> l = []).
    { destruct e as [r [|]|j w]; cbn [waking]; try done; [|by destruct He as (-> & _)].
      intros _. destruct He as [_ He]. unfold pipewrite in E. destruct (n - i)%nat as [|k]; cbn [pipewrite_loop] in E; [congruence|].
      rewrite Hk in E. destruct (readopen pi); [|cbn [negb orb] in E; congruence].
      destruct He as [He|He]; [congruence|]. rewrite Hk in He. rewrite He in E. cbn [negb orb] in E. congruence. }
    split; cbn [pp ins outs rwait wwait].
    + destruct (waking e) eqn:Ew; [lia|]. rewrite Hl0, app_nil_r, Hwo by done. done.
    + destruct e as [r w|j w]; cbn [sleeping].
      * rewrite Nat.add_0_r. intros Hpos. destruct (Hwr Hpos) as [Hfull Hopen]. rewrite Hro.
        split; [|done]. pose proof (rg_space _ _ _ (proj1 (pipewrite_run _ _ _ _ _ _ _ _ _ _ Hr E))) as Hsp.
        rewrite length_app in *. lia.
      * intros _. destruct He as (_ & _ & _ & ? & ?). split; [done|by rewrite Hro].
  - unfold piperead in E. rewrite (ring_empty pi xs ys Hr) in E.
    destruct (bool_decide _ && writeopen pi) eqn:Ec.
    + bool_to_prop. destruct killed; injection E as <- <- <-; cbn [waking sleeping]; rewrite app_nil_r, ?Nat.add_0_r; split; auto.
    + destruct (piperead_loop n 0 store pi) as [[r l'] p'] eqn:E'. injection E as <- <- <-. cbn [waking sleeping].
      split; cbn [pp ins outs rwait wwait]; [|lia]. rewrite Nat.add_0_r. intros Hpos. destruct (Hrd Hpos) as [He Hw].
      rewrite bool_decide_true, Hw in Ec by done. done.
  - injection E as _ <-. split; cbn [pp ins outs rwait wwait readopen writeopen]; [lia|auto].
  - injection E as _ <-. split; cbn [pp ins outs rwait wwait readopen writeopen]; [auto|lia].
  - split; cbn [pp ins outs rwait wwait]; [intros; apply Hrd; lia|exact Hwr].
  - split; cbn [pp ins outs rwait wwait]; [exact Hrd|intros; apply Hwr; lia].
Qed.

Definition new_pipe (page : list Z) : psys := Psys (pipe_init page) [] [] 0 0.

Lemma pipe_reachable mid page s :
  length page = Z.to_nat PIPESIZE -> rtc (pipe_step mid) (new_pipe page) s ->
  ring (pp s) (ins s) (outs s).
Proof.
  intros Hp Hr. remember (new_pipe page) as s0.
  assert (H0 : ring (pp s0) (ins s0) (outs s0)) by (subst; by apply ring_init). clear Heqs0.
  induction Hr; eauto using ring_step.
Qed.

(** C10: a pipe is a bounded queue.  Whatever calls of [pipewrite],
    [piperead] and [pipeclose] run, by however many processes, interleaved at
    their sleeps, and with the 32-bit counters wrapping, the bytes that have
    come out are the first bytes that were put in, in order, and at most
    [PIPESIZE] are inside. *)
Theorem pipe_fifo mid page s :
  length page = Z.to_nat PIPESIZE -> rtc (pipe_step mid) (new_pipe page) s ->
  outs s = take (length (outs s)) (ins s) /\
  (length (ins s) - length (outs s) <= Z.to_nat PIPESIZE)%nat.
Proof.
  intros Hp Hr. pose proof (pipe_reachable mid page s Hp Hr) as [_ _ _ Hpre Hs _]. split; [done|lia].
Qed.

(** C11: no wakeup is lost between readers and writers.  As long as no
    writer is killed in the middle of a segment, a reader sleeps only while
    the pipe is empty and its write side open, and a writer only while the
    pipe is full and its read side open. *)
Theorem pipe_no_lost_wakeup page s :
  length page = Z.to_nat PIPESIZE -> rtc (pipe_step false) (new_pipe page) s ->
  ((0 < rwait s)%nat -> nread (pp s) = nwrite (pp s) /\ writeopen (pp s) = true) /\
  ((0 < wwait s)%nat -> nwrite (pp s) = u32 (nread (pp s) + PIPESIZE) /\ readopen (pp s) = true).
Proof.
  intros Hp Hr. pose proof (pipe_reachable false page s Hp Hr) as Hring.
  assert (Ha : awake s).
  { remember (new_pipe page) as s0.
    assert (Hr0 : ring (pp s0) (ins s0) (outs s0)) by (subst; by apply ring_init).
    assert (H0 : awake s0) by (subst; split; cbn; lia). clear Heqs0 Hring.
    induction Hr; eauto using ring_step, awake_step. }
  destruct Ha as [H1 H2]. split; intros Hpos.
  - destruct (H1 Hpos) as [He Hw]. split; [|done]. apply Z.eqb_eq.
    rewrite (ring_empty _ _ _ Hring). by apply bool_decide_true.
  - destruct (H2 Hpos) as [He Hw]. split; [|done]. apply Z.eqb_eq.
    rewrite (ring_full _ _ _ Hring). by apply bool_decide_true.
Qed.

(** A writer that is killed between two bytes of one call returns -1
    without waking the readers, although it has put bytes into the pipe: a
    reader then sleeps while there is data for it. *)
Theorem pipe_killed_writer_no_wakeup page :
  length page = Z.to_nat PIPESIZE ->
  exists s, rtc (pipe_step true) (new_pipe page) s /\
    rwait s = 1%nat /\ length (ins s) = 1%nat /\ outs s = [].
Proof.
  intros Hp. eexists. split.
  - eapply rtc_l.
    { apply (pt_read true (pipe_init page) [] [] 0 0 4 false (fun _ => true)). reflexivity. }
    eapply rtc_l; [|apply rtc_refl].
    apply (pt_write true (pipe_init page) [] [] 1 0 2 0 (fun j => Nat.eqb j 1) (fun _ => Some 65)).
    + by left.
    + reflexivity.
  - cbn. done.
Qed.

Lemma zero_page_length : length (replicate (Z.to_nat PIPESIZE) 0) = Z.to_nat PIPESIZE.
Proof. reflexivity. Qed.

Lemma pipe_fifo_witness :
  exists s, rtc (pipe_step false) (new_pipe (replicate (Z.to_nat PIPESIZE) 0)) s /\
    ins s = [65; 65] /\ outs s = take (length (outs s)) (ins s).
Proof.
  assert (Hr : rtc (pipe_step false) (new_pipe (replicate (Z.to_nat PIPESIZE) 0))
    (Psys (put_byte 65 (put_byte 65 (pipe_init (replicate (Z.to_nat PIPESIZE) 0)))) [65; 65] [] 0 0)).
  { eapply rtc_l; [|apply rtc_refl].
    apply (pt_write false (pipe_init _) [] [] 0 0 2 0 (fun _ => false) (fun _ => Some 65) (Returns 2 true) [65; 65]);
      [right; by exists false|reflexivity]. }
  eexists. split; [exact Hr|]. split; [reflexivity|].
  apply (pipe_fifo false _ _ zero_page_length Hr).
Defined.

Lemma pipe_no_lost_wakeup_witness :
  exists s, rtc (pipe_step false) (new_pipe (replicate (Z.to_nat PIPESIZE) 0)) s /\
    rwait s = 1%nat /\ nread (pp s) = nwrite (pp s).
Proof.
  assert (Hr : rtc (pipe_step false) (new_pipe (replicate (Z.to_nat PIPESIZE) 0))
    (Psys (pipe_init (replicate (Z.to_nat PIPESIZE) 0)) [] [] 1 0)).
  { eapply rtc_l; [|apply rtc_refl]. apply (pt_read false (pipe_init _) [] [] 0 0 4 false (fun _ => true) (Sleeps 0 false) []). reflexivity. }
  eexists. split; [exact Hr|]. split; [reflexivity|].
  apply (pipe_no_lost_wakeup _ _ zero_page_length Hr). cbn. lia.
Defined.

Lemma pipe_killed_writer_no_wakeup_witness :
  exists s, rtc (pipe_step true) (new_pipe (replicate (Z.to_nat PIPESIZE) 0)) s /\ rwait s = 1%nat.
Proof.
  destruct (pipe_killed_writer_no_wakeup _ zero_page_length) as (s & H1 & H2 & _).
  exists s. split; [exact H1|exact H2].
Defined.
