(* ===== verification/File.v ===== *)
(** * kernel/file.c: open files

    The table of open files, over the inodes of fs.c, the pipes of pipe.c and
    the device switch.  A pointer to a [struct file] is an index of the
    table.  [me] is [myproc()->pid], [pt] the page table of the current
    process and [m] the physical memory.

    A pipe lives in a page of its own: [pipes] maps the address of the page to
    the pipe.  The pages that [pipeclose] gives to [kfree] are collected in
    [freed], as the callers in proc.c do not see the allocator; [reclaim]
    frees them.  The locks of the table and of a pipe protect single
    definitions here; a call that sleeps is [Blocked]. *)
From S2P Require Import Prelude Cstring Riscv Kalloc Vm Block Bio Log Fs Pipe.

Definition NFILE : nat := 100.
Definition NDEV : Z := 10.

Inductive ftype := FD_NONE | FD_PIPE | FD_INODE | FD_DEVICE.

#[export] Instance ftype_eq_dec : EqDecision ftype.
Proof. solve_decision. Defined.

Record file := File {
  f_type : ftype;
  f_ref : Z;
  readable : bool;
  writable : bool;
  f_pipe : Z;
  f_ip : nat;
  f_off : Z;
  f_major : Z
}.

Definition set_ftype v f := File v (f_ref f) (readable f) (writable f) (f_pipe f) (f_ip f) (f_off f) (f_major f).
Definition set_fref v f := File (f_type f) v (readable f) (writable f) (f_pipe f) (f_ip f) (f_off f) (f_major f).
Definition set_readable v f := File (f_type f) (f_ref f) v (writable f) (f_pipe f) (f_ip f) (f_off f) (f_major f).
Definition set_writable v f := File (f_type f) (f_ref f) (readable f) v (f_pipe f) (f_ip f) (f_off f) (f_major f).
Definition set_fpipe v f := File (f_type f) (f_ref f) (readable f) (writable f) v (f_ip f) (f_off f) (f_major f).
Definition set_fip v f := File (f_type f) (f_ref f) (readable f) (writable f) (f_pipe f) v (f_off f) (f_major f).
Definition set_foff v f := File (f_type f) (f_ref f) (readable f) (writable f) (f_pipe f) (f_ip f) v (f_major f).
Definition set_fmajor v f := File (f_type f) (f_ref f) (readable f) (writable f) (f_pipe f) (f_ip f) (f_off f) v.

Definition file0 : file := File FD_NONE 0 false false 0 0 0 0.

(** The device switch: the functions of a major number, if there are any,
    on the state [D] of the devices. *)
Class Devsw (D : Type) := {
  dev_read : Z -> option (dest -> Z -> D -> outcome (Z * dest * D));
  dev_write : Z -> option (source -> Z -> D -> outcome (Z * source * D))
}.

Record kfs (T D : Type) := Kfs {
  ftable : list file;
  pipes : gmap Z pipe;
  freed : list Z;
  fsys : fs T;
  devices : D
}.
Arguments Kfs {T D}.
Arguments ftable {T D}.
Arguments pipes {T D}.
Arguments freed {T D}.
Arguments fsys {T D}.
Arguments devices {T D}.

Module File.
Section File.
Context {T D : Type} {HT : TxStore T} {HO : TxOps T} {HD : Devsw D}.
Variables kend me : Z.
Abbreviation kfst := (kfs T D).

Definition getf (s : kfst) (f : nat) : file := default file0 (ftable s !! f).
Definition setf (f : nat) (g : file -> file) (s : kfst) : kfst :=
  Kfs (alter g f (ftable s)) (pipes s) (freed s) (fsys s) (devices s).
Definition set_fsys (v : fs T) (s : kfst) : kfst := Kfs (ftable s) (pipes s) (freed s) v (devices s).
Definition set_devices (v : D) (s : kfst) : kfst := Kfs (ftable s) (pipes s) (freed s) (fsys s) v.
Definition set_pipe (a : Z) (pi : pipe) (s : kfst) : kfst :=
  Kfs (ftable s) (<[a := pi]> (pipes s)) (freed s) (fsys s) (devices s).
Definition drop_pipe (a : Z) (s : kfst) : kfst :=
  Kfs (ftable s) (delete a (pipes s)) (freed s ++ [a]) (fsys s) (devices s).

(** A call of fs.c, and [begin_op] and [end_op]. *)
Definition on_fs {A} (f : fs T -> outcome (A * fs T)) (s : kfst) : outcome (A * kfst) :=
  '(r, v) ← f (fsys s); Ok (r, set_fsys v s).
Definition in_fs (f : fs T -> outcome (fs T)) (s : kfst) : outcome kfst :=
  v ← f (fsys s); Ok (set_fsys v s).
Definition begin_op (s : kfst) : outcome kfst :=
  in_fs (fun v => t ← tbegin (store v); Ok (set_store t v)) s.
Definition end_op (s : kfst) : outcome kfst :=
  in_fs (fun v => t ← tend (store v); Ok (set_store t v)) s.

(** The pages that are due go back to the allocator. *)
Definition reclaim (m : phys) (s : kfst) : outcome (phys * kfst) :=
  m ← foldl (fun o pa => m ← o; kfree kend pa m) (Ok m) (freed s);
  Ok (m, Kfs (ftable s) (pipes s) [] (fsys s) (devices s)).

(** The table is static data. *)
Definition fileinit : list file := replicate NFILE file0.

Fixpoint filealloc_loop (k f : nat) (s : kfst) : option nat * kfst :=
  match k with
  | O => (None, s)
  | S k' =>
      if f_ref (getf s f) =? 0 then (Some f, setf f (set_fref 1) s)
      else filealloc_loop k' (S f) s
  end.

Definition filealloc (s : kfst) : option nat * kfst := filealloc_loop NFILE 0 s.

Definition filedup (f : nat) (s : kfst) : outcome kfst :=
  if f_ref (getf s f) <? 1 then Panic "filedup"
  else Ok (setf f (fun x => set_fref (s32 (f_ref x + 1)) x) s).

(** [pipeclose] on the pipe in the page [a]. *)
Definition pipeclose (a : Z) (w : bool) (s : kfst) : outcome kfst :=
  match pipes s !! a with
  | None => Panic "pipe"
  | Some pi =>
      let '(free, pi) := Pipe.pipeclose w pi in
      Ok (if free then drop_pipe a s else set_pipe a pi s)
  end.

Definition fileclose (f : nat) (s : kfst) : outcome kfst :=
  if f_ref (getf s f) <? 1 then Panic "fileclose"
  else
    let s := setf f (fun x => set_fref (s32 (f_ref x - 1)) x) s in
    if 0 <? f_ref (getf s f) then Ok s
    else
      let ff := getf s f in
      let s := setf f (fun x => set_ftype FD_NONE (set_fref 0 x)) s in
      match f_type ff with
      | FD_PIPE => pipeclose (f_pipe ff) (writable ff) s
      | FD_INODE | FD_DEVICE =>
          s ← begin_op s;
          s ← in_fs (iput me (f_ip ff)) s;
          end_op s
      | FD_NONE => Ok s
      end.

(** [struct stat] in memory: 24 bytes, with 4 bytes of padding whose value
    [pad] the code leaves open. *)
Definition stat_bytes (pad : list Z) (st : stat) : list Z :=
  le_bytes 4 (u32 (st_dev st)) ++ le_bytes 4 (st_ino st) ++ le_bytes 2 (u16 (st_type st)) ++
  le_bytes 2 (u16 (st_nlink st)) ++ take 4 (pad ++ replicate 4 0) ++ le_bytes 8 (st_size st).

Definition filestat (pad : list Z) (f : nat) (pt addr : Z) (m : phys) (s : kfst) : outcome (Z * phys * kfst) :=
  match f_type (getf s f) with
  | FD_INODE | FD_DEVICE =>
      let ip := f_ip (getf s f) in
      s ← in_fs (ilock me ip) s;
      let st := stati ip (fsys s) in
      s ← in_fs (iunlock me ip) s;
      '(r, m) ← copyout pt addr (stat_bytes pad st) m;
      if r <? 0 then Ok (-1, m, s) else Ok (0, m, s)
  | _ => Ok (-1, m, s)
  end.

(** The [copyout] of single bytes in [piperead]; a byte that cannot be
    stored ends the loop. *)
Definition can_store (pt addr : Z) (m : phys) (i : nat) : bool :=
  match copyout pt (u64 (addr + Z.of_nat i)) [0] m with Ok (r, _) => negb (r =? -1) | _ => false end.
Fixpoint store_bytes (pt addr : Z) (l : list Z) (m : phys) : outcome phys :=
  match l with
  | [] => Ok m
  | b :: l => '(r, m) ← copyout pt addr [b] m; if r =? -1 then Ok m else store_bytes pt (u64 (addr + 1)) l m
  end.
Definition can_fetch (pt addr : Z) (m : phys) (i : nat) : option Z :=
  match copyin pt (u64 (addr + Z.of_nat i)) 1 m with Ok (r, [b]) => if r =? -1 then None else Some b | _ => None end.

Definition fileread (f : nat) (killed : bool) (pt addr n : Z) (m : phys) (s : kfst) : outcome (Z * phys * kfst) :=
  let ff := getf s f in
  if negb (readable ff) then Ok (-1, m, s)
  else
    match f_type ff with
    | FD_PIPE =>
        match pipes s !! f_pipe ff with
        | None => Panic "pipe"
        | Some pi =>
            match piperead (Z.to_nat n) killed (can_store pt addr m) pi with
            | (Returns r _, l, pi) =>
                m ← store_bytes pt addr l m;
                Ok (r, m, set_pipe (f_pipe ff) pi s)
            | (Sleeps _ _, _, _) => Blocked
            end
        end
    | FD_DEVICE =>
        if (f_major ff <? 0) || (NDEV <=? f_major ff) then Ok (-1, m, s)
        else
          match dev_read (f_major ff) with
          | None => Ok (-1, m, s)
          | Some read =>
              '(r, d, dv) ← read (UserDst pt addr m) n (devices s);
              Ok (r, match d with UserDst _ _ m => m | KernelDst _ => m end, set_devices dv s)
          end
    | FD_INODE =>
        let ip := f_ip ff in
        s ← in_fs (ilock me ip) s;
        '(r, d, v) ← readi ip (UserDst pt addr m) (f_off ff) (u32 n) (fsys s);
        let s := set_fsys v s in
        let s := if 0 <? r then setf f (fun x => set_foff (u32 (f_off x + r)) x) s else s in
        s ← in_fs (iunlock me ip) s;
        Ok (r, match d with UserDst _ _ m => m | KernelDst _ => m end, s)
    | FD_NONE => Panic "fileread"
    end.

(** [max] of [filewrite]. *)
Definition write_max : Z := (MAXOPBLOCKS - 1 - 1 - 2) / 2 * Z.of_nat BSIZE.

(** One pass of the loop of [filewrite]: a transaction of its own. *)
Definition filewrite_chunk (f : nat) (src : source) (n1 : Z) (s : kfst) : outcome (Z * kfst) :=
  let ip := f_ip (getf s f) in
  s ← begin_op s;
  s ← in_fs (ilock me ip) s;
  '(r, _, v) ← writei ip src (f_off (getf s f)) n1 (fsys s);
  let s := set_fsys v s in
  let s := if 0 <? r then setf f (fun x => set_foff (u32 (f_off x + r)) x) s else s in
  s ← in_fs (iunlock me ip) s;
  s ← end_op s;
  Ok (r, s).

(** The [while] loop of [filewrite]: the result is the final [i]. *)
Fixpoint filewrite_loop (k f : nat) (i n : Z) (pt addr : Z) (m : phys) (s : kfst) : outcome (Z * kfst) :=
  if i <? n then
    match k with
    | O => NoFuel
    | S k' =>
        let n1 := Z.min (n - i) write_max in
        '(r, s) ← filewrite_chunk f (UserSrc pt (u64 (addr + i)) m) n1 s;
        if negb (r =? n1) then Ok (i, s)
        else filewrite_loop k' f (i + r) n pt addr m s
    end
  else Ok (i, s).

Definition filewrite (f : nat) (killed : bool) (pt addr n : Z) (m : phys) (s : kfst) : outcome (Z * kfst) :=
  let ff := getf s f in
  if negb (writable ff) then Ok (-1, s)
  else
    match f_type ff with
    | FD_PIPE =>
        match pipes s !! f_pipe ff with
        | None => Panic "pipe"
        | Some pi =>
            match pipewrite (Z.to_nat n) 0 (fun _ => killed) (can_fetch pt addr m) pi with
            | (Returns r _, _, pi) => Ok (r, set_pipe (f_pipe ff) pi s)
            | (Sleeps _ _, _, _) => Blocked
            end
        end
    | FD_DEVICE =>
        if (f_major ff <? 0) || (NDEV <=? f_major ff) then Ok (-1, s)
        else
          match dev_write (f_major ff) with
          | None => Ok (-1, s)
          | Some write => '(r, _, dv) ← write (UserSrc pt addr m) n (devices s); Ok (r, set_devices dv s)
          end
    | FD_INODE =>
        '(i, s) ← filewrite_loop (Z.to_nat n) f 0 n pt addr m s;
        Ok (if i =? n then n else -1, s)
    | FD_NONE => Panic "filewrite"
    end.

(** [pipealloc]: the two files, or [None] for -1.  [struct pipe] starts with
    its lock, of 24 bytes; the data follow. *)
Definition pipealloc (m : phys) (s : kfst) : outcome (option (nat * nat) * phys * kfst) :=
  match filealloc s with
  | (None, s) => Ok (None, m, s)
  | (Some f0, s) =>
      match filealloc s with
      | (None, s) => s ← fileclose f0 s; Ok (None, m, s)
      | (Some f1, s) =>
          let '(pi, m) := kalloc m in
          if pi =? 0 then
            s ← fileclose f0 s;
            s ← fileclose f1 s;
            Ok (None, m, s)
          else
            let s := set_pipe pi (pipe_init (bytes (pmem m) (pi + 24) 512)) s in
            let s := setf f0 (fun x => set_fpipe pi (set_writable false (set_readable true (set_ftype FD_PIPE x)))) s in
            let s := setf f1 (fun x => set_fpipe pi (set_writable true (set_readable false (set_ftype FD_PIPE x)))) s in
            Ok (Some (f0, f1), m, s)
      end
  end.

End File.
End File.
