(* ===== verification/FileTheory.v ===== *)
(** * Writing to an open file

    [filewrite] cuts a write into transactions; together they write the
    bytes as one [writei] would. *)
From S2P Require Import Prelude Cstring Riscv Kalloc Vm VmTheory UvmTheory CopyTheory UvmProps Block Bio BioTheory.
From S2P Require Import Log LogTheory LogCrash Fs FsTheory FsFile FsWrite FsProps Pipe File.

Import File.

Section FileTheory.
Context {T D : Type} {HT : TxStore T} {HL : TxLaws T} {HO : TxOps T} {HOL : TxOpsLaws T} {HD : Devsw D}.
Context (sb : superblock) (Hlay : layout_ok sb) (Hroom : (base.size (bms sb) + 6 <= tcap)%nat).
Context (kend me : Z) (Hkend : 0 < kend).
Implicit Types s : kfs T D.

(** The view of the disk in a state, and the inode of a file. *)
Definition kview s : Z -> block := fview (fsys s).
Definition knode s (ip : nat) : inode := geti (fsys s) ip.

(** ** Views that agree outside the log *)

Definition agree (v v' : Z -> block) : Prop := forall b, inodestart sb <= b < fsize sb -> v' b = v b.

Lemma agree_used v v' b : agree v v' -> 0 <= b < fsize sb -> used sb v' b = used sb v b.
Proof.
  intros Ha Hb. unfold used. pose proof (BBLOCK_bmap sb b Hb). pose proof (lay_data _ Hlay). pose proof (lay_bmap _ Hlay).
  rewrite Ha by lia. done.
Qed.

Lemma inode_below : inodestart sb <= datastart sb.
Proof. pose proof (BBLOCK_bmap sb 0). pose proof (lay_bmap _ Hlay). pose proof (lay_size _ Hlay). lia. Qed.

Lemma agree_iblk v v' p m : agree v v' -> file_ok sb v p -> iblk v' p m = iblk v p m.
Proof.
  intros Ha Hf. apply iblk_keep. intros Hn. apply Ha. destruct (f_ind _ _ _ Hf Hn). pose proof inode_below. lia.
Qed.

Lemma agree_file v v' p : agree v v' -> file_ok sb v p ->
  file_ok sb v' p /\ (forall i, in_file i -> fbyte v' p i = fbyte v p i).
Proof.
  intros Ha Hf. pose proof (fun m => agree_iblk v v' p m Ha Hf) as Hi. split.
  - apply (file_ok_mono sb Hlay v); auto. intros b Hb. by rewrite (agree_used v v') by done.
  - intros i Hr%in_file_block. unfold fbyte. rewrite Hi. destruct (_ =? 0) eqn:E; [done|]. bool_to_prop.
    rewrite Ha; [done|]. destruct (f_blk _ _ _ Hf _ Hr E). pose proof inode_below. lia.
Qed.

Lemma agree_bitmap v v' : agree v v' -> bitmap_ok sb v -> bitmap_ok sb v'.
Proof. intros Ha Hb b Hr. pose proof (lay_data _ Hlay). rewrite (agree_used v v') by (done || lia). auto. Qed.

Lemma agree_apart v v' p q : agree v v' -> file_ok sb v p -> file_ok sb v q -> apart v p q -> apart v' p q.
Proof.
  intros Ha Hp Hq (A1 & A2 & A3). pose proof (fun m => agree_iblk v v' p m Ha Hp) as Ip.
  pose proof (fun m => agree_iblk v v' q m Ha Hq) as Iq. split_and!.
  - intros n m. rewrite Ip, Iq. auto.
  - intros n. rewrite Iq. auto.
  - intros Hn. destruct (A3 Hn) as [? A4]. split; [done|]. intros m. rewrite Ip. auto.
Qed.

Lemma file_ok_lock v p lk : file_ok sb v p -> file_ok sb v (set_ilock lk p).
Proof. intros [F1 F2 F3 F4 F5 F6 F7]. by split. Qed.

(** ** An open file *)

Record open_file (f ip : nat) s : Prop := {
  of_f : (f < length (ftable s))%nat;
  of_type : f_type (getf s f) = FD_INODE;
  of_ip : f_ip (getf s f) = ip;
  of_off : 0 <= f_off (getf s f);
  of_in : (ip < length (itable (fsys s)))%nat;
  of_inum : 0 <= inum (knode s ip) < ninodes sb;
  of_ref : 1 <= i_ref (knode s ip);
  of_lock : locked (i_lock (knode s ip)) = false;
  of_valid : i_valid (knode s ip) = true;
  of_sb : fsb (fsys s) = sb;
  of_bitmap : bitmap_ok sb (kview s);
  of_file : file_ok sb (kview s) (knode s ip);
  of_idle : tidle (store (fsys s))
}.

(** The size after writing [l] at [off]. *)
Definition grown (size off : Z) (l : list Z) : Z :=
  match l with [] => size | _ => Z.max size (off + Z.of_nat (length l)) end.

Lemma grown_app size off l1 l2 : grown (grown size off l1) (off + Z.of_nat (length l1)) l2 = grown size off (l1 ++ l2).
Proof. destruct l1, l2; cbn [grown length app]; rewrite ?length_app; cbn [length]; rewrite ?app_nil_r; lia || done. Qed.

(** From [s] to [s'] the bytes [l] have been written at the offset of the
    file: the file has them, the offset is past them, and neither files that
    share no block with it nor anything else has changed. *)
Record wrote_file (f ip : nat) s (l : list Z) s' : Prop := {
  wf_open : open_file f ip s';
  wf_off : f_off (getf s' f) = f_off (getf s f) + Z.of_nat (length l);
  wf_size : i_size (knode s' ip) = grown (i_size (knode s ip)) (f_off (getf s f)) l;
  wf_bytes : forall i, in_file i -> fbyte (kview s') (knode s' ip) i = written (fbyte (kview s) (knode s ip)) (f_off (getf s f)) l i;
  wf_others : forall q, file_ok sb (kview s) q -> apart (kview s) (knode s ip) q ->
    file_ok sb (kview s') q /\ apart (kview s') (knode s' ip) q /\
    (forall i, in_file i -> fbyte (kview s') q i = fbyte (kview s) q i);
  wf_files : forall g, g <> f -> getf s' g = getf s g;
  wf_inodes : forall jp, jp <> ip -> knode s' jp = knode s jp;
  wf_perm : readable (getf s' f) = readable (getf s f) /\ writable (getf s' f) = writable (getf s f);
  wf_rest : pipes s' = pipes s /\ freed s' = freed s /\ devices s' = devices s
}.

Lemma written_nil g off i : written g off [] i = g i.
Proof. unfold written. rewrite decide_False by (cbn; lia). done. Qed.

Lemma wrote_file_app f ip s l1 s1 l2 s2 :
  wrote_file f ip s l1 s1 -> wrote_file f ip s1 l2 s2 -> wrote_file f ip s (l1 ++ l2) s2.
Proof.
  intros [A1 A2 A3 A4 A5 A6 A7 [A8 A8'] (A9 & A10 & A11)] [B1 B2 B3 B4 B5 B6 B7 [B8 B8'] (B9 & B10 & B11)]. split.
  - done.
  - rewrite B2, A2, length_app. lia.
  - by rewrite B3, A2, A3, grown_app.
  - intros i Hi. rewrite <- written_app, B4, A2 by done. unfold written at 1 2. dcase; [done|]. auto.
  - intros q Hf Ha. destruct (A5 q Hf Ha) as (C1 & C2 & C3). destruct (B5 q C1 C2) as (D1 & D2 & D3). split_and!; auto.
    intros i Hi. by rewrite D3, C3.
  - intros g Hg. by rewrite B6, A6.
  - intros jp Hj. by rewrite B7, A7.
  - split; congruence.
  - split_and!; congruence.
Qed.

(** ** One transaction *)

Lemma getf_setf f g s : (f < length (ftable s))%nat -> getf (setf f g s) f = g (getf s f).
Proof.
  intros Hf. unfold getf, setf. cbn [ftable]. rewrite list_lookup_alter_eq. apply lookup_lt_is_Some in Hf as [x ->]. done.
Qed.
Lemma getf_setf_ne f g s h : h <> f -> getf (setf f g s) h = getf s h.
Proof. intros. unfold getf, setf. cbn [ftable]. by rewrite list_lookup_alter_ne. Qed.

(** [begin_op] and [ilock]. *)
Lemma chunk_start f ip s : open_file f ip s ->
  exists v, (s1 ← begin_op s; in_fs (ilock me ip) s1) = Ok (set_fsys v s) /\ fsb v = sb /\ twf (store v) ∅ ∅ /\
    (forall b, fview v b = kview s b) /\ itable v = alter (set_ilock (SleepLock true me)) ip (itable (fsys s)).
Proof.
  intros Ho. destruct (tlaw_begin _ (of_idle _ _ _ Ho)) as (t & E & Hw & Hv).
  unfold begin_op, in_fs. rewrite E. cbn [mbind outcome_bind fsys set_fsys]. unfold ilock.
  change (geti (set_store t (fsys s)) ip) with (knode s ip).
  rewrite (proj2 (Z.ltb_ge _ _) (of_ref _ _ _ Ho)). unfold acquiresleep. rewrite (of_lock _ _ _ Ho). cbn [mbind outcome_bind].
  rewrite geti_seti by apply Ho. change (geti (set_store t (fsys s)) ip) with (knode s ip). cbn [i_valid set_ilock].
  rewrite (of_valid _ _ _ Ho). cbn [negb mbind outcome_bind].
  eexists. split; [reflexivity|]. split; [apply Ho|]. split; [exact Hw|]. split; [|done]. intros b. apply Hv.
Qed.

(** [iunlock] and [end_op]. *)
Lemma chunk_end ip v W s : (ip < length (itable v))%nat -> i_lock (geti v ip) = SleepLock true me -> 1 <= i_ref (geti v ip) ->
  twf (store v) ∅ W -> fsys s = v ->
  exists v', (s1 ← in_fs (iunlock me ip) s; end_op s1) = Ok (set_fsys v' s) /\ fsb v' = fsb v /\ tidle (store v') /\
    agree (fview v) (fview v') /\ itable v' = alter (set_ilock (SleepLock false 0)) ip (itable v).
Proof.
  intros Hi Hl Hr Hw <-. destruct (tlaw_end _ _ Hw) as (t & E & Hid & Hv).
  unfold in_fs, iunlock, holdingsleep. rewrite Hl. cbn [locked lk_pid andb]. rewrite Z.eqb_refl.
  rewrite (proj2 (Z.ltb_ge _ _) Hr). cbn [negb orb mbind outcome_bind]. unfold end_op, in_fs. cbn [fsys set_fsys store seti].
  rewrite E. cbn [mbind outcome_bind]. eexists. split; [reflexivity|]. split; [done|]. split; [done|]. split; [|done].
  intros b Hb. apply Hv, (lay_tok _ Hlay). lia.
Qed.

(** A chunk fits: four blocks of data, the indirect block, the inode's block
    and the bitmap. *)
Lemma chunk_budget p off len : 0 <= off -> len <= write_max -> budget sb ∅ p (S (nblk off len)).
Proof.
  intros Ho Hl. assert (Hn : (nblk off len <= 4)%nat).
  { change write_max with 3072 in Hl. unfold nblk, BSIZE. destruct (decide _); [lia|]. zlia. }
  unfold budget, room. assert (Hs : (base.size (∅ ∪ ind_set p ∪ bms sb) <= base.size (ind_set p) + base.size (bms sb))%nat).
  { rewrite (union_empty_l_L (ind_set p)), size_union_alt. apply Nat.add_le_mono_l, subseteq_size. set_solver. }
  unfold ind_set in *. destruct (addr_at p NDIRECT =? 0); rewrite ?size_empty, ?size_singleton in Hs; lia.
Qed.

(** The bytes at the source of a chunk, and those of the chunks after it. *)
Lemma source_split pt va m c l : source_gives kend (UserSrc pt va m) (c ++ l) ->
  source_gives kend (UserSrc pt va m) c /\ source_gives kend (UserSrc pt (va + Z.of_nat (length c)) m) l.
Proof.
  cbn [source_gives]. rewrite length_app. intros (H1 & H2 & fl & G & M & Hi & Hb). split; (split; [lia|]; split; [lia|]);
    exists fl, G, M; (split; [done|]); intros i x Hx.
  - apply Hb. by apply lookup_app_l_Some.
  - rewrite <- Z.add_assoc, <- Nat2Z.inj_add. apply Hb. rewrite lookup_app_r by lia. by replace (_ - _)%nat with i by lia.
Qed.

Lemma bind_two {A B E} (x : outcome A) (f : A -> outcome B) (g : B -> outcome E) y :
  (a ← x; f a) = Ok y -> (a ← x; b ← f a; g b) = g y.
Proof. destruct x; cbn; intros Hx; try discriminate. by rewrite Hx. Qed.

(** How a chunk ends: all of [l] is written, or only a part because the disk
    is full, or nothing because the file would get too large or the offset is
    beyond its end. *)
Definition chunk_done (f ip : nat) s (l : list Z) (r : Z) s' : Prop :=
  (r = Z.of_nat (length l) /\ wrote_file f ip s l s') \/
  (r <> Z.of_nat (length l) /\ exists j, (j < length l)%nat /\ wrote_file f ip s (take j l) s' /\
     (disk_full sb (fsys s') \/ i_size (knode s ip) < f_off (getf s f) \/
      MAXFILE * BS < f_off (getf s f) + Z.of_nat (length l))).

(** What [writei] has done inside the transaction, if anything. *)
Record chunk_post (ip : nat) (v1 : fs T) (off : Z) (l : list Z) (v2 : fs T) : Prop := {
  ch_only : only_inode ip (geti v2 ip) v1 v2;
  ch_inode : geti v2 ip = set_size (i_size (geti v2 ip)) (set_addrs (addrs (geti v2 ip)) (geti v1 ip));
  ch_size : i_size (geti v2 ip) = grown (i_size (geti v1 ip)) off l;
  ch_bitmap : bitmap_ok sb (fview v2);
  ch_file : file_ok sb (fview v2) (geti v2 ip);
  ch_bytes : forall i, in_file i -> fbyte (fview v2) (geti v2 ip) i = written (fbyte (fview v1) (geti v1 ip)) off l i;
  ch_others : forall q, file_ok sb (fview v1) q -> apart (fview v1) (geti v1 ip) q ->
    file_ok sb (fview v2) q /\ apart (fview v2) (geti v2 ip) q /\
    (forall i, in_file i -> fbyte (fview v2) q i = fbyte (fview v1) q i)
}.

Lemma chunk_none ip v off : file_ok sb (fview v) (geti v ip) -> bitmap_ok sb (fview v) -> chunk_post ip v off [] v.
Proof.
  intros Hf Hb. split; auto.
  - by apply only_refl.
  - by destruct (geti v ip).
  - intros i _. by rewrite written_nil.
Qed.

Lemma chunk_some ip v off l v2 : 0 <= inum (geti v ip) < ninodes sb -> off <= i_size (geti v ip) ->
  writei_post sb ip v off l v2 -> chunk_post ip v off l v2.
Proof.
  intros Hi Ho Hp. pose proof (wp_inode _ _ _ _ _ _ Hp) as G.
  assert (Hz : i_size (geti v2 ip) = Z.max (i_size (geti v ip)) (off + Z.of_nat (length l))) by (rewrite G; done). split.
  - apply Hp.
  - rewrite Hz. exact G.
  - rewrite Hz. destruct l; cbn [grown length]; lia.
  - apply Hp.
  - apply Hp.
  - apply Hp.
  - intros q Hq Ha. destruct (write_apart sb ip v off l v2 q Hlay Hp Hi Hq Ha) as (? & ? & ?). by split_and!.
Qed.

Lemma chunk_wrote f ip s l v1 v2 s' : open_file f ip s ->
  fsb v1 = sb -> (forall b, fview v1 b = kview s b) -> itable v1 = alter (set_ilock (SleepLock true me)) ip (itable (fsys s)) ->
  chunk_post ip v1 (f_off (getf s f)) l v2 ->
  fsb (fsys s') = fsb v2 -> tidle (store (fsys s')) -> agree (fview v2) (kview s') ->
  itable (fsys s') = alter (set_ilock (SleepLock false 0)) ip (itable v2) ->
  ftable s' = alter (fun x => set_foff (f_off x + Z.of_nat (length l)) x) f (ftable s) ->
  pipes s' = pipes s -> freed s' = freed s -> devices s' = devices s ->
  wrote_file f ip s l s'.
Proof.
  intros Ho B1 V1 I1 Hp B3 Hid Ha I3 F3 R1 R2 R3. destruct Ho as [O1 O2 O3 O4 O5 O6 O7 O8 O9 O10 O11 O12 O13].
  set (p := knode s ip) in *. assert (Ha1 : agree (kview s) (fview v1)) by (intros b _; apply V1).
  assert (G1 : geti v1 ip = set_ilock (SleepLock true me) p).
  { unfold p, knode, geti. rewrite I1, list_lookup_alter_eq. apply lookup_lt_is_Some in O5 as [x ->]. done. }
  destruct Hp as [P1 P2 P3 P4 P5 P6 P7]. set (p2 := geti v2 ip) in *. destruct P1 as [P1 P1'].
  assert (L2 : length (itable v2) = length (itable (fsys s))) by (rewrite P1', length_alter, I1, length_alter; done).
  assert (G3 : knode s' ip = set_ilock (SleepLock false 0) p2).
  { unfold knode, geti. rewrite I3, list_lookup_alter_eq. unfold p2, geti.
    rewrite <- L2 in O5. apply lookup_lt_is_Some in O5 as [x ->]. done. }
  assert (Gf : getf s' f = set_foff (f_off (getf s f) + Z.of_nat (length l)) (getf s f)).
  { unfold getf. rewrite F3, list_lookup_alter_eq. pose proof O1 as Hx. apply lookup_lt_is_Some in Hx as [x ->]. done. }
  assert (Kp : inum p2 = inum p /\ i_ref p2 = i_ref p /\ i_valid p2 = i_valid p) by (rewrite P2, G1; done).
  destruct Kp as (K1 & K2 & K3). clear P2. destruct (agree_file _ _ _ Ha P5) as [Q1 Q2].
  split; rewrite ?G3, ?Gf; cbn [f_off set_foff readable writable]; auto.
  - split; rewrite ?G3, ?Gf; cbn [f_off f_type f_ip set_foff inum i_ref i_lock i_valid set_ilock]; auto; try congruence; try lia.
    + by rewrite F3, length_alter.
    + rewrite I3, length_alter. lia.
    + by apply (agree_bitmap (fview v2)).
    + by apply file_ok_lock.
  - cbn [i_size set_ilock]. rewrite P3, G1. done.
  - intros i Hi. change (fbyte (kview s') p2 i = written (fbyte (kview s) p) (f_off (getf s f)) l i).
    rewrite Q2, P6, G1 by done. unfold written. dcase; [done|]. by apply (agree_file (kview s) (fview v1) p).
  - intros q Hq Haq. destruct (agree_file (kview s) (fview v1) q Ha1 Hq) as [Hq1 Hb1].
    destruct (P7 q Hq1) as (C1 & C2 & C3); [rewrite G1; by apply (agree_apart (kview s) (fview v1) p q)|].
    destruct (agree_file _ _ q Ha C1) as [D1 D2]. split_and!; [done|by apply (agree_apart (fview v2) _ p2 q)|].
    intros i Hi. rewrite D2, C3, Hb1 by done. done.
  - intros g Hg. unfold getf. by rewrite F3, list_lookup_alter_ne.
  - intros jp Hj. unfold knode, geti. by rewrite I3, list_lookup_alter_ne, P1', list_lookup_alter_ne, I1, list_lookup_alter_ne.
Qed.


Lemma alter_off f s (g : kfs T D) n : ftable g = ftable s -> 0 <= n -> f_off (getf s f) + n < 4294967296 ->
  0 <= f_off (getf s f) -> (f < length (ftable s))%nat ->
  ftable (if 0 <? n then setf f (fun x => set_foff (u32 (f_off x + n)) x) g else g) =
  alter (fun x => set_foff (f_off x + n) x) f (ftable s).
Proof.
  intros Eg Hn Hb H0 Hf. pose proof Hf as Hx. apply lookup_lt_is_Some in Hx as [x Hx].
  assert (Ex : getf s f = x) by (unfold getf; by rewrite Hx). rewrite Ex in *.
  apply list_eq. intros j. destruct (decide (f = j)) as [<-|Hj].
  - rewrite list_lookup_alter_eq, Hx. destruct (0 <? n) eqn:E; bool_to_prop.
    + cbn [setf ftable]. rewrite list_lookup_alter_eq, Eg, Hx. cbn. by rewrite u32_id by lia.
    + rewrite Eg, Hx. assert (n = 0) as -> by lia. cbn. rewrite Z.add_0_r. by destruct x.
  - rewrite list_lookup_alter_ne by done. destruct (_ <? _); [|by rewrite Eg]. cbn [setf ftable]. by rewrite list_lookup_alter_ne, Eg.
Qed.

(** What is accepted starts within the file. *)
Lemma writei_accepted ip src off n (v : fs T) r src' v' : writei ip src off n v = Ok (r, src', v') -> 0 <= r -> off <= i_size (geti v ip).
Proof. unfold writei. intros E Hr. destruct (i_size (geti v ip) <? off) eqn:Ho; bool_to_prop; [|lia]. injection E as <- _ _. lia. Qed.

Lemma filewrite_chunk_run f ip src l s :
  open_file f ip s -> l <> [] -> source_gives kend src l -> Z.of_nat (length l) <= write_max ->
  f_off (getf s f) + Z.of_nat (length l) < 4294967296 ->
  exists r s', filewrite_chunk me f src (Z.of_nat (length l)) s = Ok (r, s') /\ chunk_done f ip s l r s'.
Proof.
  intros Ho Hne Hg Hmax Hoff. pose proof (of_off _ _ _ Ho) as Hoff0. pose proof (of_in _ _ _ Ho) as Hin.
  destruct (chunk_start f ip s Ho) as (v1 & E1 & B1 & W1 & V1 & I1).
  assert (G1 : geti v1 ip = set_ilock (SleepLock true me) (knode s ip)).
  { unfold knode, geti. rewrite I1, list_lookup_alter_eq. apply lookup_lt_is_Some in Hin as [x ->]. done. }
  assert (Ha1 : agree (kview s) (fview v1)) by (intros b _; apply V1).
  assert (Hf1 : file_ok sb (fview v1) (geti v1 ip)).
  { rewrite G1. apply file_ok_lock. by apply (agree_file (kview s)), Ho. }
  assert (Hb1 : bitmap_ok sb (fview v1)) by (apply (agree_bitmap (kview s)); [done|apply Ho]).
  assert (L1 : length (itable v1) = length (itable (fsys s))) by (by rewrite I1, length_alter).
  assert (Hi1 : 0 <= inum (geti v1 ip) < ninodes sb) by (rewrite G1; apply Ho).
  unfold filewrite_chunk. rewrite (of_ip _ _ _ Ho).
  rewrite (bind_two (begin_op s) (in_fs (ilock me ip)) _ _ E1). cbn [fsys set_fsys].
  change (getf (set_fsys v1 s) f) with (getf s f).
  destruct (writei_run sb Hlay (source_gives kend) (source_step kend Hkend) ip src l (f_off (getf s f)) v1 ∅)
    as (r & src' & v2 & E2 & Hcase); auto; [|lia|].
  { split; auto; [lia|]. by apply chunk_budget. }
  rewrite E2. cbn [mbind outcome_bind].
  assert (Hpost : exists j W, (j <= length l)%nat /\ twf (store v2) ∅ W /\ chunk_post ip v1 (f_off (getf s f)) (take j l) v2 /\
    (r = Z.of_nat j \/ r = -1 /\ j = 0%nat)).
  { destruct Hcase as [(-> & -> & _)|(j & -> & Hj & Hp & _)].
    - exists 0%nat, ∅. split; [lia|]. split; [done|]. split; [by apply chunk_none|by right].
    - destruct (wp_wf _ _ _ _ _ _ Hp) as [W Hw]. exists j, W. split_and!; [done|done| |by left]. apply chunk_some; [done| |done].
      apply (writei_accepted _ _ _ _ _ _ _ _ E2). lia. }
  destruct Hpost as (j & W & Hj & Hw2 & Hp & Hr).
  assert (L2 : length (itable v2) = length (itable (fsys s))) by (by rewrite (length_only _ _ _ _ (ch_only _ _ _ _ _ Hp))).
  set (s2 := if 0 <? r then _ else _).
  destruct (chunk_end ip v2 W s2) as (v3 & E3 & B3 & Hid & Ha3 & I3); [lia| | |done| |].
  { rewrite (ch_inode _ _ _ _ _ Hp), G1. done. }
  { rewrite (ch_inode _ _ _ _ _ Hp), G1. apply Ho. }
  { unfold s2. by destruct (_ <? _). }
  rewrite (bind_two (in_fs (iunlock me ip) s2) end_op _ _ E3).
  eexists r, _. split; [reflexivity|].
  assert (Hdone : wrote_file f ip s (take j l) (set_fsys v3 s2)).
  { apply (chunk_wrote f ip s (take j l) v1 v2); auto; try (unfold s2; by destruct (_ <? _)).
    rewrite length_take, Nat.min_l by lia. change (ftable (set_fsys v3 s2)) with (ftable s2). unfold s2.
    destruct Hr as [->|[-> ->]]; [apply alter_off; try done; try lia; apply Ho|].
    apply (alter_off f s (set_fsys v2 (set_fsys v1 s)) 0); try done; try lia; apply Ho. }
  unfold chunk_done. destruct (decide (r = Z.of_nat (length l))) as [El|Hl]; [left|right]; (split; [done|]).
  - destruct Hr as [Er|[-> ->]]; [|lia]. assert (j = length l) as -> by lia. rewrite take_ge in Hdone by lia. done.
  - exists j. split; [destruct Hr as [->|[_ ->]]; [lia|destruct l; [done|cbn; lia]]|]. split; [done|].
    destruct Hcase as [(_ & _ & Hc)|(j' & E & _ & _ & Hd)]; [right; by rewrite G1 in Hc|left].
    intros b Hb. cbn [fsys set_fsys]. rewrite (agree_used (fview v2)) by done. apply Hd; [|done]. lia.
Qed.

(** ** The loop *)

Lemma chunk_size_after f ip s l s' : wrote_file f ip s l s' -> l <> [] -> f_off (getf s' f) <= i_size (knode s' ip).
Proof. intros Hw Hl. rewrite (wf_off _ _ _ _ _ Hw), (wf_size _ _ _ _ _ Hw). destruct l; [done|]. cbn [grown]. lia. Qed.

(** How a write of [l] ends. *)
Definition write_done (f ip : nat) s (l : list Z) (i : Z) s' : Prop :=
  exists j, (j <= length l)%nat /\ wrote_file f ip s (take j l) s' /\
    ((i = Z.of_nat (length l) /\ j = length l) \/
     (i < Z.of_nat (length l) /\ (j < length l)%nat /\
       (disk_full sb (fsys s') \/ i_size (knode s ip) < f_off (getf s f) \/
        MAXFILE * BS < f_off (getf s f) + Z.of_nat (length l)))).

Lemma wrote_file_nil f ip s : open_file f ip s -> wrote_file f ip s [] s.
Proof. intros Ho. split; auto; cbn; try lia. intros i _. by rewrite written_nil. Qed.

Lemma write_done_nil f ip s : open_file f ip s -> write_done f ip s [] 0 s.
Proof. intros Ho. exists 0%nat. split; [done|]. split; [by apply wrote_file_nil|by left]. Qed.

Lemma write_done_app f ip s c s1 l i s2 : c <> [] ->
  wrote_file f ip s c s1 -> write_done f ip s1 l i s2 -> write_done f ip s (c ++ l) (Z.of_nat (length c) + i) s2.
Proof.
  intros Hc Hw (j & Hj & Hw2 & Hcase). exists (length c + j)%nat. rewrite length_app. split; [lia|].
  rewrite take_app_add. split; [by eapply wrote_file_app|].
  destruct Hcase as [[-> ->]|(Hi & Hlt & Hr)]; [left; lia|right]. split; [lia|]. split; [lia|].
  pose proof (chunk_size_after _ _ _ _ _ Hw Hc). rewrite (wf_off _ _ _ _ _ Hw) in *.
  destruct Hr as [Hr|[Hr|Hr]]; [by left|lia|]. right. right. lia.
Qed.

Lemma write_done_cut f ip s c l j s1 : (j < length c)%nat -> wrote_file f ip s (take j c) s1 ->
  disk_full sb (fsys s1) \/ i_size (knode s ip) < f_off (getf s f) \/ MAXFILE * BS < f_off (getf s f) + Z.of_nat (length c) ->
  write_done f ip s (c ++ l) 0 s1.
Proof.
  intros Hj Hw Hr. exists j. rewrite length_app, take_app_le by lia. split; [lia|]. split; [done|]. right.
  split; [lia|]. split; [lia|]. destruct Hr as [Hr|[Hr|Hr]]; [by left|by right; left|right; right; lia].
Qed.

Lemma filewrite_loop_run k f ip pt addr m i0 n s l :
  open_file f ip s -> source_gives kend (UserSrc pt (addr + i0) m) l -> 0 <= addr -> 0 <= i0 ->
  n = i0 + Z.of_nat (length l) -> (length l <= k)%nat -> f_off (getf s f) + Z.of_nat (length l) < 4294967296 ->
  exists i s', filewrite_loop me k f i0 n pt addr m s = Ok (i, s') /\ write_done f ip s l (i - i0) s'.
Proof.
  revert i0 s l. induction k as [|k IH]; intros i0 s l Ho Hg Ha Hd -> Hk Hb; cbn [filewrite_loop];
    (destruct (decide (l = [])) as [->|Hne];
     [rewrite (proj2 (Z.ltb_ge _ _)) by (cbn; lia); eexists _, _; split; [done|]; rewrite Z.sub_diag; by apply write_done_nil|];
     assert (Hl : (0 < length l)%nat) by (destruct l; [done|cbn; lia]); rewrite (proj2 (Z.ltb_lt _ _)) by lia).
  { lia. }
  change write_max with 3072. set (n1 := Z.min _ 3072).
  assert (Hsrc : u64 (addr + i0) = addr + i0) by (apply u64_id; cbn in Hg; lia). rewrite Hsrc.
  set (c := take (Z.to_nat n1) l). set (l2 := drop (Z.to_nat n1) l). assert (El : l = c ++ l2) by (symmetry; apply take_drop).
  assert (Ln : Z.of_nat (length c) = n1) by (unfold c; rewrite length_take; lia).
  assert (L2 : length l = (length c + length l2)%nat) by (rewrite El at 1; apply length_app).
  assert (Hc : c <> []) by (intros E; rewrite E in Ln; cbn in Ln; lia).
  clearbody c l2. rewrite El in Hg |- *. apply source_split in Hg as [Hg1 Hg2].
  destruct (filewrite_chunk_run f ip (UserSrc pt (addr + i0) m) c s) as (r & s1 & E & Hcd); auto;
    [change write_max with 3072; lia|lia|].
  rewrite Ln in E. rewrite E. cbn [mbind outcome_bind].
  destruct Hcd as [[-> Hw]|(Hr & j & Hj & Hw & Hreason)].
  - rewrite Ln, Z.eqb_refl. cbn [negb].
    destruct (IH (i0 + n1) s1 l2) as (i & s2 & E2 & Hd2); [apply Hw|rewrite Z.add_assoc, <- Ln; done|lia|lia|lia|lia| |].
    { rewrite (wf_off _ _ _ _ _ Hw). lia. }
    exists i, s2. split; [rewrite <- El; exact E2|]. replace (i - i0) with (Z.of_nat (length c) + (i - (i0 + n1))) by lia.
    by apply (write_done_app _ _ _ _ s1).
  - rewrite (proj2 (Z.eqb_neq _ _)) by lia. cbn [negb]. eexists _, _. split; [done|]. rewrite Z.sub_diag.
    by apply (write_done_cut _ _ _ _ _ j).
Qed.

(** C30: [filewrite] on a file.  The bytes [l] of the user's memory are
    written at the file's offset in transactions of at most 3072 bytes, and
    each of them fits in what [begin_op] reserves, provided that the bitmap
    and six blocks more do: no call panics.  The result is the length, and
    then all the bytes are in the file and its offset is past them; or it is
    -1, and then a prefix is, and the disk is full, or the file would be too
    large, or the offset was beyond its end.  In both cases every other file,
    inode, open file and pipe is as before. *)
Theorem filewrite_writes f ip killed pt addr m l s :
  open_file f ip s -> writable (getf s f) = true -> source_gives kend (UserSrc pt addr m) l ->
  f_off (getf s f) + Z.of_nat (length l) < 4294967296 ->
  exists r s' j, filewrite me f killed pt addr (Z.of_nat (length l)) m s = Ok (r, s') /\
    wrote_file f ip s (take j l) s' /\
    ((r = Z.of_nat (length l) /\ j = length l) \/
     (r = -1 /\ (j < length l)%nat /\
       (disk_full sb (fsys s') \/ i_size (knode s ip) < f_off (getf s f) \/
        MAXFILE * BS < f_off (getf s f) + Z.of_nat (length l)))).
Proof.
  intros Ho Hw Hg Hb. unfold filewrite. rewrite Hw, (of_type _ _ _ Ho). cbn [negb].
  destruct (filewrite_loop_run (Z.to_nat (Z.of_nat (length l))) f ip pt addr m 0 (Z.of_nat (length l)) s l)
    as (i & s' & E & j & Hj & Hwf & Hcase); auto; rewrite ?Z.add_0_r; try done; try lia; [apply Hg|].
  rewrite E. cbn [mbind outcome_bind]. rewrite Z.sub_0_r in Hcase.
  destruct Hcase as [[-> ->]|(Hi & Hlt & Hr)]; eexists _, s', _; (split; [reflexivity|]); (split; [exact Hwf|]).
  - left. by rewrite Z.eqb_refl.
  - right. rewrite (proj2 (Z.eqb_neq _ _)) by lia. by split_and!.
Qed.

End FileTheory.

(** ** A witness on the small disk *)

Definition free_inode : inode := set_ilock (SleepLock false 0) small_inode.
Definition small_store : log * bcache := (Log 2 30 0 false 0 (lh_block log0), binit small_disk).

#[local] Instance no_devices : Devsw unit := { dev_read _ := None; dev_write _ := None }.
#[local] Instance small_tx : TxStore (log * bcache) := log_store (HC := bio_cache 7 1).
#[local] Instance small_ops : TxOps (log * bcache) := log_ops (HC := bio_cache 7 1).
#[local] Instance small_laws : TxLaws (log * bcache) :=
  log_store_laws (HC := bio_cache 7 1) (HL := bio_laws 7 1) 2 10 ltac:(unfold NBUF; lia).
#[local] Instance small_op_laws : TxOpsLaws (log * bcache) :=
  log_ops_laws (HC := bio_cache 7 1) (HL := bio_laws 7 1) 2 10 ltac:(unfold NBUF; lia).

Definition small_kfs : kfs (log * bcache) unit :=
  Kfs [File FD_INODE 1 true true 0 0 0 0] ∅ [] (Fs small_sb [free_inode] small_store) tt.

Lemma small_idle : tidle small_store.
Proof.
  destruct (binit_wf 7 1 small_disk) as (Hw & Hr & Hv & Hd & _); [lia|apply small_length|].
  split; cbn [fst snd small_store start Log.size outstanding committing lh_block lh_n]; try done; try lia.
  intros j. unfold lh_at. cbn [lh_block]. destruct (lh_block log0 !! j) as [x|] eqn:E; simpl; [|lia].
  apply lookup_replicate in E as [-> _]. lia.
Qed.

Lemma small_open : open_file small_sb 0 0 small_kfs.
Proof.
  destruct small_writing as [A1 A2 A3 A4 A5 A6]. split; [cbn; lia|done|done|cbn; lia|cbn; lia|cbn; lia|cbn; lia|done|done|done|exact A3| |exact small_idle].
  apply file_ok_lock. exact A4.
Qed.

Lemma filewrite_writes_witness : exists m root x r s' j,
  filewrite 7 0 false root 4094 1 m small_kfs = Ok (r, s') /\ wrote_file small_sb 0 0 small_kfs (take j [x]) s'.
Proof.
  destruct small_user as (m & fl & root & G & M & Hinv & Hw).
  destruct (Hw 4094) as (Hr & e & He & Hu & _); [lia|].
  pose proof (ai_user _ _ _ _ _ _ Hinv 4094 e Hr He Hu) as HM.
  set (x := ld8 (pmem m) (PTE2PA e + 4094 mod 4096)).
  destruct (filewrite_writes small_sb small_layout ltac:(vm_compute; lia) small_end 7 ltac:(reflexivity) 0 0 false root 4094 m [x] small_kfs)
    as (r & s' & j & E & Hwf & _).
  - exact small_open.
  - reflexivity.
  - cbn [source_gives]. split; [lia|]. split; [cbn; lia|]. exists fl, G, M. split; [exact Hinv|]. intros i y Hy.
    apply list_lookup_singleton_Some in Hy as [-> <-]. split; [split; [exact Hr|by exists e]|].
    change (4094 + Z.of_nat 0) with 4094. unfold ubyte. rewrite HM. reflexivity.
  - cbn. lia.
  - exists m, root, x, r, s', j. split; [exact E|exact Hwf].
Defined.
