(* ===== verification/Spinlock.v ===== *)
(** * kernel/spinlock.c: spin locks and interrupt nesting

    [push_off], [pop_off], [acquire] and [release] on a machine of several
    harts.  [acquire] and [release] are cut where another hart can observe
    the lock: the entry with its [holding] check, one attempt of the atomic
    swap, and the store to [lk->cpu]; in [release] the store to [lk->cpu],
    the atomic clear, and [pop_off].  The harts interleave these pieces
    freely. *)
From S2P Require Import Prelude.

(** The [noff] and [intena] of [struct cpu] and the hart's [SIE] bit. *)
Record cpu := Cpu { noff : Z; intena : bool; sie : bool }.

Definition intr_on (c : cpu) : cpu := Cpu (noff c) (intena c) true.
Definition intr_off (c : cpu) : cpu := Cpu (noff c) (intena c) false.

Definition push_off (c : cpu) : cpu :=
  let old := sie c in
  let c := intr_off c in
  let c := if noff c =? 0 then Cpu (noff c) old (sie c) else c in
  Cpu (s32 (noff c + 1)) (intena c) (sie c).

Definition pop_off (c : cpu) : outcome cpu :=
  if sie c then Panic "pop_off - interruptible"
  else if noff c <? 1 then Panic "pop_off"
  else
    let c := Cpu (s32 (noff c - 1)) (intena c) (sie c) in
    Ok (if (noff c =? 0) && intena c then intr_on c else c).

(** A lock; [lk_cpu] is the number of the hart, [None] for the null pointer. *)
Record spinlock := SpinLock { lk_locked : bool; lk_cpu : option nat }.

Definition initlock : spinlock := SpinLock false None.

Definition holding (h : nat) (lk : spinlock) : bool :=
  lk_locked lk && bool_decide (lk_cpu lk = Some h).

(** The pieces of [acquire]. *)
Definition acquire_enter (h : nat) (c : cpu) (lk : spinlock) : outcome cpu :=
  let c := push_off c in
  if holding h lk then Panic "acquire" else Ok c.

(** [__sync_lock_test_and_set(&lk->locked, 1)]: the old value and the lock. *)
Definition test_and_set (lk : spinlock) : bool * spinlock :=
  (lk_locked lk, SpinLock true (lk_cpu lk)).

Definition acquire_own (h : nat) (lk : spinlock) : spinlock := SpinLock (lk_locked lk) (Some h).

(** The pieces of [release]. *)
Definition release_enter (h : nat) (lk : spinlock) : outcome spinlock :=
  if negb (holding h lk) then Panic "release" else Ok (SpinLock (lk_locked lk) None).

Definition lock_release (lk : spinlock) : spinlock := SpinLock false (lk_cpu lk).

(** [acquire] and [release] of one hart while no other hart moves; a swap
    that finds the lock taken spins. *)
Definition acquire (h : nat) (c : cpu) (lk : spinlock) : outcome (cpu * spinlock) :=
  c ← acquire_enter h c lk;
  let '(old, lk) := test_and_set lk in
  if old then Blocked else Ok (c, acquire_own h lk).

Definition release (h : nat) (c : cpu) (lk : spinlock) : outcome (cpu * spinlock) :=
  lk ← release_enter h lk;
  let lk := lock_release lk in
  c ← pop_off c;
  Ok (c, lk).

(** ** Harts *)

(** Where a hart is inside [acquire] or [release]. *)
Inductive at_ :=
| Running
| Spinning (l : nat)
| Swapped (l : nat)
| Leaving (l : nat)
| Popping.

(** [held] are the locks whose [acquire] has returned and whose [release]
    has not begun, [pushes] the calls of [push_off] without their [pop_off],
    and [outer] the interrupt flag as it was when the nesting began. *)
Record hart := Hart { hcpu : cpu; hat : at_; held : list nat; pushes : nat; outer : bool }.

Record machine := Machine { harts : nat -> hart; locks : nat -> spinlock }.

(** The flag that counts as [outer] after the nesting depth changes. *)
Definition outer_of (c : cpu) (o : bool) : bool := if noff c =? 0 then sie c else o.

Inductive hart_step : machine -> machine -> Prop :=
| st_acquire h l m c :
    hat (harts m h) = Running ->
    acquire_enter h (hcpu (harts m h)) (locks m l) = Ok c ->
    hart_step m (Machine (upd (harts m) h
      (Hart c (Spinning l) (held (harts m h)) (pushes (harts m h)) (outer_of (hcpu (harts m h)) (outer (harts m h))))) (locks m))
| st_swap h l m :
    hat (harts m h) = Spinning l ->
    hart_step m (Machine (upd (harts m) h
      (Hart (hcpu (harts m h)) (if (test_and_set (locks m l)).1 then Spinning l else Swapped l)
        (held (harts m h)) (pushes (harts m h)) (outer (harts m h)))) (upd (locks m) l (test_and_set (locks m l)).2))
| st_own h l m :
    hat (harts m h) = Swapped l ->
    hart_step m (Machine (upd (harts m) h
      (Hart (hcpu (harts m h)) Running (l :: held (harts m h)) (pushes (harts m h)) (outer (harts m h))))
      (upd (locks m) l (acquire_own h (locks m l))))
| st_release h l m lk :
    hat (harts m h) = Running -> l ∈ held (harts m h) ->
    release_enter h (locks m l) = Ok lk ->
    hart_step m (Machine (upd (harts m) h
      (Hart (hcpu (harts m h)) (Leaving l) (filter (fun k => k <> l) (held (harts m h))) (pushes (harts m h)) (outer (harts m h))))
      (upd (locks m) l lk))
| st_clear h l m :
    hat (harts m h) = Leaving l ->
    hart_step m (Machine (upd (harts m) h
      (Hart (hcpu (harts m h)) Popping (held (harts m h)) (pushes (harts m h)) (outer (harts m h))))
      (upd (locks m) l (lock_release (locks m l))))
| st_pop h m c :
    hat (harts m h) = Popping -> pop_off (hcpu (harts m h)) = Ok c ->
    hart_step m (Machine (upd (harts m) h
      (Hart c Running (held (harts m h)) (pushes (harts m h)) (outer (harts m h)))) (locks m))
| st_push_off h m :
    hat (harts m h) = Running ->
    hart_step m (Machine (upd (harts m) h
      (Hart (push_off (hcpu (harts m h))) Running (held (harts m h)) (S (pushes (harts m h)))
        (outer_of (hcpu (harts m h)) (outer (harts m h))))) (locks m))
| st_pop_off h m c k :
    hat (harts m h) = Running -> pushes (harts m h) = S k -> pop_off (hcpu (harts m h)) = Ok c ->
    hart_step m (Machine (upd (harts m) h
      (Hart c Running (held (harts m h)) k (outer (harts m h)))) (locks m))
| st_intr h m b :
    hat (harts m h) = Running -> held (harts m h) = [] -> pushes (harts m h) = O ->
    hart_step m (Machine (upd (harts m) h
      (Hart (Cpu (noff (hcpu (harts m h))) (intena (hcpu (harts m h))) b) Running [] O (outer (harts m h)))) (locks m)).

(** The machine after boot: no lock held, no nesting, interrupts in any
    state. *)
Definition boot (ie : nat -> bool) : machine :=
  Machine (fun h => Hart (Cpu 0 false (ie h)) Running [] O (ie h)) (fun _ => initlock).

(** ** The invariant *)

Definition depth (x : hart) : nat :=
  (length (held x) + pushes x + match hat x with Running => 0 | _ => 1 end)%nat.

(** What a hart knows of itself after at most [n] steps of the machine. *)
Record hart_ok (n : nat) (x : hart) : Prop := {
  ho_noff : noff (hcpu x) = Z.of_nat (depth x);
  ho_bound : (depth x <= n)%nat;
  ho_off : (0 < depth x)%nat -> sie (hcpu x) = false /\ intena (hcpu x) = outer x;
  ho_nodup : NoDup (held x);
  ho_at : forall l, hat x = Spinning l \/ hat x = Swapped l \/ hat x = Leaving l -> l ∉ held x
}.

(** The hart has the lock: from its swap to its clear. *)
Definition owns (x : hart) (l : nat) : Prop := l ∈ held x \/ hat x = Swapped l \/ hat x = Leaving l.

Record locks_ok (m : machine) : Prop := {
  lo_locked : forall l, lk_locked (locks m l) = true <-> exists h, owns (harts m h) l;
  lo_one : forall l h h', owns (harts m h) l -> owns (harts m h') l -> h = h';
  lo_cpu : forall l h, lk_cpu (locks m l) = Some h <-> l ∈ held (harts m h)
}.

Definition machine_ok (n : nat) (m : machine) : Prop :=
  (forall h, hart_ok n (harts m h)) /\ locks_ok m.

Lemma boot_ok ie : machine_ok 0 (boot ie).
Proof.
  split.
  - intros h. split; cbn; [done|done|lia|constructor|]. intros l _. apply not_elem_of_nil.
  - split; cbn; unfold owns; cbn.
    + intros l. split; [done|]. intros (h & [?%elem_of_nil|[?|?]]); done.
    + intros l h h' [?%elem_of_nil|[?|?]]; done.
    + intros l h. split; [done|]. by intros ?%elem_of_nil.
Qed.

(** [holding] is right about a hart that runs outside [acquire] and
    [release]. *)
Lemma holding_held n m h l :
  machine_ok n m -> holding h (locks m l) = bool_decide (l ∈ held (harts m h)).
Proof.
  intros [_ Hl]. unfold holding. apply eq_true_iff_eq.
  rewrite andb_true_iff, !bool_decide_eq_true, (lo_cpu _ Hl). split; [tauto|].
  intros Hin. split; [|done]. apply (lo_locked _ Hl). exists h. by left.
Qed.

Lemma push_off_noff c : -2147483648 <= noff c < 2147483647 ->
  noff (push_off c) = noff c + 1 /\ sie (push_off c) = false /\
  intena (push_off c) = if noff c =? 0 then sie c else intena c.
Proof. intros. unfold push_off, intr_off. cbn. case_test; cbn; rewrite s32_id by lia; auto. Qed.

Lemma pop_off_ok c : sie c = false -> 1 <= noff c < 2147483648 ->
  exists c', pop_off c = Ok c' /\ noff c' = noff c - 1 /\ intena c' = intena c /\
    sie c' = (noff c =? 1) && intena c.
Proof.
  intros Hs Hn. unfold pop_off. rewrite Hs. ztest. eexists. split; [reflexivity|].
  cbn [noff intena]. rewrite !s32_id by lia.
  assert ((noff c - 1 =? 0) = (noff c =? 1)) as -> by (apply eq_true_iff_eq; rewrite !Z.eqb_eq; lia).
  destruct ((noff c =? 1) && intena c) eqn:E; unfold intr_on; cbn; rewrite ?s32_id by lia; auto.
Qed.

(** Nesting one level deeper keeps a hart's own invariant. *)
Lemma hart_ok_push n x x' :
  hart_ok n x -> Z.of_nat n < 2147483647 ->
  hcpu x' = push_off (hcpu x) -> depth x' = S (depth x) ->
  outer x' = outer_of (hcpu x) (outer x) ->
  NoDup (held x') -> (forall l, hat x' = Spinning l \/ hat x' = Swapped l \/ hat x' = Leaving l -> l ∉ held x') ->
  hart_ok (S n) x'.
Proof.
  intros [Hn Hb Ho _ _] Hlt Hc Hd Hout Hnd Hat.
  destruct (push_off_noff (hcpu x)) as (E1 & E2 & E3); [lia|].
  split; auto; rewrite ?Hc, ?Hd; [lia|lia|]. intros _. split; [done|].
  rewrite E3, Hout. unfold outer_of. case_test; [done|]. bool_to_prop. apply Ho. lia.
Qed.

(** One level up, as [pop_off] does. *)
Lemma hart_ok_pop n x x' c :
  hart_ok n x -> Z.of_nat n < 2147483647 -> (0 < depth x)%nat ->
  pop_off (hcpu x) = Ok c -> hcpu x' = c -> S (depth x') = depth x -> outer x' = outer x ->
  NoDup (held x') -> (forall l, hat x' = Spinning l \/ hat x' = Swapped l \/ hat x' = Leaving l -> l ∉ held x') ->
  hart_ok (S n) x'.
Proof.
  intros [Hn Hb Ho _ _] Hlt Hd Hp Hc Hd' Hout Hnd Hat.
  destruct (Ho Hd) as [Hs Hi]. destruct (pop_off_ok (hcpu x)) as (c' & E & E1 & E2 & E3); [done|lia|].
  rewrite E in Hp. injection Hp as ->. split; auto; rewrite ?Hc; [lia|lia|].
  intros Hpos. rewrite E2, E3, Hout. split; [|done]. rewrite (proj2 (Z.eqb_neq _ _)) by lia. done.
Qed.

(** The same level. *)
Lemma hart_ok_same n x x' :
  hart_ok n x -> hcpu x' = hcpu x -> depth x' = depth x -> outer x' = outer x ->
  NoDup (held x') -> (forall l, hat x' = Spinning l \/ hat x' = Swapped l \/ hat x' = Leaving l -> l ∉ held x') ->
  hart_ok (S n) x'.
Proof.
  intros [Hn Hb Ho _ _] Hc Hd Hout Hnd Hat.
  split; auto; rewrite ?Hc, ?Hd, ?Hout; auto with lia.
Qed.

Lemma hart_ok_S n x : hart_ok n x -> hart_ok (S n) x.
Proof. intros H. destruct H. split; auto with lia. Qed.

(** A step of hart [h] that keeps what every hart owns and holds. *)
Lemma locks_ok_keep m h x :
  locks_ok m -> held x = held (harts m h) ->
  (forall l, owns x l <-> owns (harts m h) l) ->
  locks_ok (Machine (upd (harts m) h x) (locks m)).
Proof.
  intros [Hk H1 Hc] Hh Ho.
  assert (Hown : forall h' l, owns (upd (harts m) h x h') l <-> owns (harts m h') l).
  { intros h' l. unfold upd. dcase; [subst; apply Ho|done]. }
  assert (Hheld : forall h', held (upd (harts m) h x h') = held (harts m h')).
  { intros h'. unfold upd. dcase; [by subst|done]. }
  split; cbn.
  - intros l. rewrite Hk. by setoid_rewrite Hown.
  - intros l h1 h2. rewrite !Hown. apply H1.
  - intros l h'. by rewrite Hheld.
Qed.

(** A step of hart [h] that concerns lock [l] only. *)
Lemma locks_ok_lock m h l x lk :
  locks_ok m ->
  (forall k, k <> l -> owns x k <-> owns (harts m h) k) ->
  (forall k, k <> l -> k ∈ held x <-> k ∈ held (harts m h)) ->
  (forall h', owns (harts m h') l -> h' = h) ->
  (lk_locked lk = true <-> owns x l) ->
  (forall h', lk_cpu lk = Some h' <-> h' = h /\ l ∈ held x) ->
  locks_ok (Machine (upd (harts m) h x) (upd (locks m) l lk)).
Proof.
  intros [Hk H1 Hc] Ho Hh Hoth Hlk Hcpu.
  assert (Hown : forall h' k, owns (upd (harts m) h x h') k <->
    if decide (k = l) then h' = h /\ owns x l else owns (harts m h') k).
  { intros h' k. unfold upd. dcase; dcase; subst; split; try tauto.
    - by apply Ho.
    - by apply Ho.
    - intros HH. apply Hoth in HH. done. }
  assert (Hheld : forall h' k, k <> l -> k ∈ held (upd (harts m) h x h') <-> k ∈ held (harts m h')).
  { intros h' k Hne. unfold upd. dcase; [subst; by apply Hh|done]. }
  split; cbn.
  - intros k. setoid_rewrite Hown. unfold upd. dcase.
    + rewrite Hlk. split; [intros; by exists h|]. by intros (? & _ & ?).
    + apply Hk.
  - intros k h1 h2. rewrite !Hown. dcase; [by intros [-> _] [-> _]|apply H1].
  - intros k h'. destruct (decide (k = l)) as [->|Hne].
    + rewrite upd_eq, Hcpu. unfold upd. dcase; [subst; tauto|]. split; [tauto|].
      intros Hin. assert (owns (harts m h') l) as HH%Hoth by (by left). done.
    + rewrite upd_ne, Hheld by done. apply Hc.
Qed.

Lemma filter_ne_id (l : nat) (ks : list nat) : l ∉ ks -> filter (fun k => k <> l) ks = ks.
Proof.
  induction ks as [|k ks IH]; [done|]. rewrite not_elem_of_cons, filter_cons. intros [Hne Hnot].
  rewrite decide_True by done. by rewrite IH.
Qed.

Lemma length_filter_ne (l : nat) (ks : list nat) : NoDup ks -> l ∈ ks ->
  S (length (filter (fun k => k <> l) ks)) = length ks.
Proof.
  induction 1 as [|k ks Hk Hnd IH]; [by intros ?%elem_of_nil|].
  rewrite elem_of_cons, filter_cons. intros Hin. destruct (decide (k = l)) as [->|Hne].
  - rewrite decide_False by auto. cbn. by rewrite filter_ne_id.
  - rewrite decide_True by done. cbn. rewrite IH; [done|]. by destruct Hin.
Qed.

(** All harts but the one that moves keep their own invariant. *)
Lemma harts_ok_upd n m h x :
  (forall h', hart_ok n (harts m h')) -> hart_ok (S n) x -> forall h', hart_ok (S n) (upd (harts m) h x h').
Proof. intros Hh Hx h'. unfold upd. dcase; [done|by apply hart_ok_S]. Qed.

Ltac no_at := intros ? [?|[?|?]]; discriminate.

Section Step.
Context {n : nat} {m : machine} (Hm : machine_ok n m) (Hlt : Z.of_nat n < 2147483647).
Variables (h l : nat).

Let x := harts m h.
Let Hx : hart_ok n x := proj1 Hm h.
Let Hl : locks_ok m := proj2 Hm.

(** Who has [l] when [h] has it. *)
Lemma owner_is : owns x l -> forall h', owns (harts m h') l -> h' = h.
Proof. intros Ho h' Ho'. exact (lo_one _ Hl l h' h Ho' Ho). Qed.

Lemma step_enter c :
  hat x = Running -> acquire_enter h (hcpu x) (locks m l) = Ok c ->
  machine_ok (S n) (Machine (upd (harts m) h
    (Hart c (Spinning l) (held x) (pushes x) (outer_of (hcpu x) (outer x)))) (locks m)).
Proof.
  intros Hat He. unfold acquire_enter in He. rewrite (holding_held n m) in He by exact Hm.
  destruct (bool_decide _) eqn:E; [discriminate|]. injection He as <-. apply bool_decide_eq_false in E. split.
  - apply harts_ok_upd; [exact (proj1 Hm)|].
    eapply hart_ok_push; [exact Hx|exact Hlt|reflexivity| |reflexivity|exact (ho_nodup _ _ Hx)|].
    + unfold depth. cbn [held pushes hat]. rewrite Hat. lia.
    + cbn [hat held]. intros k [[= <-]|[?|?]]; [exact E|discriminate..].
  - apply locks_ok_keep; [exact Hl|reflexivity|]. intros k. unfold owns. cbn [held hat]. fold x. rewrite Hat.
    intuition discriminate.
Qed.

(** The swap finds the lock taken. *)
Lemma step_spin :
  hat x = Spinning l -> lk_locked (locks m l) = true ->
  machine_ok (S n) (Machine (upd (harts m) h (Hart (hcpu x) (Spinning l) (held x) (pushes x) (outer x)))
    (upd (locks m) l (SpinLock true (lk_cpu (locks m l))))).
Proof.
  intros Hat Hlk.
  assert (Hkeep : locks_ok (Machine (upd (harts m) h (Hart (hcpu x) (Spinning l) (held x) (pushes x) (outer x)))
    (locks m))).
  { apply locks_ok_keep; [exact Hl|reflexivity|]. intros k. unfold owns. cbn [held hat]. fold x. rewrite Hat.
    intuition discriminate. }
  split.
  - apply harts_ok_upd; [exact (proj1 Hm)|].
    eapply hart_ok_same; [exact Hx|reflexivity| |reflexivity|exact (ho_nodup _ _ Hx)|].
    + unfold depth. cbn [held pushes hat]. rewrite Hat. reflexivity.
    + cbn [hat held]. intros k [[= <-]|[?|?]]; [|discriminate..]. apply (ho_at _ _ Hx). by left.
  - destruct Hkeep as [Hk' H1' Hc']. cbn [harts locks] in *. split; cbn [harts locks]; [|exact H1'|].
    + intros k. unfold upd at 1. dcase; [subst k|apply Hk']. rewrite <- Hk', Hlk. reflexivity.
    + intros k h'. unfold upd at 1. dcase; [subst k|]; apply Hc'.
Qed.

(** The swap takes the lock. *)
Lemma step_take :
  hat x = Spinning l -> lk_locked (locks m l) = false ->
  machine_ok (S n) (Machine (upd (harts m) h (Hart (hcpu x) (Swapped l) (held x) (pushes x) (outer x)))
    (upd (locks m) l (SpinLock true (lk_cpu (locks m l))))).
Proof.
  intros Hat Hlk.
  assert (Hfree : forall h', ~ owns (harts m h') l).
  { intros h' Ho. assert (lk_locked (locks m l) = true); [|congruence]. apply (lo_locked _ Hl). by exists h'. }
  assert (Hnin : l ∉ held x) by (apply (ho_at _ _ Hx); by left).
  split.
  - apply harts_ok_upd; [exact (proj1 Hm)|].
    eapply hart_ok_same; [exact Hx|reflexivity| |reflexivity|exact (ho_nodup _ _ Hx)|].
    + unfold depth. cbn [held pushes hat]. rewrite Hat. reflexivity.
    + cbn [hat held]. intros k [?|[[= <-]|?]]; [discriminate|exact Hnin|discriminate].
  - apply locks_ok_lock; [exact Hl|..]; cbn [lk_locked lk_cpu].
    + intros k Hne. unfold owns. cbn [held hat]. fold x. rewrite Hat. split; [|intuition discriminate].
      intros [?|[[= ?]|?]]; [by left|congruence|discriminate].
    + reflexivity.
    + intros h' Ho. by apply Hfree in Ho.
    + split; [intros _|reflexivity]. right. by left.
    + intros h'. rewrite (lo_cpu _ Hl). cbn [held]. split; [|tauto].
      intros Hin. destruct (Hfree h'). by left.
Qed.

Lemma step_own :
  hat x = Swapped l ->
  machine_ok (S n) (Machine (upd (harts m) h (Hart (hcpu x) Running (l :: held x) (pushes x) (outer x)))
    (upd (locks m) l (acquire_own h (locks m l)))).
Proof.
  intros Hat. assert (Hown : owns x l) by (right; by left).
  split.
  - apply harts_ok_upd; [exact (proj1 Hm)|].
    eapply hart_ok_same; [exact Hx|reflexivity| |reflexivity| |no_at].
    + unfold depth. cbn [held pushes hat length]. rewrite Hat. lia.
    + cbn [held]. constructor; [|exact (ho_nodup _ _ Hx)]. apply (ho_at _ _ Hx). auto.
  - apply locks_ok_lock; [exact Hl|..]; unfold acquire_own; cbn [lk_locked lk_cpu held].
    + intros k Hne. unfold owns. cbn [held hat]. fold x. rewrite elem_of_cons, Hat.
      intuition (try congruence; discriminate).
    + intros k Hne. rewrite elem_of_cons. fold x. intuition congruence.
    + exact (owner_is Hown).
    + split; [|intros _; apply (lo_locked _ Hl); by exists h]. intros _. left. cbn [held]. apply elem_of_cons. by left.
    + intros h'. rewrite elem_of_cons. split; [intros [= <-]; auto|]. by intros [-> _].
Qed.

Lemma step_release lk :
  hat x = Running -> l ∈ held x -> release_enter h (locks m l) = Ok lk ->
  machine_ok (S n) (Machine (upd (harts m) h
    (Hart (hcpu x) (Leaving l) (filter (fun k => k <> l) (held x)) (pushes x) (outer x))) (upd (locks m) l lk)).
Proof.
  intros Hat Hin He. unfold release_enter in He. destruct (holding h (locks m l)) eqn:E; [|discriminate].
  injection He as <-. assert (Hown : owns x l) by by left.
  assert (Hnot : l ∉ filter (fun k => k <> l) (held x)) by (rewrite list_elem_of_filter; tauto).
  split.
  - apply harts_ok_upd; [exact (proj1 Hm)|].
    eapply hart_ok_same; [exact Hx|reflexivity| |reflexivity| |].
    + unfold depth. cbn [held pushes hat]. rewrite Hat. pose proof (length_filter_ne l _ (ho_nodup _ _ Hx) Hin). lia.
    + cbn [held]. apply NoDup_filter, (ho_nodup _ _ Hx).
    + cbn [hat held]. intros k [?|[?|[= <-]]]; [discriminate..|exact Hnot].
  - apply locks_ok_lock; [exact Hl|..]; cbn [lk_locked lk_cpu held].
    + intros k Hne. unfold owns. cbn [held hat]. fold x. rewrite list_elem_of_filter, Hat.
      intuition (try congruence; discriminate).
    + intros k Hne. rewrite list_elem_of_filter. fold x. tauto.
    + exact (owner_is Hown).
    + split; [|intros _; apply (lo_locked _ Hl); by exists h]. intros _. right. by right.
    + intros h'. split; [discriminate|]. intros [_ ?]. done.
Qed.

Lemma step_clear :
  hat x = Leaving l ->
  machine_ok (S n) (Machine (upd (harts m) h (Hart (hcpu x) Popping (held x) (pushes x) (outer x)))
    (upd (locks m) l (lock_release (locks m l)))).
Proof.
  intros Hat. assert (Hown : owns x l) by (right; by right).
  assert (Hnot : l ∉ held x) by (apply (ho_at _ _ Hx); auto).
  split.
  - apply harts_ok_upd; [exact (proj1 Hm)|].
    eapply hart_ok_same; [exact Hx|reflexivity| |reflexivity|exact (ho_nodup _ _ Hx)|no_at].
    unfold depth. cbn [held pushes hat]. rewrite Hat. reflexivity.
  - apply locks_ok_lock; [exact Hl|..]; unfold lock_release; cbn [lk_locked lk_cpu held].
    + intros k Hne. unfold owns. cbn [held hat]. fold x. rewrite Hat. intuition (try congruence; discriminate).
    + reflexivity.
    + exact (owner_is Hown).
    + split; [discriminate|]. intros [?|[?|?]]; [done|discriminate..].
    + intros h'. rewrite (lo_cpu _ Hl). split; [|tauto]. intros Hin.
      assert (h' = h) as -> by (apply owner_is; [exact Hown|by left]). done.
Qed.

(** [pop_off], at the end of [release] or on its own. *)
Lemma step_pop c k :
  (hat x = Popping /\ k = pushes x) \/ (hat x = Running /\ pushes x = S k) ->
  pop_off (hcpu x) = Ok c ->
  machine_ok (S n) (Machine (upd (harts m) h (Hart c Running (held x) k (outer x))) (locks m)).
Proof.
  intros Hat Hp. split.
  - apply harts_ok_upd; [exact (proj1 Hm)|].
    eapply hart_ok_pop; [exact Hx|exact Hlt| |exact Hp|reflexivity| |reflexivity|exact (ho_nodup _ _ Hx)|no_at];
      unfold depth; cbn [held pushes hat]; destruct Hat as [[-> ?]|[-> ?]]; lia.
  - apply locks_ok_keep; [exact Hl|reflexivity|]. intros j. unfold owns. cbn [held hat]. fold x.
    destruct Hat as [[-> _]|[-> _]]; intuition discriminate.
Qed.

Lemma step_push :
  hat x = Running ->
  machine_ok (S n) (Machine (upd (harts m) h
    (Hart (push_off (hcpu x)) Running (held x) (S (pushes x)) (outer_of (hcpu x) (outer x)))) (locks m)).
Proof.
  intros Hat. split.
  - apply harts_ok_upd; [exact (proj1 Hm)|].
    eapply hart_ok_push; [exact Hx|exact Hlt|reflexivity| |reflexivity|exact (ho_nodup _ _ Hx)|no_at].
    unfold depth. cbn [held pushes hat]. rewrite Hat. lia.
  - apply locks_ok_keep; [exact Hl|reflexivity|]. intros j. unfold owns. cbn [held hat]. fold x.
    rewrite Hat. reflexivity.
Qed.

Lemma step_intr b :
  hat x = Running -> held x = [] -> pushes x = O ->
  machine_ok (S n) (Machine (upd (harts m) h
    (Hart (Cpu (noff (hcpu x)) (intena (hcpu x)) b) Running [] O (outer x))) (locks m)).
Proof.
  intros Hat Hhe Hpu. split.
  - apply harts_ok_upd; [exact (proj1 Hm)|]. pose proof (ho_noff _ _ Hx) as Hn. unfold depth in Hn.
    rewrite Hat, Hhe, Hpu in Hn. split; unfold depth; cbn [hcpu noff sie held pushes hat length]; [exact Hn|lia|lia|constructor|no_at].
  - apply locks_ok_keep; [exact Hl|fold x; by rewrite Hhe|]. intros j. unfold owns. cbn [held hat]. fold x.
    rewrite Hat, Hhe. reflexivity.
Qed.
End Step.

Lemma machine_step n m m' :
  machine_ok n m -> Z.of_nat n < 2147483647 -> hart_step m m' -> machine_ok (S n) m'.
Proof.
  intros Hm Hlt Hs. destruct Hs as [h l m c Hat He|h l m Hat|h l m Hat|h l m lk Hat Hin He|h l m Hat|h m c Hat Hp
    |h m Hat|h m c k Hat Hpu Hp|h m b Hat Hhe Hpu].
  - by apply step_enter.
  - unfold test_and_set. cbn [fst snd]. destruct (lk_locked (locks m l)) eqn:E; [by apply step_spin|by apply step_take].
  - by apply step_own.
  - by apply step_release.
  - by apply step_clear.
  - apply step_pop; auto.
  - by apply step_push.
  - apply step_pop; auto.
  - by apply step_intr.
Qed.

Lemma machine_run n ie m : nsteps hart_step n (boot ie) m -> Z.of_nat n <= 2147483647 -> machine_ok n m.
Proof.
  intros Hr Hn. assert (G : forall k m0, machine_ok k m0 -> forall m1, nsteps hart_step n m0 m1 ->
    Z.of_nat (k + n) <= 2147483647 -> machine_ok (k + n) m1).
  { clear. intros k m0 Hk m1 Hr. revert k Hk.
    induction Hr as [m|n m m' m'' Hs Hr IH]; intros k Hk Hb; [by rewrite Nat.add_0_r|].
    replace (k + S n)%nat with (S k + n)%nat in * by lia. apply IH; [|lia].
    eapply machine_step; [exact Hk|lia|exact Hs]. }
  apply (G 0%nat _ (boot_ok ie) m Hr). lia.
Qed.

(** C13: spin locks exclude each other's holders and keep interrupts off.
    However the harts interleave, no two of them hold the same lock; a hart
    that holds a lock has interrupts off; [holding] tells a hart exactly
    which locks it holds, so [acquire] panics only on a lock the hart holds
    already, and [release] of a held lock and the [pop_off] that ends it do
    not panic; and the [pop_off] that ends the outermost section puts the
    interrupt flag back to what it was when that section began.  The bound on
    the number of steps keeps the nesting counter within an [int]. *)
Theorem spinlock_mutex n ie m h :
  nsteps hart_step n (boot ie) m -> Z.of_nat n <= 2147483647 ->
  let x := harts m h in
  (forall h' l, l ∈ held x -> l ∈ held (harts m h') -> h = h') /\
  (held x <> [] -> sie (hcpu x) = false) /\
  (forall l, hat x = Running -> acquire_enter h (hcpu x) (locks m l) = Panic "acquire" <-> l ∈ held x) /\
  (forall l, l ∈ held x -> exists lk, release_enter h (locks m l) = Ok lk) /\
  (hat x = Popping \/ (0 < pushes x)%nat ->
     exists c, pop_off (hcpu x) = Ok c /\
       (depth x = 1%nat -> noff c = 0 /\ sie c = outer x) /\ ((1 < depth x)%nat -> sie c = false)).
Proof.
  intros Hr Hn x. pose proof (machine_run _ _ _ Hr Hn) as Hm. destruct (Hm) as [Hh Hl].
  pose proof (Hh h) as Hx. fold x in Hx. split_and!.
  - intros h' l H1 H2. eapply (lo_one _ Hl l); by left.
  - intros Hne. apply (ho_off _ _ Hx). unfold depth. destruct (held x); [done|]. cbn. lia.
  - intros l Hat. unfold acquire_enter. rewrite (holding_held n m) by exact Hm. fold x.
    destruct (bool_decide _) eqn:E; bool_to_prop; split; done.
  - intros l Hin. unfold release_enter. rewrite (holding_held n m) by exact Hm. fold x.
    rewrite bool_decide_eq_true_2 by exact Hin. by eexists.
  - intros Hp. assert (0 < depth x)%nat as Hd by (unfold depth; destruct Hp as [->|?]; lia).
    destruct (ho_off _ _ Hx Hd) as [Hs Hi]. pose proof (ho_noff _ _ Hx). pose proof (ho_bound _ _ Hx).
    destruct (pop_off_ok (hcpu x)) as (c & E & E1 & E2 & E3); [done|lia|].
    exists c. split; [done|]. split; intros Hdx; rewrite E3, <- ?Hi.
    + split; [lia|]. by rewrite (proj2 (Z.eqb_eq _ _)) by lia.
    + by rewrite (proj2 (Z.eqb_neq _ _)) by lia.
Qed.

Lemma spinlock_mutex_witness :
  exists m, nsteps hart_step 3 (boot (fun _ => true)) m /\ held (harts m 0) = [7%nat] /\
    sie (hcpu (harts m 0)) = false.
Proof.
  assert (R : exists m, nsteps hart_step 3 (boot (fun _ => true)) m /\ held (harts m 0) = [7%nat]).
  { eexists. split.
    - eapply nsteps_l; [apply (st_acquire 0 7); reflexivity|].
      eapply nsteps_l; [apply (st_swap 0 7); reflexivity|].
      eapply nsteps_l; [apply (st_own 0 7); reflexivity|]. apply nsteps_O.
    - reflexivity. }
  destruct R as (m & R & Hheld). exists m. split; [exact R|]. split; [exact Hheld|].
  destruct (spinlock_mutex 3 (fun _ => true) m 0 R) as (_ & Hoff & _); [lia|]. apply Hoff. by rewrite Hheld.
Defined.
