(* ===== verification/Proc.v ===== *)
(** * kernel/proc.c: processes and the scheduler

    The process table and the functions of proc.c that change it.  A pointer
    to a process is its index in the table and the null pointer [None].
    [kend] and [trampoline] are linker symbols, [forkret_addr] the address of
    [forkret]; [now] is the value of [r_time()].  Spin locks do not appear
    in the state: a function is cut into the segments between two places
    where it gives up the lock that protects the data ([p->lock] or
    [wait_lock]), or sleeps, and a segment is one definition.  [printf] only
    writes to the console and is left out.

    Open files and directories belong to file.c and fs.c; the calls that
    proc.c makes to them are the class [FileLayer]. *)
From S2P Require Import Prelude Cstring Riscv Kalloc Vm Block.

Inductive procstate := UNUSED | USED | SLEEPING | RUNNABLE | RUNNING | ZOMBIE.

#[export] Instance procstate_eq_dec : EqDecision procstate.
Proof. solve_decision. Defined.

(** What a process sleeps on: an entry of the process table, or any other
    kernel object by its address. *)
Inductive channel := ChNull | ChProc (i : nat) | ChAddr (a : Z).

#[export] Instance channel_eq_dec : EqDecision channel.
Proof. solve_decision. Defined.

(** The channel of a pointer to a process. *)
Definition chan_of (p : option nat) : channel := match p with Some i => ChProc i | None => ChNull end.

Record proc := Proc {
  state : procstate;
  chan : channel;
  killed : Z;
  xstate : Z;
  pid : Z;
  parent : option nat;
  kstack : Z;
  sz : Z;
  pagetable : Z;
  trapframe : Z;
  context : list Z;
  ofile : list Z;
  cwd : Z;
  name : list Z;
  start_time : Z;
  turnaround_time : Z;
  wait_time : Z;
  total_wait_time : Z;
  wait_time_ticks : Z;
  end_time : Z;
  priority : Z
}.

Definition set_state (v : procstate) (p : proc) : proc :=
  Proc v (chan p) (killed p) (xstate p) (pid p) (parent p) (kstack p) (sz p) (pagetable p) (trapframe p)
    (context p) (ofile p) (cwd p) (name p) (start_time p) (turnaround_time p) (wait_time p) (total_wait_time
    p) (wait_time_ticks p) (end_time p) (priority p).
Definition set_chan (v : channel) (p : proc) : proc :=
  Proc (state p) v (killed p) (xstate p) (pid p) (parent p) (kstack p) (sz p) (pagetable p) (trapframe p)
    (context p) (ofile p) (cwd p) (name p) (start_time p) (turnaround_time p) (wait_time p) (total_wait_time
    p) (wait_time_ticks p) (end_time p) (priority p).
Definition set_killed (v : Z) (p : proc) : proc :=
  Proc (state p) (chan p) v (xstate p) (pid p) (parent p) (kstack p) (sz p) (pagetable p) (trapframe p)
    (context p) (ofile p) (cwd p) (name p) (start_time p) (turnaround_time p) (wait_time p) (total_wait_time
    p) (wait_time_ticks p) (end_time p) (priority p).
Definition set_xstate (v : Z) (p : proc) : proc :=
  Proc (state p) (chan p) (killed p) v (pid p) (parent p) (kstack p) (sz p) (pagetable p) (trapframe p)
    (context p) (ofile p) (cwd p) (name p) (start_time p) (turnaround_time p) (wait_time p) (total_wait_time
    p) (wait_time_ticks p) (end_time p) (priority p).
Definition set_pid (v : Z) (p : proc) : proc :=
  Proc (state p) (chan p) (killed p) (xstate p) v (parent p) (kstack p) (sz p) (pagetable p) (trapframe p)
    (context p) (ofile p) (cwd p) (name p) (start_time p) (turnaround_time p) (wait_time p) (total_wait_time
    p) (wait_time_ticks p) (end_time p) (priority p).
Definition set_parent (v : option nat) (p : proc) : proc :=
  Proc (state p) (chan p) (killed p) (xstate p) (pid p) v (kstack p) (sz p) (pagetable p) (trapframe p)
    (context p) (ofile p) (cwd p) (name p) (start_time p) (turnaround_time p) (wait_time p) (total_wait_time
    p) (wait_time_ticks p) (end_time p) (priority p).
Definition set_kstack (v : Z) (p : proc) : proc :=
  Proc (state p) (chan p) (killed p) (xstate p) (pid p) (parent p) v (sz p) (pagetable p) (trapframe p)
    (context p) (ofile p) (cwd p) (name p) (start_time p) (turnaround_time p) (wait_time p) (total_wait_time
    p) (wait_time_ticks p) (end_time p) (priority p).
Definition set_sz (v : Z) (p : proc) : proc :=
  Proc (state p) (chan p) (killed p) (xstate p) (pid p) (parent p) (kstack p) v (pagetable p) (trapframe p)
    (context p) (ofile p) (cwd p) (name p) (start_time p) (turnaround_time p) (wait_time p) (total_wait_time
    p) (wait_time_ticks p) (end_time p) (priority p).
Definition set_pagetable (v : Z) (p : proc) : proc :=
  Proc (state p) (chan p) (killed p) (xstate p) (pid p) (parent p) (kstack p) (sz p) v (trapframe p) (context
    p) (ofile p) (cwd p) (name p) (start_time p) (turnaround_time p) (wait_time p) (total_wait_time p)
    (wait_time_ticks p) (end_time p) (priority p).
Definition set_trapframe (v : Z) (p : proc) : proc :=
  Proc (state p) (chan p) (killed p) (xstate p) (pid p) (parent p) (kstack p) (sz p) (pagetable p) v (context
    p) (ofile p) (cwd p) (name p) (start_time p) (turnaround_time p) (wait_time p) (total_wait_time p)
    (wait_time_ticks p) (end_time p) (priority p).
Definition set_context (v : list Z) (p : proc) : proc :=
  Proc (state p) (chan p) (killed p) (xstate p) (pid p) (parent p) (kstack p) (sz p) (pagetable p) (trapframe
    p) v (ofile p) (cwd p) (name p) (start_time p) (turnaround_time p) (wait_time p) (total_wait_time p)
    (wait_time_ticks p) (end_time p) (priority p).
Definition set_ofile (v : list Z) (p : proc) : proc :=
  Proc (state p) (chan p) (killed p) (xstate p) (pid p) (parent p) (kstack p) (sz p) (pagetable p) (trapframe
    p) (context p) v (cwd p) (name p) (start_time p) (turnaround_time p) (wait_time p) (total_wait_time p)
    (wait_time_ticks p) (end_time p) (priority p).
Definition set_cwd (v : Z) (p : proc) : proc :=
  Proc (state p) (chan p) (killed p) (xstate p) (pid p) (parent p) (kstack p) (sz p) (pagetable p) (trapframe
    p) (context p) (ofile p) v (name p) (start_time p) (turnaround_time p) (wait_time p) (total_wait_time p)
    (wait_time_ticks p) (end_time p) (priority p).
Definition set_name (v : list Z) (p : proc) : proc :=
  Proc (state p) (chan p) (killed p) (xstate p) (pid p) (parent p) (kstack p) (sz p) (pagetable p) (trapframe
    p) (context p) (ofile p) (cwd p) v (start_time p) (turnaround_time p) (wait_time p) (total_wait_time p)
    (wait_time_ticks p) (end_time p) (priority p).
Definition set_start_time (v : Z) (p : proc) : proc :=
  Proc (state p) (chan p) (killed p) (xstate p) (pid p) (parent p) (kstack p) (sz p) (pagetable p) (trapframe
    p) (context p) (ofile p) (cwd p) (name p) v (turnaround_time p) (wait_time p) (total_wait_time p)
    (wait_time_ticks p) (end_time p) (priority p).
Definition set_turnaround_time (v : Z) (p : proc) : proc :=
  Proc (state p) (chan p) (killed p) (xstate p) (pid p) (parent p) (kstack p) (sz p) (pagetable p) (trapframe
    p) (context p) (ofile p) (cwd p) (name p) (start_time p) v (wait_time p) (total_wait_time p)
    (wait_time_ticks p) (end_time p) (priority p).
Definition set_wait_time (v : Z) (p : proc) : proc :=
  Proc (state p) (chan p) (killed p) (xstate p) (pid p) (parent p) (kstack p) (sz p) (pagetable p) (trapframe
    p) (context p) (ofile p) (cwd p) (name p) (start_time p) (turnaround_time p) v (total_wait_time p)
    (wait_time_ticks p) (end_time p) (priority p).
Definition set_total_wait_time (v : Z) (p : proc) : proc :=
  Proc (state p) (chan p) (killed p) (xstate p) (pid p) (parent p) (kstack p) (sz p) (pagetable p) (trapframe
    p) (context p) (ofile p) (cwd p) (name p) (start_time p) (turnaround_time p) (wait_time p) v
    (wait_time_ticks p) (end_time p) (priority p).
Definition set_wait_time_ticks (v : Z) (p : proc) : proc :=
  Proc (state p) (chan p) (killed p) (xstate p) (pid p) (parent p) (kstack p) (sz p) (pagetable p) (trapframe
    p) (context p) (ofile p) (cwd p) (name p) (start_time p) (turnaround_time p) (wait_time p)
    (total_wait_time p) v (end_time p) (priority p).
Definition set_end_time (v : Z) (p : proc) : proc :=
  Proc (state p) (chan p) (killed p) (xstate p) (pid p) (parent p) (kstack p) (sz p) (pagetable p) (trapframe
    p) (context p) (ofile p) (cwd p) (name p) (start_time p) (turnaround_time p) (wait_time p)
    (total_wait_time p) (wait_time_ticks p) v (priority p).
Definition set_priority (v : Z) (p : proc) : proc :=
  Proc (state p) (chan p) (killed p) (xstate p) (pid p) (parent p) (kstack p) (sz p) (pagetable p) (trapframe
    p) (context p) (ofile p) (cwd p) (name p) (start_time p) (turnaround_time p) (wait_time p)
    (total_wait_time p) (wait_time_ticks p) (end_time p) v.

Definition NOFILE : nat := 16.

(** Static data starts as zero bytes. *)
Definition proc0 : proc :=
  Proc UNUSED ChNull 0 0 0 None 0 0 0 0 (replicate 14 0) (replicate NOFILE 0) 0 [] 0 0 0 0 0 0 0.

(** What proc.c uses of file.c, fs.c and log.c; a file or inode pointer is a
    number, 0 the null pointer.  [put_cwd] is
    [begin_op(); iput(ip); end_op();]. *)
Class FileLayer (F : Type) := {
  filedup : Z -> F -> outcome F;
  fileclose : Z -> F -> outcome F;
  idup : Z -> F -> outcome F;
  put_cwd : Z -> F -> outcome F;
  namei_root : F -> outcome (Z * F)
}.

Record kstate (F : Type) := KState {
  procs : list proc;
  nextpid : Z;
  initproc : option nat;
  kphys : phys;
  files : F
}.
Arguments KState {F}.
Arguments procs {F}.
Arguments nextpid {F}.
Arguments initproc {F}.
Arguments kphys {F}.
Arguments files {F}.

Section Proc.
Context {F : Type} {HF : FileLayer F}.
Variables (kend trampoline forkret_addr : Z).
Abbreviation kst := (kstate F).

Definition getp (s : kst) (i : nat) : proc := default proc0 (procs s !! i).
Definition setp (i : nat) (f : proc -> proc) (s : kst) : kst :=
  KState (alter f i (procs s)) (nextpid s) (initproc s) (kphys s) (files s).
Definition set_phys (m : phys) (s : kst) : kst := KState (procs s) (nextpid s) (initproc s) m (files s).
Definition set_files (f : F) (s : kst) : kst := KState (procs s) (nextpid s) (initproc s) (kphys s) f.
Definition set_initproc (p : option nat) (s : kst) : kst := KState (procs s) (nextpid s) p (kphys s) (files s).

(** ** Creation and destruction *)

Fixpoint procinit_loop (k i : nat) (s : kst) : kst :=
  match k with
  | O => s
  | S k' => procinit_loop k' (S i) (setp i (fun p => set_kstack (KSTACK (Z.of_nat i)) (set_state UNUSED p)) s)
  end.

Definition procinit (m : phys) (f : F) : kst :=
  procinit_loop NPROC 0 (KState (replicate NPROC proc0) 1 None m f).

Definition allocpid (s : kst) : Z * kst :=
  (nextpid s, KState (procs s) (s32 (nextpid s + 1)) (initproc s) (kphys s) (files s)).

Definition freeproc (i : nat) (s : kst) : outcome kst :=
  m ← (if negb (trapframe (getp s i) =? 0) then kfree kend (trapframe (getp s i)) (kphys s) else Ok (kphys s));
  let s := setp i (set_trapframe 0) (set_phys m s) in
  m ← (if negb (pagetable (getp s i) =? 0)
       then proc_freepagetable kend (pagetable (getp s i)) (sz (getp s i)) (kphys s) else Ok (kphys s));
  Ok (setp i (fun p => set_state UNUSED (set_xstate 0 (set_killed 0 (set_chan ChNull (set_name []
    (set_parent None (set_pid 0 (set_sz 0 (set_pagetable 0 p))))))))) (set_phys m s)).

(** The search of [allocproc] for an unused entry. *)
Fixpoint find_unused (k i : nat) (s : kst) : option nat :=
  match k with
  | O => None
  | S k' => if decide (state (getp s i) = UNUSED) then Some i else find_unused k' (S i) s
  end.

Definition allocproc (s : kst) : outcome (option nat * kst) :=
  match find_unused NPROC 0 s with
  | None => Ok (None, s)
  | Some i =>
      let '(pid, s) := allocpid s in
      let s := setp i (fun p => set_state USED (set_priority 10 (set_pid pid p))) s in
      let '(tf, m) := kalloc (kphys s) in
      let s := setp i (set_trapframe tf) (set_phys m s) in
      if tf =? 0 then s ← freeproc i s; Ok (None, s)
      else
        '(pt, m) ← proc_pagetable kend trampoline tf (kphys s);
        let s := setp i (set_pagetable pt) (set_phys m s) in
        if pt =? 0 then s ← freeproc i s; Ok (None, s)
        else
          let ctx := <[1%nat := kstack (getp s i) + PGSIZE]> (<[0%nat := forkret_addr]> (replicate 14 0)) in
          Ok (Some i, setp i (set_context ctx) s)
  end.

Definition initcode : list Z :=
  [23; 5; 0; 0; 19; 5; 69; 2; 151; 5; 0; 0; 147; 133; 53; 2; 147; 8; 112; 0; 115; 0; 0; 0;
   147; 8; 32; 0; 115; 0; 0; 0; 239; 240; 159; 255; 47; 105; 110; 105; 116; 0; 0; 36; 0; 0; 0; 0;
   0; 0; 0; 0].

(** Offsets of the fields of [struct trapframe]. *)
Definition tf_epc : Z := 24.
Definition tf_sp : Z := 48.
Definition tf_a0 : Z := 112.
Definition tf_size : Z := 288.

(** A process name: at most [n - 1] bytes of the string [t]. *)
Definition str_copy (t : list Z) (n : nat) : list Z := take (n - 1) t.

(** A null result of [allocproc] is dereferenced, which traps into
    [kerneltrap]. *)
Definition userinit (ticks now : Z) (s : kst) : outcome kst :=
  '(p, s) ← allocproc s;
  let s := set_initproc p s in
  match p with
  | None => Panic "kerneltrap"
  | Some i =>
      m ← uvmfirst (pagetable (getp s i)) initcode (kphys s);
      let s := setp i (set_sz PGSIZE) (set_phys m s) in
      let m := st64 (pmem (kphys s)) (trapframe (getp s i) + tf_epc) 0 in
      let m := st64 m (trapframe (getp s i) + tf_sp) PGSIZE in
      let s := set_phys (with_mem m (kphys s)) s in
      let s := setp i (set_name (str_copy [105; 110; 105; 116; 99; 111; 100; 101] 16)) s in
      '(ip, f) ← namei_root (files s);
      let s := setp i (set_cwd ip) (set_files f s) in
      Ok (setp i (fun p => set_wait_time now (set_start_time now (set_wait_time_ticks ticks
            (set_state RUNNABLE p)))) s)
  end.

Definition growproc (i : nat) (n : Z) (s : kst) : outcome (Z * kst) :=
  let p := getp s i in
  if 0 <? n then
    '(sz, m) ← uvmalloc kend (pagetable p) (sz p) (u64 (sz p + n)) PTE_W (kphys s);
    let s := set_phys m s in
    if sz =? 0 then Ok (-1, s) else Ok (0, setp i (set_sz sz) s)
  else if n <? 0 then
    '(sz, m) ← uvmdealloc kend (pagetable p) (sz p) (u64 (sz p + n)) (kphys s);
    Ok (0, setp i (set_sz sz) (set_phys m s))
  else Ok (0, setp i (set_sz (sz p)) s).

(** The loop of [fork] over the open files. *)
Fixpoint fork_files (k fd i np : nat) (s : kst) : outcome kst :=
  match k with
  | O => Ok s
  | S k' =>
      let f := default 0 (ofile (getp s i) !! fd) in
      if negb (f =? 0) then
        fl ← filedup f (files s);
        fork_files k' (S fd) i np (setp np (fun p => set_ofile (<[fd := f]> (ofile p)) p) (set_files fl s))
      else fork_files k' (S fd) i np s
  end.

(** [fork] up to its first [release(&np->lock)]: the child, or [None] when
    the call returns -1. *)
Definition fork_copy (i : nat) (s : kst) : outcome (option nat * kst) :=
  '(np, s) ← allocproc s;
  match np with
  | None => Ok (None, s)
  | Some np =>
      '(r, m) ← uvmcopy kend (pagetable (getp s i)) (pagetable (getp s np)) (sz (getp s i)) (kphys s);
      let s := set_phys m s in
      if r <? 0 then s ← freeproc np s; Ok (None, s)
      else
        let s := setp np (set_sz (sz (getp s i))) s in
        let m := pmem (kphys s) in
        let m := st_bytes m (trapframe (getp s np)) (bytes m (trapframe (getp s i)) (Z.to_nat tf_size)) in
        let m := st64 m (trapframe (getp s np) + tf_a0) 0 in
        let s := set_phys (with_mem m (kphys s)) s in
        s ← fork_files NOFILE 0 i np s;
        f ← idup (cwd (getp s i)) (files s);
        let s := setp np (set_cwd (cwd (getp s i))) (set_files f s) in
        Ok (Some np, setp np (set_name (str_copy (name (getp s i)) 16)) s)
  end.

(** The section of [fork] under [wait_lock]. *)
Definition fork_link (i np : nat) (s : kst) : kst := setp np (set_parent (Some i)) s.

(** The last section of [fork]. *)
Definition fork_start (np : nat) (now : Z) (s : kst) : kst :=
  setp np (fun p => set_wait_time now (set_start_time now (set_state RUNNABLE p))) s.

Definition fork (i : nat) (now : Z) (s : kst) : outcome (Z * kst) :=
  '(np, s) ← fork_copy i s;
  match np with
  | None => Ok (-1, s)
  | Some np =>
      let pid := pid (getp s np) in
      Ok (pid, fork_start np now (fork_link i np s))
  end.

(** ** Sleep and wakeup *)

(** [sleep] up to [sched()], and what it does when it runs again. *)
Definition sleep (i : nat) (ch : channel) (s : kst) : kst :=
  setp i (fun p => set_state SLEEPING (set_chan ch p)) s.
Definition sleep_resume (i : nat) (s : kst) : kst := setp i (set_chan ChNull) s.

Definition wake (ch : channel) (now : Z) (p : proc) : proc :=
  if decide (state p = SLEEPING) then
    if decide (chan p = ch) then set_wait_time now (set_state RUNNABLE p) else p
  else p.

(** [me] is [myproc()]. *)
Fixpoint wakeup_loop (k j : nat) (me : option nat) (ch : channel) (now : Z) (s : kst) : kst :=
  match k with
  | O => s
  | S k' =>
      wakeup_loop k' (S j) me ch now (if decide (Some j = me) then s else setp j (wake ch now) s)
  end.

Definition wakeup (me : option nat) (ch : channel) (now : Z) (s : kst) : kst :=
  wakeup_loop NPROC 0 me ch now s.

(** The loop of [kill]; [victim] is its argument [pid]. *)
Fixpoint kill_loop (k j : nat) (victim : Z) (s : kst) : Z * kst :=
  match k with
  | O => (-1, s)
  | S k' =>
      if pid (getp s j) =? victim then
        (0, setp j (fun p =>
              let p := set_killed 1 p in
              if decide (state p = SLEEPING) then set_state RUNNABLE p else p) s)
      else kill_loop k' (S j) victim s
  end.

Definition kill (victim : Z) (s : kst) : Z * kst := kill_loop NPROC 0 victim s.

Definition setkilled (i : nat) (s : kst) : kst := setp i (set_killed 1) s.

(** ** Exit and wait *)

Fixpoint reparent_loop (k pp i : nat) (now : Z) (s : kst) : kst :=
  match k with
  | O => s
  | S k' =>
      reparent_loop k' (S pp) i now
        (if decide (parent (getp s pp) = Some i) then
           wakeup (Some i) (chan_of (initproc s)) now (setp pp (set_parent (initproc s)) s)
         else s)
  end.

Definition reparent (i : nat) (now : Z) (s : kst) : kst := reparent_loop NPROC 0 i now s.

(** [exit] before it closes the files. *)
Definition exit_begin (i : nat) (now : Z) (s : kst) : outcome kst :=
  if decide (initproc s = Some i) then Panic "init exiting"
  else if negb (start_time (getp s i) =? 0) then
    Ok (setp i (fun p => set_turnaround_time (u64 (now - start_time p)) (set_end_time now p)) s)
  else Ok s.

Fixpoint exit_files (k fd i : nat) (s : kst) : outcome kst :=
  match k with
  | O => Ok s
  | S k' =>
      let f := default 0 (ofile (getp s i) !! fd) in
      if negb (f =? 0) then
        fl ← fileclose f (files s);
        exit_files k' (S fd) i (setp i (fun p => set_ofile (<[fd := 0]> (ofile p)) p) (set_files fl s))
      else exit_files k' (S fd) i s
  end.

Definition exit_cwd (i : nat) (s : kst) : outcome kst :=
  f ← put_cwd (cwd (getp s i)) (files s);
  Ok (setp i (set_cwd 0) (set_files f s)).

(** The section of [exit] under [wait_lock], to [sched()]. *)
Definition exit_zombie (i : nat) (status now : Z) (s : kst) : kst :=
  let s := reparent i now s in
  let s := wakeup (Some i) (chan_of (parent (getp s i))) now s in
  setp i (fun p => set_state ZOMBIE (set_xstate status p)) s.

Definition exit (i : nat) (status now : Z) (s : kst) : outcome kst :=
  s ← exit_begin i now s;
  s ← exit_files NOFILE 0 i s;
  s ← exit_cwd i s;
  Ok (exit_zombie i status now s).

(** The bytes of a [struct proc_time]; the last four are padding. *)
Definition proc_time (p : proc) : list Z :=
  le_bytes 8 (pid p) ++ le_bytes 8 (start_time p) ++ le_bytes 8 (turnaround_time p) ++
  le_bytes 8 (wait_time p) ++ le_bytes 8 (total_wait_time p) ++ le_bytes 8 (end_time p) ++
  le_bytes 4 (u32 (priority p)) ++ [0; 0; 0; 0].

(** How a scan of [wait] ends: it returns, or has seen no zombie. *)
Inductive scanned := Reaped (r : Z) | NoZombie (havekids : bool).

Fixpoint wait_scan (k pp i : nat) (addr : Z) (havekids : bool) (s : kst) : outcome (scanned * kst) :=
  match k with
  | O => Ok (NoZombie havekids, s)
  | S k' =>
      if decide (parent (getp s pp) = Some i) then
        if decide (state (getp s pp) = ZOMBIE) then
          let pid := pid (getp s pp) in
          '(r, m) ← (if negb (addr =? 0)
                     then copyout (pagetable (getp s i)) addr (proc_time (getp s pp)) (kphys s)
                     else Ok (0, kphys s));
          let s := set_phys m s in
          if r <? 0 then Ok (Reaped (-1), s)
          else s ← freeproc pp s; Ok (Reaped pid, s)
        else wait_scan k' (S pp) i addr true s
      else wait_scan k' (S pp) i addr havekids s
  end.

(** One turn of the [for(;;)] of [wait], under [wait_lock]: [Some r] when
    the call returns [r], [None] when it sleeps. *)
Definition wait (i : nat) (addr : Z) (s : kst) : outcome (option Z * kst) :=
  '(r, s) ← wait_scan NPROC 0 i addr false s;
  match r with
  | Reaped r => Ok (Some r, s)
  | NoZombie havekids =>
      if negb havekids || z2b (killed (getp s i)) then Ok (Some (-1), s)
      else Ok (None, sleep i (ChProc i) s)
  end.

(** ** The scheduler *)

Definition SCHED_ROUND_ROBIN : bool := true.
Definition SCHED_FCFS : bool := false.
Definition SCHED_PRIORITY : bool := false.

Fixpoint select_rr (k j : nat) (s : kst) : option nat :=
  match k with
  | O => None
  | S k' => if decide (state (getp s j) = RUNNABLE) then Some j else select_rr k' (S j) s
  end.

Fixpoint select_fcfs (k j : nat) (earliest_time : Z) (earliest_p : option nat) (s : kst) : option nat :=
  match k with
  | O => earliest_p
  | S k' =>
      if decide (state (getp s j) = RUNNABLE /\ wait_time (getp s j) < earliest_time)
      then select_fcfs k' (S j) (wait_time (getp s j)) (Some j) s
      else select_fcfs k' (S j) earliest_time earliest_p s
  end.

Fixpoint select_priority (k j : nat) (highest_priority : Z) (highest_p : option nat) (s : kst) : option nat :=
  match k with
  | O => highest_p
  | S k' =>
      if decide (state (getp s j) = RUNNABLE /\ priority (getp s j) < highest_priority)
      then select_priority k' (S j) (priority (getp s j)) (Some j) s
      else select_priority k' (S j) highest_priority highest_p s
  end.

(** The choice of [scheduler], for given values of the three constants. *)
Definition select (rr fcfs prio : bool) (s : kst) : option nat :=
  if rr then select_rr NPROC 0 s
  else if fcfs then select_fcfs NPROC 0 18446744073709551615 None s
  else if prio then select_priority NPROC 0 9999 None s
  else None.

(** What [scheduler] does to its choice before [swtch]. *)
Definition dispatch (i : nat) (now : Z) (s : kst) : kst :=
  setp i (fun p => set_wait_time now
    (set_total_wait_time (u64 (total_wait_time p + (now - wait_time p))) (set_state RUNNING p))) s.

(** One turn of the loop of [scheduler], to [swtch] or [wfi]. *)
Definition scheduler (rr fcfs prio : bool) (now : Z) (s : kst) : option nat * kst :=
  match select rr fcfs prio s with
  | Some i => (Some i, dispatch i now s)
  | None => (None, s)
  end.

(** [yield] up to [sched()]. *)
Definition yield (i : nat) (now : Z) (s : kst) : kst :=
  setp i (fun p => set_wait_time now (set_state RUNNABLE p)) s.

Definition proc_parent_pid (s : kst) (i : nat) : Z :=
  match parent (getp s i) with Some q => pid (getp s q) | None => 0 end.

End Proc.
