(* ===== verification/ProcTheory.v ===== *)
(** * Theory of the process table

    What each segment of proc.c does to the part of the table that other
    processes depend on ([core]), and the invariant [table_ok] of a table
    whose processes run those segments in any order. *)
From S2P Require Import Prelude Cstring Riscv Kalloc Vm Block Proc.

#[local] Opaque NPROC.

(** ** The shared part of an entry *)

Record core := Core { c_state : procstate; c_chan : channel; c_pid : Z; c_parent : option nat }.

Definition core_of (p : proc) : core := Core (state p) (chan p) (pid p) (parent p).

Definition free_core : core := Core UNUSED ChNull 0 None.

Section Effects.
Context {F : Type} {HF : FileLayer F}.
Variables (kend trampoline forkret_addr : Z).
Abbreviation kst := (kstate F).
Implicit Types s : kst.

Definition vw (s : kst) (i : nat) : core := core_of (getp s i).

(** A table of the right size. *)
Definition sized (s : kst) : Prop := length (procs s) = NPROC.

(** [s'] differs from [s] only in what [core] leaves out, and in the entries
    that [v] gives. *)
Record becomes (s s' : kst) (v : nat -> core) : Prop := {
  be_vw : forall j, vw s' j = v j;
  be_size : length (procs s') = length (procs s);
  be_next : nextpid s' = nextpid s;
  be_init : initproc s' = initproc s
}.

Lemma becomes_refl s : becomes s s (vw s).
Proof. by split. Qed.

Lemma becomes_trans s s' s'' v v' : becomes s s' v -> becomes s' s'' v' -> becomes s s'' v'.
Proof. intros [A1 A2 A3 A4] [B1 B2 B3 B4]. split; congruence. Qed.

Lemma becomes_ext s s' v v' : becomes s s' v -> (forall j, v j = v' j) -> becomes s s' v'.
Proof. intros [A1 A2 A3 A4] E. split; auto. intros j. by rewrite A1. Qed.

Lemma getp_setp_eq s i f : (i < length (procs s))%nat -> getp (setp i f s) i = f (getp s i).
Proof.
  intros Hi. unfold getp, setp. cbn [procs]. rewrite list_lookup_alter_eq.
  destruct (procs s !! i) eqn:E; [done|]. apply lookup_ge_None in E. lia.
Qed.

Lemma getp_setp_ne s i j f : i <> j -> getp (setp i f s) j = getp s j.
Proof. intros Hi. unfold getp, setp. cbn [procs]. by rewrite list_lookup_alter_ne. Qed.

Lemma getp_beyond s i : (length (procs s) <= i)%nat -> getp s i = proc0.
Proof. intros Hi. unfold getp. by rewrite lookup_ge_None_2. Qed.

Lemma length_setp s i f : length (procs (setp i f s)) = length (procs s).
Proof. unfold setp. cbn [procs]. apply length_alter. Qed.

Lemma vw_in s i : c_state (vw s i) <> UNUSED -> (i < length (procs s))%nat.
Proof.
  intros H. destruct (decide (i < length (procs s))%nat); [done|].
  exfalso. apply H. unfold vw. rewrite getp_beyond by lia. done.
Qed.

(** Changing one entry. *)
Lemma becomes_setp s i f : (i < length (procs s))%nat ->
  becomes s (setp i f s) (upd (vw s) i (core_of (f (getp s i)))).
Proof.
  intros Hi. split; [|apply length_setp|done|done].
  intros j. unfold vw, upd. dcase; [subst; by rewrite getp_setp_eq|by rewrite getp_setp_ne].
Qed.

(** A change that [core] leaves out. *)
Lemma becomes_private s i f : (forall p, core_of (f p) = core_of p) -> becomes s (setp i f s) (vw s).
Proof.
  intros Hf. split; [|apply length_setp|done|done].
  intros j. unfold vw. destruct (decide (i = j)) as [<-|Hne]; [|by rewrite getp_setp_ne].
  destruct (decide (i < length (procs s))%nat).
  - by rewrite getp_setp_eq.
  - rewrite !getp_beyond; [done|lia|rewrite length_setp; lia].
Qed.

Lemma becomes_phys s m : becomes s (set_phys m s) (vw s).
Proof. by split. Qed.

Lemma becomes_files s f : becomes s (set_files f s) (vw s).
Proof. by split. Qed.

(** Composition after steps that keep the view. *)
Lemma becomes_after s s' s'' v : becomes s s' (vw s) -> becomes s' s'' v -> becomes s s'' v.
Proof. apply becomes_trans. Qed.

Lemma becomes_then s s' s'' v : becomes s s' v -> becomes s' s'' (vw s') -> becomes s s'' v.
Proof.
  intros A B. eapply becomes_ext; [exact (becomes_trans _ _ _ _ _ A B)|]. apply A.
Qed.

Lemma freeproc_effect i s s' : (i < length (procs s))%nat ->
  freeproc kend i s = Ok s' -> becomes s s' (upd (vw s) i free_core).
Proof.
  unfold freeproc. intros Hi E. inv_ok. subst s'.
  set (s1 := setp i (set_trapframe 0) (set_phys _ s)) in *.
  assert (B1 : becomes s s1 (vw s)).
  { eapply becomes_then; [apply becomes_phys|]. by apply becomes_private. }
  eapply becomes_after; [exact B1|]. eapply becomes_after; [apply (becomes_phys s1)|].
  eapply becomes_ext; [apply becomes_setp|].
  { cbn [procs set_phys]. rewrite (be_size _ _ _ B1). exact Hi. }
  intros j. unfold upd. dcase; [done|]. exact (be_vw _ _ _ B1 j).
Qed.

Lemma find_unused_some k j s i : find_unused k j s = Some i ->
  (j <= i < j + k)%nat /\ state (getp s i) = UNUSED /\
  (forall q, (j <= q < i)%nat -> state (getp s q) <> UNUSED).
Proof.
  revert j. induction k as [|k IH]; intros j E; cbn in E; [done|]. case_decide as Hd.
  - injection E as <-. split; [lia|]. split; [done|]. lia.
  - apply IH in E as (H1 & H2 & H3). split; [lia|]. split; [done|].
    intros q Hq. destruct (decide (q = j)) as [->|]; [done|]. apply H3. lia.
Qed.

Lemma find_unused_none k j s q : find_unused k j s = None -> (j <= q < j + k)%nat -> state (getp s q) <> UNUSED.
Proof.
  revert j. induction k as [|k IH]; intros j E Hq; cbn in E; [lia|]. case_decide as Hd; [done|].
  destruct (decide (q = j)) as [->|]; [done|]. eapply IH; [exact E|lia].
Qed.

(** The process id that the search would give out. *)
Definition numbered (s : kst) : kst := (allocpid s).2.

Lemma becomes_numbered s v s' : becomes (numbered s) s' v ->
  (forall j, vw s' j = v j) /\ length (procs s') = length (procs s) /\
  nextpid s' = s32 (nextpid s + 1) /\ initproc s' = initproc s.
Proof. intros [A1 A2 A3 A4]. auto. Qed.

(** [allocproc] that succeeds turns an unused entry into a new process. *)
Lemma allocproc_some s i s' : sized s -> allocproc kend trampoline forkret_addr s = Ok (Some i, s') ->
  state (getp s i) = UNUSED /\ (i < NPROC)%nat /\
  becomes (numbered s) s' (upd (vw s) i (Core USED (chan (getp s i)) (nextpid s) (parent (getp s i)))).
Proof.
  unfold allocproc. intros Hs E. destruct (find_unused NPROC 0 s) as [k|] eqn:Ef; [|done].
  apply find_unused_some in Ef as (Hk & Hu & _). unfold allocpid in E. cbn zeta in E.
  set (s0 := KState _ _ _ _ _) in E. set (s1 := setp k _ s0) in E.
  destruct (kalloc (kphys s1)) as [tf m]. cbn zeta in E. set (s2 := setp k _ (set_phys m s1)) in E.
  destruct (tf =? 0); [inv_ok; congruence|]. apply bind_ok in E as ([pt m'] & _ & E).
  set (s3 := setp k _ (set_phys m' s2)) in E. destruct (pt =? 0); [inv_ok; congruence|].
  injection E as <- <-. split; [done|]. split; [lia|].
  assert (B1 : becomes s0 s1 (upd (vw s0) k (Core USED (chan (getp s k)) (nextpid s) (parent (getp s k))))).
  { apply becomes_setp. unfold sized in Hs. cbn [procs s0]. lia. }
  eapply becomes_then; [|by apply becomes_private].
  eapply becomes_then; [|by apply becomes_private]. eapply becomes_then; [|apply becomes_phys].
  eapply becomes_then; [|by apply becomes_private]. eapply becomes_then; [|apply becomes_phys].
  exact B1.
Qed.

(** [allocproc] that fails leaves every entry free or as it was. *)
Lemma allocproc_none s s' : sized s -> allocproc kend trampoline forkret_addr s = Ok (None, s') ->
  s' = s \/
  exists i, state (getp s i) = UNUSED /\ (i < NPROC)%nat /\ becomes (numbered s) s' (upd (vw s) i free_core).
Proof.
  unfold allocproc. intros Hs E. destruct (find_unused NPROC 0 s) as [k|] eqn:Ef; [|left; by injection E].
  apply find_unused_some in Ef as (Hk & Hu & _). unfold allocpid in E. cbn zeta in E. right. exists k.
  split; [done|]. split; [lia|].
  set (s0 := KState _ _ _ _ _) in E. set (s1 := setp k _ s0) in E.
  assert (B1 : becomes s0 s1 (upd (vw s0) k (core_of
    (set_state USED (set_priority 10 (set_pid (nextpid s) (getp s k))))))).
  { apply becomes_setp. unfold sized in Hs. cbn [procs s0]. lia. }
  destruct (kalloc (kphys s1)) as [tf m]. cbn zeta in E. set (s2 := setp k _ (set_phys m s1)) in E.
  assert (B2 : becomes s1 s2 (vw s1)).
  { eapply becomes_then; [|by apply becomes_private]. apply becomes_phys. }
  assert (Hfree : forall t, becomes s1 t (vw s1) -> freeproc kend k t = Ok s' ->
    becomes s0 s' (upd (vw s0) k free_core)).
  { intros t Bt Et. eapply becomes_trans; [exact B1|]. eapply becomes_trans; [exact Bt|].
    eapply becomes_ext; [eapply freeproc_effect; [|exact Et]|].
    - rewrite (be_size _ _ _ Bt), (be_size _ _ _ B1). unfold sized in Hs. cbn [procs s0]. lia.
    - intros j. unfold upd. dcase; [done|]. rewrite (be_vw _ _ _ Bt), (be_vw _ _ _ B1). by rewrite upd_ne. }
  destruct (tf =? 0); [inv_ok; simplify_eq; by apply (Hfree s2)|].
  apply bind_ok in E as ([pt m'] & _ & E). set (s3 := setp k _ (set_phys m' s2)) in E.
  destruct (pt =? 0); [|discriminate]. inv_ok. simplify_eq. apply (Hfree s3); [|done].
  eapply becomes_then; [exact B2|]. eapply becomes_then; [|by apply becomes_private]. apply becomes_phys.
Qed.

Lemma fork_files_effect k fd i np s s' : fork_files k fd i np s = Ok s' -> becomes s s' (vw s).
Proof.
  revert fd s. induction k as [|k IH]; intros fd s E; cbn in E; [injection E as <-; apply becomes_refl|].
  destruct (negb (default 0 (ofile (getp s i) !! fd) =? 0)); [|by eapply IH]. inv_ok. apply IH in E.
  eapply becomes_then; [|exact E]. eapply becomes_then; [apply becomes_files|]. by apply becomes_private.
Qed.

Lemma fork_copy_some i s np s' : sized s -> fork_copy kend trampoline forkret_addr i s = Ok (Some np, s') ->
  state (getp s np) = UNUSED /\ (np < NPROC)%nat /\
  becomes (numbered s) s' (upd (vw s) np (Core USED (chan (getp s np)) (nextpid s) (parent (getp s np)))).
Proof.
  unfold fork_copy. intros Hs E. apply bind_ok in E as ([o s1] & Ea & E). destruct o as [k|]; [|discriminate].
  destruct (allocproc_some _ _ _ Hs Ea) as (Hu & Hk & B). apply bind_ok in E as ([r m] & _ & E).
  set (s2 := set_phys m s1) in E. destruct (r <? 0); [inv_ok; discriminate|].
  set (s3 := setp k _ s2) in E. set (s4 := set_phys _ s3) in E.
  apply bind_ok in E as (s5 & Ef & E). apply bind_ok in E as (f & _ & E). injection E as <- <-.
  split; [done|]. split; [done|]. apply fork_files_effect in Ef.
  eapply becomes_then; [|by apply becomes_private]. eapply becomes_then; [|by apply becomes_private].
  eapply becomes_then; [|apply becomes_files]. eapply becomes_then; [|exact Ef].
  eapply becomes_then; [|apply becomes_phys]. eapply becomes_then; [|by apply becomes_private].
  eapply becomes_then; [|apply becomes_phys]. exact B.
Qed.

Lemma fork_copy_none i s s' : sized s -> fork_copy kend trampoline forkret_addr i s = Ok (None, s') ->
  s' = s \/
  exists k, state (getp s k) = UNUSED /\ (k < NPROC)%nat /\ becomes (numbered s) s' (upd (vw s) k free_core).
Proof.
  unfold fork_copy. intros Hs E. apply bind_ok in E as ([o s1] & Ea & E).
  destruct o as [k|]; [|injection E as <-; by apply allocproc_none].
  destruct (allocproc_some _ _ _ Hs Ea) as (Hu & Hk & B). apply bind_ok in E as ([r m] & _ & E).
  set (s2 := set_phys m s1) in E. destruct (r <? 0).
  2: { apply bind_ok in E as (s5 & _ & E). apply bind_ok in E as (f & _ & E). discriminate. }
  inv_ok. simplify_eq. right. exists k. split; [done|]. split; [done|].
  assert (B2 : becomes (numbered s) s2 (upd (vw s) k (Core USED (chan (getp s k)) (nextpid s) (parent (getp s k))))).
  { eapply becomes_then; [exact B|apply becomes_phys]. }
  eapply becomes_trans; [exact B2|]. eapply becomes_ext; [eapply freeproc_effect; [|eassumption]|].
  - rewrite (be_size _ _ _ B2). unfold sized in Hs. cbn [procs numbered allocpid snd]. lia.
  - intros j. unfold upd. dcase; [done|]. rewrite (be_vw _ _ _ B2). by rewrite upd_ne.
Qed.

(** ** Wakeups *)

Definition wake_core (ch : channel) (c : core) : core :=
  if decide (c_state c = SLEEPING) then
    if decide (c_chan c = ch) then Core RUNNABLE (c_chan c) (c_pid c) (c_parent c) else c
  else c.

Lemma wake_core_of ch now p : core_of (wake ch now p) = wake_core ch (core_of p).
Proof. unfold wake, wake_core. cbn [core_of c_state c_chan]. repeat dcase; done. Qed.

(** Changing an entry through a function that fixes free entries. *)
Lemma becomes_setp_core s i f g : (forall p, core_of (f p) = g (core_of p)) -> g free_core = free_core ->
  becomes s (setp i f s) (upd (vw s) i (g (vw s i))).
Proof.
  intros Hf Hg. destruct (decide (i < length (procs s))%nat) as [Hi|Hi].
  - eapply becomes_ext; [by apply becomes_setp|]. intros j. by rewrite Hf.
  - split; [|apply length_setp|done|done]. intros j. unfold vw, upd. dcase; [subst|by rewrite getp_setp_ne].
    rewrite !getp_beyond; [symmetry; exact Hg|lia|rewrite length_setp; lia].
Qed.

(** Cases of a range test in a loop over the table. *)
Ltac range_case q j :=
  destruct (decide (q = j)); repeat dcase; subst; try done; exfalso; destruct_and?;
  first [tauto | lia | match goal with H : ~ (_ /\ _) |- _ => apply H; split; [lia|congruence] end
        | congruence].

Lemma wakeup_loop_effect k j me ch now s :
  becomes s (wakeup_loop k j me ch now s)
    (fun q => if decide ((j <= q < j + k)%nat /\ Some q <> me) then wake_core ch (vw s q) else vw s q).
Proof.
  revert j s. induction k as [|k IH]; intros j s; cbn [wakeup_loop].
  { eapply becomes_ext; [apply becomes_refl|]. intros q. dcase; [lia|done]. }
  destruct (decide (Some j = me)) as [Hme|Hme].
  - eapply becomes_ext; [apply IH|]. intros q. cbn beta.
    range_case q j.
  - assert (B : becomes s (setp j (wake ch now) s) (upd (vw s) j (wake_core ch (vw s j)))).
    { apply becomes_setp_core; [apply wake_core_of|done]. }
    eapply becomes_trans; [exact B|]. eapply becomes_ext; [apply IH|]. intros q. cbn beta.
    rewrite (be_vw _ _ _ B). unfold upd.
    range_case q j.
Qed.

Lemma wakeup_effect me ch now s : sized s ->
  becomes s (wakeup me ch now s)
    (fun q => if decide (Some q = me) then vw s q else wake_core ch (vw s q)).
Proof.
  intros Hs. eapply becomes_ext; [exact (wakeup_loop_effect NPROC 0 me ch now s)|]. intros q. cbn beta.
  destruct (decide (Some q = me)) as [E|E]; [rewrite decide_False by tauto; done|].
  destruct (decide (q < NPROC)%nat).
  - rewrite decide_True by (split; [lia|done]). done.
  - rewrite decide_False by lia. unfold vw. rewrite getp_beyond; [done|]. unfold sized in Hs. lia.
Qed.

Lemma kill_loop_effect k j victim s :
  (kill_loop k j victim s = (-1, s) /\ forall q, (j <= q < j + k)%nat -> pid (getp s q) <> victim) \/
  exists q, (j <= q < j + k)%nat /\ pid (getp s q) = victim /\ (kill_loop k j victim s).1 = 0 /\
    (forall q', (j <= q' < q)%nat -> pid (getp s q') <> victim) /\
    becomes s (kill_loop k j victim s).2 (upd (vw s) q
      (Core (if decide (state (getp s q) = SLEEPING) then RUNNABLE else state (getp s q))
         (chan (getp s q)) (pid (getp s q)) (parent (getp s q)))).
Proof.
  revert j. induction k as [|k IH]; intros j; cbn [kill_loop].
  { left. split; [done|]. lia. }
  destruct (pid (getp s j) =? victim) eqn:E; bool_to_prop.
  - right. exists j. split; [lia|]. split; [done|]. split; [done|]. split; [lia|]. cbn [fst snd].
    eapply becomes_ext; [apply (becomes_setp_core _ _ _ (fun c => if decide (c_state c = SLEEPING)
      then Core RUNNABLE (c_chan c) (c_pid c) (c_parent c) else c))|].
    + intros p. cbn. dcase; done.
    + done.
    + intros q. unfold upd. dcase; [|done]. unfold vw, core_of. cbn [c_state c_chan c_pid c_parent]. dcase; done.
  - destruct (IH (S j)) as [[H1 H2]|(q & Hq & Hp & Hr & Hlow & B)].
    + left. split; [done|]. intros q Hq. destruct (decide (q = j)) as [->|]; [done|]. apply H2. lia.
    + right. exists q. split; [lia|]. split; [done|]. split; [done|]. split; [|done].
      intros q' Hq'. destruct (decide (q' = j)) as [->|]; [done|]. apply Hlow. lia.
Qed.

(** ** The scan of [wait] *)

Definition scan_result (i : nat) (k pp : nat) (hk : bool) (r : scanned) (s s' : kst) : Prop :=
  match r with
  | NoZombie hk' =>
      s' = s /\ (forall q, (pp <= q < pp + k)%nat -> parent (getp s q) = Some i -> state (getp s q) <> ZOMBIE) /\
      (hk' = true <-> hk = true \/ exists q, (pp <= q < pp + k)%nat /\ parent (getp s q) = Some i)
  | Reaped x =>
      exists q, (pp <= q < pp + k)%nat /\ parent (getp s q) = Some i /\ state (getp s q) = ZOMBIE /\
        (forall q', (pp <= q' < q)%nat -> parent (getp s q') = Some i -> state (getp s q') <> ZOMBIE) /\
        ((x = -1 /\ becomes s s' (vw s)) \/ (x = pid (getp s q) /\ becomes s s' (upd (vw s) q free_core)))
  end.

Lemma wait_scan_effect k pp i addr hk s r s' : (pp + k <= length (procs s))%nat ->
  wait_scan kend k pp i addr hk s = Ok (r, s') -> scan_result i k pp hk r s s'.
Proof.
  revert pp hk. induction k as [|k IH]; intros pp hk Hlen E; cbn [wait_scan] in E.
  { injection E as <- <-. split; [done|]. split; [lia|]. split; [by left|]. intros [?|(q & ? & _)]; [done|lia]. }
  destruct (decide (parent (getp s pp) = Some i)) as [Hp|Hp].
  - destruct (decide (state (getp s pp) = ZOMBIE)) as [Hz|Hz].
    + apply bind_ok in E as ([x m] & _ & E). destruct (x <? 0).
      * injection E as <- <-. exists pp. split; [lia|]. split; [done|]. split; [done|]. split; [lia|].
        left. split; [done|]. apply becomes_phys.
      * inv_ok. simplify_eq. exists pp. split; [lia|]. split; [done|]. split; [done|]. split; [lia|].
        right. split; [done|]. eapply becomes_after; [apply (becomes_phys s m)|].
        refine (freeproc_effect pp (set_phys m s) s' _ _); [cbn [procs set_phys]; lia|eassumption].
    + apply IH in E; [|lia]. destruct r as [x|hk']; cbn [scan_result] in E |- *.
      * destruct E as (q & Hq & Hq1 & Hq2 & Hlow & E). exists q. split; [lia|]. split; [done|]. split; [done|].
        split; [|done]. intros q' Hq'. destruct (decide (q' = pp)) as [->|]; [done|]. apply Hlow. lia.
      * destruct E as (-> & Hnz & Hhk). split; [done|]. split.
        -- intros q Hq. destruct (decide (q = pp)) as [->|]; [done|]. apply Hnz. lia.
        -- rewrite Hhk. split; [|by left]. intros _. right. exists pp. split; [lia|done].
  - apply IH in E; [|lia]. destruct r as [x|hk']; cbn [scan_result] in E |- *.
    + destruct E as (q & Hq & Hq1 & Hq2 & Hlow & E). exists q. split; [lia|]. split; [done|]. split; [done|].
      split; [|done]. intros q' Hq'. destruct (decide (q' = pp)) as [->|]; [done|]. apply Hlow. lia.
    + destruct E as (-> & Hnz & Hhk). split; [done|]. split.
      * intros q Hq. destruct (decide (q = pp)) as [->|]; [done|]. apply Hnz. lia.
      * rewrite Hhk. split; (intros [?|(q & Hq & ?)]; [by left|right]); exists q; (split; [|done]);
          [lia|destruct (decide (q = pp)) as [->|]; [done|lia]].
Qed.
End Effects.
