(* ===== verification/ProcInv.v ===== *)
(** * The process life cycle under every interleaving

    Processes run the segments of proc.c in any order.  [table_ok] is what
    holds of the process table between two segments; the theorems at the end
    are about process ids, parents, zombies and the wakeup of a waiting
    parent. *)
From S2P Require Import Prelude Cstring Riscv Kalloc Vm Block Proc ProcTheory.

#[local] Opaque NPROC.

(** Where a process is inside a function of proc.c that spans several
    segments: [CForking n] between [fork_copy] and [fork_link], [CForked n]
    between [fork_link] and [fork_start], [CClosing] inside [exit],
    [CWaiting] inside [wait] once it has slept. *)
Inductive ctl := CUser | CForking (n : nat) | CForked (n : nat) | CClosing | CWaiting.

Definition live (st : procstate) : Prop :=
  match st with SLEEPING | RUNNABLE | RUNNING => True | _ => False end.

Record table_ok (v : nat -> core) (np : Z) (ip : option nat) (c : nat -> ctl) : Prop := {
  t_pid : forall i, c_state (v i) <> UNUSED -> 1 <= c_pid (v i) < np;
  t_inj : forall i j, c_state (v i) <> UNUSED -> c_state (v j) <> UNUSED -> c_pid (v i) = c_pid (v j) -> i = j;
  t_unused : forall i, c_state (v i) = UNUSED -> v i = free_core;
  t_parent : forall i q, c_parent (v i) = Some q -> live (c_state (v q));
  t_orphan : forall i, live (c_state (v i)) \/ c_state (v i) = ZOMBIE ->
    ip = Some i \/ exists q, c_parent (v i) = Some q;
  t_init : exists r, ip = Some r /\ live (c_state (v r)) /\ c_parent (v r) = None;
  t_forking : forall q n, c q = CForking n ->
    c_state (v n) = USED /\ c_parent (v n) = None /\ live (c_state (v q)) /\ c_state (v q) <> SLEEPING;
  t_forked : forall q n, c q = CForked n ->
    c_state (v n) = USED /\ c_parent (v n) = Some q /\ live (c_state (v q)) /\ c_state (v q) <> SLEEPING;
  t_forker : forall q q' n, c q = CForking n \/ c q = CForked n -> c q' = CForking n \/ c q' = CForked n -> q = q';
  t_wait : forall i, c_state (v i) = SLEEPING -> c i = CWaiting ->
    c_chan (v i) = ChProc i /\ (forall j, c_parent (v j) = Some i -> c_state (v j) <> ZOMBIE) /\
    exists j, c_parent (v j) = Some i;
  t_idle : forall i, ~ live (c_state (v i)) -> c i = CUser
}.

Lemma table_ok_ext v v' np ip c c' :
  table_ok v np ip c -> (forall i, v i = v' i) -> (forall i, c i = c' i) -> table_ok v' np ip c'.
Proof.
  intros H E Ec. destruct H as [H1 H2 H3 H4 H5 H6 H7 H8 H9 H10 H11].
  split; try setoid_rewrite <- E; try setoid_rewrite <- Ec; assumption.
Qed.

#[export] Instance table_ok_proper :
  Proper (pointwise_relation nat eq ==> eq ==> eq ==> pointwise_relation nat eq ==> iff) table_ok.
Proof. intros v v' E np ? <- ip ? <- c c' Ec. split; intros H; eapply table_ok_ext; eauto; intros i; symmetry; auto. Qed.

Section Table.
Context {v : nat -> core} {np : Z} {ip : option nat} {c : nat -> ctl} (Hok : table_ok v np ip c).

Lemma live_used i : live (c_state (v i)) -> c_state (v i) <> UNUSED /\ c_state (v i) <> USED /\ c_state (v i) <> ZOMBIE.
Proof. by destruct (c_state (v i)). Qed.

(** A process that is alive and stays so. *)
Lemma ok_state i st ch :
  live (c_state (v i)) -> live st -> (st = SLEEPING -> c i = CUser \/ c i = CClosing) ->
  table_ok (upd v i (Core st ch (c_pid (v i)) (c_parent (v i)))) np ip c.
Proof.
  intros Hl Hst Hsl. pose proof (live_used _ Hl) as (Hn1 & Hn2 & Hn3).
  assert (Hp : forall j, c_parent (upd v i (Core st ch (c_pid (v i)) (c_parent (v i))) j) = c_parent (v j)).
  { intros j. unfold upd. dcase; by subst. }
  assert (Hpid : forall j, c_pid (upd v i (Core st ch (c_pid (v i)) (c_parent (v i))) j) = c_pid (v j)).
  { intros j. unfold upd. dcase; by subst. }
  assert (Hlv : forall j, live (c_state (upd v i (Core st ch (c_pid (v i)) (c_parent (v i))) j)) <-> live (c_state (v j))).
  { intros j. unfold upd. dcase; [subst; tauto|done]. }
  assert (Hoth : forall j x, ~ live x -> c_state (upd v i (Core st ch (c_pid (v i)) (c_parent (v i))) j) = x <-> c_state (v j) = x).
  { intros j x Hx. unfold upd. dcase; [subst; cbn; split; intros <-; tauto|done]. }
  destruct Hok as [H1 H2 H3 H4 H5 H6 H7 H8 H9 H10 H11]. split.
  - intros j. rewrite Hoth by tauto. rewrite Hpid. apply H1.
  - intros j k. rewrite !Hoth, !Hpid by tauto. apply H2.
  - intros j. rewrite Hoth by tauto. intros Hu. rewrite upd_ne by congruence. auto.
  - intros j q. rewrite Hp, Hlv. apply H4.
  - intros j. rewrite Hlv, Hoth, Hp by tauto. apply H5.
  - destruct H6 as (r & ? & ? & ?). exists r. by rewrite Hlv, Hp.
  - intros q n Hc. rewrite Hoth, Hp, Hlv by tauto. destruct (H7 q n Hc) as (? & ? & ? & ?). split_and!; try done.
    unfold upd. dcase; [subst; cbn; intros E; destruct (Hsl E); congruence|done].
  - intros q n Hc. rewrite Hoth, Hp, Hlv by tauto. destruct (H8 q n Hc) as (? & ? & ? & ?). split_and!; try done.
    unfold upd. dcase; [subst; cbn; intros E; destruct (Hsl E); congruence|done].
  - exact H9.
  - intros j Hj Hc. assert (j <> i) as Hne.
    { intros ->. rewrite upd_eq in Hj. cbn in Hj. destruct (Hsl Hj); congruence. }
    rewrite upd_ne in Hj |- * by done. destruct (H10 j Hj Hc) as (? & Hz & k & Hk).
    split; [done|]. split; [|exists k; by rewrite Hp]. intros k'. rewrite Hp, Hoth by tauto. apply Hz.
  - intros j. rewrite Hlv. apply H11.
Qed.

(** Moving between the points inside [exit] and [wait]. *)
Lemma ok_ctl i x :
  live (c_state (v i)) -> c_state (v i) <> SLEEPING -> (forall n, c i <> CForking n /\ c i <> CForked n) ->
  x = CUser \/ x = CClosing \/ x = CWaiting -> table_ok v np ip (upd c i x).
Proof.
  intros Hl Hs Hi Hx. destruct Hok as [H1 H2 H3 H4 H5 H6 H7 H8 H9 H10 H11].
  assert (Hf : forall q n, upd c i x q = CForking n <-> c q = CForking n).
  { intros q n. unfold upd. dcase; [subst|done]. specialize (Hi n). intuition congruence. }
  assert (Hg : forall q n, upd c i x q = CForked n <-> c q = CForked n).
  { intros q n. unfold upd. dcase; [subst|done]. specialize (Hi n). intuition congruence. }
  split; auto.
  - intros q n. rewrite Hf. apply H7.
  - intros q n. rewrite Hg. apply H8.
  - intros q q' n. rewrite !Hf, !Hg. apply H9.
  - intros j Hj Hc. apply H10; [done|]. rewrite upd_ne in Hc; [done|]. by intros ->.
  - intros j Hj. rewrite upd_ne; [auto|]. by intros ->.
Qed.

(** A fresh process. *)
Lemma ok_alloc i n :
  live (c_state (v i)) -> c_state (v i) <> SLEEPING -> c i = CUser -> c_state (v n) = UNUSED -> 1 <= np ->
  table_ok (upd v n (Core USED (c_chan (v n)) np (c_parent (v n)))) (np + 1) ip (upd c i (CForking n)).
Proof.
  intros Hl Hs Hi Hn Hnp. destruct Hok as [H1 H2 H3 H4 H5 H6 H7 H8 H9 H10 H11].
  pose proof (H3 n Hn) as En. rewrite En. cbn [c_chan c_parent free_core].
  assert (Hne : forall j, c_state (v j) <> UNUSED -> j <> n) by (intros j Hj ->; done).
  assert (Hnl : forall j, live (c_state (v j)) -> j <> n) by (intros j Hj ->; by rewrite Hn in Hj).
  assert (Hp : forall j, c_parent (upd v n (Core USED ChNull np None) j) = c_parent (v j)).
  { intros j. unfold upd. dcase; [subst; by rewrite En|done]. }
  assert (Hnf : forall q, c q <> CForking n /\ c q <> CForked n).
  { intros q. split; intros E; [apply H7 in E|apply H8 in E]; destruct E as (E & _); congruence. }
  split.
  - intros j. unfold upd. dcase; cbn; [lia|]. intros Hj. apply H1 in Hj. lia.
  - intros j k. unfold upd. repeat dcase; cbn; subst; intros Hj Hk E; auto;
      [apply H1 in Hk; lia|apply H1 in Hj; lia].
  - intros j. unfold upd. dcase; [done|auto].
  - intros j q. rewrite Hp. intros Hq. apply H4 in Hq. rewrite upd_ne by auto. done.
  - intros j. rewrite Hp. unfold upd. dcase; cbn; [intros [?|?]; done|apply H5].
  - destruct H6 as (r & ? & Hr & ?). exists r. rewrite Hp, upd_ne by auto. done.
  - intros q k. rewrite Hp. unfold upd at 1. dcase; [subst|].
    + intros [= <-]. rewrite upd_eq, upd_ne by auto. rewrite En. done.
    + intros Hq. destruct (H7 q k Hq) as (A1 & A2 & A3 & A4). assert (k <> n) by congruence.
      rewrite !upd_ne by auto. done.
  - intros q k. rewrite Hp. unfold upd at 1. dcase; [done|]. intros Hq.
    destruct (H8 q k Hq) as (A1 & A2 & A3 & A4). assert (k <> n) by congruence. rewrite !upd_ne by auto. done.
  - intros q q' k. unfold upd. pose proof (Hnf q) as [? ?]. pose proof (Hnf q') as [? ?].
    repeat dcase; subst; intros [A|A] [B|B]; try congruence; eapply H9; eauto.
  - intros j Hj Hc. assert (j <> i).
    { intros ->. rewrite upd_eq in Hc. done. }
    rewrite upd_ne in Hc by done. assert (j <> n).
    { intros ->. by rewrite upd_eq in Hj. }
    rewrite upd_ne in Hj |- * by done. destruct (H10 j Hj Hc) as (? & Hz & k & Hk).
    split; [done|]. split; [|exists k; by rewrite Hp]. intros k'. rewrite Hp. unfold upd. dcase; [done|apply Hz].
  - intros j Hj. assert (j <> i).
    { intros ->. by rewrite upd_ne in Hj by auto. }
    rewrite (upd_ne c) by done. apply H11. destruct (decide (j = n)) as [->|]; [rewrite Hn; cbn; tauto|].
    by rewrite upd_ne in Hj.
Qed.

(** Handing out a process id that is not used. *)
Lemma ok_next : table_ok v (np + 1) ip c.
Proof. destruct Hok. split; auto. intros i Hi. specialize (t_pid0 i Hi). lia. Qed.

Lemma ok_link i n : c i = CForking n ->
  table_ok (upd v n (Core (c_state (v n)) (c_chan (v n)) (c_pid (v n)) (Some i))) np ip (upd c i (CForked n)).
Proof.
  intros Hi. destruct Hok as [H1 H2 H3 H4 H5 H6 H7 H8 H9 H10 H11].
  destruct (H7 i n Hi) as (Hn & Hpn & Hl & Hs).
  set (v' := upd _ _ _).
  assert (Hst : forall j, c_state (v' j) = c_state (v j)) by (intros j; unfold v', upd; dcase; by subst).
  assert (Hpid : forall j, c_pid (v' j) = c_pid (v j)) by (intros j; unfold v', upd; dcase; by subst).
  assert (Hch : forall j, c_chan (v' j) = c_chan (v j)) by (intros j; unfold v', upd; dcase; by subst).
  assert (Hp : forall j, j <> n -> v' j = v j) by (intros j Hj; unfold v'; by apply upd_ne).
  assert (Hp' : c_parent (v' n) = Some i) by (unfold v'; by rewrite upd_eq).
  split; try (setoid_rewrite Hst); try (setoid_rewrite Hpid); try (setoid_rewrite Hch); auto.
  - intros j Hj. rewrite Hp by congruence. auto.
  - intros j q. destruct (decide (j = n)) as [->|Hne]; [rewrite Hp'; by intros [= <-]|].
    rewrite Hp by done. apply H4.
  - intros j Hj. destruct (decide (j = n)) as [->|Hne]; [rewrite Hn in Hj; cbn in Hj; naive_solver|].
    rewrite Hp by done. by apply H5.
  - destruct H6 as (r & ? & Hr & ?). exists r. rewrite Hp; [done|]. intros ->. by rewrite Hn in Hr.
  - intros q k. unfold upd at 1. dcase; [done|]. intros Hq. destruct (H7 q k Hq) as (A1 & A2 & A3 & A4).
    rewrite Hp; [done|]. intros ->. assert (q = i) by (eapply (H9 q i); eauto). done.
  - intros q k. unfold upd at 1. dcase; [subst; intros [= <-]; done|]. intros Hq.
    destruct (H8 q k Hq) as (A1 & A2 & A3 & A4). rewrite Hp; [done|]. intros ->. congruence.
  - intros q q' k. unfold upd. repeat dcase; subst; intros [A|A] [B|B]; try congruence;
      try (injection A as <-); try (injection B as <-);
      first [exact (H9 q q' _ (or_introl A) (or_introl B)) | exact (H9 q q' _ (or_introl A) (or_intror B))
            |exact (H9 q q' _ (or_intror A) (or_introl B)) | exact (H9 q q' _ (or_intror A) (or_intror B))
            |symmetry; eapply (H9 q' i); eauto | eapply (H9 i q'); eauto | eapply (H9 q i); eauto].
  - intros j Hj Hc. assert (j <> i) by (intros ->; done). rewrite upd_ne in Hc by done.
    destruct (H10 j Hj Hc) as (? & Hz & k & Hk). split; [done|]. split.
    + intros k'. destruct (decide (k' = n)) as [->|]; [rewrite Hn; done|]. rewrite Hp by done. apply Hz.
    + exists k. rewrite Hp; [done|]. intros ->. congruence.
  - intros j Hj. rewrite upd_ne; [auto|]. by intros ->.
Qed.

Lemma ok_start i n : c i = CForked n ->
  table_ok (upd v n (Core RUNNABLE (c_chan (v n)) (c_pid (v n)) (c_parent (v n)))) np ip (upd c i CUser).
Proof.
  intros Hi. destruct Hok as [H1 H2 H3 H4 H5 H6 H7 H8 H9 H10 H11].
  destruct (H8 i n Hi) as (Hn & Hpn & Hl & Hs).
  assert (Hin : i <> n) by (intros ->; by rewrite Hn in Hl).
  assert (Hcn : c n = CUser) by (apply H11; rewrite Hn; cbn; tauto).
  set (v' := upd _ _ _).
  assert (Hpid : forall j, c_pid (v' j) = c_pid (v j)) by (intros j; unfold v', upd; dcase; by subst).
  assert (Hp : forall j, c_parent (v' j) = c_parent (v j)) by (intros j; unfold v', upd; dcase; by subst).
  assert (Hv : forall j, j <> n -> v' j = v j) by (intros j Hj; unfold v'; by apply upd_ne).
  assert (Hvn : c_state (v' n) = RUNNABLE) by (unfold v'; by rewrite upd_eq).
  assert (Hu : forall j, c_state (v' j) = UNUSED <-> c_state (v j) = UNUSED).
  { intros j. destruct (decide (j = n)) as [->|]; [rewrite Hvn, Hn; done|by rewrite Hv]. }
  assert (Hf : forall q k, c q = CForking k \/ c q = CForked k -> q <> i -> k <> n).
  { intros q k Hq Hne ->. apply Hne. eapply H9; [exact Hq|by right]. }
  split.
  - intros j. rewrite Hpid, Hu. apply H1.
  - intros j k. rewrite !Hpid, !Hu. apply H2.
  - intros j. rewrite Hu. intros Hj. rewrite Hv by congruence. auto.
  - intros j q. rewrite Hp. intros Hq. apply H4 in Hq. destruct (decide (q = n)) as [->|]; [by rewrite Hvn|by rewrite Hv].
  - intros j. rewrite Hp. destruct (decide (j = n)) as [->|]; [intros _; right; by exists i|]. rewrite Hv by done. apply H5.
  - destruct H6 as (r & ? & Hr & ?). exists r. rewrite Hp, Hv; [done|]. intros ->. by rewrite Hn in Hr.
  - intros q k. unfold upd at 1. dcase; [done|]. intros Hq. destruct (H7 q k Hq) as (A1 & A2 & A3 & A4).
    rewrite Hp, (Hv k), (Hv q); [done| |by eapply Hf; eauto]. intros ->. by rewrite Hn in A3.
  - intros q k. unfold upd at 1. dcase; [done|]. intros Hq. destruct (H8 q k Hq) as (A1 & A2 & A3 & A4).
    rewrite Hp, (Hv k), (Hv q); [done| |by eapply Hf; eauto]. intros ->. by rewrite Hn in A3.
  - intros q q' k. unfold upd. repeat dcase; subst; intros A B; try (destruct A; discriminate);
      try (destruct B; discriminate); eapply H9; eauto.
  - intros j Hj Hc. assert (j <> i) by (intros ->; by rewrite upd_eq in Hc). rewrite upd_ne in Hc by done.
    assert (j <> n) by (intros ->; congruence). rewrite Hv in Hj |- * by done.
    destruct (H10 j Hj Hc) as (? & Hz & k & Hk). split; [done|]. split; [|exists k; by rewrite Hp].
    intros k'. rewrite Hp. destruct (decide (k' = n)) as [->|]; [by rewrite Hvn|]. rewrite Hv by done. apply Hz.
  - intros j Hj. destruct (decide (j = i)) as [->|]; [by rewrite upd_eq|]. rewrite upd_ne by done.
    destruct (decide (j = n)) as [->|]; [done|]. apply H11. by rewrite Hv in Hj.
Qed.

(** A zombie is reaped by its parent, which runs. *)
Lemma ok_reap i n : c_state (v n) = ZOMBIE -> c_parent (v n) = Some i -> c_state (v i) <> SLEEPING ->
  table_ok (upd v n free_core) np ip c.
Proof.
  intros Hn Hpn Hs. destruct Hok as [H1 H2 H3 H4 H5 H6 H7 H8 H9 H10 H11].
  assert (Hch : forall j, c_parent (v j) <> Some n).
  { intros j E. apply H4 in E. by rewrite Hn in E. }
  assert (Hv : forall j, j <> n -> upd v n free_core j = v j) by (intros; by apply upd_ne).
  assert (Hl : forall j, live (c_state (v j)) -> j <> n) by (intros j Hj ->; by rewrite Hn in Hj).
  assert (Hd : forall j (P : core -> Prop), (j = n -> P free_core) -> (j <> n -> P (v j)) -> P (upd v n free_core j)).
  { intros j P A B. unfold upd. dcase; auto. }
  split.
  - intros j. apply (Hd j (fun x => c_state x <> UNUSED -> 1 <= c_pid x < np)); [done|auto].
  - intros j k. unfold upd. repeat dcase; cbn; subst; try done. apply H2.
  - intros j. apply (Hd j (fun x => c_state x = UNUSED -> x = free_core)); auto.
  - intros j q. apply (Hd j (fun x => c_parent x = Some q -> _)); [done|]. intros Hj Hq.
    rewrite Hv; [by eapply H4|]. by intros ->; apply Hch in Hq.
  - intros j. apply (Hd j (fun x => live (c_state x) \/ c_state x = ZOMBIE -> ip = Some j \/ exists q, c_parent x = Some q));
      [cbn; intros _ [?|?]; done|auto].
  - destruct H6 as (r & ? & Hr & ?). exists r. rewrite Hv by auto. done.
  - intros q k Hq. destruct (H7 q k Hq) as (A1 & A2 & A3 & A4). rewrite !Hv; [done|by auto|congruence].
  - intros q k Hq. destruct (H8 q k Hq) as (A1 & A2 & A3 & A4). rewrite !Hv; [done|by auto|congruence].
  - exact H9.
  - intros j. destruct (decide (j = n)) as [->|]; [by rewrite upd_eq|]. rewrite Hv by done. intros Hj Hc.
    destruct (H10 j Hj Hc) as (? & Hz & k & Hk). split; [done|]. split.
    + intros k'. apply (Hd k' (fun x => c_parent x = Some j -> c_state x <> ZOMBIE)); [done|]. intros _. apply Hz.
    + exists k. rewrite Hv; [done|]. intros ->. rewrite Hpn in Hk. injection Hk as <-. done.
  - intros j. destruct (decide (j = n)) as [->|]; [intros _; apply H11; rewrite Hn; cbn; tauto|]. rewrite Hv by done. apply H11.
Qed.

(** A scan that found no zombie goes to sleep. *)
Lemma ok_wait_sleep i :
  live (c_state (v i)) -> (forall n, c i <> CForking n /\ c i <> CForked n) ->
  (forall j, c_parent (v j) = Some i -> c_state (v j) <> ZOMBIE) -> (exists j, c_parent (v j) = Some i) ->
  table_ok (upd v i (Core SLEEPING (ChProc i) (c_pid (v i)) (c_parent (v i)))) np ip (upd c i CWaiting).
Proof.
  intros Hl Hi Hz [k0 Hk0]. destruct Hok as [H1 H2 H3 H4 H5 H6 H7 H8 H9 H10 H11].
  set (v' := upd _ _ _).
  assert (Hpid : forall j, c_pid (v' j) = c_pid (v j)) by (intros j; unfold v', upd; dcase; by subst).
  assert (Hp : forall j, c_parent (v' j) = c_parent (v j)) by (intros j; unfold v', upd; dcase; by subst).
  assert (Hv : forall j, j <> i -> v' j = v j) by (intros j Hj; unfold v'; by apply upd_ne).
  assert (Hvi : c_state (v' i) = SLEEPING /\ c_chan (v' i) = ChProc i) by (unfold v'; by rewrite upd_eq).
  assert (Hlv : forall j, live (c_state (v' j)) <-> live (c_state (v j))).
  { intros j. destruct (decide (j = i)) as [->|]; [rewrite (proj1 Hvi); cbn; tauto|by rewrite Hv]. }
  assert (Hoth : forall j x, ~ live x -> c_state (v' j) = x <-> c_state (v j) = x).
  { intros j x Hx. destruct (decide (j = i)) as [->|]; [rewrite (proj1 Hvi)|by rewrite Hv].
    split; intros <-; cbn in Hx; tauto. }
  split.
  - intros j. rewrite Hoth, Hpid by tauto. apply H1.
  - intros j k. rewrite !Hoth, !Hpid by tauto. apply H2.
  - intros j. rewrite Hoth by tauto. intros Hj. rewrite Hv; [auto|]. intros ->. by rewrite Hj in Hl.
  - intros j q. rewrite Hp, Hlv. apply H4.
  - intros j. rewrite Hlv, Hoth, Hp by tauto. apply H5.
  - destruct H6 as (r & ? & ? & ?). exists r. by rewrite Hlv, Hp.
  - intros q n. unfold upd at 1. dcase; [done|]. intros Hc. rewrite Hoth, Hp, Hv by tauto. auto.
  - intros q n. unfold upd at 1. dcase; [done|]. intros Hc. rewrite Hoth, Hp, Hv by tauto. auto.
  - intros q q' k. unfold upd. repeat dcase; subst; intros A B; try (destruct A; discriminate);
      try (destruct B; discriminate); eapply H9; eauto.
  - intros j Hj Hc. destruct (decide (j = i)) as [->|Hne].
    + split; [apply Hvi|]. split; [|exists k0; by rewrite Hp]. intros k. rewrite Hp, Hoth by tauto. apply Hz.
    + rewrite upd_ne in Hc by done. rewrite Hv in Hj |- * by done. destruct (H10 j Hj Hc) as (? & A & k & Hk).
      split; [done|]. split; [|exists k; by rewrite Hp]. intros k'. rewrite Hp, Hoth by tauto. apply A.
  - intros j. rewrite Hlv. intros Hj. rewrite upd_ne; [auto|]. by intros ->.
Qed.

(** Processes are woken, and children of an exiting process are given to
    init, which is then not asleep in [wait]. *)
Lemma ok_adopt v' :
  (forall q, c_pid (v' q) = c_pid (v q) /\ c_chan (v' q) = c_chan (v q) /\
    (c_state (v' q) = c_state (v q) \/ (c_state (v q) = SLEEPING /\ c_state (v' q) = RUNNABLE))) ->
  (forall q, c_parent (v' q) = c_parent (v q) \/
    exists i r, c_parent (v q) = Some i /\ c_parent (v' q) = Some r /\ ip = Some r /\
      c_state (v i) <> SLEEPING /\ c i = CClosing /\ (c_state (v' r) = SLEEPING -> c r <> CWaiting)) ->
  table_ok v' np ip c.
Proof.
  intros Hq Hp. destruct Hok as [H1 H2 H3 H4 H5 H6 H7 H8 H9 H10 H11].
  assert (Hlv : forall j, live (c_state (v' j)) <-> live (c_state (v j))).
  { intros j. destruct (Hq j) as (_ & _ & [->|[-> ->]]); done. }
  assert (Hoth : forall j x, ~ live x -> c_state (v' j) = x <-> c_state (v j) = x).
  { intros j x Hx. destruct (Hq j) as (_ & _ & [->|[E E']]); [done|]. rewrite E, E'.
    split; intros <-; cbn in Hx; tauto. }
  assert (Hsl : forall j, c_state (v' j) = SLEEPING -> c_state (v j) = SLEEPING).
  { intros j. destruct (Hq j) as (_ & _ & [->|[E E']]); congruence. }
  assert (Hpid : forall j, c_pid (v' j) = c_pid (v j)) by (intros j; apply Hq).
  split.
  - intros j. rewrite Hoth, Hpid by tauto. apply H1.
  - intros j k. rewrite !Hoth, !Hpid by tauto. apply H2.
  - intros j. rewrite Hoth by tauto. intros Hj. pose proof (H3 j Hj) as E.
    destruct (Hq j) as (A1 & A2 & A3). destruct (Hp j) as [A4|(i & r & A4 & _)]; [|by rewrite E in A4].
    destruct (v' j) as [st ch pd pa]. cbn in *. rewrite E in *. cbn in *.
    destruct A3 as [->|[? _]]; [by subst|done].
  - intros j q. rewrite Hlv. destruct (Hp j) as [->|(i & r & A1 & -> & A3 & _)]; [apply H4|].
    intros [= <-]. destruct H6 as (r' & E & Hr & _). congruence.
  - intros j. rewrite Hlv, Hoth by tauto. intros Hj. destruct (Hp j) as [->|(i & r & _ & -> & _)]; [auto|eauto].
  - destruct H6 as (r & E & Hr & Hn). exists r. rewrite Hlv. split; [done|]. split; [done|].
    destruct (Hp r) as [->|(i & r' & A1 & _)]; congruence.
  - intros q k E. destruct (H7 q k E) as (A1 & A2 & A3 & A4). rewrite Hoth, Hlv by tauto.
    split_and!; auto. destruct (Hp k) as [->|(i & r' & B1 & _)]; congruence.
  - intros q k E. destruct (H8 q k E) as (A1 & A2 & A3 & A4). rewrite Hoth, Hlv by tauto.
    split_and!; auto. destruct (Hp k) as [->|(i & r' & B1 & _ & _ & _ & B2 & _)]; congruence.
  - exact H9.
  - intros j Hj Hc. destruct (H10 j (Hsl j Hj) Hc) as (A1 & A2 & k & A3). split; [by rewrite (proj1 (proj2 (Hq j)))|].
    split.
    + intros k'. rewrite Hoth by tauto. destruct (Hp k') as [->|(i & r & _ & -> & _ & _ & _ & B)]; [apply A2|].
      intros [= ->]. by apply B in Hj.
    + exists k. destruct (Hp k) as [->|(i & r & B1 & _ & _ & B2 & _)]; [done|].
      exfalso. apply B2. rewrite A3 in B1. injection B1 as <-. auto.
  - intros j. rewrite Hlv. apply H11.
Qed.

Lemma ok_exit i :
  live (c_state (v i)) -> c_state (v i) <> SLEEPING -> c i = CClosing -> ip <> Some i ->
  (forall j, c_parent (v j) <> Some i) ->
  (forall q, c_parent (v i) = Some q -> c_state (v q) = SLEEPING -> c q <> CWaiting) ->
  table_ok (upd v i (Core ZOMBIE (c_chan (v i)) (c_pid (v i)) (c_parent (v i)))) np ip (upd c i CUser).
Proof.
  intros Hl Hs Hi Hip Hch Hw. destruct Hok as [H1 H2 H3 H4 H5 H6 H7 H8 H9 H10 H11].
  set (v' := upd _ _ _).
  assert (Hpid : forall j, c_pid (v' j) = c_pid (v j)) by (intros j; unfold v', upd; dcase; by subst).
  assert (Hp : forall j, c_parent (v' j) = c_parent (v j)) by (intros j; unfold v', upd; dcase; by subst).
  assert (Hv : forall j, j <> i -> v' j = v j) by (intros j Hj; unfold v'; by apply upd_ne).
  assert (Hvi : c_state (v' i) = ZOMBIE) by (unfold v'; by rewrite upd_eq).
  assert (Hnu : c_state (v i) <> UNUSED) by (intros E; by rewrite E in Hl).
  assert (Hnd : c_state (v i) <> USED) by (intros E; by rewrite E in Hl).
  assert (Hu : forall j, c_state (v' j) = UNUSED <-> c_state (v j) = UNUSED).
  { intros j. destruct (decide (j = i)) as [->|]; [rewrite Hvi; done|by rewrite Hv]. }
  split.
  - intros j. rewrite Hpid, Hu. apply H1.
  - intros j k. rewrite !Hpid, !Hu. apply H2.
  - intros j. rewrite Hu. intros Hj. rewrite Hv by congruence. auto.
  - intros j q. rewrite Hp. intros Hq. rewrite Hv; [by eapply H4|]. intros ->. by apply Hch in Hq.
  - intros j. rewrite Hp. destruct (decide (j = i)) as [->|]; [intros _; by apply H5; left|]. rewrite Hv by done. apply H5.
  - destruct H6 as (r & E & Hr & ?). exists r. rewrite Hp, Hv; [done|]. congruence.
  - intros q k. unfold upd at 1. dcase; [done|]. intros Hq. destruct (H7 q k Hq) as (A1 & A2 & A3 & A4).
    rewrite Hp, (Hv k), (Hv q); [done|done|congruence].
  - intros q k. unfold upd at 1. dcase; [done|]. intros Hq. destruct (H8 q k Hq) as (A1 & A2 & A3 & A4).
    rewrite Hp, (Hv k), (Hv q); [done|done|congruence].
  - intros q q' k. unfold upd. repeat dcase; subst; intros A B; try (destruct A; discriminate);
      try (destruct B; discriminate); eapply H9; eauto.
  - intros j Hj Hc. assert (j <> i) by (intros ->; by rewrite upd_eq in Hc). rewrite upd_ne in Hc by done.
    rewrite Hv in Hj |- * by done. destruct (H10 j Hj Hc) as (? & Hz & k & Hk). split; [done|].
    split; [|exists k; by rewrite Hp]. intros k'. rewrite Hp.
    destruct (decide (k' = i)) as [->|]; [intros E; by destruct (Hw j E Hj)|]. rewrite Hv by done. apply Hz.
  - intros j Hj. destruct (decide (j = i)) as [->|]; [by rewrite upd_eq|]. rewrite upd_ne by done.
    apply H11. by rewrite Hv in Hj.
Qed.
End Table.

(** ** The choice of the scheduler *)

Section Select.
Context {F : Type}.
Implicit Types s : kstate F.

Lemma select_rr_spec k j s :
  match select_rr k j s with
  | Some i => (j <= i < j + k)%nat /\ state (getp s i) = RUNNABLE /\
      forall q, (j <= q < i)%nat -> state (getp s q) <> RUNNABLE
  | None => forall q, (j <= q < j + k)%nat -> state (getp s q) <> RUNNABLE
  end.
Proof.
  revert j. induction k as [|k IH]; intros j; cbn [select_rr]; [lia|]. destruct (decide _) as [Hr|Hr].
  - split; [lia|]. split; [done|]. lia.
  - specialize (IH (S j)). destruct (select_rr k (S j) s).
    + destruct IH as (A & B & D). split; [lia|]. split; [done|].
      intros q Hq. destruct (decide (q = j)) as [->|]; [done|]. apply D. lia.
    + intros q Hq. destruct (decide (q = j)) as [->|]; [done|]. apply IH. lia.
Qed.

(** What the two searches for a minimum have in common: the least key below
    [best] among the runnable entries from [j] on, the first one of equals. *)
Fixpoint select_min (key : proc -> Z) (k j : nat) (best : Z) (bp : option nat) (s : kstate F) : option nat :=
  match k with
  | O => bp
  | S k' =>
      if decide (state (getp s j) = RUNNABLE /\ key (getp s j) < best)
      then select_min key k' (S j) (key (getp s j)) (Some j) s
      else select_min key k' (S j) best bp s
  end.

Lemma select_fcfs_min k j t bp s : select_fcfs k j t bp s = select_min wait_time k j t bp s.
Proof. revert j t bp. induction k as [|k IH]; intros j t bp; cbn; [done|]. dcase; apply IH. Qed.

Lemma select_priority_min k j t bp s : select_priority k j t bp s = select_min priority k j t bp s.
Proof. revert j t bp. induction k as [|k IH]; intros j t bp; cbn; [done|]. dcase; apply IH. Qed.

(** The result is the given best, or an entry with a smaller key. *)
Lemma select_min_spec key k j best bp s :
  (select_min key k j best bp s = bp /\
     forall q, (j <= q < j + k)%nat -> state (getp s q) = RUNNABLE -> best <= key (getp s q)) \/
  exists i, select_min key k j best bp s = Some i /\ (j <= i < j + k)%nat /\ state (getp s i) = RUNNABLE /\
    key (getp s i) < best /\
    (forall q, (j <= q < j + k)%nat -> state (getp s q) = RUNNABLE ->
       key (getp s i) <= key (getp s q) /\ ((q < i)%nat -> key (getp s i) < key (getp s q))).
Proof.
  revert j best bp. induction k as [|k IH]; intros j best bp; cbn [select_min]; [left; split; [done|lia]|].
  destruct (decide _) as [[Hr Hlt]|Hn].
  - right. destruct (IH (S j) (key (getp s j)) (Some j)) as [[E Hall]|(i & E & Hi & Hri & Hlti & Hall)].
    + exists j. split; [done|]. split; [lia|]. split; [done|]. split; [done|]. intros q Hq Hrq.
      destruct (decide (q = j)) as [->|]; [lia|]. split; [apply Hall; [lia|done]|lia].
    + exists i. split; [done|]. split; [lia|]. split; [done|]. split; [lia|]. intros q Hq Hrq.
      destruct (decide (q = j)) as [->|]; [lia|]. apply Hall; [lia|done].
  - assert (Hj : state (getp s j) = RUNNABLE -> best <= key (getp s j)).
    { intros Hr. destruct (decide (key (getp s j) < best)); [by destruct Hn|lia]. }
    destruct (IH (S j) best bp) as [[E Hall]|(i & E & Hi & Hri & Hlti & Hall)].
    + left. split; [done|]. intros q Hq Hrq. destruct (decide (q = j)) as [->|]; [auto|]. apply Hall; [lia|done].
    + right. exists i. split; [done|]. split; [lia|]. split; [done|]. split; [lia|]. intros q Hq Hrq.
      destruct (decide (q = j)) as [->|]; [specialize (Hj Hrq); lia|]. apply Hall; [lia|done].
Qed.

Lemma select_runnable rr fcfs prio s i :
  select rr fcfs prio s = Some i -> state (getp s i) = RUNNABLE /\ (i < NPROC)%nat.
Proof.
  assert (Hm : forall key best, select_min key NPROC 0 best None s = Some i ->
    state (getp s i) = RUNNABLE /\ (i < NPROC)%nat).
  { intros key best E. destruct (select_min_spec key NPROC 0 best None s) as [[E' _]|(i' & E' & Hi & Hr & _)];
      rewrite E' in E; [done|]. injection E as <-. split; [done|lia]. }
  unfold select. destruct rr; [|destruct fcfs; [|destruct prio]].
  - intros E. pose proof (select_rr_spec NPROC 0 s) as H. rewrite E in H. split; [apply H|lia].
  - rewrite select_fcfs_min. apply Hm.
  - rewrite select_priority_min. apply Hm.
  - done.
Qed.
End Select.

(** ** Runs *)

Section Steps.
Context {F : Type} {HF : FileLayer F}.
Variables (kend trampoline forkret_addr : Z).
Abbreviation kst := (kstate F).

(** One segment of some process, of the scheduler or of an interrupt.  A
    process acts when it is [RUNNING].  [ps_other] is everything else a
    process does: to memory, to files, to its private fields and to its
    priority. *)
Inductive proc_step : kst * (nat -> ctl) -> kst * (nat -> ctl) -> Prop :=
| ps_dispatch s c rr fcfs prio now i s' :
    scheduler rr fcfs prio now s = (Some i, s') -> proc_step (s, c) (s', c)
| ps_yield s c i now : state (getp s i) = RUNNING -> proc_step (s, c) (yield i now s, c)
| ps_sleep s c i a :
    state (getp s i) = RUNNING -> c i = CUser \/ c i = CClosing -> proc_step (s, c) (sleep i (ChAddr a) s, c)
| ps_resume s c i : state (getp s i) = RUNNING -> proc_step (s, c) (sleep_resume i s, c)
| ps_wakeup s c me a now : proc_step (s, c) (wakeup me (ChAddr a) now s, c)
| ps_kill s c victim : proc_step (s, c) ((kill victim s).2, c)
| ps_setkilled s c i : proc_step (s, c) (setkilled i s, c)
| ps_fork_copy s c i np s' :
    state (getp s i) = RUNNING -> c i = CUser ->
    fork_copy kend trampoline forkret_addr i s = Ok (Some np, s') -> proc_step (s, c) (s', upd c i (CForking np))
| ps_fork_fail s c i s' :
    state (getp s i) = RUNNING -> c i = CUser ->
    fork_copy kend trampoline forkret_addr i s = Ok (None, s') -> proc_step (s, c) (s', c)
| ps_fork_link s c i np :
    state (getp s i) = RUNNING -> c i = CForking np -> proc_step (s, c) (fork_link i np s, upd c i (CForked np))
| ps_fork_start s c i np now :
    state (getp s i) = RUNNING -> c i = CForked np -> proc_step (s, c) (fork_start np now s, upd c i CUser)
| ps_exit_begin s c i now s' :
    state (getp s i) = RUNNING -> c i = CUser -> exit_begin i now s = Ok s' -> proc_step (s, c) (s', upd c i CClosing)
| ps_exit s c i status now :
    state (getp s i) = RUNNING -> c i = CClosing -> proc_step (s, c) (exit_zombie i status now s, upd c i CUser)
| ps_wait_return s c i addr r s' :
    state (getp s i) = RUNNING -> c i = CUser \/ c i = CWaiting ->
    wait kend i addr s = Ok (Some r, s') -> proc_step (s, c) (s', upd c i CUser)
| ps_wait_sleep s c i addr s' :
    state (getp s i) = RUNNING -> c i = CUser \/ c i = CWaiting ->
    wait kend i addr s = Ok (None, s') -> proc_step (s, c) (s', upd c i CWaiting)
| ps_other s c s' : becomes s s' (vw s) -> proc_step (s, c) (s', c).

Definition proc_inv (n : nat) (x : kst * (nat -> ctl)) : Prop :=
  sized x.1 /\ table_ok (vw x.1) (nextpid x.1) (initproc x.1) x.2 /\
  (forall i, x.2 i = CClosing -> initproc x.1 <> Some i) /\ 1 <= nextpid x.1 <= 2 + Z.of_nat n.

(** A segment that does not hand out a process id. *)
Lemma inv_becomes n s c s' v c' :
  proc_inv n (s, c) -> becomes s s' v -> table_ok v (nextpid s) (initproc s) c' ->
  (forall i, c' i = CClosing -> initproc s <> Some i) -> proc_inv (S n) (s', c').
Proof.
  intros (Hs & _ & _ & Hn) [B1 B2 B3 B4] Hok Hcl. unfold proc_inv, sized in *. cbn [fst snd] in *.
  rewrite B2, B3, B4. split; [done|]. split; [|split; [done|lia]].
  eapply table_ok_ext; [exact Hok| |done]. intros j. by rewrite B1.
Qed.

(** A segment that does. *)
Lemma inv_numbered n s c s' v c' :
  proc_inv n (s, c) -> Z.of_nat n < 2147483640 -> becomes (numbered s) s' v ->
  table_ok v (nextpid s + 1) (initproc s) c' ->
  (forall i, c' i = CClosing -> initproc s <> Some i) -> proc_inv (S n) (s', c').
Proof.
  intros (Hs & _ & _ & Hn) Hlt B Hok Hcl. apply becomes_numbered in B as (B1 & B2 & B3 & B4).
  unfold proc_inv, sized in *. cbn [fst snd] in *. rewrite B2, B3, B4, s32_id by lia.
  split; [done|]. split; [|split; [done|lia]].
  eapply table_ok_ext; [exact Hok| |done]. intros j. by rewrite B1.
Qed.

Lemma vw_live_in (s : kst) i : state (getp s i) = RUNNING -> live (c_state (vw s i)) /\ c_state (vw s i) <> SLEEPING /\ (i < length (procs s))%nat.
Proof.
  intros E. assert (Es : c_state (vw s i) = RUNNING) by exact E. rewrite Es. split_and!; [done|done|].
  apply vw_in. by rewrite Es.
Qed.

Lemma wake_core_cases ch x :
  c_pid (wake_core ch x) = c_pid x /\ c_chan (wake_core ch x) = c_chan x /\ c_parent (wake_core ch x) = c_parent x /\
  (c_state (wake_core ch x) = c_state x \/ (c_state x = SLEEPING /\ c_state (wake_core ch x) = RUNNABLE)).
Proof. unfold wake_core. repeat dcase; cbn; split_and!; auto. Qed.

Lemma wake_core_hit ch x : c_chan x = ch -> c_state (wake_core ch x) <> SLEEPING.
Proof. intros E. unfold wake_core. repeat dcase; cbn; done. Qed.

Lemma ok_wakeup v np ip c me ch :
  table_ok v np ip c -> table_ok (fun q => if decide (Some q = me) then v q else wake_core ch (v q)) np ip c.
Proof.
  intros Hok. apply (ok_adopt Hok); intros q; dcase; auto.
  - destruct (wake_core_cases ch (v q)) as (A & B & _ & D). auto.
  - left. apply wake_core_cases.
Qed.

(** What [reparent] keeps, for the process [i] that exits. *)
Definition exiting (i : nat) (np : Z) (ip : option nat) (c : nat -> ctl) (s : kst) : Prop :=
  sized s /\ nextpid s = np /\ initproc s = ip /\ table_ok (vw s) np ip c /\ state (getp s i) = RUNNING.

Lemma reparent_one i np r c now pp s :
  c i = CClosing -> r <> i -> exiting i np (Some r) c s -> parent (getp s pp) = Some i ->
  let s' := wakeup (Some i) (ChProc r) now (setp pp (set_parent (Some r)) s) in
  exiting i np (Some r) c s' /\ (forall q, parent (getp s' q) = if decide (q = pp) then Some r else parent (getp s q)).
Proof.
  intros Hi Hri (Hs & Hn & Hip & Hok & Hst) Hpp s'.
  assert (Hin : (pp < length (procs s))%nat).
  { destruct (decide (pp < length (procs s))%nat); [done|]. rewrite getp_beyond in Hpp by lia. done. }
  pose proof (becomes_setp s pp (set_parent (Some r)) Hin) as B1.
  set (s1 := setp pp _ s) in *. assert (Hs1 : sized s1) by (unfold sized; by rewrite (be_size _ _ _ B1)).
  pose proof (wakeup_effect (Some i) (ChProc r) now s1 Hs1) as B2. fold s' in B2.
  assert (Hv1 : forall q, c_pid (vw s1 q) = c_pid (vw s q) /\ c_chan (vw s1 q) = c_chan (vw s q) /\
    c_state (vw s1 q) = c_state (vw s q) /\ c_parent (vw s1 q) = if decide (q = pp) then Some r else c_parent (vw s q)).
  { intros q. rewrite (be_vw _ _ _ B1). unfold upd. dcase; [by subst|done]. }
  assert (Hv' : forall q, c_pid (vw s' q) = c_pid (vw s q) /\ c_chan (vw s' q) = c_chan (vw s q) /\
    (c_state (vw s' q) = c_state (vw s q) \/ (c_state (vw s q) = SLEEPING /\ c_state (vw s' q) = RUNNABLE)) /\
    c_parent (vw s' q) = if decide (q = pp) then Some r else c_parent (vw s q)).
  { intros q. rewrite (be_vw _ _ _ B2). destruct (Hv1 q) as (<- & <- & <- & <-).
    destruct (decide (Some q = Some i)); [auto|].
    destruct (wake_core_cases (ChProc r) (vw s1 q)) as (A1 & A2 & A3 & A4). auto. }
  split; [|intros q; apply Hv'].
  split; [unfold sized; by rewrite (be_size _ _ _ B2)|]. split; [by rewrite (be_next _ _ _ B2), (be_next _ _ _ B1)|].
  split; [by rewrite (be_init _ _ _ B2), (be_init _ _ _ B1)|]. split.
  - apply (ok_adopt Hok); [intros q; destruct (Hv' q) as (A1 & A2 & A3 & _); auto|].
    intros q. destruct (Hv' q) as (_ & _ & _ & ->). dcase; [subst q|by left]. right. exists i, r.
    split; [done|]. split; [done|]. split; [done|]. split; [by apply vw_live_in|]. split; [done|].
    intros Hsl Hc. rewrite (be_vw _ _ _ B2), decide_False in Hsl by congruence.
    assert (c_state (vw s r) = SLEEPING) as Hsr.
    { destruct (Hv1 r) as (_ & _ & <- & _).
      destruct (wake_core_cases (ChProc r) (vw s1 r)) as (_ & _ & _ & [A|[A _]]); congruence. }
    destruct (t_wait _ _ _ _ Hok r Hsr Hc) as (Hch & _).
    apply (wake_core_hit (ChProc r) (vw s1 r)); [|done]. by destruct (Hv1 r) as (_ & -> & _).
  - change (c_state (vw s' i) = RUNNING). rewrite (be_vw _ _ _ B2), decide_True by done.
    by destruct (Hv1 i) as (_ & _ & -> & _).
Qed.

Lemma reparent_loop_run k pp i np r c now s :
  c i = CClosing -> r <> i -> exiting i np (Some r) c s -> (forall q, (q < pp)%nat -> parent (getp s q) <> Some i) ->
  exiting i np (Some r) c (reparent_loop k pp i now s) /\
  forall q, (q < pp + k)%nat -> parent (getp (reparent_loop k pp i now s) q) <> Some i.
Proof.
  intros Hi Hri. revert pp s. induction k as [|k IH]; intros pp s He Hlow; cbn [reparent_loop].
  { split; [done|]. intros q Hq. apply Hlow. lia. }
  pose proof He as (_ & _ & Hip & _). rewrite Hip. cbn [chan_of].
  replace (pp + S k)%nat with (S pp + k)%nat by lia.
  destruct (decide (parent (getp s pp) = Some i)) as [Hpp|Hpp].
  - destruct (reparent_one i np r c now pp s Hi Hri He Hpp) as [He' Hp']. apply IH; [exact He'|].
    intros q Hq. rewrite Hp'. dcase; [congruence|]. apply Hlow. lia.
  - apply IH; [exact He|]. intros q Hq. destruct (decide (q = pp)) as [->|]; [done|]. apply Hlow. lia.
Qed.

Lemma reparent_run i np r c now s :
  c i = CClosing -> r <> i -> exiting i np (Some r) c s ->
  exiting i np (Some r) c (reparent i now s) /\ forall q, parent (getp (reparent i now s) q) <> Some i.
Proof.
  intros Hi Hri He. destruct (reparent_loop_run NPROC 0 i np r c now s Hi Hri He) as [He1 Hno]; [lia|].
  split; [exact He1|]. intros q. destruct (decide (q < NPROC)%nat) as [Hq|Hq]; [exact (Hno q Hq)|].
  destruct He1 as (Hs1 & _). unfold sized in Hs1. unfold reparent. rewrite getp_beyond by lia. done.
Qed.

#[local] Opaque reparent wakeup.

(** The rest of [exit], after [reparent]. *)
Lemma exit_finish i np r c status now s :
  c i = CClosing -> r <> i -> exiting i np (Some r) c s -> (forall q, parent (getp s q) <> Some i) ->
  let s2 := wakeup (Some i) (chan_of (parent (getp s i))) now s in
  let s3 := setp i (fun p => set_state ZOMBIE (set_xstate status p)) s2 in
  exists v, becomes s s3 v /\ table_ok v np (Some r) (upd c i CUser).
Proof.
  intros Hi Hri (Hs1 & Hn1 & Hip1 & Hok1 & Hst1) Hno s2 s3.
  pose proof (wakeup_effect (Some i) (chan_of (parent (getp s i))) now s Hs1) as B2. fold s2 in B2.
  pose proof (ok_wakeup _ _ _ _ (Some i) (chan_of (parent (getp s i))) Hok1) as Hok2.
  assert (E2 : vw s2 i = vw s i) by (by rewrite (be_vw _ _ _ B2), decide_True).
  assert (Hst2 : state (getp s2 i) = RUNNING) by (change (c_state (vw s2 i) = RUNNING); by rewrite E2).
  assert (Hok2' : table_ok (vw s2) np (Some r) c).
  { eapply table_ok_ext; [exact Hok2| |done]. intros j. by rewrite (be_vw _ _ _ B2). }
  clearbody s2. destruct (vw_live_in s2 i Hst2) as (Hl & Hns & Hin).
  eexists. split; [exact (becomes_trans _ _ _ _ _ B2 (becomes_setp s2 i _ Hin))|].
  apply (ok_exit Hok2' i Hl Hns Hi).
  - congruence.
  - intros j. assert (c_parent (vw s2 j) = c_parent (vw s j)) as ->; [|exact (Hno j)].
    rewrite (be_vw _ _ _ B2). dcase; [done|]. apply wake_core_cases.
  - intros q Hq Hsl Hc. rewrite E2 in Hq. change (parent (getp s i) = Some q) in Hq.
    rewrite Hq in B2. cbn [chan_of] in B2. assert (q <> i) by (intros ->; congruence).
    rewrite (be_vw _ _ _ B2), decide_False in Hsl by congruence.
    assert (c_state (vw s q) = SLEEPING) as Hsq.
    { destruct (wake_core_cases (ChProc q) (vw s q)) as (_ & _ & _ & [A|[A _]]); congruence. }
    destruct (t_wait _ _ _ _ Hok1 q Hsq Hc) as (Hch & _). by apply (wake_core_hit (ChProc q) (vw s q)).
Qed.

Lemma exit_zombie_inv n s c i status now :
  proc_inv n (s, c) -> state (getp s i) = RUNNING -> c i = CClosing ->
  proc_inv (S n) (exit_zombie i status now s, upd c i CUser).
Proof.
  intros Hinv Hst Hi. pose proof Hinv as (Hs & Hok & Hcl & Hn). cbn [fst snd] in *.
  destruct (t_init _ _ _ _ Hok) as (r & Hip & _ & _).
  assert (Hri : r <> i) by (intros ->; by apply (Hcl i)).
  assert (He : exiting i (nextpid s) (Some r) c s) by (unfold exiting; rewrite <- Hip; auto).
  destruct (reparent_run i (nextpid s) r c now s Hi Hri He) as [He1 Hno].
  destruct (exit_finish i (nextpid s) r c status now (reparent i now s) Hi Hri He1 Hno) as (v & B & Hv).
  destruct He1 as (Hs1 & Hn1 & Hip1 & _). apply (inv_becomes n s c _ v); [exact Hinv| |by rewrite Hip|].
  - destruct B as [B1 B2 B3 B4]. split; [exact B1| | |]; unfold exit_zombie; unfold sized in *; congruence.
  - intros j. unfold upd. dcase; [done|]. apply Hcl.
Qed.

(** A segment that moves one live process to another live state. *)
Lemma inv_state n s c i f st ch :
  proc_inv n (s, c) -> live (state (getp s i)) -> live st ->
  (st = SLEEPING -> c i = CUser \/ c i = CClosing) ->
  core_of (f (getp s i)) = Core st ch (pid (getp s i)) (parent (getp s i)) ->
  proc_inv (S n) (setp i f s, c).
Proof.
  intros Hinv Hl Hst Hsl Hf. pose proof Hinv as (Hs & Hok & Hcl & _). cbn [fst snd] in *.
  assert (Hin : (i < length (procs s))%nat).
  { apply vw_in. intros E. change (state (getp s i) = UNUSED) in E. by rewrite E in Hl. }
  eapply inv_becomes; [exact Hinv|by apply becomes_setp| |exact Hcl].
  rewrite Hf. exact (ok_state Hok i st ch Hl Hst Hsl).
Qed.

Lemma kill_inv n s c victim : proc_inv n (s, c) -> proc_inv (S n) ((kill victim s).2, c).
Proof.
  intros Hinv. pose proof Hinv as (Hs & Hok & Hcl & _). cbn [fst snd] in *. unfold kill.
  destruct (kill_loop_effect NPROC 0 victim s) as [[-> _]|(q & _ & _ & _ & _ & B)].
  { eapply inv_becomes; [exact Hinv|apply becomes_refl|exact Hok|exact Hcl]. }
  eapply inv_becomes; [exact Hinv|exact B| |exact Hcl].
  destruct (decide (state (getp s q) = SLEEPING)) as [Hsl|Hsl].
  - apply (ok_state Hok q RUNNABLE); [|done|done]. change (live (state (getp s q))). by rewrite Hsl.
  - eapply table_ok_ext; [exact Hok| |done]. intros j. unfold upd. dcase; [by subst|done].
Qed.

Lemma wait_inv n s c i addr r s' :
  proc_inv n (s, c) -> state (getp s i) = RUNNING -> c i = CUser \/ c i = CWaiting ->
  wait kend i addr s = Ok (r, s') ->
  proc_inv (S n) (s', upd c i (match r with Some _ => CUser | None => CWaiting end)).
Proof.
  intros Hinv Hst Hc E. pose proof Hinv as (Hs & Hok & Hcl & _). cbn [fst snd] in *.
  destruct (vw_live_in s i Hst) as (Hl & Hns & Hin).
  assert (Hnf : forall k, c i <> CForking k /\ c i <> CForked k) by (intros k; destruct Hc; split; congruence).
  assert (Hcl' : forall x, x <> CClosing -> forall j, upd c i x j = CClosing -> initproc s <> Some j).
  { intros x Hx j. unfold upd. dcase; [done|apply Hcl]. }
  unfold wait in E. apply bind_ok in E as ([y s1] & Ew & E).
  apply wait_scan_effect in Ew; [|unfold sized in Hs; lia]. destruct y as [x|hk]; cbn [scan_result] in Ew.
  - injection E as <- <-. destruct Ew as (q & Hq & Hpq & Hzq & _ & [[-> B]|[-> B]]);
      (eapply inv_becomes; [exact Hinv|exact B| |by apply Hcl']).
    + apply (ok_ctl Hok i); auto.
    + apply (ok_ctl (ok_reap Hok i q Hzq Hpq Hns) i); auto; rewrite upd_ne; auto; intros ->;
        change (state (getp s q) = ZOMBIE) in Hzq; congruence.
  - destruct Ew as (-> & Hnz & Hhk). destruct (negb hk || z2b (killed (getp s i))) eqn:Eb; injection E as <- <-.
    + eapply inv_becomes; [exact Hinv|apply becomes_refl| |by apply Hcl']. apply (ok_ctl Hok i); auto.
    + bool_to_prop. subst hk. eapply inv_becomes; [exact Hinv|by apply becomes_setp| |by apply Hcl'].
      assert (Hrange : forall j, parent (getp s j) = Some i -> (j < NPROC)%nat).
      { intros j Hj. destruct (decide (j < NPROC)%nat); [done|].
        rewrite getp_beyond in Hj by (unfold sized in Hs; lia). done. }
      apply (ok_wait_sleep Hok i Hl Hnf).
      * intros j Hj. apply (Hnz j); [|exact Hj]. specialize (Hrange j Hj). lia.
      * destruct (proj1 Hhk eq_refl) as [?|(q & _ & Hq)]; [done|]. by exists q.
Qed.

Lemma fork_copy_inv n s c i o s' :
  proc_inv n (s, c) -> Z.of_nat n < 2147483640 -> state (getp s i) = RUNNING -> c i = CUser ->
  fork_copy kend trampoline forkret_addr i s = Ok (o, s') ->
  proc_inv (S n) (s', match o with Some np => upd c i (CForking np) | None => c end).
Proof.
  intros Hinv Hlt Hst Hc E. pose proof Hinv as (Hs & Hok & Hcl & Hn). cbn [fst snd] in *.
  destruct (vw_live_in s i Hst) as (Hl & Hns & Hin). destruct o as [np|].
  - apply fork_copy_some in E as (Hu & Hnp & B); [|done].
    eapply inv_numbered; [exact Hinv|done|exact B| |].
    + apply (ok_alloc Hok i np); auto. lia.
    + intros j. unfold upd. dcase; [done|]. apply Hcl.
  - apply fork_copy_none in E as [->|(k & Hu & Hk & B)]; [| |done].
    + eapply inv_becomes; [exact Hinv|apply becomes_refl|exact Hok|exact Hcl].
    + eapply inv_numbered; [exact Hinv|done|exact B| |exact Hcl].
      eapply table_ok_ext; [exact (ok_next Hok)| |done]. intros j. unfold upd. dcase; [|done]. subst.
      by apply (t_unused _ _ _ _ Hok).
Qed.

Lemma proc_step_inv n x y : proc_inv n x -> Z.of_nat n < 2147483640 -> proc_step x y -> proc_inv (S n) y.
Proof.
  intros Hinv Hlt Hs. destruct Hs as [s c rr fcfs prio now i s' E|s c i now Hst|s c i a Hst Hc|s c i Hst|s c me a now
    |s c victim|s c i|s c i np s' Hst Hc E|s c i s' Hst Hc E|s c i np Hst Hc|s c i np now Hst Hc|s c i now s' Hst Hc E
    |s c i status now Hst Hc|s c i addr r s' Hst Hc E|s c i addr s' Hst Hc E|s c s' B];
    pose proof Hinv as (Hsz & Hok & Hcl & Hn); cbn [fst snd] in Hsz, Hok, Hcl, Hn;
    try (destruct (vw_live_in s i Hst) as (Hl & Hns & Hin)).
  - unfold scheduler in E. destruct (select rr fcfs prio s) as [k|] eqn:Es; [|done]. injection E as <- <-.
    apply select_runnable in Es as [Hr _]. by apply (inv_state n s c k _ RUNNING (chan (getp s k))); rewrite ?Hr.
  - by apply (inv_state n s c i _ RUNNABLE (chan (getp s i))).
  - by apply (inv_state n s c i _ SLEEPING (ChAddr a)).
  - apply (inv_state n s c i _ RUNNING ChNull); try done. by rewrite <- Hst.
  - eapply inv_becomes; [exact Hinv|by apply wakeup_effect|by apply ok_wakeup|exact Hcl].
  - by apply kill_inv.
  - eapply inv_becomes; [exact Hinv|by apply becomes_private|exact Hok|exact Hcl].
  - by apply (fork_copy_inv n s c i (Some np)).
  - by apply (fork_copy_inv n s c i None).
  - eapply inv_becomes; [exact Hinv|apply becomes_setp|apply (ok_link Hok i np Hc)|].
    + apply vw_in. destruct (t_forking _ _ _ _ Hok i np Hc) as (E & _). by rewrite E.
    + intros j. unfold upd. dcase; [done|]. apply Hcl.
  - eapply inv_becomes; [exact Hinv|apply becomes_setp|apply (ok_start Hok i np Hc)|].
    + apply vw_in. destruct (t_forked _ _ _ _ Hok i np Hc) as (E & _). by rewrite E.
    + intros j. unfold upd. dcase; [done|]. apply Hcl.
  - unfold exit_begin in E. destruct (decide (initproc s = Some i)) as [|Hne]; [done|].
    assert (B : becomes s s' (vw s)).
    { destruct (negb _); injection E as <-; [by apply becomes_private|apply becomes_refl]. }
    eapply inv_becomes; [exact Hinv|exact B|apply (ok_ctl Hok i); auto|].
    + intros k. rewrite Hc. done.
    + intros j. unfold upd. dcase; [by subst|]. apply Hcl.
  - by apply exit_zombie_inv.
  - by apply (wait_inv n s c i addr (Some r)).
  - by apply (wait_inv n s c i addr None).
  - eapply inv_becomes; [exact Hinv|exact B|exact Hok|exact Hcl].
Qed.

(** ** The first process *)

Lemma procinit_loop_core k i (s : kst) :
  (forall j, vw s j = free_core) ->
  (forall j, vw (procinit_loop k i s) j = free_core) /\
  length (procs (procinit_loop k i s)) = length (procs s) /\ nextpid (procinit_loop k i s) = nextpid s.
Proof.
  revert i s. induction k as [|k IH]; intros i s Hs; cbn [procinit_loop]; [done|].
  set (f := fun p => set_kstack (KSTACK (Z.of_nat i)) (set_state UNUSED p)).
  assert (B : becomes s (setp i f s) (upd (vw s) i free_core)).
  { destruct (decide (i < length (procs s))%nat) as [Hi|Hi].
    - eapply becomes_ext; [by apply becomes_setp|]. intros j. unfold upd. dcase; [|done]. subst.
      specialize (Hs i). unfold vw, core_of in Hs |- *. cbn. by injection Hs as _ -> -> ->.
    - split; [|apply length_setp|done|done]. intros j. unfold upd. dcase; [subst|unfold vw; by rewrite getp_setp_ne].
      unfold vw. rewrite getp_beyond by (rewrite length_setp; lia). done. }
  destruct (IH (S i) (setp i f s)) as (A1 & A2 & A3).
  { intros j. rewrite (be_vw _ _ _ B). unfold upd. dcase; auto. }
  split; [exact A1|]. split; [by rewrite A2, length_setp|done].
Qed.

Lemma procinit_core (m : phys) (f : F) :
  (forall j, vw (procinit m f) j = free_core) /\ sized (procinit m f) /\ nextpid (procinit m f) = 1.
Proof.
  destruct (procinit_loop_core NPROC 0 (KState (replicate NPROC proc0) 1 None m f)) as (A1 & A2 & A3).
  - intros j. unfold vw, getp. cbn [procs]. destruct (replicate NPROC proc0 !! j) as [p|] eqn:E; [|done].
    apply lookup_replicate in E as [-> _]. done.
  - split; [exact A1|]. split; [|exact A3]. unfold sized, procinit. rewrite A2. cbn [procs]. apply length_replicate.
Qed.

(** The table with one process, init. *)
Lemma ok_first v r ch :
  (forall j, v j = if decide (j = r) then Core RUNNABLE ch 1 None else free_core) ->
  table_ok v 2 (Some r) (fun _ => CUser).
Proof.
  intros Hv. assert (Hr : forall j, c_state (v j) <> UNUSED -> j = r).
  { intros j. rewrite Hv. dcase; [done|]. cbn. done. }
  assert (Hp : forall j, c_parent (v j) = None) by (intros j; rewrite Hv; dcase; done).
  assert (Hz : forall j, c_state (v j) <> ZOMBIE) by (intros j; rewrite Hv; dcase; done).
  split; try done.
  - intros j Hj. apply Hr in Hj as ->. rewrite Hv, decide_True by done. cbn. lia.
  - intros j k Hj Hk _. by rewrite (Hr _ Hj), (Hr _ Hk).
  - intros j. rewrite Hv. dcase; done.
  - intros j q. by rewrite Hp.
  - intros j [Hj|Hj]; [|by apply Hz in Hj]. left. f_equal. symmetry. apply Hr. intros E. by rewrite E in Hj.
  - exists r. split; [done|]. rewrite Hp, Hv, decide_True by done. done.
  - by intros q q' n [?|?].
Qed.

Lemma userinit_inv ticks now m f s :
  userinit kend trampoline forkret_addr ticks now (procinit m f) = Ok s -> proc_inv 0 (s, fun _ => CUser).
Proof.
  intros E. destruct (procinit_core m f) as (Hv0 & Hs0 & Hn0). set (s0 := procinit m f) in *. clearbody s0.
  unfold userinit in E. apply bind_ok in E as ([o s1] & Ea & E). destruct o as [i|]; [|discriminate].
  destruct (allocproc_some _ _ _ s0 i s1 Hs0 Ea) as (Hu & Hi & B).
  apply becomes_numbered in B as (B1 & B2 & B3 & B4). apply bind_ok in E as (m1 & _ & E).
  apply bind_ok in E as ([ipt fl] & _ & E). injection E as <-.
  set (t0 := set_initproc (Some i) s1) in *. set (t1 := set_phys m1 t0) in *. set (t2 := setp i (set_sz PGSIZE) t1) in *.
  set (t3 := set_phys _ t2) in *. set (t4 := setp i (set_name _) t3) in *. set (t5 := set_files fl t4) in *.
  set (t6 := setp i (set_cwd ipt) t5).
  assert (Bt : becomes t0 t6 (vw t0)).
  { eapply becomes_then; [|by apply becomes_private]. eapply becomes_then; [|apply becomes_files].
    eapply becomes_then; [|by apply becomes_private]. eapply becomes_then; [|apply becomes_phys].
    eapply becomes_then; [|by apply becomes_private]. apply becomes_phys. }
  assert (Hv6 : forall j, vw t6 j = upd (vw s0) i (Core USED (chan (getp s0 i)) (nextpid s0) (parent (getp s0 i))) j).
  { intros j. rewrite (be_vw _ _ _ Bt). apply B1. }
  assert (Hlen : length (procs t6) = NPROC).
  { rewrite (be_size _ _ _ Bt). unfold t0. cbn [procs set_initproc]. by rewrite B2. }
  assert (Hx : nextpid t6 = 2 /\ initproc t6 = Some i).
  { rewrite (be_next _ _ _ Bt), (be_init _ _ _ Bt). unfold t0. cbn [nextpid initproc set_initproc].
    by rewrite B3, Hn0. }
  clearbody t6. assert (Hpi : parent (getp s0 i) = None /\ nextpid s0 = 1).
  { split; [|done]. specialize (Hv0 i). exact (f_equal c_parent Hv0). }
  set (g := fun p => set_wait_time now _). pose proof (becomes_setp t6 i g) as [C1 C2 C3 C4]; [lia|].
  split; cbn [fst snd]; [unfold sized; by rewrite C2|]. rewrite C3, C4. destruct Hx as [-> ->].
  split; [|split; [done|lia]]. apply (ok_first _ i (c_chan (vw t6 i))). intros j. rewrite C1. unfold upd.
  dcase; [|by rewrite Hv6, upd_ne].
  specialize (Hv6 i). rewrite upd_eq in Hv6. unfold vw, core_of in Hv6 |- *. cbn.
  injection Hv6 as _ _ -> ->. by destruct Hpi as [-> ->].
Qed.

Lemma proc_run_inv n k x y :
  proc_inv k x -> nsteps proc_step n x y -> Z.of_nat (k + n) < 2147483640 -> proc_inv (k + n) y.
Proof.
  intros Hk Hr. revert k Hk. induction Hr as [x|n x y z Hs Hr IH]; intros k Hk Hb; [by rewrite Nat.add_0_r|].
  replace (k + S n)%nat with (S k + n)%nat in * by lia. apply IH; [|lia].
  eapply proc_step_inv; [exact Hk|lia|exact Hs].
Qed.

(** C14: the process table stays sound whatever the processes do.  After
    [procinit] and [userinit], whatever sequence of forks, exits, waits,
    kills, sleeps, wakeups and scheduling decisions follows: two entries in
    use never have the same process id; every parent pointer leads to a live
    process; the first process is alive; and no exited child is lost: a
    zombie has a live parent, and that parent is not asleep inside [wait].
    A process asleep inside [wait] has a child to wait for and sleeps on the
    channel that [exit] of a child wakes.  The bound on the number of steps
    keeps [nextpid] within an [int]. *)
Theorem proc_table_sound ticks now m f s0 n s c :
  userinit kend trampoline forkret_addr ticks now (procinit m f) = Ok s0 ->
  nsteps proc_step n (s0, fun _ => CUser) (s, c) -> Z.of_nat n < 2147483640 ->
  (forall i j, state (getp s i) <> UNUSED -> state (getp s j) <> UNUSED -> pid (getp s i) = pid (getp s j) -> i = j) /\
  (forall i q, parent (getp s i) = Some q -> live (state (getp s q))) /\
  (exists r, initproc s = Some r /\ live (state (getp s r))) /\
  (forall i, state (getp s i) = ZOMBIE ->
     exists q, parent (getp s i) = Some q /\ live (state (getp s q)) /\
       ~ (state (getp s q) = SLEEPING /\ c q = CWaiting)) /\
  (forall i, state (getp s i) = SLEEPING -> c i = CWaiting ->
     chan (getp s i) = ChProc i /\ exists j, parent (getp s j) = Some i).
Proof.
  intros E Hr Hn. destruct (proc_run_inv n 0 _ _ (userinit_inv _ _ _ _ _ E) Hr Hn) as (_ & Hok & _). cbn [fst snd] in Hok.
  split_and!.
  - exact (t_inj _ _ _ _ Hok).
  - exact (t_parent _ _ _ _ Hok).
  - destruct (t_init _ _ _ _ Hok) as (r & ? & ? & _). by exists r.
  - intros i Hz. destruct (t_orphan _ _ _ _ Hok i (or_intror Hz)) as [Hi|[q Hq]].
    + destruct (t_init _ _ _ _ Hok) as (r & Hr' & Hl & _). assert (r = i) as -> by congruence.
      change (live (state (getp s i))) in Hl. by rewrite Hz in Hl.
    + exists q. split; [exact Hq|]. split; [exact (t_parent _ _ _ _ Hok i q Hq)|].
      intros [Hs Hc]. destruct (t_wait _ _ _ _ Hok q Hs Hc) as (_ & Hno & _). by apply (Hno i Hq).
  - intros i Hs Hc. destruct (t_wait _ _ _ _ Hok i Hs Hc) as (? & _ & ?). done.
Qed.
End Steps.

(** ** A concrete run: init forks, sleeps in [wait], and its child exits *)

Section Demo.
#[local] Transparent NPROC reparent wakeup.

(** No open files. *)
#[local] Instance no_files : FileLayer unit := {
  filedup _ f := Ok f;
  fileclose _ f := Ok f;
  idup _ f := Ok f;
  put_cwd _ f := Ok f;
  namei_root f := Ok (1, f)
}.

Definition get_ok {A} (d : A) (x : outcome A) : A := match x with Ok a => a | _ => d end.

Lemma get_ok_eq {A} (d : A) x : is_ok x = true -> x = Ok (get_ok d x).
Proof. by destruct x. Qed.

Definition demo_end : Z := PHYSTOP - 16 * 4096.
Definition demo_mem : phys := get_ok (Phys ∅ 0) (kinit demo_end ∅).
Definition demo0 : kstate unit :=
  get_ok (KState [] 0 None demo_mem tt) (userinit demo_end KERNBASE 0 5 100 (procinit demo_mem tt)).
Definition demo1 : kstate unit := (scheduler true false false 110 demo0).2.
Definition demo2 : kstate unit := (get_ok (None, demo1) (fork_copy demo_end KERNBASE 0 0 demo1)).2.
Definition demo3 : kstate unit := fork_start 1 120 (fork_link 0 1 demo2).
Definition demo4 : kstate unit := (get_ok (None, demo3) (wait demo_end 0 0 demo3)).2.
Definition demo5 : kstate unit := (scheduler true false false 130 demo4).2.
Definition demo6 : kstate unit := get_ok demo5 (exit_begin 1 150 demo5).
Definition demo7 : kstate unit := exit_zombie 1 0 160 demo6.

Lemma demo_boot : userinit demo_end KERNBASE 0 5 100 (procinit demo_mem tt) = Ok demo0.
Proof. apply get_ok_eq. vm_compute. reflexivity. Qed.

(** The facts about the intermediate states that the steps need. *)
Lemma demo_facts :
  (scheduler true false false 110 demo0).1 = Some 0%nat /\ state (getp demo1 0) = RUNNING /\
  (match fork_copy demo_end KERNBASE 0 0 demo1 with Ok (Some 1%nat, _) => true | _ => false end) = true /\
  state (getp demo2 0) = RUNNING /\ state (getp demo3 0) = RUNNING /\
  (match wait demo_end 0 0 demo3 with Ok (None, _) => true | _ => false end) = true /\
  (scheduler true false false 130 demo4).1 = Some 1%nat /\ state (getp demo5 1) = RUNNING /\
  is_ok (exit_begin 1 150 demo5) = true /\ state (getp demo6 1) = RUNNING /\
  state (getp demo7 1) = ZOMBIE.
Proof. split_and!; vm_compute; reflexivity. Qed.

#[local] Opaque NPROC reparent wakeup fork_copy wait exit_begin scheduler.

Lemma demo_fork : fork_copy demo_end KERNBASE 0 0 demo1 = Ok (Some 1%nat, demo2).
Proof.
  destruct demo_facts as (_ & _ & H & _). unfold demo2. destruct (fork_copy _ _ _ _ demo1) as [[[[|[|]]|] ?]| | |]; done.
Qed.

Lemma demo_wait : wait demo_end 0 0 demo3 = Ok (None, demo4).
Proof.
  destruct demo_facts as (_ & _ & _ & _ & _ & H & _). unfold demo4. destruct (wait _ _ _ demo3) as [[[|] ?]| | |]; done.
Qed.

Lemma demo_run :
  exists c, nsteps (proc_step demo_end KERNBASE 0) 8 (demo0, fun _ => CUser) (demo7, c).
Proof.
  destruct demo_facts as (D0 & R1 & _ & R2 & _ & _ & D4 & R5 & X5 & R6 & _).
  assert (R2' : state (getp (fork_link 0 1 demo2) 0) = RUNNING).
  { unfold fork_link. rewrite getp_setp_ne by done. exact R2. }
  assert (R3 : state (getp demo3 0) = RUNNING).
  { unfold demo3, fork_start. rewrite getp_setp_ne by done. exact R2'. }
  eexists. eapply nsteps_l; [apply (ps_dispatch _ _ _ _ _ true false false 110 0 demo1); unfold demo1; by destruct (scheduler _ _ _ _ demo0); cbn in *; subst|].
  eapply nsteps_l; [exact (ps_fork_copy _ _ _ demo1 _ 0 1 demo2 R1 eq_refl demo_fork)|].
  eapply nsteps_l; [exact (ps_fork_link _ _ _ demo2 _ 0 1 R2 (upd_eq _ _ _))|].
  eapply nsteps_l; [exact (ps_fork_start _ _ _ (fork_link 0 1 demo2) _ 0 1 120 R2' (upd_eq _ _ _))|].
  eapply nsteps_l; [exact (ps_wait_sleep _ _ _ demo3 _ 0 0 demo4 R3 (or_introl (upd_eq _ _ _)) demo_wait)|].
  eapply nsteps_l; [apply (ps_dispatch _ _ _ demo4 _ true false false 130 1 demo5); unfold demo5; by destruct (scheduler _ _ _ _ demo4); cbn in *; subst|].
  eapply nsteps_l; [apply (ps_exit_begin _ _ _ demo5 _ 1 150 demo6 R5); [reflexivity|exact (get_ok_eq _ _ X5)]|].
  eapply nsteps_l; [exact (ps_exit _ _ _ demo6 _ 1 0 160 R6 (upd_eq _ _ _))|].
  apply nsteps_O.
Qed.

Lemma proc_table_sound_witness :
  exists s c, nsteps (proc_step demo_end KERNBASE 0) 8 (demo0, fun _ => CUser) (s, c) /\
    state (getp s 1) = ZOMBIE /\
    exists q, parent (getp s 1) = Some q /\ live (state (getp s q)) /\
      ~ (state (getp s q) = SLEEPING /\ c q = CWaiting).
Proof.
  destruct demo_run as [c R]. exists demo7, c. split; [exact R|].
  assert (Z7 : state (getp demo7 1) = ZOMBIE) by apply demo_facts. split; [exact Z7|].
  destruct (proc_table_sound demo_end KERNBASE 0 5 100 demo_mem tt demo0 8 demo7 c demo_boot R) as (_ & _ & _ & Hz & _);
    [lia|]. exact (Hz 1%nat Z7).
Defined.
End Demo.
