(* ===== verification/ProcProps.v ===== *)
(** * Scheduling and time accounting

    The choices of the three scheduling policies, what the round-robin policy
    does to processes that never block, how [total_wait_time] adds up, and
    what [kill] does to an unused entry. *)
From S2P Require Import Prelude Cstring Riscv Kalloc Vm Block Proc ProcTheory ProcInv.

#[local] Opaque NPROC.

Section Props.
Context {F : Type} {HF : FileLayer F}.
Variables (kend trampoline forkret_addr : Z).
Abbreviation kst := (kstate F).

(** The entry chosen is marked and charged, the others are left alone. *)
Definition dispatched (i : nat) (now : Z) (s s' : kst) : Prop :=
  state (getp s' i) = RUNNING /\ wait_time (getp s' i) = now /\
  total_wait_time (getp s' i) = u64 (total_wait_time (getp s i) + (now - wait_time (getp s i))) /\
  forall j, j <> i -> getp s' j = getp s j.

Lemma dispatch_dispatched (s : kst) i now : state (getp s i) = RUNNABLE -> dispatched i now s (dispatch i now s).
Proof.
  intros Hr. assert (Hi : (i < length (procs s))%nat) by (apply vw_in; change (state (getp s i) <> UNUSED); congruence).
  unfold dispatched, dispatch. rewrite getp_setp_eq by done. split_and!; try done.
  intros j Hj. by rewrite getp_setp_ne.
Qed.

(** The least key, the lowest entry among equals. *)
Definition least (key : proc -> Z) (i : nat) (s : kst) : Prop :=
  state (getp s i) = RUNNABLE /\ forall q, (q < NPROC)%nat -> state (getp s q) = RUNNABLE ->
    key (getp s i) <= key (getp s q) /\ ((q < i)%nat -> key (getp s i) < key (getp s q)).

Lemma select_min_least key best (s : kst) :
  match select_min key NPROC 0 best None s with
  | Some i => least key i s /\ key (getp s i) < best
  | None => forall q, (q < NPROC)%nat -> state (getp s q) = RUNNABLE -> best <= key (getp s q)
  end.
Proof.
  destruct (select_min_spec key NPROC 0 best None s) as [[-> H]|(i & -> & Hi & Hr & Hlt & H)].
  - intros q Hq. apply H. lia.
  - split; [|done]. split; [done|]. intros q Hq. apply H. lia.
Qed.


(** [kill] leaves [wait_time] as it was, also when it makes a sleeping process
    runnable. *)
Lemma kill_keeps_wait_time (s : kst) victim q : wait_time (getp (snd (kill victim s)) q) = wait_time (getp s q).
Proof.
  unfold kill. generalize 0%nat as j. induction NPROC as [|k IH]; intros j; cbn [kill_loop]; [done|].
  destruct (_ =? _); [|apply IH]. cbn [snd]. destruct (decide (q = j)) as [->|Hq]; [|by rewrite getp_setp_ne].
  destruct (decide (j < length (procs s))%nat) as [Hj|Hj].
  - rewrite getp_setp_eq by done. cbn zeta. by destruct (decide _).
  - unfold setp, getp. cbn [procs]. by rewrite !lookup_ge_None_2 by (rewrite ?length_alter; lia).
Qed.

(** ** Round robin and processes that never block *)

(** One time slice on one hart: the scheduler runs a process, which the timer
    interrupt makes [yield]; the two times are the values of [r_time()]. *)
Definition time_slice (t : Z * Z) (s : kst) : option nat * kst :=
  match scheduler SCHED_ROUND_ROBIN SCHED_FCFS SCHED_PRIORITY t.1 s with
  | (Some i, s) => (Some i, yield i t.2 s)
  | (None, s) => (None, s)
  end.

Fixpoint time_slices (ts : list (Z * Z)) (s : kst) : list (option nat) * kst :=
  match ts with
  | [] => ([], s)
  | t :: ts => let '(o, s) := time_slice t s in let '(os, s) := time_slices ts s in (o :: os, s)
  end.

Lemma time_slice_first (s : kst) i t :
  state (getp s i) = RUNNABLE -> (i < NPROC)%nat -> (forall q, (q < i)%nat -> state (getp s q) <> RUNNABLE) ->
  exists s', time_slice t s = (Some i, s') /\ state (getp s' i) = RUNNABLE /\ forall j, j <> i -> getp s' j = getp s j.
Proof.
  intros Hr Hi Hlow. unfold time_slice, scheduler, select, SCHED_ROUND_ROBIN.
  pose proof (select_rr_spec NPROC 0 s) as H. destruct (select_rr NPROC 0 s) as [k|].
  2: { destruct (H i); [lia|done]. }
  destruct H as (_ & Hk & Hlowk). assert (k = i) as ->.
  { destruct (decide (k < i)%nat); [by destruct (Hlow k)|]. destruct (decide (i < k)%nat); [|lia].
    destruct (Hlowk i); [lia|done]. }
  destruct (dispatch_dispatched s i t.1 Hr) as (H1 & _ & _ & H4). eexists. split; [reflexivity|].
  assert (Hin : (i < length (procs (dispatch i t.1 s)))%nat).
  { apply vw_in. change (state (getp (dispatch i t.1 s) i) <> UNUSED). congruence. }
  unfold yield. rewrite getp_setp_eq by done. split; [done|]. intros j Hj. rewrite getp_setp_ne by done. auto.
Qed.

(** The round-robin policy starves.  As each search starts again at the
    first entry, a runnable process that never blocks takes every time slice
    of a hart: another one in a higher entry is runnable all the time and is
    never run, for any number of time slices. *)
Theorem round_robin_starves (s : kst) i j ts :
  state (getp s i) = RUNNABLE -> (forall q, (q < i)%nat -> state (getp s q) <> RUNNABLE) ->
  (i < j < NPROC)%nat -> state (getp s j) = RUNNABLE ->
  (time_slices ts s).1 = replicate (length ts) (Some i) /\ getp (time_slices ts s).2 j = getp s j.
Proof.
  intros Hi Hlow Hj Hr. revert s Hi Hlow Hr. induction ts as [|t ts IH]; intros s Hi Hlow Hr; [done|].
  destruct (time_slice_first s i t Hi ltac:(lia) Hlow) as (s' & E & Hi' & Hoth). cbn [time_slices]. rewrite E.
  destruct (IH s') as [E1 E2]; [done| |by rewrite Hoth by lia|].
  { intros q Hq. rewrite Hoth by lia. auto. }
  destruct (time_slices ts s') as [os s'']. cbn in *. rewrite E1, E2, Hoth by lia. done.
Qed.

(** ** Waiting time *)

(** One stay on a hart, from [dispatch] at time [td]: the process yields at
    time [t], or sleeps on [ch] and is woken at time [t] by [me]. *)
Inductive stay :=
| Preempted (td t : Z)
| Slept (td : Z) (ch : channel) (me : option nat) (t : Z).

Definition run_stay (i : nat) (y : stay) (s : kst) : kst :=
  match y with
  | Preempted td t => yield i t (dispatch i td s)
  | Slept td ch me t => wakeup me ch t (sleep i ch (dispatch i td s))
  end.

(** The time spent ready, when the process is ready since [since]. *)
Fixpoint ready_time (since : Z) (ys : list stay) : Z :=
  match ys with
  | [] => 0
  | Preempted td t :: ys | Slept td _ _ t :: ys => (td - since) + ready_time t ys
  end.

Definition not_self (i : nat) (y : stay) : Prop := match y with Slept _ _ me _ => me <> Some i | _ => True end.

Lemma wakeup_loop_at k j0 me ch now (s : kst) i :
  (j0 <= i < j0 + k)%nat -> Some i <> me -> (i < length (procs s))%nat ->
  getp (wakeup_loop k j0 me ch now s) i = wake ch now (getp s i).
Proof.
  assert (Hoth : forall k j0 (s : kst), (i < j0)%nat -> getp (wakeup_loop k j0 me ch now s) i = getp s i).
  { clear. induction k as [|k IH]; intros j0 s Hi; cbn [wakeup_loop]; [done|]. rewrite IH by lia.
    dcase; [done|]. apply getp_setp_ne. lia. }
  revert j0 s. induction k as [|k IH]; intros j0 s Hi Hme Hl; cbn [wakeup_loop]; [lia|].
  destruct (decide (i = j0)) as [<-|Hne].
  - rewrite Hoth by lia. rewrite decide_False by done. by apply getp_setp_eq.
  - rewrite IH; [|lia|done|]; (dcase; [done|]).
    + rewrite getp_setp_ne by done. done.
    + by rewrite length_setp.
Qed.

Lemma run_stay_charges i y (s : kst) :
  sized s -> (i < NPROC)%nat -> not_self i y ->
  let td := match y with Preempted td _ | Slept td _ _ _ => td end in
  let t := match y with Preempted _ t | Slept _ _ _ t => t end in
  total_wait_time (getp (run_stay i y s) i) = u64 (total_wait_time (getp s i) + (td - wait_time (getp s i))) /\
  wait_time (getp (run_stay i y s) i) = t /\ state (getp (run_stay i y s) i) = RUNNABLE /\ sized (run_stay i y s).
Proof.
  intros Hs Hi Hy. unfold sized in *. destruct y as [td t|td ch me t]; cbn [run_stay not_self] in *; cbn zeta.
  - unfold yield, dispatch. rewrite !getp_setp_eq by (rewrite ?length_setp; lia). rewrite !length_setp. done.
  - set (s1 := sleep i ch (dispatch i td s)).
    assert (Hl : length (procs s1) = NPROC) by (unfold s1, sleep, dispatch; by rewrite !length_setp).
    assert (Hg : getp s1 i = set_state SLEEPING (set_chan ch (set_wait_time td (set_total_wait_time
      (u64 (total_wait_time (getp s i) + (td - wait_time (getp s i)))) (set_state RUNNING (getp s i)))))).
    { unfold s1, sleep, dispatch. rewrite !getp_setp_eq by (rewrite ?length_setp; lia). done. }
    clearbody s1. unfold wakeup. rewrite (wakeup_loop_at NPROC 0 me ch t s1 i) by (try done; lia).
    rewrite (be_size _ _ _ (wakeup_loop_effect NPROC 0 me ch t s1)).
    rewrite Hg. unfold wake. cbn [state chan set_state set_chan]. repeat dcase; done.
Qed.

(** [total_wait_time] is the time spent in the ready queue.  Over any
    number of stays on a hart that end in a [yield], or in a [sleep] and a
    [wakeup] by someone else, it grows (modulo 2^64) by exactly the sum of
    the times from becoming ready to being run. *)
Theorem total_wait_time_adds_up i ys (s : kst) :
  sized s -> (i < NPROC)%nat -> Forall (not_self i) ys ->
  total_wait_time (getp (foldl (fun s y => run_stay i y s) s ys) i) mod 2 ^ 64 =
  (total_wait_time (getp s i) + ready_time (wait_time (getp s i)) ys) mod 2 ^ 64.
Proof.
  intros Hs Hi Hys. revert s Hs. induction Hys as [|y ys Hy Hys IH]; intros s Hs; cbn [foldl ready_time].
  { by rewrite Z.add_0_r. }
  destruct (run_stay_charges i y s Hs Hi Hy) as (E1 & E2 & _ & Hs'). rewrite IH by done. rewrite E1, E2.
  unfold u64. change 18446744073709551616 with (2 ^ 64). rewrite Zplus_mod_idemp_l. f_equal.
  destruct y; lia.
Qed.

(** ** [kill] *)

Lemma kill_loop_free k j0 (s : kst) i :
  (j0 <= i < j0 + k)%nat -> pid (getp s i) = 0 -> (forall q, (q < i)%nat -> pid (getp s q) <> 0) ->
  kill_loop k j0 0 s = (0, setp i (fun p => let p := set_killed 1 p in
    if decide (state p = SLEEPING) then set_state RUNNABLE p else p) s).
Proof.
  intros Hi Hp Hlow. revert j0 Hi. induction k as [|k IH]; intros j0 Hi; [lia|]. cbn [kill_loop].
  destruct (decide (i = j0)) as [<-|]; [by rewrite Hp|].
  rewrite (proj2 (Z.eqb_neq _ _)) by (apply Hlow; lia). apply IH. lia.
Qed.

Lemma allocproc_keeps_killed (s : kst) i s' : sized s ->
  allocproc kend trampoline forkret_addr s = Ok (Some i, s') -> killed (getp s' i) = killed (getp s i).
Proof.
  unfold allocproc. intros Hs E. destruct (find_unused NPROC 0 s) as [k|] eqn:Ef; [|done].
  apply find_unused_some in Ef as (Hk & _). unfold allocpid in E. cbn zeta in E. unfold sized in Hs.
  set (s0 := KState _ _ _ _ _) in E. set (s1 := setp k _ s0) in E.
  destruct (kalloc (kphys s1)) as [tf m]. cbn zeta in E. set (s2 := setp k _ (set_phys m s1)) in E.
  destruct (tf =? 0); [inv_ok; congruence|]. apply bind_ok in E as ([pt m'] & _ & E).
  set (s3 := setp k _ (set_phys m' s2)) in E. destruct (pt =? 0); [inv_ok; congruence|].
  injection E as <- <-.
  assert (L : forall f (t : kst) m, length (procs (setp k f (set_phys m t))) = length (procs t)) by (intros; rewrite length_setp; done).
  assert (G : forall f (t : kst) m, length (procs t) = NPROC -> getp (setp k f (set_phys m t)) k = f (getp t k)).
  { intros f t m0 Ht. rewrite getp_setp_eq; [done|]. cbn [procs set_phys]. lia. }
  assert (L1 : length (procs s1) = NPROC) by (unfold s1; rewrite length_setp; exact Hs).
  assert (L2 : length (procs s2) = NPROC) by (unfold s2; by rewrite L).
  assert (L3 : length (procs s3) = NPROC) by (unfold s3; by rewrite L).
  rewrite getp_setp_eq by lia. unfold s3. rewrite G by done. unfold s2. rewrite G by done.
  unfold s1. rewrite getp_setp_eq by (cbn [procs s0]; lia). done.
Qed.

(** [kill(0)] succeeds and dooms a process that does not exist yet.
    Unused entries have process id 0, so the search of [kill] finds the first
    of them and marks it killed; [allocproc] does not clear the mark, and the
    next process is created already killed. *)
Theorem kill_zero_dooms_next n c (s : kst) i s' r :
  proc_inv n (s, c) -> (i < NPROC)%nat -> state (getp s i) = UNUSED ->
  (forall q, (q < i)%nat -> state (getp s q) <> UNUSED) ->
  kill 0 s = (r, s') ->
  r = 0 /\ (forall np s'', allocproc kend trampoline forkret_addr s' = Ok (Some np, s'') ->
    np = i /\ killed (getp s'' np) = 1).
Proof.
  intros (Hs & Hok & _) Hi Hu Hlow Ek. cbn [fst snd] in *. unfold kill in Ek.
  rewrite (kill_loop_free NPROC 0 s i) in Ek; [|lia| |].
  2: { pose proof (t_unused _ _ _ _ Hok i Hu) as E. exact (f_equal c_pid E). }
  2: { intros q Hq. pose proof (t_pid _ _ _ _ Hok q (Hlow q Hq)) as E. cbn in E. lia. }
  injection Ek as <- <-. split; [done|]. intros np s'' Ea. unfold sized in Hs.
  assert (Hst : forall q f, (forall p, state p <> SLEEPING -> state (f p) = state p) ->
    state (getp (setp i f s) q) = state (getp s q)).
  { intros q f Hf. destruct (decide (q = i)) as [->|]; [|by rewrite getp_setp_ne].
    rewrite getp_setp_eq by lia. apply Hf. by rewrite Hu. }
  set (f := fun p : proc => _) in Ea. specialize (Hst np f) as Hnp.
  assert (Hf : forall p, state p <> SLEEPING -> state (f p) = state p).
  { intros p Hp. unfold f. cbn. by rewrite decide_False. }
  destruct (find_unused NPROC 0 (setp i f s)) as [k|] eqn:Ef.
  2: { destruct (find_unused_none _ _ _ i Ef); [lia|]. rewrite Hst; done. }
  assert (k = i) as ->.
  { apply find_unused_some in Ef as (Hk & Huk & Hlowk). rewrite Hst in Huk by done.
    destruct (decide (k < i)%nat); [by destruct (Hlow k)|]. destruct (decide (i < k)%nat); [|lia].
    destruct (Hlowk i); [lia|]. by rewrite Hst. }
  assert (np = i) as ->.
  { unfold allocproc in Ea. rewrite Ef in Ea. cbn zeta in Ea. destruct (allocpid _) in Ea.
    destruct (kalloc _) in Ea. destruct (_ =? 0) in Ea; [inv_ok; congruence|].
    apply bind_ok in Ea as ([] & _ & Ea). destruct (_ =? 0) in Ea; [inv_ok; congruence|]. congruence. }
  split; [done|]. erewrite allocproc_keeps_killed; [|unfold sized; by rewrite length_setp|exact Ea].
  rewrite getp_setp_eq by lia. unfold f. cbn. by rewrite decide_False by (rewrite Hu; done).
Qed.
End Props.

(** Two runnable processes, the second one ready since time 7. *)
Definition two_ready : kstate unit :=
  KState (set_state RUNNABLE proc0 :: set_wait_time 7 (set_state RUNNABLE proc0) :: replicate 62 proc0) 3 (Some 0%nat)
    (Phys ∅ 0) tt.

Lemma round_robin_starves_witness :
  (time_slices [(10, 20); (30, 40); (50, 60)] two_ready).1 = [Some 0%nat; Some 0%nat; Some 0%nat] /\
  getp (time_slices [(10, 20); (30, 40); (50, 60)] two_ready).2 1 = getp two_ready 1.
Proof.
  apply (round_robin_starves two_ready 0 1 [(10, 20); (30, 40); (50, 60)]); [reflexivity|lia| |reflexivity].
  split; [lia|]. apply Nat.ltb_lt. reflexivity.
Defined.

Lemma total_wait_time_adds_up_witness :
  total_wait_time (getp (foldl (fun s y => run_stay 1 y s) two_ready
    [Preempted 10 30; Slept 35 (ChAddr 5) None 90; Preempted 100 110]) 1) mod 2 ^ 64 = 18.
Proof.
  rewrite (total_wait_time_adds_up 1 [Preempted 10 30; Slept 35 (ChAddr 5) None 90; Preempted 100 110] two_ready);
    [reflexivity|reflexivity|apply Nat.ltb_lt; reflexivity|].
  repeat constructor; discriminate.
Defined.

Lemma kill_zero_dooms_next_witness :
  (kill 0 demo0).1 = 0 /\
  forall np s'', @allocproc unit demo_end KERNBASE 0 (kill 0 demo0).2 = Ok (Some np, s'') ->
    np = 1%nat /\ killed (getp s'' np) = 1.
Proof.
  apply (kill_zero_dooms_next demo_end KERNBASE 0 0 (fun _ => CUser) demo0 1 (kill 0 demo0).2 (kill 0 demo0).1).
  - exact (userinit_inv (HF := no_files) demo_end KERNBASE 0 5 100 demo_mem tt demo0 demo_boot).
  - apply Nat.ltb_lt. reflexivity.
  - vm_compute. reflexivity.
  - intros q Hq. assert (q = 0%nat) as -> by lia. vm_compute. discriminate.
  - by destruct (kill 0 demo0).
Defined.
