(* ===== verification/ProcMem.v ===== *)
(** * Who owns which page

    The pages of physical memory that processes use: the trap frame, the
    page-table pages and the user pages of each entry of the process table.
    [mem_inv] says that every page of a pool is either free or belongs to
    exactly one entry, and that each entry's page table is that of a process
    ([UvmFree.proc_as]).  The functions of proc.c that allocate and free
    memory keep it, so no page leaks and no page is shared by mistake. *)
From S2P Require Import Prelude Cstring Riscv Kalloc Vm VmTheory UvmTheory CopyTheory UvmProps UvmFree Block Proc.
From S2P Require Import ProcTheory.

#[local] Opaque NPROC.

(** The tables and the user pages of an entry. *)
Record own := Own { o_tab : gmap Z (nat * Z); o_map : gmap Z Z }.
Definition no_own : own := Own ∅ ∅.

(** The pages of the entry [p]. *)
Definition pages (p : proc) (o : own) (q : Z) : Prop :=
  trapframe p <> 0 /\ q = trapframe p \/ q ∈ dom (o_tab o) \/ exists v, o_map o !! v = Some q.

Section ProcMem.
Context {F : Type} {HF : FileLayer F}.
Variables (kend trampoline forkret_addr : Z).
Hypothesis Hkend : 0 < kend.
Hypothesis Htramp : kernel_page trampoline.
Abbreviation kst := (kstate F).
Implicit Types (s : kst) (m : phys) (fl : list Z) (p : proc) (o : own).

(** An entry that holds an address space. *)
Record proc_held m fl p o : Prop := {
  ph_used : state p <> UNUSED;
  ph_as : proc_as kend trampoline (trapframe p) m fl (pagetable p) (o_tab o) (o_map o) (sz p);
  ph_sz : 0 <= sz p <= TRAPFRAME;
  ph_tf : page_ok kend (trapframe p);
  ph_tf_free : trapframe p ∉ fl;
  ph_tf_tab : trapframe p ∉ dom (o_tab o);
  ph_tf_map : forall v, o_map o !! v <> Some (trapframe p)
}.

(** An entry without memory. *)
Definition proc_bare p o : Prop := pagetable p = 0 /\ trapframe p = 0 /\ sz p = 0 /\ o = no_own /\ state p = UNUSED.

Definition proc_ok m fl p o : Prop := proc_bare p o \/ proc_held m fl p o.

Record mem_inv (pool : Z -> Prop) s fl (O : nat -> own) : Prop := {
  mi_size : length (procs s) = NPROC;
  mi_kalloc : kalloc_inv kend (kphys s) fl;
  mi_proc : forall i, proc_ok (kphys s) fl (getp s i) (O i);
  mi_disj : forall i j q, pages (getp s i) (O i) q -> pages (getp s j) (O j) q -> i = j;
  mi_pool : forall q, pool q <-> q ∈ fl \/ exists i, pages (getp s i) (O i) q
}.

(** ** Entries *)

Lemma bare_pages p o q : proc_bare p o -> ~ pages p o q.
Proof.
  intros (_ & Ht & _ & -> & _) [[? _]|[Hq|[v Hv]]]; cbn [o_tab o_map no_own] in *; [done|by rewrite dom_empty_L, elem_of_empty in Hq|].
  by rewrite lookup_empty in Hv.
Qed.

Lemma pages_ok m fl p o q : proc_ok m fl p o -> pages p o q -> page_ok kend q /\ q ∉ fl.
Proof.
  intros [Hb|Hh] Hq; [by destruct (bare_pages p o q Hb)|].
  pose proof (pa_as _ _ _ _ _ _ _ _ _ (ph_as _ _ _ _ Hh)) as Has.
  destruct Hq as [[_ ->]|[Hq|[v Hv]]].
  - split; [exact (ph_tf _ _ _ _ Hh)|exact (ph_tf_free _ _ _ _ Hh)].
  - split; [eapply free_or_table; [exact Has|by right]|].
    exact (vi_own _ _ _ _ _ (ai_vm _ _ _ _ _ _ Has) q Hq).
  - destruct (ai_frame _ _ _ _ _ _ Has v q Hv) as (? & ? & _). done.
Qed.

(** Two entries' pages do not overlap. *)
Lemma pages_outside m fl p o q q' x :
  proc_ok m fl p o -> pages p o q -> q <= x < q + PGSIZE -> page_ok kend q' -> q' <> q -> outside x q'.
Proof.
  intros Hp Hq Hx Hq' Hne. destruct (pages_ok m fl p o q Hp Hq) as [Hok _].
  apply (page_disjoint kend q q' x); auto.
Qed.

(** The bytes of the entry's pages are the same in [m'] as in [m]. *)
Definition same_bytes p o m m' : Prop :=
  forall q x, pages p o q -> q <= x < q + PGSIZE -> ld8 (pmem m') x = ld8 (pmem m) x.

Lemma same_ubyte p o m m' w :
  same_bytes p o m m' -> ubyte (pmem m') (o_map o) w = ubyte (pmem m) (o_map o) w.
Proof.
  intros Hx. unfold ubyte. destruct (o_map o !! (w / 4096)) as [f|] eqn:Ef; [|done].
  cbn [mbind option_bind]. f_equal. apply (Hx f); [right; right; eauto|unfold PGSIZE; zlia].
Qed.

Lemma same_translate p o m m' fl w :
  same_bytes p o m m' -> proc_held m fl p o -> 0 <= w < MAXVA ->
  translate (pmem m') (pagetable p) w = translate (pmem m) (pagetable p) w.
Proof.
  intros Hx Hh Hw. pose proof (ai_vm _ _ _ _ _ _ (pa_as _ _ _ _ _ _ _ _ _ (ph_as _ _ _ _ Hh))) as Hvm.
  apply (xl_frame kend) with (pagetable p) (o_tab o); [apply Hvm| |by eapply root_pos].
  intros q x Hq. apply Hx. right. by left.
Qed.

(** A change elsewhere in memory. *)
Lemma proc_ok_frame m m' fl fl' p o :
  proc_ok m fl p o -> kalloc_inv kend m' fl' -> (forall q, pages p o q -> q ∉ fl') ->
  same_bytes p o m m' -> proc_ok m' fl' p o.
Proof.
  intros Hp Hk Hfl Hx. destruct Hp as [Hb|[Hu Has Hsz Htf H1 H2 H3]]; [by left|right].
  split; auto; [|apply Hfl; left; split; [|done]].
  - apply (proc_as_frame kend trampoline (trapframe p) m m' fl fl'); [exact Has|exact Hk| |].
    + intros q Hq. split; [intros Hd|intros v Hv]; apply (Hfl q); auto; [right; by left|right; right; eauto].
    + intros q x Hq. apply Hx. right. by left.
  - destruct (page_ok_bounds kend Hkend _ Htf). lia.
Qed.

(** Only four fields of an entry matter. *)
Definition same_mem p p' : Prop :=
  pagetable p' = pagetable p /\ trapframe p' = trapframe p /\ sz p' = sz p /\
  (state p' = UNUSED <-> state p = UNUSED).

Lemma same_mem_pages p p' o q : same_mem p p' -> pages p' o q <-> pages p o q.
Proof. intros (_ & Ht & _). unfold pages. by rewrite Ht. Qed.

Lemma same_mem_ok m fl p p' o : same_mem p p' -> proc_ok m fl p o -> proc_ok m fl p' o.
Proof.
  intros (E1 & E2 & E3 & E4) [(? & ? & ? & ? & ?)|[]]; [left|right].
  - unfold proc_bare. rewrite E1, E2, E3, E4. auto.
  - split; rewrite ?E1, ?E2, ?E3, ?E4; auto.
Qed.

(** ** Changing one entry *)

(** Entry [i] becomes [f] of itself, owning [o']; memory and free list
    change within the pages that [i] and the free list have. *)
Lemma mem_update pool s fl O i m' fl' f o' :
  mem_inv pool s fl O -> (i < NPROC)%nat -> kalloc_inv kend m' fl' ->
  proc_ok m' fl' (f (getp s i)) o' ->
  (forall q, q ∈ fl' \/ pages (f (getp s i)) o' q <-> q ∈ fl \/ pages (getp s i) (O i) q) ->
  (forall x, (forall q, q ∈ fl \/ pages (getp s i) (O i) q -> outside x q) ->
     ld8 (pmem m') x = ld8 (pmem (kphys s)) x) ->
  mem_inv pool (setp i f (set_phys m' s)) fl' (fun j => if decide (j = i) then o' else O j) /\
  forall j, j <> i -> same_bytes (getp s j) (O j) (kphys s) m'.
Proof.
  intros [Hsz Hk Hp Hd Hpool] Hi Hk' Hp' Hpart Hmem.
  assert (Hgi : getp (setp i f (set_phys m' s)) i = f (getp s i)).
  { rewrite getp_setp_eq by (cbn; lia). reflexivity. }
  assert (Hgj : forall j, j <> i -> getp (setp i f (set_phys m' s)) j = getp s j).
  { intros j Hj. rewrite getp_setp_ne by done. reflexivity. }
  assert (Hsep : forall j q, j <> i -> pages (getp s j) (O j) q -> q ∉ fl' /\ ~ pages (f (getp s i)) o' q).
  { intros j q Hj Hq. destruct (pages_ok _ _ _ _ _ (Hp j) Hq) as [_ Hnf].
    assert (~ (q ∈ fl' \/ pages (f (getp s i)) o' q)); [|tauto].
    rewrite Hpart. intros [?|Hq']; [done|]. by apply Hj, (Hd j i q). }
  assert (Hby : forall j, j <> i -> same_bytes (getp s j) (O j) (kphys s) m').
  { intros j Hj q x Hq Hx. apply Hmem. intros q' Hq'.
    eapply (pages_outside (kphys s) fl (getp s j) (O j) q q'); eauto.
    - destruct Hq' as [Hq'|Hq'].
      + pose proof (ki_pages _ _ _ Hk) as Hpg. rewrite Forall_forall in Hpg. auto.
      + exact (proj1 (pages_ok _ _ _ _ _ (Hp i) Hq')).
    - intros ->. destruct Hq' as [Hq'|Hq']; [exact (proj2 (pages_ok _ _ _ _ _ (Hp j) Hq) Hq')|].
      by apply Hj, (Hd j i q). }
  assert (Hfr : forall j, j <> i -> proc_ok m' fl' (getp s j) (O j)).
  { intros j Hj. apply (proc_ok_frame (kphys s) m' fl fl'); auto. intros q Hq. by apply (Hsep j). }
  split; [|exact Hby]. split; cbn [kphys setp set_phys].
  - rewrite length_setp. exact Hsz.
  - exact Hk'.
  - intros j. destruct (decide (j = i)) as [->|Hj]; [by rewrite Hgi|]. rewrite Hgj by done. by apply Hfr.
  - intros j k q. destruct (decide (j = i)) as [->|Hj], (decide (k = i)) as [->|Hk2]; [done|..];
      rewrite ?Hgi, ?Hgj by done.
    + intros H1 H2. by destruct (Hsep k q Hk2 H2).
    + intros H1 H2. by destruct (Hsep j q Hj H1).
    + apply Hd.
  - intros q. rewrite Hpool. split.
    + intros H. destruct H as [H|[j H]].
      * destruct (proj2 (Hpart q) (or_introl H)) as [?|?]; [by left|right]. exists i. by rewrite decide_True, Hgi.
      * destruct (decide (j = i)) as [->|Hj].
        { destruct (proj2 (Hpart q) (or_intror H)) as [?|?]; [by left|right]. exists i. by rewrite decide_True, Hgi. }
        right. exists j. by rewrite decide_False, Hgj.
    + intros H. destruct H as [H|[j H]].
      * destruct (proj1 (Hpart q) (or_introl H)) as [?|?]; eauto.
      * destruct (decide (j = i)) as [->|Hj].
        { rewrite Hgi in H. destruct (proj1 (Hpart q) (or_intror H)) as [?|?]; eauto. }
        rewrite Hgj in H by done. eauto.
Qed.

(** ** [freeproc] *)

Definition wiped p : proc :=
  set_state UNUSED (set_xstate 0 (set_killed 0 (set_chan ChNull (set_name []
    (set_parent None (set_pid 0 (set_sz 0 (set_pagetable 0 (set_trapframe 0 p))))))))).

(** An entry on its way in or out: it may have a trap frame but no page
    table yet. *)
Definition proc_half m fl p o : Prop :=
  (trapframe p = 0 \/ page_ok kend (trapframe p) /\ trapframe p ∉ fl) /\ pagetable p = 0 /\ o = no_own.

Lemma setp_setp s i f g m : setp i f (set_phys m (setp i g s)) = setp i (fun p => f (g p)) (set_phys m s).
Proof.
  unfold setp, set_phys. cbn [procs nextpid initproc kphys files]. f_equal.
  apply list_alter_alter_eq.
Qed.

Lemma setp_twice s i f g : setp i f (setp i g s) = setp i (fun p => f (g p)) s.
Proof. exact (setp_setp s i f g (kphys s)). Qed.

Lemma setp_id s i f : f (getp s i) = getp s i -> setp i f s = s.
Proof.
  destruct s as [l a b c d]. unfold getp, setp. cbn [procs nextpid initproc kphys files]. intros Hf. f_equal.
  apply list_eq. intros j. destruct (decide (i = j)) as [->|Hj]; [|by rewrite list_lookup_alter_ne].
  rewrite list_lookup_alter_eq. destruct (l !! j) as [p|]; [|done]. cbn in *. by rewrite Hf.
Qed.

Lemma free_trapframe m fl p :
  kalloc_inv kend m fl -> trapframe p = 0 \/ page_ok kend (trapframe p) /\ trapframe p ∉ fl ->
  exists m1 fl1,
    (if negb (trapframe p =? 0) then kfree kend (trapframe p) m else Ok m) = Ok m1 /\ kalloc_inv kend m1 fl1 /\
    (forall q, q ∈ fl1 <-> q ∈ fl \/ trapframe p <> 0 /\ q = trapframe p) /\
    (forall x, (trapframe p <> 0 -> outside x (trapframe p)) -> ld8 (pmem m1) x = ld8 (pmem m) x).
Proof.
  intros Hk Ht. destruct (Z.eqb_spec (trapframe p) 0) as [E|E]; cbn [negb].
  - exists m, fl. split_and!; auto. intros q. tauto.
  - destruct Ht as [?|[Hok Hni]]; [done|].
    destruct (kfree_ok kend Hkend m (trapframe p) fl Hk Hok Hni) as (m1 & -> & Hk1 & Hm1).
    exists m1, (trapframe p :: fl). split_and!; auto.
    + intros q. rewrite elem_of_cons. tauto.
    + intros x Hx. by apply Hm1, Hx.
Qed.

Lemma freeproc_run s fl i o :
  (i < length (procs s))%nat -> kalloc_inv kend (kphys s) fl ->
  proc_half (kphys s) fl (getp s i) o \/ proc_held (kphys s) fl (getp s i) o ->
  exists m' fl', freeproc kend i s = Ok (setp i wiped (set_phys m' s)) /\ kalloc_inv kend m' fl' /\
    (forall q, q ∈ fl' <-> q ∈ fl \/ pages (getp s i) o q) /\
    (forall x, (forall q, pages (getp s i) o q -> outside x q) -> ld8 (pmem m') x = ld8 (pmem (kphys s)) x).
Proof.
  intros Hi Hk Hp. set (p := getp s i) in *.
  assert (Htf : trapframe p = 0 \/ page_ok kend (trapframe p) /\ trapframe p ∉ fl).
  { destruct Hp as [Hh|[]]; [apply Hh|by right]. }
  destruct (free_trapframe (kphys s) fl p Hk Htf) as (m1 & fl1 & E1 & Hk1 & Hfl1 & Hm1).
  unfold freeproc. fold p. rewrite E1, bind_Ok.
  assert (Hg : getp (setp i (set_trapframe 0) (set_phys m1 s)) i = set_trapframe 0 p).
  { rewrite getp_setp_eq by exact Hi. reflexivity. }
  rewrite Hg. cbn [pagetable sz set_trapframe]. change (kphys (setp i _ (set_phys m1 s))) with m1.
  assert (Hfin : forall m', setp i (fun p => set_state UNUSED (set_xstate 0 (set_killed 0 (set_chan ChNull (set_name []
      (set_parent None (set_pid 0 (set_sz 0 (set_pagetable 0 p)))))))))
      (set_phys m' (setp i (set_trapframe 0) (set_phys m1 s))) = setp i wiped (set_phys m' s)).
  { intros m'. rewrite setp_setp. reflexivity. }
  destruct Hp as [(_ & Hpt & ->)|[_ Has Hsz Hok Hni H2 H3]].
  - rewrite Hpt. cbn [Z.eqb negb]. exists m1, fl1. rewrite bind_Ok, Hfin. split_and!; auto.
    + intros q. rewrite Hfl1. unfold pages. cbn [o_tab o_map no_own].
      split; [tauto|]. intros [?|[?|[Hq|[v Hv]]]]; [tauto..|by rewrite dom_empty_L, elem_of_empty in Hq|by rewrite lookup_empty in Hv].
    + intros x Hx. apply Hm1. intros ?. apply Hx. by left.
  - assert (Has1 : proc_as kend trampoline (trapframe p) m1 fl1 (pagetable p) (o_tab o) (o_map o) (sz p)).
    { pose proof (pa_as _ _ _ _ _ _ _ _ _ Has) as Hin.
      apply (proc_as_frame kend trampoline (trapframe p) (kphys s) m1 fl fl1); [exact Has|exact Hk1| |].
      - intros q [Hq|[_ ->]]%Hfl1; [|done]. split; [intros Hd; exact (vi_own _ _ _ _ _ (ai_vm _ _ _ _ _ _ Hin) q Hd Hq)|].
        intros v Hv. destruct (ai_frame _ _ _ _ _ _ Hin v q Hv) as (_ & Hn & _). done.
      - intros q x Hq Hx. apply Hm1. intros _.
        apply (page_disjoint kend q (trapframe p) x); auto; [|by intros ->].
        eapply free_or_table; [exact Hin|by right]. }
    destruct (page_ok_bounds kend Hkend _ Hok) as (Ht0 & _).
    assert (Hr0 : pagetable p <> 0).
    { pose proof (pw_root _ _ _ _ (vi_wf _ _ _ _ _ (ai_vm _ _ _ _ _ _ (pa_as _ _ _ _ _ _ _ _ _ Has)))) as Hr.
      assert (page_ok kend (pagetable p)) as Hrp
        by (eapply free_or_table; [exact (pa_as _ _ _ _ _ _ _ _ _ Has)|right; by eapply elem_of_dom_2]).
      destruct (page_ok_bounds kend Hkend _ Hrp). lia. }
    rewrite (proj2 (Z.eqb_neq _ _) Hr0). cbn [negb].
    destruct (proc_freepagetable_run kend Hkend trampoline (trapframe p) m1 fl1 _ _ _ _ Has1 Htramp)
      as (m' & fl' & -> & Hk' & Hfl' & Hm'); [|exact Hsz|].
    { destruct (page_ok_bounds kend Hkend _ Hok) as (? & ? & ?). split; [lia|done]. }
    exists m', fl'. rewrite bind_Ok, Hfin. split_and!; auto.
    + intros q. rewrite Hfl'. unfold pages_of, pages. rewrite Hfl1. tauto.
    + intros x Hx. rewrite Hm', Hm1; auto.
      * intros ?. apply Hx. by left.
      * intros q [Hq|Hq]; [by apply elem_of_nil in Hq|]. apply Hx. by right.
Qed.

(** ** [allocproc] *)

(** The fields of the state that do not matter. *)
Lemma mem_inv_ext pool s s' fl O :
  mem_inv pool s fl O -> procs s' = procs s -> kphys s' = kphys s -> mem_inv pool s' fl O.
Proof.
  intros [H1 H2 H3 H4 H5] Ep Ek. assert (Hg : forall i, getp s' i = getp s i) by (intros; unfold getp; by rewrite Ep).
  split; rewrite ?Ep, ?Ek; auto.
  - intros i. rewrite Hg. auto.
  - intros i j q. rewrite !Hg. apply H4.
  - intros q. rewrite H5. setoid_rewrite Hg. done.
Qed.

(** The entries in use in [s] are as they were. *)
Definition others_kept s (O : nat -> own) s' (O' : nat -> own) : Prop :=
  forall j, state (getp s j) <> UNUSED -> getp s' j = getp s j /\ O' j = O j /\
    same_bytes (getp s j) (O j) (kphys s) (kphys s').

Lemma unused_bare pool s fl O i : mem_inv pool s fl O -> state (getp s i) = UNUSED -> proc_bare (getp s i) (O i).
Proof. intros Hm Hu. destruct (mi_proc _ _ _ _ Hm i) as [?|[]]; done. Qed.

(** An unused entry becomes [f] of itself. *)
Lemma alloc_update pool s fl O i m' fl' f o' :
  mem_inv pool s fl O -> (i < NPROC)%nat -> state (getp s i) = UNUSED -> kalloc_inv kend m' fl' ->
  proc_ok m' fl' (f (getp s i)) o' ->
  (forall q, q ∈ fl' \/ pages (f (getp s i)) o' q <-> q ∈ fl) ->
  (forall x, (forall q, q ∈ fl -> outside x q) -> ld8 (pmem m') x = ld8 (pmem (kphys s)) x) ->
  exists O', mem_inv pool (setp i f (set_phys m' s)) fl' O' /\ O' i = o' /\
    others_kept s O (setp i f (set_phys m' s)) O'.
Proof.
  intros Hm Hi Hu Hk Hp Hpart Hmem. pose proof (unused_bare _ _ _ _ _ Hm Hu) as Hb.
  assert (Hno : forall q, ~ pages (getp s i) (O i) q) by (intros q; by apply bare_pages).
  destruct (mem_update pool s fl O i m' fl' f o' Hm Hi Hk Hp) as [Hm' Hby].
  { intros q. rewrite Hpart. specialize (Hno q). tauto. }
  { intros x Hx. apply Hmem. intros q Hq. apply Hx. by left. }
  eexists. split; [exact Hm'|]. split; [by rewrite decide_True|].
  intros j Hj. assert (j <> i) by (intros ->; done).
  rewrite getp_setp_ne by done. rewrite decide_False by done. split_and!; auto.
Qed.

Definition numbered_entry n p : proc := set_state USED (set_priority 10 (set_pid n p)).

(** The entry as [allocproc] leaves it when it succeeds. *)
Definition fresh_entry n tf pt p : proc :=
  set_context (<[1%nat := kstack p + PGSIZE]> (<[0%nat := forkret_addr]> (replicate 14 0)))
    (set_pagetable pt (set_trapframe tf (numbered_entry n p))).

(** The end of [allocproc] when memory runs out. *)
Lemma alloc_fails pool s fl O i m fl1 f :
  mem_inv pool s fl O -> (i < NPROC)%nat -> state (getp s i) = UNUSED -> kalloc_inv kend m fl1 ->
  let tf := trapframe (f (getp s i)) in
  tf = 0 \/ page_ok kend tf /\ tf ∉ fl1 -> pagetable (f (getp s i)) = 0 ->
  (forall q, q ∈ fl <-> q ∈ fl1 \/ tf <> 0 /\ q = tf) ->
  (forall x, (forall q, q ∈ fl -> outside x q) -> ld8 (pmem m) x = ld8 (pmem (kphys s)) x) ->
  exists s' fl' O', freeproc kend i (setp i f (set_phys m s)) = Ok s' /\
    mem_inv pool s' fl' O' /\ others_kept s O s' O' /\ files s' = files s /\ (forall q, q ∈ fl' <-> q ∈ fl).
Proof.
  intros Hm Hi Hu Hk tf Htf Hpt Hfl Hmem. set (s1 := setp i f (set_phys m s)).
  assert (Hg : getp s1 i = f (getp s i)).
  { unfold s1. rewrite getp_setp_eq by (cbn; rewrite (mi_size _ _ _ _ Hm); exact Hi). reflexivity. }
  assert (Hno : forall q, pages (getp s1 i) no_own q <-> tf <> 0 /\ q = tf).
  { intros q. rewrite Hg. unfold pages. fold tf. cbn [o_tab o_map no_own].
    split; [|tauto]. intros [?|[Hq|[v Hv]]]; [done|by rewrite dom_empty_L, elem_of_empty in Hq|by rewrite lookup_empty in Hv]. }
  destruct (freeproc_run s1 fl1 i no_own) as (m' & fl' & E & Hk' & Hfl' & Hm').
  { unfold s1. rewrite length_setp. cbn. rewrite (mi_size _ _ _ _ Hm). exact Hi. }
  { exact Hk. }
  { left. rewrite Hg. split; [exact Htf|]. split; [exact Hpt|reflexivity]. }
  unfold s1 in E. rewrite setp_setp in E.
  destruct (alloc_update pool s fl O i m' fl' (fun p => wiped (f p)) no_own) as (O' & Hm2 & _ & Hoth); auto.
  { left. split_and!; reflexivity. }
  { intros q. rewrite Hfl', Hno, Hfl. split; [|tauto]. intros [?|Hq]; [done|]. exfalso. revert Hq.
    apply bare_pages. split_and!; reflexivity. }
  { intros x Hx. rewrite Hm'; [by apply Hmem|]. intros q Hq%Hno. apply Hx, Hfl. by right. }
  eexists _, fl', O'. split; [exact E|]. split_and!; [exact Hm2|done..|]. intros q. by rewrite Hfl', Hno, Hfl.
Qed.

(** The end of [allocproc] when it succeeds. *)
Lemma alloc_succeeds pool s fl O i tf pt m fl' G f n :
  mem_inv pool s (tf :: fl) O -> (i < NPROC)%nat -> state (getp s i) = UNUSED -> page_ok kend tf -> tf ∉ fl ->
  proc_as kend trampoline tf m fl' pt G ∅ 0 -> (forall q, q ∈ fl <-> q ∈ fl' \/ q ∈ dom G) ->
  (forall x, (forall q, q ∈ tf :: fl -> outside x q) -> ld8 (pmem m) x = ld8 (pmem (kphys s)) x) ->
  f (getp s i) = fresh_entry n tf pt (getp s i) ->
  exists O', mem_inv pool (setp i f (set_phys m s)) fl' O' /\ others_kept s O (setp i f (set_phys m s)) O' /\
    getp (setp i f (set_phys m s)) i = fresh_entry n tf pt (getp s i) /\
    proc_held m fl' (fresh_entry n tf pt (getp s i)) (O' i) /\ o_map (O' i) = ∅ /\
    (forall q, q ∈ fl' \/ pages (fresh_entry n tf pt (getp s i)) (O' i) q <-> q ∈ tf :: fl).
Proof.
  intros Hm Hi Hu Hok Hni Has Hfl Hmem Hf. destruct (unused_bare _ _ _ _ _ Hm Hu) as (Hpt & Ht & Hsz & HO & _).
  assert (~ (tf ∈ fl' \/ tf ∈ dom G)) by (by rewrite <- Hfl).
  assert (Hheld : proc_held m fl' (fresh_entry n tf pt (getp s i)) (Own G ∅)).
  { split; cbn; auto; rewrite ?Hsz; [exact Has|rewrite TRAPFRAME_eq; lia]. }
  assert (Hpart : forall q, q ∈ fl' \/ pages (fresh_entry n tf pt (getp s i)) (Own G ∅) q <-> q ∈ tf :: fl).
  { intros q. rewrite elem_of_cons, Hfl. unfold pages, fresh_entry.
    cbn [trapframe set_context set_pagetable set_trapframe o_tab o_map].
    destruct (page_ok_bounds kend Hkend tf Hok) as (? & _).
    split; [|intros [->|?]; [right; left; split; [lia|done]|tauto]].
    intros [?|[[_ ?]|[?|[v Hv]]]]; [tauto..|by rewrite lookup_empty in Hv]. }
  destruct (alloc_update pool s (tf :: fl) O i m fl' f (Own G ∅) Hm Hi Hu) as (O' & Hm' & Ho & Hoth).
  { apply (pa_as _ _ _ _ _ _ _ _ _ Has). }
  { right. by rewrite Hf. }
  { by rewrite Hf. }
  { exact Hmem. }
  exists O'. rewrite Ho. split_and!; auto.
  rewrite getp_setp_eq by (cbn; rewrite (mi_size _ _ _ _ Hm); exact Hi). exact Hf.
Qed.

(** What [allocproc] promises: an entry with a trap frame and a page table
    without user memory, or nothing. *)
Definition alloc_result pool s fl (O : nat -> own) (r : option nat) s' fl' (O' : nat -> own) : Prop :=
  mem_inv pool s' fl' O' /\ others_kept s O s' O' /\ files s' = files s /\
  match r with
  | None => (find_unused NPROC 0 s = None \/ (length fl <= 6)%nat) /\ (forall q, q ∈ fl' <-> q ∈ fl)
  | Some np => (np < NPROC)%nat /\ state (getp s np) = UNUSED /\
      (exists tf pt, getp s' np = fresh_entry (nextpid s) tf pt (getp s np)) /\
      proc_held (kphys s') fl' (getp s' np) (O' np) /\ o_map (O' np) = ∅ /\ (length fl <= length fl' + 6)%nat /\
      (forall q, q ∈ fl' \/ pages (getp s' np) (O' np) q <-> q ∈ fl)
  end.

Lemma allocproc_mem pool s fl O :
  mem_inv pool s fl O ->
  exists r s' fl' O', allocproc kend trampoline forkret_addr s = Ok (r, s') /\ alloc_result pool s fl O r s' fl' O'.
Proof.
  intros Hm. unfold allocproc. destruct (find_unused NPROC 0 s) as [i|] eqn:Ef.
  2: { exists None, s, fl, O. split; [done|]. split_and!; auto. by intros j _. }
  apply find_unused_some in Ef as ((_ & Hi) & Hu & _). change (i < NPROC)%nat in Hi.
  cbn [allocpid]. set (s0 := KState (procs s) (s32 (nextpid s + 1)) (initproc s) (kphys s) (files s)).
  change (fun p : proc => set_state USED (set_priority 10 (set_pid (nextpid s) p))) with (numbered_entry (nextpid s)).
  assert (Hm0 : mem_inv pool s0 fl O) by (by apply (mem_inv_ext pool s)).
  destruct (unused_bare _ _ _ _ _ Hm Hu) as (Hpt & Ht & Hsz & HO & _).
  change (kphys (setp i (numbered_entry (nextpid s)) s0)) with (kphys s).
  pose proof (mi_kalloc _ _ _ _ Hm) as Hk. destruct (kalloc (kphys s)) as [tf m1] eqn:Ek.
  rewrite setp_setp. destruct (Z.eqb_spec tf 0) as [Htf|Htf].
  { destruct fl as [|tf' fl]; [rewrite (kalloc_nil kend (kphys s) Hk) in Ek; injection Ek as _ <-|].
    2: { destruct (kalloc_cons kend Hkend _ _ _ _ _ Hk Ek) as (-> & _). pose proof (ki_pages _ _ _ Hk) as Hpg.
      apply Forall_cons in Hpg as [Hp _]. destruct (page_ok_bounds kend Hkend _ Hp). lia. }
    destruct (alloc_fails pool s0 [] O i (kphys s) [] (fun p => set_trapframe tf (numbered_entry (nextpid s) p)) Hm0)
      as (s' & fl' & O' & E & Hr); [exact Hi|exact Hu|exact Hk|by left|exact Hpt| |done|].
    { intros q. cbn. rewrite elem_of_nil. tauto. }
    rewrite E, bind_Ok. exists None, s', fl', O'. split; [done|]. destruct Hr as (? & ? & ? & ?).
    split_and!; auto. right. cbn. lia. }
  destruct fl as [|tf' fl]; [rewrite (kalloc_nil kend (kphys s) Hk) in Ek; congruence|].
  destruct (kalloc_cons kend Hkend (kphys s) tf' fl tf m1 Hk Ek) as (-> & Hk1 & Hm1).
  pose proof (ki_nodup _ _ _ Hk) as Hnd. apply NoDup_cons in Hnd as [Hni _].
  pose proof (ki_pages _ _ _ Hk) as Hpg. apply Forall_cons in Hpg as [Hptf _].
  destruct (page_ok_bounds kend Hkend tf' Hptf) as (Htf0 & Htf1 & Htfa).
  assert (Hmem1 : forall x, outside x tf' -> ld8 (pmem m1) x = ld8 (pmem (kphys s)) x).
  { intros x Hx. rewrite Hm1, decide_False; [done|]. unfold outside in Hx. lia. }
  change (kphys (setp i _ (set_phys m1 s0))) with m1.
  destruct (proc_pagetable_run kend Hkend trampoline tf' m1 fl Hk1 Htramp) as (pt & m2 & E2 & Hcase);
    [split; [lia|done]|]. rewrite E2, bind_Ok, setp_setp. change (set_phys m2 (set_phys m1 s0)) with (set_phys m2 s0).
  assert (Hmem2 : (forall x, (forall q, q ∈ fl -> outside x q) -> ld8 (pmem m2) x = ld8 (pmem m1) x) ->
    forall x, (forall q, q ∈ tf' :: fl -> outside x q) -> ld8 (pmem m2) x = ld8 (pmem (kphys s)) x).
  { intros H x Hx. rewrite H, Hmem1; [done|apply Hx, elem_of_cons; auto|].
    intros q Hq. apply Hx, elem_of_cons. auto. }
  destruct Hcase as [(-> & (fl2 & Hk2 & Hfl2 & Hm2) & Hl5)|[Hpt0 (fl2 & G & Has & Hfl2 & Hm2 & Hl5)]].
  - cbn [Z.eqb].
    destruct (alloc_fails pool s0 (tf' :: fl) O i m2 fl2
        (fun p => set_pagetable 0 (set_trapframe tf' (numbered_entry (nextpid s) p))) Hm0)
      as (s' & fl' & O' & E & Hr); [exact Hi|exact Hu|exact Hk2| |reflexivity| |exact (Hmem2 Hm2)|].
    { right. cbn [trapframe set_pagetable set_trapframe]. by rewrite Hfl2. }
    { intros q. cbn [trapframe set_pagetable set_trapframe]. rewrite elem_of_cons, Hfl2. tauto. }
    rewrite E, bind_Ok. exists None, s', fl', O'. split; [done|]. destruct Hr as (? & ? & ? & ?).
    split_and!; auto. right. cbn. lia.
  - rewrite (proj2 (Z.eqb_neq pt 0) Hpt0).
    rewrite getp_setp_eq by (cbn; rewrite (mi_size _ _ _ _ Hm); exact Hi).
    cbn [kstack set_pagetable set_trapframe numbered_entry set_state set_priority set_pid].
    change (getp (set_phys m2 s0) i) with (getp s i). rewrite setp_twice.
    set (f := fun p : proc => set_context _ _).
    destruct (alloc_succeeds pool s0 fl O i tf' pt m2 fl2 G f (nextpid s) Hm0 Hi Hu Hptf Hni Has Hfl2 (Hmem2 Hm2) eq_refl)
      as (O' & Hm' & Hoth & Hget & Hheld & Hmap & Hpart).
    eexists (Some i), _, fl2, O'. split; [reflexivity|]. split_and!; auto.
    + by exists tf', pt.
    + rewrite Hget. exact Hheld.
    + cbn. lia.
    + rewrite Hget. exact Hpart.
Qed.

(** ** Growing an entry's memory *)

(** The entry after pages have been added above [sz]. *)
Lemma proc_held_grown m fl p o perm fill k m' fl' G' M' sz' :
  proc_held m fl p o ->
  grown kend m fl (pagetable p) (o_tab o) (o_map o) (pgno (sz p)) perm fill k m' fl' G' M' ->
  0 <= k -> pgno sz' = pgno (sz p) + k -> 0 <= sz' <= TRAPFRAME ->
  proc_held m' fl' (set_sz sz' p) (Own G' M') /\
  (forall q, q ∈ fl' \/ pages (set_sz sz' p) (Own G' M') q <-> q ∈ fl \/ pages p o q) /\
  (forall x, (forall q, q ∈ fl \/ pages p o q -> outside x q) -> ld8 (pmem m') x = ld8 (pmem m) x).
Proof.
  intros [Hu [Has Hdom Ht1 Ht2 Honly] Hsz Htf H1 H2 H3] Hg Hk Hpg Hsz'.
  pose proof (g_as _ _ _ _ _ _ _ _ _ _ _ _ _ _ Hg) as Has'.
  pose proof (g_pages _ _ _ _ _ _ _ _ _ _ _ _ _ _ Hg) as Hpages.
  pose proof (g_map _ _ _ _ _ _ _ _ _ _ _ _ _ _ Hg) as Hmap.
  pose proof (g_tr _ _ _ _ _ _ _ _ _ _ _ _ _ _ Hg) as Htr.
  assert (Hp0 : 0 <= pgno (sz p)) by (unfold pgno; rewrite TRAPFRAME_eq in *; zlia).
  assert (Hp1 : pgno (sz p) + k <= 67108862) by (rewrite <- Hpg; unfold pgno; rewrite TRAPFRAME_eq in *; zlia).
  destruct top_pages as (HT1 & HT2 & HT3 & HT4).
  assert (Hdom' : forall i, is_Some (M' !! i) <-> 0 <= i < pgno sz').
  { intros i. rewrite Hpg. destruct (decide (pgno (sz p) <= i < pgno (sz p) + k)) as [Hi|Hi].
    - destruct (g_new _ _ _ _ _ _ _ _ _ _ _ _ _ _ Hg i Hi) as (f & -> & _). split; [lia|by eexists].
    - rewrite Hmap, Hdom by done. lia. }
  assert (Hold : forall q, (q ∈ dom G' \/ q ∈ fl' \/ exists i, M' !! i = Some q) <->
    (q ∈ dom (o_tab o) \/ q ∈ fl \/ exists i, o_map o !! i = Some q)).
  { intros q. split.
    - intros [?|[?|[i Hi]]].
      1, 2: destruct (proj1 (Hpages q)); tauto.
      destruct (decide (pgno (sz p) <= i < pgno (sz p) + k)) as [Hr|Hr].
      + destruct (proj1 (Hpages q)); [right; right; eauto|tauto..].
      + rewrite Hmap in Hi by done. eauto.
    - intros [?|[?|[i Hi]]].
      1, 2: destruct (proj2 (Hpages q)) as [?|[?|(i & _ & ?)]]; [tauto..|]; eauto.
      right; right. exists i. rewrite Hmap; [done|]. intros Hr.
      assert (0 <= i < pgno (sz p)) by (apply Hdom; by eexists). lia. }
  assert (Htf' : ~ (trapframe p ∈ dom G' \/ trapframe p ∈ fl' \/ exists i, M' !! i = Some (trapframe p))).
  { rewrite Hold. intros [?|[?|[i Hi]]]; [done..|]. by apply (H3 i). }
  split_and!.
  - split; cbn [state pagetable trapframe sz set_sz o_tab o_map]; auto; [split; auto|..].
    + rewrite Htr by (auto; lia). done.
    + rewrite Htr by (auto; lia). done.
    + intros w Hw Hw1 Hw2 HMw. assert (Hnr : ~ (pgno (sz p) <= w / 4096 < pgno (sz p) + k)).
      { intros Hr. assert (is_Some (M' !! (w / 4096))) as [? E] by (apply Hdom'; lia). congruence. }
      rewrite Htr by done. apply Honly; auto. by rewrite <- Hmap.
    + intros v Hv. apply Htf'. eauto.
  - intros q. specialize (Hold q). unfold pages. cbn [trapframe set_sz o_tab o_map].
    clear -Hold. tauto.
  - intros x Hx. apply (g_out _ _ _ _ _ _ _ _ _ _ _ _ _ _ Hg). intros q Hq. apply Hx. unfold pages. tauto.
Qed.

(** A write to an entry's trap frame. *)
Lemma proc_held_tf m fl p o mm :
  proc_held m fl p o -> kalloc_inv kend m fl -> mem_wf mm ->
  (forall x, outside x (trapframe p) -> ld8 mm x = ld8 (pmem m) x) ->
  proc_held (with_mem mm m) fl p o /\ kalloc_inv kend (with_mem mm m) fl /\
  (forall w, ubyte mm (o_map o) w = ubyte (pmem m) (o_map o) w) /\
  (forall w, 0 <= w < MAXVA -> translate mm (pagetable p) w = translate (pmem m) (pagetable p) w).
Proof.
  intros Hh Hk Hwf Hm. pose proof (pa_as _ _ _ _ _ _ _ _ _ (ph_as _ _ _ _ Hh)) as Has.
  assert (Hq : forall q x, page_ok kend q -> q <> trapframe p -> q <= x < q + PGSIZE -> ld8 mm x = ld8 (pmem m) x).
  { intros q x Hok Hne Hx. apply Hm, (page_disjoint kend q (trapframe p) x); auto. by destruct Hh. }
  assert (Hk' : kalloc_inv kend (with_mem mm m) fl).
  { apply kalloc_inv_write; [done..|]. intros q x Hql. apply Hq.
    - eapply free_or_table; [exact Has|by left].
    - intros ->. by apply (ph_tf_free _ _ _ _ Hh). }
  split_and!; [|exact Hk'|..].
  - destruct Hh as [Hu Hpa Hsz Htf H1 H2 H3]. split; auto.
    apply (proc_as_frame kend trampoline (trapframe p) m _ fl fl); [exact Hpa|exact Hk'| |].
    + intros q Hql. split; [intros Hd; exact (vi_own _ _ _ _ _ (ai_vm _ _ _ _ _ _ Has) q Hd Hql)|].
      intros v Hv. by destruct (ai_frame _ _ _ _ _ _ Has v q Hv) as (_ & Hn & _).
    + intros q x Hqd. apply Hq; [eapply free_or_table; [exact Has|by right]|]. by intros ->.
  - intros w. unfold ubyte. destruct (o_map o !! (w / 4096)) as [f|] eqn:Ef; [|done].
    cbn [mbind option_bind]. f_equal.
    destruct (ai_frame _ _ _ _ _ _ Has _ _ Ef) as (Hok & _). apply (Hq f); [done| |unfold PGSIZE; zlia].
    intros ->. by apply (ph_tf_map _ _ _ _ Hh (w / 4096)).
  - intros w Hw. apply (xl_frame kend) with (pagetable p) (o_tab o); [apply Has| |eapply root_pos; [apply Has|done]].
    intros q x Hqd. apply Hq; [eapply free_or_table; [exact Has|by right]|]. intros ->. by apply (ph_tf_tab _ _ _ _ Hh).
Qed.

(** ** [fork] *)

(** What [fork] needs of the files: the parent's open files and its
    directory can be shared. *)
Definition files_shared i s : Prop :=
  exists ok : F -> Prop, ok (files s) /\
    (forall x f, ok x -> f ∈ ofile (getp s i) -> f <> 0 -> exists x', filedup f x = Ok x' /\ ok x') /\
    (forall x, ok x -> exists x', idup (cwd (getp s i)) x = Ok x').

(** The child's descriptors [co] after the loop has shared those of the
    parent, [po], from [fd] on. *)
Definition shared (k fd : nat) (po co ofs : list Z) : Prop :=
  forall n : nat, ofs !! n =
    if decide ((fd <= n < fd + k)%nat /\ default 0 (po !! n) <> 0 /\ (n < length co)%nat) then po !! n else co !! n.

Lemma fork_files_share k : forall fd i np s (ok : F -> Prop),
  i <> np -> (np < length (procs s))%nat -> ok (files s) ->
  (forall x f, ok x -> f ∈ ofile (getp s i) -> f <> 0 -> exists x', filedup f x = Ok x' /\ ok x') ->
  exists x ofs, fork_files k fd i np s = Ok (setp np (set_ofile ofs) (set_files x s)) /\ ok x /\
    shared k fd (ofile (getp s i)) (ofile (getp s np)) ofs.
Proof.
  induction k as [|k IH]; intros fd i np s ok Hne Hnp Hok Hdup; cbn [fork_files].
  { exists (files s), (ofile (getp s np)). split_and!; auto.
    - f_equal. symmetry. rewrite setp_id; [by destruct s|].
      change (getp (set_files (files s) s) np) with (getp s np). by destruct (getp s np).
    - intros n. rewrite decide_False by lia. done. }
  destruct (Z.eqb_spec (default 0 (ofile (getp s i) !! fd)) 0) as [E|E]; cbn [negb].
  - destruct (IH (S fd) i np s ok) as (x & ofs & Hrun & Hx & Hsh); auto.
    exists x, ofs. split_and!; auto. intros n. rewrite Hsh.
    destruct (decide (n = fd)) as [->|Hn].
    + rewrite !decide_False by (lia || tauto). done.
    + destruct (decide (_ /\ _)) as [?|Hd]; [rewrite decide_True by lia; done|].
      rewrite decide_False; [done|]. intros [? ?]. apply Hd. lia.
  - set (f := default 0 (ofile (getp s i) !! fd)) in *.
    assert (Hf : ofile (getp s i) !! fd = Some f).
    { unfold f in *. destruct (ofile (getp s i) !! fd); done. }
    destruct (Hdup (files s) f Hok) as (x1 & -> & Hok1); [by eapply list_elem_of_lookup_2|done|].
    cbn [mbind outcome_bind]. set (s1 := setp np _ (set_files x1 s)).
    assert (Hi1 : getp s1 i = getp s i) by (unfold s1; by rewrite getp_setp_ne by done).
    assert (Hn1 : getp s1 np = set_ofile (<[fd:=f]> (ofile (getp s np))) (getp s np))
      by (unfold s1; by rewrite getp_setp_eq by done).
    destruct (IH (S fd) i np s1 ok) as (x & ofs & Hrun & Hx & Hsh); auto.
    { unfold s1. by rewrite length_setp. }
    { by rewrite Hi1. }
    exists x, ofs. split_and!; auto.
    + rewrite Hrun. f_equal. change (set_files x s1) with (setp np (fun p => set_ofile (<[fd:=f]> (ofile p)) p) (set_files x s)).
      rewrite setp_twice. reflexivity.
    + intros n. rewrite Hsh, Hi1, Hn1. cbn [ofile set_ofile]. rewrite length_insert.
      destruct (decide (n = fd)) as [->|Hn].
      * rewrite (decide_False (P := (S fd <= fd < _)%nat /\ _)) by lia.
        destruct (decide (fd < length (ofile (getp s np)))%nat).
        -- rewrite decide_True by (fold f; lia). rewrite list_lookup_insert_eq by lia. congruence.
        -- rewrite decide_False by lia. rewrite list_insert_ge by lia. done.
      * rewrite list_lookup_insert_ne by done.
        destruct (decide (_ /\ _)) as [?|Hd]; [rewrite decide_True by lia; done|].
        rewrite decide_False; [done|]. intros [? ?]. apply Hd. lia.
Qed.

(** The child of [fork] in the state that [fork_copy] leaves. *)
Record forked i s (O : nat -> own) np s' (O' : nat -> own) : Prop := {
  fk_entry : (np < NPROC)%nat /\ state (getp s np) = UNUSED /\ state (getp s' np) = USED;
  fk_fields : pid (getp s' np) = nextpid s /\ sz (getp s' np) = sz (getp s i) /\
    cwd (getp s' np) = cwd (getp s i) /\ name (getp s' np) = str_copy (name (getp s i)) 16;
  fk_files : shared NOFILE 0 (ofile (getp s i)) (ofile (getp s np)) (ofile (getp s' np));
  fk_bytes : forall w, 0 <= w / 4096 < pgno (sz (getp s i)) ->
    ubyte (pmem (kphys s')) (o_map (O' np)) w = ubyte (pmem (kphys s)) (o_map (O i)) w;
  fk_flags : forall w, 0 <= w / 4096 < pgno (sz (getp s i)) ->
    exists e e', translate (pmem (kphys s)) (pagetable (getp s i)) w = Some e /\
      translate (pmem (kphys s')) (pagetable (getp s' np)) w = Some e' /\ PTE_FLAGS e' = PTE_FLAGS e;
  fk_regs : forall k, 0 <= k < tf_size -> ~ (tf_a0 <= k < tf_a0 + 8) ->
    ld8 (pmem (kphys s')) (trapframe (getp s' np) + k) = ld8 (pmem (kphys s)) (trapframe (getp s i) + k);
  fk_a0 : ld64 (pmem (kphys s')) (trapframe (getp s' np) + tf_a0) = 0
}.

(** The two address spaces of [uvmcopy] in the process table. *)
Lemma held_apart pool s fl O i j :
  mem_inv pool s fl O -> i <> j -> apart (o_tab (O i)) (o_map (O i)) (o_tab (O j)).
Proof.
  intros Hm Hij q Hq Hqj. apply Hij, (mi_disj _ _ _ _ Hm i j q); [right; exact Hq|right; by left].
Qed.

Lemma held_in pool s fl O i : mem_inv pool s fl O -> pagetable (getp s i) <> 0 -> proc_held (kphys s) fl (getp s i) (O i).
Proof. intros Hm Hp. destruct (mi_proc _ _ _ _ Hm i) as [(? & _)|?]; done. Qed.

Lemma held_root m fl p o : proc_held m fl p o -> pagetable p <> 0 /\ trapframe p <> 0.
Proof.
  intros [_ Has _ Htf _ _ _]. pose proof (pa_as _ _ _ _ _ _ _ _ _ Has) as Hin.
  destruct (page_ok_bounds kend Hkend _ Htf). split; [|lia].
  assert (page_ok kend (pagetable p)) as Hrp.
  { eapply free_or_table; [exact Hin|right]. eapply elem_of_dom_2, (pw_root _ _ _ _ (vi_wf _ _ _ _ _ (ai_vm _ _ _ _ _ _ Hin))). }
  destruct (page_ok_bounds kend Hkend _ Hrp). lia.
Qed.

(** [uvmcopy] between two entries. *)
Lemma uvmcopy_entries pool s fl O i np :
  mem_inv pool s fl O -> i <> np -> proc_held (kphys s) fl (getp s i) (O i) ->
  proc_held (kphys s) fl (getp s np) (O np) -> sz (getp s np) = 0 ->
  exists r m' fl' o' sz',
    uvmcopy kend (pagetable (getp s i)) (pagetable (getp s np)) (sz (getp s i)) (kphys s) = Ok (r, m') /\
    (r = 0 /\ sz' = sz (getp s i) \/ r = -1 /\ sz' = sz (getp s np)) /\
    proc_held m' fl' (set_sz sz' (getp s np)) o' /\
    (forall q, q ∈ fl' \/ pages (set_sz sz' (getp s np)) o' q <-> q ∈ fl \/ pages (getp s np) (O np) q) /\
    (forall x, (forall q, q ∈ fl \/ pages (getp s np) (O np) q -> outside x q) ->
       ld8 (pmem m') x = ld8 (pmem (kphys s)) x) /\
    (forall w, 0 <= w / 4096 < pgno sz' ->
       ubyte (pmem m') (o_map o') w = ubyte (pmem (kphys s)) (o_map (O i)) w /\
       exists e e', translate (pmem (kphys s)) (pagetable (getp s i)) w = Some e /\
         translate (pmem m') (pagetable (getp s np)) w = Some e' /\ PTE_FLAGS e' = PTE_FLAGS e).
Proof.
  intros Hm Hne Hi Hn Hsz. pose proof (ph_as _ _ _ _ Hi) as Hai. pose proof (ph_as _ _ _ _ Hn) as Han.
  pose proof (ph_sz _ _ _ _ Hi) as Hr. rewrite TRAPFRAME_eq in Hr.
  assert (Hall : forall k, 0 <= k < pgno (sz (getp s i)) -> is_Some (o_map (O i) !! k)).
  { intros k Hk. by apply (pa_dom _ _ _ _ _ _ _ _ _ Hai). }
  destruct (uvmcopy_run kend (kphys s) fl (pagetable (getp s i)) (o_tab (O i)) (o_map (O i))
    (pagetable (getp s np)) (o_tab (O np)) (o_map (O np)) (sz (getp s i)))
    as (r & m' & fl' & G' & M' & hi & E & Hhi & Hg); [done|apply Hai|apply Han|by eapply held_apart|rewrite MAXVA_eq; lia|exact Hall| |].
  { intros w Hw. assert (pgno (sz (getp s i)) <= 67108862) by (unfold pgno; zlia).
    apply (pa_only _ _ _ _ _ _ _ _ _ Han); [rewrite MAXVA_eq; zlia|lia|lia|].
    destruct (o_map (O np) !! (w / 4096)) as [f|] eqn:Ef; [|done].
    assert (0 <= w / 4096 < pgno (sz (getp s np))) as Hc by (apply (pa_dom _ _ _ _ _ _ _ _ _ Han); by eexists).
    rewrite Hsz in Hc. change (pgno 0) with 0 in Hc. lia. }
  assert (Hsz' : exists sz', (r = 0 /\ sz' = sz (getp s i) \/ r = -1 /\ sz' = sz (getp s np)) /\ hi = pgno sz' /\
    0 <= sz' <= TRAPFRAME).
  { rewrite Hsz, TRAPFRAME_eq. destruct Hhi as [[-> ->]|[-> ->]].
    - exists (sz (getp s i)). split_and!; auto; lia.
    - exists 0. split_and!; auto; lia. }
  destruct Hsz' as (sz' & Hr' & -> & Hrange).
  destruct (proc_held_grown (kphys s) fl (getp s np) (O np) (pflags (kphys s) (pagetable (getp s i)))
    (pbytes (kphys s) (o_map (O i))) (pgno sz') m' fl' G' M' sz' Hn) as (Hheld & Hpart & Hout).
  { rewrite Hsz. exact Hg. }
  { unfold pgno. zlia. }
  { rewrite Hsz. change (pgno 0) with 0. lia. }
  { exact Hrange. }
  exists r, m', fl', (Own G' M'), sz'. split_and!; auto. intros w Hw.
  destruct (cloned_page kend Hkend (kphys s) fl (pagetable (getp s i)) (o_tab (O i)) (o_map (O i))
    (pagetable (getp s np)) (o_tab (O np)) (o_map (O np)) (pgno (sz (getp s i)))) with (5 := Hall) (6 := Hg) (w := w)
    as (? & e & e' & ? & ? & ? & _); eauto;
    [apply Hai|apply Han|by eapply held_apart|apply pgno_bounds; rewrite MAXVA_eq; lia| |].
  { destruct Hr' as [[_ ->]|[_ ->]]; [lia|]. rewrite Hsz. unfold pgno. zlia. }
  split; [done|]. by exists e, e'.
Qed.

(** The child's trap frame. *)
Definition child_frame (m : mem) (tfp tfc : Z) : mem :=
  st64 (st_bytes m tfc (bytes m tfp (Z.to_nat tf_size))) (tfc + tf_a0) 0.

Lemma child_frame_spec (m : mem) tfp tfc :
  mem_wf m ->
  mem_wf (child_frame m tfp tfc) /\
  (forall x, outside x tfc -> ld8 (child_frame m tfp tfc) x = ld8 m x) /\
  (forall k, 0 <= k < tf_size -> ~ (tf_a0 <= k < tf_a0 + 8) ->
     ld8 (child_frame m tfp tfc) (tfc + k) = ld8 m (tfp + k)) /\
  ld64 (child_frame m tfp tfc) (tfc + tf_a0) = 0.
Proof.
  intros Hwf. unfold child_frame, tf_size, tf_a0, outside, PGSIZE. split_and!.
  - auto with kern.
  - intros x Hx. rewrite ld8_st64_other, ld8_st_bytes_other by (rewrite ?length_bytes; lia). done.
  - intros k Hk Hk'. rewrite ld8_st64_other by lia.
    replace (tfc + k) with (tfc + Z.of_nat (Z.to_nat k)) by lia.
    rewrite (ld8_st_bytes_in _ _ _ _ (ld8 m (tfp + k))).
    + apply u8_id, Hwf.
    + rewrite lookup_bytes by lia. do 2 f_equal. lia.
  - by rewrite ld64_st64_eq.
Qed.

(** Entry [np], unused in [s], changes from [s1] to [s']. *)
Lemma others_then s (O : nat -> own) s1 (O1 : nat -> own) np f m' o' x :
  others_kept s O s1 O1 -> state (getp s np) = UNUSED ->
  (forall j, j <> np -> same_bytes (getp s1 j) (O1 j) (kphys s1) m') ->
  others_kept s O (set_files x (setp np f (set_phys m' s1))) (fun j => if decide (j = np) then o' else O1 j).
Proof.
  intros H1 Hnu Hby j Hj. assert (Hne : j <> np) by (intros ->; done). destruct (H1 j Hj) as (Hg & HO & Hb).
  change (getp (set_files x (setp np f (set_phys m' s1))) j) with (getp (setp np f (set_phys m' s1)) j).
  rewrite getp_setp_ne, decide_False by done. split; [exact Hg|]. split; [exact HO|]. intros q y Hq Hy.
  cbn [kphys setp set_phys set_files]. rewrite <- (Hb q y) by done. apply (Hby j Hne q); [|done].
  by rewrite Hg, HO.
Qed.

Lemma set_sz_same p : set_sz (sz p) p = p.
Proof. by destruct p. Qed.

(** When [uvmcopy] fails, [freeproc] returns what [allocproc] took. *)
Lemma fork_undo pool s O s1 fl1 O1 np m2 fl2 o2 :
  mem_inv pool s1 fl1 O1 -> others_kept s O s1 O1 -> (np < NPROC)%nat -> state (getp s np) = UNUSED ->
  proc_held m2 fl2 (getp s1 np) o2 ->
  (forall q, q ∈ fl2 \/ pages (getp s1 np) o2 q <-> q ∈ fl1 \/ pages (getp s1 np) (O1 np) q) ->
  (forall x, (forall q, q ∈ fl1 \/ pages (getp s1 np) (O1 np) q -> outside x q) ->
     ld8 (pmem m2) x = ld8 (pmem (kphys s1)) x) ->
  exists s' fl' O', freeproc kend np (set_phys m2 s1) = Ok s' /\ mem_inv pool s' fl' O' /\ others_kept s O s' O' /\
    (forall q, q ∈ fl' <-> q ∈ fl1 \/ pages (getp s1 np) (O1 np) q).
Proof.
  intros Hm1 Hoth Hnp Hnu Hheld Hpart Hout.
  destruct (freeproc_run (set_phys m2 s1) fl2 np o2) as (m3 & fl3 & E & Hk3 & Hfl3 & Hm3).
  { cbn. rewrite (mi_size _ _ _ _ Hm1). exact Hnp. }
  { apply (pa_as _ _ _ _ _ _ _ _ _ (ph_as _ _ _ _ Hheld)). }
  { by right. }
  change (getp (set_phys m2 s1) np) with (getp s1 np) in *.
  assert (Hb : proc_bare (wiped (getp s1 np)) no_own) by (split_and!; reflexivity).
  destruct (mem_update pool s1 fl1 O1 np m3 fl3 wiped no_own Hm1 Hnp Hk3) as [Hm' Hby].
  { by left. }
  { intros q. rewrite <- Hpart, <- Hfl3. pose proof (bare_pages _ _ q Hb). tauto. }
  { intros x Hx. rewrite Hm3; [by apply Hout|]. intros q Hq. apply Hx, Hpart. by right. }
  eexists _, fl3, _. split; [exact E|]. split; [exact Hm'|].
  split; [exact (others_then s O s1 O1 np wiped m3 no_own (files s1) Hoth Hnu Hby)|].
  intros q. by rewrite <- Hpart, <- Hfl3.
Qed.

(** [fork_copy] after [uvmcopy] has succeeded. *)
Definition fork_tail i np s : outcome (option nat * kst) :=
  let s := setp np (set_sz (sz (getp s i))) s in
  let m := child_frame (pmem (kphys s)) (trapframe (getp s i)) (trapframe (getp s np)) in
  let s := set_phys (with_mem m (kphys s)) s in
  s ← fork_files NOFILE 0 i np s;
  f ← idup (cwd (getp s i)) (files s);
  let s := setp np (set_cwd (cwd (getp s i))) (set_files f s) in
  Ok (Some np, setp np (set_name (str_copy (name (getp s i)) 16)) s).

Lemma fork_copy_eq i s :
  fork_copy kend trampoline forkret_addr i s =
  ('(np, s) ← allocproc kend trampoline forkret_addr s;
   match np with
   | None => Ok (None, s)
   | Some np =>
       '(r, m) ← uvmcopy kend (pagetable (getp s i)) (pagetable (getp s np)) (sz (getp s i)) (kphys s);
       if r <? 0 then s ← freeproc kend np (set_phys m s); Ok (None, s) else fork_tail i np (set_phys m s)
   end).
Proof. unfold fork_copy, fork_tail, child_frame. cbv zeta. reflexivity. Qed.

(** The child's entry at the end. *)
Definition child_entry (pp : proc) (ofs : list Z) p : proc :=
  set_name (str_copy (name pp) 16) (set_cwd (cwd pp) (set_ofile ofs (set_sz (sz pp) p))).

Lemma fork_tail_run i np s :
  i <> np -> (np < length (procs s))%nat -> files_shared i s ->
  exists f ofs,
    fork_tail i np s = Ok (Some np, set_files f (setp np (child_entry (getp s i) ofs) (set_phys (with_mem
      (child_frame (pmem (kphys s)) (trapframe (getp s i)) (trapframe (getp s np))) (kphys s)) s))) /\
    shared NOFILE 0 (ofile (getp s i)) (ofile (getp s np)) ofs.
Proof.
  intros Hne Hlen (ok & Hok & Hdup & Hidup). unfold fork_tail.
  assert (Hn : getp (setp np (set_sz (sz (getp s i))) s) np = set_sz (sz (getp s i)) (getp s np))
    by (by apply getp_setp_eq).
  assert (Hi : getp (setp np (set_sz (sz (getp s i))) s) i = getp s i) by (by apply getp_setp_ne).
  rewrite Hn, Hi. cbn [trapframe set_sz]. change (kphys (setp np _ s)) with (kphys s).
  set (mm := with_mem _ _). set (s1 := set_phys mm _).
  assert (Hi1 : getp s1 i = getp s i) by exact Hi.
  assert (Hn1 : getp s1 np = set_sz (sz (getp s i)) (getp s np)) by exact Hn.
  destruct (fork_files_share NOFILE 0 i np s1 ok) as (x & ofs & -> & Hx & Hsh); auto.
  { change (np < length (procs (setp np (set_sz (sz (getp s i))) s)))%nat. by rewrite length_setp. }
  { by rewrite Hi1. }
  rewrite bind_Ok. rewrite Hi1, Hn1 in Hsh.
  assert (Hi2 : getp (setp np (set_ofile ofs) (set_files x s1)) i = getp s i)
    by (rewrite getp_setp_ne by done; exact Hi).
  rewrite Hi2. change (files (setp np (set_ofile ofs) (set_files x s1))) with x.
  destruct (Hidup x Hx) as (f & ->). rewrite bind_Ok. exists f, ofs. split; [|exact Hsh].
  change (set_files f (setp np (set_ofile ofs) (set_files x s1)))
    with (setp np (set_ofile ofs) (setp np (set_sz (sz (getp s i))) (set_files f (set_phys mm s)))).
  rewrite getp_setp_ne, !setp_twice by done. rewrite getp_setp_ne by done. reflexivity.
Qed.

Lemma fork_finish pool s (O : nat -> own) i s1 fl1 (O1 : nat -> own) np n tf pt m2 fl2 o2 :
  mem_inv pool s1 fl1 O1 -> others_kept s O s1 O1 -> (np < NPROC)%nat -> state (getp s np) = UNUSED ->
  state (getp s i) <> UNUSED -> files s1 = files s -> files_shared i s ->
  getp s1 np = fresh_entry n tf pt (getp s np) -> proc_held (kphys s1) fl1 (getp s1 i) (O1 i) ->
  proc_held m2 fl2 (set_sz (sz (getp s i)) (getp s1 np)) o2 ->
  (forall q, q ∈ fl2 \/ pages (set_sz (sz (getp s i)) (getp s1 np)) o2 q <->
     q ∈ fl1 \/ pages (getp s1 np) (O1 np) q) ->
  (forall x, (forall q, q ∈ fl1 \/ pages (getp s1 np) (O1 np) q -> outside x q) ->
     ld8 (pmem m2) x = ld8 (pmem (kphys s1)) x) ->
  exists s' O', fork_tail i np (set_phys m2 s1) = Ok (Some np, s') /\ mem_inv pool s' fl2 O' /\
    others_kept s O s' O' /\
    (exists ofs, getp s' np = child_entry (getp s i) ofs (getp s1 np) /\
       shared NOFILE 0 (ofile (getp s i)) (ofile (getp s np)) ofs) /\
    O' np = o2 /\
    kphys s' = with_mem (child_frame (pmem m2) (trapframe (getp s i)) (trapframe (getp s1 np))) m2.
Proof.
  intros Hm1 Hoth Hnp Hnu Hu Hf Hsh Hent Hheldi Hheld Hpart Hout.
  assert (Hne : i <> np) by congruence. destruct (Hoth i Hu) as (Hgi & HOi & Hbi).
  assert (Hlen : (np < length (procs s1))%nat) by (rewrite (mi_size _ _ _ _ Hm1); exact Hnp).
  destruct (fork_tail_run i np (set_phys m2 s1)) as (f & ofs & E & Hofs); [done|exact Hlen| |].
  { destruct Hsh as (ok & Hok & Hdup & Hidup). exists ok. cbn [files set_phys].
    change (getp (set_phys m2 s1) i) with (getp s1 i). rewrite Hgi, Hf. auto. }
  change (getp (set_phys m2 s1)) with (getp s1) in *. change (kphys (set_phys m2 s1)) with m2 in *.
  rewrite Hgi in *. set (mm := child_frame _ _ _) in *.
  destruct (child_frame_spec (pmem m2) (trapframe (getp s i)) (trapframe (getp s1 np))) as (Hwf & Hmm & _ & _).
  { apply (ki_wf kend m2 fl2), (pa_as _ _ _ _ _ _ _ _ _ (ph_as _ _ _ _ Hheld)). }
  fold mm in Hwf, Hmm.
  destruct (proc_held_tf m2 fl2 (set_sz (sz (getp s i)) (getp s1 np)) o2 mm Hheld) as (Hheld' & Hk' & _); auto.
  { apply (pa_as _ _ _ _ _ _ _ _ _ (ph_as _ _ _ _ Hheld)). }
  assert (Hsame : same_mem (set_sz (sz (getp s i)) (getp s1 np)) (child_entry (getp s i) ofs (getp s1 np)))
    by (unfold same_mem; auto).
  destruct (mem_update pool s1 fl1 O1 np (with_mem mm m2) fl2 (child_entry (getp s i) ofs) o2 Hm1 Hnp Hk')
    as [Hm' Hby].
  { eapply same_mem_ok; [exact Hsame|]. by right. }
  { intros q. rewrite (same_mem_pages _ _ _ _ Hsame). apply Hpart. }
  { intros x Hx. cbn [with_mem pmem]. rewrite Hmm; [by apply Hout|]. apply Hx, Hpart. right. left.
    split; [|reflexivity]. by destruct (held_root _ _ _ _ Hheld). }
  assert (Hget : getp (setp np (child_entry (getp s i) ofs) (set_phys (with_mem mm m2) s1)) np =
    child_entry (getp s i) ofs (getp s1 np)) by (by rewrite getp_setp_eq).
  eexists _, _. split; [exact E|]. split; [|split; [|split; [|split]]].
  - eapply mem_inv_ext; [exact Hm'|reflexivity..].
  - exact (others_then s O s1 O1 np _ _ o2 f Hoth Hnu Hby).
  - exists ofs. split; [exact Hget|]. rewrite Hent in Hofs. exact Hofs.
  - cbv beta. by rewrite decide_True.
  - reflexivity.
Qed.

Lemma same_free pool s fl O s' fl' O' :
  mem_inv pool s fl O -> mem_inv pool s' fl' O' -> (forall q, q ∈ fl' <-> q ∈ fl) -> fl' ≡ₚ fl.
Proof.
  intros Hm Hm' H. apply NoDup_Permutation; [apply (ki_nodup _ _ _ (mi_kalloc _ _ _ _ Hm'))|apply (ki_nodup _ _ _ (mi_kalloc _ _ _ _ Hm))|done].
Qed.

(** [fork_copy] makes the child, or returns what it took; it does not
    panic. *)
Lemma fork_copy_mem pool s fl O i :
  mem_inv pool s fl O -> state (getp s i) <> UNUSED -> pagetable (getp s i) <> 0 -> files_shared i s ->
  exists r s' fl' O', fork_copy kend trampoline forkret_addr i s = Ok (r, s') /\
    mem_inv pool s' fl' O' /\ others_kept s O s' O' /\
    match r with None => fl' ≡ₚ fl | Some np => forked i s O np s' O' end.
Proof.
  intros Hm Hu Hpt Hfs. rewrite fork_copy_eq.
  destruct (allocproc_mem pool s fl O Hm) as (r1 & s1 & fl1 & O1 & -> & Hm1 & Hoth1 & Hf1 & Hr1).
  rewrite bind_Ok. destruct r1 as [np|].
  2: { exists None, s1, fl1, O1. split_and!; auto. by eapply same_free; [..|apply Hr1]. }
  destruct Hr1 as (Hnp & Hnu & (tf & pt & Hent) & Hheld & _ & _ & Hback).
  assert (Hne : i <> np) by congruence. destruct (Hoth1 i Hu) as (Hgi & HOi & Hbi).
  assert (Hheldi : proc_held (kphys s1) fl1 (getp s1 i) (O1 i)) by (apply held_in with pool; [done|by rewrite Hgi]).
  assert (Hsz0 : sz (getp s1 np) = 0).
  { rewrite Hent. cbn. by destruct (unused_bare _ _ _ _ _ Hm Hnu) as (_ & _ & ? & _ & _). }
  destruct (uvmcopy_entries pool s1 fl1 O1 i np Hm1 Hne Hheldi Hheld Hsz0)
    as (r & m2 & fl2 & o2 & sz' & -> & Hr & Hheld2 & Hpart & Hout & Hcopy). rewrite bind_Ok.
  destruct Hr as [[-> ->]|[-> ->]]; cbn [Z.ltb Z.compare].
  2: { rewrite set_sz_same in Hheld2, Hpart.
    destruct (fork_undo pool s O s1 fl1 O1 np m2 fl2 o2) as (s' & fl' & O' & -> & Hm' & Hoth' & Hfree); auto.
    rewrite bind_Ok. exists None, s', fl', O'. split_and!; auto. eapply same_free; [done..|]. intros q. by rewrite Hfree, Hback. }
  rewrite Hgi in *.
  destruct (fork_finish pool s O i s1 fl1 O1 np (nextpid s) tf pt m2 fl2 o2)
    as (s' & O' & E & Hm' & Hoth' & (ofs & Hget & Hofs) & HO' & Hk'); auto.
  { by rewrite Hgi. }
  exists (Some np), s', fl2, O'. split; [exact E|]. split; [exact Hm'|]. split; [exact Hoth'|].
  destruct (child_frame_spec (pmem m2) (trapframe (getp s i)) (trapframe (getp s1 np))) as (Hwf & Hmm & Hregs & Ha0).
  { apply (ki_wf kend m2 fl2), (pa_as _ _ _ _ _ _ _ _ _ (ph_as _ _ _ _ Hheld2)). }
  destruct (proc_held_tf m2 fl2 (set_sz (sz (getp s i)) (getp s1 np)) o2
    (child_frame (pmem m2) (trapframe (getp s i)) (trapframe (getp s1 np))) Hheld2)
    as (_ & _ & Hub & Htr); [apply (pa_as _ _ _ _ _ _ _ _ _ (ph_as _ _ _ _ Hheld2))|exact Hwf|exact Hmm|].
  assert (Hsz : 0 <= sz (getp s i) <= TRAPFRAME) by apply Hheld2.
  assert (Hw : forall w, 0 <= w / 4096 < pgno (sz (getp s i)) -> 0 <= w < MAXVA).
  { intros w Hw. rewrite MAXVA_eq, TRAPFRAME_eq in *. unfold pgno in Hw. zlia. }
  split; rewrite ?Hget, ?HO', ?Hk'; cbn [with_mem pmem]; auto.
  - split_and!; auto. rewrite Hent. reflexivity.
  - rewrite Hent. by split_and!.
  - intros w Hw'. rewrite Hub. destruct (Hcopy w Hw') as [-> _]. rewrite HOi. by apply (same_ubyte (getp s i)).
  - intros w Hw'. destruct (Hcopy w Hw') as (_ & e & e' & He & He' & Hfl). exists e, e'. split_and!; auto.
    + rewrite <- He. symmetry. apply (same_translate (getp s i) (O i) (kphys s) (kphys s1) fl); auto.
      by apply held_in with pool.
    + rewrite <- He'. apply Htr. auto.
  - intros k Hk Hk2. rewrite Hregs by done. change (trapframe (set_sz _ _)) with (trapframe (getp s1 np)) in *.
    destruct (Hoth' i Hu) as (Hg' & HOi' & Hbytes). destruct (held_root _ _ _ _ Hheldi) as [_ Htfi].
    assert (Htp : pages (getp s i) (O i) (trapframe (getp s i))) by (by left).
    rewrite <- (Hbytes (trapframe (getp s i))), Hk' by (auto; unfold tf_size in Hk; unfold PGSIZE; lia).
    cbn [with_mem pmem]. rewrite Hmm; [done|].
    apply (pages_outside (kphys s) fl (getp s i) (O i) (trapframe (getp s i))); auto.
    + apply (mi_proc _ _ _ _ Hm).
    + unfold tf_size in Hk. unfold PGSIZE. lia.
    + apply Hheld2.
    + intros Heq. apply Hne, (mi_disj _ _ _ _ Hm' i np (trapframe (getp s i))); [by rewrite Hg', HOi'|].
      left. rewrite Hget. split; [|exact (eq_sym Heq)]. change (trapframe (getp s1 np) <> 0). congruence.
Qed.

End ProcMem.
