(* ===== verification/ProcMemProps.v ===== *)
(** * The memory of processes over whole runs

    [growproc] and [wait] keep the ownership invariant of ProcMem.v, like
    [fork]; the theorems at the end are about [fork] and about every sequence
    of steps that processes take after [userinit]. *)
From S2P Require Import Prelude Cstring Riscv Kalloc Vm VmTheory UvmTheory CopyTheory UvmProps UvmFree Block Proc.
From S2P Require Import ProcTheory ProcInv ProcMem.

Lemma NPROC_pos : (0 < NPROC)%nat.
Proof. unfold NPROC. lia. Qed.

#[local] Opaque NPROC.

Section Run.
Context {F : Type} {HF : FileLayer F}.
Variables (kend trampoline forkret_addr : Z).
Hypothesis Hkend : 0 < kend.
Hypothesis Htramp : kernel_page trampoline.
Abbreviation kst := (kstate F).
Abbreviation mem_inv := (mem_inv kend trampoline).
Abbreviation proc_held := (proc_held kend trampoline).
Implicit Types (s : kst) (m : phys) (fl : list Z) (p : proc) (o : own).

(** ** [growproc] *)

(** The user pages of a process are distinct frames, so its size is bounded
    by the size of physical memory. *)
Lemma frames_bound (M : gmap Z Z) n :
  0 <= n -> (forall i, 0 <= i < n -> exists f, M !! i = Some f /\ page_ok kend f) ->
  (forall v v' f, M !! v = Some f -> M !! v' = Some f -> v = v') -> n <= PHYSTOP / 4096.
Proof.
  intros Hn Hin Hinj.
  set (l := (fun i => default 0 (M !! i) / 4096) <$> seqZ 0 n).
  assert (Hl : forall i, 0 <= i < n -> exists f, M !! i = Some f /\ 0 <= f / 4096 < PHYSTOP / 4096 /\ f = f / 4096 * 4096).
  { intros i Hi. destruct (Hin i Hi) as (f & Hf & Hok). exists f. split; [done|].
    destruct (page_ok_bounds kend Hkend f Hok) as (? & ? & ?). rewrite PHYSTOP_eq. split; zlia. }
  assert (Hnd : NoDup l).
  { apply NoDup_fmap_2_strong; [|apply NoDup_seqZ]. intros i j Hi Hj E.
    apply elem_of_seqZ in Hi, Hj. destruct (Hl i) as (f & Hf & _ & Ef); [lia|].
    destruct (Hl j) as (g & Hg & _ & Eg); [lia|]. rewrite Hf, Hg in E. cbn in E.
    apply (Hinj i j f); [done|]. rewrite Hg. f_equal. lia. }
  assert (Hsub : l ⊆+ seqZ 0 (PHYSTOP / 4096)).
  { apply NoDup_submseteq; [done|]. intros x (i & -> & Hi)%list_elem_of_fmap. apply elem_of_seqZ in Hi.
    destruct (Hl i) as (f & -> & Hr & _); [lia|]. cbn. apply elem_of_seqZ. lia. }
  apply submseteq_length in Hsub. unfold l in Hsub. rewrite length_fmap, !length_seqZ in Hsub.
  rewrite PHYSTOP_eq in *. change (2281701376 / 4096) with 557056 in *. lia.
Qed.

Lemma held_small m fl p o : proc_held m fl p o -> 0 <= sz p <= PHYSTOP.
Proof.
  intros [_ [Has Hdom _ _ _] Hsz _ _ _ _]. split; [lia|].
  assert (pgno (sz p) <= PHYSTOP / 4096) as Hb.
  { apply (frames_bound (o_map o)).
    - unfold pgno. zlia.
    - intros i Hi. destruct (proj2 (Hdom i) Hi) as [f Hf]. exists f. split; [done|].
      by destruct (ai_frame _ _ _ _ _ _ Has i f Hf).
    - apply Has. }
  rewrite PHYSTOP_eq in *. unfold pgno in Hb. zlia.
Qed.

(** The entry after its pages above [sz'] have been freed. *)
Lemma proc_held_shrunk m fl p o sz' m' frs :
  proc_held m fl p o -> 0 <= sz' <= sz p ->
  let n := Z.to_nat (pgno (sz p) - pgno sz') in
  as_inv kend m' (frs ++ fl) (pagetable p) (o_tab o) (del_range (pgno sz') n (o_map o)) ->
  (forall f, f ∈ frs <-> exists i, pgno sz' <= i < pgno (sz p) /\ o_map o !! i = Some f) ->
  (forall w, 0 <= w < MAXVA -> translate (pmem m') (pagetable p) w =
     if decide (pgno sz' <= w / 4096 < pgno (sz p)) then None else translate (pmem m) (pagetable p) w) ->
  let o' := Own (o_tab o) (del_range (pgno sz') n (o_map o)) in
  proc_held m' (frs ++ fl) (set_sz sz' p) o' /\
  (forall q, q ∈ frs ++ fl \/ pages (set_sz sz' p) o' q <-> q ∈ fl \/ pages p o q).
Proof.
  intros [Hu [Has Hdom Ht1 Ht2 Honly] Hsz Htf H1 H2 H3] Hsz' n Has' Hfrs Htr o'.
  rewrite TRAPFRAME_eq in Hsz.
  assert (Hpg : 0 <= pgno sz' <= pgno (sz p) /\ pgno (sz p) <= 67108862) by (unfold pgno; zlia).
  destruct top_pages as (HT1 & HT2 & HT3 & HT4).
  assert (Hlook : forall i, del_range (pgno sz') n (o_map o) !! i =
    if decide (pgno sz' <= i < pgno (sz p)) then None else o_map o !! i).
  { intros i. rewrite lookup_del_range. unfold n. by replace (pgno sz' + Z.of_nat (Z.to_nat (pgno (sz p) - pgno sz'))) with (pgno (sz p)) by lia. }
  split.
  - split; cbn [state pagetable trapframe sz set_sz o_tab o_map]; auto; [split; auto|rewrite TRAPFRAME_eq; lia|..].
    + intros i. rewrite Hlook. case_decide as Hd; [|rewrite Hdom; lia].
      split; [by intros [? ?]|lia].
    + rewrite Htr, decide_False by (auto; lia). done.
    + rewrite Htr, decide_False by (auto; lia). done.
    + intros w Hw Hw1 Hw2 HM. rewrite Htr by done. case_decide as Hd; [done|].
      apply Honly; auto. by rewrite Hlook, decide_False in HM.
    + rewrite elem_of_app, Hfrs. intros [(i & _ & Hi)|?]; [by apply (H3 i)|done].
    + intros v. rewrite Hlook. case_decide; [done|]. apply H3.
  - intros q. unfold pages, o'. cbn [trapframe set_sz o_tab o_map]. rewrite elem_of_app, Hfrs. split.
    + intros [[(i & _ & Hi)|?]|[?|[?|[v Hv]]]]; eauto. rewrite Hlook in Hv. case_decide; [done|]. eauto 6.
    + intros [?|[?|[?|[v Hv]]]]; auto. destruct (decide (pgno sz' <= v < pgno (sz p))); [left; left; eauto|].
      right; right; right. exists v. by rewrite Hlook, decide_False.
Qed.

(** Every entry but [i] is as it was. *)
Definition kept_but i s (O : nat -> own) s' (O' : nat -> own) : Prop :=
  forall j, j <> i -> getp s' j = getp s j /\ O' j = O j /\ same_bytes (getp s j) (O j) (kphys s) (kphys s').

(** Entry [i] becomes [f] of itself and owns [o']. *)
Lemma entry_update pool s fl O i m' fl' f o' :
  mem_inv pool s fl O -> (i < NPROC)%nat -> proc_held m' fl' (f (getp s i)) o' ->
  (forall q, q ∈ fl' \/ pages (f (getp s i)) o' q <-> q ∈ fl \/ pages (getp s i) (O i) q) ->
  (forall x, (forall q, q ∈ fl \/ pages (getp s i) (O i) q -> outside x q) ->
     ld8 (pmem m') x = ld8 (pmem (kphys s)) x) ->
  exists O', mem_inv pool (setp i f (set_phys m' s)) fl' O' /\ kept_but i s O (setp i f (set_phys m' s)) O' /\
    O' i = o' /\ getp (setp i f (set_phys m' s)) i = f (getp s i).
Proof.
  intros Hm Hi Hh Hpart Hout.
  destruct (mem_update kend trampoline Hkend pool s fl O i m' fl' f o' Hm Hi) as [Hm' Hby]; auto.
  { apply (pa_as _ _ _ _ _ _ _ _ _ (ph_as _ _ _ _ _ _ Hh)). }
  { by right. }
  eexists. split; [exact Hm'|]. split_and!.
  - intros j Hj. rewrite getp_setp_ne, decide_False by done. split_and!; auto.
  - cbv beta. by rewrite decide_True.
  - rewrite getp_setp_eq by (cbn; rewrite (mi_size _ _ _ _ _ _ Hm); exact Hi). reflexivity.
Qed.

Lemma held_index pool s fl O i : mem_inv pool s fl O -> pagetable (getp s i) <> 0 ->
  (i < NPROC)%nat /\ proc_held (kphys s) fl (getp s i) (O i).
Proof.
  intros Hm Hp. split; [|by apply held_in with pool].
  destruct (decide (i < NPROC)%nat); [done|]. rewrite getp_beyond in Hp; [done|].
  rewrite (mi_size _ _ _ _ _ _ Hm). lia.
Qed.

(** [sbrk] of a positive amount. *)
Lemma grow_up pool s fl O i n :
  mem_inv pool s fl O -> pagetable (getp s i) <> 0 -> 0 < n < 2147483648 ->
  exists r s' fl' O', growproc kend i n s = Ok (r, s') /\ mem_inv pool s' fl' O' /\ kept_but i s O s' O' /\
    (r = 0 /\ sz (getp s' i) = sz (getp s i) + n \/ r = -1 /\ sz (getp s' i) = sz (getp s i)) /\
    (forall w, 0 <= w / 4096 < pgno (sz (getp s i)) ->
       ubyte (pmem (kphys s')) (o_map (O' i)) w = ubyte (pmem (kphys s)) (o_map (O i)) w) /\
    (forall w, pgno (sz (getp s i)) <= w / 4096 < pgno (sz (getp s' i)) ->
       ubyte (pmem (kphys s')) (o_map (O' i)) w = Some 0).
Proof.
  intros Hm Hp Hn. destruct (held_index pool s fl O i Hm Hp) as [Hi Hh]. set (p := getp s i) in *.
  pose proof (held_small _ _ _ _ Hh) as Hsz. pose proof (pa_as _ _ _ _ _ _ _ _ _ (ph_as _ _ _ _ _ _ Hh)) as Has.
  rewrite PHYSTOP_eq in Hsz. unfold growproc. fold p.
  destruct (Z.ltb_spec 0 n) as [_|?]; [|lia]. rewrite u64_id by lia.
  destruct (uvmalloc_run kend Hkend (kphys s) fl (pagetable p) (o_tab (O i)) (o_map (O i)) (sz p) (sz p + n) PTE_W Has)
    as (r & m' & fl' & G' & M' & -> & Hr); [lia|rewrite MAXVA_eq; lia|unfold PTE_W; lia| |].
  { intros w Hw. unfold pgno in Hw. apply (pa_only _ _ _ _ _ _ _ _ _ (ph_as _ _ _ _ _ _ Hh)); [rewrite MAXVA_eq; zlia|zlia|zlia|].
    destruct (o_map (O i) !! (w / 4096)) as [f|] eqn:Ef; [|done].
    assert (0 <= w / 4096 < pgno (sz p)) as Hc by (apply (pa_dom _ _ _ _ _ _ _ _ _ (ph_as _ _ _ _ _ _ Hh)); by eexists).
    unfold pgno in Hc. lia. }
  rewrite bind_Ok.
  assert (Hcase : exists sz', (r = 0 /\ sz' = sz p \/ r <> 0 /\ r = sz' /\ sz' = sz p + n) /\
    grown kend (kphys s) fl (pagetable p) (o_tab (O i)) (o_map (O i)) (pgno (sz p)) (fun _ => Z.lor (Z.lor PTE_R PTE_U) PTE_W)
      (fun _ _ => 0) (pgno sz' - pgno (sz p)) m' fl' G' M').
  { destruct Hr as [[-> Hg]|[-> Hg]]; [exists (sz p + n)|exists (sz p); rewrite Z.sub_diag]; (split; [|exact Hg]); [right|left]; lia. }
  destruct Hcase as (sz' & Hr' & Hg). assert (Hle : sz p <= sz' <= sz p + n) by lia.
  destruct (proc_held_grown kend trampoline (kphys s) fl p (O i) _ _ _ m' fl' G' M' sz' Hh Hg) as (Hh' & Hpart & Hout).
  { unfold pgno. zlia. } { lia. } { rewrite TRAPFRAME_eq. lia. }
  destruct (entry_update pool s fl O i m' fl' (set_sz sz') (Own G' M') Hm Hi Hh' Hpart Hout) as (O' & Hm' & Hkept & HO' & Hget).
  exists (if decide (r = 0) then -1 else 0), (setp i (set_sz sz') (set_phys m' s)), fl', O'.
  rewrite HO', Hget. split_and!; auto.
  - destruct Hr' as [[-> ->]|(Hr0 & <- & _)].
    + cbn [Z.eqb]. rewrite decide_True by done. do 2 f_equal. symmetry. apply setp_id.
      change (getp (set_phys m' s) i) with p. apply set_sz_same.
    + rewrite (proj2 (Z.eqb_neq r 0) Hr0), decide_False by done. reflexivity.
  - cbn [sz set_sz]. destruct Hr' as [[-> ->]|(Hr0 & _ & ->)].
    + right. split; [by rewrite decide_True|reflexivity].
    + left. split; [by rewrite decide_False|reflexivity].
  - intros w Hw. cbn [o_map kphys setp set_phys].
    apply (grown_keeps kend _ _ _ _ _ _ _ _ _ _ _ _ _ Has Hg); [|lia].
    rewrite MAXVA_eq. unfold pgno in Hw. zlia.
  - intros w Hw. cbn [o_map kphys setp set_phys sz set_sz] in *.
    by destruct (grown_new_page kend _ _ _ _ _ _ _ _ _ _ _ _ _ w Hg) as [-> _]; [lia|].
Qed.

Lemma setp_sz_same m s i : setp i (set_sz (sz (getp s i))) (set_phys m s) = set_phys m s.
Proof. apply setp_id. change (getp (set_phys m s) i) with (getp s i). apply set_sz_same. Qed.

Lemma kept_refl i s O : kept_but i s O s O.
Proof. by intros j _. Qed.

(** [sbrk] of a negative amount; more than the size changes nothing. *)
Lemma grow_down pool s fl O i n :
  mem_inv pool s fl O -> pagetable (getp s i) <> 0 -> -2147483648 <= n <= 0 ->
  exists s' fl' O', growproc kend i n s = Ok (0, s') /\ mem_inv pool s' fl' O' /\ kept_but i s O s' O' /\
    sz (getp s' i) = (if decide (0 <= sz (getp s i) + n) then sz (getp s i) + n else sz (getp s i)) /\
    (forall w, 0 <= w / 4096 < pgno (sz (getp s' i)) ->
       ubyte (pmem (kphys s')) (o_map (O' i)) w = ubyte (pmem (kphys s)) (o_map (O i)) w).
Proof.
  intros Hm Hp Hn. destruct (held_index pool s fl O i Hm Hp) as [Hi Hh].
  pose proof (held_small _ _ _ _ Hh) as Hsz. pose proof (pa_as _ _ _ _ _ _ _ _ _ (ph_as _ _ _ _ _ _ Hh)) as Has.
  rewrite PHYSTOP_eq in Hsz. unfold growproc.
  assert (Hsame : exists s' fl' O', Ok (0, s) = Ok (0, s') /\ mem_inv pool s' fl' O' /\ kept_but i s O s' O' /\
    sz (getp s' i) = sz (getp s i) /\ (forall w, 0 <= w / 4096 < pgno (sz (getp s' i)) ->
       ubyte (pmem (kphys s')) (o_map (O' i)) w = ubyte (pmem (kphys s)) (o_map (O i)) w)).
  { exists s, fl, O. split_and!; auto using kept_refl. }
  destruct (Z.ltb_spec 0 n); [lia|]. destruct (Z.ltb_spec n 0) as [Hneg|Hz].
  2: { change (setp i (set_sz (sz (getp s i))) s) with (setp i (set_sz (sz (getp s i))) (set_phys (kphys s) s)).
    rewrite setp_sz_same, decide_True by lia. replace (sz (getp s i) + n) with (sz (getp s i)) by lia.
    destruct s. exact Hsame. }
  destruct (decide (0 <= sz (getp s i) + n)) as [Hd|Hd].
  2: { unfold uvmdealloc. replace (u64 (sz (getp s i) + n)) with (sz (getp s i) + n + 18446744073709551616)
      by (unfold u64; zlia). destruct (Z.leb_spec (sz (getp s i)) (sz (getp s i) + n + 18446744073709551616)); [|lia].
    rewrite bind_Ok, setp_sz_same. destruct s. exact Hsame. }
  clear Hsame. rewrite u64_id by lia. set (p := getp s i) in *. set (sz' := sz p + n) in *.
  destruct (uvmdealloc_run kend Hkend (kphys s) fl (pagetable p) (o_tab (O i)) (o_map (O i)) (sz p) sz' Has)
    as (m' & frs & E & Has' & Hfrs & Htr & Hout); [lia|rewrite MAXVA_eq; lia| |].
  { intros k Hk. apply (pa_dom _ _ _ _ _ _ _ _ _ (ph_as _ _ _ _ _ _ Hh)). unfold pgno in *. zlia. }
  rewrite E, bind_Ok.
  destruct (proc_held_shrunk (kphys s) fl p (O i) sz' m' frs Hh ltac:(lia) Has' Hfrs Htr) as [Hh' Hpart].
  destruct (entry_update pool s fl O i m' (frs ++ fl) (set_sz sz') _ Hm Hi Hh' Hpart) as (O' & Hm' & Hkept & HO' & Hget).
  { intros x Hx. apply Hout. intros q [Hq|Hq]; apply Hx; [right; right; by left|].
    apply Hpart. left. apply elem_of_app. by left. }
  exists (setp i (set_sz sz') (set_phys m' s)), (frs ++ fl), O'. rewrite HO', Hget. split_and!; auto.
  intros w Hw. cbn [o_map kphys setp set_phys sz set_sz] in *. unfold ubyte.
  rewrite lookup_del_range, decide_False by (unfold pgno in *; zlia).
  destruct (o_map (O i) !! (w / 4096)) as [f|] eqn:Ef; [|done]. cbn [mbind option_bind]. f_equal.
  apply Hout. intros q Hq. destruct (ai_frame _ _ _ _ _ _ Has _ _ Ef) as (Hok & Hnf & HnG).
  apply (page_disjoint kend f q); auto; [| |unfold PGSIZE; zlia].
  - destruct Hq as [Hq|Hq]; [eapply free_or_table; [exact Has|by right]|].
    apply Hfrs in Hq as (k & _ & Hk). by destruct (ai_frame _ _ _ _ _ _ Has _ _ Hk).
  - intros ->. destruct Hq as [Hq|(k & Hk & Hk')%Hfrs]; [done|].
    pose proof (ai_inj _ _ _ _ _ _ Has _ _ _ Ef Hk'). lia.
Qed.

(** ** [wait] *)

(** A held entry keeps its page table when its user memory is written. *)
Lemma held_write m m' fl p o :
  proc_held m fl p o -> as_inv kend m' fl (pagetable p) (o_tab o) (o_map o) ->
  (forall w, 0 <= w < MAXVA -> translate (pmem m') (pagetable p) w = translate (pmem m) (pagetable p) w) ->
  proc_held m' fl p o.
Proof.
  intros [Hu [Has Hdom Ht1 Ht2 Honly] Hsz Htf H1 H2 H3] Has' Htr.
  destruct top_pages as (HT1 & _ & HT3 & _). split; auto. split; auto; [by rewrite Htr..|].
  intros w Hw. rewrite Htr by done. by apply Honly.
Qed.

(** A process's memory changes within its own pages. *)
Lemma own_write pool s fl O i m' :
  mem_inv pool s fl O -> pagetable (getp s i) <> 0 ->
  as_inv kend m' fl (pagetable (getp s i)) (o_tab (O i)) (o_map (O i)) ->
  (forall w, 0 <= w < MAXVA ->
     translate (pmem m') (pagetable (getp s i)) w = translate (pmem (kphys s)) (pagetable (getp s i)) w) ->
  (forall x, (forall v f, o_map (O i) !! v = Some f -> outside x f) -> ld8 (pmem m') x = ld8 (pmem (kphys s)) x) ->
  exists O', mem_inv pool (set_phys m' s) fl O' /\ kept_but i s O (set_phys m' s) O' /\ O' i = O i.
Proof.
  intros Hm Hp Has' Htr Hout. destruct (held_index pool s fl O i Hm Hp) as [Hi Hh].
  pose proof (held_write (kphys s) m' fl (getp s i) (O i) Hh Has' Htr) as Hh'.
  destruct (entry_update pool s fl O i m' fl (fun p => p) (O i) Hm Hi Hh') as (O' & Hm' & Hkept & HO' & _); [done| |].
  { intros x Hx. apply Hout. intros v f Hv. apply Hx. right. right. right. eauto. }
  exists O'. rewrite setp_id in Hm', Hkept by done. auto.
Qed.

Lemma copyout_mem pool s fl O i addr src :
  mem_inv pool s fl O -> pagetable (getp s i) <> 0 -> 0 <= addr < 18446744073709551616 ->
  exists r m' O', copyout (pagetable (getp s i)) addr src (kphys s) = Ok (r, m') /\
    mem_inv pool (set_phys m' s) fl O' /\ kept_but i s O (set_phys m' s) O' /\ O' i = O i.
Proof.
  intros Hm Hp Ha. destruct (held_index pool s fl O i Hm Hp) as [Hi Hh].
  pose proof (pa_as _ _ _ _ _ _ _ _ _ (ph_as _ _ _ _ _ _ Hh)) as Has.
  destruct (copyout_loop_run kend Hkend (length src) addr src (kphys s) fl _ _ _ Has Ha) as (r & m' & k & E & Hc & _); [lia|].
  destruct Hc as [C1 C2 _ C4].
  destruct (own_write pool s fl O i m' Hm Hp C1 C2 C4) as (O' & Hm' & Hkept & HO'). by exists r, m', O'.
Qed.

Lemma freeproc_mem pool s fl O j :
  mem_inv pool s fl O -> (j < NPROC)%nat ->
  exists s' fl' O', freeproc kend j s = Ok s' /\ mem_inv pool s' fl' O' /\ kept_but j s O s' O' /\
    getp s' j = wiped (getp s j).
Proof.
  intros Hm Hj. destruct (freeproc_run kend trampoline Hkend Htramp s fl j (O j)) as (m' & fl' & E & Hk' & Hfl' & Hm').
  { rewrite (mi_size _ _ _ _ _ _ Hm). exact Hj. }
  { apply Hm. }
  { destruct (mi_proc _ _ _ _ _ _ Hm j) as [(? & ? & _ & ? & _)|?]; [left|by right]. split; auto. }
  assert (Hb : proc_bare (wiped (getp s j)) no_own) by (split_and!; reflexivity).
  destruct (mem_update kend trampoline Hkend pool s fl O j m' fl' wiped no_own Hm Hj Hk') as [Hm2 Hby].
  { by left. }
  { intros q. rewrite <- Hfl'. pose proof (bare_pages _ _ q Hb). tauto. }
  { intros x Hx. apply Hm'. intros q Hq. apply Hx. by right. }
  eexists _, fl', _. split; [exact E|]. split; [exact Hm2|]. split.
  - intros k Hk. rewrite getp_setp_ne, decide_False by done. split_and!; auto.
  - rewrite getp_setp_eq by (cbn; rewrite (mi_size _ _ _ _ _ _ Hm); exact Hj). reflexivity.
Qed.

Lemma wait_scan_mem pool i addr k : forall pp hk s fl O,
  mem_inv pool s fl O -> pagetable (getp s i) <> 0 -> 0 <= addr < 18446744073709551616 ->
  exists r s' fl' O', wait_scan kend k pp i addr hk s = Ok (r, s') /\ mem_inv pool s' fl' O'.
Proof.
  induction k as [|k IH]; intros pp hk s fl O Hm Hp Ha; cbn [wait_scan].
  { by exists (NoZombie hk), s, fl, O. }
  destruct (decide (parent (getp s pp) = Some i)) as [Hpar|_]; [|by apply (IH _ _ s fl O)].
  destruct (decide (state (getp s pp) = ZOMBIE)) as [Hz|_]; [|by apply (IH _ _ s fl O)].
  assert (Hpp : (pp < NPROC)%nat).
  { destruct (decide (pp < NPROC)%nat); [done|]. rewrite getp_beyond in Hpar; [done|].
    rewrite (mi_size _ _ _ _ _ _ Hm). lia. }
  assert (Hcopy : exists r m' O', (if negb (addr =? 0)
      then copyout (pagetable (getp s i)) addr (proc_time (getp s pp)) (kphys s) else Ok (0, kphys s)) = Ok (r, m') /\
    mem_inv pool (set_phys m' s) fl O').
  { destruct (addr =? 0); cbn [negb].
    - exists 0, (kphys s), O. split; [done|]. by destruct s.
    - destruct (copyout_mem pool s fl O i addr (proc_time (getp s pp)) Hm Hp Ha) as (r & m' & O' & E & Hm' & _).
      by exists r, m', O'. }
  destruct Hcopy as (r & m' & O' & -> & Hm'). rewrite bind_Ok. destruct (r <? 0).
  { by exists (Reaped (-1)), (set_phys m' s), fl, O'. }
  destruct (freeproc_mem pool (set_phys m' s) fl O' pp Hm' Hpp) as (s2 & fl2 & O2 & -> & Hm2 & _).
  rewrite bind_Ok. by exists (Reaped (pid (getp s pp))), s2, fl2, O2.
Qed.

(** ** Steps that leave memory alone *)

(** The entries keep their memory. *)
Definition keeps s s' : Prop :=
  kphys s' = kphys s /\ length (procs s') = length (procs s) /\ forall j, same_mem (getp s j) (getp s' j).

Lemma keeps_refl s : keeps s s.
Proof. split_and!; auto. intros j. by split_and!. Qed.

Lemma keeps_trans s s' s'' : keeps s s' -> keeps s' s'' -> keeps s s''.
Proof.
  intros (A1 & A2 & A3) (B1 & B2 & B3). split_and!; [congruence..|]. intros j.
  destruct (A3 j) as (? & ? & ? & E), (B3 j) as (? & ? & ? & E'). unfold same_mem. rewrite E', E. split_and!; done || congruence.
Qed.

Lemma keeps_setp s i f : same_mem (getp s i) (f (getp s i)) -> keeps s (setp i f s).
Proof.
  intros Hf. split_and!; [done|apply length_setp|]. intros j. destruct (decide (i = j)) as [->|Hj].
  - destruct (decide (j < length (procs s))%nat) as [Hl|Hl]; [by rewrite getp_setp_eq|].
    rewrite !getp_beyond by (rewrite ?length_setp; lia). by split_and!.
  - rewrite getp_setp_ne by done. by split_and!.
Qed.

Lemma mem_inv_keeps pool s s' fl O : mem_inv pool s fl O -> keeps s s' -> mem_inv pool s' fl O.
Proof.
  intros [H1 H2 H3 H4 H5] (K1 & K2 & K3). split; rewrite ?K1; auto; [congruence|..].
  - intros i. eapply same_mem_ok; [apply K3|apply H3].
  - intros i j q. rewrite !(same_mem_pages _ _ _ _ (K3 _)). apply H4.
  - intros q. rewrite H5. by setoid_rewrite (fun i => same_mem_pages _ _ (O i) q (K3 i)).
Qed.

Lemma keeps_used s s' i : keeps s s' -> state (getp s i) <> UNUSED -> state (getp s' i) <> UNUSED.
Proof. intros (_ & _ & K) Hu. destruct (K i) as (_ & _ & _ & E). by rewrite E. Qed.

(** A step that moves an entry from one state in use to another. *)
Lemma keeps_state s i f :
  state (getp s i) <> UNUSED ->
  (forall p, pagetable (f p) = pagetable p /\ trapframe (f p) = trapframe p /\ sz (f p) = sz p /\ state (f p) <> UNUSED) ->
  keeps s (setp i f s).
Proof. intros Hu Hf. apply keeps_setp. destruct (Hf (getp s i)) as (? & ? & ? & ?). by split_and!. Qed.

Lemma keeps_wakeup_loop k : forall j me ch now s, keeps s (wakeup_loop k j me ch now s).
Proof.
  induction k as [|k IH]; intros j me ch now s; cbn [wakeup_loop]; [apply keeps_refl|].
  eapply keeps_trans; [|apply IH]. destruct (decide (Some j = me)); [apply keeps_refl|].
  apply keeps_setp. unfold wake. repeat case_decide; try by split_and!.
  split_and!; auto. cbn. split; congruence.
Qed.

Lemma keeps_wakeup me ch now s : keeps s (wakeup me ch now s).
Proof. exact (keeps_wakeup_loop NPROC 0 me ch now s). Qed.

Lemma keeps_kill_loop k : forall j victim s, keeps s (kill_loop k j victim s).2.
Proof.
  induction k as [|k IH]; intros j victim s; cbn [kill_loop]; [apply keeps_refl|].
  destruct (pid (getp s j) =? victim); [|apply IH]. cbn [snd]. apply keeps_setp. cbn [state set_killed].
  case_decide; [|by split_and!]. split_and!; auto. cbn. split; congruence.
Qed.

Lemma keeps_reparent_loop k : forall pp i now s, keeps s (reparent_loop k pp i now s).
Proof.
  induction k as [|k IH]; intros pp i now s; cbn [reparent_loop]; [apply keeps_refl|].
  eapply keeps_trans; [|apply IH]. case_decide; [|apply keeps_refl].
  eapply keeps_trans; [|apply keeps_wakeup]. apply keeps_setp. by split_and!.
Qed.

Lemma keeps_exit_zombie i status now s : state (getp s i) <> UNUSED -> keeps s (exit_zombie i status now s).
Proof.
  intros Hu. unfold exit_zombie.
  assert (K : keeps s (wakeup (Some i) (chan_of (parent (getp (reparent i now s) i))) now (reparent i now s)))
    by (eapply keeps_trans; [exact (keeps_reparent_loop NPROC 0 i now s)|apply keeps_wakeup]).
  eapply keeps_trans; [exact K|]. apply keeps_state; [by eapply keeps_used|]. intros p. by split_and!.
Qed.

Lemma keeps_exit_files k : forall fd i s s', exit_files k fd i s = Ok s' -> keeps s s'.
Proof.
  induction k as [|k IH]; intros fd i s s'; cbn [exit_files]; [intros [= <-]; apply keeps_refl|].
  destruct (negb _); [|apply IH]. intros E. apply bind_ok in E as (x & _ & E).
  eapply keeps_trans; [|by eapply IH]. apply (keeps_setp (set_files x s)). by split_and!.
Qed.

Lemma keeps_exit_begin i now s s' : exit_begin i now s = Ok s' -> keeps s s'.
Proof.
  unfold exit_begin. destruct (decide (initproc s = Some i)); [done|]. destruct (negb _); intros [= <-]; [|apply keeps_refl].
  apply keeps_setp. by split_and!.
Qed.

Lemma keeps_exit_cwd i s s' : exit_cwd i s = Ok s' -> keeps s s'.
Proof.
  unfold exit_cwd. intros E. apply bind_ok in E as (x & _ & [= <-]). apply (keeps_setp (set_files x s)). by split_and!.
Qed.

Lemma keeps_scheduler rr fcfs prio now s i s' : scheduler rr fcfs prio now s = (Some i, s') -> keeps s s'.
Proof.
  unfold scheduler. destruct (select rr fcfs prio s) as [j|] eqn:Ej; [|done]. intros [= <- <-].
  apply select_runnable in Ej as [Hj _]. apply keeps_state; [congruence|]. intros p. by split_and!.
Qed.

(** ** The first process *)

Lemma procinit_bare k : forall i s,
  (forall j, proc_bare (getp s j) no_own) ->
  (forall j, proc_bare (getp (procinit_loop k i s) j) no_own) /\
  length (procs (procinit_loop k i s)) = length (procs s) /\ kphys (procinit_loop k i s) = kphys s /\
  files (procinit_loop k i s) = files s.
Proof.
  induction k as [|k IH]; intros i s Hs; cbn [procinit_loop]; [done|].
  set (s1 := setp i _ s). destruct (IH (S i) s1) as (A1 & A2 & A3 & A4).
  - intros j. unfold s1. destruct (decide (i = j)) as [->|Hj]; [|by rewrite getp_setp_ne].
    destruct (decide (j < length (procs s))%nat) as [Hl|Hl].
    + rewrite getp_setp_eq by done. destruct (Hs j) as (? & ? & ? & ? & ?). by split_and!.
    + rewrite getp_beyond by (rewrite length_setp; lia). by split_and!.
  - split_and!; auto. rewrite A2. apply length_setp.
Qed.

(** At the start every page is free. *)
Lemma procinit_mem m (f : F) fl :
  kalloc_inv kend m fl -> mem_inv (fun q => q ∈ fl) (procinit m f) fl (fun _ => no_own) /\
    files (procinit m f) = f /\ forall j, state (getp (procinit m f) j) = UNUSED.
Proof.
  intros Hk. destruct (procinit_bare NPROC 0 (KState (replicate NPROC proc0) 1 None m f)) as (A1 & A2 & A3 & A4).
  { intros j. unfold getp. cbn [procs]. destruct (replicate NPROC proc0 !! j) as [p|] eqn:E; [|by split_and!].
    apply lookup_replicate in E as [-> _]. by split_and!. }
  fold (procinit m f) in *. cbn [procs kphys files] in *. rewrite length_replicate in A2. split_and!; auto.
  - split; rewrite ?A3; auto.
    + intros i. by left.
    + intros i j q Hq. by destruct (bare_pages _ _ _ (A1 i) Hq).
    + intros q. split; [by left|]. intros [?|[i Hq]]; [done|]. by destruct (bare_pages _ _ _ (A1 i) Hq).
  - intros j. apply A1.
Qed.

(** [uvmfirst] maps one page with the code of init. *)
Lemma uvmfirst_run m fl p o :
  proc_held m fl p o -> sz p = 0 -> o_map o = ∅ -> (4 <= length fl)%nat ->
  exists m' fl' o', uvmfirst (pagetable p) initcode m = Ok m' /\ proc_held m' fl' (set_sz PGSIZE p) o' /\
    (forall q, q ∈ fl' \/ pages (set_sz PGSIZE p) o' q <-> q ∈ fl \/ pages p o q) /\
    (forall x, (forall q, q ∈ fl \/ pages p o q -> outside x q) -> ld8 (pmem m') x = ld8 (pmem m) x) /\
    (forall k, 0 <= k < 52 -> ubyte (pmem m') (o_map o') k = initcode !! Z.to_nat k).
Proof.
  intros Hh Hsz HM Hlen. destruct fl as [|f fl]; [cbn in Hlen; lia|].
  pose proof (pa_as _ _ _ _ _ _ _ _ _ (ph_as _ _ _ _ _ _ Hh)) as Has.
  set (perm := Z.lor (Z.lor (Z.lor PTE_W PTE_R) PTE_X) PTE_U).
  destruct (grown_step kend Hkend m (f :: fl) (pagetable p) (o_tab o) (o_map o) 0 1 (fun _ => perm) (fun _ _ => 0)) with
    (init := fun mm => memset mm f 0 PGSIZE) (k := 0) (s := m) (f := f) (fl := fl) (G := o_tab o) (M := o_map o)
    as (s1 & r & s2 & E1 & Hf0 & E2 & Hcase).
  { rewrite MAXVA_eq. zlia. }
  { intros w Hw. rewrite (pa_only _ _ _ _ _ _ _ _ _ (ph_as _ _ _ _ _ _ Hh)); auto; [rewrite MAXVA_eq; zlia|lia|lia|].
    by rewrite HM, lookup_empty. }
  { by apply grown_start. }
  { lia. }
  { unfold perm. vm_compute. split; congruence. }
  { unfold perm. vm_compute. congruence. }
  { intros mm Hmm _. split; [apply memset_wf; [done|unfold PGSIZE; lia]|].
    intros x. rewrite memset_spec by (unfold PGSIZE; lia). done. }
  destruct Hcase as [[-> (fl' & G' & M' & Hg & HMf)]|(_ & Hl & _)]; [|cbn in Hlen; lia].
  assert (Hh1 : proc_held s2 fl' (set_sz PGSIZE p) (Own G' M') /\
    (forall q, q ∈ fl' \/ pages (set_sz PGSIZE p) (Own G' M') q <-> q ∈ f :: fl \/ pages p o q) /\
    (forall x, (forall q, q ∈ f :: fl \/ pages p o q -> outside x q) -> ld8 (pmem s2) x = ld8 (pmem m) x)).
  { apply (proc_held_grown kend trampoline m (f :: fl) p o (fun _ => perm) (fun _ _ => 0) 1); auto; try lia.
    - by rewrite Hsz.
    - by rewrite Hsz.
    - rewrite TRAPFRAME_eq. unfold PGSIZE. lia. }
  destruct Hh1 as (Hh1 & Hpart & Hout).
  pose proof (g_as _ _ _ _ _ _ _ _ _ _ _ _ _ _ Hg) as Has2.
  destruct (store_user kend s2 fl' (pagetable p) G' M' 0 initcode f Has2 HMf) as (Has3 & Htr3 & Hub3 & Hout3); [done|].
  change (0 mod 4096) with 0 in *. rewrite Z.add_0_r in *.
  exists (with_mem (st_bytes (pmem s2) f initcode) s2), fl', (Own G' M'). split_and!; auto.
  - unfold uvmfirst. change (PGSIZE <=? Z.of_nat (length initcode)) with false. cbv iota.
    rewrite E1. cbv zeta. change (0 * 4096) with 0 in E2. fold perm. rewrite E2, bind_Ok. reflexivity.
  - by apply (held_write s2).
  - intros x Hx. cbn [with_mem pmem]. rewrite Hout3; [by apply Hout|]. apply Hx. left. apply elem_of_cons. by left.
  - intros k Hk. cbn [with_mem pmem o_map]. rewrite Hub3, decide_True by (change (Z.of_nat (length initcode)) with 52; lia).
    rewrite Z.sub_0_r. destruct (initcode !! Z.to_nat k) as [b|] eqn:Eb; [|done]. cbn. f_equal.
    assert (Hall : Forall (fun b => u8 b = b) initcode) by (repeat constructor).
    exact (proj1 (Forall_lookup _ _) Hall _ _ Eb).
Qed.

Lemma userinit_mem ticks now pool s fl O ip x :
  mem_inv pool s fl O -> find_unused NPROC 0 s <> None -> (10 <= length fl)%nat -> namei_root (files s) = Ok (ip, x) ->
  exists s' fl' O', userinit kend trampoline forkret_addr ticks now s = Ok s' /\ mem_inv pool s' fl' O'.
Proof.
  intros Hm Hun Hlen Hroot. unfold userinit.
  destruct (allocproc_mem kend trampoline forkret_addr Hkend Htramp pool s fl O Hm)
    as (r & s1 & fl1 & O1 & -> & Hm1 & _ & Hf1 & Hr).
  rewrite bind_Ok. destruct r as [i|]; [|destruct Hr as [[?|?] _]; [done|lia]].
  destruct Hr as (Hi & Hu & (tf & pt & Hent) & Hh & HM & Hl & _).
  assert (Hsz : sz (getp s1 i) = 0) by (rewrite Hent; by destruct (unused_bare _ _ _ _ _ _ _ Hm Hu) as (_ & _ & ? & _)).
  set (s2 := set_initproc (Some i) s1). change (getp s2 i) with (getp s1 i). change (kphys s2) with (kphys s1).
  destruct (uvmfirst_run (kphys s1) fl1 (getp s1 i) (O1 i) Hh Hsz HM) as (m2 & fl2 & o2 & -> & Hh2 & Hpart & Hout & _); [lia|].
  rewrite bind_Ok.
  destruct (entry_update pool s2 fl1 O1 i m2 fl2 (set_sz PGSIZE) o2) as (O3 & Hm3 & _ & HO3 & Hget3); auto.
  { by apply (mem_inv_ext _ _ pool s1). }
  set (s3 := setp i (set_sz PGSIZE) (set_phys m2 s2)) in *. change (kphys s3) with m2 in *.
  set (mm := st64 (st64 (pmem m2) (trapframe (getp s3 i) + tf_epc) 0) (trapframe (getp s3 i) + tf_sp) PGSIZE).
  assert (Hk2 : kalloc_inv kend m2 fl2) by apply (pa_as _ _ _ _ _ _ _ _ _ (ph_as _ _ _ _ _ _ Hh2)).
  assert (Hmm : forall y, outside y (trapframe (getp s3 i)) -> ld8 mm y = ld8 (pmem m2) y).
  { intros y Hy. unfold mm, outside, tf_epc, tf_sp, PGSIZE in *. rewrite !ld8_st64_other by lia. done. }
  change (set_sz PGSIZE (getp s2 i)) with (set_sz PGSIZE (getp s1 i)) in Hget3. rewrite <- Hget3 in Hh2.
  destruct (proc_held_tf kend trampoline m2 fl2 (getp s3 i) o2 mm Hh2 Hk2) as (Hh4 & _ & _); [|exact Hmm|].
  { unfold mm. apply st64_wf, st64_wf, Hk2. }
  destruct (entry_update pool s3 fl2 O3 i (with_mem mm m2) fl2 (fun p => p) o2 Hm3 Hi Hh4) as (O4 & Hm4 & _).
  { by rewrite HO3. }
  { intros y Hy. apply Hmm, Hy. right. left. split; [|done]. by apply (held_root _ _ Hkend _ _ _ _ Hh2). }
  rewrite setp_id in Hm4 by done. set (s4 := set_phys (with_mem mm m2) s3) in *.
  change (files (setp i (set_name _) s4)) with (files s1). rewrite Hf1, Hroot, bind_Ok.
  eexists _, fl2, O4. split; [reflexivity|]. eapply mem_inv_keeps; [exact Hm4|].
  assert (Hu4 : state (getp s4 i) <> UNUSED) by apply Hh2.
  assert (K5 : forall n, keeps s4 (setp i (set_cwd ip) (set_files x (setp i (set_name n) s4)))).
  { intros n. eapply keeps_trans; [apply (keeps_setp s4 i (set_name n)); by split_and!|].
    apply (keeps_setp (set_files x (setp i (set_name n) s4)) i (set_cwd ip)). by split_and!. }
  eapply keeps_trans; [apply K5|]. apply keeps_state; [|intros p; by split_and!].
  eapply keeps_used; [apply K5|exact Hu4].
Qed.

(** ** Runs *)

(** One step of some process, of the scheduler or of an interrupt, as far as
    it concerns memory: [fork], [sbrk], [exit], [wait] and sleeping cut into
    the segments of Proc.v; a store of the user to a page that the hardware
    lets it write, and a copy of the kernel to user memory. *)
Inductive mem_step : kst -> kst -> Prop :=
| ms_fork s i r s' :
    state (getp s i) = RUNNING -> files_shared i s -> fork_copy kend trampoline forkret_addr i s = Ok (r, s') ->
    mem_step s s'
| ms_link s i np : mem_step s (fork_link i np s)
| ms_start s np now : state (getp s np) = USED -> mem_step s (fork_start np now s)
| ms_grow s i n r s' :
    state (getp s i) = RUNNING -> -2147483648 <= n < 2147483648 -> growproc kend i n s = Ok (r, s') -> mem_step s s'
| ms_exit_begin s i now s' : exit_begin i now s = Ok s' -> mem_step s s'
| ms_exit_files s i s' : exit_files NOFILE 0 i s = Ok s' -> mem_step s s'
| ms_exit_cwd s i s' : exit_cwd i s = Ok s' -> mem_step s s'
| ms_exit s i status now : state (getp s i) = RUNNING -> mem_step s (exit_zombie i status now s)
| ms_wait s i addr r s' :
    state (getp s i) = RUNNING -> 0 <= addr < 18446744073709551616 -> wait kend i addr s = Ok (r, s') -> mem_step s s'
| ms_store s i w e b :
    state (getp s i) = RUNNING -> 0 <= w < MAXVA -> translate (pmem (kphys s)) (pagetable (getp s i)) w = Some e ->
    has e PTE_U = true -> has e PTE_W = true ->
    mem_step s (set_phys (with_mem (st8 (pmem (kphys s)) (PTE2PA e + w mod 4096) b) (kphys s)) s)
| ms_copyout s i addr l r m :
    state (getp s i) = RUNNING -> 0 <= addr < 18446744073709551616 ->
    copyout (pagetable (getp s i)) addr l (kphys s) = Ok (r, m) -> mem_step s (set_phys m s)
| ms_dispatch s rr fcfs prio now i s' : scheduler rr fcfs prio now s = (Some i, s') -> mem_step s s'
| ms_yield s i now : state (getp s i) = RUNNING -> mem_step s (yield i now s)
| ms_sleep s i ch : state (getp s i) = RUNNING -> mem_step s (sleep i ch s)
| ms_resume s i : mem_step s (sleep_resume i s)
| ms_wakeup s me ch now : mem_step s (wakeup me ch now s)
| ms_kill s victim : mem_step s (kill victim s).2
| ms_setkilled s i : mem_step s (setkilled i s).

Definition mem_ok pool s : Prop := exists fl O, mem_inv pool s fl O.

Lemma ok_keeps pool s s' : mem_ok pool s -> keeps s s' -> mem_ok pool s'.
Proof. intros (fl & O & Hm) K. exists fl, O. by eapply mem_inv_keeps. Qed.

(** A process in use has memory. *)
Lemma used_held pool s fl O i : mem_inv pool s fl O -> state (getp s i) <> UNUSED -> pagetable (getp s i) <> 0.
Proof.
  intros Hm Hu. destruct (mi_proc _ _ _ _ _ _ Hm i) as [(_ & _ & _ & _ & ?)|Hh]; [done|].
  by destruct (held_root _ _ Hkend _ _ _ _ Hh).
Qed.

Lemma store_mem pool s fl O i w e b :
  mem_inv pool s fl O -> pagetable (getp s i) <> 0 -> 0 <= w < MAXVA ->
  translate (pmem (kphys s)) (pagetable (getp s i)) w = Some e -> has e PTE_U = true ->
  mem_ok pool (set_phys (with_mem (st8 (pmem (kphys s)) (PTE2PA e + w mod 4096) b) (kphys s)) s).
Proof.
  intros Hm Hp Hw He HU. destruct (held_index pool s fl O i Hm Hp) as [Hi Hh].
  pose proof (pa_as _ _ _ _ _ _ _ _ _ (ph_as _ _ _ _ _ _ Hh)) as Has.
  pose proof (ai_user _ _ _ _ _ _ Has w e Hw He HU) as HM.
  destruct (store_user kend (kphys s) fl (pagetable (getp s i)) (o_tab (O i)) (o_map (O i)) w [b] _ Has HM)
    as (A1 & A2 & _ & A4); [cbn; zlia|].
  destruct (own_write pool s fl O i _ Hm Hp A1 A2) as (O' & Hm' & _); [|by exists fl, O'].
  intros x Hx. apply A4. by eapply Hx.
Qed.

Lemma grow_ok pool s fl O i n :
  mem_inv pool s fl O -> pagetable (getp s i) <> 0 -> -2147483648 <= n < 2147483648 ->
  exists r s', growproc kend i n s = Ok (r, s') /\ mem_ok pool s'.
Proof.
  intros Hm Hp Hn. destruct (decide (0 < n)).
  - destruct (grow_up pool s fl O i n Hm Hp) as (r & s' & fl' & O' & E & Hm' & _); [lia|].
    exists r, s'. split; [done|]. by exists fl', O'.
  - destruct (grow_down pool s fl O i n Hm Hp) as (s' & fl' & O' & E & Hm' & _); [lia|].
    exists 0, s'. split; [done|]. by exists fl', O'.
Qed.

Lemma wait_mem pool s fl O i addr :
  mem_inv pool s fl O -> state (getp s i) = RUNNING -> 0 <= addr < 18446744073709551616 ->
  exists r s', wait kend i addr s = Ok (r, s') /\ mem_ok pool s'.
Proof.
  intros Hm Hr Ha. assert (Hp : pagetable (getp s i) <> 0) by (apply (used_held pool s fl O); [done|congruence]).
  unfold wait. destruct (wait_scan_mem pool i addr NPROC 0 false s fl O Hm Hp Ha) as (r & s' & fl' & O' & E & Hm').
  rewrite E, bind_Ok. destruct r as [r|hk].
  { exists (Some r), s'. split; [done|]. by exists fl', O'. }
  destruct (negb hk || _).
  { exists (Some (-1)), s'. split; [done|]. by exists fl', O'. }
  exists None, (sleep i (ChProc i) s'). split; [done|].
  apply wait_scan_effect in E; [|rewrite (mi_size _ _ _ _ _ _ Hm); lia]. destruct E as [-> _].
  apply (ok_keeps pool s); [by exists fl, O|]. apply keeps_state; [congruence|]. intros p. by split_and!.
Qed.

Lemma mem_step_ok pool s s' : mem_ok pool s -> mem_step s s' -> mem_ok pool s'.
Proof.
  intros Hok Hst. pose proof Hok as (fl & O & Hm). destruct Hst.
  - destruct (fork_copy_mem kend trampoline forkret_addr Hkend Htramp pool s fl O i) as (r' & s2 & fl' & O' & E & Hm' & _);
      try done; [congruence|by eapply used_held; [|congruence]|].
    assert (s2 = s') as -> by congruence. by exists fl', O'.
  - eapply ok_keeps; [done|]. apply keeps_setp. by split_and!.
  - eapply ok_keeps; [done|]. apply keeps_state; [congruence|]. intros p. by split_and!.
  - destruct (grow_ok pool s fl O i n) as (r' & s2 & E & Hok'); try done; [by eapply used_held; [|congruence]|].
    by assert (s2 = s') as -> by congruence.
  - eapply ok_keeps; [done|]. by eapply keeps_exit_begin.
  - eapply ok_keeps; [done|]. by eapply keeps_exit_files.
  - eapply ok_keeps; [done|]. by eapply keeps_exit_cwd.
  - eapply ok_keeps; [done|]. apply keeps_exit_zombie. congruence.
  - destruct (wait_mem pool s fl O i addr) as (r' & s2 & E & Hok'); try done. by assert (s2 = s') as -> by congruence.
  - eapply store_mem; try done. eapply used_held; [done|congruence].
  - destruct (copyout_mem pool s fl O i addr l) as (r' & m' & O' & E & Hm' & _); try done; [by eapply used_held; [|congruence]|].
    assert (m' = m) as -> by congruence. by exists fl, O'.
  - eapply ok_keeps; [done|]. by eapply keeps_scheduler.
  - eapply ok_keeps; [done|]. apply keeps_state; [congruence|]. intros p. by split_and!.
  - eapply ok_keeps; [done|]. apply keeps_state; [congruence|]. intros p. by split_and!.
  - eapply ok_keeps; [done|]. apply keeps_setp. by split_and!.
  - eapply ok_keeps; [done|]. apply keeps_wakeup.
  - eapply ok_keeps; [done|]. exact (keeps_kill_loop NPROC 0 victim s).
  - eapply ok_keeps; [done|]. apply keeps_setp. by split_and!.
Qed.

End Run.

(** * The memory of processes: theorems

    What [fork] gives the child (ProcMem.v), and the ownership of the pages of
    memory in every run of the system after [userinit] (ProcMemProps.v). *)


Section Props.
Context {F : Type} {HF : FileLayer F}.
Variables (kend trampoline forkret_addr : Z).
Abbreviation kst := (kstate F).
Implicit Types (s : kst) (fl : list Z).

(** C25: [fork] copies the process.  In a state where every page of the pool
    is free or belongs to one process, [fork] of a running process does not
    panic, keeps the pages owned that way, and does not touch the entry, the
    pages or a byte of any process in use.  When it succeeds, the child is an
    entry that was unused, with the next pid; its page table maps the same
    addresses as its parent's with the same permissions, to pages of its own
    that hold the same bytes; the open files, the current directory and the
    name are the parent's; so are the saved registers, except [a0], which is
    0, so that [fork] returns 0 in the child.  When it fails, the free pages
    are those from before the call. *)
Theorem fork_copies pool s fl O i :
  0 < kend -> kernel_page trampoline -> mem_inv kend trampoline pool s fl O ->
  state (getp s i) = RUNNING -> files_shared i s ->
  exists r s' fl' O', fork_copy kend trampoline forkret_addr i s = Ok (r, s') /\
    mem_inv kend trampoline pool s' fl' O' /\ others_kept s O s' O' /\
    match r with None => fl' ≡ₚ fl | Some np => forked i s O np s' O' end.
Proof.
  intros Hk Ht Hm Hr Hf.
  apply fork_copy_mem; auto; [congruence|]. eapply used_held; [exact Hk|exact Hm|congruence].
Qed.


End Props.

(** ** Witnesses *)

(** The states of the run of ProcInv.v: sixteen pages of memory, no files. *)
#[local] Existing Instance no_files.

Lemma ok_inj {A} (a b : A) : Ok a = Ok b -> a = b.
Proof. by intros [= ->]. Qed.

Lemma pair_inj {A B} (a a' : A) (b b' : B) : (a, b) = (a', b') -> a = a' /\ b = b'.
Proof. by intros [= -> ->]. Qed.

Lemma demo_pages : exists fl, kalloc_inv demo_end demo_mem fl /\ (10 <= length fl)%nat.
Proof.
  destruct (kinit_ok demo_end) with (m := (∅ : mem)) as (s & l & E & Hinv & Hl).
  { by vm_compute. }
  { apply mem_wf_empty. }
  { by vm_compute. }
  exists l. unfold demo_mem. rewrite E. cbn [get_ok]. split; [exact Hinv|].
  transitivity (length (map (fun k => demo_end + Z.of_nat k * 4096) (seq 0 10))); [done|].
  apply submseteq_length, NoDup_submseteq.
  - apply (bool_decide_unpack _). vm_compute. reflexivity.
  - intros q (k & -> & Hk%elem_of_seq)%list_elem_of_fmap. apply Hl.
    unfold page_ok, demo_end. rewrite PHYSTOP_eq. unfold PGSIZE. split; [|lia]. zlia.
Qed.

Lemma demo_shared : files_shared 0 demo1.
Proof. exists (fun _ => True). split_and!; [done|..]; intros x; by exists x. Qed.

Lemma demo_steps : rtc (mem_step demo_end KERNBASE 0) demo0 demo2.
Proof.
  destruct demo_facts as (D0 & R1 & _).
  eapply rtc_l; [apply (ms_dispatch _ _ _ demo0 true false false 110 0)|].
  { rewrite <- D0. apply surjective_pairing. }
  apply rtc_once, (ms_fork _ _ _ demo1 0 (Some 1%nat)); [exact R1|exact demo_shared|exact demo_fork].
Qed.


Lemma demo_owned : exists pool, mem_ok demo_end KERNBASE pool demo1.
Proof.
  destruct demo_pages as (fl & Hinv & Hlen). exists (fun q => q ∈ fl).
  assert (Hk : 0 < demo_end) by (by vm_compute). assert (Ht : kernel_page KERNBASE) by (by vm_compute).
  destruct (procinit_mem demo_end KERNBASE demo_mem tt fl Hinv) as (Hm & Hf & Hu).
  destruct (userinit_mem demo_end KERNBASE 0 Hk Ht 5 100 _ _ _ _ 1 tt Hm) as (s0 & fl' & O' & E & Hm'); [|exact Hlen|done|].
  { intros Hn. apply (find_unused_none NPROC 0 (procinit demo_mem tt) 0 Hn); [|apply Hu]. split; [lia|apply NPROC_pos]. }
  rewrite demo_boot in E. apply ok_inj in E as <-. destruct demo_facts as (D0 & _).
  apply (mem_step_ok demo_end KERNBASE 0 Hk Ht _ demo0); [by exists fl', O'|].
  apply (ms_dispatch _ _ _ demo0 true false false 110 0). rewrite <- D0. apply surjective_pairing.
Qed.

(** The same fork makes entry 1 the child. *)
Lemma fork_copies_witness :
  exists pool fl O O', mem_inv demo_end KERNBASE pool demo1 fl O /\ forked 0 demo1 O 1 demo2 O'.
Proof.
  destruct demo_owned as (pool & fl & O & Hm). exists pool, fl, O.
  destruct (fork_copies demo_end KERNBASE 0 pool demo1 fl O 0) as (r & s' & fl' & O' & E & _ & _ & Hr).
  - by vm_compute.
  - by vm_compute.
  - exact Hm.
  - destruct demo_facts as (_ & R1 & _). exact R1.
  - exact demo_shared.
  - rewrite demo_fork in E. apply ok_inj, pair_inj in E as [<- <-]. exists O'. split; [exact Hm|exact Hr].
Defined.
