(* ===== verification/Datetime.v ===== *)
(** * kernel/datetime.c: the calendar

    [get_datetime] turns the timer's count into a date by subtracting years
    and months one after the other; the theorem compares it with the count of
    days of the Gregorian calendar in closed form.  [BOOT_EPOCH] is a
    parameter: the Makefile defines it from the clock of the build. *)
From S2P Require Import Prelude.

Module Datetime.

Definition EGYPT_TZ_OFFSET : Z := 2 * 3600.
Definition TIMER_FREQ : Z := 10000000.

Record rtcdate := Rtcdate { year : Z; month : Z; day : Z; hour : Z; minute : Z; second : Z }.

Definition is_leap (y : Z) : bool :=
  (Z.rem y 4 =? 0) && (negb (Z.rem y 100 =? 0) || (Z.rem y 400 =? 0)).

Definition days_in_month0 : list Z := [0; 31; 28; 31; 30; 31; 30; 31; 31; 30; 31; 30; 31].

(** The two loops, on [days] and the field that they advance. *)
Fixpoint year_loop (fuel : nat) (y days : Z) : outcome (Z * Z) :=
  let days_in_year := if is_leap y then 366 else 365 in
  if days <? days_in_year then Ok (y, days)
  else match fuel with
       | O => NoFuel
       | S f => year_loop f (s32 (y + 1)) (s32 (days - days_in_year))
       end.

(** Reading the array past its end is [Panic] in the model. *)
Fixpoint month_loop (fuel : nat) (tab : list Z) (m days : Z) : outcome (Z * Z) :=
  match tab !! Z.to_nat m with
  | None => Panic "days_in_month"
  | Some n =>
      if days <? n then Ok (m, days)
      else match fuel with
           | O => NoFuel
           | S f => month_loop f tab (s32 (m + 1)) (s32 (days - n))
           end
  end.

Definition get_datetime (BOOT_EPOCH mtime : Z) : outcome rtcdate :=
  let secs := u64 (mtime / TIMER_FREQ + BOOT_EPOCH) in
  let secs := u64 (secs + EGYPT_TZ_OFFSET) in
  let sec := s32 (secs mod 60) in
  let secs := secs / 60 in
  let min := s32 (secs mod 60) in
  let secs := secs / 60 in
  let hr := s32 (secs mod 24) in
  let days := s32 (secs / 24) in
  '(y, days) ← year_loop (Z.to_nat days) 1970 days;
  let tab := if is_leap y then <[2%nat := 29]> days_in_month0 else days_in_month0 in
  '(m, days) ← month_loop 12 tab 1 days;
  Ok (Rtcdate y m (s32 (days + 1)) hr min sec).

(** ** The calendar in closed form *)

(** Days from 1970-01-01 to the first of January of [y]. *)
Definition days_before_year (y : Z) : Z :=
  365 * (y - 1970) + ((y - 1) / 4 - (y - 1) / 100 + (y - 1) / 400) - 477.

Definition leap_year (y : Z) : Prop := y mod 4 = 0 /\ (y mod 100 <> 0 \/ y mod 400 = 0).

#[global] Instance leap_year_dec y : Decision (leap_year y).
Proof. unfold leap_year. apply _. Defined.

Definition month_length (y m : Z) : Z :=
  if decide (m = 2) then (if decide (leap_year y) then 29 else 28)
  else if decide (m = 4 \/ m = 6 \/ m = 9 \/ m = 11) then 30 else 31.

(** Days from the first of January to the first of month [m]. *)
Definition days_before_month (y m : Z) : Z :=
  (367 * m - 362) / 12 + (if decide (m <= 2) then 0 else if decide (leap_year y) then -1 else -2).

Definition days_of (y m d : Z) : Z := days_before_year y + days_before_month y m + (d - 1).

Definition seconds_of (x : rtcdate) : Z :=
  days_of (year x) (month x) (day x) * 86400 + hour x * 3600 + minute x * 60 + second x.

Definition valid_date (x : rtcdate) : Prop :=
  1970 <= year x /\ 1 <= month x <= 12 /\ 1 <= day x <= month_length (year x) (month x) /\
  0 <= hour x < 24 /\ 0 <= minute x < 60 /\ 0 <= second x < 60.

Lemma is_leap_spec y : 0 <= y -> is_leap y = bool_decide (leap_year y).
Proof.
  intros Hy. unfold is_leap, leap_year. rewrite !Z.rem_mod_nonneg by lia.
  apply eq_bool_prop_intro. rewrite bool_decide_spec, andb_True, orb_True, !Is_true_true, negb_true_iff, !Z.eqb_eq, Z.eqb_neq. done.
Qed.

Lemma year_length y : 0 <= y -> days_before_year (y + 1) = days_before_year y + if is_leap y then 366 else 365.
Proof.
  intros Hy. rewrite is_leap_spec by done. unfold days_before_year, leap_year. replace (y + 1 - 1) with y by lia.
  case_bool_decide as H; zlia.
Qed.

(** The year loop ends within [days] rounds at the year of the day. *)
Lemma year_loop_run fuel : forall y days,
  1970 <= y -> 0 <= days <= Z.of_nat fuel -> y + days < 2147483647 ->
  exists y' days', year_loop fuel y days = Ok (y', days') /\ y <= y' /\
    0 <= days' < (if is_leap y' then 366 else 365) /\ days_before_year y' + days' = days_before_year y + days.
Proof.
  induction fuel as [|f IH]; intros y days Hy Hd Hb; cbn [year_loop];
    (destruct (days <? _) eqn:E; bool_to_prop; [exists y, days; split_and!; lia || done|]).
  { destruct (is_leap y); lia. }
  rewrite !s32_id by (destruct (is_leap y); lia).
  destruct (IH (y + 1) (days - if is_leap y then 366 else 365)) as (y' & d' & -> & H1 & H2 & H3); [destruct (is_leap y); lia..|].
  rewrite year_length in H3 by lia. exists y', d'. split_and!; done || lia.
Qed.

Definition month_table (y : Z) : list Z :=
  if is_leap y then <[2%nat := 29]> days_in_month0 else days_in_month0.

Lemma month_table_lookup y m : 0 <= y -> 1 <= m <= 12 -> month_table y !! Z.to_nat m = Some (month_length y m).
Proof.
  intros Hy Hm. unfold month_table, month_length. rewrite is_leap_spec by done.
  assert (m = 1 \/ m = 2 \/ m = 3 \/ m = 4 \/ m = 5 \/ m = 6 \/ m = 7 \/ m = 8 \/ m = 9 \/ m = 10 \/ m = 11 \/ m = 12) as Hc by lia.
  destruct (decide (leap_year y)); [rewrite bool_decide_eq_true_2 by done|rewrite bool_decide_eq_false_2 by done];
    (repeat destruct Hc as [->|Hc]; [..|subst m]); reflexivity.
Qed.

Lemma month_length_step y m : 1 <= m < 12 -> days_before_month y (m + 1) = days_before_month y m + month_length y m.
Proof.
  intros Hm. unfold days_before_month, month_length.
  assert (m = 1 \/ m = 2 \/ m = 3 \/ m = 4 \/ m = 5 \/ m = 6 \/ m = 7 \/ m = 8 \/ m = 9 \/ m = 10 \/ m = 11) as Hc by lia.
  destruct (decide (leap_year y)); (repeat destruct Hc as [->|Hc]; [..|subst m]); reflexivity.
Qed.

Lemma year_days y : 0 <= y -> days_before_month y 12 + month_length y 12 = if is_leap y then 366 else 365.
Proof.
  intros Hy. rewrite is_leap_spec by done. unfold days_before_month, month_length.
  destruct (decide (leap_year y)); [rewrite bool_decide_eq_true_2 by done|rewrite bool_decide_eq_false_2 by done]; reflexivity.
Qed.

Lemma month_length_pos y m : 28 <= month_length y m <= 31.
Proof. unfold month_length. repeat dcase; lia. Qed.

(** The month loop ends before the end of the table. *)
Lemma month_loop_run y fuel : forall m days,
  0 <= y -> 1 <= m <= 12 -> 12 - m <= Z.of_nat fuel -> 0 <= days ->
  days_before_month y m + days < days_before_month y 12 + month_length y 12 ->
  exists m' days', month_loop fuel (month_table y) m days = Ok (m', days') /\ 1 <= m' <= 12 /\
    0 <= days' < month_length y m' /\ days_before_month y m' + days' = days_before_month y m + days.
Proof.
  intros m days Hy. revert m days. induction fuel as [|f IH]; intros m days Hm Hf Hd Hb; cbn [month_loop];
    rewrite month_table_lookup by done; (destruct (days <? _) eqn:E; bool_to_prop; [exists m, days; split_and!; lia || done|]);
    (assert (m < 12) by (destruct (decide (m = 12)) as [->|]; lia)); [lia|].
  pose proof (month_length_pos y m). pose proof (month_length_step y m ltac:(lia)) as Hs. pose proof (year_days y Hy) as Hyd.
  assert (days < 400). { assert (0 <= days_before_month y m) by (unfold days_before_month; repeat dcase; zlia). destruct (is_leap y); lia. }
  rewrite !s32_id by lia.
  destruct (IH (m + 1) (days - month_length y m)) as (m' & d' & -> & K1 & K2 & K3); try lia.
  exists m', d'. split_and!; done || lia.
Qed.

(** C21: [get_datetime] is the Gregorian calendar.  For every value of the
    64-bit timer, and a boot time up to 150,000,000,000,000 seconds (beyond
    the year 4,700,000), the function returns (its loops end, the month table
    is not read past its end, no [int] overflows), the fields form a valid
    date and time, and that date is the timer's instant in the time zone: the
    count of days by the closed formula of the calendar agrees. *)
Theorem get_datetime_calendar BOOT_EPOCH mtime :
  0 <= mtime < 18446744073709551616 -> 0 <= BOOT_EPOCH < 150000000000000 ->
  exists d, get_datetime BOOT_EPOCH mtime = Ok d /\ valid_date d /\
    seconds_of d = mtime / TIMER_FREQ + BOOT_EPOCH + EGYPT_TZ_OFFSET.
Proof.
  intros Hm Hb. unfold get_datetime, EGYPT_TZ_OFFSET, TIMER_FREQ.
  assert (Hs : 0 <= mtime / 10000000 <= 1844674407371) by zlia.
  rewrite !u64_id by (rewrite ?u64_id; lia). set (secs := mtime / 10000000 + BOOT_EPOCH + 2 * 3600). rewrite !s32_id by zlia.
  set (days := secs / 60 / 60 / 24). assert (Hd : 0 <= days < 2000000000) by (unfold days, secs; zlia).
  destruct (year_loop_run (Z.to_nat days) 1970 days) as (y & dy & -> & Hy & Hdy & Ey); [lia..|]. cbn [mbind outcome_bind].
  fold (month_table y). pose proof (year_days y ltac:(lia)) as Hyd.
  assert (Ej : days_before_month y 1 = 0) by reflexivity.
  destruct (month_loop_run y 12 1 dy) as (m & dm & -> & Hmr & Hdm & Em); [lia..|]. cbn [mbind outcome_bind].
  pose proof (month_length_pos y m). rewrite s32_id by lia.
  eexists. split; [done|]. split.
  - unfold valid_date. cbn. split_and!; try lia; unfold secs; zlia.
  - unfold seconds_of, days_of. cbn [year month day hour minute second].
    assert (days_before_year 1970 = 0) as E0 by reflexivity.
    assert (days = days_before_year y + days_before_month y m + (dm + 1 - 1)) as <- by lia.
    unfold days, secs in *. zlia.
Qed.

(** Noon of 2024-02-29 in Cairo. *)
Lemma get_datetime_calendar_witness :
  get_datetime 1709200800 0 = Ok (Rtcdate 2024 2 29 12 0 0) /\
  seconds_of (Rtcdate 2024 2 29 12 0 0) = 1709208000.
Proof.
  destruct (get_datetime_calendar 1709200800 0) as (d & E & _ & Hs); [lia|lia|].
  assert (Ed : get_datetime 1709200800 0 = Ok (Rtcdate 2024 2 29 12 0 0)) by (vm_compute; reflexivity).
  rewrite Ed in E. injection E as <-. split; [exact Ed|]. exact Hs.
Defined.

End Datetime.
