(* ===== verification/Syscall.v ===== *)
(** * kernel/syscall.c: arguments and dispatch of system calls

    [i] is the entry of the current process in the process table.  A handler
    answers with what the process does next: it returns to [syscall] with a
    value, it sleeps inside the call, or it has exited.  [ticks_addr] is the
    address of the counter [ticks], which is the channel of [sys_sleep]. *)
From S2P Require Import Prelude Cstring Riscv Kalloc Vm Block Proc.

(** The state of the kernel: the processes, with memory and files, and the
    global counters. *)
Record kernel (F : Type) := Kernel {
  kprocs : kstate F;
  ticks : Z;
  syscallCount : Z;
  rand_seed : Z
}.
Arguments Kernel {F}.
Arguments kprocs {F}.
Arguments ticks {F}.
Arguments syscallCount {F}.
Arguments rand_seed {F}.

Inductive sysres := Ret (r : Z) | Sleeping | Exited.

Section Syscall.
Context {F : Type}.
Abbreviation kern := (kernel F).

Definition set_kprocs (s : kstate F) (k : kern) : kern := Kernel s (ticks k) (syscallCount k) (rand_seed k).
Definition set_ticks (v : Z) (k : kern) : kern := Kernel (kprocs k) v (syscallCount k) (rand_seed k).
Definition set_syscallCount (v : Z) (k : kern) : kern := Kernel (kprocs k) (ticks k) v (rand_seed k).
Definition set_rand_seed (v : Z) (k : kern) : kern := Kernel (kprocs k) (ticks k) (syscallCount k) v.

(** The current process, and a register of its trap frame. *)
Definition curp (i : nat) (k : kern) : proc := getp (kprocs k) i.
Definition kmem (k : kern) : phys := kphys (kprocs k).
Definition set_kmem (m : phys) (k : kern) : kern := set_kprocs (set_phys m (kprocs k)) k.
Definition tf_get (i : nat) (off : Z) (k : kern) : Z := ld64 (pmem (kmem k)) (trapframe (curp i k) + off).
Definition tf_set (i : nat) (off v : Z) (k : kern) : kern :=
  set_kmem (Phys (st64 (pmem (kmem k)) (trapframe (curp i k) + off) v) (freelist (kmem k))) k.

Definition tf_a7 : Z := 168.

Definition argraw (i : nat) (n : Z) (k : kern) : outcome Z :=
  if (0 <=? n) && (n <=? 5) then Ok (tf_get i (tf_a0 + 8 * n) k) else Panic "argraw".

Definition argint (i : nat) (n : Z) (k : kern) : outcome Z := v ← argraw i n k; Ok (s32 v).
Definition argaddr (i : nat) (n : Z) (k : kern) : outcome Z := argraw i n k.

(** The 64-bit word at a user address, or [None] for -1. *)
Definition fetchaddr (i : nat) (addr : Z) (k : kern) : outcome (option Z) :=
  let p := curp i k in
  if (sz p <=? addr) || (sz p <? u64 (addr + 8)) then Ok None
  else
    '(r, l) ← copyin (pagetable p) addr 8 (kmem k);
    Ok (if negb (r =? 0) then None else Some (le_val l)).

(** The string at a user address, without its NUL; [None] for -1.  The C
    function returns the length. *)
Definition fetchstr (i : nat) (addr max : Z) (k : kern) : outcome (option (list Z)) :=
  '(r, buf) ← copyinstr (pagetable (curp i k)) addr max (kmem k);
  Ok (if r <? 0 then None else Some (cstr buf)).

Definition argstr (i : nat) (n max : Z) (k : kern) : outcome (option (list Z)) :=
  addr ← argaddr i n k;
  fetchstr i addr max k.

(** [syscalls] is the table of handlers. *)
Definition syscall (syscalls : Z -> option (nat -> kern -> outcome (sysres * kern))) (i : nat) (k : kern)
    : outcome (sysres * kern) :=
  let k := set_syscallCount (u64 (syscallCount k + 1)) k in
  let num := s32 (tf_get i tf_a7 k) in
  match (if 0 <? num then syscalls num else None) with
  | Some f =>
      '(r, k) ← f i k;
      match r with
      | Ret v => Ok (Ret v, tf_set i tf_a0 (u64 v) k)
      | _ => Ok (r, k)
      end
  | None => Ok (Ret (-1), tf_set i tf_a0 (u64 (-1)) k)
  end.

End Syscall.
