(* ===== verification/Sysproc.v ===== *)
(** * kernel/sysproc.c: system calls on processes

    [now] is the value of [r_time()] at the call.  The part of a structure on
    the kernel stack that the code does not set has arbitrary contents, given
    as [junk]. *)
From S2P Require Import Prelude Cstring Riscv Kalloc Vm Block Proc Datetime Syscall.

Section Sysproc.
Context {F : Type} {HF : FileLayer F}.
Variables (kend trampoline forkret_addr ticks_addr now : Z).
Abbreviation kern := (kernel F).

Definition ret (v : Z) (k : kern) : outcome (sysres * kern) := Ok (Ret v, k).

Definition sys_exit (i : nat) (k : kern) : outcome (sysres * kern) :=
  n ← argint i 0 k;
  s ← exit i n now (kprocs k);
  Ok (Exited, set_kprocs s k).

Definition sys_getpid (i : nat) (k : kern) : outcome (sysres * kern) := ret (pid (curp i k)) k.

Definition sys_fork (i : nat) (k : kern) : outcome (sysres * kern) :=
  '(r, s) ← fork kend trampoline forkret_addr i now (kprocs k);
  ret r (set_kprocs s k).

(** One turn of the loop of [wait]. *)
Definition sys_wait (i : nat) (k : kern) : outcome (sysres * kern) :=
  p ← argaddr i 0 k;
  '(r, s) ← wait kend i p (kprocs k);
  Ok (match r with Some r => Ret r | None => Sleeping end, set_kprocs s k).

Definition sys_sbrk (i : nat) (k : kern) : outcome (sysres * kern) :=
  n ← argint i 0 k;
  let addr := sz (curp i k) in
  '(r, s) ← growproc kend i n (kprocs k);
  if r <? 0 then ret (-1) (set_kprocs s k) else ret addr (set_kprocs s k).

(** The [while] loop of [sys_sleep], until it sleeps or returns. *)
Definition sys_sleep_loop (i : nat) (n ticks0 : Z) (k : kern) : sysres * kern :=
  if u32 (ticks k - ticks0) <? u32 n then
    if z2b (killed (curp i k)) then (Ret (-1), k)
    else (Sleeping, set_kprocs (sleep i (ChAddr ticks_addr) (kprocs k)) k)
  else (Ret 0, k).

Definition sys_sleep (i : nat) (k : kern) : outcome (sysres * kern) :=
  n ← argint i 0 k;
  let n := if n <? 0 then 0 else n in
  Ok (sys_sleep_loop i n (ticks k) k).

(** The process runs again after [sleep]. *)
Definition sys_sleep_resume (i : nat) (n ticks0 : Z) (k : kern) : sysres * kern :=
  sys_sleep_loop i n ticks0 (set_kprocs (sleep_resume i (kprocs k)) k).

Definition sys_kill (i : nat) (k : kern) : outcome (sysres * kern) :=
  pid ← argint i 0 k;
  let '(r, s) := kill pid (kprocs k) in
  ret r (set_kprocs s k).

Definition sys_uptime (i : nat) (k : kern) : outcome (sysres * kern) := ret (ticks k) k.

(** A store of 0x5555 to the 32-bit device register at 0x100000. *)
Definition sys_shutdown (i : nat) (k : kern) : outcome (sysres * kern) :=
  let m := kmem k in
  ret 0 (set_kmem (Phys (st_le (pmem m) 1048576 21845 4) (freelist m)) k).

Definition sys_countsyscall (i : nat) (k : kern) : outcome (sysres * kern) := ret (s32 (syscallCount k)) k.

Definition state_int (st : procstate) : Z :=
  match st with UNUSED => 0 | USED => 1 | SLEEPING => 2 | RUNNABLE => 3 | RUNNING => 4 | ZOMBIE => 5 end.

(** [struct pinfo]: 40 bytes; the name at 12 takes 16 bytes, and four bytes
    of padding precede [sz].  [old] is what was there. *)
Definition pinfo (old : list Z) (s : kstate F) (j : nat) : list Z :=
  let p := getp s j in
  let l := splice old 0 (le_bytes 4 (u32 (pid p))) in
  let l := splice l 4 (le_bytes 4 (u32 (proc_parent_pid s j))) in
  let l := splice l 8 (le_bytes 4 (state_int (state p))) in
  let l := splice l 12 (str_copy (name p) 16 ++ [0]) in
  splice l 32 (le_bytes 8 (sz p)).

(** The loop over the process table: [tbl] are the entries filled so far. *)
Fixpoint getptable_loop (n j : nat) (junk : list Z) (tbl : list Z) (s : kstate F) : list Z :=
  match n with
  | O => tbl
  | S n' =>
      if decide (state (getp s j) = UNUSED) then getptable_loop n' (S j) junk tbl s
      else getptable_loop n' (S j) junk (tbl ++ pinfo (slice junk (length tbl) 40) s j) s
  end.

Definition sys_getptable (junk : list Z) (i : nat) (k : kern) : outcome (sysres * kern) :=
  addr ← argaddr i 0 k;
  let tbl := getptable_loop NPROC 0 junk [] (kprocs k) in
  '(r, m) ← copyout (pagetable (curp i k)) addr tbl (kmem k);
  if r <? 0 then ret (-1) (set_kmem m k) else ret (Z.of_nat (length tbl) / 40) (set_kmem m k).

(** The bytes of the [struct proc_time] of [sys_get_proc_time]: of its 56
    bytes, those of [total_wait_time], [end_time] and the padding are not
    set. *)
Definition proc_time_of (junk : list Z) (p : proc) : list Z :=
  let l := splice junk 0 (le_bytes 8 (pid p)) in
  let l := splice l 8 (le_bytes 8 (start_time p)) in
  let l := splice l 16 (le_bytes 8 (turnaround_time p)) in
  let l := splice l 48 (le_bytes 4 (u32 (priority p))) in
  splice l 24 (le_bytes 8 (wait_time p)).

(** The search for a process in use by its id. *)
Fixpoint find_pid (n j : nat) (v : Z) (s : kstate F) : option nat :=
  match n with
  | O => None
  | S n' => if (pid (getp s j) =? v) && bool_decide (state (getp s j) <> UNUSED) then Some j else find_pid n' (S j) v s
  end.

Definition sys_get_proc_time (junk : list Z) (i : nat) (k : kern) : outcome (sysres * kern) :=
  v ← argint i 0 k;
  addr ← argaddr i 1 k;
  match find_pid NPROC 0 v (kprocs k) with
  | None => ret (-1) k
  | Some j =>
      '(r, m) ← copyout (pagetable (curp i k)) addr (proc_time_of junk (getp (kprocs k) j)) (kmem k);
      if r <? 0 then ret (-1) (set_kmem m k) else ret 0 (set_kmem m k)
  end.

Definition sys_set_priority (i : nat) (k : kern) : outcome (sysres * kern) :=
  v ← argint i 0 k;
  prio ← argint i 1 k;
  if (prio <? 0) || (20 <? prio) then ret (-1) k
  else
    match find_pid NPROC 0 v (kprocs k) with
    | None => ret (-1) k
    | Some j => ret 0 (set_kprocs (setp j (set_priority prio) (kprocs k)) k)
    end.

Definition sys_getppid (i : nat) (k : kern) : outcome (sysres * kern) := ret (proc_parent_pid (kprocs k) i) k.

(** The bytes of a [struct rtcdate]. *)
Definition rtcdate_bytes (d : Datetime.rtcdate) : list Z :=
  concat (map (fun v => le_bytes 4 (u32 v))
    [Datetime.year d; Datetime.month d; Datetime.day d; Datetime.hour d; Datetime.minute d; Datetime.second d]).

(** [BOOT_EPOCH] is defined by the build; [mtime] is the value of the timer
    register. *)
Definition sys_datetime (BOOT_EPOCH mtime : Z) (i : nat) (k : kern) : outcome (sysres * kern) :=
  addr ← argaddr i 0 k;
  d ← Datetime.get_datetime BOOT_EPOCH mtime;
  '(r, m) ← copyout (pagetable (curp i k)) addr (rtcdate_bytes d) (kmem k);
  if r <? 0 then ret (-1) (set_kmem m k) else ret 0 (set_kmem m k).

(** 64-bit arithmetic; [p->pid] is converted to [unsigned long long]. *)
Definition sys_randd (i : nat) (k : kern) : outcome (sysres * kern) :=
  let seed := Z.lxor (rand_seed k) (u64 (pid (curp i k) * 11400714819323198485)) in
  let seed := u64 (seed * 1103515245 + 12345) in
  ret (Z.land (Z.shiftr seed 16) 32767) (set_rand_seed seed k).

End Sysproc.
