(* ===== verification/Trap.v ===== *)
(** * kernel/trap.c and kernel/plic.c: traps, interrupts and the clock

    The control registers of a hart are a record, and the registers of the
    interrupt controller a memory of 32-bit words; reading the claim register
    is the argument [irq].  [kernelvec], [uservec], [userret], [trampoline] and
    [usertrap_addr] are symbols of the kernel's image, [h] is [cpuid()], [now]
    the value of [r_time()].  The handlers of the UART and of the disk act on
    the state [F] of files and devices, and are arguments.

    [usertrap] is cut where it gives up the processor: it ends with what the
    process does next, and [usertrapret] is a definition of its own. *)
From S2P Require Import Prelude Cstring Riscv Kalloc Vm Block Proc Syscall.

Definition SSTATUS_SPP : Z := Z.shiftl 1 8.
Definition SSTATUS_SPIE : Z := Z.shiftl 1 5.
Definition SSTATUS_SIE : Z := Z.shiftl 1 1.
Definition UART0_IRQ : Z := 10.
Definition VIRTIO0_IRQ : Z := 1.
Definition PLIC_SENABLE (hart : Z) : Z := PLIC + 8320 + hart * 256.
Definition PLIC_SPRIORITY (hart : Z) : Z := PLIC + 2101248 + hart * 8192.
Definition PLIC_SCLAIM (hart : Z) : Z := PLIC + 2101252 + hart * 8192.

(** The registers of the interrupt controller, by address. *)
Definition plic := gmap Z Z.

Definition plicinit (c : plic) : plic :=
  <[PLIC + VIRTIO0_IRQ * 4 := 1]> (<[PLIC + UART0_IRQ * 4 := 1]> c).

Definition plicinithart (h : Z) (c : plic) : plic :=
  <[PLIC_SPRIORITY h := 0]>
    (<[PLIC_SENABLE h := Z.lor (Z.shiftl 1 UART0_IRQ) (Z.shiftl 1 VIRTIO0_IRQ)]> c).

Definition plic_complete (h irq : Z) (c : plic) : plic := <[PLIC_SCLAIM h := u32 irq]> c.

Record csrs := Csrs {
  scause : Z;
  sepc : Z;
  sstatus : Z;
  stvec : Z;
  stimecmp : Z;
  satp : Z;
  tp : Z
}.
Definition set_sepc v c := Csrs (scause c) v (sstatus c) (stvec c) (stimecmp c) (satp c) (tp c).
Definition set_sstatus v c := Csrs (scause c) (sepc c) v (stvec c) (stimecmp c) (satp c) (tp c).
Definition set_stvec v c := Csrs (scause c) (sepc c) (sstatus c) v (stimecmp c) (satp c) (tp c).
Definition set_stimecmp v c := Csrs (scause c) (sepc c) (sstatus c) (stvec c) v (satp c) (tp c).

Record hart (F : Type) := Hart { kern_ : kernel F; csr : csrs; intc : plic }.
Arguments Hart {F}.
Arguments kern_ {F}.
Arguments csr {F}.
Arguments intc {F}.

(** What the process does after [usertrap]: it goes back to user space (at
    [usertrapret]), gives up the processor and then goes back, sleeps in a
    system call, or has exited. *)
Inductive after := ToUser | Yields | Sleeps | Exits.

Section Trap.
Context {F : Type} {HF : FileLayer F}.
Variables (kernelvec uservec userret trampoline usertrap_addr ticks_addr now h : Z).
Variables (uartintr virtio_disk_intr : F -> outcome F).
Variable syscalls : Z -> option (nat -> kernel F -> outcome (sysres * kernel F)).
Abbreviation st := (hart F).

Definition on_csr (f : csrs -> csrs) (s : st) : st := Hart (kern_ s) (f (csr s)) (intc s).
Definition set_kern (k : kernel F) (s : st) : st := Hart k (csr s) (intc s).
Definition set_intc (c : plic) (s : st) : st := Hart (kern_ s) (csr s) c.

Definition trapinithart (s : st) : st := on_csr (set_stvec kernelvec) s.

(** [intr_on] and [intr_off]. *)
Definition sie_on (s : st) : st := on_csr (fun c => set_sstatus (Z.lor (sstatus c) SSTATUS_SIE) c) s.
Definition sie_off (s : st) : st := on_csr (fun c => set_sstatus (Z.land (sstatus c) (Z.lnot SSTATUS_SIE)) c) s.

(** [me] is the current process of this hart, if any. *)
Definition clockintr (me : option nat) (s : st) : st :=
  let s :=
    if h =? 0 then
      let k := set_ticks (u32 (ticks (kern_ s) + 1)) (kern_ s) in
      set_kern (set_kprocs (wakeup me (ChAddr ticks_addr) now (kprocs k)) k) s
    else s in
  on_csr (set_stimecmp (u64 (now + 1000000))) s.

Definition on_files (f : F -> outcome F) (s : st) : outcome st :=
  let k := kern_ s in
  v ← f (files (kprocs k));
  Ok (set_kern (set_kprocs (set_files v (kprocs k)) k) s).

Definition devintr (me : option nat) (irq : Z) (s : st) : outcome (Z * st) :=
  if scause (csr s) =? 9223372036854775817 then
    s ← (if irq =? UART0_IRQ then on_files uartintr s
         else if irq =? VIRTIO0_IRQ then on_files virtio_disk_intr s
         else Ok s);
    let s := if z2b irq then set_intc (plic_complete h irq (intc s)) s else s in
    Ok (1, s)
  else if scause (csr s) =? 9223372036854775813 then Ok (2, clockintr me s)
  else Ok (0, s).

(** [exit(-1)] of the current process, and the test before it. *)
Definition exit_now (i : nat) (s : st) : outcome (after * st) :=
  p ← exit i (-1) now (kprocs (kern_ s));
  Ok (Exits, set_kern (set_kprocs p (kern_ s)) s).
Definition is_killed (i : nat) (s : st) : bool := z2b (killed (curp i (kern_ s))).

(** The end of [usertrap]. *)
Definition usertrap_end (i : nat) (which_dev : Z) (s : st) : outcome (after * st) :=
  if is_killed i s then exit_now i s
  else if (which_dev =? 2) && negb SCHED_FCFS then
    Ok (Yields, set_kern (set_kprocs (yield i now (kprocs (kern_ s))) (kern_ s)) s)
  else Ok (ToUser, s).

Definition usertrap (i : nat) (irq : Z) (s : st) : outcome (after * st) :=
  if negb (Z.land (sstatus (csr s)) SSTATUS_SPP =? 0) then Panic "usertrap: not from user mode"
  else
    let s := on_csr (set_stvec kernelvec) s in
    let s := set_kern (tf_set i tf_epc (sepc (csr s)) (kern_ s)) s in
    if scause (csr s) =? 8 then
      if is_killed i s then exit_now i s
      else
        let s := set_kern (tf_set i tf_epc (u64 (tf_get i tf_epc (kern_ s) + 4)) (kern_ s)) s in
        let s := sie_on s in
        '(r, k) ← syscall syscalls i (kern_ s);
        let s := set_kern k s in
        match r with
        | Ret _ => usertrap_end i 0 s
        | Sleeping => Ok (Sleeps, s)
        | Exited => Ok (Exits, s)
        end
    else
      '(which_dev, s) ← devintr (Some i) irq s;
      if negb (which_dev =? 0) then usertrap_end i which_dev s
      else usertrap_end i which_dev (set_kern (set_kprocs (setkilled i (kprocs (kern_ s))) (kern_ s)) s).

(** [usertrapret]: the jump to [userret] is the result, with its argument. *)
Definition usertrapret (i : nat) (s : st) : (Z * Z) * st :=
  let s := sie_off s in
  let s := on_csr (set_stvec (u64 (TRAMPOLINE + (uservec - trampoline)))) s in
  let k := kern_ s in
  let k := tf_set i 0 (satp (csr s)) k in
  let k := tf_set i 8 (u64 (kstack (curp i k) + PGSIZE)) k in
  let k := tf_set i 16 usertrap_addr k in
  let k := tf_set i 32 (tp (csr s)) k in
  let s := set_kern k s in
  let s := on_csr (fun c => set_sstatus (Z.lor (Z.land (sstatus c) (Z.lnot SSTATUS_SPP)) SSTATUS_SPIE) c) s in
  let s := on_csr (set_sepc (tf_get i tf_epc k)) s in
  ((u64 (TRAMPOLINE + (userret - trampoline)), MAKE_SATP (pagetable (curp i k))), s).

(** [kerneltrap]; [me] is [myproc()].  Between the [yield] and the end other
    code runs on this hart, which may change [sepc] and [sstatus]:
    [meanwhile] is what it does. *)
Definition kerneltrap (me : option nat) (irq : Z) (meanwhile : st -> st) (s : st) : outcome st :=
  let sepc := sepc (csr s) in
  let sstatus := sstatus (csr s) in
  if Z.land sstatus SSTATUS_SPP =? 0 then Panic "kerneltrap: not from supervisor mode"
  else if negb (Z.land sstatus SSTATUS_SIE =? 0) then Panic "kerneltrap: interrupts enabled"
  else
    '(which_dev, s) ← devintr me irq s;
    if which_dev =? 0 then Panic "kerneltrap"
    else
      let s :=
        match me with
        | Some i =>
            if (which_dev =? 2) && negb SCHED_FCFS then
              meanwhile (set_kern (set_kprocs (yield i now (kprocs (kern_ s))) (kern_ s)) s)
            else s
        | None => s
        end in
      Ok (on_csr (set_sstatus sstatus) (on_csr (set_sepc sepc) s)).

End Trap.
