(* ===== verification/TrapProps.v ===== *)
(** * Sleeping for a number of ticks, and the way of a system call

    What [sys_sleep] promises together with the clock interrupt, and what
    [usertrap], [syscall] and [usertrapret] promise to a user program. *)
From S2P Require Import Prelude Cstring Riscv Kalloc Vm Block Proc ProcTheory ProcInv ProcProps Datetime Syscall.
From S2P Require Import Sysproc Trap.

Section Clock.
Context {F : Type} {HF : FileLayer F}.
Variables ticks_addr : Z.
Implicit Types k : kernel F.

(** ** [sys_sleep] and the clock *)

(** [n] clock interrupts on hart 0, while process [me] (or none) runs there. *)
Fixpoint clocks (n : nat) (me : option nat) (s : hart F) : hart F :=
  match n with
  | O => s
  | S n' => clocks n' me (clockintr ticks_addr 0 0 me s)
  end.

(** A process that sleeps in [sys_sleep]: each time, [S d] clock interrupts
    come before its turn.  The scheduler runs it then if it is runnable, and
    passes it over if it is not.  The list is what the turns that it gets
    answer. *)
Fixpoint sleeper (i : nat) (n ticks0 : Z) (ds : list nat) (me : option nat) (s : hart F) : list sysres * hart F :=
  match ds with
  | [] => ([], s)
  | d :: ds' =>
      let s := clocks (S d) me s in
      let k := kern_ s in
      if decide (state (curp i k) = RUNNABLE) then
        let k := set_kprocs (dispatch i 0 (kprocs k)) k in
        let '(r, k) := sys_sleep_resume ticks_addr i n ticks0 k in
        let s := set_kern k s in
        match r with
        | Sleeping => let '(rs, s) := sleeper i n ticks0 ds' me s in (r :: rs, s)
        | _ => ([r], s)
        end
      else sleeper i n ticks0 ds' me s
  end.

Definition total (ds : list nat) : Z := foldr (fun d t => Z.of_nat (S d) + t) 0 ds.

(** Asleep on the clock, or woken by it. *)
Record on_clock (i : nat) (st : procstate) (t : Z) (s : hart F) : Prop := {
  oc_size : length (procs (kprocs (kern_ s))) = NPROC;
  oc_state : state (curp i (kern_ s)) = st;
  oc_chan : chan (curp i (kern_ s)) = ChAddr ticks_addr;
  oc_alive : killed (curp i (kern_ s)) = 0;
  oc_ticks : ticks (kern_ s) = t
}.

Lemma clockintr_run i me st t s : (i < NPROC)%nat -> Some i <> me -> st = SLEEPING \/ st = RUNNABLE ->
  on_clock i st t s -> on_clock i RUNNABLE (u32 (t + 1)) (clockintr ticks_addr 0 0 me s).
Proof.
  intros Hi Hme Hst [O1 O2 O3 O4 O5]. unfold clockintr. cbn [Z.eqb]. unfold curp in *.
  assert (Hg : getp (wakeup me (ChAddr ticks_addr) 0 (kprocs (kern_ s))) i = wake (ChAddr ticks_addr) 0 (getp (kprocs (kern_ s)) i)).
  { exact (wakeup_loop_at NPROC 0 me (ChAddr ticks_addr) 0 (kprocs (kern_ s)) i ltac:(lia) Hme ltac:(lia)). }
  split; unfold curp; cbn [kern_ on_csr set_kern kprocs set_kprocs set_ticks ticks]; rewrite ?Hg.
  - unfold wakeup. rewrite (be_size _ _ _ (wakeup_loop_effect NPROC 0 me _ 0 _)). done.
  - unfold wake. destruct (decide _) as [E|E]; [by rewrite decide_True|]. rewrite O2 in E |- *.
    destruct Hst as [Hst|Hst]; [destruct (E Hst)|exact Hst].
  - unfold wake. destruct (decide _); [destruct (decide _)|]; exact O3.
  - unfold wake. destruct (decide _); [destruct (decide _)|]; exact O4.
  - by rewrite O5.
Qed.

Lemma clocks_run n i me st t s : (i < NPROC)%nat -> Some i <> me -> st = SLEEPING \/ st = RUNNABLE ->
  on_clock i st t s -> on_clock i RUNNABLE (u32 (t + Z.of_nat (S n))) (clocks (S n) me s).
Proof.
  intros Hi Hme. revert st t s. induction n as [|n IH]; intros st t s Hst Ho.
  { by apply (clockintr_run i me st). }
  change (clocks (S (S n)) me s) with (clocks (S n) me (clockintr ticks_addr 0 0 me s)).
  pose proof (IH RUNNABLE _ _ (or_intror eq_refl) (clockintr_run i me st t s Hi Hme Hst Ho)) as H.
  replace (u32 (t + Z.of_nat (S (S n)))) with (u32 (u32 (t + 1) + Z.of_nat (S n))); [done|].
  unfold u32. rewrite Zplus_mod_idemp_l. f_equal. lia.
Qed.

(** The process runs again: it sleeps on, or returns 0. *)
Lemma resume_run i n ticks0 t s : (i < NPROC)%nat -> on_clock i RUNNABLE t s ->
  let '(r, k) := sys_sleep_resume ticks_addr i n ticks0 (set_kprocs (dispatch i 0 (kprocs (kern_ s))) (kern_ s)) in
  if u32 (t - ticks0) <? u32 n then r = Sleeping /\ on_clock i SLEEPING t (set_kern k s) else r = Ret 0.
Proof.
  intros Hi [O1 O2 O3 O4 O5]. unfold sys_sleep_resume, sys_sleep_loop. cbn [ticks set_kprocs]. rewrite O5.
  destruct (u32 (t - ticks0) <? u32 n); [|done].
  unfold curp, sleep_resume, dispatch, sleep in *. cbn [kprocs set_kprocs].
  rewrite !getp_setp_eq by (rewrite ?length_setp; lia). cbn [killed set_chan set_wait_time set_total_wait_time set_state].
  rewrite O4. cbn [z2b Z.eqb negb]. split; [done|].
  split; unfold curp; cbn [kern_ set_kern kprocs set_kprocs]; rewrite ?length_setp; auto;
    rewrite ?getp_setp_eq by (rewrite ?length_setp; lia); auto.
Qed.

Lemma total_app ds d : total (ds ++ [d]) = total ds + Z.of_nat (S d).
Proof. induction ds as [|x ds IH]; cbn [total foldr app] in *; [lia|]. unfold total in *. cbn [foldr]. rewrite IH. lia. Qed.

Lemma total_nonneg ds : 0 <= total ds.
Proof. induction ds as [|x ds IH]; [done|]. unfold total in *. cbn [foldr]. lia. Qed.

Lemma elapsed t0 e : 0 <= e < 4294967296 -> u32 (u32 (t0 + e) - t0) = e.
Proof. intros He. unfold u32. rewrite Zminus_mod_idemp_l. replace (t0 + e - t0) with e by lia. apply Z.mod_small. lia. Qed.

(** [S d] ticks and a turn on the processor, [e] ticks after the call. *)
Lemma sleeper_turn i n t0 me d e s : (i < NPROC)%nat -> Some i <> me -> 0 < n < 2147483648 ->
  on_clock i SLEEPING (u32 (t0 + e)) s -> 0 <= e -> e + Z.of_nat (S d) < 4294967296 ->
  let s1 := clocks (S d) me s in
  state (curp i (kern_ s1)) = RUNNABLE /\
  let '(r, k) := sys_sleep_resume ticks_addr i n t0 (set_kprocs (dispatch i 0 (kprocs (kern_ s1))) (kern_ s1)) in
  if e + Z.of_nat (S d) <? n then r = Sleeping /\ on_clock i SLEEPING (u32 (t0 + (e + Z.of_nat (S d)))) (set_kern k s1) else r = Ret 0.
Proof.
  intros Hi Hme Hn Ho He Hmax. pose proof (clocks_run d i me SLEEPING _ s Hi Hme (or_introl eq_refl) Ho) as Hc.
  pose proof (resume_run i n t0 _ _ Hi Hc) as Hr. cbn zeta. split; [apply Hc|]. destruct (sys_sleep_resume _ _ _ _ _) as [r k].
  replace (u32 (u32 (t0 + e) + Z.of_nat (S d))) with (u32 (t0 + (e + Z.of_nat (S d)))) in Hr
    by (unfold u32; rewrite Zplus_mod_idemp_l; f_equal; lia).
  by rewrite elapsed, (u32_id n) in Hr by lia.
Qed.

Lemma sleeper_run i n t0 me ds d e s : (i < NPROC)%nat -> Some i <> me -> 0 < n < 2147483648 ->
  on_clock i SLEEPING (u32 (t0 + e)) s -> 0 <= e -> e + total ds < n <= e + total ds + Z.of_nat (S d) ->
  e + total ds + Z.of_nat (S d) < 4294967296 ->
  fst (sleeper i n t0 (ds ++ [d]) me s) = replicate (length ds) Sleeping ++ [Ret 0].
Proof.
  intros Hi Hme Hn. revert e s. induction ds as [|x ds IH]; intros e s Ho He Hlt Hmax; cbn [app sleeper length replicate];
    [|pose proof (total_nonneg ds)]; unfold total in *; cbn [foldr] in *.
  - pose proof (sleeper_turn i n t0 me d e s Hi Hme Hn Ho He ltac:(lia)) as [Hst Hr]. cbn zeta in Hst, Hr. rewrite decide_True by exact Hst. destruct (sys_sleep_resume _ _ _ _ _) as [r k].
    rewrite (proj2 (Z.ltb_ge _ _)) in Hr by lia. by rewrite Hr.
  - pose proof (sleeper_turn i n t0 me x e s Hi Hme Hn Ho He ltac:(lia)) as [Hst Hr]. cbn zeta in Hst, Hr. rewrite decide_True by exact Hst. destruct (sys_sleep_resume _ _ _ _ _) as [r k].
    rewrite (proj2 (Z.ltb_lt _ _)) in Hr by lia. destruct Hr as [-> Ho'].
    specialize (IH _ _ Ho'). destruct (sleeper i n t0 (ds ++ [d]) me _) as [rs s']. cbn [fst] in *. f_equal. apply IH; lia.
Qed.

(** C31: [sleep(n)] returns after [n] clock ticks.  A call with [n <= 0]
    returns at once.  Otherwise the process goes to sleep, and the clock
    interrupts make it runnable: a scheduler that runs it only when it is
    runnable runs it at every one of its turns, whatever the number of ticks
    (at least one) between them.  It goes back to sleep while
    fewer than [n] ticks have passed since the call, and the first time it
    runs after that the call returns 0; the counter may wrap around
    meanwhile.  Nobody kills the process during the call. *)
Theorem sys_sleep_wakes i n k :
  (i < NPROC)%nat -> length (procs (kprocs k)) = NPROC -> killed (curp i k) = 0 -> argint i 0 k = Ok n ->
  n < 2147483648 -> 0 <= ticks k < 4294967296 ->
  (n <= 0 -> sys_sleep ticks_addr i k = Ok (Ret 0, k)) /\
  (0 < n -> exists k', sys_sleep ticks_addr i k = Ok (Sleeping, k') /\
     forall ds d me c p, Some i <> me -> total ds < n <= total (ds ++ [d]) -> total (ds ++ [d]) < 4294967296 ->
       fst (sleeper i n (ticks k) (ds ++ [d]) me (Hart k' c p)) = replicate (length ds) Sleeping ++ [Ret 0]).
Proof.
  intros Hi Hl Hk Ha Hn Ht. unfold sys_sleep. rewrite Ha. cbn [mbind outcome_bind]. unfold sys_sleep_loop. rewrite Z.sub_diag.
  change (u32 0) with 0. split; intros Hs.
  - destruct (n <? 0) eqn:E; bool_to_prop; [done|]. replace n with 0 by lia. done.
  - rewrite (proj2 (Z.ltb_ge n 0)) by lia. rewrite (u32_id n), (proj2 (Z.ltb_lt _ _)) by lia. rewrite Hk. cbn [z2b Z.eqb negb].
    eexists. split; [reflexivity|]. intros ds d me c p Hme Hlt Hmax. rewrite total_app in *.
    apply (sleeper_run i n (ticks k) me ds d 0); try done; try lia.
    split; unfold curp, sleep; cbn [kern_ kprocs set_kprocs ticks]; rewrite ?length_setp; auto; rewrite ?getp_setp_eq by lia; auto.
    by rewrite Z.add_0_r, u32_id by lia.
Qed.

(** ** A system call *)

Section Call.
Variables (kernelvec uservec userret trampoline usertrap_addr now h : Z).
Variables (uartintr virtio_disk_intr : F -> outcome F).

(** The registers in a trap frame, from [ra] on. *)
Definition user_reg (off : Z) : Prop := 40 <= off < 288 /\ off mod 8 = 0.

(** A handler that leaves the trap frame of process [i] alone. *)
Definition keeps_frame (i : nat) k k' : Prop :=
  trapframe (curp i k') = trapframe (curp i k) /\ killed (curp i k') = 0 /\
  forall off, 0 <= off < 288 -> off mod 8 = 0 -> tf_get i off k' = tf_get i off k.

Lemma tf_get_set i off off' v k : off mod 8 = 0 -> off' mod 8 = 0 ->
  tf_get i off (tf_set i off' v k) = if decide (off = off') then u64 v else tf_get i off k.
Proof.
  intros H1 H2. unfold tf_get, tf_set, set_kmem, kmem, curp. cbn [kprocs set_kprocs kphys set_phys pmem].
  change (getp (set_phys _ (kprocs k)) i) with (getp (kprocs k) i).
  destruct (decide (off = off')) as [->|Hne]; [apply ld64_st64_eq|]. apply ld64_st64_ne. zlia.
Qed.

(** The state in which [syscall] calls the handler. *)
Definition entered (i : nat) (s : hart F) : kernel F :=
  let k := tf_set i tf_epc (sepc (csr s)) (kern_ s) in
  let k := tf_set i tf_epc (u64 (tf_get i tf_epc k + 4)) k in
  set_syscallCount (u64 (syscallCount k + 1)) k.

(** The call answers [v] and leaves [k']: its handler does, or there is no
    handler for its number. *)
Definition answers (syscalls : Z -> option (nat -> kernel F -> outcome (sysres * kernel F))) (i : nat) (s : hart F) (v : Z) k' : Prop :=
  let num := s32 (tf_get i tf_a7 (kern_ s)) in
  match (if 0 <? num then syscalls num else None) with
  | Some f => f i (entered i s) = Ok (Ret v, k') /\ keeps_frame i (entered i s) k'
  | None => v = -1 /\ k' = entered i s
  end.

Lemma entered_frame i s : trapframe (curp i (entered i s)) = trapframe (curp i (kern_ s)) /\
  killed (curp i (entered i s)) = killed (curp i (kern_ s)) /\
  tf_get i tf_epc (entered i s) = u64 (sepc (csr s) + 4) /\
  forall off, user_reg off -> tf_get i off (entered i s) = tf_get i off (kern_ s).
Proof.
  split; [done|]. split; [done|]. unfold entered. cbn zeta. set (k1 := tf_set i tf_epc _ (kern_ s)).
  set (k2 := tf_set i tf_epc _ k1).
  assert (E : forall off c, tf_get i off (set_syscallCount c k2) = tf_get i off k2) by done. split.
  - rewrite E. unfold k2. rewrite tf_get_set, decide_True by done. unfold k1. rewrite tf_get_set, decide_True by done.
    unfold u64. by rewrite Zmod_mod, Zplus_mod_idemp_l.
  - intros off [Ho1 Ho2]. rewrite E. unfold k2, k1. assert (off <> tf_epc) by (unfold tf_epc; lia).
    by rewrite !tf_get_set, !decide_False by done.
Qed.

(** [usertrapret] on the trap frame and the status register. *)
Lemma usertrapret_run i (s1 : hart F) : let '((pc, arg), s2) := usertrapret uservec userret trampoline usertrap_addr i s1 in
  sepc (csr s2) = tf_get i tf_epc (kern_ s1) /\
  (forall off, user_reg off -> tf_get i off (kern_ s2) = tf_get i off (kern_ s1)) /\
  Z.testbit (sstatus (csr s2)) 8 = false /\ Z.testbit (sstatus (csr s2)) 5 = true /\ Z.testbit (sstatus (csr s2)) 1 = false /\
  stvec (csr s2) = u64 (TRAMPOLINE + (uservec - trampoline)) /\ arg = MAKE_SATP (pagetable (curp i (kern_ s1))).
Proof.
  unfold usertrapret. cbn [kern_ csr sie_off on_csr set_kern set_stvec set_sstatus set_sepc sepc sstatus stvec].
  assert (Ho : forall off a b c d, off mod 8 = 0 -> off = tf_epc \/ user_reg off ->
    tf_get i off (tf_set i 32 a (tf_set i 16 b (tf_set i 8 c (tf_set i 0 d (kern_ s1))))) = tf_get i off (kern_ s1)).
  { intros off a b c d Hm Hoff. assert (off <> 32 /\ off <> 16 /\ off <> 8 /\ off <> 0) as (? & ? & ? & ?)
      by (destruct Hoff as [->|[? ?]]; unfold tf_epc; lia). by rewrite !tf_get_set, !decide_False by done. }
  split; [apply Ho; [done|by left]|]. split; [intros off Hoff; apply Ho; [apply Hoff|by right]|].
  rewrite !Z.lor_spec, !Z.land_spec, !Z.lnot_spec by lia.
  change (Z.testbit SSTATUS_SPP 8) with true. change (Z.testbit SSTATUS_SPIE 8) with false.
  change (Z.testbit SSTATUS_SPIE 5) with true. change (Z.testbit SSTATUS_SIE 1) with true. change (Z.testbit SSTATUS_SPIE 1) with false.
  cbn [negb]. rewrite !andb_false_r, orb_true_r. done.
Qed.

Lemma syscall_run syscalls i s v k' : answers syscalls i s v k' ->
  let k := tf_set i tf_epc (sepc (csr s)) (kern_ s) in
  syscall syscalls i (tf_set i tf_epc (u64 (tf_get i tf_epc k + 4)) k) = Ok (Ret v, tf_set i tf_a0 (u64 v) k').
Proof.
  intros Ha. destruct (entered_frame i s) as (_ & _ & _ & F4). cbn zeta. unfold syscall.
  change (set_syscallCount _ _) with (entered i s). rewrite F4 by (unfold user_reg, tf_a7; split; [lia|done]).
  unfold answers in Ha. destruct (if _ <? _ then _ else _) as [f|].
  - destruct Ha as [-> _]. done.
  - destruct Ha as [-> ->]. done.
Qed.

Lemma answers_frame syscalls i s v k' : answers syscalls i s v k' -> killed (curp i (kern_ s)) = 0 -> keeps_frame i (entered i s) k'.
Proof.
  intros Ha Hk. unfold answers in Ha. destruct (if _ <? _ then _ else _) as [f|]; [by destruct Ha|].
  destruct Ha as [_ ->]. split; [done|]. split; [|done]. by destruct (entered_frame i s) as (_ & -> & _).
Qed.

Lemma usertrap_run syscalls i irq v k' s :
  Z.land (sstatus (csr s)) SSTATUS_SPP = 0 -> scause (csr s) = 8 -> killed (curp i (kern_ s)) = 0 ->
  answers syscalls i s v k' ->
  exists s1, usertrap kernelvec ticks_addr now h uartintr virtio_disk_intr syscalls i irq s = Ok (ToUser, s1) /\
    kern_ s1 = tf_set i tf_a0 (u64 v) k' /\ satp (csr s1) = satp (csr s) /\ tp (csr s1) = tp (csr s).
Proof.
  intros Hspp Hcause Hk Ha. pose proof (answers_frame _ _ _ _ _ Ha Hk) as (_ & Hk' & _).
  unfold usertrap. rewrite Hspp. cbn [Z.eqb negb on_csr set_kern kern_ csr scause set_stvec sepc]. rewrite Hcause. cbn [Z.eqb Pos.eqb].
  unfold is_killed at 1. change (killed (curp i (kern_ (set_kern (tf_set i tf_epc _ (kern_ s)) _)))) with (killed (curp i (kern_ s))).
  rewrite Hk. cbn [z2b Z.eqb negb kern_ set_kern sie_on on_csr].
  rewrite (syscall_run syscalls i s v k' Ha). cbn [mbind outcome_bind]. unfold usertrap_end, is_killed.
  cbn [kern_ set_kern]. change (killed (curp i (tf_set i tf_a0 (u64 v) k'))) with (killed (curp i k')). rewrite Hk'.
  cbn [z2b Z.eqb negb andb]. eexists. split_and!; reflexivity.
Qed.

(** A system call returns to the user program with its result.  When a
    user program that has not been killed executes [ecall], and the handler of
    the number in [a7] returns [v] and leaves the trap frame alone (or there
    is none, and [v] is -1), [usertrap] ends by returning to user space, and
    [usertrapret] then resumes the program behind the [ecall] with [v] in
    [a0], every other register as it was, in user mode with interrupts
    enabled. *)
Theorem syscall_returns syscalls i irq v k' s :
  Z.land (sstatus (csr s)) SSTATUS_SPP = 0 -> scause (csr s) = 8 -> killed (curp i (kern_ s)) = 0 ->
  answers syscalls i s v k' ->
  exists s1, usertrap kernelvec ticks_addr now h uartintr virtio_disk_intr syscalls i irq s = Ok (ToUser, s1) /\
    let '((pc, arg), s2) := usertrapret uservec userret trampoline usertrap_addr i s1 in
    sepc (csr s2) = u64 (sepc (csr s) + 4) /\ tf_get i tf_a0 (kern_ s2) = u64 v /\
    (forall off, user_reg off -> off <> tf_a0 -> tf_get i off (kern_ s2) = tf_get i off (kern_ s)) /\
    Z.testbit (sstatus (csr s2)) 8 = false /\ Z.testbit (sstatus (csr s2)) 5 = true /\
    Z.testbit (sstatus (csr s2)) 1 = false /\
    stvec (csr s2) = u64 (TRAMPOLINE + (uservec - trampoline)) /\ arg = MAKE_SATP (pagetable (curp i k')).
Proof.
  intros Hspp Hcause Hk Ha. destruct (entered_frame i s) as (F1 & F2 & F3 & F4).
  destruct (usertrap_run syscalls i irq v k' s Hspp Hcause Hk Ha) as (s1 & E & E1 & _). exists s1. split; [exact E|].
  pose proof (usertrapret_run i s1) as Hr. destruct (usertrapret _ _ _ _ i s1) as [[pc arg] s2]. rewrite E1 in Hr.
  destruct Hr as (R1 & R2 & R3 & R4 & R5 & R6 & R7). destruct (answers_frame _ _ _ _ _ Ha Hk) as (_ & _ & Hf).
  split_and!; auto.
  - rewrite R1, tf_get_set, decide_False by done. rewrite Hf by (done || lia). done.
  - rewrite R2, tf_get_set, decide_True by (try done; unfold user_reg, tf_a0; lia).
    unfold u64. apply Zmod_mod.
  - intros off Ho Hne. rewrite R2, tf_get_set, decide_False by (try done; apply Ho). destruct (Ho) as [Ho1 Ho2].
    rewrite Hf, F4 by (done || lia). done.
Qed.

End Call.
End Clock.

(** ** Witnesses *)

Definition one_proc (st : procstate) : kernel unit :=
  Kernel (KState (<[3%nat := set_trapframe 4096 (set_state st proc0)]> (replicate NPROC proc0)) 2 None (Phys ∅ 0) tt)
    4294967295 0 1.

(** A process that calls [sleep(2)] as the counter is about to wrap. *)
Definition sleep_kernel : kernel unit := tf_set 3 tf_a0 2 (one_proc RUNNING).

Lemma sys_sleep_wakes_witness : exists k',
  sys_sleep 64 3 sleep_kernel = Ok (Sleeping, k') /\
  fst (sleeper 64 3 2 4294967295 [0; 0]%nat None (Hart k' (Csrs 0 0 0 0 0 0 0) ∅)) = [Sleeping; Ret 0].
Proof.
  destruct (sys_sleep_wakes 64 3 2 sleep_kernel) as [_ H].
  - unfold NPROC. lia.
  - reflexivity.
  - reflexivity.
  - vm_compute. reflexivity.
  - lia.
  - cbn. lia.
  - destruct H as (k' & E & H); [lia|]. exists k'. split; [exact E|].
    apply (H [0%nat] 0%nat None); [discriminate|vm_compute; split; [reflexivity|discriminate]|reflexivity].
Defined.

#[local] Instance no_files : FileLayer unit := {
  filedup _ f := Ok f; fileclose _ f := Ok f; idup _ f := Ok f; put_cwd _ f := Ok f; namei_root f := Ok (1, f)
}.

(** [getpid] as the only system call. *)
Definition one_syscall (num : Z) : option (nat -> kernel unit -> outcome (sysres * kernel unit)) :=
  if num =? 11 then Some sys_getpid else None.
Definition call_hart : hart unit := Hart (tf_set 3 tf_a7 11 (one_proc RUNNING)) (Csrs 8 1000 0 0 0 0 0) ∅.

Lemma syscall_returns_witness : exists s1,
  usertrap 0 64 0 0 Ok Ok one_syscall 3 0 call_hart = Ok (ToUser, s1) /\
  sepc (csr (snd (usertrapret 4096 8192 4096 0 3 s1))) = 1004.
Proof.
  destruct (syscall_returns 64 0 4096 8192 4096 0 0 0 Ok Ok one_syscall 3 0 0 (entered 3 call_hart) call_hart) as (s1 & E & H).
  - reflexivity.
  - reflexivity.
  - reflexivity.
  - assert (Hnum : s32 (tf_get 3 tf_a7 (kern_ call_hart)) = 11) by (vm_compute; reflexivity).
    unfold answers. rewrite Hnum. cbn [Z.ltb Z.compare one_syscall Z.eqb Pos.eqb]. split; [reflexivity|]. split; [reflexivity|].
    split; [reflexivity|]. intros off _ _. reflexivity.
  - exists s1. split; [exact E|]. destruct (usertrapret _ _ _ _ 3 s1) as [[pc arg] s2]. apply H.
Defined.
