(* ===== verification/Asm.v ===== *)
(** * The assembly of the kernel: trampoline.S, swtch.S, kernelvec.S and
    entry.S

    The instructions these files use, on a hart with its integer registers,
    the control registers and physical memory.  Loads, stores and the fetch of
    every instruction go through the page table in [satp], which the hardware
    walks as the privileged architecture says for Sv39; a failed translation
    is a page fault ([Panic]).  There is no TLB, so [sfence.vma] does nothing.
    A piece of code is the list of its instructions and lies in one page; [pc]
    is set by the jumps only. *)
From S2P Require Import Prelude Cstring Riscv Kalloc Vm Block Proc Syscall Trap.

Inductive reg :=
  | ZERO | RA | SP | GP | TP | T0 | T1 | T2 | S0 | S1 | A0 | A1 | A2 | A3 | A4 | A5 | A6 | A7
  | S2 | S3 | S4 | S5 | S6 | S7 | S8 | S9 | S10 | S11 | T3 | T4 | T5 | T6.
#[export] Instance reg_dec : EqDecision reg.
Proof. solve_decision. Defined.

Inductive csr_name := Sscratch | Satp | Mhartid.

(** [li] and [la] are one instruction; [ret] is [jr ra]; [back] is the
    address behind a [call]. *)
Inductive instr :=
  | SD (rs : reg) (off : Z) (base : reg)
  | LD (rd : reg) (off : Z) (base : reg)
  | LI (rd : reg) (v : Z)
  | ADDI (rd rs : reg) (imm : Z)
  | ADD (rd rs1 rs2 : reg)
  | MUL (rd rs1 rs2 : reg)
  | CSRW (c : csr_name) (rs : reg)
  | CSRR (rd : reg) (c : csr_name)
  | SFENCE_VMA
  | JR (rs : reg)
  | CALL (f back : Z)
  | SRET.

(** A hart: [user] tells user from supervisor mode. *)
Record core := Core {
  xr : reg -> Z;
  sscratch : Z;
  mhartid : Z;
  crs : csrs;
  cmem : mem;
  pc : Z;
  user : bool
}.

Definition set_satp v c := Csrs (scause c) (sepc c) (sstatus c) (stvec c) (stimecmp c) v (tp c).
Definition set_scause v c := Csrs v (sepc c) (sstatus c) (stvec c) (stimecmp c) (satp c) (tp c).
Definition set_tp v c := Csrs (scause c) (sepc c) (sstatus c) (stvec c) (stimecmp c) (satp c) v.

Definition upd (x : reg -> Z) (r : reg) (v : Z) : reg -> Z :=
  fun r' => if decide (r' = r) then (if decide (r = ZERO) then x r' else v) else x r'.
Definition set_reg (r : reg) (v : Z) (c : core) : core :=
  Core (upd (xr c) r v) (sscratch c) (mhartid c) (crs c) (cmem c) (pc c) (user c).
Definition set_xr (x : reg -> Z) (c : core) : core := Core x (sscratch c) (mhartid c) (crs c) (cmem c) (pc c) (user c).
Definition set_cmem (m : mem) (c : core) : core := Core (xr c) (sscratch c) (mhartid c) (crs c) m (pc c) (user c).
Definition set_crs (r : csrs) (c : core) : core := Core (xr c) (sscratch c) (mhartid c) r (cmem c) (pc c) (user c).
Definition set_pc (v : Z) (c : core) : core := Core (xr c) (sscratch c) (mhartid c) (crs c) (cmem c) v (user c).

(** ** Address translation in supervisor mode *)

(** The walk from a table of height [level], for an access that needs the
    permission [acc].  A leaf above level 0 is a large page. *)
Fixpoint hw_walk (m : mem) (level : nat) (pt va acc : Z) : option Z :=
  let e := ld64 m (pt + 8 * PX (Z.of_nat level) va) in
  if negb (has e PTE_V) then None
  else if has e PTE_R || has e PTE_X then
    let size := 2 ^ (12 + 9 * Z.of_nat level) in
    if has e acc && negb (has e PTE_U) && (PTE2PA e mod size =? 0) then Some (PTE2PA e + va mod size) else None
  else match level with
       | O => None
       | S l => hw_walk m l (PTE2PA e) va acc
       end.

(** Bits 63 to 39 of a virtual address equal bit 38. *)
Definition canonical (va : Z) : bool :=
  (0 <=? va) && (va <? 2 ^ 38) || (2 ^ 64 - 2 ^ 38 <=? va) && (va <? 2 ^ 64).

Definition mmu (sat va acc : Z) (m : mem) : option Z :=
  let mode := Z.shiftr sat 60 in
  if mode =? 0 then Some va
  else if negb (mode =? 8) || negb (canonical va) then None
  else hw_walk m 2 (Z.shiftl (Z.land sat (2 ^ 44 - 1)) 12) va acc.

(** ** Instructions *)

(** The status register after a trap from user or supervisor mode, and
    after [sret]. *)
Definition trap_status (from_user : bool) (s : Z) : Z :=
  let s' := if has s SSTATUS_SIE then Z.lor s SSTATUS_SPIE else Z.land s (Z.lnot SSTATUS_SPIE) in
  let s' := Z.land s' (Z.lnot SSTATUS_SIE) in
  if from_user then Z.land s' (Z.lnot SSTATUS_SPP) else Z.lor s' SSTATUS_SPP.
Definition sret_status (s : Z) : Z :=
  let s' := if has s SSTATUS_SPIE then Z.lor s SSTATUS_SIE else Z.land s (Z.lnot SSTATUS_SIE) in
  Z.land (Z.lor s' SSTATUS_SPIE) (Z.lnot SSTATUS_SPP).

Definition exec (i : instr) (c : core) : outcome core :=
  let x := xr c in
  match i with
  | SD rs off b =>
      match mmu (satp (crs c)) (u64 (x b + off)) PTE_W (cmem c) with
      | Some pa => Ok (set_cmem (st64 (cmem c) pa (x rs)) c)
      | None => Panic "store page fault"
      end
  | LD rd off b =>
      match mmu (satp (crs c)) (u64 (x b + off)) PTE_R (cmem c) with
      | Some pa => Ok (set_reg rd (ld64 (cmem c) pa) c)
      | None => Panic "load page fault"
      end
  | LI rd v => Ok (set_reg rd v c)
  | ADDI rd rs imm => Ok (set_reg rd (u64 (x rs + imm)) c)
  | ADD rd r1 r2 => Ok (set_reg rd (u64 (x r1 + x r2)) c)
  | MUL rd r1 r2 => Ok (set_reg rd (u64 (x r1 * x r2)) c)
  | CSRW Sscratch rs => Ok (Core x (x rs) (mhartid c) (crs c) (cmem c) (pc c) (user c))
  | CSRW Satp rs => Ok (set_crs (set_satp (x rs) (crs c)) c)
  | CSRW Mhartid _ => Panic "illegal instruction"
  | CSRR rd Sscratch => Ok (set_reg rd (sscratch c) c)
  | CSRR rd Satp => Ok (set_reg rd (satp (crs c)) c)
  | CSRR rd Mhartid => Ok (set_reg rd (mhartid c) c)
  | SFENCE_VMA => Ok c
  | JR rs => Ok (set_pc (x rs) c)
  | CALL f back => Ok (set_pc f (set_reg RA back c))
  | SRET =>
      let s := sstatus (crs c) in
      Ok (Core x (sscratch c) (mhartid c) (set_sstatus (sret_status s) (crs c)) (cmem c) (sepc (crs c))
            (negb (has s SSTATUS_SPP)))
  end.

(** [page] is the virtual address of the page with the code, and where it
    is in memory. *)
Definition step (page : Z * Z) (i : instr) (c : core) : outcome core :=
  if decide (mmu (satp (crs c)) (fst page) PTE_X (cmem c) = Some (snd page)) then exec i c
  else Panic "instruction page fault".

Fixpoint run (page : Z * Z) (code : list instr) (c : core) : outcome core :=
  match code with
  | [] => Ok c
  | i :: code => c ← step page i c; run page code c
  end.

(** What the hardware does on a trap. *)
Definition trap (cause : Z) (c : core) : core :=
  let s := trap_status (user c) (sstatus (crs c)) in
  Core (xr c) (sscratch c) (mhartid c) (set_scause cause (set_sepc (pc c) (set_sstatus s (crs c)))) (cmem c)
    (stvec (crs c)) false.

(** ** kernel/trampoline.S *)

Definition uservec : list instr :=
  [CSRW Sscratch A0;
   LI A0 TRAPFRAME;
   SD RA 40 A0; SD SP 48 A0; SD GP 56 A0; SD TP 64 A0; SD T0 72 A0; SD T1 80 A0; SD T2 88 A0;
   SD S0 96 A0; SD S1 104 A0; SD A1 120 A0; SD A2 128 A0; SD A3 136 A0; SD A4 144 A0; SD A5 152 A0;
   SD A6 160 A0; SD A7 168 A0; SD S2 176 A0; SD S3 184 A0; SD S4 192 A0; SD S5 200 A0; SD S6 208 A0;
   SD S7 216 A0; SD S8 224 A0; SD S9 232 A0; SD S10 240 A0; SD S11 248 A0; SD T3 256 A0; SD T4 264 A0;
   SD T5 272 A0; SD T6 280 A0;
   CSRR T0 Sscratch;
   SD T0 112 A0;
   LD SP 8 A0;
   LD TP 32 A0;
   LD T0 16 A0;
   LD T1 0 A0;
   SFENCE_VMA;
   CSRW Satp T1;
   SFENCE_VMA;
   JR T0].

Definition userret : list instr :=
  [SFENCE_VMA;
   CSRW Satp A0;
   SFENCE_VMA;
   LI A0 TRAPFRAME;
   LD RA 40 A0; LD SP 48 A0; LD GP 56 A0; LD TP 64 A0; LD T0 72 A0; LD T1 80 A0; LD T2 88 A0;
   LD S0 96 A0; LD S1 104 A0; LD A1 120 A0; LD A2 128 A0; LD A3 136 A0; LD A4 144 A0; LD A5 152 A0;
   LD A6 160 A0; LD A7 168 A0; LD S2 176 A0; LD S3 184 A0; LD S4 192 A0; LD S5 200 A0; LD S6 208 A0;
   LD S7 216 A0; LD S8 224 A0; LD S9 232 A0; LD S10 240 A0; LD S11 248 A0; LD T3 256 A0; LD T4 264 A0;
   LD T5 272 A0; LD T6 280 A0;
   LD A0 112 A0;
   SRET].

(** ** kernel/swtch.S *)

Definition swtch : list instr :=
  [SD RA 0 A0; SD SP 8 A0; SD S0 16 A0; SD S1 24 A0; SD S2 32 A0; SD S3 40 A0; SD S4 48 A0; SD S5 56 A0;
   SD S6 64 A0; SD S7 72 A0; SD S8 80 A0; SD S9 88 A0; SD S10 96 A0; SD S11 104 A0;
   LD RA 0 A1; LD SP 8 A1; LD S0 16 A1; LD S1 24 A1; LD S2 32 A1; LD S3 40 A1; LD S4 48 A1; LD S5 56 A1;
   LD S6 64 A1; LD S7 72 A1; LD S8 80 A1; LD S9 88 A1; LD S10 96 A1; LD S11 104 A1;
   JR RA].

(** ** kernel/kernelvec.S: up to the call of [kerneltrap], and from its
    return on *)

Definition kernelvec (kerneltrap_addr back : Z) : list instr :=
  [ADDI SP SP (-256);
   SD RA 0 SP; SD SP 8 SP; SD GP 16 SP; SD TP 24 SP; SD T0 32 SP; SD T1 40 SP; SD T2 48 SP;
   SD A0 72 SP; SD A1 80 SP; SD A2 88 SP; SD A3 96 SP; SD A4 104 SP; SD A5 112 SP; SD A6 120 SP; SD A7 128 SP;
   SD T3 216 SP; SD T4 224 SP; SD T5 232 SP; SD T6 240 SP;
   CALL kerneltrap_addr back].

Definition kernelvec_back : list instr :=
  [LD RA 0 SP; LD SP 8 SP; LD GP 16 SP; LD T0 32 SP; LD T1 40 SP; LD T2 48 SP;
   LD A0 72 SP; LD A1 80 SP; LD A2 88 SP; LD A3 96 SP; LD A4 104 SP; LD A5 112 SP; LD A6 120 SP; LD A7 128 SP;
   LD T3 216 SP; LD T4 224 SP; LD T5 232 SP; LD T6 240 SP;
   ADDI SP SP 256;
   SRET].

(** ** kernel/entry.S; [stack0] and [start_addr] are symbols of start.c,
    [spin] is the endless loop behind the call *)

Definition _entry (stack0 start_addr spin : Z) : list instr :=
  [LI SP stack0;
   LI A0 (1024 * 4);
   CSRR A1 Mhartid;
   ADDI A1 A1 1;
   MUL A0 A0 A1;
   ADD SP SP A0;
   CALL start_addr spin].
