(* ===== verification/AsmTheory.v ===== *)
(** * Running the assembly

    Where the hardware's walk agrees with the page tables of vm.c, and the
    effect of blocks of stores and loads through a page that is mapped.
    Stores change the memory that the walk reads, so what is known about a
    mapping is that it holds whatever the bytes in the block are. *)
From S2P Require Import Prelude Cstring Riscv Kalloc Vm VmTheory UvmTheory CopyTheory UvmProps UvmFree Block Proc.
From S2P Require Import Syscall Trap Asm.

(** ** The hardware's walk *)

Lemma hw_walk_xl kend m root G l p va e acc :
  pt_wf kend m root G -> G !! p = Some (l, prefix l va) -> xl m l p va = Some e ->
  has e PTE_R = true -> has e acc = true -> has e PTE_U = false -> PTE2PA e mod 4096 = 0 ->
  hw_walk m l p va acc = Some (PTE2PA e + va mod 4096).
Proof.
  intros Hwf. revert p. induction l as [|l IH]; intros p Hp E HR Ha HU Hal; cbn [xl hw_walk] in *.
  - destruct (has (ld64 m _) PTE_V) eqn:EV; [|done]. injection E as E. rewrite E in *. cbn [negb].
    rewrite HR, Ha, HU. cbn [orb negb andb]. change (2 ^ (12 + 9 * Z.of_nat 0)) with 4096. by rewrite Hal.
  - destruct (has (ld64 m _) PTE_V) eqn:EV; [|done]. cbn [negb].
    pose proof (PX_range (Z.of_nat (S l)) va ltac:(lia)) as Hx.
    pose proof (pw_flags _ _ _ _ Hwf p l _ _ Hp Hx EV) as Hf.
    rewrite (has_flags _ PTE_R), (has_flags _ PTE_X), Hf by (unfold PTE_R, PTE_X; lia). cbn [orb].
    apply IH; auto. rewrite prefix_step. by apply (pw_next _ _ _ _ Hwf p l).
Qed.

Lemma satp_root root : 0 <= root < 2 ^ 55 -> root mod 4096 = 0 ->
  Z.shiftr (MAKE_SATP root) 60 = 8 /\ Z.shiftl (Z.land (MAKE_SATP root) (2 ^ 44 - 1)) 12 = root /\
  0 <= MAKE_SATP root < 18446744073709551616.
Proof.
  change (2 ^ 55) with 36028797018963968. intros Hr Hal.
  assert (E : MAKE_SATP root = 8 * 2 ^ 60 + root / 4096).
  { unfold MAKE_SATP, SATP_SV39. rewrite Z.shiftr_div_pow2, Z.shiftl_mul_pow2 by lia. change (2 ^ 12) with 4096.
    exact (lor_low_add 8 (root / 4096) 60 ltac:(lia) ltac:(change (2 ^ 60) with 1152921504606846976; zlia)). }
  rewrite E. split_and!.
  - rewrite Z.shiftr_div_pow2 by lia. change (2 ^ 60) with 1152921504606846976. zlia.
  - change (2 ^ 44 - 1) with (Z.ones 44). rewrite Z.land_ones, Z.shiftl_mul_pow2 by lia.
    change (2 ^ 60) with 1152921504606846976. change (2 ^ 44) with 17592186044416. change (2 ^ 12) with 4096. zlia.
  - change (2 ^ 60) with 1152921504606846976. zlia.
  - change (2 ^ 60) with 1152921504606846976. zlia.
Qed.

(** A page that [mappages] mapped for the kernel is what the hardware
    finds. *)
Lemma mmu_translate kend m root G va o pa perm acc :
  0 < kend -> pt_wf kend m root G -> 0 <= va < MAXVA -> va mod 4096 = 0 -> 0 <= o < 4096 ->
  translate m root va = Some (leaf_pte pa perm) -> kernel_page pa -> 0 <= perm < 1024 ->
  has (Z.lor perm PTE_V) PTE_R = true -> has (Z.lor perm PTE_V) acc = true -> 0 <= acc < 1024 ->
  has (Z.lor perm PTE_V) PTE_U = false -> mmu (MAKE_SATP root) (va + o) acc m = Some (pa + o).
Proof.
  intros Hk Hwf Hva Hal Ho E [Hpa Hpal] Hp HR Ha Hacc HU.
  destruct (page_ok_bounds kend Hk root (pw_page _ _ _ _ Hwf _ _ (pw_root _ _ _ _ Hwf))) as (R1 & R2 & R3).
  destruct (satp_root root) as (S1 & S2 & _); [change (2 ^ 55) with 36028797018963968; lia|done|].
  destruct (leaf_pte_facts pa perm) as (_ & _ & E2 & E3);
    [change (2 ^ 56) with 72057594037927936; change (2 ^ 55) with 36028797018963968 in *; lia|done|done|].
  unfold mmu. rewrite S1, S2. cbn [Z.eqb Pos.eqb negb orb]. rewrite MAXVA_eq in Hva.
  assert (canonical (va + o) = true) as ->.
  { unfold canonical. change (2 ^ 38) with 274877906944. rewrite (proj2 (Z.leb_le 0 (va + o))), (proj2 (Z.ltb_lt (va + o) _)) by zlia. done. }
  cbn [negb]. assert (Hsame : same_page (va + o) va) by (unfold same_page; zlia).
  assert (Hx : translate m root (va + o) = Some (leaf_pte pa perm)).
  { rewrite <- E. unfold translate. rewrite !xl_slot. by rewrite (slot_same_page m 2 root (va + o) va Hsame). }
  rewrite (hw_walk_xl kend m root G 2 root (va + o) (leaf_pte pa perm) acc); auto.
  - rewrite E2. f_equal. zlia.
  - rewrite prefix_root by (rewrite MAXVA_eq; zlia). apply (pw_root _ _ _ _ Hwf).
  - rewrite has_flags, E3 by (unfold PTE_R; lia). done.
  - rewrite has_flags, E3 by done. done.
  - rewrite has_flags, E3 by (unfold PTE_U; lia). done.
  - by rewrite E2.
Qed.

(** ** The status register *)

Lemma has_bit x k : 0 <= k -> has x (Z.shiftl 1 k) = Z.testbit x k.
Proof.
  intros Hk. unfold has. rewrite Z.shiftl_1_l. destruct (Z.testbit x k) eqn:E.
  - destruct (Z.land x (2 ^ k) =? 0) eqn:E0; bool_to_prop; [|done]. exfalso.
    assert (Z.testbit (Z.land x (2 ^ k)) k = true) as Ht by (by rewrite Z.land_spec, E, Z.pow2_bits_true).
    by rewrite E0, Z.testbit_0_l in Ht.
  - rewrite (proj2 (Z.eqb_eq _ 0)); [done|]. apply Z.bits_inj'. intros n Hn. rewrite Z.land_spec, Z.testbit_0_l.
    destruct (decide (n = k)) as [->|Hne]; [by rewrite E|]. by rewrite Z.pow2_bits_false, andb_false_r by lia.
Qed.

(** The bits of constants. *)
Ltac known_bits :=
  repeat match goal with
  | |- context [Z.testbit ?c ?k] =>
      let b := eval vm_compute in (Z.testbit c k) in
      match b with true => idtac | false => idtac end; change (Z.testbit c k) with b
  end; cbn [negb].

(** Previous mode (8), previous interrupt enable (5), interrupt enable (1). *)
Lemma status_bits b s :
  (Z.testbit (trap_status b s) 8 = negb b /\ Z.testbit (trap_status b s) 5 = Z.testbit s 1 /\ Z.testbit (trap_status b s) 1 = false) /\
  (Z.testbit (sret_status s) 8 = false /\ Z.testbit (sret_status s) 5 = true /\ Z.testbit (sret_status s) 1 = Z.testbit s 5).
Proof.
  unfold trap_status, sret_status. change (has s SSTATUS_SIE) with (has s (Z.shiftl 1 1)). change (has s SSTATUS_SPIE) with (has s (Z.shiftl 1 5)).
  rewrite !has_bit by lia. destruct b, (Z.testbit s 1), (Z.testbit s 5); cbn zeta iota;
    rewrite ?Z.land_spec, ?Z.lor_spec, ?Z.lnot_spec by lia; rewrite ?Z.land_spec, ?Z.lor_spec, ?Z.lnot_spec by lia; known_bits;
    rewrite ?andb_false_r, ?andb_true_r, ?orb_true_r, ?orb_false_r; done.
Qed.

(** ** Blocks of stores and loads *)

(** Equal memories outside [W]. *)
Definition same_but (W : Z -> Prop) (m m' : mem) : Prop := forall x, ~ W x -> ld8 m' x = ld8 m x.

Lemma same_but_refl W m : same_but W m m.
Proof. by intros x. Qed.

Lemma same_but_trans W m1 m2 m3 : same_but W m1 m2 -> same_but W m2 m3 -> same_but W m1 m3.
Proof. intros H1 H2 x Hx. rewrite H2, H1; done. Qed.

Lemma same_but_st64 (W : Z -> Prop) m a v : (forall x, a <= x < a + 8 -> W x) -> same_but W m (st64 m a v).
Proof. intros H x Hx. apply ld8_st64_other. destruct (decide (x < a)); [by left|]. right. destruct (decide (a + 8 <= x)); [done|]. destruct Hx. apply H. lia. Qed.

(** Whatever is stored in [W], code in [page] can run and [len] bytes from
    [va] on are those at [pa]. *)
Definition runs (page : Z * Z) (sat : Z) (W : Z -> Prop) (m : mem) : Prop :=
  forall m', same_but W m m' -> mmu sat (fst page) PTE_X m' = Some (snd page).
Definition window (sat : Z) (W : Z -> Prop) (va pa len : Z) (m : mem) : Prop :=
  forall m' o acc, same_but W m m' -> acc = PTE_R \/ acc = PTE_W -> 0 <= o <= len - 8 ->
    mmu sat (u64 (va + o)) acc m' = Some (pa + o).

Lemma runs_after page sat W m m1 : runs page sat W m -> same_but W m m1 -> runs page sat W m1.
Proof. intros H H1 m' Hm. apply H. by apply (same_but_trans W m m1). Qed.

Lemma window_after sat W va pa len m m1 : window sat W va pa len m -> same_but W m m1 -> window sat W va pa len m1.
Proof. intros H H1 m' o acc Hm. apply H. by apply (same_but_trans W m m1). Qed.

Lemma run_step page i rest c c' W :
  runs page (satp (crs c)) W (cmem c) -> exec i c = Ok c' -> run page (i :: rest) c = run page rest c'.
Proof. intros Hr E. cbn [run]. unfold step. rewrite decide_True by (apply Hr, same_but_refl). by rewrite E. Qed.

Fixpoint saves (x : reg -> Z) (pa : Z) (l : list (reg * Z)) (m : mem) : mem :=
  match l with
  | [] => m
  | (r, o) :: l => saves x pa l (st64 m (pa + o) (x r))
  end.

Fixpoint loads (m : mem) (pa : Z) (l : list (reg * Z)) (x : reg -> Z) : reg -> Z :=
  match l with
  | [] => x
  | (r, o) :: l => loads m pa l (upd x r (ld64 m (pa + o)))
  end.

Definition sds (b : reg) (l : list (reg * Z)) : list instr := map (fun '(r, o) => SD r o b) l.
Definition lds (b : reg) (l : list (reg * Z)) : list instr := map (fun '(r, o) => LD r o b) l.

(** The offsets of a block lie in the window; those of stores in [W]. *)
Definition fits (len : Z) (l : list (reg * Z)) : Prop := Forall (fun p => 0 <= snd p <= len - 8) l.
Definition within (W : Z -> Prop) (pa len : Z) : Prop := forall x, pa <= x < pa + len -> W x.

Lemma saves_same W x pa len l : within W pa len -> fits len l -> forall m, same_but W m (saves x pa l m).
Proof.
  intros Hw Hf. induction Hf as [|[r o] l Ho _ IH]; intros m; cbn [saves]; [apply same_but_refl|]. cbn [snd] in Ho.
  eapply same_but_trans; [|apply IH]. apply same_but_st64. intros y Hy. apply Hw. lia.
Qed.

Lemma run_saves page b l W va pa len rest : within W pa len -> fits len l -> forall c,
  runs page (satp (crs c)) W (cmem c) -> window (satp (crs c)) W va pa len (cmem c) -> xr c b = va ->
  run page (sds b l ++ rest) c = run page rest (set_cmem (saves (xr c) pa l (cmem c)) c).
Proof.
  intros Hw Hf. induction Hf as [|[r o] l Ho _ IH]; intros c Hr Hwin Hb; cbn [sds map app saves]; [by destruct c|]. cbn [snd] in Ho.
  assert (Hs : same_but W (cmem c) (st64 (cmem c) (pa + o) (xr c r))) by (apply same_but_st64; intros y Hy; apply Hw; lia).
  rewrite (run_step page _ _ c (set_cmem (st64 (cmem c) (pa + o) (xr c r)) c) W Hr).
  - change (map _ l) with (sds b l). rewrite IH; [done|by apply (runs_after page _ W (cmem c))|by apply (window_after _ W va pa len (cmem c))|done].
  - cbn [exec]. rewrite Hb, (Hwin (cmem c) o PTE_W) by first [apply same_but_refl|by right|done]. done.
Qed.

Lemma run_load page r o b W va pa len rest c :
  runs page (satp (crs c)) W (cmem c) -> window (satp (crs c)) W va pa len (cmem c) -> xr c b = va -> 0 <= o <= len - 8 ->
  run page (LD r o b :: rest) c = run page rest (set_reg r (ld64 (cmem c) (pa + o)) c).
Proof.
  intros Hr Hwin Hb Ho. apply (run_step page _ _ c _ W Hr). cbn [exec].
  rewrite Hb, (Hwin (cmem c) o PTE_R) by first [apply same_but_refl|by left|done]. done.
Qed.

Lemma run_loads page b l W va pa len rest : fits len l -> b <> ZERO -> forall c,
  runs page (satp (crs c)) W (cmem c) -> window (satp (crs c)) W va pa len (cmem c) -> xr c b = va ->
  Forall (fun p => fst p = b -> ld64 (cmem c) (pa + snd p) = va) l ->
  run page (lds b l ++ rest) c = run page rest (set_xr (loads (cmem c) pa l (xr c)) c).
Proof.
  intros Hf Hb0. induction Hf as [|[r o] l Ho _ IH]; intros c Hr Hwin Hb Hl; cbn [lds map app loads]; [by destruct c|]. cbn [snd] in Ho.
  apply Forall_cons in Hl as [Hl1 Hl]. cbn [fst snd] in Hl1.
  rewrite (run_load page r o b W va pa len) by done. change (map _ l) with (lds b l). rewrite IH; [done|done|done| |done].
  cbn [set_reg xr]. unfold upd. destruct (decide (b = r)) as [<-|]; [|done]. rewrite decide_False by done. by apply Hl1.
Qed.

(** ** What is where afterwards *)

Definition aligned (l : list (reg * Z)) : Prop := Forall (fun p => snd p mod 8 = 0) l.

Lemma saves_out x pa l o : aligned l -> o mod 8 = 0 -> o ∉ map snd l -> forall m, ld64 (saves x pa l m) (pa + o) = ld64 m (pa + o).
Proof.
  intros Ha Ho. induction Ha as [|[r o'] l Ho' _ IH]; intros Hn m; cbn [saves map] in *; [done|].
  cbn [snd] in *. apply not_elem_of_cons in Hn as [Hne Hn]. rewrite IH by done. apply ld64_st64_ne. zlia.
Qed.

Lemma saves_in x pa l r o : aligned l -> NoDup (map snd l) -> (r, o) ∈ l -> forall m, ld64 (saves x pa l m) (pa + o) = u64 (x r).
Proof.
  intros Ha. induction Ha as [|[r' o'] l Ho' Ha IH]; intros Hnd Hin m; cbn [saves map] in *; [by apply elem_of_nil in Hin|].
  cbn [snd] in *. apply list.NoDup_cons in Hnd as [Hni Hnd]. apply elem_of_cons in Hin as [[= -> ->]|Hin]; [|by apply IH].
  rewrite saves_out by done. apply ld64_st64_eq.
Qed.

Lemma loads_out m pa l r : r ∉ map fst l -> forall x, loads m pa l x r = x r.
Proof.
  induction l as [|[r' o] l IH]; intros Hn x; cbn [loads map] in *; [done|]. apply not_elem_of_cons in Hn as [Hne Hn].
  rewrite IH by done. unfold upd. by rewrite decide_False by done.
Qed.

Lemma loads_in m pa l r o : NoDup (map fst l) -> r <> ZERO -> (r, o) ∈ l -> forall x, loads m pa l x r = ld64 m (pa + o).
Proof.
  intros Hnd Hz. induction l as [|[r' o'] l IH]; intros Hin x; cbn [loads map] in *; [by apply elem_of_nil in Hin|].
  apply list.NoDup_cons in Hnd as [Hni Hnd]. apply elem_of_cons in Hin as [[= -> ->]|Hin]; [|by apply IH].
  rewrite loads_out by done. unfold upd. by rewrite decide_True, decide_False by done.
Qed.

Lemma saves_upd x pa l r v : r ∉ map fst l -> forall m, saves (upd x r v) pa l m = saves x pa l m.
Proof.
  induction l as [|[r' o] l IH]; intros Hn m; cbn [saves map] in *; [done|]. apply not_elem_of_cons in Hn as [Hne Hn].
  unfold upd at 2. cbn [fst] in Hne. rewrite decide_False by done. by apply IH.
Qed.

Lemma upd_same x r v : r <> ZERO -> upd x r v r = v.
Proof. intros Hz. unfold upd. by rewrite decide_True, decide_False by done. Qed.
Lemma upd_other x r v r' : r' <> r -> upd x r v r' = x r'.
Proof. intros Hne. unfold upd. by rewrite decide_False by done. Qed.

(** ** trampoline.S *)

(** The registers that [uservec] and [userret] move through [a0], and the
    place of every register in the trap frame. *)
Definition tf_regs : list (reg * Z) :=
  [(RA, 40); (SP, 48); (GP, 56); (TP, 64); (T0, 72); (T1, 80); (T2, 88); (S0, 96); (S1, 104); (A1, 120); (A2, 128); (A3, 136);
   (A4, 144); (A5, 152); (A6, 160); (A7, 168); (S2, 176); (S3, 184); (S4, 192); (S5, 200); (S6, 208); (S7, 216); (S8, 224);
   (S9, 232); (S10, 240); (S11, 248); (T3, 256); (T4, 264); (T5, 272); (T6, 280)].
Definition tf_off (r : reg) : Z :=
  match find (fun p => bool_decide (fst p = r)) tf_regs with Some (_, o) => o | None => 112 end.

Lemma tf_regs_facts : fits 4096 tf_regs /\ aligned tf_regs /\ NoDup (map snd tf_regs) /\ NoDup (map fst tf_regs) /\
  (forall r, r <> ZERO -> r <> A0 -> (r, tf_off r) ∈ tf_regs) /\
  (forall r, r <> ZERO -> 40 <= tf_off r < 288 /\ tf_off r mod 8 = 0).
Proof.
  split_and!; [by repeat constructor; cbn|by repeat constructor|by apply (bool_decide_unpack _); vm_compute|by apply (bool_decide_unpack _); vm_compute| |].
  - intros r Hz Ha. by destruct r; try done; apply (bool_decide_unpack _); vm_compute.
  - intros r Hz. by destruct r; try done; vm_compute.
Qed.

Lemma tf_off_a0 r : r <> ZERO -> r <> A0 -> tf_off r <> 112.
Proof. by destruct r. Qed.

Section Trampoline.
Variables (trampoline tf usat : Z).
Abbreviation page := (TRAMPOLINE, trampoline).
Abbreviation frame := (fun x => tf <= x < tf + 4096).

(** The trampoline and the trap frame of a process are mapped at the same
    addresses in its page table, and the trampoline in the kernel's, whatever
    the trap frame holds. *)
Record mapped (ksat : Z) (m : mem) : Prop := {
  md_code : runs page usat frame m;
  md_frame : window usat frame TRAPFRAME tf 4096 m;
  md_kernel : runs page ksat frame m
}.

Lemma mapped_after ksat m m1 : mapped ksat m -> same_but frame m m1 -> mapped ksat m1.
Proof. intros [H1 H2 H3] Hs. split; [by apply (runs_after _ _ _ m)|by apply (window_after _ _ _ _ _ m)|by apply (runs_after _ _ _ m)]. Qed.

(** The memory when [uservec] has saved the registers. *)
Definition saved (x : reg -> Z) (m : mem) : mem := st64 (saves x tf tf_regs m) (tf + 112) (x A0).

Lemma frame_within : within frame tf 4096.
Proof. exact (fun x H => H). Qed.

Lemma saved_same x m : same_but frame m (saved x m).
Proof.
  destruct tf_regs_facts as (Hf & _). unfold saved. eapply same_but_trans; [apply (saves_same _ x tf 4096 tf_regs); [exact frame_within|done]|].
  apply same_but_st64. intros y Hy. lia.
Qed.

Lemma saved_reg x m r : r <> ZERO -> ld64 (saved x m) (tf + tf_off r) = u64 (x r).
Proof.
  destruct tf_regs_facts as (_ & Ha & Hn & _ & Hin & Ho). intros Hr. unfold saved. destruct (decide (r = A0)) as [->|Hne].
  - change (tf_off A0) with 112. apply ld64_st64_eq.
  - rewrite ld64_st64_ne; [by apply saves_in; auto|].
    pose proof (tf_off_a0 r Hr Hne). destruct (Ho r Hr). zlia.
Qed.

Lemma saved_kernel x m o : 0 <= o < 40 -> o mod 8 = 0 -> ld64 (saved x m) (tf + o) = ld64 m (tf + o).
Proof.
  destruct tf_regs_facts as (_ & Ha & _). intros Ho Hm. unfold saved. rewrite ld64_st64_ne by lia.
  apply saves_out; auto. cbn. rewrite !not_elem_of_cons. split_and!; try lia. apply not_elem_of_nil.
Qed.

Lemma uservec_code : uservec = [CSRW Sscratch A0; LI A0 TRAPFRAME] ++ sds A0 tf_regs ++
  [CSRR T0 Sscratch] ++ sds A0 [(T0, 112)] ++ lds A0 [(SP, 8); (TP, 32); (T0, 16); (T1, 0)] ++ [SFENCE_VMA; CSRW Satp T1; SFENCE_VMA; JR T0].
Proof. reflexivity. Qed.

Lemma userret_code : userret = [SFENCE_VMA; CSRW Satp A0; SFENCE_VMA; LI A0 TRAPFRAME] ++ lds A0 tf_regs ++ [LD A0 112 A0; SRET].
Proof. reflexivity. Qed.

Lemma uservec_run c :
  satp (crs c) = usat -> mapped (ld64 (cmem c) (tf + 0)) (cmem c) ->
  exists c1, run page uservec c = Ok c1 /\ cmem c1 = saved (xr c) (cmem c) /\ pc c1 = ld64 (cmem c) (tf + 16) /\
    crs c1 = set_satp (ld64 (cmem c) (tf + 0)) (crs c) /\ user c1 = user c /\
    xr c1 SP = ld64 (cmem c) (tf + 8) /\ xr c1 TP = ld64 (cmem c) (tf + 32).
Proof.
  intros Hs M. set (m := cmem c). set (ksat := ld64 m (tf + 0)). set (m1 := saved (xr c) m).
  assert (M1 : mapped ksat m1) by exact (mapped_after ksat m m1 M (saved_same _ _)).
  destruct tf_regs_facts as (Hf & _). set (m0 := saves (xr c) tf tf_regs m).
  assert (M0 : mapped ksat m0) by exact (mapped_after ksat m m0 M (saves_same _ (xr c) tf 4096 tf_regs frame_within Hf m)).
  destruct M as [C F K], M0 as [C0 F0 _], M1 as [C1 F1 K1]. rewrite <- Hs in C, F, C0, F0, C1, F1.
  rewrite uservec_code. cbn [app].
  do 2 (erewrite run_step; [|exact C|reflexivity]).
  rewrite (run_saves page A0 tf_regs frame TRAPFRAME tf 4096); [|exact frame_within|done|exact C|exact F|reflexivity].
  cbn [set_reg xr]. rewrite saves_upd by (apply (bool_decide_unpack _); vm_compute; done). fold m. fold m0.
  erewrite run_step; [|exact C0|reflexivity].
  rewrite (run_saves page A0 [(T0, 112)] frame TRAPFRAME tf 4096); [|exact frame_within|by repeat constructor|exact C0|exact F0|reflexivity].
  rewrite (run_loads page A0 _ frame TRAPFRAME tf 4096); [|by repeat constructor|done|exact C1|exact F1|reflexivity|by repeat constructor].
  do 2 (erewrite run_step; [|exact C1|reflexivity]).
  assert (E : forall o, 0 <= o < 40 -> o mod 8 = 0 -> ld64 m1 (tf + o) = ld64 m (tf + o)) by (intros; by apply saved_kernel).
  assert (K1' : runs page (ld64 m1 (tf + 0)) frame m1) by (rewrite E by done; exact K1).
  do 2 (erewrite run_step; [|exact K1'|reflexivity]).
  eexists. split; [reflexivity|]. split_and!; [reflexivity|by apply (E 16)| |reflexivity|by apply (E 8)|by apply (E 32)].
  exact (f_equal (fun k => set_satp k (crs c)) (E 0 ltac:(lia) eq_refl)).
Qed.

Lemma userret_run c :
  mapped (satp (crs c)) (cmem c) -> xr c A0 = usat ->
  exists c1, run page userret c = Ok c1 /\ cmem c1 = cmem c /\ (forall r, r <> ZERO -> xr c1 r = ld64 (cmem c) (tf + tf_off r)) /\
    pc c1 = sepc (crs c) /\ satp (crs c1) = usat /\ stvec (crs c1) = stvec (crs c) /\
    user c1 = negb (has (sstatus (crs c)) SSTATUS_SPP) /\ sstatus (crs c1) = sret_status (sstatus (crs c)).
Proof.
  intros [C F K] Ha. set (m := cmem c) in *. destruct tf_regs_facts as (Hf & _ & _ & Hn & Hin & _).
  assert (Hna : A0 ∉ map fst tf_regs) by (apply (bool_decide_unpack _); vm_compute; done).
  rewrite <- Ha in C, F. rewrite userret_code. cbn [app].
  do 2 (erewrite run_step; [|exact K|reflexivity]). do 2 (erewrite run_step; [|exact C|reflexivity]).
  rewrite (run_loads page A0 _ frame TRAPFRAME tf 4096); [|done|done|exact C|exact F|reflexivity|].
  2: { apply Forall_forall. intros [r o] Hr E. cbn [fst] in E. subst r. destruct Hna. apply list_elem_of_fmap. by exists (A0, o). }
  rewrite (run_load page A0 112 A0 frame TRAPFRAME tf 4096); [|exact C|exact F|cbn [set_xr xr]; by rewrite loads_out|lia].
  erewrite run_step; [|exact C|reflexivity]. eexists. split; [reflexivity|]. split_and!; try reflexivity.
  - intros r Hz. cbn [xr set_reg]. destruct (decide (r = A0)) as [->|Hne]; [by rewrite upd_same|]. rewrite upd_other by done.
    cbn [set_xr xr]. rewrite (loads_in m tf tf_regs r (tf_off r)); auto.
  - exact Ha.
Qed.
End Trampoline.
