(* ===== verification/AsmProps.v ===== *)
(** * From a trap in user mode back to user mode: theorems

    The way of a system call through [uservec], [usertrap], [usertrapret] and
    [userret], on the page tables of the process and of the kernel; the
    context switch; and interrupts in the kernel. *)
From S2P Require Import Prelude Cstring Riscv Kalloc Vm VmTheory UvmTheory CopyTheory UvmProps UvmFree Block Proc.
From S2P Require Import ProcTheory ProcInv ProcProps ProcMem ProcMemProps Datetime Syscall Sysproc Trap TrapProps Asm.
From S2P Require Import AsmTheory.

Section Path.
Context {F : Type} {HF : FileLayer F}.
Variables (kend trampoline uservec_addr userret_addr usertrap_addr kernelvec_addr ticks_addr now h : Z).
Variables (uartintr virtio_disk_intr : F -> outcome F).
Variable syscalls : Z -> option (nat -> kernel F -> outcome (sysres * kernel F)).
Implicit Types k : kernel F.

(** ** Two page tables *)

(** The page table of process [i] maps the trampoline and the trap frame,
    that of the kernel the trampoline, and the trap frame is not a page of
    either table. *)
Record ready (i : nat) k (kroot : Z) (G GK : gmap Z (nat * Z)) : Prop := {
  rd_user : pt_wf kend (pmem (kmem k)) (pagetable (curp i k)) G;
  rd_kernel : pt_wf kend (pmem (kmem k)) kroot GK;
  rd_tramp : translate (pmem (kmem k)) (pagetable (curp i k)) TRAMPOLINE = Some (leaf_pte trampoline (Z.lor PTE_R PTE_X));
  rd_frame : translate (pmem (kmem k)) (pagetable (curp i k)) TRAPFRAME = Some (leaf_pte (trapframe (curp i k)) (Z.lor PTE_R PTE_W));
  rd_ktramp : translate (pmem (kmem k)) kroot TRAMPOLINE = Some (leaf_pte trampoline (Z.lor PTE_R PTE_X));
  rd_tf : page_ok kend (trapframe (curp i k));
  rd_apart : trapframe (curp i k) ∉ dom G /\ trapframe (curp i k) ∉ dom GK
}.

Hypothesis Hkend : 0 < kend.
Hypothesis Htramp : kernel_page trampoline.
Hypothesis Huservec : 0 <= uservec_addr - trampoline < PGSIZE.
Hypothesis Huserret : 0 <= userret_addr - trampoline < PGSIZE.
Hypothesis Hdistinct : uservec_addr <> userret_addr.

(** The process that owns its memory is ready. *)
Lemma held_ready i k fl o kroot GK :
  proc_held kend trampoline (kmem k) fl (curp i k) o -> pt_wf kend (pmem (kmem k)) kroot GK ->
  translate (pmem (kmem k)) kroot TRAMPOLINE = Some (leaf_pte trampoline (Z.lor PTE_R PTE_X)) ->
  trapframe (curp i k) ∉ dom GK -> ready i k kroot (o_tab o) GK.
Proof.
  intros [_ [Ha _ Ht Hf _] _ Htf _ Htab _] Hk Hkt Hni. split; auto. apply (vi_wf _ _ _ _ _ (ai_vm _ _ _ _ _ _ Ha)).
Qed.

Abbreviation frame i k := (fun x => trapframe (curp i k) <= x < trapframe (curp i k) + 4096).

(** A table without the trap frame's page does not change with it. *)
Lemma translate_same i k root G m' va :
  pt_wf kend (pmem (kmem k)) root G -> page_ok kend (trapframe (curp i k)) -> trapframe (curp i k) ∉ dom G -> 0 <= va < MAXVA ->
  same_but (frame i k) (pmem (kmem k)) m' -> pt_wf kend m' root G /\ translate m' root va = translate (pmem (kmem k)) root va.
Proof.
  intros Hwf Htf Hni Hva Hs.
  assert (Hx : forall q x, q ∈ dom G -> q <= x < q + PGSIZE -> ld8 m' x = ld8 (pmem (kmem k)) x).
  { intros q x Hq Hx. apply Hs. assert (q <> trapframe (curp i k)) by (intros ->; done).
    apply elem_of_dom in Hq as [lp Hq]. destruct (page_disjoint kend q (trapframe (curp i k)) x) as [|]; auto.
    - exact (pw_page _ _ _ _ Hwf q lp Hq).
    - lia.
    - unfold PGSIZE in *. lia. }
  split.
  - apply (pt_wf_ext kend (pmem (kmem k))); [done|]. intros p l pre j Hp Hj. apply entry_frame; [|done].
    intros x Hxx. apply (Hx p); [by eapply elem_of_dom_2|done].
  - unfold translate. apply (xl_frame kend _ _ root G); auto. rewrite prefix_root by done. apply (pw_root _ _ _ _ Hwf).
Qed.

Lemma ready_frame i k k' kroot G GK :
  curp i k' = curp i k -> same_but (frame i k) (pmem (kmem k)) (pmem (kmem k')) -> ready i k kroot G GK -> ready i k' kroot G GK.
Proof.
  intros E Hs [Hu Hk Ht Hf Hkt Htf [N1 N2]]. destruct top_pages as (T1 & _ & T2 & _).
  destruct (translate_same i k _ G _ TRAMPOLINE Hu Htf N1 T1 Hs) as [Hu' E1], (translate_same i k _ GK _ TRAMPOLINE Hk Htf N2 T1 Hs) as [Hk' E2],
    (translate_same i k _ G _ TRAPFRAME Hu Htf N1 T2 Hs) as [_ E3].
  split; rewrite ?E; auto; congruence.
Qed.

Lemma ready_mapped i k kroot G GK : ready i k kroot G GK ->
  mapped trampoline (trapframe (curp i k)) (MAKE_SATP (pagetable (curp i k))) (MAKE_SATP kroot) (pmem (kmem k)).
Proof.
  intros [Hu Hk Ht Hf Hkt Htf [A1 A2]]. destruct top_pages as (T1 & _ & T2 & _).
  assert (P : kernel_page (trapframe (curp i k))).
  { destruct (page_ok_bounds kend Hkend _ Htf) as (? & ? & ?). split; [change (2 ^ 55) with 36028797018963968; lia|done]. }
  split.
  - intros m' Hs. destruct (translate_same i k _ G m' TRAMPOLINE Hu Htf A1 T1 Hs) as [Hu' E]. cbn [fst snd].
    rewrite <- (Z.add_0_r TRAMPOLINE), <- (Z.add_0_r trampoline) at 1.
    apply (mmu_translate kend m' _ G TRAMPOLINE 0 trampoline (Z.lor PTE_R PTE_X)); auto; try done; try lia. by rewrite E.
  - intros m' o acc Hs Hacc Ho. destruct (translate_same i k _ G m' TRAPFRAME Hu Htf A1 T2 Hs) as [Hu' E].
    rewrite u64_id by (change TRAPFRAME with 274877898752; lia).
    apply (mmu_translate kend m' _ G TRAPFRAME o _ (Z.lor PTE_R PTE_W)); auto; try done; try lia; [by rewrite E|destruct Hacc as [-> | ->]; done|].
    destruct Hacc as [-> | ->]; done.
  - intros m' Hs. destruct (translate_same i k _ GK m' TRAMPOLINE Hk Htf A2 T1 Hs) as [Hu' E]. cbn [fst snd].
    rewrite <- (Z.add_0_r TRAMPOLINE), <- (Z.add_0_r trampoline) at 1.
    apply (mmu_translate kend m' _ GK TRAMPOLINE 0 trampoline (Z.lor PTE_R PTE_X)); auto; try done; try lia. by rewrite E.
Qed.

(** ** The way of a system call *)

(** The code at an address of the trampoline. *)
Definition image (a : Z) : option (list instr) :=
  if a =? u64 (TRAMPOLINE + (uservec_addr - trampoline)) then Some uservec
  else if a =? u64 (TRAMPOLINE + (userret_addr - trampoline)) then Some userret
  else None.
Definition run_at (c : core) : outcome core :=
  match image (pc c) with
  | Some code => run (TRAMPOLINE, trampoline) code c
  | None => Panic "no code here"
  end.

(** The hart enters C code, and leaves it for [fn] with registers [x]. *)
Definition to_hart (c : core) (s : hart F) : hart F :=
  Hart (set_kmem (Phys (cmem c) (freelist (kmem (kern_ s)))) (kern_ s)) (set_tp (xr c TP) (crs c)) (intc s).
Definition from_hart (x : reg -> Z) (fn : Z) (c : core) (s : hart F) : core :=
  Core x (sscratch c) (mhartid c) (csr s) (pmem (kmem (kern_ s))) fn false.

Lemma image_uservec : image (u64 (TRAMPOLINE + (uservec_addr - trampoline))) = Some uservec.
Proof. unfold image. by rewrite Z.eqb_refl. Qed.

Lemma image_userret : image (u64 (TRAMPOLINE + (userret_addr - trampoline))) = Some userret.
Proof.
  unfold image. rewrite Z.eqb_refl. unfold PGSIZE in *. change TRAMPOLINE with 274877902848. rewrite !u64_id by lia.
  by rewrite (proj2 (Z.eqb_neq _ _)) by lia.
Qed.

Lemma tf_set_same i off v k : 0 <= off <= 4088 -> same_but (frame i k) (pmem (kmem k)) (pmem (kmem (tf_set i off v k))).
Proof. intros Ho. apply same_but_st64. intros x Hx. lia. Qed.

(** [usertrapret] writes to the trap frame only. *)
Lemma usertrapret_mem i (s1 : hart F) : let '((fn, arg), s2) := usertrapret uservec_addr userret_addr trampoline usertrap_addr i s1 in
  fn = u64 (TRAMPOLINE + (userret_addr - trampoline)) /\ satp (csr s2) = satp (csr s1) /\
  same_but (frame i (kern_ s1)) (pmem (kmem (kern_ s1))) (pmem (kmem (kern_ s2))) /\
  tf_get i 0 (kern_ s2) = u64 (satp (csr s1)) /\ tf_get i 16 (kern_ s2) = u64 usertrap_addr /\
  tf_get i 8 (kern_ s2) = u64 (kstack (curp i (kern_ s1)) + PGSIZE) /\ tf_get i 32 (kern_ s2) = u64 (tp (csr s1)) /\
  trapframe (curp i (kern_ s2)) = trapframe (curp i (kern_ s1)).
Proof.
  unfold usertrapret. cbn [kern_ csr sie_off on_csr set_kern set_stvec set_sstatus set_sepc satp tp]. split; [done|]. split; [done|].
  split; [|rewrite !tf_get_set by done; split_and!; try done; unfold u64; apply Zmod_mod].
  set (k1 := tf_set i 0 _ (kern_ s1)). set (k2 := tf_set i 8 _ k1). set (k3 := tf_set i 16 _ k2).
  apply (same_but_trans _ _ (pmem (kmem k1))); [apply (tf_set_same i 0 _ (kern_ s1)); lia|].
  apply (same_but_trans _ _ (pmem (kmem k2))); [exact (tf_set_same i 8 _ k1 ltac:(lia))|].
  apply (same_but_trans _ _ (pmem (kmem k3))); [exact (tf_set_same i 16 _ k2 ltac:(lia))|exact (tf_set_same i 32 _ k3 ltac:(lia))].
Qed.

(** The trap frame when [uservec] jumps to [usertrap]. *)
Lemma uservec_enters i c (s : hart F) kroot G GK :
  ready i (kern_ s) kroot G GK -> cmem c = pmem (kmem (kern_ s)) -> user c = true ->
  satp (crs c) = MAKE_SATP (pagetable (curp i (kern_ s))) -> stvec (crs c) = u64 (TRAMPOLINE + (uservec_addr - trampoline)) ->
  tf_get i 0 (kern_ s) = MAKE_SATP kroot ->
  exists c1, run_at (trap 8 c) = Ok c1 /\ pc c1 = tf_get i 16 (kern_ s) /\
    xr c1 SP = tf_get i 8 (kern_ s) /\ xr c1 TP = tf_get i 32 (kern_ s) /\ satp (crs c1) = MAKE_SATP kroot /\
    scause (crs c1) = 8 /\ sepc (crs c1) = pc c /\ Z.land (sstatus (crs c1)) SSTATUS_SPP = 0 /\
    cmem c1 = saved (trapframe (curp i (kern_ s))) (xr c) (pmem (kmem (kern_ s))).
Proof.
  intros R Em Hu Hs Hv H0. pose proof (ready_mapped i (kern_ s) kroot G GK R) as M. rewrite <- H0 in M. unfold tf_get in M.
  rewrite <- Em in M. destruct (uservec_run trampoline _ _ (trap 8 c) Hs M) as (c1 & E & E1 & E2 & E3 & _ & E5 & E6).
  exists c1. unfold run_at. change (pc (trap 8 c)) with (stvec (crs c)). rewrite Hv, image_uservec.
  change (cmem (trap 8 c)) with (cmem c) in *. change (xr (trap 8 c)) with (xr c) in *. rewrite Em in *.
  rewrite E1, E2, E3, E5, E6. split_and!; auto.
  change (sstatus _) with (trap_status (user c) (sstatus (crs c))). rewrite Hu.
  destruct (status_bits true (sstatus (crs c))) as [(B & _) _]. cbn [negb] in B.
  change SSTATUS_SPP with (Z.shiftl 1 8). pose proof (has_bit (trap_status true (sstatus (crs c))) 8 ltac:(lia)) as Hb.
  rewrite B in Hb. unfold has in Hb. destruct (_ =? 0) eqn:E0 in Hb; bool_to_prop; done.
Qed.

(** The way back, from the memory that [usertrap] leaves. *)
Lemma userret_leaves i k' kroot G GK v (s1 : hart F) c1 x :
  ready i k' kroot G GK -> kern_ s1 = tf_set i tf_a0 (u64 v) k' -> satp (csr s1) = MAKE_SATP kroot ->
  let '((fn, arg), s2) := usertrapret uservec_addr userret_addr trampoline usertrap_addr i s1 in
  exists c2, run_at (from_hart (upd x A0 arg) fn c1 s2) = Ok c2 /\ user c2 = true /\ pc c2 = tf_get i tf_epc (kern_ s1) /\
    (forall r, r <> ZERO -> xr c2 r = tf_get i (tf_off r) (kern_ s1)) /\ cmem c2 = pmem (kmem (kern_ s2)) /\
    satp (crs c2) = MAKE_SATP (pagetable (curp i k')) /\ stvec (crs c2) = u64 (TRAMPOLINE + (uservec_addr - trampoline)) /\
    Z.testbit (sstatus (crs c2)) 1 = true /\ tf_get i 0 (kern_ s2) = u64 (MAKE_SATP kroot) /\ tf_get i 16 (kern_ s2) = u64 usertrap_addr /\
    tf_get i 8 (kern_ s2) = u64 (kstack (curp i k') + PGSIZE) /\ tf_get i 32 (kern_ s2) = u64 (tp (csr s1)).
Proof.
  intros R Ek Hs. pose proof (ready_mapped i k' kroot G GK R) as M. pose proof (usertrapret_mem i s1) as Hm.
  pose proof (usertrapret_run uservec_addr userret_addr trampoline usertrap_addr i s1) as Hr.
  destruct (usertrapret _ _ _ _ i s1) as [[fn arg] s2]. destruct Hm as (-> & Hs2 & Hsame & H0 & H16 & H8 & H32 & Htf), Hr as (R1 & R2 & R3 & R4 & R5 & R6 & ->).
  assert (T : trapframe (curp i (kern_ s1)) = trapframe (curp i k') /\ pagetable (curp i (kern_ s1)) = pagetable (curp i k')) by (by rewrite Ek).
  destruct T as [T1 T2]. rewrite Hs in *. rewrite T2. rewrite T1 in Htf, Hsame.
  assert (M2 : mapped trampoline (trapframe (curp i k')) (MAKE_SATP (pagetable (curp i k'))) (MAKE_SATP kroot) (pmem (kmem (kern_ s2)))).
  { apply (mapped_after _ _ _ _ (pmem (kmem k')) _ M). apply (same_but_trans _ _ (pmem (kmem (kern_ s1)))); [|exact Hsame].
    rewrite Ek. apply (tf_set_same i tf_a0 _ k'). unfold tf_a0. lia. }
  rewrite <- Hs2 in M2. set (c' := from_hart _ _ c1 s2).
  destruct (userret_run trampoline _ _ c' M2) as (c2 & E & E1 & E2 & E3 & E4 & E5 & E6 & E7); [by apply upd_same|].
  exists c2. unfold run_at. change (pc c') with (u64 (TRAMPOLINE + (userret_addr - trampoline))). rewrite image_userret.
  change (crs c') with (csr s2) in *. change (cmem c') with (pmem (kmem (kern_ s2))) in *.
  rewrite E3, E4, E5, E6, E7. destruct (status_bits true (sstatus (csr s2))) as [_ (_ & _ & B)]. split_and!; auto.
  - change SSTATUS_SPP with (Z.shiftl 1 8). rewrite has_bit, R3 by lia. done.
  - intros r Hz. rewrite E2 by done. destruct tf_regs_facts as (_ & _ & _ & _ & _ & Ho). rewrite <- Htf.
    apply (R2 (tf_off r)). destruct (Ho r Hz). split; done.
  - by rewrite B.
  - rewrite H8, Ek. done.
Qed.

(** C32: a system call, from the [ecall] to the instruction behind it, by
    the code of trampoline.S and trap.c on the page tables in memory.  The
    hart runs process [i] in user mode, and the trap frame is as
    [usertrapret] leaves it.  The trap runs [uservec], which saves all
    registers in the trap frame and jumps to [usertrap] on the kernel's stack
    and page table.  When the handler of the number in [a7] answers [v]
    without touching the trap frame (or there is none, and [v] is -1),
    whatever the compiled code leaves in the registers, [usertrap] returns to
    user space and [userret] continues behind the [ecall] in user mode, with
    [v] in [a0], every other register as it was, interrupts enabled and the
    process's page table; and the trap frame is ready for the next trap: it
    has the kernel's page table, the top of the process's kernel stack, the
    address of [usertrap] and the hart id that [uservec] loaded. *)
Theorem syscall_roundtrip i irq c (s : hart F) kroot G GK :
  ready i (kern_ s) kroot G GK -> cmem c = pmem (kmem (kern_ s)) -> user c = true ->
  satp (crs c) = MAKE_SATP (pagetable (curp i (kern_ s))) -> stvec (crs c) = u64 (TRAMPOLINE + (uservec_addr - trampoline)) ->
  (forall r, 0 <= xr c r < 18446744073709551616) -> 0 <= usertrap_addr < 18446744073709551616 ->
  tf_get i 0 (kern_ s) = MAKE_SATP kroot -> tf_get i 16 (kern_ s) = usertrap_addr -> killed (curp i (kern_ s)) = 0 ->
  exists c1, run_at (trap 8 c) = Ok c1 /\ pc c1 = usertrap_addr /\ xr c1 SP = tf_get i 8 (kern_ s) /\ xr c1 TP = tf_get i 32 (kern_ s) /\ satp (crs c1) = MAKE_SATP kroot /\
    (forall r, r <> ZERO -> tf_get i (tf_off r) (kern_ (to_hart c1 s)) = xr c r) /\ same_but (frame i (kern_ s)) (cmem c) (cmem c1) /\
    forall v k' G' x, answers syscalls i (to_hart c1 s) v k' -> ready i k' kroot G' GK ->
    exists s1, usertrap kernelvec_addr ticks_addr now h uartintr virtio_disk_intr syscalls i irq (to_hart c1 s) = Ok (ToUser, s1) /\
      let '((fn, arg), s2) := usertrapret uservec_addr userret_addr trampoline usertrap_addr i s1 in
      exists c2, run_at (from_hart (upd x A0 arg) fn c1 s2) = Ok c2 /\
        user c2 = true /\ pc c2 = u64 (pc c + 4) /\ xr c2 A0 = u64 v /\ (forall r, r <> ZERO -> r <> A0 -> xr c2 r = xr c r) /\
        Z.testbit (sstatus (crs c2)) 1 = true /\ cmem c2 = pmem (kmem (kern_ s2)) /\
        satp (crs c2) = MAKE_SATP (pagetable (curp i k')) /\ stvec (crs c2) = stvec (crs c) /\
        tf_get i 0 (kern_ s2) = MAKE_SATP kroot /\ tf_get i 16 (kern_ s2) = usertrap_addr /\
        tf_get i 8 (kern_ s2) = u64 (kstack (curp i k') + PGSIZE) /\ tf_get i 32 (kern_ s2) = u64 (xr c1 TP).
Proof.
  intros R Em Hu Hs Hv Hx Hut H0 H16 Hk.
  destruct (uservec_enters i c s kroot G GK R Em Hu Hs Hv H0) as (c1 & E & E1 & E2 & E3 & E4 & E5 & E6 & E7 & E8).
  assert (Hsv : forall r, r <> ZERO -> tf_get i (tf_off r) (kern_ (to_hart c1 s)) = xr c r).
  { intros r Hz. unfold tf_get. change (pmem (kmem (kern_ (to_hart c1 s)))) with (cmem c1). rewrite E8.
    change (trapframe (curp i (kern_ (to_hart c1 s)))) with (trapframe (curp i (kern_ s))). rewrite saved_reg by done. apply u64_id, Hx. }
  exists c1. split_and!; [exact E|by rewrite E1|exact E2|exact E3|exact E4|exact Hsv|rewrite E8, Em; apply saved_same|]. intros v k' G' x Ha R'. set (s' := to_hart c1 s) in *.
  destruct (usertrap_run ticks_addr kernelvec_addr now h uartintr virtio_disk_intr syscalls i irq v k' s' E7 E5 Hk Ha) as (s1 & U & K & S1 & T1).
  exists s1. split; [exact U|]. change (satp (csr s')) with (satp (crs c1)) in S1. rewrite E4 in S1.
  pose proof (userret_leaves i k' kroot G' GK v s1 c1 x R' K S1) as L. destruct (usertrapret _ _ _ _ i s1) as [[fn arg] s2].
  destruct L as (c2 & L1 & L2 & L3 & L4 & L5 & L6 & L7 & L8 & L9 & L10 & L11 & L12). exists c2.
  destruct (entered_frame i s') as (F1 & _ & F3 & F4). destruct (answers_frame syscalls i s' v k' Ha Hk) as (_ & _ & Hf).
  destruct tf_regs_facts as (_ & _ & _ & _ & _ & Ho).
  assert (Hroot : 0 <= MAKE_SATP kroot < 18446744073709551616).
  { destruct (page_ok_bounds kend Hkend kroot (pw_page _ _ _ _ (rd_kernel _ _ _ _ _ R) _ _ (pw_root _ _ _ _ (rd_kernel _ _ _ _ _ R)))) as (? & ? & ?).
    apply satp_root; [change (2 ^ 55) with 36028797018963968; lia|done]. }
  rewrite (u64_id (MAKE_SATP kroot)) in L9 by done. rewrite (u64_id usertrap_addr) in L10 by done. rewrite T1 in L12. rewrite Hv. split_and!; auto.
  - rewrite L3, K, tf_get_set, decide_False by done. rewrite Hf by (done || lia). rewrite F3.
    change (sepc (csr s')) with (sepc (crs c1)). by rewrite E6.
  - rewrite L4, K by done. change (tf_off A0) with tf_a0. rewrite tf_get_set, decide_True by done. unfold u64. apply Zmod_mod.
  - intros r Hz Hne. destruct (Ho r Hz) as [O1 O2]. rewrite L4, K, tf_get_set, decide_False by first [done|apply tf_off_a0; done].
    rewrite Hf, F4 by first [done|lia|split; done]. by apply Hsv.
Qed.

Lemma ready_tf_set i off v k kroot G GK : 0 <= off <= 4088 -> ready i k kroot G GK -> ready i (tf_set i off v k) kroot G GK.
Proof. intros Ho. apply ready_frame; [done|]. by apply tf_set_same. Qed.

(** The handler finds the process ready. *)
Lemma ready_entered i c1 (s : hart F) kroot G GK :
  ready i (kern_ s) kroot G GK -> same_but (frame i (kern_ s)) (pmem (kmem (kern_ s))) (cmem c1) -> ready i (entered i (to_hart c1 s)) kroot G GK.
Proof.
  intros R Hs. unfold entered. cbn zeta. set (k := tf_set i tf_epc _ (tf_set _ _ _ _)).
  apply (ready_frame i k); [done|apply same_but_refl|]. do 2 (apply ready_tf_set; [unfold tf_epc; lia|]).
  by apply (ready_frame i (kern_ s)).
Qed.

(** Another process's page table maps the trampoline too. *)
Lemma two_ready pool (st : kstate F) fl O a b c i j : mem_inv kend trampoline pool st fl O -> i <> j ->
  state (getp st i) <> UNUSED -> state (getp st j) <> UNUSED ->
  ready i (Kernel st a b c) (pagetable (getp st j)) (o_tab (O i)) (o_tab (O j)).
Proof.
  intros Hm Hij Hi Hj.
  assert (Hh : forall j, state (getp st j) <> UNUSED -> proc_held kend trampoline (kphys st) fl (getp st j) (O j)).
  { intros n Hn. destruct (mi_proc _ _ _ _ _ _ Hm n) as [(_ & _ & _ & _ & Hu)|Hh]; done. }
  destruct (Hh j Hj) as [_ [Ha1 _ Ht1 _ _] _ _ _ _ _]. apply (held_ready i _ fl (O i)); [exact (Hh i Hi)| |exact Ht1|].
  - apply (vi_wf _ _ _ _ _ (ai_vm _ _ _ _ _ _ Ha1)).
  - intros Hin. destruct Hij. apply (mi_disj _ _ _ _ _ _ Hm i j (trapframe (getp st i))); [left|right; left; exact Hin].
    split; [|done]. pose proof (page_ok_bounds kend Hkend _ (ph_tf _ _ _ _ _ _ (Hh i Hi))). lia.
Qed.

End Path.

(** ** A witness *)

#[local] Existing Instance no_files.

(** The two processes of the run of ProcInv.v; the page table of the second
    serves as the kernel's. *)
Definition demo_kernel : kernel unit := Kernel demo2 0 0 1.
Definition demo_root : Z := pagetable (getp demo2 1).

Lemma demo_ready : exists G GK, ready demo_end KERNBASE 0 demo_kernel demo_root G GK.
Proof.
  assert (Hk : 0 < demo_end) by (by vm_compute). assert (Ht : kernel_page KERNBASE) by (by vm_compute).
  destruct demo_owned as (pool & Hok). destruct demo_facts as (_ & R1 & _ & R2 & _ & _ & _ & _ & _ & _ & _).
  assert (Hok2 : mem_ok demo_end KERNBASE pool demo2).
  { apply (mem_step_ok demo_end KERNBASE 0 Hk Ht _ demo1); [exact Hok|].
    apply (ms_fork _ _ _ demo1 0 (Some 1%nat)); [exact R1|exact demo_shared|exact demo_fork]. }
  destruct Hok2 as (fl & O & Hm). exists (o_tab (O 0%nat)), (o_tab (O 1%nat)).
  apply (two_ready demo_end KERNBASE Hk pool demo2 fl O 0 0 1 0 1 Hm); [discriminate|rewrite R2; discriminate|].
  apply (bool_decide_unpack _). vm_compute. reflexivity.
Qed.

(** The trap frame as [usertrapret] leaves it, and a process that calls
    [getpid]. *)
Definition ready_kernel : kernel unit := tf_set 0 16 4096 (tf_set 0 0 (MAKE_SATP demo_root) demo_kernel).
Definition call_core : core :=
  Core (fun r => if decide (r = A7) then 11 else 7) 0 0
    (Csrs 0 0 0 (u64 (TRAMPOLINE + (KERNBASE - KERNBASE))) 0 (MAKE_SATP (pagetable (curp 0 ready_kernel))) 0)
    (pmem (kmem ready_kernel)) 4000 true.

Lemma getpid_answers i c1 (s0 : hart unit) : s32 (tf_get i (tf_off A7) (kern_ (to_hart c1 s0))) = 11 -> killed (curp i (kern_ s0)) = 0 ->
  answers one_syscall i (to_hart c1 s0) (pid (curp i (kern_ s0))) (entered i (to_hart c1 s0)).
Proof. intros Hn Hk. change (tf_off A7) with tf_a7 in Hn. set (s := to_hart c1 s0) in *. unfold answers. rewrite Hn. cbn [Z.ltb Z.compare one_syscall Z.eqb Pos.eqb]. by split; [|split_and!]. Qed.

Lemma ready_kernel_ready : exists G GK, ready demo_end KERNBASE 0 ready_kernel demo_root G GK.
Proof.
  destruct demo_ready as (G & GK & R). exists G, GK. do 2 (apply ready_tf_set; [lia|]). exact R.
Qed.

#[local] Opaque ready_kernel.

Lemma syscall_roundtrip_witness : exists c1 s1 c2,
  run_at KERNBASE KERNBASE (KERNBASE + 256) (trap 8 call_core) = Ok c1 /\
  usertrap 0 64 0 0 Ok Ok one_syscall 0 0 (to_hart c1 (Hart ready_kernel (crs call_core) ∅)) = Ok (ToUser, s1) /\
  user c2 = true /\ pc c2 = 4004 /\ xr c2 S0 = 7.
Proof.
  assert (Hkl : killed (curp 0 (kern_ (Hart ready_kernel (crs call_core) ∅))) = 0) by (vm_compute; reflexivity).
  destruct ready_kernel_ready as (G & GK & R). set (s := Hart ready_kernel (crs call_core) ∅).
  destruct (syscall_roundtrip demo_end KERNBASE KERNBASE (KERNBASE + 256) 4096 0 64 0 0 Ok Ok one_syscall) with
    (i := 0%nat) (irq := 0) (c := call_core) (s := s) (kroot := demo_root) (G := G) (GK := GK)
    as (c1 & E & _ & _ & _ & _ & Hreg & Hsame & H).
  - vm_compute. reflexivity.
  - vm_compute. split; [split; [discriminate|reflexivity]|reflexivity].
  - vm_compute. split; [discriminate|reflexivity].
  - vm_compute. split; [discriminate|reflexivity].
  - vm_compute. discriminate.
  - exact R.
  - reflexivity.
  - reflexivity.
  - reflexivity.
  - reflexivity.
  - intros r. cbn [xr call_core]. destruct (decide (r = A7)); lia.
  - lia.
  - vm_compute. reflexivity.
  - vm_compute. reflexivity.
  - exact Hkl.
  - assert (Hn : s32 (tf_get 0 (tf_off A7) (kern_ (to_hart c1 s))) = 11) by (rewrite (Hreg A7); [reflexivity|discriminate]).
    destruct (H _ (entered 0 (to_hart c1 s)) G (fun _ => 0) (getpid_answers 0 c1 s Hn Hkl)) as (s1 & U & W).
    { exact (ready_entered demo_end KERNBASE 0 c1 s demo_root G GK R Hsame). }
    exists c1, s1. destruct (usertrapret _ _ _ _ 0 s1) as [[fn arg] s2]. destruct W as (c2 & _ & W1 & W2 & _ & W4 & _). exists c2.
    split; [exact E|]. split; [exact U|]. split; [exact W1|]. split; [exact W2|]. exact (W4 S0 ltac:(discriminate) ltac:(discriminate)).
Defined.

(** * The context switch, interrupts in the kernel, and the first
    instructions: theorems about swtch.S, kernelvec.S and entry.S *)

(** Facts about closed lists. *)
Ltac closed := by apply (bool_decide_unpack _); vm_compute.

(** ** swtch *)

(** The registers of a [struct context]. *)
Definition ctx_regs : list (reg * Z) :=
  [(RA, 0); (SP, 8); (S0, 16); (S1, 24); (S2, 32); (S3, 40); (S4, 48); (S5, 56); (S6, 64); (S7, 72); (S8, 80); (S9, 88); (S10, 96);
   (S11, 104)].

Lemma ctx_facts : fits 112 ctx_regs /\ aligned ctx_regs /\ NoDup (map snd ctx_regs) /\ NoDup (map fst ctx_regs).
Proof. split_and!; [by repeat constructor; cbn|by repeat constructor|closed|closed]. Qed.

Abbreviation context_at a := (fun x => a <= x < a + 112).

(** Code in [page] can run and the contexts at [old] and [new] are mapped,
    whatever the one at [old] holds. *)
Record can_switch (page : Z * Z) (old new : Z) (c : core) : Prop := {
  cs_code : runs page (satp (crs c)) (context_at old) (cmem c);
  cs_old : window (satp (crs c)) (context_at old) old old 112 (cmem c);
  cs_new : window (satp (crs c)) (context_at old) new new 112 (cmem c);
  cs_apart : new + 112 <= old \/ old + 112 <= new;
  cs_a0 : xr c A0 = old;
  cs_a1 : xr c A1 = new
}.

Lemma swtch_run page old new c : can_switch page old new c ->
  exists c', run page swtch c = Ok c' /\ pc c' = ld64 (cmem c) (new + 0) /\ crs c' = crs c /\
    (forall r o, (r, o) ∈ ctx_regs -> xr c' r = ld64 (cmem c) (new + o) /\ ld64 (cmem c') (old + o) = u64 (xr c r)) /\
    same_but (context_at old) (cmem c) (cmem c').
Proof.
  intros [C O N D H0 H1]. destruct ctx_facts as (Hf & Ha & Hn & Hn1). set (m := cmem c) in *.
  assert (Hw : within (context_at old) old 112) by exact (fun x H => H).
  pose proof (saves_same (context_at old) (xr c) old 112 ctx_regs Hw Hf m) as Hs. set (m1 := saves (xr c) old ctx_regs m) in *.
  change swtch with (sds A0 ctx_regs ++ (lds A1 ctx_regs ++ [JR RA])).
  rewrite (run_saves page A0 ctx_regs (context_at old) old old 112) by done. fold m m1.
  rewrite (run_loads page A1 ctx_regs (context_at old) new new 112);
    [|done|done|by apply (runs_after page _ _ m)|by apply (window_after _ _ new new 112 m)|done|by repeat constructor].
  erewrite run_step; [|exact (runs_after page _ _ m m1 C Hs)|reflexivity].
  assert (E : forall o, 0 <= o <= 104 -> ld64 m1 (new + o) = ld64 m (new + o)).
  { intros o Ho. apply ld64_ext. intros x Hx. apply Hs. lia. }
  assert (L : forall r o, (r, o) ∈ ctx_regs -> loads m1 new ctx_regs (xr c) r = ld64 m (new + o)).
  { intros r o Hro. rewrite (loads_in m1 new ctx_regs r o) by first [done|by intros ->; repeat (apply elem_of_cons in Hro as [[=]|Hro]); apply elem_of_nil in Hro].
    apply E. by apply (proj1 (Forall_forall _ _) Hf (r, o)). }
  eexists. split; [reflexivity|]. split_and!.
  - apply (L RA 0). by left.
  - done.
  - intros r o Hro. split; [by apply L|]. by apply (saves_in (xr c) old ctx_regs r o).
  - exact Hs.
Qed.

(** C17: the context switch.  [swtch(old, new)] jumps to the return address
    in the context [new].  When later some other thread, whatever it has done
    to registers and to memory outside the context [old], calls
    [swtch(other, old)], the thread that had called first continues behind its
    call, with its stack and all callee-saved registers as they were, and the
    context [other] holds the registers of the thread that gave way; nothing
    else in memory changes.  [can_switch]: the code and the two contexts are
    mapped, with addresses equal to physical ones as in the kernel's page table,
    the contexts do not overlap, and [a0] and [a1] are their addresses. *)
Theorem swtch_roundtrip page old new c :
  can_switch page old new c -> (forall r, 0 <= xr c r < 18446744073709551616) ->
  exists c1, run page swtch c = Ok c1 /\ pc c1 = ld64 (cmem c) (new + 0) /\
    (forall other c2, can_switch page other old c2 -> (forall x, context_at old x -> ld8 (cmem c2) x = ld8 (cmem c1) x) ->
     exists c3, run page swtch c2 = Ok c3 /\ pc c3 = xr c RA /\ (forall r o, (r, o) ∈ ctx_regs -> xr c3 r = xr c r) /\
       (forall r o, (r, o) ∈ ctx_regs -> ld64 (cmem c3) (other + o) = u64 (xr c2 r)) /\
       same_but (context_at other) (cmem c2) (cmem c3)).
Proof.
  intros Hc Hx. destruct (swtch_run page old new c Hc) as (c1 & E & P & _ & R & _). exists c1. split_and!; [done..|].
  intros other c2 Hc2 Hm. destruct (swtch_run page other old c2 Hc2) as (c3 & E3 & P3 & _ & R3 & S3). exists c3.
  destruct ctx_facts as (Hf & _).
  assert (L : forall r o, (r, o) ∈ ctx_regs -> ld64 (cmem c2) (old + o) = xr c r).
  { intros r o Hro. rewrite <- (u64_id (xr c r)), <- (proj2 (R r o Hro)) by apply Hx. apply ld64_ext. intros x Hxx. apply Hm.
    pose proof (proj1 (Forall_forall _ _) Hf (r, o) Hro) as Ho. cbn [snd] in Ho. lia. }
  split_and!; auto.
  - rewrite P3. apply (L RA 0). by left.
  - intros r o Hro. rewrite (proj1 (R3 r o Hro)). by apply L.
  - intros r o Hro. by apply R3.
Qed.

(** Two threads with paging off: one switches to the other, which switches
    back with other values in its registers. *)
Lemma bare_switch page old new c : fst page = snd page -> satp (crs c) = 0 -> 0 <= old -> 0 <= new -> old + 112 <= new -> new + 112 < 18446744073709551616 ->
  xr c A0 = old -> xr c A1 = new -> can_switch page old new c.
Proof.
  intros Hp Hs Ho Hn Hd Hm H0 H1. split; try done; [..|by right]; rewrite Hs.
  - intros m' _. by rewrite <- Hp.
  - intros m' o acc _ _ Hr. change (Some (u64 (old + o)) = Some (old + o)). rewrite u64_id; [done|lia].
  - intros m' o acc _ _ Hr. change (Some (u64 (new + o)) = Some (new + o)). rewrite u64_id; [done|lia].
Qed.

Lemma bare_switch_back page old new c : fst page = snd page -> satp (crs c) = 0 -> 0 <= old -> 0 <= new -> old + 112 <= new -> new + 112 < 18446744073709551616 ->
  xr c A0 = new -> xr c A1 = old -> can_switch page new old c.
Proof.
  intros Hp Hs Ho Hn Hd Hm H0 H1. split; try done; [..|by left]; rewrite Hs.
  - intros m' _. by rewrite <- Hp.
  - intros m' o acc _ _ Hr. change (Some (u64 (new + o)) = Some (new + o)). rewrite u64_id; [done|lia].
  - intros m' o acc _ _ Hr. change (Some (u64 (old + o)) = Some (old + o)). rewrite u64_id; [done|lia].
Qed.

Definition switch_core : core :=
  Core (fun r => if decide (r = A0) then 4096 else if decide (r = A1) then 8192 else if decide (r = RA) then 1234 else 7) 0 0 (Csrs 0 0 0 0 0 0 0) ∅ 0 false.
Definition back_core (m : mem) : core :=
  Core (fun r => if decide (r = A0) then 8192 else if decide (r = A1) then 4096 else 9) 0 0 (Csrs 0 0 0 0 0 0 0) m 0 false.

Lemma swtch_roundtrip_witness : exists c1 c3, run (0, 0) swtch switch_core = Ok c1 /\ run (0, 0) swtch (back_core (cmem c1)) = Ok c3 /\
  pc c3 = 1234 /\ xr c3 S0 = 7.
Proof.
  assert (Hx : forall r, 0 <= xr switch_core r < 18446744073709551616) by (intros r; cbn [xr switch_core]; repeat destruct (decide _); lia).
  destruct (swtch_roundtrip (0, 0) 4096 8192 switch_core) as (c1 & E1 & _ & H).
  - apply bare_switch; try reflexivity; lia.
  - exact Hx.
  - destruct (H 8192 (back_core (cmem c1))) as (c3 & E3 & P3 & R3 & _).
    + apply bare_switch_back; try reflexivity; lia.
    + intros x _. reflexivity.
    + exists c1, c3. split; [exact E1|]. split; [exact E3|]. split; [exact P3|]. apply (R3 S0 16). apply (bool_decide_unpack _). vm_compute. reflexivity.
Defined.

(** ** kernelvec *)

(** The registers [kernelvec] saves, and those it restores. *)
Definition kv_saved : list (reg * Z) :=
  [(RA, 0); (SP, 8); (GP, 16); (TP, 24); (T0, 32); (T1, 40); (T2, 48); (A0, 72); (A1, 80); (A2, 88); (A3, 96); (A4, 104); (A5, 112);
   (A6, 120); (A7, 128); (T3, 216); (T4, 224); (T5, 232); (T6, 240)].
Definition kv_restored : list (reg * Z) :=
  [(RA, 0); (SP, 8); (GP, 16); (T0, 32); (T1, 40); (T2, 48); (A0, 72); (A1, 80); (A2, 88); (A3, 96); (A4, 104); (A5, 112);
   (A6, 120); (A7, 128); (T3, 216); (T4, 224); (T5, 232); (T6, 240)].

Lemma kv_facts : fits 256 kv_saved /\ aligned kv_saved /\ NoDup (map snd kv_saved) /\ NoDup (map fst kv_saved) /\
  fits 256 kv_restored /\ NoDup (map fst kv_restored).
Proof. split_and!; [by repeat constructor; cbn|by repeat constructor|closed|closed|by repeat constructor; cbn|closed]. Qed.

Definition callee_saved (r : reg) : Prop := r ∈ [SP; S0; S1; S2; S3; S4; S5; S6; S7; S8; S9; S10; S11].

(** A register is kept by C code or saved on the stack. *)
Lemma kv_cases r : r <> ZERO -> r <> TP -> r <> SP ->
  (callee_saved r /\ r <> RA /\ r ∉ map fst kv_restored) \/
  let o := match find (fun p => bool_decide (fst p = r)) kv_restored with Some (_, o) => o | None => 0 end in
  (r, o) ∈ kv_restored /\ (r, o) ∈ kv_saved.
Proof.
  intros Hz Ht Hs. destruct r; try done; first [by left; split_and!; [apply (bool_decide_unpack _); vm_compute| |closed]|right; split; closed].
Qed.

Section Kernelvec.
Variables (page : Z * Z) (kerneltrap_addr back stk : Z).
Abbreviation area := (fun x => stk <= x < stk + 256).

(** 256 bytes below the stack pointer are mapped. *)
Definition has_stack (c : core) : Prop :=
  runs page (satp (crs c)) area (cmem c) /\ window (satp (crs c)) area (u64 (xr c SP - 256)) stk 256 (cmem c).

Lemma area_within : within area stk 256.
Proof. exact (fun x H => H). Qed.

(** The way in. *)
Lemma kernelvec_run c : has_stack c -> (forall r, 0 <= xr c r < 18446744073709551616) ->
  exists c1, run page (kernelvec kerneltrap_addr back) c = Ok c1 /\ pc c1 = kerneltrap_addr /\ xr c1 RA = back /\
    xr c1 SP = u64 (xr c SP - 256) /\ (forall r, r <> RA -> r <> SP -> xr c1 r = xr c r) /\ crs c1 = crs c /\ user c1 = user c /\
    (forall r o, (r, o) ∈ kv_saved -> ld64 (cmem c1) (stk + o) = if decide (r = SP) then u64 (xr c SP - 256) else xr c r) /\
    same_but area (cmem c) (cmem c1).
Proof.
  intros [C Wn] Hx. destruct kv_facts as (Hf & Ha & Hn & _). set (sp1 := u64 (xr c SP - 256)). set (x1 := upd (xr c) SP sp1).
  change (kernelvec kerneltrap_addr back) with (ADDI SP SP (-256) :: sds SP kv_saved ++ [CALL kerneltrap_addr back]).
  erewrite run_step; [|exact C|reflexivity].
  rewrite (run_saves page SP kv_saved area sp1 stk 256); [|exact area_within|done|exact C|exact Wn|reflexivity].
  pose proof (saves_same area x1 stk 256 kv_saved area_within Hf (cmem c)) as Hs.
  erewrite run_step; [|exact (runs_after page _ _ _ _ C Hs)|reflexivity]. eexists. split; [reflexivity|]. split_and!; try reflexivity.
  - intros r Hr Hp. cbn. by rewrite !upd_other by done.
  - intros r o Hro. transitivity (u64 (x1 r)); [by apply (saves_in x1 stk kv_saved r o)|]. unfold x1, upd.
    destruct (decide (r = SP)) as [->|]; [|apply u64_id, Hx]. cbn. unfold sp1, u64. apply Zmod_mod.
  - exact Hs.
Qed.

(** The way out. *)
Lemma kernelvec_back_run c : has_stack (set_reg SP (u64 (xr c SP + 256)) c) -> 0 <= xr c SP < 18446744073709551616 ->
  ld64 (cmem c) (stk + 8) = xr c SP ->
  exists c1, run page kernelvec_back c = Ok c1 /\ pc c1 = sepc (crs c) /\ cmem c1 = cmem c /\
    sstatus (crs c1) = sret_status (sstatus (crs c)) /\ user c1 = negb (has (sstatus (crs c)) SSTATUS_SPP) /\
    xr c1 SP = u64 (xr c SP + 256) /\ (forall r o, (r, o) ∈ kv_restored -> r <> SP -> xr c1 r = ld64 (cmem c) (stk + o)) /\
    (forall r, r ∉ map fst kv_restored -> xr c1 r = xr c r).
Proof.
  intros [C Wn] Hsp H8. destruct kv_facts as (_ & _ & _ & _ & Hf & Hn). cbn [set_reg xr crs cmem] in *. rewrite upd_same in Wn by done.
  replace (u64 (u64 (xr c SP + 256) - 256)) with (xr c SP) in Wn
    by (unfold u64; rewrite Zminus_mod_idemp_l; replace (xr c SP + 256 - 256) with (xr c SP) by lia; by rewrite Z.mod_small).
  change kernelvec_back with (lds SP kv_restored ++ [ADDI SP SP 256; SRET]).
  rewrite (run_loads page SP kv_restored area (xr c SP) stk 256); [|done|done|exact C|exact Wn|done|].
  2: { assert (H : Forall (fun p => fst p = SP -> snd p = 8) kv_restored) by (by repeat constructor).
       eapply Forall_impl; [exact H|]. intros [r o] Ho E. by rewrite (Ho E). }
  do 2 (erewrite run_step; [|exact C|reflexivity]). eexists. split; [reflexivity|]. split_and!; try reflexivity.
  - cbn [xr set_reg set_xr]. rewrite upd_same by done. rewrite (loads_in (cmem c) stk kv_restored SP 8); [by rewrite H8|done|done|closed].
  - intros r o Hro Hne. cbn [xr set_reg set_xr]. rewrite upd_other by done. apply loads_in; auto.
    intros ->. repeat (apply elem_of_cons in Hro as [[=]|Hro]). by apply elem_of_nil in Hro.
  - intros r Hr. cbn [xr set_reg set_xr]. rewrite upd_other; [by apply loads_out|]. intros ->. destruct Hr. closed.
Qed.

(** [kerneltrap] leaves [sepc] and [sstatus] as it found them. *)
Lemma kerneltrap_restores {F} {HF : FileLayer F} ticks_addr now h ui vi me irq meanwhile (s s2 : hart F) :
  kerneltrap ticks_addr now h ui vi me irq meanwhile s = Ok s2 -> sepc (csr s2) = sepc (csr s) /\ sstatus (csr s2) = sstatus (csr s).
Proof.
  unfold kerneltrap. destruct (_ =? 0); [done|]. destruct (negb _); [done|]. intros E. apply bind_ok in E as ([w s1] & _ & E).
  destruct (w =? 0); [done|]. injection E as <-. done.
Qed.

(** An interrupt in the kernel is transparent.  The hart traps in supervisor
    mode to [kernelvec]; it calls [kerneltrap] with the registers saved on the
    stack, and when that returns without a panic, its compiled code having
    kept the callee-saved registers and the saved area of the stack (on this
    hart or, after a [yield], on another), [kernelvec] continues where the
    interrupt was taken, in supervisor mode, with every register except [tp]
    as it was and interrupts enabled as they were. *)
Theorem kernelvec_resumes {F} {HF : FileLayer F} ticks_addr now h ui vi me irq meanwhile (s s2 : hart F) cause c c2 :
  user c = false -> has_stack (trap cause c) -> (forall r, 0 <= xr c r < 18446744073709551616) ->
  exists c1, run page (kernelvec kerneltrap_addr back) (trap cause c) = Ok c1 /\ pc c1 = kerneltrap_addr /\ xr c1 RA = back /\
    (csr s = crs c1 -> kerneltrap ticks_addr now h ui vi me irq meanwhile s = Ok s2 -> csr s2 = crs c2 ->
     (forall r, callee_saved r -> xr c2 r = xr c1 r) -> (forall x, area x -> ld8 (cmem c2) x = ld8 (cmem c1) x) ->
     runs page (satp (crs c2)) area (cmem c2) -> window (satp (crs c2)) area (xr c2 SP) stk 256 (cmem c2) ->
     exists c3, run page kernelvec_back c2 = Ok c3 /\ pc c3 = pc c /\ user c3 = false /\
       (forall r, r <> ZERO -> r <> TP -> xr c3 r = xr c r) /\ xr c3 TP = xr c2 TP /\
       Z.testbit (sstatus (crs c3)) 1 = Z.testbit (sstatus (crs c)) 1).
Proof.
  intros Hu Hst Hx. destruct (kernelvec_run (trap cause c) Hst Hx) as (c1 & E & P & Rb & Rs & Rr & Rc & _ & Sv & _).
  exists c1. split_and!; [done..|]. intros Hs Hk Hs2 Hcs Hm C2 W2. destruct (kerneltrap_restores _ _ _ _ _ _ _ _ _ _ Hk) as [K1 K2].
  rewrite Hs, Hs2, Rc in K1, K2. change (xr (trap cause c)) with (xr c) in *. pose proof (u64_range (xr c SP - 256)) as Hr.
  assert (Esp : xr c2 SP = u64 (xr c SP - 256)) by (rewrite Hcs, Rs; [done|by left]).
  assert (E256 : u64 (xr c2 SP + 256) = xr c SP).
  { rewrite Esp. unfold u64. rewrite Zplus_mod_idemp_l. replace (xr c SP - 256 + 256) with (xr c SP) by lia. by apply Z.mod_small. }
  assert (L : forall r o, (r, o) ∈ kv_saved -> ld64 (cmem c2) (stk + o) = if decide (r = SP) then u64 (xr c SP - 256) else xr c r).
  { intros r o Hro. rewrite <- (Sv r o Hro). apply ld64_ext. intros x Hxx. apply Hm. destruct kv_facts as (Hf & _).
    pose proof (proj1 (Forall_forall _ _) Hf (r, o) Hro) as Ho. cbn [snd] in Ho. lia. }
  destruct (kernelvec_back_run c2) as (c3 & E3 & P3 & _ & S3 & U3 & SP3 & R3 & N3).
  { split; [exact C2|]. cbn [set_reg xr crs cmem]. rewrite upd_same, E256, <- Esp by done. exact W2. }
  { by rewrite Esp. }
  { rewrite (L SP 8) by closed. done. }
  exists c3. destruct (status_bits false (sstatus (crs c))) as [(B8 & B5 & _) _].
  change (sstatus (crs (trap cause c))) with (trap_status (user c) (sstatus (crs c))) in K2. rewrite Hu in K2.
  split_and!; [done|by rewrite P3, K1| | | |].
  - rewrite U3, K2. change SSTATUS_SPP with (Z.shiftl 1 8). by rewrite has_bit, B8 by lia.
  - intros r Hz Ht. destruct (decide (r = SP)) as [->|Hne]; [by rewrite SP3|].
    destruct (kv_cases r Hz Ht Hne) as [(Hcal & Hra & Hni)|(Ho1 & Ho2)].
    + by rewrite N3, Hcs, Rr.
    + rewrite (R3 r _ Ho1 Hne), (L r _ Ho2). by rewrite decide_False.
  - apply N3. closed.
  - rewrite S3, K2. destruct (status_bits true (trap_status false (sstatus (crs c)))) as [_ (_ & _ & B)]. by rewrite B, B5.
Qed.

End Kernelvec.

(** ** entry.S *)

(** Every hart starts with paging off, and reaches [start] with its stack
    pointer at the end of its own 4096 bytes of [stack0]. *)
Theorem entry_stack page stack0 start_addr spin c :
  satp (crs c) = 0 -> fst page = snd page -> 0 <= stack0 -> 0 <= mhartid c -> stack0 + 4096 * (mhartid c + 1) < 18446744073709551616 ->
  exists c', run page (_entry stack0 start_addr spin) c = Ok c' /\ pc c' = start_addr /\ xr c' SP = stack0 + 4096 * (mhartid c + 1) /\
    cmem c' = cmem c.
Proof.
  intros Hs Hp H0 Hh Hm. assert (R : runs page (satp (crs c)) (fun _ => False) (cmem c)) by (intros m' _; rewrite Hs, Hp; done).
  unfold _entry. do 7 (erewrite run_step; [|exact R|reflexivity]). eexists. split; [reflexivity|]. split; [reflexivity|]. split; [|reflexivity].
  change (u64 (stack0 + u64 (4096 * u64 (mhartid c + 1))) = stack0 + 4096 * (mhartid c + 1)).
  rewrite (u64_id (mhartid c + 1)), (u64_id (4096 * _)), u64_id by lia. done.
Qed.
