(* ===== verification/Sysfile.v ===== *)
(** * kernel/sysfile.c: system calls on files

    The part of a call between [begin_op] and [end_op] that concerns inodes
    is a definition on the file system of fs.c; the calls fetch their
    arguments and work on the descriptors of the current process [i].  A
    pointer to a [struct file] in [ofile], or to an inode in [cwd], is 0 for
    null and otherwise one more than the index in its table. *)
From S2P Require Import Prelude Cstring Riscv Kalloc Vm Block Bio Log Fs Pipe File Proc Syscall.

Definition O_RDONLY : Z := 0.
Definition O_WRONLY : Z := 1.
Definition O_RDWR : Z := 2.
Definition O_CREATE : Z := 512.
Definition O_TRUNC : Z := 1024.
Definition MAXPATH : Z := 128.

Section Inodes.
Context {T : Type} {HT : TxStore T}.
Variable me : Z.
Abbreviation fst_ := (fs T).

Definition add_nlink (ip : nat) (d : Z) (s : fst_) : outcome fst_ :=
  iupdate ip (seti ip (fun p => set_nlink (s16 (nlink p + d)) p) s).

(** [sys_link] after [begin_op]: the label [bad]. *)
Definition link_bad (ip : nat) (s : fst_) : outcome (Z * fst_) :=
  s ← ilock me ip s;
  s ← add_nlink ip (-1) s;
  s ← iunlockput me ip s;
  Ok (-1, s).

Definition link_fs (old new : list Z) (cwd : nat) (s : fst_) : outcome (Z * fst_) :=
  '(ip, s) ← namei me old cwd s;
  match ip with
  | None => Ok (-1, s)
  | Some ip =>
      s ← ilock me ip s;
      if i_type (geti s ip) =? T_DIR then s ← iunlockput me ip s; Ok (-1, s)
      else
        s ← add_nlink ip 1 s;
        s ← iunlock me ip s;
        '(dp, name, s) ← nameiparent me new cwd s;
        match dp with
        | None => link_bad ip s
        | Some dp =>
            s ← ilock me dp s;
            '(r, s) ← (if negb (i_dev (geti s dp) =? i_dev (geti s ip)) then Ok (-1, s)
                       else dirlink me dp name (inum (geti s ip)) s);
            if r <? 0 then s ← iunlockput me dp s; link_bad ip s
            else
              s ← iunlockput me dp s;
              s ← iput me ip s;
              Ok (0, s)
        end
  end.

Fixpoint isdirempty_loop (k : nat) (dp : nat) (off : Z) (s : fst_) : outcome (bool * fst_) :=
  if off <? i_size (geti s dp) then
    match k with
    | O => NoFuel
    | S k' =>
        '(r, de, s) ← read_dirent dp off s;
        if negb (r =? 16) then Panic "isdirempty: readi"
        else if negb (de_inum de =? 0) then Ok (false, s)
        else isdirempty_loop k' dp (off + 16) s
    end
  else Ok (true, s).

Definition isdirempty (dp : nat) (s : fst_) : outcome (bool * fst_) :=
  isdirempty_loop (Z.to_nat (i_size (geti s dp) / 16 + 1)) dp 32 s.

Definition dot : list Z := [46].
Definition dotdot : list Z := [46; 46].

(** [sys_unlink] after [begin_op]. *)
Definition unlink_fs (path : list Z) (cwd : nat) (s : fst_) : outcome (Z * fst_) :=
  '(dp, name, s) ← nameiparent me path cwd s;
  match dp with
  | None => Ok (-1, s)
  | Some dp =>
      s ← ilock me dp s;
      if (namecmp name dot =? 0) || (namecmp name dotdot =? 0) then s ← iunlockput me dp s; Ok (-1, s)
      else
        '(o, s) ← dirlookup dp name s;
        match o with
        | None => s ← iunlockput me dp s; Ok (-1, s)
        | Some (ip, off) =>
            s ← ilock me ip s;
            if nlink (geti s ip) <? 1 then Panic "unlink: nlink < 1"
            else
              let isdir := i_type (geti s ip) =? T_DIR in
              '(empty, s) ← (if isdir then isdirempty ip s else Ok (true, s));
              if negb empty then
                s ← iunlockput me ip s;
                s ← iunlockput me dp s;
                Ok (-1, s)
              else
                '(r, _, s) ← writei dp (KernelSrc (replicate 16 0)) off 16 s;
                if negb (r =? 16) then Panic "unlink: writei"
                else
                  s ← (if isdir then add_nlink dp (-1) s else Ok s);
                  s ← iunlockput me dp s;
                  s ← add_nlink ip (-1) s;
                  s ← iunlockput me ip s;
                  Ok (0, s)
        end
  end.

(** [create]: the inode is locked. *)
Definition create (path : list Z) (type major minor : Z) (cwd : nat) (s : fst_) : outcome (option nat * fst_) :=
  '(dp, name, s) ← nameiparent me path cwd s;
  match dp with
  | None => Ok (None, s)
  | Some dp =>
      s ← ilock me dp s;
      '(o, s) ← dirlookup dp name s;
      match o with
      | Some (ip, _) =>
          s ← iunlockput me dp s;
          s ← ilock me ip s;
          let t := i_type (geti s ip) in
          if (type =? T_FILE) && ((t =? T_FILE) || (t =? T_DEVICE)) then Ok (Some ip, s)
          else s ← iunlockput me ip s; Ok (None, s)
      | None =>
          '(ip, s) ← ialloc (i_dev (geti s dp)) type s;
          match ip with
          | None => s ← iunlockput me dp s; Ok (None, s)
          | Some ip =>
              s ← ilock me ip s;
              let s := seti ip (fun p => set_nlink 1 (set_minor minor (set_major major p))) s in
              s ← iupdate ip s;
              '(r, s) ← (if type =? T_DIR then
                           '(r, s) ← dirlink me ip dot (inum (geti s ip)) s;
                           if r <? 0 then Ok (r, s) else dirlink me ip dotdot (inum (geti s dp)) s
                         else Ok (0, s));
              '(r, s) ← (if r <? 0 then Ok (r, s) else dirlink me dp name (inum (geti s ip)) s);
              if r <? 0 then
                let s := seti ip (set_nlink 0) s in
                s ← iupdate ip s;
                s ← iunlockput me ip s;
                s ← iunlockput me dp s;
                Ok (None, s)
              else
                s ← (if type =? T_DIR then add_nlink dp 1 s else Ok s);
                s ← iunlockput me dp s;
                Ok (Some ip, s)
          end
      end
  end.

(** [sys_open] up to the allocation of the file: the inode is locked. *)
Definition open_fs (path : list Z) (omode : Z) (cwd : nat) (s : fst_) : outcome (option nat * fst_) :=
  '(ip, s) ← (if negb (Z.land omode O_CREATE =? 0) then create path T_FILE 0 0 cwd s
              else
                '(ip, s) ← namei me path cwd s;
                match ip with
                | None => Ok (None, s)
                | Some ip =>
                    s ← ilock me ip s;
                    if (i_type (geti s ip) =? T_DIR) && negb (omode =? O_RDONLY) then s ← iunlockput me ip s; Ok (None, s)
                    else Ok (Some ip, s)
                end);
  match ip with
  | None => Ok (None, s)
  | Some ip =>
      let p := geti s ip in
      if (i_type p =? T_DEVICE) && ((i_major p <? 0) || (NDEV <=? i_major p)) then s ← iunlockput me ip s; Ok (None, s)
      else Ok (Some ip, s)
  end.

(** [sys_mkdir] and [sys_mknod] after the arguments. *)
Definition mknod_fs (path : list Z) (type major minor : Z) (cwd : nat) (s : fst_) : outcome (Z * fst_) :=
  '(ip, s) ← create path type major minor cwd s;
  match ip with
  | None => Ok (-1, s)
  | Some ip => s ← iunlockput me ip s; Ok (0, s)
  end.

(** [sys_chdir]: the new directory, or [None] for -1; the old one is put. *)
Definition chdir_fs (path : list Z) (cwd : nat) (s : fst_) : outcome (option nat * fst_) :=
  '(ip, s) ← namei me path cwd s;
  match ip with
  | None => Ok (None, s)
  | Some ip =>
      s ← ilock me ip s;
      if negb (i_type (geti s ip) =? T_DIR) then s ← iunlockput me ip s; Ok (None, s)
      else
        s ← iunlock me ip s;
        s ← iput me cwd s;
        Ok (Some ip, s)
  end.

End Inodes.

Section Sysfile.
Context {T D : Type} {HT : TxStore T} {HO : TxOps T} {HD : Devsw D}.
Variable kend : Z.
Abbreviation kern := (kernel (kfs T D)).
Abbreviation kfst := (kfs T D).

Definition fret (v : Z) (k : kern) : outcome (sysres * kern) := Ok (Ret v, k).
Definition kfiles (k : kern) : kfst := files (kprocs k).
Definition set_kfiles (s : kfst) (k : kern) : kern := set_kprocs (set_files s (kprocs k)) k.

(** The id of the current process, for the sleep locks, and its directory. *)
Definition mypid (i : nat) (k : kern) : Z := pid (curp i k).
Definition mycwd (i : nat) (k : kern) : nat := Z.to_nat (cwd (curp i k) - 1).

(** The index of the [struct file] that a pointer points to, and back. *)
Definition fidx (f : Z) : nat := Z.to_nat (f - 1).
Definition fptr (f : nat) : Z := Z.of_nat f + 1.

Definition ofile_at (i : nat) (fd : nat) (k : kern) : Z := default 0 (ofile (curp i k) !! fd).
Definition set_ofile_at (i fd : nat) (f : Z) (k : kern) : kern :=
  set_kprocs (setp i (fun p => set_ofile (<[fd := f]> (ofile p)) p) (kprocs k)) k.

(** A call of file.c, and one that also changes memory. *)
Definition on_files {A} (f : kfst -> outcome (A * kfst)) (k : kern) : outcome (A * kern) :=
  '(r, s) ← f (kfiles k); Ok (r, set_kfiles s k).
Definition in_files (f : kfst -> outcome kfst) (k : kern) : outcome kern :=
  s ← f (kfiles k); Ok (set_kfiles s k).
Definition on_files_mem {A} (f : phys -> kfst -> outcome (A * phys * kfst)) (k : kern) : outcome (A * kern) :=
  '(r, m, s) ← f (kmem k) (kfiles k); Ok (r, set_kmem m (set_kfiles s k)).

(** The body of a call that is one transaction. *)
Definition in_op {A} (f : fs T -> outcome (A * fs T)) (k : kern) : outcome (A * kern) :=
  k ← in_files File.begin_op k;
  '(r, k) ← on_files (File.on_fs f) k;
  k ← in_files File.end_op k;
  Ok (r, k).

(** The descriptor and the file, or [None] for -1. *)
Definition argfd (i : nat) (n : Z) (k : kern) : outcome (option (nat * nat)) :=
  fd ← argint i n k;
  if (fd <? 0) || (Z.of_nat NOFILE <=? fd) then Ok None
  else
    let f := ofile_at i (Z.to_nat fd) k in
    Ok (if f =? 0 then None else Some (Z.to_nat fd, fidx f)).

Fixpoint fdalloc_loop (n fd i f : nat) (k : kern) : option nat * kern :=
  match n with
  | O => (None, k)
  | S n' =>
      if ofile_at i fd k =? 0 then (Some fd, set_ofile_at i fd (fptr f) k)
      else fdalloc_loop n' (S fd) i f k
  end.

Definition fdalloc (i f : nat) (k : kern) : option nat * kern := fdalloc_loop NOFILE 0 i f k.

Definition sys_dup (i : nat) (k : kern) : outcome (sysres * kern) :=
  a ← argfd i 0 k;
  match a with
  | None => fret (-1) k
  | Some (_, f) =>
      match fdalloc i f k with
      | (None, k) => fret (-1) k
      | (Some fd, k) =>
          k ← in_files (File.filedup f) k;
          fret (Z.of_nat fd) k
      end
  end.

Definition is_dead (i : nat) (k : kern) : bool := z2b (killed (curp i k)).

Definition sys_read (i : nat) (k : kern) : outcome (sysres * kern) :=
  p ← argaddr i 1 k;
  n ← argint i 2 k;
  a ← argfd i 0 k;
  match a with
  | None => fret (-1) k
  | Some (_, f) =>
      '(r, k) ← on_files_mem (File.fileread (mypid i k) f (is_dead i k) (pagetable (curp i k)) p n) k;
      fret r k
  end.

Definition sys_write (i : nat) (k : kern) : outcome (sysres * kern) :=
  p ← argaddr i 1 k;
  n ← argint i 2 k;
  a ← argfd i 0 k;
  match a with
  | None => fret (-1) k
  | Some (_, f) =>
      '(r, k) ← on_files (File.filewrite (mypid i k) f (is_dead i k) (pagetable (curp i k)) p n (kmem k)) k;
      fret r k
  end.

Definition sys_close (i : nat) (k : kern) : outcome (sysres * kern) :=
  a ← argfd i 0 k;
  match a with
  | None => fret (-1) k
  | Some (fd, f) =>
      let k := set_ofile_at i fd 0 k in
      k ← in_files (File.fileclose (mypid i k) f) k;
      fret 0 k
  end.

(** [pad] are the padding bytes of the [struct stat]. *)
Definition sys_fstat (pad : list Z) (i : nat) (k : kern) : outcome (sysres * kern) :=
  st ← argaddr i 1 k;
  a ← argfd i 0 k;
  match a with
  | None => fret (-1) k
  | Some (_, f) =>
      '(r, k) ← on_files_mem (File.filestat (mypid i k) pad f (pagetable (curp i k)) st) k;
      fret r k
  end.

Definition sys_link (i : nat) (k : kern) : outcome (sysres * kern) :=
  old ← argstr i 0 MAXPATH k;
  match old with
  | None => fret (-1) k
  | Some old =>
      new ← argstr i 1 MAXPATH k;
      match new with
      | None => fret (-1) k
      | Some new =>
          '(r, k) ← in_op (link_fs (mypid i k) old new (mycwd i k)) k;
          fret r k
      end
  end.

Definition sys_unlink (i : nat) (k : kern) : outcome (sysres * kern) :=
  path ← argstr i 0 MAXPATH k;
  match path with
  | None => fret (-1) k
  | Some path =>
      '(r, k) ← in_op (unlink_fs (mypid i k) path (mycwd i k)) k;
      fret r k
  end.

(** The fields of a newly opened file. *)
Definition open_file_of (ip : nat) (p : inode) (omode : Z) (f : file) : file :=
  let f :=
    if i_type p =? T_DEVICE then set_fmajor (i_major p) (set_ftype FD_DEVICE f)
    else set_foff 0 (set_ftype FD_INODE f) in
  let wr := negb (Z.land omode O_WRONLY =? 0) in
  set_writable (wr || negb (Z.land omode O_RDWR =? 0)) (set_readable (negb wr) (set_fip ip f)).

(** Give up an inode and end the transaction with -1. *)
Definition open_fail (i ip : nat) (k : kern) : outcome (sysres * kern) :=
  k ← in_files (File.in_fs (iunlockput (mypid i k) ip)) k;
  k ← in_files File.end_op k;
  fret (-1) k.

(** [sys_open] from [filealloc] on, with the inode locked. *)
Definition open_install (i ip : nat) (omode : Z) (k : kern) : outcome (sysres * kern) :=
  let '(f, s) := File.filealloc (kfiles k) in
  let k := set_kfiles s k in
  match f with
  | None => open_fail i ip k
  | Some f =>
      match fdalloc i f k with
      | (None, k) =>
          k ← in_files (File.fileclose (mypid i k) f) k;
          open_fail i ip k
      | (Some fd, k) =>
          let p := geti (fsys (kfiles k)) ip in
          let k := set_kfiles (File.setf f (open_file_of ip p omode) (kfiles k)) k in
          k ← (if negb (Z.land omode O_TRUNC =? 0) && (i_type p =? T_FILE)
               then in_files (File.in_fs (itrunc ip)) k else Ok k);
          k ← in_files (File.in_fs (iunlock (mypid i k) ip)) k;
          k ← in_files File.end_op k;
          fret (Z.of_nat fd) k
      end
  end.

Definition sys_open (i : nat) (k : kern) : outcome (sysres * kern) :=
  omode ← argint i 1 k;
  path ← argstr i 0 MAXPATH k;
  match path with
  | None => fret (-1) k
  | Some path =>
      k ← in_files File.begin_op k;
      '(ip, k) ← on_files (File.on_fs (open_fs (mypid i k) path omode (mycwd i k))) k;
      match ip with
      | None => k ← in_files File.end_op k; fret (-1) k
      | Some ip => open_install i ip omode k
      end
  end.

Definition sys_mkdir (i : nat) (k : kern) : outcome (sysres * kern) :=
  k ← in_files File.begin_op k;
  path ← argstr i 0 MAXPATH k;
  '(r, k) ← (match path with
             | None => Ok (-1, k)
             | Some path => on_files (File.on_fs (mknod_fs (mypid i k) path T_DIR 0 0 (mycwd i k))) k
             end);
  k ← in_files File.end_op k;
  fret r k.

(** [major] and [minor] become [short]. *)
Definition sys_mknod (i : nat) (k : kern) : outcome (sysres * kern) :=
  k ← in_files File.begin_op k;
  major ← argint i 1 k;
  minor ← argint i 2 k;
  path ← argstr i 0 MAXPATH k;
  '(r, k) ← (match path with
             | None => Ok (-1, k)
             | Some path => on_files (File.on_fs (mknod_fs (mypid i k) path T_DEVICE (s16 major) (s16 minor) (mycwd i k))) k
             end);
  k ← in_files File.end_op k;
  fret r k.

Definition sys_chdir (i : nat) (k : kern) : outcome (sysres * kern) :=
  k ← in_files File.begin_op k;
  path ← argstr i 0 MAXPATH k;
  '(ip, k) ← (match path with
              | None => Ok (None, k)
              | Some path => on_files (File.on_fs (chdir_fs (mypid i k) path (mycwd i k))) k
              end);
  k ← in_files File.end_op k;
  match ip with
  | None => fret (-1) k
  | Some ip => fret 0 (set_kprocs (setp i (set_cwd (Z.of_nat ip + 1)) (kprocs k)) k)
  end.

(** Close both ends of a pipe. *)
Definition close_ends (i rf wf : nat) (k : kern) : outcome (sysres * kern) :=
  k ← in_files (File.fileclose (mypid i k) rf) k;
  k ← in_files (File.fileclose (mypid i k) wf) k;
  fret (-1) k.

Definition sys_pipe (i : nat) (k : kern) : outcome (sysres * kern) :=
  fdarray ← argaddr i 0 k;
  '(o, k) ← on_files_mem (File.pipealloc (mypid i k)) k;
  match o with
  | None => fret (-1) k
  | Some (rf, wf) =>
      match fdalloc i rf k with
      | (None, k) => close_ends i rf wf k
      | (Some fd0, k) =>
          match fdalloc i wf k with
          | (None, k) => close_ends i rf wf (set_ofile_at i fd0 0 k)
          | (Some fd1, k) =>
              let pt := pagetable (curp i k) in
              '(r, m) ← copyout pt fdarray (le_bytes 4 (Z.of_nat fd0)) (kmem k);
              '(r, m) ← (if r <? 0 then Ok (r, m) else copyout pt (u64 (fdarray + 4)) (le_bytes 4 (Z.of_nat fd1)) m);
              let k := set_kmem m k in
              if r <? 0 then close_ends i rf wf (set_ofile_at i fd1 0 (set_ofile_at i fd0 0 k))
              else fret 0 k
          end
      end
  end.

(** The frames of pipes whose two ends are closed go back to the allocator. *)
Definition give_back (k : kern) : outcome kern :=
  '(m, s) ← File.reclaim kend (kmem k) (kfiles k);
  Ok (set_kmem m (set_kfiles s k)).

End Sysfile.

(** What proc.c needs of file.c and fs.c; [me] is the id of the process. *)
#[global] Instance kfs_layer {T D : Type} {HT : TxStore T} {HO : TxOps T} (me : Z) : FileLayer (kfs T D) := {
  Proc.filedup f s := File.filedup (fidx f) s;
  Proc.fileclose f s := File.fileclose me (fidx f) s;
  Proc.idup ip s := Ok (File.set_fsys (Fs.idup (Z.to_nat (ip - 1)) (fsys s)) s);
  put_cwd ip s :=
    s ← File.begin_op s;
    s ← File.in_fs (iput me (Z.to_nat (ip - 1))) s;
    File.end_op s;
  namei_root s :=
    '(ip, s) ← File.on_fs (namei me [slash] 0) s;
    Ok (match ip with Some ip => Z.of_nat ip + 1 | None => 0 end, s)
}.
