(* ===== verification/Exec.v ===== *)
(** * kernel/exec.c and [sys_exec]: running a program

    [exec] reads the program through fs.c, builds an address space with the
    functions of vm.c and, if nothing fails, gives it to the current process.
    The argument strings are lists of bytes without their NUL; [sys_exec]
    holds each in a page of its own, which it frees at the end.  The part of
    a structure that a read leaves unset does not matter, as a short read ends
    [exec]. *)
From S2P Require Import Prelude Cstring Riscv Kalloc Vm Block Bio Log Fs Pipe File Proc Datetime Syscall Sysproc.
From S2P Require Import Sysfile.

Definition ELF_MAGIC : Z := 1179403647.
Definition ELF_PROG_LOAD : Z := 1.
Definition MAXARG : nat := 32.
Definition USERSTACK : Z := 1.

Definition get64 (l : list Z) (off : nat) : Z := le_val (slice l off 8).

(** The fields of [struct elfhdr] (64 bytes) and [struct proghdr] (56 bytes)
    that are used. *)
Record elfhdr := Elfhdr { e_magic : Z; e_entry : Z; e_phoff : Z; e_phnum : Z }.
Definition elfhdr_of (l : list Z) : elfhdr := Elfhdr (get32 l 0) (get64 l 24) (get64 l 32) (get16 l 56).
Record proghdr := Proghdr { ph_type : Z; ph_flags : Z; ph_off : Z; ph_vaddr : Z; ph_filesz : Z; ph_memsz : Z }.
Definition proghdr_of (l : list Z) : proghdr :=
  Proghdr (get32 l 0) (get32 l 4) (get64 l 8) (get64 l 16) (get64 l 32) (get64 l 40).

Definition flags2perm (flags : Z) : Z :=
  let perm := if negb (Z.land flags 1 =? 0) then PTE_X else 0 in
  if negb (Z.land flags 2 =? 0) then Z.lor perm PTE_W else perm.

Section Exec.
Context {T D : Type} {HT : TxStore T} {HO : TxOps T} {HD : Devsw D}.
Variables (kend trampoline : Z).
Abbreviation kern := (kernel (kfs T D)).

(** [readi] into a kernel buffer: the result and the bytes stored. *)
Definition read_kernel (ip : nat) (off n : Z) (k : kern) : outcome (Z * list Z * kern) :=
  '(r, d, v) ← readi ip (KernelDst []) off n (fsys (kfiles k));
  Ok (r, match d with KernelDst l => l | _ => [] end, set_kfiles (File.set_fsys v (kfiles k)) k).

(** The loop of [loadseg]; all quantities are [uint]. *)
Fixpoint loadseg_loop (n : nat) (pagetable va : Z) (ip : nat) (offset sz i : Z) (k : kern) : outcome (Z * kern) :=
  if i <? sz then
    match n with
    | O => NoFuel
    | S n' =>
        pa ← walkaddr pagetable (u64 (va + i)) (kmem k);
        if pa =? 0 then Panic "loadseg: address should exist"
        else
          let len := if sz - i <? PGSIZE then sz - i else PGSIZE in
          '(r, l, k) ← read_kernel ip (u32 (offset + i)) len k;
          let m := kmem k in
          let k := set_kmem (Phys (st_bytes (pmem m) pa l) (freelist m)) k in
          if negb (r =? len) then Ok (-1, k)
          else loadseg_loop n' pagetable va ip offset sz (u32 (i + PGSIZE)) k
    end
  else Ok (0, k).

Definition loadseg (pagetable va : Z) (ip : nat) (offset sz : Z) (k : kern) : outcome (Z * kern) :=
  loadseg_loop (Z.to_nat (sz / PGSIZE + 1)) pagetable va ip offset sz 0 k.

(** The loop over the program headers: whether all went well, and the size
    reached; [off] is an [int]. *)
Fixpoint load_loop (n : nat) (pagetable : Z) (ip : nat) (off sz : Z) (k : kern) : outcome (bool * Z * kern) :=
  match n with
  | O => Ok (true, sz, k)
  | S n' =>
      '(r, l, k) ← read_kernel ip (u32 off) 56 k;
      if negb (r =? 56) then Ok (false, sz, k)
      else
        let ph := proghdr_of l in
        if negb (ph_type ph =? ELF_PROG_LOAD) then load_loop n' pagetable ip (s32 (off + 56)) sz k
        else if ph_memsz ph <? ph_filesz ph then Ok (false, sz, k)
        else if u64 (ph_vaddr ph + ph_memsz ph) <? ph_vaddr ph then Ok (false, sz, k)
        else if negb (ph_vaddr ph mod PGSIZE =? 0) then Ok (false, sz, k)
        else
          '(sz1, m) ← uvmalloc kend pagetable sz (u64 (ph_vaddr ph + ph_memsz ph)) (flags2perm (s32 (ph_flags ph))) (kmem k);
          let k := set_kmem m k in
          if sz1 =? 0 then Ok (false, sz, k)
          else
            '(r, k) ← loadseg pagetable (ph_vaddr ph) ip (u32 (ph_off ph)) (u32 (ph_filesz ph)) k;
            if r <? 0 then Ok (false, sz1, k)
            else load_loop n' pagetable ip (s32 (off + 56)) sz1 k
  end.

(** The loop that pushes the argument strings: the stack pointer and the
    pointers pushed so far, or [None] after a failure. *)
Fixpoint push_args (argv : list (list Z)) (pagetable stackbase sp : Z) (ustack : list Z) (k : kern)
    : outcome (option (Z * list Z) * kern) :=
  match argv with
  | [] => Ok (Some (sp, ustack), k)
  | a :: argv' =>
      if (MAXARG <=? length ustack)%nat then Ok (None, k)
      else
        let sp := u64 (sp - (Z.of_nat (length a) + 1)) in
        let sp := sp - sp mod 16 in
        if sp <? stackbase then Ok (None, k)
        else
          '(r, m) ← copyout pagetable sp (a ++ [0]) (kmem k);
          let k := set_kmem m k in
          if r <? 0 then Ok (None, k)
          else push_args argv' pagetable stackbase sp (ustack ++ [sp]) k
  end.

(** The last component of a path. *)
Fixpoint last_name (path last : list Z) : list Z :=
  match path with
  | [] => last
  | c :: path' => last_name path' (if c =? slash then path' else last)
  end.

(** The label [bad] with [ip == 0]. *)
Definition exec_bad (pagetable sz : Z) (k : kern) : outcome (Z * kern) :=
  m ← proc_freepagetable kend pagetable sz (kmem k);
  Ok (-1, set_kmem m k).

(** The label [bad] with the inode still locked; [pagetable] may be 0. *)
Definition exec_bad_ip (i ip : nat) (pagetable sz : Z) (k : kern) : outcome (Z * kern) :=
  k ← (if negb (pagetable =? 0) then m ← proc_freepagetable kend pagetable sz (kmem k); Ok (set_kmem m k) else Ok k);
  k ← in_files (File.in_fs (iunlockput (mypid i k) ip)) k;
  k ← in_files File.end_op k;
  Ok (-1, k).

(** [exec] from the allocation of the stack on. *)
Definition exec_stack (i : nat) (path : list Z) (argv : list (list Z)) (entry pagetable sz : Z) (k : kern) : outcome (Z * kern) :=
  let sz0 := PGROUNDUP sz in
  '(sz1, m) ← uvmalloc kend pagetable sz0 (u64 (sz0 + (USERSTACK + 1) * PGSIZE)) PTE_W (kmem k);
  let k := set_kmem m k in
  if sz1 =? 0 then exec_bad pagetable sz0 k
  else
    m ← uvmclear pagetable (u64 (sz1 - (USERSTACK + 1) * PGSIZE)) (kmem k);
    let k := set_kmem m k in
    let stackbase := u64 (sz1 - USERSTACK * PGSIZE) in
    '(o, k) ← push_args argv pagetable stackbase sz1 [] k;
    match o with
    | None => exec_bad pagetable sz1 k
    | Some (sp, ustack) =>
        let argc := Z.of_nat (length ustack) in
        let sp := u64 (sp - (argc + 1) * 8) in
        let sp := sp - sp mod 16 in
        if sp <? stackbase then exec_bad pagetable sz1 k
        else
          '(r, m) ← copyout pagetable sp (concat (map (le_bytes 8) (ustack ++ [0]))) (kmem k);
          let k := set_kmem m k in
          if r <? 0 then exec_bad pagetable sz1 k
          else
            let k := tf_set i 120 sp k in
            let old := curp i k in
            let k := set_kprocs (setp i (fun p =>
              set_sz sz1 (set_pagetable pagetable (set_name (str_copy (last_name path path) 16) p))) (kprocs k)) k in
            let k := tf_set i tf_epc entry k in
            let k := tf_set i tf_sp sp k in
            m ← proc_freepagetable kend (Proc.pagetable old) (Proc.sz old) (kmem k);
            Ok (argc, set_kmem m k)
    end.

Definition exec (i : nat) (path : list Z) (argv : list (list Z)) (k : kern) : outcome (Z * kern) :=
  k ← in_files File.begin_op k;
  '(ip, k) ← on_files (File.on_fs (namei (mypid i k) path (mycwd i k))) k;
  match ip with
  | None => k ← in_files File.end_op k; Ok (-1, k)
  | Some ip =>
      k ← in_files (File.in_fs (ilock (mypid i k) ip)) k;
      '(r, l, k) ← read_kernel ip 0 64 k;
      let elf := elfhdr_of l in
      if negb (r =? 64) then exec_bad_ip i ip 0 0 k
      else if negb (e_magic elf =? ELF_MAGIC) then exec_bad_ip i ip 0 0 k
      else
        '(pagetable, m) ← proc_pagetable kend trampoline (trapframe (curp i k)) (kmem k);
        let k := set_kmem m k in
        if pagetable =? 0 then exec_bad_ip i ip 0 0 k
        else
          '(ok, sz, k) ← load_loop (Z.to_nat (e_phnum elf)) pagetable ip (s32 (e_phoff elf)) 0 k;
          if negb ok then exec_bad_ip i ip pagetable sz k
          else
            k ← in_files (File.in_fs (iunlockput (mypid i k) ip)) k;
            k ← in_files File.end_op k;
            exec_stack i path argv (e_entry elf) pagetable sz k
  end.

(** Free the pages of the arguments. *)
Definition free_args (pages : list Z) (k : kern) : outcome kern :=
  m ← foldl (fun o pa => m ← o; kfree kend pa m) (Ok (kmem k)) pages;
  Ok (set_kmem m k).

(** The loop of [sys_exec]: the strings and their pages; [None] for the label
    [bad]. *)
Fixpoint exec_args (n : nat) (i : nat) (uargv : Z) (argv : list (list Z)) (pages : list Z) (k : kern)
    : outcome (option (list (list Z)) * list Z * kern) :=
  match n with
  | O => Ok (None, pages, k)
  | S n' =>
      uarg ← fetchaddr i (u64 (uargv + 8 * Z.of_nat (length pages))) k;
      match uarg with
      | None => Ok (None, pages, k)
      | Some uarg =>
          if uarg =? 0 then Ok (Some argv, pages, k)
          else
            let '(pa, m) := kalloc (kmem k) in
            let k := set_kmem m k in
            if pa =? 0 then Ok (None, pages, k)
            else
              '(r, buf) ← copyinstr (Proc.pagetable (curp i k)) uarg PGSIZE (kmem k);
              let m := kmem k in
              let k := set_kmem (Phys (st_bytes (pmem m) pa buf) (freelist m)) k in
              if r <? 0 then Ok (None, pages ++ [pa], k)
              else exec_args n' i uargv (argv ++ [cstr buf]) (pages ++ [pa]) k
      end
  end.

Definition sys_exec (i : nat) (k : kern) : outcome (sysres * kern) :=
  uargv ← argaddr i 1 k;
  path ← argstr i 0 MAXPATH k;
  match path with
  | None => fret (-1) k
  | Some path =>
      '(o, pages, k) ← exec_args MAXARG i uargv [] [] k;
      match o with
      | None => k ← free_args pages k; fret (-1) k
      | Some argv =>
          '(r, k) ← exec i path argv k;
          k ← free_args pages k;
          fret r k
      end
  end.

End Exec.

(** * The table of system calls

    [syscalls] maps the numbers of syscall.h to the handlers.  The symbols and
    clock readings that the handlers need are arguments; [junk] and [pad] are
    the contents of unset stack memory; [kbd_count] reads the counter of
    keyboard interrupts in the state of the devices.  After a handler, the
    frames of pipes that it closed are given back. *)

Section Table.
Context {T D : Type} {HT : TxStore T} {HO : TxOps T} {HD : Devsw D}.
Variables (kend trampoline forkret_addr ticks_addr now BOOT_EPOCH mtime : Z).
Variables (junk pad : list Z) (kbd_count : D -> Z).
Abbreviation kern := (kernel (kfs T D)).
Abbreviation handler := (nat -> kern -> outcome (sysres * kern)).

Definition sys_kbdint (i : nat) (k : kern) : outcome (sysres * kern) := fret (kbd_count (devices (kfiles k))) k.

(** proc.c calls file.c for the current process. *)
Definition with_layer (f : FileLayer (kfs T D) -> handler) : handler := fun i k => f (kfs_layer (mypid i k)) i k.

Definition handler_of (num : Z) : option handler :=
  match num with
  | 1 => Some (with_layer (fun HF => sys_fork (HF := HF) kend trampoline forkret_addr now))
  | 2 => Some (with_layer (fun HF => sys_exit (HF := HF) now))
  | 3 => Some (sys_wait kend)
  | 4 => Some sys_pipe
  | 5 => Some sys_read
  | 6 => Some sys_kill
  | 7 => Some (sys_exec kend trampoline)
  | 8 => Some (sys_fstat pad)
  | 9 => Some sys_chdir
  | 10 => Some sys_dup
  | 11 => Some sys_getpid
  | 12 => Some (sys_sbrk kend)
  | 13 => Some (sys_sleep ticks_addr)
  | 14 => Some sys_uptime
  | 15 => Some sys_open
  | 16 => Some sys_write
  | 17 => Some sys_mknod
  | 18 => Some sys_unlink
  | 19 => Some sys_link
  | 20 => Some sys_mkdir
  | 21 => Some sys_close
  | 22 => Some sys_shutdown
  | 23 => Some sys_countsyscall
  | 24 => Some (sys_getptable junk)
  | 25 => Some (sys_get_proc_time junk)
  | 26 => Some sys_set_priority
  | 27 => Some sys_getppid
  | 28 => Some (sys_datetime BOOT_EPOCH mtime)
  | 29 => Some sys_randd
  | 30 => Some sys_kbdint
  | _ => None
  end.

Definition syscalls (num : Z) : option handler :=
  match handler_of num with
  | None => None
  | Some f => Some (fun i k => '(r, k) ← f i k; k ← give_back kend k; Ok (r, k))
  end.

End Table.
