(* ===== verification/FdProps.v ===== *)
(** * Open files and their reference counts

    The table of open files counts, for each entry, the descriptors of all
    processes that refer to it.  System calls go through states in which the
    count and the descriptors differ: [d f] is the number of references to [f]
    that are held elsewhere, such as by a local variable of the call. *)
From S2P Require Import Prelude Cstring Riscv Kalloc Vm Block Bio Log Fs Pipe File Proc ProcTheory Datetime Syscall.
From S2P Require Import Sysproc Sysfile.

(** ** Counting *)

Definition cnt (z : Z) (l : list Z) : nat := length (filter (fun x => x = z) l).

Lemma cnt_insert z l fd x o : l !! fd = Some o ->
  Z.of_nat (cnt z (<[fd := x]> l)) = Z.of_nat (cnt z l) + b2z (bool_decide (x = z)) - b2z (bool_decide (o = z)).
Proof.
  revert fd. induction l as [|y l IH]; intros [|fd] Hl; simplify_eq/=.
  - unfold cnt. cbn [filter]. rewrite !filter_cons. repeat case_bool_decide; repeat case_decide; cbn; lia.
  - specialize (IH fd Hl). unfold cnt in *. rewrite !filter_cons. repeat case_decide; cbn [length]; lia.
Qed.

Lemma cnt_replicate z n x : x <> z -> cnt z (replicate n x) = 0%nat.
Proof. intros Hx. unfold cnt. induction n as [|n IH]; [done|]. cbn [replicate]. rewrite filter_cons, decide_False by done. exact IH. Qed.

Lemma cnt_pos z l fd : l !! fd = Some z -> (0 < cnt z l)%nat.
Proof.
  intros Hl. unfold cnt. assert (z ∈ filter (fun x => x = z) l) as Hin
    by (apply list_elem_of_filter; split; [done|by eapply list_elem_of_lookup_2]).
  destruct (filter _ l); [by apply elem_of_nil in Hin|cbn; lia].
Qed.

Lemma sum_alter {A} (g : A -> nat) h l i x : l !! i = Some x ->
  (sum_list_with g (alter h i l) + g x = sum_list_with g l + g (h x))%nat.
Proof.
  revert i. induction l as [|y l IH]; intros [|i] Hl; simplify_eq/=; [lia|]. specialize (IH i Hl). lia.
Qed.

Lemma sum_le {A} (g : A -> nat) b l : (forall x, x ∈ l -> (g x <= b)%nat) -> (sum_list_with g l <= length l * b)%nat.
Proof.
  induction l as [|y l IH]; intros Hb; cbn; [lia|]. specialize (IH (fun x Hx => Hb x (list_elem_of_further _ _ _ Hx))).
  specialize (Hb y (list_elem_of_here _ _)). lia.
Qed.

Section Fd.
Context {T D : Type} {HT : TxStore T} {HO : TxOps T}.
Abbreviation kst := (kstate (kfs T D)).
Implicit Types s : kst.

Definition owners s (f : nat) : Z := Z.of_nat (sum_list_with (fun p => cnt (fptr f) (ofile p)) (procs s)).
Definition refs s (f : nat) : Z := f_ref (File.getf (files s) f).

(** Pointers lead into the table and the counts are right, up to [d]. *)
Record fd_inv (d : nat -> Z) s : Prop := {
  fi_procs : length (procs s) = NPROC;
  fi_tab : length (ftable (files s)) = NFILE;
  fi_ofile : forall j, (j < NPROC)%nat -> length (ofile (getp s j)) = NOFILE;
  fi_ptr : forall j fd z, (j < NPROC)%nat -> ofile (getp s j) !! fd = Some z -> z = 0 \/ exists f, z = fptr f /\ (f < NFILE)%nat;
  fi_ref : forall f, (f < NFILE)%nat -> refs s f = owners s f + d f
}.

(** Processes that do not run have no open files. *)
Definition dead_ok s : Prop := forall j, (j < NPROC)%nat -> state (getp s j) = UNUSED \/ state (getp s j) = ZOMBIE ->
  ofile (getp s j) = replicate NOFILE 0.

Lemma owners_bound d s f : fd_inv d s -> 0 <= owners s f <= 1024.
Proof.
  intros [A1 A2 A3 A4 A5]. unfold owners. split; [lia|].
  assert (H : (sum_list_with (fun p => cnt (fptr f) (ofile p)) (procs s) <= length (procs s) * 16)%nat).
  { apply sum_le. intros p Hp. apply list_elem_of_lookup in Hp as [j Hj]. unfold cnt. etrans; [apply length_filter|].
    assert (Hl : (j < NPROC)%nat) by (rewrite <- A1; by eapply lookup_lt_Some). specialize (A3 j Hl). unfold getp in A3. rewrite Hj in A3.
    cbn in A3. unfold NOFILE in A3. lia. }
  rewrite A1 in H. unfold NPROC in H. lia.
Qed.

(** ** The elementary changes *)

(** Nothing that matters here changes. *)
Record quiet s s' : Prop := {
  qt_procs : length (procs s') = length (procs s);
  qt_ofile : forall j, ofile (getp s' j) = ofile (getp s j);
  qt_tab : length (ftable (files s')) = length (ftable (files s));
  qt_ref : forall f, refs s' f = refs s f
}.

Lemma quiet_refl s : quiet s s.
Proof. by split. Qed.
Lemma quiet_trans s s1 s2 : quiet s s1 -> quiet s1 s2 -> quiet s s2.
Proof. intros [A1 A2 A3 A4] [B1 B2 B3 B4]. split; congruence || (intros; congruence). Qed.

Lemma owners_ext s s' f : length (procs s') = length (procs s) -> (forall j, ofile (getp s' j) = ofile (getp s j)) -> owners s' f = owners s f.
Proof.
  intros Hl Ho. unfold owners. f_equal.
  assert (E : ofile <$> procs s' = ofile <$> procs s).
  { apply list_eq. intros j. rewrite !list_lookup_fmap. specialize (Ho j). unfold getp in Ho.
    destruct (procs s !! j) as [p|] eqn:E1, (procs s' !! j) as [p'|] eqn:E2; cbn in *; try done; [by f_equal|..];
      apply lookup_lt_Some in E1 || apply lookup_lt_Some in E2; apply lookup_ge_None in E2 || apply lookup_ge_None in E1; lia. }
  assert (G : forall l, sum_list_with (fun p => cnt (fptr f) (ofile p)) l = sum_list_with (cnt (fptr f)) (ofile <$> l)).
  { induction l as [|x l IH]; [done|]. cbn. by rewrite IH. }
  by rewrite !G, E.
Qed.

Lemma fd_quiet d s s' : quiet s s' -> fd_inv d s -> fd_inv d s'.
Proof.
  intros [Q1 Q2 Q3 Q4] [A1 A2 A3 A4 A5]. split; try congruence.
  - intros j Hj. rewrite Q2. auto.
  - intros j fd z Hj. rewrite Q2. eauto.
  - intros f Hf. rewrite Q4, A5, (owners_ext s s') by done. done.
Qed.

(** The change of [d] when one reference to [g] moves. *)
Definition one (g f : nat) : Z := b2z (bool_decide (g = f)).
Definition isptr (z : Z) (f : nat) : Z := b2z (bool_decide (z = fptr f)).

Lemma isptr_fptr g f : isptr (fptr g) f = one g f.
Proof. unfold isptr, one, fptr. repeat case_bool_decide; done || lia. Qed.
Lemma isptr_0 f : isptr 0 f = 0.
Proof. unfold isptr, fptr. case_bool_decide; [lia|done]. Qed.

(** A descriptor is set. *)
Lemma fd_set d s i fd o z : (i < NPROC)%nat -> ofile (getp s i) !! fd = Some o -> z = 0 \/ (exists f, z = fptr f /\ (f < NFILE)%nat) ->
  fd_inv d s ->
  fd_inv (fun f => d f + isptr o f - isptr z f) (setp i (fun p => set_ofile (<[fd := z]> (ofile p)) p) s).
Proof.
  intros Hi Ho Hz [A1 A2 A3 A4 A5]. set (h := fun p => set_ofile _ p).
  assert (Hp : exists p, procs s !! i = Some p) by (apply lookup_lt_is_Some; lia). destruct Hp as [p Hp].
  assert (Eg : getp s i = p) by (unfold getp; by rewrite Hp).
  assert (G : forall j, (j < NPROC)%nat -> ofile (getp (setp i h s) j) = if decide (j = i) then <[fd := z]> (ofile (getp s i)) else ofile (getp s j)).
  { intros j Hj. destruct (decide (j = i)) as [->|Hne]; [by rewrite getp_setp_eq by lia|by rewrite getp_setp_ne]. }
  split.
  - by rewrite length_setp.
  - done.
  - intros j Hj. rewrite G by done. destruct (decide (j = i)); [rewrite length_insert|]; auto.
  - intros j fd' z' Hj. rewrite G by done. destruct (decide (j = i)) as [->|]; [|eauto].
    destruct (decide (fd' = fd)) as [->|Hne]; [|rewrite list_lookup_insert_ne by done; eauto].
    rewrite list_lookup_insert_eq by (by eapply lookup_lt_Some). intros [= <-]. done.
  - intros f Hf. change (refs (setp i h s) f) with (refs s f). rewrite A5 by done. unfold owners.
    change (procs (setp i h s)) with (alter h i (procs s)).
    pose proof (sum_alter (fun p => cnt (fptr f) (ofile p)) h (procs s) i p Hp) as Hs. cbn beta in Hs.
    change (ofile (h p)) with (<[fd := z]> (ofile p)) in Hs. rewrite Eg in Ho.
    pose proof (cnt_insert (fptr f) (ofile p) fd z o Ho) as Hc. unfold isptr. lia.
Qed.

(** Reference counts change. *)
Lemma fd_files d e s x : fd_inv d s -> length (ftable x) = length (ftable (files s)) ->
  (forall f, (f < NFILE)%nat -> f_ref (File.getf x f) = refs s f + e f) -> fd_inv (fun f => d f + e f) (set_files x s).
Proof.
  intros [A1 A2 A3 A4 A5] Hl Hr. split; [done|by rewrite <- A2|done|done|].
  intros f Hf. change (refs (set_files x s) f) with (f_ref (File.getf x f)). rewrite Hr, A5 by done.
  change (owners (set_files x s) f) with (owners s f). lia.
Qed.

Lemma fd_ext d d' s : (forall f, d f = d' f) -> fd_inv d s -> fd_inv d' s.
Proof. intros E [A1 A2 A3 A4 A5]. split; auto. intros f Hf. rewrite A5, E by done. done. Qed.

End Fd.

(** ** The operations of file.c *)

Section FileRefs.
Context {T D : Type} {HT : TxStore T} {HO : TxOps T}.
Implicit Types x : kfs T D.

(** The counts of [x'] are those of [x] with [e] added. *)
Definition ref_step (e : nat -> Z) x x' : Prop :=
  length (ftable x') = length (ftable x) /\ forall f, f_ref (File.getf x' f) = f_ref (File.getf x f) + e f.

Lemma getf_setf_ref f g h x : (f < length (ftable x))%nat ->
  f_ref (File.getf (File.setf f h x) g) = if decide (f = g) then f_ref (h (File.getf x f)) else f_ref (File.getf x g).
Proof.
  intros Hf. unfold File.getf, File.setf. cbn [ftable]. destruct (decide (f = g)) as [<-|Hne].
  - rewrite list_lookup_alter_eq. apply lookup_lt_is_Some in Hf as [y ->]. done.
  - by rewrite list_lookup_alter_ne.
Qed.

Lemma in_fs_ref (f : fs T -> outcome (fs T)) x x' : File.in_fs f x = Ok x' -> ref_step (fun _ => 0) x x'.
Proof. unfold File.in_fs. intros E. inv_ok. subst. split; [done|]. intros g. by rewrite Z.add_0_r. Qed.

Lemma ref_step_trans e e' x x1 x2 : ref_step e x x1 -> ref_step e' x1 x2 -> ref_step (fun f => e f + e' f) x x2.
Proof. intros [A1 A2] [B1 B2]. split; [congruence|]. intros f. rewrite B2, A2. lia. Qed.
Lemma ref_step_ext e e' x x' : (forall f, e f = e' f) -> ref_step e x x' -> ref_step e' x x'.
Proof. intros E [A1 A2]. split; [done|]. intros f. rewrite A2, E. done. Qed.

Lemma ref_same_trans x x1 x2 : ref_step (fun _ => 0) x x1 -> ref_step (fun _ => 0) x1 x2 -> ref_step (fun _ => 0) x x2.
Proof. intros H1 H2. eapply ref_step_ext; [|by eapply ref_step_trans]. done. Qed.

Lemma filedup_ref f x x' : (f < length (ftable x))%nat -> f_ref (File.getf x f) < 2147483647 ->
  File.filedup f x = Ok x' -> ref_step (one f) x x' /\ 1 <= f_ref (File.getf x f).
Proof.
  intros Hf Hb E. unfold File.filedup in E. destruct (_ <? 1) eqn:Er; bool_to_prop; [done|]. injection E as <-. split; [|lia].
  split; [apply length_alter|]. intros g. rewrite getf_setf_ref by done. unfold one. case_bool_decide; subst; dcase; try done; cbn; [|lia].
  rewrite s32_id by lia. done.
Qed.

Lemma pipeclose_ref a w x x' : File.pipeclose a w x = Ok x' -> ref_step (fun _ => 0) x x'.
Proof.
  unfold File.pipeclose. destruct (pipes x !! a) as [pi|]; [|done]. destruct (Pipe.pipeclose w pi) as [b pi'].
  intros [= <-]. split; [by destruct b|]. intros f. rewrite Z.add_0_r. by destruct b.
Qed.

Lemma iput_ref me ip x x' : (x ← File.begin_op x; x ← File.in_fs (iput me ip) x; File.end_op x) = Ok x' -> ref_step (fun _ => 0) x x'.
Proof.
  intros E. inv_ok. unfold File.begin_op, File.end_op in *. apply in_fs_ref in H, H0, E.
  eapply ref_step_ext; [|eapply ref_step_trans; [exact H|eapply ref_step_trans; [exact H0|exact E]]]. done.
Qed.

(** [fileclose] that returns has removed one reference. *)
Lemma fileclose_ref me f x x' : (f < length (ftable x))%nat -> f_ref (File.getf x f) < 2147483648 ->
  File.fileclose me f x = Ok x' -> ref_step (fun g => - one f g) x x'.
Proof.
  intros Hf Hb E. unfold File.fileclose in E. destruct (_ <? 1) eqn:Er; bool_to_prop; [done|].
  set (x1 := File.setf f _ x) in *.
  assert (H1 : ref_step (fun g => - one f g) x x1).
  { split; [apply length_alter|]. intros g. unfold x1. rewrite getf_setf_ref by done. unfold one.
    case_bool_decide; subst; dcase; try done; cbn; [|lia]. rewrite s32_id by lia. lia. }
  destruct (0 <? f_ref (File.getf x1 f)) eqn:E0; [by injection E as <-|]. bool_to_prop.
  set (x2 := File.setf f _ x1) in *. destruct H1 as [L1 H1].
  assert (H2 : ref_step (fun _ => 0) x1 x2).
  { split; [apply length_alter|]. intros g. unfold x2. rewrite getf_setf_ref by lia. dcase; [subst; cbn|lia].
    pose proof (H1 g) as Hg. unfold one in Hg. rewrite bool_decide_eq_true_2 in Hg by done. cbn in Hg. lia. }
  assert (H3 : ref_step (fun _ => 0) x2 x').
  { destruct (f_type (File.getf x1 f)); [injection E as <-; split; [done|intros; lia]|by eapply pipeclose_ref|apply iput_ref in E; exact E..]. }
  eapply ref_step_ext; [|eapply ref_step_trans; [split; [exact L1|exact H1]|eapply ref_step_trans; [exact H2|exact H3]]]. intros g. cbn. lia.
Qed.

Lemma filealloc_loop_ref n f0 x : match File.filealloc_loop n f0 x with
  | (Some f, x') => (f0 <= f < f0 + n)%nat /\ f_ref (File.getf x f) = 0 /\ x' = File.setf f (set_fref 1) x
  | (None, x') => x' = x
  end.
Proof.
  revert f0. induction n as [|n IH]; intros f0; cbn [File.filealloc_loop]; [done|].
  destruct (_ =? 0) eqn:E; bool_to_prop; [split_and!; auto; lia|]. specialize (IH (S f0)).
  destruct (File.filealloc_loop n (S f0) x) as [[f|] x']; [|done]. destruct IH as (? & ? & ?). split_and!; auto; lia.
Qed.

Lemma filealloc_ref x : length (ftable x) = NFILE -> match File.filealloc x with
  | (Some f, x') => (f < NFILE)%nat /\ f_ref (File.getf x f) = 0 /\ ref_step (one f) x x' /\ f_type (File.getf x' f) = f_type (File.getf x f)
  | (None, x') => x' = x
  end.
Proof.
  intros Hl. unfold File.filealloc. pose proof (filealloc_loop_ref NFILE 0 x) as H.
  destruct (File.filealloc_loop NFILE 0 x) as [[f|] x']; [|done]. destruct H as (Hf & H0 & ->).
  split; [lia|]. split; [done|]. split.
  - split; [apply length_alter|]. intros g. rewrite getf_setf_ref by lia. unfold one. case_bool_decide; subst; dcase; try done; cbn; lia.
  - unfold File.getf, File.setf. cbn [ftable]. rewrite list_lookup_alter_eq. by destruct (ftable x !! f).
Qed.

Lemma setf_ref f h x : (forall y, f_ref (h y) = f_ref y) -> ref_step (fun _ => 0) x (File.setf f h x).
Proof.
  intros Hh. split; [apply length_alter|]. intros g. unfold File.getf, File.setf. cbn [ftable]. rewrite Z.add_0_r.
  destruct (decide (f = g)) as [<-|Hne]; [|by rewrite list_lookup_alter_ne].
  rewrite list_lookup_alter_eq. destruct (ftable x !! f); [apply Hh|done].
Qed.

Lemma ref_step_refl x : ref_step (fun _ => 0) x x.
Proof. split; [done|]. intros. lia. Qed.

(** Two, three and four steps, with the sum given. *)
Lemma ref_step_2 e e1 e2 x x1 x2 : ref_step e1 x x1 -> ref_step e2 x1 x2 -> (forall f, e1 f + e2 f = e f) -> ref_step e x x2.
Proof. intros H1 H2 E. eapply ref_step_ext; [exact E|]. by eapply ref_step_trans. Qed.
Lemma ref_step_4 e e1 e2 e3 e4 x x1 x2 x3 x4 : ref_step e1 x x1 -> ref_step e2 x1 x2 -> ref_step e3 x2 x3 -> ref_step e4 x3 x4 ->
  (forall f, e1 f + e2 f + e3 f + e4 f = e f) -> ref_step e x x4.
Proof.
  intros H1 H2 H3 H4 E. eapply ref_step_2; [exact H1| |].
  - eapply ref_step_2; [exact H2| |]; [eapply ref_step_2; [exact H3|exact H4|]|]; intros f; reflexivity.
  - intros f. cbn. rewrite <- E. lia.
Qed.

Lemma pipealloc_ref me m x o m' x' : length (ftable x) = NFILE -> File.pipealloc me m x = Ok (o, m', x') ->
  match o with
  | Some (f0, f1) => (f0 < NFILE)%nat /\ (f1 < NFILE)%nat /\ f0 <> f1 /\ ref_step (fun f => one f0 f + one f1 f) x x'
  | None => ref_step (fun _ => 0) x x'
  end.
Proof.
  intros Hl E. unfold File.pipealloc in E. pose proof (filealloc_ref x Hl) as H0.
  destruct (File.filealloc x) as [[f0|] x0]; [|injection E as <- <- <-; subst; apply ref_step_refl].
  destruct H0 as (Hf0 & R0 & S0 & _). pose proof S0 as [L0 H0]. assert (Hl0 : length (ftable x0) = NFILE) by congruence.
  pose proof (filealloc_ref x0 Hl0) as H1. specialize (H0 f0) as R0'. rewrite R0 in R0'. unfold one in R0'.
  rewrite bool_decide_eq_true_2 in R0' by done. cbn in R0'.
  destruct (File.filealloc x0) as [[f1|] x1].
  2: { subst x1. inv_ok. simplify_eq. apply fileclose_ref in H; [|lia|lia]. eapply ref_step_2; [exact S0|exact H|]. intros f. lia. }
  destruct H1 as (Hf1 & R1 & S1 & _). pose proof S1 as [L1 H1]. assert (Hne : f0 <> f1) by (intros ->; lia).
  destruct (kalloc m) as [pi m1]. destruct (pi =? 0).
  - pose proof (H1 f0) as Ha. pose proof (H1 f1) as Hb. unfold one in Ha, Hb. rewrite bool_decide_eq_true_2 in Hb by done.
    rewrite bool_decide_eq_false_2 in Ha by done. cbn in Ha, Hb. inv_ok. simplify_eq.
    apply fileclose_ref in H; [|lia|lia]. pose proof H as [L2 Hc]. specialize (Hc f1). unfold one in Hc.
    rewrite bool_decide_eq_false_2 in Hc by done. cbn in Hc. apply fileclose_ref in H2; [|lia|lia].
    eapply ref_step_4; [exact S0|exact S1|exact H|exact H2|]. intros f. lia.
  - revert E. generalize (pipe_init (bytes (pmem m1) (pi + 24) 512)). intros pp E. injection E as <- <- <-.
    split; [exact Hf0|]. split; [exact Hf1|]. split; [exact Hne|].
    match goal with |- ref_step _ _ (File.setf f1 ?h1 (File.setf f0 ?h0 ?y)) =>
      pose proof (setf_ref f0 h0 y (fun _ => eq_refl)) as Sa; pose proof (setf_ref f1 h1 (File.setf f0 h0 y) (fun _ => eq_refl)) as Sb end.
    eapply ref_step_4; [exact S0|exact S1|exact Sa|exact Sb|]. intros f. cbn. lia.
Qed.

End FileRefs.

(** ** The system calls *)

Section Calls.
Context {T D : Type} {HT : TxStore T} {HO : TxOps T} {HD : Devsw D}.
Abbreviation kern := (kernel (kfs T D)).
Implicit Types k : kern.

(** During a call of process [i] that started in [k]. *)
Record during (i : nat) (d : nat -> Z) k k' : Prop := {
  du_inv : fd_inv d (kprocs k');
  du_state : forall j, state (getp (kprocs k') j) = state (getp (kprocs k) j);
  du_other : forall j, j <> i -> ofile (getp (kprocs k') j) = ofile (getp (kprocs k) j)
}.

Lemma du_start i d k : fd_inv d (kprocs k) -> during i d k k.
Proof. by split. Qed.
Lemma du_ext i d d' k k' : (forall f, d f = d' f) -> during i d k k' -> during i d' k k'.
Proof. intros E [A1 A2 A3]. split; auto. by eapply fd_ext. Qed.
Lemma du_mem i d k k' m : during i d k k' -> during i d k (set_kmem m k').
Proof. intros [A1 A2 A3]. split; auto. by eapply fd_quiet, A1. Qed.

Lemma du_files i d e d' k k' x : during i d k k' -> ref_step e (kfiles k') x -> (forall f, d f + e f = d' f) ->
  during i d' k (set_kfiles x k').
Proof.
  intros [A1 A2 A3] [L R] E. split; auto. eapply fd_ext; [exact E|]. apply (fd_files d e (kprocs k') x A1 L).
  intros f _. apply R.
Qed.

Lemma du_same i d k k' x : during i d k k' -> ref_step (fun _ => 0) (kfiles k') x -> during i d k (set_kfiles x k').
Proof. intros Hd Hr. eapply du_files; [exact Hd|exact Hr|]. intros f. cbn. lia. Qed.

Lemma ofile_lookup i d k fd : (i < NPROC)%nat -> fd_inv d (kprocs k) -> (fd < NOFILE)%nat ->
  ofile (getp (kprocs k) i) !! fd = Some (ofile_at i fd k).
Proof.
  intros Hi Hinv Hfd. unfold ofile_at, curp. rewrite <- (fi_ofile _ _ Hinv i Hi) in Hfd.
  apply lookup_lt_is_Some in Hfd as [z Hz]. by rewrite Hz.
Qed.

Lemma du_fd i d d' k k' fd z : (i < NPROC)%nat -> during i d k k' -> (fd < NOFILE)%nat ->
  z = 0 \/ (exists f, z = fptr f /\ (f < NFILE)%nat) ->
  (forall f, d f + isptr (ofile_at i fd k') f - isptr z f = d' f) -> during i d' k (set_ofile_at i fd z k').
Proof.
  intros Hi [A1 A2 A3] Hfd Hz E. pose proof (ofile_lookup i d k' fd Hi A1 Hfd) as Ho. unfold set_ofile_at. split; cbn [kprocs set_kprocs].
  - eapply fd_ext; [exact E|]. by apply fd_set.
  - intros j. rewrite <- A2. destruct (decide (j = i)) as [->|Hne]; [|by rewrite getp_setp_ne].
    by rewrite getp_setp_eq by (rewrite (fi_procs _ _ A1); lia).
  - intros j Hj. rewrite getp_setp_ne by done. auto.
Qed.

(** A count is small. *)
Lemma du_small i d k k' f : during i d k k' -> (f < NFILE)%nat -> d f <= 2 -> f_ref (File.getf (kfiles k') f) < 2000.
Proof.
  intros [A1 _ _] Hf Hd. pose proof (fi_ref _ _ A1 f Hf) as Hr. unfold refs in Hr. unfold kfiles. rewrite Hr.
  pose proof (owners_bound d (kprocs k') f A1). lia.
Qed.

Lemma du_tab i d k k' : during i d k k' -> length (ftable (kfiles k')) = NFILE.
Proof. intros Hd. apply (fi_tab _ _ (du_inv _ _ _ _ Hd)). Qed.

Lemma fdalloc_loop_run n fd0 i f k : match fdalloc_loop n fd0 i f k with
  | (Some fd, k') => (fd0 <= fd < fd0 + n)%nat /\ ofile_at i fd k = 0 /\ k' = set_ofile_at i fd (fptr f) k
  | (None, k') => k' = k
  end.
Proof.
  revert fd0. induction n as [|n IH]; intros fd0; cbn [fdalloc_loop]; [done|].
  destruct (_ =? 0) eqn:E; bool_to_prop; [split_and!; auto; lia|]. specialize (IH (S fd0)).
  destruct (fdalloc_loop n (S fd0) i f k) as [[fd|] k']; [|done]. destruct IH as (? & ? & ?). split_and!; auto; lia.
Qed.

(** [fdalloc] takes over a reference. *)
Lemma fdalloc_run i d k k' f : (i < NPROC)%nat -> (f < NFILE)%nat -> during i d k k' -> match fdalloc i f k' with
  | (Some fd, k'') => (fd < NOFILE)%nat /\ ofile_at i fd k' = 0 /\ k'' = set_ofile_at i fd (fptr f) k' /\
      during i (fun g => d g - one f g) k k''
  | (None, k'') => k'' = k'
  end.
Proof.
  intros Hi Hf Hd. unfold fdalloc. pose proof (fdalloc_loop_run NOFILE 0 i f k') as H.
  destruct (fdalloc_loop NOFILE 0 i f k') as [[fd|] k'']; [|done]. destruct H as (Hfd & H0 & ->). split; [lia|]. split; [done|]. split; [done|].
  eapply du_fd; [done|exact Hd|lia|by right; exists f|]. intros g. rewrite H0, isptr_0, isptr_fptr. lia.
Qed.

Lemma argfd_run i n d k fd f : (i < NPROC)%nat -> fd_inv d (kprocs k) -> argfd i n k = Ok (Some (fd, f)) ->
  (fd < NOFILE)%nat /\ ofile_at i fd k = fptr f /\ (f < NFILE)%nat.
Proof.
  intros Hi Hinv E. unfold argfd in E. inv_ok. destruct ((_ <? 0) || _) eqn:Eb; [discriminate|]. apply orb_false_iff in Eb as [E1 E2].
  bool_to_prop. injection E as E. destruct (_ =? 0) eqn:E0; [discriminate|]. injection E as <- <-. bool_to_prop.
  assert (Hfd : (Z.to_nat x < NOFILE)%nat) by lia. split; [done|].
  destruct (fi_ptr _ _ Hinv i (Z.to_nat x) _ Hi (ofile_lookup i d k _ Hi Hinv Hfd)) as [?|(f & -> & Hf)]; [done|].
  unfold fidx, fptr in *. replace (Z.to_nat (Z.of_nat f + 1 - 1)) with f by lia. done.
Qed.

End Calls.

(** * Reference counts of open files under all system calls

    Every call that creates, copies or drops a file descriptor keeps the
    counts right, on its error paths too. *)

Section Calls.
Context {T D : Type} {HT : TxStore T} {HO : TxOps T} {HD : Devsw D}.
Abbreviation kern := (kernel (kfs T D)).
Implicit Types k : kern.

Definition d0 : nat -> Z := fun _ => 0.

Lemma in_files_run (f : kfs T D -> outcome (kfs T D)) k k' : in_files f k = Ok k' -> exists x, f (kfiles k) = Ok x /\ k' = set_kfiles x k.
Proof. unfold in_files. intros E. inv_ok. subst. eauto. Qed.
Lemma on_files_run {A} (f : kfs T D -> outcome (A * kfs T D)) k r k' : on_files f k = Ok (r, k') ->
  exists x, f (kfiles k) = Ok (r, x) /\ k' = set_kfiles x k.
Proof. unfold on_files. intros E. apply bind_ok in E as ([a x] & E1 & E2). injection E2 as <- <-. eauto. Qed.

(** Inside the file system the table does not change. *)
Lemma du_fs i d k k1 k2 f : during i d k k1 -> in_files (File.in_fs f) k1 = Ok k2 -> during i d k k2.
Proof. intros Hd E. apply in_files_run in E as (x & E & ->). eapply du_same; [exact Hd|]. by eapply in_fs_ref. Qed.
Lemma du_begin i d k k1 k2 : during i d k k1 -> in_files File.begin_op k1 = Ok k2 -> during i d k k2.
Proof. apply du_fs. Qed.
Lemma du_end i d k k1 k2 : during i d k k1 -> in_files File.end_op k1 = Ok k2 -> during i d k k2.
Proof. apply du_fs. Qed.
Lemma du_on_fs {A} i d k k1 (f : fs T -> outcome (A * fs T)) r k2 : during i d k k1 -> on_files (File.on_fs f) k1 = Ok (r, k2) -> during i d k k2.
Proof.
  intros Hd E. apply on_files_run in E as (x & E & ->). eapply du_same; [exact Hd|].
  unfold File.on_fs in E. apply bind_ok in E as ([a v] & _ & E). injection E as <- <-. split; [done|]. intros f0. by rewrite Z.add_0_r.
Qed.

Lemma du_close i d k k1 me f k2 : during i d k k1 -> (f < NFILE)%nat -> d f <= 2 ->
  in_files (File.fileclose me f) k1 = Ok k2 -> during i (fun g => d g - one f g) k k2.
Proof.
  intros Hd Hf Hs E. apply in_files_run in E as (x & E & ->). pose proof (du_small _ _ _ _ f Hd Hf Hs).
  pose proof (fileclose_ref me f _ x ltac:(by rewrite (du_tab _ _ _ _ Hd)) ltac:(lia) E) as Hr.
  eapply du_files; [exact Hd|exact Hr|]. intros g. cbn. lia.
Qed.

Lemma one_le g f : 0 <= one g f <= 1.
Proof. unfold one. case_bool_decide; cbn; lia. Qed.

Lemma sys_dup_keeps i k r k' : (i < NPROC)%nat -> fd_inv d0 (kprocs k) -> sys_dup i k = Ok (r, k') -> during i d0 k k'.
Proof.
  intros Hi Hinv E. unfold sys_dup, fret in E. inv_ok. destruct x as [[fd f]|]; [|injection E as <- <-; by apply du_start].
  destruct (argfd_run _ _ _ _ _ _ Hi Hinv H) as (Hfd & _ & Hf). pose proof (du_start i d0 k Hinv) as Hd.
  pose proof (fdalloc_run i d0 k k f Hi Hf Hd) as Ha. destruct (fdalloc i f k) as [[fd'|] k1]; [|injection E as <- <-; by subst].
  destruct Ha as (_ & _ & _ & H1). inv_ok. simplify_eq. apply in_files_run in H0 as (y & Ey & ->).
  pose proof (one_le f f). assert (Hs : d0 f - one f f <= 2) by (unfold d0; lia).
  pose proof (du_small i (fun g => d0 g - one f g) k k1 f H1 Hf Hs).
  destruct (filedup_ref f _ y ltac:(by rewrite (du_tab _ _ _ _ H1)) ltac:(lia) Ey) as [Hr _].
  eapply du_files; [exact H1|exact Hr|]. intros g. unfold d0. cbn. lia.
Qed.

Lemma sys_close_keeps i k r k' : (i < NPROC)%nat -> fd_inv d0 (kprocs k) -> sys_close i k = Ok (r, k') -> during i d0 k k'.
Proof.
  intros Hi Hinv E. unfold sys_close, fret in E. inv_ok. destruct x as [[fd f]|]; [|injection E as <- <-; by apply du_start].
  destruct (argfd_run _ _ _ _ _ _ Hi Hinv H) as (Hfd & Hz & Hf). pose proof (du_start i d0 k Hinv) as Hd.
  assert (H1 : during i (fun g => one f g) k (set_ofile_at i fd 0 k)).
  { eapply du_fd; [done|exact Hd|done|by left|]. intros g. rewrite Hz, isptr_0, isptr_fptr. unfold d0. lia. }
  inv_ok. simplify_eq. eapply du_close in H0; [|exact H1|done|pose proof (one_le f f); lia].
  eapply du_ext; [|exact H0]. intros g. unfold d0. cbn. lia.
Qed.

(** Two ends that are closed again. *)
Lemma close_ends_keeps i d k k1 rf wf r k' : rf <> wf -> (rf < NFILE)%nat -> (wf < NFILE)%nat ->
  (forall g, d g = one rf g + one wf g) -> during i d k k1 -> close_ends i rf wf k1 = Ok (r, k') -> during i d0 k k'.
Proof.
  intros Hne Hr Hw Hdd Hd E. unfold close_ends, fret in E. inv_ok. simplify_eq. pose proof (one_le rf rf). pose proof (one_le wf rf).
  pose proof (one_le rf wf). pose proof (one_le wf wf).
  eapply du_close in H; [|exact Hd|done|rewrite Hdd; lia]. eapply du_close in H0; [|exact H|done|cbn; rewrite Hdd; lia].
  eapply du_ext; [|exact H0]. intros g. unfold d0. cbn. rewrite Hdd. lia.
Qed.

(** [f] and the reference that the caller holds. *)
Lemma on_files_mem_run {A} (f : phys -> kfs T D -> outcome (A * phys * kfs T D)) k r k' : on_files_mem f k = Ok (r, k') ->
  exists m x, f (kmem k) (kfiles k) = Ok (r, m, x) /\ k' = set_kmem m (set_kfiles x k).
Proof. unfold on_files_mem. intros E. apply bind_ok in E as ([[a m] x] & E1 & E2). injection E2 as <- <-. eauto. Qed.

Lemma ofile_at_set i d k fd fd' z : (i < NPROC)%nat -> fd_inv d (kprocs k) -> (fd < NOFILE)%nat ->
  ofile_at i fd' (set_ofile_at i fd z k) = if decide (fd' = fd) then z else ofile_at i fd' k.
Proof.
  intros Hi Hinv Hfd. unfold ofile_at, set_ofile_at, curp. cbn [kprocs set_kprocs].
  rewrite getp_setp_eq by (rewrite (fi_procs _ _ Hinv); lia). cbn [ofile set_ofile].
  destruct (decide (fd' = fd)) as [->|Hne]; [|by rewrite list_lookup_insert_ne].
  by rewrite list_lookup_insert_eq by (rewrite (fi_ofile _ _ Hinv) by done; done).
Qed.

Lemma fptr_pos f : fptr f <> 0.
Proof. unfold fptr. lia. Qed.

(** A descriptor that goes gives its reference back to the caller. *)
Lemma du_drop i d k k1 fd f : (i < NPROC)%nat -> during i d k k1 -> (fd < NOFILE)%nat -> ofile_at i fd k1 = fptr f ->
  during i (fun g => d g + one f g) k (set_ofile_at i fd 0 k1).
Proof. intros Hi Hd Hfd Hz. eapply du_fd; [done|exact Hd|done|by left|]. intros g. rewrite Hz, isptr_0, isptr_fptr. lia. Qed.

Lemma sys_pipe_keeps i k r k' : (i < NPROC)%nat -> fd_inv d0 (kprocs k) -> sys_pipe i k = Ok (r, k') -> during i d0 k k'.
Proof.
  intros Hi Hinv E. unfold sys_pipe, fret in E. apply bind_ok in E as (fdarray & _ & E). apply bind_ok in E as ([o k1] & E1 & E).
  apply on_files_mem_run in E1 as (m & x & E1 & ->). pose proof (du_start i d0 k Hinv) as Hd.
  pose proof (pipealloc_ref _ _ _ _ _ _ (du_tab _ _ _ _ Hd) E1) as Hp.
  destruct o as [[rf wf]|]; [|injection E as <- <-; by apply du_mem, (du_same i d0 k k)].
  destruct Hp as (Hr & Hw & Hne & Hp). set (k1 := set_kmem m (set_kfiles x k)) in *.
  assert (H1 : during i (fun g => one rf g + one wf g) k k1) by (apply du_mem; eapply du_files; [exact Hd|exact Hp|]; intros g; unfold d0; cbn; lia).
  clearbody k1. clear Hd Hp E1. pose proof (fdalloc_run i _ k k1 rf Hi Hr H1) as Ha.
  destruct (fdalloc i rf k1) as [[fd0|] k2]; [|subst k2; by eapply close_ends_keeps].
  destruct Ha as (Hfd0 & Hz0 & Ek2 & H2). pose proof (fdalloc_run i _ k k2 wf Hi Hw H2) as Hb.
  destruct (fdalloc i wf k2) as [[fd1|] k3].
  2: { subst k3. assert (Hz : ofile_at i fd0 k2 = fptr rf)
         by (subst k2; by rewrite (ofile_at_set i _ k1 fd0 fd0 (fptr rf) Hi (du_inv _ _ _ _ H1) Hfd0), decide_True).
       pose proof (du_drop _ _ _ _ _ _ Hi H2 Hfd0 Hz) as H3.
       eapply close_ends_keeps; [exact Hne|done|done| |exact H3|exact E]. intros g. cbn. lia. }
  destruct Hb as (Hfd1 & Hz1 & Ek3 & H3).
  assert (Hfd : fd0 <> fd1).
  { intros <-. subst k2. rewrite (ofile_at_set i _ k1 fd0 fd0 (fptr rf) Hi (du_inv _ _ _ _ H1) Hfd0), decide_True in Hz1 by done.
    by apply fptr_pos in Hz1. }
  apply bind_ok in E as ([r1 m1] & _ & E). apply bind_ok in E as ([r2 m2] & _ & E).
  destruct (r2 <? 0); [|injection E as <- <-; eapply du_ext; [|apply du_mem; exact H3]; intros g; unfold d0; cbn; lia].
  pose proof (du_mem _ _ _ _ m2 H3) as H4.
  assert (Ha0 : ofile_at i fd0 (set_kmem m2 k3) = fptr rf).
  { change (ofile_at i fd0 (set_kmem m2 k3)) with (ofile_at i fd0 k3). subst k3.
    rewrite (ofile_at_set i _ k2 fd1 fd0 (fptr wf) Hi (du_inv _ _ _ _ H2) Hfd1), decide_False by done. subst k2.
    by rewrite (ofile_at_set i _ k1 fd0 fd0 (fptr rf) Hi (du_inv _ _ _ _ H1) Hfd0), decide_True. }
  pose proof (du_drop _ _ _ _ _ _ Hi H4 Hfd0 Ha0) as H5.
  assert (Ha1 : ofile_at i fd1 (set_ofile_at i fd0 0 (set_kmem m2 k3)) = fptr wf).
  { rewrite (ofile_at_set i _ _ fd0 fd1 0 Hi (du_inv _ _ _ _ H4) Hfd0), decide_False by done.
    change (ofile_at i fd1 (set_kmem m2 k3)) with (ofile_at i fd1 k3). subst k3.
    by rewrite (ofile_at_set i _ k2 fd1 fd1 (fptr wf) Hi (du_inv _ _ _ _ H2) Hfd1), decide_True. }
  pose proof (du_drop _ _ _ _ _ _ Hi H5 Hfd1 Ha1) as H6.
  eapply close_ends_keeps; [exact Hne|done|done| |exact H6|exact E]. intros g. cbn. lia.
Qed.


Lemma open_fail_keeps i d k k1 ip r k' : during i d k k1 -> open_fail i ip k1 = Ok (r, k') -> during i d k k'.
Proof.
  intros Hd E. unfold open_fail, fret in E. apply bind_ok in E as (k2 & E2 & E). apply bind_ok in E as (k3 & E3 & E). simplify_eq.
  eapply du_end; [|exact E3]. by eapply du_fs.
Qed.

Lemma open_file_ref ip p omode y : f_ref (open_file_of ip p omode y) = f_ref y.
Proof. unfold open_file_of. by destruct (i_type p =? T_DEVICE). Qed.

Lemma open_install_keeps i k k2 ip omode r k' : (i < NPROC)%nat -> during i d0 k k2 -> open_install i ip omode k2 = Ok (r, k') -> during i d0 k k'.
Proof.
  intros Hi H2 E. unfold open_install, fret in E.
  pose proof (filealloc_ref (kfiles k2) (du_tab _ _ _ _ H2)) as Ha. destruct (File.filealloc (kfiles k2)) as [[f|] x].
  2: { subst x. eapply open_fail_keeps; [|exact E]. apply du_same; [exact H2|apply ref_step_refl]. }
  destruct Ha as (Hf & _ & Hr & _).
  assert (H3 : during i (one f) k (set_kfiles x k2)) by (eapply du_files; [exact H2|exact Hr|]; intros g; unfold d0; lia).
  set (k3 := set_kfiles x k2) in *. clearbody k3. pose proof (fdalloc_run i _ k k3 f Hi Hf H3) as Hb.
  destruct (fdalloc i f k3) as [[fd|] k4].
  2: { subst k4. apply bind_ok in E as (k5 & E5 & E). eapply du_close in E5; [|exact H3|done|pose proof (one_le f f); lia].
       eapply open_fail_keeps; [|exact E]. eapply du_ext; [|exact E5]. intros g. unfold d0. cbn. lia. }
  destruct Hb as (_ & _ & _ & H4). set (p := geti _ ip) in *.
  assert (H5 : during i d0 k (set_kfiles (File.setf f (open_file_of ip p omode) (kfiles k4)) k4)).
  { eapply du_ext; [|eapply du_same; [exact H4|apply setf_ref, open_file_ref]]. intros g. unfold d0. cbn. lia. }
  set (k5 := set_kfiles _ k4) in *. clearbody k5.
  apply bind_ok in E as (k6 & E6 & E). assert (H6 : during i d0 k k6) by (destruct (_ && _); [by eapply du_fs|injection E6 as <-; exact H5]).
  apply bind_ok in E as (k7 & E7 & E). apply bind_ok in E as (k8 & E8 & E). injection E as <- <-.
  eapply du_end; [|exact E8]. by eapply du_fs.
Qed.

#[local] Opaque argstr open_fs.

Lemma sys_open_keeps i k r k' : (i < NPROC)%nat -> fd_inv d0 (kprocs k) -> sys_open i k = Ok (r, k') -> during i d0 k k'.
Proof.
  intros Hi Hinv E. unfold sys_open in E. apply bind_ok in E as (omode & _ & E). apply bind_ok in E as (path & _ & E).
  pose proof (du_start i d0 k Hinv) as Hd. destruct path as [path|]; [|injection E as <- <-; exact Hd].
  apply bind_ok in E as (k1 & E1 & E). pose proof (du_begin _ _ _ _ _ Hd E1) as H1.
  apply bind_ok in E as ([o k2] & E2 & E). pose proof (du_on_fs _ _ _ _ _ _ _ H1 E2) as H2.
  destruct o as [ip|]; [by eapply open_install_keeps|].
  apply bind_ok in E as (k3 & E3 & E). injection E as <- <-. by eapply du_end.
Qed.

(** Reading and writing do not change the counts. *)
Lemma filewrite_chunk_ref me f src n (x : kfs T D) r x' : File.filewrite_chunk me f src n x = Ok (r, x') -> ref_step (fun _ => 0) x x'.
Proof.
  intros E. unfold File.filewrite_chunk in E. apply bind_ok in E as (x1 & E1 & E). apply bind_ok in E as (x2 & E2 & E).
  apply bind_ok in E as ([[r1 src'] v] & _ & E). apply bind_ok in E as (x4 & E4 & E). apply bind_ok in E as (x5 & E5 & E). simplify_eq.
  unfold File.begin_op, File.end_op in *. apply in_fs_ref in E1, E2, E4, E5.
  eapply ref_same_trans; [exact E1|]. eapply ref_same_trans; [exact E2|]. eapply ref_same_trans; [|eapply ref_same_trans; [exact E4|exact E5]].
  destruct (0 <? r); [by apply (setf_ref f _ (File.set_fsys v x2))|]. split; [done|]. intros g. by rewrite Z.add_0_r.
Qed.

Lemma filewrite_loop_ref n me f i0 len pt addr m (x : kfs T D) r x' : File.filewrite_loop me n f i0 len pt addr m x = Ok (r, x') ->
  ref_step (fun _ => 0) x x'.
Proof.
  revert i0 x. induction n as [|n IH]; intros i0 x E; cbn [File.filewrite_loop] in E;
    (destruct (i0 <? len); [|injection E as <- <-; apply ref_step_refl]); [discriminate|].
  apply bind_ok in E as ([r1 x1] & E1 & E). apply filewrite_chunk_ref in E1. destruct (negb _); [by simplify_eq|].
  eapply ref_same_trans; [exact E1|by eapply IH].
Qed.

Lemma ref_same (x x' : kfs T D) : ftable x' = ftable x -> ref_step (fun _ => 0) x x'.
Proof. intros E. split; [by rewrite E|]. intros g. unfold File.getf. rewrite E. lia. Qed.

Lemma filewrite_ref me f kl pt addr n m (x : kfs T D) r x' : File.filewrite me f kl pt addr n m x = Ok (r, x') -> ref_step (fun _ => 0) x x'.
Proof.
  intros E. unfold File.filewrite in E. destruct (negb _); [injection E as <- <-; by apply ref_same|].
  destruct (f_type _).
  - discriminate.
  - destruct (pipes x !! _) as [pi|]; [|discriminate]. destruct (pipewrite _ _ _ _ _) as [[[r1 b|n1 b] l] pi']; [|discriminate].
    injection E as <- <-. by apply ref_same.
  - apply bind_ok in E as ([i1 x1] & E1 & E). injection E as <- <-. by eapply filewrite_loop_ref.
  - destruct (_ || _); [injection E as <- <-; by apply ref_same|]. destruct (dev_write _) as [w|]; [|injection E as <- <-; by apply ref_same].
    apply bind_ok in E as ([[r1 s1] dv] & E1 & E). injection E as <- <-. by apply ref_same.
Qed.

Lemma fileread_ref me f kl pt addr n m (x : kfs T D) r m' x' : File.fileread me f kl pt addr n m x = Ok (r, m', x') -> ref_step (fun _ => 0) x x'.
Proof.
  intros E. unfold File.fileread in E. destruct (negb _); [injection E as <- <- <-; by apply ref_same|].
  destruct (f_type _).
  - discriminate.
  - destruct (pipes x !! _) as [pi|]; [|discriminate]. destruct (piperead _ _ _ _) as [[[r1 b|n1 b] l] pi']; [|discriminate].
    apply bind_ok in E as (m1 & E1 & E). injection E as <- <- <-. by apply ref_same.
  - apply bind_ok in E as (x1 & E1 & E). apply bind_ok in E as ([[r1 d] v] & E2 & E). apply bind_ok in E as (x3 & E3 & E).
    injection E as <- <- <-. apply in_fs_ref in E1, E3. eapply ref_same_trans; [exact E1|]. eapply ref_same_trans; [|exact E3].
    destruct (0 <? r1); [by apply (setf_ref f _ (File.set_fsys v x1))|by apply (ref_same x1)].
  - destruct (_ || _); [injection E as <- <- <-; by apply ref_same|]. destruct (dev_read _) as [w|]; [|injection E as <- <- <-; by apply ref_same].
    apply bind_ok in E as ([[r1 s1] dv] & E1 & E). injection E as <- <- <-. by apply ref_same.
Qed.

Lemma sys_read_keeps i k r k' : fd_inv d0 (kprocs k) -> sys_read i k = Ok (r, k') -> during i d0 k k'.
Proof.
  intros Hinv E. unfold sys_read, fret in E. inv_ok. pose proof (du_start i d0 k Hinv) as Hd.
  destruct x1 as [[fd f]|]; [|by simplify_eq]. apply bind_ok in E as ([v k1] & E1 & E). injection E as <- <-.
  apply on_files_mem_run in E1 as (m & y & E1 & ->). apply du_mem, du_same; [exact Hd|]. by eapply fileread_ref.
Qed.

Lemma sys_write_keeps i k r k' : fd_inv d0 (kprocs k) -> sys_write i k = Ok (r, k') -> during i d0 k k'.
Proof.
  intros Hinv E. unfold sys_write, fret in E. inv_ok. pose proof (du_start i d0 k Hinv) as Hd.
  destruct x1 as [[fd f]|]; [|by simplify_eq]. apply bind_ok in E as ([v k1] & E1 & E). injection E as <- <-.
  apply on_files_run in E1 as (y & E1 & ->). apply du_same; [exact Hd|]. by eapply filewrite_ref.
Qed.

End Calls.
