(* ===== verification/FdProc.v ===== *)
(** * Reference counts of open files under [fork], [exit] and [wait]

    A child inherits the descriptors of its parent, and a process that exits
    closes its own; the counts stay right over any sequence of calls. *)
From S2P Require Import Prelude Cstring Riscv Kalloc Vm Block Bio BioTheory Log Fs FsProps Pipe File Proc ProcTheory.
From S2P Require Import ProcInv Datetime Syscall Sysproc Sysfile FdProps.

Section Procs.
Context {T D : Type} {HT : TxStore T} {HO : TxOps T} {HD : Devsw D}.
Variables (kend trampoline forkret_addr me : Z).
Abbreviation kst := (kstate (kfs T D)).
Implicit Types s : kst.
#[local] Instance layer : FileLayer (kfs T D) := kfs_layer me.

Definition dead s (j : nat) : Prop := state (getp s j) = UNUSED \/ state (getp s j) = ZOMBIE.

(** ** Functions that leave descriptors and files alone *)

Lemma quiet_setp s i f : (forall p, ofile (f p) = ofile p) -> quiet s (setp i f s).
Proof.
  intros Hf. split; [apply length_setp| |done|done]. intros j. unfold getp, setp. cbn [procs].
  destruct (decide (i = j)) as [<-|Hne]; [|by rewrite list_lookup_alter_ne].
  rewrite list_lookup_alter_eq. destruct (procs s !! i); [apply Hf|done].
Qed.

Lemma quiet_phys s m : quiet s (set_phys m s).
Proof. by split. Qed.

Lemma quiet_then s s1 i f : quiet s s1 -> (forall p, ofile (f p) = ofile p) -> quiet s (setp i f s1).
Proof. intros Hq Hf. eapply quiet_trans; [exact Hq|by apply quiet_setp]. Qed.

Lemma quiet_then_phys s s1 i f m : quiet s s1 -> (forall p, ofile (f p) = ofile p) -> quiet s (setp i f (set_phys m s1)).
Proof. intros Hq Hf. apply quiet_then; [|done]. eapply quiet_trans; [exact Hq|apply quiet_phys]. Qed.

Lemma freeproc_quiet i s s' : freeproc kend i s = Ok s' -> quiet s s'.
Proof.
  unfold freeproc. intros E. inv_ok. subst s'. apply quiet_then_phys; [|done]. apply quiet_then_phys; [apply quiet_refl|done].
Qed.

Lemma allocproc_quiet s o s' : allocproc kend trampoline forkret_addr s = Ok (o, s') -> quiet s s'.
Proof.
  unfold allocproc. intros E. destruct (find_unused NPROC 0 s) as [i|]; [|injection E as <- <-; apply quiet_refl].
  unfold allocpid in E. cbn zeta in E. set (s0 := KState _ _ _ _ _) in E. assert (Q0 : quiet s s0) by done.
  set (s1 := setp i _ s0) in E. assert (Q1 : quiet s s1) by (by apply (quiet_then s s0)).
  destruct (kalloc (kphys s1)) as [tf m]. set (s2 := setp i _ (set_phys m s1)) in E.
  assert (Q2 : quiet s s2) by (by apply quiet_then_phys). clearbody s2.
  destruct (tf =? 0); [inv_ok; simplify_eq; eapply quiet_trans; [exact Q2|by eapply freeproc_quiet]|].
  apply bind_ok in E as ([pt m'] & _ & E). set (s3 := setp i _ (set_phys m' s2)) in E.
  assert (Q3 : quiet s s3) by (by apply quiet_then_phys). clearbody s3.
  destruct (pt =? 0); [inv_ok; simplify_eq; eapply quiet_trans; [exact Q3|by eapply freeproc_quiet]|].
  injection E as <- <-. by apply quiet_then.
Qed.

Lemma wakeup_loop_quiet k j m ch now s : quiet s (wakeup_loop k j m ch now s).
Proof.
  revert j s. induction k as [|k IH]; intros j s; cbn [wakeup_loop]; [apply quiet_refl|].
  eapply quiet_trans; [|apply IH]. dcase; [apply quiet_refl|]. apply quiet_setp. intros p. unfold wake. repeat dcase; done.
Qed.

Lemma reparent_loop_quiet k pp i now s : quiet s (reparent_loop k pp i now s).
Proof.
  revert pp s. induction k as [|k IH]; intros pp s; cbn [reparent_loop]; [apply quiet_refl|].
  eapply quiet_trans; [|apply IH]. dcase; [|apply quiet_refl]. eapply quiet_trans; [by apply (quiet_setp s pp (set_parent (initproc s)))|].
  exact (wakeup_loop_quiet NPROC 0 _ _ _ _).
Qed.

(** ** The files of a child and of a process that exits *)

Record moved s s' (j0 : nat) : Prop := {
  mo_inv : fd_inv d0 s';
  mo_state : forall j, state (getp s' j) = state (getp s j);
  mo_other : forall j, j <> j0 -> ofile (getp s' j) = ofile (getp s j)
}.

(** A reference is added or removed together with a descriptor. *)
Lemma move_ref s x g fd z i e : (i < NPROC)%nat -> fd_inv d0 s -> ref_step e (files s) x ->
  ofile (getp s i) !! fd = Some g -> z = 0 \/ (exists f, z = fptr f /\ (f < NFILE)%nat) ->
  (forall f, e f + isptr g f - isptr z f = 0) ->
  moved s (setp i (fun p => set_ofile (<[fd := z]> (ofile p)) p) (set_files x s)) i.
Proof.
  intros Hi Hinv [L R] Hg Hz He. split.
  - eapply fd_ext; [|eapply (fd_set (fun f => d0 f + e f) (set_files x s) i fd g z); [done|done|done|]].
    + intros f. unfold d0 in *. specialize (He f). lia.
    + apply fd_files; [done|done|]. intros f _. apply R.
  - intros j. destruct (decide (j = i)) as [->|Hne]; [|by rewrite getp_setp_ne].
    by rewrite getp_setp_eq by (cbn [procs set_files]; rewrite (fi_procs _ _ Hinv); lia).
  - intros j Hj. by rewrite getp_setp_ne.
Qed.

Lemma fd_small s f : fd_inv d0 s -> (f < NFILE)%nat -> f_ref (File.getf (files s) f) < 2000.
Proof. intros Hinv Hf. pose proof (fi_ref _ _ Hinv f Hf) as Hr. unfold refs, d0 in Hr. pose proof (owners_bound d0 s f Hinv). lia. Qed.

Lemma fidx_fptr f : fidx (fptr f) = f.
Proof. unfold fidx, fptr. lia. Qed.

Lemma ofile_some s i fd : (i < NPROC)%nat -> fd_inv d0 s -> (fd < NOFILE)%nat ->
  ofile (getp s i) !! fd = Some (default 0 (ofile (getp s i) !! fd)).
Proof.
  intros Hi Hinv Hfd. rewrite <- (fi_ofile _ _ Hinv i Hi) in Hfd. apply lookup_lt_is_Some in Hfd as [z Hz]. by rewrite Hz.
Qed.

Lemma fork_files_run k fd i np s s' : (fd + k <= NOFILE)%nat -> (i < NPROC)%nat -> (np < NPROC)%nat -> i <> np -> fd_inv d0 s ->
  (forall q, (fd <= q < NOFILE)%nat -> ofile (getp s np) !! q = Some 0) ->
  fork_files k fd i np s = Ok s' -> moved s s' np.
Proof.
  revert fd s. induction k as [|k IH]; intros fd s Hk Hi Hn Hne Hinv Hz E; cbn [fork_files] in E.
  { injection E as <-. by split. }
  pose proof (ofile_some s i fd Hi Hinv ltac:(lia)) as Ho. set (z := default 0 (ofile (getp s i) !! fd)) in *. clearbody z.
  destruct (z =? 0) eqn:E0; cbn [negb] in E; [apply (IH (S fd)); auto; [lia|intros q Hq; apply Hz; lia]|]. bool_to_prop.
  destruct (fi_ptr _ _ Hinv i fd z Hi Ho) as [?|(f & -> & Hf)]; [done|].
  apply bind_ok in E as (x & E1 & E). cbn [filedup layer kfs_layer] in E1. rewrite fidx_fptr in E1.
  destruct (filedup_ref f (files s) x) as [Hr _]; [by rewrite (fi_tab _ _ Hinv)|pose proof (fd_small s f Hinv Hf); lia|done|].
  assert (M : moved s (setp np (fun p => set_ofile (<[fd := fptr f]> (ofile p)) p) (set_files x s)) np).
  { apply (move_ref s x 0 fd (fptr f) np (one f)); auto; [apply Hz; lia|eauto|]. intros g. rewrite isptr_0, isptr_fptr. lia. }
  destruct M as [M1 M2 M3]. set (s1 := setp np _ _) in *.
  apply (IH (S fd)) in E as [N1 N2 N3]; auto; [|lia|].
  - split; [done|intros j; by rewrite N2|intros j Hj; by rewrite N3, M3].
  - intros q Hq. unfold s1. rewrite getp_setp_eq by (cbn [procs set_files]; rewrite (fi_procs _ _ Hinv); lia).
    cbn [ofile set_ofile]. rewrite list_lookup_insert_ne by lia. apply Hz. lia.
Qed.

Lemma exit_files_run k fd i s s' : (fd + k = NOFILE)%nat -> (i < NPROC)%nat -> fd_inv d0 s ->
  (forall q, (q < fd)%nat -> ofile (getp s i) !! q = Some 0) ->
  exit_files k fd i s = Ok s' -> moved s s' i /\ forall q, (q < NOFILE)%nat -> ofile (getp s' i) !! q = Some 0.
Proof.
  revert fd s. induction k as [|k IH]; intros fd s Hk Hi Hinv Hz E; cbn [exit_files] in E.
  { injection E as <-. split; [by split|]. intros q Hq. apply Hz. lia. }
  pose proof (ofile_some s i fd Hi Hinv ltac:(lia)) as Ho. set (z := default 0 (ofile (getp s i) !! fd)) in *. clearbody z.
  destruct (z =? 0) eqn:E0; cbn [negb] in E; bool_to_prop.
  { apply (IH (S fd)); auto; [lia|]. intros q Hq. destruct (decide (q = fd)) as [->|]; [by rewrite Ho, E0|apply Hz; lia]. }
  destruct (fi_ptr _ _ Hinv i fd z Hi Ho) as [?|(f & -> & Hf)]; [done|].
  apply bind_ok in E as (x & E1 & E). cbn [fileclose layer kfs_layer] in E1. rewrite fidx_fptr in E1.
  pose proof (fd_small s f Hinv Hf). apply fileclose_ref in E1; [|by rewrite (fi_tab _ _ Hinv)|lia].
  assert (M : moved s (setp i (fun p => set_ofile (<[fd := 0]> (ofile p)) p) (set_files x s)) i).
  { apply (move_ref s x (fptr f) fd 0 i (fun g => - one f g)); auto. intros g. rewrite isptr_0, isptr_fptr. lia. }
  destruct M as [M1 M2 M3]. set (s1 := setp i _ _) in *.
  apply (IH (S fd)) in E as [[N1 N2 N3] N4]; auto; [|lia|].
  - split; [|done]. split; [done|intros j; by rewrite N2|intros j Hj; by rewrite N3, M3].
  - intros q Hq. unfold s1. rewrite getp_setp_eq by (cbn [procs set_files]; rewrite (fi_procs _ _ Hinv); lia).
    cbn [ofile set_ofile]. destruct (decide (q = fd)) as [->|]; [|rewrite list_lookup_insert_ne by lia; apply Hz; lia].
    rewrite list_lookup_insert_eq; [done|]. change (getp (set_files x s) i) with (getp s i). rewrite (fi_ofile _ _ Hinv) by done. lia.
Qed.

(** ** [fork], [exit] and [wait] *)

Definition fd_ok s : Prop := fd_inv d0 s /\ dead_ok s.

Lemma dead_quiet s s' : quiet s s' -> (forall j, (j < NPROC)%nat -> dead s' j -> dead s j) -> dead_ok s -> dead_ok s'.
Proof. intros Hq Hd Ho j Hj Hs. rewrite (qt_ofile _ _ Hq). apply Ho; [done|]. by apply Hd. Qed.

Lemma becomes_state s s' v j : becomes s s' v -> state (getp s' j) = c_state (v j).
Proof. intros Hb. pose proof (be_vw _ _ _ Hb j) as H. unfold vw in H. by rewrite <- H. Qed.

Lemma fd_sized s : fd_inv d0 s -> sized s.
Proof. apply fi_procs. Qed.

(** A process table entry that was unused has no files, and allocation
    leaves the others as they are. *)
Lemma allocproc_ok s o s' : fd_ok s -> allocproc kend trampoline forkret_addr s = Ok (o, s') ->
  fd_inv d0 s' /\ match o with
  | None => dead_ok s'
  | Some np => (np < NPROC)%nat /\ state (getp s np) = UNUSED /\ ofile (getp s' np) = replicate NOFILE 0 /\
      state (getp s' np) = USED /\ dead_ok s'
  end.
Proof.
  intros [Hinv Hd] E. pose proof (allocproc_quiet s o s' E) as Q. split; [by eapply fd_quiet|]. destruct o as [np|].
  - destruct (allocproc_some kend trampoline forkret_addr s np s' (fd_sized s Hinv) E) as (Hu & Hn & Hb).
    split; [done|]. split; [done|]. split; [rewrite (qt_ofile _ _ Q); apply Hd; [done|by left]|].
    split; [rewrite (becomes_state _ _ _ np Hb), upd_eq; done|].
    apply (dead_quiet s s' Q); [|done]. intros j Hj Hs. unfold dead in *. rewrite (becomes_state _ _ _ j Hb) in Hs.
    destruct (decide (j = np)) as [->|Hne]; [rewrite upd_eq in Hs; cbn in Hs; destruct Hs; discriminate|].
    rewrite upd_ne in Hs by done. exact Hs.
  - destruct (allocproc_none kend trampoline forkret_addr s s' (fd_sized s Hinv) E) as [->|(np & Hu & Hn & Hb)]; [done|].
    apply (dead_quiet s s' Q); [|done]. intros j Hj Hs. unfold dead in *. rewrite (becomes_state _ _ _ j Hb) in Hs.
    destruct (decide (j = np)) as [->|Hne]; [by left|]. rewrite upd_ne in Hs by done. exact Hs.
Qed.

Lemma freeproc_ok i s s' : (i < NPROC)%nat -> fd_inv d0 s -> ofile (getp s i) = replicate NOFILE 0 -> dead_ok s ->
  freeproc kend i s = Ok s' -> fd_ok s'.
Proof.
  intros Hi Hinv Ho Hd E. pose proof (freeproc_quiet i s s' E) as Q. split; [by eapply fd_quiet|].
  assert (Hl : (i < length (procs s))%nat) by (rewrite (fi_procs _ _ Hinv); done).
  pose proof (freeproc_effect kend i s s' Hl E) as Hb. intros j Hj Hs. rewrite (qt_ofile _ _ Q).
  destruct (decide (j = i)) as [->|Hne]; [done|]. apply Hd; [done|]. by rewrite (becomes_state _ _ _ j Hb), upd_ne in Hs by done.
Qed.

Lemma lookup_zeros q : (q < NOFILE)%nat -> replicate NOFILE 0 !! q = Some 0.
Proof. apply lookup_replicate_2. Qed.

(** Quiet changes that keep all states. *)
Lemma ok_quiet s s' : quiet s s' -> (forall j, state (getp s' j) = state (getp s j)) -> fd_ok s -> fd_ok s'.
Proof.
  intros Hq Hs [Hinv Hd]. split; [by eapply fd_quiet|]. apply (dead_quiet s s' Hq); [|done]. intros j _. unfold dead. by rewrite Hs.
Qed.

Lemma moved_ok s s' np : moved s s' np -> ~ dead s np -> fd_ok s -> fd_ok s'.
Proof.
  intros [M1 M2 M3] Hn [_ Hd]. split; [done|]. intros j Hj Hs. rewrite M2 in Hs.
  destruct (decide (j = np)) as [->|Hne]; [by destruct Hn|]. rewrite M3 by done. by apply Hd.
Qed.

(** [setp] with a function that keeps the state and the files. *)
Lemma ok_setp s i f : (forall p, ofile (f p) = ofile p) -> (forall p, state (f p) = state p) -> fd_ok s -> fd_ok (setp i f s).
Proof.
  intros Hf Hs. apply ok_quiet; [by apply quiet_setp|]. intros j. unfold getp, setp. cbn [procs].
  destruct (decide (i = j)) as [<-|Hne]; [|by rewrite list_lookup_alter_ne]. rewrite list_lookup_alter_eq. destruct (procs s !! i); [apply Hs|done].
Qed.

Lemma ok_phys s m : fd_ok s -> fd_ok (set_phys m s).
Proof. by apply ok_quiet; [apply quiet_phys|]. Qed.

Lemma ok_files s x : ref_step (fun _ => 0) (files s) x -> fd_ok s -> fd_ok (set_files x s).
Proof.
  intros [L R] [Hinv Hd]. split; [|done]. eapply fd_ext; [|apply (fd_files d0 (fun _ => 0) s x); [done|done|intros f _; apply R]]. done.
Qed.

Lemma fork_copy_ok i s o s' : (i < NPROC)%nat -> ~ dead s i -> fd_ok s -> fork_copy kend trampoline forkret_addr i s = Ok (o, s') ->
  fd_ok s' /\ forall np, o = Some np -> (np < NPROC)%nat.
Proof.
  intros Hi Hl Hok E. unfold fork_copy in E. apply bind_ok in E as ([np s1] & E1 & E). apply allocproc_ok in E1 as [Hi1 Ha]; [|done].
  destruct np as [np|]; [|injection E as <- <-; split; [by split|done]]. destruct Ha as (Hn & Hu & Hz & Hs & Hd).
  assert (Hne : i <> np) by (intros ->; apply Hl; by left). assert (Hok1 : fd_ok s1) by (by split).
  apply bind_ok in E as ([r m] & _ & E). apply (ok_phys s1 m) in Hok1. set (s2 := set_phys m s1) in *.
  assert (Hz2 : ofile (getp s2 np) = replicate NOFILE 0) by exact Hz. assert (Hs2 : state (getp s2 np) = USED) by exact Hs. clearbody s2.
  destruct (r <? 0).
  { apply bind_ok in E as (s3 & E3 & E). injection E as <- <-. split; [|done]. destruct Hok1. eapply freeproc_ok; eauto. }
  set (s3 := setp np _ s2) in E. assert (Hok3 : fd_ok s3) by (by apply ok_setp).
  assert (G3 : getp s3 np = set_sz (sz (getp s2 i)) (getp s2 np)) by (apply getp_setp_eq; rewrite (fi_procs _ _ (proj1 Hok1)); done).
  clearbody s3. set (s4 := set_phys _ s3) in E. assert (Hok4 : fd_ok s4) by (by apply ok_phys).
  assert (Hz4 : ofile (getp s4 np) = replicate NOFILE 0) by (change (getp s4 np) with (getp s3 np); by rewrite G3).
  assert (Hs4 : ~ dead s4 np).
  { change (dead s4 np) with (dead s3 np). unfold dead. rewrite G3. cbn [state set_sz]. rewrite Hs2. intros [?|?]; discriminate. }
  clearbody s4. apply bind_ok in E as (s5 & E5 & E).
  apply (fork_files_run NOFILE 0 i np) in E5; [|lia|done|done|done|apply Hok4|intros q Hq; rewrite Hz4; apply lookup_zeros; lia].
  apply (moved_ok s4 s5 np) in E5; [|done|done]. apply bind_ok in E as (x & E6 & E). injection E as <- <-. injection E6 as <-.
  split; [|intros ? [= <-]; done]. apply ok_setp; [done|done|]. apply ok_setp; [done|done|]. apply ok_files; [|done].
  split; [done|]. intros f. by rewrite Z.add_0_r.
Qed.

Lemma fork_ok i now s r s' : (i < NPROC)%nat -> ~ dead s i -> fd_ok s -> fork kend trampoline forkret_addr i now s = Ok (r, s') -> fd_ok s'.
Proof.
  intros Hi Hl Hok E. unfold fork in E. apply bind_ok in E as ([np s1] & E1 & E). apply fork_copy_ok in E1 as [Hok1 Hn]; [|done..].
  destruct np as [np|]; injection E as <- <-; [|done]. unfold fork_start, fork_link.
  apply (ok_setp s1 np (set_parent (Some i))) in Hok1; [|done|done]. destruct Hok1 as [H1 H2].
  split; [by eapply fd_quiet; [apply quiet_setp|]|]. eapply dead_quiet; [by apply quiet_setp| |exact H2].
  intros j Hj. unfold dead. destruct (decide (j = np)) as [->|Hne]; [|by rewrite getp_setp_ne].
  rewrite getp_setp_eq by (rewrite (fi_procs _ _ H1); done). cbn. intros [?|?]; discriminate.
Qed.

Lemma ok_put i s s' : exit_cwd i s = Ok s' -> fd_ok s -> fd_ok s'.
Proof.
  unfold exit_cwd. intros E Hok. apply bind_ok in E as (x & E1 & E). injection E as <-. apply ok_setp; [done|done|]. apply ok_files; [|done].
  cbn [put_cwd layer kfs_layer] in E1. by eapply iput_ref.
Qed.

(** Waking processes makes no entry dead. *)
Lemma wakeup_dead m ch now s j : sized s -> dead (wakeup m ch now s) j -> dead s j.
Proof.
  intros Hs. unfold dead. rewrite !(becomes_state _ _ _ j (wakeup_effect m ch now s Hs)). destruct (decide _); [done|].
  unfold wake_core. repeat dcase; cbn; try done. intros [?|?]; discriminate.
Qed.

Lemma wakeup_quiet m ch now s : quiet s (wakeup m ch now s).
Proof. exact (wakeup_loop_quiet NPROC 0 m ch now s). Qed.

Lemma fd_ok_wakeup m ch now s : fd_ok s -> fd_ok (wakeup m ch now s).
Proof.
  intros [Hinv Hd]. split; [eapply fd_quiet; [apply wakeup_quiet|done]|].
  eapply dead_quiet; [apply wakeup_quiet| |done]. intros j _. apply wakeup_dead. by apply fd_sized.
Qed.

Lemma ok_reparent k pp i now s : fd_ok s -> fd_ok (reparent_loop k pp i now s).
Proof.
  revert pp s. induction k as [|k IH]; intros pp s Hok; cbn [reparent_loop]; [done|]. apply IH. dcase; [|done].
  apply fd_ok_wakeup. by apply ok_setp.
Qed.

Lemma reparent_quiet i now s : quiet s (reparent i now s).
Proof. exact (reparent_loop_quiet NPROC 0 i now s). Qed.
Lemma reparent_ok i now s : fd_ok s -> fd_ok (reparent i now s).
Proof. exact (ok_reparent NPROC 0 i now s). Qed.

#[local] Opaque wakeup reparent.

Lemma zombie_ok i status s3 s4 : (i < NPROC)%nat -> quiet s3 s4 -> fd_ok s4 -> ofile (getp s3 i) = replicate NOFILE 0 ->
  fd_ok (setp i (fun p => set_state ZOMBIE (set_xstate status p)) s4).
Proof.
  intros Hi Q [H4 D4] Hz. split; [by eapply fd_quiet; [apply quiet_setp|]|].
  intros j Hj. destruct (decide (j = i)) as [->|Hne]; [|rewrite getp_setp_ne by done; by apply D4].
  rewrite getp_setp_eq by (rewrite (fi_procs _ _ H4); done). intros _. cbn [ofile set_state set_xstate]. by rewrite (qt_ofile _ _ Q).
Qed.

Lemma exit_zombie_ok i status now s3 : (i < NPROC)%nat -> fd_ok s3 -> ofile (getp s3 i) = replicate NOFILE 0 -> fd_ok (exit_zombie i status now s3).
Proof.
  intros Hi Hok3 Hz3. unfold exit_zombie. cbn zeta. pose proof (reparent_quiet i now s3) as Q. pose proof (reparent_ok i now s3 Hok3) as Hr.
  generalize dependent (reparent i now s3). intros s5 Q Hr.
  apply (zombie_ok i status s3); [done| |by apply fd_ok_wakeup|done]. eapply quiet_trans; [exact Q|apply wakeup_quiet].
Qed.

Lemma exit_ok i status now s s' : (i < NPROC)%nat -> ~ dead s i -> fd_ok s -> exit i status now s = Ok s' -> fd_ok s'.
Proof.
  intros Hi Hl Hok E. unfold exit in E. apply bind_ok in E as (s1 & E1 & E).
  assert (H1 : fd_ok s1 /\ ~ dead s1 i).
  { unfold exit_begin in E1. destruct (decide _); [done|]. destruct (negb _); injection E1 as <-; [|done]. split; [by apply ok_setp|].
    unfold dead in *. by rewrite getp_setp_eq by (rewrite (fi_procs _ _ (proj1 Hok)); done). }
  destruct H1 as [Hok1 Hl1]. apply bind_ok in E as (s2 & E2 & E).
  apply exit_files_run in E2 as [M Hz]; [|done|done|apply Hok1|lia]. pose proof (moved_ok _ _ _ M Hl1 Hok1) as Hok2.
  apply bind_ok in E as (s3 & E3 & E). injection E as <-.
  assert (Hz3 : ofile (getp s3 i) = replicate NOFILE 0).
  { assert (ofile (getp s3 i) = ofile (getp s2 i)) as ->.
    { unfold exit_cwd in E3. apply bind_ok in E3 as (x & _ & E3). injection E3 as <-.
      by rewrite getp_setp_eq by (cbn [procs set_files]; rewrite (fi_procs _ _ (proj1 Hok2)); done). }
    apply list_eq. intros q. destruct (decide (q < NOFILE)%nat) as [Hq|Hq]; [by rewrite Hz, lookup_zeros|].
    rewrite !lookup_ge_None_2; [done|rewrite length_replicate; lia|rewrite (fi_ofile _ _ (proj1 Hok2)) by done; lia]. }
  apply exit_zombie_ok; [done| |done]. by apply (ok_put i s2).
Qed.

Lemma ok_revive s i f : (i < NPROC)%nat -> (forall p, ofile (f p) = ofile p) -> (forall p, state (f p) <> UNUSED /\ state (f p) <> ZOMBIE) ->
  fd_ok s -> fd_ok (setp i f s).
Proof.
  intros Hi Hf Hs [Hinv Hd]. split; [by eapply fd_quiet; [apply quiet_setp|]|].
  eapply dead_quiet; [by apply quiet_setp| |exact Hd]. intros j Hj. unfold dead. destruct (decide (j = i)) as [->|Hne]; [|by rewrite getp_setp_ne].
  rewrite getp_setp_eq by (rewrite (fi_procs _ _ Hinv); done). destruct (Hs (getp s i)). tauto.
Qed.

Lemma wait_scan_ok k pp i addr hk s r s' : (pp + k <= NPROC)%nat -> fd_ok s -> wait_scan kend k pp i addr hk s = Ok (r, s') -> fd_ok s'.
Proof.
  revert pp hk. induction k as [|k IH]; intros pp hk Hk Hok E; cbn [wait_scan] in E; [by injection E as <- <-|].
  destruct (decide (parent (getp s pp) = Some i)); [|eapply IH; [|done|exact E]; lia].
  destruct (decide (state (getp s pp) = ZOMBIE)) as [Hz|Hz]; [|eapply IH; [|done|exact E]; lia].
  apply bind_ok in E as ([x m] & _ & E). pose proof (ok_phys s m Hok) as Hok1.
  destruct (x <? 0); [by injection E as <- <-|]. apply bind_ok in E as (s1 & E1 & E). injection E as <- <-.
  eapply (freeproc_ok pp (set_phys m s)); [lia|apply Hok1| |apply Hok1|exact E1]. apply (proj2 Hok1); [lia|by right].
Qed.

#[local] Opaque wait_scan.

Lemma wait_ok i addr s r s' : (i < NPROC)%nat -> fd_ok s -> wait kend i addr s = Ok (r, s') -> fd_ok s'.
Proof.
  intros Hi Hok E. unfold wait in E. apply bind_ok in E as ([x s1] & E1 & E). apply wait_scan_ok in E1; [|lia|done].
  destruct x as [v|hk]; [by injection E as <- <-|]. destruct (_ || _); injection E as <- <-; [done|]. by apply ok_revive.
Qed.

(** ** The start *)

Lemma procinit_ofile k i s : length (procs (procinit_loop k i s)) = length (procs s) /\ quiet s (procinit_loop k i s).
Proof.
  revert i s. induction k as [|k IH]; intros i s; cbn [procinit_loop]; [split; [done|apply quiet_refl]|].
  destruct (IH (S i) (setp i (fun p => set_kstack (KSTACK (Z.of_nat i)) (set_state UNUSED p)) s)) as [H1 H2].
  split; [by rewrite H1, length_setp|]. eapply quiet_trans; [|exact H2]. by apply quiet_setp.
Qed.

#[local] Opaque procinit_loop.

Lemma procinit_ok m x : ftable x = File.fileinit -> fd_ok (procinit m x).
Proof.
  intros Hx. unfold procinit. set (s0 := KState _ _ _ _ _). destruct (procinit_ofile NPROC 0 s0) as [Hl Q].
  assert (Hz : forall j, ofile (getp s0 j) = replicate NOFILE 0).
  { intros j. unfold getp, s0. cbn [procs]. destruct (replicate NPROC proc0 !! j) as [p|] eqn:E; [|done].
    by apply lookup_replicate in E as [-> _]. }
  assert (Hown : forall f n, sum_list_with (fun p => cnt (fptr f) (ofile p)) (replicate n proc0) = 0%nat).
  { intros f n. induction n as [|n IH]; [done|]. cbn [replicate sum_list_with]. rewrite IH.
    change (ofile proc0) with (replicate NOFILE 0). rewrite cnt_replicate; [done|]. symmetry. apply fptr_pos. }
  split; [apply (fd_quiet d0 s0); [done|]|].
  - split.
    + apply length_replicate.
    + cbn [files s0]. rewrite Hx. apply length_replicate.
    + intros j _. rewrite Hz. apply length_replicate.
    + intros j fd z _. rewrite Hz. intros [-> _]%lookup_replicate. by left.
    + intros f Hf. unfold refs, owners, d0, File.getf. cbn [files s0 procs]. rewrite Hx, Hown. unfold File.fileinit.
      rewrite lookup_replicate_2 by done. done.
  - intros j _ _. by rewrite (qt_ofile _ _ Q).
Qed.

#[local] Opaque allocproc uvmfirst namei namex.

Lemma userinit_ok t now s s' : fd_ok s -> userinit kend trampoline forkret_addr t now s = Ok s' -> fd_ok s'.
Proof.
  intros Hok E. unfold userinit in E. apply bind_ok in E as ([p s1] & E1 & E). apply allocproc_ok in E1 as [Hi1 Ha]; [|done].
  destruct p as [i|]; [|discriminate]. destruct Ha as (Hi & _ & _ & _ & Hd). assert (Hok1 : fd_ok (set_initproc (Some i) s1)).
  { apply (ok_quiet s1); [split; intros; reflexivity|intros; reflexivity|split; assumption]. }
  set (s2 := set_initproc (Some i) s1) in *. clearbody s2. apply bind_ok in E as (m & _ & E).
  set (s3 := setp i _ (set_phys m s2)) in E. assert (Hok3 : fd_ok s3) by (by apply ok_setp, ok_phys). clearbody s3.
  set (s4 := setp i _ (set_phys _ s3)) in E. assert (Hok4 : fd_ok s4) by (by apply ok_setp, ok_phys). clearbody s4.
  apply bind_ok in E as ([ip x] & E4 & E). injection E as <-. apply ok_revive; [done|done|done|]. apply ok_setp; [done|done|].
  apply ok_files; [|done]. cbn [namei_root layer kfs_layer] in E4. apply bind_ok in E4 as ([o y] & E4 & E5). injection E5 as <- <-.
  unfold File.on_fs in E4. apply bind_ok in E4 as ([o' v] & _ & E4). injection E4 as <- <-. split; [done|]. intros f. by rewrite Z.add_0_r.
Qed.

(** ** Any sequence of calls *)

Abbreviation kern := (kernel (kfs T D)).
Implicit Types k : kern.

Definition live i k : Prop := (i < NPROC)%nat /\ ~ dead (kprocs k) i.

(** A call of a process, or anything else that leaves descriptors and files
    alone and lets no process die, such as scheduling. *)
Inductive fcall : kern -> kern -> Prop :=
| fc_dup i k r k' : live i k -> sys_dup i k = Ok (r, k') -> fcall k k'
| fc_close i k r k' : live i k -> sys_close i k = Ok (r, k') -> fcall k k'
| fc_pipe i k r k' : live i k -> sys_pipe i k = Ok (r, k') -> fcall k k'
| fc_open i k r k' : live i k -> sys_open i k = Ok (r, k') -> fcall k k'
| fc_read i k r k' : live i k -> sys_read i k = Ok (r, k') -> fcall k k'
| fc_write i k r k' : live i k -> sys_write i k = Ok (r, k') -> fcall k k'
| fc_fork i k now r k' : live i k -> sys_fork kend trampoline forkret_addr now i k = Ok (r, k') -> fcall k k'
| fc_exit i k now r k' : live i k -> sys_exit now i k = Ok (r, k') -> fcall k k'
| fc_wait i k r k' : live i k -> sys_wait kend i k = Ok (r, k') -> fcall k k'
| fc_other k k' : quiet (kprocs k) (kprocs k') -> (forall j, dead (kprocs k') j -> dead (kprocs k) j) -> fcall k k'.

Lemma fcall_register i off v k : fcall k (tf_set i off v k).
Proof. apply fc_other; [by split|done]. Qed.

Lemma during_ok i k k' : live i k -> during i d0 k k' -> fd_ok (kprocs k) -> fd_ok (kprocs k').
Proof.
  intros [Hi Hl] [A1 A2 A3] [_ Hd]. split; [done|]. intros j Hj Hs. rewrite A2 in Hs.
  destruct (decide (j = i)) as [->|Hne]; [by destruct Hl|]. rewrite A3 by done. by apply Hd.
Qed.

Lemma fcall_ok k k' : fcall k k' -> fd_ok (kprocs k) -> fd_ok (kprocs k').
Proof.
  intros Hc Hok. destruct Hc as [i k r k' Hl E|i k r k' Hl E|i k r k' Hl E|i k r k' Hl E|i k r k' Hl E|i k r k' Hl E
    |i k now r k' Hl E|i k now r k' Hl E|i k r k' Hl E|k k' Q Hd].
  - apply (during_ok i k); [done| |done]. eapply sys_dup_keeps; [apply Hl|apply Hok|exact E].
  - apply (during_ok i k); [done| |done]. eapply sys_close_keeps; [apply Hl|apply Hok|exact E].
  - apply (during_ok i k); [done| |done]. eapply sys_pipe_keeps; [apply Hl|apply Hok|exact E].
  - apply (during_ok i k); [done| |done]. eapply sys_open_keeps; [apply Hl|apply Hok|exact E].
  - apply (during_ok i k); [done| |done]. eapply sys_read_keeps; [apply Hok|exact E].
  - apply (during_ok i k); [done| |done]. eapply sys_write_keeps; [apply Hok|exact E].
  - unfold sys_fork in E. apply bind_ok in E as ([v s1] & E1 & E). injection E as <- <-. destruct Hl. by eapply fork_ok in E1.
  - unfold sys_exit in E. apply bind_ok in E as (n & _ & E). apply bind_ok in E as (s1 & E1 & E). injection E as <- <-. destruct Hl. by eapply exit_ok in E1.
  - unfold sys_wait in E. apply bind_ok in E as (p & _ & E). apply bind_ok in E as ([v s1] & E1 & E). injection E as <- <-. destruct Hl. by eapply wait_ok in E1.
  - destruct Hok as [Hinv Hd0]. split; [by eapply fd_quiet|]. eapply dead_quiet; [exact Q| |done]. intros j _. apply Hd.
Qed.

Lemma owners_pos s i fd f : (i < NPROC)%nat -> fd_inv d0 s -> ofile (getp s i) !! fd = Some (fptr f) -> 1 <= owners s f.
Proof.
  intros Hi Hinv Ho. unfold owners. rewrite <- (fi_procs _ _ Hinv) in Hi. apply lookup_lt_is_Some in Hi as [p Hp].
  unfold getp in Ho. rewrite Hp in Ho. cbn in Ho. apply cnt_pos in Ho. clear Hinv. revert i Hp.
  induction (procs s) as [|y l IH]; intros [|i] Hp; simplify_eq/=; [lia|]. specialize (IH i Hp). lia.
Qed.

(** C33: reference counts of open files.  From the start of the system on,
    whatever sequence of [dup], [close], [pipe], [open], [read], [write],
    [fork], [exit] and [wait] calls the processes make, successful or not, and
    whatever happens in between, the count of every entry of the file table
    is the number of descriptors of all processes that refer to it; so an
    entry is free exactly when no descriptor refers to it, no descriptor
    dangles, and a process that has exited has no descriptor left. *)
Theorem fd_counts t now m x s0 k k' :
  ftable x = File.fileinit -> userinit kend trampoline forkret_addr t now (procinit m x) = Ok s0 ->
  kprocs k = s0 -> rtc fcall k k' ->
  (forall f, (f < NFILE)%nat -> f_ref (File.getf (kfiles k') f) = owners (kprocs k') f) /\
  (forall i fd, (i < NPROC)%nat -> (fd < NOFILE)%nat -> ofile_at i fd k' <> 0 ->
     exists f, ofile_at i fd k' = fptr f /\ (f < NFILE)%nat /\ 1 <= f_ref (File.getf (kfiles k') f)) /\
  (forall i fd, (i < NPROC)%nat -> (fd < NOFILE)%nat -> dead (kprocs k') i -> ofile_at i fd k' = 0).
Proof.
  intros Hx E <- Hr. assert (Hok : fd_ok (kprocs k')).
  { assert (H0 : fd_ok (kprocs k)) by (eapply userinit_ok; [|exact E]; by apply procinit_ok).
    clear E. induction Hr as [k|k k1 k' Hc Hr IH]; [done|]. apply IH. by eapply fcall_ok. }
  destruct Hok as [Hinv Hd]. pose proof (fi_ref _ _ Hinv) as Href. unfold refs, d0 in Href. split_and!.
  - intros f Hf. unfold kfiles. rewrite Href by done. lia.
  - intros i fd Hi Hfd Hne. pose proof (ofile_lookup i _ k' fd Hi Hinv Hfd) as Ho.
    destruct (fi_ptr _ _ Hinv i fd _ Hi Ho) as [?|(f & Ez & Hf)]; [done|]. exists f. split; [done|]. split; [done|].
    unfold kfiles. rewrite Href by done. rewrite Ez in Ho. pose proof (owners_pos (kprocs k') i fd f Hi Hinv Ho). lia.
  - intros i fd Hi Hfd Hdd. pose proof (ofile_lookup i _ k' fd Hi Hinv Hfd) as Ho. rewrite (Hd i Hi Hdd) in Ho.
    rewrite lookup_zeros in Ho by done. by injection Ho.
Qed.

End Procs.

(** ** A concrete run: the first process makes a pipe *)


Section Demo.
#[local] Transparent NPROC reparent wakeup allocproc uvmfirst namei namex.

#[local] Instance demo_tx : TxStore (log * bcache) := log_store (HC := bio_cache 1 1).
#[local] Instance demo_ops : TxOps (log * bcache) := log_ops (HC := bio_cache 1 1).
#[local] Instance demo_devs : Devsw unit := { dev_read _ := None; dev_write _ := None }.

Definition demo_kfs : kfs (log * bcache) unit :=
  Kfs File.fileinit ∅ [] (Fs (Superblock 0 0 0 0 0 0 0 0) (replicate NINODE inode0) (log0, binit ∅)) tt.

Definition fd_demo0 : kernel (kfs (log * bcache) unit) :=
  Kernel (get_ok (KState [] 0 None demo_mem demo_kfs)
    (userinit (HF := kfs_layer 1) demo_end KERNBASE 0 5 100 (procinit demo_mem demo_kfs))) 0 0 1.
Definition fd_demo1 : kernel (kfs (log * bcache) unit) := tf_set 0 tf_a0 16 fd_demo0.
Definition fd_demo2 : kernel (kfs (log * bcache) unit) := (get_ok (Sleeping, fd_demo1) (sys_pipe 0 fd_demo1)).2.

Lemma fd_demo_boot : userinit (HF := kfs_layer 1) demo_end KERNBASE 0 5 100 (procinit demo_mem demo_kfs) = Ok (kprocs fd_demo0).
Proof. apply get_ok_eq. vm_compute. reflexivity. Qed.

Lemma fd_demo_facts :
  (match sys_pipe 0 fd_demo1 with Ok (Ret 0, _) => true | _ => false end) = true /\
  state (getp (kprocs fd_demo1) 0) = RUNNABLE /\ ofile_at 0 1 fd_demo2 = fptr 1.
Proof. split_and!; vm_compute; reflexivity. Qed.

#[local] Opaque NPROC sys_pipe.

Lemma fd_demo_pipe : sys_pipe 0 fd_demo1 = Ok (Ret 0, fd_demo2).
Proof.
  destruct fd_demo_facts as (H & _). unfold fd_demo2. destruct (sys_pipe 0 fd_demo1) as [[[[| |]| |] k]| | |]; try discriminate. reflexivity.
Qed.

Lemma fd_counts_witness :
  f_ref (File.getf (kfiles fd_demo2) 0) = owners (kprocs fd_demo2) 0 /\
  1 <= f_ref (File.getf (kfiles fd_demo2) 1).
Proof.
  destruct (fd_counts demo_end KERNBASE 0 1 5 100 demo_mem demo_kfs (kprocs fd_demo0) fd_demo0 fd_demo2) as (H1 & H2 & _).
  - reflexivity.
  - exact fd_demo_boot.
  - reflexivity.
  - eapply rtc_l; [exact (fcall_register demo_end KERNBASE 0 1 0 tf_a0 16 fd_demo0)|].
    eapply rtc_l; [|apply rtc_refl]. refine (fc_pipe demo_end KERNBASE 0 1 0 fd_demo1 _ fd_demo2 _ fd_demo_pipe).
    destruct fd_demo_facts as (_ & Hs & _). split; [vm_compute; lia|]. unfold dead. rewrite Hs. intros [?|?]; discriminate.
  - split; [apply H1; vm_compute; lia|]. destruct fd_demo_facts as (_ & _ & Hf).
    destruct (H2 0%nat 1%nat) as (f & Ef & _ & Hr); [vm_compute; lia|vm_compute; lia|rewrite Hf; discriminate|].
    rewrite Hf in Ef. assert (f = 1%nat) as -> by (unfold fptr in Ef; lia). exact Hr.
Defined.
End Demo.
