(* ===== verification/ExecMem.v ===== *)
(** * Who owns which page, with pipes and [exec]

    Besides processes, the kernel itself holds pages: one for each pipe, and
    one for each argument string while [sys_exec] runs.  The ownership
    invariant of ProcMem.v holds for the pages that are left; [kalloc] and
    [kfree] move single pages in and out of that pool.  [exec] builds a second
    address space for a process out of free pages and then exchanges it for
    the first. *)
From S2P Require Import Prelude Cstring Riscv Kalloc Vm VmTheory UvmTheory CopyTheory UvmProps UvmFree Block Bio Log Fs FsProps.
From S2P Require Import Pipe File Proc ProcTheory ProcInv ProcMem ProcMemProps Datetime Syscall Sysproc Sysfile AsmTheory Exec FdProps FdProc.

#[local] Opaque NPROC.

Section Pool.
Context {F : Type}.
Variables (kend trampoline : Z).
Hypothesis Hkend : 0 < kend.
Abbreviation kst := (kstate F).
Abbreviation mem_inv := (mem_inv kend trampoline).
Abbreviation proc_held := (proc_held kend trampoline).
Implicit Types (s : kst) (m : phys) (fl : list Z) (p : proc) (o : own).

(** ** Pages of the kernel *)

(** Memory and the free list change outside the pages of the processes. *)
Lemma mem_frame (pool pool' : Z -> Prop) s fl O m' fl' :
  mem_inv pool s fl O -> kalloc_inv kend m' fl' -> (forall i q, pages (getp s i) (O i) q -> q ∉ fl') ->
  (forall i, same_bytes (getp s i) (O i) (kphys s) m') ->
  (forall q, pool' q <-> q ∈ fl' \/ exists i, pages (getp s i) (O i) q) ->
  mem_inv pool' (set_phys m' s) fl' O.
Proof.
  intros [H1 H2 H3 H4 H5] Hk Hfl Hby Hpool. split; auto.
  intros i. by apply (proc_ok_frame kend trampoline Hkend (kphys s) m' fl fl' (getp s i) (O i) (H3 i) Hk (Hfl i)).
Qed.

Lemma pool_ext (pool pool' : Z -> Prop) s fl O :
  (forall q, pool' q <-> pool q) -> mem_inv pool s fl O -> mem_inv pool' s fl O.
Proof. intros E [H1 H2 H3 H4 H5]. split; auto. intros q. by rewrite E. Qed.

Lemma pool_page pool s fl O q : mem_inv pool s fl O -> pool q -> page_ok kend q.
Proof.
  intros Hm [Hq|[i Hq]]%(mi_pool _ _ _ _ _ _ Hm).
  - pose proof (ki_pages _ _ _ (mi_kalloc _ _ _ _ _ _ Hm)) as Hp. rewrite Forall_forall in Hp. auto.
  - by destruct (pages_ok _ _ _ _ _ _ _ (mi_proc _ _ _ _ _ _ Hm i) Hq).
Qed.

(** A change outside the pool keeps the bytes of the processes. *)
Lemma pool_same (pool : Z -> Prop) s fl O m' (p : Z) :
  mem_inv pool s fl O -> page_ok kend p -> (forall i, ~ pages (getp s i) (O i) p) ->
  (forall x, outside x p -> ld8 (pmem m') x = ld8 (pmem (kphys s)) x) ->
  forall i, same_bytes (getp s i) (O i) (kphys s) m'.
Proof.
  intros Hm Hp Hn Hx i q x Hq Hr. apply Hx.
  destruct (pages_ok _ _ _ _ _ _ _ (mi_proc _ _ _ _ _ _ Hm i) Hq) as [Hok _].
  apply (page_disjoint kend q p x); auto. intros ->. by apply (Hn i).
Qed.

Lemma mem_take pool s (p : Z) fl O r m :
  mem_inv pool s (p :: fl) O -> kalloc (kphys s) = (r, m) ->
  r = p /\ p <> 0 /\ page_ok kend p /\ pool p /\ mem_inv (fun q => pool q /\ q <> p) (set_phys m s) fl O.
Proof.
  intros Hm E. pose proof (mi_kalloc _ _ _ _ _ _ Hm) as Hk.
  destruct (kalloc_cons kend Hkend (kphys s) p fl r m Hk E) as (-> & Hk' & Hx).
  assert (Hpp : pool p) by (apply (mi_pool _ _ _ _ _ _ Hm); left; apply elem_of_cons; auto).
  pose proof (pool_page _ _ _ _ _ Hm Hpp) as Hok. destruct (page_ok_bounds kend Hkend p Hok) as (? & _).
  pose proof (ki_nodup _ _ _ Hk) as Hnd. apply NoDup_cons in Hnd as [Hni _].
  assert (Hown : forall i q, pages (getp s i) (O i) q -> q ∉ p :: fl)
    by (intros i q Hq; by destruct (pages_ok _ _ _ _ _ _ _ (mi_proc _ _ _ _ _ _ Hm i) Hq)).
  split_and!; auto; [lia|]. apply (mem_frame pool _ s (p :: fl)); auto.
  - intros i q Hq Hf. apply (Hown i q Hq), elem_of_cons. auto.
  - apply (pool_same pool s (p :: fl) O m p); auto.
    + intros i Hi. apply (Hown i p Hi), elem_of_cons. auto.
    + intros x Ho. rewrite Hx, decide_False; [done|]. unfold outside in Ho. lia.
  - intros q. rewrite (mi_pool _ _ _ _ _ _ Hm), elem_of_cons. split.
    + intros [[[->|?]|?] ?]; tauto.
    + intros [Hq|[i Hq]]; (split; [eauto|intros ->; eauto]).
      apply (Hown i p Hq), elem_of_cons. auto.
Qed.

Lemma mem_give pool s (p : Z) fl O :
  mem_inv pool s fl O -> page_ok kend p -> ~ pool p ->
  exists m, kfree kend p (kphys s) = Ok m /\ mem_inv (fun q => pool q \/ q = p) (set_phys m s) (p :: fl) O.
Proof.
  intros Hm Hok Hn. pose proof (mi_pool _ _ _ _ _ _ Hm) as Hp.
  destruct (kfree_ok kend Hkend (kphys s) p fl) as (m & E & Hk & Hx); [apply Hm|done|rewrite Hp in Hn; tauto|].
  exists m. split; [done|].
  assert (Hown : forall i, ~ pages (getp s i) (O i) p) by (intros i Hi; apply Hn, Hp; eauto).
  apply (mem_frame pool _ s fl); auto.
  - intros i q Hq. rewrite elem_of_cons. intros [->|Hf]; [by apply (Hown i)|].
    by destruct (pages_ok _ _ _ _ _ _ _ (mi_proc _ _ _ _ _ _ Hm i) Hq).
  - by apply (pool_same pool s fl O m p).
  - intros q. rewrite Hp, elem_of_cons. tauto.
Qed.

(** A write to a page of the kernel. *)
Lemma mem_write pool s (p : Z) fl O mm :
  mem_inv pool s fl O -> page_ok kend p -> ~ pool p -> mem_wf mm ->
  (forall x, outside x p -> ld8 mm x = ld8 (pmem (kphys s)) x) ->
  mem_inv pool (set_phys (Phys mm (freelist (kphys s))) s) fl O.
Proof.
  intros Hm Hok Hn Hwf Hx. pose proof (mi_pool _ _ _ _ _ _ Hm) as Hp.
  apply (mem_frame pool _ s fl); auto.
  - apply kalloc_inv_write; [apply Hm|done|]. intros q x Hq Hr. apply Hx.
    apply (page_disjoint kend q p x); auto; [eapply pool_page; [exact Hm|]; apply Hp; auto|].
    intros ->. apply Hn, Hp. auto.
  - intros i q Hq. by destruct (pages_ok _ _ _ _ _ _ _ (mi_proc _ _ _ _ _ _ Hm i) Hq).
  - apply (pool_same pool s fl O _ p); auto. intros i Hi. apply Hn, Hp. eauto.
Qed.

(** Several pages go back. *)
Lemma mem_give_all (l : list Z) : forall pool s fl O,
  mem_inv pool s fl O -> NoDup l -> (forall q, q ∈ l -> page_ok kend q /\ ~ pool q) ->
  exists m fl', foldl (fun a pa => m ← a; kfree kend pa m) (Ok (kphys s)) l = Ok m /\
    mem_inv (fun q => pool q \/ q ∈ l) (set_phys m s) fl' O.
Proof.
  induction l as [|p l IH]; intros pool s fl O Hm Hnd Hl; cbn [foldl].
  { exists (kphys s), fl. split; [done|]. destruct s. eapply pool_ext; [|exact Hm]. intros q. rewrite elem_of_nil. tauto. }
  apply NoDup_cons in Hnd as [Hni Hnd].
  destruct (Hl p) as [Hok Hn]; [apply elem_of_cons; auto|].
  destruct (mem_give pool s p fl O Hm Hok Hn) as (m & E & Hm1). rewrite bind_Ok, E.
  destruct (IH _ (set_phys m s) _ O Hm1 Hnd) as (m2 & fl2 & E2 & Hm2).
  { intros q Hq. destruct (Hl q) as [? ?]; [apply elem_of_cons; auto|]. split; [done|].
    intros [Hq2|Hq2]; [done|by subst q]. }
  exists m2, fl2. split; [exact E2|]. eapply pool_ext; [|exact Hm2].
  intros q. rewrite elem_of_cons. cbv beta. tauto.
Qed.

(** ** A second address space *)

(** The entry [p] with another page table. *)
Definition with_table (root n : Z) p : proc := set_sz n (set_pagetable root p).

(** An address space for the entry [p] has been built from the pages [fl0]
    that were free in [m0]. *)
Record building (m0 : phys) (fl0 : list Z) p (root n : Z) m fl o : Prop := {
  bd_held : proc_held m fl (with_table root n p) o;
  bd_part : forall q, q ∈ fl \/ pages (with_table root n p) o q <-> q ∈ fl0 \/ q = trapframe p;
  bd_free : trapframe p ∉ fl0;
  bd_out : forall x, (forall q, q ∈ fl0 -> outside x q) -> ld8 (pmem m) x = ld8 (pmem m0) x
}.

Lemma bd_as m0 fl0 p root n m fl o : building m0 fl0 p root n m fl o -> as_inv kend m fl root (o_tab o) (o_map o).
Proof. intros H. apply (pa_as _ _ _ _ _ _ _ _ _ (ph_as _ _ _ _ _ _ (bd_held _ _ _ _ _ _ _ _ H))). Qed.

Lemma bd_dom m0 fl0 p root n m fl o i : building m0 fl0 p root n m fl o -> is_Some (o_map o !! i) <-> 0 <= i < pgno n.
Proof. intros H. apply (pa_dom _ _ _ _ _ _ _ _ _ (ph_as _ _ _ _ _ _ (bd_held _ _ _ _ _ _ _ _ H))). Qed.

Lemma bd_small m0 fl0 p root n m fl o : building m0 fl0 p root n m fl o -> 0 <= n <= PHYSTOP.
Proof. intros H. exact (held_small kend trampoline Hkend _ _ _ _ (bd_held _ _ _ _ _ _ _ _ H)). Qed.

(** The tables and the user pages were free. *)
Lemma bd_pages m0 fl0 p root n m fl o q : building m0 fl0 p root n m fl o ->
  q ∈ dom (o_tab o) \/ (exists v, o_map o !! v = Some q) -> q ∈ fl0 /\ q <> trapframe p.
Proof.
  intros [Hh Hp _ _] Hq. assert (q <> trapframe p) as Hne.
  { intros ->. destruct Hq as [Hq|[v Hq]]; [by apply (ph_tf_tab _ _ _ _ _ _ Hh)|by apply (ph_tf_map _ _ _ _ _ _ Hh v)]. }
  split; [|done]. destruct (proj1 (Hp q)); [|done..]. right. right. exact Hq.
Qed.

(** Pages that were free are apart from those of every process. *)
Lemma free_same pool s fl O m' :
  mem_inv pool s fl O ->
  (forall x, (forall q, q ∈ fl -> outside x q) -> ld8 (pmem m') x = ld8 (pmem (kphys s)) x) ->
  forall i, same_bytes (getp s i) (O i) (kphys s) m'.
Proof.
  intros Hm Hx i q x Hq Hr. apply Hx. intros q' Hq'.
  destruct (pages_ok _ _ _ _ _ _ _ (mi_proc _ _ _ _ _ _ Hm i) Hq) as [Hok Hn].
  apply (page_disjoint kend q q' x); auto; [|by intros ->].
  eapply pool_page; [exact Hm|]. apply (mi_pool _ _ _ _ _ _ Hm). by left.
Qed.

Lemma free_back pool s fl O m' fl' :
  mem_inv pool s fl O -> kalloc_inv kend m' fl' -> (forall q, q ∈ fl' <-> q ∈ fl) ->
  (forall x, (forall q, q ∈ fl -> outside x q) -> ld8 (pmem m') x = ld8 (pmem (kphys s)) x) ->
  mem_inv pool (set_phys m' s) fl' O.
Proof.
  intros Hm Hk Hfl Hx. apply (mem_frame pool _ s fl); auto.
  - intros i q Hq. rewrite Hfl. by destruct (pages_ok _ _ _ _ _ _ _ (mi_proc _ _ _ _ _ _ Hm i) Hq).
  - by eapply free_same.
  - intros q. rewrite Hfl. apply (mi_pool _ _ _ _ _ _ Hm).
Qed.

Hypothesis Htramp : kernel_page trampoline.

Lemma held_tf m fl p o : proc_held m fl p o -> kernel_page (trapframe p) /\ trapframe p <> 0.
Proof.
  intros Hh. destruct (page_ok_bounds kend Hkend _ (ph_tf _ _ _ _ _ _ Hh)) as (? & ? & ?).
  split; [split; [lia|done]|lia].
Qed.

Lemma building_start pool s fl O i r m :
  mem_inv pool s fl O -> pagetable (getp s i) <> 0 ->
  proc_pagetable kend trampoline (trapframe (getp s i)) (kphys s) = Ok (r, m) ->
  r = 0 /\ (exists fl', mem_inv pool (set_phys m s) fl' O) \/
  r <> 0 /\ exists fl' o, building (kphys s) fl (getp s i) r 0 m fl' o.
Proof.
  intros Hm Hp E. destruct (held_index kend trampoline pool s fl O i Hm Hp) as [_ Hh].
  destruct (held_tf _ _ _ _ Hh) as [Ht Ht0].
  destruct (proc_pagetable_run kend Hkend trampoline (trapframe (getp s i)) (kphys s) fl) as (r' & m' & E' & Hr);
    [apply Hm|done|done|]. rewrite E in E'. injection E' as <- <-.
  destruct Hr as [(-> & (fl' & Hk & Hfl & Hx) & _)|(Hr & fl' & G & Hpa & Hfl & Hx & _)]; [left|right]; (split; [done|]).
  - exists fl'. by apply (free_back pool s fl).
  - pose proof (ph_tf_free _ _ _ _ _ _ Hh) as Hn. rewrite Hfl in Hn.
    exists fl', (Own G ∅). split; cbn [with_table o_tab o_map]; auto.
    + split; cbn [with_table trapframe pagetable sz state set_sz set_pagetable o_tab o_map]; auto; try tauto.
      * apply Hh.
      * rewrite TRAPFRAME_eq. lia.
      * apply Hh.
    + intros q. rewrite Hfl. unfold pages. cbn [trapframe with_table set_sz set_pagetable o_tab o_map].
      split; [|tauto]. intros [?|[[_ ?]|[?|[v Hv]]]]; [tauto..|by rewrite lookup_empty in Hv].
    + by rewrite Hfl.
Qed.

(** The page table given up: its pages are free again. *)
Lemma building_undo pool s fl0 O p root n m fl o m' :
  mem_inv pool s fl0 O -> building (kphys s) fl0 p root n m fl o ->
  proc_freepagetable kend root n m = Ok m' -> exists fl', mem_inv pool (set_phys m' s) fl' O.
Proof.
  intros Hm Hb E. pose proof (bd_held _ _ _ _ _ _ _ _ Hb) as Hh. destruct (held_tf _ _ _ _ Hh) as [Ht Ht0].
  destruct (proc_freepagetable_run kend Hkend trampoline _ m fl _ _ _ _ (ph_as _ _ _ _ _ _ Hh) Htramp Ht (ph_sz _ _ _ _ _ _ Hh))
    as (m2 & fl' & E2 & Hk & Hfl & Hx).
  cbn [with_table pagetable sz set_sz set_pagetable] in E2. rewrite E in E2. injection E2 as <-.
  exists fl'. apply (free_back pool s fl0); auto.
  - intros q. rewrite Hfl. unfold pages_of. pose proof (bd_part _ _ _ _ _ _ _ _ Hb q) as Hq.
    pose proof (bd_pages _ _ _ _ _ _ _ _ q Hb). pose proof (ph_tf_free _ _ _ _ _ _ Hh) as H1.
    pose proof (bd_free _ _ _ _ _ _ _ _ Hb) as H2. unfold pages in Hq. cbn [with_table trapframe set_sz set_pagetable] in *.
    split; [intros [Hf|?]; [|tauto]|].
    + destruct (proj1 Hq); [by left|done|]. subst q. done.
    + intros Hf. destruct (proj2 Hq); [by left|by left|]. assert (q <> trapframe p) by (intros ->; done). tauto.
  - intros x Hn. rewrite Hx; [by apply Hb|]. intros q [Hq|Hq]; [by apply elem_of_nil in Hq|].
    apply Hn. by eapply bd_pages.
Qed.

(** ** What [exec] does to it *)

(** A write to its user pages. *)
Lemma building_write m0 fl0 p root n m fl o m' :
  building m0 fl0 p root n m fl o -> as_inv kend m' fl root (o_tab o) (o_map o) ->
  (forall w, 0 <= w < MAXVA -> translate (pmem m') root w = translate (pmem m) root w) ->
  (forall x, (forall v f, o_map o !! v = Some f -> outside x f) -> ld8 (pmem m') x = ld8 (pmem m) x) ->
  building m0 fl0 p root n m' fl o.
Proof.
  intros Hb Has Htr Hx. pose proof Hb as [Hh Hp Hf Ho]. split; auto.
  - by apply (held_write kend trampoline m m').
  - intros x Hn. rewrite Hx; [by apply Ho|]. intros v f Hv. apply Hn. eapply bd_pages; [exact Hb|]. eauto.
Qed.

Lemma building_copyout m0 fl0 p root n m fl o va l r m' :
  building m0 fl0 p root n m fl o -> 0 <= va < 18446744073709551616 -> copyout root va l m = Ok (r, m') ->
  building m0 fl0 p root n m' fl o.
Proof.
  intros Hb Hva E.
  destruct (copyout_loop_run kend Hkend (length l) va l m fl _ _ _ (bd_as _ _ _ _ _ _ _ _ Hb) Hva)
    as (r' & m2 & k & E2 & [C1 C2 _ C4] & _); [lia|].
  unfold copyout in E. rewrite E in E2. injection E2 as <- <-. by apply (building_write m0 fl0 p root n m).
Qed.

(** A page of the program is read into a user page. *)
Lemma building_store m0 fl0 p root n m fl o va pa l :
  building m0 fl0 p root n m fl o -> 0 <= va -> va mod 4096 = 0 -> walkaddr root va m = Ok pa -> pa <> 0 ->
  Z.of_nat (length l) <= 4096 ->
  building m0 fl0 p root n (Phys (st_bytes (pmem m) pa l) (freelist m)) fl o.
Proof.
  intros Hb Hva Hal E Hpa Hl. pose proof (bd_as _ _ _ _ _ _ _ _ Hb) as Has.
  destruct (walkaddr_run kend Hkend m fl root _ _ va Has Hva) as (pa' & E' & Hw). rewrite E in E'. injection E' as <-.
  rewrite (proj2 (Z.eqb_neq _ _) Hpa) in Hw. destruct Hw as [_ HM].
  destruct (store_user kend m fl root _ _ va l pa Has HM) as (A1 & A2 & _ & A4); [lia|].
  rewrite Hal, Z.add_0_r in *. apply (building_write m0 fl0 p root n m); auto.
  intros x Hx. apply A4. by eapply Hx.
Qed.

(** [uvmalloc], for a new size that may be out of reach: physical memory runs
    out long before the top of the address space. *)
Lemma grown_limit m0 fl0 p root n m fl o perm fill k m' fl' G' M' :
  building m0 fl0 p root n m fl o ->
  grown kend m fl root (o_tab o) (o_map o) (pgno n) perm fill k m' fl' G' M' -> 0 <= k ->
  pgno n + k <= PHYSTOP / 4096.
Proof.
  intros Hb Hg Hk. pose proof (g_as _ _ _ _ _ _ _ _ _ _ _ _ _ _ Hg) as Has.
  pose proof (bd_small _ _ _ _ _ _ _ _ Hb) as Hn.
  apply (frames_bound kend Hkend M'); [unfold pgno; zlia| |apply Has].
  intros i Hi. assert (exists f, M' !! i = Some f) as [f Hf].
  { destruct (decide (pgno n <= i < pgno n + k)) as [Hr|Hr].
    - destruct (g_new _ _ _ _ _ _ _ _ _ _ _ _ _ _ Hg i Hr) as (f & Hf & _). eauto.
    - rewrite (g_map _ _ _ _ _ _ _ _ _ _ _ _ _ _ Hg i Hr). apply (bd_dom _ _ _ _ _ _ _ _ i Hb). lia. }
  exists f. split; [done|]. by destruct (ai_frame _ _ _ _ _ _ Has i f Hf).
Qed.

Lemma building_grown m0 fl0 p root n m fl o perm fill k m' fl' G' M' n' :
  building m0 fl0 p root n m fl o ->
  grown kend m fl root (o_tab o) (o_map o) (pgno n) perm fill k m' fl' G' M' -> 0 <= k ->
  0 <= n' -> pgno n' = pgno n + k -> building m0 fl0 p root n' m' fl' (Own G' M').
Proof.
  intros Hb Hg Hk Hn' Hpg. pose proof (grown_limit _ _ _ _ _ _ _ _ _ _ _ _ _ _ _ Hb Hg Hk) as Hl.
  pose proof Hb as [Hh Hp Hf Ho].
  destruct (proc_held_grown kend trampoline m fl (with_table root n p) o perm fill k m' fl' G' M' n' Hh Hg Hk) as (A1 & A2 & A3).
  { exact Hpg. }
  { rewrite <- Hpg in Hl. unfold pgno in Hl. rewrite PHYSTOP_eq in Hl. rewrite TRAPFRAME_eq. zlia. }
  split; auto.
  - intros q. rewrite <- Hp. apply A2.
  - intros x Hx. rewrite (g_out _ _ _ _ _ _ _ _ _ _ _ _ _ _ Hg); [by apply Ho|].
    intros q Hq. assert (q ∈ fl0 \/ q = trapframe p) as [Hq0|Hq0].
    { apply Hp. destruct Hq; [right; right; by left|by left]. }
    { by apply Hx. }
    subst q. destruct Hq as [Hq|Hq]; [by destruct (ph_tf_tab _ _ _ _ _ _ Hh)|by destruct (ph_tf_free _ _ _ _ _ _ Hh)].
Qed.

Lemma leaf_readable f xperm : has (leaf_pte f (Z.lor (Z.lor PTE_R PTE_U) xperm)) PTE_R = true.
Proof. change PTE_R with (Z.shiftl 1 1). rewrite has_bit by lia. unfold leaf_pte. rewrite !Z.lor_spec. apply orb_true_intro. left. apply orb_true_r. Qed.

(** The user may read the pages between the sizes [n] and [n']. *)
Definition readable_from (n n' root : Z) m : Prop :=
  forall i, pgno n <= i < pgno n' -> exists e, translate (pmem m) root (i * 4096) = Some e /\ has e PTE_R = true.

Lemma building_alloc m0 fl0 p root n m fl o newsz xperm r m' :
  building m0 fl0 p root n m fl o -> 0 <= newsz -> 0 <= xperm < 1024 ->
  uvmalloc kend root n newsz xperm m = Ok (r, m') ->
  exists fl' o', let n' := if r =? 0 then n else r in
    building m0 fl0 p root n' m' fl' o' /\ readable_from n n' root m' /\
    (r = 0 \/ r = newsz \/ newsz < n /\ r = n).
Proof.
  intros Hb Hns Hx E. pose proof (bd_small _ _ _ _ _ _ _ _ Hb) as Hn. rewrite PHYSTOP_eq in Hn.
  assert (Hnone : forall k, readable_from k k root m') by (intros k i; lia).
  destruct (Z.ltb_spec newsz n) as [Hlt|Hge].
  { unfold uvmalloc in E. rewrite (proj2 (Z.ltb_lt _ _) Hlt) in E. injection E as <- <-.
    exists fl, o. cbn zeta. replace (if n =? 0 then n else n) with n by (by destruct (n =? 0)). split_and!; auto. }
  set (N := Z.min (pgno newsz) 557057 - pgno n).
  assert (HN : 0 <= N /\ pgno n + N <= 557057) by (unfold N, pgno; zlia).
  destruct (uvmalloc_pages kend Hkend m fl root (o_tab o) (o_map o) n newsz xperm N) as (r' & m2 & fl' & G' & M' & E' & Hr);
    [by eapply bd_as|lia|lia|rewrite MAXVA_eq; zlia|done|..].
  { intros w Hw. pose proof (ph_as _ _ _ _ _ _ (bd_held _ _ _ _ _ _ _ _ Hb)) as Hpa.
    apply (pa_only _ _ _ _ _ _ _ _ _ Hpa); [rewrite MAXVA_eq; unfold pgno in *; zlia|lia|lia|].
    destruct (o_map o !! (w / 4096)) eqn:Ef; [|done].
    assert (0 <= w / 4096 < pgno n) by (apply (bd_dom _ _ _ _ _ _ _ _ _ Hb); by eexists). lia. }
  { intros j Hj. unfold N, pgno in *. zlia. }
  { intros s' fl' G' M' Hg. pose proof (grown_limit _ _ _ _ _ _ _ _ _ _ _ _ _ _ _ Hb Hg ltac:(lia)) as Hl.
    rewrite PHYSTOP_eq in Hl. change (2281701376 / 4096) with 557056 in Hl. unfold N, pgno in *. zlia. }
  rewrite E in E'. injection E' as <- <-. exists fl', (Own G' M'). cbn zeta.
  destruct Hr as [[-> Hg]|[-> Hg]].
  - pose proof (grown_limit _ _ _ _ _ _ _ _ _ _ _ _ _ _ _ Hb Hg ltac:(lia)) as Hl.
    rewrite PHYSTOP_eq in Hl. change (2281701376 / 4096) with 557056 in Hl.
    replace (if newsz =? 0 then n else newsz) with newsz by (destruct (Z.eqb_spec newsz 0); lia).
    assert (Hpg : pgno newsz = pgno n + N) by (unfold N in *; lia).
    split_and!; [eapply building_grown; eauto; lia| |auto].
    intros i Hi. destruct (g_new _ _ _ _ _ _ _ _ _ _ _ _ _ _ Hg i) as (f & Hf & Htr & _); [lia|].
    eexists. split; [exact Htr|apply leaf_readable].
  - cbn [Z.eqb]. split_and!; auto. eapply building_grown; eauto; lia.
Qed.

(** The size rounded up to whole pages. *)
Lemma building_round m0 fl0 p root n m fl o :
  building m0 fl0 p root n m fl o -> building m0 fl0 p root (PGROUNDUP n) m fl o /\ PGROUNDUP n = pgno n * 4096.
Proof.
  intros Hb. pose proof (bd_small _ _ _ _ _ _ _ _ Hb) as Hn. rewrite PHYSTOP_eq in Hn.
  rewrite PGROUNDUP_pgno by (rewrite MAXVA_eq; lia). split; [|done]. destruct o as [G M].
  apply (building_grown m0 fl0 p root n m fl (Own G M) (fun _ => 0) (fun _ _ => 0) 0); auto.
  - apply grown_start; auto. exact (bd_as _ _ _ _ _ _ _ _ Hb).
  - lia.
  - unfold pgno. zlia.
  - unfold pgno. zlia.
Qed.

#[local] Transparent PTE2PA.

(** Bits of an entry without [PTE_U]. *)
Lemma clear_U e : 0 <= e < 18446744073709551616 ->
  let e' := Z.land e (Z.lnot PTE_U) in
  0 <= e' < 18446744073709551616 /\ has e' PTE_V = has e PTE_V /\ has e' PTE_R = has e PTE_R /\
  has e' PTE_U = false /\ PTE2PA e' = PTE2PA e.
Proof.
  intros He e'. assert (Hb : forall b, has e' b = negb (Z.land e (Z.land (Z.lnot PTE_U) b) =? 0))
    by (intros b; unfold has, e'; by rewrite Z.land_assoc). rewrite !Hb. split_and!; try done.
  - apply Z.land_nonneg. left; lia.
  - assert (e' = u64 e') as ->; [|unfold u64; zlia]. unfold u64. change 18446744073709551616 with (2 ^ 64).
    rewrite <- Z.land_ones by lia. unfold e'. rewrite <- Z.land_assoc, (Z.land_comm (Z.lnot _)), Z.land_assoc, Z.land_ones by lia.
    by rewrite Z.mod_small by exact He.
  - cbn. by rewrite Z.land_0_r.
  - unfold e', PTE2PA. rewrite Z.shiftr_land.
    change (Z.shiftr (Z.lnot PTE_U) 10) with (-1). by rewrite Z.land_m1_r.
Qed.

Lemma readable_flags e : has e PTE_R = true -> PTE_FLAGS e <> PTE_V.
Proof. intros HR E. rewrite has_flags, E in HR by (unfold PTE_R; cbn; lia). done. Qed.

Lemma ld64_range (mm : mem) a : mem_wf mm -> 0 <= ld64 mm a < 18446744073709551616.
Proof. intros Hwf. apply (ld_le_range mm a 8). intros x _. apply Hwf. Qed.

(** The guard page below the stack. *)
Lemma building_clear m0 fl0 p root n m fl o v e m' :
  building m0 fl0 p root n m fl o -> 0 <= v < pgno n ->
  translate (pmem m) root (v * 4096) = Some e -> has e PTE_R = true -> uvmclear root (v * 4096) m = Ok m' ->
  building m0 fl0 p root n m' fl o.
Proof.
  intros Hb Hv He HR E. pose proof (bd_as _ _ _ _ _ _ _ _ Hb) as Has. pose proof (bd_small _ _ _ _ _ _ _ _ Hb) as Hn.
  assert (Hv2 : v < 67108862) by (rewrite PHYSTOP_eq in Hn; unfold pgno in Hv; zlia).
  assert (Hva : 0 <= v * 4096 < MAXVA) by (rewrite MAXVA_eq; lia).
  destruct (walk_found kend Hkend m fl root _ (v * 4096) e (ai_vm _ _ _ _ _ _ Has) Hva He) as (a & Hw & Ha & Hslot & Hld & HV).
  unfold uvmclear in E. rewrite Hw, bind_Ok, (proj2 (Z.eqb_neq _ _) Ha), Hld in E. injection E as <-.
  destruct (clear_U e) as (B1 & B2 & B3 & B4 & B5); [rewrite <- Hld; apply ld64_range; apply Has|].
  set (e' := Z.land e (Z.lnot PTE_U)) in *.
  destruct (vm_inv_set_leaf kend Hkend m fl root _ (v * 4096) a e' (ai_vm _ _ _ _ _ _ Has) Hva Hslot) as (Hvm & _ & Hout).
  assert (Htr : forall w, 0 <= w < MAXVA -> translate (st64 (pmem m) a e') root w =
    if decide (w / 4096 = v) then Some e' else translate (pmem m) root w).
  { intros w Hr. rewrite (translate_set kend Hkend (pmem m) root (o_tab o) (v * 4096) a e' w); auto; [|apply Has].
    unfold same_page. rewrite B2, HV. destruct (decide (v * 4096 / 4096 = w / 4096)), (decide (w / 4096 = v)); try zlia; done. }
  pose proof Hb as [[Hu [_ Hdom Ht1 Ht2 Honly] Hsz Htf H1 H2 H3] Hp Hf Ho]. destruct top_pages as (HT1 & HT2 & HT3 & HT4).
  split; auto.
  - split; auto. split; auto; cbn [with_mem pmem with_table pagetable set_sz set_pagetable] in *.
    + destruct Has as [_ Hmap Hfr Hinj Hus]. split; auto; cbn [with_mem pmem].
      * intros v' f Hv'. destruct (Hmap v' f Hv') as (Hr & e2 & He2 & Hpa & Hfl'). split; [done|].
        assert (0 <= v' * 4096 < MAXVA /\ v' * 4096 / 4096 = v') as [Hr' Hd] by (rewrite MAXVA_eq in *; zlia).
        rewrite Htr, Hd by done. destruct (decide (v' = v)) as [->|]; [|eauto].
        exists e'. rewrite He in He2. injection He2 as <-. split_and!; [done|congruence|apply readable_flags; congruence].
      * intros w e2 Hr. rewrite Htr by done. destruct (decide (w / 4096 = v)); [|by apply Hus].
        intros [= <-]. congruence.
    + rewrite Htr, decide_False by (auto; lia). done.
    + rewrite Htr, decide_False by (auto; lia). done.
    + intros w Hr Hw1 Hw2 HM. rewrite Htr, decide_False; auto. intros Hwv.
      assert (is_Some (o_map o !! v)) as [? E2] by (by apply Hdom). congruence.
  - intros x Hx. cbn [with_mem pmem]. rewrite Hout; [by apply Ho|]. intros q Hq. apply Hx. eapply bd_pages; [exact Hb|]. by left.
Qed.

(** ** The exchange *)

(** A write to the trap frame. *)
Lemma building_tf m0 fl0 p root n m fl o mm :
  building m0 fl0 p root n m fl o -> mem_wf mm -> (forall x, outside x (trapframe p) -> ld8 mm x = ld8 (pmem m) x) ->
  proc_held (with_mem mm m) fl (with_table root n p) o /\ kalloc_inv kend (with_mem mm m) fl.
Proof.
  intros Hb Hwf Hx. pose proof (bd_held _ _ _ _ _ _ _ _ Hb) as Hh.
  destruct (proc_held_tf kend trampoline m fl _ o mm Hh) as (A1 & A2 & _); auto. apply (bd_as _ _ _ _ _ _ _ _ Hb).
Qed.

(** The old page table is still there when the new one is ready, and nothing
    of it is free. *)
Lemma building_old pool s fl0 O i root n m fl o mm :
  mem_inv pool s fl0 O -> pagetable (getp s i) <> 0 ->
  building (kphys s) fl0 (getp s i) root n m fl o -> mem_wf mm ->
  (forall x, outside x (trapframe (getp s i)) -> ld8 mm x = ld8 (pmem m) x) ->
  let p := getp s i in
  proc_as kend trampoline (trapframe p) (with_mem mm m) fl (pagetable p) (o_tab (O i)) (o_map (O i)) (sz p).
Proof.
  intros Hm Hp Hb Hwf Hx p. destruct (held_index kend trampoline pool s fl0 O i Hm Hp) as [_ Hh].
  assert (Hq : forall q, q ∈ dom (o_tab (O i)) \/ (exists v, o_map (O i) !! v = Some q) -> page_ok kend q /\ q ∉ fl0 /\ q <> trapframe p).
  { intros q Hq. destruct (pages_ok kend trampoline (kphys s) fl0 p (O i) q) as [? ?]; [by right|by right|].
    split_and!; auto. intros ->. destruct Hq as [Hq|[v Hq]]; [by apply (ph_tf_tab _ _ _ _ _ _ Hh)|by apply (ph_tf_map _ _ _ _ _ _ Hh v)]. }
  apply (proc_as_frame kend trampoline (trapframe p) (kphys s) _ fl0 fl); [apply Hh|by eapply building_tf| |].
  - intros q Hf. assert (q ∈ fl0 \/ q = trapframe p) as Hf0 by (apply (bd_part _ _ _ _ _ _ _ _ Hb); by left).
    split; [intros Hd|intros v Hv]; destruct (Hq q) as (_ & ? & ?); eauto; tauto.
  - intros q x Hd Hr. destruct (Hq q) as (Hokq & Hn & Hne); [by left|]. cbn [with_mem pmem].
    rewrite Hx, (bd_out _ _ _ _ _ _ _ _ Hb); [done| |].
    + intros q' Hq'. apply (page_disjoint kend q q' x); auto; [|by intros ->].
      eapply pool_page; [exact Hm|]. apply (mi_pool _ _ _ _ _ _ Hm). by left.
    + apply (page_disjoint kend q (trapframe p) x); auto. apply Hh.
Qed.

(** The process gets the new page table and the pages of the old one are
    freed; [f] also changes fields that do not matter for memory. *)
Lemma exec_exchange pool s fl0 O i root n m fl o mm m' f :
  mem_inv pool s fl0 O -> pagetable (getp s i) <> 0 ->
  building (kphys s) fl0 (getp s i) root n m fl o -> mem_wf mm ->
  (forall x, outside x (trapframe (getp s i)) -> ld8 mm x = ld8 (pmem m) x) ->
  proc_freepagetable kend (pagetable (getp s i)) (sz (getp s i)) (with_mem mm m) = Ok m' ->
  same_mem (with_table root n (getp s i)) (f (getp s i)) ->
  exists fl' O', mem_inv pool (setp i f (set_phys m' s)) fl' O'.
Proof.
  intros Hm Hp Hb Hwf Hx E Hsame. destruct (held_index kend trampoline pool s fl0 O i Hm Hp) as [Hi Hh].
  set (p := getp s i) in *. destruct (held_tf _ _ _ _ Hh) as [Ht Ht0].
  destruct (building_tf _ _ _ _ _ _ _ _ mm Hb Hwf Hx) as [Hnew Hk].
  pose proof (building_old pool s fl0 O i root n m fl o mm Hm Hp Hb Hwf Hx) as Hold.
  destruct (proc_freepagetable_run kend Hkend trampoline _ _ fl _ _ _ _ Hold Htramp Ht (ph_sz _ _ _ _ _ _ Hh))
    as (m2 & fl' & E2 & Hk' & Hfl & Hm'). fold p in E2. rewrite E in E2. injection E2 as <-.
  pose proof (bd_part _ _ _ _ _ _ _ _ Hb) as Hpart. pose proof (bd_free _ _ _ _ _ _ _ _ Hb) as Hf0.
  assert (Hq : forall q, q ∈ dom (o_tab (O i)) \/ (exists v, o_map (O i) !! v = Some q) -> page_ok kend q /\ ~ (q ∈ fl0 \/ q = trapframe p)).
  { intros q Hq. destruct (pages_ok kend trampoline (kphys s) fl0 p (O i) q) as [? ?]; [by right|by right|].
    split; auto. intros [?|Ht2]; [done|]. subst q. destruct Hq as [Hq|[v Hq]]; [by apply (ph_tf_tab _ _ _ _ _ _ Hh)|by apply (ph_tf_map _ _ _ _ _ _ Hh v)]. }
  assert (Hok' : proc_ok kend trampoline m' fl' (with_table root n p) o).
  { apply (proc_ok_frame kend trampoline Hkend (with_mem mm m) m' fl fl'); [by right|done|..].
    - intros q Hpq Hin. apply Hfl in Hin as [Hin|Hin].
      + by destruct (pages_ok kend trampoline _ _ _ _ q (or_intror Hnew) Hpq).
      + destruct (Hq q Hin) as [_ Hn]. apply Hn, Hpart. by right.
    - intros q x Hpq Hr. apply Hm'. intros q' [Hq'|Hq']; [by apply elem_of_nil in Hq'|].
      destruct (pages_ok kend trampoline _ _ _ _ q (or_intror Hnew) Hpq) as [Hokq _]. destruct (Hq q' Hq') as [Hok2 Hn].
      apply (page_disjoint kend q q' x); auto. intros ->. apply Hn, Hpart. by right. }
  destruct (mem_update kend trampoline Hkend pool s fl0 O i m' fl' f o Hm Hi Hk') as [Hfin _]; [|..|by exists fl'; eexists].
  - by eapply same_mem_ok.
  - intros q. fold p. rewrite (same_mem_pages _ _ _ _ Hsame), Hfl. specialize (Hpart q). unfold pages_of.
    assert (pages p (O i) q <-> q = trapframe p \/ q ∈ dom (o_tab (O i)) \/ (exists v, o_map (O i) !! v = Some q)) as ->
      by (unfold pages; tauto). tauto.
  - intros x Hn. rewrite Hm', <- (bd_out _ _ _ _ _ _ _ _ Hb).
    + apply Hx, Hn. right. left. auto.
    + intros q Hq'. apply Hn. by left.
    + intros q [Hq'|Hq']; [by apply elem_of_nil in Hq'|]. apply Hn. right. by right.
Qed.
End Pool.

(** ** Files *)

(** What a layer of files keeps, whatever proc.c asks of it. *)
Class LayerKeeps {F} (HF : FileLayer F) (R : relation F) := {
  lk_order :: PreOrder R;
  lk_dup f x y : filedup f x = Ok y -> R x y;
  lk_close f x y : fileclose f x = Ok y -> R x y;
  lk_idup ip x y : idup ip x = Ok y -> R x y;
  lk_put ip x y : put_cwd ip x = Ok y -> R x y;
  lk_root x ip y : namei_root x = Ok (ip, y) -> R x y
}.

Section Layer.
Context {F : Type} {HF : FileLayer F} {R : relation F} {HR : LayerKeeps HF R}.
Variables (kend trampoline forkret_addr : Z).
Implicit Types s : kstate F.

Lemma freeproc_files i s s' : freeproc kend i s = Ok s' -> files s' = files s.
Proof. unfold freeproc. intros E. inv_ok. by subst s'. Qed.

Lemma allocproc_files s o s' : allocproc kend trampoline forkret_addr s = Ok (o, s') -> files s' = files s.
Proof.
  unfold allocproc, allocpid. intros E. destruct (find_unused NPROC 0 s) as [i|]; [|by injection E as _ <-].
  cbn zeta in E. destruct (kalloc _) as [tf m]. destruct (tf =? 0).
  { inv_ok. simplify_eq. match goal with H : freeproc _ _ _ = Ok _ |- _ => by rewrite (freeproc_files _ _ _ H) end. }
  apply bind_ok in E as ([pt m'] & _ & E). destruct (pt =? 0).
  { inv_ok. simplify_eq. match goal with H : freeproc _ _ _ = Ok _ |- _ => by rewrite (freeproc_files _ _ _ H) end. }
  by injection E as _ <-.
Qed.

Lemma wakeup_files k j me ch now s : files (wakeup_loop k j me ch now s) = files s.
Proof. revert j s. induction k as [|k IH]; intros j s; cbn [wakeup_loop]; [done|]. rewrite IH. by case_decide. Qed.

Lemma kill_files k j v s : files (kill_loop k j v s).2 = files s.
Proof. revert j s. induction k as [|k IH]; intros j s; cbn [kill_loop]; [done|]. by destruct (_ =? _). Qed.

Lemma reparent_files k pp i now s : files (reparent_loop k pp i now s) = files s.
Proof.
  revert pp s. induction k as [|k IH]; intros pp s; cbn [reparent_loop]; [done|]. rewrite IH. case_decide; [|done].
  unfold wakeup. by rewrite wakeup_files.
Qed.

Lemma setp_files i f s : files (setp i f s) = files s.
Proof. reflexivity. Qed.
Lemma wakeup_all_files me ch now s : files (wakeup me ch now s) = files s.
Proof. unfold wakeup. apply wakeup_files. Qed.
Lemma reparent_all_files i now s : files (reparent i now s) = files s.
Proof. unfold reparent. apply reparent_files. Qed.
Lemma exit_zombie_files i status now s : files (exit_zombie i status now s) = files s.
Proof. unfold exit_zombie. rewrite setp_files, wakeup_all_files. apply reparent_all_files. Qed.

Lemma wait_scan_files k pp i addr hk s r s' : wait_scan kend k pp i addr hk s = Ok (r, s') -> files s' = files s.
Proof.
  revert pp hk. induction k as [|k IH]; intros pp hk E; cbn [wait_scan] in E; [by injection E as _ <-|].
  destruct (decide _); [|by eapply IH]. destruct (decide _); [|by eapply IH].
  apply bind_ok in E as ([r' m] & _ & E). destruct (r' <? 0); [by injection E as _ <-|].
  apply bind_ok in E as (s1 & E1%freeproc_files & E). injection E as _ <-. exact E1.
Qed.

Lemma wait_files i addr s r s' : wait kend i addr s = Ok (r, s') -> files s' = files s.
Proof.
  unfold wait. intros E. apply bind_ok in E as ([a s1] & E1%wait_scan_files & E).
  destruct a as [|hk]; [by injection E as _ <-|]. destruct (_ || _); by injection E as _ <-.
Qed.

Lemma grow_files i n s r s' : growproc kend i n s = Ok (r, s') -> files s' = files s.
Proof.
  unfold growproc. intros E. destruct (0 <? n).
  { apply bind_ok in E as ([z m] & _ & E). destruct (z =? 0); by injection E as _ <-. }
  destruct (n <? 0); [apply bind_ok in E as ([z m] & _ & E)|]; by injection E as _ <-.
Qed.

Lemma fork_files_keeps k fd i np s s' : fork_files k fd i np s = Ok s' -> R (files s) (files s').
Proof.
  revert fd s. induction k as [|k IH]; intros fd s E; cbn [fork_files] in E; [by injection E as <-|].
  destruct (negb _); [|by eapply IH]. apply bind_ok in E as (x & E1%lk_dup & E). apply IH in E.
  etransitivity; [exact E1|exact E].
Qed.

Lemma exit_files_keeps k fd i s s' : exit_files k fd i s = Ok s' -> R (files s) (files s').
Proof.
  revert fd s. induction k as [|k IH]; intros fd s E; cbn [exit_files] in E; [by injection E as <-|].
  destruct (negb _); [|by eapply IH]. apply bind_ok in E as (x & E1%lk_close & E). apply IH in E.
  etransitivity; [exact E1|exact E].
Qed.

Lemma fork_copy_keeps i s o s' : fork_copy kend trampoline forkret_addr i s = Ok (o, s') -> R (files s) (files s').
Proof.
  unfold fork_copy. intros E. apply bind_ok in E as ([np s1] & E1%allocproc_files & E). rewrite <- E1. clear E1.
  destruct np as [np|]; [|by injection E as _ <-]. apply bind_ok in E as ([r m] & _ & E). destruct (r <? 0).
  { apply bind_ok in E as (s2 & E2%freeproc_files & E). injection E as _ <-. by rewrite E2. }
  cbn zeta in E. apply bind_ok in E as (s2 & E2%fork_files_keeps & E). apply bind_ok in E as (x & E3%lk_idup & E).
  injection E as _ <-. etransitivity; [exact E2|exact E3].
Qed.


Lemma scheduler_files rr fcfs prio now s i s' : scheduler rr fcfs prio now s = (Some i, s') -> files s' = files s.
Proof. unfold scheduler. destruct (select rr fcfs prio s); [|done]. by intros [= _ <-]. Qed.
Lemma exit_begin_files i now s s' : exit_begin i now s = Ok s' -> files s' = files s.
Proof. unfold exit_begin. case_decide; [done|]. destruct (negb _); by intros [= <-]. Qed.
Lemma kill_all_files v s : files (kill v s).2 = files s.
Proof. apply kill_files. Qed.
Lemma mem_step_keeps s s' : mem_step kend trampoline forkret_addr s s' -> R (files s) (files s').
Proof.
  intros Hst. destruct Hst.
  - by eapply fork_copy_keeps.
  - exact (reflexivity (files s)).
  - exact (reflexivity (files s)).
  - match goal with H : growproc _ _ _ _ = _ |- _ => by rewrite (grow_files _ _ _ _ _ H) end.
  - match goal with H : exit_begin _ _ _ = _ |- _ => by rewrite (exit_begin_files _ _ _ _ H) end.
  - by eapply exit_files_keeps.
  - match goal with H : exit_cwd _ _ = _ |- _ => apply bind_ok in H as (x & E1%lk_put & E); injection E as <- end. exact E1.
  - by rewrite exit_zombie_files.
  - match goal with H : wait _ _ _ _ = _ |- _ => by rewrite (wait_files _ _ _ _ _ H) end.
  - exact (reflexivity (files s)).
  - exact (reflexivity (files s)).
  - match goal with H : scheduler _ _ _ _ _ = _ |- _ => by rewrite (scheduler_files _ _ _ _ _ _ _ H) end.
  - exact (reflexivity (files s)).
  - exact (reflexivity (files s)).
  - exact (reflexivity (files s)).
  - by rewrite wakeup_all_files.
  - by rewrite kill_all_files.
  - exact (reflexivity (files s)).
Qed.

Lemma userinit_keeps t now s s' : userinit kend trampoline forkret_addr t now s = Ok s' -> R (files s) (files s').
Proof.
  unfold userinit. intros E. apply bind_ok in E as ([np s1] & E1%allocproc_files & E). rewrite <- E1. clear E1.
  destruct np as [np|]; [|done]. apply bind_ok in E as (m & _ & E). apply bind_ok in E as ([ip x] & E3%lk_root & E).
  injection E as <-. exact E3.
Qed.
End Layer.

(** ** The pages of pipes *)

Section Pipes.
Context {T D : Type} {HT : TxStore T} {HO : TxOps T} {HD : Devsw D}.
Implicit Types x y : kfs T D.

(** A page of the kernel: it holds a pipe, or a pipe that has been closed and
    is about to be freed. *)
Definition kernel_page_of x (q : Z) : Prop := is_Some (pipes x !! q) \/ q ∈ freed x.

Definition pages_apart x : Prop := NoDup (freed x) /\ forall q, q ∈ freed x -> pipes x !! q = None.

(** The kernel has the same pages. *)
Definition keeps_pages x y : Prop :=
  pages_apart x -> pages_apart y /\ forall q, kernel_page_of y q <-> kernel_page_of x q.

#[global] Instance keeps_pages_order : PreOrder keeps_pages.
Proof.
  split; [by intros x H|]. intros x y z Hxy Hyz Hx. destruct (Hxy Hx) as [Hy E1], (Hyz Hy) as [Hz E2].
  split; [done|]. intros q. by rewrite E2.
Qed.

Lemma kp_same x y : pipes y = pipes x -> freed y = freed x -> keeps_pages x y.
Proof. unfold keeps_pages, pages_apart, kernel_page_of. intros -> ->. done. Qed.

Lemma kp_set_pipe a pi x : is_Some (pipes x !! a) -> keeps_pages x (File.set_pipe a pi x).
Proof.
  intros [p0 Ha] [Hnd Hn]. unfold pages_apart, kernel_page_of. cbn [pipes freed File.set_pipe]. split.
  - split; [done|]. intros q Hq. rewrite lookup_insert_ne; [by apply Hn|]. intros ->. apply Hn in Hq. congruence.
  - intros q. destruct (decide (q = a)) as [->|Hne]; [rewrite lookup_insert_eq, Ha; split; intros _; left; by eexists|].
    by rewrite lookup_insert_ne.
Qed.

Lemma kp_drop_pipe a x : is_Some (pipes x !! a) -> keeps_pages x (File.drop_pipe a x).
Proof.
  intros [p0 Ha] [Hnd Hn]. unfold pages_apart, kernel_page_of. cbn [pipes freed File.drop_pipe]. split.
  - split.
    + apply NoDup_app. split_and!; [done| |apply NoDup_singleton]. intros q Hq Hq2. apply list_elem_of_singleton in Hq2 as ->.
      apply Hn in Hq. congruence.
    + intros q Hq. apply elem_of_app in Hq as [Hq|Hq]; [by apply lookup_delete_None; right; apply Hn|].
      apply list_elem_of_singleton in Hq as ->. apply lookup_delete_eq.
  - intros q. rewrite elem_of_app, list_elem_of_singleton. destruct (decide (q = a)) as [->|Hne]; [rewrite Ha; split; [left; by eexists|tauto]|].
    rewrite lookup_delete_ne by done. tauto.
Qed.

Lemma kp_in_fs (f : fs T -> outcome (fs T)) x y : File.in_fs f x = Ok y -> keeps_pages x y.
Proof. unfold File.in_fs. intros E. inv_ok. subst y. by apply kp_same. Qed.

Lemma kp_on_fs {A} (f : fs T -> outcome (A * fs T)) x (a : A) y : File.on_fs f x = Ok (a, y) -> keeps_pages x y.
Proof. unfold File.on_fs. intros E. apply bind_ok in E as ([r v] & _ & E). injection E as _ <-. by apply kp_same. Qed.

Lemma kp_setf f g x : keeps_pages x (File.setf f g x).
Proof. by apply kp_same. Qed.

Lemma kp_begin x y : File.begin_op x = Ok y -> keeps_pages x y.
Proof. unfold File.begin_op. apply kp_in_fs. Qed.
Lemma kp_end x y : File.end_op x = Ok y -> keeps_pages x y.
Proof. unfold File.end_op. apply kp_in_fs. Qed.

Lemma kp_put me ip x y : (x ← File.begin_op x; x ← File.in_fs (iput me ip) x; File.end_op x) = Ok y -> keeps_pages x y.
Proof.
  intros E. apply bind_ok in E as (x1 & E1%kp_begin & E). apply bind_ok in E as (x2 & E2%kp_in_fs & E%kp_end).
  etransitivity; [exact E1|]. by etransitivity.
Qed.

Lemma kp_pipeclose a w x y : File.pipeclose a w x = Ok y -> keeps_pages x y.
Proof.
  unfold File.pipeclose. destruct (pipes x !! a) as [pi|] eqn:Ea; [|done]. destruct (Pipe.pipeclose w pi) as [free pi'].
  intros [= <-]. assert (is_Some (pipes x !! a)) by (by eexists). destruct free; [by apply kp_drop_pipe|by apply kp_set_pipe].
Qed.

Lemma kp_fileclose me f x y : File.fileclose me f x = Ok y -> keeps_pages x y.
Proof.
  unfold File.fileclose. intros E. destruct (_ <? 1); [done|]. cbn zeta in E.
  destruct (0 <? _); [injection E as <-; apply kp_setf|].
  etransitivity; [apply (kp_setf f (fun z : file => set_fref (s32 (f_ref z - 1)) z))|].
  etransitivity; [apply (kp_setf f (fun z : file => set_ftype FD_NONE (set_fref 0 z)))|].
  destruct (f_type _); [by injection E as <-|by eapply kp_pipeclose|by eapply kp_put..].
Qed.

Lemma kp_filedup f x y : File.filedup f x = Ok y -> keeps_pages x y.
Proof. unfold File.filedup. destruct (_ <? 1); [done|]. intros [= <-]. apply kp_setf. Qed.

Lemma kp_idup ip x y : Ok (File.set_fsys (Fs.idup (Z.to_nat (ip - 1)) (fsys x)) x) = Ok y -> keeps_pages x y.
Proof. intros [= <-]. by apply kp_same. Qed.

Lemma kp_root (x : kfs T D) me ip y :
  ('(o, x) ← File.on_fs (namei me [slash] 0) x; Ok (match o with Some i => Z.of_nat i + 1 | None => 0 end, x)) = Ok (ip, y) -> keeps_pages x y.
Proof. intros E. apply bind_ok in E as ([o x1] & E1%kp_on_fs & E). by injection E as _ <-. Qed.

#[local] Abbreviation layer me := (kfs_layer (T := T) (D := D) me).

Lemma layer_dup me f x y : Proc.filedup (FileLayer := layer me) f x = Ok y -> keeps_pages x y.
Proof. exact (kp_filedup (fidx f) x y). Qed.
Lemma layer_close me f x y : Proc.fileclose (FileLayer := layer me) f x = Ok y -> keeps_pages x y.
Proof. exact (kp_fileclose me (fidx f) x y). Qed.
Lemma layer_idup me ip x y : Proc.idup (FileLayer := layer me) ip x = Ok y -> keeps_pages x y.
Proof. exact (kp_idup ip x y). Qed.
Lemma layer_put me ip x y : put_cwd (FileLayer := layer me) ip x = Ok y -> keeps_pages x y.
Proof. exact (kp_put me _ x y). Qed.
Lemma layer_root me x ip y : namei_root (FileLayer := layer me) x = Ok (ip, y) -> keeps_pages x y.
Proof. exact (kp_root x me ip y). Qed.

#[global] Instance kfs_keeps_pages me : LayerKeeps (layer me) keeps_pages.
Proof.
  exact (Build_LayerKeeps _ (layer me) keeps_pages keeps_pages_order (layer_dup me) (layer_close me) (layer_idup me) (layer_put me) (layer_root me)).
Qed.

Lemma kp_filealloc n f x : keeps_pages x (File.filealloc_loop n f x).2.
Proof.
  revert f. induction n as [|n IH]; intros f; cbn [File.filealloc_loop]; [reflexivity|]. destruct (_ =? 0); [apply kp_setf|apply IH].
Qed.
End Pipes.
