(* ===== verification/Ulib.v ===== *)
(** * user/ulib.c: the library of the user programs

    Functions that only read a string take it as the list of its bytes,
    where reading at or past its end gives the terminating NUL; functions
    that write work on the memory of Cstring.v. *)
From S2P Require Import Prelude Cstring.

(** The byte [s[i]] of a string. *)
Definition at_ (s : list Z) (i : nat) : Z := default 0 (s !! i).

Module Ulib.

(** ** Reading *)

Fixpoint strcmp (p q : list Z) : Z :=
  match p with
  | [] => 0 - at_ q 0
  | a :: p' => if negb (a =? 0) && (a =? at_ q 0) then strcmp p' (tail q) else a - at_ q 0
  end.

Fixpoint strncmp_loop (p q : list Z) (len : nat) : Z :=
  match len with
  | O => 0
  | S n =>
      if negb (at_ p 0 =? at_ q 0) then at_ p 0 - at_ q 0
      else if at_ p 0 =? 0 then 0
      else strncmp_loop (tail p) (tail q) n
  end.
Definition strncmp (p q : list Z) (len : Z) : Z := if len <=? 0 then 0 else strncmp_loop p q (Z.to_nat len).

Fixpoint strlen_from (s : list Z) (n : Z) : Z :=
  match s with
  | [] => n
  | c :: s' => if c =? 0 then n else strlen_from s' (n + 1)
  end.
Definition strlen (s : list Z) : Z := strlen_from s 0.

(** The rest of the string from the first [c] on, or a null pointer. *)
Fixpoint strchr (s : list Z) (c : Z) : option (list Z) :=
  match s with
  | [] => None
  | a :: s' => if a =? 0 then None else if a =? c then Some s else strchr s' c
  end.

Definition is_digit (c : Z) : bool := (48 <=? c) && (c <=? 57).

Fixpoint atoi_loop (s : list Z) (n : Z) : Z :=
  match s with
  | [] => n
  | c :: s' => if is_digit c then atoi_loop s' (s32 (n * 10 + c - 48)) else n
  end.
Fixpoint atoi (s : list Z) : Z :=
  match s with
  | [] => atoi_loop [] 0
  | c :: s' => if c =? 45 then s32 (- atoi s') else atoi_loop s 0
  end.

Fixpoint valid_digits (s : list Z) : bool :=
  match s with
  | [] => true
  | c :: s' => if c =? 0 then true else if (c <? 48) || (57 <? c) then false else valid_digits s'
  end.
Definition is_valid_int (s : list Z) : bool :=
  if (at_ s 0 =? 45) || (at_ s 0 =? 43) then valid_digits (tail s) else valid_digits s.

(** -1 for a null pointer, an empty string or a character that is no digit. *)
Fixpoint nonneg_loop (s : list Z) (v : Z) : Z :=
  match s with
  | [] => v
  | c :: s' => if c =? 0 then v else if (c <? 48) || (57 <? c) then -1 else nonneg_loop s' (s32 (v * 10 + (c - 48)))
  end.
Definition parse_nonneg_int (s : option (list Z)) : Z :=
  match s with
  | None => -1
  | Some s => if at_ s 0 =? 0 then -1 else nonneg_loop s 0
  end.

Fixpoint getFilename_loop (p dirname : list Z) : list Z :=
  match p with
  | [] => dirname
  | c :: p' => if c =? 0 then dirname else getFilename_loop p' (if c =? 47 then p' else dirname)
  end.
Definition getFilename (path : list Z) : list Z := getFilename_loop path path.

Fixpoint memcmp (s1 s2 : list Z) (n : nat) : Z :=
  match n with
  | O => 0
  | S k => if negb (at_ s1 0 =? at_ s2 0) then at_ s1 0 - at_ s2 0 else memcmp (tail s1) (tail s2) k
  end.

(** ** Writing *)

Fixpoint memset_loop (m : mem) (cdst c : Z) (k : nat) (i : Z) : mem :=
  match k with
  | O => m
  | S k' => memset_loop (st8 m (cdst + i) c) cdst c k' (i + 1)
  end.
Definition memset (m : mem) (dst c n : Z) : mem := memset_loop m dst c (Z.to_nat (u32 n)) 0.

Definition memmove (m : mem) (dst src n : Z) : mem :=
  if dst <? src then copy_up m dst src (Z.to_nat n) else copy_down m (dst + n) (src + n) (Z.to_nat n).
Definition memcpy (m : mem) (dst src n : Z) : mem := memmove m dst src (s32 n).

(** Copy up to and including the NUL. *)
Fixpoint strcpy (fuel : nat) (m : mem) (s t : Z) : outcome mem :=
  match fuel with
  | O => NoFuel
  | S f => let m' := st8 m s (ld8 m t) in if ld8 m' s =? 0 then Ok m' else strcpy f m' (s + 1) (t + 1)
  end.

Fixpoint str_end (fuel : nat) (m : mem) (p : Z) : outcome Z :=
  match fuel with
  | O => NoFuel
  | S f => if ld8 m p =? 0 then Ok p else str_end f m (p + 1)
  end.
Fixpoint strcat_loop (fuel : nat) (m : mem) (p src : Z) : outcome mem :=
  match fuel with
  | O => NoFuel
  | S f => if ld8 m src =? 0 then Ok (st8 m p 0) else strcat_loop f (st8 m p (ld8 m src)) (p + 1) (src + 1)
  end.
Definition strcat (fuel : nat) (m : mem) (dst src : Z) : outcome mem :=
  p ← str_end fuel m dst;
  strcat_loop fuel m p src.

(** The result is whether the path fits, with the memory. *)
Definition joinpath (fuel : nat) (m : mem) (dir filename out_buffer bufsize : Z) : outcome (bool * mem) :=
  dn ← Cstring.strlen fuel m dir;
  nn ← Cstring.strlen fuel m filename;
  if bufsize <? dn + 1 + nn + 1 then Ok (false, m)
  else
    m ← strcpy fuel m out_buffer dir;
    let m := if negb (ld8 m (dir + (dn - 1)) =? 47)
             then st8 (st8 m (out_buffer + dn) 47) (out_buffer + (dn + 1)) 0 else m in
    m ← strcat fuel m out_buffer filename;
    Ok (true, m).

(** [gets]: [read(0, &c, 1)] gives the next byte of the input, or fails. *)
Fixpoint gets_loop (k : nat) (m : mem) (buf i : Z) (input : list Z) : mem * Z * list Z :=
  match k, input with
  | S k', c :: input' =>
      let m := st8 m (buf + i) c in
      if (c =? 10) || (c =? 13) then (m, i + 1, input') else gets_loop k' m buf (i + 1) input'
  | _, _ => (m, i, input)
  end.
Definition gets (m : mem) (buf max : Z) (input : list Z) : mem * list Z :=
  let '(m, i, input) := gets_loop (Z.to_nat (max - 1)) m buf 0 input in
  (st8 m (buf + i) 0, input).

(** ** Command line options *)

Record opt := Opt { opt_ : Z; has_arg : bool; seen : bool; arg : option (list Z) }.

Definition see (a : option (list Z)) (o : opt) : opt := Opt (opt_ o) (has_arg o) true a.
Definition unsee (o : opt) : opt := Opt (opt_ o) (has_arg o) false None.

Fixpoint find_opt_from (opts : list opt) (ch : Z) (i : nat) : option nat :=
  match opts with
  | [] => None
  | o :: opts' => if opt_ o =? ch then Some i else find_opt_from opts' ch (S i)
  end.
Definition find_opt (opts : list opt) (ch : Z) : option nat := find_opt_from opts ch 0.

Abbreviation str := (list Z).

(** [argv[i]]; a null pointer that is read through is [Panic]. *)
Definition arg_at (argv : list (option str)) (i : nat) : outcome str :=
  match argv !! i with Some (Some a) => Ok a | _ => Panic "null argument" end.

Definition slen (a : str) : nat := length (cstr a).

(** The loop over the letters of one argument, from [j] on: the options and
    the index of the argument last used; [None] when the parse fails. *)
Fixpoint cluster (k j : nat) (a : str) (i argc : nat) (argv : list (option str)) (opts : list opt)
    : outcome (option (list opt * nat)) :=
  match k with
  | O => Ok (Some (opts, i))
  | S k' =>
      match find_opt opts (at_ a j) with
      | None => Ok None
      | Some idx =>
          if default false (has_arg <$> opts !! idx) then
            if (j + 1 <? slen a)%nat then Ok (Some (alter (see (Some (drop (j + 1) a))) idx opts, i))
            else if (argc <=? i + 1)%nat then Ok None
            else
              n ← arg_at argv (i + 1);
              if at_ n 0 =? 45 then Ok None
              else Ok (Some (alter (see (Some n)) idx opts, (i + 1)%nat))
          else cluster k' (S j) a i argc argv (alter (fun o => see (arg o) o) idx opts)
      end
  end.

(** [for (int j = i; j < argc; ++j) argv[write_i++] = argv[j];] *)
Fixpoint copy_rest (k j write_i : nat) (argv : list (option str)) : list (option str) * nat :=
  match k with
  | O => (argv, write_i)
  | S k' => copy_rest k' (S j) (S write_i) (<[write_i := mjoin (argv !! j)]> argv)
  end.

Fixpoint parse_loop (k i write_i argc : nat) (argv : list (option str)) (opts : list opt)
    : outcome (option (list (option str) * nat * list opt)) :=
  match k with
  | O => Ok (Some (argv, write_i, opts))
  | S k' =>
      if (argc <=? i)%nat then Ok (Some (argv, write_i, opts))
      else
        a ← arg_at argv i;
        if at_ a 0 =? 0 then parse_loop k' (S i) write_i argc argv opts
        else if negb (at_ a 0 =? 45) || (at_ a 1 =? 0) then
          parse_loop k' (S i) (S write_i) argc (<[write_i := Some a]> argv) opts
        else if (at_ a 1 =? 45) && (at_ a 2 =? 0) then
          let '(argv, write_i) := copy_rest (argc - (i + 1)) (i + 1) write_i argv in
          Ok (Some (argv, write_i, opts))
        else
          r ← cluster (slen a - 1) 1 a i argc argv opts;
          match r with
          | None => Ok None
          | Some (opts, i) => parse_loop k' (S i) write_i argc argv opts
          end
  end.

(** [for (int j = i; j < argc; ++j) argv[j] = 0;] *)
Fixpoint null_from (k j : nat) (argv : list (option str)) : list (option str) :=
  match k with
  | O => argv
  | S k' => null_from k' (S j) (<[j := None]> argv)
  end.

Definition parse_flags (argc : nat) (argv : list (option str)) (opts : list opt)
    : outcome (option (nat * list (option str) * list opt)) :=
  r ← parse_loop argc 1 1 argc argv (map unsee opts);
  match r with
  | None => Ok None
  | Some (argv, write_i, opts) =>
      let argv := <[write_i := None]> argv in
      Ok (Some (write_i, null_from (argc - write_i) write_i argv, opts))
  end.

Fixpoint contains_char (s : list Z) (c : Z) : bool :=
  match s with
  | [] => false
  | a :: s' => if a =? 0 then false else if a =? c then true else contains_char s' c
  end.

(** The scan of one option cluster: the index of the argument last used. *)
Fixpoint strip_cluster (k j : nat) (a : str) (i argc : nat) (wa : list Z) : option nat :=
  match k with
  | O => Some i
  | S k' =>
      if contains_char wa (at_ a j) then
        if (j + 1 <? slen a)%nat then Some i
        else if (argc <=? i + 1)%nat then None
        else Some (i + 1)%nat
      else strip_cluster k' (S j) a i argc wa
  end.

Fixpoint strip_loop (k i write_i argc : nat) (argv : list (option str)) (wa : list Z)
    : outcome (option (list (option str) * nat)) :=
  match k with
  | O => Ok (Some (argv, write_i))
  | S k' =>
      if (argc <=? i)%nat then Ok (Some (argv, write_i))
      else
        match mjoin (argv !! i) with
        | None => strip_loop k' (S i) write_i argc argv wa
        | Some a =>
            if at_ a 0 =? 0 then strip_loop k' (S i) write_i argc argv wa
            else if negb (at_ a 0 =? 45) || (at_ a 1 =? 0) then
              strip_loop k' (S i) (S write_i) argc (<[write_i := Some a]> argv) wa
            else if (at_ a 1 =? 45) && (at_ a 2 =? 0) then
              let '(argv, write_i) := copy_rest (argc - (i + 1)) (i + 1) write_i argv in
              Ok (Some (argv, write_i))
            else
              match strip_cluster (slen a - 1) 1 a i argc wa with
              | None => Ok None
              | Some i => strip_loop k' (S i) write_i argc argv wa
              end
        end
  end.

Definition strip_flags (argc : nat) (argv : list (option str)) (opts_with_arg : list Z)
    : outcome (option (nat * list (option str))) :=
  r ← strip_loop argc 1 1 argc argv opts_with_arg;
  match r with
  | None => Ok None
  | Some (argv, write_i) => Ok (Some (write_i, <[write_i := None]> argv))
  end.

End Ulib.
