(* ===== verification/UlibFlags.v ===== *)
(** * The option parsers of user/ulib.c

    [parse_flags] and [strip_flags] compact [argv] in place while they read
    it.  The reference works on the list of arguments; the theorem shows
    that the loops compute it, and that the two parsers agree. *)
From S2P Require Import Prelude Cstring Ulib.

Import Ulib.

(** ** The reference *)

(** The letters of one argument: the options, and whether the next argument
    was taken. *)
Fixpoint letters (cs : str) (opts : list opt) (next : option str) : option (list opt * bool) :=
  match cs with
  | [] => Some (opts, false)
  | c :: cs' =>
      match find_opt opts c with
      | None => None
      | Some idx =>
          if default false (has_arg <$> opts !! idx) then
            match cs', next with
            | _ :: _, _ => Some (alter (see (Some cs')) idx opts, false)
            | [], Some n => if at_ n 0 =? 45 then None else Some (alter (see (Some n)) idx opts, true)
            | [], None => None
            end
          else letters cs' (alter (fun o => see (arg o) o) idx opts) next
      end
  end.

Definition keep (a : str) (r : option (list opt * list str)) : option (list opt * list str) :=
  match r with Some (o, rest) => Some (o, a :: rest) | None => None end.

(** Options and remaining arguments. *)
Fixpoint ref_parse (args : list str) (opts : list opt) : option (list opt * list str) :=
  match args with
  | [] => Some (opts, [])
  | [] :: rest => ref_parse rest opts
  | ((c :: cs) as a) :: rest =>
      if negb (c =? 45) || bool_decide (cs = []) then keep a (ref_parse rest opts)
      else if bool_decide (cs = [45]) then Some (opts, rest)
      else
        match letters cs opts (head rest), rest with
        | None, _ => None
        | Some (opts, true), _ :: rest' => ref_parse rest' opts
        | Some (opts, _), _ => ref_parse rest opts
        end
  end.

(** The same for [strip_flags], where [wa] are the letters with an argument. *)
Fixpoint strip_letters (cs : str) (wa : list Z) (more : bool) : option bool :=
  match cs with
  | [] => Some false
  | c :: cs' =>
      if contains_char wa c then
        match cs' with _ :: _ => Some false | [] => if more then Some true else None end
      else strip_letters cs' wa more
  end.

Fixpoint ref_strip (args : list str) (wa : list Z) : option (list str) :=
  match args with
  | [] => Some []
  | [] :: rest => ref_strip rest wa
  | ((c :: cs) as a) :: rest =>
      if negb (c =? 45) || bool_decide (cs = []) then cons a <$> ref_strip rest wa
      else if bool_decide (cs = [45]) then Some rest
      else
        match strip_letters cs wa (negb (bool_decide (rest = []))), rest with
        | None, _ => None
        | Some true, _ :: rest' => ref_strip rest' wa
        | Some _, _ => ref_strip rest wa
        end
  end.

Lemma letters_none cs : forall opts o, letters cs opts None <> Some (o, true).
Proof.
  induction cs as [|c cs IH]; intros opts o; cbn; [done|]. destruct (find_opt opts c); [|done].
  destruct (default false _); [|apply IH]. by destruct cs.
Qed.

(** ** Strings without NUL *)

Definition no_nul (a : str) : Prop := Forall (fun c => c <> 0) a.

Lemma cstr_no_nul a : no_nul a -> cstr a = a.
Proof.
  induction 1 as [|c a Hc _ IH]; [done|]. rewrite cstr_cons, IH. by rewrite (proj2 (Z.eqb_neq _ _)).
Qed.

Lemma at_nul a i : no_nul a -> at_ a i = 0 <-> (length a <= i)%nat.
Proof.
  intros Ha. unfold at_. destruct (a !! i) as [c|] eqn:E; cbn.
  - pose proof (lookup_lt_Some _ _ _ E). split; [|lia]. intros ->. by destruct (Forall_lookup_1 _ _ _ _ Ha E).
  - apply lookup_ge_None in E. done.
Qed.

Lemma slen_no_nul a : no_nul a -> slen a = length a.
Proof. intros Ha. unfold slen. by rewrite cstr_no_nul. Qed.

(** The argument after argument [i]. *)
Definition next_is (argv : list (option str)) (i argc : nat) (next : option str) : Prop :=
  match next with
  | Some n => (i + 1 < argc)%nat /\ argv !! (i + 1)%nat = Some (Some n)
  | None => (argc <= i + 1)%nat
  end.

Lemma cluster_run a i argc argv next k : forall j opts,
  no_nul a -> next_is argv i argc next -> k = (length a - j)%nat ->
  cluster k j a i argc argv opts =
    Ok (match letters (drop j a) opts next with
        | None => None
        | Some (o, b) => Some (o, if b then (i + 1)%nat else i)
        end).
Proof.
  induction k as [|k IH]; intros j opts Ha Hn Hk; cbn [cluster].
  { by rewrite drop_ge by lia. }
  destruct (lookup_lt_is_Some_2 a j ltac:(lia)) as [c Hc]. rewrite (drop_S _ _ _ Hc). cbn [letters].
  unfold at_ at 1. rewrite Hc. change (default 0 (Some c)) with c. destruct (find_opt opts c) as [idx|]; [|done].
  destruct (default false _); [|apply IH; auto; lia].
  rewrite slen_no_nul by done. replace (j + 1)%nat with (S j) by lia.
  destruct (Nat.ltb_spec (S j) (length a)) as [Hl|Hl].
  - destruct (lookup_lt_is_Some_2 a (S j) Hl) as [c' Hc']. rewrite (drop_S _ _ _ Hc'). done.
  - rewrite drop_ge by lia. destruct next as [n|]; cbn in Hn.
    + destruct Hn as [Hlt Hat]. destruct (Nat.leb_spec argc (i + 1)); [lia|]. unfold arg_at. rewrite Hat.
      cbn [mbind outcome_bind]. by destruct (_ =? 45).
    + destruct (Nat.leb_spec argc (i + 1)); [done|lia].
Qed.

Lemma strip_cluster_run a i argc more wa k : forall j,
  no_nul a -> more = negb (argc <=? i + 1)%nat -> k = (length a - j)%nat ->
  strip_cluster k j a i argc wa =
    match strip_letters (drop j a) wa more with None => None | Some b => Some (if b then (i + 1)%nat else i) end.
Proof.
  induction k as [|k IH]; intros j Ha Hm Hk; cbn [strip_cluster].
  { by rewrite drop_ge by lia. }
  destruct (lookup_lt_is_Some_2 a j ltac:(lia)) as [c Hc]. rewrite (drop_S _ _ _ Hc). cbn [strip_letters].
  unfold at_ at 1. rewrite Hc. change (default 0 (Some c)) with c. destruct (contains_char wa c); [|apply IH; auto; lia].
  rewrite slen_no_nul by done. replace (j + 1)%nat with (S j) by lia.
  destruct (Nat.ltb_spec (S j) (length a)) as [Hl|Hl].
  - destruct (lookup_lt_is_Some_2 a (S j) Hl) as [c' Hc']. rewrite (drop_S _ _ _ Hc'). done.
  - rewrite drop_ge by lia. subst more. by destruct (argc <=? i + 1)%nat.
Qed.

(** ** The argument vector while it is compacted

    The arguments kept so far, then entries that have been read, then the
    arguments to come and the null pointer. *)
Definition layout (d : list str) (junk : list (option str)) (rest : list str) : list (option str) :=
  map Some d ++ junk ++ map Some rest ++ [None].

Section Layout.
Context (d : list str) (junk : list (option str)) (rest : list str).

Lemma layout_read a : layout d junk (a :: rest) !! (length d + length junk)%nat = Some (Some a).
Proof.
  unfold layout. rewrite lookup_app_r by (rewrite length_map; lia). rewrite length_map.
  rewrite lookup_app_r by lia. by replace (length d + length junk - length d - length junk)%nat with 0%nat by lia.
Qed.

Lemma layout_skip a : layout d junk (a :: rest) = layout d (junk ++ [Some a]) rest.
Proof. unfold layout. by rewrite <- (assoc_L (++)). Qed.

Lemma layout_length : length (layout d junk rest) = (length d + length junk + length rest + 1)%nat.
Proof. unfold layout. rewrite !length_app, !length_map. cbn. lia. Qed.
End Layout.

(** Writing the argument just read to the next place. *)
Lemma layout_write d junk a rest : exists junk', length junk' = length junk /\
  <[length d := Some a]> (layout d junk (a :: rest)) = layout (d ++ [a]) junk' rest.
Proof.
  rewrite layout_skip. unfold layout. destruct (junk ++ [Some a]) as [|x l] eqn:E; [by destruct junk|].
  exists l. split; [apply (f_equal length) in E; rewrite length_app in E; cbn in E; lia|].
  rewrite map_app. cbn [map]. rewrite <- (assoc_L (++)). cbn [app].
  rewrite insert_app_r_alt by (rewrite length_map; lia). rewrite length_map, Nat.sub_diag. done.
Qed.

Lemma copy_rest_run rest : forall d junk,
  exists junk', length junk' = length junk /\
  copy_rest (length rest) (length d + length junk) (length d) (layout d junk rest) = (layout (d ++ rest) junk' [], (length d + length rest)%nat).
Proof.
  induction rest as [|a rest IH]; intros d junk; cbn [copy_rest length].
  { exists junk. rewrite app_nil_r, Nat.add_0_r. done. }
  rewrite layout_read. cbn [mjoin option_join]. destruct (layout_write d junk a rest) as (j' & Hj & ->).
  destruct (IH (d ++ [a]) j') as (j2 & Hj2 & E). rewrite length_app, Hj in E. cbn [length] in E.
  replace (length d + 1 + length junk)%nat with (S (length d + length junk)) in E by lia.
  replace (length d + 1)%nat with (S (length d)) in E by lia. rewrite E.
  exists j2. split; [lia|]. rewrite <- (assoc_L (++)). cbn [app]. f_equal. lia.
Qed.

(** The tests on the first characters, as tests on the list. *)
Lemma arg_tests c cs : no_nul (c :: cs) ->
  (at_ (c :: cs) 0 =? 0) = false /\ (at_ (c :: cs) 1 =? 0) = bool_decide (cs = []) /\
  ((at_ (c :: cs) 1 =? 45) && (at_ (c :: cs) 2 =? 0)) = bool_decide (cs = [45]).
Proof.
  intros Hn. pose proof (at_nul _ 1 Hn) as H1. pose proof (at_nul _ 2 Hn) as H2. apply Forall_cons in Hn as [Hc Hn].
  split_and!.
  - by apply Z.eqb_neq.
  - destruct cs as [|c1 cs]; [done|]. apply Forall_cons in Hn as [Hc1 _]. by apply Z.eqb_neq.
  - destruct cs as [|c1 cs]; [done|]. apply Forall_cons in Hn as [Hc1 Hn]. unfold at_. cbn.
    destruct cs as [|c2 cs]; cbn.
    + rewrite andb_true_r. apply eq_bool_prop_intro. rewrite bool_decide_spec, Is_true_true, Z.eqb_eq. naive_solver.
    + apply Forall_cons in Hn as [Hc2 _]. rewrite (proj2 (Z.eqb_neq c2 0)) by done. rewrite andb_false_r. symmetry.
      by apply bool_decide_eq_false.
Qed.

Definition parsed (d : list str) (argc : nat) (ref : option (list opt * list str))
    (res : option (list (option str) * nat * list opt)) : Prop :=
  match ref with
  | None => res = None
  | Some (o, r) => exists junk, res = Some (layout (d ++ r) junk [], length (d ++ r), o) /\ (length (d ++ r) + length junk = argc)%nat
  end.

Lemma parsed_keep d a argc ref res : parsed (d ++ [a]) argc ref res -> parsed d argc (keep a ref) res.
Proof. destruct ref as [[o r]|]; cbn; [|done]. by rewrite <- (assoc_L (++)). Qed.

Lemma next_is_head d junk a rest argc : argc = (length d + length junk + S (length rest))%nat ->
  next_is (layout d junk (a :: rest)) (length d + length junk) argc (head rest).
Proof.
  intros ->. destruct rest as [|n rest]; cbn; [lia|]. split; [lia|].
  rewrite layout_skip. replace (length d + length junk + 1)%nat with (length d + length (junk ++ [Some a]))%nat by (rewrite length_app; cbn; lia).
  apply layout_read.
Qed.

Lemma parse_loop_run k : forall d junk rest opts argc,
  Forall no_nul rest -> (length rest <= k)%nat -> argc = (length d + length junk + length rest)%nat ->
  exists res, parse_loop k (length d + length junk) (length d) argc (layout d junk rest) opts = Ok res /\
    parsed d argc (ref_parse rest opts) res.
Proof.
  induction k as [|k IH]; intros d junk rest opts argc Hn Hk ->.
  { destruct rest; [|cbn in Hk; lia]. eexists. split; [done|]. exists junk. rewrite !app_nil_r. split; [done|]. cbn. lia. }
  cbn [parse_loop]. destruct rest as [|a rest].
  { rewrite Nat.add_0_r, Nat.leb_refl. eexists. split; [done|]. exists junk. rewrite !app_nil_r. done. }
  apply Forall_cons in Hn as [Ha Hn]. cbn [length] in *. set (argc := (length d + length junk + S (length rest))%nat).
  destruct (Nat.leb_spec argc (length d + length junk)); [unfold argc in *; lia|].
  assert (Hskip : forall o, exists res, parse_loop k (S (length d + length junk)) (length d) argc (layout d junk (a :: rest)) o = Ok res /\
    parsed d argc (ref_parse rest o) res).
  { intros o. rewrite layout_skip. destruct (IH d (junk ++ [Some a]) rest o argc) as (res & E & Hp); auto; [lia|unfold argc; rewrite length_app; cbn; lia|].
    rewrite length_app in E. cbn [length] in E. replace (length d + (length junk + 1))%nat with (S (length d + length junk)) in E by lia. eauto. }
  unfold arg_at. rewrite layout_read. cbn [mbind outcome_bind]. destruct a as [|c cs]; [apply Hskip|].
  destruct (arg_tests c cs Ha) as (-> & -> & ->). change (at_ (c :: cs) 0) with c. cbn [ref_parse].
  destruct (negb (c =? 45) || bool_decide (cs = [])).
  { destruct (layout_write d junk (c :: cs) rest) as (j' & Hj & ->).
    destruct (IH (d ++ [c :: cs]) j' rest opts argc) as (res & E & Hp); auto; [lia|unfold argc; rewrite length_app; cbn; lia|].
    rewrite length_app, Hj in E. cbn [length] in E. replace (length d + 1 + length junk)%nat with (S (length d + length junk)) in E by lia.
    replace (length d + 1)%nat with (S (length d)) in E by lia. exists res. split; [done|]. by apply parsed_keep. }
  destruct (bool_decide (cs = [45])).
  { rewrite layout_skip. destruct (copy_rest_run rest d (junk ++ [Some (c :: cs)])) as (j' & Hj & E).
    rewrite length_app in E, Hj. cbn [length] in E, Hj.
    replace (argc - (length d + length junk + 1))%nat with (length rest) by (unfold argc; lia).
    replace (length d + length junk + 1)%nat with (length d + (length junk + 1))%nat by lia. rewrite E.
    eexists. split; [done|]. exists j'. rewrite length_app. split; [done|]. unfold argc. lia. }
  pose proof (next_is_head d junk (c :: cs) rest argc eq_refl) as Hnext.
  rewrite (cluster_run _ _ _ _ (head rest)) by (rewrite ?slen_no_nul; done). cbn [mbind outcome_bind]. change (drop 1 (c :: cs)) with cs.
  destruct (letters cs opts (head rest)) as [[o b]|] eqn:El; [|eexists; split; done]. destruct b; [|apply Hskip].
  destruct rest as [|n rest]; [by apply letters_none in El|]. apply Forall_cons in Hn as [_ Hn].
  rewrite !layout_skip. destruct (IH d ((junk ++ [Some (c :: cs)]) ++ [Some n]) rest o argc) as (res & E & Hp); auto.
  { cbn in Hk. lia. } { unfold argc. rewrite !length_app. cbn. lia. }
  rewrite !length_app in E. cbn [length] in E.
  replace (length d + (length junk + 1 + 1))%nat with (S (length d + length junk + 1)) in E by lia. eauto.
Qed.

Definition stripped (d : list str) (argc : nat) (ref : option (list str)) (res : option (list (option str) * nat)) : Prop :=
  match ref with
  | None => res = None
  | Some r => exists junk, res = Some (layout (d ++ r) junk [], length (d ++ r)) /\ (length (d ++ r) + length junk = argc)%nat
  end.

Lemma stripped_keep d a argc ref res : stripped (d ++ [a]) argc ref res -> stripped d argc (cons a <$> ref) res.
Proof. destruct ref as [r|]; cbn; [|done]. by rewrite <- (assoc_L (++)). Qed.

Lemma strip_letters_none cs wa : strip_letters cs wa false <> Some true.
Proof. induction cs as [|c cs IH]; cbn; [done|]. destruct (contains_char wa c); [by destruct cs|done]. Qed.

Lemma strip_loop_run wa k : forall d junk rest argc,
  Forall no_nul rest -> (length rest <= k)%nat -> argc = (length d + length junk + length rest)%nat ->
  exists res, strip_loop k (length d + length junk) (length d) argc (layout d junk rest) wa = Ok res /\
    stripped d argc (ref_strip rest wa) res.
Proof.
  induction k as [|k IH]; intros d junk rest argc Hn Hk ->.
  { destruct rest; [|cbn in Hk; lia]. eexists. split; [done|]. exists junk. rewrite !app_nil_r. split; [done|]. cbn. lia. }
  cbn [strip_loop]. destruct rest as [|a rest].
  { rewrite Nat.add_0_r, Nat.leb_refl. eexists. split; [done|]. exists junk. rewrite !app_nil_r. done. }
  apply Forall_cons in Hn as [Ha Hn]. cbn [length] in *. set (argc := (length d + length junk + S (length rest))%nat).
  destruct (Nat.leb_spec argc (length d + length junk)); [unfold argc in *; lia|].
  assert (Hskip : exists res, strip_loop k (S (length d + length junk)) (length d) argc (layout d junk (a :: rest)) wa = Ok res /\
    stripped d argc (ref_strip rest wa) res).
  { rewrite layout_skip. destruct (IH d (junk ++ [Some a]) rest argc) as (res & E & Hp); auto; [lia|unfold argc; rewrite length_app; cbn; lia|].
    rewrite length_app in E. cbn [length] in E. replace (length d + (length junk + 1))%nat with (S (length d + length junk)) in E by lia. eauto. }
  rewrite layout_read. cbn [mjoin option_join]. destruct a as [|c cs]; [apply Hskip|].
  destruct (arg_tests c cs Ha) as (-> & -> & ->). change (at_ (c :: cs) 0) with c. cbn [ref_strip].
  destruct (negb (c =? 45) || bool_decide (cs = [])).
  { destruct (layout_write d junk (c :: cs) rest) as (j' & Hj & ->).
    destruct (IH (d ++ [c :: cs]) j' rest argc) as (res & E & Hp); auto; [lia|unfold argc; rewrite length_app; cbn; lia|].
    rewrite length_app, Hj in E. cbn [length] in E. replace (length d + 1 + length junk)%nat with (S (length d + length junk)) in E by lia.
    replace (length d + 1)%nat with (S (length d)) in E by lia. exists res. split; [done|]. by apply stripped_keep. }
  destruct (bool_decide (cs = [45])).
  { rewrite layout_skip. destruct (copy_rest_run rest d (junk ++ [Some (c :: cs)])) as (j' & Hj & E).
    rewrite length_app in E, Hj. cbn [length] in E, Hj.
    replace (argc - (length d + length junk + 1))%nat with (length rest) by (unfold argc; lia).
    replace (length d + length junk + 1)%nat with (length d + (length junk + 1))%nat by lia. rewrite E.
    eexists. split; [done|]. exists j'. rewrite length_app. split; [done|]. unfold argc. lia. }
  assert (Hm : negb (bool_decide (rest = [])) = negb (argc <=? length d + length junk + 1)%nat).
  { unfold argc. destruct rest; cbn [length]; [rewrite (proj2 (Nat.leb_le _ _)) by lia|rewrite (proj2 (Nat.leb_gt _ _)) by lia]; done. }
  rewrite (strip_cluster_run _ _ _ _ _ _ 1 Ha Hm) by (rewrite slen_no_nul; done).
  change (drop 1 (c :: cs)) with cs.
  destruct (strip_letters cs wa _) as [b|] eqn:El; [|eexists; split; done]. destruct b; [|apply Hskip].
  destruct rest as [|n rest]; [by apply strip_letters_none in El|]. apply Forall_cons in Hn as [_ Hn].
  rewrite !layout_skip. destruct (IH d ((junk ++ [Some (c :: cs)]) ++ [Some n]) rest argc) as (res & E & Hp); auto.
  { cbn in Hk. lia. } { unfold argc. rewrite !length_app. cbn. lia. }
  rewrite !length_app in E. cbn [length] in E.
  replace (length d + (length junk + 1 + 1))%nat with (S (length d + length junk + 1)) in E by lia. eauto.
Qed.

(** ** The two parsers agree *)

(** [wa] are the letters of the options with an argument. *)
Definition arg_letters (opts : list opt) (wa : list Z) : Prop :=
  forall c idx o, find_opt opts c = Some idx -> opts !! idx = Some o -> contains_char wa c = has_arg o.

Lemma find_opt_lookup opts c i idx : find_opt_from opts c i = Some idx -> (i <= idx)%nat /\ exists o, opts !! (idx - i)%nat = Some o.
Proof.
  revert i. induction opts as [|o opts IH]; intros i; cbn; [done|]. destruct (opt_ o =? c).
  - intros [= <-]. split; [done|]. exists o. by rewrite Nat.sub_diag.
  - intros [Hi [o' Ho]]%IH. split; [lia|]. exists o'. by replace (idx - i)%nat with (S (idx - S i)) by lia.
Qed.

(** [see] changes neither the letters nor which of them take an argument. *)
Lemma find_opt_alter f opts c i j : (forall o, opt_ (f o) = opt_ o) -> find_opt_from (alter f j opts) c i = find_opt_from opts c i.
Proof.
  intros Hf. revert i j. induction opts as [|o opts IH]; intros i j; [done|]. destruct j as [|j]; cbn.
  - by rewrite Hf.
  - by rewrite IH.
Qed.

Lemma arg_letters_alter opts wa f j : (forall o, opt_ (f o) = opt_ o /\ has_arg (f o) = has_arg o) ->
  arg_letters opts wa -> arg_letters (alter f j opts) wa.
Proof.
  intros Hf Ha c idx o. unfold find_opt. rewrite find_opt_alter by (intros; apply Hf). intros Hi Ho.
  rewrite list_lookup_alter in Ho. case_decide as E; [subst j|by eapply Ha].
  destruct (opts !! idx) as [o'|] eqn:E'; [|done]. injection Ho as <-. rewrite (Ha c idx o' Hi E'). symmetry. apply Hf.
Qed.

Lemma letters_strip cs wa next : forall opts o b,
  arg_letters opts wa -> letters cs opts next = Some (o, b) ->
  strip_letters cs wa (bool_decide (is_Some next)) = Some b /\ arg_letters o wa.
Proof.
  induction cs as [|c cs IH]; intros opts o b Ha; cbn [letters strip_letters]; [by intros [= <- <-]|].
  destruct (find_opt opts c) as [idx|] eqn:Ef; [|done].
  destruct (find_opt_lookup _ _ _ _ Ef) as (_ & o' & Ho). rewrite Nat.sub_0_r in Ho. rewrite (Ha c idx o' Ef Ho), Ho.
  change (default false (has_arg <$> Some o')) with (has_arg o'). destruct (has_arg o').
  - destruct cs as [|c' cs]; [|intros [= <- <-]; split; [done|]; by apply arg_letters_alter].
    destruct next as [n|]; [|done]. destruct (_ =? 45); [done|]. intros [= <- <-]. split; [done|]. by apply arg_letters_alter.
  - apply IH. by apply arg_letters_alter.
Qed.

Lemma ref_agree k args wa : forall opts o r, (length args <= k)%nat ->
  arg_letters opts wa -> ref_parse args opts = Some (o, r) -> ref_strip args wa = Some r.
Proof.
  revert args. induction k as [|k IH]; intros args opts o r Hk Ha.
  { destruct args; [|cbn in Hk; lia]. by intros [= _ <-]. }
  destruct args as [|[|c cs] rest]; cbn [length] in Hk; [by intros [= _ <-]|cbn [ref_parse ref_strip]; apply IH; [lia|done]|]. cbn [ref_parse ref_strip].
  destruct (negb (c =? 45) || _).
  { destruct (ref_parse rest opts) as [[o' r']|] eqn:E; cbn; [|done]. intros [= <- <-].
    by rewrite (IH rest opts o' r' ltac:(lia) Ha E). }
  destruct (bool_decide (cs = [45])); [by intros [= _ <-]|].
  destruct (letters cs opts (head rest)) as [[o' b]|] eqn:El; [|done].
  destruct (letters_strip _ _ _ _ _ _ Ha El) as [Hs Ha'].
  replace (negb (bool_decide (rest = []))) with (bool_decide (is_Some (head rest))).
  2: { by destruct rest. }
  rewrite Hs. destruct b, rest as [|n rest]; intros E; eapply IH; eauto; cbn in *; lia.
Qed.

(** ** [parse_flags] and [strip_flags] *)

Lemma null_from_run k : forall l j, (j + k <= length l)%nat -> null_from k j l = take j l ++ replicate k None ++ drop (j + k) l.
Proof.
  induction k as [|k IH]; intros l j Hl; cbn [null_from replicate].
  { rewrite Nat.add_0_r. cbn. by rewrite take_drop. }
  rewrite IH by (rewrite length_insert; lia). rewrite drop_insert_lt by lia.
  rewrite (take_S_r _ _ None) by (apply list_lookup_insert_eq; lia).
  rewrite take_insert_ge by lia. rewrite <- (assoc_L (++)). by replace (S j + k)%nat with (j + S k)%nat by lia.
Qed.

Lemma layout_null d junk : 
  null_from (length junk) (length d) (<[length d := None]> (layout d junk [])) = map Some d ++ replicate (S (length junk)) None.
Proof.
  assert (Hlen : length (<[length d := None]> (layout d junk [])) = (length d + length junk + 1)%nat).
  { rewrite length_insert, layout_length. cbn. lia. }
  rewrite null_from_run by lia. rewrite take_insert_ge by lia. unfold layout at 1. rewrite take_app_length' by (by rewrite length_map).
  f_equal. replace (S (length junk)) with (length junk + 1)%nat by lia. rewrite replicate_add. f_equal.
  unfold layout. cbn [map app]. rewrite (assoc_L (++)).
  destruct junk as [|x junk].
  - rewrite app_nil_r. rewrite insert_app_r_alt by (rewrite length_map; lia). rewrite length_map, Nat.sub_diag. cbn.
    by rewrite Nat.add_0_r, drop_app_length' by (by rewrite length_map).
  - cbn [length]. rewrite drop_insert_lt by lia. apply drop_app_length'. rewrite length_app, length_map. done.
Qed.

Lemma start_layout prog args : map Some (prog :: args) ++ [None] = layout [prog] [] args.
Proof. done. Qed.

(** C22: the option parsers of the user library.  [parse_flags], which
    compacts [argv] in place, computes the reference on the list of
    arguments: it fails exactly when the reference does (an unknown letter, a
    missing argument), and otherwise leaves the program name and the
    remaining arguments in order, null pointers after them, and the options
    as the reference sets them.  [strip_flags], told which letters take an
    argument, leaves the same arguments whenever [parse_flags] succeeds. *)
Theorem flags_reference prog args opts :
  Forall no_nul args ->
  let argc := S (length args) in
  let argv := map Some (prog :: args) ++ [None] in
  parse_flags argc argv opts =
    Ok (match ref_parse args (map unsee opts) with
        | None => None
        | Some (o, r) => Some (S (length r), map Some (prog :: r) ++ replicate (S argc - S (length r)) None, o)
        end) /\
  forall wa n argv' o, arg_letters (map unsee opts) wa -> parse_flags argc argv opts = Ok (Some (n, argv', o)) ->
    exists argv'', strip_flags argc argv wa = Ok (Some (n, argv'')) /\ take (S n) argv'' = take (S n) argv'.
Proof.
  intros Hn argc argv.
  assert (Hparse : parse_flags argc argv opts =
    Ok (match ref_parse args (map unsee opts) with
        | None => None
        | Some (o, r) => Some (S (length r), map Some (prog :: r) ++ replicate (S argc - S (length r)) None, o)
        end)).
  { unfold parse_flags, argv. rewrite start_layout.
    destruct (parse_loop_run argc [prog] [] args (map unsee opts) argc Hn) as (res & E & Hp); [unfold argc; lia|done|].
    cbn [length Nat.add] in E. rewrite E. cbn [mbind outcome_bind]. unfold parsed in Hp.
    destruct (ref_parse args (map unsee opts)) as [[o r]|]; [|by rewrite Hp].
    destruct Hp as (junk & -> & Hl). replace (argc - length ([prog] ++ r))%nat with (length junk) by lia.
    rewrite layout_null. cbn [app length map] in *. by replace (S argc - S (length r))%nat with (S (length junk)) by lia. }
  split; [exact Hparse|]. intros wa n argv' o Hwa. rewrite Hparse.
  destruct (ref_parse args (map unsee opts)) as [[o' r]|] eqn:E; [|done]. intros [= <- <- <-].
  pose proof (ref_agree _ _ _ _ _ _ (Nat.le_refl _) Hwa E) as Hs. unfold strip_flags, argv. rewrite start_layout.
  destruct (strip_loop_run wa argc [prog] [] args argc Hn) as (res & E' & Hp); [unfold argc; lia|done|].
  cbn [length Nat.add] in E'. rewrite E'. cbn [mbind outcome_bind]. rewrite Hs in Hp. destruct Hp as (junk & -> & Hl).
  eexists. split; [done|]. change ([prog] ++ r) with (prog :: r) in *.
  transitivity (map Some (prog :: r) ++ [None]).
  - change (S (length r)) with (length (prog :: r)).
    rewrite (take_S_r _ _ None) by (apply list_lookup_insert_eq; rewrite layout_length; lia).
    rewrite take_insert_ge by lia. unfold layout. by rewrite take_app_length' by (by rewrite length_map).
  - symmetry. replace (argc - length r)%nat with (S (length junk)) by (cbn [length] in *; lia).
    replace (Some prog :: map Some r ++ replicate (S (length junk)) None)
      with ((map Some (prog :: r) ++ [None]) ++ replicate (length junk) None) by (by rewrite <- (assoc_L (++))).
    apply take_app_length'. rewrite length_app, length_map. cbn. lia.
Qed.

(** [tail -n 5 -f -- -x]. *)
Lemma flags_reference_witness :
  let opts := [Opt 110 true false None; Opt 102 false false None] in
  let args := [[45; 110]; [53]; [45; 102]; [45; 45]; [45; 120]] in
  parse_flags 6 (map Some ([116] :: args) ++ [None]) opts =
    Ok (Some (2%nat, [Some [116]; Some [45; 120]; None; None; None; None; None],
              [Opt 110 true true (Some [53]); Opt 102 false true None])) /\
  exists argv, strip_flags 6 (map Some ([116] :: args) ++ [None]) [110] = Ok (Some (2%nat, argv)) /\
    take 3 argv = [Some [116]; Some [45; 120]; None].
Proof.
  intros opts args. assert (Hn : Forall no_nul args) by (repeat constructor; lia).
  destruct (flags_reference [116] args opts Hn) as [H1 H2].
  assert (E : parse_flags 6 (map Some ([116] :: args) ++ [None]) opts =
    Ok (Some (2%nat, [Some [116]; Some [45; 120]; None; None; None; None; None],
              [Opt 110 true true (Some [53]); Opt 102 false true None]))) by (etransitivity; [exact H1|vm_compute; reflexivity]).
  split; [exact E|]. refine (H2 [110] 2%nat _ _ _ E).
  intros c idx o Hi Ho. unfold opts, find_opt in Hi. cbn [map unsee find_opt_from opt_] in Hi. change (contains_char [110] c) with (if 110 =? c then true else false).
  destruct (110 =? c).
  - injection Hi as <-. injection Ho as <-. reflexivity.
  - destruct (102 =? c); [|discriminate Hi]. injection Hi as <-. injection Ho as <-. reflexivity.
Defined.
