(* ===== verification/Printf.v ===== *)
(** * kernel/printf.c: formatted output

    A call prints the bytes that it passes to [consputc]; Uprintf.v has the
    user library's functions, which share the definitions of this file.  The arguments after the format are words of 64 bits or
    strings; storing past the end of a local buffer, or reading an argument
    that was not passed, is [Panic] in the model. *)
From S2P Require Import Prelude Cstring Ulib.

Inductive varg := Word (w : Z) | Str (s : option (list Z)).

(** [va_arg] with the types that the code uses. *)
Definition va_int (ap : list varg) : outcome (Z * list varg) :=
  match ap with Word w :: ap => Ok (s32 w, ap) | _ => Panic "va_arg" end.
Definition va_uint64 (ap : list varg) : outcome (Z * list varg) :=
  match ap with Word w :: ap => Ok (u64 w, ap) | _ => Panic "va_arg" end.
Definition va_str (ap : list varg) : outcome (option (list Z) * list varg) :=
  match ap with Str s :: ap => Ok (s, ap) | _ => Panic "va_arg" end.

(** [long long] and [char buf[16]]. *)
Definition s64 (x : Z) : Z := (x + 9223372036854775808) mod 18446744073709551616 - 9223372036854775808.
Definition BUF : nat := 16.
Definition push (c : Z) (buf : list Z) : outcome (list Z) :=
  if (length buf <? BUF)%nat then Ok (c :: buf) else Panic "buf[16]".

Definition null_str : list Z := [40; 110; 117; 108; 108; 41].

(** [buf] holds the digits from the last stored to the first, which is the
    order in which they are printed. *)
Fixpoint digit_loop (fuel : nat) (digits : list Z) (x base : Z) (buf : list Z) : outcome (list Z) :=
  match fuel with
  | O => NoFuel
  | S f =>
      buf ← push (at_ digits (Z.to_nat (x mod base))) buf;
      let x := x / base in
      if negb (x =? 0) then digit_loop f digits x base buf else Ok buf
  end.

Fixpoint ptr_loop (k : nat) (digits : list Z) (x : Z) : list Z :=
  match k with
  | O => []
  | S k' => at_ digits (Z.to_nat (Z.shiftr x 60)) :: ptr_loop k' digits (u64 (Z.shiftl x 4))
  end.

Module Kprintf.

Definition digits : list Z := [48; 49; 50; 51; 52; 53; 54; 55; 56; 57; 97; 98; 99; 100; 101; 102].

Definition printint (xx base : Z) (sign : bool) : outcome (list Z) :=
  let neg := sign && (xx <? 0) in
  let x := if neg then u64 (- xx) else u64 xx in
  buf ← digit_loop 64 digits x base [];
  if neg then push 45 buf else Ok buf.

Definition printptr (x : Z) : list Z := [48; 120] ++ ptr_loop 16 digits x.

(** One directive after [%]: the bytes printed, the arguments left and how
    many more characters of the format were used. *)
Definition directive (c0 c1 c2 : Z) (ap : list varg) : outcome (list Z * list varg * nat) :=
  let int_ base sign n := '(x, ap) ← va_int ap; o ← printint x base sign; Ok (o, ap, n) in
  let long base sign n := '(x, ap) ← va_uint64 ap; o ← printint (s64 x) base sign; Ok (o, ap, n) in
  if c0 =? 100 then int_ 10 true 0%nat
  else if (c0 =? 108) && (c1 =? 100) then long 10 true 1%nat
  else if (c0 =? 108) && (c1 =? 108) && (c2 =? 100) then long 10 true 2%nat
  else if c0 =? 117 then int_ 10 false 0%nat
  else if (c0 =? 108) && (c1 =? 117) then long 10 false 1%nat
  else if (c0 =? 108) && (c1 =? 108) && (c2 =? 117) then long 10 false 2%nat
  else if c0 =? 120 then int_ 16 false 0%nat
  else if (c0 =? 108) && (c1 =? 120) then long 16 false 1%nat
  else if (c0 =? 108) && (c1 =? 108) && (c2 =? 120) then long 16 false 2%nat
  else if c0 =? 112 then '(x, ap) ← va_uint64 ap; Ok (printptr x, ap, 0%nat)
  else if c0 =? 115 then '(s, ap) ← va_str ap; Ok (cstr (default null_str s), ap, 0%nat)
  else if c0 =? 37 then Ok ([37], ap, 0%nat)
  else Ok ([37; c0], ap, 0%nat).

Fixpoint printf_loop (fuel : nat) (fmt : list Z) (i : nat) (ap : list varg) (out : list Z) : outcome (list Z) :=
  match fuel with
  | O => NoFuel
  | S f =>
      let cx := at_ fmt i in
      if cx =? 0 then Ok out
      else if negb (cx =? 37) then printf_loop f fmt (i + 1) ap (out ++ [cx])
      else
        let i := (i + 1)%nat in
        let c0 := at_ fmt i in
        let c1 := if negb (c0 =? 0) then at_ fmt (i + 1) else 0 in
        let c2 := if negb (c1 =? 0) then at_ fmt (i + 2) else 0 in
        if c0 =? 0 then Ok out
        else
          '(o, ap, n) ← directive c0 c1 c2 ap;
          printf_loop f fmt (i + n + 1) ap (out ++ o)
  end.

Definition printf (fmt : list Z) (ap : list varg) : outcome (list Z) := printf_loop (S (length fmt)) fmt 0 ap [].

End Kprintf.
