(* ===== verification/Uprintf.v ===== *)
(** * user/printf.c: formatted output of the user programs

    A call prints the bytes that it passes to [putc]. *)
From S2P Require Import Prelude Cstring Ulib Printf.

Module Uprintf.

Definition digits : list Z := [48; 49; 50; 51; 52; 53; 54; 55; 56; 57; 65; 66; 67; 68; 69; 70].

Definition printint (xx base : Z) (sgn : bool) : outcome (list Z) :=
  let neg := sgn && (xx <? 0) in
  let x := if neg then u32 (- xx) else u32 xx in
  buf ← digit_loop 32 digits x base [];
  if neg then push 45 buf else Ok buf.

Definition printptr (x : Z) : list Z := [48; 120] ++ ptr_loop 16 digits x.

(** The [uint64] arguments are converted to the [int] parameter of
    [printint]. *)
Definition directive (c0 c1 c2 : Z) (ap : list varg) : outcome (list Z * list varg * nat) :=
  let int_ base sign n := '(x, ap) ← va_int ap; o ← printint x base sign; Ok (o, ap, n) in
  let long base sign n := '(x, ap) ← va_uint64 ap; o ← printint (s32 x) base sign; Ok (o, ap, n) in
  if c0 =? 100 then int_ 10 true 0%nat
  else if (c0 =? 108) && (c1 =? 100) then long 10 true 1%nat
  else if (c0 =? 108) && (c1 =? 108) && (c2 =? 100) then long 10 true 2%nat
  else if c0 =? 117 then int_ 10 false 0%nat
  else if (c0 =? 108) && (c1 =? 117) then long 10 false 1%nat
  else if (c0 =? 108) && (c1 =? 108) && (c2 =? 117) then long 10 false 2%nat
  else if c0 =? 120 then int_ 16 false 0%nat
  else if (c0 =? 108) && (c1 =? 120) then long 16 false 1%nat
  else if (c0 =? 108) && (c1 =? 108) && (c2 =? 120) then long 16 false 2%nat
  else if c0 =? 112 then '(x, ap) ← va_uint64 ap; Ok (printptr x, ap, 0%nat)
  else if c0 =? 115 then '(s, ap) ← va_str ap; Ok (cstr (default null_str s), ap, 0%nat)
  else if c0 =? 37 then Ok ([37], ap, 0%nat)
  else Ok ([37; c0], ap, 0%nat).

(** [state] is 0 or [%]. *)
Fixpoint vprintf_loop (fuel : nat) (fmt : list Z) (i : nat) (state : Z) (ap : list varg) (out : list Z) : outcome (list Z) :=
  match fuel with
  | O => NoFuel
  | S f =>
      let c0 := at_ fmt i in
      if c0 =? 0 then Ok out
      else if state =? 0 then
        if c0 =? 37 then vprintf_loop f fmt (i + 1) 37 ap out
        else vprintf_loop f fmt (i + 1) 0 ap (out ++ [c0])
      else if state =? 37 then
        let c1 := if negb (c0 =? 0) then at_ fmt (i + 1) else 0 in
        let c2 := if negb (c1 =? 0) then at_ fmt (i + 2) else 0 in
        '(o, ap, n) ← directive c0 c1 c2 ap;
        vprintf_loop f fmt (i + n + 1) 0 ap (out ++ o)
      else vprintf_loop f fmt (i + 1) state ap out
  end.

Definition vprintf (fmt : list Z) (ap : list varg) : outcome (list Z) := vprintf_loop (S (length fmt)) fmt 0 0 ap [].

End Uprintf.
