(* ===== verification/PrintfTheory.v ===== *)
(** * Numerals and formats: the theorems on printf *)
From S2P Require Import Prelude Cstring Ulib UlibFlags Printf Uprintf.

(** ** Numerals *)

Definition value (base : Z) (ds : list Z) : Z := fold_left (fun a d => a * base + d) ds 0.

(** The digits of [x], most significant first, without leading zeros. *)
Record numeral (base : Z) (ds : list Z) (x : Z) : Prop := {
  nm_digits : Forall (fun d => 0 <= d < base) ds;
  nm_value : value base ds = x;
  nm_lead : ds = [0] \/ 0 < hd 0 ds
}.

Lemma value_snoc base ds d : value base (ds ++ [d]) = value base ds * base + d.
Proof. unfold value. by rewrite fold_left_app. Qed.

Lemma fold_value base ds a : fold_left (fun a d => a * base + d) ds a = a * base ^ Z.of_nat (length ds) + value base ds.
Proof.
  revert a. induction ds as [|d ds IH] using rev_ind; intros a; [unfold value; cbn; lia|].
  rewrite value_snoc, fold_left_app, IH, length_app. cbn [fold_left length]. rewrite Nat2Z.inj_add, Z.pow_add_r by lia. cbn. lia.
Qed.

Lemma value_cons base d ds : value base (d :: ds) = d * base ^ Z.of_nat (length ds) + value base ds.
Proof. unfold value at 1. cbn [fold_left]. by rewrite fold_value. Qed.

Lemma value_nonneg base ds : 0 <= base -> Forall (fun d => 0 <= d < base) ds -> 0 <= value base ds.
Proof.
  intros Hb H. induction H as [|d ds Hd _ IH]; [done|]. rewrite value_cons. pose proof (Z.pow_nonneg base (Z.of_nat (length ds)) Hb). nia.
Qed.

Lemma value_bound base ds : 1 <= base -> Forall (fun d => 0 <= d < base) ds -> value base ds < base ^ Z.of_nat (length ds).
Proof.
  intros Hb H. induction H as [|d ds Hd _ IH]; [cbn; lia|]. rewrite value_cons. cbn [length]. rewrite Nat2Z.inj_succ, Z.pow_succ_r by lia. nia.
Qed.

(** A numeral has as many digits as it must. *)
Lemma numeral_length base ds x k : 2 <= base -> numeral base ds x -> 0 <= x < base ^ Z.of_nat k -> (1 <= k)%nat -> (1 <= length ds <= k)%nat.
Proof.
  intros Hb [Hd Hv Hl] Hx Hk. destruct ds as [|d ds]; [destruct Hl; [done|cbn in *; lia]|]. cbn [length].
  split; [lia|]. destruct Hl as [[= -> ->]|Hl]; [cbn; lia|]. cbn in Hl. rewrite value_cons in Hv.
  apply Forall_cons in Hd as [_ Hd]. pose proof (value_nonneg base ds ltac:(lia) Hd).
  destruct (decide (S (length ds) <= k)%nat) as [|Hn]; [done|].
  assert (base ^ Z.of_nat k <= base ^ Z.of_nat (length ds)) by (apply Z.pow_le_mono_r; lia). nia.
Qed.

Lemma digit_loop_run digits base f : forall x buf,
  2 <= base -> 0 <= x < base ^ Z.of_nat f -> (1 <= f)%nat ->
  exists ds, numeral base ds x /\
    digit_loop f digits x base buf =
      if (length buf + length ds <=? BUF)%nat then Ok (map (fun d => at_ digits (Z.to_nat d)) ds ++ buf) else Panic "buf[16]".
Proof.
  induction f as [|f IH]; intros x buf Hb Hx Hf; [lia|]. cbn [digit_loop]. unfold push.
  destruct (x / base =? 0) eqn:E; bool_to_prop; cbn [negb].
  - assert (Hx' : 0 <= x < base) by (split; [lia|]; apply Z.div_small_iff in E; lia).
    rewrite Z.mod_small by lia. exists [x]. split.
    + split; [by apply Forall_singleton|unfold value; cbn; lia|]. destruct (decide (x = 0)) as [->|]; [by left|right; cbn; lia].
    + cbn [length]. destruct (Nat.ltb_spec (length buf) BUF); [rewrite (proj2 (Nat.leb_le _ _)) by lia|rewrite (proj2 (Nat.leb_gt _ _)) by lia]; done.
  - assert (Hq : 0 < x / base) by (pose proof (Z.div_pos x base); lia).
    assert (Hq2 : x / base < base ^ Z.of_nat f).
    { apply Z.div_lt_upper_bound; [lia|]. rewrite <- Z.pow_succ_r by lia. rewrite <- Nat2Z.inj_succ. apply Hx. }
    assert (Hf1 : (1 <= f)%nat) by (destruct f; [cbn in Hq2; lia|lia]).
    destruct (IH (x / base) (at_ digits (Z.to_nat (x mod base)) :: buf) Hb ltac:(lia) Hf1) as (ds & [N1 N2 N3] & Er).
    pose proof (Z.mod_pos_bound x base ltac:(lia)). exists (ds ++ [x mod base]). split.
    + split; [apply Forall_app; split; [done|by apply Forall_singleton]|rewrite value_snoc, N2; pose proof (Z.div_mod x base); lia|].
      right. destruct N3 as [->|N3]; [unfold value in N2; cbn in N2; lia|]. destruct ds; [cbn in N3; lia|done].
    + rewrite length_app. cbn [length] in *. destruct (Nat.ltb_spec (length buf) BUF) as [Hl|Hl]; cbn [mbind outcome_bind].
      * rewrite Er, map_app, <- (assoc_L (++)). by replace (S (length buf) + length ds)%nat with (length buf + (length ds + 1))%nat by lia.
      * by rewrite (proj2 (Nat.leb_gt _ _)) by lia.
Qed.

(** The sign goes last into the buffer and first to the output. *)
Lemma push_sign (neg : bool) (ds : list Z) (f : Z -> Z) :
  (buf ← (if (length ds <=? BUF)%nat then Ok (map f ds) else Panic "buf[16]"); if neg then push 45 buf else Ok buf) =
  let out := (if neg then [45] else []) ++ map f ds in
  if (length out <=? BUF)%nat then Ok out else Panic "buf[16]".
Proof.
  cbn zeta. rewrite length_app, length_map. destruct neg; cbn [length Nat.add app]; [|by destruct (length ds <=? BUF)%nat].
  destruct (Nat.leb_spec (length ds) BUF); cbn [mbind outcome_bind]; [|by rewrite (proj2 (Nat.leb_gt _ _)) by lia].
  unfold push. rewrite length_map.
  destruct (Nat.ltb_spec (length ds) BUF); [rewrite (proj2 (Nat.leb_le _ _)) by lia|rewrite (proj2 (Nat.leb_gt _ _)) by lia]; done.
Qed.

(** ** The kernel's integers *)

(** C23: the kernel's [printint].  In base 10 or 16, signed or unsigned, it
    prints the sign and the digits of the number, most significant first and
    without leading zeros, when they fit in its buffer of 16 bytes; when they
    do not, it stores past the end of the buffer.  This happens for every
    number of more than 16 characters, which [long] arguments can have, and
    also for [%u] with an argument of 2147483648 or more, because the [int]
    is extended with its sign to 64 bits. *)
Theorem printint_buffer xx base sign :
  base = 10 \/ base = 16 -> -9223372036854775808 <= xx < 9223372036854775808 ->
  let neg := sign && (xx <? 0) in
  exists ds, numeral base ds (if neg then - xx else u64 xx) /\
    let out := (if neg then [45] else []) ++ map (fun d => at_ Kprintf.digits (Z.to_nat d)) ds in
    (Kprintf.printint xx base sign = if (length out <=? BUF)%nat then Ok out else Panic "buf[16]") /\
    (base = 10 -> sign = false -> xx < 0 -> Kprintf.printint xx base sign = Panic "buf[16]").
Proof.
  intros Hb Hx neg. unfold Kprintf.printint. fold neg.
  assert (Hu : 0 <= (if neg then u64 (- xx) else u64 xx) < 18446744073709551616) by (destruct neg; apply u64_range).
  assert (En : (if neg then u64 (- xx) else u64 xx) = if neg then - xx else u64 xx).
  { destruct neg eqn:E; [|done]. unfold neg in E. bool_to_prop. rewrite u64_id by lia. done. }
  destruct (digit_loop_run Kprintf.digits base 64 (if neg then u64 (- xx) else u64 xx) []) as (ds & Hn & E); [lia| |lia|].
  { split; [lia|]. change (Z.of_nat 64) with 64. destruct Hb as [-> | ->]; [|]; lia. }
  rewrite En in Hn. exists ds. split; [done|]. cbn zeta. rewrite E. cbn [length Nat.add]. rewrite app_nil_r.
  rewrite push_sign.
  split; [done|]. intros -> -> Hneg. unfold neg in *. cbn [andb] in *.
  rewrite length_app, length_map. cbn [length Nat.add].
  assert (Hbig : 18446744073709551616 - 9223372036854775808 <= u64 xx) by (unfold u64; zlia).
  assert (17 <= length ds)%nat; [|by rewrite (proj2 (Nat.leb_gt _ _)) by (unfold BUF; lia)].
  destruct (decide (length ds <= 16)%nat) as [Hl|]; [|lia]. exfalso.
  destruct Hn as [N1 N2 _]. 
  pose proof (value_bound 10 ds ltac:(lia) N1). assert (10 ^ Z.of_nat (length ds) <= 10 ^ 16) by (apply Z.pow_le_mono_r; lia). lia.
Qed.

(** [printf("%u", 3000000000)] in the kernel. *)
Lemma printint_buffer_witness : Kprintf.printint (s32 3000000000) 10 false = Panic "buf[16]".
Proof.
  destruct (printint_buffer (s32 3000000000) 10 false) as (ds & _ & _ & H); [by left|by vm_compute|].
  by apply H.
Defined.

(** ** The user's integers *)

Definition dec (d : Z) : Z := at_ Uprintf.digits (Z.to_nat d).

Lemma dec_digit d : 0 <= d < 10 -> dec d = 48 + d.
Proof.
  intros Hd. assert (d = 0 \/ d = 1 \/ d = 2 \/ d = 3 \/ d = 4 \/ d = 5 \/ d = 6 \/ d = 7 \/ d = 8 \/ d = 9) as Hc by lia.
  repeat destruct Hc as [->|Hc]; [..|subst d]; reflexivity.
Qed.

Lemma s32_step a d : s32 (s32 a * 10 + (48 + d) - 48) = s32 (a * 10 + d).
Proof. unfold s32. zlia. Qed.

Lemma atoi_digits ds : forall a, Forall (fun d => 0 <= d < 10) ds ->
  Ulib.atoi_loop (map dec ds) (s32 a) = s32 (fold_left (fun a d => a * 10 + d) ds a).
Proof.
  induction ds as [|d ds IH]; intros a Hd; [done|]. apply Forall_cons in Hd as [Hd Hds]. cbn [map Ulib.atoi_loop fold_left].
  rewrite dec_digit by done. unfold Ulib.is_digit. ztest. rewrite s32_step. by apply IH.
Qed.

(** Printing an [int] and reading it back.  For every 32-bit number the
    user library's [printint] in base 10 returns at most 11 characters,
    without overflowing its buffer, and [atoi] of them is the number. *)
Theorem printint_atoi xx :
  -2147483648 <= xx < 2147483648 ->
  exists out, Uprintf.printint xx 10 true = Ok out /\ (length out <= 11)%nat /\ Ulib.atoi out = xx.
Proof.
  intros Hx. unfold Uprintf.printint. cbn [andb]. set (neg := xx <? 0).
  assert (En : (if neg then u32 (- xx) else u32 xx) = Z.abs xx).
  { unfold neg. destruct (xx <? 0) eqn:E; bool_to_prop; rewrite u32_id; lia. }
  rewrite En. destruct (digit_loop_run Uprintf.digits 10 32 (Z.abs xx) []) as (ds & Hn & ->); [lia|lia|lia|].
  rewrite app_nil_r. cbn [length Nat.add]. rewrite push_sign. cbn zeta.
  pose proof (numeral_length 10 ds (Z.abs xx) 10 ltac:(lia) Hn ltac:(lia) ltac:(lia)) as Hl.
  assert (Hlen : (length ((if neg then [45%Z] else []) ++ map (fun d => at_ Uprintf.digits (Z.to_nat d)) ds) <= 11)%nat).
  { rewrite length_app, length_map. destruct neg; cbn; lia. }
  rewrite (proj2 (Nat.leb_le _ _)) by (unfold BUF; lia). eexists. split; [done|]. split; [done|].
  change (map (fun d => at_ Uprintf.digits (Z.to_nat d)) ds) with (map dec ds).
  destruct Hn as [N1 N2 N3]. assert (Hat : Ulib.atoi (map dec ds) = s32 (Z.abs xx)).
  { rewrite <- N2. unfold value. rewrite <- (atoi_digits ds 0 N1). destruct ds as [|d ds]; [cbn in Hl; lia|]. cbn [map Ulib.atoi].
    apply Forall_cons in N1 as [Hd _]. rewrite (dec_digit d Hd). by rewrite (proj2 (Z.eqb_neq (48 + d) 45)) by lia. }
  unfold neg. destruct (xx <? 0) eqn:E; bool_to_prop; cbn [app].
  - cbn [Ulib.atoi Z.eqb Pos.eqb]. rewrite Hat. unfold s32. zlia.
  - rewrite Hat, Z.abs_eq, s32_id by lia. done.
Qed.

Lemma printint_atoi_witness : exists out, Uprintf.printint (-2147483648) 10 true = Ok out /\ Ulib.atoi out = -2147483648.
Proof. destruct (printint_atoi (-2147483648)) as (out & H1 & _ & H2); [lia|]. exists out. split; assumption. Defined.

(** ** Formats *)

(** Every directive is one for which the two functions print the same. *)
Fixpoint simple (fmt : list Z) : bool :=
  match fmt with
  | [] => true
  | c :: r =>
      if c =? 37 then
        match r with
        | [] => true
        | c0 :: r' => negb ((c0 =? 108) || (c0 =? 117) || (c0 =? 120) || (c0 =? 112)) && simple r'
        end
      else simple r
  end.

Lemma digits_agree d : 0 <= d < 10 -> at_ Kprintf.digits (Z.to_nat d) = at_ Uprintf.digits (Z.to_nat d).
Proof.
  intros Hd. assert (d = 0 \/ d = 1 \/ d = 2 \/ d = 3 \/ d = 4 \/ d = 5 \/ d = 6 \/ d = 7 \/ d = 8 \/ d = 9) as Hc by lia.
  repeat destruct Hc as [->|Hc]; [..|subst d]; reflexivity.
Qed.

Lemma digit_loop_agree f : forall g x buf, (f <= g)%nat -> 0 <= x < 10 ^ Z.of_nat f -> (1 <= f)%nat ->
  digit_loop g Kprintf.digits x 10 buf = digit_loop f Uprintf.digits x 10 buf.
Proof.
  induction f as [|f IH]; intros g x buf Hg Hx Hf; [lia|]. destruct g as [|g]; [lia|]. cbn [digit_loop].
  rewrite digits_agree by (apply Z.mod_pos_bound; lia). destruct (push _ buf) as [b| | |]; cbn [mbind outcome_bind]; try done.
  destruct (x / 10 =? 0) eqn:E; cbn [negb]; [done|]. bool_to_prop.
  assert (x / 10 < 10 ^ Z.of_nat f) by (apply Z.div_lt_upper_bound; [lia|]; rewrite <- Z.pow_succ_r, <- Nat2Z.inj_succ by lia; apply Hx).
  apply IH; [lia|split; [apply Z.div_pos; lia|done]|]. destruct f; [|lia]. cbn in *. assert (0 <= x / 10) by (apply Z.div_pos; lia). lia.
Qed.

Lemma printint_agree x : -2147483648 <= x < 2147483648 -> Kprintf.printint x 10 true = Uprintf.printint x 10 true.
Proof.
  intros Hx. unfold Kprintf.printint, Uprintf.printint. cbn [andb]. destruct (x <? 0) eqn:E; bool_to_prop.
  - rewrite u64_id, u32_id by lia. rewrite (digit_loop_agree 32); [done|lia|lia|lia].
  - rewrite u64_id, u32_id by lia. rewrite (digit_loop_agree 32); [done|lia|lia|lia].
Qed.

Lemma printint_fuel x : -2147483648 <= x < 2147483648 -> Uprintf.printint x 10 true <> NoFuel.
Proof.
  intros Hx. unfold Uprintf.printint. cbn [andb].
  set (v := if x <? 0 then u32 (- x) else u32 x). assert (Hv : 0 <= v < 4294967296) by (unfold v; destruct (x <? 0); apply u32_range).
  destruct (digit_loop_run Uprintf.digits 10 32 v []) as (ds & _ & ->); [lia|lia|lia|].
  destruct (_ <=? _)%nat; cbn; [|done]. destruct (x <? 0); [|done]. unfold push. by destruct (_ <? _)%nat.
Qed.

Lemma directive_agree c0 c1 c2 ap : negb ((c0 =? 108) || (c0 =? 117) || (c0 =? 120) || (c0 =? 112)) = true ->
  Kprintf.directive c0 c1 c2 ap = Uprintf.directive c0 c1 c2 ap /\
  Kprintf.directive c0 c1 c2 ap <> NoFuel /\ forall r, Kprintf.directive c0 c1 c2 ap = Ok r -> snd r = 0%nat.
Proof.
  intros H. apply negb_true_iff in H. rewrite !orb_false_iff in H. destruct H as [[[H1 H2] H3] H4].
  unfold Kprintf.directive, Uprintf.directive. rewrite H1, H2, H3, H4. cbn [andb].
  destruct (c0 =? 100).
  - destruct ap as [|[w|s] ap]; cbn [va_int mbind outcome_bind]; try done. rewrite printint_agree by apply s32_range.
    pose proof (printint_fuel (s32 w) (s32_range w)). destruct (Uprintf.printint _ _ _); cbn [mbind outcome_bind]; try done. split_and!; try done. by intros r [= <-].
  - destruct (c0 =? 115); [destruct ap as [|[w|s] ap]; cbn; split_and!; try done; by intros r [= <-]|].
    destruct (c0 =? 37); split_and!; try done; by intros r [= <-].
Qed.

Lemma simple_at fmt i : simple (drop i fmt) = true -> no_nul fmt -> at_ fmt i = 37 -> at_ fmt (i + 1) <> 0 ->
  negb ((at_ fmt (i + 1) =? 108) || (at_ fmt (i + 1) =? 117) || (at_ fmt (i + 1) =? 120) || (at_ fmt (i + 1) =? 112)) = true /\
  simple (drop (i + 1 + 0 + 1) fmt) = true.
Proof.
  intros Hs Hn. unfold at_. destruct (fmt !! i) as [c|] eqn:E; [|done]. destruct (fmt !! (i + 1)%nat) as [c0|] eqn:E0; [|done]. cbn.
  intros -> Hne. rewrite (drop_S _ _ _ E) in Hs. replace (i + 1)%nat with (S i) in E0 by lia. rewrite (drop_S _ _ _ E0) in Hs.
  cbn in Hs. apply andb_true_iff in Hs as [H1 H2]. split; [done|]. by replace (i + 1 + 0 + 1)%nat with (S (S i)) by lia.
Qed.

Lemma simple_step fmt i : simple (drop i fmt) = true -> at_ fmt i <> 0 -> at_ fmt i <> 37 -> simple (drop (i + 1) fmt) = true.
Proof.
  intros Hs. unfold at_. destruct (fmt !! i) as [c|] eqn:E; [|done]. cbn. intros _ Hc. rewrite (drop_S _ _ _ E) in Hs.
  cbn in Hs. rewrite (proj2 (Z.eqb_neq _ _) Hc) in Hs. by replace (i + 1)%nat with (S i) by lia.
Qed.

Lemma printf_agree fmt f : forall g i ap out, no_nul fmt -> simple (drop i fmt) = true ->
  (length fmt - i < f)%nat -> (length fmt - i < g)%nat ->
  Kprintf.printf_loop f fmt i ap out = Uprintf.vprintf_loop g fmt i 0 ap out /\
  Kprintf.printf_loop f fmt i ap out <> NoFuel.
Proof.
  induction f as [|f IH]; intros g i ap out Hn Hs Hf Hg; [lia|]. destruct g as [|g]; [lia|].
  cbn [Kprintf.printf_loop Uprintf.vprintf_loop]. change (0 =? 0) with true. cbn [negb].
  pose proof (at_nul fmt i Hn) as Hnul. destruct (at_ fmt i =? 0) eqn:E0; [done|]. bool_to_prop.
  assert (Hi : (i < length fmt)%nat) by (destruct (decide (i < length fmt)%nat); [done|]; destruct E0; apply Hnul; lia).
  destruct (at_ fmt i =? 37) eqn:E1; bool_to_prop; cbn [negb].
  2: { apply IH; auto; [by apply simple_step|lia|lia]. }
  destruct g as [|g]; [lia|]. cbn [Uprintf.vprintf_loop]. change (37 =? 0) with false. change (37 =? 37) with true. cbn [negb].
  destruct (at_ fmt (i + 1) =? 0) eqn:E2; [done|]. bool_to_prop. cbn [negb].
  destruct (simple_at fmt i Hs Hn E1 E2) as [Hd Hs'].
  assert (Hi2 : (i + 1 < length fmt)%nat) by (destruct (decide (i + 1 < length fmt)%nat); [done|]; destruct E2; apply at_nul; [done|lia]).
  set (c1 := at_ fmt (i + 1 + 1)). set (c2 := if negb (c1 =? 0) then _ else 0).
  destruct (directive_agree (at_ fmt (i + 1)) c1 c2 ap Hd) as (Ed & Hnf & Hz). rewrite <- Ed.
  destruct (Kprintf.directive (at_ fmt (i + 1)) c1 c2 ap) as [[[o ap'] n]| | |] eqn:Er; cbn [mbind outcome_bind]; try done.
  specialize (Hz _ eq_refl). cbn in Hz. subst n. apply IH; auto; lia.
Qed.

(** The kernel's [printf] and the user library's [vprintf] print the
    same for every format whose directives are [%d], [%s], [%%], unknown
    letters or an unfinished [%] at the end, and any arguments, although one
    is a loop that looks ahead and the other a state machine; and both
    return for every such format. *)
Theorem printf_vprintf fmt ap :
  no_nul fmt -> simple fmt = true ->
  Kprintf.printf fmt ap = Uprintf.vprintf fmt ap /\ Kprintf.printf fmt ap <> NoFuel.
Proof. intros Hn Hs. apply printf_agree; [done|done|lia|lia]. Qed.

(** ["n=%d %s%"]. *)
Lemma printf_vprintf_witness :
  Uprintf.vprintf [110; 61; 37; 100; 32; 37; 115; 37] [Word (-7); Str None] = Ok ([110; 61; 45; 55; 32] ++ null_str).
Proof.
  destruct (printf_vprintf [110; 61; 37; 100; 32; 37; 115; 37] [Word (-7); Str None]) as [<- _];
    [repeat constructor; lia|vm_compute; reflexivity|vm_compute; reflexivity].
Defined.
