(* ===== verification/Console.v ===== *)
(** * kernel/uart.c and kernel/console.c

    The UART's registers are a device: the bytes that wait in [RHR], the
    answers that the line status register will give about [THR] (an oracle:
    every read takes the next one), and the bytes written to [THR].  The
    output ring of uart.c and the input ring of console.c keep their indices
    at their widths, where they wrap around.  Taking and giving up the
    locks and [push_off] do not show in the sequential state; a sleep is a
    result of its own, so that the caller can be resumed. *)
From S2P Require Import Prelude Cstring Riscv Kalloc Vm Block Bio Fs.

Module Console.

Definition UART_TX_BUF_SIZE : Z := 32.
Definition INPUT_BUF_SIZE : Z := 128.
Definition BACKSPACE : Z := 256.
Definition Ctl (x : Z) : Z := x - 64.

Record uart := Uart {
  rx : list Z;
  tx_idle : list bool;
  sent : list (bool * Z);  (* bytes written to THR; true: from the ring *)
  regs : list (Z * Z);     (* writes to the other registers *)
  uart_tx_buf : list Z;
  uart_tx_w : Z;
  uart_tx_r : Z;
  tx_wakeups : nat;
  panicked : bool
}.

Definition set_rx v u := Uart v (tx_idle u) (sent u) (regs u) (uart_tx_buf u) (uart_tx_w u) (uart_tx_r u) (tx_wakeups u) (panicked u).
Definition set_tx_idle v u := Uart (rx u) v (sent u) (regs u) (uart_tx_buf u) (uart_tx_w u) (uart_tx_r u) (tx_wakeups u) (panicked u).
Definition send (b : bool) (c : Z) u := Uart (rx u) (tx_idle u) (sent u ++ [(b, u8 c)]) (regs u) (uart_tx_buf u) (uart_tx_w u) (uart_tx_r u) (tx_wakeups u) (panicked u).
Definition write_reg (r v : Z) u := Uart (rx u) (tx_idle u) (sent u) (regs u ++ [(r, v)]) (uart_tx_buf u) (uart_tx_w u) (uart_tx_r u) (tx_wakeups u) (panicked u).
Definition set_tx_buf v u := Uart (rx u) (tx_idle u) (sent u) (regs u) v (uart_tx_w u) (uart_tx_r u) (tx_wakeups u) (panicked u).
Definition set_tx_w v u := Uart (rx u) (tx_idle u) (sent u) (regs u) (uart_tx_buf u) v (uart_tx_r u) (tx_wakeups u) (panicked u).
Definition set_tx_r v u := Uart (rx u) (tx_idle u) (sent u) (regs u) (uart_tx_buf u) (uart_tx_w u) v (tx_wakeups u) (panicked u).
Definition wake_tx u := Uart (rx u) (tx_idle u) (sent u) (regs u) (uart_tx_buf u) (uart_tx_w u) (uart_tx_r u) (S (tx_wakeups u)) (panicked u).

(** [uartinit]: the registers of the 16550. *)
Definition uartinit (u : uart) : uart :=
  let u := write_reg 1 0 u in
  let u := write_reg 3 128 u in
  let u := write_reg 0 3 u in
  let u := write_reg 1 0 u in
  let u := write_reg 3 3 u in
  let u := write_reg 2 (Z.lor 1 (Z.shiftl 3 1)) u in
  write_reg 1 (Z.lor 2 1) u.

(** [ReadReg(LSR) & LSR_TX_IDLE]. *)
Definition read_idle (u : uart) : bool * uart :=
  match tx_idle u with
  | [] => (false, u)
  | b :: l => (b, set_tx_idle l u)
  end.

Fixpoint uartstart_loop (fuel : nat) (u : uart) : outcome uart :=
  if uart_tx_w u =? uart_tx_r u then Ok u
  else
    let '(idle, u) := read_idle u in
    if negb idle then Ok u
    else match fuel with
         | O => NoFuel
         | S f =>
             let c := default 0 (uart_tx_buf u !! Z.to_nat (uart_tx_r u mod UART_TX_BUF_SIZE)) in
             let u := set_tx_r (u64 (uart_tx_r u + 1)) u in
             let u := wake_tx u in
             uartstart_loop f (send true c u)
         end.
Definition uartstart (u : uart) : outcome uart := uartstart_loop (Z.to_nat UART_TX_BUF_SIZE) u.

(** Waiting for room, like the loop of a panicked machine, is [Blocked]. *)
Definition uartputc (c : Z) (u : uart) : outcome uart :=
  if panicked u then Blocked
  else if uart_tx_w u =? u64 (uart_tx_r u + UART_TX_BUF_SIZE) then Blocked
  else
    let u := set_tx_buf (<[Z.to_nat (uart_tx_w u mod UART_TX_BUF_SIZE) := u8 c]> (uart_tx_buf u)) u in
    let u := set_tx_w (u64 (uart_tx_w u + 1)) u in
    uartstart u.

(** The busy wait of [uartputc_sync]: the answers up to the first that is
    true. *)
Fixpoint wait_idle (l : list bool) : option (list bool) :=
  match l with
  | [] => None
  | true :: l => Some l
  | false :: l => wait_idle l
  end.
Definition uartputc_sync (c : Z) (u : uart) : outcome uart :=
  if panicked u then Blocked
  else match wait_idle (tx_idle u) with
       | None => Blocked
       | Some l => Ok (send false c (set_tx_idle l u))
       end.

Definition uartgetc (u : uart) : Z * uart :=
  match rx u with
  | [] => (-1, u)
  | c :: l => (u8 c, set_rx l u)
  end.

Definition consputc (c : Z) (u : uart) : outcome uart :=
  if c =? BACKSPACE then
    u ← uartputc_sync 8 u;
    u ← uartputc_sync 32 u;
    uartputc_sync 8 u
  else uartputc_sync c u.

(** ** The console *)

Record console := Cons {
  buf : list Z;
  r : Z;
  w : Z;
  e : Z;
  kbd_intr_count : Z;
  cons_wakeups : nat;
  dumps : nat          (* calls of procdump *)
}.

Definition set_buf v s := Cons v (r s) (w s) (e s) (kbd_intr_count s) (cons_wakeups s) (dumps s).
Definition set_r v s := Cons (buf s) v (w s) (e s) (kbd_intr_count s) (cons_wakeups s) (dumps s).
Definition set_w v s := Cons (buf s) (r s) v (e s) (kbd_intr_count s) (cons_wakeups s) (dumps s).
Definition set_e v s := Cons (buf s) (r s) (w s) v (kbd_intr_count s) (cons_wakeups s) (dumps s).
Definition count_kbd s := Cons (buf s) (r s) (w s) (e s) (s32 (kbd_intr_count s + 1)) (cons_wakeups s) (dumps s).
Definition wake_cons s := Cons (buf s) (r s) (w s) (e s) (kbd_intr_count s) (S (cons_wakeups s)) (dumps s).
Definition procdump_ s := Cons (buf s) (r s) (w s) (e s) (kbd_intr_count s) (cons_wakeups s) (S (dumps s)).

Definition buf_at (s : console) (i : Z) : Z := default 0 (buf s !! Z.to_nat (i mod INPUT_BUF_SIZE)).

(** The loop of [C('U')]: at most one round per character of the ring. *)
Fixpoint kill_line (fuel : nat) (s : console) (u : uart) : outcome (console * uart) :=
  if negb (e s =? w s) && negb (buf_at s (u32 (e s - 1)) =? 10) then
    match fuel with
    | O => NoFuel
    | S f =>
        let s := set_e (u32 (e s - 1)) s in
        u ← consputc BACKSPACE u;
        kill_line f s u
    end
  else Ok (s, u).

Definition consoleintr (c : Z) (s : console) (u : uart) : outcome (console * uart) :=
  let s := count_kbd s in
  if c =? Ctl 80 then Ok (procdump_ s, u)
  else if c =? Ctl 85 then kill_line (Z.to_nat INPUT_BUF_SIZE) s u
  else if (c =? Ctl 72) || (c =? 127) then
    if negb (e s =? w s) then
      let s := set_e (u32 (e s - 1)) s in
      u ← consputc BACKSPACE u;
      Ok (s, u)
    else Ok (s, u)
  else if negb (c =? 0) && (u32 (e s - r s) <? INPUT_BUF_SIZE) then
    let c := if c =? 13 then 10 else c in
    u ← consputc c u;
    let s := set_buf (<[Z.to_nat (e s mod INPUT_BUF_SIZE) := u8 c]> (buf s)) s in
    let s := set_e (u32 (e s + 1)) s in
    if (c =? 10) || (c =? Ctl 68) || (u32 (e s - r s) =? INPUT_BUF_SIZE) then
      Ok (wake_cons (set_w (e s) s), u)
    else Ok (s, u)
  else Ok (s, u).

(** How [consoleread] ends, or that it sleeps with [n] bytes still to read.
    The destination has the address [dst], which [either_copyout] advances; it
    is not used again after a copy that fails. *)
Inductive read_end := Returned (ret : Z) | Sleeping (n : Z).

Fixpoint consoleread_loop (fuel : nat) (killed : bool) (target n : Z) (d : dest) (s : console)
    : outcome (read_end * dest * console) :=
  if 0 <? n then
    if r s =? w s then
      if killed then Ok (Returned (-1), d, s) else Ok (Sleeping n, d, s)
    else
      match fuel with
      | O => NoFuel
      | S f =>
          let c := buf_at s (r s) in
          let s := set_r (u32 (r s + 1)) s in
          if c =? Ctl 68 then
            let s := if u32 n <? target then set_r (u32 (r s - 1)) s else s in
            Ok (Returned (s32 (target - n)), d, s)
          else
            '(k, d) ← either_copyout d [c];
            if k =? -1 then Ok (Returned (s32 (target - n)), d, s)
            else
              let n := n - 1 in
              if c =? 10 then Ok (Returned (s32 (target - n)), d, s)
              else consoleread_loop f killed target n d s
      end
  else Ok (Returned (s32 (target - n)), d, s).

(** Called with [n] for the first time, and again after a sleep. *)
Definition consoleread (killed : bool) (target n : Z) (d : dest) (s : console) : outcome (read_end * dest * console) :=
  consoleread_loop (Z.to_nat n) killed target n d s.

(** [i] bytes have been written; a full ring is a sleep. *)
Fixpoint consolewrite_loop (k : nat) (i : Z) (src : source) (u : uart) : outcome (Z * source * uart) :=
  match k with
  | O => Ok (i, src, u)
  | S k' =>
      '(x, l, src') ← either_copyin src 1;
      if x =? -1 then Ok (i, src', u)
      else
        u ← uartputc (default 0 (head l)) u;
        consolewrite_loop k' (i + 1) src' u
  end.
Definition consolewrite (src : source) (n : Z) (u : uart) : outcome (Z * source * uart) :=
  consolewrite_loop (Z.to_nat n) 0 src u.

(** The loop of [uartintr] over the bytes that wait. *)
Fixpoint uartintr_loop (fuel : nat) (s : console) (u : uart) : outcome (console * uart) :=
  let '(c, u) := uartgetc u in
  if c =? -1 then Ok (s, u)
  else match fuel with
       | O => NoFuel
       | S f => '(s, u) ← consoleintr c s u; uartintr_loop f s u
       end.
Definition uartintr (s : console) (u : uart) : outcome (console * uart) :=
  '(s, u) ← uartintr_loop (length (rx u)) s u;
  u ← uartstart u;
  Ok (s, u).

(** The zeroed static data. *)
Definition console0 : console := Cons (replicate 128 0) 0 0 0 0 0 0.
Definition sys_kbdint (s : console) : Z := kbd_intr_count s.

End Console.
