(* ===== verification/ConsoleTheory.v ===== *)
(** * The console's line discipline and the UART's output queue

    The ring of console.c refines a pair of lists, the bytes that readers may
    take and the line that is being edited; the ring of uart.c is a queue. *)
From S2P Require Import Prelude Cstring Riscv Kalloc Vm VmTheory UvmTheory CopyTheory UvmProps Block Bio Fs Console.

Import Console.

(** ** The line discipline *)

Definition a_intr (c : Z) (comm edit : list Z) : list Z * list Z :=
  if decide (c = 16) then (comm, edit)
  else if decide (c = 21) then (comm, [])
  else if decide (c = 8 \/ c = 127) then (comm, removelast edit)
  else if decide (c <> 0 /\ Z.of_nat (length comm + length edit) < 128) then
    let c := if decide (c = 13) then 10 else c in
    if decide (c = 10 \/ c = 4 \/ Z.of_nat (length comm + length edit) + 1 = 128) then (comm ++ edit ++ [c], [])
    else (comm, edit ++ [c])
  else (comm, edit).

(** The bytes that a read of [n] more bytes gives, those left, and whether it
    ends. *)
Fixpoint a_read (target : Z) (n : nat) (comm : list Z) : list Z * list Z * bool :=
  match n, comm with
  | O, _ => ([], comm, true)
  | _, [] => ([], [], false)
  | S k, c :: rest =>
      if decide (c = 4) then ([], if decide (Z.of_nat n < target) then comm else rest, true)
      else if decide (c = 10) then ([c], rest, true)
      else let '(out, left_, fin) := a_read target k rest in (c :: out, left_, fin)
  end.

Record con_ok (s : console) (comm edit : list Z) : Prop := {
  co_len : length (buf s) = 128%nat;
  co_r : 0 <= r s < 4294967296;
  co_w : w s = u32 (r s + Z.of_nat (length comm));
  co_e : e s = u32 (r s + Z.of_nat (length comm + length edit));
  co_size : (length comm + length edit <= 128)%nat;
  co_data : forall i x, (comm ++ edit) !! i = Some x -> buf_at s (r s + Z.of_nat i) = x;
  co_edit : Forall (fun c => c <> 10) edit
}.

Lemma buf_at_u32 s i : buf_at s (u32 i) = buf_at s i.
Proof. unfold buf_at, u32, INPUT_BUF_SIZE. do 3 f_equal. zlia. Qed.

(** Rings: different positions less than a round apart are different. *)
Lemma ring_ne a i j : 0 <= i < 128 -> 0 <= j < 128 -> i <> j -> (a + i) mod 128 <> (a + j) mod 128.
Proof. intros. zlia. Qed.

Lemma u32_u32 a b : u32 (u32 a + b) = u32 (a + b).
Proof. unfold u32. zlia. Qed.
Lemma u32_sub a b : u32 (u32 a - b) = u32 (a - b).
Proof. unfold u32. zlia. Qed.

Lemma con_e_w s comm edit : con_ok s comm edit -> (e s =? w s) = bool_decide (edit = []).
Proof.
  intros [C1 C2 C3 C4 C5 C6 C7]. rewrite C3, C4. destruct edit as [|x edit].
  - rewrite Nat.add_0_r, Z.eqb_refl. done.
  - apply Z.eqb_neq. intros E. apply u32_near in E; cbn [length] in *; lia.
Qed.

Lemma con_r_w s comm edit : con_ok s comm edit -> (r s =? w s) = bool_decide (comm = []).
Proof.
  intros [C1 C2 C3 C4 C5 C6 C7]. rewrite C3. destruct comm as [|x comm].
  - cbn. rewrite Z.add_0_r, u32_id by lia. by rewrite Z.eqb_refl.
  - apply Z.eqb_neq. rewrite <- (u32_id (r s)) at 1 by lia. intros E. apply u32_near in E; cbn [length] in *; lia.
Qed.

Lemma con_size s comm edit : con_ok s comm edit -> u32 (e s - r s) = Z.of_nat (length comm + length edit).
Proof.
  intros [C1 C2 C3 C4 C5 C6 C7]. rewrite C4, u32_sub. rewrite Z.add_simpl_l. apply u32_id. lia.
Qed.

(** Taking back the last character of the line. *)
Lemma con_back s comm edit x : con_ok s comm (edit ++ [x]) -> con_ok (set_e (u32 (e s - 1)) s) comm edit.
Proof.
  intros [C1 C2 C3 C4 C5 C6 C7]. rewrite length_app in *. cbn [length] in *.
  split; cbn [buf r w e set_e]; auto; try lia.
  - rewrite C4, u32_sub. f_equal. lia.
  - intros i y Hi. apply (C6 i y). rewrite (assoc_L (++)). by apply lookup_app_l_Some.
  - by apply Forall_app in C7 as [? _].
Qed.

(** Storing a character at the end of the line. *)
Lemma con_store s comm edit c : con_ok s comm edit -> (length comm + length edit < 128)%nat -> 0 <= c < 256 ->
  let s' := set_e (u32 (e s + 1)) (set_buf (<[Z.to_nat (e s mod INPUT_BUF_SIZE) := u8 c]> (buf s)) s) in
  (c <> 10 -> con_ok s' comm (edit ++ [c])) /\ con_ok (set_w (e s') s') (comm ++ edit ++ [c]) [].
Proof.
  intros [C1 C2 C3 C4 C5 C6 C7] Hl Hc s'.
  assert (Hat : forall i x, (comm ++ edit ++ [c]) !! i = Some x -> buf_at s' (r s + Z.of_nat i) = x).
  { intros i x. rewrite (assoc_L (++)), lookup_app_Some. unfold buf_at, s'. cbn [buf r set_e set_buf].
    unfold INPUT_BUF_SIZE in *. rewrite C4. set (k := Z.of_nat (length comm + length edit)).
    assert (Em : u32 (r s + k) mod 128 = (r s + k) mod 128) by (unfold u32; zlia). rewrite Em.
    intros [Hi|[Hge Hi]].
    - pose proof (lookup_lt_Some _ _ _ Hi) as Hlt. rewrite length_app in Hlt. rewrite list_lookup_insert_ne.
      + by apply C6.
      + pose proof (ring_ne (r s) k (Z.of_nat i) ltac:(lia) ltac:(lia) ltac:(lia)) as Hne. zlia.
    - rewrite length_app in *. apply list_lookup_singleton_Some in Hi as [Hz <-].
      replace (Z.of_nat i) with k by lia. rewrite list_lookup_insert_eq by (rewrite C1; zlia). cbn. by apply u8_id. }
  assert (He : u32 (e s + 1) = u32 (r s + Z.of_nat (length comm + length edit + 1))) by (rewrite C4, u32_u32; f_equal; lia).
  assert (Hb : length (buf s') = 128%nat) by (unfold s'; cbn; by rewrite length_insert).
  split.
  - intros Hne. split; cbn [buf r w e s' set_e set_buf]; auto.
    + rewrite length_app. cbn [length]. rewrite He. do 3 f_equal. lia.
    + rewrite length_app. cbn. lia.
    + apply Forall_app. split; [done|]. by apply Forall_singleton.
  - split; cbn [buf r w e s' set_e set_buf set_w]; auto; rewrite ?length_app; cbn [length].
    + rewrite He. do 3 f_equal. lia.
    + rewrite He. do 3 f_equal. lia.
    + lia.
    + intros i x. rewrite app_nil_r. apply Hat.
Qed.

(** ** Echoing *)

(** How often the device will say that it can take a byte. *)
Definition ready (u : uart) : nat := length (filter (fun b => b = true) (tx_idle u)).

Lemma wait_idle_run l : (1 <= length (filter (fun b => b = true) l))%nat ->
  exists l', wait_idle l = Some l' /\ length (filter (fun b => b = true) l) = S (length (filter (fun b => b = true) l')).
Proof.
  induction l as [|[|] l IH]; intros H; cbn [wait_idle].
  - cbn in H. lia.
  - exists l. split; [done|]. by rewrite filter_cons_True.
  - rewrite filter_cons_False in * by done. auto.
Qed.

Lemma sync_run c u : panicked u = false -> (1 <= ready u)%nat ->
  exists u', uartputc_sync c u = Ok u' /\ panicked u' = false /\ ready u = S (ready u').
Proof.
  intros Hp Hr. unfold uartputc_sync. rewrite Hp. destruct (wait_idle_run (tx_idle u) Hr) as (l & -> & Hl).
  eexists. split; [done|]. by split.
Qed.

Lemma consputc_run c u : panicked u = false -> (3 <= ready u)%nat ->
  exists u', consputc c u = Ok u' /\ panicked u' = false /\ (ready u <= ready u' + 3)%nat.
Proof.
  intros Hp Hr. unfold consputc. destruct (c =? BACKSPACE).
  - destruct (sync_run 8 u Hp) as (u1 & -> & P1 & R1); [lia|]. cbn [mbind outcome_bind].
    destruct (sync_run 32 u1 P1) as (u2 & -> & P2 & R2); [lia|]. cbn [mbind outcome_bind].
    destruct (sync_run 8 u2 P2) as (u3 & -> & P3 & R3); [lia|]. exists u3. split_and!; auto. lia.
  - destruct (sync_run c u Hp) as (u1 & -> & P1 & R1); [lia|]. exists u1. split_and!; auto. lia.
Qed.

Lemma kill_line_run edit : forall fuel s u comm, con_ok s comm edit -> (length edit <= fuel)%nat ->
  panicked u = false -> (3 * length edit <= ready u)%nat ->
  exists s' u', kill_line fuel s u = Ok (s', u') /\ con_ok s' comm [] /\ panicked u' = false /\ kbd_intr_count s' = kbd_intr_count s.
Proof.
  induction edit as [|x edit IH] using rev_ind; intros fuel s u comm Hs Hf Hp Hr.
  - exists s, u. split_and!; auto. destruct fuel; cbn [kill_line]; rewrite (con_e_w _ _ _ Hs); done.
  - rewrite length_app in *. cbn [length] in *. destruct fuel as [|fuel]; [lia|]. cbn [kill_line].
    rewrite (con_e_w _ _ _ Hs), bool_decide_eq_false_2 by (by destruct edit). cbn [negb andb].
    assert (Hx : buf_at s (u32 (e s - 1)) = x).
    { rewrite (co_e _ _ _ Hs), u32_sub, buf_at_u32. rewrite length_app. cbn [length].
      replace (r s + Z.of_nat (length comm + (length edit + 1)) - 1) with (r s + Z.of_nat (length comm + length edit)) by lia.
      apply (co_data _ _ _ Hs). rewrite (assoc_L (++)), lookup_app_r by (rewrite length_app; lia). rewrite length_app, Nat.sub_diag. done. }
    pose proof (co_edit _ _ _ Hs) as He. apply Forall_app in He as [_ He]. rewrite Forall_singleton in He.
    rewrite Hx, (proj2 (Z.eqb_neq x 10) He). cbn [negb].
    destruct (consputc_run BACKSPACE u Hp) as (u1 & -> & P1 & R1); [lia|]. cbn [mbind outcome_bind].
    apply con_back in Hs. destruct (IH fuel _ u1 comm Hs) as (s' & u' & -> & H1 & H2 & H3); [lia|done|lia|].
    exists s', u'. split_and!; auto.
Qed.

Lemma removelast_snoc {A} (l : list A) x : removelast (l ++ [x]) = l.
Proof. by rewrite removelast_app, app_nil_r. Qed.

(** A keystroke. *)
Lemma consoleintr_run c s u comm edit : con_ok s comm edit -> 0 <= c < 256 -> panicked u = false -> (384 <= ready u)%nat ->
  exists s' u', consoleintr c s u = Ok (s', u') /\ con_ok s' (fst (a_intr c comm edit)) (snd (a_intr c comm edit)) /\
    panicked u' = false /\ kbd_intr_count s' = s32 (kbd_intr_count s + 1).
Proof.
  intros Hs Hc Hp Hr. unfold consoleintr, a_intr. change (Ctl 80) with 16. change (Ctl 85) with 21. change (Ctl 72) with 8. change (Ctl 68) with 4.
  assert (Hs0 : con_ok (count_kbd s) comm edit) by (destruct Hs; by split).
  pose proof (co_size _ _ _ Hs) as Hsz. pose proof (con_size _ _ _ Hs0) as Hlen.
  destruct (Z.eqb_spec c 16) as [->|H16]; [rewrite decide_True by done; eexists _, _; split_and!; try done; destruct Hs; by split|].
  rewrite (decide_False (P := c = 16)) by done.
  destruct (Z.eqb_spec c 21) as [->|H21].
  { rewrite decide_True by done. destruct (kill_line_run edit (Z.to_nat INPUT_BUF_SIZE) _ u comm Hs0) as (s' & u' & E & H1 & H2 & H3); auto;
      [unfold INPUT_BUF_SIZE; lia|lia|]. exists s', u'. split_and!; auto. }
  rewrite (decide_False (P := c = 21)) by done.
  destruct ((c =? 8) || (c =? 127)) eqn:Eb.
  { rewrite decide_True by (apply orb_true_iff in Eb as [?|?]; bool_to_prop; auto). cbn [fst snd].
    rewrite (con_e_w _ _ _ Hs0). destruct edit as [|x edit _] using rev_ind; [by eexists _, _|].
    rewrite bool_decide_eq_false_2 by (by destruct edit). cbn [negb]. destruct (consputc_run BACKSPACE u Hp) as (u1 & -> & P1 & R1); [lia|].
    cbn [mbind outcome_bind]. rewrite removelast_snoc. apply con_back in Hs0. eexists _, _. split_and!; try done. }
  rewrite decide_False by (apply orb_false_iff in Eb as [??]; bool_to_prop; lia). rewrite Hlen. unfold INPUT_BUF_SIZE.
  destruct (negb (c =? 0) && _) eqn:Ec.
  2: { rewrite decide_False by (apply andb_false_iff in Ec as [?|?]; bool_to_prop; lia). by eexists _, _. }
  apply andb_true_iff in Ec as [Ec1 Ec2]. bool_to_prop. rewrite decide_True by lia. cbn zeta.
  assert (Ecc : (if c =? 13 then 10 else c) = if decide (c = 13) then 10 else c) by (destruct (Z.eqb_spec c 13); [by rewrite decide_True|by rewrite decide_False]).
  rewrite Ecc. set (c' := if decide (c = 13) then 10 else c). assert (Hc' : 0 <= c' < 256) by (unfold c'; case_decide; lia).
  destruct (consputc_run c' u Hp) as (u1 & -> & P1 & R1); [lia|]. cbn [mbind outcome_bind].
  destruct (con_store _ _ _ c' Hs0 ltac:(lia) Hc') as [K1 K2]. cbn zeta in K1, K2. unfold INPUT_BUF_SIZE in K1, K2.
  set (s1 := set_e _ _) in *.
  assert (El : u32 (e s1 - r s1) = Z.of_nat (length comm + length edit) + 1).
  { cbn [s1 e r set_e set_buf count_kbd] in *. rewrite u32_sub, Z.add_sub_swap, <- u32_u32, Hlen. apply u32_id. lia. }
  rewrite El. destruct ((c' =? 10) || (c' =? 4) || _) eqn:Ew.
  - rewrite !orb_true_iff, !Z.eqb_eq in Ew. rewrite decide_True by (destruct Ew as [[?|?]|?]; auto).
    eexists _, _. split; [done|]. split; [destruct K2; by split|]. done.
  - rewrite !orb_false_iff, !Z.eqb_neq in Ew. rewrite decide_False by (destruct Ew as [[??]?]; intros [?|[?|?]]; done).
    eexists _, _. split; [done|]. split; [apply K1; apply Ew|]. done.
Qed.

(** ** Reading *)

(** The bytes [l] go to a destination one by one, until a copy fails: their
    number, and whether all of them went. *)
Fixpoint deliver (d : dest) (l : list Z) : outcome (nat * bool * dest) :=
  match l with
  | [] => Ok (0%nat, true, d)
  | c :: l =>
      '(k, d) ← either_copyout d [c];
      if k =? -1 then Ok (0%nat, false, d)
      else '(j, all, d) ← deliver d l; Ok (S j, all, d)
  end.

(** How a read ends that has delivered [j] of the bytes it wants. *)
Definition ending (fin killed : bool) (target n j : Z) : read_end :=
  if fin then Returned (target - n + j) else if killed then Returned (-1) else Sleeping (n - j).

(** A byte is taken from the ring. *)
Lemma con_take s c comm edit : con_ok s (c :: comm) edit -> buf_at s (r s) = c /\ con_ok (set_r (u32 (r s + 1)) s) comm edit.
Proof.
  intros Hs. split; [rewrite <- (Z.add_0_r (r s)); by apply (co_data _ _ _ Hs 0%nat)|].
  destruct Hs as [C1 C2 C3 C4 C5 C6 C7]. cbn [length] in *. split; cbn [buf r w e set_r]; auto; try lia.
  - apply u32_range.
  - rewrite C3, u32_u32. f_equal. lia.
  - rewrite C4, u32_u32. f_equal. lia.
  - intros i x Hi. rewrite <- (C6 (S i) x Hi). rewrite <- buf_at_u32, u32_u32, buf_at_u32.
    change (buf_at (set_r (u32 (r s + 1)) s)) with (buf_at s). f_equal. lia.
Qed.

Lemma a_read_length target n : forall comm, (length (fst (fst (a_read target n comm))) <= n)%nat.
Proof.
  induction n as [|n IH]; intros [|c comm]; cbn [a_read]; [cbn; lia..|]. destruct (decide (c = 4)); [cbn; lia|]. destruct (decide (c = 10)); [cbn; lia|].
  specialize (IH comm). destruct (a_read target n comm) as [[out rest] fin]. cbn in *. lia.
Qed.

(** What a read leaves, for any destination. *)
Definition read_result (killed : bool) (target : Z) (n : nat) (comm edit : list Z) (d : dest) (o : outcome (read_end * dest * console)) : Prop :=
  let '(out, rest, fin) := a_read target n comm in
  forall j all d', deliver d out = Ok (j, all, d') -> exists s',
    o = Ok (if all then ending fin killed target (Z.of_nat n) (Z.of_nat j) else Returned (target - Z.of_nat n + Z.of_nat j), d', s') /\
    con_ok s' (if all then rest else drop (S j) comm) edit.

Lemma consoleread_run n : forall killed target d s comm edit fuel,
  con_ok s comm edit -> 0 <= Z.of_nat n <= target -> target < 2147483648 -> (n <= fuel)%nat ->
  read_result killed target n comm edit d (consoleread_loop fuel killed target (Z.of_nat n) d s).
Proof.
  induction n as [|n IH]; intros killed target d s comm edit fuel Hs Hn Ht Hf; unfold read_result, ending.
  { cbn [a_read]. intros j all d' [= <- <- <-]. exists s. split; [|done]. destruct fuel; cbn [consoleread_loop Z.of_nat Z.ltb Z.compare]; rewrite s32_id by lia; by rewrite Z.add_0_r. }
  destruct fuel as [|fuel]; [lia|]. cbn [consoleread_loop]. rewrite (proj2 (Z.ltb_lt _ _)) by lia.
  rewrite (con_r_w _ _ _ Hs). destruct comm as [|c comm]; cbn [a_read].
  { rewrite bool_decide_eq_true_2 by done. intros j all d' [= <- <- <-]. exists s. rewrite Z.sub_0_r. by destruct killed. }
  rewrite bool_decide_eq_false_2 by done. destruct (con_take s c comm edit Hs) as [-> Hs1]. change (Ctl 68) with 4.
  destruct (Z.eqb_spec c 4) as [->|H4].
  { rewrite decide_True by done. intros j all d' [= <- <- <-]. rewrite u32_id by lia. rewrite Z.add_0_r.
    destruct (Z.ltb_spec (Z.of_nat (S n)) target); [rewrite decide_True by done|rewrite decide_False by lia].
    - eexists. rewrite s32_id by lia. split; [done|]. cbn [r set_r]. rewrite u32_sub, Z.add_simpl_r, u32_id by apply Hs. by destruct s.
    - eexists. rewrite s32_id by lia. split; done. }
  rewrite (decide_False (P := c = 4)) by done. destruct (Z.eqb_spec c 10) as [->|H10].
  { rewrite decide_True by done. intros j all d'. cbn [deliver]. destruct (either_copyout d [10]) as [[k d1]| | |]; cbn [mbind outcome_bind]; try done.
    destruct (k =? -1); intros [= <- <- <-]; eexists; rewrite s32_id by lia; (split; [|done]); do 4 f_equal; lia. }
  rewrite (decide_False (P := c = 10)) by done. destruct (a_read target n comm) as [[out rest] fin] eqn:Ea. intros j all d'. cbn [deliver].
  destruct (either_copyout d [c]) as [[k d1]| | |]; cbn [mbind outcome_bind]; try done.
  destruct (k =? -1). { intros [= <- <- <-]. eexists. rewrite s32_id by lia. split; [|done]. do 4 f_equal. lia. }
  destruct (deliver d1 out) as [[[j1 all1] d2]| | |] eqn:Ed; cbn [mbind outcome_bind]; try done. intros [= <- <- <-].
  specialize (IH killed target d1 _ comm edit fuel Hs1 ltac:(lia) Ht ltac:(lia)). unfold read_result in IH. rewrite Ea in IH.
  destruct (IH _ _ _ Ed) as (s' & E & Hs'). exists s'. split; [|done]. replace (Z.of_nat (S n) - 1) with (Z.of_nat n) by lia.
  rewrite E. unfold ending. destruct all1, fin; try destruct killed; do 4 f_equal; lia.
Qed.

(** ** Delivery to user memory *)

Section User.
Variable kend : Z.
Hypothesis Hkend : 0 < kend.

(** [m'] is [m] with the first [j] of the bytes [l] stored at [va], which are
    all of them, or those in front of an address that may not be written. *)
Definition stored (m : phys) fl root G M (va : Z) (l : list Z) (j : nat) (all : bool) (m' : phys) : Prop :=
  copied kend m fl root G M va l (Z.of_nat j) m' /\ (forall w, va <= w < va + Z.of_nat j -> uwritable (pmem m) root w) /\
  if all then j = length l else (j < length l)%nat /\ ~ uwritable (pmem m) root (va + Z.of_nat j).

Lemma deliver_user l : forall m fl root G M va, as_inv kend m fl root G M -> 0 <= va -> va + Z.of_nat (length l) < 18446744073709551616 ->
  exists j all a m', deliver (UserDst root va m) l = Ok (j, all, UserDst root a m') /\ stored m fl root G M va l j all m'.
Proof.
  induction l as [|c l IH]; intros m fl root G M va Hinv Hva Hl.
  { exists 0%nat, true, va, m. split; [done|]. split_and!; [by apply copied_none|intros; lia|done]. }
  cbn [length] in Hl. cbn [deliver either_copyout]. unfold copyout.
  destruct (copyout_loop_run kend Hkend 1 va [c] m fl root G M Hinv ltac:(lia) ltac:(done)) as (x & m1 & k & E & Hc & Hw & Hk).
  change (length [c]) with 1%nat in *. rewrite E. cbn [mbind outcome_bind]. destruct Hk as [[-> ->]|(-> & Hk & Hn)].
  - change (0 =? -1) with false. cbv iota. rewrite u64_id by lia. change (Z.of_nat 1) with 1 in *.
    destruct (IH m1 fl root G M (va + 1)) as (j & all & a & m' & -> & Hs); [apply Hc|lia|lia|]. destruct Hs as (S1 & S2 & S3).
    assert (Htr : forall w, 0 <= w < MAXVA -> translate (pmem m1) root w = translate (pmem m) root w) by apply Hc.
    cbn [mbind outcome_bind]. exists (S j), all, a, m'. split; [done|]. split; [|split].
    + replace (Z.of_nat (S j)) with (Z.of_nat (length [c]) + Z.of_nat j) by (cbn [length]; lia). apply (copied_app kend m m1 m' fl root G M va [c] l); [exact Hc|exact S1|lia].
    + intros w Hwr. destruct (decide (w = va)) as [->|]; [apply Hw; lia|]. apply (uwritable_tr m m1 root w Htr). apply S2. lia.
    + destruct all; cbn [length]; [lia|]. destruct S3 as [S3 S4]. split; [lia|]. intros Hwr. apply S4.
      replace (va + 1 + Z.of_nat j) with (va + Z.of_nat (S j)) by lia. by apply (uwritable_tr m m1 root _ Htr).
  - change (-1 =? -1) with true. cbv iota. assert (k = 0) as -> by (cbn in Hk; lia). rewrite Z.add_0_r in Hn.
    eexists 0%nat, false, _, m1. split; [reflexivity|]. split; [|split; [intros; lia|cbn [length]; split; [lia|by rewrite Z.add_0_r]]].
    destruct Hc as [C1 C2 C3 C4]. split; auto. intros w. rewrite C3. rewrite !decide_False by lia. done.
Qed.
End User.

Lemma console0_ok : con_ok console0 [] [].
Proof. split; try done; cbn; lia. Qed.

(** C26: the console's ring buffer, with its wrapping indices, implements
    the line discipline.  The abstract state is the bytes that readers may
    take and the line being edited.  A key does what the discipline says:
    kill-line empties the line, erase takes its last character back, other
    characters are appended (a carriage return as a newline) while there is
    room, and newline, end-of-file or a full buffer hand the line to the
    readers.  [consoleread] of [n] bytes, as [fileread] calls it, copies the
    bytes in order to user memory at [va], up to a newline, to the
    count asked for or to an end-of-file mark, which is kept for the next
    read if bytes were delivered; it sleeps exactly when it needs more than
    there is (or returns -1 then, if the process has been killed).  If it comes
    to an address that the user may not write, it returns the number of bytes
    in front of it, and the byte that it could not copy is lost.  No other byte
    of user memory changes. *)
Theorem console_line_discipline s comm edit :
  con_ok s comm edit ->
  (forall c u, 0 <= c < 256 -> panicked u = false -> (384 <= ready u)%nat ->
     exists s' u', consoleintr c s u = Ok (s', u') /\
       con_ok s' (fst (a_intr c comm edit)) (snd (a_intr c comm edit))) /\
  (forall kend m fl root G M va killed target n, 0 < kend -> as_inv kend m fl root G M ->
     0 <= va -> va + Z.of_nat n < 18446744073709551616 -> Z.of_nat n <= target < 2147483648 ->
     let '(out, rest, fin) := a_read target n comm in
     exists j all a m' s', stored kend m fl root G M va out j all m' /\
       consoleread killed target (Z.of_nat n) (UserDst root va m) s =
         Ok (if all then ending fin killed target (Z.of_nat n) (Z.of_nat j) else Returned (target - Z.of_nat n + Z.of_nat j), UserDst root a m', s') /\
       con_ok s' (if all then rest else drop (S j) comm) edit).
Proof.
  intros Hs. split.
  - intros c u Hc Hp Hr. destruct (consoleintr_run c s u comm edit Hs Hc Hp Hr) as (s' & u' & E & H & _). eauto.
  - intros kend m fl root G M va killed target n Hk Hinv Hva Hmax Hn.
    pose proof (consoleread_run n killed target (UserDst root va m) s comm edit (Z.to_nat (Z.of_nat n)) Hs ltac:(lia) ltac:(lia) ltac:(lia)) as Hr.
    unfold read_result in Hr. pose proof (a_read_length target n comm) as Hl. destruct (a_read target n comm) as [[out rest] fin]. cbn [fst] in Hl.
    destruct (deliver_user kend Hk out m fl root G M va Hinv Hva ltac:(lia)) as (j & all & a & m' & Ed & Hst).
    destruct (Hr _ _ _ Ed) as (s' & E & Hs'). exists j, all, a, m', s'. split; [exact Hst|]. split; [exact E|exact Hs'].
Qed.

(** A ring with a line of two bytes. *)
Definition typed : console := Cons (<[0%nat := 104]> (<[1%nat := 10]> (replicate 128 0))) 0 2 2 0 0 0.

Lemma typed_ok : con_ok typed [104; 10] [].
Proof. split; try done; try (cbn; lia). intros [|[|i]] x Hi; [by injection Hi as <-|by injection Hi as <-|done]. Qed.

(** A reader that wants five bytes gets the line, at address 10 of the
    machine of UvmProps.v. *)
Lemma console_line_discipline_witness :
  exists m root M a m' s', consoleread false 5 5 (UserDst root 10 m) typed = Ok (Returned 2, UserDst root a m', s') /\
    ubyte (pmem m') M 10 = Some 104 /\ ubyte (pmem m') M 11 = Some 10.
Proof.
  destruct small_user as (m & fl & root & G & M & Hinv & Hw).
  destruct (console_line_discipline typed [104; 10] [] typed_ok) as [_ H].
  destruct (H small_end m fl root G M 10 false 5 5%nat ltac:(reflexivity) Hinv ltac:(lia) ltac:(lia) ltac:(lia)) as (j & all & a & m' & s' & (Hc & _ & Ha) & E & _).
  exists m, root, M, a, m', s'. destruct all; [|destruct Ha as [Hj Ha]; destruct Ha; apply Hw; cbn [length] in Hj; lia].
  cbn [length] in Ha. subst j. split; [exact E|]. split; rewrite (cp_ubyte _ _ _ _ _ _ _ _ _ _ Hc); reflexivity.
Defined.

(** ** The output queue of the UART *)

Record tx_ok (u : uart) (q : list Z) : Prop := {
  to_len : length (uart_tx_buf u) = 32%nat;
  to_r : 0 <= uart_tx_r u < 18446744073709551616;
  to_w : uart_tx_w u = u64 (uart_tx_r u + Z.of_nat (length q));
  to_size : (length q <= 32)%nat;
  to_data : forall i x, q !! i = Some x -> uart_tx_buf u !! Z.to_nat ((uart_tx_r u + Z.of_nat i) mod 32) = Some x;
  to_byte : Forall (fun x => 0 <= x < 256) q
}.

(** The bytes of the ring that went to the device. *)
Definition ring_sent (u : uart) : list Z := map snd (filter (fun p => fst p = true) (sent u)).

Lemma tx_empty u q : tx_ok u q -> (uart_tx_w u =? uart_tx_r u) = bool_decide (q = []).
Proof.
  intros [T1 T2 T3 T4 T5 T6]. rewrite T3. destruct q as [|x q].
  - cbn. rewrite Z.add_0_r, u64_id by lia. by rewrite Z.eqb_refl.
  - apply Z.eqb_neq. cbn [length] in *. unfold u64. zlia.
Qed.

Lemma uartstart_run q : forall fuel u, tx_ok u q -> (length q <= fuel)%nat ->
  exists u' k, uartstart_loop fuel u = Ok u' /\ tx_ok u' (drop k q) /\ ring_sent u' = ring_sent u ++ take k q /\
    panicked u' = panicked u.
Proof.
  induction q as [|x q IH]; intros fuel u Hu Hf.
  { exists u, 0%nat. split_and!; auto; [|by rewrite app_nil_r]. destruct fuel; cbn [uartstart_loop]; rewrite (tx_empty _ _ Hu); done. }
  destruct fuel as [|fuel]; [cbn in Hf; lia|]. cbn [uartstart_loop]. rewrite (tx_empty _ _ Hu), bool_decide_eq_false_2 by done.
  assert (Hu1 : forall l, tx_ok (set_tx_idle l u) (x :: q)) by (intros l; destruct Hu; by split).
  unfold read_idle. destruct (tx_idle u) as [|b l]; cbn [negb]; [exists u, 0%nat; split_and!; auto; by rewrite app_nil_r|].
  destruct b; cbn [negb]; [|exists (set_tx_idle l u), 0%nat; split_and!; auto; by rewrite app_nil_r].
  specialize (Hu1 l). set (u1 := set_tx_idle l u) in *. destruct Hu1 as [T1 T2 T3 T4 T5 T6]. cbn [length] in *.
  unfold UART_TX_BUF_SIZE. pose proof (T5 0%nat x eq_refl) as Hx. rewrite Z.add_0_r in Hx. rewrite Hx.
  set (u2 := send true _ _). assert (Hu2 : tx_ok u2 q).
  { split; cbn [u2 uart_tx_buf uart_tx_r uart_tx_w send wake_tx set_tx_r]; auto; try lia.
    - apply u64_range.
    - rewrite T3. unfold u64. zlia.
    - intros i y Hi. rewrite <- (T5 (S i) y Hi). do 2 f_equal. unfold u64. zlia.
    - by apply Forall_cons in T6 as [_ ?]. }
  destruct (IH fuel u2 Hu2 ltac:(lia)) as (u' & k & -> & H1 & H2 & H3). exists u', (S k). split_and!; auto.
  rewrite H2. unfold ring_sent, u2. cbn [sent send wake_tx set_tx_r]. rewrite filter_app, map_app. cbn [take].
  rewrite <- (assoc_L (++)). f_equal.
  apply Forall_cons in T6 as [Hb _]. rewrite filter_cons_True by done. cbn. by rewrite u8_id.
Qed.

Lemma uartputc_run c u q : tx_ok u q -> panicked u = false ->
  if decide (length q = 32%nat) then uartputc c u = Blocked
  else exists u' k, uartputc c u = Ok u' /\ tx_ok u' (drop k (q ++ [u8 c])) /\
    ring_sent u' = ring_sent u ++ take k (q ++ [u8 c]) /\ panicked u' = false.
Proof.
  intros Hu Hp. pose proof Hu as [T1 T2 T3 T4 T5 T6]. unfold uartputc, UART_TX_BUF_SIZE. rewrite Hp.
  destruct (decide (length q = 32%nat)) as [E|E].
  { rewrite T3, E. by rewrite Z.eqb_refl. }
  rewrite (proj2 (Z.eqb_neq _ _)) by (rewrite T3; unfold u64; zlia).
  set (u1 := set_tx_w _ _). assert (Hu1 : tx_ok u1 (q ++ [u8 c])).
  { split; cbn [u1 uart_tx_buf uart_tx_r uart_tx_w set_tx_w set_tx_buf]; auto; rewrite ?length_app; cbn [length]; try lia.
    - by rewrite length_insert.
    - rewrite T3. unfold u64. zlia.
    - intros i x. rewrite lookup_app_Some. rewrite T3.
      assert (Em : u64 (uart_tx_r u + Z.of_nat (length q)) mod 32 = (uart_tx_r u + Z.of_nat (length q)) mod 32) by (unfold u64; zlia). rewrite Em.
      intros [Hi|[Hge Hi]].
      + pose proof (lookup_lt_Some _ _ _ Hi). rewrite list_lookup_insert_ne by zlia. auto.
      + apply list_lookup_singleton_Some in Hi as [Hz <-]. replace i with (length q) by lia. apply list_lookup_insert_eq. rewrite T1. zlia.
    - apply Forall_app. split; [done|]. apply Forall_singleton, u8_range. }
  destruct (uartstart_run _ 32 u1 Hu1 (to_size _ _ Hu1)) as (u' & k & H1 & H2 & H3 & H4). exists u', k. split_and!; auto. by rewrite H4.
Qed.

(** Writers and interrupts: [Some c] is [uartputc(c)], [None] the interrupt
    that sends what it can. *)
Fixpoint tx_run (ops : list (option Z)) (u : uart) : outcome uart :=
  match ops with
  | [] => Ok u
  | Some c :: ops => u ← uartputc c u; tx_run ops u
  | None :: ops => u ← uartstart u; tx_run ops u
  end.

Definition puts (ops : list (option Z)) : list Z := map u8 (omap id ops).

(** The UART's output is a queue.  For every sequence of [uartputc] and
    transmit interrupts that does not have to wait, and every behaviour of
    the device, the bytes that the ring gave to the device followed by those
    still in it are the bytes put in, each once and in order; there are at
    most 32 in the ring, and [uartputc] has to wait exactly when there are
    32. *)
Theorem uart_queue ops u q u' :
  tx_ok u q -> panicked u = false -> tx_run ops u = Ok u' ->
  exists q', tx_ok u' q' /\ ring_sent u' ++ q' = ring_sent u ++ q ++ puts ops /\ (length q' <= 32)%nat /\
    forall c, uartputc c u' = Blocked <-> length q' = 32%nat.
Proof.
  revert u q. induction ops as [|[c|] ops IH]; intros u q Hu Hp; cbn [tx_run].
  - intros [= <-]. exists q. split; [done|]. split; [by rewrite app_nil_r|]. split; [apply Hu|].
    intros c. pose proof (uartputc_run c u q Hu Hp) as H. destruct (decide _) as [E|E]; [done|].
    destruct H as (u1 & k & -> & _). done.
  - pose proof (uartputc_run c u q Hu Hp) as H. destruct (decide _) as [E|E]; [by rewrite H|].
    destruct H as (u1 & k & -> & H1 & H2 & H3). cbn [mbind outcome_bind]. intros Hr.
    destruct (IH _ _ H1 H3 Hr) as (q' & Q1 & Q2 & Q3). exists q'. split; [done|]. split; [|done].
    rewrite Q2, H2. rewrite <- (assoc_L (++)), (assoc_L (++) (take k _)), take_drop. change (puts (Some c :: ops)) with (u8 c :: puts ops).
    by rewrite <- !(assoc_L (++)).
  - destruct (uartstart_run q 32 u Hu (to_size _ _ Hu)) as (u1 & k & E & H1 & H2 & H3). unfold uartstart, UART_TX_BUF_SIZE.
    change (Z.to_nat 32) with 32%nat. rewrite E. cbn [mbind outcome_bind]. intros Hr.
    destruct (IH _ _ H1 (eq_trans H3 Hp) Hr) as (q' & Q1 & Q2 & Q3). exists q'. split; [done|]. split; [|done].
    rewrite Q2, H2. by rewrite <- (assoc_L (++)), (assoc_L (++) (take k _)), take_drop.
Qed.

Definition uart0 : uart := Uart [] [false; true; true] [] [] (replicate 32 0) 0 0 0 false.

Lemma uart_queue_witness : exists u', tx_run [Some 104; Some 105; None] uart0 = Ok u' /\
  exists q', ring_sent u' ++ q' = [104; 105] /\ (length q' <= 32)%nat.
Proof.
  assert (H0 : tx_ok uart0 []) by (split; try done; cbn; lia).
  destruct (tx_run [Some 104; Some 105; None] uart0) as [u'| | |] eqn:E; [|vm_compute in E; discriminate..].
  exists u'. split; [reflexivity|]. destruct (uart_queue _ _ _ _ H0 eq_refl E) as (q' & _ & H1 & H2 & _).
  exists q'. split; [exact H1|exact H2].
Defined.
