(* ===== verification/Grep.v ===== *)
(** * user/grep.c

    The matcher of regular expressions, and the loop that cuts the input into
    lines.  [read] is a parameter: it gives at least one and at most the
    requested number of the bytes that are left, as the system call does for
    files, pipes and the console. *)
From S2P Require Import Prelude Cstring Ulib UlibFlags.

Module Grep.

(** [matchhere] recurs on the expression, [matchstar] on the text; [here] is
    [matchhere] of the expression after the star. *)
Fixpoint matchstar (here : list Z -> bool) (c : Z) (text : list Z) : bool :=
  if here text then true
  else match text with
       | [] => false
       | t :: text' => if (t =? c) || (c =? 46) then matchstar here c text' else false
       end.

Fixpoint matchhere (re : list Z) : list Z -> bool :=
  match re with
  | [] => fun _ => true
  | c :: re1 => fun text =>
      if at_ re1 0 =? 42 then
        match re1 with
        | _ :: re2 => matchstar (matchhere re2) c text
        | [] => false
        end
      else if (c =? 36) && (at_ re1 0 =? 0) then at_ text 0 =? 0
      else match text with
           | [] => false
           | t :: text' => if (c =? 46) || (c =? t) then matchhere re1 text' else false
           end
  end.

(** The loop of [match]: every end of the text, the empty one included. *)
Fixpoint match_any (re text : list Z) : bool :=
  if matchhere re text then true
  else match text with [] => false | _ :: text' => match_any re text' end.
Definition match_ (re text : list Z) : bool :=
  if at_ re 0 =? 94 then matchhere (tail re) text else match_any re text.

(** The inner loop of [grep]: the bytes printed and the rest after the last
    newline. *)
Fixpoint grep_lines (fuel : nat) (pattern p : list Z) (out : list Z) : outcome (list Z * list Z) :=
  match Ulib.strchr p 10 with
  | None => Ok (out, p)
  | Some q =>
      match fuel with
      | O => NoFuel
      | S f =>
          let line := take (length p - length q) p in
          let out := if match_ pattern line then out ++ line ++ [10] else out in
          grep_lines f pattern (tail q) out
      end
  end.

(** [read(fd, buf+m, sizeof(buf)-m-1)]. *)
Definition read_ (chunk : nat -> nat) (k : nat) (input : list Z) : list Z * list Z :=
  let n := Nat.min k (Nat.max 1 (chunk (length input))) in
  (take n input, drop n input).

Fixpoint grep_loop (fuel : nat) (chunk : nat -> nat) (pattern buf input out : list Z) : outcome (list Z) :=
  let '(got, rest) := read_ chunk (1024 - length buf - 1) input in
  match got with
  | [] => Ok out
  | _ =>
      match fuel with
      | O => NoFuel
      | S f =>
          '(out, buf) ← grep_lines 1024 pattern (buf ++ got) out;
          grep_loop f chunk pattern buf rest out
      end
  end.

Definition grep (chunk : nat -> nat) (pattern input : list Z) : outcome (list Z) :=
  grep_loop (length input) chunk pattern [] input [].

(** ** What expressions mean *)

Inductive pat := PNil | PEnd | PStar (c : Z) (p : pat) | PChar (c : Z) (p : pat).

Fixpoint parse (re : list Z) : pat :=
  match re with
  | [] => PNil
  | c :: re1 =>
      match re1 with
      | [] => if decide (c = 36) then PEnd else PChar c PNil
      | c1 :: re2 => if decide (c1 = 42) then PStar c (parse re2) else PChar c (parse re1)
      end
  end.

Definition fits (c t : Z) : Prop := c = 46 \/ c = t.

(** [starts p text]: [text] begins with a string that [p] describes. *)
Inductive starts : pat -> list Z -> Prop :=
| starts_nil text : starts PNil text
| starts_end : starts PEnd []
| starts_star c p u v : Forall (fits c) u -> starts p v -> starts (PStar c p) (u ++ v)
| starts_char c p t text : fits c t -> starts p text -> starts (PChar c p) (t :: text).

Definition matches (re text : list Z) : Prop :=
  match re with
  | c :: re' => if decide (c = 94) then starts (parse re') text else exists u v, text = u ++ v /\ starts (parse re) v
  | [] => True
  end.

Lemma fits_test c t : (c =? 46) || (c =? t) = true <-> fits c t.
Proof. unfold fits. rewrite orb_true_iff, !Z.eqb_eq. done. Qed.

Lemma starts_star_inv c p text : starts (PStar c p) text <->
  starts p text \/ exists t text', text = t :: text' /\ fits c t /\ starts (PStar c p) text'.
Proof.
  split.
  - inversion 1 as [| |? ? u v Hu Hv|]; subst. destruct u as [|t u]; [by left|right].
    apply Forall_cons in Hu as [Ht Hu]. exists t, (u ++ v). split_and!; auto. by constructor.
  - intros [H|(t & text' & -> & Ht & H)]; [by apply (starts_star c p [])|].
    inversion H as [| |? ? u v Hu Hv|]; subst. apply (starts_star c p (t :: u)); auto.
Qed.

Lemma matchhere_spec k : forall re text, (length re <= k)%nat -> no_nul re -> no_nul text ->
  matchhere re text = true <-> starts (parse re) text.
Proof.
  induction k as [|k IH]; intros re text Hk Hre Ht.
  { destruct re; [|cbn in Hk; lia]. cbn. split; [constructor|done]. }
  destruct re as [|c re1]; [cbn; split; [constructor|done]|]. cbn [length] in Hk. apply Forall_cons in Hre as [Hc Hre1].
  destruct re1 as [|c1 re2].
  - cbn [matchhere parse]. change (at_ [] 0) with 0. change (0 =? 42) with false. change (0 =? 0) with true. rewrite andb_true_r.
    destruct (decide (c = 36)) as [->|Hn].
    + rewrite Z.eqb_refl, Z.eqb_eq, at_nul by done. split; [destruct text; [constructor|cbn; lia]|]. by inversion 1.
    + rewrite (proj2 (Z.eqb_neq c 36)) by done. destruct text as [|t text]; [split; [done|inversion 1]|].
      destruct ((c =? 46) || (c =? t)) eqn:E.
      * split; [|done]. intros _. constructor; [by apply fits_test|constructor].
      * split; [done|]. inversion 1 as [| | |? ? ? ? Hf]; subst. apply fits_test in Hf. congruence.
  - pose proof Hre1 as Hre1'. apply Forall_cons in Hre1' as [Hc1 Hre2]. cbn [length] in Hk. cbn [parse]. destruct (decide (c1 = 42)) as [->|Hn].
    + cbn [matchhere]. change (at_ (42 :: re2) 0 =? 42) with true. cbv iota.
      induction text as [|t text IHt]; rewrite starts_star_inv; cbn [matchstar].
      * destruct (matchhere re2 []) eqn:E; [apply IH in E; auto; [tauto|lia]|]. split; [done|].
        intros [H|(? & ? & ? & _)]; [apply IH in H; auto; [congruence|lia]|done].
      * apply Forall_cons in Ht as [Ht0 Ht]. specialize (IHt Ht).
        assert (Hhere : matchhere re2 (t :: text) = true <-> starts (parse re2) (t :: text)) by (apply IH; [lia|done|by constructor]).
        destruct (matchhere re2 (t :: text)); [tauto|]. rewrite (orb_comm (t =? c)), (Z.eqb_sym t c).
        destruct ((c =? 46) || (c =? t)) eqn:E.
        -- rewrite IHt. apply fits_test in E. split; [intros H; right; eauto|].
           intros [H|(t' & text' & [= <- <-] & _ & H)]; [apply Hhere in H; done|done].
        -- split; [done|]. intros [H|(t' & text' & [= <- <-] & Hf & _)]; [apply Hhere in H; done|].
           apply fits_test in Hf. congruence.
    + cbn [matchhere]. change (at_ (c1 :: re2) 0) with c1. rewrite (proj2 (Z.eqb_neq c1 42)), (proj2 (Z.eqb_neq c1 0)) by done.
      rewrite andb_false_r. destruct text as [|t text]; [split; [done|inversion 1]|]. apply Forall_cons in Ht as [_ Ht].
      destruct ((c =? 46) || (c =? t)) eqn:E.
      * rewrite (IH (c1 :: re2) text) by (done || cbn; lia). split; [intros H; constructor; [by apply fits_test|done]|]. by inversion 1.
      * split; [done|]. inversion 1 as [| | |? ? ? ? Hf]; subst. apply fits_test in Hf. congruence.
Qed.

Lemma match_any_spec re text : no_nul re -> no_nul text ->
  match_any re text = true <-> exists u v, text = u ++ v /\ starts (parse re) v.
Proof.
  intros Hre. induction text as [|t text IH]; intros Ht; cbn [match_any].
  - pose proof (matchhere_spec (length re) re [] ltac:(lia) Hre Ht) as Hm. destruct (matchhere re []).
    + split; [|done]. intros _. exists [], []. tauto.
    + split; [done|]. intros (u & v & E & H). destruct u, v; try done. tauto.
  - pose proof (matchhere_spec (length re) re (t :: text) ltac:(lia) Hre Ht) as Hm. apply Forall_cons in Ht as [_ Ht].
    destruct (matchhere re (t :: text)).
    + split; [|done]. intros _. exists [], (t :: text). tauto.
    + rewrite (IH Ht). split.
      * intros (u & v & -> & H). by exists (t :: u), v.
      * intros ([|a u] & v & E & H); [cbn in E; subst v; apply Hm in H; done|]. injection E as -> ->. eauto.
Qed.

(** C28: grep's matcher is correct.  For expressions and texts without NUL,
    [match] answers whether the expression matches somewhere in the text, or
    at its beginning when it starts with [^]: the meaning of [c], [.], [c*]
    and a final [$] is given by the inductive relation [starts], on every end
    of the text.  The recursion of the matcher always ends. *)
Theorem grep_match_spec re text :
  no_nul re -> no_nul text -> match_ re text = true <-> matches re text.
Proof.
  intros Hre Ht. unfold match_, matches. destruct re as [|c re].
  - change (at_ [] 0 =? 94) with false. destruct text; done.
  - change (at_ (c :: re) 0) with c. destruct (Z.eqb_spec c 94) as [->|Hn].
    + rewrite decide_True by done. apply Forall_cons in Hre as [_ Hre]. by apply (matchhere_spec (length re)).
    + rewrite decide_False by done. by apply match_any_spec.
Qed.

(** [^ab*c$] and ["abbc"]. *)
Lemma grep_match_spec_witness : matches [94; 97; 98; 42; 99; 36] [97; 98; 98; 99].
Proof.
  apply (grep_match_spec [94; 97; 98; 42; 99; 36] [97; 98; 98; 99]); [repeat constructor; lia|repeat constructor; lia|vm_compute; reflexivity].
Defined.

(** ** Lines *)

(** The lines that end in a newline, and what follows the last of them;
    [cur] is the beginning of the current line. *)
Fixpoint lines (cur input : list Z) : list (list Z) * list Z :=
  match input with
  | [] => ([], cur)
  | c :: input' =>
      if decide (c = 10) then let '(ls, last_) := lines [] input' in (cur :: ls, last_)
      else lines (cur ++ [c]) input'
  end.

Definition selected (pattern : list Z) (ls : list (list Z)) : list Z :=
  concat (map (fun l => if match_ pattern l then l ++ [10] else []) ls).

Lemma selected_app pattern l1 l2 : selected pattern (l1 ++ l2) = selected pattern l1 ++ selected pattern l2.
Proof. unfold selected. by rewrite map_app, concat_app. Qed.

Definition plain (l : list Z) : Prop := Forall (fun c => c <> 10) l.

Lemma lines_plain cur u input : plain u -> lines cur (u ++ input) = lines (cur ++ u) input.
Proof.
  intros Hu. revert cur. induction Hu as [|c u Hc Hu IH]; intros cur; [by rewrite app_nil_r|]. cbn [app lines].
  rewrite decide_False by done. rewrite IH. by rewrite <- (assoc_L (++)).
Qed.

Lemma lines_app cur a b :
  lines cur (a ++ b) = (fst (lines cur a) ++ fst (lines (snd (lines cur a)) b), snd (lines (snd (lines cur a)) b)).
Proof.
  revert cur. induction a as [|c a IH]; intros cur; cbn [app lines].
  - cbn. by destruct (lines cur b).
  - destruct (decide (c = 10)); [|apply IH]. rewrite (IH []). by destruct (lines [] a).
Qed.

Lemma strchr_split p : no_nul p ->
  (Ulib.strchr p 10 = None /\ plain p) \/
  exists u v, p = u ++ 10 :: v /\ plain u /\ Ulib.strchr p 10 = Some (10 :: v).
Proof.
  induction p as [|c p IH]; intros Hp; [left; split; [done|constructor]|]. apply Forall_cons in Hp as [Hc Hp]. cbn [Ulib.strchr].
  rewrite (proj2 (Z.eqb_neq c 0)) by done. destruct (Z.eqb_spec c 10) as [->|Hn].
  - right. exists [], p. split_and!; [done|constructor|done].
  - destruct (IH Hp) as [[E H]|(u & v & -> & H & E)].
    + left. split; [done|]. by constructor.
    + right. exists (c :: u), v. split_and!; [done|by constructor|done].
Qed.

Lemma grep_lines_run pattern fuel : forall p out, no_nul p -> (length p <= fuel)%nat ->
  grep_lines fuel pattern p out = Ok (out ++ selected pattern (fst (lines [] p)), snd (lines [] p)).
Proof.
  induction fuel as [|fuel IH]; intros p out Hp Hf; destruct (strchr_split p Hp) as [[E H]|(u & v & -> & H & E)]; cbn [grep_lines];
    try (rewrite E, <- (app_nil_r p) at 1; rewrite <- (app_nil_r p), lines_plain by done; cbn; rewrite !app_nil_r; done).
  { rewrite length_app in Hf. cbn in Hf. lia. }
  rewrite E. apply Forall_app in Hp as [Hu Hv]. apply Forall_cons in Hv as [_ Hv]. rewrite length_app in *. cbn [length] in *.
  rewrite lines_plain by done. cbn [lines app]. rewrite decide_True by done.
  replace (length u + S (length v) - S (length v))%nat with (length u) by lia. rewrite take_app_length. cbn [tail].
  rewrite IH by (done || lia). destruct (lines [] v) as [ls last_]. cbn [fst snd]. unfold selected. cbn [map concat].
  destruct (match_ pattern u); by rewrite ?app_nil_l, <- ?(assoc_L (++)).
Qed.

(** Every line, and the part after the last newline, fits in the buffer. *)
Definition short (input : list Z) : Prop :=
  Forall (fun l => (length l < 1023)%nat) (fst (lines [] input)) /\ (length (snd (lines [] input)) < 1023)%nat.

Lemma lines_last cur a : plain cur -> plain (snd (lines cur a)) /\ exists w, cur ++ a = w ++ snd (lines cur a).
Proof.
  revert cur. induction a as [|c a IH]; intros cur Hc; cbn [lines].
  - split; [done|]. exists []. by rewrite app_nil_r.
  - destruct (decide (c = 10)) as [->|Hn].
    + destruct (IH [] ltac:(constructor)) as [H1 [w H2]]. destruct (lines [] a) as [ls l]. cbn [fst snd] in *. split; [done|].
      exists (cur ++ 10 :: w). rewrite <- (assoc_L (++)). cbn. by rewrite <- H2.
    + destruct (IH (cur ++ [c])) as [H1 [w H2]]; [by apply Forall_app; split; [|apply Forall_singleton]|]. split; [done|].
      exists w. rewrite <- H2, <- (assoc_L (++)). done.
Qed.

(** The beginning of a line is not longer than the line. *)
Lemma lines_cur_short i : forall cur, Forall (fun l => (length l < 1023)%nat) (fst (lines cur i)) ->
  (length (snd (lines cur i)) < 1023)%nat -> (length cur < 1023)%nat.
Proof.
  induction i as [|c i IH]; intros cur; cbn [lines]; [done|]. destruct (decide (c = 10)).
  - destruct (lines [] i). cbn. intros H _. by apply Forall_cons in H as [? _].
  - intros H1 H2. specialize (IH _ H1 H2). rewrite length_app in IH. lia.
Qed.

Lemma grep_loop_run chunk pattern input fuel : forall buf rest out pre, input = pre ++ rest -> no_nul input -> short input ->
  buf = snd (lines [] pre) -> (length rest <= fuel)%nat -> out = selected pattern (fst (lines [] pre)) ->
  grep_loop fuel chunk pattern buf rest out = Ok (selected pattern (fst (lines [] input))).
Proof.
  induction fuel as [|fuel IH]; intros buf rest out pre Hin Hn Hs Hb Hf Ho; cbn [grep_loop]; unfold read_.
  { destruct rest; [|cbn in Hf; lia]. rewrite take_nil. subst. by rewrite app_nil_r. }
  set (n := Nat.min _ _).
  assert (Hbuf : (length buf < 1023)%nat).
  { destruct Hs as [H1 H2]. rewrite Hin, lines_app in H1, H2. cbn [fst snd] in *. apply Forall_app in H1 as [_ H1].
    rewrite Hb. by apply (lines_cur_short rest). }
  assert (Hn1 : (1 <= n)%nat) by (unfold n; lia).
  destruct (take n rest) as [|x l] eqn:Et.
  { destruct rest; [subst; by rewrite app_nil_r|]. destruct n; [lia|done]. }
  assert (Hlt : (length (x :: l) <= 1023 - length buf)%nat) by (rewrite <- Et, length_take; unfold n; lia).
  assert (Hr : rest = (x :: l) ++ drop n rest) by (rewrite <- Et; by rewrite take_drop). clear Et. set (got := x :: l) in *.
  destruct (lines_last [] pre ltac:(constructor)) as [Hpl [w Hw]]. cbn [app] in Hw.
  assert (Hng : no_nul (buf ++ got)).
  { rewrite Hin, Hr, Hw, <- Hb in Hn. rewrite <- (assoc_L (++)), (assoc_L (++) buf) in Hn. apply Forall_app in Hn as [_ Hn].
    by apply Forall_app in Hn as [Hn _]. }
  rewrite grep_lines_run by (rewrite ?length_app; done || lia). cbn [mbind outcome_bind].
  rewrite Hb, lines_plain, app_nil_l by done.
  apply (IH _ _ _ (pre ++ got)); auto.
  - by rewrite Hin, Hr at 1; rewrite (assoc_L (++)).
  - by rewrite lines_app.
  - rewrite length_drop. lia.
  - by rewrite lines_app, Ho; cbn [fst]; rewrite selected_app.
Qed.

(** C29: grep prints exactly the matching lines.  When no line is longer than
    the buffer allows, and however [read] cuts the input into pieces, the
    output is the concatenation, in order, of the lines that end in a newline
    and match the pattern.  (A last line without a newline is not examined;
    a longer line ends the loop, because [read] is asked for 0 bytes.) *)
Theorem grep_prints_matching_lines chunk pattern input :
  no_nul input -> short input ->
  grep chunk pattern input = Ok (selected pattern (fst (lines [] input))).
Proof. intros Hn Hs. apply (grep_loop_run chunk pattern input _ _ _ _ []); auto. Qed.

(** [grep b] on ["ab\nc\nb"], read one byte at a time. *)
Lemma grep_prints_matching_lines_witness : grep (fun _ => 1%nat) [98] [97; 98; 10; 99; 10; 98] = Ok [97; 98; 10].
Proof.
  assert (Hn : no_nul [97; 98; 10; 99; 10; 98]) by (repeat (apply Forall_cons; split; [lia|]); apply Forall_nil; done).
  assert (Hs : short [97; 98; 10; 99; 10; 98]).
  { split; [|vm_compute; lia]. change (fst (lines [] [97; 98; 10; 99; 10; 98])) with [[97; 98]; [99]].
    repeat (apply Forall_cons; split; [cbn; lia|]). apply Forall_nil. done. }
  exact (grep_prints_matching_lines (fun _ => 1%nat) [98] [97; 98; 10; 99; 10; 98] Hn Hs).
Defined.

End Grep.
