(* ===== verification/GameTree.v ===== *)
(** * Alpha-beta search

    The loops over the moves that user/xo.c and user/c4.c share: a move is
    searched with the window that the moves before it have left, and the loop
    ends when the window is empty.  [bounds] is what a search with a window
    says of the value of a position; the loops keep it, so a search with the
    full window finds the value of exhaustive search and a move that has it. *)
From S2P Require Import Prelude.

Section Loops.
Context {A : Type}.

(** [call alpha beta x] searches the position after move [x], whose number is
    [mv x].  The result is [best], the move and the window's changed side. *)
Fixpoint max_loop (call : Z -> Z -> A -> Z) (mv : A -> Z) (l : list A) (best move alpha beta : Z) : Z * Z * Z :=
  match l with
  | [] => (best, move, alpha)
  | x :: l' =>
      let v := call alpha beta x in
      let '(best, move) := if best <? v then (v, mv x) else (best, move) in
      let alpha := if alpha <? best then best else alpha in
      if beta <=? alpha then (best, move, alpha) else max_loop call mv l' best move alpha beta
  end.

Fixpoint min_loop (call : Z -> Z -> A -> Z) (mv : A -> Z) (l : list A) (best move alpha beta : Z) : Z * Z * Z :=
  match l with
  | [] => (best, move, beta)
  | x :: l' =>
      let v := call alpha beta x in
      let '(best, move) := if v <? best then (v, mv x) else (best, move) in
      let beta := if best <? beta then best else beta in
      if beta <=? alpha then (best, move, beta) else min_loop call mv l' best move alpha beta
  end.

(** Exhaustive search. *)
Definition max_value (val : A -> Z) (l : list A) (m : Z) : Z := foldl (fun m x => Z.max m (val x)) m l.
Definition min_value (val : A -> Z) (l : list A) (m : Z) : Z := foldl (fun m x => Z.min m (val x)) m l.

Lemma max_value_ge val l : forall m, m <= max_value val l m.
Proof. induction l as [|x l IH]; intros m; cbn; [lia|]. specialize (IH (Z.max m (val x))). unfold max_value in IH. lia. Qed.

Lemma max_value_in val l : forall m x, x ∈ l -> val x <= max_value val l m.
Proof.
  induction l as [|y l IH]; intros m x Hx; [by apply elem_of_nil in Hx|]. cbn. apply elem_of_cons in Hx as [->|Hx]; [|by apply IH].
  pose proof (max_value_ge val l (Z.max m (val y))) as H. unfold max_value in H. lia.
Qed.

Lemma max_value_cases val l : forall m, max_value val l m = m \/ exists x, x ∈ l /\ max_value val l m = val x.
Proof.
  induction l as [|y l IH]; intros m; cbn; [by left|]. destruct (IH (Z.max m (val y))) as [E|(x & Hx & E)];
    unfold max_value in E; rewrite E; [|right; exists x; split; [by right|done]].
  destruct (Z.max_spec m (val y)) as [[_ ->]|[_ ->]]; [right; exists y; split; [by left|done]|by left].
Qed.

Lemma min_max_value val l : forall m, min_value val l m = - max_value (fun x => - val x) l (- m).
Proof.
  induction l as [|x l IH]; intros m; cbn; [lia|]. unfold min_value in IH. rewrite IH. unfold max_value. f_equal. f_equal. lia.
Qed.

Lemma min_max_loop call mv l : forall best move alpha beta,
  min_loop call mv l best move alpha beta =
  let '(b, m, a) := max_loop (fun a b x => - call (- b) (- a) x) mv l (- best) move (- beta) (- alpha) in (- b, m, - a).
Proof.
  induction l as [|x l IH]; intros best move alpha beta; cbn [min_loop max_loop]; [by rewrite !Z.opp_involutive|].
  rewrite !Z.opp_involutive. set (v := call alpha beta x).
  replace (- best <? - v) with (v <? best) by (destruct (Z.ltb_spec v best), (Z.ltb_spec (- best) (- v)); lia).
  destruct (v <? best) eqn:E1;
    [replace (- beta <? - v) with (v <? beta) by (destruct (Z.ltb_spec v beta), (Z.ltb_spec (- beta) (- v)); lia); destruct (v <? beta) eqn:E2
    |replace (- beta <? - best) with (best <? beta) by (destruct (Z.ltb_spec best beta), (Z.ltb_spec (- beta) (- best)); lia); destruct (best <? beta) eqn:E2];
    match goal with |- context [?p <=? - ?q] => replace (p <=? - q) with (q <=? - p) by (destruct (Z.leb_spec q (- p)), (Z.leb_spec p (- q)); lia) end;
    rewrite ?Z.opp_involutive; destruct (_ <=? alpha) eqn:E3; rewrite ?Z.opp_involutive; auto.
Qed.

(** The result [r] of a search with the window from [alpha] to [beta] of a
    position with value [v]. *)
Definition bounds (alpha beta r v : Z) : Prop :=
  (r <= alpha -> v <= r) /\ (beta <= r -> r <= v) /\ (alpha < r < beta -> r = v).

Lemma bounds_opp alpha beta r v : bounds (- beta) (- alpha) (- r) (- v) <-> bounds alpha beta r v.
Proof. unfold bounds. split; intros (H1 & H2 & H3); split_and!; lia. Qed.

Section Max.
Variables (call : Z -> Z -> A -> Z) (mv : A -> Z) (val : A -> Z) (alpha beta hi : Z).

(** What the loop knows before the next move: [m] is the value of the moves
    before it; [hi] is an upper bound of the results. *)
Definition searched (best a m : Z) : Prop :=
  alpha <= a < beta /\ a <= Z.max alpha best /\ best < beta /\ best <= hi /\ (best <= alpha -> m <= best) /\ (alpha < best -> best = m).

Lemma max_loop_bounds l :
  (forall x a, x ∈ l -> alpha <= a < beta -> a <= Z.max alpha hi ->
     bounds a beta (call a beta x) (val x) /\ call a beta x <= hi) ->
  forall best move a m, searched best a m ->
  let '(r, move', _) := max_loop call mv l best move a beta in
  bounds alpha beta r (max_value val l m) /\
  (alpha < r < beta -> r = best /\ move' = move \/ best < r /\ exists x, x ∈ l /\ move' = mv x /\ val x = r).
Proof.
  intros Hc. induction l as [|x l IH]; intros best move a m (Ha & Ha' & Hb & Hh & H1 & H2); cbn [max_loop].
  { split; [split_and!; cbn; lia|]. intros _. by left. }
  pose proof (Hc x a ltac:(by left) Ha ltac:(lia)) as ((C1 & C2 & C3) & C4). set (v := call a beta x) in *. cbn [max_value foldl].
  pose proof (max_value_ge val l (Z.max m (val x))) as Hge. unfold max_value in Hge.
  assert (IH' := IH (fun y a Hy => Hc y a (list_elem_of_further _ _ _ Hy))). clear IH.
  assert (Hstep : forall b mo, searched b (if a <? b then b else a) (Z.max m (val x)) ->
    (b = best /\ mo = move \/ best < b /\ mo = mv x /\ (alpha < b -> val x = b)) ->
    let '(r, move', _) := max_loop call mv l b mo (if a <? b then b else a) beta in
    bounds alpha beta r (max_value val l (Z.max m (val x))) /\
    (alpha < r < beta -> r = best /\ move' = move \/ best < r /\ exists y, y ∈ x :: l /\ move' = mv y /\ val y = r)).
  { intros b mo Hs Hcase. specialize (IH' b mo _ _ Hs). destruct (max_loop _ _ _ _ _ _ _) as [[r move'] a']. destruct IH' as [Hb' Hm]. split; [done|].
    intros Hr. destruct (Hm Hr) as [[-> ->]|(Hlt & y & Hy & E1 & E2)].
    - destruct Hcase as [[-> ->]|(Hlt & -> & E)]; [by left|]. right. split; [done|]. exists x. split; [by left|]. split; [done|]. apply E. lia.
    - right. split; [destruct Hcase as [[-> _]|[? _]]; lia|]. exists y. split; [by right|done]. }
  destruct (best <? v) eqn:E; bool_to_prop.
  - destruct (beta <=? _) eqn:Eb; bool_to_prop.
    + split; [|intros Hr; right; split; [lia|]; exists x; split; [by left|]; split; [done|]; destruct (a <? v) eqn:?; bool_to_prop; lia].
      unfold max_value. destruct (a <? v) eqn:?; bool_to_prop; split_and!; lia.
    + apply Hstep; [|right; split; [lia|]; split; [done|]; destruct (a <? v) eqn:?; bool_to_prop; lia].
      unfold searched. destruct (a <? v) eqn:?; bool_to_prop; split_and!; lia.
  - destruct (beta <=? _) eqn:Eb; bool_to_prop; [destruct (a <? best) eqn:?; bool_to_prop; lia|].
    apply Hstep; [|by left]. unfold searched. destruct (a <? best) eqn:?; bool_to_prop; split_and!; lia.
Qed.

End Max.

(** The results of the moves bound the result of a loop over some. *)
Lemma max_loop_range call mv lo hi l : (forall x a b, x ∈ l -> lo <= call a b x <= hi) ->
  forall best move alpha beta, best <= hi -> l <> [] \/ lo <= best ->
  let '(r, _, _) := max_loop call mv l best move alpha beta in lo <= r <= hi.
Proof.
  intros Hc. induction l as [|x l IH]; intros best move alpha beta Hh Hl; cbn [max_loop]; [destruct Hl; [done|lia]|].
  pose proof (Hc x alpha beta ltac:(by left)) as Hx. set (v := call alpha beta x) in *.
  assert (IH' := IH (fun y a b Hy => Hc y a b (list_elem_of_further _ _ _ Hy))).
  destruct (best <? v) eqn:E; bool_to_prop; (destruct (beta <=? _); [cbn; lia|]); (apply IH'; [lia|right; lia]).
Qed.

Lemma min_loop_range call mv lo hi l best move alpha beta : (forall x a b, x ∈ l -> lo <= call a b x <= hi) ->
  lo <= best -> l <> [] \/ best <= hi ->
  let '(r, _, _) := min_loop call mv l best move alpha beta in lo <= r <= hi.
Proof.
  intros Hc Hb Hl. rewrite min_max_loop.
  pose proof (max_loop_range (fun a b x => - call (- b) (- a) x) mv (- hi) (- lo) l) as H.
  specialize (H ltac:(intros x a b Hx; specialize (Hc x (- b) (- a) Hx); cbn; lia) (- best) move (- beta) (- alpha) ltac:(lia)).
  specialize (H ltac:(destruct Hl; [by left|right; lia])). destruct (max_loop _ _ _ _ _ _ _) as [[r m] a]. lia.
Qed.

(** A window that is not empty is cut only by a move. *)
Lemma max_loop_app call mv l1 l2 : forall best move alpha beta, alpha < beta ->
  max_loop call mv (l1 ++ l2) best move alpha beta =
  let '(b, m, a) := max_loop call mv l1 best move alpha beta in
  if beta <=? a then (b, m, a) else max_loop call mv l2 b m a beta.
Proof.
  induction l1 as [|x l1 IH]; intros best move alpha beta H; cbn [app max_loop]; [by rewrite (proj2 (Z.leb_gt _ _)) by lia|].
  destruct (if best <? _ then _ else _) as [b m]. destruct (beta <=? _) eqn:E; [by rewrite E|]. bool_to_prop. apply IH. lia.
Qed.

Lemma min_loop_app call mv l1 l2 best move alpha beta : alpha < beta ->
  min_loop call mv (l1 ++ l2) best move alpha beta =
  let '(b, m, a) := min_loop call mv l1 best move alpha beta in
  if a <=? alpha then (b, m, a) else min_loop call mv l2 b m alpha a.
Proof.
  intros H. rewrite !min_max_loop, max_loop_app by lia. destruct (max_loop _ _ l1 _ _ _ _) as [[b m] a].
  replace (- alpha <=? a) with (- a <=? alpha) by (destruct (Z.leb_spec (- a) alpha), (Z.leb_spec (- alpha) a); lia).
  destruct (- a <=? alpha); [done|]. by rewrite min_max_loop, !Z.opp_involutive.
Qed.

Lemma min_loop_bounds call mv val alpha beta lo l best move :
  (forall x b, x ∈ l -> alpha < b <= beta -> Z.min beta lo <= b ->
     bounds alpha b (call alpha b x) (val x) /\ lo <= call alpha b x) ->
  alpha < beta -> alpha < best -> lo <= best ->
  let '(r, move', _) := min_loop call mv l best move alpha beta in
  bounds alpha beta r (min_value val l best) /\
  (alpha < r < beta -> r = best /\ move' = move \/ r < best /\ exists x, x ∈ l /\ move' = mv x /\ val x = r).
Proof.
  intros Hc Hw Hb Hl. rewrite min_max_loop, min_max_value.
  pose proof (max_loop_bounds (fun a b x => - call (- b) (- a) x) mv (fun x => - val x) (- beta) (- alpha) (- lo) l) as H.
  assert (Hc' : forall x a, x ∈ l -> - beta <= a < - alpha -> a <= Z.max (- beta) (- lo) ->
    bounds a (- alpha) (- call (- - alpha) (- a) x) (- val x) /\ - call (- - alpha) (- a) x <= - lo).
  { intros x a Hx Ha Hm. destruct (Hc x (- a) Hx) as [C1 C2]; [lia..|]. rewrite Z.opp_involutive. split; [|lia].
    apply bounds_opp. by rewrite !Z.opp_involutive. }
  specialize (H Hc' (- best) move (- beta) (- best)).
  specialize (H ltac:(unfold searched; lia)). destruct (max_loop _ _ _ _ _ _ _) as [[r m] a]. destruct H as [H1 H2].
  split; [apply bounds_opp; by rewrite !Z.opp_involutive|]. intros Hr.
  destruct (H2 ltac:(lia)) as [[-> ->]|(Hlt & x & Hx & -> & E)]; [left; lia|right; split; [lia|]; exists x; split; [done|]; split; [done|lia]].
Qed.

End Loops.
