(* ===== verification/Xo.v ===== *)
(** * user/xo.c: tic-tac-toe and its computer player

    The board is the list of its nine characters, row by row: [X], [O] or the
    digit of a free cell.  [minimax] works on the board in place, as the code
    does, and stores the move it found for depth 0 through [bestMove], which is
    not set before.  One iteration of the inner loop of [main] is [turn], with
    the bytes that [read] delivers if it is a person's turn; what the program
    prints is left out. *)
From S2P Require Import Prelude Cstring Ulib GameTree.

Module Xo.

Definition B : nat := 3.
Definition chX : Z := 88.
Definition chO : Z := 79.

Abbreviation board := (list Z).

Definition cell (b : board) (i j : nat) : Z := default 0 (b !! (i * B + j)%nat).
Definition set_cell (i j : nat) (c : Z) (b : board) : board := <[(i * B + j)%nat := c]> b.

Definition init_board : board := (fun k => 49 + Z.of_nat k) <$> seq 0 9.

Definition win (b : board) : bool :=
  existsb (fun i => (cell b i 0 =? cell b i 1) && (cell b i 1 =? cell b i 2)) [0; 1; 2]%nat
  || existsb (fun j => (cell b 0 j =? cell b 1 j) && (cell b 1 j =? cell b 2 j)) [0; 1; 2]%nat
  || (cell b 0 0 =? cell b 1 1) && (cell b 1 1 =? cell b 2 2)
  || (cell b 0 2 =? cell b 1 1) && (cell b 1 1 =? cell b 2 0).

Definition draw (b : board) : bool :=
  negb (existsb (fun i => existsb (fun j => (49 <=? cell b i j) && (cell b i j <=? 57)) [0; 1; 2]%nat) [0; 1; 2]%nat).

Definition make_move (curr pos : Z) (b : board) : option board :=
  if (pos <? 1) || (9 <? pos) then None
  else
    let r := Z.to_nat ((pos - 1) / Z.of_nat B) in
    let c := Z.to_nat ((pos - 1) mod Z.of_nat B) in
    if (cell b r c =? chX) || (cell b r c =? chO) then None
    else Some (set_cell r c curr b).

Fixpoint atoi_skip (s : list Z) : list Z :=
  match s with
  | c :: s' => if negb (c =? 0) && ((c <? 48) || (57 <? c)) then atoi_skip s' else s
  | [] => []
  end.

Definition simple_atoi (s : list Z) : Z := Ulib.atoi_loop (atoi_skip s) 0.

(** ** The computer player *)

(** The score of a line of three equal cells, if it decides the game. *)
Definition line_score (b : board) (p q r : nat * nat) : option Z :=
  let c '(i, j) := cell b i j in
  if (c p =? c q) && (c q =? c r) then
    if c p =? chO then Some 10 else if c p =? chX then Some (-10) else None
  else None.

Definition lines3 : list ((nat * nat) * (nat * nat) * (nat * nat)) :=
  ((fun i => ((i, 0), (i, 1), (i, 2))) <$> [0; 1; 2])%nat
  ++ ((fun j => ((0, j), (1, j), (2, j))) <$> [0; 1; 2])%nat
  ++ [((0, 0), (1, 1), (2, 2)); ((0, 2), (1, 1), (2, 0))]%nat.

Fixpoint first_score (b : board) (l : list ((nat * nat) * (nat * nat) * (nat * nat))) : Z :=
  match l with
  | [] => 0
  | (p, q, r) :: l' => match line_score b p q r with Some v => v | None => first_score b l' end
  end.

(** Rows, columns and diagonals, in this order. *)
Definition evaluate_board (b : board) : Z := first_score b lines3.

Definition is_free (c : Z) : bool := negb (c =? chX) && negb (c =? chO).

Abbreviation state := (board * option Z)%type.

Section Search.
Variable rec : Z -> Z -> state -> outcome (Z * state).
Variable mark : Z.

(** [mark] in cell [i], [j], the search, and the cell as it was. *)
Definition try_cell (i j : nat) (alpha beta : Z) (s : state) : outcome (Z * state) :=
  let backup := cell s.1 i j in
  '(val, s) ← rec alpha beta (set_cell i j mark s.1, s.2);
  Ok (val, (set_cell i j backup s.1, s.2)).

Definition move_no (i j : nat) : Z := Z.of_nat i * 3 + 1 + Z.of_nat j.

(** The two loops of the maximizing player; [n] iterations are left.  The
    result is [best], [localBestMove] and [alpha]. *)
Fixpoint max_cols (n i j : nat) (best move alpha beta : Z) (s : state) : outcome (Z * Z * Z * state) :=
  match n with
  | O => Ok (best, move, alpha, s)
  | S n' =>
      if is_free (cell s.1 i j) then
        '(val, s) ← try_cell i j alpha beta s;
        let '(best, move) := if best <? val then (val, move_no i j) else (best, move) in
        let alpha := if alpha <? best then best else alpha in
        if beta <=? alpha then Ok (best, move, alpha, s) else max_cols n' i (S j) best move alpha beta s
      else max_cols n' i (S j) best move alpha beta s
  end.

Fixpoint max_rows (n i : nat) (best move alpha beta : Z) (s : state) : outcome (Z * Z * Z * state) :=
  match n with
  | O => Ok (best, move, alpha, s)
  | S n' =>
      '(best, move, alpha, s) ← max_cols B i 0 best move alpha beta s;
      if beta <=? alpha then Ok (best, move, alpha, s) else max_rows n' (S i) best move alpha beta s
  end.

(** The loops of the minimizing player; the window changes at [beta]. *)
Fixpoint min_cols (n i j : nat) (best move alpha beta : Z) (s : state) : outcome (Z * Z * Z * state) :=
  match n with
  | O => Ok (best, move, beta, s)
  | S n' =>
      if is_free (cell s.1 i j) then
        '(val, s) ← try_cell i j alpha beta s;
        let '(best, move) := if val <? best then (val, move_no i j) else (best, move) in
        let beta := if best <? beta then best else beta in
        if beta <=? alpha then Ok (best, move, beta, s) else min_cols n' i (S j) best move alpha beta s
      else min_cols n' i (S j) best move alpha beta s
  end.

Fixpoint min_rows (n i : nat) (best move alpha beta : Z) (s : state) : outcome (Z * Z * Z * state) :=
  match n with
  | O => Ok (best, move, beta, s)
  | S n' =>
      '(best, move, beta, s) ← min_cols B i 0 best move alpha beta s;
      if beta <=? alpha then Ok (best, move, beta, s) else min_rows n' (S i) best move alpha beta s
  end.

End Search.

(** Every level of the recursion fills a cell: fuel 10 is enough. *)
Fixpoint minimax (k : nat) (depth : Z) (isMax : bool) (alpha beta : Z) (s : state) : outcome (Z * state) :=
  match k with
  | O => NoFuel
  | S k' =>
      let score := evaluate_board s.1 in
      if score =? 10 then Ok (score - depth, s)
      else if score =? -10 then Ok (score + depth, s)
      else if draw s.1 then Ok (0, s)
      else
        '(best, localBestMove, _, s) ←
          (if isMax then max_rows (minimax k' (depth + 1) false) chO B 0 (-10000) (-1) alpha beta s
           else min_rows (minimax k' (depth + 1) true) chX B 0 10000 (-1) alpha beta s);
        Ok (best, if depth =? 0 then (s.1, Some localBestMove) else s)
  end.

(** ** The game *)

Record game := Game { xo_board : board; xo_curr : Z }.

Inductive event := Continues | Exits | Wins (c : Z) | Drawn.

(** The move of the current player, and whether the game is over. *)
Definition play (pos : Z) (g : game) : event * game :=
  match make_move (xo_curr g) pos (xo_board g) with
  | None => (Continues, g)
  | Some b =>
      if win b then (Wins (xo_curr g), Game b (xo_curr g))
      else if draw b then (Drawn, Game b (xo_curr g))
      else (Continues, Game b (if xo_curr g =? chX then chO else chX))
  end.

Definition exit_str : list Z := [101; 120; 105; 116].

(** [buf] after [read]: its last byte is dropped if it is a newline. *)
Definition chomp (buf : list Z) : list Z :=
  match last buf with Some 10 => <[(length buf - 1)%nat := 0]> buf | _ => buf end.

(** [pos] has no value before [minimax] sets it. *)
Definition turn (ai_mode : bool) (buf : list Z) (g : game) : outcome (event * game) :=
  if ai_mode && (xo_curr g =? chO) then
    '(_, (b, pos)) ← minimax 10 0 true (-1000000) 1000000 (xo_board g, None);
    match pos with
    | None => Panic "pos is not set"
    | Some pos => Ok (play pos (Game b (xo_curr g)))
    end
  else if Z.of_nat (length buf) <=? 0 then Ok (Continues, g)
  else
    let buf := chomp buf in
    if Ulib.strcmp buf exit_str =? 0 then Ok (Exits, g)
    else Ok (play (simple_atoi buf) g).

(** A game with the answers of [read] to the turns; an answer at the
    computer's turn is not looked at. *)
Fixpoint game_run (ai_mode : bool) (bufs : list (list Z)) (g : game) : outcome (event * game) :=
  match bufs with
  | [] => Ok (Continues, g)
  | buf :: bufs' =>
      '(e, g) ← turn ai_mode buf g;
      match e with Continues => game_run ai_mode bufs' g | _ => Ok (e, g) end
  end.

(** [random_starter] decides who begins. *)
Definition new_game (randd : Z) : game := Game init_board (if Z.rem randd 2 =? 0 then chX else chO).

End Xo.

(** * The computer player of xo.c never loses

    [minimax], which marks cells of the board in place and cuts off moves,
    finds the value of exhaustive search and a move that has it; so the
    computer player keeps the property that the person cannot force a win. *)

Import Xo.

Abbreviation pos_ := (nat * nat)%type.

(** ** Boards *)

Definition put (ij : pos_) (c : Z) (b : board) : board := set_cell ij.1 ij.2 c b.
Definition get (b : board) (ij : pos_) : Z := cell b ij.1 ij.2.

(** Every cell has a mark or its digit. *)
Definition wf (b : board) : Prop :=
  length b = 9%nat /\ forall k c, b !! k = Some c -> c = chX \/ c = chO \/ c = 49 + Z.of_nat k.

Definition row (n i j : nat) : list pos_ := pair i <$> seq j n.
Definition grid : list pos_ := row 3 0 0 ++ row 3 1 0 ++ row 3 2 0.
Definition frees (b : board) (l : list pos_) : list pos_ := filter (fun ij => is_free (get b ij) = true) l.

Lemma frees_app b l1 l2 : frees b (l1 ++ l2) = frees b l1 ++ frees b l2.
Proof. apply filter_app. Qed.

Definition on_grid (ij : pos_) : Prop := (ij.1 < 3 /\ ij.2 < 3)%nat.

Lemma elem_grid ij : ij ∈ grid <-> on_grid ij.
Proof.
  unfold on_grid. destruct ij as [i j]. cbn. split.
  - intros H. repeat (apply elem_of_cons in H as [[= -> ->]|H]; [lia|]). by apply elem_of_nil in H.
  - intros [Hi Hj]. destruct i as [|[|[|i]]]; [| | |lia]; destruct j as [|[|[|j]]]; try lia; set_solver.
Qed.

Lemma elem_frees b ij : ij ∈ frees b grid <-> on_grid ij /\ is_free (get b ij) = true.
Proof. unfold frees. rewrite list_elem_of_filter, elem_grid. tauto. Qed.

Lemma get_put_eq b ij c : length b = 9%nat -> on_grid ij -> get (put ij c b) ij = c.
Proof. intros Hl [Hi Hj]. unfold get, put, cell, set_cell, B. by rewrite list_lookup_insert_eq by lia. Qed.

Lemma get_put_ne b ij ij' c : on_grid ij -> on_grid ij' -> ij <> ij' -> get (put ij c b) ij' = get b ij'.
Proof.
  intros [Hi Hj] [Hi' Hj'] Hne. unfold get, put, cell, set_cell, B. rewrite list_lookup_insert_ne; [done|].
  intros E. apply Hne. destruct ij as [i j], ij' as [i' j']; cbn in *. f_equal; lia.
Qed.

Lemma put_get b ij c : length b = 9%nat -> on_grid ij -> put ij (get b ij) (put ij c b) = b.
Proof.
  intros Hl [Hi Hj]. unfold get, put, cell, set_cell, B. rewrite list_insert_insert_eq. apply list_insert_id.
  destruct (lookup_lt_is_Some_2 b (ij.1 * 3 + ij.2) ltac:(lia)) as [x E]. by rewrite E.
Qed.

Lemma wf_get b ij : wf b -> on_grid ij ->
  get b ij = chX \/ get b ij = chO \/ get b ij = 49 + Z.of_nat (ij.1 * 3 + ij.2).
Proof.
  intros [Hl Hc] [Hi Hj]. unfold get, cell, B. destruct (lookup_lt_is_Some_2 b (ij.1 * 3 + ij.2) ltac:(lia)) as [x E].
  rewrite E. cbn. by apply Hc.
Qed.

Lemma wf_put b ij c : wf b -> c = chX \/ c = chO -> wf (put ij c b).
Proof.
  intros [Hl Hc] Hm. unfold put, set_cell. split; [by rewrite length_insert|]. intros k x Hk.
  apply list_lookup_insert_Some in Hk as [(_ & -> & _)|[_ Hk]]; [tauto|by apply Hc].
Qed.

Lemma wf_init : wf init_board.
Proof.
  split; [reflexivity|]. intros k c H. right; right. unfold init_board in H. apply list_lookup_fmap_Some in H as (x & -> & Hx).
  apply lookup_seq in Hx as [-> _]. done.
Qed.

Lemma frees_ext b b' l : (forall x, x ∈ l -> is_free (get b x) = is_free (get b' x)) -> frees b l = frees b' l.
Proof.
  unfold frees. induction l as [|x l IH]; intros H; [done|]. rewrite !filter_cons, (H x ltac:(by left)), IH; [done|].
  intros y Hy. apply H. by right.
Qed.

(** A move takes one free cell. *)
Lemma frees_put b ij c l : c = chX \/ c = chO -> length b = 9%nat -> (forall x, x ∈ l -> on_grid x) -> NoDup l ->
  ij ∈ frees b l -> length (frees b l) = S (length (frees (put ij c b) l)).
Proof.
  intros Hm Hl Hg Hnd Hin. assert (Hij : on_grid ij) by (apply Hg; unfold frees in Hin; apply list_elem_of_filter in Hin as [_ H]; exact H).
  assert (Ho : forall x, on_grid x -> x <> ij -> is_free (get b x) = is_free (get (put ij c b) x)) by (intros x Hx Hne; by rewrite get_put_ne).
  assert (He : is_free (get (put ij c b) ij) = false) by (rewrite get_put_eq by done; destruct Hm as [-> | ->]; reflexivity).
  apply list_elem_of_filter in Hin as [Hf Hin].
  induction l as [|x l IH]; [by apply elem_of_nil in Hin|]. apply NoDup_cons in Hnd as [Hx Hnd].
  assert (Hgl : forall y, y ∈ l -> on_grid y) by (intros y Hy; apply Hg; by right).
  unfold frees. rewrite !filter_cons. fold (frees b l) (frees (put ij c b) l). destruct (decide (x = ij)) as [->|Hne].
  - rewrite He, Hf, (decide_False (P := false = true)), decide_True by done. cbn. do 2 f_equal. apply frees_ext.
    intros y Hy. apply Ho; [by apply Hgl|by intros ->].
  - rewrite <- (Ho x) by (auto; apply Hg; by left). apply elem_of_cons in Hin as [E|Hin]; [by subst|].
    destruct (decide _); cbn; by rewrite IH.
Qed.

Lemma grid_nodup : NoDup grid.
Proof. apply (bool_decide_unpack _). by vm_compute. Qed.

Lemma frees_move b ij c : wf b -> c = chX \/ c = chO -> ij ∈ frees b grid ->
  length (frees b grid) = S (length (frees (put ij c b) grid)).
Proof. intros [Hl _] Hm. apply frees_put; auto using grid_nodup. intros x. apply elem_grid. Qed.

(** [draw] and the free cells. *)
Lemma draw_frees b : wf b -> draw b = bool_decide (frees b grid = []).
Proof.
  intros Hw. unfold draw. destruct (existsb _ _) eqn:E; cbn [negb]; symmetry.
  - apply bool_decide_eq_false. apply existsb_exists in E as (i & Hi & E). apply existsb_exists in E as (j & Hj & E). bool_to_prop.
    assert (Hin : (i, j) ∈ frees b grid); [|intros En; rewrite En in Hin; by apply elem_of_nil in Hin].
    apply elem_frees. split; [unfold on_grid; cbn in *; lia|]. unfold is_free, get. cbn [fst snd]. unfold chX, chO.
    rewrite !(proj2 (Z.eqb_neq _ _)) by lia. done.
  - apply bool_decide_eq_true. destruct (frees b grid) as [|ij l] eqn:Ef; [done|]. exfalso.
    assert (Hin : ij ∈ frees b grid) by (rewrite Ef; by left). apply elem_frees in Hin as [Hg Hf].
    apply not_true_iff_false in E. apply E. destruct (Hg) as [Hi Hj]. apply existsb_exists. exists ij.1. split; [cbn; lia|].
    apply existsb_exists. exists ij.2. split; [cbn; lia|]. destruct (wf_get b ij Hw Hg) as [H|[H|H]];
      rewrite H in Hf; try discriminate. unfold get in H. rewrite H. apply andb_true_iff. split; apply Z.leb_le; lia.
Qed.

(** ** Exhaustive search *)

(** [minimax] without cutting off. *)
Fixpoint value (k : nat) (depth : Z) (isMax : bool) (b : board) : Z :=
  match k with
  | O => 0
  | S k' =>
      let score := evaluate_board b in
      if score =? 10 then score - depth
      else if score =? -10 then score + depth
      else if draw b then 0
      else if isMax then max_value (fun ij => value k' (depth + 1) false (put ij chO b)) (frees b grid) (-10000)
      else min_value (fun ij => value k' (depth + 1) true (put ij chX b)) (frees b grid) 10000
  end.

(** ** [minimax] as a function *)

Definition move_of (ij : pos_) : Z := move_no ij.1 ij.2.

(** The result of [minimax] and its [localBestMove]. *)
Fixpoint search (k : nat) (depth : Z) (isMax : bool) (alpha beta : Z) (b : board) : Z * Z :=
  match k with
  | O => (0, -1)
  | S k' =>
      let score := evaluate_board b in
      if score =? 10 then (score - depth, -1)
      else if score =? -10 then (score + depth, -1)
      else if draw b then (0, -1)
      else
        let '(best, move, _) :=
          if isMax then max_loop (fun a bt ij => (search k' (depth + 1) false a bt (put ij chO b)).1) move_of (frees b grid) (-10000) (-1) alpha beta
          else min_loop (fun a bt ij => (search k' (depth + 1) true a bt (put ij chX b)).1) move_of (frees b grid) 10000 (-1) alpha beta in
        (best, move)
  end.

Section Loops.
Variables (rec : Z -> Z -> state -> outcome (Z * state)) (mark : Z) (f : Z -> Z -> board -> Z) (b : board) (bm : option Z).
Hypothesis Hl : length b = 9%nat.
Hypothesis Hrec : forall ij alpha beta, on_grid ij -> is_free (get b ij) = true -> alpha < beta ->
  rec alpha beta (put ij mark b, bm) = Ok (f alpha beta (put ij mark b), (put ij mark b, bm)).

Abbreviation call := (fun a bt ij => f a bt (put ij mark b)).

Lemma try_cell_run ij alpha beta : on_grid ij -> is_free (get b ij) = true -> alpha < beta ->
  try_cell rec mark ij.1 ij.2 alpha beta (b, bm) = Ok (call alpha beta ij, (b, bm)).
Proof.
  intros Hg Hf Hw. unfold try_cell. cbn [fst snd]. fold (put ij mark b). rewrite Hrec by done. cbn [mbind outcome_bind fst snd].
  fold (get b ij). fold (put ij (get b ij) (put ij mark b)). by rewrite put_get.
Qed.

Lemma max_cols_run n : forall i j best move alpha beta, (i < 3)%nat -> (j + n <= 3)%nat -> alpha < beta ->
  max_cols rec mark n i j best move alpha beta (b, bm) =
  let '(r, m, a) := max_loop call move_of (frees b (row n i j)) best move alpha beta in Ok (r, m, a, (b, bm)).
Proof.
  induction n as [|n IH]; intros i j best move alpha beta Hi Hj Hw; cbn [max_cols]; [done|].
  unfold row. cbn [seq fmap list_fmap]. fold (row n i (S j)). unfold frees. rewrite filter_cons. fold (frees b (row n i (S j))).
  cbn [fst]. change (cell b i j) with (get b (i, j)). destruct (is_free (get b (i, j))) eqn:E.
  - pose proof (try_cell_run (i, j) alpha beta ltac:(unfold on_grid; cbn; lia) E Hw) as T. cbn [fst snd] in T. rewrite T.
    rewrite decide_True by done. cbn [mbind outcome_bind max_loop]. change (move_of (i, j)) with (move_no i j).
    destruct (if best <? _ then _ else _) as [b' m'].
    destruct (beta <=? _) eqn:Eb; [done|]. bool_to_prop. apply IH; lia.
  - rewrite decide_False by done. apply IH; lia.
Qed.

Lemma min_cols_run n : forall i j best move alpha beta, (i < 3)%nat -> (j + n <= 3)%nat -> alpha < beta ->
  min_cols rec mark n i j best move alpha beta (b, bm) =
  let '(r, m, a) := min_loop call move_of (frees b (row n i j)) best move alpha beta in Ok (r, m, a, (b, bm)).
Proof.
  induction n as [|n IH]; intros i j best move alpha beta Hi Hj Hw; cbn [min_cols]; [done|].
  unfold row. cbn [seq fmap list_fmap]. fold (row n i (S j)). unfold frees. rewrite filter_cons. fold (frees b (row n i (S j))).
  cbn [fst]. change (cell b i j) with (get b (i, j)). destruct (is_free (get b (i, j))) eqn:E.
  - pose proof (try_cell_run (i, j) alpha beta ltac:(unfold on_grid; cbn; lia) E Hw) as T. cbn [fst snd] in T. rewrite T.
    rewrite decide_True by done. cbn [mbind outcome_bind min_loop]. change (move_of (i, j)) with (move_no i j).
    destruct (if _ <? best then _ else _) as [b' m'].
    destruct (_ <=? alpha) eqn:Eb; [done|]. bool_to_prop. apply IH; lia.
  - rewrite decide_False by done. apply IH; lia.
Qed.

Lemma max_rows_run best move alpha beta : alpha < beta ->
  max_rows rec mark B 0 best move alpha beta (b, bm) =
  let '(r, m, a) := max_loop call move_of (frees b grid) best move alpha beta in Ok (r, m, a, (b, bm)).
Proof.
  intros Hw. unfold grid. rewrite !frees_app, max_loop_app by done. cbn [max_rows B]. change B with 3%nat. rewrite max_cols_run by lia.
  destruct (max_loop _ _ (frees b (row 3 0 0)) _ _ _ _) as [[r m] a]. cbn [mbind outcome_bind]. destruct (beta <=? a) eqn:E1; [done|]. bool_to_prop.
  rewrite max_loop_app by done. rewrite max_cols_run by lia.
  destruct (max_loop _ _ (frees b (row 3 1 0)) _ _ _ _) as [[r1 m1] a1]. cbn [mbind outcome_bind]. destruct (beta <=? a1) eqn:E2; [done|]. bool_to_prop.
  rewrite max_cols_run by lia. destruct (max_loop _ _ _ _ _ _ _) as [[r2 m2] a2]. cbn [mbind outcome_bind]. by destruct (beta <=? a2).
Qed.

Lemma min_rows_run best move alpha beta : alpha < beta ->
  min_rows rec mark B 0 best move alpha beta (b, bm) =
  let '(r, m, a) := min_loop call move_of (frees b grid) best move alpha beta in Ok (r, m, a, (b, bm)).
Proof.
  intros Hw. unfold grid. rewrite !frees_app, min_loop_app by done. cbn [min_rows B]. change B with 3%nat. rewrite min_cols_run by lia.
  destruct (min_loop _ _ (frees b (row 3 0 0)) _ _ _ _) as [[r m] a]. cbn [mbind outcome_bind]. destruct (a <=? alpha) eqn:E1; [done|]. bool_to_prop.
  rewrite min_loop_app by done. rewrite min_cols_run by lia.
  destruct (min_loop _ _ (frees b (row 3 1 0)) _ _ _ _) as [[r1 m1] a1]. cbn [mbind outcome_bind]. destruct (a1 <=? alpha) eqn:E2; [done|]. bool_to_prop.
  rewrite min_cols_run by lia. destruct (min_loop _ _ _ _ _ _ _) as [[r2 m2] a2]. cbn [mbind outcome_bind]. by destruct (a2 <=? alpha).
Qed.

End Loops.

Lemma evaluate_score b : evaluate_board b = 10 \/ evaluate_board b = -10 \/ evaluate_board b = 0.
Proof.
  unfold evaluate_board. induction lines3 as [|[[p q] r] l IH]; cbn [first_score]; [by right; right|].
  unfold line_score. destruct p, q, r. destruct (_ && _); [|done]. destruct (_ =? chO); [by left|]. destruct (_ =? chX); [by right; left|done].
Qed.

Lemma search_range k : forall depth isMax alpha beta b, wf b -> (length (frees b grid) < k)%nat ->
  0 <= depth -> depth + Z.of_nat (length (frees b grid)) <= 9 -> -10 <= (search k depth isMax alpha beta b).1 <= 10.
Proof.
  induction k as [|k IH]; intros depth isMax alpha beta b Hw Hk Hd Hn; [lia|]. cbn [search].
  destruct (evaluate_score b) as [E|[E|E]]; rewrite E; cbn [Z.eqb Pos.eqb fst]; [lia..|].
  rewrite draw_frees by done. case_bool_decide as Ef; [cbn; lia|].
  assert (Hc : forall c m ij a bt, c = chX \/ c = chO -> ij ∈ frees b grid -> -10 <= (search k (depth + 1) m a bt (put ij c b)).1 <= 10).
  { intros c m ij a bt Hc Hin. pose proof (frees_move b ij c Hw Hc Hin). apply IH; [by apply wf_put|lia..]. }
  destruct isMax.
  - pose proof (max_loop_range (fun a bt ij => (search k (depth + 1) false a bt (put ij chO b)).1) move_of (-10) 10 (frees b grid)) as H.
    specialize (H ltac:(intros ij a bt Hin; apply Hc; auto) (-10000) (-1) alpha beta ltac:(lia) (or_introl Ef)).
    by destruct (max_loop _ _ _ _ _ _ _) as [[r m] a].
  - pose proof (min_loop_range (fun a bt ij => (search k (depth + 1) true a bt (put ij chX b)).1) move_of (-10) 10 (frees b grid) 10000 (-1) alpha beta) as H.
    specialize (H ltac:(intros ij a bt Hin; apply Hc; auto) ltac:(lia) (or_introl Ef)).
    by destruct (min_loop _ _ _ _ _ _ _) as [[r m] a].
Qed.

(** Cutting off does not change the value. *)
Lemma search_bounds k : forall depth isMax alpha beta b, wf b -> (length (frees b grid) < k)%nat ->
  0 <= depth -> depth + Z.of_nat (length (frees b grid)) <= 9 -> alpha < beta -> -10000 < beta -> alpha < 10000 ->
  bounds alpha beta (search k depth isMax alpha beta b).1 (value k depth isMax b) /\
  (isMax = true -> frees b grid <> [] -> evaluate_board b = 0 -> alpha < -10 -> 10 < beta -> exists ij, ij ∈ frees b grid /\
     (search k depth isMax alpha beta b).2 = move_of ij /\ value (pred k) (depth + 1) false (put ij chO b) = (search k depth isMax alpha beta b).1).
Proof.
  induction k as [|k IH]; intros depth isMax alpha beta b Hw Hk Hd Hn Hab Hb Ha; [lia|].
  pose proof (search_range (S k) depth isMax alpha beta b Hw Hk Hd Hn) as Hr. cbn [search value pred] in *.
  destruct (evaluate_score b) as [E|[E|E]]; rewrite E in *; cbn [Z.eqb Pos.eqb fst] in *; [split; [unfold bounds; lia|done]..|].
  rewrite draw_frees in * by done. case_bool_decide as Ef; [split; [unfold bounds; cbn; lia|done]|].
  assert (Hc : forall c m ij a bt, c = chX \/ c = chO -> ij ∈ frees b grid -> a < bt -> -10000 < bt -> a < 10000 ->
    bounds a bt (search k (depth + 1) m a bt (put ij c b)).1 (value k (depth + 1) m (put ij c b)) /\
    -10 <= (search k (depth + 1) m a bt (put ij c b)).1 <= 10).
  { intros c m ij a bt Hc Hin ???. pose proof (frees_move b ij c Hw Hc Hin).
    split; [apply IH|apply search_range]; try lia; by apply wf_put. }
  destruct isMax.
  - pose proof (max_loop_bounds (fun a bt ij => (search k (depth + 1) false a bt (put ij chO b)).1) move_of
      (fun ij => value k (depth + 1) false (put ij chO b)) alpha beta 10 (frees b grid)) as H.
    specialize (H ltac:(intros ij a Hin Hw1 Hm; destruct (Hc chO false ij a beta) as [Hc1 Hc2]; [by right|done|lia..|]; split; [exact Hc1|apply Hc2]) (-10000) (-1) alpha (-10000) ltac:(unfold searched; lia)).
    destruct (max_loop _ _ _ _ _ _ _) as [[r m] a]. cbn [fst snd] in *. destruct H as [H1 H2]. split; [done|]. intros _ _ _ Ha' Hb'.
    destruct (H2 ltac:(lia)) as [[? _]|(_ & ij & Hin & -> & Hv)]; [lia|]. by exists ij.
  - pose proof (min_loop_bounds (fun a bt ij => (search k (depth + 1) true a bt (put ij chX b)).1) move_of
      (fun ij => value k (depth + 1) true (put ij chX b)) alpha beta (-10) (frees b grid) 10000 (-1)) as H.
    specialize (H ltac:(intros ij bt Hin Hw1 Hm; destruct (Hc chX true ij alpha bt) as [Hc1 Hc2]; [by left|done|lia..|]; split; [exact Hc1|apply Hc2]) Hab ltac:(lia) ltac:(lia)).
    destruct (min_loop _ _ _ _ _ _ _) as [[r m] a]. cbn [fst snd] in *. destruct H as [H1 H2]. split; [done|]. done.
Qed.

(** [minimax] computes [search] and leaves the board as it was. *)
Lemma minimax_run k : forall depth isMax alpha beta b bm, wf b -> (length (frees b grid) < k)%nat -> 0 <= depth -> alpha < beta ->
  minimax k depth isMax alpha beta (b, bm) =
  Ok ((search k depth isMax alpha beta b).1,
      (b, if (depth =? 0) && (evaluate_board b =? 0) && negb (draw b) then Some (search k depth isMax alpha beta b).2 else bm)).
Proof.
  induction k as [|k IH]; intros depth isMax alpha beta b bm Hw Hk Hd Hab; [lia|]. cbn [minimax search fst].
  destruct (evaluate_score b) as [E|[E|E]]; rewrite E; cbn [Z.eqb Pos.eqb fst]; rewrite ?andb_false_r; [done..|].
  destruct (draw b) eqn:Ed; [by rewrite andb_false_r|].
  assert (Hrec : forall c m ij a bt, c = chX \/ c = chO -> on_grid ij -> is_free (get b ij) = true -> a < bt ->
    minimax k (depth + 1) m a bt (put ij c b, bm) = Ok ((search k (depth + 1) m a bt (put ij c b)).1, (put ij c b, bm))).
  { intros c m ij a bt Hc Hg Hf Hl. assert (Hin : ij ∈ frees b grid) by by apply elem_frees.
    pose proof (frees_move b ij c Hw Hc Hin). rewrite IH by (try lia; by apply wf_put).
    by rewrite (proj2 (Z.eqb_neq (depth + 1) 0)) by lia. }
  destruct isMax.
  - rewrite (max_rows_run _ _ (fun a bt b => (search k (depth + 1) false a bt b).1)); [|apply Hw|intros; apply Hrec; auto|done].
    destruct (max_loop _ _ _ _ _ _ _) as [[r m] a]. cbn [mbind outcome_bind fst snd]. by destruct (depth =? 0).
  - rewrite (min_rows_run _ _ (fun a bt b => (search k (depth + 1) true a bt b).1)); [|apply Hw|intros; apply Hrec; auto|done].
    destruct (min_loop _ _ _ _ _ _ _) as [[r m] a]. cbn [mbind outcome_bind fst snd]. by destruct (depth =? 0).
Qed.

(** ** Positions in which [X] cannot force a win *)

Fixpoint some_move (f : pos_ -> bool) (l : list pos_) : bool :=
  match l with [] => false | x :: l' => if f x then true else some_move f l' end.
Fixpoint every_move (f : pos_ -> bool) (l : list pos_) : bool :=
  match l with [] => true | x :: l' => if f x then every_move f l' else false end.

Lemma some_move_true f l : some_move f l = true <-> exists x, x ∈ l /\ f x = true.
Proof.
  induction l as [|y l IH]; cbn; [split; [done|intros (x & Hx & _); by apply elem_of_nil in Hx]|]. destruct (f y) eqn:E.
  - split; [|done]. exists y. split; [by left|done].
  - rewrite IH. split; intros (x & Hx & Hf); exists x; (split; [|done]); [by right|]. apply elem_of_cons in Hx as [->|Hx]; congruence.
Qed.

Lemma every_move_true f l : every_move f l = true <-> forall x, x ∈ l -> f x = true.
Proof.
  induction l as [|y l IH]; cbn; [split; [intros _ x Hx; by apply elem_of_nil in Hx|done]|]. destruct (f y) eqn:E.
  - rewrite IH. split; intros H x Hx; [apply elem_of_cons in Hx as [->|Hx]; auto|apply H; by right].
  - split; [done|]. intros H. specialize (H y ltac:(by left)). congruence.
Qed.

Fixpoint safe (k : nat) (isMax : bool) (b : board) : bool :=
  match k with
  | O => true
  | S k' =>
      let score := evaluate_board b in
      if score =? 10 then true
      else if score =? -10 then false
      else if draw b then true
      else if isMax then some_move (fun ij => safe k' false (put ij chO b)) (frees b grid)
      else every_move (fun ij => safe k' true (put ij chX b)) (frees b grid)
  end.

Lemma safe_value k : forall depth isMax b, wf b -> (length (frees b grid) < k)%nat ->
  0 <= depth -> depth + Z.of_nat (length (frees b grid)) <= 9 -> safe k isMax b = (0 <=? value k depth isMax b).
Proof.
  induction k as [|k IH]; intros depth isMax b Hw Hk Hd Hn; [lia|]. cbn [safe value].
  destruct (evaluate_score b) as [E|[E|E]]; rewrite E; cbn [Z.eqb Pos.eqb]; [lia..|]. destruct (draw b); [done|].
  assert (Hc : forall c m ij, c = chX \/ c = chO -> ij ∈ frees b grid -> safe k m (put ij c b) = (0 <=? value k (depth + 1) m (put ij c b))).
  { intros c m ij Hc Hin. pose proof (frees_move b ij c Hw Hc Hin). apply IH; try lia. by apply wf_put. }
  apply eq_true_iff_eq. destruct isMax; rewrite Z.leb_le.
  - rewrite some_move_true. split.
    + intros (ij & Hin & Hs). rewrite Hc in Hs by auto. bool_to_prop.
      pose proof (max_value_in (fun ij => value k (depth + 1) false (put ij chO b)) _ (-10000) ij Hin). cbn in *. lia.
    + intros Hv. destruct (max_value_cases (fun ij => value k (depth + 1) false (put ij chO b)) (frees b grid) (-10000)) as [Em|(ij & Hin & Em)]; [lia|].
      exists ij. split; [done|]. rewrite Hc by auto. lia.
  - rewrite min_max_value, every_move_true. change (Z.opp 10000) with (-10000). split.
    + intros Hs. destruct (max_value_cases (fun ij => - value k (depth + 1) true (put ij chX b)) (frees b grid) (-10000)) as [Em|(ij & Hin & Em)]; [lia|].
      specialize (Hs ij Hin). rewrite Hc in Hs by auto. bool_to_prop. lia.
    + intros Hv ij Hin. rewrite Hc by auto.
      pose proof (max_value_in (fun ij => - value k (depth + 1) true (put ij chX b)) _ (-10000) ij Hin). cbn in *. lia.
Qed.

Lemma safe_fuel k : forall k' isMax b, wf b -> (length (frees b grid) < k)%nat -> (length (frees b grid) < k')%nat ->
  safe k isMax b = safe k' isMax b.
Proof.
  induction k as [|k IH]; intros [|k'] isMax b Hw Hk Hk'; [lia..|]. cbn [safe].
  destruct (_ =? 10); [done|]. destruct (_ =? -10); [done|]. destruct (draw b); [done|].
  assert (Hc : forall c m ij, c = chX \/ c = chO -> ij ∈ frees b grid -> safe k m (put ij c b) = safe k' m (put ij c b)).
  { intros c m ij Hc Hin. pose proof (frees_move b ij c Hw Hc Hin). apply IH; try lia. by apply wf_put. }
  apply eq_true_iff_eq. destruct isMax.
  - rewrite !some_move_true. split; intros (ij & Hin & Hs); exists ij; (split; [done|]); [rewrite <- Hc|rewrite Hc]; auto.
  - rewrite !every_move_true. split; intros Hs ij Hin; specialize (Hs ij Hin); [rewrite <- Hc|rewrite Hc]; auto.
Qed.

(** ** Lines *)

Definition same (b : board) (t : pos_ * pos_ * pos_) : bool :=
  let '(p, q, r) := t in (get b p =? get b q) && (get b q =? get b r).

Lemma win_lines b : win b = existsb (same b) lines3.
Proof. unfold win. cbn. by rewrite !orb_false_r, !orb_assoc. Qed.

Lemma lines_on_grid p q r : (p, q, r) ∈ lines3 -> on_grid p /\ on_grid q /\ on_grid r.
Proof.
  assert (H : Forall (fun '(p, q, r) => on_grid p /\ on_grid q /\ on_grid r) lines3) by (unfold on_grid; cbn; repeat constructor; cbn; lia).
  rewrite Forall_forall in H. intros Hin. apply (H _ Hin).
Qed.

Lemma no_line_score b : win b = false -> evaluate_board b = 0.
Proof.
  rewrite win_lines. unfold evaluate_board. induction lines3 as [|[[p q] r] l IH]; intros H; [done|].
  cbn [existsb] in H. apply orb_false_iff in H as [Hs Hl]. cbn [first_score]. unfold line_score.
  destruct p as [? ?], q as [? ?], r as [? ?]. cbn in Hs. unfold get in Hs. cbn in Hs. rewrite Hs. auto.
Qed.

(** A line that a move of [X] completes is a line of [X]. *)
Lemma x_wins b ij : length b = 9%nat -> on_grid ij -> win b = false -> win (put ij chX b) = true -> evaluate_board (put ij chX b) = -10.
Proof.
  intros Hl Hg Hn Hy. rewrite win_lines in Hn, Hy.
  assert (Hx : forall p q r, (p, q, r) ∈ lines3 -> same (put ij chX b) (p, q, r) = true -> get (put ij chX b) p = chX).
  { intros p q r Hin Hs. destruct (lines_on_grid _ _ _ Hin) as (Hp & Hq & Hr). cbn in Hs. bool_to_prop.
    destruct (decide (ij = p)) as [->|Np]; [by rewrite get_put_eq|]. destruct (decide (ij = q)) as [->|Nq]; [rewrite (get_put_eq b q) in *; auto; congruence|].
    destruct (decide (ij = r)) as [->|Nr]; [rewrite (get_put_eq b r) in *; auto; congruence|].
    rewrite !get_put_ne in * by auto. exfalso. apply not_true_iff_false in Hn. apply Hn. apply existsb_exists. exists (p, q, r).
    split; [by apply list_elem_of_In|]. cbn. by rewrite !(proj2 (Z.eqb_eq _ _)) by congruence. }
  clear Hn. unfold evaluate_board. revert Hx Hy. induction lines3 as [|[[p q] r] l IH]; intros Hx Hy; [done|]. cbn [existsb] in Hy.
  assert (IH' := IH (fun p q r Hin => Hx p q r (list_elem_of_further _ _ _ Hin))). cbn [first_score]. unfold line_score.
  destruct (same (put ij chX b) (p, q, r)) eqn:Es.
  - specialize (Hx p q r ltac:(by left) Es). destruct p as [? ?], q as [? ?], r as [? ?]. unfold same, get in Es, Hx. cbn in Es, Hx. rewrite Es, Hx. done.
  - destruct p as [? ?], q as [? ?], r as [? ?]. unfold same, get in Es. cbn in Es. rewrite Es. auto.
Qed.

(** ** The game *)

Lemma make_move_put curr pos b b' : make_move curr pos b = Some b' -> wf b ->
  exists ij, ij ∈ frees b grid /\ b' = put ij curr b.
Proof.
  unfold make_move. intros E Hw. destruct ((pos <? 1) || (9 <? pos)) eqn:Er; [done|]. bool_to_prop.
  set (i := Z.to_nat ((pos - 1) / Z.of_nat B)) in *. set (j := Z.to_nat ((pos - 1) mod Z.of_nat B)) in *.
  destruct (_ || _) eqn:Ef; [done|]. injection E as <-. exists (i, j). split; [|done]. apply elem_frees. split.
  - unfold on_grid, i, j, B. cbn [fst snd]. zlia.
  - unfold is_free, get. cbn [fst snd]. apply orb_false_iff in Ef as [-> ->]. done.
Qed.

Lemma make_move_of curr ij b : ij ∈ frees b grid -> make_move curr (move_of ij) b = Some (put ij curr b).
Proof.
  intros Hin. apply elem_frees in Hin as [[Hi Hj] Hf]. destruct ij as [i j]. cbn in Hi, Hj. unfold make_move, move_of, move_no, B. cbn [fst snd].
  rewrite (proj2 (Z.ltb_ge _ 1)), (proj2 (Z.ltb_ge 9 _)) by lia. cbn [orb].
  replace (Z.to_nat ((Z.of_nat i * 3 + 1 + Z.of_nat j - 1) / Z.of_nat 3)) with i by zlia.
  replace (Z.to_nat ((Z.of_nat i * 3 + 1 + Z.of_nat j - 1) mod Z.of_nat 3)) with j by zlia.
  unfold is_free, get in Hf. cbn in Hf. apply andb_true_iff in Hf as [H1 H2]. apply negb_true_iff in H1, H2. by rewrite H1, H2.
Qed.

(** What the computer player keeps: the game is not over, and the person
    cannot force a win. *)
Record kept (g : game) : Prop := Kept {
  kp_wf : wf (xo_board g);
  kp_curr : xo_curr g = chX \/ xo_curr g = chO;
  kp_win : win (xo_board g) = false;
  kp_draw : draw (xo_board g) = false;
  kp_safe : safe 10 (xo_curr g =? chO) (xo_board g) = true
}.

Lemma frees_le b : (length (frees b grid) <= 9)%nat.
Proof. change 9%nat with (length grid). apply length_filter. Qed.

(** A move to a safe position, after which the game goes on or is over. *)
Lemma play_put g ij pos : kept g -> ij ∈ frees (xo_board g) grid ->
  make_move (xo_curr g) pos (xo_board g) = Some (put ij (xo_curr g) (xo_board g)) ->
  safe 9 (negb (xo_curr g =? chO)) (put ij (xo_curr g) (xo_board g)) = true ->
  let '(e, g') := play pos g in e <> Wins chX /\ (e = Continues -> kept g').
Proof.
  intros [Hw Hc Hn Hd Hs] Hin E Hs'. unfold play. rewrite E. set (b' := put ij (xo_curr g) (xo_board g)) in *.
  assert (Hw' : wf b') by by apply wf_put. pose proof (frees_move _ ij _ Hw Hc Hin) as Hf. pose proof (frees_le (xo_board g)). fold b' in Hf.
  destruct (win b') eqn:Ew; [|destruct (draw b') eqn:Ed; [done|]; split; [done|]; intros _; split; cbn [xo_board xo_curr]; auto;
    [destruct Hc as [-> | ->]; auto|rewrite (safe_fuel 10 9) by (auto; lia); destruct Hc as [Ec|Ec]; rewrite Ec in *; exact Hs']].
  split; [|done]. intros [= Ex]. unfold b' in *. rewrite Ex in *. apply elem_frees in Hin as [Hg _].
  rewrite (safe_fuel 9 10) in Hs' by (auto; lia). cbn [safe] in Hs'. rewrite x_wins in Hs' by (auto; apply Hw). done.
Qed.

Lemma safe_step g : kept g -> let b := xo_board g in
  (if xo_curr g =? chO then some_move (fun ij => safe 9 false (put ij chO b)) (frees b grid)
   else every_move (fun ij => safe 9 true (put ij chX b)) (frees b grid)) = true.
Proof.
  intros [Hw Hc Hn Hd Hs] b. cbn [safe] in Hs. rewrite (no_line_score _ Hn), Hd in Hs. cbn [Z.eqb] in Hs. by destruct (xo_curr g =? chO).
Qed.

Lemma ai_turn g buf : kept g -> xo_curr g = chO ->
  exists e g', turn true buf g = Ok (e, g') /\ e <> Wins chX /\ (e = Continues -> kept g').
Proof.
  intros Hk Hc. destruct (Hk) as [Hw _ Hn Hd Hs]. unfold turn. rewrite Hc. cbn [andb Z.eqb chO Pos.eqb].
  pose proof (frees_le (xo_board g)). pose proof (no_line_score _ Hn) as E0. rewrite minimax_run by (auto; lia). rewrite E0, Hd.
  cbn [mbind outcome_bind Z.eqb andb negb]. assert (Ef : frees (xo_board g) grid <> []).
  { rewrite draw_frees in Hd by done. by apply bool_decide_eq_false in Hd. }
  destruct (search_bounds 10 0 true (-1000000) 1000000 (xo_board g)) as [Hb Hm]; auto; try lia.
  destruct (Hm eq_refl Ef E0 ltac:(lia) ltac:(lia)) as (ij & Hin & Emv & Ev). rewrite Emv. cbn [pred] in Ev. change (0 + 1) with 1 in Ev.
  pose proof (search_range 10 0 true (-1000000) 1000000 (xo_board g) Hw ltac:(lia) ltac:(lia) ltac:(lia)) as Hr.
  destruct Hb as (_ & _ & Hb). specialize (Hb ltac:(lia)).
  pose proof (frees_move _ ij chO Hw ltac:(by right) Hin) as Hf. rewrite Hc in Hs. change (chO =? chO) with true in Hs.
  rewrite (safe_value 10 0) in Hs by (auto; lia). apply Z.leb_le in Hs.
  assert (Hs' : safe 9 false (put ij chO (xo_board g)) = true).
  { rewrite (safe_value 9 1) by (try lia; apply wf_put; auto). apply Z.leb_le. rewrite Ev, Hb. done. }
  destruct g as [b c]. cbn [xo_board xo_curr] in *. subst c.
  pose proof (play_put (Game b chO) ij (move_of ij) Hk Hin (make_move_of chO ij b Hin) Hs') as Hp.
  destruct (play (move_of ij) (Game b chO)) as [e g']. eauto.
Qed.

Lemma person_turn g pos : kept g -> xo_curr g = chX -> let '(e, g') := play pos g in e <> Wins chX /\ (e = Continues -> kept g').
Proof.
  intros Hk Hc. destruct (make_move (xo_curr g) pos (xo_board g)) as [b'|] eqn:E; [|unfold play; rewrite E; done].
  destruct (make_move_put _ _ _ _ E (kp_wf g Hk)) as (ij & Hin & ->). apply (play_put g ij pos Hk Hin E).
  pose proof (safe_step g Hk) as Hs. cbn zeta in Hs. rewrite Hc in *. change (chX =? chO) with false in *. cbn [negb] in *.
  rewrite every_move_true in Hs. by apply Hs.
Qed.

Lemma turn_kept g buf : kept g -> exists e g', turn true buf g = Ok (e, g') /\ e <> Wins chX /\ (e = Continues -> kept g').
Proof.
  intros Hk. destruct (kp_curr g Hk) as [Hc|Hc]; [|by apply ai_turn]. unfold turn. rewrite Hc. cbn [andb Z.eqb chX chO Pos.eqb].
  destruct (_ <=? 0); [by eauto 10|]. destruct (_ =? 0); [by eexists _, _|].
  pose proof (person_turn g (simple_atoi (chomp buf)) Hk Hc) as Hp. destruct (play _ g) as [e g']. eauto.
Qed.

Lemma kept_new r : kept (new_game r).
Proof.
  split; cbn [new_game xo_board xo_curr]; [apply wf_init|destruct (_ =? 0); auto|reflexivity|reflexivity|].
  destruct (Z.rem r 2 =? 0); by vm_compute.
Qed.

(** C34: the computer player of tic-tac-toe never loses.  Whoever starts and
    whatever the person types, the game in the mode with the computer player
    goes on without failure: [minimax] returns and sets a move, which is a
    free cell; and the game does not end with a win of the person, who plays
    [X]. *)
Theorem xo_ai_never_loses r bufs : exists e g, game_run true bufs (new_game r) = Ok (e, g) /\ e <> Wins chX.
Proof.
  generalize (kept_new r). generalize (new_game r). induction bufs as [|buf bufs IH]; intros g Hk; cbn [game_run]; [by eexists _, _|].
  destruct (turn_kept g buf Hk) as (e & g' & -> & He & Hk'). cbn [mbind outcome_bind]. destruct e; [auto|by eexists _, _..].
Qed.
