(* ===== verification/C4.v ===== *)
(** * user/c4.c: connect four and its computer player

    The board is the list of its 42 characters, row by row: [X], [O] or a dot.
    [get_next_open_row] is called before the column is checked, so it may read
    outside of the board: [outside] is the memory there, by its distance from
    the start of the board.  [minimax] works on the board in place and stores
    moves through [bestCol], also those of deeper levels.  One iteration of the
    inner loop of [main] is [turn]; what the program prints is left out. *)
From S2P Require Import Prelude Cstring Ulib GameTree Xo.

Module C4.

Definition ROWS : nat := 6.
Definition COLS : nat := 7.
Definition chX : Z := 88.
Definition chO : Z := 79.
Definition dot : Z := 46.

Abbreviation board := (list Z).

(** The board and [*bestCol]. *)
Abbreviation state := (board * Z)%type.

Definition at_ (b : board) (r c : nat) : Z := default 0 (b !! (r * COLS + c)%nat).
Definition set_at (r c : nat) (v : Z) (b : board) : board := <[(r * COLS + c)%nat := v]> b.

Definition init_board : board := replicate (ROWS * COLS) dot.

Section Board.
Variable outside : Z -> Z.

Definition read_at (b : board) (off : Z) : Z :=
  if (0 <=? off) && (off <? Z.of_nat (ROWS * COLS)) then default 0 (b !! Z.to_nat off) else outside off.

(** [n] rows are left, from row [n - 1] up. *)
Fixpoint open_row (n : nat) (col : Z) (b : board) : Z :=
  match n with
  | O => -1
  | S r => if read_at b (Z.of_nat r * Z.of_nat COLS + col) =? dot then Z.of_nat r else open_row r col b
  end.
Definition get_next_open_row (col : Z) (b : board) : Z := open_row ROWS col b.

Definition make_move (row col : nat) (piece : Z) (b : board) : board := set_at row col piece b.
Definition undo_move (row col : nat) (b : board) : board := set_at row col dot b.

(** Four cells from [r], [c] in the direction [dr], [dc]. *)
Definition cells4 (b : board) (r c : nat) (dr dc : Z) : list Z :=
  (fun k => at_ b (Z.to_nat (Z.of_nat r + k * dr)) (Z.to_nat (Z.of_nat c + k * dc))) <$> [0; 1; 2; 3].

Definition four (p : Z) (l : list Z) : bool := forallb (fun x => x =? p) l.

Definition check_win (p : Z) (b : board) : bool :=
  existsb (fun r => existsb (fun c => four p (cells4 b r c 0 1)) (seq 0 (COLS - 3))) (seq 0 ROWS)
  || existsb (fun r => existsb (fun c => four p (cells4 b r c 1 0)) (seq 0 COLS)) (seq 0 (ROWS - 3))
  || existsb (fun r => existsb (fun c => four p (cells4 b r c (-1) 1)) (seq 0 (COLS - 3))) (seq 3 (ROWS - 3))
  || existsb (fun r => existsb (fun c => four p (cells4 b r c 1 1)) (seq 0 (COLS - 3))) (seq 0 (ROWS - 3)).

Definition is_board_full (b : board) : bool :=
  negb (existsb (fun c => negb (get_next_open_row (Z.of_nat c) b =? -1)) (seq 0 COLS)).

Definition count (p : Z) (l : list Z) : Z := Z.of_nat (length (List.filter (fun x => x =? p) l)).

(** The three counts of a window are of different characters. *)
Definition score_window (window : list Z) (piece : Z) : Z :=
  let opp := if piece =? chO then chX else chO in
  let count_piece := count piece window in
  let count_opp := count opp window in
  let count_empty := count dot window in
  let score :=
    if count_piece =? 4 then 1000
    else if (count_piece =? 3) && (count_empty =? 1) then 100
    else if (count_piece =? 2) && (count_empty =? 2) then 10 else 0 in
  if (count_opp =? 3) && (count_empty =? 1) then score - 80 else score.

Definition sum (l : list Z) : Z := foldr Z.add 0 l.

(** The scores of the windows at [rows] and [cols] in one direction. *)
Definition windows (b : board) (piece : Z) (rows cols : list nat) (dr dc : Z) : Z :=
  sum ((fun r => sum ((fun c => score_window (cells4 b r c dr dc) piece) <$> cols)) <$> rows).

Definition evaluate_position (piece : Z) (b : board) : Z :=
  count piece ((fun r => at_ b r (COLS / 2)) <$> seq 0 ROWS) * 6
  + windows b piece (seq 0 ROWS) (seq 0 (COLS - 3)) 0 1
  + windows b piece (seq 0 (ROWS - 3)) (seq 0 COLS) 1 0
  + windows b piece (seq 0 (ROWS - 3)) (seq 0 (COLS - 3)) 1 1
  + windows b piece (seq 3 (ROWS - 3)) (seq 0 (COLS - 3)) (-1) 1.

(** ** The computer player *)

Section Search.
Variable rec : Z -> Z -> state -> Z * state.

(** The loop of the maximizing player; [n] columns are left, from [c] on. *)
Fixpoint max_cols (n c : nat) (value localBest alpha beta : Z) (s : state) : Z * Z * Z * state :=
  match n with
  | O => (value, localBest, alpha, s)
  | S n' =>
      let r := get_next_open_row (Z.of_nat c) s.1 in
      if r =? -1 then max_cols n' (S c) value localBest alpha beta s
      else
        let '(score, s) := rec alpha beta (make_move (Z.to_nat r) c chO s.1, s.2) in
        let s := (undo_move (Z.to_nat r) c s.1, s.2) in
        let '(value, localBest) := if value <? score then (score, Z.of_nat c) else (value, localBest) in
        let alpha := if alpha <? value then value else alpha in
        if beta <=? alpha then (value, localBest, alpha, s) else max_cols n' (S c) value localBest alpha beta s
  end.

Fixpoint min_cols (n c : nat) (value localBest alpha beta : Z) (s : state) : Z * Z * Z * state :=
  match n with
  | O => (value, localBest, beta, s)
  | S n' =>
      let r := get_next_open_row (Z.of_nat c) s.1 in
      if r =? -1 then min_cols n' (S c) value localBest alpha beta s
      else
        let '(score, s) := rec alpha beta (make_move (Z.to_nat r) c chX s.1, s.2) in
        let s := (undo_move (Z.to_nat r) c s.1, s.2) in
        let '(value, localBest) := if score <? value then (score, Z.of_nat c) else (value, localBest) in
        let beta := if value <? beta then value else beta in
        if beta <=? alpha then (value, localBest, beta, s) else min_cols n' (S c) value localBest alpha beta s
  end.

End Search.

(** The minimizing player stores its move only at depth 0, where the function
    has returned before. *)
Fixpoint minimax (depth : nat) (alpha beta : Z) (maximizingPlayer : bool) (s : state) : Z * state :=
  if check_win chO s.1 then (1000000, s)
  else if check_win chX s.1 then (-1000000, s)
  else
    match depth with
    | O => (evaluate_position chO s.1 - evaluate_position chX s.1, s)
    | S d =>
        if is_board_full s.1 then (evaluate_position chO s.1 - evaluate_position chX s.1, s)
        else if maximizingPlayer then
          let '(value, localBest, _, s) := max_cols (fun a bt => minimax d a bt false) COLS 0 (-10000000) (-1) alpha beta s in
          (value, if negb (localBest =? -1) then (s.1, localBest) else s)
        else
          let '(value, localBest, _, s) := min_cols (fun a bt => minimax d a bt true) COLS 0 10000000 (-1) alpha beta s in
          (value, if (S d =? 0)%nat then (s.1, localBest) else s)
    end.

(** The board is a global variable. *)
Definition get_ai_move (b : board) : Z * board :=
  let '(_, (b, best)) := minimax 6 (-10000000) 10000000 true (b, 0) in (best, b).

(** ** The game *)

Record game := Game { c4_board : board; c4_cur : Z }.

Inductive event := Continues | Exits | Wins (c : Z).

Definition play (col : Z) (g : game) : event * game :=
  let row := get_next_open_row col (c4_board g) in
  if (row =? -1) || (col <? 0) || (Z.of_nat COLS <=? col) then (Continues, g)
  else
    let b := make_move (Z.to_nat row) (Z.to_nat col) (c4_cur g) (c4_board g) in
    if check_win (c4_cur g) b then (Wins (c4_cur g), Game b (c4_cur g))
    else (Continues, Game b (if c4_cur g =? chX then chO else chX)).

Definition turn (ai_mode : bool) (buf : list Z) (g : game) : event * game :=
  if ai_mode && (c4_cur g =? chO) then
    let '(col, b) := get_ai_move (c4_board g) in play col (Game b (c4_cur g))
  else if Z.of_nat (length buf) <=? 0 then (Continues, g)
  else
    let buf := Xo.chomp buf in
    if Ulib.strcmp buf Xo.exit_str =? 0 then (Exits, g)
    else play (s32 (Ulib.atoi buf - 1)) g.

End Board.

(** [random_starter] decides who begins. *)
Definition new_game (randd : Z) : game := Game init_board (if Z.rem randd 2 =? 0 then chX else chO).

End C4.

(** * The computer player of c4.c plays the best move

    [minimax] of c4.c, which drops pieces on the board in place, cuts off
    moves and lets deeper levels overwrite [bestCol], finds the value of
    exhaustive search to its depth and a column that has it. *)

Import C4.

Section C4Theory.
Variable outside : Z -> Z.
Abbreviation row_of := (get_next_open_row outside).
Abbreviation drop_at c p b := (make_move (Z.to_nat (row_of (Z.of_nat c) b)) c p b).

(** ** Columns *)

Definition has_room (b : board) (c : nat) : Prop := row_of (Z.of_nat c) b <> -1.
Definition rooms (b : board) (l : list nat) : list nat := filter (has_room b) l.

Lemma open_row_dot n c b : (n <= ROWS)%nat -> (c < COLS)%nat -> length b = 42%nat ->
  open_row outside n (Z.of_nat c) b = -1 \/
  exists r, (r < n)%nat /\ open_row outside n (Z.of_nat c) b = Z.of_nat r /\ b !! (r * COLS + c)%nat = Some dot.
Proof.
  intros Hn Hc Hl. induction n as [|n IH]; cbn [open_row]; [by left|]. unfold read_at, ROWS, COLS in *.
  rewrite (proj2 (Z.leb_le 0 _)), (proj2 (Z.ltb_lt _ (Z.of_nat (6 * 7)))) by lia. cbn [andb].
  destruct (_ =? dot) eqn:E; bool_to_prop.
  - right. exists n. split; [lia|]. split; [done|]. replace (Z.to_nat (Z.of_nat n * Z.of_nat 7 + Z.of_nat c)) with (n * 7 + c)%nat in E by lia.
    destruct (lookup_lt_is_Some_2 b (n * 7 + c) ltac:(lia)) as [x Hx]. rewrite Hx in E |- *. cbn in E. by rewrite E.
  - destruct (IH ltac:(lia)) as [H|(r & Hr & H)]; [by left|]. right. exists r. split; [lia|done].
Qed.

Lemma undo_drop c p b : length b = 42%nat -> (c < COLS)%nat -> has_room b c ->
  undo_move (Z.to_nat (row_of (Z.of_nat c) b)) c (drop_at c p b) = b.
Proof.
  intros Hl Hc Hr. destruct (open_row_dot ROWS c b ltac:(lia) Hc Hl) as [H|(r & Hlt & H & Hd)]; [done|].
  unfold get_next_open_row. rewrite H, Nat2Z.id. unfold undo_move, make_move, set_at. rewrite list_insert_insert_eq. by apply list_insert_id.
Qed.

Lemma drop_length c p b : length (drop_at c p b) = length b.
Proof. apply length_insert. Qed.

(** ** Scores *)

Lemma sum_range lo hi l : Forall (fun x => lo <= x <= hi) l -> lo * Z.of_nat (length l) <= sum l <= hi * Z.of_nat (length l).
Proof. induction 1 as [|x l Hx _ IH]; cbn [sum foldr length]; [lia|]. unfold sum in IH. lia. Qed.

Lemma sum_map_range {A} (f : A -> Z) lo hi l : (forall x, lo <= f x <= hi) -> lo * Z.of_nat (length l) <= sum (f <$> l) <= hi * Z.of_nat (length l).
Proof. intros H. rewrite <- (length_fmap f l). apply sum_range. apply Forall_fmap, Forall_true. exact H. Qed.

Lemma score_window_range w p : -80 <= score_window w p <= 1000.
Proof. unfold score_window. repeat case_match; lia. Qed.

Lemma windows_range b p rows cols dr dc :
  -80 * Z.of_nat (length cols) * Z.of_nat (length rows) <= windows b p rows cols dr dc <= 1000 * Z.of_nat (length cols) * Z.of_nat (length rows).
Proof. apply sum_map_range. intros r. apply sum_map_range. intros c. apply score_window_range. Qed.

Lemma evaluate_range p b : -10000 <= evaluate_position p b <= 100000.
Proof.
  unfold evaluate_position. set (w := (fun r => at_ b r (COLS / 2)) <$> seq 0 ROWS).
  assert (Hc : 0 <= count p w <= 6).
  { unfold count. change 6 with (Z.of_nat (length w)). split; [lia|]. apply inj_le. apply List.filter_length_le. }
  pose proof (windows_range b p (seq 0 ROWS) (seq 0 (COLS - 3)) 0 1) as H1.
  pose proof (windows_range b p (seq 0 (ROWS - 3)) (seq 0 COLS) 1 0) as H2.
  pose proof (windows_range b p (seq 0 (ROWS - 3)) (seq 0 (COLS - 3)) 1 1) as H3.
  pose proof (windows_range b p (seq 3 (ROWS - 3)) (seq 0 (COLS - 3)) (-1) 1) as H4.
  rewrite !length_seq in *. unfold ROWS, COLS in *. cbn [Nat.sub] in *. lia.
Qed.

(** ** Exhaustive search *)

Definition heuristic (b : board) : Z := evaluate_position chO b - evaluate_position chX b.

(** [minimax] to [depth] moves without cutting off. *)
Fixpoint value (depth : nat) (maximizing : bool) (b : board) : Z :=
  if check_win chO b then 1000000
  else if check_win chX b then -1000000
  else
    match depth with
    | O => heuristic b
    | S d =>
        if is_board_full outside b then heuristic b
        else if maximizing then max_value (fun c => value d false (drop_at c chO b)) (rooms b (seq 0 COLS)) (-10000000)
        else min_value (fun c => value d true (drop_at c chX b)) (rooms b (seq 0 COLS)) 10000000
    end.

(** The value that [minimax] returns, and its [localBest]. *)
Fixpoint search (depth : nat) (alpha beta : Z) (maximizing : bool) (b : board) : Z * Z :=
  if check_win chO b then (1000000, -1)
  else if check_win chX b then (-1000000, -1)
  else
    match depth with
    | O => (heuristic b, -1)
    | S d =>
        if is_board_full outside b then (heuristic b, -1)
        else
          let '(r, m, _) :=
            if maximizing then max_loop (fun a bt c => (search d a bt false (drop_at c chO b)).1) Z.of_nat (rooms b (seq 0 COLS)) (-10000000) (-1) alpha beta
            else min_loop (fun a bt c => (search d a bt true (drop_at c chX b)).1) Z.of_nat (rooms b (seq 0 COLS)) 10000000 (-1) alpha beta in
          (r, m)
    end.

Section Loops.
Variables (rec : Z -> Z -> state -> Z * state) (f : Z -> Z -> board -> Z) (b : board).
Hypothesis Hl : length b = 42%nat.

(** What a recursive call does: the board is as before. *)
Definition restores (p : Z) : Prop :=
  forall c a bt bc, (c < COLS)%nat -> has_room b c ->
  exists bc', rec a bt (drop_at c p b, bc) = (f a bt (drop_at c p b), (drop_at c p b, bc')).

Lemma c4_max_cols_run n : forall c best move alpha beta bc, restores chO -> (c + n <= COLS)%nat ->
  exists bc', max_cols outside rec n c best move alpha beta (b, bc) =
    (max_loop (fun a bt c => f a bt (drop_at c chO b)) Z.of_nat (rooms b (seq c n)) best move alpha beta, (b, bc')).
Proof.
  induction n as [|n IH]; intros c best move alpha beta bc Hr Hn; cbn [max_cols seq]; [by eexists|].
  unfold rooms. rewrite filter_cons. fold (rooms b (seq (S c) n)). cbn [fst snd].
  destruct (row_of (Z.of_nat c) b =? -1) eqn:E; bool_to_prop; [rewrite decide_False by (intros H; done); apply IH; [done|lia]|].
  rewrite decide_True by done. destruct (Hr c alpha beta bc ltac:(lia) E) as [bc1 E1]. rewrite E1. cbn [max_loop fst snd]. rewrite undo_drop by (done || lia).
  destruct (if best <? _ then _ else _) as [v m]. destruct (beta <=? _); [by eexists|]. apply IH; [done|lia].
Qed.

Lemma c4_min_cols_run n : forall c best move alpha beta bc, restores chX -> (c + n <= COLS)%nat ->
  exists bc', min_cols outside rec n c best move alpha beta (b, bc) =
    (min_loop (fun a bt c => f a bt (drop_at c chX b)) Z.of_nat (rooms b (seq c n)) best move alpha beta, (b, bc')).
Proof.
  induction n as [|n IH]; intros c best move alpha beta bc Hr Hn; cbn [min_cols seq]; [by eexists|].
  unfold rooms. rewrite filter_cons. fold (rooms b (seq (S c) n)). cbn [fst snd].
  destruct (row_of (Z.of_nat c) b =? -1) eqn:E; bool_to_prop; [rewrite decide_False by (intros H; done); apply IH; [done|lia]|].
  rewrite decide_True by done. destruct (Hr c alpha beta bc ltac:(lia) E) as [bc1 E1]. rewrite E1. cbn [min_loop fst snd]. rewrite undo_drop by (done || lia).
  destruct (if _ <? best then _ else _) as [v m]. destruct (_ <=? alpha); [by eexists|]. apply IH; [done|lia].
Qed.

End Loops.

(** [minimax] computes [search] and leaves the board as it was; the
    maximizing player's own move is the last that is stored. *)
Lemma minimax_search depth : forall alpha beta maximizing b bc, length b = 42%nat ->
  exists bc', minimax outside depth alpha beta maximizing (b, bc) = ((search depth alpha beta maximizing b).1, (b, bc')) /\
    (maximizing = true -> (search depth alpha beta maximizing b).2 <> -1 -> bc' = (search depth alpha beta maximizing b).2).
Proof.
  induction depth as [|d IH]; intros alpha beta maximizing b bc Hl; cbn [minimax search fst];
    (destruct (check_win chO b); [by eexists|]); (destruct (check_win chX b); [by eexists|]); [by eexists|].
  destruct (is_board_full outside b); [by eexists|].
  assert (Hrec : forall p m, restores (fun a bt => minimax outside d a bt m) (fun a bt b => (search d a bt m b).1) b p).
  { intros p m c a bt bc0 _ _. destruct (IH a bt m (drop_at c p b) bc0) as (bc1 & E & _); [by rewrite drop_length|]. by exists bc1. }
  destruct maximizing.
  - destruct (c4_max_cols_run _ _ b Hl COLS 0 (-10000000) (-1) alpha beta bc (Hrec chO false) ltac:(lia)) as [bc1 ->].
    destruct (max_loop _ _ _ _ _ _ _) as [[r m] a]. cbn [fst snd]. destruct (m =? -1) eqn:E; bool_to_prop; cbn [negb]; eexists; (split; [done|]); done.
  - destruct (c4_min_cols_run _ _ b Hl COLS 0 10000000 (-1) alpha beta bc (Hrec chX true) ltac:(lia)) as [bc1 ->].
    destruct (min_loop _ _ _ _ _ _ _) as [[r m] a]. cbn [fst snd Nat.eqb]. by eexists.
Qed.

Lemma rooms_full b : is_board_full outside b = false -> rooms b (seq 0 COLS) <> [].
Proof.
  unfold is_board_full. intros H En. apply negb_false_iff in H. apply existsb_exists in H as (c & Hc & H). bool_to_prop.
  assert (Hin : c ∈ rooms b (seq 0 COLS)) by (apply list_elem_of_filter; split; [exact H|by apply list_elem_of_In]).
  rewrite En in Hin. by apply elem_of_nil in Hin.
Qed.

Lemma heuristic_range b : -1000000 <= heuristic b <= 1000000.
Proof. unfold heuristic. pose proof (evaluate_range chO b). pose proof (evaluate_range chX b). lia. Qed.

Lemma c4_search_range depth : forall alpha beta m b, -1000000 <= (search depth alpha beta m b).1 <= 1000000.
Proof.
  induction depth as [|d IH]; intros alpha beta m b; cbn [search]; pose proof (heuristic_range b);
    (destruct (check_win chO b); [cbn; lia|]); (destruct (check_win chX b); [cbn; lia|]); [done|].
  destruct (is_board_full outside b) eqn:Ef; [done|]. apply rooms_full in Ef. destruct m.
  - pose proof (max_loop_range (fun a bt c => (search d a bt false (drop_at c chO b)).1) Z.of_nat (-1000000) 1000000 (rooms b (seq 0 COLS))) as Hr.
    specialize (Hr ltac:(intros; apply IH) (-10000000) (-1) alpha beta ltac:(lia) (or_introl Ef)). by destruct (max_loop _ _ _ _ _ _ _) as [[r mv] a].
  - pose proof (min_loop_range (fun a bt c => (search d a bt true (drop_at c chX b)).1) Z.of_nat (-1000000) 1000000 (rooms b (seq 0 COLS)) 10000000 (-1) alpha beta) as Hr.
    specialize (Hr ltac:(intros; apply IH) ltac:(lia) (or_introl Ef)). by destruct (min_loop _ _ _ _ _ _ _) as [[r mv] a].
Qed.

(** Cutting off does not change the value. *)
Lemma c4_search_bounds depth : forall alpha beta m b, alpha < beta -> -10000000 < beta -> alpha < 10000000 ->
  bounds alpha beta (search depth alpha beta m b).1 (value depth m b).
Proof.
  induction depth as [|d IH]; intros alpha beta m b Hab Hb Ha; cbn [search value];
    (destruct (check_win chO b); [unfold bounds; cbn; lia|]); (destruct (check_win chX b); [unfold bounds; cbn; lia|]); [unfold bounds; cbn; lia|].
  destruct (is_board_full outside b) eqn:Ef; [unfold bounds; cbn; lia|]. destruct m.
  - pose proof (max_loop_bounds (fun a bt c => (search d a bt false (drop_at c chO b)).1) Z.of_nat
      (fun c => value d false (drop_at c chO b)) alpha beta 1000000 (rooms b (seq 0 COLS))) as H.
    specialize (H ltac:(intros c a _ Hw Hm; split; [apply IH; lia|apply c4_search_range]) (-10000000) (-1) alpha (-10000000) ltac:(unfold searched; lia)).
    destruct (max_loop _ _ _ _ _ _ _) as [[r mv] a]. apply H.
  - pose proof (min_loop_bounds (fun a bt c => (search d a bt true (drop_at c chX b)).1) Z.of_nat
      (fun c => value d true (drop_at c chX b)) alpha beta (-1000000) (rooms b (seq 0 COLS)) 10000000 (-1)) as H.
    specialize (H ltac:(intros c bt _ Hw Hm; split; [apply IH; lia|apply c4_search_range]) Hab ltac:(lia) ltac:(lia)).
    destruct (min_loop _ _ _ _ _ _ _) as [[r mv] a]. apply H.
Qed.

(** The move at the top, where the window is full. *)
Lemma search_move d b : check_win chO b = false -> check_win chX b = false -> is_board_full outside b = false ->
  exists c, c ∈ rooms b (seq 0 COLS) /\ (search (S d) (-10000000) 10000000 true b).2 = Z.of_nat c /\
    value d false (drop_at c chO b) = value (S d) true b.
Proof.
  intros HO HX Hf. pose proof (c4_search_bounds (S d) (-10000000) 10000000 true b ltac:(lia) ltac:(lia) ltac:(lia)) as (_ & _ & Hv).
  pose proof (c4_search_range (S d) (-10000000) 10000000 true b) as Hr. specialize (Hv ltac:(lia)).
  rewrite <- Hv. clear Hv. revert Hr. cbn [search]. rewrite HO, HX, Hf.
  pose proof (max_loop_bounds (fun a bt c => (search d a bt false (drop_at c chO b)).1) Z.of_nat
    (fun c => value d false (drop_at c chO b)) (-10000000) 10000000 1000000 (rooms b (seq 0 COLS))) as H.
  specialize (H ltac:(intros c a _ Hw Hm; split; [apply c4_search_bounds; lia|apply c4_search_range]) (-10000000) (-1) (-10000000) (-10000000) ltac:(unfold searched; lia)).
  destruct (max_loop _ _ _ _ _ _ _) as [[r m] a]. cbn [fst snd]. intros Hr. destruct H as [_ H].
  destruct (H ltac:(lia)) as [[-> _]|(_ & c & Hin & -> & E)]; [lia|]. by exists c.
Qed.

(** C35: the computer player of connect four plays a best move.  On a board
    that is not full and on which nobody has won, the column it chooses has
    room, and no column is better for it under exhaustive search to six
    moves, where the other player answers with the best moves; the search
    leaves the board as it was, and does not depend on the memory around it. *)
Theorem c4_ai_best b : length b = 42%nat -> check_win chO b = false -> check_win chX b = false -> is_board_full outside b = false ->
  exists c, get_ai_move outside b = (Z.of_nat c, b) /\ (c < COLS)%nat /\ has_room b c /\
    value 5 false (drop_at c chO b) = value 6 true b /\
    forall c', (c' < COLS)%nat -> has_room b c' -> value 5 false (drop_at c' chO b) <= value 5 false (drop_at c chO b).
Proof.
  intros Hl HO HX Hf. destruct (search_move 5 b HO HX Hf) as (c & Hin & Em & Ev).
  apply list_elem_of_filter in Hin as [Hr Hin]. apply elem_of_seq in Hin. exists c. split_and!; auto; [|lia|].
  - unfold get_ai_move. destruct (minimax_search 6 (-10000000) 10000000 true b 0 Hl) as (bc & -> & Hbc).
    rewrite Em in Hbc. by rewrite Hbc by (done || lia).
  - intros c' Hc' Hr'. rewrite Ev. change (value 6 true b) with
      (if check_win chO b then 1000000 else if check_win chX b then -1000000 else if is_board_full outside b then heuristic b
       else max_value (fun c => value 5 false (drop_at c chO b)) (rooms b (seq 0 COLS)) (-10000000)).
    rewrite HO, HX, Hf. apply (max_value_in (fun c => value 5 false (drop_at c chO b))). apply list_elem_of_filter. split; [done|]. apply elem_of_seq. lia.
Qed.

(** On a full board without a winner, the computer player's turn changes
    nothing, so the game never ends: no input is read at its turn. *)
Theorem c4_full_board_stuck b buf : length b = 42%nat -> check_win chO b = false -> check_win chX b = false -> is_board_full outside b = true ->
  turn outside true buf (Game b chO) = (Continues, Game b chO).
Proof.
  intros Hl HO HX Hf. unfold turn. cbn [andb c4_cur Z.eqb chO Pos.eqb c4_board]. unfold get_ai_move. cbn [minimax fst]. rewrite HO, HX, Hf.
  unfold play. cbn [c4_board c4_cur]. unfold is_board_full in Hf. apply negb_true_iff in Hf. cbn [seq COLS existsb] in Hf.
  apply orb_false_iff in Hf as [Hf _]. apply negb_false_iff in Hf. change (Z.of_nat 0) with 0 in Hf. by rewrite Hf.
Qed.

End C4Theory.

(** ** Witnesses *)

Lemma c4_ai_best_witness : exists c, get_ai_move (fun _ => 0) init_board = (Z.of_nat c, init_board) /\ (c < COLS)%nat.
Proof.
  destruct (c4_ai_best (fun _ => 0) init_board) as (c & H & Hc & _); [reflexivity..|].
  exact (ex_intro _ c (conj H Hc)).
Defined.
