(* ===== verification/Umalloc.v ===== *)
(** * user/umalloc.c: [malloc] and [free] of the user programs

    The allocator of Kernighan and Ritchie: the free blocks form a circular
    list in order of their addresses, threaded through their headers, with
    the static header [base] as its first element.  A header has the pointer
    to the next free block at offset 0 and the size of its block, in headers,
    at offset 8.  [base] is the address of that variable; [grow brk n] tells
    whether the kernel has memory for [n] bytes more. *)
From stdpp Require Import sorting.
From S2P Require Import Prelude Cstring.

Module Umalloc.

(** [sizeof(Header)] *)
Definition HDR : Z := 16.

Definition ptr_of (m : mem) (p : Z) : Z := ld64 m p.
Definition size_of (m : mem) (p : Z) : Z := ld32 m (p + 8).
Definition set_ptr (p v : Z) (m : mem) : mem := st64 m p v.
Definition set_size (p v : Z) (m : mem) : mem := st32 m (p + 8) v.

(** The memory of the process, [freep] (0 is the null pointer) and the size
    of the process. *)
Record heap := Heap { umem : mem; freep : Z; brk : Z }.

Section Umalloc.
Variable base : Z.
Variable grow : Z -> Z -> bool.

(** The system call, whose argument is an [int]. *)
Definition sbrk (n : Z) (h : heap) : Z * heap :=
  let n := s32 n in
  if 0 <? n then
    if grow (brk h) n then (brk h, Heap (umem h) (freep h) (brk h + n)) else (-1, h)
  else
    let new := u64 (brk h + n) in
    (brk h, Heap (umem h) (freep h) (if new <? brk h then new else brk h)).

(** The condition that ends the loop of [free]. *)
Definition between (m : mem) (bp p : Z) : bool :=
  let q := ptr_of m p in
  (p <? bp) && (bp <? q) || (q <=? p) && ((p <? bp) || (bp <? q)).

Fixpoint free_find (k : nat) (bp p : Z) (m : mem) : outcome Z :=
  match k with
  | O => NoFuel
  | S k' => if between m bp p then Ok p else free_find k' bp (ptr_of m p) m
  end.

(** A free block takes at least 16 bytes of the heap. *)
Definition fuel (h : heap) : nat := (2 + Z.to_nat (brk h / HDR))%nat.

Definition join_up (bp p : Z) (m : mem) : mem :=
  let q := ptr_of m p in
  if bp + HDR * size_of m bp =? q then
    let m := set_size bp (size_of m bp + size_of m q) m in
    set_ptr bp (ptr_of m q) m
  else set_ptr bp q m.

Definition join_down (bp p : Z) (m : mem) : mem :=
  if p + HDR * size_of m p =? bp then
    let m := set_size p (size_of m p + size_of m bp) m in
    set_ptr p (ptr_of m bp) m
  else set_ptr p bp m.

Definition free (ap : Z) (h : heap) : outcome heap :=
  let bp := ap - HDR in
  p ← free_find (fuel h) bp (freep h) (umem h);
  Ok (Heap (join_down bp p (join_up bp p (umem h))) p (brk h)).

Definition morecore (nu : Z) (h : heap) : outcome (Z * heap) :=
  let nu := if nu <? 4096 then 4096 else nu in
  let '(p, h) := sbrk (nu * HDR) h in
  if p =? -1 then Ok (0, h)
  else
    let hp := p in
    h ← free (hp + HDR) (Heap (set_size hp nu (umem h)) (freep h) (brk h));
    Ok (freep h, h).

Fixpoint malloc_loop (k : nat) (nunits prevp p : Z) (h : heap) : outcome (Z * heap) :=
  match k with
  | O => NoFuel
  | S k' =>
      let m := umem h in
      if nunits <=? size_of m p then
        if size_of m p =? nunits then
          Ok (p + HDR, Heap (set_ptr prevp (ptr_of m p) m) prevp (brk h))
        else
          let m := set_size p (size_of m p - nunits) m in
          let p := p + HDR * size_of m p in
          Ok (p + HDR, Heap (set_size p nunits m) prevp (brk h))
      else if p =? freep h then
        '(p, h) ← morecore nunits h;
        if p =? 0 then Ok (0, h) else malloc_loop k' nunits p (ptr_of (umem h) p) h
      else malloc_loop k' nunits p (ptr_of m p) h
  end.

Definition units_for (nbytes : Z) : Z := u32 ((nbytes + HDR - 1) / HDR + 1).

(** The first time through the list, and once more after [morecore]. *)
Definition malloc (nbytes : Z) (h : heap) : outcome (Z * heap) :=
  let nunits := units_for nbytes in
  let h := if freep h =? 0 then Heap (set_size base 0 (set_ptr base base (umem h))) base (brk h) else h in
  let prevp := freep h in
  malloc_loop (2 * fuel h) nunits prevp (ptr_of (umem h) prevp) h.

End Umalloc.
End Umalloc.

(** * The user allocator: blocks, the circular list and [free]

    A block is a header address and a size in headers.  [linked] follows the
    pointers of consecutive free blocks; blocks of a heap do not overlap and
    the free list is in order of addresses. *)

Import Umalloc.
#[local] Transparent ld32 st32.

Abbreviation ublock := (Z * Z)%type.

(** ** Headers in memory *)

Definition same16 (m m' : mem) (a : Z) : Prop := forall x, a <= x < a + 16 -> ld8 m' x = ld8 m x.

Lemma same16_ptr m m' a : same16 m m' a -> ptr_of m' a = ptr_of m a.
Proof. intros H. apply ld64_ext. intros x Hx. apply H. lia. Qed.

Lemma same16_size m m' a : same16 m m' a -> size_of m' a = size_of m a.
Proof. intros H. unfold size_of, ld32. apply ld_le_ext. intros x Hx. apply H. lia. Qed.

Lemma ld8_set_ptr m p v x : x < p \/ p + 8 <= x -> ld8 (set_ptr p v m) x = ld8 m x.
Proof. apply ld8_st64_other. Qed.

Lemma ld8_set_size m p v x : x < p + 8 \/ p + 12 <= x -> ld8 (set_size p v m) x = ld8 m x.
Proof. intros H. apply ld8_st_le_other. lia. Qed.

Lemma ptr_set_ptr m p v : 0 <= v < 18446744073709551616 -> ptr_of (set_ptr p v m) p = v.
Proof. intros H. unfold ptr_of, set_ptr. by rewrite ld64_st64_eq, u64_id. Qed.

Lemma size_set_size m p v : 0 <= v < 4294967296 -> size_of (set_size p v m) p = v.
Proof. intros H. unfold size_of, set_size, ld32, st32. rewrite u32_id by done. apply ld_le_st_le_same. done. Qed.

Lemma size_set_ptr m p v : size_of (set_ptr p v m) p = size_of m p.
Proof. unfold size_of, ld32. apply ld_le_ext. intros x Hx. apply ld8_set_ptr. lia. Qed.

Lemma ptr_set_size m p v : ptr_of (set_size p v m) p = ptr_of m p.
Proof. apply ld64_ext. intros x Hx. apply ld8_set_size. lia. Qed.

(** ** Disjoint blocks *)

Definition disj (x y : ublock) : Prop := x.1 + 16 * x.2 <= y.1 \/ y.1 + 16 * y.2 <= x.1.

Fixpoint pdisj (l : list ublock) : Prop :=
  match l with
  | [] => True
  | x :: l' => Forall (disj x) l' /\ pdisj l'
  end.

Lemma disj_sym x y : disj x y -> disj y x.
Proof. unfold disj. lia. Qed.

#[export] Instance pdisj_perm : Proper ((≡ₚ) ==> iff) pdisj.
Proof.
  intros l k H. induction H as [|x l k H IH|x y l|l k n _ IH1 _ IH2]; cbn; [done| | |by rewrite IH1].
  - by rewrite IH, H.
  - rewrite !Forall_cons. split; intros ((H1 & H2) & H3 & H4); auto using disj_sym.
Qed.

Definition big (l : list ublock) : Prop := Forall (fun x => 1 <= x.2) l.

Lemma pdisj_merge a n k l : 0 <= n -> 0 <= k -> big l -> pdisj ((a, n) :: (a + 16 * n, k) :: l) -> pdisj ((a, n + k) :: l).
Proof.
  intros Hn Hk Hb. cbn. rewrite Forall_cons. intros ((_ & H1) & H2 & H3). split; [|done]. unfold big in Hb.
  rewrite Forall_forall in *. intros y Hy. specialize (H1 y Hy). specialize (H2 y Hy). specialize (Hb y Hy). unfold disj in *. cbn in *. lia.
Qed.

Lemma pdisj_split a n k l : 0 <= n -> 0 <= k -> pdisj ((a, n + k) :: l) -> pdisj ((a, n) :: (a + 16 * n, k) :: l).
Proof.
  intros Hn Hk. cbn. rewrite Forall_cons. intros (H1 & H2). rewrite Forall_forall in H1. split_and!; auto.
  - unfold disj. cbn. lia.
  - rewrite Forall_forall. intros y Hy. specialize (H1 y Hy). unfold disj in *. cbn in *. lia.
  - rewrite Forall_forall. intros y Hy. specialize (H1 y Hy). unfold disj in *. cbn in *. lia.
Qed.

Lemma pdisj_elem l x y : pdisj l -> x ∈ l -> y ∈ l -> x.1 <> y.1 -> disj x y.
Proof.
  induction l as [|z l IH]; intros Hp Hx Hy Hne; [by apply elem_of_nil in Hx|]. destruct Hp as [Hz Hp]. rewrite Forall_forall in Hz.
  apply elem_of_cons in Hx as [->|Hx], Hy as [->|Hy]; [done|by apply Hz|by apply disj_sym, Hz|by apply IH].
Qed.

Lemma pdisj_across l k x y : pdisj (l ++ k) -> x ∈ l -> y ∈ k -> disj x y.
Proof.
  induction l as [|z l IH]; intros Hp Hx Hy; [by apply elem_of_nil in Hx|]. destruct Hp as [Hz Hp]. rewrite Forall_forall in Hz.
  apply elem_of_cons in Hx as [->|Hx]; [|by apply IH]. apply Hz. apply elem_of_app. by right.
Qed.

Definition units (l : list ublock) : Z := foldr (fun x u => x.2 + u) 0 l.

Lemma units_app l k : units (l ++ k) = units l + units k.
Proof. induction l as [|x l IH]; cbn; [done|]. unfold units in IH. rewrite IH. unfold units. lia. Qed.

Lemma units_perm l k : l ≡ₚ k -> units l = units k.
Proof. unfold units. induction 1; cbn; lia. Qed.

Lemma units_length l : big l -> Z.of_nat (length l) <= units l.
Proof. unfold units. induction 1; cbn; lia. Qed.

(** ** Paths through the list *)

Definition hd_addr (l : list ublock) (z : Z) : Z := match l with [] => z | x :: _ => x.1 end.

Fixpoint linked (m : mem) (l : list ublock) (z : Z) : Prop :=
  match l with
  | [] => True
  | x :: l' => size_of m x.1 = x.2 /\ ptr_of m x.1 = hd_addr l' z /\ linked m l' z
  end.

Lemma hd_addr_app l k z : hd_addr (l ++ k) z = hd_addr l (hd_addr k z).
Proof. by destruct l. Qed.

Lemma linked_app m l k z : linked m (l ++ k) z <-> linked m l (hd_addr k z) /\ linked m k z.
Proof. induction l as [|x l IH]; cbn; [tauto|]. rewrite IH, hd_addr_app. tauto. Qed.

Lemma linked_frame m m' l z : (forall x, x ∈ l -> same16 m m' x.1) -> linked m l z -> linked m' l z.
Proof.
  induction l as [|x l IH]; intros Hs Hl; [done|]. destruct Hl as (H1 & H2 & H3). pose proof (Hs x ltac:(by left)) as Hx.
  split_and!; [by rewrite (same16_size m)|by rewrite (same16_ptr m)|]. apply IH; [|done]. intros y Hy. apply Hs. by right.
Qed.

Definition asc (l : list ublock) : Prop := StronglySorted (fun x y => x.1 < y.1) l.

(** Where a new address belongs in the order. *)
Lemma asc_find b l a : asc (b :: l) -> b.1 < a -> (forall x, x ∈ l -> x.1 <> a) ->
  exists l1 p l2, b :: l = l1 ++ p :: l2 /\ p.1 < a /\ forall x, x ∈ l2 -> a < x.1.
Proof.
  intros Hs. revert b Hs. induction l as [|y l IH]; intros b Hs Hb Hne; [exists [], b, []; split; [done|]; split; [done|]; intros x Hx; by apply elem_of_nil in Hx|].
  apply StronglySorted_cons in Hs as [Hby Hs]. rewrite Forall_cons in Hby.
  destruct (decide (y.1 < a)) as [Hy|Hy].
  - destruct (IH y Hs Hy) as (l1 & p & l2 & E & H1 & H2); [intros x Hx; apply Hne; by right|].
    exists (b :: l1), p, l2. rewrite E. done.
  - exists [], b, (y :: l). split; [done|]. split; [done|]. intros x Hx. specialize (Hne y ltac:(by left)).
    apply StronglySorted_cons in Hs as [Hyl _]. rewrite Forall_forall in Hyl.
    apply elem_of_cons in Hx as [->|Hx]; [lia|]. specialize (Hyl x Hx). lia.
Qed.

Lemma asc_app l1 l2 : asc (l1 ++ l2) <-> (forall x y, x ∈ l1 -> y ∈ l2 -> x.1 < y.1) /\ asc l1 /\ asc l2.
Proof. unfold asc. by rewrite StronglySorted_app. Qed.

Lemma asc_cons x l : asc (x :: l) <-> (forall y, y ∈ l -> x.1 < y.1) /\ asc l.
Proof. unfold asc. rewrite StronglySorted_cons, Forall_forall. done. Qed.

(** [free_find] along a path. *)
Lemma free_find_path m bp t z : between m bp t.1 = true -> forall mid k, linked m (mid ++ [t]) z ->
  (forall x, x ∈ mid -> between m bp x.1 = false) -> (length mid < k)%nat -> free_find k bp (hd_addr (mid ++ [t]) z) m = Ok t.1.
Proof.
  intros Ht. induction mid as [|x mid IH]; intros [|k] Hl Hm Hk; cbn in *; [lia|by rewrite Ht|lia|].
  destruct Hl as (_ & H2 & H3). rewrite (Hm x) by by left. rewrite H2. apply IH; [done| |lia]. intros y Hy. apply Hm. by right.
Qed.

(** ** Joining neighbours *)

Definition far (a : Z) (l : list ublock) : Prop := forall x, x ∈ l -> a + 16 <= x.1 \/ x.1 + 16 <= a.

(** The memory changes in the header at [a] only. *)
Definition only16 (a : Z) (m m' : mem) : Prop := forall x, x < a \/ a + 16 <= x -> ld8 m' x = ld8 m x.

Lemma only16_far m m' a l z : only16 a m m' -> far a l -> linked m l z -> linked m' l z.
Proof. intros Ho Hf. apply linked_frame. intros x Hx y Hy. apply Ho. specialize (Hf x Hx). lia. Qed.

Lemma only16_set_ptr p v m : only16 p m (set_ptr p v m).
Proof. intros x Hx. apply ld8_set_ptr. lia. Qed.

Lemma only16_set_both p v n m : only16 p m (set_ptr p v (set_size p n m)).
Proof. intros x Hx. rewrite ld8_set_ptr, ld8_set_size by lia. done. Qed.

Lemma only16_same m m' a b : only16 a m m' -> a + 16 <= b \/ b + 16 <= a -> same16 m m' b.
Proof. intros H Hab x Hx. apply H. lia. Qed.

(** [p] becomes the head of a path whose first block it may swallow. *)
Lemma link_run m p n l z : size_of m p = n -> 0 <= hd_addr l z < 18446744073709551616 -> far p l -> linked m l z ->
  linked (set_ptr p (hd_addr l z) m) ((p, n) :: l) z.
Proof.
  intros Hs Hz Hf Hl. cbn [linked fst snd]. rewrite size_set_ptr, ptr_set_ptr by done. split_and!; auto.
  apply (only16_far m _ p); auto using only16_set_ptr.
Qed.

Lemma swallow_run m p n q l z : size_of m p = n -> 0 <= n + q.2 < 4294967296 -> 0 <= hd_addr l z < 18446744073709551616 ->
  far p (q :: l) -> linked m (q :: l) z ->
  let m1 := set_size p (size_of m p + size_of m q.1) m in
  linked (set_ptr p (ptr_of m1 q.1) m1) ((p, n + q.2) :: l) z.
Proof.
  intros Hs Hn Hz Hf (Hq1 & Hq2 & Hl) m1. assert (Hf' : far p l) by (intros x Hx; apply Hf; by right).
  assert (E : ptr_of m1 q.1 = hd_addr l z).
  { rewrite <- Hq2. apply same16_ptr. intros x Hx. apply ld8_set_size. specialize (Hf q ltac:(by left)). lia. }
  rewrite E. cbn [linked fst snd]. rewrite size_set_ptr, ptr_set_ptr by done. unfold m1. rewrite Hs, Hq1, size_set_size by done. split_and!; auto.
  apply (only16_far m _ p); auto using only16_set_both.
Qed.

Lemma linked_next m l z u a v : linked m l z -> l = u ++ a :: v -> ptr_of m a.1 = hd_addr v z.
Proof. intros Hl ->. by apply linked_app in Hl as [_ (_ & Hn & _)]. Qed.

(** ** The loop of [free]

    [p] is the last block of the list below the address [bp]. *)
Section Place.
Variables (base : Z) (m : mem) (l1 : list ublock) (p : ublock) (l2 : list ublock) (bp : Z).
Hypothesis Hl : linked m (l1 ++ p :: l2) base.
Hypothesis Ha : asc (l1 ++ p :: l2).
Hypothesis Hb : hd_addr (l1 ++ p :: l2) base = base.
Hypothesis Hge : forall x, x ∈ l1 ++ p :: l2 -> base <= x.1.
Hypothesis Hp : p.1 < bp.
Hypothesis H2 : forall x, x ∈ l2 -> bp < x.1.

Lemma place_stop : between m bp p.1 = true.
Proof.
  unfold between. rewrite (linked_next _ _ _ l1 p l2 Hl eq_refl). specialize (Hge p ltac:(set_solver)).
  destruct l2 as [|y l2']; cbn [hd_addr]; [|specialize (H2 y ltac:(by left))]; lia.
Qed.

Lemma place_before x : x ∈ l1 -> between m bp x.1 = false.
Proof.
  intros Hx. apply list_elem_of_split in Hx as (u & v & E). unfold between.
  rewrite (linked_next _ _ _ u x (v ++ p :: l2) Hl) by (rewrite E, <- app_assoc; done).
  apply asc_app in Ha as (H12 & H1 & _). rewrite E in H1. apply asc_app in H1 as (_ & _ & H1). apply asc_cons in H1 as [H1 _].
  specialize (H12 x p ltac:(set_solver) ltac:(by left)) as Hxp. destruct v as [|y v]; cbn [app hd_addr]; [lia|].
  specialize (H1 y ltac:(by left)). specialize (H12 y p ltac:(set_solver) ltac:(by left)). lia.
Qed.

Lemma place_after x : x ∈ l2 -> between m bp x.1 = false.
Proof.
  intros Hx. specialize (H2 x Hx). pose proof (Hge p ltac:(set_solver)). specialize (Hge x ltac:(set_solver)). apply list_elem_of_split in Hx as (u & v & E). unfold between.
  rewrite (linked_next _ _ _ (l1 ++ p :: u) x v Hl) by (rewrite E, <- app_assoc; done).
  apply asc_app in Ha as (_ & _ & Ha2). apply asc_cons in Ha2 as [_ Ha2]. rewrite E in Ha2. apply asc_app in Ha2 as (_ & _ & Ha2). apply asc_cons in Ha2 as [Ha2 _].
  destruct v as [|y v]; cbn [hd_addr]; [|specialize (Ha2 y ltac:(by left))]; lia.
Qed.

(** From every block of the list, around its end if need be. *)
Lemma place_find f k : f ∈ l1 ++ p :: l2 -> (length l1 + length l2 < k)%nat -> free_find k bp f.1 m = Ok p.1.
Proof.
  intros Hf Hk. apply linked_app in Hl as Hl'. destruct Hl' as [Hl1 (Hp1 & Hp2 & Hl2)]. cbn [hd_addr] in Hl1.
  apply elem_of_app in Hf as [Hf|Hf]; [|apply elem_of_cons in Hf as [->|Hf]].
  - apply list_elem_of_split in Hf as (u & v & E).
    assert (Hpath : linked m ((f :: v) ++ [p]) (hd_addr l2 base)).
    { apply linked_app. split; [|by cbn]. cbn [hd_addr]. rewrite E in Hl1. by apply linked_app in Hl1 as [_ Hl1]. }
    apply (free_find_path m bp p _ place_stop (f :: v) k Hpath); [intros x Hx; apply place_before; set_solver|].
    rewrite E, length_app in Hk. cbn in *. lia.
  - apply (free_find_path m bp p (hd_addr l2 base) place_stop [] k); [by cbn|intros x Hx; by apply elem_of_nil in Hx|cbn; lia].
  - apply list_elem_of_split in Hf as (u & v & E).
    assert (Hpath : linked m (((f :: v) ++ l1) ++ [p]) (hd_addr l2 base)).
    { rewrite <- app_assoc. apply linked_app. split; [|apply linked_app; split; [done|by cbn]].
      rewrite hd_addr_app in *. cbn [hd_addr] in *. rewrite Hb. rewrite E in Hl2. by apply linked_app in Hl2 as [_ Hl2]. }
    apply (free_find_path m bp p _ place_stop ((f :: v) ++ l1) k Hpath).
    + intros x Hx. apply elem_of_app in Hx as [Hx|Hx]; [apply place_after; set_solver|by apply place_before].
    + rewrite E, length_app in Hk. rewrite length_app. cbn in *. lia.
Qed.

End Place.

(** The two joins of [free]. *)
Lemma join_up_run m p l2 b n z : ptr_of m p = hd_addr l2 z -> size_of m b = n -> far b l2 -> linked m l2 z ->
  (forall x, x ∈ l2 -> 0 <= x.1 < 18446744073709551616 /\ 0 <= n + x.2 < 4294967296) -> 0 <= z < 18446744073709551616 -> b + 16 * n <> z ->
  exists n' l2', linked (join_up b p m) ((b, n') :: l2') z /\ only16 b m (join_up b p m) /\
    (n' = n /\ l2' = l2 \/ exists k, l2 = (b + 16 * n, k) :: l2' /\ n' = n + k).
Proof.
  intros Hp Hs Hf Hl Hr Hz Hne. unfold join_up, HDR. rewrite Hp, Hs.
  assert (Hhd : forall l, (forall x, x ∈ l -> x ∈ l2) -> 0 <= hd_addr l z < 18446744073709551616).
  { intros [|x l] Hin; cbn; [done|]. apply Hr, Hin. by left. }
  destruct (b + 16 * n =? hd_addr l2 z) eqn:E; bool_to_prop.
  - destruct l2 as [|[q k] l2]; [done|]. cbn [hd_addr fst] in *. exists (n + k), l2. split_and!.
    + pose proof (swallow_run m b n (q, k) l2 z Hs (proj2 (Hr (q, k) ltac:(by left))) (Hhd l2 ltac:(set_solver)) Hf Hl) as Hw.
      cbn zeta in Hw. by rewrite Hs in Hw.
    + apply only16_set_both.
    + right. exists k. by rewrite E.
  - exists n, l2. split_and!; [apply link_run; auto|apply only16_set_ptr|by left].
Qed.

Lemma join_down_run m p np b n l z : size_of m p = np -> linked m ((b, n) :: l) z -> far p ((b, n) :: l) ->
  (forall x, x ∈ (b, n) :: l -> 0 <= x.1 < 18446744073709551616) -> 0 <= np + n < 4294967296 -> 0 <= z < 18446744073709551616 ->
  exists l', linked (join_down b p m) l' z /\ only16 p m (join_down b p m) /\
    (l' = (p, np) :: (b, n) :: l \/ b = p + 16 * np /\ l' = (p, np + n) :: l).
Proof.
  intros Hs Hl Hf Hr Hn Hz. unfold join_down, HDR. rewrite Hs. destruct (p + 16 * np =? b) eqn:E; bool_to_prop.
  - exists ((p, np + n) :: l). split_and!.
    + assert (Hhd : 0 <= hd_addr l z < 18446744073709551616) by (destruct l as [|x l]; cbn; [done|]; apply Hr; set_solver).
      pose proof (swallow_run m p np (b, n) l z Hs Hn Hhd Hf Hl) as Hw. cbn zeta in Hw. by rewrite Hs in Hw.
    + apply only16_set_both.
    + right. by rewrite E.
  - exists ((p, np) :: (b, n) :: l). split_and!; [|apply only16_set_ptr|by left].
    change b with (hd_addr ((b, n) :: l) z). apply link_run; auto. cbn. apply (Hr (b, n)). by left.
Qed.

(** ** Blocks that fill a part of memory *)

Record blocks (lo hi tot : Z) (l : list ublock) : Prop := Blocks {
  bk_disj : pdisj l;
  bk_range : forall x, x ∈ l -> lo <= x.1 /\ 1 <= x.2 /\ x.1 + 16 * x.2 <= hi;
  bk_total : units l = tot
}.

Lemma blocks_perm lo hi tot l k : l ≡ₚ k -> blocks lo hi tot l -> blocks lo hi tot k.
Proof.
  intros Hp [H1 H2 H3]. split; [by rewrite <- Hp| |by rewrite <- (units_perm _ _ Hp)]. intros x Hx. apply H2. by rewrite Hp.
Qed.

Lemma blocks_big lo hi tot l : blocks lo hi tot l -> big l.
Proof. intros H. unfold big. rewrite Forall_forall. intros x Hx. apply (bk_range _ _ _ _ H x Hx). Qed.

Lemma blocks_merge lo hi tot a n k l : blocks lo hi tot ((a, n) :: (a + 16 * n, k) :: l) -> blocks lo hi tot ((a, n + k) :: l).
Proof.
  intros H. pose proof (blocks_big _ _ _ _ H) as Hb. destruct H as [H1 H2 H3]. unfold big in Hb. rewrite !Forall_cons in Hb. cbn in Hb.
  destruct Hb as (Hn & Hk & Hb). split; [apply pdisj_merge; auto; lia| |cbn in *; lia].
  pose proof (H2 (a, n) ltac:(set_solver)) as Ha. pose proof (H2 (a + 16 * n, k) ltac:(set_solver)) as Hc. cbn in Ha, Hc.
  intros x Hx. apply elem_of_cons in Hx as [->|Hx]; [cbn; lia|]. apply H2. set_solver.
Qed.

Lemma blocks_split lo hi tot a n k l : 1 <= n -> 1 <= k -> blocks lo hi tot ((a, n + k) :: l) -> blocks lo hi tot ((a, n) :: (a + 16 * n, k) :: l).
Proof.
  intros Hn Hk [H1 H2 H3]. split; [apply pdisj_split; auto; lia| |cbn in *; lia].
  pose proof (H2 (a, n + k) ltac:(set_solver)) as Ha. cbn in Ha. intros x Hx.
  apply elem_of_cons in Hx as [->|Hx]; [cbn; lia|]. apply elem_of_cons in Hx as [->|Hx]; [cbn; lia|]. apply H2. set_solver.
Qed.

Section Inv.
Variables (base heap0 : Z).
Hypothesis Hbase : 0 < base.
Hypothesis Hheap0 : base + 16 <= heap0.

Definition LIM : Z := 34359738368.

(** A heap with free blocks [fl] and used blocks [live]; [o] bytes of the
    process's memory were obtained by others. *)
Record hinv (h : heap) (fl live : list ublock) (o : Z) : Prop := Hinv {
  hi_linked : linked (umem h) ((base, 0) :: fl) base;
  hi_freep : exists n, (freep h, n) ∈ (base, 0) :: fl;
  hi_asc : asc ((base, 0) :: fl);
  hi_live : forall x, x ∈ live -> size_of (umem h) x.1 = x.2;
  hi_blocks : exists t, blocks heap0 (brk h) t (fl ++ live) /\ 16 * t + o = brk h - heap0;
  hi_other : 0 <= o;
  hi_brk : brk h < LIM
}.

Lemma hinv_range h fl live o x : hinv h fl live o -> x ∈ fl ++ live -> heap0 <= x.1 /\ 1 <= x.2 /\ x.1 + 16 * x.2 <= brk h.
Proof. intros H Hx. destruct (hi_blocks _ _ _ _ H) as (t & Hb & _). by apply (bk_range _ _ _ _ Hb). Qed.

Lemma hinv_fuel h fl live o : hinv h fl live o -> (length fl + 1 < fuel h)%nat.
Proof.
  intros H. destruct (hi_blocks _ _ _ _ H) as (t & Hb & Ht). pose proof (units_length _ (blocks_big _ _ _ _ Hb)) as Hu.
  rewrite length_app, (bk_total _ _ _ _ Hb) in Hu. pose proof (hi_other _ _ _ _ H). unfold fuel, HDR. zlia.
Qed.

(** Headers are apart, that of [base] included. *)
Lemma hinv_apart h fl live o x y : hinv h fl live o -> x ∈ ((base, 0) :: fl) ++ live -> y ∈ ((base, 0) :: fl) ++ live -> x.1 <> y.1 ->
  x.1 + 16 <= y.1 \/ y.1 + 16 <= x.1.
Proof.
  intros H Hx Hy Hne. destruct (hi_blocks _ _ _ _ H) as (t & Hb & _). cbn [app] in Hx, Hy.
  apply elem_of_cons in Hx as [->|Hx], Hy as [->|Hy]; [done| | |].
  - pose proof (hinv_range _ _ _ _ y H Hy). cbn in *. lia.
  - pose proof (hinv_range _ _ _ _ x H Hx). cbn in *. lia.
  - pose proof (hinv_range _ _ _ _ x H Hx). pose proof (hinv_range _ _ _ _ y H Hy).
    pose proof (pdisj_elem _ x y (bk_disj _ _ _ _ Hb) Hx Hy Hne) as Hd. unfold disj in Hd. lia.
Qed.

(** ** [free] *)

(** The place in the list for a block of [live]. *)
Lemma free_place h fl live o bp : hinv h fl live o -> bp ∈ live ->
  exists l1 p l2, (base, 0) :: fl = l1 ++ p :: l2 /\ p.1 < bp.1 /\ (forall x, x ∈ l2 -> bp.1 < x.1) /\
    free_find (fuel h) bp.1 (freep h) (umem h) = Ok p.1.
Proof.
  intros H Hbp. pose proof (hinv_fuel _ _ _ _ H) as Hf. assert (Hr := fun x => hinv_range _ _ _ _ x H).
  destruct H as [Hl [nf Hfp] Ha _ (t & [Hd _ _] & _) _ _]. assert (Hrb := Hr bp ltac:(set_solver)).
  destruct (asc_find (base, 0) fl bp.1 Ha) as (l1 & p & l2 & E & Hp & H2); [cbn; lia| |].
  { intros x Hx Ex. pose proof (pdisj_across _ _ x bp Hd Hx Hbp) as Hxb. assert (Hrx := Hr x ltac:(set_solver)). unfold disj in Hxb. lia. }
  exists l1, p, l2. split_and!; auto. assert (Hn : length ((base, 0) :: fl) = length (l1 ++ p :: l2)) by by rewrite E.
  rewrite length_app in Hn. cbn in Hn. assert (Hge : forall x, x ∈ (base, 0) :: fl -> base <= x.1).
  { intros x Hx. apply elem_of_cons in Hx as [->|Hx]; [done|]. assert (Hrx := Hr x ltac:(set_solver)). lia. }
  assert (Hb : hd_addr ((base, 0) :: fl) base = base) by done. rewrite E in *.
  apply (place_find base (umem h) l1 p l2 bp.1 Hl Ha Hb Hge Hp H2 (freep h, nf)); [done|lia].
Qed.

(** The blocks above and below join. *)
Lemma free_blocks hi t L l2 live b n n' l2' :
  blocks heap0 hi t ((L ++ l2) ++ (b, n) :: live) ->
  (n' = n /\ l2' = l2 \/ exists k, l2 = (b + 16 * n, k) :: l2' /\ n' = n + k) ->
  blocks heap0 hi t ((b, n') :: l2' ++ L ++ live).
Proof.
  intros Hb [[-> ->]|(k & -> & ->)].
  - revert Hb. apply blocks_perm. solve_Permutation.
  - apply blocks_merge. revert Hb. apply blocks_perm. solve_Permutation.
Qed.

Lemma asc_insert l1 p l2 b n l2' : asc (l1 ++ p :: l2) -> p.1 < b -> (forall x, x ∈ l2 -> b < x.1) ->
  (forall x, x ∈ l2' -> x ∈ l2) -> asc l2' -> asc (l1 ++ p :: (b, n) :: l2').
Proof.
  intros Ha Hp H2 Hsub H2'. apply asc_app in Ha as (H12 & H1 & Hp2). apply asc_app. split_and!; auto.
  - intros x y Hx Hy. specialize (H12 x p Hx ltac:(by left)) as Hxp. apply elem_of_cons in Hy as [->|Hy]; [done|].
    apply elem_of_cons in Hy as [->|Hy]; [cbn; lia|]. specialize (H2 y (Hsub y Hy)). lia.
  - apply asc_cons. split; [|apply asc_cons; split; auto]. intros y Hy. apply elem_of_cons in Hy as [->|Hy]; [done|]. specialize (H2 y (Hsub y Hy)). lia.
Qed.

Lemma asc_swallow l1 p np n x l2 : asc (l1 ++ (p, np) :: x :: l2) -> asc (l1 ++ (p, np + n) :: l2).
Proof.
  intros Ha. apply asc_app in Ha as (H12 & H1 & Hp2). apply asc_cons in Hp2 as [Hp Hx]. apply asc_cons in Hx as [_ H2].
  apply asc_app. split_and!; auto; [|apply asc_cons; split; [intros y Hy; apply (Hp y); set_solver|done]].
  intros y w Hy Hw. apply elem_of_cons in Hw as [->|Hw]; [apply (H12 y (p, np) Hy); set_solver|apply H12; set_solver].
Qed.

(** What [free] does to the list: [L] is the part of it below the new block. *)
Section FreeList.
Variables (h : heap) (L l2 live : list ublock) (o b n : Z) (l1 : list ublock) (p : ublock).
Hypothesis H : hinv h (L ++ l2) ((b, n) :: live) o.
Hypothesis EL : (base, 0) :: L = l1 ++ [p].
Hypothesis Hp : p.1 < b.
Hypothesis H2 : forall x, x ∈ l2 -> b < x.1.

Lemma fl_nodes : (base, 0) :: L ++ l2 = l1 ++ p :: l2.
Proof. change ((base, 0) :: L ++ l2) with (((base, 0) :: L) ++ l2). rewrite EL, <- app_assoc. done. Qed.

Lemma fl_asc : asc (l1 ++ p :: l2).
Proof. rewrite <- fl_nodes. apply H. Qed.

Lemma fl_far_b : far b (l1 ++ p :: l2).
Proof.
  intros x Hx. assert (Hne : x.1 <> b).
  { pose proof fl_asc as Ha. apply asc_app in Ha as (H12 & _ & _). apply elem_of_app in Hx as [Hx|Hx]; [specialize (H12 x p Hx ltac:(by left)); lia|].
    apply elem_of_cons in Hx as [->|Hx]; [lia|]. specialize (H2 x Hx). lia. }
  destruct (hinv_apart _ _ _ _ x (b, n) H) as [?|?]; cbn in *; [|set_solver|done|by right|by left].
  rewrite <- fl_nodes in Hx. set_solver.
Qed.

Lemma fl_far_p : far p.1 (l1 ++ l2).
Proof.
  intros x Hx. pose proof fl_asc as Ha. apply asc_app in Ha as (H12 & _ & Hpl). apply asc_cons in Hpl as [Hpl _].
  assert (Hne : x.1 <> p.1) by (apply elem_of_app in Hx as [Hx|Hx]; [specialize (H12 x p Hx ltac:(by left)); lia|specialize (Hpl x Hx); lia]).
  destruct (hinv_apart _ _ _ _ x p H) as [?|?]; auto; apply elem_of_app; left; rewrite fl_nodes; set_solver.
Qed.

Lemma fl_bound x : x ∈ l1 ++ p :: l2 -> 0 <= x.1 < 18446744073709551616 /\ 0 <= x.2 < 2147483648.
Proof.
  rewrite <- fl_nodes. intros Hx. pose proof (hi_brk _ _ _ _ H) as Hlim. unfold LIM in Hlim.
  pose proof (hinv_range _ _ _ _ (b, n) H ltac:(set_solver)) as Hb. cbn in Hb.
  apply elem_of_cons in Hx as [->|Hx]; [cbn; lia|]. pose proof (hinv_range _ _ _ _ x H ltac:(set_solver)). lia.
Qed.

Lemma fl_down n' l2' l' : n <= n' -> l' = (p.1, p.2) :: (b, n') :: l2' \/ b = p.1 + 16 * p.2 /\ l' = (p.1, p.2 + n') :: l2' ->
  exists fl', l1 ++ l' = (base, 0) :: fl' /\ (exists y, y ∈ fl' /\ n <= y.2) /\
    forall t, blocks heap0 (brk h) t ((b, n') :: l2' ++ L ++ live) -> blocks heap0 (brk h) t (fl' ++ live).
Proof.
  intros Hn Cd. pose proof (hinv_range _ _ _ _ (b, n) H ltac:(set_solver)) as Hbr. cbn in Hbr.
  pose proof (fl_bound p ltac:(set_solver)) as Bp. destruct l1 as [|x1 l1'].
  - injection EL as E1 E2. destruct Cd as [->|[Eb _]]; [|rewrite <- E1 in Eb; cbn in Eb; lia].
    exists ((b, n') :: l2'). split; [by rewrite <- E1|]. split; [exists (b, n'); split; [by left|done]|]. intros t. rewrite E2. cbn [app]. done.
  - injection EL as E1 E2. subst x1. destruct Cd as [->|[Eb ->]]; (eexists; split; [reflexivity|]).
    + split; [exists (b, n'); split; [set_solver|done]|]. intros t. rewrite E2, <- surjective_pairing. apply blocks_perm. solve_Permutation.
    + split; [exists (p.1, p.2 + n'); split; [set_solver|cbn; lia]|]. intros t Hb.
      apply (blocks_perm _ _ _ ((p.1, p.2 + n') :: l2' ++ l1' ++ live)); [solve_Permutation|]. apply blocks_merge. rewrite <- Eb, <- surjective_pairing.
      revert Hb. rewrite E2. apply blocks_perm. solve_Permutation.
Qed.

Lemma free_list : let m := join_down b p.1 (join_up b p.1 (umem h)) in
  exists l' fl', linked m (l1 ++ l') base /\ asc (l1 ++ l') /\
    (forall x, (x < p.1 \/ p.1 + 16 <= x) -> (x < b \/ b + 16 <= x) -> ld8 m x = ld8 (umem h) x) /\
    l1 ++ l' = (base, 0) :: fl' /\ (exists k, (p.1, k) ∈ l') /\ (exists y, y ∈ fl' /\ n <= y.2) /\ (length l' <= S (S (length l2)))%nat /\
    forall t, blocks heap0 (brk h) t ((L ++ l2) ++ (b, n) :: live) -> blocks heap0 (brk h) t (fl' ++ live).
Proof.
  intros m. pose proof fl_far_b as Fb. pose proof fl_far_p as Fp. pose proof fl_bound as Bd.
  pose proof (hi_linked _ _ _ _ H) as Hl. rewrite fl_nodes in Hl. apply linked_app in Hl as [Hl1 (Hs & Hpp & Hl2)]. cbn [hd_addr] in Hl1.
  pose proof (hinv_range _ _ _ _ (b, n) H ltac:(set_solver)) as Hbr. cbn in Hbr. pose proof (hi_brk _ _ _ _ H) as Hlim. unfold LIM in Hlim.
  destruct (join_up_run (umem h) p.1 l2 b n base) as (n' & l2' & Hu & Ou & Cu); auto; try lia.
  { apply (hi_live _ _ _ _ H (b, n)). by left. }
  { intros x Hx. apply Fb. set_solver. }
  { intros x Hx. pose proof (Bd x ltac:(set_solver)). lia. }
  destruct (hi_blocks _ _ _ _ H) as (t & Hb & Ht). pose proof (free_blocks _ _ _ _ _ _ _ _ _ Hb Cu) as Hb'.
  pose proof (bk_range _ _ _ _ Hb' (b, n') ltac:(by left)) as Hbn. cbn in Hbn.
  assert (Hsub : forall x, x ∈ l2' -> x ∈ l2) by (destruct Cu as [[_ ->]|(k & -> & _)]; [done|set_solver]).
  assert (Fp' : far p.1 ((b, n') :: l2')).
  { intros x Hx. apply elem_of_cons in Hx as [->|Hx]; [specialize (Fb p ltac:(set_solver)); cbn; lia|]. apply Fp. set_solver. }
  destruct (join_down_run (join_up b p.1 (umem h)) p.1 p.2 b n' l2' base) as (l' & Hd & Od & Cd); auto; try lia.
  { rewrite (same16_size (umem h)); [done|]. apply (only16_same _ _ b); [done|]. specialize (Fb p ltac:(set_solver)). lia. }
  { intros x Hx. apply elem_of_cons in Hx as [->|Hx]; [cbn; lia|]. apply Bd. set_solver. }
  { pose proof (Bd p ltac:(set_solver)). lia. }
  assert (Ehd : hd_addr l' base = p.1) by (destruct Cd as [-> |[_ ->]]; done).
  destruct (fl_down n' l2' l') as (fl' & Efl & Hy & Hfb); auto; [destruct Cu as [[-> _]|(k & E & ->)]; [lia|]; pose proof (Bd (b + 16 * n, k) ltac:(rewrite E; set_solver)); cbn in *; lia|].
  exists l', fl'. split_and!; auto.
  - apply linked_app. split; [|done]. rewrite Ehd. apply (only16_far (join_up b p.1 (umem h)) _ p.1); [done|intros x Hx; apply Fp; set_solver|].
    apply (only16_far (umem h) _ b); [done|intros x Hx; apply Fb; set_solver|done].
  - assert (Hal : asc l2') by (pose proof fl_asc as Ha; apply asc_app in Ha as (_ & _ & Ha); apply asc_cons in Ha as [_ Ha];
      destruct Cu as [[_ ->]|(k & E & _)]; [done|rewrite E in Ha; apply asc_cons in Ha; apply Ha]).
    pose proof (asc_insert l1 p l2 b n' l2' fl_asc Hp H2 Hsub Hal) as Hai.
    destruct Cd as [->|[_ ->]]; [by rewrite <- surjective_pairing|].
    apply (asc_swallow l1 p.1 p.2 n' (b, n')). by rewrite <- surjective_pairing.
  - intros x H1x H2x. rewrite Od by done. by apply Ou.
  - destruct Cd as [->|[_ ->]]; eexists; by left.
  - destruct Cu as [[_ ->]|(k & -> & _)], Cd as [->|[_ ->]]; cbn; lia.
  - intros t' Hbt. apply Hfb. by apply (free_blocks _ _ _ _ _ _ _ _ _ Hbt).
Qed.

End FreeList.

Lemma free_ok h fl live o b n : hinv h fl ((b, n) :: live) o ->
  exists h' fl', free (b + 16) h = Ok h' /\ hinv h' fl' live o /\ brk h' = brk h /\ (exists y, y ∈ fl' /\ n <= y.2) /\
    (length fl' <= S (length fl))%nat /\
    forall x, (forall y, y ∈ (base, 0) :: fl -> x < y.1 \/ y.1 + 16 <= x) -> (x < b \/ b + 16 <= x) -> ld8 (umem h') x = ld8 (umem h) x.
Proof.
  intros H. destruct (free_place h fl _ o (b, n) H ltac:(by left)) as (l1 & p & l2 & E & Hp & H2 & Ef). cbn [fst] in *.
  assert (HL : exists L, (base, 0) :: L = l1 ++ [p] /\ fl = L ++ l2).
  { destruct l1 as [|x l1]; injection E as E1 E2; [exists []; by rewrite E1, E2|]. exists (l1 ++ [p]). by rewrite E1, E2, <- app_assoc. }
  destruct HL as (L & EL & ->). destruct (free_list h L l2 live o b n l1 p H EL Hp H2) as (l' & fl' & Hl & Ha & Hfr & Efl & (k & Hk) & Hy & Hlen & Hb).
  unfold free, HDR. replace (b + 16 - 16) with b by lia. rewrite Ef. cbn [mbind outcome_bind]. eexists _, fl'. split; [reflexivity|].
  assert (Hin : p ∈ (base, 0) :: L ++ l2) by (rewrite E; set_solver).
  assert (Hfr' : forall x, (forall y, y ∈ (base, 0) :: L ++ l2 -> x < y.1 \/ y.1 + 16 <= x) -> (x < b \/ b + 16 <= x) ->
    ld8 (join_down b p.1 (join_up b p.1 (umem h))) x = ld8 (umem h) x) by (intros x Hx Hxb; apply Hfr; [by apply Hx|done]).
  assert (Hll : (length fl' <= S (length (L ++ l2)))%nat).
  { apply (f_equal length) in E, Efl. rewrite length_app in E, Efl. cbn in E, Efl. lia. }
  split_and!; auto. rewrite Efl in *. split; cbn [umem freep brk]; auto; try apply H.
  - exists k. rewrite <- Efl. set_solver.
  - intros x Hx. rewrite (same16_size (umem h)); [apply (hi_live _ _ _ _ H); by right|]. intros z Hz.
    assert (Hxr := hinv_range _ _ _ _ x H ltac:(set_solver)). apply Hfr'.
    + intros y Hy'. destruct (hinv_apart _ _ _ _ x y H) as [?|?]; [set_solver|set_solver| |lia|lia].
      intros Exy. apply elem_of_cons in Hy' as [->|Hy']; [cbn in Exy; lia|]. destruct (hi_blocks _ _ _ _ H) as (t & [Hd _ _] & _).
      assert (Hyr := hinv_range _ _ _ _ y H ltac:(set_solver)). pose proof (pdisj_across _ _ y x Hd Hy' ltac:(by right)) as Hd'. unfold disj in Hd'. lia.
    + destruct (hi_blocks _ _ _ _ H) as (t & [Hd Hr _] & _). rewrite (pdisj_perm _ ((b, n) :: (L ++ l2) ++ live)) in Hd by solve_Permutation.
      destruct Hd as [Hd _]. rewrite Forall_forall in Hd. specialize (Hd x ltac:(set_solver)). unfold disj in Hd. cbn in Hd.
      pose proof (Hr (b, n) ltac:(set_solver)) as Hbr. cbn in Hbr. lia.
  - destruct (hi_blocks _ _ _ _ H) as (t & Hbt & Ht). exists t. split; [by apply Hb|done].
Qed.

End Inv.
