(* ===== verification/UmallocProps.v ===== *)
(** * The user allocator: [malloc] and what programs may rely on

    [malloc] searches the circular list once, and once more after the heap has
    grown; the theorem at the end is about every program that calls [malloc]
    and [free] and writes to its blocks. *)
From S2P Require Import Prelude Cstring Umalloc.

Import Umalloc.
#[local] Transparent ld32 st32.

Definition last_addr (p : Z) (l : list ublock) : Z := match last l with Some x => x.1 | None => p end.

Lemma last_addr_cons p x l : last_addr p (x :: l) = last_addr x.1 l.
Proof. unfold last_addr. rewrite last_cons. by destruct (last l). Qed.

Lemma last_addr_snoc p l x : last_addr p (l ++ [x]) = x.1.
Proof. unfold last_addr. by rewrite last_snoc. Qed.

Lemma first_fit (n : Z) (l : list ublock) :
  (exists mid t rest, l = mid ++ t :: rest /\ (forall x, x ∈ mid -> x.2 < n) /\ n <= t.2) \/ forall x, x ∈ l -> x.2 < n.
Proof.
  induction l as [|y l IH]; [right; intros x Hx; by apply elem_of_nil in Hx|]. destruct (decide (n <= y.2)) as [Hy|Hy].
  { left. exists [], y, l. split; [done|]. split; [|done]. intros x Hx. by apply elem_of_nil in Hx. }
  destruct IH as [(mid & t & rest & -> & Hm & Ht)|IH].
  - left. exists (y :: mid), t, rest. split; [done|]. split; [|done]. intros x Hx. apply elem_of_cons in Hx as [->|Hx]; [lia|by apply Hm].
  - right. intros x Hx. apply elem_of_cons in Hx as [->|Hx]; [lia|by apply IH].
Qed.

Lemma malloc_walk grow h n t z : forall mid prevp k, linked (umem h) (mid ++ [t]) z ->
  (forall x, x ∈ mid -> x.2 < n /\ x.1 <> freep h) ->
  malloc_loop grow (length mid + k) n prevp (hd_addr (mid ++ [t]) z) h = malloc_loop grow k n (last_addr prevp mid) t.1 h.
Proof.
  induction mid as [|x mid IH]; intros prevp k Hl Hm; [done|]. rewrite last_addr_cons. destruct Hl as (H1 & H2 & H3).
  destruct (Hm x ltac:(by left)) as [Hn Hf]. cbn [length Nat.add app hd_addr malloc_loop]. rewrite H1.
  rewrite (proj2 (Z.leb_gt _ _)) by lia. rewrite (proj2 (Z.eqb_neq _ _)) by done. rewrite H2. apply IH; [done|]. intros y Hy. apply Hm. by right.
Qed.

Section Props.
Variables (base heap0 : Z) (grow : Z -> Z -> bool).
Hypothesis Hbase : 0 < base.
Hypothesis Hheap0 : base + 16 <= heap0.
Abbreviation hinv := (hinv base heap0).

(** ** Taking a block *)

(** The memory changes between [lo] and [hi] only. *)
Definition only (lo hi : Z) (m m' : mem) : Prop := forall x, x < lo \/ hi <= x -> ld8 m' x = ld8 m x.

Lemma only_far m m' lo hi l z : only lo hi m m' -> (forall x, x ∈ l -> x.1 + 16 <= lo \/ hi <= x.1) -> linked m l z -> linked m' l z.
Proof. intros Ho Hf. apply linked_frame. intros x Hx y Hy. apply Ho. specialize (Hf x Hx). lia. Qed.

Lemma nodes_tail fl L1 q t L2 : (base, 0) :: fl = L1 ++ q :: t :: L2 -> exists L, (base, 0) :: L = L1 ++ [q] /\ fl = L ++ t :: L2.
Proof.
  intros E. destruct L1 as [|x L1]; injection E as E1 E2; [exists []; by rewrite E1, E2|]. exists (L1 ++ [q]). by rewrite E1, E2, <- app_assoc.
Qed.

Section Take.
Variables (h : heap) (L L2 live : list ublock) (o : Z) (L1 : list ublock) (q t : ublock) (n : Z).
Hypothesis H : hinv h (L ++ t :: L2) live o.
Hypothesis EL : (base, 0) :: L = L1 ++ [q].
Hypothesis Hn : 1 <= n <= t.2.

Lemma tk_nodes : (base, 0) :: L ++ t :: L2 = L1 ++ q :: t :: L2.
Proof. change ((base, 0) :: L ++ t :: L2) with (((base, 0) :: L) ++ t :: L2). rewrite EL, <- app_assoc. done. Qed.

Lemma tk_range x : x ∈ (L ++ t :: L2) ++ live -> heap0 <= x.1 /\ 1 <= x.2 /\ x.1 + 16 * x.2 <= brk h.
Proof. apply (hinv_range base heap0 _ _ _ _ x H). Qed.

(** Everything else is apart from the block [t]. *)
Lemma tk_apart x : x ∈ ((base, 0) :: L ++ L2) ++ live -> x.1 + 16 <= t.1 \/ t.1 + 16 * t.2 <= x.1.
Proof.
  intros Hx. pose proof (tk_range t ltac:(set_solver)) as Ht. cbn [app] in Hx. apply elem_of_cons in Hx as [->|Hx]; [cbn; lia|].
  destruct (hi_blocks _ _ _ _ _ _ H) as (u & [Hd Hr _] & _). rewrite (pdisj_perm _ (t :: (L ++ L2) ++ live)) in Hd by solve_Permutation.
  destruct Hd as [Hd _]. rewrite Forall_forall in Hd. specialize (Hd x Hx). specialize (tk_range x ltac:(set_solver)) as Hxr. unfold disj in Hd. lia.
Qed.

Lemma tk_q : q ∈ (base, 0) :: L.
Proof. rewrite EL. set_solver. Qed.

Lemma tk_far_q x : x ∈ L1 ++ t :: L2 \/ x ∈ live -> q.1 + 16 <= x.1 \/ x.1 + 16 <= q.1.
Proof.
  intros Hx. assert (Hq : q ∈ ((base, 0) :: L ++ t :: L2) ++ live) by (pose proof tk_q; set_solver).
  assert (Hx' : x ∈ ((base, 0) :: L ++ t :: L2) ++ live) by (rewrite tk_nodes; set_solver).
  destruct (hinv_apart base heap0 Hheap0 _ _ _ _ x q H Hx' Hq) as [?|?]; [|lia|lia].
  pose proof (hi_asc _ _ _ _ _ _ H) as Ha. rewrite tk_nodes in Ha. apply asc_app in Ha as (H12 & _ & Ha). apply asc_cons in Ha as [Ha _].
  destruct Hx as [Hx|Hx]; [apply elem_of_app in Hx as [Hx|Hx]; [specialize (H12 x q Hx ltac:(by left)); lia|specialize (Ha x Hx); lia]|].
  pose proof (tk_range x ltac:(set_solver)) as Hxr. pose proof tk_q as Hq'. apply elem_of_cons in Hq' as [->|Hq']; [cbn; lia|].
  destruct (hi_blocks _ _ _ _ _ _ H) as (u & [Hd _ _] & _). pose proof (pdisj_across _ _ q x Hd ltac:(set_solver) Hx) as Hd'.
  pose proof (tk_range q ltac:(set_solver)). unfold disj in Hd'. lia.
Qed.

Lemma tk_next l : l = L2 -> 0 <= hd_addr l base < 18446744073709551616.
Proof.
  pose proof (hi_brk _ _ _ _ _ _ H) as Hlim. unfold LIM in Hlim. pose proof (tk_range t ltac:(set_solver)).
  intros El. destruct l as [|x l]; cbn; [lia|]. pose proof (tk_range x ltac:(set_solver)). lia.
Qed.

(** The block is taken whole: [q] points behind it. *)
Lemma take_whole k : n = t.2 -> exists h', malloc_loop grow (S k) n q.1 t.1 h = Ok (t.1 + 16, h') /\
  hinv h' (L ++ L2) ((t.1, n) :: live) o /\ brk h' = brk h /\ only q.1 (q.1 + 16) (umem h) (umem h').
Proof.
  intros En. pose proof (hi_linked _ _ _ _ _ _ H) as Hl. rewrite tk_nodes in Hl. apply linked_app in Hl as [Hl1 (Hq1 & Hq2 & Ht1 & Ht2 & Hl2)].
  cbn [hd_addr] in *. pose proof (tk_range t ltac:(set_solver)) as Htr. pose proof (hi_brk _ _ _ _ _ _ H) as Hlim. unfold LIM in Hlim.
  assert (Hz : 0 <= hd_addr L2 base < 18446744073709551616) by (apply tk_next; done).
  cbn [malloc_loop]. rewrite Ht1, (proj2 (Z.leb_le _ _)), (proj2 (Z.eqb_eq _ _)), Ht2 by lia. eexists. split; [reflexivity|].
  set (m' := set_ptr q.1 (hd_addr L2 base) (umem h)).
  assert (Ho : only16 q.1 (umem h) m') by apply only16_set_ptr. split_and!; [|done|intros x Hx; apply Ho; lia].
  assert (Hs : forall x, x ∈ L1 ++ t :: L2 \/ x ∈ live -> same16 (umem h) m' x.1) by (intros x Hx; apply (only16_same _ _ q.1); [done|by apply tk_far_q]).
  split; cbn [umem freep brk]; try apply H.
  - change ((base, 0) :: L ++ L2) with (((base, 0) :: L) ++ L2). rewrite EL, <- app_assoc. cbn [app]. apply linked_app. split.
    + cbn [hd_addr]. apply (linked_frame (umem h)); [|done]. intros x Hx. apply Hs. set_solver.
    + rewrite (surjective_pairing q). apply link_run; [done|done|intros x Hx; apply tk_far_q; set_solver|done].
  - exists q.2. rewrite <- surjective_pairing. pose proof tk_q. set_solver.
  - pose proof (hi_asc _ _ _ _ _ _ H) as Ha. change ((base, 0) :: L ++ L2) with (((base, 0) :: L) ++ L2).
    change ((base, 0) :: L ++ t :: L2) with (((base, 0) :: L) ++ t :: L2) in Ha. apply asc_app in Ha as (H12 & Ha1 & Ha2). apply asc_cons in Ha2 as [_ Ha2].
    apply asc_app. split_and!; auto. intros x y Hx Hy. apply H12; set_solver.
  - intros x Hx. apply elem_of_cons in Hx as [->|Hx]; cbn [fst snd].
    + rewrite (same16_size (umem h)) by (apply Hs; set_solver). by rewrite En.
    + rewrite (same16_size (umem h)) by (apply Hs; by right). by apply (hi_live _ _ _ _ _ _ H).
  - destruct (hi_blocks _ _ _ _ _ _ H) as (u & Hb & Hu). exists u. split; [|done]. revert Hb. rewrite En, <- surjective_pairing.
    apply blocks_perm. solve_Permutation.
Qed.

(** The end of the block is taken. *)
Lemma take_end k : n < t.2 -> let a := t.1 + 16 * (t.2 - n) in
  exists h', malloc_loop grow (S k) n q.1 t.1 h = Ok (a + 16, h') /\
  hinv h' (L ++ (t.1, t.2 - n) :: L2) ((a, n) :: live) o /\ brk h' = brk h /\ only t.1 (t.1 + 16 * t.2) (umem h) (umem h').
Proof.
  intros En a. pose proof (hi_linked _ _ _ _ _ _ H) as Hl. rewrite tk_nodes in Hl. apply linked_app in Hl as [Hl1 (Hq1 & Hq2 & Ht1 & Ht2 & Hl2)].
  cbn [hd_addr] in *. pose proof (tk_range t ltac:(set_solver)) as Htr. pose proof (hi_brk _ _ _ _ _ _ H) as Hlim. unfold LIM in Hlim.
  cbn [malloc_loop]. rewrite Ht1, (proj2 (Z.leb_le _ _)), (proj2 (Z.eqb_neq _ _)) by lia. rewrite size_set_size by lia. unfold HDR. fold a.
  eexists. split; [reflexivity|]. set (m1 := set_size t.1 (t.2 - n) (umem h)). set (m' := set_size a n m1).
  assert (Ho : only t.1 (t.1 + 16 * t.2) (umem h) m') by (intros x Hx; unfold m', m1, a; rewrite !ld8_set_size by lia; done).
  split_and!; [|done|done]. assert (Hap := tk_apart).
  assert (Hs : forall x, x ∈ ((base, 0) :: L ++ L2) ++ live -> same16 (umem h) m' x.1) by (intros x Hx y Hy; apply Ho; specialize (Hap x Hx); lia).
  assert (Es : forall x, x ∈ L1 ++ q :: L2 -> x ∈ ((base, 0) :: L ++ L2) ++ live).
  { intros x Hx. change ((base, 0) :: L ++ L2) with (((base, 0) :: L) ++ L2). rewrite EL. set_solver. }
  split; cbn [umem freep brk]; try apply H.
  - change ((base, 0) :: L ++ (t.1, t.2 - n) :: L2) with (((base, 0) :: L) ++ (t.1, t.2 - n) :: L2). rewrite EL, <- app_assoc. cbn [app]. apply linked_app. split.
    + cbn [hd_addr]. apply (linked_frame (umem h)); [|done]. intros x Hx. apply Hs, Es. set_solver.
    + cbn [linked fst snd hd_addr]. rewrite (same16_size (umem h) m' q.1), (same16_ptr (umem h) m' q.1) by (apply Hs, Es; set_solver).
      assert (St : same16 m1 m' t.1) by (intros x Hx; apply ld8_set_size; unfold a; lia).
      rewrite (same16_size m1 m' t.1), (same16_ptr m1 m' t.1) by done. unfold m1. rewrite size_set_size, ptr_set_size by lia. split_and!; auto.
      apply (linked_frame (umem h)); [|done]. intros x Hx. apply Hs, Es. set_solver.
  - exists q.2. rewrite <- surjective_pairing. pose proof tk_q. set_solver.
  - pose proof (hi_asc _ _ _ _ _ _ H) as Ha. change ((base, 0) :: L ++ (t.1, t.2 - n) :: L2) with (((base, 0) :: L) ++ (t.1, t.2 - n) :: L2).
    change ((base, 0) :: L ++ t :: L2) with (((base, 0) :: L) ++ t :: L2) in Ha. apply asc_app in Ha as (H12 & Ha1 & Ha2). apply asc_cons in Ha2 as [Ha2 Ha3].
    apply asc_app. split_and!; auto; [|apply asc_cons; split; auto]. intros x y Hx Hy. apply elem_of_cons in Hy as [->|Hy]; [apply (H12 x t); set_solver|apply H12; set_solver].
  - intros x Hx. apply elem_of_cons in Hx as [->|Hx]; cbn [fst snd]; [unfold m'; apply size_set_size; lia|].
    rewrite (same16_size (umem h)) by (apply Hs; set_solver). by apply (hi_live _ _ _ _ _ _ H).
  - destruct (hi_blocks _ _ _ _ _ _ H) as (u & Hb & Hu). exists u. split; [|done].
    apply (blocks_perm _ _ _ ((t.1, t.2 - n) :: (a, n) :: L ++ L2 ++ live)); [solve_Permutation|]. unfold a. apply blocks_split; [lia|lia|].
    replace (t.2 - n + n) with t.2 by lia. rewrite <- surjective_pairing. revert Hb. apply blocks_perm. solve_Permutation.
Qed.

End Take.
(** ** The search *)

Lemma circle_linked m l1 f l2 : linked m (l1 ++ f :: l2) base -> hd_addr (l1 ++ f :: l2) base = base ->
  linked m ((l2 ++ l1) ++ [f]) (hd_addr l2 base) /\ forall z, ptr_of m f.1 = hd_addr ((l2 ++ l1) ++ [f]) z.
Proof.
  intros Hl Hb. apply linked_app in Hl as [Hl1 (Hf1 & Hf2 & Hl2)]. rewrite hd_addr_app in Hb. cbn [hd_addr] in *. split.
  - rewrite <- app_assoc. apply linked_app. split; [|apply linked_app; split; [done|by cbn]]. rewrite hd_addr_app. cbn [hd_addr]. by rewrite Hb.
  - intros z. rewrite !hd_addr_app. cbn [hd_addr]. by rewrite Hb.
Qed.

(** The block before one found on the way around. *)
Lemma circle_prev fl l1 f l2 mid t rest : (base, 0) :: fl = l1 ++ f :: l2 -> (l2 ++ l1) ++ [f] = mid ++ t :: rest -> t.1 <> base ->
  exists L1 q L2, (base, 0) :: fl = L1 ++ q :: t :: L2 /\ q.1 = last_addr f.1 mid.
Proof.
  intros E C Ht. rewrite E. rewrite <- app_assoc in C.
  apply app_eq_inv in C as [(k & El & Ek)|(k & El & Ek)].
  - destruct k as [|t' k]; cbn in Ek.
    + rewrite app_nil_r in El. subst mid. destruct l1 as [|x l1]; cbn in Ek.
      * injection Ek as <- _. injection E as <- _. done.
      * injection Ek as <- _. injection E as <- _. done.
    + injection Ek as <- Ek. subst l2. destruct (mid) as [|y m] using rev_ind.
      * exists l1, f, k. done.
      * exists (l1 ++ f :: m), y, k. rewrite last_addr_snoc, <- !app_assoc. done.
  - subst mid. apply app_eq_inv in Ek as [(k' & El & Ek)|(k' & El & Ek)].
    + destruct k' as [|t' k']; cbn in Ek.
      * injection Ek as -> _. rewrite app_nil_r in El. subst k. destruct l1 as [|y m] using rev_ind; [by injection E as <- _|].
        exists m, y, l2. rewrite app_assoc, last_addr_snoc, <- app_assoc. done.
      * injection Ek as <- Ek. subst l1. destruct k as [|y m] using rev_ind; [by injection E as <- _|].
        exists m, y, (k' ++ f :: l2). rewrite app_assoc, last_addr_snoc, <- !app_assoc. done.
    + destruct k' as [|t' k']; cbn in Ek; [|by destruct k'].
      injection Ek as -> _. rewrite app_nil_r in El. subst k. destruct l1 as [|y m] using rev_ind; [by injection E as <- _|].
      exists m, y, l2. rewrite app_assoc, last_addr_snoc, <- app_assoc. done.
Qed.

(** The bytes of the used blocks are as before. *)
Definition keeps (live : list ublock) (h h' : heap) : Prop :=
  forall y x, y ∈ live -> y.1 <= x < y.1 + 16 * y.2 -> ld8 (umem h') x = ld8 (umem h) x.

Lemma live_apart h fl live o q y : hinv h fl live o -> q ∈ (base, 0) :: fl -> y ∈ live ->
  q.1 + 16 <= y.1 /\ q.1 + 16 * q.2 <= y.1 \/ y.1 + 16 * y.2 <= q.1.
Proof.
  intros H Hq Hy. pose proof (hinv_range base heap0 _ _ _ _ y H ltac:(set_solver)) as Hyr. apply elem_of_cons in Hq as [->|Hq]; [cbn; lia|].
  pose proof (hinv_range base heap0 _ _ _ _ q H ltac:(set_solver)). destruct (hi_blocks _ _ _ _ _ _ H) as (t & [Hd _ _] & _).
  pose proof (pdisj_across _ _ q y Hd Hq Hy) as Hd'. unfold disj in Hd'. lia.
Qed.

Definition granted (n : Z) (h : heap) (live : list ublock) (o : Z) (r : outcome (Z * heap)) : Prop :=
  exists a h' fl', r = Ok (a + 16, h') /\ hinv h' fl' ((a, n) :: live) o /\ brk h <= brk h' /\ keeps live h h'.

Lemma take_ok h fl live o n L1 q t L2 k : hinv h fl live o -> (base, 0) :: fl = L1 ++ q :: t :: L2 -> 1 <= n <= t.2 ->
  granted n h live o (malloc_loop grow (S k) n q.1 t.1 h).
Proof.
  intros H E Hn. assert (Hin : q ∈ (base, 0) :: fl /\ t ∈ (base, 0) :: fl) by (rewrite E; set_solver). destruct Hin as [Hq Ht].
  pose proof (fun y => live_apart h fl live o q y H Hq) as Aq. pose proof (fun y => live_apart h fl live o t y H Ht) as At.
  destruct (nodes_tail fl L1 q t L2 E) as (L & EL & ->). destruct (decide (n = t.2)) as [En|En].
  - destruct (take_whole h L L2 live o L1 q t n H EL Hn k En) as (h' & Er & Hh & Hb & Ho). exists t.1, h', (L ++ L2). split_and!; auto; [lia|].
    intros y x Hy Hx. apply Ho. specialize (Aq y Hy). lia.
  - destruct (take_end h L L2 live o L1 q t n H EL Hn k ltac:(lia)) as (h' & Er & Hh & Hb & Ho). eexists _, h', _. split_and!; [exact Er|exact Hh|lia|].
    intros y x Hy Hx. apply Ho. specialize (At y Hy). lia.
Qed.

Lemma freep_split h fl live o : hinv h fl live o -> exists l1 n l2, (base, 0) :: fl = l1 ++ (freep h, n) :: l2.
Proof. intros H. destruct (hi_freep _ _ _ _ _ _ H) as [n Hn]. apply list_elem_of_split in Hn as (l1 & l2 & E). eauto. Qed.

(** Only the entry where the search began is [freep]. *)
Lemma freep_once h fl live o l1 n l2 x : hinv h fl live o -> (base, 0) :: fl = l1 ++ (freep h, n) :: l2 -> x ∈ l2 ++ l1 -> x.1 <> freep h.
Proof.
  intros H E Hx. pose proof (hi_asc _ _ _ _ _ _ H) as Ha. rewrite E in Ha. apply asc_app in Ha as (H12 & _ & Ha). apply asc_cons in Ha as [Ha _].
  apply elem_of_app in Hx as [Hx|Hx]; [specialize (Ha x Hx); cbn in Ha; lia|specialize (H12 x (freep h, n) Hx ltac:(by left)); cbn in H12; lia].
Qed.

Lemma malloc_fit h fl live o n k : hinv h fl live o -> (exists y, y ∈ fl /\ n <= y.2) -> 1 <= n -> (length fl < k)%nat ->
  granted n h live o (malloc_loop grow k n (freep h) (ptr_of (umem h) (freep h)) h).
Proof.
  intros H (y & Hy & Hny) Hn Hk. destruct (freep_split _ _ _ _ H) as (l1 & nf & l2 & E).
  destruct (circle_linked (umem h) l1 (freep h, nf) l2) as [Hc Hp]; [rewrite <- E; apply H|by rewrite <- E|]. cbn [fst] in Hp.
  assert (Hlen : length ((base, 0) :: fl) = length (l1 ++ (freep h, nf) :: l2)) by by rewrite E. rewrite length_app in Hlen. cbn in Hlen.
  destruct (first_fit n ((l2 ++ l1) ++ [(freep h, nf)])) as [(mid & t & rest & Ec & Hm & Ht)|Hno].
  2: { assert (Hy' : y ∈ (l2 ++ l1) ++ [(freep h, nf)]) by (assert (Hy0 : y ∈ (base, 0) :: fl) by set_solver; rewrite E in Hy0; set_solver).
       specialize (Hno y Hy'). lia. }
  assert (Htn : t ∈ (base, 0) :: fl) by (rewrite E; assert (Hct : t ∈ mid ++ t :: rest) by set_solver; rewrite <- Ec in Hct; set_solver).
  assert (Htb : t.1 <> base).
  { apply elem_of_cons in Htn as [->|Htn]; [cbn in Ht; lia|]. pose proof (hinv_range base heap0 _ _ _ _ t H ltac:(set_solver)). lia. }
  destruct (circle_prev fl l1 (freep h, nf) l2 mid t rest E Ec Htb) as (L1 & q & L2 & En & Eq). cbn [fst] in Eq.
  assert (Hml : (length mid < k)%nat).
  { assert (Hl : length ((l2 ++ l1) ++ [(freep h, nf)]) = length (mid ++ t :: rest)) by by rewrite Ec. rewrite !length_app in Hl. cbn in Hl. lia. }
  rewrite Ec in Hc. rewrite (Hp (hd_addr l2 base)), Ec. destruct (linked_app (umem h) (mid ++ [t]) rest (hd_addr l2 base)) as [Hla _].
  rewrite <- app_assoc in Hla. destruct (Hla Hc) as [Hl' _]. replace (hd_addr (mid ++ t :: rest) (hd_addr l2 base)) with (hd_addr (mid ++ [t]) (hd_addr rest (hd_addr l2 base)))
    by (by destruct mid). replace k with (length mid + S (k - length mid - 1))%nat by lia. rewrite malloc_walk; [|done|].
  - rewrite <- Eq. by apply (take_ok h fl live o n L1 q t L2).
  - intros x Hx. split; [by apply Hm|]. apply (freep_once h fl live o l1 nf l2 x H E).
    destruct rest as [|r rest] using rev_ind; [apply app_inj_tail in Ec as [-> _]; done|].
    rewrite app_comm_cons, app_assoc in Ec. apply app_inj_tail in Ec as [-> _]. set_solver.
Qed.

(** All blocks are too small: the search ends at [freep]. *)
Lemma malloc_nofit h fl live o n k : hinv h fl live o -> (forall y, y ∈ fl -> y.2 < n) -> 1 <= n ->
  malloc_loop grow (length fl + S k) n (freep h) (ptr_of (umem h) (freep h)) h =
  ('(p, h) ← morecore grow n h; if p =? 0 then Ok (0, h) else malloc_loop grow k n p (ptr_of (umem h) p) h).
Proof.
  intros H Hno Hn. destruct (freep_split _ _ _ _ H) as (l1 & nf & l2 & E).
  destruct (circle_linked (umem h) l1 (freep h, nf) l2) as [Hc Hp]; [rewrite <- E; apply H|by rewrite <- E|]. cbn [fst] in Hp.
  assert (Hlen : length ((base, 0) :: fl) = length (l1 ++ (freep h, nf) :: l2)) by by rewrite E. rewrite length_app in Hlen. cbn in Hlen.
  assert (Hsm : forall x, x ∈ (base, 0) :: fl -> x.2 < n) by (intros x Hx; apply elem_of_cons in Hx as [->|Hx]; [cbn; lia|by apply Hno]).
  rewrite (Hp (hd_addr l2 base)). replace (length fl + S k)%nat with (length (l2 ++ l1) + S k)%nat by (rewrite length_app; lia).
  rewrite malloc_walk; [|done|].
  - cbn [malloc_loop fst]. pose proof (hi_linked _ _ _ _ _ _ H) as Hl. rewrite E in Hl. apply linked_app in Hl as [_ (Hs & _)]. cbn [fst snd] in Hs.
    rewrite Hs. pose proof (Hsm (freep h, nf) ltac:(rewrite E; set_solver)) as Hf. cbn in Hf. by rewrite (proj2 (Z.leb_gt _ _)), Z.eqb_refl by lia.
  - intros x Hx. split; [apply Hsm; rewrite E; set_solver|]. by apply (freep_once h fl live o l1 nf l2 x H E).
Qed.

(** ** Growing *)

Hypothesis Hgrow : forall b n, grow b n = true -> b + n < LIM.

Lemma morecore_ok h fl live o n : hinv h fl live o -> 1 <= n < 134217728 ->
  let nu := if n <? 4096 then 4096 else n in
  (grow (brk h) (16 * nu) = false /\ morecore grow n h = Ok (0, h)) \/
  exists h' fl', morecore grow n h = Ok (freep h', h') /\ freep h' <> 0 /\ hinv h' fl' live o /\ brk h' = brk h + 16 * nu /\
    (length fl' <= S (length fl))%nat /\ (exists y, y ∈ fl' /\ n <= y.2) /\ keeps live h h'.
Proof.
  intros H Hn nu. assert (Hnu : n <= nu < 134217728 /\ 4096 <= nu) by (unfold nu; destruct (n <? 4096) eqn:E; bool_to_prop; lia).
  pose proof (hi_brk _ _ _ _ _ _ H) as Hlim. unfold LIM in Hlim. destruct (hi_blocks _ _ _ _ _ _ H) as (t & Hb & Ht). pose proof (hi_other _ _ _ _ _ _ H) as Ho.
  assert (Hbrk : heap0 <= brk h). { pose proof (units_length _ (blocks_big _ _ _ _ Hb)) as Hu. rewrite (bk_total _ _ _ _ Hb) in Hu. lia. }
  unfold morecore. fold nu. unfold sbrk, HDR. rewrite s32_id, (proj2 (Z.ltb_lt 0 _)) by lia. rewrite (Z.mul_comm nu 16).
  destruct (grow (brk h) (16 * nu)) eqn:Eg; [right|by left]. rewrite (proj2 (Z.eqb_neq (brk h) _)) by lia. cbn [umem freep brk].
  pose proof (Hgrow _ _ Eg) as Hlim'. unfold LIM in Hlim'. set (m1 := set_size (brk h) nu (umem h)). set (h1 := Heap m1 (freep h) (brk h + 16 * nu)).
  assert (Hs : forall x, x < brk h -> ld8 m1 x = ld8 (umem h) x) by (intros x Hx; apply ld8_set_size; lia).
  assert (H1 : hinv h1 fl ((brk h, nu) :: live) o).
  { split; cbn [h1 umem freep brk]; try apply H.
    - apply (linked_frame (umem h)); [|apply H]. intros x Hx y Hy. apply Hs.
      apply elem_of_cons in Hx as [->|Hx]; [cbn in Hy; lia|]. pose proof (hinv_range base heap0 _ _ _ _ x H ltac:(set_solver)). lia.
    - intros x Hx. apply elem_of_cons in Hx as [->|Hx]; [apply size_set_size; cbn; lia|].
      rewrite (same16_size (umem h)); [by apply (hi_live _ _ _ _ _ _ H)|]. intros y Hy. apply Hs. pose proof (hinv_range base heap0 _ _ _ _ x H ltac:(set_solver)). lia.
    - exists (t + nu). split; [|lia]. apply (blocks_perm _ _ _ ((brk h, nu) :: fl ++ live)); [solve_Permutation|]. destruct Hb as [Hd Hr Hu].
      split; [|intros x Hx; apply elem_of_cons in Hx as [->|Hx]; [cbn; lia|specialize (Hr x Hx); lia]|cbn; unfold units in Hu; lia].
      split; [|done]. rewrite Forall_forall. intros x Hx. specialize (Hr x Hx). unfold disj. cbn. lia.
    - unfold LIM. lia. }
  destruct (free_ok base heap0 Hbase Hheap0 h1 fl live o (brk h) nu H1) as (h' & fl' & E & Hh & Hbk & (y & Hy & Hny) & Hlen & Hfr).
  rewrite E. cbn [mbind outcome_bind]. exists h', fl'. split; [done|]. split_and!; auto.
  - destruct (hi_freep _ _ _ _ _ _ Hh) as [k Hk]. apply elem_of_cons in Hk as [[= -> _]|Hk]; [lia|].
    pose proof (hinv_range base heap0 _ _ _ _ _ Hh ltac:(apply elem_of_app; left; exact Hk)) as Hr. cbn in Hr. lia.
  - exists y. split; [done|lia].
  - intros z x Hz Hx. pose proof (hinv_range base heap0 _ _ _ _ z H ltac:(set_solver)). rewrite Hfr; [apply Hs; lia| |lia].
    intros w Hw. pose proof (live_apart h fl live o w z H Hw Hz). lia.
Qed.

(** ** [malloc] *)

Lemma malloc_ok h fl live o nbytes : hinv h fl live o -> freep h <> 0 -> 0 <= nbytes < 2147483616 ->
  let n := units_for nbytes in
  (grow (brk h) (16 * Z.max 4096 n) = false /\ malloc base grow nbytes h = Ok (0, h)) \/ granted n h live o (malloc base grow nbytes h).
Proof.
  intros H Hf Hn n. assert (Hn' : 1 <= n < 134217728) by (unfold n, units_for, HDR; rewrite u32_id by zlia; zlia).
  unfold malloc. fold n. rewrite (proj2 (Z.eqb_neq _ _)) by done. pose proof (hinv_fuel base heap0 Hbase Hheap0 _ _ _ _ H) as Hfu.
  destruct (first_fit n fl) as [(mid & t & rest & E & _ & Ht)|Hno].
  { right. apply (malloc_fit h fl); auto; [exists t; split; [rewrite E; set_solver|done]|lia|lia]. }
  replace (2 * fuel h)%nat with (length fl + S (2 * fuel h - length fl - 1))%nat by lia. rewrite (malloc_nofit h fl live o n _ H Hno) by lia.
  destruct (morecore_ok h fl live o n H Hn') as [[Eg E]|(h' & fl' & E & Hfp & Hh & Hb & Hlen & Hy & Hk)]; rewrite E; cbn [mbind outcome_bind].
  - left. split; [|done]. rewrite <- Eg. f_equal. f_equal. destruct (n <? 4096) eqn:?; bool_to_prop; lia.
  - right. rewrite (proj2 (Z.eqb_neq _ _)) by done.
    destruct (malloc_fit h' fl' live o n (2 * fuel h - length fl - 1) Hh Hy ltac:(lia) ltac:(lia)) as (a & h2 & fl2 & E2 & H2 & Hb2 & Hk2).
    exists a, h2, fl2. split_and!; auto; [destruct (n <? 4096); lia|]. intros y x Hy' Hx. rewrite (Hk2 y x Hy' Hx). by apply (Hk y x).
Qed.

(** ** Programs *)

(** A program that calls [malloc], frees what it has, writes to the blocks it
    has and may call [sbrk] itself; with the list of its blocks and the bytes
    that it obtained by itself. *)
Inductive ustep : heap * list ublock * Z -> heap * list ublock * Z -> Prop :=
  | u_malloc h live o nbytes p h' : 0 <= nbytes < 2147483616 -> malloc base grow nbytes h = Ok (p, h') ->
      ustep (h, live, o) (h', if p =? 0 then live else (p - 16, units_for nbytes) :: live, o)
  | u_free h live live' o b n h' : live ≡ₚ (b, n) :: live' -> free (b + 16) h = Ok h' -> ustep (h, live, o) (h', live', o)
  | u_write h live o y x v : y ∈ live -> y.1 + 16 <= x < y.1 + 16 * y.2 ->
      ustep (h, live, o) (Heap (st8 (umem h) x v) (freep h) (brk h), live, o)
  | u_sbrk h live o n : 0 < n -> grow (brk h) n = true -> ustep (h, live, o) (Heap (umem h) (freep h) (brk h + n), live, o + n).

Lemma u_malloc_some h live o nbytes p h' : 0 <= nbytes < 2147483616 -> malloc base grow nbytes h = Ok (p, h') -> p <> 0 ->
  ustep (h, live, o) (h', (p - 16, units_for nbytes) :: live, o).
Proof. intros Hn E Hp. pose proof (u_malloc h live o nbytes p h' Hn E) as H. by rewrite (proj2 (Z.eqb_neq _ _)) in H by done. Qed.

(** Before the first call [freep] is null. *)
Definition fresh (h : heap) (live : list ublock) (o : Z) : Prop :=
  freep h = 0 /\ live = [] /\ brk h = heap0 + o /\ 0 <= o /\ brk h < LIM.

Definition uinv (s : heap * list ublock * Z) : Prop :=
  let '(h, live, o) := s in fresh h live o \/ exists fl, hinv h fl live o.

Lemma hinv_freep h fl live o : hinv h fl live o -> freep h <> 0.
Proof.
  intros H. destruct (hi_freep _ _ _ _ _ _ H) as [k Hk]. apply elem_of_cons in Hk as [[= -> _]|Hk]; [lia|].
  pose proof (hinv_range base heap0 _ _ _ _ _ H ltac:(apply elem_of_app; left; exact Hk)) as Hr. cbn in Hr. lia.
Qed.

Lemma hinv_perm h fl live live' o : live ≡ₚ live' -> hinv h fl live o -> hinv h fl live' o.
Proof.
  intros Hp H. split; try apply H.
  - intros x Hx. apply (hi_live _ _ _ _ _ _ H). by rewrite Hp.
  - destruct (hi_blocks _ _ _ _ _ _ H) as (t & Hb & Ht). exists t. split; [|done]. revert Hb. apply blocks_perm. by rewrite Hp.
Qed.

(** The first call makes the list that consists of [base]. *)
Lemma malloc_first h live o nbytes : fresh h live o ->
  exists h1, malloc base grow nbytes h = malloc base grow nbytes h1 /\ hinv h1 [] live o /\ brk h1 = brk h /\ keeps live h h1.
Proof.
  intros (Hf & -> & Hb & Ho & Hl). exists (Heap (set_size base 0 (set_ptr base base (umem h))) base (brk h)). unfold LIM in Hl.
  split; [unfold malloc; rewrite Hf; cbn [freep Z.eqb]; by rewrite (proj2 (Z.eqb_neq base 0)) by lia|]. split_and!; [|done|intros y x Hy; by apply elem_of_nil in Hy].
  split; cbn [umem freep brk]; auto.
  - cbn [linked fst snd hd_addr]. rewrite size_set_size, ptr_set_size, ptr_set_ptr by lia. done.
  - exists 0. by left.
  - apply asc_cons. split; [intros y Hy; by apply elem_of_nil in Hy|constructor].
  - intros x Hx. by apply elem_of_nil in Hx.
  - exists 0. split; [|lia]. split; [done|intros x Hx; by apply elem_of_nil in Hx|done].
Qed.

(** Every call of [malloc] in a state of [uinv]. *)
Lemma malloc_run h live o nbytes : uinv (h, live, o) -> 0 <= nbytes < 2147483616 ->
  exists p h', malloc base grow nbytes h = Ok (p, h') /\ keeps live h h' /\ brk h <= brk h' /\
    ((p = 0 /\ grow (brk h) (16 * Z.max 4096 (units_for nbytes)) = false /\ exists fl, hinv h' fl live o) \/
     (16 < p /\ exists fl, hinv h' fl ((p - 16, units_for nbytes) :: live) o)).
Proof.
  intros Hi Hn. assert (Hi' : exists h1 fl, malloc base grow nbytes h = malloc base grow nbytes h1 /\ hinv h1 fl live o /\ brk h1 = brk h /\ keeps live h h1).
  { destruct Hi as [Hf|[fl H]]; [destruct (malloc_first h live o nbytes Hf) as (h1 & ?); by exists h1, []|exists h, fl; split_and!; auto; done]. }
  destruct Hi' as (h1 & fl & -> & H & Hb & Hk). destruct (malloc_ok h1 fl live o nbytes H (hinv_freep _ _ _ _ H) Hn) as [[Eg ->]|(a & h' & fl' & -> & H' & Hb' & Hk')].
  - exists 0, h1. rewrite Hb in Eg. split_and!; auto; [lia|]. left. eauto.
  - exists (a + 16), h'. split_and!; auto; [intros y x Hy Hx; rewrite (Hk' y x Hy Hx); by apply (Hk y x)|lia|].
    right. replace (a + 16 - 16) with a by lia. pose proof (hinv_range base heap0 _ _ _ _ (a, units_for nbytes) H' ltac:(set_solver)) as Hr. cbn in Hr. split; [lia|eauto].
Qed.

Lemma ustep_inv s s' : uinv s -> ustep s s' -> uinv s'.
Proof.
  intros Hi Hs. destruct Hs as [h live o nbytes p h' Hn E|h live live' o b n h' Hp E|h live o y x v Hy Hx|h live o n Hn Eg].
  - destruct (malloc_run h live o nbytes Hi Hn) as (p0 & h0 & E0 & _ & _ & Hc). rewrite E in E0. injection E0 as <- <-.
    destruct Hc as [(-> & _ & H)|(Hp & H)]; [by right|]. rewrite (proj2 (Z.eqb_neq _ _)) by lia. by right.
  - destruct Hi as [(_ & -> & _)|[fl H]]; [by apply Permutation_nil_cons in Hp|].
    destruct (free_ok base heap0 Hbase Hheap0 h fl live' o b n (hinv_perm _ _ _ _ _ Hp H)) as (h1 & fl' & E1 & H1 & _).
    rewrite E in E1. injection E1 as <-. right. eauto.
  - destruct Hi as [(_ & -> & _)|[fl H]]; [by apply elem_of_nil in Hy|]. right. exists fl.
    assert (Hs : forall z, z ∈ ((base, 0) :: fl) ++ live -> same16 (umem h) (st8 (umem h) x v) z.1).
    { intros z Hz w Hw. apply ld8_st8_ne. intros <-. pose proof (hinv_range base heap0 _ _ _ _ y H ltac:(set_solver)) as Hyr.
      cbn [app] in Hz. apply elem_of_cons in Hz as [->|Hz]; [cbn in Hw; lia|].
      destruct (decide (z.1 = y.1)) as [Ez|Ez]; [lia|]. destruct (hi_blocks _ _ _ _ _ _ H) as (t & [Hd Hr _] & _).
      pose proof (pdisj_elem _ z y Hd Hz ltac:(set_solver) Ez) as Hzy. specialize (Hr z Hz). unfold disj in Hzy. lia. }
    split; cbn [umem freep brk]; try apply H.
    + apply (linked_frame (umem h)); [|apply H]. intros z Hz. apply Hs. set_solver.
    + intros z Hz. rewrite (same16_size (umem h)) by (apply Hs; set_solver). by apply (hi_live _ _ _ _ _ _ H).
  - pose proof (Hgrow _ _ Eg) as Hlim. destruct Hi as [(Hf & -> & Hb & Ho & _)|[fl H]]; [left; split_and!; cbn [freep brk]; auto; lia|].
    right. exists fl. pose proof (hi_other _ _ _ _ _ _ H). split; cbn [umem freep brk]; try apply H; try lia.
    destruct (hi_blocks _ _ _ _ _ _ H) as (t & [Hd Hr Hu] & Ht). exists t. split; [|lia]. split; auto. intros z Hz. specialize (Hr z Hz). lia.
Qed.

(** C36: the user allocator.  In every state that a program reaches with
    [malloc], [free], writes to its blocks and its own calls of [sbrk]:
    [malloc] returns, either a pointer to as many bytes as were asked for,
    which lie in the memory of the process and apart from every block in use,
    or null, and then the kernel refused to extend the memory; [free] of a
    block in use returns; neither changes a byte of the blocks in use; and
    the blocks in the list, the blocks in use and the memory obtained by
    others make up all of the heap.  The hypothesis [Hgrow] bounds the memory
    of a process. *)
Theorem umalloc_allocates h0 h live o : freep h0 = 0 -> brk h0 = heap0 -> heap0 < LIM -> rtc ustep (h0, [], 0) (h, live, o) ->
  (forall nbytes, 0 <= nbytes < 2147483616 -> exists p h', malloc base grow nbytes h = Ok (p, h') /\ keeps live h h' /\
     ((p = 0 /\ grow (brk h) (16 * Z.max 4096 (units_for nbytes)) = false) \/
      (heap0 <= p - 16 /\ p + nbytes <= brk h' /\ forall y, y ∈ live -> p + nbytes <= y.1 \/ y.1 + 16 * y.2 <= p - 16))) /\
  (forall b n live', live ≡ₚ (b, n) :: live' -> exists h', free (b + 16) h = Ok h' /\ keeps live' h h') /\
  (freep h <> 0 -> exists fl, linked (umem h) ((base, 0) :: fl) base /\ pdisj (fl ++ live) /\ 16 * (units fl + units live) + o = brk h - heap0).
Proof.
  intros Hf Hb Hlim Hr. assert (Hi : uinv (h, live, o)).
  { assert (H0 : uinv (h0, [], 0)) by (left; unfold fresh; split_and!; auto; lia). revert H0.
    induction Hr as [s|s s1 s2 Hs Hr IH]; intros H0; [done|]. apply IH. by eapply ustep_inv. }
  split_and!.
  - intros nbytes Hn. destruct (malloc_run h live o nbytes Hi Hn) as (p & h' & E & Hk & _ & Hc). exists p, h'. split_and!; auto.
    destruct Hc as [(-> & Hg & _)|(Hp & fl & H)]; [by left|right].
    pose proof (hinv_range base heap0 _ _ _ _ (p - 16, units_for nbytes) H ltac:(set_solver)) as Hr'. cbn in Hr'.
    assert (Hu : nbytes <= 16 * (units_for nbytes - 1)) by (unfold units_for, HDR; rewrite u32_id by zlia; zlia).
    split_and!; [lia|lia|]. intros y Hy. destruct (hi_blocks _ _ _ _ _ _ H) as (t & [Hd _ _] & _).
    rewrite (pdisj_perm _ ((p - 16, units_for nbytes) :: fl ++ live)) in Hd by solve_Permutation. destruct Hd as [Hd _]. rewrite Forall_forall in Hd.
    specialize (Hd y ltac:(set_solver)). unfold disj in Hd. cbn in Hd. lia.
  - intros b n live' Hp. destruct Hi as [(_ & -> & _)|[fl H]]; [by apply Permutation_nil_cons in Hp|].
    pose proof (hinv_perm _ _ _ _ _ Hp H) as H'. destruct (free_ok base heap0 Hbase Hheap0 h fl live' o b n H') as (h1 & fl' & E & _ & _ & _ & _ & Hfr).
    exists h1. split; [done|]. intros y x Hy Hx. destruct (hi_blocks _ _ _ _ _ _ H') as (t & [Hd Hrr _] & _). apply Hfr.
    + intros w Hw. pose proof (live_apart h fl _ o w y H' Hw ltac:(by right)). lia.
    + rewrite (pdisj_perm _ ((b, n) :: fl ++ live')) in Hd by solve_Permutation. destruct Hd as [Hd _]. rewrite Forall_forall in Hd.
      specialize (Hd y ltac:(set_solver)). pose proof (Hrr (b, n) ltac:(set_solver)) as Hbn. unfold disj in Hd. cbn in *. lia.
  - intros Hf'. destruct Hi as [(? & _)|[fl H]]; [done|]. exists fl. destruct (hi_blocks _ _ _ _ _ _ H) as (t & [Hd _ Hu] & Ht).
    split; [apply H|]. split; [done|]. rewrite units_app in Hu. lia.
Qed.

End Props.

(** ** A witness: a program that has allocated two blocks *)

Definition small_grow (b n : Z) : bool := b + n <? 134217728.
Definition start_heap : heap := Heap ∅ 0 8192.
Definition run2 : Z * heap * (Z * heap) :=
  match malloc 4096 small_grow 100 start_heap with
  | Ok (p, h) => match malloc 4096 small_grow 5000 h with Ok (q, h') => (p, h, (q, h')) | _ => (0, h, (0, h)) end
  | _ => (0, start_heap, (0, start_heap))
  end.

Lemma umalloc_allocates_witness : exists h' : heap, free (run2.1.1) run2.2.2 = Ok h'.
Proof.
  destruct (umalloc_allocates 4096 8192 small_grow ltac:(lia) ltac:(lia)
    ltac:(unfold small_grow, LIM; intros b n H; apply Z.ltb_lt in H; lia)
    start_heap run2.2.2 [(run2.2.1 - 16, units_for 5000); (run2.1.1 - 16, units_for 100)] 0) as (_ & Hf & _); [reflexivity|reflexivity|reflexivity| |].
  - apply (rtc_l _ _ (run2.1.2, [(run2.1.1 - 16, units_for 100)], 0)); [|apply rtc_once].
    + apply (u_malloc_some 4096 small_grow start_heap [] 0 100 run2.1.1 run2.1.2); [lia|by vm_compute|by vm_compute].
    + apply (u_malloc_some 4096 small_grow run2.1.2 _ 0 5000 run2.2.1 run2.2.2); [lia|by vm_compute|by vm_compute].
  - destruct (Hf (run2.1.1 - 16) (units_for 100) [(run2.2.1 - 16, units_for 5000)]) as (h' & E & _); [apply Permutation_swap|].
    exists h'. rewrite Z.sub_add in E. exact E.
Defined.

(** A request whose size in bytes is beyond an [int] is truncated on its way
    to [sbrk]: here [malloc] returns a pointer to 4294967295 bytes after the
    heap has grown by 16, so that the pointer is to its end. *)
Theorem umalloc_truncates : exists h', malloc 4096 small_grow 4294967295 start_heap = Ok (8208, h') /\ brk h' = 8208.
Proof. eexists. split; [vm_compute; reflexivity|reflexivity]. Qed.
