(* ===== verification/Sh.v ===== *)
(** * user/sh.c: the shell

    A pointer into the line being parsed is the rest of the line from there:
    the end [es] is the empty list, and reading there gives the NUL that ends
    the line.  A string of the syntax tree is a pair of such pointers, to its
    start and behind its end, until [nulterminate] stores a NUL behind it.
    [parseexec] fills in the arguments of a node that redirections may already
    be wrapped around; the redirections are a list here, and are put around
    the node at the end.  [malloc] is assumed to have memory for a node.

    [runcmd] is followed through the descriptors of the processes: the result
    is the list of programs that are executed, with their descriptors; [fork]
    is assumed to have a free process. *)
From S2P Require Import Prelude Cstring Sysfile Ulib.

Module Sh.

Definition MAXARGS : nat := 10.

(** [struct execcmd], [redircmd], [pipecmd], [listcmd] and [backcmd]. *)
Inductive cmd (S : Type) :=
  | EXEC (argv : list S)
  | REDIR (c : cmd S) (file : S) (mode fd : Z)
  | PIPE (left right : cmd S)
  | LIST (left right : cmd S)
  | BACK (c : cmd S).
Arguments EXEC {_} _.
Arguments REDIR {_} _ _ _ _.
Arguments PIPE {_} _ _.
Arguments LIST {_} _ _.
Arguments BACK {_} _.

Abbreviation ptr := (list Z).
Abbreviation span := (ptr * ptr)%type.

(** ** Tokens *)

Definition whitespace : list Z := [32; 9; 13; 10; 11].
Definition symbols : list Z := [60; 124; 62; 38; 59; 40; 41].

Definition strchr_ (s : list Z) (c : Z) : bool := match Ulib.strchr s c with Some _ => true | None => false end.

Definition deref (s : ptr) : Z := at_ s 0.

Fixpoint skip_ws (s : ptr) : ptr :=
  match s with
  | c :: s' => if strchr_ whitespace c then skip_ws s' else s
  | [] => []
  end.

Fixpoint skip_word (s : ptr) : ptr :=
  match s with
  | c :: s' => if negb (strchr_ whitespace c) && negb (strchr_ symbols c) then skip_word s' else s
  | [] => []
  end.

(** The token's code, its start and end, and [*ps]. *)
Definition gettoken (ps : ptr) : Z * ptr * ptr * ptr :=
  let s := skip_ws ps in
  let q := s in
  let c := deref s in
  let '(ret, s) :=
    if c =? 0 then (c, s)
    else if (c =? 124) || (c =? 40) || (c =? 41) || (c =? 59) || (c =? 38) || (c =? 60) then (c, tail s)
    else if c =? 62 then
      let s := tail s in
      if deref s =? 62 then (43, tail s) else (c, s)
    else (97, skip_word s) in
  (ret, q, s, skip_ws s).

Definition peek (ps : ptr) (toks : list Z) : bool * ptr :=
  let s := skip_ws ps in
  (negb (deref s =? 0) && strchr_ toks (deref s), s).

(** ** Parsing *)

Abbreviation tree := (cmd span).

(** A redirection: file, mode and descriptor. *)
Abbreviation redir := (span * Z * Z)%type.

Definition wrap (c : tree) (rs : list redir) : tree := foldl (fun c '(f, mode, fd) => REDIR c f mode fd) c rs.

(** The loop of [parseredirs]; every iteration reads two tokens. *)
Fixpoint parseredirs (n : nat) (ps : ptr) : outcome (list redir * ptr) :=
  let '(b, ps) := peek ps [60; 62] in
  if b then
    match n with
    | O => NoFuel
    | S n' =>
        let '(tok, _, _, ps) := gettoken ps in
        let '(a, q, eq, ps) := gettoken ps in
        if negb (a =? 97) then Panic "missing file for redirection"
        else
          '(rs, ps) ← parseredirs n' ps;
          Ok (if tok =? 60 then ((q, eq), O_RDONLY, 0) :: rs
              else if tok =? 62 then ((q, eq), Z.lor (Z.lor O_WRONLY O_CREATE) O_TRUNC, 1) :: rs
              else if tok =? 43 then ((q, eq), Z.lor O_WRONLY O_CREATE, 1) :: rs
              else rs, ps)
    end
  else Ok ([], ps).

(** The loop of [parseexec]; [argc] arguments have been read. *)
Fixpoint parseargs (n : nat) (argc : nat) (ps : ptr) : outcome (list span * list redir * ptr) :=
  let '(b, ps) := peek ps [124; 41; 38; 59] in
  if b then Ok ([], [], ps)
  else
    match n with
    | O => NoFuel
    | S n' =>
        let '(tok, q, eq, ps) := gettoken ps in
        if tok =? 0 then Ok ([], [], ps)
        else if negb (tok =? 97) then Panic "syntax"
        else if (MAXARGS <=? S argc)%nat then Panic "too many args"
        else
          '(rs, ps) ← parseredirs (length ps) ps;
          '(args, rs', ps) ← parseargs n' (S argc) ps;
          Ok ((q, eq) :: args, rs ++ rs', ps)
    end.

(** The loop of [parseline] over [&]. *)
Fixpoint parseback (n : nat) (c : tree) (ps : ptr) : outcome (tree * ptr) :=
  let '(b, ps) := peek ps [38] in
  if b then
    match n with
    | O => NoFuel
    | S n' => let '(_, _, _, ps) := gettoken ps in parseback n' (BACK c) ps
    end
  else Ok (c, ps).

Fixpoint parseline (k : nat) (ps : ptr) : outcome (tree * ptr) :=
  match k with
  | O => NoFuel
  | S k' =>
      '(c, ps) ← parsepipe k' ps;
      '(c, ps) ← parseback (length ps) c ps;
      let '(b, ps) := peek ps [59] in
      if b then
        let '(_, _, _, ps) := gettoken ps in
        '(r, ps) ← parseline k' ps;
        Ok (LIST c r, ps)
      else Ok (c, ps)
  end
with parsepipe (k : nat) (ps : ptr) : outcome (tree * ptr) :=
  match k with
  | O => NoFuel
  | S k' =>
      '(c, ps) ← parseexec k' ps;
      let '(b, ps) := peek ps [124] in
      if b then
        let '(_, _, _, ps) := gettoken ps in
        '(r, ps) ← parsepipe k' ps;
        Ok (PIPE c r, ps)
      else Ok (c, ps)
  end
with parseexec (k : nat) (ps : ptr) : outcome (tree * ptr) :=
  match k with
  | O => NoFuel
  | S k' =>
      let '(b, ps) := peek ps [40] in
      if b then parseblock k' ps
      else
        '(rs, ps) ← parseredirs (length ps) ps;
        '(args, rs', ps) ← parseargs (S (length ps)) 0 ps;
        Ok (wrap (EXEC args) (rs ++ rs'), ps)
  end
with parseblock (k : nat) (ps : ptr) : outcome (tree * ptr) :=
  match k with
  | O => NoFuel
  | S k' =>
      let '(b, ps) := peek ps [40] in
      if negb b then Panic "parseblock"
      else
        let '(_, _, _, ps) := gettoken ps in
        '(c, ps) ← parseline k' ps;
        let '(b, ps) := peek ps [41] in
        if negb b then Panic "syntax - missing )"
        else
          let '(_, _, _, ps) := gettoken ps in
          '(rs, ps) ← parseredirs (length ps) ps;
          Ok (wrap c rs, ps)
  end.

(** The writes of [nulterminate]; [n] is the length of the line. *)
Fixpoint nulterminate (n : nat) (c : tree) (buf : list Z) : list Z :=
  let nul '(q, eq) buf := <[(n - length eq)%nat := 0]> buf in
  match c with
  | EXEC argv => foldl (fun b s => nul s b) buf argv
  | REDIR c file _ _ => nul file (nulterminate n c buf)
  | PIPE l r => nulterminate n r (nulterminate n l buf)
  | LIST l r => nulterminate n r (nulterminate n l buf)
  | BACK c => nulterminate n c buf
  end.

(** Four calls at most per character of the line.  The result is the tree and
    the buffer with the line and its NUL. *)
Definition parsecmd (s : list Z) : outcome (tree * list Z) :=
  '(c, ps) ← parseline (4 * length s + 4) s;
  let '(_, ps) := peek ps [] in
  match ps with
  | [] => Ok (c, nulterminate (length s) c (s ++ [0]))
  | _ => Panic "syntax"
  end.

(** What [main] does with a line that [gets] has read: it ends at the end of
    the input, changes the directory (the last character is cut off), or lets
    a child run the command. *)
Inductive action := Eof | Chdir (path : list Z) | Run (r : outcome (tree * list Z)).

Definition main_line (buf : list Z) : action :=
  if at_ buf 0 =? 0 then Eof
  else if (at_ buf 0 =? 99) && (at_ buf 1 =? 100) && (at_ buf 2 =? 32) then Chdir (drop 3 (take (length buf - 1) buf))
  else Run (parsecmd buf).

(** ** Execution *)

(** What a descriptor refers to: what the shell had, a file that was opened,
    or an end of a pipe. *)
Inductive desc := Std (fd : nat) | Opened (file : list Z) (mode : Z) | ReadEnd (p : nat) | WriteEnd (p : nat).

Abbreviation fdtab := (list (option desc)).

(** [fdalloc]: the lowest free descriptor. *)
Fixpoint lowest (t : fdtab) : option nat :=
  match t with
  | [] => None
  | None :: _ => Some 0%nat
  | Some _ :: t' => S <$> lowest t'
  end.

Definition close_ (fd : nat) (t : fdtab) : fdtab := <[fd := None]> t.
Definition install (d : desc) (t : fdtab) : option (nat * fdtab) :=
  fd ← lowest t; Some (fd, <[fd := Some d]> t).
Definition dup_ (fd : nat) (t : fdtab) : fdtab :=
  match t !! fd with
  | Some (Some d) => match install d t with Some (_, t) => t | None => t end
  | _ => t
  end.

Section Run.
(** Whether [open] finds or makes the file. *)
Variable opens : list Z -> Z -> bool.

(** [pipe]: two descriptors, or a failure. *)
Definition pipe_ (p : nat) (t : fdtab) : option (nat * nat * fdtab) :=
  '(r, t) ← install (ReadEnd p) t;
  '(w, t) ← install (WriteEnd p) t;
  Some (r, w, t).

(** The programs that the process and its children execute; [p] is the number
    of pipes made so far.  [fork] gives the child a copy of the descriptors. *)
Fixpoint runcmd (c : cmd (list Z)) (t : fdtab) (p : nat) : list (list (list Z) * fdtab) * nat :=
  match c with
  | EXEC argv => (match argv with [] => [] | _ => [(argv, t)] end, p)
  | REDIR c file mode fd =>
      let t := close_ (Z.to_nat fd) t in
      if opens file mode then
        match install (Opened file mode) t with
        | Some (_, t) => runcmd c t p
        | None => ([], p)
        end
      else ([], p)
  | LIST l r =>
      let '(e1, p) := runcmd l t p in
      let '(e2, p) := runcmd r t p in
      (e1 ++ e2, p)
  | PIPE l r =>
      match pipe_ p t with
      | None => ([], p)
      | Some (p0, p1, t) =>
          let '(e1, p') := runcmd l (close_ p1 (close_ p0 (dup_ p1 (close_ 1 t)))) (S p) in
          let '(e2, p') := runcmd r (close_ p1 (close_ p0 (dup_ p0 (close_ 0 t)))) p' in
          (e1 ++ e2, p')
      end
  | BACK c => runcmd c t p
  end.

End Run.

End Sh.

(** * The shell: parsing is total, strings end where they should, printing
      and parsing are inverse *)

Import Sh.

(** ** Characters *)

Definition ws (c : Z) : bool := strchr_ whitespace c.
Definition sym (c : Z) : bool := strchr_ symbols c.
(** A character of a word. *)
Definition regular (c : Z) : Prop := ws c = false /\ sym c = false /\ c <> 0.

#[export] Instance regular_dec c : Decision (regular c).
Proof. unfold regular. apply _. Defined.

Lemma strchr_cons a s c : a <> 0 -> strchr_ (a :: s) c = (a =? c) || strchr_ s c.
Proof. intros Ha. unfold strchr_. cbn [Ulib.strchr]. rewrite (proj2 (Z.eqb_neq _ _)) by done. by destruct (a =? c). Qed.

Lemma sym_iff c : sym c = (c =? 60) || (c =? 124) || (c =? 62) || (c =? 38) || (c =? 59) || (c =? 40) || (c =? 41).
Proof.
  unfold sym, symbols. rewrite !strchr_cons by lia. change (strchr_ [] c) with false.
  rewrite !(Z.eqb_sym c). by rewrite !orb_false_r, !orb_assoc.
Qed.

Lemma ws_iff c : ws c = (c =? 32) || (c =? 9) || (c =? 13) || (c =? 10) || (c =? 11).
Proof.
  unfold ws, whitespace. rewrite !strchr_cons by lia. change (strchr_ [] c) with false.
  rewrite !(Z.eqb_sym c). by rewrite !orb_false_r, !orb_assoc.
Qed.

(** ** Tokens of any line *)

Lemma skip_ws_suffix s : skip_ws s `suffix_of` s.
Proof. induction s as [|c s IH]; cbn; [done|]. destruct (strchr_ _ c); [|done]. by apply suffix_cons_r. Qed.

Lemma skip_ws_head s : match skip_ws s with [] => True | c :: _ => ws c = false end.
Proof. induction s as [|c s IH]; cbn; [done|]. destruct (strchr_ _ c) eqn:E; [done|exact E]. Qed.

Lemma skip_word_split s : Forall (fun c => c <> 0) s ->
  exists text, s = text ++ skip_word s /\ Forall regular text /\ match skip_word s with [] => True | c :: _ => ~ regular c end.
Proof.
  induction 1 as [|c s Hc _ (text & E & Ht & Hh)]; cbn; [by exists []|].
  destruct (negb (strchr_ whitespace c) && negb (strchr_ symbols c)) eqn:Er.
  - apply andb_true_iff in Er as [E1 E2]. apply negb_true_iff in E1, E2. exists (c :: text). split; [by rewrite E at 1|]. split; [|done]. by constructor.
  - exists []. split_and!; auto. intros (H1 & H2 & _). apply andb_false_iff in Er as [Er|Er]; apply negb_false_iff in Er; unfold ws, sym in *; congruence.
Qed.

(** A string of the tree: the characters of a word, up to a character that is
    not one. *)
Definition good (line : list Z) (s : span) : Prop :=
  s.1 `suffix_of` line /\ exists text, s.1 = text ++ s.2 /\ Forall regular text /\ match s.2 with [] => True | c :: _ => ~ regular c end.

Definition no_nul (s : list Z) : Prop := Forall (fun c => c <> 0) s.

Lemma no_nul_suffix s t : s `suffix_of` t -> no_nul t -> no_nul s.
Proof. intros [k ->] H. by apply Forall_app in H as [_ H]. Qed.

Lemma deref_zero s : no_nul s -> deref s = 0 <-> s = [].
Proof. intros H. destruct s as [|c s]; [done|]. apply Forall_cons in H as [Hc _]. cbn. split; [done|done]. Qed.

Record token (line ps : ptr) (r : Z) (q eq ps' : ptr) : Prop := Token {
  tk_rest : ps' `suffix_of` ps;
  tk_less : skip_ws ps <> [] -> (length ps' < length ps)%nat;
  tk_word : r = 97 -> good line (q, eq);
  tk_end : r = 0 <-> skip_ws ps = []
}.

Lemma gettoken_token line ps : ps `suffix_of` line -> no_nul line ->
  let '(r, q, eq, ps') := gettoken ps in token line ps r q eq ps'.
Proof.
  intros Hs Hn. unfold gettoken. pose proof (skip_ws_suffix ps) as Hsk. pose proof (skip_ws_head ps) as Hhd.
  set (s := skip_ws ps) in *. assert (Hsn : no_nul s) by (eapply no_nul_suffix; [|exact Hn]; by trans ps).
  assert (Hfin : forall r (s' : ptr) (w : bool), s' `suffix_of` s -> (s <> [] -> (length s' < length s)%nat) ->
    (r = 97 -> good line (s, s')) -> (r = 0 <-> s = []) -> token line ps r s s' (skip_ws s')).
  { intros r s' _ H1 H2 H3 H4. pose proof (skip_ws_suffix s') as H5. split; auto; [by trans s'; [|trans s]|]. intros He.
    apply suffix_length in H5, Hsk. specialize (H2 He). lia. }
  clearbody s. destruct s as [|c s']; [exact (Hfin 0 [] true ltac:(done) ltac:(done) ltac:(done) ltac:(done))|].
  change (deref (c :: s')) with c. apply Forall_cons in Hsn as [Hc Hsn]. rewrite (proj2 (Z.eqb_neq c 0)) by done.
  assert (Ht : s' `suffix_of` c :: s') by by apply suffix_cons_r.
  destruct ((c =? 124) || (c =? 40) || (c =? 41) || (c =? 59) || (c =? 38) || (c =? 60)) eqn:E1.
  { cbn [tail]. apply (Hfin c s' true); [done|cbn; lia|intros ->; done|done]. }
  destruct (c =? 62) eqn:E2; bool_to_prop.
  - cbn [tail]. destruct (deref s' =? 62) eqn:E3.
    + destruct s' as [|d s'']; [done|]. cbn [tail]. apply (Hfin 43 s'' true); [by apply suffix_cons_r, suffix_cons_r|cbn; lia|done|done].
    + apply (Hfin c s' true); [done|cbn; lia|lia|done].
  - assert (Hr : regular c). { split; [done|]. split; [|done]. rewrite sym_iff. repeat (apply orb_false_iff in E1 as [E1 ?]). lia. }
    destruct (skip_word_split (c :: s')) as (text & E & Ht' & Hh); [by constructor|]. destruct Hr as (R1 & R2 & _).
    apply (Hfin 97 (skip_word (c :: s')) true); [by exists text| | |done].
    + intros _. cbn [skip_word]. unfold ws, sym in *. rewrite R1, R2. cbn [negb andb].
      destruct (skip_word_split s' Hsn) as (t2 & E4 & _ & _). apply (f_equal length) in E4. rewrite length_app in E4. cbn. lia.
    + intros _. split; [cbn [fst]; by trans ps|]. by exists text.
Qed.

Lemma peek_suffix ps toks : (peek ps toks).2 `suffix_of` ps.
Proof. apply skip_ws_suffix. Qed.

Lemma peek_true ps toks : (peek ps toks).1 = true -> skip_ws (peek ps toks).2 <> [] /\ (peek ps toks).2 = skip_ws ps.
Proof.
  unfold peek. cbn [fst snd]. intros H. split; [|done]. apply andb_true_iff in H as [H _]. apply negb_true_iff, Z.eqb_neq in H.
  pose proof (skip_ws_head ps) as Hh. destruct (skip_ws ps) as [|c s] eqn:E; [done|]. cbn. unfold ws in Hh. by rewrite Hh.
Qed.

(** ** Parsing is total *)

Fixpoint spans (c : tree) : list span :=
  match c with
  | EXEC argv => argv
  | REDIR c file _ _ => file :: spans c
  | PIPE l r | LIST l r => spans l ++ spans r
  | BACK c => spans c
  end.

Definition files (rs : list redir) : list span := (fun r => r.1.1) <$> rs.

(** A parser returns the rest of its input, or reports an error. *)
Definition returns {A} (line ps : ptr) (sp : A -> list span) (r : outcome (A * ptr)) : Prop :=
  match r with
  | Ok (x, ps') => ps' `suffix_of` ps /\ Forall (good line) (sp x)
  | Panic _ => True
  | _ => False
  end.

Lemma returns_bind {A B} line ps (sp : A -> list span) (sp' : B -> list span) r f :
  returns line ps sp r -> (forall x ps', ps' `suffix_of` ps -> Forall (good line) (sp x) -> returns line ps' sp' (f (x, ps'))) ->
  returns line ps sp' (r ≫= f).
Proof.
  intros Hr Hf. destruct r as [[x ps']|msg| |]; cbn in *; auto. destruct Hr as [H1 H2]. specialize (Hf x ps' H1 H2).
  destruct (f (x, ps')) as [[y ps'']|msg| |]; cbn in *; auto. destruct Hf as [H3 H4]. split; [by trans ps'|done].
Qed.

Lemma returns_mono {A} line ps ps' (sp : A -> list span) r : ps' `suffix_of` ps -> returns line ps' sp r -> returns line ps sp r.
Proof. intros Hs. destruct r as [[x p]|msg| |]; cbn; auto. intros [H1 H2]. split; [by trans ps'|done]. Qed.

Section Total.
Variable line : ptr.
Hypothesis Hline : no_nul line.

Lemma parseredirs_total n : forall ps, ps `suffix_of` line -> (length ps <= n)%nat -> returns line ps files (parseredirs n ps).
Proof.
  induction n as [|n IH]; intros ps Hs Hn; cbn [parseredirs]; pose proof (peek_suffix ps [60; 62]) as Hps; pose proof (peek_true ps [60; 62]) as Hpt;
    destruct (peek ps [60; 62]) as [b p]; cbn [fst snd] in *; destruct b; try (by cbn).
  - destruct (Hpt eq_refl) as [H _]. apply suffix_length in Hps. by destruct p; cbn in *; [|lia].
  - destruct (Hpt eq_refl) as [Hne _]. assert (Hpl : p `suffix_of` line) by by trans ps.
    pose proof (gettoken_token line p Hpl Hline) as T1. destruct (gettoken p) as [[[tok q1] e1] p1]. destruct T1 as [R1 L1 _ _]. specialize (L1 Hne).
    pose proof (gettoken_token line p1 ltac:(by trans p) Hline) as T2. destruct (gettoken p1) as [[[a q] eq] p2]. destruct T2 as [R2 _ W2 _].
    destruct (a =? 97) eqn:Ea; cbn [negb]; bool_to_prop; [|done].
    apply (returns_mono line ps p2); [by trans p1; [|trans p]|]. eapply returns_bind; [apply IH; [by trans p1; [|trans p]|]|].
    + apply suffix_length in Hps, R2. lia.
    + intros rs p3 H3 Hf. cbn. split; [done|]. unfold files in *. repeat case_match; cbn; auto.
Qed.

Lemma parseback_total n : forall c ps, ps `suffix_of` line -> (length ps <= n)%nat -> Forall (good line) (spans c) ->
  returns line ps spans (parseback n c ps).
Proof.
  induction n as [|n IH]; intros c ps Hs Hn Hc; cbn [parseback]; pose proof (peek_suffix ps [38]) as Hps; pose proof (peek_true ps [38]) as Hpt;
    destruct (peek ps [38]) as [b p]; cbn [fst snd] in *; destruct b; try (by cbn).
  - destruct (Hpt eq_refl) as [H _]. apply suffix_length in Hps. by destruct p; cbn in *; [|lia].
  - destruct (Hpt eq_refl) as [Hne _]. assert (Hpl : p `suffix_of` line) by by trans ps.
    pose proof (gettoken_token line p Hpl Hline) as T1. destruct (gettoken p) as [[[tok q1] e1] p1]. destruct T1 as [R1 L1 _ _]. specialize (L1 Hne).
    apply (returns_mono line ps p1); [by trans p|]. apply IH; [by trans p|apply suffix_length in Hps; lia|done].
Qed.

Definition arg_spans (x : list span * list redir) : list span := x.1 ++ files x.2.

Lemma parseargs_total n : forall argc ps, ps `suffix_of` line -> (length ps < n)%nat -> returns line ps arg_spans (parseargs n argc ps).
Proof.
  induction n as [|n IH]; intros argc ps Hs Hn; [lia|]. cbn [parseargs]. pose proof (peek_suffix ps [124; 41; 38; 59]) as Hps.
  destruct (peek ps [124; 41; 38; 59]) as [b p]; cbn [fst snd] in *. destruct b; [by cbn|]. assert (Hpl : p `suffix_of` line) by by trans ps.
  pose proof (gettoken_token line p Hpl Hline) as T1. destruct (gettoken p) as [[[tok q] eq] p1]. destruct T1 as [R1 L1 W1 E1].
  destruct (tok =? 0) eqn:E0; bool_to_prop; [split; [by trans p|done]|]. destruct (tok =? 97) eqn:Ea; cbn [negb]; bool_to_prop; [|done].
  destruct (MAXARGS <=? S argc)%nat; [done|]. assert (Hp1 : p1 `suffix_of` line) by by trans p.
  apply (returns_mono line ps p1); [by trans p|]. eapply returns_bind; [by apply (parseredirs_total (length p1))|]. intros rs p2 H2 Hrs.
  assert (Hl : (length p2 < n)%nat).
  { apply suffix_length in Hps, H2. destruct (skip_ws p) eqn:Ew; [|specialize (L1 ltac:(done)); lia].
    exfalso. by apply E0, E1. }
  eapply returns_bind; [apply IH; [by trans p1|done]|].
  intros [args rs'] p3 H3 Ha. split; [done|]. unfold arg_spans, files in *. cbn [fst snd] in *. rewrite fmap_app. apply Forall_app in Ha as [Ha1 Ha2].
  cbn [app]. constructor; [by apply W1|]. by rewrite !Forall_app.
Qed.
Lemma spans_wrap rs : forall c, Forall (good line) (spans (wrap c rs)) <-> Forall (good line) (spans c) /\ Forall (good line) (files rs).
Proof.
  induction rs as [|[[f mode] fd] rs IH]; intros c; cbn [wrap foldl].
  - unfold files. cbn. rewrite !Forall_nil. tauto.
  - unfold wrap in IH. rewrite IH. unfold files. cbn [spans fmap list_fmap fst]. rewrite !Forall_cons. tauto.
Qed.

Lemma parse_total k : forall ps, ps `suffix_of` line ->
  ((4 * length ps + 4 <= k)%nat -> returns line ps spans (parseline k ps)) /\
  ((4 * length ps + 3 <= k)%nat -> returns line ps spans (parsepipe k ps)) /\
  ((4 * length ps + 2 <= k)%nat -> returns line ps spans (parseexec k ps)) /\
  ((4 * length ps + 1 <= k)%nat -> returns line ps spans (parseblock k ps)).
Proof.
  induction k as [|k IH]; intros ps Hs; [lia|]. cbn [parseline parsepipe parseexec parseblock].
  assert (Htok : forall p toks b p0, p `suffix_of` line -> peek p toks = (b, p0) -> b = true -> (p0 `suffix_of` line) /\
    let '(_, _, _, p1) := gettoken p0 in p1 `suffix_of` p /\ (length p1 < length p)%nat).
  { intros p toks b p0 Hp E ->. pose proof (peek_suffix p toks) as H1. pose proof (peek_true p toks) as H2. rewrite E in H1, H2. cbn in H1, H2.
    destruct (H2 eq_refl) as [H3 _]. assert (H4 : p0 `suffix_of` line) by by trans p. split; [done|]. pose proof (gettoken_token line p0 H4 Hline) as T.
    destruct (gettoken p0) as [[[tok q] e] p1]. destruct T as [R L _ _]. split; [by trans p0|]. apply suffix_length in H1. specialize (L H3). lia. }
  split_and!; intros Hk.
  - eapply returns_bind; [apply IH; [done|lia]|]. intros c p1 H1 Hc. assert (Hp1 : p1 `suffix_of` line) by by trans ps.
    eapply returns_bind; [by apply (parseback_total (length p1))|]. intros c2 p2 H2 Hc2. assert (Hp2 : p2 `suffix_of` line) by by trans p1.
    pose proof (peek_suffix p2 [59]) as Hq. destruct (peek p2 [59]) as [b p3] eqn:E. cbn in Hq. destruct b; [|by cbn].
    destruct (Htok p2 [59] true p3 Hp2 E eq_refl) as [_ T]. destruct (gettoken p3) as [[[tok q] e] p4]. destruct T as [T1 T2].
    apply (returns_mono line p2 p4); [done|]. apply suffix_length in H1, H2. eapply returns_bind; [apply IH; [by trans p2|lia]|].
    intros r p5 H5 Hr. split; [done|]. cbn. by apply Forall_app.
  - eapply returns_bind; [apply IH; [done|lia]|]. intros c p2 H2 Hc2. assert (Hp2 : p2 `suffix_of` line) by by trans ps.
    pose proof (peek_suffix p2 [124]) as Hq. destruct (peek p2 [124]) as [b p3] eqn:E. cbn in Hq. destruct b; [|by cbn].
    destruct (Htok p2 [124] true p3 Hp2 E eq_refl) as [_ T]. destruct (gettoken p3) as [[[tok q] e] p4]. destruct T as [T1 T2].
    apply (returns_mono line p2 p4); [done|]. apply suffix_length in H2. eapply returns_bind; [apply IH; [by trans p2|lia]|].
    intros r p5 H5 Hr. split; [done|]. cbn. by apply Forall_app.
  - pose proof (peek_suffix ps [40]) as Hq. destruct (peek ps [40]) as [b p] eqn:E. cbn in Hq. apply (returns_mono line ps p); [done|].
    assert (Hp : p `suffix_of` line) by by trans ps. destruct b; [apply IH; [done|apply suffix_length in Hq; lia]|].
    eapply returns_bind; [by apply (parseredirs_total (length p))|]. intros rs p1 H1 Hrs.
    eapply returns_bind; [apply (parseargs_total (S (length p1))); [by trans p|lia]|]. intros [args rs'] p2 H2 Ha. split; [done|].
    unfold arg_spans in Ha. cbn [fst snd] in Ha. apply Forall_app in Ha as [Ha1 Ha2]. apply spans_wrap. split; [done|]. unfold files. rewrite fmap_app. by apply Forall_app.
  - pose proof (peek_suffix ps [40]) as Hq. destruct (peek ps [40]) as [b p] eqn:E. cbn in Hq. destruct b; cbn [negb]; [|done].
    destruct (Htok ps [40] true p Hs E eq_refl) as [Hp T]. destruct (gettoken p) as [[[tok q] e] p1]. destruct T as [T1 T2].
    apply (returns_mono line ps p1); [done|]. eapply returns_bind; [apply IH; [by trans ps|lia]|]. intros c p2 H2 Hc. assert (Hp2 : p2 `suffix_of` line) by (trans p1; [done|by trans ps]).
    destruct (peek p2 [41]) as [b p3] eqn:E3. destruct b; cbn [negb]; [|done].
    destruct (Htok p2 [41] true p3 Hp2 E3 eq_refl) as [_ T]. destruct (gettoken p3) as [[[tok' q'] e'] p4]. destruct T as [T3 T4].
    apply (returns_mono line p2 p4); [done|]. eapply returns_bind; [apply (parseredirs_total (length p4)); [by trans p2|done]|].
    intros rs p5 H5 Hrs. split; [done|]. by apply spans_wrap.
Qed.

End Total.

(** ** Strings after [nulterminate] *)

(** The C string at a pointer into the line, in the buffer. *)
Definition string_at (n : nat) (buf : list Z) (s : span) : list Z := cstr (drop (n - length s.1) buf).

Definition text (s : span) : list Z := take (length s.1 - length s.2) s.1.

(** A buffer in which only characters that are not of words were replaced by NUL. *)
Definition cut (line buf : list Z) : Prop :=
  length buf = S (length line) /\ forall i c, line !! i = Some c -> buf !! i = Some c \/ ~ regular c /\ buf !! i = Some 0.

Definition nul (n : nat) (s : span) (buf : list Z) : list Z := <[(n - length s.2)%nat := 0]> buf.

Lemma suffix_lookup (s line : list Z) i : s `suffix_of` line -> s !! i = line !! (length line - length s + i)%nat.
Proof. intros [k ->]. rewrite length_app, lookup_app_r by lia. f_equal. lia. Qed.

Lemma cut_nul line s buf : good line s -> cut line buf -> cut line (nul (length line) s buf) /\
  nul (length line) s buf !! (length line - length s.2)%nat = Some 0.
Proof.
  intros (Hs & t & E & Ht & Hh) (Hl & Hc). unfold nul. split; [|rewrite list_lookup_insert_eq; [done|lia]].
  split; [by rewrite length_insert|]. intros i c Hi. destruct (decide (i = length line - length s.2)%nat) as [->|Hne]; [|rewrite list_lookup_insert_ne by done; by apply Hc].
  right. rewrite list_lookup_insert_eq by lia. split; [|done]. assert (Hs2 : s.2 `suffix_of` line) by (trans s.1; [by exists t|done]).
  rewrite <- (Nat.add_0_r (length line - length s.2)), <- (suffix_lookup s.2 line 0 Hs2) in Hi. destruct s.2 as [|d r]; [done|]. by injection Hi as ->.
Qed.

Lemma nulterminate_fold n c : forall buf, exists l, nulterminate n c buf = foldl (fun b s => nul n s b) buf l /\ l ≡ₚ spans c.
Proof.
  induction c as [argv|c IH f mode fd|l IHl r IHr|l IHl r IHr|c IH]; intros buf; cbn [nulterminate spans].
  - exists argv. split; [|done]. revert buf. induction argv as [|[q e] argv IHa]; intros buf; [done|]. cbn. apply IHa.
  - destruct (IH buf) as (k & -> & Hk). exists (k ++ [f]). rewrite foldl_app. destruct f as [q e]. split; [done|]. rewrite Hk. solve_Permutation.
  - destruct (IHl buf) as (k & -> & Hk). destruct (IHr (foldl (fun b s => nul n s b) buf k)) as (k' & -> & Hk'). exists (k ++ k'). rewrite foldl_app. split; [done|]. by rewrite Hk, Hk'.
  - destruct (IHl buf) as (k & -> & Hk). destruct (IHr (foldl (fun b s => nul n s b) buf k)) as (k' & -> & Hk'). exists (k ++ k'). rewrite foldl_app. split; [done|]. by rewrite Hk, Hk'.
  - apply IH.
Qed.

Lemma cut_fold line l : Forall (good line) l -> forall buf, cut line buf ->
  let buf' := foldl (fun b s => nul (length line) s b) buf l in
  cut line buf' /\ (forall i, buf !! i = Some 0 -> buf' !! i = Some 0) /\ forall s, s ∈ l -> buf' !! (length line - length s.2)%nat = Some 0.
Proof.
  induction 1 as [|s l Hs Hl IH]; intros buf Hc; cbn [foldl].
  { split_and!; auto. intros s Hs. by apply elem_of_nil in Hs. }
  destruct (cut_nul line s buf Hs Hc) as [H1 H2]. destruct (IH _ H1) as (H3 & H4 & H5). split_and!; auto.
  - intros i Hi. apply H4. unfold nul. destruct (decide (i = length line - length s.2)%nat) as [->|Hne]; [|by rewrite list_lookup_insert_ne].
    apply list_lookup_insert_eq. by apply lookup_lt_Some in Hi.
  - intros s' Hs'. apply elem_of_cons in Hs' as [->|Hs']; [by apply H4|by apply H5].
Qed.

Lemma cstr_prefix t : forall l, Forall (fun c => c <> 0) t -> (forall i c, t !! i = Some c -> l !! i = Some c) -> l !! length t = Some 0 -> cstr l = t.
Proof.
  induction t as [|a t IH]; intros l Ht Hp Hz.
  - destruct l as [|b l]; [done|]. by injection Hz as ->.
  - apply Forall_cons in Ht as [Ha Ht]. destruct l as [|b l]; [done|]. specialize (Hp 0%nat a eq_refl) as Hb. injection Hb as ->.
    rewrite cstr_cons, (proj2 (Z.eqb_neq _ _)) by done. f_equal. apply IH; auto. intros i c Hi. by apply (Hp (S i)).
Qed.

Lemma string_text line s buf : good line s -> cut line buf -> buf !! (length line - length s.2)%nat = Some 0 ->
  string_at (length line) buf s = text s.
Proof.
  intros (Hs & t & E & Ht & Hh) (Hl & Hc) Hz. assert (Et : text s = t).
  { unfold text. rewrite E, length_app. replace (length t + length s.2 - length s.2)%nat with (length t) by lia. apply take_app_length. }
  unfold string_at. rewrite Et.
  assert (Hle : (length s.1 <= length line)%nat) by by apply suffix_length. assert (El : length s.1 = (length t + length s.2)%nat) by (rewrite E, length_app; done).
  apply cstr_prefix.
  - apply (Forall_impl _ _ _ Ht). by intros c (_ & _ & Hc0).
  - intros i c Hi. assert (Hin : s.1 !! i = Some c) by (rewrite E, lookup_app_l by (by apply lookup_lt_Some in Hi); done).
    rewrite (suffix_lookup s.1 line i Hs) in Hin. rewrite lookup_drop. destruct (Hc _ _ Hin) as [H|[Hr _]]; [done|].
    exfalso. apply Hr. rewrite Forall_forall in Ht. apply Ht. by apply list_elem_of_lookup_2 in Hi.
  - rewrite lookup_drop. rewrite <- Hz. f_equal. lia.
Qed.

(** Every line is parsed or refused, and the strings of the tree are NUL
    terminated words. *)
Lemma parsecmd_total line : no_nul line ->
  match parsecmd line with
  | Ok (c, buf) => Forall (good line) (spans c) /\ forall s, s ∈ spans c -> string_at (length line) buf s = text s
  | Panic _ => True
  | _ => False
  end.
Proof.
  intros Hn. destruct (parse_total line Hn (4 * length line + 4) line ltac:(done)) as [Hp _]. specialize (Hp ltac:(lia)). unfold parsecmd.
  destruct (parseline _ line) as [[c ps]|msg| |]; cbn [mbind outcome_bind returns] in *; auto. destruct Hp as [_ Hg].
  destruct (peek ps []) as [b [|x p]]; [|done]. split; [done|]. intros s Hs.
  destruct (nulterminate_fold (length line) c (line ++ [0])) as (l & -> & Hl).
  assert (Hgl : Forall (good line) l) by (rewrite Forall_forall in *; intros y Hy; apply Hg; by rewrite <- Hl).
  destruct (cut_fold line l Hgl (line ++ [0])) as (Hc & _ & Hz).
  { split; [rewrite length_app; cbn; lia|]. intros i d Hi. left. rewrite lookup_app_l; [done|by apply lookup_lt_Some in Hi]. }
  rewrite Forall_forall in Hg. apply string_text; auto. apply Hz. by rewrite Hl.
Qed.
