(* ===== verification/ShPrint.v ===== *)
(** * The shell: a command that is printed and parsed again

    [print] writes a command as a line with the operators of the shell and
    parentheses where the grammar needs them; the parser builds the same tree
    from it. *)
From S2P Require Import Prelude Cstring Sysfile Ulib Sh.

Import Sh.

(** ** Tokens as text *)

Inductive tok := Word (w : list Z) | Bar | Amp | Semi | Lpar | Rpar | Lt | Gt | GtGt.

Definition chars (t : tok) : list Z :=
  match t with
  | Word w => w | Bar => [124] | Amp => [38] | Semi => [59] | Lpar => [40] | Rpar => [41] | Lt => [60] | Gt => [62] | GtGt => [62; 62]
  end.

Definition code (t : tok) : Z :=
  match t with
  | Word _ => 97 | Bar => 124 | Amp => 38 | Semi => 59 | Lpar => 40 | Rpar => 41 | Lt => 60 | Gt => 62 | GtGt => 43
  end.

Definition word_ok (w : list Z) : Prop := w <> [] /\ Forall regular w.
Definition tok_ok (t : tok) : Prop := match t with Word w => word_ok w | _ => True end.

(** A blank behind every token. *)
Definition show (ts : list tok) : list Z := foldr (fun t s => chars t ++ 32 :: s) [] ts.

Lemma show_app ts us : show (ts ++ us) = show ts ++ show us.
Proof. unfold show. induction ts as [|t ts IH]; [done|]. cbn. rewrite IH, <- app_assoc. done. Qed.

Lemma chars_head t : tok_ok t -> exists c r, chars t = c :: r /\ ws c = false /\ c <> 0.
Proof.
  destruct t as [w| | | | | | | |]; cbn; intros H; try (eexists _, _; split; [reflexivity|]; split; [reflexivity|lia]).
  destruct H as [Hn Hr]. destruct w as [|c r]; [done|]. apply Forall_cons in Hr as [(H1 & _ & H3) _]. by exists c, r.
Qed.

Lemma skip_ws_show ts : Forall tok_ok ts -> skip_ws (show ts) = show ts.
Proof.
  intros H. destruct H as [|t ts Ht _]; [done|]. destruct (chars_head t Ht) as (c & r & E & Hw & _). cbn. rewrite E. cbn. unfold ws in Hw. by rewrite Hw.
Qed.

Lemma skip_word_app w s : Forall regular w -> skip_word (w ++ 32 :: s) = 32 :: s.
Proof. induction 1 as [|c w (H1 & H2 & _) _ IH]; [done|]. cbn. unfold ws, sym in *. by rewrite H1, H2. Qed.

Lemma gettoken_show t ts : tok_ok t -> Forall tok_ok ts ->
  gettoken (show (t :: ts)) = (code t, chars t ++ 32 :: show ts, 32 :: show ts, show ts).
Proof.
  intros Ht Hts. unfold gettoken. rewrite skip_ws_show by by constructor. cbn [show foldr]. fold (show ts).
  assert (Hs : skip_ws (32 :: show ts) = show ts) by (cbn; by apply skip_ws_show).
  destruct t as [w| | | | | | | |]; try (cbn -[skip_ws]; by rewrite Hs). destruct Ht as [Hn Hr].
  cbn [chars code]. destruct w as [|c r]; [done|]. pose proof Hr as Hr'. apply Forall_cons in Hr' as [(H1 & H2 & H3) _].
  change (deref ((c :: r) ++ 32 :: show ts)) with c. rewrite sym_iff in H2. repeat (apply orb_false_iff in H2 as [H2 ?]).
  rewrite (proj2 (Z.eqb_neq c 0)) by done. destruct (_ || _) eqn:E; [lia|]. rewrite (proj2 (Z.eqb_neq c 62)) by lia.
  rewrite skip_word_app by done. by rewrite Hs.
Qed.

Lemma gettoken_end : gettoken [] = (0, [], [], []).
Proof. done. Qed.

(** The first character of a token among given symbols. *)
Definition starts (t : tok) (toks : list Z) : bool := strchr_ toks (at_ (chars t) 0).

Lemma peek_show t ts toks : tok_ok t -> Forall tok_ok ts -> peek (show (t :: ts)) toks = (starts t toks, show (t :: ts)).
Proof.
  intros Ht Hts. unfold peek. rewrite skip_ws_show by by constructor. destruct (chars_head t Ht) as (c & r & E & _ & H0).
  cbn [show foldr]. rewrite E. unfold starts, deref. rewrite E. cbn. by rewrite (proj2 (Z.eqb_neq _ _)).
Qed.

Lemma peek_end toks : peek [] toks = (false, []).
Proof. done. Qed.

Lemma starts_word w toks : word_ok w -> Forall (fun c => sym c = true /\ c <> 0) toks -> starts (Word w) toks = false.
Proof.
  intros [Hn Hr] Ht. destruct w as [|c r]; [done|]. apply Forall_cons in Hr as [(_ & H2 & _) _]. change (strchr_ toks c = false).
  induction Ht as [|d toks [Hd Hd0] _ IH]; [reflexivity|]. rewrite strchr_cons by done. rewrite IH.
  destruct (Z.eqb_spec d c) as [->|]; [congruence|done].
Qed.

Lemma show_length ts : Forall tok_ok ts -> (2 * length ts <= length (show ts))%nat.
Proof.
  induction 1 as [|t ts Ht _ IH]; [done|]. destruct (chars_head t Ht) as (c & r & E & _). cbn [show foldr]. fold (show ts). rewrite length_app. rewrite E. cbn. lia.
Qed.

(** ** Commands *)

Fixpoint view (c : tree) : cmd (list Z) :=
  match c with
  | EXEC argv => EXEC (text <$> argv)
  | REDIR c f mode fd => REDIR (view c) (text f) mode fd
  | PIPE l r => PIPE (view l) (view r)
  | LIST l r => LIST (view l) (view r)
  | BACK c => BACK (view c)
  end.

Definition rtok (mode : Z) : tok := if mode =? 0 then Lt else if mode =? 1537 then Gt else GtGt.

(** What the parser can produce: at most nine arguments, words of regular
    characters, and the three kinds of redirection. *)
Fixpoint printable (c : cmd (list Z)) : Prop :=
  match c with
  | EXEC argv => (length argv < MAXARGS)%nat /\ Forall word_ok argv
  | REDIR c f mode fd => printable c /\ word_ok f /\ (mode = 0 /\ fd = 0 \/ mode = 1537 /\ fd = 1 \/ mode = 513 /\ fd = 1)
  | PIPE l r | LIST l r => printable l /\ printable r
  | BACK c => printable c
  end.

(** The tokens of a command as an operand of a redirection or of [|], as the
    right operand of [|], before [&], and as a line. *)
Record forms := Forms { f_exec : list tok; f_pipe : list tok; f_back : list tok; f_line : list tok }.

Definition paren (ts : list tok) : list tok := Lpar :: ts ++ [Rpar].

Fixpoint tokens (c : cmd (list Z)) : forms :=
  match c with
  | EXEC argv => let t := Word <$> argv in Forms t t t t
  | REDIR c f mode _ => let t := f_exec (tokens c) ++ [rtok mode; Word f] in Forms t t t t
  | PIPE l r => let t := f_exec (tokens l) ++ Bar :: f_pipe (tokens r) in Forms (paren t) t t t
  | BACK c => let t := f_back (tokens c) ++ [Amp] in Forms (paren t) (paren t) t t
  | LIST l r => let t := f_back (tokens l) ++ Semi :: f_line (tokens r) in Forms (paren t) (paren t) (paren t) t
  end.

Definition print (c : cmd (list Z)) : list Z := show (f_line (tokens c)).

(** The base of redirections, and of [&]. *)
Fixpoint peel (c : cmd (list Z)) : cmd (list Z) * list (list Z * Z * Z) :=
  match c with
  | REDIR c f mode fd => let '(b, rs) := peel c in (b, rs ++ [(f, mode, fd)])
  | _ => (c, [])
  end.

Fixpoint backs (c : cmd (list Z)) : cmd (list Z) * nat :=
  match c with
  | BACK c => let '(b, j) := backs c in (b, S j)
  | _ => (c, 0%nat)
  end.

Definition rtoks (rs : list (list Z * Z * Z)) : list tok := foldr (fun '(f, mode, _) ts => rtok mode :: Word f :: ts) [] rs.
Definition rewrap (c : cmd (list Z)) (rs : list (list Z * Z * Z)) : cmd (list Z) := foldl (fun c '(f, mode, fd) => REDIR c f mode fd) c rs.
Definition rview (r : redir) : list Z * Z * Z := (text r.1.1, r.1.2, r.2).

Definition head_in (l : list tok) (ts : list tok) : Prop := match ts with [] => True | t :: _ => t ∈ l end.

(** What may follow an operand of [|], a pipeline, a command before [;], a line. *)
Definition after_exec : list tok := [Bar; Amp; Semi; Rpar].
Definition after_pipe : list tok := [Amp; Semi; Rpar].
Definition after_back : list tok := [Semi; Rpar].
Definition after_line : list tok := [Rpar].

Lemma text_show w s : text (w ++ 32 :: s, 32 :: s) = w.
Proof.
  unfold text. cbn [fst snd]. rewrite length_app. replace (length w + length (32%Z :: s) - length (32%Z :: s))%nat with (length w) by lia. apply take_app_length.
Qed.

(** A token that is not among the symbols looked for. *)
Lemma peek_false ts toks l : Forall tok_ok ts -> head_in l ts -> (forall t, t ∈ l -> starts t toks = false) -> peek (show ts) toks = (false, show ts).
Proof. intros H Hh Hl. destruct ts as [|t ts]; [done|]. apply Forall_cons in H as [Ht Hts]. rewrite peek_show by done. by rewrite Hl. Qed.

Lemma tok_starts l toks : forallb (fun t => negb (starts t toks)) l = true -> forall t, t ∈ l -> starts t toks = false.
Proof. intros H t Ht. rewrite forallb_forall in H. apply negb_true_iff, H. by apply list_elem_of_In. Qed.

Definition redir_ok (r : list Z * Z * Z) : Prop :=
  word_ok r.1.1 /\ (r.1.2 = 0 /\ r.2 = 0 \/ r.1.2 = 1537 /\ r.2 = 1 \/ r.1.2 = 513 /\ r.2 = 1).

Lemma rtok_code mode fd : mode = 0 /\ fd = 0 \/ mode = 1537 /\ fd = 1 \/ mode = 513 /\ fd = 1 ->
  tok_ok (rtok mode) /\ starts (rtok mode) [60; 62] = true /\ starts (rtok mode) [40] = false /\ forall (s : span) (rs : list redir),
  (if code (rtok mode) =? 60 then (s, O_RDONLY, 0) :: rs
   else if code (rtok mode) =? 62 then (s, Z.lor (Z.lor O_WRONLY O_CREATE) O_TRUNC, 1) :: rs
   else if code (rtok mode) =? 43 then (s, Z.lor O_WRONLY O_CREATE, 1) :: rs
   else rs) = (s, mode, fd) :: rs.
Proof. intros [[-> ->]|[[-> ->]|[-> ->]]]; repeat split. Qed.

Lemma rtoks_ok rs : Forall redir_ok rs -> Forall tok_ok (rtoks rs).
Proof. induction 1 as [|[[f mode] fd] rs [Hw Hm] _ IH]; [done|]. cbn in *. destruct (rtok_code mode fd Hm) as [Ht _]. constructor; [done|]. constructor; [exact Hw|exact IH]. Qed.

Lemma parseredirs_show rs : Forall redir_ok rs -> forall ts n, Forall tok_ok ts -> (length rs <= n)%nat ->
  (forall t, head ts = Some t -> starts t [60; 62] = false) ->
  exists rs', parseredirs n (show (rtoks rs ++ ts)) = Ok (rs', show ts) /\ rview <$> rs' = rs.
Proof.
  induction 1 as [|[[f mode] fd] rs [Hw Hm] Hrs IH]; intros ts n Hts Hn Hh.
  - exists []. split; [|done]. assert (Ep : peek (show ts) [60; 62] = (false, show ts)).
    { destruct ts as [|t ts]; [done|]. apply Forall_cons in Hts as [Ht Hts]. rewrite peek_show by done. by rewrite Hh. }
    destruct n; cbn [parseredirs rtoks foldr app]; by rewrite Ep.
  - destruct n as [|n]; cbn in Hn; [lia|]. cbn in Hw, Hm. destruct (rtok_code mode fd Hm) as (Ht & Hst & _ & Hc).
    assert (Hall : Forall tok_ok (rtoks rs ++ ts)) by (apply Forall_app; split; [by apply rtoks_ok|done]).
    destruct (IH ts n Hts ltac:(lia) Hh) as (rs' & E & Ev). eexists. cbn [rtoks foldr app parseredirs]. fold (rtoks rs).
    rewrite peek_show, Hst by (auto; by constructor). rewrite gettoken_show by (auto; by constructor). rewrite gettoken_show by auto.
    change (code (Word f) =? 97) with true. cbn [negb chars]. rewrite E. cbn [mbind outcome_bind]. rewrite Hc. split; [reflexivity|].
    cbn. rewrite Ev. unfold rview. cbn [fst snd]. by rewrite text_show.
Qed.

Lemma after_no_redir l ts : l = after_exec -> head_in l ts -> forall t, head ts = Some t -> starts t [60; 62] = false.
Proof. intros -> H t Ht. destruct ts as [|t' ts]; [done|]. injection Ht as ->. by apply (tok_starts after_exec). Qed.

Lemma words_ok ws : Forall word_ok ws -> Forall tok_ok (Word <$> ws).
Proof. induction 1; cbn; by constructor. Qed.

Lemma parseargs_show ws : Forall word_ok ws -> forall rs ts argc n, Forall redir_ok rs -> (ws = [] -> rs = []) -> Forall tok_ok ts -> head_in after_exec ts ->
  (argc + length ws < MAXARGS)%nat -> (length ws < n)%nat ->
  exists args rs', parseargs n argc (show ((Word <$> ws) ++ rtoks rs ++ ts)) = Ok (args, rs', show ts) /\ text <$> args = ws /\ rview <$> rs' = rs.
Proof.
  induction 1 as [|w ws Hw Hws IH]; intros rs ts argc n Hrs Hne Hts Hh Ha Hn; (destruct n as [|n]; [lia|]).
  - rewrite Hne by done. exists [], []. split; [|done]. cbn [fmap list_fmap app rtoks foldr parseargs]. destruct ts as [|t ts].
    + rewrite peek_end, gettoken_end. done.
    + apply Forall_cons in Hts as [Ht Hts]. rewrite peek_show by done. cbn [head_in] in Hh.
      unfold after_exec in Hh. repeat (apply elem_of_cons in Hh as [->|Hh]; [done|]). by apply elem_of_nil in Hh.
  - set (rest := (Word <$> ws) ++ rtoks rs ++ ts).
    assert (Hrest : Forall tok_ok rest) by (apply Forall_app; split; [by apply words_ok|apply Forall_app; split; [by apply rtoks_ok|done]]).
    cbn [fmap list_fmap app parseargs]. change (list_fmap _ _ Word ws ++ rtoks rs ++ ts) with rest. rewrite peek_show, starts_word by (auto; repeat constructor; done || lia).
    rewrite gettoken_show by auto. change (code (Word w) =? 0) with false. change (code (Word w) =? 97) with true. cbn [negb].
    cbn in Ha, Hn. rewrite (proj2 (Nat.leb_gt _ _)) by (unfold MAXARGS in *; lia).
    pose proof (show_length rest Hrest) as Hlen. destruct ws as [|w' ws'].
    + cbn [fmap list_fmap app] in rest. pose proof Hlen as Hl2. unfold rest in Hl2 at 1. rewrite length_app in Hl2.
      assert (Hlr : (length rs <= length (rtoks rs))%nat) by (clear; unfold rtoks; induction rs as [|[[? ?] ?] rs IHr]; cbn; lia).
      destruct (parseredirs_show rs Hrs ts (length (show rest)) Hts ltac:(lia) (after_no_redir _ _ eq_refl Hh)) as (rs1 & E1 & V1).
      change (rtoks rs ++ ts) with rest in E1. change ((Word <$> []) ++ rtoks rs ++ ts) with rest. rewrite E1. cbn [mbind outcome_bind].
      destruct (IH [] ts (S argc) n ltac:(done) ltac:(done) Hts Hh ltac:(cbn; lia) ltac:(cbn; lia)) as (args & rs2 & E2 & V2 & V3).
      cbn [fmap list_fmap app rtoks foldr] in E2. rewrite E2. cbn [mbind outcome_bind]. eexists _, _. split; [reflexivity|].
      cbn [fmap list_fmap chars]. change (list_fmap span (list Z) text args) with (text <$> args). rewrite text_show, V2, fmap_app, V1, V3, app_nil_r. done.
    + assert (Hhr : forall t, head rest = Some t -> starts t [60; 62] = false).
      { intros t [= <-]. apply Forall_cons in Hws as [Hw' _]. apply starts_word; [done|]. repeat constructor; done || lia. }
      destruct (parseredirs_show [] ltac:(done) rest (length (show rest)) Hrest ltac:(cbn; lia) Hhr) as (rs1 & E1 & V1).
      cbn [rtoks foldr app] in E1. change ((Word <$> w' :: ws') ++ rtoks rs ++ ts) with rest. rewrite E1. cbn [mbind outcome_bind]. apply fmap_nil_inv in V1. subst rs1.
      destruct (IH rs ts (S argc) n Hrs ltac:(done) Hts Hh ltac:(cbn in *; lia) ltac:(cbn in *; lia)) as (args & rs2 & E2 & V2 & V3).
      fold rest in E2. rewrite E2. cbn [mbind outcome_bind]. eexists _, _. split; [reflexivity|].
      cbn [fmap list_fmap chars app]. change (list_fmap span (list Z) text args) with (text <$> args). by rewrite text_show, V2, V3.
Qed.

(** ** Round trip *)

Lemma view_wrap rs : forall c, view (wrap c rs) = rewrap (view c) (rview <$> rs).
Proof. induction rs as [|[[f mode] fd] rs IH]; intros c; [done|]. cbn [wrap foldl]. unfold wrap in IH. rewrite IH. done. Qed.

Lemma rtoks_app rs rs' : rtoks (rs ++ rs') = rtoks rs ++ rtoks rs'.
Proof. unfold rtoks. induction rs as [|[[f mode] fd] rs IH]; [done|]. cbn. by rewrite IH. Qed.

Lemma tokens_ok c : printable c ->
  Forall tok_ok (f_exec (tokens c)) /\ Forall tok_ok (f_pipe (tokens c)) /\ Forall tok_ok (f_back (tokens c)) /\ Forall tok_ok (f_line (tokens c)).
Proof.
  assert (Hp : forall ts, Forall tok_ok ts -> Forall tok_ok (paren ts)).
  { intros ts H. constructor; [done|]. apply Forall_app. split; [done|]. by repeat constructor. }
  induction c as [argv|c IH f mode fd|l IHl r IHr|l IHl r IHr|c IH]; cbn [tokens f_exec f_pipe f_back f_line printable].
  - intros [_ H]. apply words_ok in H. auto.
  - intros (Hc & Hw & Hm). destruct (IH Hc) as (H1 & _). destruct (rtok_code mode fd Hm) as [Ht _].
    assert (H : Forall tok_ok (f_exec (tokens c) ++ [rtok mode; Word f])) by (apply Forall_app; split; [done|]; constructor; [done|]; constructor; [exact Hw|constructor]). auto.
  - intros [Hl Hr]. destruct (IHl Hl) as (H1 & _). destruct (IHr Hr) as (_ & H2 & _).
    assert (H : Forall tok_ok (f_exec (tokens l) ++ Bar :: f_pipe (tokens r))) by (apply Forall_app; split; [done|by constructor]). auto.
  - intros [Hl Hr]. destruct (IHl Hl) as (_ & _ & H1 & _). destruct (IHr Hr) as (_ & _ & _ & H2).
    assert (H : Forall tok_ok (f_back (tokens l) ++ Semi :: f_line (tokens r))) by (apply Forall_app; split; [done|by constructor]). auto.
  - intros Hc. destruct (IH Hc) as (_ & _ & H1 & _). assert (H : Forall tok_ok (f_back (tokens c) ++ [Amp])) by (apply Forall_app; split; [done|by repeat constructor]). auto.
Qed.

Definition parses_as (f : nat -> ptr -> outcome (tree * ptr)) (a : nat) (toks after : list tok) (c : cmd (list Z)) : Prop :=
  forall k ts, Forall tok_ok ts -> head_in after ts -> (4 * length (show (toks ++ ts)) + a <= k)%nat ->
  exists c', f k (show (toks ++ ts)) = Ok (c', show ts) /\ view c' = c.

Definition PE c := parses_as parseexec 2 (f_exec (tokens c)) after_exec c.
Definition PP c := parses_as parsepipe 3 (f_pipe (tokens c)) after_pipe c.
Definition PL c := parses_as parseline 4 (f_line (tokens c)) after_line c.

Lemma exec_simple argv rs : (length argv < MAXARGS)%nat -> Forall word_ok argv -> Forall redir_ok rs ->
  parses_as parseexec 2 ((Word <$> argv) ++ rtoks rs) after_exec (rewrap (EXEC argv) rs).
Proof.
  intros Hn Hw Hrs k ts Hts Hh Hk. destruct k as [|k]; [lia|]. cbn [parseexec]. rewrite <- app_assoc.
  set (all := (Word <$> argv) ++ rtoks rs ++ ts). assert (Hr : Forall tok_ok (rtoks rs ++ ts)) by (apply Forall_app; split; [by apply rtoks_ok|done]).
  assert (Hall : Forall tok_ok all) by (apply Forall_app; split; [by apply words_ok|done]). pose proof (show_length all Hall) as Hlen.
  assert (Hrl : (length rs <= length (rtoks rs))%nat) by (clear; unfold rtoks; induction rs as [|[[? ?] ?] rs IHr]; cbn; lia).
  assert (Hal : (length argv + length rs <= length all)%nat) by (unfold all; rewrite !length_app, length_fmap; lia).
  assert (Ep : peek (show all) [40] = (false, show all)).
  { assert (Hst : forall t, head all = Some t -> starts t [40] = false).
    { unfold all. intros t Ht. destruct argv as [|w argv]; [destruct Hrs as [|[[f mode] fd] rs [_ Hm] _]|].
      - destruct ts as [|t' ts]; [done|]. injection Ht as ->. by apply (tok_starts after_exec).
      - injection Ht as <-. by apply (rtok_code mode fd Hm).
      - injection Ht as <-. apply Forall_cons in Hw as [Hw _]. apply starts_word; [done|]. repeat constructor; done || lia. }
    clearbody all. destruct all as [|t l]; [done|]. apply Forall_cons in Hall as [H1 H2]. rewrite peek_show by done. by rewrite Hst. }
  rewrite Ep. destruct argv as [|w argv].
  - destruct (parseredirs_show rs Hrs ts (length (show all)) Hts ltac:(lia) (after_no_redir _ _ eq_refl Hh)) as (rs1 & E1 & V1).
    change (show (rtoks rs ++ ts)) with (show all) in E1. rewrite E1. cbn [mbind outcome_bind].
    destruct (parseargs_show [] ltac:(done) [] ts 0 (S (length (show ts))) ltac:(done) ltac:(done) Hts Hh ltac:(cbn; unfold MAXARGS; lia) ltac:(cbn; lia)) as (args & rs2 & E2 & V2 & V3).
    cbn [fmap list_fmap app rtoks foldr] in E2. rewrite E2. cbn [mbind outcome_bind]. eexists. split; [reflexivity|].
    rewrite view_wrap. cbn [view]. by rewrite V2, fmap_app, V1, V3, app_nil_r.
  - destruct (parseredirs_show [] ltac:(done) all (length (show all)) Hall ltac:(cbn; lia)) as (rs1 & E1 & V1).
    { intros t [= <-]. apply Forall_cons in Hw as [Hw _]. apply starts_word; [done|]. repeat constructor; done || lia. }
    cbn [rtoks foldr app] in E1. rewrite E1. cbn [mbind outcome_bind]. apply fmap_nil_inv in V1. subst rs1.
    destruct (parseargs_show (w :: argv) Hw rs ts 0 (S (length (show all))) Hrs ltac:(done) Hts Hh ltac:(lia) ltac:(lia)) as (args & rs2 & E2 & V2 & V3).
    fold all in E2. rewrite E2. cbn [mbind outcome_bind app]. eexists. split; [reflexivity|]. rewrite view_wrap. cbn [view]. by rewrite V2, V3.
Qed.

Lemma exec_block b rs : printable b -> PL b -> Forall redir_ok rs ->
  parses_as parseexec 2 (paren (f_line (tokens b)) ++ rtoks rs) after_exec (rewrap b rs).
Proof.
  intros Hb HL Hrs k ts Hts Hh Hk. destruct k as [|[|k]]; [lia|lia|]. destruct (tokens_ok b Hb) as (_ & _ & _ & Hl).
  set (rest := rtoks rs ++ ts). assert (Hr : Forall tok_ok rest) by (apply Forall_app; split; [by apply rtoks_ok|done]).
  replace ((paren (f_line (tokens b)) ++ rtoks rs) ++ ts) with (Lpar :: f_line (tokens b) ++ Rpar :: rest) in * by (unfold paren, rest; cbn; rewrite <- !app_assoc; done).
  set (inner := f_line (tokens b) ++ Rpar :: rest) in *. assert (Hi : Forall tok_ok inner) by (apply Forall_app; split; [done|by constructor]).
  cbn [parseexec]. rewrite peek_show by done. change (starts Lpar [40]) with true. cbn iota. cbn [parseblock].
  rewrite peek_show by done. change (starts Lpar [40]) with true. cbn [negb]. rewrite gettoken_show by done.
  destruct (HL k (Rpar :: rest) ltac:(by constructor) ltac:(by left)) as (c' & E & V).
  { fold inner. change (length (show (Lpar :: inner))) with (2 + length (show inner))%nat in Hk. lia. }
  fold inner in E. rewrite E. cbn [mbind outcome_bind]. rewrite peek_show by done. change (starts Rpar [41]) with true. cbn [negb]. rewrite gettoken_show by done.
  pose proof (show_length rest Hr) as Hlen. assert (Hrl : (length rs <= length rest)%nat).
  { unfold rest. rewrite length_app. clear. unfold rtoks. induction rs as [|[[? ?] ?] rs IHr]; cbn; lia. }
  destruct (parseredirs_show rs Hrs ts (length (show rest)) Hts ltac:(lia) (after_no_redir _ _ eq_refl Hh)) as (rs1 & E1 & V1).
  change (show (rtoks rs ++ ts)) with (show rest) in E1. rewrite E1. cbn [mbind outcome_bind]. eexists. split; [reflexivity|]. by rewrite view_wrap, V, V1.
Qed.

Lemma block_single b : printable b -> PL b -> f_exec (tokens b) = paren (f_line (tokens b)) -> PE b.
Proof. intros Hb HL E. pose proof (exec_block b [] Hb HL ltac:(done)) as H. cbn [rtoks foldr] in H. rewrite app_nil_r in H. unfold PE. rewrite E. exact H. Qed.

Lemma pipe_single c : printable c -> PE c -> f_pipe (tokens c) = f_exec (tokens c) -> PP c.
Proof.
  intros Hc HE Ef k ts Hts Hh Hk. rewrite Ef in *. destruct k as [|k]; [lia|]. cbn [parsepipe].
  destruct (HE k ts Hts) as (c' & E & V); [|lia|].
  { destruct ts as [|t ts]; [done|]. cbn in *. unfold after_pipe, after_exec in *. set_solver. }
  rewrite E. cbn [mbind outcome_bind]. rewrite (peek_false ts [124] after_pipe Hts Hh) by (by apply tok_starts). eauto.
Qed.

Lemma pipe_pipe l r : printable l -> printable r -> PE l -> PP r -> PP (PIPE l r).
Proof.
  intros Hl Hr HE HP k ts Hts Hh Hk. cbn [tokens f_pipe] in *. rewrite <- app_assoc in *. cbn [app] in *. destruct k as [|k]; [lia|]. cbn [parsepipe].
  destruct (tokens_ok l Hl) as (Hle & _). destruct (tokens_ok r Hr) as (_ & Hrp & _).
  set (rest := f_pipe (tokens r) ++ ts) in *. assert (Hrest : Forall tok_ok rest) by (apply Forall_app; done).
  destruct (HE k (Bar :: rest) ltac:(by constructor) ltac:(by left)) as (l' & E1 & V1); [lia|]. rewrite E1. cbn [mbind outcome_bind].
  rewrite peek_show by done. change (starts Bar [124]) with true. cbn iota. rewrite gettoken_show by done.
  destruct (HP k ts Hts Hh) as (r' & E2 & V2).
  { fold rest. rewrite show_app, length_app in Hk. change (length (show (Bar :: rest))) with (2 + length (show rest))%nat in Hk. lia. }
  fold rest in E2. rewrite E2. cbn [mbind outcome_bind]. eexists. split; [reflexivity|]. cbn. by rewrite V1, V2.
Qed.

Lemma parseback_show j : forall c ts n, Forall tok_ok ts -> head_in after_back ts -> (j <= n)%nat ->
  exists c', parseback n c (show (replicate j Amp ++ ts)) = Ok (c', show ts) /\ view c' = Nat.iter j BACK (view c).
Proof.
  induction j as [|j IH]; intros c ts n Hts Hh Hn.
  - exists c. split; [|done]. destruct n; cbn [parseback replicate app]; by rewrite (peek_false ts [38] after_back Hts Hh) by (by apply tok_starts).
  - destruct n as [|n]; [lia|]. cbn [replicate app parseback].
    assert (Hr : Forall tok_ok (replicate j Amp ++ ts)) by (apply Forall_app; split; [by apply Forall_replicate|done]).
    rewrite peek_show by done. change (starts Amp [38]) with true. cbn iota. rewrite gettoken_show by done.
    destruct (IH (BACK c) ts n Hts Hh ltac:(lia)) as (c' & E & V). exists c'. split; [done|]. rewrite V. cbn [view]. by rewrite Nat.iter_succ_r.
Qed.

(** A pipeline and the [&] behind it. *)
Lemma back_parse b j : printable b -> PP b -> forall k ts, Forall tok_ok ts -> head_in after_back ts ->
  (4 * length (show ((f_pipe (tokens b) ++ replicate j Amp) ++ ts)) + 3 <= k)%nat ->
  exists c', ('(c, ps) ← parsepipe k (show ((f_pipe (tokens b) ++ replicate j Amp) ++ ts)); parseback (length ps) c ps) = Ok (c', show ts) /\
    view c' = Nat.iter j BACK b.
Proof.
  intros Hb HP k ts Hts Hh Hk. rewrite <- app_assoc in *. set (rest := replicate j Amp ++ ts) in *.
  assert (Hr : Forall tok_ok rest) by (apply Forall_app; split; [by apply Forall_replicate|done]).
  destruct (HP k rest Hr) as (c1 & E1 & V1); [|lia|].
  { unfold rest. destruct j; [|by left]. destruct ts as [|t ts]; [done|]. cbn in *. unfold after_back, after_pipe in *. set_solver. }
  rewrite E1. cbn [mbind outcome_bind]. pose proof (show_length rest Hr) as Hl. unfold rest in Hl at 1. rewrite length_app, length_replicate in Hl.
  destruct (parseback_show j c1 ts (length (show rest)) Hts Hh ltac:(lia)) as (c' & E & V). fold rest in E. rewrite E. exists c'. split; [done|]. by rewrite V, V1.
Qed.

Lemma backs_spec c : let '(b, j) := backs c in
  c = Nat.iter j BACK b /\ f_back (tokens c) = f_pipe (tokens b) ++ replicate j Amp /\ (printable c -> printable b).
Proof.
  induction c as [argv|c IH f mode fd|l _ r _|l _ r _|c IH]; cbn [backs]; try (rewrite app_nil_r; done).
  destruct (backs c) as [b j]. destruct IH as (E1 & E2 & E3). cbn [tokens f_back Nat.iter]. split; [by rewrite E1 at 1|]. split; [|done].
  rewrite E2, <- app_assoc. f_equal. by rewrite replicate_S_end.
Qed.

Definition base_of (c : cmd (list Z)) : cmd (list Z) := (backs c).1.

Lemma line_single c : printable c -> PP (base_of c) -> f_line (tokens c) = f_back (tokens c) -> PL c.
Proof.
  intros Hc HP Ef k ts Hts Hh Hk. pose proof (backs_spec c) as Hs. unfold base_of in HP. destruct (backs c) as [b j]. destruct Hs as (E1 & E2 & E3). cbn [fst] in HP.
  rewrite Ef, E2 in *. destruct k as [|k]; [lia|]. cbn [parseline].
  assert (Hh' : head_in after_back ts) by (destruct ts as [|t ts]; [done|]; cbn in *; unfold after_back, after_line in *; set_solver).
  destruct (back_parse b j (E3 Hc) HP k ts Hts Hh' ltac:(lia)) as (c' & E & V).
  destruct (parsepipe k _) as [[c1 p1]|msg| |]; cbn [mbind outcome_bind] in E |- *; try done. rewrite E. cbn [mbind outcome_bind].
  rewrite (peek_false ts [59] after_line Hts Hh) by (by apply tok_starts). exists c'. split; [done|]. by rewrite V, <- E1.
Qed.

Lemma line_list l r : printable l -> printable r -> PP (base_of l) -> PL r -> PL (LIST l r).
Proof.
  intros Hl Hr HP HL k ts Hts Hh Hk. pose proof (backs_spec l) as Hs. unfold base_of in HP. destruct (backs l) as [b j]. destruct Hs as (E1 & E2 & E3). cbn [fst] in HP.
  cbn [tokens f_line] in *. rewrite E2 in *. destruct k as [|k]; [lia|]. cbn [parseline]. destruct (tokens_ok r Hr) as (_ & _ & _ & Hrl).
  set (rest := f_line (tokens r) ++ ts) in *. assert (Hrest : Forall tok_ok rest) by (apply Forall_app; done).
  replace (((f_pipe (tokens b) ++ replicate j Amp) ++ Semi :: f_line (tokens r)) ++ ts) with ((f_pipe (tokens b) ++ replicate j Amp) ++ Semi :: rest) in *
    by (unfold rest; rewrite <- !app_assoc; done).
  destruct (back_parse b j (E3 Hl) HP k (Semi :: rest) ltac:(by constructor) ltac:(by left) ltac:(lia)) as (c' & E & V).
  destruct (parsepipe k _) as [[c1 p1]|msg| |]; cbn [mbind outcome_bind] in E |- *; try done. rewrite E. cbn [mbind outcome_bind].
  rewrite peek_show by done. change (starts Semi [59]) with true. cbn iota. rewrite gettoken_show by done.
  destruct (HL k ts Hts Hh) as (r' & E5 & V5).
  { fold rest. rewrite show_app, length_app in Hk. change (length (show (Semi :: rest))) with (2 + length (show rest))%nat in Hk. lia. }
  fold rest in E5. rewrite E5. cbn [mbind outcome_bind]. eexists. split; [reflexivity|]. cbn. by rewrite V, V5, <- E1.
Qed.

Lemma peel_spec c : let '(b, rs) := peel c in
  c = rewrap b rs /\ f_exec (tokens c) = f_exec (tokens b) ++ rtoks rs /\ (printable c -> printable b /\ Forall redir_ok rs) /\
  match b with REDIR _ _ _ _ => False | _ => True end.
Proof.
  induction c as [argv|c IH f mode fd|l _ r _|l _ r _|c _]; cbn [peel]; try (rewrite app_nil_r; done).
  destruct (peel c) as [b rs]. destruct IH as (E1 & E2 & E3 & E4). split_and!; auto.
  - unfold rewrap. rewrite foldl_app. cbn. by rewrite E1 at 1.
  - cbn [tokens f_exec]. rewrite E2, rtoks_app, <- app_assoc. done.
  - cbn [printable]. intros (Hc & Hw & Hm). destruct (E3 Hc) as [Hb Hrs]. split; [done|]. apply Forall_app. split; [done|]. apply Forall_singleton. by split.
Qed.

(** All forms of a command, by induction on the command. *)
Lemma print_parse c : printable c -> PE c /\ PP c /\ PL c /\ PP (base_of c) /\ (let b := (peel c).1 in match b with EXEC _ => True | _ => PL b end).
Proof.
  induction c as [argv|c IH f mode fd|l IHl r IHr|l IHl r IHr|c IH]; intros Hc.
  - destruct (Hc) as [H1 H2]. assert (HE : PE (EXEC argv)).
    { pose proof (exec_simple argv [] H1 H2 ltac:(done)) as H. cbn [rtoks foldr] in H. rewrite app_nil_r in H. exact H. }
    assert (HP : PP (EXEC argv)) by (by apply pipe_single). split_and!; [done|done|by apply line_single|done|done].
  - destruct (Hc) as (Hc' & _). destruct (IH Hc') as (_ & _ & _ & _ & Hpl). pose proof (peel_spec (REDIR c f mode fd)) as Hs.
    assert (Epl : (peel (REDIR c f mode fd)).1 = (peel c).1) by (cbn; by destruct (peel c)). rewrite <- Epl in Hpl.
    destruct (peel (REDIR c f mode fd)) as [b rs] eqn:Ep. destruct Hs as (E1 & E2 & E3 & E4). destruct (E3 Hc) as [Hb Hrs]. cbn [fst] in *.
    assert (HE : PE (REDIR c f mode fd)).
    { unfold PE. rewrite E2. rewrite E1. destruct b as [argv|b f' m' fd'|l r|l r|b]; [apply exec_simple; [apply Hb..|done]|done|by apply (exec_block (PIPE l r))|by apply (exec_block (LIST l r))|by apply (exec_block (BACK b))]. }
    assert (HP : PP (REDIR c f mode fd)) by (by apply pipe_single). split_and!; [done|done|by apply line_single|done|exact Hpl].
  - destruct (Hc) as [Hl Hr]. destruct (IHl Hl) as (HEl & _). destruct (IHr Hr) as (_ & HPr & _).
    assert (HP : PP (PIPE l r)) by (by apply pipe_pipe). assert (HL : PL (PIPE l r)) by (by apply line_single).
    assert (HE : PE (PIPE l r)) by (by apply block_single).
    by split_and!.
  - destruct (Hc) as [Hl Hr]. destruct (IHl Hl) as (_ & _ & _ & HBl & _). destruct (IHr Hr) as (_ & _ & HLr & _).
    assert (HL : PL (LIST l r)) by (by apply line_list).
    assert (HE : PE (LIST l r)) by (by apply block_single).
    assert (HP : PP (LIST l r)) by (by apply pipe_single). by split_and!.
  - destruct (IH Hc) as (_ & _ & _ & HB & _). assert (Eb : base_of (BACK c) = base_of c) by (unfold base_of; cbn; by destruct (backs c)).
    assert (HL : PL (BACK c)) by (apply line_single; [done|by rewrite Eb|done]).
    assert (HE : PE (BACK c)) by (by apply block_single).
    assert (HP : PP (BACK c)) by (by apply pipe_single). split_and!; [done..|by rewrite Eb|done].
Qed.

(** ** What is executed *)

(** The command that [runcmd] finds: the strings are read from the line's
    buffer up to their NUL. *)
Fixpoint load (n : nat) (buf : list Z) (c : tree) : cmd (list Z) :=
  match c with
  | EXEC argv => EXEC (string_at n buf <$> argv)
  | REDIR c f mode fd => REDIR (load n buf c) (string_at n buf f) mode fd
  | PIPE l r => PIPE (load n buf l) (load n buf r)
  | LIST l r => LIST (load n buf l) (load n buf r)
  | BACK c => BACK (load n buf c)
  end.

Lemma load_view n buf c : (forall s, s ∈ spans c -> string_at n buf s = text s) -> load n buf c = view c.
Proof.
  induction c as [argv|c IH f mode fd|l IHl r IHr|l IHl r IHr|c IH]; cbn [spans load view]; intros Hs.
  - f_equal. apply list_fmap_ext. intros i s Hi. apply Hs. by apply list_elem_of_lookup_2 in Hi.
  - rewrite IH, (Hs f) by (intros; try apply Hs; set_solver). done.
  - rewrite IHl, IHr by (intros; apply Hs; set_solver). done.
  - rewrite IHl, IHr by (intros; apply Hs; set_solver). done.
  - by rewrite IH.
Qed.

Lemma show_no_nul ts : Forall tok_ok ts -> no_nul (show ts).
Proof.
  induction 1 as [|t ts Ht _ IH]; [by constructor|]. cbn [show foldr]. apply Forall_app. split; [|by constructor].
  destruct t; cbn; try (repeat constructor; lia). destruct Ht as [_ Hw]. apply (Forall_impl _ _ _ Hw). by intros c (_ & _ & Hc).
Qed.

(** The programs of a command with their standard descriptors; [p] numbers
    the pipes. *)
Fixpoint wiring (opens : list Z -> Z -> bool) (c : cmd (list Z)) (i o e : desc) (p : nat) : list (list (list Z) * (desc * desc * desc)) * nat :=
  match c with
  | EXEC argv => (match argv with [] => [] | _ => [(argv, (i, o, e))] end, p)
  | REDIR c f mode fd =>
      if opens f mode then
        if fd =? 0 then wiring opens c (Opened f mode) o e p else wiring opens c i (Opened f mode) e p
      else ([], p)
  | LIST l r =>
      let '(x, p) := wiring opens l i o e p in
      let '(y, p) := wiring opens r i o e p in (x ++ y, p)
  | PIPE l r =>
      let '(x, p') := wiring opens l i (WriteEnd p) e (S p) in
      let '(y, p') := wiring opens r (ReadEnd p) o e p' in (x ++ y, p')
  | BACK c => wiring opens c i o e p
  end.

(** A process with the three standard descriptors open and the others of
    the [NOFILE] (16) free. *)
Definition fds (d : desc * desc * desc) : list (option desc) :=
  [Some d.1.1; Some d.1.2; Some d.2] ++ replicate 13 None.

Lemma run_wiring opens c : printable c -> forall i o e p,
  runcmd opens c (fds (i, o, e)) p = (prod_map id fds <$> (wiring opens c i o e p).1, (wiring opens c i o e p).2).
Proof.
  induction c as [argv|c IH f mode fd|l IHl r IHr|l IHl r IHr|c IH]; cbn [printable runcmd wiring]; intros Hc i o e p.
  - by destruct argv.
  - destruct Hc as (Hc & _ & Hm). destruct (opens f mode); [|done].
    destruct Hm as [[_ ->]|Hm]; [exact (IH Hc (Opened f mode) o e p)|].
    assert (fd = 1) as -> by lia. exact (IH Hc i (Opened f mode) e p).
  - destruct Hc as [Hl Hr]. change (pipe_ p (fds (i, o, e))) with (Some (3%nat, 4%nat, <[4%nat := Some (WriteEnd p)]> (<[3%nat := Some (ReadEnd p)]> (fds (i, o, e))))).
    cbn iota beta. change (close_ 4 _) with (fds (i, WriteEnd p, e)) at 1. rewrite (IHl Hl).
    destruct (wiring opens l i (WriteEnd p) e (S p)) as [x p1]. cbn [fst snd]. change (close_ 4 _) with (fds (ReadEnd p, o, e)). rewrite (IHr Hr).
    destruct (wiring opens r (ReadEnd p) o e p1) as [y p2]. cbn [fst snd]. by rewrite fmap_app.
  - destruct Hc as [Hl Hr]. rewrite (IHl Hl). destruct (wiring opens l i o e p) as [x p1]. cbn [fst snd]. rewrite (IHr Hr).
    destruct (wiring opens r i o e p1) as [y p2]. cbn [fst snd]. by rewrite fmap_app.
  - by apply IH.
Qed.

(** C37: a command line means what it says.  Every command whose words are
    made of regular characters and that has at most nine arguments per
    program, printed with the operators and the parentheses that its shape
    needs, is parsed, and the tree that [parsecmd] leaves in the line's buffer,
    with the NULs that [nulterminate] stored, is the command.  A process that runs it with
    the three standard descriptors executes exactly its programs, each
    with three descriptors: the ends of the pipes and the files of the
    redirections around it, and no other end of a pipe is left open. *)
Theorem sh_runs_the_line opens c i o e p : printable c ->
  exists t buf, parsecmd (print c) = Ok (t, buf) /\ load (length (print c)) buf t = c /\
    runcmd opens (load (length (print c)) buf t) (fds (i, o, e)) p =
      (prod_map id fds <$> (wiring opens c i o e p).1, (wiring opens c i o e p).2).
Proof.
  intros Hc. destruct (print_parse c Hc) as (_ & _ & HL & _). destruct (tokens_ok c Hc) as (_ & _ & _ & Hok).
  pose proof (parsecmd_total (print c) (show_no_nul _ Hok)) as Ht. unfold print in *.
  destruct (HL (4 * length (show (f_line (tokens c))) + 4)%nat [] ltac:(constructor) I) as (t & E & V); [by rewrite app_nil_r|]. rewrite app_nil_r in E.
  unfold parsecmd in *. rewrite E in *. cbn [mbind outcome_bind show foldr] in *. rewrite peek_end in *. destruct Ht as [_ Hs].
  eexists t, _. split; [reflexivity|]. rewrite (load_view _ _ t Hs), V. split; [done|]. by apply run_wiring.
Qed.

(** [(ls | wc) > f & cat < f] *)
Definition sample : cmd (list Z) :=
  LIST (BACK (REDIR (PIPE (EXEC [[108; 115]]) (EXEC [[119; 99]])) [102] 1537 1)) (REDIR (EXEC [[99; 97; 116]]) [102] 0 0).

Lemma sh_runs_the_line_witness : print sample <> [] /\
  exists t buf, parsecmd (print sample) = Ok (t, buf) /\ load (length (print sample)) buf t = sample /\
    runcmd (fun _ _ => true) (load (length (print sample)) buf t) (fds (Std 0, Std 1, Std 2)) 0 =
      (prod_map id fds <$> (wiring (fun _ _ => true) sample (Std 0) (Std 1) (Std 2) 0).1, (wiring (fun _ _ => true) sample (Std 0) (Std 1) (Std 2) 0).2).
Proof.
  split; [done|]. apply (sh_runs_the_line (fun _ _ => true) sample (Std 0) (Std 1) (Std 2) 0). cbn.
  assert (Hw : forall w : list Z, bool_decide (w <> [] /\ Forall regular w) = true -> word_ok w) by (intros w Hb; by apply bool_decide_eq_true in Hb).
  repeat match goal with |- _ /\ _ => split | |- Forall _ _ => constructor | |- word_ok _ => apply Hw; vm_compute; reflexivity | |- (_ < _)%nat => unfold MAXARGS; lia end; lia.
Defined.
