(* ===== verification/Virtio.v ===== *)
(** * kernel/virtio_disk.c: the disk driver

    The driver and the device share the table of descriptors, the two rings,
    the headers of the requests and the status bytes.  An array is a function
    of its index; an address that is handed to the device is the object that it
    points to ([dma]).  [virtio_disk_rw] is cut where it sleeps and where the
    device can see what it did; [virtio_disk_intr] is cut at every iteration
    of its loop.  The device fetches requests in the order of the ring, carries
    them out and reports them in any order, at any moment, also in the middle
    of the driver's critical sections.  It follows the descriptors that it
    finds in memory as chapters 2.6 and 5.2 of the VIRTIO specification
    prescribe; what the specification does not allow stops the model.  The
    device is bound to look at the ring only after the driver has written
    [QUEUE_NOTIFY], until it has caught up, and it signals an interrupt only
    when the last one has been acknowledged ([INTERRUPT_STATUS] is zero).  That
    it may also look unasked, and that the handler may also run without a
    cause, are steps of the environment: safety is shown with them, progress
    without them. *)
From S2P Require Import Prelude Cstring Riscv Kalloc Block.

Module Virtio.

Definition NUM : nat := 8.
Definition VRING_DESC_F_NEXT : Z := 1.
Definition VRING_DESC_F_WRITE : Z := 2.
Definition VIRTIO_BLK_T_IN : Z := 0.
Definition VIRTIO_BLK_T_OUT : Z := 1.

(** The registers of the device, and the bits of its status and features. *)
Definition VIRTIO_MMIO_MAGIC_VALUE : Z := 0x000.
Definition VIRTIO_MMIO_VERSION : Z := 0x004.
Definition VIRTIO_MMIO_DEVICE_ID : Z := 0x008.
Definition VIRTIO_MMIO_VENDOR_ID : Z := 0x00c.
Definition VIRTIO_MMIO_DEVICE_FEATURES : Z := 0x010.
Definition VIRTIO_MMIO_DRIVER_FEATURES : Z := 0x020.
Definition VIRTIO_MMIO_QUEUE_SEL : Z := 0x030.
Definition VIRTIO_MMIO_QUEUE_NUM_MAX : Z := 0x034.
Definition VIRTIO_MMIO_QUEUE_NUM : Z := 0x038.
Definition VIRTIO_MMIO_QUEUE_READY : Z := 0x044.
Definition VIRTIO_MMIO_QUEUE_NOTIFY : Z := 0x050.
Definition VIRTIO_MMIO_INTERRUPT_STATUS : Z := 0x060.
Definition VIRTIO_MMIO_INTERRUPT_ACK : Z := 0x064.
Definition VIRTIO_MMIO_STATUS : Z := 0x070.
Definition VIRTIO_MMIO_QUEUE_DESC_LOW : Z := 0x080.
Definition VIRTIO_MMIO_QUEUE_DESC_HIGH : Z := 0x084.
Definition VIRTIO_MMIO_DRIVER_DESC_LOW : Z := 0x090.
Definition VIRTIO_MMIO_DRIVER_DESC_HIGH : Z := 0x094.
Definition VIRTIO_MMIO_DEVICE_DESC_LOW : Z := 0x0a0.
Definition VIRTIO_MMIO_DEVICE_DESC_HIGH : Z := 0x0a4.
Definition VIRTIO_CONFIG_S_ACKNOWLEDGE : Z := 1.
Definition VIRTIO_CONFIG_S_DRIVER : Z := 2.
Definition VIRTIO_CONFIG_S_DRIVER_OK : Z := 4.
Definition VIRTIO_CONFIG_S_FEATURES_OK : Z := 8.
Definition VIRTIO_BLK_F_RO : Z := 5.
Definition VIRTIO_BLK_F_SCSI : Z := 7.
Definition VIRTIO_BLK_F_CONFIG_WCE : Z := 11.
Definition VIRTIO_BLK_F_MQ : Z := 12.
Definition VIRTIO_F_ANY_LAYOUT : Z := 27.
Definition VIRTIO_RING_F_INDIRECT_DESC : Z := 28.
Definition VIRTIO_RING_F_EVENT_IDX : Z := 29.

(** The addresses that descriptors hold: [&disk.ops[i]], [b->data] and
    [&disk.info[i].status]. *)
Inductive dma := Null | Ops (i : nat) | Data (b : nat) | Status (i : nat).

Record virtq_desc := Desc { addr : dma; len : Z; flags : Z; next : nat }.
Record virtio_blk_req := Req { type : Z; reserved : Z; sector : Z }.
(** An element of [disk.info]; [None] is the null pointer. *)
Record op_info := Info { info_b : option nat; status : Z }.
(** The fields of [struct buf] that the driver uses. *)
Record vbuf := Vbuf { blockno : Z; data : list Z; bdisk : Z }.

(** [struct disk], with [struct virtq_avail] and [struct virtq_used]. *)
Record disk := Disk {
  desc : nat -> virtq_desc;
  avail_idx : Z;
  avail_ring : nat -> nat;
  dused_idx : Z; (* disk.used->idx *)
  dused_ring : nat -> nat;
  free : nat -> bool;
  used_idx : Z;
  info : nat -> op_info;
  ops : nat -> virtio_blk_req
}.

Definition set_desc i v d := Disk (upd (desc d) i v) (avail_idx d) (avail_ring d) (dused_idx d) (dused_ring d) (free d) (used_idx d) (info d) (ops d).
Definition set_avail i r d := Disk (desc d) i r (dused_idx d) (dused_ring d) (free d) (used_idx d) (info d) (ops d).
Definition set_dused i r d := Disk (desc d) (avail_idx d) (avail_ring d) i r (free d) (used_idx d) (info d) (ops d).
Definition set_free i v d := Disk (desc d) (avail_idx d) (avail_ring d) (dused_idx d) (dused_ring d) (upd (free d) i v) (used_idx d) (info d) (ops d).
Definition set_used_idx v d := Disk (desc d) (avail_idx d) (avail_ring d) (dused_idx d) (dused_ring d) (free d) v (info d) (ops d).
Definition set_info i v d := Disk (desc d) (avail_idx d) (avail_ring d) (dused_idx d) (dused_ring d) (free d) (used_idx d) (upd (info d) i v) (ops d).
Definition set_ops i v d := Disk (desc d) (avail_idx d) (avail_ring d) (dused_idx d) (dused_ring d) (free d) (used_idx d) (info d) (upd (ops d) i v).

(** Where a process is in [virtio_disk_rw(b, write)], and whether it sleeps:
    before it has descriptors (it sleeps on [&disk.free[0]]), behind the
    entry in the ring, and in the loop that waits for the device (it sleeps
    on [b]). *)
Inductive pc :=
  | Idle
  | Start (b : nat) (write : bool) (asleep : bool)
  | Ready (b : nat) (write : bool) (idx : nat * nat * nat)
  | Wait (b : nat) (write : bool) (idx : nat * nat * nat) (asleep : bool).

(** Who holds [disk.vdisk_lock]. *)
Inductive owner := Proc (p : nat) | Intr.

(** The device's side of the registers: whether it has been notified and has
    not yet found the ring empty, what [INTERRUPT_STATUS] reads, and whether
    it has signalled an interrupt that has not been taken. *)
Record mmio := Mmio { notified : bool; istatus : Z; irq : bool }.

(** The memory, the processes, the lock, and the device: how far it has read
    the ring, the requests it works on, with whether the data has been
    transferred, its sectors and its registers. *)
Record sys := Sys {
  dk : disk;
  bufs : nat -> vbuf;
  procs : list pc;
  holder : option owner;
  seen : Z;
  inflight : list (nat * bool);
  sectors : Z -> list Z;
  io : mmio
}.

Definition set_dk v s := Sys v (bufs s) (procs s) (holder s) (seen s) (inflight s) (sectors s) (io s).
Definition set_bufs v s := Sys (dk s) v (procs s) (holder s) (seen s) (inflight s) (sectors s) (io s).
Definition set_procs v s := Sys (dk s) (bufs s) v (holder s) (seen s) (inflight s) (sectors s) (io s).
Definition set_holder v s := Sys (dk s) (bufs s) (procs s) v (seen s) (inflight s) (sectors s) (io s).
Definition set_seen v s := Sys (dk s) (bufs s) (procs s) (holder s) v (inflight s) (sectors s) (io s).
Definition set_inflight v s := Sys (dk s) (bufs s) (procs s) (holder s) (seen s) v (sectors s) (io s).
Definition set_sectors v s := Sys (dk s) (bufs s) (procs s) (holder s) (seen s) (inflight s) v (io s).
Definition set_io v s := Sys (dk s) (bufs s) (procs s) (holder s) (seen s) (inflight s) (sectors s) v.
Definition set_bdisk v (b : vbuf) := Vbuf (blockno b) (data b) v.
Definition set_data v (b : vbuf) := Vbuf (blockno b) v (bdisk b).

(** What a write of [v] to register [r] does: a notification of queue 0, or the
    acknowledgement of the causes in [v]. *)
Definition reg_write (r v : Z) (m : mmio) : mmio :=
  if r =? VIRTIO_MMIO_QUEUE_NOTIFY then (if v =? 0 then Mmio true (istatus m) (irq m) else m)
  else if r =? VIRTIO_MMIO_INTERRUPT_ACK then Mmio (notified m) (Z.land (istatus m) (Z.lnot v)) (irq m)
  else m.
Definition reg_read (r : Z) (m : mmio) : Z := if r =? VIRTIO_MMIO_INTERRUPT_STATUS then istatus m else 0.

(** [wakeup(&disk.free[0])] and [wakeup(b)]. *)
Definition wake_free (c : pc) : pc := match c with Start b w _ => Start b w false | _ => c end.
Definition wake_buf (b : nat) (c : pc) : pc :=
  match c with Wait b' w idx z => Wait b' w idx (if decide (b' = b) then false else z) | _ => c end.

(** ** Descriptors *)

(** The loop of [alloc_desc] from [i], with [k] descriptors left; [None] is
    the result -1. *)
Fixpoint alloc_loop (k i : nat) (d : disk) : option nat * disk :=
  match k with
  | O => (None, d)
  | S k' => if free d i then (Some i, set_free i false d) else alloc_loop k' (S i) d
  end.

Definition alloc_desc (d : disk) : option nat * disk := alloc_loop NUM 0 d.

Definition free_desc (i : nat) (s : sys) : outcome sys :=
  if (NUM <=? i)%nat then Panic "free_desc 1"
  else if free (dk s) i then Panic "free_desc 2"
  else
    let d := set_desc i (Desc Null 0 0 0) (dk s) in
    let d := set_free i true d in
    Ok (set_procs (wake_free <$> procs s) (set_dk d s)).

(** A chain has at most [NUM] descriptors. *)
Fixpoint free_chain (k : nat) (i : nat) (s : sys) : outcome sys :=
  match k with
  | O => NoFuel
  | S k' =>
      let flag := flags (desc (dk s) i) in
      let nxt := next (desc (dk s) i) in
      s ← free_desc i s;
      if z2b (Z.land flag VRING_DESC_F_NEXT) then free_chain k' nxt s else Ok s
  end.

Fixpoint free_all (l : list nat) (s : sys) : outcome sys :=
  match l with
  | [] => Ok s
  | i :: l' => s ← free_desc i s; free_all l' s
  end.

(** The loop of [alloc3_desc]; [idx] are the descriptors taken so far. *)
Fixpoint alloc3_loop (k : nat) (idx : list nat) (s : sys) : outcome (option (list nat) * sys) :=
  match k with
  | O => Ok (Some idx, s)
  | S k' =>
      match alloc_desc (dk s) with
      | (Some i, d) => alloc3_loop k' (idx ++ [i]) (set_dk d s)
      | (None, d) => s ← free_all idx (set_dk d s); Ok (None, s)
      end
  end.

Definition alloc3_desc (s : sys) : outcome (option (list nat) * sys) := alloc3_loop 3 [] s.

(** ** [virtio_disk_rw] *)

(** The three descriptors, the record of the request and the ring's entry. *)
Definition format (b : nat) (write : bool) (i0 i1 i2 : nat) (s : sys) : sys :=
  let sec := u32 (blockno (bufs s b) * (Z.of_nat BSIZE / 512)) in
  let d := dk s in
  let d := set_ops i0 (Req (if write then VIRTIO_BLK_T_OUT else VIRTIO_BLK_T_IN) 0 sec) d in
  let d := set_desc i0 (Desc (Ops i0) 16 VRING_DESC_F_NEXT i1) d in
  let d := set_desc i1 (Desc (Data b) (Z.of_nat BSIZE) (Z.lor (if write then 0 else VRING_DESC_F_WRITE) VRING_DESC_F_NEXT) i2) d in
  let d := set_info i0 (Info (info_b (info d i0)) 255) d in
  let d := set_desc i2 (Desc (Status i0) 1 VRING_DESC_F_WRITE 0) d in
  let d := set_info i0 (Info (Some b) (status (info d i0))) d in
  let d := set_avail (avail_idx d) (upd (avail_ring d) (Z.to_nat (avail_idx d mod Z.of_nat NUM)) i0) d in
  set_bufs (upd (bufs s) b (set_bdisk 1 (bufs s b))) (set_dk d s).

(** From the call, or a wake-up, to the sleep or to the entry in the ring. *)
Definition rw_start (p b : nat) (write : bool) (s : sys) : outcome sys :=
  '(r, s) ← alloc3_desc s;
  match r with
  | Some [i0; i1; i2] =>
      let s := format b write i0 i1 i2 s in
      Ok (set_holder (Some (Proc p)) (set_procs (<[p := Ready b write (i0, i1, i2)]> (procs s)) s))
  | _ => Ok (set_procs (<[p := Start b write true]> (procs s)) s)
  end.

(** [disk.avail->idx += 1] and the notification.  The device may look at the
    ring in between, but it may look unasked at any time, so that is a look
    behind the notification. *)
Definition rw_publish (p b : nat) (write : bool) (idx : nat * nat * nat) (s : sys) : sys :=
  let d := dk s in
  let s := set_dk (set_avail (u16 (avail_idx d + 1)) (avail_ring d) d) s in
  let s := set_io (reg_write VIRTIO_MMIO_QUEUE_NOTIFY 0 (io s)) s in
  set_procs (<[p := Wait b write idx false]> (procs s)) s.

(** The test of the loop and, at its end, the rest. *)
Definition rw_finish (p b : nat) (write : bool) (idx : nat * nat * nat) (s : sys) : outcome sys :=
  if bdisk (bufs s b) =? 1 then Ok (set_holder None (set_procs (<[p := Wait b write idx true]> (procs s)) s))
  else
    let i0 := idx.1.1 in
    let d := set_info i0 (Info None (status (info (dk s) i0))) (dk s) in
    s ← free_chain NUM i0 (set_dk d s);
    Ok (set_holder None (set_procs (<[p := Idle]> (procs s)) s)).

(** ** [virtio_disk_intr] *)

(** The interrupt is taken, the lock is acquired, and what
    [INTERRUPT_STATUS] reads is acknowledged. *)
Definition intr_begin (s : sys) : sys :=
  let s := set_holder (Some Intr) s in
  let s := set_io (Mmio (notified (io s)) (istatus (io s)) false) s in
  set_io (reg_write VIRTIO_MMIO_INTERRUPT_ACK (Z.land (reg_read VIRTIO_MMIO_INTERRUPT_STATUS (io s)) 0x3) (io s)) s.

(** An iteration of its loop. *)
Definition intr_one (s : sys) : outcome sys :=
  let d := dk s in
  let id := dused_ring d (Z.to_nat (used_idx d mod Z.of_nat NUM)) in
  if negb (status (info d id) =? 0) then Panic "virtio_disk_intr status"
  else
    match info_b (info d id) with
    | None => Panic "null pointer"
    | Some b =>
        let s := set_bufs (upd (bufs s) b (set_bdisk 0 (bufs s b))) s in
        let s := set_procs (wake_buf b <$> procs s) s in
        Ok (set_dk (set_used_idx (u16 (used_idx d + 1)) d) s)
    end.

(** ** The device *)

(** The request whose chain starts at [h]: the direction, the first sector,
    the number of sectors, the buffer and the place of the status. *)
Definition request (d : disk) (h : nat) : outcome (bool * Z * nat * nat * nat) :=
  let d0 := desc d h in
  let d1 := desc d (next d0) in
  let d2 := desc d (next d1) in
  match addr d0, addr d1, addr d2 with
  | Ops i, Data b, Status j =>
      let r := ops d i in
      let fw := VRING_DESC_F_WRITE in
      let fn := VRING_DESC_F_NEXT in
      if (flags d0 =? fn) && (len d0 =? 16) && (len d1 mod 512 =? 0) && (flags d2 =? fw) && (len d2 =? 1) then
        if (type r =? VIRTIO_BLK_T_OUT) && (flags d1 =? fn) then Ok (true, sector r, Z.to_nat (len d1 / 512), b, j)
        else if (type r =? VIRTIO_BLK_T_IN) && (flags d1 =? Z.lor fw fn) then Ok (false, sector r, Z.to_nat (len d1 / 512), b, j)
        else Panic "device: request"
      else Panic "device: descriptors"
  | _, _, _ => Panic "device: address"
  end.

Definition read_sectors (m : Z -> list Z) (sec : Z) (n : nat) : list Z := concat ((fun i => m (sec + Z.of_nat i)) <$> seq 0 n).
Definition write_sectors (m : Z -> list Z) (sec : Z) (n : nat) (l : list Z) : Z -> list Z :=
  fun x => if (sec <=? x) && (x <? sec + Z.of_nat n) then take 512 (drop (512 * Z.to_nat (x - sec)) l) else m x.

(** The device has caught up with the ring. *)
Definition dev_idle (s : sys) : sys := set_io (Mmio false (istatus (io s)) (irq (io s))) s.

(** An entry of the used ring is a cause (bit 0); it is signalled unless an
    earlier one has not been acknowledged. *)
Definition dev_signal (m : mmio) : mmio := Mmio (notified m) (Z.lor (istatus m) 1) (irq m || (istatus m =? 0)).

Definition dev_fetch (s : sys) : sys :=
  let h := avail_ring (dk s) (Z.to_nat (seen s mod Z.of_nat NUM)) in
  set_seen (u16 (seen s + 1)) (set_inflight (inflight s ++ [(h, false)]) s).

(** The transfer of request [k] of those in flight. *)
Definition dev_transfer (k h : nat) (s : sys) : outcome sys :=
  '(w, sec, n, b, _) ← request (dk s) h;
  let s := set_inflight (<[k := (h, true)]> (inflight s)) s in
  Ok (if (w : bool) then set_sectors (write_sectors (sectors s) sec n (data (bufs s b))) s
      else set_bufs (upd (bufs s) b (set_data (read_sectors (sectors s) sec n) (bufs s b))) s).

Definition dev_complete (k h : nat) (s : sys) : outcome sys :=
  '(_, _, _, _, j) ← request (dk s) h;
  let d := dk s in
  let d := set_info j (Info (info_b (info d j)) 0) d in
  let d := set_dused (u16 (dused_idx d + 1)) (upd (dused_ring d) (Z.to_nat (dused_idx d mod Z.of_nat NUM)) h) d in
  Ok (set_inflight (delete k (inflight s)) (set_io (dev_signal (io s)) (set_dk d s))).

(** ** The system *)

Inductive sys_step (s : sys) : outcome sys -> Prop :=
  | step_start p b w : procs s !! p = Some (Start b w false) -> holder s = None -> sys_step s (rw_start p b w s)
  | step_publish p b w idx : procs s !! p = Some (Ready b w idx) -> holder s = Some (Proc p) -> sys_step s (Ok (rw_publish p b w idx s))
  | step_finish p b w idx : procs s !! p = Some (Wait b w idx false) -> holder s = None \/ holder s = Some (Proc p) -> sys_step s (rw_finish p b w idx s)
  | step_intr : irq (io s) = true -> holder s = None -> sys_step s (Ok (intr_begin s))
  | step_intr_one : holder s = Some Intr -> used_idx (dk s) <> dused_idx (dk s) -> sys_step s (intr_one s)
  | step_intr_end : holder s = Some Intr -> used_idx (dk s) = dused_idx (dk s) -> sys_step s (Ok (set_holder None s))
  | step_fetch : notified (io s) = true -> seen s <> avail_idx (dk s) -> sys_step s (Ok (dev_fetch s))
  | step_idle : notified (io s) = true -> seen s = avail_idx (dk s) -> sys_step s (Ok (dev_idle s))
  | step_transfer k h : inflight s !! k = Some (h, false) -> sys_step s (dev_transfer k h s)
  | step_complete k h : inflight s !! k = Some (h, true) -> sys_step s (dev_complete k h s).

Definition buf_of (c : pc) : option nat :=
  match c with Idle => None | Start b _ _ | Ready b _ _ | Wait b _ _ _ => Some b end.

Definition busy (b : nat) (s : sys) : Prop := exists p c, procs s !! p = Some c /\ buf_of c = Some b.

(** The callers hold the buffer's sleep lock: a buffer is in one call at a
    time, and its contents and block change only outside of calls.  The device
    may look at the ring without being notified, and the handler may run
    without a cause. *)
Inductive env_step (s : sys) : sys -> Prop :=
  | step_call p b w : procs s !! p = Some Idle -> ~ busy b s -> env_step s (set_procs (<[p := Start b w false]> (procs s)) s)
  | step_client b bn l : ~ busy b s -> 0 <= bn < 2147483648 -> length l = BSIZE ->
      env_step s (set_bufs (upd (bufs s) b (Vbuf bn l (bdisk (bufs s b)))) s)
  | step_poll : seen s <> avail_idx (dk s) -> env_step s (dev_fetch s)
  | step_spurious : holder s = None -> env_step s (intr_begin s).

Inductive step (s s' : sys) : Prop :=
  | by_sys : sys_step s (Ok s') -> step s s'
  | by_env : env_step s s' -> step s s'.

(** ** [virtio_disk_init] *)

(** The loop that marks the descriptors unused. *)
Fixpoint free_init (k i : nat) (d : disk) : disk :=
  match k with
  | O => d
  | S k' => free_init k' (S i) (set_free i true d)
  end.

(** Static data and the pages of the rings are zero. *)
Definition zero_disk : disk :=
  Disk (fun _ => Desc Null 0 0 0) 0 (fun _ => 0%nat) 0 (fun _ => 0%nat) (fun _ => false) 0 (fun _ => Info None 0) (fun _ => Req 0 0 0).

(** The features the driver does not want, in the order of the assignments. *)
Definition refused : list Z :=
  [VIRTIO_BLK_F_RO; VIRTIO_BLK_F_SCSI; VIRTIO_BLK_F_CONFIG_WCE; VIRTIO_BLK_F_MQ; VIRTIO_F_ANY_LAYOUT; VIRTIO_RING_F_EVENT_IDX; VIRTIO_RING_F_INDIRECT_DESC].
Definition negotiate (features : Z) : Z := foldl (fun f n => Z.land f (Z.lnot (Z.shiftl 1 n))) features refused.

(** The writes of the three addresses of 64 bits in halves. *)
Definition write64 (lo hi v : Z) : list (Z * Z) := [(lo, u32 v); (hi, u32 (Z.shiftr v 32))].

(** [rd] gives what the device answers to a read of a register, [accept] the
    status it has after the last write of the status; the result has the
    writes to registers, in order, and the addresses of the rings. *)
Definition virtio_disk_init (rd accept : Z -> Z) (s : phys) : outcome (list (Z * Z) * (Z * Z * Z) * phys * disk) :=
  if negb (rd VIRTIO_MMIO_MAGIC_VALUE =? 0x74726976) || negb (rd VIRTIO_MMIO_VERSION =? 2) || negb (rd VIRTIO_MMIO_DEVICE_ID =? 2) ||
     negb (rd VIRTIO_MMIO_VENDOR_ID =? 0x554d4551) then Panic "could not find virtio disk"
  else
    let status := 0 in
    let w := [(VIRTIO_MMIO_STATUS, status)] in
    let status := Z.lor status VIRTIO_CONFIG_S_ACKNOWLEDGE in
    let w := w ++ [(VIRTIO_MMIO_STATUS, status)] in
    let status := Z.lor status VIRTIO_CONFIG_S_DRIVER in
    let w := w ++ [(VIRTIO_MMIO_STATUS, status)] in
    let features := negotiate (rd VIRTIO_MMIO_DEVICE_FEATURES) in
    let w := w ++ [(VIRTIO_MMIO_DRIVER_FEATURES, u32 features)] in
    let status := Z.lor status VIRTIO_CONFIG_S_FEATURES_OK in
    let w := w ++ [(VIRTIO_MMIO_STATUS, status)] in
    let status := accept status in
    if negb (z2b (Z.land status VIRTIO_CONFIG_S_FEATURES_OK)) then Panic "virtio disk FEATURES_OK unset"
    else
      let w := w ++ [(VIRTIO_MMIO_QUEUE_SEL, 0)] in
      if z2b (rd VIRTIO_MMIO_QUEUE_READY) then Panic "virtio disk should not be ready"
      else
        let max := rd VIRTIO_MMIO_QUEUE_NUM_MAX in
        if max =? 0 then Panic "virtio disk has no queue 0"
        else if max <? Z.of_nat NUM then Panic "virtio disk max queue too short"
        else
          let '(pdesc, s) := kalloc s in
          let '(pavail, s) := kalloc s in
          let '(pused, s) := kalloc s in
          if (pdesc =? 0) || (pavail =? 0) || (pused =? 0) then Panic "virtio disk kalloc"
          else
            let m := memset (pmem s) pdesc 0 PGSIZE in
            let m := memset m pavail 0 PGSIZE in
            let m := memset m pused 0 PGSIZE in
            let w := w ++ [(VIRTIO_MMIO_QUEUE_NUM, Z.of_nat NUM)] in
            let w := w ++ write64 VIRTIO_MMIO_QUEUE_DESC_LOW VIRTIO_MMIO_QUEUE_DESC_HIGH pdesc in
            let w := w ++ write64 VIRTIO_MMIO_DRIVER_DESC_LOW VIRTIO_MMIO_DRIVER_DESC_HIGH pavail in
            let w := w ++ write64 VIRTIO_MMIO_DEVICE_DESC_LOW VIRTIO_MMIO_DEVICE_DESC_HIGH pused in
            let w := w ++ [(VIRTIO_MMIO_QUEUE_READY, 1)] in
            let status := Z.lor status VIRTIO_CONFIG_S_DRIVER_OK in
            let w := w ++ [(VIRTIO_MMIO_STATUS, status)] in
            Ok (w, (pdesc, pavail, pused), Phys m (freelist s), free_init NUM 0 zero_disk).

(** The system after it. *)
Definition boot (n : nat) (bs : nat -> vbuf) (m : Z -> list Z) : sys := Sys (free_init NUM 0 zero_disk) bs (replicate n Idle) None 0 [] m (Mmio false 0 false).

End Virtio.
