(* ===== verification/VirtioInv.v ===== *)
(** * Lemmas on the disk driver: descriptors, rings and the invariant *)
From stdpp Require Import list.
From S2P Require Import Prelude Block Virtio.

Import Virtio.

(** ** Rings *)

Definition slot (x : Z) : nat := Z.to_nat (x mod Z.of_nat NUM).
Definition window (ring : nat -> nat) (a n : Z) : list nat := (fun k => ring (slot (a + k))) <$> seqZ 0 n.

Lemma slot_u16 x y : slot (u16 x + y) = slot (x + y).
Proof. unfold slot, u16, NUM. f_equal. zlia. Qed.

Lemma window_u16 ring a n : window ring (u16 a) n = window ring a n.
Proof. apply list_fmap_ext. intros i k _. by rewrite slot_u16. Qed.

Lemma window_snoc ring a n : 0 <= n -> window ring a (n + 1) = window ring a n ++ [ring (slot (a + n))].
Proof. intros Hn. unfold window. rewrite seqZ_app by lia. by rewrite fmap_app. Qed.

Lemma window_cons ring a n : 0 < n -> window ring a n = ring (slot a) :: window ring (a + 1) (n - 1).
Proof.
  intros Hn. unfold window. rewrite seqZ_cons by lia. cbn [fmap list_fmap]. rewrite Z.add_0_r. f_equal.
  replace (Z.pred n) with (n - 1) by lia. apply list_eq. intros i. rewrite !list_lookup_fmap.
  destruct (decide (Z.of_nat i < n - 1)).
  - rewrite !lookup_seqZ_lt by lia. cbn. do 2 f_equal. unfold slot. do 2 f_equal. lia.
  - rewrite !lookup_seqZ_ge by lia. done.
Qed.

Lemma window_write ring a n v : 0 <= n < 8 -> window (upd ring (slot (a + n)) v) a n = window ring a n.
Proof.
  intros Hn. apply list_fmap_ext. intros i k Hk. apply lookup_seqZ in Hk as [-> Hk]. rewrite upd_ne; [done|].
  unfold slot, NUM. zlia.
Qed.

Lemma window_length ring a n : 0 <= n -> Z.of_nat (length (window ring a n)) = n.
Proof. intros. unfold window. rewrite length_fmap, length_seqZ. lia. Qed.

(** ** Allocation of descriptors *)

Lemma alloc_loop_spec k : forall i d,
  match alloc_loop k i d with
  | (Some j, d') => (i <= j < i + k)%nat /\ free d j = true /\ d' = set_free j false d
  | (None, d') => d' = d /\ forall j, (i <= j < i + k)%nat -> free d j = false
  end.
Proof.
  induction k as [|k IH]; intros i d; cbn [alloc_loop]; [split; [done|lia]|]. destruct (free d i) eqn:E; [split_and!; [lia..|done|done]|].
  specialize (IH (S i) d). destruct (alloc_loop k (S i) d) as [[j|] d'].
  - destruct IH as (H1 & H2 & H3). split_and!; [lia..|done|done].
  - destruct IH as [H1 H2]. split; [done|]. intros j Hj. destruct (decide (j = i)) as [->|]; [done|]. apply H2. lia.
Qed.

(** The states that failed allocations leave: only free descriptors, and
    sleeping processes, are different. *)
Record retried (s s' : sys) : Prop := {
  rt_desc : forall i, free (dk s) i = false -> desc (dk s') i = desc (dk s) i;
  rt_free : forall i, free (dk s') i = free (dk s) i;
  rt_rest : exists de fr, s' = Sys (Disk de (avail_idx (dk s)) (avail_ring (dk s)) (dused_idx (dk s)) (dused_ring (dk s)) fr (used_idx (dk s)) (info (dk s)) (ops (dk s)))
    (bufs s) (procs s') (holder s) (seen s) (inflight s) (sectors s) (io s);
  rt_procs : procs s' = procs s \/ procs s' = wake_free <$> procs s
}.

Lemma wake_free_idem (l : list pc) : wake_free <$> (wake_free <$> l) = wake_free <$> l.
Proof. rewrite <- list_fmap_compose. apply list_fmap_ext. by intros i [] _. Qed.

Definition took (l : list nat) (d : disk) : disk := foldl (fun d i => set_free i false d) d l.

Lemma took_free l : forall d i, free (took l d) i = if decide (i ∈ l) then false else free d i.
Proof.
  induction l as [|j l IH]; intros d i; cbn [took foldl]; [by rewrite decide_False by set_solver|]. fold (took l (set_free j false d)).
  rewrite IH. cbn. unfold upd. repeat case_decide; set_solver.
Qed.

Lemma took_rest l : forall d, exists fr, took l d = Disk (desc d) (avail_idx d) (avail_ring d) (dused_idx d) (dused_ring d) fr (used_idx d) (info d) (ops d).
Proof.
  induction l as [|j l IH]; intros d; cbn [took foldl]; [exists (free d); by destruct d|]. fold (took l (set_free j false d)).
  destruct (IH (set_free j false d)) as [fr E]. exists fr. rewrite E. by destruct d.
Qed.

(** Freeing again what was taken. *)
Lemma free_all_spec l : forall s, NoDup l -> (forall i, i ∈ l -> (i < NUM)%nat /\ free (dk s) i = false) ->
  exists s', free_all l s = Ok s' /\ (forall i, i ∉ l -> desc (dk s') i = desc (dk s) i) /\
    (forall i, free (dk s') i = if decide (i ∈ l) then true else free (dk s) i) /\
    (exists de fr, s' = Sys (Disk de (avail_idx (dk s)) (avail_ring (dk s)) (dused_idx (dk s)) (dused_ring (dk s)) fr (used_idx (dk s)) (info (dk s)) (ops (dk s)))
      (bufs s) (procs s') (holder s) (seen s) (inflight s) (sectors s) (io s)) /\
    procs s' = match l with [] => procs s | _ => wake_free <$> procs s end.
Proof.
  induction l as [|j l IH]; intros s Hn Hl; cbn [free_all].
  - exists s. split_and!; try done. exists (desc (dk s)), (free (dk s)). by destruct s as [[]].
  - apply list.NoDup_cons in Hn as [Hj Hn]. destruct (Hl j ltac:(left)) as [Hlt Hf].
    unfold free_desc. rewrite (proj2 (Nat.leb_gt NUM j) Hlt), Hf. cbn [mbind outcome_bind].
    match goal with |- context [free_all l ?x] => set (s1 := x) end.
    destruct (IH s1 Hn) as (s' & -> & H1 & H2 & (de & fr & H3) & H4).
    { intros i Hi. destruct (Hl i ltac:(by right)). cbn. rewrite upd_ne; [done|]. by intros ->. }
    exists s'. split_and!; [done|..].
    + intros i Hi. rewrite H1 by set_solver. cbn. apply upd_ne. set_solver.
    + intros i. rewrite H2. cbn. unfold upd. repeat case_decide; set_solver.
    + by exists de, fr.
    + rewrite H4. cbn. destruct l; [done|]. by rewrite wake_free_idem.
Qed.

Lemma alloc3_loop_spec s k : forall l, NoDup l -> (forall i, i ∈ l -> (i < NUM)%nat /\ free (dk s) i = true) ->
  match alloc3_loop k l (set_dk (took l (dk s)) s) with
  | Ok (Some l', s') => length l' = (length l + k)%nat /\ NoDup l' /\ (forall i, i ∈ l' -> (i < NUM)%nat /\ free (dk s) i = true) /\ s' = set_dk (took l' (dk s)) s
  | Ok (None, s') => retried s s' /\ exists l', (length l' < length l + k)%nat /\ (forall i, (i < NUM)%nat -> free (dk s) i = true -> i ∈ l')
  | _ => False
  end.
Proof.
  induction k as [|k IH]; intros l Hn Hl; cbn [alloc3_loop]; [split_and!; auto; lia|].
  unfold alloc_desc. pose proof (alloc_loop_spec NUM 0 (took l (dk s))) as Ha. cbn [dk set_dk].
  destruct (alloc_loop NUM 0 (took l (dk s))) as [[j|] d'].
  - destruct Ha as (H1 & H2 & ->). rewrite took_free in H2. case_decide as Hj; [done|].
    replace (set_free j false (took l (dk s))) with (took (l ++ [j]) (dk s)) by (unfold took; by rewrite foldl_app).
    specialize (IH (l ++ [j])). change (set_dk (took (l ++ [j]) (dk s)) (set_dk (took l (dk s)) s)) with (set_dk (took (l ++ [j]) (dk s)) s).
    rewrite length_app in IH. cbn [length] in IH.
    assert (Hn' : NoDup (l ++ [j])) by (apply NoDup_app; split_and!; [done|set_solver|apply NoDup_singleton]).
    assert (Hl' : forall i, i ∈ l ++ [j] -> (i < NUM)%nat /\ free (dk s) i = true).
    { intros i [Hi|Hi]%elem_of_app; [auto|]. apply list_elem_of_singleton in Hi as ->. split; [lia|done]. }
    specialize (IH Hn' Hl'). destruct (alloc3_loop k _ _) as [[[l'|] s']|msg| |]; try done.
    + destruct IH as (E1 & E2 & E3 & E4). split_and!; auto. lia.
    + destruct IH as (E1 & l' & E2 & E3). split; [done|]. exists l'. split; [lia|done].
  - destruct Ha as [-> Ha]. destruct (free_all_spec l (set_dk (took l (dk s)) s) Hn) as (s' & E & H1 & H2 & (de & fr & H3) & H4).
    { intros i Hi. split; [by apply Hl|]. cbn. rewrite took_free, decide_True; done. }
    change (set_dk (took l (dk s)) (set_dk (took l (dk s)) s)) with (set_dk (took l (dk s)) s). rewrite E. cbn [mbind outcome_bind].
    split; [|exists l; split; [lia|]].
    + destruct (took_rest l (dk s)) as [fr0 Et]. split.
      * intros i Hi. rewrite H1; [cbn; by rewrite Et|]. intros Hin. apply Hl in Hin as [_ Hin]. congruence.
      * intros i. rewrite H2. cbn. rewrite took_free. case_decide as Hi; [|done]. symmetry. by apply Hl.
      * exists de, fr. rewrite H3. cbn. by rewrite Et.
      * destruct l; [by left|by right].
    + intros i Hi Hf. specialize (Ha i ltac:(lia)). rewrite took_free in Ha. case_decide; [done|]. congruence.
Qed.

Lemma alloc3_spec s :
  (exists i0 i1 i2, alloc3_desc s = Ok (Some [i0; i1; i2], set_dk (took [i0; i1; i2] (dk s)) s) /\ NoDup [i0; i1; i2] /\
     forall i, i ∈ [i0; i1; i2] -> (i < NUM)%nat /\ free (dk s) i = true) \/
  (exists s' l, alloc3_desc s = Ok (None, s') /\ retried s s' /\ (length l < 3)%nat /\ forall i, (i < NUM)%nat -> free (dk s) i = true -> i ∈ l).
Proof.
  pose proof (alloc3_loop_spec s 3 [] ltac:(constructor) ltac:(set_solver)) as H. cbn [took foldl] in H.
  replace (set_dk (dk s) s) with s in H by (by destruct s). unfold alloc3_desc.
  destruct (alloc3_loop 3 [] s) as [[[l'|] s']|msg| |]; try done.
  - destruct H as (E1 & E2 & E3 & ->). destruct l' as [|i0 [|i1 [|i2 [|]]]]; try done. left. by exists i0, i1, i2.
  - destruct H as (E1 & l' & E2 & E3). right. exists s', l'. done.
Qed.

(** * The disk driver: ownership of descriptors and the invariant *)

(** ** The descriptors of the processes *)

Definition idxs (c : pc) : list nat :=
  match c with Ready _ _ (i0, i1, i2) | Wait _ _ (i0, i1, i2) _ => [i0; i1; i2] | _ => [] end.
Definition head_of (c : pc) : option nat :=
  match c with Wait _ _ (i0, _, _) _ => Some i0 | _ => None end.
Definition owned (l : list pc) : list nat := l ≫= idxs.

Lemma elem_owned l i : i ∈ owned l <-> exists p c, l !! p = Some c /\ i ∈ idxs c.
Proof.
  unfold owned. rewrite list_elem_of_bind. split.
  - intros (c & Hi & Hc). apply list_elem_of_lookup in Hc as [p Hp]. eauto.
  - intros (p & c & Hp & Hi). exists c. split; [done|]. by apply list_elem_of_lookup_2 in Hp.
Qed.

Lemma owned_split l p c : l !! p = Some c -> exists o, owned l ≡ₚ idxs c ++ o /\ forall c', owned (<[p := c']> l) ≡ₚ idxs c' ++ o.
Proof.
  intros Hp. exists (owned (take p l) ++ owned (drop (S p) l)). split.
  - rewrite <- (take_drop_middle l p c Hp) at 1. unfold owned. rewrite bind_app. cbn. solve_Permutation.
  - intros c'. rewrite insert_take_drop by (by apply lookup_lt_Some in Hp). unfold owned. rewrite bind_app. cbn. solve_Permutation.
Qed.

Lemma owned_fmap f (l : list pc) : (forall c, idxs (f c) = idxs c) -> owned (f <$> l) = owned l.
Proof. intros Hf. unfold owned. induction l as [|c l IH]; cbn; [done|]. by rewrite Hf, IH. Qed.

Lemma wake_free_idxs c : idxs (wake_free c) = idxs c.
Proof. by destruct c. Qed.
Lemma wake_buf_idxs b c : idxs (wake_buf b c) = idxs c.
Proof. by destruct c as [| | |? ? [[? ?] ?] ?]. Qed.

Lemma owned_unique l p q c c' i : NoDup (owned l) -> l !! p = Some c -> l !! q = Some c' -> i ∈ idxs c -> i ∈ idxs c' -> p = q.
Proof.
  intros Hn Hp Hq Hi Hi'. destruct (decide (p = q)) as [|Hne]; [done|]. exfalso. destruct (owned_split l p c Hp) as (o & E1 & E2).
  rewrite E1 in Hn. apply NoDup_app in Hn as (_ & Hd & _). apply (Hd i Hi). specialize (E2 Idle). cbn in E2. rewrite <- E2.
  apply elem_owned. exists q, c'. by rewrite list_lookup_insert_ne.
Qed.

(** ** The requests in the rings *)

Definition availq (s : sys) : list nat := window (avail_ring (dk s)) (seen s) (u16 (avail_idx (dk s) - seen s)).
Definition usedq (s : sys) : list nat := window (dused_ring (dk s)) (used_idx (dk s)) (u16 (dused_idx (dk s) - used_idx (dk s))).
Definition queue (s : sys) : list nat := availq s ++ (inflight s).*1 ++ usedq s.
(** The requests whose data has not been transferred. *)
Definition pendq (s : sys) : list nat := availq s ++ (filter (fun x => x.2 = false) (inflight s)).*1.

(** ** The invariant *)

(** What the device finds when it follows the chain of a request. *)
Definition formatted (d : disk) (bn : Z) (b : nat) (w : bool) (i0 i1 i2 : nat) : Prop :=
  desc d i0 = Desc (Ops i0) 16 1 i1 /\ desc d i1 = Desc (Data b) 1024 (if w then 1 else 3) i2 /\ desc d i2 = Desc (Status i0) 1 2 0 /\
  ops d i0 = Req (if w then 1 else 0) 0 (2 * bn) /\ info_b (info d i0) = Some b.

(** A process: the chain it has built; a sleeper has a reason to sleep. *)
Definition fmt (s : sys) (c : pc) : Prop :=
  match c with
  | Idle => True
  | Start _ _ z => z = true -> (6 <= length (owned (procs s)))%nat
  | Ready b w (i0, i1, i2) => formatted (dk s) (blockno (bufs s b)) b w i0 i1 i2 /\ bdisk (bufs s b) = 1 /\ avail_ring (dk s) (slot (avail_idx (dk s))) = i0
  | Wait b w (i0, i1, i2) z => formatted (dk s) (blockno (bufs s b)) b w i0 i1 i2 /\ (bdisk (bufs s b) = 1 \/ bdisk (bufs s b) = 0) /\
      (i0 ∈ queue s <-> bdisk (bufs s b) = 1) /\ (z = true -> bdisk (bufs s b) = 1)
  end.

Definition u16_ok (x : Z) : Prop := 0 <= x < 65536.

Record inv (s : sys) : Prop := {
  i_nodup : NoDup (owned (procs s));
  i_free : forall i, i ∈ owned (procs s) <-> (i < NUM)%nat /\ free (dk s) i = false;
  i_excl : forall p q c c' b, procs s !! p = Some c -> procs s !! q = Some c' -> buf_of c = Some b -> buf_of c' = Some b -> p = q;
  i_buf : forall b, length (data (bufs s b)) = BSIZE /\ 0 <= blockno (bufs s b) < 2147483648;
  i_sec : forall x, length (sectors s x) = 512%nat;
  i_fmt : forall p c, procs s !! p = Some c -> fmt s c;
  i_head : forall h, h ∈ queue s -> exists p c, procs s !! p = Some c /\ head_of c = Some h;
  i_queue : NoDup (queue s);
  i_status : forall h, h ∈ usedq s -> status (info (dk s) h) = 0;
  i_u16 : u16_ok (avail_idx (dk s)) /\ u16_ok (seen s) /\ u16_ok (dused_idx (dk s)) /\ u16_ok (used_idx (dk s));
  i_lock : forall p, holder s = Some (Proc p) -> exists c, procs s !! p = Some c /\ match c with Ready _ _ _ | Wait _ _ _ false => True | _ => False end;
  i_ready : forall p b w idx, procs s !! p = Some (Ready b w idx) -> holder s = Some (Proc p)
}.

Lemma head_idxs c h : head_of c = Some h -> h ∈ idxs c.
Proof. destruct c as [| | |? ? [[? ?] ?] ?]; cbn; try done. intros [= ->]. set_solver. Qed.

(** At most seven requests are in the rings beside a descriptor that is not. *)
Lemma queue_short s i : inv s -> (i < NUM)%nat -> i ∉ queue s -> (length (queue s) < 8)%nat.
Proof.
  intros Hi Ho Hq. assert (Hsub : i :: queue s ⊆+ seq 0 NUM).
  { apply NoDup_submseteq; [by constructor; [|apply (i_queue s Hi)]|]. intros j Hj. apply elem_of_seq.
    apply elem_of_cons in Hj as [->|Hj]; [lia|]. assert (j ∈ owned (procs s)) as [Hj' _]%(i_free s Hi); [|lia].
    apply (i_head s Hi) in Hj as (p & c & Hp & Hh). apply elem_owned. exists p, c. split; [done|]. by apply head_idxs. }
  apply submseteq_length in Hsub. rewrite length_seq in Hsub. cbn in Hsub. unfold NUM in Hsub. lia.
Qed.

Lemma avail_count s : inv s -> 0 <= u16 (avail_idx (dk s) - seen s) /\ Z.of_nat (length (availq s)) = u16 (avail_idx (dk s) - seen s).
Proof. intros Hi. pose proof (u16_range (avail_idx (dk s) - seen s)). split; [lia|]. apply window_length. lia. Qed.

Lemma used_count s : inv s -> 0 <= u16 (dused_idx (dk s) - used_idx (dk s)) /\ Z.of_nat (length (usedq s)) = u16 (dused_idx (dk s) - used_idx (dk s)).
Proof. intros Hi. pose proof (u16_range (dused_idx (dk s) - used_idx (dk s))). split; [lia|]. apply window_length. lia. Qed.

(** The state of another process is not disturbed. *)
Lemma fmt_frame s s' c :
  (forall i, i ∈ idxs c -> desc (dk s') i = desc (dk s) i /\ ops (dk s') i = ops (dk s) i /\ info_b (info (dk s') i) = info_b (info (dk s) i)) ->
  (forall b, buf_of c = Some b -> blockno (bufs s' b) = blockno (bufs s b) /\ bdisk (bufs s' b) = bdisk (bufs s b)) ->
  (forall i, i ∈ idxs c -> i ∈ queue s' <-> i ∈ queue s) ->
  match c with Start _ _ true => (length (owned (procs s)) <= length (owned (procs s')))%nat
             | Ready _ _ _ => avail_ring (dk s') (slot (avail_idx (dk s'))) = avail_ring (dk s) (slot (avail_idx (dk s))) | _ => True end ->
  fmt s c -> fmt s' c.
Proof.
  intros Hd Hb Hq Hx Hf. destruct c as [|b w z|b w [[i0 i1] i2]|b w [[i0 i1] i2] z]; cbn [fmt idxs buf_of] in *; [done|destruct z; [lia|done]|..].
  - destruct (Hd i0 ltac:(set_solver)) as (E1 & E2 & E3). destruct (Hd i1 ltac:(set_solver)) as (E4 & _). destruct (Hd i2 ltac:(set_solver)) as (E5 & _).
    destruct (Hb b eq_refl) as [E6 E7]. unfold formatted. by rewrite E1, E2, E3, E4, E5, E6, E7, Hx.
  - destruct (Hd i0 ltac:(set_solver)) as (E1 & E2 & E3). destruct (Hd i1 ltac:(set_solver)) as (E4 & _). destruct (Hd i2 ltac:(set_solver)) as (E5 & _).
    destruct (Hb b eq_refl) as [E6 E7]. unfold formatted. rewrite E1, E2, E3, E4, E5, E6, E7. rewrite (Hq i0) by set_solver. done.
Qed.

Lemma fmt_wake_free s c : fmt s c -> fmt s (wake_free c).
Proof. by destruct c. Qed.

(** ** The abstract disk *)

(** A process: in no call, in a call whose transfer is to come, or is over. *)
Inductive astat := AIdle | APend (b : nat) (w : bool) | ADone (b : nat) (w : bool).
(** Calls, blocks of the disk, and the block number and data of the buffers. *)
Record aspec := ASpec { a_st : list astat; a_blk : Z -> list Z; a_buf : nat -> Z * list Z }.

Definition abuf_of (x : astat) : option nat := match x with AIdle => None | APend b _ | ADone b _ => Some b end.

#[export] Instance aspec_equiv : Equiv aspec := fun a a' =>
  a_st a = a_st a' /\ (forall bn, a_blk a bn = a_blk a' bn) /\ (forall b, a_buf a b = a_buf a' b).

(** The steps: a call, the transfer of the whole block at one moment between
    call and return, the return, and a change of a buffer that is in no call. *)
Inductive astep (a a' : aspec) : Prop :=
  | a_call p b w : a_st a !! p = Some AIdle -> (forall x, x ∈ a_st a -> abuf_of x <> Some b) ->
      a' ≡ ASpec (<[p := APend b w]> (a_st a)) (a_blk a) (a_buf a) -> astep a a'
  | a_write p b : a_st a !! p = Some (APend b true) ->
      a' ≡ ASpec (<[p := ADone b true]> (a_st a)) (fun bn => if decide (bn = (a_buf a b).1) then (a_buf a b).2 else a_blk a bn) (a_buf a) -> astep a a'
  | a_read p b : a_st a !! p = Some (APend b false) ->
      a' ≡ ASpec (<[p := ADone b false]> (a_st a)) (a_blk a) (upd (a_buf a) b ((a_buf a b).1, a_blk a (a_buf a b).1)) -> astep a a'
  | a_return p b w : a_st a !! p = Some (ADone b w) ->
      a' ≡ ASpec (<[p := AIdle]> (a_st a)) (a_blk a) (a_buf a) -> astep a a'
  | a_client b x : (forall y, y ∈ a_st a -> abuf_of y <> Some b) ->
      a' ≡ ASpec (a_st a) (a_blk a) (upd (a_buf a) b x) -> astep a a'
  | a_stutter : a' ≡ a -> astep a a'.

Definition apc (s : sys) (c : pc) : astat :=
  match c with
  | Idle => AIdle
  | Start b w _ | Ready b w _ => APend b w
  | Wait b w (i0, _, _) _ => if decide (i0 ∈ pendq s) then APend b w else ADone b w
  end.

Definition abs (s : sys) : aspec :=
  ASpec (apc s <$> procs s) (fun bn => sectors s (2 * bn) ++ sectors s (2 * bn + 1)) (fun b => (blockno (bufs s b), data (bufs s b))).

(** What a step has to give. *)
Definition good (s s' : sys) : Prop := inv s' /\ astep (abs s) (abs s').
Definition runs (s : sys) (o : outcome sys) : Prop := exists s', o = Ok s' /\ good s s'.

Lemma apc_buf s c : abuf_of (apc s c) = buf_of c.
Proof. destruct c as [|b w z|b w idx|b w [[i0 i1] i2] z]; cbn; try done. by case_decide. Qed.

(** Steps that the caller does not see. *)
Lemma stutter s s' : (forall q, apc s' <$> procs s' !! q = apc s <$> procs s !! q) ->
  (forall x, sectors s' x = sectors s x) -> (forall b, blockno (bufs s' b) = blockno (bufs s b) /\ data (bufs s' b) = data (bufs s b)) -> astep (abs s) (abs s').
Proof.
  intros Hp Hs Hb. apply a_stutter. split_and!; cbn.
  - apply list_eq. intros q. rewrite !list_lookup_fmap. apply Hp.
  - intros bn. by rewrite !Hs.
  - intros b. destruct (Hb b) as [-> ->]. done.
Qed.

(** * The disk driver: every step keeps the invariant and refines the disk *)

Lemma queue_le s : inv s -> (length (queue s) <= 8)%nat.
Proof.
  intros Hi. assert (Hsub : queue s ⊆+ seq 0 NUM).
  { apply NoDup_submseteq; [apply (i_queue s Hi)|]. intros j Hj. apply elem_of_seq.
    apply (i_head s Hi) in Hj as (p & c & Hp & Hh). assert (j ∈ owned (procs s)) as [Hj' _]%(i_free s Hi); [|lia].
    apply elem_owned. exists p, c. split; [done|]. by apply head_idxs. }
  apply submseteq_length in Hsub. by rewrite length_seq in Hsub.
Qed.

(** ** The device *)

(** Steps that leave the processes and their chains alone and move requests
    along. *)
Record quiet (s s' : sys) : Prop := {
  q_procs : procs s' = procs s;
  q_holder : holder s' = holder s;
  q_bufs : forall b, blockno (bufs s' b) = blockno (bufs s b) /\ bdisk (bufs s' b) = bdisk (bufs s b);
  q_disk : desc (dk s') = desc (dk s) /\ ops (dk s') = ops (dk s) /\ free (dk s') = free (dk s) /\ avail_idx (dk s') = avail_idx (dk s) /\ avail_ring (dk s') = avail_ring (dk s);
  q_info : forall i, info_b (info (dk s') i) = info_b (info (dk s) i);
  q_queue : queue s' ≡ₚ queue s
}.

Lemma quiet_inv s s' : inv s -> quiet s s' -> (forall b, length (data (bufs s' b)) = BSIZE) -> (forall x, length (sectors s' x) = 512%nat) ->
  (forall h, h ∈ usedq s' -> status (info (dk s') h) = 0) -> u16_ok (seen s') /\ u16_ok (dused_idx (dk s')) /\ u16_ok (used_idx (dk s')) -> inv s'.
Proof.
  intros Hi [Hp Hh Hb (E1 & E2 & E3 & E4 & E5) Hin Hq] Hd Hs Hst Hu. split; rewrite ?Hp, ?Hh; try apply Hi; auto.
  - intros i. rewrite E3. apply Hi.
  - intros b. split; [done|]. destruct (Hb b) as [-> _]. apply Hi.
  - intros p c Hc. apply (fmt_frame s); [| | | |by apply (i_fmt s Hi p)].
    + intros i _. by rewrite E1, E2.
    + intros b _. apply Hb.
    + intros i _. by rewrite Hq.
    + destruct c as [|? ? []| |]; try done; [by rewrite Hp|by rewrite E4, E5].
  - intros h. rewrite Hq. apply Hi.
  - rewrite Hq. apply Hi.
  - rewrite E4. split; [apply (i_u16 s Hi)|done].
Qed.

Lemma u16_minus_succ a b : u16_ok a -> u16_ok b -> a <> b -> u16 (a - u16 (b + 1)) = u16 (a - b) - 1 /\ 0 < u16 (a - b).
Proof. unfold u16_ok, u16. intros. zlia. Qed.

Lemma u16_succ_minus a b n : u16 (a - b) = n -> n < 65535 -> u16 (u16 (a + 1) - b) = n + 1.
Proof. unfold u16. intros. zlia. Qed.

Lemma slot_mod x : Z.to_nat (x mod Z.of_nat NUM) = slot x.
Proof. done. Qed.

Lemma availq_fetch s : inv s -> seen s <> avail_idx (dk s) -> availq s = avail_ring (dk s) (slot (seen s)) :: availq (dev_fetch s).
Proof.
  intros Hi Hne. destruct (i_u16 s Hi) as (Ha & Hs & _). destruct (u16_minus_succ (avail_idx (dk s)) (seen s) Ha Hs ltac:(done)) as [E Hpos].
  unfold availq. cbn. rewrite E. rewrite (window_cons _ _ (u16 _)) by done. by rewrite window_u16.
Qed.

Lemma u16_is_ok x : u16_ok (u16 x).
Proof. unfold u16_ok. pose proof (u16_range x). lia. Qed.

Lemma fetch_good s : inv s -> seen s <> avail_idx (dk s) -> good s (dev_fetch s).
Proof.
  intros Hi Hne. pose proof (availq_fetch s Hi Hne) as E. assert (Hq : queue (dev_fetch s) ≡ₚ queue s).
  { unfold queue. rewrite E. unfold dev_fetch at 2. cbn [inflight set_seen set_inflight]. rewrite fmap_app. cbn. rewrite slot_mod.
    change (usedq (dev_fetch s)) with (usedq s). solve_Permutation. }
  split.
  - apply (quiet_inv s); [done|by split|apply Hi|apply Hi|apply (i_status s Hi)|]. cbn. split_and!; [apply u16_is_ok|apply (i_u16 s Hi)..].
  - apply stutter; [|done|done]. intros q. cbn. destruct (procs s !! q) as [c|]; [|done]. cbn. f_equal.
    destruct c as [| | |b w [[i0 i1] i2] z]; try done. cbn. apply decide_ext. unfold pendq. rewrite E. unfold dev_fetch at 2. cbn [inflight set_seen set_inflight].
    rewrite filter_app, fmap_app. rewrite slot_mod. rewrite filter_cons_True by done. cbn. set_solver.
Qed.

(** What the device makes of a chain. *)
Lemma request_ok d bn b w i0 i1 i2 : formatted d bn b w i0 i1 i2 -> request d i0 = Ok (w, 2 * bn, 2%nat, b, i0).
Proof. intros (E1 & E2 & E3 & E4 & E5). unfold request. rewrite E1. cbn. rewrite E2. cbn. rewrite E3. cbn. rewrite E4. by destruct w. Qed.

Lemma lookup_split {A} (l : list A) k x : l !! k = Some x -> exists l1 l2, l = l1 ++ x :: l2 /\ (forall y, <[k := y]> l = l1 ++ y :: l2) /\ delete k l = l1 ++ l2.
Proof.
  intros Hk. exists (take k l), (drop (S k) l). split_and!.
  - symmetry. by apply take_drop_middle.
  - intros y. by rewrite insert_take_drop by (by apply lookup_lt_Some in Hk).
  - apply delete_take_drop.
Qed.

(** The process of a request in the rings. *)
Lemma request_of s h : inv s -> h ∈ queue s -> exists p b w i1 i2 z, procs s !! p = Some (Wait b w (h, i1, i2) z) /\
  formatted (dk s) (blockno (bufs s b)) b w h i1 i2 /\ bdisk (bufs s b) = 1 /\ request (dk s) h = Ok (w, 2 * blockno (bufs s b), 2%nat, b, h).
Proof.
  intros Hi Hq. destruct (i_head s Hi h Hq) as (p & c & Hp & Hh). destruct c as [| | |b w [[i0 i1] i2] z]; try done. injection Hh as ->.
  pose proof (i_fmt s Hi p _ Hp) as (Hf & _ & Hd & _). exists p, b, w, i1, i2, z. split_and!; try done; [by apply Hd|]. by eapply request_ok.
Qed.

Lemma block_read m bn : read_sectors m (2 * bn) 2 = m (2 * bn) ++ m (2 * bn + 1).
Proof. unfold read_sectors. cbn. by rewrite app_nil_r, Z.add_0_r. Qed.

Lemma block_written m bn l x : length l = BSIZE ->
  write_sectors m (2 * bn) 2 l (2 * x) ++ write_sectors m (2 * bn) 2 l (2 * x + 1) = if decide (x = bn) then l else m (2 * x) ++ m (2 * x + 1).
Proof.
  intros Hl. unfold write_sectors. case_decide as E.
  - subst x. ztest. replace (2 * bn - 2 * bn) with 0 by lia. replace (2 * bn + 1 - 2 * bn) with 1 by lia.
    change (512 * Z.to_nat 0)%nat with 0%nat. change (512 * Z.to_nat 1)%nat with 512%nat. rewrite drop_0.
    rewrite (take_ge (drop 512 l)) by (rewrite length_drop, Hl; unfold BSIZE; lia). apply take_drop.
  - destruct (decide (2 * x < 2 * bn)); ztest; done.
Qed.

Lemma write_len m sec l x : length l = BSIZE -> (forall y, length (m y) = 512%nat) -> length (write_sectors m sec 2 l x) = 512%nat.
Proof.
  intros Hl Hm. unfold write_sectors. destruct ((sec <=? x) && (x <? sec + Z.of_nat 2)) eqn:E; [|done]. bool_to_prop.
  rewrite length_take, length_drop, Hl. assert (x - sec = 0 \/ x - sec = 1) as [-> | ->] by lia; reflexivity.
Qed.

(** Requests of other processes are not affected by the transfer. *)
Lemma transfer_pendq s k h l1 l2 : inv s -> inflight s = l1 ++ (h, false) :: l2 -> <[k := (h, true)]> (inflight s) = l1 ++ (h, true) :: l2 ->
  let s' := set_inflight (<[k := (h, true)]> (inflight s)) s in h ∈ pendq s /\ forall i, i ∈ pendq s' <-> i ∈ pendq s /\ i <> h.
Proof.
  intros Hi E1 E2 s'. pose proof (i_queue s Hi) as Hn. unfold pendq, queue, s' in *. cbn [inflight set_inflight]. rewrite E2. rewrite E1 in *.
  rewrite !filter_app, !filter_cons. cbn [snd]. rewrite decide_True, decide_False by done. rewrite !fmap_app in *. cbn [fmap list_fmap fst] in *.
  change (availq (set_inflight _ s)) with (availq s). split; [set_solver|].
  apply NoDup_app in Hn as (_ & Hn1 & Hn). apply NoDup_app in Hn as (Hn & _ & _). apply NoDup_app in Hn as (_ & Hn2 & Hn). apply list.NoDup_cons in Hn as [Hn3 _].
  assert (Hf : forall (l : list (nat * bool)), h ∈ (filter (fun x => x.2 = false) l).*1 -> h ∈ l.*1).
  { intros l (x & -> & Hx)%list_elem_of_fmap. apply list_elem_of_filter in Hx as [_ Hx]. by apply list_elem_of_fmap_2. }
  intros i. destruct (decide (i = h)) as [->|]; [|set_solver]. split; [|naive_solver].
  intros [Ha|[Ha|Ha]%elem_of_app]%elem_of_app; exfalso.
  - apply (Hn1 h Ha). set_solver.
  - apply (Hn2 h (Hf l1 Ha)). set_solver.
  - apply Hn3. by apply Hf.
Qed.

Lemma infl_queue s k h t : inflight s !! k = Some (h, t) -> h ∈ queue s.
Proof. intros Hk. unfold queue. apply elem_of_app. right. apply elem_of_app. left. apply list_elem_of_fmap. exists (h, t). split; [done|]. by apply list_elem_of_lookup_2 in Hk. Qed.

(** The call of the request is done, the other calls are as they were. *)
Lemma transfer_calls s s' p b w h i1 i2 z : inv s -> procs s' = procs s -> procs s !! p = Some (Wait b w (h, i1, i2) z) -> h ∈ pendq s ->
  (forall i, i ∈ pendq s' <-> i ∈ pendq s /\ i <> h) ->
  apc s <$> procs s !! p = Some (APend b w) /\ apc s' <$> procs s' = <[p := ADone b w]> (apc s <$> procs s).
Proof.
  intros Hi Hp Hc Hh Hpe. split; [rewrite Hc; cbn; by rewrite decide_True|]. rewrite Hp. apply list_eq. intros q. rewrite list_lookup_fmap.
  destruct (decide (q = p)) as [->|Hne].
  - rewrite list_lookup_insert_eq by (rewrite length_fmap; by apply lookup_lt_Some in Hc). rewrite Hc. cbn. rewrite decide_False by (rewrite Hpe; naive_solver). done.
  - rewrite list_lookup_insert_ne by done. rewrite list_lookup_fmap. destruct (procs s !! q) as [c|] eqn:Hq; [|done]. cbn. f_equal.
    destruct c as [| | |b' w' [[i0 j1] j2] z']; try done. cbn. apply decide_ext. rewrite Hpe. split; [naive_solver|]. intros Hin. split; [done|]. intros ->.
    apply Hne. apply (owned_unique (procs s) q p _ _ h (i_nodup s Hi) Hq Hc); set_solver.
Qed.

Lemma transfer_runs s k h : inv s -> inflight s !! k = Some (h, false) -> runs s (dev_transfer k h s).
Proof.
  intros Hi Hk. destruct (request_of s h Hi (infl_queue s k h false Hk)) as (p & b & w & i1 & i2 & z & Hp & _ & _ & Er).
  unfold dev_transfer. rewrite Er. cbn [mbind outcome_bind]. eexists. split; [reflexivity|].
  destruct (lookup_split _ _ _ Hk) as (l1 & l2 & E1 & E2 & _). destruct (transfer_pendq s k h l1 l2 Hi E1 (E2 _)) as [Hin Hpe].
  destruct (i_buf s Hi b) as [Hlen Hbn].
  assert (Hq : queue (set_inflight (<[k := (h, true)]> (inflight s)) s) = queue s) by (unfold queue; cbn [inflight set_inflight]; rewrite E2, E1, !fmap_app; done).
  destruct w.
  - match goal with |- good _ ?x => set (s' := x) end. destruct (transfer_calls s s' p b true h i1 i2 z Hi eq_refl Hp Hin Hpe) as [Ha Ha']. split.
    + apply (quiet_inv s); [done| |apply Hi| |apply (i_status s Hi)|split_and!; apply (i_u16 s Hi)].
      * split; try done. change (queue s') with (queue (set_inflight (<[k := (h, true)]> (inflight s)) s)). by rewrite Hq.
      * intros x. cbn. apply write_len; [done|]. apply Hi.
    + apply (a_write _ _ p b); [cbn; by rewrite list_lookup_fmap|]. split_and!; [done| |done]. intros bn. cbn. by apply block_written.
  - match goal with |- good _ ?x => set (s' := x) end. destruct (transfer_calls s s' p b false h i1 i2 z Hi eq_refl Hp Hin Hpe) as [Ha Ha'].
    assert (Eb : forall b', bufs s' b' = if decide (b' = b) then set_data (sectors s (2 * blockno (bufs s b)) ++ sectors s (2 * blockno (bufs s b) + 1)) (bufs s b) else bufs s b').
    { intros b'. unfold s'. cbn [bufs set_bufs set_inflight sectors]. unfold upd. by rewrite block_read. }
    split.
    + apply (quiet_inv s); [done| | |apply Hi|apply (i_status s Hi)|split_and!; apply (i_u16 s Hi)].
      * split; try done; [|change (queue s') with (queue (set_inflight (<[k := (h, true)]> (inflight s)) s)); by rewrite Hq].
        intros b'. rewrite Eb. case_decide; by subst.
      * intros b'. rewrite Eb. case_decide; [|apply Hi]. cbn [data set_data]. rewrite length_app, !(i_sec s Hi). done.
    + apply (a_read _ _ p b); [cbn; by rewrite list_lookup_fmap|]. split_and!; [done|done|]. intros b'. cbn [abs a_buf]. rewrite Eb. unfold upd. case_decide; by subst.
Qed.

Lemma complete_runs s k h : inv s -> inflight s !! k = Some (h, true) -> runs s (dev_complete k h s).
Proof.
  intros Hi Hk. pose proof (infl_queue s k h true Hk) as Hin. destruct (request_of s h Hi Hin) as (p & b & w & i1 & i2 & z & Hp & _ & _ & Er).
  unfold dev_complete. rewrite Er. cbn [mbind outcome_bind]. eexists. split; [reflexivity|]. match goal with |- good _ ?x => set (s' := x) end.
  destruct (lookup_split _ _ _ Hk) as (l1 & l2 & E1 & _ & E3). pose proof (queue_le s Hi) as Hlen. pose proof (i_queue s Hi) as Hn.
  assert (Hl : (length (usedq s) < 8)%nat) by (unfold queue in Hlen; rewrite E1, !length_app, length_fmap, length_app in Hlen; cbn in Hlen; lia).
  destruct (used_count s Hi) as [Hc1 Hc2].
  assert (Eu : usedq s' = usedq s ++ [h]).
  { unfold usedq, s'. cbn. rewrite slot_mod. set (n := u16 (dused_idx (dk s) - used_idx (dk s))) in *.
    rewrite (u16_succ_minus (dused_idx (dk s)) (used_idx (dk s)) n) by (done || lia).
    assert (Es : slot (dused_idx (dk s)) = slot (used_idx (dk s) + n)).
    { unfold slot, n, u16, NUM. f_equal. zlia. }
    rewrite window_snoc by done. rewrite Es, window_write by lia. by rewrite upd_eq. }
  assert (Hq : queue s' ≡ₚ queue s).
  { unfold queue. rewrite Eu. unfold s'. cbn [inflight set_inflight set_dk]. change (availq (set_inflight _ _)) with (availq s). rewrite E3, E1, !fmap_app. cbn. solve_Permutation. }
  split.
  - apply (quiet_inv s); [done| |apply Hi|apply Hi| |].
    + split; try done. intros i. cbn. unfold upd. case_decide; by subst.
    + intros h'. rewrite Eu. intros [Hh|Hh]%elem_of_app; cbn; unfold upd; case_decide; try done; [by apply (i_status s Hi)|set_solver].
    + cbn. split_and!; [apply (i_u16 s Hi)|apply u16_is_ok|apply (i_u16 s Hi)].
  - apply stutter; [|done|done]. intros q. cbn. destruct (procs s !! q) as [c|]; [|done]. cbn. f_equal. destruct c as [| | |b' w' [[i0 j1] j2] z']; try done.
    cbn. apply decide_ext. unfold pendq, s'. cbn [inflight set_inflight set_dk]. change (availq (set_inflight _ _)) with (availq s). rewrite E3, E1, !filter_app. by rewrite filter_cons_False by done.
Qed.
