(* ===== verification/VirtioDriver.v ===== *)
(** * The disk driver: the steps of the driver *)
From stdpp Require Import list.
From S2P Require Import Prelude Block Virtio VirtioInv.
Import Virtio.

(** ** The interrupt handler *)

Lemma holder_good s o : inv s -> (forall p, o <> Some (Proc p)) -> (forall p, holder s <> Some (Proc p)) -> good s (set_holder o s).
Proof.
  intros Hi Ho Hh. split; [|by apply stutter]. destruct Hi. split; try done.
  - intros p E. by destruct (Ho p).
  - intros p b w idx E. apply i_ready in E. by destruct (Hh p).
Qed.

Lemma io_good s m : inv s -> good s (set_io m s).
Proof. intros Hi. split; [|by apply stutter]. by destruct Hi. Qed.

Lemma intr_begin_good s : inv s -> holder s = None -> good s (intr_begin s).
Proof. intros Hi Hh. apply (io_good _ _ (proj1 (holder_good s (Some Intr) Hi ltac:(done) ltac:(congruence)))). Qed.

Lemma usedq_cons s : inv s -> used_idx (dk s) <> dused_idx (dk s) ->
  usedq s = dused_ring (dk s) (slot (used_idx (dk s))) :: window (dused_ring (dk s)) (used_idx (dk s) + 1) (u16 (dused_idx (dk s) - u16 (used_idx (dk s) + 1))).
Proof.
  intros Hi Hne. destruct (i_u16 s Hi) as (_ & _ & Ha & Hs). destruct (u16_minus_succ (dused_idx (dk s)) (used_idx (dk s)) Ha Hs ltac:(done)) as [E Hpos].
  unfold usedq. rewrite E. by rewrite (window_cons _ _ (u16 _)) by done.
Qed.

Lemma wake_buf_other b c : buf_of c <> Some b -> wake_buf b c = c.
Proof. destruct c as [| | |b' w idx z]; cbn; try done. intros Hb. rewrite decide_False; [done|congruence]. Qed.

Lemma intr_runs s : inv s -> holder s = Some Intr -> used_idx (dk s) <> dused_idx (dk s) -> runs s (intr_one s).
Proof.
  intros Hi Hh Hne. pose proof (usedq_cons s Hi Hne) as Eu. set (id := dused_ring (dk s) (slot (used_idx (dk s)))) in *.
  assert (Hid : id ∈ usedq s) by (rewrite Eu; left). assert (Hq : id ∈ queue s) by (unfold queue; set_solver).
  destruct (request_of s id Hi Hq) as (p & b & w & i1 & i2 & z & Hp & Hf & Hd & _).
  unfold intr_one. rewrite slot_mod. fold id. rewrite (i_status s Hi id Hid). cbn [negb Z.eqb]. destruct Hf as (Hf1 & Hf2 & Hf3 & Hf4 & Hf5). rewrite Hf5.
  eexists. split; [reflexivity|]. match goal with |- good _ ?x => set (s' := x) end.
  assert (Eu' : usedq s = id :: usedq s') by (rewrite Eu; unfold usedq, s'; cbn; by rewrite window_u16).
  assert (Hqs : queue s ≡ₚ id :: queue s') by (unfold queue; rewrite Eu'; change (availq s') with (availq s); change (inflight s') with (inflight s); solve_Permutation).
  pose proof (i_queue s Hi) as Hn. rewrite Hqs in Hn. apply list.NoDup_cons in Hn as [Hni Hn].
  assert (Hoth : forall q c, procs s !! q = Some c -> q <> p -> wake_buf b c = c /\ buf_of c <> Some b /\ id ∉ idxs c).
  { intros q c Hc Hqp. assert (Hb : buf_of c <> Some b) by (intros Hb; apply Hqp; by apply (i_excl s Hi q p c _ b Hc Hp)). split_and!; [by apply wake_buf_other|done|].
    intros Hin. apply Hqp. apply (owned_unique (procs s) q p c _ id (i_nodup s Hi) Hc Hp Hin). set_solver. }
  assert (Hlk : forall q, procs s' !! q = wake_buf b <$> procs s !! q) by (intros q; unfold s'; cbn; by rewrite list_lookup_fmap).
  assert (Hpp : wake_buf b (Wait b w (id, i1, i2) z) = Wait b w (id, i1, i2) false) by (cbn; by rewrite decide_True).
  assert (Ho : owned (procs s') = owned (procs s)) by (unfold s'; cbn; apply owned_fmap, wake_buf_idxs).
  split.
  - split; rewrite ?Ho; try apply Hi.
    + intros q q' c c' b0. rewrite !Hlk. intros Hc Hc' Hb Hb'. destruct (procs s !! q) as [x|] eqn:E; [|done]. destruct (procs s !! q') as [x'|] eqn:E'; [|done].
      injection Hc as <-. injection Hc' as <-. apply (i_excl s Hi q q' x x' b0); auto; [by destruct x as [| | |]|by destruct x' as [| | |]].
    + intros b0. cbn. unfold upd. case_decide; [subst b0|]; apply (i_buf s Hi).
    + intros q c. rewrite Hlk. destruct (procs s !! q) as [x|] eqn:E; [|done]. intros [= <-]. destruct (decide (q = p)) as [->|Hqp].
      * rewrite Hp in E. injection E as <-. rewrite Hpp. cbn [fmt]. unfold formatted, s'. cbn. rewrite upd_eq. cbn. split_and!; auto; [|done].
        split; [|done]. intros Hin. by destruct Hni.
      * destruct (Hoth q x E Hqp) as (-> & Hb & Hin). apply (fmt_frame s); [done| | | |by apply (i_fmt s Hi q)].
        -- intros b0 Hb0. unfold s'. cbn. rewrite upd_ne; [done|]. congruence.
        -- intros i Hix. rewrite Hqs. set_solver.
        -- destruct x as [|? ? []| |]; try done. by rewrite Ho.
    + intros h Hhq. destruct (i_head s Hi h) as (q & c & Hc & Hhd); [rewrite Hqs; by right|]. exists q, (wake_buf b c). rewrite Hlk, Hc. split; [done|]. by destruct c as [| | |? ? [[? ?] ?] ?].
    + done.
    + intros h Hhu. unfold s'. cbn. apply (i_status s Hi). rewrite Eu'. by right.
    + cbn. split_and!; [apply (i_u16 s Hi)..|apply u16_is_ok].
    + cbn. intros q E. congruence.
    + intros q b0 w0 idx. rewrite Hlk. destruct (procs s !! q) as [x|] eqn:E; [|done]. destruct x as [| | |]; try done. intros [= -> -> ->]. by apply (i_ready s Hi) in E.
  - apply stutter; [|done|].
    + intros q. rewrite Hlk. destruct (procs s !! q) as [x|]; [|done]. cbn. f_equal. by destruct x as [| | |? ? [[? ?] ?] ?].
    + intros b0. cbn. unfold upd. case_decide; [by subst b0|done].
Qed.

(** ** Steps of one process *)

(** The clauses of the invariant that only depend on which descriptors and
    buffers the processes have, after a process goes from [c] to [c']. *)
Lemma insert_cases (l : list pc) p q c x : <[p := c]> l !! q = Some x -> (q = p /\ x = c) \/ (q <> p /\ l !! q = Some x).
Proof.
  destruct (decide (q = p)) as [->|Hne]; [|rewrite list_lookup_insert_ne by done; auto]. intros E. left. split; [done|].
  assert (Hl : (p < length l)%nat) by (apply lookup_lt_Some in E; by rewrite length_insert in E). rewrite list_lookup_insert_eq in E by done. congruence.
Qed.

Lemma excl_insert s p c c' : inv s -> procs s !! p = Some c -> buf_of c' = buf_of c \/ buf_of c' = None ->
  forall q q' x x' b, <[p := c']> (procs s) !! q = Some x -> <[p := c']> (procs s) !! q' = Some x' -> buf_of x = Some b -> buf_of x' = Some b -> q = q'.
Proof.
  intros Hi Hp Hb q q' x x' b [[-> ->]|[Hq Hx]]%insert_cases [[-> ->]|[Hq' Hx']]%insert_cases Hbx Hbx'; [done|..].
  - destruct Hb as [Hb|Hb]; [|congruence]. apply (i_excl s Hi p q' c x' b); auto; congruence.
  - destruct Hb as [Hb|Hb]; [|congruence]. apply (i_excl s Hi q p x c b); auto; congruence.
  - by apply (i_excl s Hi q q' x x' b).
Qed.

Lemma publish_good s p b w idx : inv s -> procs s !! p = Some (Ready b w idx) -> holder s = Some (Proc p) -> good s (rw_publish p b w idx s).
Proof.
  intros Hi Hp Hh. destruct idx as [[i0 i1] i2]. pose proof (i_fmt s Hi p _ Hp) as (Hf & Hd & Hr). set (s' := rw_publish p b w (i0, i1, i2) s).
  assert (Hlt : (p < length (procs s))%nat) by (by apply lookup_lt_Some in Hp).
  assert (Hni : i0 ∉ queue s).
  { intros (q & c & Hc & Hhd)%(i_head s Hi). assert (q = p) as ->; [|rewrite Hp in Hc; by injection Hc as <-].
    apply (owned_unique (procs s) q p c _ i0 (i_nodup s Hi) Hc Hp); [by apply head_idxs|set_solver]. }
  assert (Hlen : (length (queue s) < 8)%nat) by (apply (queue_short s i0); [done|apply (i_free s Hi), elem_owned; exists p; eexists; split; [exact Hp|set_solver]|done]).
  destruct (avail_count s Hi) as [Hc1 Hc2].
  assert (Ea : availq s' = availq s ++ [i0]).
  { unfold queue in Hlen. rewrite !length_app in Hlen. unfold availq, s', rw_publish. cbn. set (n := u16 (avail_idx (dk s) - seen s)) in *.
    rewrite (u16_succ_minus (avail_idx (dk s)) (seen s) n) by (done || lia). rewrite window_snoc by done. do 2 f_equal. rewrite <- Hr. f_equal.
    unfold slot, n, u16, NUM. f_equal. zlia. }
  assert (Hqs : queue s' ≡ₚ i0 :: queue s) by (unfold queue; rewrite Ea; change (usedq s') with (usedq s); change (inflight s') with (inflight s); solve_Permutation).
  destruct (owned_split (procs s) p _ Hp) as (o & Eo1 & Eo2). specialize (Eo2 (Wait b w (i0, i1, i2) false)). cbn [idxs] in *.
  assert (Ho : owned (procs s') ≡ₚ owned (procs s)) by (cbn; by rewrite Eo1, Eo2).
  assert (Hoth : forall q c, procs s !! q = Some c -> q <> p -> i0 ∉ idxs c).
  { intros q c Hc Hqp Hin. apply Hqp. apply (owned_unique (procs s) q p c _ i0 (i_nodup s Hi) Hc Hp Hin). set_solver. }
  split.
  - split; rewrite ?Ho; try apply Hi.
    + intros i. rewrite Ho. apply Hi.
    + by apply (excl_insert s p (Ready b w (i0, i1, i2))); [..|left].
    + cbn. intros q c [[-> ->]|[Hq Hc]]%insert_cases.
      * cbn [fmt]. rewrite Hqs. split_and!; [done|by left| |done]. split; [done|]. intros _. left.
      * apply (fmt_frame s); [done|done| | |by apply (i_fmt s Hi q)].
        -- intros i Hix. rewrite Hqs. specialize (Hoth q c Hc Hq). set_solver.
        -- destruct c as [|? ? []| |]; try done; [by rewrite Ho|]. apply (i_ready s Hi) in Hc. congruence.
    + intros h. rewrite Hqs. intros [->|Hin]%elem_of_cons; cbn.
      * exists p. eexists. split; [by rewrite list_lookup_insert_eq by done|done].
      * apply (i_head s Hi) in Hin as (q & c & Hc & Hhd). exists q, c. rewrite list_lookup_insert_ne; [done|]. intros <-. rewrite Hp in Hc. by injection Hc as <-.
    + rewrite Hqs. by constructor; [|apply Hi].
    + cbn. split_and!; [apply u16_is_ok|apply (i_u16 s Hi)..].
    + cbn. intros q E. rewrite Hh in E. injection E as <-. exists (Wait b w (i0, i1, i2) false). by rewrite list_lookup_insert_eq by done.
    + cbn. intros q b0 w0 idx0 [[-> ?]|[Hq Hc]]%insert_cases; [done|]. by apply (i_ready s Hi) in Hc.
  - apply stutter; [|done|done]. intros q. cbn. destruct (decide (q = p)) as [->|Hq].
    + rewrite list_lookup_insert_eq, Hp by done. cbn. rewrite decide_True; [done|]. unfold pendq. rewrite Ea. set_solver.
    + rewrite list_lookup_insert_ne by done. destruct (procs s !! q) as [c|] eqn:Hc; [|done]. cbn. f_equal. destruct c as [| | |b' w' [[j0 j1] j2] z]; try done.
      cbn. apply decide_ext. specialize (Hoth q _ Hc Hq). unfold pendq. rewrite Ea. change (inflight s') with (inflight s). cbn in Hoth. set_solver.
Qed.

Lemma sleep_good s p b w idx : inv s -> procs s !! p = Some (Wait b w idx false) -> holder s = None \/ holder s = Some (Proc p) -> bdisk (bufs s b) = 1 ->
  good s (set_holder None (set_procs (<[p := Wait b w idx true]> (procs s)) s)).
Proof.
  intros Hi Hp Hh Hd. destruct idx as [[i0 i1] i2]. pose proof (i_fmt s Hi p _ Hp) as (Hf & Hb & Hq & _). match goal with |- good _ ?x => set (s' := x) end.
  assert (Hlt : (p < length (procs s))%nat) by (by apply lookup_lt_Some in Hp).
  destruct (owned_split (procs s) p _ Hp) as (o & Eo1 & Eo2). specialize (Eo2 (Wait b w (i0, i1, i2) true)). cbn [idxs] in *.
  assert (Ho : owned (procs s') ≡ₚ owned (procs s)) by (cbn; by rewrite Eo1, Eo2).
  assert (Hnr : forall q b0 w0 idx0, procs s !! q = Some (Ready b0 w0 idx0) -> q = p).
  { intros q b0 w0 idx0 E. apply (i_ready s Hi) in E. destruct Hh; congruence. }
  split.
  - split; rewrite ?Ho; try apply Hi.
    + intros i. rewrite Ho. apply Hi.
    + by apply (excl_insert s p (Wait b w (i0, i1, i2) false)); [..|left].
    + cbn. intros q c [[-> ->]|[Hqp Hc]]%insert_cases; [by cbn|]. apply (fmt_frame s); [done..| |by apply (i_fmt s Hi q)].
      destruct c as [|? ? []| |]; try done. by rewrite Ho.
    + intros h (q & c & Hc & Hhd)%(i_head s Hi). cbn. destruct (decide (q = p)) as [->|Hqp].
      * rewrite Hp in Hc. injection Hc as <-. exists p. eexists. by rewrite list_lookup_insert_eq by done.
      * exists q, c. by rewrite list_lookup_insert_ne.
    + done.
    + cbn. intros q b0 w0 idx0 [[-> ?]|[Hqp Hc]]%insert_cases; [done|]. by apply Hnr in Hc.
  - apply stutter; [|done|done]. intros q. cbn. destruct (decide (q = p)) as [->|Hqp]; [by rewrite list_lookup_insert_eq, Hp by done|by rewrite list_lookup_insert_ne by done].
Qed.

(** The chain is freed descriptor by descriptor. *)
Lemma free_chain_all d0 bn b w i0 i1 i2 s : formatted d0 bn b w i0 i1 i2 -> (forall i, desc (dk s) i = desc d0 i) -> NoDup [i0; i1; i2] ->
  free_chain NUM i0 s = free_all [i0; i1; i2] s.
Proof.
  intros (E0 & E1 & E2 & _) Hs Hn. cbn [free_chain NUM free_all]. rewrite !Hs, E0. cbn [flags next].
  destruct (free_desc i0 s) as [s1| | |] eqn:F0; cbn [mbind outcome_bind]; try done. change (z2b (Z.land 1 VRING_DESC_F_NEXT)) with true. cbn iota.
  assert (Hd1 : forall i, i <> i0 -> desc (dk s1) i = desc d0 i).
  { intros i Hi. revert F0. unfold free_desc. destruct (NUM <=? i0)%nat; [done|]. destruct (free (dk s) i0); [done|]. intros [= <-]. cbn. by rewrite upd_ne. }
  apply list.NoDup_cons in Hn as [Hn0 Hn]. apply list.NoDup_cons in Hn as [Hn1 _].
  rewrite !(Hd1 i1), E1 by set_solver. cbn [flags next].
  destruct (free_desc i1 s1) as [s2| | |] eqn:F1; cbn [mbind outcome_bind]; try done.
  assert (z2b (Z.land (if w then 1 else 3) VRING_DESC_F_NEXT) = true) as -> by (by destruct w).
  assert (desc (dk s2) i2 = desc d0 i2) as ->.
  { revert F1. unfold free_desc. destruct (NUM <=? i1)%nat; [done|]. destruct (free (dk s1) i1); [done|]. intros [= <-]. cbn. rewrite upd_ne by set_solver. apply Hd1. set_solver. }
  rewrite E2. cbn [flags next]. by destruct (free_desc i2 s2).
Qed.

Lemma wake_lookup (l : list pc) p c q x : <[p := c]> (wake_free <$> l) !! q = Some x -> (q = p /\ x = c) \/ (q <> p /\ exists y, l !! q = Some y /\ x = wake_free y).
Proof.
  intros [?|[Hq E]]%insert_cases; [by left|]. right. split; [done|]. rewrite list_lookup_fmap in E. destruct (l !! q) as [y|]; [|done]. injection E as <-. eauto.
Qed.

Lemma finish_good s p b w i0 i1 i2 s1 de fr : inv s -> procs s !! p = Some (Wait b w (i0, i1, i2) false) -> holder s = None \/ holder s = Some (Proc p) -> bdisk (bufs s b) <> 1 ->
  (forall i, i ∉ [i0; i1; i2] -> de i = desc (dk s) i) -> (forall i, fr i = if decide (i ∈ [i0; i1; i2]) then true else free (dk s) i) ->
  s1 = Sys (Disk de (avail_idx (dk s)) (avail_ring (dk s)) (dused_idx (dk s)) (dused_ring (dk s)) fr (used_idx (dk s)) (upd (info (dk s)) i0 (Info None (status (info (dk s) i0)))) (ops (dk s)))
    (bufs s) (<[p := Idle]> (wake_free <$> procs s)) None (seen s) (inflight s) (sectors s) (io s) -> good s s1.
Proof.
  intros Hi Hp Hh Hd Hde Hfr ->. match goal with |- good _ ?x => set (s' := x) end. pose proof (i_fmt s Hi p _ Hp) as (Hf & Hb & Hq & _).
  assert (Hni : i0 ∉ queue s) by (by rewrite Hq).
  assert (Hlt : (p < length (wake_free <$> procs s))%nat) by (rewrite length_fmap; by apply lookup_lt_Some in Hp).
  assert (Hp' : (wake_free <$> procs s) !! p = Some (Wait b w (i0, i1, i2) false)) by (by rewrite list_lookup_fmap, Hp).
  destruct (owned_split _ p _ Hp') as (o & Eo1 & Eo2). specialize (Eo2 Idle). cbn [idxs app] in Eo2. rewrite (owned_fmap wake_free _ wake_free_idxs) in Eo1.
  assert (Ho : owned (procs s') ≡ₚ o) by (cbn; done). pose proof (i_nodup s Hi) as Hn. rewrite Eo1 in Hn. apply NoDup_app in Hn as (Hn1 & Hn2 & Hn3).
  assert (Hoth : forall q c, procs s !! q = Some c -> q <> p -> forall i, i ∈ idxs c -> i ∉ [i0; i1; i2]).
  { intros q c Hc Hqp i Hin Hin'. apply Hqp. by apply (owned_unique (procs s) q p c _ i (i_nodup s Hi) Hc Hp Hin). }
  assert (Hnr : forall q b0 w0 idx0, procs s !! q = Some (Ready b0 w0 idx0) -> q = p).
  { intros q b0 w0 idx0 E. apply (i_ready s Hi) in E. destruct Hh; congruence. }
  split.
  - split; try apply Hi.
    + by rewrite Ho.
    + intros i. rewrite Ho. cbn. rewrite Hfr. case_decide as Hi3.
      * split; [|naive_solver]. intros Hin. by destruct (Hn2 i Hi3).
      * rewrite <- (i_free s Hi), Eo1. set_solver.
    + cbn. intros q q' c c' b0 [[-> ->]|(Hq1 & y & Hy & ->)]%wake_lookup [[-> ->]|(Hq2 & y' & Hy' & ->)]%wake_lookup Hb1 Hb2; try done.
      apply (i_excl s Hi q q' y y' b0); auto; [by destruct y|by destruct y'].
    + cbn. intros q c [[-> ->]|(Hqp & y & Hy & ->)]%wake_lookup; [done|]. pose proof (Hoth q y Hy Hqp) as Hy2. apply (fmt_frame s).
      * rewrite wake_free_idxs. intros i Hin. cbn. rewrite Hde by (by apply Hy2). split_and!; [done..|]. rewrite upd_ne; [done|]. specialize (Hy2 i Hin). set_solver.
      * done.
      * done.
      * destruct y as [|? ? []| |]; done.
      * apply fmt_wake_free. by apply (i_fmt s Hi q).
    + intros h Hhq. destruct (i_head s Hi h Hhq) as (q & c & Hc & Hhd). cbn. exists q, (wake_free c).
      rewrite list_lookup_insert_ne, list_lookup_fmap, Hc; [split; [done|by destruct c]|]. intros <-. rewrite Hp in Hc. injection Hc as <-. injection Hhd as <-. done.
    + intros h Hhu. cbn. unfold upd. case_decide; [subst h|by apply (i_status s Hi)]. exfalso. apply Hni. unfold queue. change (usedq s') with (usedq s) in Hhu. set_solver.
    + done.
    + cbn. intros q b0 w0 idx0 [[-> ?]|(Hqp & y & Hy & E)]%wake_lookup; [done|]. destruct y; try done. injection E as <- <- <-. by apply Hnr in Hy.
  - apply (a_return _ _ p b w).
    + cbn. rewrite list_lookup_fmap, Hp. cbn. rewrite decide_False; [done|]. intros Hin. apply Hni. unfold pendq, queue in *.
      apply elem_of_app in Hin as [Hin|Hin]; [set_solver|]. apply list_elem_of_fmap in Hin as (x & -> & Hx). apply list_elem_of_filter in Hx as [_ Hx].
      apply elem_of_app. right. apply elem_of_app. left. by apply list_elem_of_fmap_2.
    + split_and!; [|done|done]. cbn. rewrite list_fmap_insert. f_equal. rewrite <- list_fmap_compose. apply list_fmap_ext. intros i c _. by destruct c as [| | |? ? [[? ?] ?] ?].
Qed.

Lemma finish_eq s p b w i0 i1 i2 : inv s -> procs s !! p = Some (Wait b w (i0, i1, i2) false) -> bdisk (bufs s b) <> 1 ->
  exists de fr, rw_finish p b w (i0, i1, i2) s =
    Ok (Sys (Disk de (avail_idx (dk s)) (avail_ring (dk s)) (dused_idx (dk s)) (dused_ring (dk s)) fr (used_idx (dk s)) (upd (info (dk s)) i0 (Info None (status (info (dk s) i0)))) (ops (dk s)))
      (bufs s) (<[p := Idle]> (wake_free <$> procs s)) None (seen s) (inflight s) (sectors s) (io s)) /\
    (forall i, i ∉ [i0; i1; i2] -> de i = desc (dk s) i) /\ (forall i, fr i = if decide (i ∈ [i0; i1; i2]) then true else free (dk s) i).
Proof.
  intros Hi Hp E. unfold rw_finish. apply Z.eqb_neq in E as ->. cbn [fst]. pose proof (i_fmt s Hi p _ Hp) as (Hf & _).
  destruct (owned_split (procs s) p _ Hp) as (o & Eo & _). cbn [idxs] in Eo. pose proof (i_nodup s Hi) as Hn. rewrite Eo in Hn. apply NoDup_app in Hn as (Hn & _).
  match goal with |- context [free_chain NUM i0 ?x] => set (s1 := x) end.
  rewrite (free_chain_all _ _ _ _ _ _ _ s1 Hf) by done.
  destruct (free_all_spec [i0; i1; i2] s1 Hn) as (s' & -> & H1 & H2 & (de & fr & H3) & H4).
  { intros i Hin. assert (i ∈ owned (procs s)) as [? ?]%(i_free s Hi) by (rewrite Eo; set_solver). done. }
  cbn [mbind outcome_bind]. rewrite H3 in H1, H2. cbn in H1, H2, H4. exists de, fr. split_and!; [|done|done]. by rewrite H4, H3.
Qed.

Lemma finish_runs s p b w idx : inv s -> procs s !! p = Some (Wait b w idx false) -> holder s = None \/ holder s = Some (Proc p) -> runs s (rw_finish p b w idx s).
Proof.
  intros Hi Hp Hh. destruct (decide (bdisk (bufs s b) = 1)) as [E|E].
  - unfold rw_finish. rewrite E. eexists. split; [reflexivity|]. by apply sleep_good.
  - destruct idx as [[i0 i1] i2]. destruct (finish_eq s p b w i0 i1 i2 Hi Hp E) as (de & fr & -> & H1 & H2).
    eexists. split; [reflexivity|]. by apply (finish_good s p b w i0 i1 i2 _ de fr).
Qed.
