(* ===== verification/VirtioProps.v ===== *)
(** * The disk driver: allocation, reachability and the theorems *)
From stdpp Require Import list.
From S2P Require Import Prelude Cstring Riscv Kalloc Block Virtio VirtioInv VirtioDriver.

Import Virtio.

(** ** The start of a call *)

(** Six descriptors are in use when three cannot be had. *)
Lemma short_owned s l : inv s -> (length l < 3)%nat -> (forall i, (i < NUM)%nat -> free (dk s) i = true -> i ∈ l) -> (6 <= length (owned (procs s)))%nat.
Proof.
  intros Hi Hl Hf. assert (Hsub : seq 0 NUM ⊆+ owned (procs s) ++ l).
  { apply NoDup_submseteq; [apply NoDup_seq|]. intros i [_ Hlt]%elem_of_seq. apply elem_of_app.
    destruct (free (dk s) i) eqn:E; [right; by apply Hf|left; by apply (i_free s Hi)]. }
  apply submseteq_length in Hsub. rewrite length_seq, length_app in Hsub. unfold NUM in Hsub. lia.
Qed.

Lemma retried_good s s' p b w : inv s -> retried s s' -> procs s !! p = Some (Start b w false) -> (6 <= length (owned (procs s)))%nat ->
  good s (set_procs (<[p := Start b w true]> (procs s')) s').
Proof.
  intros Hi [Hde Hfr (de & fr & E) Hpr] Hp H6.
  assert (Hlk : forall q x, <[p := Start b w true]> (procs s') !! q = Some x -> (q = p /\ x = Start b w true) \/ (q <> p /\ exists y, procs s !! q = Some y /\ (x = y \/ x = wake_free y))).
  { intros q x [?|[Hq Hx]]%insert_cases; [by left|right]. split; [done|]. destruct Hpr as [Hpr|Hpr]; rewrite Hpr in Hx; [eauto|].
    rewrite list_lookup_fmap in Hx. destruct (procs s !! q) as [y|]; [|done]. injection Hx as <-. eauto. }
  assert (Hp' : procs s' !! p = Some (Start b w false)) by (destruct Hpr as [->| ->]; [done|by rewrite list_lookup_fmap, Hp]).
  assert (Hlt : (p < length (procs s'))%nat) by (by apply lookup_lt_Some in Hp').
  destruct (owned_split _ p _ Hp') as (o & Eo1 & Eo2). specialize (Eo2 (Start b w true)). cbn [idxs app] in *.
  assert (Ho : owned (<[p := Start b w true]> (procs s')) ≡ₚ owned (procs s)).
  { rewrite Eo2, <- Eo1. destruct Hpr as [->| ->]; [done|]. by rewrite (owned_fmap wake_free _ wake_free_idxs). }
  assert (Hback : forall q y, procs s !! q = Some y -> q <> p -> exists x, <[p := Start b w true]> (procs s') !! q = Some x /\ (x = y \/ x = wake_free y)).
  { intros q y Hy Hq. rewrite list_lookup_insert_ne by done. destruct Hpr as [->| ->]; [eauto|]. rewrite list_lookup_fmap, Hy. eauto. }
  rewrite E in Hde, Hfr |- *. cbn [dk desc free procs set_procs] in *. match goal with |- good _ ?x => set (s2 := x) end.
  split.
  - split; try apply Hi.
    + cbn. by rewrite Ho; apply Hi.
    + intros i. cbn. rewrite Ho, Hfr. apply Hi.
    + cbn. intros q q' c c' b0 [[-> ->]|(Hq1 & y & Hy & Hy2)]%Hlk [[-> ->]|(Hq2 & y' & Hy' & Hy2')]%Hlk Hb1 Hb2; [done|..].
      * apply (i_excl s Hi p q' (Start b w false) y' b0); auto. destruct Hy2' as [<-| ->]; [done|by destruct y'].
      * apply (i_excl s Hi q p y (Start b w false) b0); auto. destruct Hy2 as [<-| ->]; [done|by destruct y].
      * apply (i_excl s Hi q q' y y' b0); auto; [destruct Hy2 as [<-| ->]; [done|by destruct y]|destruct Hy2' as [<-| ->]; [done|by destruct y']].
    + cbn. intros q c [[-> ->]|(Hqp & y & Hy & Hy2)]%Hlk; [cbn; by rewrite Ho|].
      assert (Hc : fmt s c) by (pose proof (i_fmt s Hi q y Hy); destruct Hy2 as [->| ->]; [done|by apply fmt_wake_free]).
      assert (Hix : idxs c = idxs y) by (destruct Hy2 as [->| ->]; [done|by rewrite wake_free_idxs]).
      apply (fmt_frame s); [|done|done| |done].
      * intros i Hin. cbn. rewrite Hde; [done|]. apply (i_free s Hi). apply elem_owned. exists q, y. by rewrite <- Hix.
      * destruct c as [|? ? []| |]; try done. cbn. by rewrite Ho.
    + intros h Hhq. destruct (i_head s Hi h Hhq) as (q & c & Hc & Hhd). cbn. destruct (Hback q c Hc) as (x & Hx & Hx2).
      { intros ->. rewrite Hp in Hc. by injection Hc as <-. }
      exists q, x. split; [done|]. destruct Hx2 as [->| ->]; [done|]. by destruct c.
    + cbn. intros q Hq. destruct (i_lock s Hi q Hq) as (c & Hc & Hm). destruct (Hback q c Hc) as (x & Hx & Hx2).
      { intros ->. rewrite Hp in Hc. by injection Hc as <-. }
      exists x. split; [done|]. destruct Hx2 as [->| ->]; [done|]. by destruct c.
    + cbn. intros q b0 w0 idx0 [[-> ?]|(Hqp & y & Hy & Hy2)]%Hlk; [done|]. apply (i_ready s Hi q b0 w0 idx0). rewrite Hy. f_equal. destruct Hy2 as [->|E2]; [done|]. by destruct y.
  - apply stutter; [|done|done]. intros q. cbn. destruct (decide (q = p)) as [->|Hq]; [by rewrite list_lookup_insert_eq, Hp by done|].
    rewrite list_lookup_insert_ne by done. destruct Hpr as [->| ->]; [done|]. rewrite list_lookup_fmap. destruct (procs s !! q) as [c|]; [|done]. by destruct c as [| | |? ? [[? ?] ?] ?].
Qed.

(** What [format] leaves in the memory. *)
Lemma format_spec b w i0 i1 i2 s : NoDup [i0; i1; i2] -> 0 <= blockno (bufs s b) < 2147483648 ->
  formatted (dk (format b w i0 i1 i2 s)) (blockno (bufs s b)) b w i0 i1 i2 /\
  (forall i, i ∉ [i0; i1; i2] -> desc (dk (format b w i0 i1 i2 s)) i = desc (dk s) i /\ ops (dk (format b w i0 i1 i2 s)) i = ops (dk s) i /\ info (dk (format b w i0 i1 i2 s)) i = info (dk s) i).
Proof.
  intros Hn Hb. apply list.NoDup_cons in Hn as [Hn0 Hn]. apply list.NoDup_cons in Hn as [Hn1 _].
  assert (i0 <> i1 /\ i0 <> i2 /\ i1 <> i2) as (H1 & H2 & H3) by set_solver. unfold format. split.
  - unfold formatted. cbn. rewrite !upd_eq. repeat rewrite upd_ne by done. rewrite !upd_eq. repeat rewrite upd_ne by done. rewrite !upd_eq.
    split_and!; [done|by destruct w|done| |done]. change (Z.of_nat BSIZE / 512) with 2. rewrite u32_id by lia. rewrite Z.mul_comm. by destruct w.
  - intros i Hi. cbn. rewrite !upd_ne by set_solver. done.
Qed.

(** The state with a new chain [i0], [i1], [i2] of descriptors that were free. *)
Record started (s s3 : sys) (p b : nat) (w : bool) (i0 i1 i2 : nat) : Prop := {
  st_procs : procs s3 = <[p := Ready b w (i0, i1, i2)]> (procs s);
  st_holder : holder s3 = Some (Proc p);
  st_idx : avail_idx (dk s3) = avail_idx (dk s) /\ seen s3 = seen s /\ dused_idx (dk s3) = dused_idx (dk s) /\ used_idx (dk s3) = used_idx (dk s);
  st_ring : dused_ring (dk s3) = dused_ring (dk s) /\ avail_ring (dk s3) = upd (avail_ring (dk s)) (slot (avail_idx (dk s))) i0;
  st_dev : inflight s3 = inflight s /\ sectors s3 = sectors s;
  st_free : forall i, free (dk s3) i = if decide (i ∈ [i0; i1; i2]) then false else free (dk s) i;
  st_new : formatted (dk s3) (blockno (bufs s b)) b w i0 i1 i2;
  st_frame : forall i, i ∉ [i0; i1; i2] -> desc (dk s3) i = desc (dk s) i /\ ops (dk s3) i = ops (dk s) i /\ info (dk s3) i = info (dk s) i;
  st_bufs : forall b', bufs s3 b' = if decide (b' = b) then set_bdisk 1 (bufs s b) else bufs s b'
}.

Lemma format_started s p b w i0 i1 i2 : NoDup [i0; i1; i2] -> 0 <= blockno (bufs s b) < 2147483648 ->
  let s2 := format b w i0 i1 i2 (set_dk (took [i0; i1; i2] (dk s)) s) in
  started s (set_holder (Some (Proc p)) (set_procs (<[p := Ready b w (i0, i1, i2)]> (procs s2)) s2)) p b w i0 i1 i2.
Proof.
  intros Hn Hb s2. destruct (format_spec b w i0 i1 i2 (set_dk (took [i0; i1; i2] (dk s)) s) Hn Hb) as [Hf Hframe]. destruct (took_rest [i0; i1; i2] (dk s)) as [fr Et].
  split; try done.
  - intros i. exact (took_free [i0; i1; i2] (dk s) i).
Qed.

Lemma started_queue s s3 p b w i0 i1 i2 : inv s -> started s s3 p b w i0 i1 i2 -> (i0 < NUM)%nat -> i0 ∉ queue s ->
  availq s3 = availq s /\ usedq s3 = usedq s /\ queue s3 = queue s.
Proof.
  intros Hi [_ _ (E1 & E2 & E3 & E4) (E5 & E6) (E7 & _) _ _ _ _] Hlt Hq. pose proof (queue_short s i0 Hi Hlt Hq) as Hlen. destruct (avail_count s Hi) as [Hc1 Hc2].
  unfold queue in Hlen. rewrite !length_app in Hlen.
  assert (Ea : availq s3 = availq s).
  { unfold availq. rewrite E1, E2, E6. set (n := u16 (avail_idx (dk s) - seen s)) in *.
    assert (slot (avail_idx (dk s)) = slot (seen s + n)) as -> by (unfold slot, n, u16, NUM; f_equal; zlia). apply window_write. lia. }
  assert (Eu : usedq s3 = usedq s) by (unfold usedq; by rewrite E3, E4, E5). split_and!; [done|done|]. unfold queue. by rewrite Ea, Eu, E7.
Qed.

(** The new chain does not disturb the rings, the other chains and their buffers. *)
Lemma started_good s s3 p b w i0 i1 i2 : inv s -> started s s3 p b w i0 i1 i2 -> procs s !! p = Some (Start b w false) -> holder s = None -> NoDup [i0; i1; i2] ->
  (forall i, i ∈ [i0; i1; i2] -> (i < NUM)%nat /\ free (dk s) i = true) -> good s s3.
Proof.
  intros Hi Hst Hp Hh Hn Hl. assert (Hlt : (p < length (procs s))%nat) by (by apply lookup_lt_Some in Hp).
  assert (Hno : forall i, i ∈ [i0; i1; i2] -> i ∉ owned (procs s)) by (intros i Hin [_ Hfr]%(i_free s Hi); destruct (Hl i Hin); congruence).
  assert (Hown : forall q c, procs s !! q = Some c -> forall i, i ∈ idxs c -> i ∉ [i0; i1; i2]).
  { intros q c Hc i Hin Hin'. apply (Hno i Hin'). apply elem_owned. eauto. }
  assert (Hqo : forall h, h ∈ queue s -> h ∉ [i0; i1; i2]) by (intros h (q & c & Hc & Hhd)%(i_head s Hi); by apply (Hown q c Hc), head_idxs).
  destruct (started_queue _ _ _ _ _ _ _ _ Hi Hst (proj1 (Hl i0 ltac:(left))) ltac:(intros Hin; apply (Hqo i0 Hin); left)) as (Ea & Eu & Eq).
  destruct Hst as [Hpr Hho (E1 & E2 & E3 & E4) (E5 & E6) (E7 & E8) Hfree Hf Hframe Hbufs].
  destruct (owned_split _ p _ Hp) as (o & Eo1 & Eo2). specialize (Eo2 (Ready b w (i0, i1, i2))). cbn [idxs] in Eo1, Eo2.
  assert (Ho : owned (procs s3) ≡ₚ [i0; i1; i2] ++ owned (procs s)) by (by rewrite Hpr, Eo2, Eo1).
  assert (Hbb : bufs s3 b = set_bdisk 1 (bufs s b)) by (by rewrite Hbufs, decide_True).
  split.
  - split; rewrite ?Eq, ?Hpr, ?Hho, ?E1, ?E2, ?E3, ?E4, ?E8; try apply Hi.
    + rewrite <- Hpr, Ho. apply NoDup_app. split_and!; [done|done|apply Hi].
    + intros i. rewrite <- Hpr, Ho, Hfree, elem_of_app, (i_free s Hi). case_decide as Hd; [|naive_solver]. specialize (Hl i Hd). naive_solver.
    + by apply (excl_insert s p (Start b w false)); [..|left].
    + intros b'. rewrite Hbufs. case_decide; [|apply (i_buf s Hi)]. apply (i_buf s Hi b).
    + intros q c [[-> ->]|[Hqp Hc]]%insert_cases.
      * cbn [fmt]. rewrite Hbb, E6, E1, upd_eq. by split_and!.
      * apply (fmt_frame s); [| | | |by apply (i_fmt s Hi q)].
        -- intros i Hin. destruct (Hframe i (Hown q c Hc i Hin)) as (-> & -> & ->). done.
        -- intros b' Hb'. rewrite Hbufs, decide_False; [done|]. intros ->. apply Hqp. by apply (i_excl s Hi q p c _ b Hc Hp).
        -- intros i _. by rewrite Eq.
        -- destruct c as [|? ? []| |]; try done; [rewrite Ho, length_app; lia|]. apply (i_ready s Hi) in Hc. congruence.
    + intros h (q & c & Hc & Hhd)%(i_head s Hi). exists q, c. rewrite list_lookup_insert_ne; [done|]. intros <-. rewrite Hp in Hc. by injection Hc as <-.
    + intros h. rewrite Eu. intros Hhu. destruct (Hframe h) as (_ & _ & ->); [|by apply (i_status s Hi)]. apply Hqo. unfold queue. apply elem_of_app. right. apply elem_of_app. by right.
    + intros q [= <-]. exists (Ready b w (i0, i1, i2)). by rewrite list_lookup_insert_eq.
    + intros q b0 w0 idx0 [[-> ?]|[Hqp Hc]]%insert_cases; [done|]. apply (i_ready s Hi) in Hc. congruence.
  - apply stutter; [|by rewrite E8|].
    + intros q. rewrite Hpr. destruct (decide (q = p)) as [->|Hq]; [by rewrite list_lookup_insert_eq, Hp by done|].
      rewrite list_lookup_insert_ne by done. destruct (procs s !! q) as [c|]; [|done]. cbn. f_equal. destruct c as [| | |? ? [[? ?] ?] ?]; try done. cbn. unfold pendq. by rewrite Ea, E7.
    + intros b'. rewrite Hbufs. case_decide; by subst.
Qed.

Lemma start_runs s p b w : inv s -> procs s !! p = Some (Start b w false) -> holder s = None -> runs s (rw_start p b w s).
Proof.
  intros Hi Hp Hh. unfold rw_start. destruct (alloc3_spec s) as [(i0 & i1 & i2 & -> & Hn & Hl)|(s' & l & -> & Hr & Hl & Hf)]; cbn [mbind outcome_bind].
  - eexists. split; [reflexivity|]. apply (started_good s _ p b w i0 i1 i2); auto. apply format_started; [done|]. apply (i_buf s Hi).
  - eexists. split; [reflexivity|]. apply retried_good; auto. by apply (short_owned s l).
Qed.

(** ** All steps *)

Lemma sys_runs s o : inv s -> sys_step s o -> runs s o.
Proof.
  intros Hi [p b w Hp Hh|p b w idx Hp Hh|p b w idx Hp Hh|Hirq Hh|Hh Hu|Hh Hu|Hno Hs|Hno Hs|k h Hk|k h Hk].
  - by apply start_runs.
  - eexists. split; [reflexivity|]. by apply publish_good.
  - by apply finish_runs.
  - eexists. split; [reflexivity|]. by apply intr_begin_good.
  - by apply intr_runs.
  - eexists. split; [reflexivity|]. apply holder_good; [done|done|congruence].
  - eexists. split; [reflexivity|]. by apply fetch_good.
  - eexists. split; [reflexivity|]. by apply io_good.
  - by apply transfer_runs.
  - by apply complete_runs.
Qed.

Lemma not_busy_abs s b : ~ busy b s -> forall x, x ∈ a_st (abs s) -> abuf_of x <> Some b.
Proof.
  intros Hb x (c & -> & Hc)%list_elem_of_fmap E. rewrite apc_buf in E. apply list_elem_of_lookup in Hc as [p Hp]. apply Hb. by exists p, c.
Qed.

Lemma call_good s p b w : inv s -> procs s !! p = Some Idle -> ~ busy b s -> good s (set_procs (<[p := Start b w false]> (procs s)) s).
Proof.
  intros Hi Hp Hb. match goal with |- good _ ?x => set (s' := x) end. assert (Hlt : (p < length (procs s))%nat) by (by apply lookup_lt_Some in Hp).
  destruct (owned_split _ p _ Hp) as (o & Eo1 & Eo2). specialize (Eo2 (Start b w false)). cbn [idxs app] in *.
  assert (Ho : owned (procs s') ≡ₚ owned (procs s)) by (cbn; by rewrite Eo1, Eo2).
  assert (Hoth : forall q c, procs s !! q = Some c -> c <> Idle -> procs s' !! q = Some c) by (intros q c Hc Hne; cbn; rewrite list_lookup_insert_ne; [done|]; intros <-; congruence).
  split.
  - split; rewrite ?Ho; try apply Hi.
    + intros i. rewrite Ho. apply Hi.
    + cbn. intros q q' c c' b0 [[-> ->]|[Hq1 Hc]]%insert_cases [[-> ->]|[Hq2 Hc']]%insert_cases Hb1 Hb2; [done|..].
      * injection Hb1 as <-. destruct Hb. by exists q', c'.
      * injection Hb2 as <-. destruct Hb. by exists q, c.
      * by apply (i_excl s Hi q q' c c' b0).
    + cbn. intros q c [[-> ->]|[Hq Hc]]%insert_cases; [done|]. apply (fmt_frame s); [done..| |by apply (i_fmt s Hi q)].
      destruct c as [|? ? []| |]; try done. by rewrite Ho.
    + intros h (q & c & Hc & Hhd)%(i_head s Hi). exists q, c. split; [|done]. apply Hoth; [done|]. by intros ->.
    + intros q (c & Hc & Hm)%(i_lock s Hi). exists c. split; [|done]. apply Hoth; [done|]. by intros ->.
    + cbn. intros q b0 w0 idx0 [[-> ?]|[Hq Hc]]%insert_cases; [done|]. by apply (i_ready s Hi) in Hc.
  - apply (a_call _ _ p b w); [cbn; by rewrite list_lookup_fmap, Hp|by apply not_busy_abs|]. split_and!; [|done|done]. cbn. by rewrite list_fmap_insert.
Qed.

Lemma client_good s b bn l : inv s -> ~ busy b s -> 0 <= bn < 2147483648 -> length l = BSIZE ->
  good s (set_bufs (upd (bufs s) b (Vbuf bn l (bdisk (bufs s b)))) s).
Proof.
  intros Hi Hb Hbn Hl. match goal with |- good _ ?x => set (s' := x) end. split.
  - split; try apply Hi.
    + intros b'. cbn. unfold upd. case_decide; [done|]. apply Hi.
    + intros q c Hc. cbn in Hc. apply (fmt_frame s); [done| |done|by destruct c as [|? ? []| |]|by apply (i_fmt s Hi q)].
      intros b' Hb'. cbn. rewrite upd_ne; [done|]. intros ->. apply Hb. by exists q, c.
  - apply (a_client _ _ b (bn, l)); [by apply not_busy_abs|]. split_and!; [done|done|]. intros b'. cbn. unfold upd. by case_decide.
Qed.

Lemma step_good s s' : inv s -> step s s' -> good s s'.
Proof.
  intros Hi [Hs|Hs].
  - destruct (sys_runs s _ Hi Hs) as (s1 & [= ->] & Hg). done.
  - destruct Hs; [by apply call_good|by apply client_good|by apply fetch_good|by apply intr_begin_good].
Qed.

(** ** Initialisation *)

(** The features are those offered without the refused ones. *)
Lemma negotiate_bits f n : 0 <= n -> Z.testbit (negotiate f) n = Z.testbit f n && negb (bool_decide (n ∈ refused)).
Proof.
  intros Hn. unfold negotiate. revert f. generalize refused (eq_refl : forallb (Z.leb 0) refused = true). intros l Hl. induction l as [|k l IH]; intros f; [cbn; by rewrite andb_true_r|].
  cbn in Hl. apply andb_true_iff in Hl as [Hk Hl]. apply Z.leb_le in Hk. cbn [foldl]. rewrite (IH Hl). rewrite Z.land_spec, Z.lnot_spec by done. rewrite Z.shiftl_spec by done.
  assert (E : Z.testbit 1 (n - k) = bool_decide (n = k)).
  { destruct (bool_decide_reflect (n = k)) as [Ek|Ek]; [replace (n - k) with 0 by lia; done|]. destruct (decide (n - k < 0)); [by apply Z.testbit_neg_r|]. apply (Z.bits_above_log2 1 (n - k)); cbn; lia. }
  rewrite E. destruct (Z.testbit f n); [|done]. cbn. repeat case_bool_decide; try done; set_solver.
Qed.

(** A block device that answers as the driver expects. *)
Definition device_ok (rd accept : Z -> Z) : Prop :=
  rd 0 = 0x74726976 /\ rd 4 = 2 /\ rd 8 = 2 /\ rd 12 = 0x554d4551 /\ accept 11 = 11 /\ rd 0x44 = 0 /\ 8 <= rd 0x34.

(** With three free pages the driver comes up: it tells the device the
    status step by step, the accepted features and the three pages, which
    are zero and no longer free. *)
Lemma virtio_disk_init_ok kend rd accept s pd pa pu l : 0 < kend -> device_ok rd accept -> kalloc_inv kend s (pd :: pa :: pu :: l) ->
  exists w s', virtio_disk_init rd accept s = Ok (w, (pd, pa, pu), s', free_init NUM 0 zero_disk) /\ kalloc_inv kend s' l /\
    snd <$> filter (fun x => x.1 = VIRTIO_MMIO_STATUS) w = [0; 1; 3; 11; 15] /\
    (VIRTIO_MMIO_DRIVER_FEATURES, u32 (negotiate (rd VIRTIO_MMIO_DEVICE_FEATURES))) ∈ w /\
    forall p x, p ∈ [pd; pa; pu] -> p <= x < p + PGSIZE -> ld8 (pmem s') x = 0.
Proof.
  intros Hk (E1 & E2 & E3 & E4 & E5 & E6 & E7) Hs. unfold virtio_disk_init.
  change VIRTIO_MMIO_MAGIC_VALUE with 0. change VIRTIO_MMIO_VERSION with 4. change VIRTIO_MMIO_DEVICE_ID with 8. change VIRTIO_MMIO_VENDOR_ID with 12.
  change VIRTIO_MMIO_QUEUE_READY with 0x44. change VIRTIO_MMIO_QUEUE_NUM_MAX with 0x34. change (Z.lor (Z.lor (Z.lor 0 VIRTIO_CONFIG_S_ACKNOWLEDGE) VIRTIO_CONFIG_S_DRIVER) VIRTIO_CONFIG_S_FEATURES_OK) with 11.
  rewrite E1, E2, E3, E4, E5, E6. cbn [Z.eqb Pos.eqb negb orb z2b Z.land Pos.land VIRTIO_CONFIG_S_FEATURES_OK]. change (Z.of_nat NUM) with 8. ztest.
  pose proof (ki_pages _ _ _ Hs) as Hpg. apply Forall_cons in Hpg as [Hpd Hpg]. apply Forall_cons in Hpg as [Hpa Hpg]. apply Forall_cons in Hpg as [Hpu Hpl].
  pose proof (ki_nodup _ _ _ Hs) as Hnd.
  destruct (kalloc s) as [r1 s1] eqn:K1. destruct (kalloc_cons kend Hk s pd _ r1 s1 Hs K1) as (-> & Hs1 & _).
  destruct (kalloc s1) as [r2 s2] eqn:K2. destruct (kalloc_cons kend Hk s1 pa _ r2 s2 Hs1 K2) as (-> & Hs2 & _).
  destruct (kalloc s2) as [r3 s3] eqn:K3. destruct (kalloc_cons kend Hk s2 pu _ r3 s3 Hs2 K3) as (-> & Hs3 & _).
  assert (pd <> 0 /\ pa <> 0 /\ pu <> 0) as (N1 & N2 & N3) by (unfold page_ok in *; lia). ztest.
  eexists _, _. split; [reflexivity|].
  assert (Hz : forall m p x, ld8 (memset m p 0 PGSIZE) x = if decide (p <= x < p + PGSIZE) then 0 else ld8 m x) by (intros; by rewrite memset_spec by (unfold PGSIZE; lia)).
  split_and!; [|done|set_solver|].
  - apply kalloc_inv_write; [done|repeat apply memset_wf; [apply (ki_wf _ _ _ Hs3)|unfold PGSIZE; lia..]|]. intros p x Hp Hx.
    assert (Hpp : page_ok kend p) by (rewrite Forall_forall in Hpl; by apply Hpl).
    assert (p <> pd /\ p <> pa /\ p <> pu) as (D1 & D2 & D3) by (rewrite !list.NoDup_cons in Hnd; set_solver).
    rewrite !Hz, !decide_False; [done|..]; [destruct (page_disjoint kend p pd x Hpp Hpd D1 Hx)|destruct (page_disjoint kend p pa x Hpp Hpa D2 Hx)|destruct (page_disjoint kend p pu x Hpp Hpu D3 Hx)]; lia.
  - intros p x Hp Hx. cbn [pmem]. rewrite !Hz. repeat case_decide; try done. set_solver.
Qed.

(** Buffers and sectors of the right size when the system starts. *)
Definition boot_ok (bs : nat -> vbuf) (m : Z -> list Z) : Prop :=
  (forall b, length (data (bs b)) = BSIZE /\ 0 <= blockno (bs b) < 2147483648) /\ forall x, length (m x) = 512%nat.

Lemma boot_inv n bs m : boot_ok bs m -> inv (boot n bs m).
Proof.
  intros [Hb Hm]. assert (Ho : owned (replicate n Idle) = []) by (induction n; done).
  assert (Hid : forall p c, replicate n Idle !! p = Some c -> c = Idle) by (intros p c [-> _]%lookup_replicate; done).
  assert (Hq : queue (boot n bs m) = [] /\ usedq (boot n bs m) = []) by done. destruct Hq as [Hq _].
  split; rewrite ?Hq; cbn [procs boot]; rewrite ?Ho; try done.
  - constructor.
  - intros i. split; [set_solver|]. intros [Hlt Hf]. unfold NUM in Hlt. do 8 (destruct i as [|i]; [done|]). lia.
  - intros p q c c' b Hc. apply Hid in Hc as ->. done.
  - intros p c Hc. by apply Hid in Hc as ->.
  - set_solver.
  - constructor.
  - intros p b w idx Hc. by apply Hid in Hc.
Qed.

Lemma reach_inv n bs m s : boot_ok bs m -> rtc step (boot n bs m) s -> inv s.
Proof. intros Hb Hr. apply boot_inv with (n := n) in Hb. induction Hr as [|x y z Hs _ IH]; [done|]. apply IH. by apply (step_good x). Qed.

(** ** Causes *)

(** An entry of the ring that the device has not read has been notified, an
    entry that the handler has not read is signalled or the handler runs, and
    an interrupt that is not acknowledged is still to be taken. *)
Record caused (s : sys) : Prop := {
  ca_notify : seen s <> avail_idx (dk s) -> notified (io s) = true;
  ca_used : used_idx (dk s) <> dused_idx (dk s) -> holder s = Some Intr \/ irq (io s) = true;
  ca_irq : istatus (io s) = 0 /\ irq (io s) = false \/ istatus (io s) = 1 /\ irq (io s) = true
}.

Lemma caused_same s s' : caused s -> dk s' = dk s -> seen s' = seen s -> io s' = io s -> holder s' = holder s \/ holder s <> Some Intr -> caused s'.
Proof. intros [H1 H2 H3] E1 E2 E3 Eh. split; rewrite ?E1, ?E2, ?E3; [done| |done]. intros Hu. destruct (H2 Hu), Eh; (left; congruence) || by right. Qed.

(** The same for the indices of the rings only. *)
Lemma caused_idx s s' : caused s -> avail_idx (dk s') = avail_idx (dk s) -> used_idx (dk s') = used_idx (dk s) -> dused_idx (dk s') = dused_idx (dk s) ->
  seen s' = seen s -> io s' = io s -> holder s' = holder s \/ holder s <> Some Intr -> caused s'.
Proof. intros [H1 H2 H3] E1 E2 E3 E4 E5 Eh. split; rewrite ?E1, ?E2, ?E3, ?E4, ?E5; [done| |done]. intros Hu. destruct (H2 Hu), Eh; (left; congruence) || by right. Qed.

Lemma caused_start s p b w s' : caused s -> holder s = None -> rw_start p b w s = Ok s' -> caused s'.
Proof.
  intros Hc Hh. unfold rw_start. destruct (alloc3_spec s) as [(i0 & i1 & i2 & -> & _)|(s1 & l & -> & [_ _ (de & fr & E) _] & _)]; cbn [mbind outcome_bind]; intros [= <-].
  - destruct (took_rest [i0; i1; i2] (dk s)) as [fr E]. apply (caused_idx s); try done; cbn -[took]; try (by rewrite E). right. congruence.
  - rewrite E. apply (caused_idx s); try done. by left.
Qed.

Lemma caused_finish s p b w idx s' : inv s -> caused s -> procs s !! p = Some (Wait b w idx false) -> holder s = None \/ holder s = Some (Proc p) -> rw_finish p b w idx s = Ok s' -> caused s'.
Proof.
  intros Hi Hc Hp Hh. assert (Hn : holder s <> Some Intr) by (destruct Hh; congruence). destruct (decide (bdisk (bufs s b) = 1)) as [E|E].
  - unfold rw_finish. rewrite E. intros [= <-]. apply (caused_idx s); try done. by right.
  - destruct idx as [[i0 i1] i2]. destruct (finish_eq s p b w i0 i1 i2 Hi Hp E) as (de & fr & -> & _). intros [= <-]. apply (caused_idx s); try done. by right.
Qed.

Lemma caused_publish s p b w idx : caused s -> caused (rw_publish p b w idx s).
Proof. intros [H1 H2 H3]. by split. Qed.

Lemma caused_begin s : caused s -> caused (intr_begin s).
Proof.
  intros [H1 H2 H3]. split; [done|by left|]. left. split; [|done]. cbn. destruct H3 as [[-> _]|[-> _]]; done.
Qed.

Lemma caused_one s s' : caused s -> holder s = Some Intr -> intr_one s = Ok s' -> caused s'.
Proof. intros [H1 H2 H3] Hh. unfold intr_one. destruct (negb _); [done|]. destruct (info_b _); [|done]. intros [= <-]. split; [done|by left|done]. Qed.

Lemma caused_fetch s : caused s -> seen s <> avail_idx (dk s) -> caused (dev_fetch s).
Proof. intros [H1 H2 H3] Hs. split; [|done..]. intros _. by apply H1. Qed.

Lemma caused_transfer s k h s' : caused s -> dev_transfer k h s = Ok s' -> caused s'.
Proof. intros Hc. unfold dev_transfer. destruct (request _ _) as [[[[[w sec] n] b] j]|?| |]; cbn; try done. intros [= <-]. destruct w; apply (caused_same s); try done; by left. Qed.

Lemma caused_complete s k h s' : caused s -> dev_complete k h s = Ok s' -> caused s'.
Proof.
  intros [H1 H2 H3]. unfold dev_complete. destruct (request _ _) as [[[[[w sec] n] b] j]|?| |]; cbn; try done. intros [= <-].
  assert (Hs : istatus (dev_signal (io s)) = 1 /\ irq (dev_signal (io s)) = true) by (cbn; by destruct H3 as [[-> ->]|[-> ->]]).
  split; [done|..]; right; apply Hs.
Qed.

Lemma sys_caused s s' : inv s -> caused s -> sys_step s (Ok s') -> caused s'.
Proof.
  intros Hi Hc Hs. remember (Ok s') as o eqn:E. revert E.
  destruct Hs as [p b w Hp Hh|p b w idx Hp Hh|p b w idx Hp Hh|Hirq Hh|Hh Hu|Hh Hu|Hno Hs|Hno Hs|k h Hk|k h Hk]; intros E.
  - by apply (caused_start s p b w).
  - injection E as <-. by apply caused_publish.
  - by apply (caused_finish s p b w idx).
  - injection E as <-. by apply caused_begin.
  - by apply (caused_one s).
  - injection E as <-. destruct Hc as [H1 H2 H3]. by split.
  - injection E as <-. by apply caused_fetch.
  - injection E as <-. destruct Hc as [H1 H2 H3]. by split.
  - by apply (caused_transfer s k h).
  - by apply (caused_complete s k h).
Qed.

Lemma step_caused s s' : inv s -> caused s -> step s s' -> caused s'.
Proof.
  intros Hi Hc [Hs|Hs]; [by apply (sys_caused s)|]. destruct Hs as [p b w _ _|b bn l _ _ _|Hs|Hh].
  - apply (caused_same s); try done. by left.
  - apply (caused_same s); try done. by left.
  - by apply caused_fetch.
  - by apply caused_begin.
Qed.

Lemma reach_caused n bs m s : boot_ok bs m -> rtc step (boot n bs m) s -> caused s.
Proof.
  intros Hb Hr. apply boot_inv with (n := n) in Hb. assert (Hc : caused (boot n bs m)) by (split; [done|done|by left]).
  induction Hr as [|x y z Hs _ IH]; [done|]. apply IH; [by apply (step_good x)|by apply (step_caused x)].
Qed.

(** ** Progress *)

Definition weight (c : pc) : nat :=
  match c with
  | Idle => 0
  | Start _ _ false => 20
  | Start _ _ true => 21
  | Ready _ _ _ => 12
  | Wait _ _ _ false => 1
  | Wait _ _ _ true => 2
  end.

Definition fweight (x : nat * bool) : nat := if x.2 then 4 else 6.

(** Every request has a bounded number of steps to go. *)
Definition measure (s : sys) : nat :=
  sum_list_with weight (procs s) + match holder s with None => 0 | Some Intr => 1 | Some (Proc _) => 2 end +
  8 * length (availq s) + sum_list_with fweight (inflight s) + 2 * length (usedq s).

Definition next_step (s s' : sys) : Prop := sys_step s (Ok s').
Definition progress (s : sys) : Prop := exists s', tc next_step s s' /\ (measure s' < measure s)%nat.

Lemma weight_insert l p c c' : l !! p = Some c -> (sum_list_with weight (<[p := c']> l) + weight c = sum_list_with weight l + weight c')%nat.
Proof.
  intros Hp. rewrite insert_take_drop by (by apply lookup_lt_Some in Hp). rewrite <- (take_drop_middle l p c Hp) at 3. rewrite !sum_list_with_app. cbn. lia.
Qed.

Lemma weight_wake_free l : (sum_list_with weight (wake_free <$> l) <= sum_list_with weight l)%nat.
Proof. induction l as [|c l IH]; cbn; [done|]. destruct c as [|? ? []| |]; cbn; lia. Qed.

Lemma weight_wake_buf b l : (sum_list_with weight (wake_buf b <$> l) <= sum_list_with weight l)%nat.
Proof. induction l as [|c l IH]; cbn; [done|]. destruct c as [| | |? ? ? []]; cbn; try case_decide; lia. Qed.

Lemma progress_once s s' : sys_step s (Ok s') -> (measure s' < measure s)%nat -> progress s.
Proof. intros Hs Hm. exists s'. split; [by apply tc_once|done]. Qed.

Lemma progress_fetch s : inv s -> caused s -> seen s <> avail_idx (dk s) -> progress s.
Proof.
  intros Hi Hc Hne. apply (progress_once s (dev_fetch s)); [by constructor; [apply Hc|]|]. unfold measure. rewrite (availq_fetch s Hi Hne).
  change (usedq (dev_fetch s)) with (usedq s). cbn. rewrite sum_list_with_app. cbn. lia.
Qed.

Lemma progress_transfer s k h : inv s -> inflight s !! k = Some (h, false) -> progress s.
Proof.
  intros Hi Hk. destruct (request_of s h Hi (infl_queue s k h false Hk)) as (p & b & w & i1 & i2 & z & _ & _ & _ & Er).
  pose proof (step_transfer s k h Hk) as Hs. unfold dev_transfer in Hs. rewrite Er in Hs. cbn [mbind outcome_bind] in Hs.
  apply (progress_once s _ Hs). destruct (lookup_split _ _ _ Hk) as (l1 & l2 & E1 & E2 & _).
  assert (Hw : (sum_list_with fweight (<[k := (h, true)]> (inflight s)) < sum_list_with fweight (inflight s))%nat) by (rewrite E2, E1, !sum_list_with_app; cbn; lia).
  destruct w; match goal with |- (measure ?x < _)%nat => set (s' := x) end; unfold measure; change (availq s') with (availq s); change (usedq s') with (usedq s); cbn; lia.
Qed.

Lemma progress_complete s k h : inv s -> inflight s !! k = Some (h, true) -> progress s.
Proof.
  intros Hi Hk. destruct (request_of s h Hi (infl_queue s k h true Hk)) as (p & b & w & i1 & i2 & z & _ & _ & _ & Er).
  pose proof (step_complete s k h Hk) as Hs. unfold dev_complete in Hs. rewrite Er in Hs. cbn [mbind outcome_bind] in Hs.
  match type of Hs with sys_step _ (Ok ?x) => set (s1 := x) in * end. destruct (step_good s s1 Hi (by_sys _ _ Hs)) as [Hg _].
  apply (progress_once s s1 Hs). destruct (lookup_split _ _ _ Hk) as (l1 & l2 & E2 & _ & E3).
  destruct (used_count s Hi) as [Hc1 Hc2]. destruct (used_count s1 Hg) as [_ Hc3]. pose proof (queue_le s Hi) as Hq. unfold queue in Hq. rewrite !length_app in Hq.
  change (u16 (dused_idx (dk s1) - used_idx (dk s1))) with (u16 (u16 (dused_idx (dk s) + 1) - used_idx (dk s))) in Hc3. rewrite (u16_succ_minus _ _ _ eq_refl) in Hc3 by lia.
  unfold measure. change (availq s1) with (availq s). change (procs s1) with (procs s). change (holder s1) with (holder s). change (inflight s1) with (delete k (inflight s)).
  rewrite E3, E2, !sum_list_with_app. cbn. lia.
Qed.

Lemma intr_measure s : inv s -> holder s = Some Intr -> used_idx (dk s) <> dused_idx (dk s) -> exists s', sys_step s (Ok s') /\ (measure s' + 2 <= measure s)%nat.
Proof.
  intros Hi Hh Hne. destruct (intr_runs s Hi Hh Hne) as (s' & E & _). exists s'. split; [rewrite <- E; by constructor|].
  pose proof (usedq_cons s Hi Hne) as Eu. revert E. unfold intr_one. rewrite slot_mod. destruct (negb _); [done|]. destruct (info_b _) as [b|]; [|done]. intros [= <-].
  match goal with |- (measure ?x + 2 <= _)%nat => set (s' := x) end. assert (Eu' : (length (usedq s) = S (length (usedq s')))%nat) by (rewrite Eu; unfold usedq, s'; cbn; by rewrite window_u16).
  unfold measure. rewrite Eu'. change (availq s') with (availq s). cbn. pose proof (weight_wake_buf b (procs s)). lia.
Qed.

Lemma progress_intr s : inv s -> caused s -> holder s = None -> used_idx (dk s) <> dused_idx (dk s) -> progress s.
Proof.
  intros Hi Hc Hh Hne. assert (Hs : sys_step s (Ok (intr_begin s))) by (constructor; [destruct (ca_used s Hc Hne); [congruence|done]|done]). destruct (step_good s _ Hi (by_sys _ _ Hs)) as [Hi' _].
  destruct (intr_measure _ Hi' eq_refl Hne) as (s' & Hs' & Hm). exists s'. split; [by apply (tc_l _ _ _ _ Hs), tc_once|].
  assert (measure (intr_begin s) = measure s + 1)%nat by (unfold measure; rewrite Hh; change (availq (intr_begin s)) with (availq s); change (usedq (intr_begin s)) with (usedq s); cbn [holder intr_begin set_io set_holder procs inflight]; lia). lia.
Qed.

Lemma progress_publish s p b w idx : inv s -> procs s !! p = Some (Ready b w idx) -> holder s = Some (Proc p) -> progress s.
Proof.
  intros Hi Hp Hh. assert (Hs : sys_step s (Ok (rw_publish p b w idx s))) by (by constructor). apply (progress_once s _ Hs).
  destruct (step_good s _ Hi (by_sys _ _ Hs)) as [Hi' _]. destruct (avail_count s Hi) as [Hc1 Hc2]. destruct (avail_count _ Hi') as [_ Hc3].
  pose proof (queue_le s Hi) as Hq. unfold queue in Hq. rewrite !length_app in Hq. unfold rw_publish in Hc3 at 2 3. cbn [dk set_procs set_dk set_io avail_idx set_avail seen] in Hc3.
  rewrite (u16_succ_minus _ _ _ eq_refl) in Hc3 by lia. pose proof (weight_insert (procs s) p _ (Wait b w idx false) Hp) as Hw. cbn [weight] in Hw.
  unfold measure. change (usedq (rw_publish p b w idx s)) with (usedq s). cbn [procs rw_publish set_procs holder inflight set_dk set_io]. lia.
Qed.

Lemma progress_finish s p b w idx : inv s -> procs s !! p = Some (Wait b w idx false) -> holder s = Some (Proc p) \/ holder s = None /\ bdisk (bufs s b) <> 1 -> progress s.
Proof.
  intros Hi Hp Hh. assert (Hh' : holder s = None \/ holder s = Some (Proc p)) by naive_solver.
  pose proof (step_finish s p b w idx Hp Hh') as Hs. destruct (decide (bdisk (bufs s b) = 1)) as [E|E].
  - destruct Hh as [Hh|[_ ?]]; [|done]. unfold rw_finish in Hs. rewrite E in Hs. cbn [Z.eqb Pos.eqb] in Hs. apply (progress_once s _ Hs).
    pose proof (weight_insert (procs s) p _ (Wait b w idx true) Hp) as Hw. cbn [weight] in Hw. unfold measure. rewrite Hh.
    change (availq (set_holder _ _)) with (availq s). change (usedq (set_holder _ _)) with (usedq s). cbn [procs set_holder set_procs holder inflight]. lia.
  - destruct idx as [[i0 i1] i2]. destruct (finish_eq s p b w i0 i1 i2 Hi Hp E) as (de & fr & Ef & _). rewrite Ef in Hs. apply (progress_once s _ Hs).
    assert (Hp' : (wake_free <$> procs s) !! p = Some (Wait b w (i0, i1, i2) false)) by (by rewrite list_lookup_fmap, Hp).
    pose proof (weight_insert _ p _ Idle Hp') as Hw. pose proof (weight_wake_free (procs s)). cbn [weight] in Hw. match goal with |- (measure ?x < _)%nat => set (s' := x) end.
    unfold measure. change (availq s') with (availq s). change (usedq s') with (usedq s). cbn [procs s' holder inflight]. destruct (holder s) as [[]|]; lia.
Qed.

Lemma progress_start s p b w : inv s -> procs s !! p = Some (Start b w false) -> holder s = None -> owned (procs s) = [] -> progress s.
Proof.
  intros Hi Hp Hh Ho. pose proof (step_start s p b w Hp Hh) as Hs. unfold rw_start in Hs. destruct (alloc3_spec s) as [(i0 & i1 & i2 & Ea & Hn & Hl)|(s' & l & _ & _ & Hl & Hf)].
  - rewrite Ea in Hs. cbn [mbind outcome_bind] in Hs. match type of Hs with sys_step _ (Ok ?x) => set (s' := x) in * end. apply (progress_once s _ Hs).
    destruct (started_queue s s' p b w i0 i1 i2 Hi) as (E1 & E2 & _); [apply format_started; [done|apply (i_buf s Hi)]|apply Hl; left| |].
    { intros (q & c & Hc & Hhd)%(i_head s Hi). assert (i0 ∈ owned (procs s)) by (apply elem_owned; exists q, c; split; [done|by apply head_idxs]). rewrite Ho in *. set_solver. }
    pose proof (weight_insert (procs s) p _ (Ready b w (i0, i1, i2)) Hp) as Hw. cbn [weight] in Hw. unfold measure. rewrite E1, E2, Hh. cbn [procs s' set_holder set_procs holder inflight format set_bufs set_dk]. lia.
  - pose proof (short_owned s l Hi Hl Hf) as H6. rewrite Ho in H6. cbn in H6. lia.
Qed.

Lemma progress_quiet s : inv s -> holder s = None -> queue s = [] -> forall p c, procs s !! p = Some c -> c <> Idle -> progress s.
Proof.
  intros Hi Hh Hq p c Hp Hc.
  assert (Hwait : forall q b w idx z, procs s !! q = Some (Wait b w idx z) -> progress s).
  { intros q b w [[i0 i1] i2] z Hw. pose proof (i_fmt s Hi q _ Hw) as (_ & _ & Hd & Hz). rewrite Hq in Hd. assert (Hb : bdisk (bufs s b) <> 1) by (intros Hb; apply Hd in Hb; set_solver).
    destruct z; [by specialize (Hz eq_refl)|]. apply (progress_finish s q b w (i0, i1, i2)); auto. }
  assert (Hready : forall q b w idx, procs s !! q <> Some (Ready b w idx)) by (intros q b w idx E; apply (i_ready s Hi) in E; congruence).
  destruct c as [|b w z|b w idx|b w idx z]; [done| |by apply Hready in Hp|by eapply Hwait].
  destruct (owned (procs s)) as [|i o] eqn:Ho.
  - pose proof (i_fmt s Hi p _ Hp) as Hz. cbn in Hz. rewrite Ho in Hz. destruct z; [specialize (Hz eq_refl); cbn in Hz; lia|]. by apply (progress_start s p b w).
  - assert (i ∈ owned (procs s)) as (q & c & Hq' & Hin)%elem_owned by (rewrite Ho; left). destruct c as [| |b' w' idx'|b' w' idx' z']; cbn in Hin; [set_solver..| |by eapply Hwait]. by apply Hready in Hq'.
Qed.

Lemma progress_made s p c : inv s -> caused s -> procs s !! p = Some c -> c <> Idle -> progress s.
Proof.
  intros Hi Hca Hp Hc. destruct (holder s) as [[q|]|] eqn:Hh.
  - destruct (i_lock s Hi q Hh) as (x & Hx & Hm). destruct x as [|b w z|b w idx|b w idx []]; try done; [by apply (progress_publish s q b w idx)|]. apply (progress_finish s q b w idx); auto.
  - destruct (decide (used_idx (dk s) = dused_idx (dk s))) as [E|E].
    + assert (Hs : sys_step s (Ok (set_holder None s))) by (by constructor). apply (progress_once s _ Hs). unfold measure. rewrite Hh.
      change (availq (set_holder _ s)) with (availq s). change (usedq (set_holder _ s)) with (usedq s). cbn [procs set_holder holder inflight]. lia.
    + destruct (intr_measure s Hi Hh E) as (s' & Hs & Hm). apply (progress_once s s' Hs). lia.
  - destruct (decide (seen s = avail_idx (dk s))) as [Ea|Ea]; [|by apply progress_fetch].
    destruct (inflight s) as [|[h []] l] eqn:Ef; [|by apply (progress_complete s 0 h Hi); rewrite Ef|by apply (progress_transfer s 0 h Hi); rewrite Ef].
    destruct (decide (used_idx (dk s) = dused_idx (dk s))) as [Eu|Eu]; [|by apply progress_intr].
    apply (progress_quiet s Hi Hh) with (p := p) (c := c); auto. unfold queue, availq, usedq. by rewrite Ef, Ea, Eu, !Z.sub_diag.
Qed.

Lemma tc_inv s s' : inv s -> caused s -> tc next_step s s' -> inv s' /\ caused s'.
Proof.
  intros Hi Hc Ht. induction Ht as [x y Hs|x y z Hs _ IH].
  - split; [by apply (step_good x _ Hi (by_sys _ _ Hs))|by apply (sys_caused x)].
  - apply IH; [by apply (step_good x _ Hi (by_sys _ _ Hs))|by apply (sys_caused x)].
Qed.

Lemma finishes n : forall s, (measure s <= n)%nat -> inv s -> caused s -> exists s', rtc next_step s s' /\ Forall (eq Idle) (procs s').
Proof.
  induction n as [n IH] using lt_wf_ind. intros s Hm Hi Hca. destruct (decide (Forall (fun c => buf_of c = None) (procs s))) as [Hall|Hex].
  - exists s. split; [done|]. apply (Forall_impl _ _ _ Hall). intros c Hc. by destruct c.
  - apply not_Forall_Exists in Hex; [|intros c; apply option_eq_dec]. apply Exists_exists in Hex as (c & Hc & Hne). apply list_elem_of_lookup in Hc as [p Hp].
    destruct (progress_made s p c Hi Hca Hp ltac:(intros ->; by apply Hne)) as (s1 & Ht & Hlt).
    destruct (tc_inv s s1 Hi Hca Ht) as [Hi1 Hc1]. destruct (IH (measure s1) ltac:(lia) s1 ltac:(lia) Hi1 Hc1) as (s' & Hr & Hf). exists s'. split; [|done]. etrans; [by apply tc_rtc|done].
Qed.

(** C38: the disk driver serves every call, and never fails.  In every state
    that the system reaches, whatever processes call [virtio_disk_rw], however the device interleaves
    its work with the driver's steps, in whatever order it finishes the
    requests, and also if it looks at the ring unasked or the handler runs
    without a cause: no step panics (a descriptor is not freed twice, the interrupt
    handler finds the buffer of every entry and a good status), the device
    never finds a chain it cannot understand, and every step is a step of
    the abstract disk, on which the block of the buffer is transferred as a
    whole at one moment between the call and the return. *)
Theorem virtio_disk_serves n bs m s : boot_ok bs m -> rtc step (boot n bs m) s ->
  (forall o, sys_step s o -> exists s', o = Ok s') /\ (forall s', step s s' -> astep (abs s) (abs s')).
Proof.
  intros Hb Hr. pose proof (reach_inv n bs m s Hb Hr) as Hi. split.
  - intros o Ho. destruct (sys_runs s o Hi Ho) as (s' & -> & _). eauto.
  - intros s' Hs. by apply (step_good s s').
Qed.

(** A buffer of block 7, and a disk of zeros. *)
Definition bufs0 : nat -> vbuf := fun _ => Vbuf 7 zero_block 0.
Definition sectors0 : Z -> list Z := fun _ => replicate 512 0.

Lemma boot0_ok : boot_ok bufs0 sectors0.
Proof. split; [intros b; split; [done|cbn; lia]|intros x; apply length_replicate]. Qed.

(** A process that has called [virtio_disk_rw(b, 1)]. *)
Definition called0 : sys := set_procs [Start 3 true false] (boot 1 bufs0 sectors0).

Lemma called0_reached : rtc step (boot 1 bufs0 sectors0) called0.
Proof. apply rtc_once. apply by_env. apply (step_call (boot 1 bufs0 sectors0) 0 3 true); [done|]. intros (p & c & Hp & Hb). destruct p as [|p]; [by injection Hp as <-|done]. Qed.

Lemma virtio_disk_serves_witness : (forall o, sys_step called0 o -> exists s', o = Ok s') /\ (forall s', step called0 s' -> astep (abs called0) (abs s')).
Proof. apply (virtio_disk_serves 1 bufs0 sectors0 called0); [exact boot0_ok|exact called0_reached]. Defined.

(** C39: no call waits for ever.  From every state that the system reaches,
    steps of the processes, of the device and of the interrupt handler lead to
    a state in which every call has returned, where the device looks at the
    ring only if the driver has notified it, and the handler runs only if the
    device has signalled an interrupt, which it does only when the earlier one
    has been acknowledged: no notification, no interrupt and no wake-up is
    lost, neither for a process that waits for descriptors nor for one that
    waits for the device, and no combination of calls blocks the others. *)
Theorem virtio_disk_returns n bs m s : boot_ok bs m -> rtc step (boot n bs m) s ->
  exists s', rtc next_step s s' /\ Forall (eq Idle) (procs s').
Proof. intros Hb Hr. apply (finishes (measure s)); [done|by apply (reach_inv n bs m)|by apply (reach_caused n bs m)]. Qed.

Lemma virtio_disk_returns_witness : exists s', rtc next_step called0 s' /\ Forall (eq Idle) (procs s').
Proof. apply (virtio_disk_returns 1 bufs0 sectors0 called0); [exact boot0_ok|exact called0_reached]. Defined.
