(* ===== verification/Usys.v ===== *)
(** * User programs and the system calls they make

    A user program is a function of the state [W] of the system, through the
    system calls of the class [Sys] only: it returns to its caller, calls
    [exit], reads through a pointer that C leaves undefined, or uses up the
    fuel of a loop.  The functions of user/ulib.c and user/printf.c that make
    system calls are at the end. *)
From S2P Require Import Prelude Cstring Ulib Printf Uprintf.

Abbreviation str := (list Z).

(** ** Results of programs *)

Inductive ures (W A : Type) : Type :=
| Ret (a : A) (w : W)
| Exited (status : Z) (w : W)
| Undef
| Loops.
Arguments Ret {W A} a w.
Arguments Exited {W A} status w.
Arguments Undef {W A}.
Arguments Loops {W A}.

Definition prog (W A : Type) : Type := W -> ures W A.

#[export] Instance prog_ret {W} : MRet (prog W) := fun A a w => Ret a w.
#[export] Instance prog_bind {W} : MBind (prog W) := fun A B f m w =>
  match m w with
  | Ret a w => f a w
  | Exited status w => Exited status w
  | Undef => Undef
  | Loops => Loops
  end.

Definition exit {W A} (status : Z) : prog W A := fun w => Exited status w.
Definition undef {W A} : prog W A := fun _ => Undef.
Definition loops {W A} : prog W A := fun _ => Loops.

(** A call of the system. *)
Definition sys {W A} (f : W -> A * W) : prog W A := fun w => let (a, w) := f w in Ret a w.

(** The end of a program: where control is when it is over. *)
Definition finishes {W A} (m : prog W A) (w : W) (status : Z) (w' : W) : Prop := m w = Exited status w'.

(** ** The system calls *)

(** [struct stat] of kernel/stat.h, as far as programs read it. *)
Record stat := Stat { st_type : Z; st_ino : Z; st_size : Z }.

Definition T_DIR : Z := 1.
Definition T_FILE : Z := 2.
Definition T_DEVICE : Z := 3.
Definition O_RDONLY : Z := 0.
Definition O_RDWR : Z := 2.
Definition O_CREATE : Z := 512.

(** [read] gives the bytes that the kernel stores in the buffer, whose
    number it returns, or nothing for -1; [fstat] the fields, or nothing. *)
Class Sys (W : Type) := {
  sys_open : str -> Z -> W -> Z * W;
  sys_close : Z -> W -> Z * W;
  sys_read : Z -> nat -> W -> option (list Z) * W;
  sys_write : Z -> list Z -> W -> Z * W;
  sys_fstat : Z -> W -> option stat * W;
  sys_link : str -> str -> W -> Z * W;
  sys_unlink : str -> W -> Z * W;
  sys_mkdir : str -> W -> Z * W;
  sys_kill : Z -> W -> Z * W;
  sys_sleep : Z -> W -> Z * W
}.

Section Calls.
Context {W : Type} {SY : Sys W}.

Definition open (path : str) (omode : Z) : prog W Z := sys (sys_open path omode).
Definition close (fd : Z) : prog W Z := sys (sys_close fd).
Definition read (fd : Z) (n : nat) : prog W (option (list Z)) := sys (sys_read fd n).
Definition write (fd : Z) (buf : list Z) : prog W Z := sys (sys_write fd buf).
Definition fstat (fd : Z) : prog W (option stat) := sys (sys_fstat fd).
Definition link (old new : str) : prog W Z := sys (sys_link old new).
Definition unlink (path : str) : prog W Z := sys (sys_unlink path).
Definition mkdir (path : str) : prog W Z := sys (sys_mkdir path).
Definition kill (pid : Z) : prog W Z := sys (sys_kill pid).
Definition sleep (n : Z) : prog W Z := sys (sys_sleep n).

(** ** user/ulib.c *)

(** [main] may return; its value is not used. *)
Definition start {A} (main : prog W A) : prog W unit := _ ← main; exit 0.

Definition ustat (n : str) : prog W (option stat) :=
  fd ← open n O_RDONLY;
  if fd <? 0 then mret None
  else
    r ← fstat fd;
    _ ← close fd;
    mret r.

Definition isdir (path : str) : prog W bool :=
  st ← ustat path;
  match st with
  | None => mret false
  | Some st => mret (st_type st =? T_DIR)
  end.

(** ** user/printf.c *)

Definition putc (fd c : Z) : prog W unit := _ ← write fd [c]; mret tt.

Fixpoint puts (fd : Z) (out : list Z) : prog W unit :=
  match out with
  | [] => mret tt
  | c :: out => _ ← putc fd c; puts fd out
  end.

(** A directive without its argument reads an undefined one. *)
Definition fprintf (fd : Z) (fmt : list Z) (ap : list varg) : prog W unit :=
  match Uprintf.vprintf fmt ap with
  | Ok out => puts fd out
  | NoFuel => loops
  | _ => undef
  end.

Definition printf (fmt : list Z) (ap : list varg) : prog W unit := fprintf 1 fmt ap.

End Calls.

(** A string literal of C; the escape for a newline is the only one used. *)
Fixpoint unescape (s : list Z) : list Z :=
  match s with
  | 92 :: 110 :: s => 10 :: unescape s
  | c :: s => c :: unescape s
  | [] => []
  end.
Definition lit (s : string) : list Z :=
  unescape (map (fun a => Z.of_N (Ascii.N_of_ascii a)) (String.list_ascii_of_string s)).
