(* ===== verification/Cmds.v ===== *)
(** * The small commands: cat, wc, wce, tail, diff, echo, add, fact, sleep,
    kill, ln, rm, mkdir and touch

    Each program of user/ is a function of its arguments, [argv] without the
    null pointer at the end, over the system calls of Usys.v.  The loops that
    run to the end of a file carry fuel. *)
From S2P Require Import Prelude Cstring Ulib Printf Uprintf Usys.

(** The test of the commands for the argument that asks for help. *)
Definition asks_usage (argv : list str) : bool :=
  (length argv =? 2)%nat && (at_ (default [] (argv !! 1%nat)) 0 =? 63) && (at_ (default [] (argv !! 1%nat)) 1 =? 0).

(** [argv[i]]; the null pointer at the end is undefined to read through. *)
Definition arg_or_undef {W} (argv : list str) (i : nat) : prog W str :=
  match argv !! i with Some a => mret a | None => undef end.

Section Cmds.
Context {W : Type} {SY : Sys W}.

(** ** user/cat.c *)

Fixpoint cat (fuel : nat) (fd : Z) : prog W unit :=
  match fuel with
  | O => loops
  | S f =>
      n ← read fd 512;
      match n with
      | None => _ ← fprintf 2 (lit "cat: read error\n") []; exit 1
      | Some [] => mret tt
      | Some buf =>
          r ← write 1 buf;
          if negb (r =? Z.of_nat (length buf)) then _ ← fprintf 2 (lit "cat: write error\n") []; exit 1
          else cat f fd
      end
  end.

Fixpoint cat_files (fuel : nat) (files : list str) : prog W unit :=
  match files with
  | [] => exit 0
  | path :: files =>
      fd ← open path O_RDONLY;
      if fd <? 0 then _ ← fprintf 2 (lit "cat: cannot open %s\n") [Str (Some path)]; exit 1
      else
        _ ← cat fuel fd;
        _ ← close fd;
        cat_files fuel files
  end.

Definition cat_main (fuel : nat) (argv : list str) : prog W unit :=
  if (length argv <=? 1)%nat then _ ← cat fuel 0; exit 0
  else cat_files fuel (drop 1 argv).

(** ** user/wc.c *)

Record counts := Counts { cl : Z; cw : Z; cc : Z; inword : bool }.

Definition in_set (set : list Z) (ch : Z) : bool := match Ulib.strchr set ch with Some _ => true | None => false end.

(** The characters after which [wc] is no longer in a word. *)
Definition wc_blank : list Z := [32; 13; 9; 10; 11].

Definition wc_char (s : counts) (ch : Z) : counts :=
  let c := s32 (cc s + 1) in
  let l := if ch =? 10 then s32 (cl s + 1) else cl s in
  if in_set wc_blank ch then Counts l (cw s) c false
  else if negb (inword s) then Counts l (s32 (cw s + 1)) c true
  else Counts l (cw s) c (inword s).

Fixpoint wc_loop (fuel : nat) (fd : Z) (s : counts) : prog W counts :=
  match fuel with
  | O => loops
  | S f =>
      n ← read fd 512;
      match n with
      | None => _ ← printf (lit "wc: read error\n") []; exit 1
      | Some [] => mret s
      | Some buf => wc_loop f fd (foldl wc_char s buf)
      end
  end.

Definition wc (fuel : nat) (fd : Z) (name : str) : prog W unit :=
  s ← wc_loop fuel fd (Counts 0 0 0 false);
  printf (lit "%d %d %d %s\n") [Word (cl s); Word (cw s); Word (cc s); Str (Some name)].

Fixpoint wc_files (fuel : nat) (files : list str) : prog W unit :=
  match files with
  | [] => exit 0
  | path :: files =>
      fd ← open path O_RDONLY;
      if fd <? 0 then _ ← printf (lit "wc: cannot open %s\n") [Str (Some path)]; exit 1
      else
        _ ← wc fuel fd path;
        _ ← close fd;
        wc_files fuel files
  end.

Definition wc_main (fuel : nat) (argv : list str) : prog W unit :=
  if asks_usage argv then printf (lit "Usage: wc <file_path>\n") []
  else if (length argv <=? 1)%nat then _ ← wc fuel 0 []; exit 0
  else wc_files fuel (drop 1 argv).

(** ** user/wce.c *)

Record flags := Flags { flag_l : bool; flag_w : bool; flag_c : bool; flag_L : bool }.

(** The counts of [wc], [L] and [oldc]. *)
Record ecounts := ECounts { el : Z; ew : Z; ec : Z; einword : bool; eL : Z; eold : Z }.

Definition wce_blank : list Z := [32; 13; 9; 10; 11; 12].

Definition wce_char (s : ecounts) (ch : Z) : ecounts :=
  let c := s32 (ec s + 1) in
  let '(w, iw) :=
    if in_set wce_blank ch then (ew s, false)
    else if negb (einword s) then (s32 (ew s + 1), true)
    else (ew s, einword s) in
  if ch =? 10 then
    let L := if eL s <? s32 (c - eold s) then s32 (c - eold s) else eL s in
    ECounts (s32 (el s + 1)) w c iw L c
  else ECounts (el s) w c iw (eL s) (eold s).

Fixpoint wce_loop (fuel : nat) (fd : Z) (s : ecounts) : prog W ecounts :=
  match fuel with
  | O => loops
  | S f =>
      n ← read fd 512;
      match n with
      | None => _ ← printf (lit "wc: read error\n") []; exit 1
      | Some [] => mret s
      | Some buf => wce_loop f fd (foldl wce_char s buf)
      end
  end.

(** [L] with the line after the last newline. *)
Definition longest (s : ecounts) : Z := if eL s <? s32 (ec s - eold s) then s32 (ec s - eold s) else eL s.

Definition wce (fuel : nat) (fl : flags) (fd : Z) (name : str) : prog W unit :=
  s ← wce_loop fuel fd (ECounts 0 0 0 false 0 0);
  let L := longest s in
  if negb (flag_l fl) && negb (flag_w fl) && negb (flag_c fl) && negb (flag_L fl) then
    if negb (at_ name 0 =? 0) then
      printf (lit "line count is %d word count is %d char count is %d the longest line length is %d %s\n")
        [Word (el s); Word (ew s); Word (ec s); Word L; Str (Some name)]
    else
      printf (lit "line count is %d word count is %d char count is %d the longest line length is %d\n")
        [Word (el s); Word (ew s); Word (ec s); Word L]
  else
    _ ← (if flag_l fl then printf (lit "%d ") [Word (el s)] else mret tt);
    _ ← (if flag_w fl then printf (lit "%d ") [Word (ew s)] else mret tt);
    _ ← (if flag_c fl then printf (lit "%d ") [Word (ec s)] else mret tt);
    _ ← (if flag_L fl then printf (lit "%d ") [Word L] else mret tt);
    _ ← (if negb (at_ name 0 =? 0) then printf (lit "%s") [Str (Some name)] else mret tt);
    printf (lit "\n") [].

(** The letters of one argument. *)
Fixpoint wce_letters (arg : str) (fl : flags) : prog W flags :=
  match arg with
  | [] => mret fl
  | ch :: arg =>
      if ch =? 108 then wce_letters arg (Flags true (flag_w fl) (flag_c fl) (flag_L fl))
      else if ch =? 119 then wce_letters arg (Flags (flag_l fl) true (flag_c fl) (flag_L fl))
      else if ch =? 99 then wce_letters arg (Flags (flag_l fl) (flag_w fl) true (flag_L fl))
      else if ch =? 76 then wce_letters arg (Flags (flag_l fl) (flag_w fl) (flag_c fl) true)
      else _ ← printf (lit "wc: unknown flag -%c\n") [Word ch]; exit 1
  end.

(** The arguments up to the first that is no cluster of flags. *)
Fixpoint wce_flags (args : list str) (fl : flags) : prog W (flags * list str) :=
  match args with
  | [] => mret (fl, [])
  | arg :: rest =>
      if negb (at_ arg 0 =? 45) || (at_ arg 1 =? 0) then mret (fl, args)
      else
        fl ← wce_letters (drop 1 arg) fl;
        wce_flags rest fl
  end.

Fixpoint wce_files (fuel : nat) (fl : flags) (files : list str) : prog W unit :=
  match files with
  | [] => exit 0
  | path :: files =>
      fd ← open path O_RDONLY;
      if fd <? 0 then _ ← printf (lit "wc: cannot open %s\n") [Str (Some path)]; exit 1
      else
        _ ← wce fuel fl fd path;
        _ ← close fd;
        wce_files fuel fl files
  end.

Definition wce_main (fuel : nat) (argv : list str) : prog W unit :=
  if asks_usage argv then printf (lit "Usage: wc <file_path>\n") []
  else
    '(fl, files) ← wce_flags (drop 1 argv) (Flags false false false false);
    match files with
    | [] => _ ← wce fuel fl 0 []; exit 0
    | _ => wce_files fuel fl files
    end.

(** ** user/tail.c *)

(** The scan for the option: the last [-n] gives the number; the argument
    after it is examined as an option too. *)
Fixpoint tail_count (args : list str) (nlines : Z) : prog W (Z + Z) :=
  match args with
  | [] => mret (inl nlines)
  | a :: args =>
      if Ulib.strcmp a (lit "-n") =? 0 then
        targetInt ← arg_or_undef args 0;
        if negb (Ulib.is_valid_int targetInt) then
          _ ← printf (lit "tail: %s is not a valid integer\n") [Str (Some targetInt)]; mret (inr (-1))
        else tail_count args (Ulib.atoi targetInt)
      else tail_count args nlines
  end.

(** The first argument that is neither the option nor its number. *)
Fixpoint tail_path (args : list str) : option str :=
  match args with
  | [] => None
  | a :: args' =>
      if Ulib.strcmp a (lit "-n") =? 0 then match args' with [] => None | _ :: args'' => tail_path args'' end
      else Some a
  end.

(** The scan from the end of the buffer, with [i + 1 = k]: the index at which
    the output starts. *)
Fixpoint tail_scan (buf : list Z) (nlines : Z) (k : nat) (lines : Z) : nat :=
  match k with
  | O => 0
  | S i =>
      let lines := if default 0 (buf !! i) =? 10 then lines + 1 else lines in
      if nlines <? lines then S i else tail_scan buf nlines i lines
  end.

Definition tail_fd (nlines fd : Z) (close_fd : bool) : prog W Z :=
  nread ← read fd 600;
  match nread with
  | None | Some [] => _ ← (if close_fd then close fd else mret 0); mret 0
  | Some buf =>
      let i := tail_scan buf nlines (length buf) 0 in
      _ ← (if (0 <? length buf - i)%nat then write 1 (drop i buf) else mret 0);
      _ ← (if close_fd then close fd else mret 0);
      mret 0
  end.

Definition tail_main (argv : list str) : prog W Z :=
  if asks_usage argv then _ ← printf (lit "Usage: tail file1 ?-n <nlines>\n") []; mret 0
  else
    r ← tail_count (drop 1 argv) 10;
    match r with
    | inr r => mret r
    | inl nlines =>
        if nlines <? 0 then _ ← printf (lit "tail: nlines can't be negative \n") []; mret (-1)
        else
          match tail_path (drop 1 argv) with
          | None => tail_fd nlines 0 false
          | Some path =>
              fd ← open path O_RDONLY;
              if fd <? 0 then _ ← printf (lit "tail: cannot open %s\n") [Str (Some path)]; mret (-1)
              else tail_fd nlines fd true
          end
    end.

(** ** user/diff.c *)

(** [room] bytes of [buf] are left; the line so far is [buf].  A line that
    does not fit overruns the array. *)
Fixpoint read_line_loop (room : nat) (fd : Z) (buf : str) : prog W (option str) :=
  r ← read fd 1;
  match r with
  | Some (c :: _) =>
      if c =? 10 then mret (Some buf)
      else match room with
           | O | 1%nat => undef
           | S room => read_line_loop room fd (buf ++ [c])
           end
  | Some [] => mret (if (length buf =? 0)%nat then None else Some buf)
  | None => mret (Some buf)
  end.

Definition read_line (fd : Z) : prog W (option str) := read_line_loop 128 fd [].

(** The loop over the lines; the result is [differences]. *)
Fixpoint diff_loop (fuel : nat) (fd1 fd2 : Z) (file1 file2 : str) (line_num differences : Z) : prog W Z :=
  match fuel with
  | O => loops
  | S f =>
      n1 ← read_line fd1;
      n2 ← read_line fd2;
      match n1, n2 with
      | None, None => mret differences
      | None, Some buf2 =>
          _ ← printf (lit "Line %d only in %s:\n> %s\n") [Word line_num; Str (Some file2); Str (Some buf2)];
          diff_loop f fd1 fd2 file1 file2 (s32 (line_num + 1)) (s32 (differences + 1))
      | Some buf1, None =>
          _ ← printf (lit "Line %d only in %s:\n< %s\n") [Word line_num; Str (Some file1); Str (Some buf1)];
          diff_loop f fd1 fd2 file1 file2 (s32 (line_num + 1)) (s32 (differences + 1))
      | Some buf1, Some buf2 =>
          if negb (Ulib.strcmp buf1 buf2 =? 0) then
            _ ← printf (lit "Line %d differs:\n< %s\n> %s\n") [Word line_num; Str (Some buf1); Str (Some buf2)];
            diff_loop f fd1 fd2 file1 file2 (s32 (line_num + 1)) (s32 (differences + 1))
          else diff_loop f fd1 fd2 file1 file2 (s32 (line_num + 1)) differences
      end
  end.

Definition diff_main (fuel : nat) (argv : list str) : prog W unit :=
  if asks_usage argv then printf (lit "Usage: diff <file1> <file2>\n") []
  else
    match argv with
    | [_; file1; file2] =>
        fd1 ← open file1 0;
        fd2 ← open file2 0;
        if (fd1 <? 0) || (fd2 <? 0) then _ ← printf (lit "Error opening files\n") []; exit 1
        else
          differences ← diff_loop fuel fd1 fd2 file1 file2 1 0;
          _ ← (if differences =? 0 then printf (lit "Files are identical\n") [] else mret tt);
          _ ← close fd1;
          _ ← close fd2;
          exit 0
    | _ => _ ← fprintf 2 (lit "diff: Incorrect usage, diff <file1> <file2> \n") []; exit 1
    end.

(** ** user/echo.c, user/add.c, user/fact.c *)

Fixpoint echo_args (args : list str) : prog W unit :=
  match args with
  | [] => exit 0
  | a :: args =>
      _ ← write 1 a;
      _ ← (match args with [] => write 1 [10] | _ => write 1 [32] end);
      echo_args args
  end.
Definition echo_main (argv : list str) : prog W unit := echo_args (drop 1 argv).

Definition add_main (argv : list str) : prog W Z :=
  if asks_usage argv then _ ← printf (lit "Usage: add <a> <b>\n") []; mret 0
  else
    match argv with
    | [_; a1; a2] =>
        if negb (Ulib.is_valid_int a1) then
          _ ← fprintf 2 (lit "add: '%s' is not a valid integer\n") [Str (Some a1)]; mret (-1)
        else if negb (Ulib.is_valid_int a2) then
          _ ← fprintf 2 (lit "add: '%s' is not a valid integer\n") [Str (Some a2)]; mret (-1)
        else
          let a := Ulib.atoi a1 in
          let b := Ulib.atoi a2 in
          _ ← printf (lit "%d\n") [Word (s32 (a + b))]; mret 0
    | _ => _ ← fprintf 2 (lit "incorrect usage") []; mret (-1)
    end.

(** The loop of fact from [i = k + 1] down to 2. *)
Fixpoint fact_loop (k : nat) (n : Z) : Z :=
  match k with
  | O => n
  | S k' => fact_loop k' (s32 (n * (Z.of_nat k + 1)))
  end.

Definition fact_main (argv : list str) : prog W Z :=
  if asks_usage argv then _ ← printf (lit "Usage: fact <num>\n") []; mret 0
  else
    match argv with
    | [_; a] =>
        if negb (Ulib.is_valid_int a) then
          _ ← fprintf 2 (lit "add: '%s' is not a valid integer\n") [Str (Some a)]; mret (-1)
        else
          let n := Ulib.atoi a in
          if n <? 0 then _ ← fprintf 2 (lit "cannot take in a negative value \n") []; mret (-1)
          else
            let n := fact_loop (Z.to_nat (n - 2)) n in
            _ ← fprintf 2 (lit "%d\n") [Word n]; mret 0
    | _ => _ ← fprintf 2 (lit "fact: incorrect usage, fact <num>\n") []; mret (-1)
    end.

(** ** user/sleep.c, user/kill.c, user/ln.c, user/rm.c, user/mkdir.c,
    user/touch.c *)

Definition sleep_main (argv : list str) : prog W Z :=
  match argv with
  | [_; a] =>
      if at_ a 0 =? 63 then _ ← printf (lit "sleep <ticks>\n") []; mret 0
      else if negb (Ulib.is_valid_int a) then
        _ ← printf (lit "%s is not a valid integer\n") [Str (Some a)]; mret (-1)
      else _ ← sleep (Ulib.atoi a); exit 0
  | _ => _ ← printf (lit "sleep: incorrect usage, sleep <ticks>\n") []; mret (-1)
  end.

Fixpoint kill_args (args : list str) : prog W unit :=
  match args with
  | [] => exit 0
  | a :: args => _ ← kill (Ulib.atoi a); kill_args args
  end.
Definition kill_main (argv : list str) : prog W unit :=
  if (length argv <? 2)%nat then _ ← fprintf 2 (lit "usage: kill pid...\n") []; exit 1
  else kill_args (drop 1 argv).

Definition ln_main (argv : list str) : prog W unit :=
  match argv with
  | [_; old; new] =>
      r ← link old new;
      _ ← (if r <? 0 then fprintf 2 (lit "link %s %s: failed\n") [Str (Some old); Str (Some new)] else mret tt);
      exit 0
  | _ => _ ← fprintf 2 (lit "Usage: ln old new\n") []; exit 1
  end.

Fixpoint rm_args (args : list str) : prog W unit :=
  match args with
  | [] => exit 0
  | a :: args =>
      r ← unlink a;
      if r <? 0 then _ ← fprintf 2 (lit "rm: %s failed to delete\n") [Str (Some a)]; exit 0
      else rm_args args
  end.
Definition rm_main (argv : list str) : prog W unit :=
  if (length argv <? 2)%nat then _ ← fprintf 2 (lit "Usage: rm files...\n") []; exit 1
  else rm_args (drop 1 argv).

Fixpoint mkdir_args (args : list str) : prog W unit :=
  match args with
  | [] => exit 0
  | a :: args =>
      r ← mkdir a;
      if r <? 0 then _ ← fprintf 2 (lit "mkdir: %s failed to create\n") [Str (Some a)]; exit 0
      else mkdir_args args
  end.
Definition mkdir_main (argv : list str) : prog W unit :=
  if (length argv <? 2)%nat then _ ← fprintf 2 (lit "Usage: mkdir files...\n") []; exit 1
  else mkdir_args (drop 1 argv).

(** The messages do not end the program. *)
Definition touch_main (argv : list str) : prog W unit :=
  if asks_usage argv then printf (lit "Usage: touch <filename>\n") []
  else
    _ ← (if negb (length argv =? 2)%nat then printf (lit "Incorrect usage, touch <filename>") [] else mret tt);
    path ← arg_or_undef argv 1;
    fd ← open path 0;
    _ ← (if 0 <=? fd then
           _ ← close fd; printf (lit "error: file '%s' already exists\n") [Str (Some path)]
         else mret tt);
    fd ← open path (Z.lor O_CREATE O_RDWR);
    _ ← (if fd <? 0 then printf (lit "error: failed to create file '%s'\n") [Str (Some path)] else mret tt);
    _ ← printf (lit "created file '%s'\n") [Str (Some path)];
    _ ← close fd;
    exit 0.

End Cmds.
