(* ===== verification/CmdsTheory.v ===== *)
(** * What the text commands compute

    The class [Streams] states what [read] and [write] promise on open
    descriptors; cat, wc, wce, tail and diff are then functions of the bytes
    of their input, however [read] cuts them into pieces. *)
From S2P Require Import Prelude Cstring Ulib UlibFlags Printf Uprintf PrintfTheory Grep Usys Cmds.

(** ** Formats with only [%d] and [%s] *)

(** The decimal numeral that [printf] prints for an [int]. *)
Definition dec_str (x : Z) : list Z := match Uprintf.printint (s32 x) 10 true with Ok o => o | _ => [] end.

Lemma printint_dec x : Uprintf.printint (s32 x) 10 true = Ok (dec_str x).
Proof.
  unfold dec_str. destruct (printint_atoi (s32 x) (s32_range x)) as (o & -> & _). done.
Qed.

Lemma dec_str_s32 x : dec_str (s32 x) = dec_str x.
Proof. unfold dec_str. by rewrite (s32_id (s32 x)) by apply s32_range. Qed.

Lemma valid_digits_dec ds : Forall (fun d => 0 <= d < 10) ds -> Ulib.valid_digits (map dec ds) = true.
Proof.
  induction 1 as [|d ds Hd _ IH]; [done|]. cbn [map Ulib.valid_digits]. rewrite dec_digit by done. by ztest.
Qed.

(** [is_valid_int] accepts what [printf] prints for an [int], and [atoi]
    reads it back. *)
Lemma dec_str_valid x : Ulib.is_valid_int (dec_str x) = true /\ at_ (dec_str x) 0 <> 63 /\ Ulib.atoi (dec_str x) = s32 x.
Proof.
  pose proof (s32_range x) as Hx. destruct (printint_atoi (s32 x) Hx) as (o & Ho & _ & Ha).
  assert (Eo : dec_str x = o) by (unfold dec_str; by rewrite Ho). rewrite Eo. split; [|split; [|done]]; clear Ha Eo;
  unfold Uprintf.printint in Ho; cbn [andb] in Ho; set (neg := s32 x <? 0) in *;
  (destruct (digit_loop_run Uprintf.digits 10 32 (if neg then u32 (- s32 x) else u32 (s32 x)) []) as (ds & [Hd _ Hl] & E);
    [lia|destruct neg; match goal with |- 0 <= u32 ?a < _ => pose proof (u32_range a); lia end|lia|]);
  rewrite E, app_nil_r in Ho; cbn [length Nat.add] in Ho; rewrite push_sign in Ho; cbn zeta in Ho;
  destruct (length ((if neg then [45%Z] else []) ++ _) <=? BUF)%nat; [|done| |done]; injection Ho as <-;
  change (map (fun d => at_ Uprintf.digits (Z.to_nat d)) ds) with (map dec ds).
  - destruct neg; cbn [app]; unfold Ulib.is_valid_int; [cbn; by apply valid_digits_dec|].
    destruct ds as [|d ds]; [done|]. pose proof Hd as Hd'. apply Forall_cons in Hd' as [Hd0 _]. cbn [map].
    change (at_ (dec d :: map dec ds) 0) with (dec d). rewrite (dec_digit d Hd0). ztest. cbn [orb]. rewrite <- (dec_digit d Hd0). by apply (valid_digits_dec (d :: ds)).
  - destruct neg; [done|]. destruct ds as [|d ds]; [done|]. apply Forall_cons in Hd as [Hd0 _]. cbn [app map].
    change (at_ (dec d :: map dec ds) 0) with (dec d). rewrite (dec_digit d Hd0). lia.
Qed.

(** The text for a format and its arguments. *)
Fixpoint render (fmt : list Z) (ap : list varg) : option (list Z) :=
  match fmt with
  | [] => Some []
  | c :: fmt =>
      if c =? 0 then None
      else if c =? 37 then
        match fmt with
        | [] => None
        | d :: fmt =>
            if d =? 100 then
              match ap with Word x :: ap => (app (dec_str x)) <$> render fmt ap | _ => None end
            else if d =? 115 then
              match ap with Str (Some s) :: ap => (app (cstr s)) <$> render fmt ap | _ => None end
            else None
        end
      else (cons c) <$> render fmt ap
  end.

Lemma at_drop (fmt : list Z) i c rest : drop i fmt = c :: rest -> at_ fmt i = c /\ drop (i + 1) fmt = rest.
Proof.
  intros E. unfold at_. rewrite <- (Nat.add_0_r i) at 1. rewrite <- lookup_drop, E. split; [done|].
  rewrite <- drop_drop, E. done.
Qed.

Lemma vprintf_loop_render f : forall fmt i ap out t,
  render (drop i fmt) ap = Some t -> (i <= length fmt < i + f)%nat -> Uprintf.vprintf_loop f fmt i 0 ap out = Ok (out ++ t).
Proof.
  induction f as [f IH] using lt_wf_ind. intros fmt i ap out t E Hf.
  destruct f as [|f]; [lia|]. cbn [Uprintf.vprintf_loop].
  destruct (drop i fmt) as [|c rest] eqn:Ed; cbn [render] in E.
  { injection E as <-. assert (H : at_ fmt i = 0).
    { apply (f_equal length) in Ed. rewrite length_drop in Ed. cbn in Ed. unfold at_. by rewrite lookup_ge_None_2 by lia. }
    by rewrite H, app_nil_r. }
  destruct (at_drop fmt i c rest Ed) as [-> Hd].
  assert (Hl : length (drop i fmt) = S (length rest)) by (by rewrite Ed). rewrite length_drop in Hl.
  destruct (c =? 0) eqn:E0; [done|]. change (0 =? 0) with true. cbn [negb]. cbv iota.
  destruct (c =? 37) eqn:E37.
  2: { destruct (render rest ap) as [t'|] eqn:Er; [|done]. injection E as <-.
    rewrite (IH f) with (t := t') by (rewrite ?Hd; done || lia). by rewrite <- (assoc_L (++)). }
  destruct rest as [|d rest]; [done|]. destruct (at_drop fmt (i + 1) d rest Hd) as [H1 Hd2].
  cbn [length] in Hl. destruct f as [|f]; [lia|]. cbn [Uprintf.vprintf_loop]. rewrite H1.
  change (37 =? 0) with false. change (37 =? 37) with true. cbv iota.
  assert (d <> 0) by (intros ->; done). rewrite (proj2 (Z.eqb_neq d 0)) by done. cbn [negb].
  set (c1 := at_ fmt (i + 1 + 1)). set (c2 := if negb (c1 =? 0) then _ else _). unfold Uprintf.directive.
  destruct (d =? 100) eqn:E100.
  - destruct ap as [|[x|] ap]; [done| |done]. cbn [va_int]. destruct (render rest ap) as [t'|] eqn:Er; [|done]. injection E as <-.
    cbn [mbind outcome_bind]. rewrite printint_dec. cbn [mbind outcome_bind].
    rewrite (IH f) with (t := t') by (rewrite ?Nat.add_0_r, ?Hd2; done || lia). by rewrite <- (assoc_L (++)).
  - destruct (d =? 115) eqn:E115; [|done]. bool_to_prop. subst d. cbn [Z.eqb Pos.eqb andb].
    destruct ap as [|[|[s|]] ap]; [done..| |done]. destruct (render rest ap) as [t'|] eqn:Er; [|done]. injection E as <-.
    cbn [va_str mbind outcome_bind default].
    rewrite (IH f) with (t := t') by (rewrite ?Nat.add_0_r, ?Hd2; done || lia). by rewrite <- (assoc_L (++)).
Qed.

Lemma vprintf_render fmt ap t : render fmt ap = Some t -> Uprintf.vprintf fmt ap = Ok t.
Proof. intros E. apply (vprintf_loop_render (S (length fmt)) fmt 0 ap [] t); [by rewrite drop_0|lia]. Qed.

(** ** What the commands rely on *)

(** [reads fd l w]: the descriptor delivers the bytes [l] and then the end of
    file.  [output fd w]: all that has been written to the descriptor, which
    is [writable] when writing to it cannot fail.  [contents path l w]: the
    file [path] holds [l].  [room n w]: at least [n] descriptors are free. *)
Class Streams (W : Type) {SY : Sys W} := {
  reads : Z -> list Z -> W -> Prop;
  writable : Z -> W -> Prop;
  output : Z -> W -> list Z;
  contents : str -> list Z -> W -> Prop;
  room : nat -> W -> Prop;
  (** what calls on the descriptors [X] leave as it was: the files and the
      other descriptors *)
  steady (X : gset Z) (w w' : W) : Prop :=
    (forall fd, fd ∉ X -> (forall l, reads fd l w -> reads fd l w') /\ (writable fd w -> writable fd w') /\ output fd w' = output fd w) /\
    (forall path l, contents path l w -> contents path l w');
  read_law fd l n w : reads fd l w -> (0 < n)%nat ->
    exists k w', sys_read fd n w = (Some (take k l), w') /\ (k <= n)%nat /\ (l = [] \/ (0 < k)%nat) /\
      reads fd (drop k l) w' /\ steady {[fd]} w w' /\ output fd w' = output fd w /\ (writable fd w -> writable fd w') /\ (forall j, room j w -> room j w');
  write_law fd bs w : writable fd w ->
    exists w', sys_write fd bs w = (Z.of_nat (length bs), w') /\ writable fd w' /\ output fd w' = output fd w ++ bs /\
      steady {[fd]} w w' /\ (forall l, reads fd l w -> reads fd l w') /\ (forall j, room j w -> room j w');
  open_law path l n w : contents path l w -> room (S n) w ->
    exists fd w', sys_open path O_RDONLY w = (fd, w') /\ 0 <= fd /\ reads fd l w' /\ steady {[fd]} w w' /\
      room n w' /\ ~ writable fd w /\ (forall l', ~ reads fd l' w);
  close_law fd l w : reads fd l w -> exists r w', sys_close fd w = (r, w') /\ steady {[fd]} w w' /\ forall n, room n w -> room (S n) w'
}.

Section Streams.
Context {W : Type} {SY : Sys W} {ST : Streams W}.
Implicit Types (w : W) (l : list Z).

Lemma bind_ret {A B} (m : prog W A) (f : A -> prog W B) w a w' : m w = Ret a w' -> (m ≫= f) w = f a w'.
Proof. intros E. unfold mbind, prog_bind. by rewrite E. Qed.

Lemma bind_sys {A B} (c : W -> A * W) (f : A -> prog W B) w a w' : c w = (a, w') -> (sys c ≫= f) w = f a w'.
Proof. intros E. apply bind_ret. unfold sys. by rewrite E. Qed.

Lemma steady_refl X w : steady X w w.
Proof. split; [|done]. by intros fd _. Qed.

Lemma steady_trans X Y w w' w'' : steady X w w' -> steady Y w' w'' -> steady (X ∪ Y) w w''.
Proof.
  intros [A1 A2] [B1 B2]. split; [|auto]. intros fd Hfd.
  destruct (A1 fd) as (A3 & A4 & A5), (B1 fd) as (B3 & B4 & B5); [set_solver..|]. split_and!; auto. congruence.
Qed.

Lemma steady_mono X Y w w' : X ⊆ Y -> steady X w w' -> steady Y w w'.
Proof. intros HX [A1 A2]. split; [|done]. intros fd Hfd. apply A1. set_solver. Qed.

Lemma steady_reads X w w' fd l : steady X w w' -> fd ∉ X -> reads fd l w -> reads fd l w'.
Proof. intros [H _] Hn. by apply H. Qed.

Lemma steady_writable X w w' fd : steady X w w' -> fd ∉ X -> writable fd w -> writable fd w'.
Proof. intros [H _] Hn. by apply H. Qed.

Lemma steady_output X w w' fd : steady X w w' -> fd ∉ X -> output fd w' = output fd w.
Proof. intros [H _] Hn. by apply H. Qed.

(** Text on one descriptor: only its output grows. *)
Record prints (fd : Z) (text : list Z) w w' : Prop := {
  pr_writable : writable fd w';
  pr_output : output fd w' = output fd w ++ text;
  pr_steady : steady {[fd]} w w';
  pr_reads : forall l, reads fd l w -> reads fd l w';
  pr_room : forall j, room j w -> room j w'
}.

Lemma prints_nil fd w : writable fd w -> prints fd [] w w.
Proof. split; auto; [by rewrite app_nil_r|apply steady_refl]. Qed.

Lemma prints_trans fd t t' w w' w'' : prints fd t w w' -> prints fd t' w' w'' -> prints fd (t ++ t') w w''.
Proof.
  intros [A1 A2 A3 A4 A5] [B1 B2 B3 B4 B5]. split; auto; [by rewrite B2, A2, <- (assoc_L (++))|].
  eapply steady_mono, steady_trans; [|exact A3|exact B3]. set_solver.
Qed.

Lemma write_prints fd bs w : writable fd w -> exists w', sys_write fd bs w = (Z.of_nat (length bs), w') /\ prints fd bs w w'.
Proof. intros Hw. destruct (write_law fd bs w Hw) as (w' & E & ? & ? & ? & ? & ?). exists w'. by split. Qed.

Lemma puts_prints fd out : forall w, writable fd w -> exists w', puts fd out w = Ret tt w' /\ prints fd out w w'.
Proof.
  induction out as [|c out IH]; intros w Hw; cbn [puts].
  { exists w. split; [done|by apply prints_nil]. }
  destruct (write_prints fd [c] w Hw) as (w1 & E & H1). destruct (IH w1 (pr_writable _ _ _ _ H1)) as (w2 & E2 & H2).
  exists w2. split; [|by apply (prints_trans fd [c] out w w1 w2)].
  rewrite (bind_ret _ _ w tt w1); [done|]. unfold putc, write. by rewrite (bind_sys _ _ w _ w1 E).
Qed.

Lemma fprintf_prints fd fmt ap t w :
  render fmt ap = Some t -> writable fd w -> exists w', fprintf fd fmt ap w = Ret tt w' /\ prints fd t w w'.
Proof. intros E Hw. unfold fprintf. rewrite (vprintf_render _ _ _ E). by apply puts_prints. Qed.

(** Reading: the bytes that one call takes. *)
Record took (fd : Z) (bs l : list Z) w w' : Prop := {
  tk_reads : reads fd l w';
  tk_steady : steady {[fd]} w w';
  tk_output : output fd w' = output fd w;
  tk_writable : writable fd w -> writable fd w';
  tk_room : forall j, room j w -> room j w'
}.

Lemma read_takes fd l n w : reads fd l w -> (0 < n)%nat ->
  exists bs l' w', sys_read fd n w = (Some bs, w') /\ l = bs ++ l' /\ (length bs <= n)%nat /\ (bs = [] -> l = []) /\ took fd bs l' w w'.
Proof.
  intros Hr Hn. destruct (read_law fd l n w Hr Hn) as (k & w' & E & Hk & Hl & ? & ? & ? & ? & ?).
  exists (take k l), (drop k l), w'. split_and!; auto; [by rewrite take_drop|rewrite length_take; lia| |by split].
  destruct Hl as [|Hk0]; [done|]. destruct l, k; cbn; done || lia.
Qed.

(** ** cat *)

(** What reading one descriptor to its end and writing to another does. *)
Record copied (fd fdo : Z) (text : list Z) w w' : Prop := {
  cp_reads : reads fd [] w';
  cp_writable : writable fdo w';
  cp_output : output fdo w' = output fdo w ++ text;
  cp_steady : steady {[fd; fdo]} w w';
  cp_room : forall j, room j w -> room j w'
}.

Lemma cat_run fuel : forall fd l w, reads fd l w -> writable 1 w -> fd <> 1 -> (length l < fuel)%nat ->
  exists w', cat fuel fd w = Ret tt w' /\ copied fd 1 l w w'.
Proof.
  induction fuel as [|fuel IH]; intros fd l w Hr Hw Hfd Hf; [lia|]. cbn [cat].
  destruct (read_takes fd l 512 w Hr) as (bs & l' & w1 & E & -> & _ & Hnil & [R1 R2 R3 _ R5]); [lia|].
  assert (Hn : 1 ∉ ({[fd]} : gset Z)) by set_solver.
  assert (Hw1 : writable 1 w1) by (by eapply steady_writable).
  unfold read. rewrite (bind_sys _ _ w _ w1 E). destruct bs as [|c buf].
  { rewrite (Hnil eq_refl). cbn in Hnil. rewrite (Hnil eq_refl) in R1. exists w1. split; [done|]. split; auto.
    - rewrite app_nil_r. by eapply steady_output.
    - eapply steady_mono; [|done]. set_solver. }
  destruct (write_prints 1 (c :: buf) w1 Hw1) as (w2 & E2 & [P1 P2 P3 _ P5]).
  unfold write. rewrite (bind_sys _ _ w1 _ w2 E2). rewrite Z.eqb_refl. cbn [negb].
  rewrite length_app in Hf. cbn [length] in Hf.
  destruct (IH fd l' w2) as (w3 & -> & [C1 C2 C3 C4 C5]); [|done..|lia|].
  { eapply steady_reads; [exact P3|set_solver|done]. }
  exists w3. split; [done|]. split; auto.
  - rewrite C3, P2, (steady_output _ _ _ 1 R2 Hn). by rewrite <- !(assoc_L (++)).
  - eapply steady_mono, (steady_trans _ _ _ _ _ R2), (steady_trans _ _ _ _ _ P3), C4. set_solver.
Qed.

(** Opening a file gives a descriptor that is not in use. *)
Lemma open_fresh path l n w : contents path l w -> room (S n) w -> writable 1 w ->
  exists fd w', sys_open path O_RDONLY w = (fd, w') /\ (fd <? 0) = false /\ fd <> 1 /\ reads fd l w' /\ steady {[fd]} w w' /\
    room n w' /\ (forall l', ~ reads fd l' w).
Proof.
  intros Hc Hr Hw. destruct (open_law path l n w Hc Hr) as (fd & w' & E & H0 & H1 & H2 & H3 & H4 & H5).
  exists fd, w'. split_and!; auto; [by apply Z.ltb_ge|congruence].
Qed.

Lemma cat_files_run fuel files ls : forall w,
  Forall2 (fun path l => contents path l w) files ls -> Forall (fun l => (length l < fuel)%nat) ls ->
  writable 1 w -> room 1 w ->
  exists w', cat_files fuel files w = Exited 0 w' /\ output 1 w' = output 1 w ++ concat ls.
Proof.
  revert ls. induction files as [|path files IH]; intros ls w Hc Hl Hw Hroom; apply Forall2_cons_inv_l in Hc || apply Forall2_nil_inv_l in Hc.
  { subst ls. exists w. split; [done|]. by rewrite app_nil_r. }
  destruct Hc as (l & ls' & Hc & Hcs & ->). apply Forall_cons in Hl as [Hl Hls]. cbn [cat_files concat].
  destruct (open_fresh path l 0 w Hc Hroom Hw) as (fd & w1 & E & H0 & Hne & Hr & Hst & Hroom1 & _).
  unfold open. rewrite (bind_sys _ _ w _ w1 E), H0.
  assert (Hw1 : writable 1 w1) by (eapply steady_writable; [exact Hst|set_solver|done]).
  destruct (cat_run fuel fd l w1 Hr Hw1 Hne Hl) as (w2 & E2 & [C1 C2 C3 C4 C5]). rewrite (bind_ret _ _ w1 tt w2 E2).
  destruct (close_law fd [] w2 C1) as (r & w3 & E3 & Hst3 & Hroom3). unfold close. rewrite (bind_sys _ _ w2 _ w3 E3).
  assert (Hn : 1 ∉ ({[fd]} : gset Z)) by set_solver.
  destruct (IH ls' w3) as (w4 & E4 & Ho); auto.
  - eapply Forall2_impl; [exact Hcs|]. intros p l' Hp. by apply Hst3, C4, Hst.
  - by eapply steady_writable.
  - exists w4. split; [exact E4|]. rewrite Ho, (steady_output _ _ _ 1 Hst3 Hn), C3, (steady_output _ _ _ 1 Hst Hn).
    by rewrite <- !(assoc_L (++)).
Qed.

(** ** Counting *)

(** A loop that reads a descriptor to its end and folds [step] over the
    bytes: the loops of wc and wce. *)
Record drained (fd : Z) w w' : Prop := {
  dr_reads : reads fd [] w';
  dr_steady : steady {[fd]} w w';
  dr_output : output fd w' = output fd w;
  dr_room : forall j, room j w -> room j w'
}.

Lemma drained_step fd bs l w w1 w' : took fd bs l w w1 -> drained fd w1 w' -> drained fd w w'.
Proof.
  intros [A1 A2 A3 A4 A5] [B1 B2 B3 B4]. split; auto; [|congruence].
  eapply steady_mono, (steady_trans _ _ _ _ _ A2), B2. set_solver.
Qed.

Lemma wc_loop_run fuel : forall fd l s w, reads fd l w -> (length l < fuel)%nat ->
  exists w', wc_loop fuel fd s w = Ret (foldl wc_char s l) w' /\ drained fd w w'.
Proof.
  induction fuel as [|fuel IH]; intros fd l s w Hr Hf; [lia|]. cbn [wc_loop].
  destruct (read_takes fd l 512 w Hr) as (bs & l' & w1 & E & -> & _ & Hnil & T); [lia|].
  unfold read. rewrite (bind_sys _ _ w _ w1 E). destruct bs as [|c buf].
  { cbn in *. rewrite (Hnil eq_refl) in *. exists w1. split; [done|]. by destruct T. }
  rewrite length_app in Hf. cbn [length] in Hf. rewrite foldl_app.
  destruct (IH fd l' (foldl wc_char s (c :: buf)) w1) as (w2 & E2 & D2); [apply T|lia|].
  exists w2. split; [exact E2|]. by eapply drained_step.
Qed.

Lemma wce_loop_run fuel : forall fd l s w, reads fd l w -> (length l < fuel)%nat ->
  exists w', wce_loop fuel fd s w = Ret (foldl wce_char s l) w' /\ drained fd w w'.
Proof.
  induction fuel as [|fuel IH]; intros fd l s w Hr Hf; [lia|]. cbn [wce_loop].
  destruct (read_takes fd l 512 w Hr) as (bs & l' & w1 & E & -> & _ & Hnil & T); [lia|].
  unfold read. rewrite (bind_sys _ _ w _ w1 E). destruct bs as [|c buf].
  { cbn in *. rewrite (Hnil eq_refl) in *. exists w1. split; [done|]. by destruct T. }
  rewrite length_app in Hf. cbn [length] in Hf. rewrite foldl_app.
  destruct (IH fd l' (foldl wce_char s (c :: buf)) w1) as (w2 & E2 & D2); [apply T|lia|].
  exists w2. split; [exact E2|]. by eapply drained_step.
Qed.

End Streams.

(** ** What is counted *)

(** A word starts at a character that is not blank, at the beginning or after
    a blank. *)
Definition starts_word (blank l : list Z) (i : nat) : bool :=
  negb (in_set blank (at_ l i)) && ((i =? 0)%nat || in_set blank (at_ l (i - 1))).
Definition words (blank l : list Z) : nat := length (List.filter (starts_word blank l) (seq 0 (length l))).

Definition newlines (l : list Z) : nat := length (fst (Grep.lines [] l)).

(** The longest line, each with the newline that ends it. *)
Definition longest_line (l : list Z) : nat :=
  foldr Nat.max (length (snd (Grep.lines [] l))) (map (fun x => S (length x)) (fst (Grep.lines [] l))).

(** Whether the text ends inside a word. *)
Definition ends_in_word (blank l : list Z) : bool := negb (length l =? 0)%nat && negb (in_set blank (at_ l (length l - 1))).

Lemma at_snoc_lt (l : list Z) c i : (i < length l)%nat -> at_ (l ++ [c]) i = at_ l i.
Proof. intros H. unfold at_. by rewrite lookup_app_l. Qed.

Lemma at_snoc_eq (l : list Z) c : at_ (l ++ [c]) (length l) = c.
Proof. unfold at_. by rewrite lookup_app_r, Nat.sub_diag. Qed.

Lemma words_snoc blank l c :
  words blank (l ++ [c]) = (words blank l + if negb (in_set blank c) && negb (ends_in_word blank l) then 1 else 0)%nat.
Proof.
  unfold words. rewrite length_app. cbn [length]. rewrite seq_app, List.filter_app, length_app. cbn [seq List.filter Nat.add]. f_equal.
  - f_equal. apply filter_ext_in. intros i Hi%in_seq. unfold starts_word. rewrite at_snoc_lt by lia.
    destruct i as [|i]; [done|]. by rewrite at_snoc_lt by lia.
  - unfold starts_word. rewrite at_snoc_eq. unfold ends_in_word. destruct l as [|x l]; [by destruct (in_set blank c)|].
    rewrite at_snoc_lt by (cbn; lia). cbn [length Nat.eqb orb]. destruct (in_set blank c); [done|]. by destruct (in_set _ (at_ _ _)).
Qed.

Lemma ends_snoc blank l c : ends_in_word blank (l ++ [c]) = negb (in_set blank c).
Proof.
  unfold ends_in_word. rewrite length_app. cbn [length]. rewrite (proj2 (Nat.eqb_neq _ 0)) by lia. rewrite Nat.add_sub, at_snoc_eq. done.
Qed.

Lemma newlines_snoc l c : newlines (l ++ [c]) = (newlines l + if decide (c = 10%Z) then 1 else 0)%nat.
Proof.
  unfold newlines. rewrite Grep.lines_app. cbn [fst]. rewrite length_app. f_equal. cbn [Grep.lines]. by destruct (decide (c = 10)).
Qed.

Lemma newlines_le l : (newlines l <= length l)%nat.
Proof. induction l as [|c l IH] using rev_ind; [done|]. rewrite newlines_snoc, length_app. cbn. destruct (decide (c = 10)); lia. Qed.

Lemma words_le blank l : (words blank l <= length l)%nat.
Proof. unfold words. rewrite <- (length_seq (length l) 0) at 2. apply filter_length_le. Qed.

(** The counts of wc. *)
Lemma wc_counts l : Z.of_nat (length l) < 2147483648 ->
  foldl wc_char (Counts 0 0 0 false) l =
  Counts (Z.of_nat (newlines l)) (Z.of_nat (words wc_blank l)) (Z.of_nat (length l)) (ends_in_word wc_blank l).
Proof.
  induction l as [|c l IH] using rev_ind; intros Hl; [done|]. rewrite length_app in Hl. cbn [length] in Hl.
  rewrite foldl_app, IH by lia. cbn [foldl]. unfold wc_char. cbn [cl cw cc inword].
  pose proof (newlines_le l). pose proof (words_le wc_blank l).
  rewrite newlines_snoc, words_snoc, ends_snoc, length_app. cbn [length].
  assert (El : (if c =? 10 then s32 (Z.of_nat (newlines l) + 1) else Z.of_nat (newlines l)) =
    Z.of_nat (newlines l + if decide (c = 10%Z) then 1 else 0)).
  { destruct (Z.eqb_spec c 10), (decide (c = 10)); try done; rewrite ?s32_id; lia. }
  rewrite El. rewrite (s32_id (Z.of_nat (length l) + 1)) by lia.
  replace (Z.of_nat (length l) + 1) with (Z.of_nat (length l + 1)) by lia.
  destruct (in_set wc_blank c); cbn [negb andb]; [by rewrite Nat.add_0_r|].
  destruct (ends_in_word wc_blank l) eqn:Ew; cbn [negb]; [by rewrite Nat.add_0_r|]. f_equal. rewrite s32_id; lia.
Qed.

Lemma longest_snoc l c :
  longest_line (l ++ [c]) = Nat.max (longest_line l) (S (length (snd (Grep.lines [] l)))) /\
  length (snd (Grep.lines [] (l ++ [c]))) = (if decide (c = 10%Z) then 0 else S (length (snd (Grep.lines [] l))))%nat.
Proof.
  unfold longest_line. rewrite Grep.lines_app. cbn [fst snd Grep.lines].
  destruct (decide (c = 10)); cbn [fst snd length].
  - split; [|done]. rewrite map_app, foldr_app. cbn [map foldr]. generalize (fst (Grep.lines [] l)) as ls. intros ls.
    generalize (length (snd (Grep.lines [] l))) as k. intros k. rewrite Nat.max_0_r. induction ls as [|x ls IH]; cbn [map foldr]; lia.
  - rewrite length_app. cbn [length]. split; [|lia]. rewrite app_nil_r. generalize (fst (Grep.lines [] l)) as ls. intros ls.
    generalize (length (snd (Grep.lines [] l))) as k. intros k. induction ls as [|x ls IH]; cbn [map foldr]; lia.
Qed.

Lemma line_le l : (length (snd (Grep.lines [] l)) <= longest_line l <= length l)%nat.
Proof.
  induction l as [|c l IH] using rev_ind; [done|]. destruct (longest_snoc l c) as [-> ->]. rewrite length_app. cbn [length].
  assert (length (snd (Grep.lines [] l)) <= length l)%nat by lia. destruct (decide (c = 10)); lia.
Qed.

(** The counts of wce. *)
Lemma wce_counts l : Z.of_nat (length l) < 2147483648 ->
  let s := foldl wce_char (ECounts 0 0 0 false 0 0) l in
  el s = Z.of_nat (newlines l) /\ ew s = Z.of_nat (words wce_blank l) /\ ec s = Z.of_nat (length l) /\
  einword s = ends_in_word wce_blank l /\ eold s = Z.of_nat (length l - length (snd (Grep.lines [] l))) /\
  Z.max (eL s) (ec s - eold s) = Z.of_nat (longest_line l) /\ 0 <= eL s.
Proof.
  induction l as [|c l IH] using rev_ind; intros Hl; [done|]. rewrite length_app in Hl. cbn [length] in Hl.
  destruct IH as (A1 & A2 & A3 & A4 & A5 & A6 & A7); [lia|]. rewrite foldl_app. cbn [foldl].
  set (s := foldl wce_char _ l) in *.
  pose proof (newlines_le l). pose proof (words_le wce_blank l). pose proof (line_le l).
  destruct (longest_snoc l c) as [El En]. rewrite newlines_snoc, words_snoc, ends_snoc, length_app, El, En. cbn [length].
  unfold wce_char. rewrite A1, A2, A3, A4. rewrite A3, A5 in A6. rewrite (s32_id (Z.of_nat (length l) + 1)) by lia.
  assert (Ew : (if in_set wce_blank c then (Z.of_nat (words wce_blank l), false)
      else if negb (ends_in_word wce_blank l) then (s32 (Z.of_nat (words wce_blank l) + 1), true)
      else (Z.of_nat (words wce_blank l), ends_in_word wce_blank l)) =
    (Z.of_nat (words wce_blank l + if negb (in_set wce_blank c) && negb (ends_in_word wce_blank l) then 1 else 0),
     negb (in_set wce_blank c))).
  { destruct (in_set wce_blank c); cbn [negb andb]; [by rewrite Nat.add_0_r|].
    destruct (ends_in_word wce_blank l); cbn [negb]; [by rewrite Nat.add_0_r|]. rewrite s32_id by lia. f_equal. lia. }
  rewrite Ew. destruct (Z.eqb_spec c 10) as [->|Hc]; cbn [el ew ec einword eold eL].
  - rewrite !decide_True by done. rewrite (s32_id (Z.of_nat (newlines l) + 1)) by lia. rewrite A5.
    rewrite s32_id by lia. set (r := length (snd (Grep.lines [] l))) in *.
    assert (Er : Z.of_nat (length l) + 1 - Z.of_nat (length l - r) = Z.of_nat (S r)) by lia. rewrite Er.
    destruct (Z.ltb_spec (eL s) (Z.of_nat (S r))); split_and!; reflexivity || lia.
  - rewrite !decide_False by done. split_and!; reflexivity || lia.
Qed.

Lemma wce_longest l : Z.of_nat (length l) < 2147483648 ->
  longest (foldl wce_char (ECounts 0 0 0 false 0 0) l) = Z.of_nat (longest_line l).
Proof.
  intros Hl. destruct (wce_counts l Hl) as (_ & _ & Hc & _ & Ho & Hm & H0). set (s := foldl _ _ l) in *.
  pose proof (line_le l). unfold longest. rewrite s32_id by lia. destruct (Z.ltb_spec (eL s) (ec s - eold s)); lia.
Qed.

(** ** tail *)

Lemma newlines_cons c l : newlines (c :: l) = ((if decide (c = 10%Z) then 1 else 0) + newlines l)%nat.
Proof.
  induction l as [|d l IH] using rev_ind; [unfold newlines; cbn [Grep.lines]; by destruct (decide (c = 10))|].
  rewrite app_comm_cons, !newlines_snoc, IH. lia.
Qed.

(** The output starts at the beginning of a line and has as many newlines as
    were asked for; or it is the whole buffer, which has no more than those. *)
Lemma tail_scan_spec buf nlines : 0 <= nlines -> forall k lines,
  (k <= length buf)%nat -> lines = Z.of_nat (newlines (drop k buf)) -> lines <= nlines ->
  let i := tail_scan buf nlines k lines in
  (i <= k)%nat /\ Z.of_nat (newlines (drop i buf)) <= nlines /\
  (i = 0%nat \/ at_ buf (i - 1) = 10 /\ Z.of_nat (newlines (drop i buf)) = nlines).
Proof.
  intros H0. induction k as [|k IH]; intros n Hk Hn Hle; cbn [tail_scan].
  { split_and!; [lia|by rewrite <- Hn|by left]. }
  destruct (lookup_lt_is_Some_2 buf k) as [c Hc]; [lia|]. rewrite Hc. change (default 0 (Some c)) with c.
  assert (En : newlines (drop k buf) = ((if decide (c = 10%Z) then 1 else 0) + newlines (drop (S k) buf))%nat).
  { rewrite (drop_S buf c k Hc). apply newlines_cons. }
  set (n' := if c =? 10 then n + 1 else n).
  assert (En' : n' = Z.of_nat (newlines (drop k buf))).
  { unfold n'. rewrite En, Hn. destruct (Z.eqb_spec c 10), (decide (c = 10)); try done; lia. }
  destruct (Z.ltb_spec nlines n') as [Hlt|Hge].
  - assert (c = 10) as -> by (unfold n' in Hlt; destruct (Z.eqb_spec c 10); [done|lia]).
    split_and!; [lia|by rewrite <- Hn|]. right. cbn [Nat.sub]. rewrite Nat.sub_0_r. unfold at_. rewrite Hc. cbn [default].
    split; [done|]. rewrite <- Hn. rewrite decide_True in En by done. lia.
  - destruct (IH n') as (A1 & A2 & A3); [lia|done|done|]. split_and!; auto.
Qed.

(** ** Lines of a file *)

(** The lines without their newlines; the last one may lack it. *)
Definition file_lines (l : list Z) : list (list Z) :=
  fst (Grep.lines [] l) ++ match snd (Grep.lines [] l) with [] => [] | rest => [rest] end.

Lemma file_lines_newline u v : Grep.plain u -> file_lines (u ++ 10 :: v) = u :: file_lines v.
Proof.
  intros Hu. unfold file_lines. rewrite Grep.lines_plain by done. cbn [Grep.lines app]. rewrite decide_True by done.
  by destruct (Grep.lines [] v).
Qed.

Lemma file_lines_plain u : Grep.plain u -> file_lines u = match u with [] => [] | _ => [u] end.
Proof.
  intros Hu. unfold file_lines. rewrite <- (app_nil_r u) at 1 2. rewrite Grep.lines_plain by done. by destruct u.
Qed.

Lemma plain_split l : Grep.plain l \/ exists u v, l = u ++ 10 :: v /\ Grep.plain u.
Proof.
  induction l as [|c l IH]; [left; constructor|]. destruct (decide (c = 10)) as [->|Hc].
  { right. exists [], l. split; [done|constructor]. }
  destruct IH as [H|(u & v & -> & H)]; [left; by constructor|]. right. exists (c :: u), v. split; [done|by constructor].
Qed.

Lemma strcmp_eq x : forall y, no_nul x -> no_nul y -> Ulib.strcmp x y = 0 <-> x = y.
Proof.
  induction x as [|a x IH]; intros y Hx Hy; cbn [Ulib.strcmp].
  - destruct y as [|b y]; [done|]. apply Forall_cons in Hy as [Hb _]. cbn. split; [lia|done].
  - apply Forall_cons in Hx as [Ha Hx]. rewrite (proj2 (Z.eqb_neq a 0)) by done. cbn [negb andb].
    destruct y as [|b y]; [cbn; rewrite (proj2 (Z.eqb_neq a 0)) by done; split; [lia|done]|].
    apply Forall_cons in Hy as [Hb Hy]. cbn [at_ tail]. change (at_ (b :: y) 0) with b.
    destruct (Z.eqb_spec a b) as [->|Hn]; [rewrite IH by done; split; congruence|]. split; [lia|congruence].
Qed.

(** ** fact *)

Fixpoint factorial (n : nat) : Z := match n with O => 1 | S k => Z.of_nat n * factorial k end.

Lemma s32_mul_l a b : s32 (s32 a * b) = s32 (a * b).
Proof.
  unfold s32. set (q := (a + 2147483648) / 4294967296).
  replace ((a + 2147483648) mod 4294967296 - 2147483648) with (a - q * 4294967296)
    by (unfold q; pose proof (Z.div_mod (a + 2147483648) 4294967296); lia).
  f_equal. replace ((a - q * 4294967296) * b + 2147483648) with (a * b + 2147483648 + (- q * b) * 4294967296) by lia.
  apply Z.mod_add. lia.
Qed.

Lemma fact_loop_spec k : forall n, s32 (fact_loop k n) = s32 (n * factorial (S k)).
Proof.
  induction k as [|k IH]; intros n; [cbn; f_equal; lia|]. cbn [fact_loop]. rewrite IH, s32_mul_l. f_equal.
  change (factorial (S (S k))) with (Z.of_nat (S (S k)) * factorial (S k)). lia.
Qed.
