(* ===== verification/CmdsProps.v ===== *)
(** * Theorems on the text commands *)
From S2P Require Import Prelude Cstring Ulib UlibFlags Printf Uprintf PrintfTheory Grep Usys Cmds CmdsTheory.

(** [render] of a literal format. *)
Ltac render_lit :=
  repeat match goal with |- context [lit ?s] => let v := eval vm_compute in (lit s) in change (lit s) with v end;
  cbn [render Z.eqb Pos.eqb fmap option_fmap option_map app];
  rewrite ?cstr_no_nul by done; reflexivity.

Section Props.
Context {W : Type} {SY : Sys W} {ST : Streams W}.
Implicit Types (w : W) (l : list Z).

(** ** diff *)

(** What reading some bytes of a descriptor does. *)
Record moved (fd : Z) (l : list Z) w w' : Prop := {
  mv_reads : reads fd l w';
  mv_steady : steady {[fd]} w w';
  mv_output : output fd w' = output fd w;
  mv_writable : writable fd w -> writable fd w';
  mv_room : forall j, room j w -> room j w'
}.

Lemma moved_step fd bs l l' w w1 w' : took fd bs l w w1 -> moved fd l' w1 w' -> moved fd l' w w'.
Proof.
  intros [A1 A2 A3 A4 A5] [B1 B2 B3 B4 B5]. split; auto; [|congruence].
  eapply steady_mono, (steady_trans _ _ _ _ _ A2), B2. set_solver.
Qed.

Lemma read_one fd c l w : reads fd (c :: l) w -> exists w', sys_read fd 1 w = (Some [c], w') /\ took fd [c] l w w'.
Proof.
  intros Hr. destruct (read_takes fd (c :: l) 1 w Hr) as (bs & l' & w' & E & El & Hlen & Hnil & T); [lia|].
  destruct bs as [|b [|b' bs]]; [by specialize (Hnil eq_refl)| |cbn in Hlen; lia].
  injection El as <- <-. by exists w'.
Qed.

Lemma read_eof fd w : reads fd [] w -> exists w', sys_read fd 1 w = (Some [], w') /\ took fd [] [] w w'.
Proof.
  intros Hr. destruct (read_takes fd [] 1 w Hr) as (bs & l' & w' & E & El & Hlen & Hnil & T); [lia|].
  symmetry in El. apply app_nil in El as [-> ->]. by exists w'.
Qed.

Lemma read_line_loop_run fd v : forall u room_ buf w,
  reads fd (u ++ v) w -> Grep.plain u -> (length u < room_)%nat -> v = [] \/ (exists v', v = 10 :: v') ->
  exists w', read_line_loop room_ fd buf w =
      Ret (match v with [] => if (length (buf ++ u) =? 0)%nat then None else Some (buf ++ u) | _ => Some (buf ++ u) end) w' /\
    moved fd (tail v) w w'.
Proof.
  induction u as [|c u IH]; intros n buf w Hr Hu Hn Hv.
  - rewrite !app_nil_r. cbn [app] in Hr. destruct n as [|n]; [cbn in Hn; lia|]. destruct Hv as [->|[v' ->]].
    + destruct (read_eof fd w Hr) as (w' & E & T). exists w'. split; [|by destruct T].
      cbn [read_line_loop]. unfold read. by rewrite (bind_sys _ _ w _ w' E).
    + destruct (read_one fd 10 v' w Hr) as (w' & E & T). exists w'. split; [|by destruct T].
      cbn [read_line_loop]. unfold read. by rewrite (bind_sys _ _ w _ w' E).
  - apply Forall_cons in Hu as [Hc Hu]. destruct (read_one fd c (u ++ v) w Hr) as (w1 & E & T).
    cbn [length] in Hn. destruct n as [|[|n]]; [lia..|].
    destruct (IH (S n) (buf ++ [c]) w1) as (w' & E' & M); [apply T|done|lia|done|].
    exists w'. split; [|by eapply moved_step]. rewrite <- (assoc_L (++)) in E'. cbn [app] in E'. rewrite <- E'.
    change (read_line_loop (S (S n)) fd buf) with (read fd 1 ≫= fun r => match r with
      | Some (c :: _) => if c =? 10 then mret (Some buf) else read_line_loop (S n) fd (buf ++ [c])
      | Some [] => mret (if (length buf =? 0)%nat then None else Some buf)
      | None => mret (Some buf) end : prog W (option str)).
    unfold read. rewrite (bind_sys _ _ w _ w1 E). by rewrite (proj2 (Z.eqb_neq c 10)) by done.
Qed.

(** One line of the file, or its end. *)
Lemma read_line_run fd l w :
  reads fd l w -> Forall (fun x => (length x < 128)%nat) (file_lines l) ->
  exists l' w', read_line fd w = Ret (head (file_lines l)) w' /\ file_lines l' = tail (file_lines l) /\ moved fd l' w w'.
Proof.
  intros Hr Hl. unfold read_line. destruct (plain_split l) as [Hp|(u & v & -> & Hp)].
  - rewrite (file_lines_plain l Hp) in *.
    destruct (read_line_loop_run fd [] l 128 [] w) as (w' & E & M); [by rewrite app_nil_r|done| |by left|].
    { destruct l as [|c l]; [cbn; lia|]. by apply Forall_cons in Hl as [? _]. }
    exists [], w'. rewrite E. split_and!; [by destruct l|by destruct l|done].
  - rewrite (file_lines_newline u v Hp) in *. apply Forall_cons in Hl as [Hl _].
    destruct (read_line_loop_run fd (10 :: v) u 128 [] w) as (w' & E & M); [done|done|done|by right; exists v|].
    exists v, w'. rewrite E. by split_and!.
Qed.

(** The report on line [n] of the two files. *)
Definition line_report (f1 f2 : str) (n : nat) (a b : option str) : list Z :=
  match a, b with
  | Some x, Some y => if decide (x = y) then [] else lit "Line " ++ dec_str (Z.of_nat n) ++ lit " differs:\n< " ++ x ++ lit "\n> " ++ y ++ [10]
  | Some x, None => lit "Line " ++ dec_str (Z.of_nat n) ++ lit " only in " ++ f1 ++ lit ":\n< " ++ x ++ [10]
  | None, Some y => lit "Line " ++ dec_str (Z.of_nat n) ++ lit " only in " ++ f2 ++ lit ":\n> " ++ y ++ [10]
  | None, None => []
  end.

Definition reports (f1 f2 : str) (n : nat) (ls1 ls2 : list str) : list Z :=
  concat (map (fun i => line_report f1 f2 (n + i) (ls1 !! i) (ls2 !! i)) (seq 0 (Nat.max (length ls1) (length ls2)))).

Definition ndiff (ls1 ls2 : list str) : nat :=
  length (List.filter (fun i => negb (bool_decide (ls1 !! i = ls2 !! i))) (seq 0 (Nat.max (length ls1) (length ls2)))).

Lemma max_tail (ls1 ls2 : list str) : ls1 <> [] \/ ls2 <> [] ->
  Nat.max (length ls1) (length ls2) = S (Nat.max (length (tail ls1)) (length (tail ls2))).
Proof. intros [H|H]; destruct ls1, ls2; cbn; done || lia. Qed.

Lemma lookup_tail (ls : list str) i : ls !! S i = tail ls !! i.
Proof. by destruct ls. Qed.

Lemma reports_step f1 f2 n ls1 ls2 : ls1 <> [] \/ ls2 <> [] ->
  reports f1 f2 n ls1 ls2 = line_report f1 f2 n (head ls1) (head ls2) ++ reports f1 f2 (S n) (tail ls1) (tail ls2).
Proof.
  intros H. unfold reports. rewrite (max_tail _ _ H). cbn [seq map concat]. rewrite Nat.add_0_r, !head_lookup. f_equal.
  rewrite <- seq_shift, map_map. f_equal. apply map_ext. intros i. rewrite !lookup_tail. f_equal. lia.
Qed.

Lemma ndiff_step ls1 ls2 : ls1 <> [] \/ ls2 <> [] ->
  ndiff ls1 ls2 = ((if decide (head ls1 = head ls2) then 0 else 1) + ndiff (tail ls1) (tail ls2))%nat.
Proof.
  intros H. unfold ndiff. rewrite (max_tail _ _ H). cbn [seq List.filter]. rewrite !head_lookup.
  assert (E : length (List.filter (fun i => negb (bool_decide (ls1 !! i = ls2 !! i)))
      (seq 1 (Nat.max (length (tail ls1)) (length (tail ls2))))) =
    length (List.filter (fun i => negb (bool_decide (tail ls1 !! i = tail ls2 !! i)))
      (seq 0 (Nat.max (length (tail ls1)) (length (tail ls2)))))).
  { rewrite <- seq_shift. generalize (seq 0 (Nat.max (length (tail ls1)) (length (tail ls2)))). intros l.
    induction l as [|i l IH]; [done|]. cbn [map List.filter]. rewrite !lookup_tail. destruct (negb _); cbn [length]; auto. }
  destruct (decide (ls1 !! 0%nat = ls2 !! 0%nat)) as [E0|E0].
  - rewrite bool_decide_true by done. cbn [negb]. exact E.
  - rewrite bool_decide_false by done. cbn [negb length]. by rewrite E.
Qed.

Lemma ndiff_zero ls1 ls2 : ndiff ls1 ls2 = 0%nat <-> ls1 = ls2.
Proof.
  unfold ndiff. split.
  - intros H. apply nil_length_inv in H. apply list_eq. intros i.
    destruct (decide (i < Nat.max (length ls1) (length ls2))%nat) as [Hi|Hi].
    + destruct (bool_decide (ls1 !! i = ls2 !! i)) eqn:E; [by apply bool_decide_eq_true in E|].
      assert (In i []) as []. rewrite <- H. apply filter_In. rewrite in_seq, E. split; [lia|done].
    + by rewrite !lookup_ge_None_2 by lia.
  - intros ->. rewrite (filter_ext _ (fun _ => false)); [|intros i; by rewrite bool_decide_true].
    generalize (seq 0 (Nat.max (length ls2) (length ls2))). intros l. by induction l.
Qed.

Lemma ndiff_le ls1 ls2 : (ndiff ls1 ls2 <= Nat.max (length ls1) (length ls2))%nat.
Proof. unfold ndiff. rewrite <- (length_seq (Nat.max (length ls1) (length ls2)) 0) at 2. apply filter_length_le. Qed.

Definition lines_ok (ls : list str) : Prop := Forall (fun x => (length x < 128)%nat /\ no_nul x) ls.

(** The state while diff compares: the output so far and what is left of the
    two files. *)
Record comparing (fd1 fd2 : Z) (l1 l2 : list Z) w : Prop := {
  cm_reads1 : reads fd1 l1 w;
  cm_reads2 : reads fd2 l2 w;
  cm_writable : writable 1 w;
  cm_distinct : fd1 <> fd2 /\ fd1 <> 1 /\ fd2 <> 1
}.

Lemma comparing_read fd1 fd2 l1 l2 w :
  comparing fd1 fd2 l1 l2 w -> lines_ok (file_lines l1) -> lines_ok (file_lines l2) ->
  exists l1' l2' w1 w2, read_line fd1 w = Ret (head (file_lines l1)) w1 /\ read_line fd2 w1 = Ret (head (file_lines l2)) w2 /\
    file_lines l1' = tail (file_lines l1) /\ file_lines l2' = tail (file_lines l2) /\
    comparing fd1 fd2 l1' l2' w2 /\ output 1 w2 = output 1 w.
Proof.
  intros [C1 C2 C3 (D1 & D2 & D3)] H1 H2.
  assert (Hlen : forall ls, lines_ok ls -> Forall (fun x => (length x < 128)%nat) ls)
    by (intros ls H; eapply Forall_impl; [exact H|by intros x [? _]]).
  destruct (read_line_run fd1 l1 w C1 (Hlen _ H1)) as (l1' & w1 & E1 & T1 & [M1 M2 M3 M4 M5]).
  destruct (read_line_run fd2 l2 w1) as (l2' & w2 & E2 & T2 & [N1 N2 N3 N4 N5]); [|by apply Hlen|].
  { eapply steady_reads; [exact M2|set_solver|done]. }
  exists l1', l2', w1, w2. split_and!; auto.
  - split; auto; [eapply steady_reads; [exact N2|set_solver|done]|].
    eapply steady_writable; [exact N2|set_solver|]. eapply steady_writable; [exact M2|set_solver|done].
  - rewrite (steady_output _ _ _ 1 N2), (steady_output _ _ _ 1 M2) by set_solver. done.
Qed.

Lemma comparing_prints fd1 fd2 l1 l2 fmt ap t w :
  comparing fd1 fd2 l1 l2 w -> render fmt ap = Some t ->
  exists w', printf fmt ap w = Ret tt w' /\ comparing fd1 fd2 l1 l2 w' /\ output 1 w' = output 1 w ++ t.
Proof.
  intros [C1 C2 C3 (D1 & D2 & D3)] Ht. destruct (fprintf_prints 1 fmt ap t w Ht C3) as (w' & E & [P1 P2 P3 P4 P5]).
  exists w'. split; [exact E|]. split; [|done]. split; auto; (eapply steady_reads; [exact P3|set_solver|done]).
Qed.

(** One turn of the loop after the two lines have been read. *)
Lemma report_step fd1 fd2 l1 l2 f1 f2 fuel (a b : option str) n d w :
  comparing fd1 fd2 l1 l2 w -> no_nul f1 -> no_nul f2 -> (forall x, a = Some x -> no_nul x) -> (forall y, b = Some y -> no_nul y) ->
  (a = None -> b <> None) -> Z.of_nat n + 1 < 2147483648 -> 0 <= d < 2147483647 ->
  exists w', match a, b with
      | None, None => mret d
      | None, Some buf2 =>
          _ ← printf (lit "Line %d only in %s:\n> %s\n") [Word (Z.of_nat n); Str (Some f2); Str (Some buf2)];
          diff_loop fuel fd1 fd2 f1 f2 (s32 (Z.of_nat n + 1)) (s32 (d + 1))
      | Some buf1, None =>
          _ ← printf (lit "Line %d only in %s:\n< %s\n") [Word (Z.of_nat n); Str (Some f1); Str (Some buf1)];
          diff_loop fuel fd1 fd2 f1 f2 (s32 (Z.of_nat n + 1)) (s32 (d + 1))
      | Some buf1, Some buf2 =>
          if negb (Ulib.strcmp buf1 buf2 =? 0) then
            _ ← printf (lit "Line %d differs:\n< %s\n> %s\n") [Word (Z.of_nat n); Str (Some buf1); Str (Some buf2)];
            diff_loop fuel fd1 fd2 f1 f2 (s32 (Z.of_nat n + 1)) (s32 (d + 1))
          else diff_loop fuel fd1 fd2 f1 f2 (s32 (Z.of_nat n + 1)) d
      end w = diff_loop fuel fd1 fd2 f1 f2 (Z.of_nat (S n)) (d + if decide (a = b) then 0 else 1) w' /\
    comparing fd1 fd2 l1 l2 w' /\ output 1 w' = output 1 w ++ line_report f1 f2 n a b.
Proof.
  intros Hc Hf1 Hf2 Ha Hb Hab Hn Hd. rewrite (s32_id (Z.of_nat n + 1)), (s32_id (d + 1)) by lia.
  replace (Z.of_nat n + 1) with (Z.of_nat (S n)) by lia.
  assert (Hp : forall fmt ap t k, render fmt ap = Some t -> exists w',
      (printf fmt ap ≫= fun _ => k : prog W Z) w = k w' /\ comparing fd1 fd2 l1 l2 w' /\ output 1 w' = output 1 w ++ t).
  { intros fmt ap t k Ht. destruct (comparing_prints fd1 fd2 l1 l2 fmt ap t w Hc Ht) as (w' & E & H).
    exists w'. split; [|done]. by rewrite (bind_ret _ _ w tt w' E). }
  destruct a as [x|], b as [y|]; [..|by destruct (Hab eq_refl)]; cbn [line_report].
  - specialize (Ha x eq_refl). specialize (Hb y eq_refl). destruct (Z.eqb_spec (Ulib.strcmp x y) 0) as [E|E]; cbn [negb].
    + apply strcmp_eq in E as ->; [|done..]. rewrite !decide_True by done. exists w. rewrite Z.add_0_r, app_nil_r. by split_and!.
    + assert (x <> y) by (intros ->; apply E, strcmp_eq; done). rewrite !decide_False by congruence.
      apply Hp. render_lit.
  - specialize (Ha x eq_refl). rewrite decide_False by done. apply Hp. render_lit.
  - specialize (Hb y eq_refl). rewrite decide_False by done. apply Hp. render_lit.
Qed.

Lemma diff_loop_run fuel f1 f2 fd1 fd2 : no_nul f1 -> no_nul f2 -> forall l1 l2 n d w,
  comparing fd1 fd2 l1 l2 w -> lines_ok (file_lines l1) -> lines_ok (file_lines l2) ->
  let m := Nat.max (length (file_lines l1)) (length (file_lines l2)) in
  (m < fuel)%nat -> Z.of_nat n + Z.of_nat m < 2147483648 -> 0 <= d -> d + Z.of_nat m < 2147483648 ->
  exists l1' l2' w', diff_loop fuel fd1 fd2 f1 f2 (Z.of_nat n) d w = Ret (d + Z.of_nat (ndiff (file_lines l1) (file_lines l2))) w' /\
    comparing fd1 fd2 l1' l2' w' /\ output 1 w' = output 1 w ++ reports f1 f2 n (file_lines l1) (file_lines l2).
Proof.
  intros Hf1 Hf2. induction fuel as [|fuel IH]; intros l1 l2 n d w Hc H1 H2 m Hm Hn Hd Hdm; [lia|]. cbn [diff_loop].
  destruct (comparing_read fd1 fd2 l1 l2 w Hc H1 H2) as (l1' & l2' & w1 & w2 & E1 & E2 & T1 & T2 & Hc2 & Ho2).
  rewrite (bind_ret _ _ w _ w1 E1), (bind_ret _ _ w1 _ w2 E2).
  set (ls1 := file_lines l1) in *. set (ls2 := file_lines l2) in *.
  destruct (decide (ls1 = [] /\ ls2 = [])) as [[Z1 Z2]|Hne].
  { rewrite Z1, Z2. exists l1', l2', w2. cbn [head]. split; [by rewrite Z.add_0_r|]. split; [done|]. by rewrite app_nil_r. }
  assert (Hor : ls1 <> [] \/ ls2 <> []) by (destruct ls1, ls2; auto; by destruct Hne).
  assert (Hmax : m = S (Nat.max (length (tail ls1)) (length (tail ls2)))) by (by apply max_tail).
  destruct (report_step fd1 fd2 l1' l2' f1 f2 fuel (head ls1) (head ls2) n d w2) as (w3 & E3 & Hc3 & Ho3); auto; [..|lia|lia|].
  { intros x Hx. destruct ls1; [done|]. injection Hx as ->. by apply Forall_cons in H1 as [[_ ?] _]. }
  { intros x Hx. destruct ls2; [done|]. injection Hx as ->. by apply Forall_cons in H2 as [[_ ?] _]. }
  { destruct ls1, ls2; cbn; intros; [by destruct Hor|done..]. }
  set (d' := d + if decide (head ls1 = head ls2) then 0 else 1) in E3. assert (Hd' : d <= d' <= d + 1) by (unfold d'; destruct (decide _); lia).
  destruct (IH l1' l2' (S n) d' w3) as (l1'' & l2'' & w4 & E4 & Hc4 & Ho4); rewrite ?T1, ?T2; auto; try lia.
  { unfold lines_ok. destruct ls1; [done|]. by apply Forall_cons in H1 as [_ ?]. }
  { unfold lines_ok. destruct ls2; [done|]. by apply Forall_cons in H2 as [_ ?]. }
  exists l1'', l2'', w4. rewrite T1, T2 in *. rewrite (ndiff_step _ _ Hor), (reports_step _ _ _ _ _ Hor). split; [|split; [done|]].
  - etransitivity; [exact E3|]. rewrite E4. f_equal. unfold d'. destruct (decide _); lia.
  - rewrite Ho4, Ho3, Ho2. by rewrite <- (assoc_L (++)).
Qed.

Lemma line_report_nil f1 f2 n a b : line_report f1 f2 n a b = [] <-> a = b.
Proof.
  assert (Hl : lit "Line " <> []) by done. destruct a as [x|], b as [y|]; cbn [line_report]; try (split; [|done]; intros H; by apply app_nil in H as [? _]).
  - destruct (decide (x = y)) as [->|Hn]; [done|]. split; [|congruence]. intros H. by apply app_nil in H as [? _].
  - done.
Qed.

Lemma reports_nil f1 f2 n ls1 ls2 : reports f1 f2 n ls1 ls2 = [] <-> ls1 = ls2.
Proof.
  rewrite <- ndiff_zero. unfold reports, ndiff. induction (seq 0 (Nat.max (length ls1) (length ls2))) as [|i l IH]; [done|].
  cbn [map concat List.filter]. split.
  - intros H. apply app_nil in H as [H1 H2]. apply line_report_nil in H1. rewrite bool_decide_true by done. by apply IH.
  - destruct (bool_decide (ls1 !! i = ls2 !! i)) eqn:E; [|done]. apply bool_decide_eq_true in E. intros H%IH.
    rewrite H, app_nil_r. by apply line_report_nil.
Qed.

(** diff compares two files line by line.  On two files whose lines have
    fewer than 128 characters and no NUL, it ends; it prints a report on each
    line at which the files differ or that only one of them has, in order,
    and says that the files are identical exactly when it has reported
    nothing, which is when they have the same lines. *)
Theorem diff_compares fuel p f1 f2 l1 l2 w :
  contents f1 l1 w -> contents f2 l2 w -> room 2 w -> writable 1 w -> no_nul f1 -> no_nul f2 ->
  lines_ok (file_lines l1) -> lines_ok (file_lines l2) ->
  let m := Nat.max (length (file_lines l1)) (length (file_lines l2)) in
  (m < fuel)%nat -> Z.of_nat m < 2147483647 ->
  exists w', diff_main fuel [p; f1; f2] w = Exited 0 w' /\
    output 1 w' = output 1 w ++ reports f1 f2 1 (file_lines l1) (file_lines l2) ++
      (if decide (file_lines l1 = file_lines l2) then lit "Files are identical\n" else []) /\
    (reports f1 f2 1 (file_lines l1) (file_lines l2) = [] <-> file_lines l1 = file_lines l2).
Proof.
  intros Hc1 Hc2 Hroom Hw Hf1 Hf2 Hl1 Hl2 m Hm Hmax. unfold diff_main. cbn [asks_usage length Nat.eqb andb].
  destruct (open_fresh f1 l1 1 w Hc1 Hroom Hw) as (fd1 & w1 & E1 & H01 & Hn1 & Hr1 & Hst1 & Hroom1 & _).
  unfold open. change 0 with O_RDONLY at 1 2. rewrite (bind_sys _ _ w _ w1 E1).
  assert (Hw1 : writable 1 w1) by (eapply steady_writable; [exact Hst1|set_solver|done]).
  destruct (open_fresh f2 l2 0 w1 (proj2 Hst1 _ _ Hc2) Hroom1 Hw1) as (fd2 & w2 & E2 & H02 & Hn2 & Hr2 & Hst2 & _ & Hfree).
  rewrite (bind_sys _ _ w1 _ w2 E2). unfold O_RDONLY. rewrite H01, H02. cbn [orb].
  assert (fd1 <> fd2) by (intros ->; by apply (Hfree l1)).
  destruct (diff_loop_run fuel f1 f2 fd1 fd2 Hf1 Hf2 l1 l2 1 0 w2) as (l1' & l2' & w3 & E3 & [C1 C2 C3 _] & Ho3); try done; try lia.
  { split; auto; [eapply steady_reads; [exact Hst2|set_solver|done]|eapply steady_writable; [exact Hst2|set_solver|done]]. }
  rewrite (bind_ret _ _ w2 _ w3 E3). cbn [Z.add].
  set (b := decide (file_lines l1 = file_lines l2)). set (t := if b then lit "Files are identical\n" else []).
  assert (Hsay : exists w4, (if Z.of_nat (ndiff (file_lines l1) (file_lines l2)) =? 0
      then printf (lit "Files are identical\n") [] else mret tt) w3 = Ret tt w4 /\ prints 1 t w3 w4).
  { pose proof (ndiff_zero (file_lines l1) (file_lines l2)) as Hz. unfold t. destruct b as [Hb|Hb].
    - rewrite (proj2 Hz Hb). apply fprintf_prints; [|done]. render_lit.
    - rewrite (proj2 (Z.eqb_neq _ 0)) by (intros H0; apply Hb, Hz; lia). exists w3. split; [done|by apply prints_nil]. }
  destruct Hsay as (w4 & E4 & [P1 P2 P3 P4 P5]). rewrite (bind_ret _ _ w3 tt w4 E4).
  destruct (close_law fd1 l1' w4) as (r1 & w5 & E5 & Hst5 & _); [eapply steady_reads; [exact P3|set_solver|done]|].
  destruct (close_law fd2 l2' w5) as (r2 & w6 & E6 & Hst6 & _).
  { eapply steady_reads; [exact Hst5|set_solver|]. eapply steady_reads; [exact P3|set_solver|done]. }
  unfold close. rewrite (bind_sys _ _ w4 _ w5 E5), (bind_sys _ _ w5 _ w6 E6). exists w6. split; [done|]. split; [|apply reports_nil].
  rewrite (steady_output _ _ _ 1 Hst6), (steady_output _ _ _ 1 Hst5), P2, Ho3,
    (steady_output _ _ _ 1 Hst2), (steady_output _ _ _ 1 Hst1) by set_solver.
  by rewrite <- (assoc_L (++)).
Qed.

(** ** cat, wc, wce and tail *)

(** cat writes the contents of the files, one after the other, and nothing
    else, however the system cuts the reads. *)
Theorem cat_concatenates fuel p files ls w :
  Forall2 (fun path l => contents path l w) files ls -> Forall (fun l => (length l < fuel)%nat) ls -> files <> [] ->
  writable 1 w -> room 1 w ->
  exists w', cat_main fuel (p :: files) w = Exited 0 w' /\ output 1 w' = output 1 w ++ concat ls.
Proof.
  intros Hc Hl Hne Hw Hroom. unfold cat_main. rewrite (proj2 (Nat.leb_gt _ _)) by (destruct files; cbn; done || lia).
  by apply cat_files_run.
Qed.

Lemma print_number x w : writable 1 w -> exists w', (forall k : prog W unit, (printf (lit "%d ") [Word x] ≫= fun _ => k) w = k w') /\
  prints 1 (dec_str x ++ [32]) w w'.
Proof.
  intros Hw. destruct (fprintf_prints 1 (lit "%d ") [Word x] (dec_str x ++ [32]) w) as (w' & E & P); [render_lit|done|].
  exists w'. split; [|done]. intros k. by rewrite (bind_ret _ _ w tt w' E).
Qed.

(** wc prints the number of newlines, of words and of bytes of the file;
    wce the same with a further blank, the form feed, and the length of the
    longest line, to which it counts the newline. *)
Theorem wc_wce_count fuel fd name l w :
  reads fd l w -> (length l < fuel)%nat -> Z.of_nat (length l) < 2147483648 -> fd <> 1 -> writable 1 w -> no_nul name -> name <> [] ->
  (exists w', wc fuel fd name w = Ret tt w' /\
    output 1 w' = output 1 w ++ dec_str (Z.of_nat (newlines l)) ++ [32] ++ dec_str (Z.of_nat (words wc_blank l)) ++ [32] ++
      dec_str (Z.of_nat (length l)) ++ [32] ++ name ++ [10]) /\
  (exists w', wce fuel (Flags true true true true) fd name w = Ret tt w' /\
    output 1 w' = output 1 w ++ dec_str (Z.of_nat (newlines l)) ++ [32] ++ dec_str (Z.of_nat (words wce_blank l)) ++ [32] ++
      dec_str (Z.of_nat (length l)) ++ [32] ++ dec_str (Z.of_nat (longest_line l)) ++ [32] ++ name ++ [10]).
Proof.
  intros Hr Hf Hl Hfd Hw Hname Hne. split.
  - unfold wc. destruct (wc_loop_run fuel fd l (Counts 0 0 0 false) w Hr Hf) as (w1 & E & [D1 D2 D3 D4]).
    rewrite (bind_ret _ _ w _ w1 E), wc_counts by done. cbn [cl cw cc].
    assert (Hw1 : writable 1 w1) by (eapply steady_writable; [exact D2|set_solver|done]).
    destruct (fprintf_prints 1 (lit "%d %d %d %s\n") [Word (Z.of_nat (newlines l)); Word (Z.of_nat (words wc_blank l));
      Word (Z.of_nat (length l)); Str (Some name)] (dec_str (Z.of_nat (newlines l)) ++ [32] ++ dec_str (Z.of_nat (words wc_blank l)) ++ [32] ++
      dec_str (Z.of_nat (length l)) ++ [32] ++ name ++ [10]) w1) as (w2 & E2 & P); [render_lit|done|].
    exists w2. split; [exact E2|]. rewrite (pr_output _ _ _ _ P). by rewrite (steady_output _ _ _ 1 D2) by set_solver.
  - unfold wce. destruct (wce_loop_run fuel fd l (ECounts 0 0 0 false 0 0) w Hr Hf) as (w1 & E & [D1 D2 D3 D4]).
    rewrite (bind_ret _ _ w _ w1 E). rewrite (wce_longest l Hl). destruct (wce_counts l Hl) as (-> & -> & -> & _).
    cbn [flag_l flag_w flag_c flag_L negb andb].
    assert (Hw1 : writable 1 w1) by (eapply steady_writable; [exact D2|set_solver|done]).
    assert (Hn0 : (at_ name 0 =? 0) = false) by (destruct name; [done|]; apply Forall_cons in Hname as [? _]; by apply Z.eqb_neq).
    rewrite Hn0. cbn [negb].
    destruct (print_number (Z.of_nat (newlines l)) w1 Hw1) as (w2 & H2 & P2). rewrite H2.
    destruct (print_number (Z.of_nat (words wce_blank l)) w2 (pr_writable _ _ _ _ P2)) as (w3 & H3 & P3). rewrite H3.
    destruct (print_number (Z.of_nat (length l)) w3 (pr_writable _ _ _ _ P3)) as (w4 & H4 & P4). rewrite H4.
    destruct (print_number (Z.of_nat (longest_line l)) w4 (pr_writable _ _ _ _ P4)) as (w5 & H5 & P5). rewrite H5.
    destruct (fprintf_prints 1 (lit "%s") [Str (Some name)] name w5) as (w6 & H6 & P6); [|apply P5|].
    { replace (render (lit "%s") [Str (Some name)]) with (Some (name ++ [])) by (symmetry; render_lit). by rewrite app_nil_r. }
    unfold printf. rewrite (bind_ret _ _ w5 tt w6 H6).
    destruct (fprintf_prints 1 (lit "\n") [] [10] w6) as (w7 & H7 & P7); [render_lit|apply P6|].
    exists w7. split; [exact H7|].
    rewrite (pr_output _ _ _ _ P7), (pr_output _ _ _ _ P6), (pr_output _ _ _ _ P5), (pr_output _ _ _ _ P4), (pr_output _ _ _ _ P3),
      (pr_output _ _ _ _ P2), (steady_output _ _ _ 1 D2) by set_solver.
    by rewrite <- !(assoc_L (++)).
Qed.

(** tail prints the end of what the first [read] of at most 600 bytes
    returns: with [n] newlines in it, beginning at the start of a line; or
    everything, when that has at most [n] newlines. *)
Theorem tail_last_lines nlines fd close_fd l w :
  reads fd l w -> l <> [] -> 0 <= nlines -> fd <> 1 -> writable 1 w ->
  exists buf rest pre suf w', l = buf ++ rest /\ buf = pre ++ suf /\ (0 < length buf <= 600)%nat /\
    tail_fd nlines fd close_fd w = Ret 0 w' /\ output 1 w' = output 1 w ++ suf /\
    Z.of_nat (newlines suf) <= nlines /\
    (pre = [] \/ last pre = Some 10 /\ Z.of_nat (newlines suf) = nlines).
Proof.
  intros Hr Hl Hn Hfd Hw. unfold tail_fd.
  destruct (read_takes fd l 600 w Hr) as (buf & rest & w1 & E & -> & Hlen & Hnil & [T1 T2 T3 T4 T5]); [lia|].
  unfold read. rewrite (bind_sys _ _ w _ w1 E). destruct buf as [|c buf]; [by specialize (Hnil eq_refl)|].
  destruct (tail_scan_spec (c :: buf) nlines Hn (length (c :: buf)) 0) as (H1 & H2 & H3); [done|by rewrite drop_all|done|].
  set (i := tail_scan (c :: buf) nlines (length (c :: buf)) 0) in *.
  assert (Hw1 : writable 1 w1) by (eapply steady_writable; [exact T2|set_solver|done]).
  assert (Hout : exists w2 r, (if (0 <? length (c :: buf) - i)%nat then write 1 (drop i (c :: buf)) else mret 0) w1 = Ret r w2 /\
    prints 1 (drop i (c :: buf)) w1 w2).
  { destruct (Nat.ltb_spec 0 (length (c :: buf) - i)) as [Hi|Hi].
    - destruct (write_prints 1 (drop i (c :: buf)) w1 Hw1) as (w2 & E2 & P). eexists w2, _. split; [|done]. unfold write, sys. by rewrite E2.
    - exists w1, 0. split; [done|]. rewrite drop_ge by lia. by apply prints_nil. }
  destruct Hout as (w2 & r & E2 & [P1 P2 P3 P4 P5]). rewrite (bind_ret _ _ w1 r w2 E2).
  assert (Hcl : exists w3 r', (if close_fd then close fd else mret 0) w2 = Ret r' w3 /\ output 1 w3 = output 1 w2).
  { destruct close_fd; [|by exists w2, 0]. destruct (close_law fd rest w2) as (r' & w3 & E3 & Hst & _).
    { eapply steady_reads; [exact P3|set_solver|done]. }
    exists w3, r'. split; [unfold close, sys; by rewrite E3|]. rewrite (steady_output _ _ _ 1 Hst) by set_solver. done. }
  destruct Hcl as (w3 & r' & E3 & Ho). rewrite (bind_ret _ _ w2 r' w3 E3).
  exists (c :: buf), rest, (take i (c :: buf)), (drop i (c :: buf)), w3.
  split_and!; [done|by rewrite take_drop|cbn; lia|lia|done| |done|].
  - rewrite Ho, P2. by rewrite (steady_output _ _ _ 1 T2) by set_solver.
  - destruct H3 as [->|[H3 H4]]; [by left|]. destruct i as [|i]; [by left|]. right. split; [|done].
    rewrite last_lookup, length_take, Nat.min_l by done. cbn [Nat.pred]. rewrite lookup_take_lt by lia.
    cbn [Nat.sub] in H3. rewrite Nat.sub_0_r in H3. unfold at_ in H3.
    destruct (lookup_lt_is_Some_2 (c :: buf) i) as [x Hx]; [lia|]. rewrite Hx in *. cbn in H3. by f_equal.
Qed.

(** ** add and fact *)

(** add prints the sum of its arguments, as [int]s; fact the factorial of its
    argument, from 1 on, as far as it fits in an [int]. *)
Theorem add_fact_compute p x y n w :
  -2147483648 <= x < 2147483648 -> -2147483648 <= y < 2147483648 -> 1 <= n < 2147483648 -> writable 1 w -> writable 2 w ->
  (exists w', add_main [p; dec_str x; dec_str y] w = Ret 0 w' /\ output 1 w' = output 1 w ++ dec_str (x + y) ++ [10]) /\
  (exists w', fact_main [p; dec_str n] w = Ret 0 w' /\ output 2 w' = output 2 w ++ dec_str (factorial (Z.to_nat n)) ++ [10]).
Proof.
  intros Hx Hy Hn Hw1 Hw2. split.
  - unfold add_main. cbn [asks_usage length Nat.eqb andb]. destruct (dec_str_valid x) as (-> & _ & Ax), (dec_str_valid y) as (-> & _ & Ay).
    cbn [negb]. rewrite Ax, Ay, (s32_id x), (s32_id y) by lia.
    destruct (fprintf_prints 1 (lit "%d\n") [Word (s32 (x + y))] (dec_str (x + y) ++ [10]) w) as (w' & E & P);
      [rewrite <- dec_str_s32; render_lit|done|].
    exists w'. split; [|apply P]. unfold printf. by rewrite (bind_ret _ _ w tt w' E).
  - unfold fact_main. destruct (dec_str_valid n) as (V & U & An). rewrite (s32_id n) in An by lia.
    assert (asks_usage [p; dec_str n] = false) as ->.
    { unfold asks_usage. cbn [length Nat.eqb lookup list_lookup default andb]. rewrite (proj2 (Z.eqb_neq _ 63)) by exact U. done. }
    rewrite V, An. cbn [negb]. rewrite (proj2 (Z.ltb_ge n 0)) by lia.
    assert (Ef : dec_str (fact_loop (Z.to_nat (n - 2)) n) = dec_str (factorial (Z.to_nat n))).
    { rewrite <- (dec_str_s32 (fact_loop _ _)), fact_loop_spec, dec_str_s32. f_equal. destruct (decide (n = 1)) as [->|Hn1]; [done|].
      replace (Z.to_nat n) with (S (S (Z.to_nat (n - 2)))) by lia.
      set (k := Z.to_nat (n - 2)). change (factorial (S (S k))) with (Z.of_nat (S (S k)) * factorial (S k)). f_equal. lia. }
    destruct (fprintf_prints 2 (lit "%d\n") [Word (fact_loop (Z.to_nat (n - 2)) n)] (dec_str (factorial (Z.to_nat n)) ++ [10]) w) as (w' & E & P);
      [rewrite <- Ef; render_lit|done|].
    exists w'. split; [|apply P]. by rewrite (bind_ret _ _ w tt w' E).
Qed.

End Props.
