(* ===== verification/Reffs.v ===== *)
(** * A reference system for the user programs

    What the system calls of Usys.v promise to the programs of user/: a tree
    of files, devices and directories, the bytes of the files, descriptors,
    and a console that keeps what is written to it.  The limits that programs
    run into are those of kernel/param.h and kernel/fs.h: the length of a
    path, of a name and of the table of descriptors; the disk does not run
    full.  It is a specification that the programs are run against; that
    Sysfile.v implements it is not shown. *)
From S2P Require Import Prelude Cstring Ulib Printf Uprintf Usys Cmds CmdsTheory.

(** ** Trees *)

(** The entries of a directory are in slots, in the order of the directory
    file; removing one leaves its slot empty.  [.] and [..] have none. *)
Inductive node :=
| NFile (ino : Z)
| NDev (ino : Z)
| NDir (ino : Z) (slots : list (option (str * node))).

Abbreviation slot := (option (str * node)).

Definition ino_of (n : node) : Z := match n with NFile i | NDev i | NDir i _ => i end.

Fixpoint find_slot (c : str) (s : list slot) : option node :=
  match s with
  | [] => None
  | Some (c', n) :: s => if decide (c' = c) then Some n else find_slot c s
  | None :: s => find_slot c s
  end.

(** The first empty slot, or a new one at the end. *)
Fixpoint add_slot (c : str) (n : node) (s : list slot) : list slot :=
  match s with
  | [] => [Some (c, n)]
  | None :: s => Some (c, n) :: s
  | o :: s => o :: add_slot c n s
  end.

(** The first slot with the name. *)
Fixpoint change_slot (c : str) (f : node -> slot) (s : list slot) : list slot :=
  match s with
  | [] => []
  | Some (c', n) :: s => if decide (c' = c) then f n :: s else Some (c', n) :: change_slot c f s
  | None :: s => None :: change_slot c f s
  end.

Definition clear_slot (c : str) (s : list slot) : list slot := change_slot c (fun _ => None) s.

(** The node at a path, and the tree with that node changed. *)
Fixpoint get (n : node) (p : list str) : option node :=
  match p with
  | [] => Some n
  | c :: p => match n with NDir _ s => n' ← find_slot c s; get n' p | _ => None end
  end.

Fixpoint alter (f : node -> node) (p : list str) (n : node) : node :=
  match p with
  | [] => f n
  | c :: p =>
      match n with
      | NDir i s => NDir i (change_slot c (fun n' => Some (c, alter f p n')) s)
      | _ => n
      end
  end.

Definition in_dir (f : list slot -> list slot) (n : node) : node :=
  match n with NDir i s => NDir i (f s) | _ => n end.

(** ** Worlds *)

Inductive desc :=
| DFile (ino : Z) (off : nat) (rd wr : bool)
| DDir (path : list str) (ino : Z) (off : nat)
| DCons (written : list Z).

Record world := World {
  root : node;
  cwd : list str;
  data : gmap Z (list Z);
  next_ino : Z;
  fds : list (option desc);
  stdin : list Z
}.

Definition set_root (r : node) (w : world) : world := World r (cwd w) (data w) (next_ino w) (fds w) (stdin w).
Definition set_data (d : gmap Z (list Z)) (w : world) : world := World (root w) (cwd w) d (next_ino w) (fds w) (stdin w).
Definition set_fds (f : list (option desc)) (w : world) : world := World (root w) (cwd w) (data w) (next_ino w) f (stdin w).
Definition set_stdin (i : list Z) (w : world) : world := World (root w) (cwd w) (data w) (next_ino w) (fds w) i.
Definition bump_ino (w : world) : world := World (root w) (cwd w) (data w) (next_ino w + 1) (fds w) (stdin w).

Definition NOFILE : nat := 16.
Definition MAXPATH : nat := 128.
Definition DIRSIZ : nat := 14.
Definition dot : str := [46].
Definition dotdot : str := [46; 46].

(** The elements of a path, cut to the length of a name. *)
Fixpoint elems (cur s : str) : list str :=
  match s with
  | [] => match cur with [] => [] | _ => [take DIRSIZ cur] end
  | c :: s =>
      if c =? 47 then match cur with [] => elems [] s | _ => take DIRSIZ cur :: elems [] s end
      else elems (cur ++ [c]) s
  end.

(** One element, from the directory [cur]. *)
Definition step (t : node) (cur : list str) (c : str) : option (list str) :=
  match get t cur with
  | Some (NDir _ s) =>
      if decide (c = dot) then Some cur
      else if decide (c = dotdot) then Some (removelast cur)
      else match find_slot c s with Some _ => Some (cur ++ [c]) | None => None end
  | _ => None
  end.

Fixpoint steps (t : node) (cur : list str) (es : list str) : option (list str) :=
  match es with
  | [] => Some cur
  | c :: es => cur ← step t cur c; steps t cur es
  end.

Definition start_dir (w : world) (path : str) : list str := if at_ path 0 =? 47 then [] else cwd w.

(** [namei]: the place that a path names. *)
Definition resolve (w : world) (path : str) : option (list str) :=
  if (length path <? MAXPATH)%nat then steps (root w) (start_dir w path) (elems [] path) else None.

(** [nameiparent]: the directory of the last element, and that element. *)
Definition resolve_parent (w : world) (path : str) : option (list str * str) :=
  if (length path <? MAXPATH)%nat then
    match last (elems [] path) with
    | None => None
    | Some c =>
        d ← steps (root w) (start_dir w path) (removelast (elems [] path));
        match get (root w) d with Some (NDir _ _) => Some (d, c) | _ => None end
    end
  else None.

(** The entry [c] of the directory at [d]; [.] and [..] exist and are
    directories. *)
Definition entry (w : world) (d : list str) (c : str) : option (list str * node) :=
  p ← step (root w) d c; n ← get (root w) p; Some (p, n).

(** ** Descriptors *)

Fixpoint lowest (f : list (option desc)) : option nat :=
  match f with
  | [] => None
  | None :: _ => Some 0%nat
  | Some _ :: f => S <$> lowest f
  end.

Definition fd_of (fd : Z) (w : world) : option desc :=
  if fd <? 0 then None else match fds w !! Z.to_nat fd with Some (Some d) => Some d | _ => None end.
Definition set_fd (fd : Z) (d : option desc) (w : world) : world := set_fds (<[Z.to_nat fd := d]> (fds w)) w.

Definition install (d : desc) (w : world) : Z * world :=
  match lowest (fds w) with
  | None => (-1, w)
  | Some i => (Z.of_nat i, set_fds (<[i := Some d]> (fds w)) w)
  end.

(** A [struct dirent], and the bytes of a directory. *)
Definition dirent (ino : Z) (c : str) : list Z := [u8 ino; u8 (ino / 256)] ++ take DIRSIZ (c ++ replicate DIRSIZ 0).
Definition slot_bytes (o : slot) : list Z := match o with Some (c, n) => dirent (ino_of n) c | None => replicate 16 0 end.
Definition dir_bytes (w : world) (path : list str) (ino : Z) : list Z :=
  let up := match get (root w) (removelast path) with Some n => ino_of n | None => 0 end in
  dirent ino dot ++ dirent up dotdot ++
  match get (root w) path with
  | Some (NDir i s) => if i =? ino then concat (map slot_bytes s) else []
  | _ => []
  end.

(** ** The calls *)

Definition has_flag (omode flag : Z) : bool := negb (Z.land omode flag =? 0).

(** A new entry of the directory [d]. *)
Definition enter (d : list str) (c : str) (n : node) (w : world) : world :=
  set_root (alter (in_dir (add_slot c n)) d (root w)) w.

(** [create] for a file, which may exist already. *)
Definition create_file (path : str) (w : world) : option (list str) * world :=
  match resolve_parent w path with
  | None => (None, w)
  | Some (d, c) =>
      match entry w d c with
      | Some (p, NDir _ _) => (None, w)
      | Some (p, _) => (Some p, w)
      | None =>
          let w' := enter d c (NFile (next_ino w)) (set_data (<[next_ino w := []]> (data w)) w) in
          (Some (d ++ [c]), bump_ino w')
      end
  end.

Definition ref_open (path : str) (omode : Z) (w : world) : Z * world :=
  let '(r, w) := if has_flag omode O_CREATE then create_file path w else (resolve w path, w) in
  match r ≫= get (root w), r with
  | Some (NDir i _), Some p => if omode =? O_RDONLY then install (DDir p i 0) w else (-1, w)
  | Some (NFile i), _ =>
      let w := if has_flag omode 1024 then set_data (<[i := []]> (data w)) w else w in
      install (DFile i 0 (negb (has_flag omode 1)) (has_flag omode 1 || has_flag omode 2)) w
  | Some (NDev _), _ => install (DCons []) w
  | _, _ => (-1, w)
  end.

Definition ref_close (fd : Z) (w : world) : Z * world :=
  match fd_of fd w with
  | None => (-1, w)
  | Some _ => (0, set_fd fd None w)
  end.

Definition ref_read (fd : Z) (n : nat) (w : world) : option (list Z) * world :=
  match fd_of fd w with
  | Some (DFile i off true wr) =>
      let bs := take n (drop off (default [] (data w !! i))) in
      (Some bs, set_fd fd (Some (DFile i (off + length bs) true wr)) w)
  | Some (DDir p i off) =>
      let bs := take n (drop off (dir_bytes w p i)) in
      (Some bs, set_fd fd (Some (DDir p i (off + length bs))) w)
  | Some (DCons _) => (Some (take n (stdin w)), set_stdin (drop n (stdin w)) w)
  | _ => (None, w)
  end.

Definition ref_write (fd : Z) (bs : list Z) (w : world) : Z * world :=
  match fd_of fd w with
  | Some (DFile i off rd true) =>
      let l := default [] (data w !! i) in
      (Z.of_nat (length bs),
       set_fd fd (Some (DFile i (off + length bs) rd true))
         (set_data (<[i := take off l ++ bs ++ drop (off + length bs) l]> (data w)) w))
  | Some (DCons out) => (Z.of_nat (length bs), set_fd fd (Some (DCons (out ++ bs))) w)
  | _ => (-1, w)
  end.

Definition node_stat (w : world) (n : node) : stat :=
  match n with
  | NDir i s => Stat T_DIR i (16 * (2 + Z.of_nat (length s)))
  | NFile i => Stat T_FILE i (Z.of_nat (length (default [] (data w !! i))))
  | NDev i => Stat T_DEVICE i 0
  end.

Definition ref_fstat (fd : Z) (w : world) : option stat * world :=
  match fd_of fd w with
  | Some (DFile i _ _ _) => (Some (node_stat w (NFile i)), w)
  | Some (DDir p i _) =>
      (Some (match get (root w) p with
             | Some n => if ino_of n =? i then node_stat w n else Stat T_DIR i 32
             | None => Stat T_DIR i 32
             end), w)
  | Some (DCons _) => (Some (Stat T_DEVICE 0 0), w)
  | None => (None, w)
  end.

Definition ref_link (old new : str) (w : world) : Z * world :=
  match resolve w old ≫= get (root w), resolve_parent w new with
  | Some (NDir _ _), _ => (-1, w)
  | Some n, Some (d, c) =>
      match entry w d c with
      | Some _ => (-1, w)
      | None => (0, enter d c n w)
      end
  | _, _ => (-1, w)
  end.

(** Directories can only be removed when no slot of theirs is in use. *)
Definition removable (n : node) : bool :=
  match n with NDir _ s => forallb (fun o => match o with Some _ => false | None => true end) s | _ => true end.

Definition ref_unlink (path : str) (w : world) : Z * world :=
  match resolve_parent w path with
  | None => (-1, w)
  | Some (d, c) =>
      if decide (c = dot) then (-1, w)
      else if decide (c = dotdot) then (-1, w)
      else
        match entry w d c with
        | Some (_, n) =>
            if removable n then (0, set_root (alter (in_dir (clear_slot c)) d (root w)) w) else (-1, w)
        | None => (-1, w)
        end
  end.

Definition ref_mkdir (path : str) (w : world) : Z * world :=
  match resolve_parent w path with
  | None => (-1, w)
  | Some (d, c) =>
      match entry w d c with
      | Some _ => (-1, w)
      | None => (0, bump_ino (enter d c (NDir (next_ino w) []) w))
      end
  end.

#[export] Instance ref_sys : Sys world := {
  sys_open := ref_open;
  sys_close := ref_close;
  sys_read := ref_read;
  sys_write := ref_write;
  sys_fstat := ref_fstat;
  sys_link := ref_link;
  sys_unlink := ref_unlink;
  sys_mkdir := ref_mkdir;
  sys_kill _ w := (-1, w);
  sys_sleep _ w := (0, w)
}.

(** A world with nothing but the three descriptors of the console. *)
Definition console_fds : list (option desc) := replicate 3 (Some (DCons [])) ++ replicate (NOFILE - 3) None.
Definition world0 (r : node) (d : gmap Z (list Z)) (next : Z) : world := World r [] d next console_fds [].

(** * The reference system keeps the promises that programs rely on

    The class [Streams] of CmdsTheory.v for the worlds of Reffs.v, and the
    laws of the trees. *)

(** ** Descriptors *)

Lemma fd_of_set_eq fd d w : (exists d0, fd_of fd w = Some d0) -> fd_of fd (set_fd fd d w) = d.
Proof.
  unfold fd_of, set_fd. intros [d0 H]. destruct (fd <? 0); [done|]. cbn [fds set_fds].
  destruct (fds w !! Z.to_nat fd) as [x|] eqn:E; [|done]. rewrite list_lookup_insert_eq by (by eapply lookup_lt_Some). by destruct d.
Qed.

Lemma fd_of_set_ne fd fd' d w : 0 <= fd -> fd' <> fd -> fd_of fd' (set_fd fd d w) = fd_of fd' w.
Proof.
  intros H Hne. unfold fd_of, set_fd. destruct (Z.ltb_spec fd' 0); [done|]. cbn [fds set_fds]. by rewrite list_lookup_insert_ne by lia.
Qed.

Lemma fd_of_nonneg fd w d : fd_of fd w = Some d -> 0 <= fd.
Proof. unfold fd_of. destruct (Z.ltb_spec fd 0); [done|lia]. Qed.

Lemma fd_of_ext fd w w' : fds w' = fds w -> fd_of fd w' = fd_of fd w.
Proof. unfold fd_of. by intros ->. Qed.

(** The number of free descriptors. *)
Fixpoint free_fds (f : list (option desc)) : nat :=
  match f with
  | [] => 0
  | None :: f => S (free_fds f)
  | Some _ :: f => free_fds f
  end.

Lemma free_insert f k d d0 : f !! k = Some (Some d0) -> free_fds (<[k := Some d]> f) = free_fds f.
Proof.
  revert k. induction f as [|o f IH]; intros [|k] H; [done..|injection H as ->; done|].
  change (<[S k := Some d]> (o :: f)) with (o :: <[k := Some d]> f). cbn [free_fds]. by rewrite (IH k H).
Qed.

Lemma free_close f k d0 : f !! k = Some (Some d0) -> free_fds (<[k := None]> f) = S (free_fds f).
Proof.
  revert k. induction f as [|o f IH]; intros [|k] H; [done..|injection H as ->; done|].
  change (<[S k := None]> (o :: f)) with (o :: <[k := None]> f). cbn [free_fds]. rewrite (IH k H). by destruct o.
Qed.

Lemma lowest_free f : (0 < free_fds f)%nat -> exists k, lowest f = Some k.
Proof.
  induction f as [|[d|] f IH]; [cbn; lia| |by eexists]. intros H. destruct IH as [k Hk]; [exact H|]. exists (S k). cbn. by rewrite Hk.
Qed.

Lemma lowest_some f k d : lowest f = Some k -> f !! k = Some None /\ S (free_fds (<[k := Some d]> f)) = free_fds f.
Proof.
  revert k. induction f as [|[d'|] f IH]; intros k H; [done| |injection H as <-; done]. cbn in H.
  destruct (lowest f) as [j|]; [|done]. injection H as <-. destruct (IH j eq_refl) as [H1 H2]. done.
Qed.

(** ** The promises *)

Definition ref_reads (fd : Z) (l : list Z) (w : world) : Prop :=
  exists i off wr, fd_of fd w = Some (DFile i off true wr) /\ drop off (default [] (data w !! i)) = l.
Definition ref_writable (fd : Z) (w : world) : Prop := exists out, fd_of fd w = Some (DCons out).
Definition ref_output (fd : Z) (w : world) : list Z := match fd_of fd w with Some (DCons out) => out | _ => [] end.
Definition ref_contents (path : str) (l : list Z) (w : world) : Prop :=
  exists p i, resolve w path = Some p /\ get (root w) p = Some (NFile i) /\ data w !! i = Some l.

(** A call that only changes the descriptor [fd]. *)
Lemma touched fd d w : 0 <= fd ->
  (forall fd', fd' ∉ ({[fd]} : gset Z) -> (forall l, ref_reads fd' l w -> ref_reads fd' l (set_fd fd d w)) /\
     (ref_writable fd' w -> ref_writable fd' (set_fd fd d w)) /\ ref_output fd' (set_fd fd d w) = ref_output fd' w) /\
  (forall path l, ref_contents path l w -> ref_contents path l (set_fd fd d w)).
Proof.
  intros Hfd. split; [|done]. intros fd' Hn. assert (Hne : fd' <> fd) by set_solver.
  unfold ref_reads, ref_writable, ref_output. by rewrite (fd_of_set_ne fd fd' d w Hfd Hne).
Qed.

Lemma fds_lookup fd w d : fd_of fd w = Some d -> fds w !! Z.to_nat fd = Some (Some d).
Proof. unfold fd_of. destruct (fd <? 0); [done|]. destruct (fds w !! Z.to_nat fd) as [[x|]|]; congruence. Qed.

Lemma ref_read_law fd l n w : ref_reads fd l w -> (0 < n)%nat ->
  exists k w', ref_read fd n w = (Some (take k l), w') /\ (k <= n)%nat /\ (l = [] \/ (0 < k)%nat) /\ ref_reads fd (drop k l) w' /\
    exists d, w' = set_fd fd (Some d) w /\ ref_output fd w' = ref_output fd w /\ ~ ref_writable fd w.
Proof.
  intros (i & off & wr & E & El) Hn. unfold ref_read. rewrite E, El.
  exists (Nat.min n (length l)), (set_fd fd (Some (DFile i (off + length (take n l)) true wr)) w).
  assert (Ef : fd_of fd (set_fd fd (Some (DFile i (off + length (take n l)) true wr)) w) = Some (DFile i (off + length (take n l)) true wr))
    by (by apply fd_of_set_eq; eexists).
  split_and!.
  - f_equal. f_equal. destruct (decide (n <= length l)%nat); [by rewrite Nat.min_l|]. rewrite Nat.min_r by lia. by rewrite !take_ge by lia.
  - lia.
  - destruct l; [by left|]. right. cbn. lia.
  - exists i, (off + length (take n l))%nat, wr. split; [exact Ef|]. cbn [data set_fd set_fds]. rewrite <- drop_drop, El, length_take. done.
  - eexists. split; [done|]. unfold ref_output, ref_writable. rewrite Ef, E. split; [done|]. by intros [? ?].
Qed.

Lemma install_new d w : (0 < free_fds (fds w))%nat ->
  exists fd, install d w = (fd, set_fd fd (Some d) w) /\ 0 <= fd /\ fd_of fd w = None /\
    fd_of fd (set_fd fd (Some d) w) = Some d /\ S (free_fds (fds (set_fd fd (Some d) w))) = free_fds (fds w).
Proof.
  intros Hf. destruct (lowest_free _ Hf) as [k Hk]. destruct (lowest_some _ k d Hk) as [H1 H2].
  exists (Z.of_nat k). unfold install. rewrite Hk. unfold set_fd, fd_of. rewrite Nat2Z.id. cbn [fds set_fds].
  rewrite (proj2 (Z.ltb_ge _ 0)) by lia. rewrite H1, list_lookup_insert_eq by (by eapply lookup_lt_Some). split_and!; done || lia.
Qed.

Lemma ref_write_law fd bs w : ref_writable fd w ->
  exists d, ref_write fd bs w = (Z.of_nat (length bs), set_fd fd (Some d) w) /\ fd_of fd (set_fd fd (Some d) w) = Some d /\
    d = DCons (ref_output fd w ++ bs).
Proof.
  intros [out E]. unfold ref_write, ref_output. rewrite E. eexists. split; [done|]. split; [|done]. apply fd_of_set_eq. by eexists.
Qed.

Lemma ref_open_law path l n w : ref_contents path l w -> (S n <= free_fds (fds w))%nat ->
  exists fd d, ref_open path O_RDONLY w = (fd, set_fd fd (Some d) w) /\ 0 <= fd /\ ref_reads fd l (set_fd fd (Some d) w) /\
    (n <= free_fds (fds (set_fd fd (Some d) w)))%nat /\ fd_of fd w = None.
Proof.
  intros (p & i & Er & Eg & Ed) Hn. destruct (install_new (DFile i 0 true false) w) as (fd & Ei & H0 & H1 & H2 & H3); [lia|].
  exists fd, (DFile i 0 true false). unfold ref_open. change (has_flag O_RDONLY O_CREATE) with false. cbn iota.
  rewrite Er. cbn [mbind option_bind]. rewrite Eg. change (has_flag O_RDONLY 1024) with false. cbn iota.
  change (negb (has_flag O_RDONLY 1)) with true. change (has_flag O_RDONLY 1 || has_flag O_RDONLY 2) with false.
  split; [exact Ei|]. split_and!; [done| |lia|done]. exists i, 0%nat, false. split; [exact H2|]. cbn [data set_fd set_fds]. by rewrite Ed.
Qed.

#[local] Obligation Tactic := idtac.

#[export] Program Instance ref_streams : Streams world := {|
  reads := ref_reads;
  writable := ref_writable;
  output := ref_output;
  contents := ref_contents;
  room n w := (n <= free_fds (fds w))%nat
|}.
Next Obligation.
  intros fd l n w Hr Hn. destruct (ref_read_law fd l n w Hr Hn) as (k & w' & E & Hk & Hl & Hr' & d & -> & Ho & Hw).
  destruct Hr as (i & off & wr & Ef & _). exists k, (set_fd fd (Some d) w). split; [exact E|]. split; [exact Hk|]. split; [exact Hl|]. split; [exact Hr'|].
  split; [apply touched; by eapply fd_of_nonneg|]. split; [exact Ho|]. split; [done|].
  intros j Hj. cbn [fds set_fd set_fds]. by rewrite (free_insert _ _ d _ (fds_lookup _ _ _ Ef)).
Qed.
Next Obligation.
  intros fd bs w Hw. destruct (ref_write_law fd bs w Hw) as (d & E & Ed & ->). destruct Hw as [out Ef].
  eexists. split; [exact E|]. unfold ref_writable, ref_output, ref_reads in *. rewrite Ed.
  split; [by eexists|]. split; [done|]. split; [apply touched; by eapply fd_of_nonneg|]. split.
  - intros l (i & off & wr & H & _). congruence.
  - intros j Hj. cbn [fds set_fd set_fds]. by rewrite (free_insert _ _ _ _ (fds_lookup _ _ _ Ef)).
Qed.
Next Obligation.
  intros path l n w Hc Hn. destruct (ref_open_law path l n w Hc Hn) as (fd & d & E & H0 & Hr & Hfree & Hnone).
  exists fd, (set_fd fd (Some d) w). unfold ref_writable. rewrite Hnone.
  split; [exact E|]. split; [exact H0|]. split; [exact Hr|]. split; [by apply touched|]. split; [exact Hfree|]. split.
  - by intros [? ?].
  - intros l' (? & ? & ? & ? & _). congruence.
Qed.
Next Obligation.
  intros fd l w (i & off & wr & Ef & _). exists 0, (set_fd fd None w). cbn [sys_close ref_sys]. unfold ref_close. rewrite Ef.
  split; [done|]. split.
  - apply touched. by eapply fd_of_nonneg.
  - intros n Hn. cbn [fds set_fd set_fds]. rewrite (free_close _ _ _ (fds_lookup _ _ _ Ef)). lia.
Qed.

(** ** Trees *)

Lemma find_change_eq c g s : find_slot c (change_slot c (fun n => Some (c, g n)) s) = g <$> find_slot c s.
Proof.
  induction s as [|[[c' n]|] s IH]; cbn [change_slot find_slot]; [done| |done].
  destruct (decide (c' = c)) as [->|Hn]; cbn [find_slot]; [by rewrite decide_True|]. by rewrite decide_False by done.
Qed.

Lemma find_change_ne c d f s : c <> d -> (forall n, f n = None \/ exists n', f n = Some (c, n')) ->
  find_slot d (change_slot c f s) = find_slot d s.
Proof.
  intros Hcd Hf. induction s as [|[[c' n]|] s IH]; cbn [change_slot find_slot]; [done| |done].
  destruct (decide (c' = c)) as [->|Hn].
  - rewrite (decide_False (P := c = d)) by done. destruct (Hf n) as [->|[n' ->]]; cbn [find_slot]; [done|]. by rewrite decide_False by done.
  - cbn [find_slot]. by rewrite IH.
Qed.

Lemma change_change c f g s : change_slot c (fun n => Some (c, g n)) (change_slot c (fun n => Some (c, f n)) s) =
  change_slot c (fun n => Some (c, g (f n))) s.
Proof.
  induction s as [|[[c' n]|] s IH]; cbn [change_slot]; [done| |by rewrite IH].
  destruct (decide (c' = c)) as [->|Hn]; cbn [change_slot]; [by rewrite decide_True|]. by rewrite decide_False, IH by done.
Qed.

Lemma clear_change c f s : clear_slot c (change_slot c (fun n => Some (c, f n)) s) = clear_slot c s.
Proof.
  unfold clear_slot. induction s as [|[[c' n]|] s IH]; cbn [change_slot]; [done| |by rewrite IH].
  destruct (decide (c' = c)) as [->|Hn]; cbn [change_slot]; [by rewrite decide_True|]. by rewrite decide_False, IH by done.
Qed.

Lemma change_comm c d f g s : c <> d ->
  change_slot c (fun n => Some (c, f n)) (change_slot d (fun n => Some (d, g n)) s) =
  change_slot d (fun n => Some (d, g n)) (change_slot c (fun n => Some (c, f n)) s).
Proof.
  intros Hcd. induction s as [|[[c' n]|] s IH]; cbn [change_slot]; [done| |by rewrite IH].
  destruct (decide (c' = d)) as [Ed|Hd], (decide (c' = c)) as [Ec|Hc]; [congruence|..]; cbn [change_slot].
  - by rewrite (decide_False (P := d = c)), decide_True by congruence.
  - by rewrite decide_True, (decide_False (P := c = d)) by congruence.
  - by rewrite !decide_False, IH by done.
Qed.

Lemma change_ext c f g s : (forall n, find_slot c s = Some n -> f n = g n) -> change_slot c f s = change_slot c g s.
Proof.
  induction s as [|[[c' n]|] s IH]; cbn [change_slot find_slot]; [done| |intros H; by rewrite IH].
  destruct (decide (c' = c)); intros H; [by rewrite H|]. by rewrite IH.
Qed.

Lemma find_add c n s d : find_slot c s = None ->
  find_slot d (add_slot c n s) = if decide (c = d) then Some n else find_slot d s.
Proof.
  induction s as [|[[c' n']|] s IH]; cbn [find_slot add_slot]; intros H; [done| |].
  - destruct (decide (c' = c)) as [->|Hc]; [done|]. rewrite IH by done.
    destruct (decide (c' = d)) as [->|Hd]; [|done]. by rewrite decide_False by done.
  - done.
Qed.

Lemma change_add c n s f : find_slot c s = None -> change_slot c (fun n => Some (c, f n)) (add_slot c n s) = add_slot c (f n) s.
Proof.
  induction s as [|[[c' n']|] s IH]; cbn [find_slot add_slot]; intros H.
  - cbn [change_slot]. by rewrite decide_True.
  - destruct (decide (c' = c)) as [->|Hc]; [done|]. cbn [change_slot]. by rewrite decide_False, IH.
  - cbn [change_slot]. by rewrite decide_True.
Qed.

Lemma get_app t p q : get t (p ++ q) = n ← get t p; get n q.
Proof.
  revert t. induction p as [|c p IH]; intros t; [done|]. cbn [app get]. destruct t as [| |i s]; [done..|].
  destruct (find_slot c s) as [n|]; [apply IH|done].
Qed.

Lemma alter_app f p q t : alter f (p ++ q) t = alter (alter f q) p t.
Proof.
  revert t. induction p as [|c p IH]; intros t; [done|]. cbn [app alter]. destruct t as [| |i s]; [done..|].
  f_equal. apply change_ext. intros n _. by rewrite IH.
Qed.

Lemma get_alter f p t : get (alter f p t) p = f <$> get t p.
Proof.
  revert t. induction p as [|c p IH]; intros t; [done|]. cbn [get alter]. destruct t as [| |i s]; [done..|].
  rewrite find_change_eq. destruct (find_slot c s) as [n|]; [apply IH|done].
Qed.

Lemma alter_alter f g p t : alter f p (alter g p t) = alter (fun n => f (g n)) p t.
Proof.
  revert t. induction p as [|c p IH]; intros t; [done|]. cbn [alter]. destruct t as [| |i s]; [done..|].
  rewrite change_change. f_equal. apply change_ext. intros n _. by rewrite IH.
Qed.

Lemma alter_ext f g p t : (forall n, get t p = Some n -> f n = g n) -> alter f p t = alter g p t.
Proof.
  revert t. induction p as [|c p IH]; intros t H; [by apply H|]. cbn [alter get] in *. destruct t as [| |i s]; [done..|].
  f_equal. apply change_ext. intros n Hn. rewrite Hn in H. do 2 f_equal. apply IH. exact H.
Qed.

(** Neither path leads through the other. *)
Definition apart (p q : list str) : Prop := ~ p `prefix_of` q /\ ~ q `prefix_of` p.

Lemma apart_cons c p d q : apart (c :: p) (d :: q) -> c <> d \/ c = d /\ apart p q.
Proof.
  intros [H1 H2]. destruct (decide (c = d)) as [->|]; [|by left]. right. split; [done|].
  split; intros H; [apply H1|apply H2]; by apply prefix_cons.
Qed.

Lemma apart_not_nil p q : apart p q -> p <> [] /\ q <> [].
Proof. intros [H1 H2]. split; intros ->; [apply H1|apply H2]; apply prefix_nil. Qed.

Lemma get_alter_apart f p q t : apart p q -> get (alter f p t) q = get t q.
Proof.
  revert q t. induction p as [|c p IH]; intros q t H; [by destruct (apart_not_nil _ _ H)|].
  destruct q as [|d q]; [by destruct (apart_not_nil _ _ H)|]. cbn [alter get]. destruct t as [| |i s]; [done..|].
  destruct (apart_cons _ _ _ _ H) as [Hn|[-> Ha]].
  - rewrite find_change_ne; [done|done|]. intros n. right. by eexists.
  - rewrite find_change_eq. destruct (find_slot d s); [by apply IH|done].
Qed.

Lemma alter_comm f g p q t : apart p q -> alter f p (alter g q t) = alter g q (alter f p t).
Proof.
  revert q t. induction p as [|c p IH]; intros q t H; [by destruct (apart_not_nil _ _ H)|].
  destruct q as [|d q]; [by destruct (apart_not_nil _ _ H)|]. cbn [alter]. destruct t as [| |i s]; [done..|].
  f_equal. destruct (apart_cons _ _ _ _ H) as [Hn|[-> Ha]]; [by apply change_comm|].
  rewrite !change_change. apply change_ext. intros n _. by rewrite IH.
Qed.

(** ** Paths *)

Definition nodots (es : list str) : Prop := Forall (fun c => c <> dot /\ c <> dotdot) es.

Lemma step_plain t cur c n : c <> dot -> c <> dotdot -> get t (cur ++ [c]) = Some n -> step t cur c = Some (cur ++ [c]).
Proof.
  intros H1 H2 H. rewrite get_app in H. unfold step. destruct (get t cur) as [m|]; [|done]. cbn [mbind option_bind get] in H.
  destruct m as [| |i s]; [done..|]. rewrite !decide_False by done. by destruct (find_slot c s).
Qed.

Lemma steps_plain t es : forall cur n, nodots es -> get t (cur ++ es) = Some n -> steps t cur es = Some (cur ++ es).
Proof.
  induction es as [|c es IH]; intros cur n Hd H; cbn [steps]; [by rewrite app_nil_r|].
  apply Forall_cons in Hd as [[Hd1 Hd2] Hd]. replace (cur ++ c :: es) with ((cur ++ [c]) ++ es) in * by (by rewrite <- (assoc_L (++))).
  assert (Hc : exists m, get t (cur ++ [c]) = Some m) by (rewrite get_app in H; destruct (get t (cur ++ [c])); [by eexists|done]).
  destruct Hc as [m Hm]. rewrite (step_plain t cur c m) by done. cbn [mbind option_bind]. by apply (IH _ n).
Qed.

(** The string [s] names the place [p], without [.] and [..]. *)
Definition spells (cw : list str) (s : str) (p : list str) : Prop :=
  nodots (elems [] s) /\ p = (if at_ s 0 =? 47 then [] else cw) ++ elems [] s.

Lemma resolve_spells w s p n : spells (cwd w) s p -> (length s < MAXPATH)%nat -> get (root w) p = Some n -> resolve w s = Some p.
Proof.
  intros [Hd ->] Hl Hg. unfold resolve, start_dir. rewrite (proj2 (Nat.ltb_lt _ _) Hl). by apply (steps_plain _ _ _ n).
Qed.

(** The elements of a string before and after a slash. *)
Lemma elems_at_slash s : forall cur r, elems cur (s ++ 47 :: r) = elems cur (s ++ [47]) ++ elems [] r.
Proof.
  induction s as [|c s IH]; intros cur r; cbn [app elems].
  - change (47 =? 47) with true. cbn iota. by destruct cur.
  - destruct (c =? 47); [|apply IH]. destruct cur; [apply IH|]. cbn [app]. by rewrite IH.
Qed.

Lemma elems_end s : forall cur, elems cur (s ++ [47]) = elems cur s.
Proof.
  induction s as [|c s IH]; intros cur; cbn [app elems].
  - change (47 =? 47) with true. cbn iota. by destruct cur.
  - destruct (c =? 47); [|apply IH]. destruct cur; by rewrite IH.
Qed.

(** A name that can be an element. *)
Definition good (c : str) : Prop :=
  c <> [] /\ (length c <= 13)%nat /\ Forall (fun x => 0 < x < 256 /\ x <> 47) c /\ c <> dot /\ c <> dotdot.

Lemma elems_word c : forall cur, Forall (fun x => x <> 47) c -> elems cur c = match cur ++ c with [] => [] | l => [take DIRSIZ l] end.
Proof.
  induction c as [|x c IH]; intros cur Hc; cbn [elems]; [rewrite app_nil_r; by destruct cur|]. apply Forall_cons in Hc as [Hx Hc].
  rewrite (proj2 (Z.eqb_neq x 47) Hx), IH by done. by rewrite <- (assoc_L (++)).
Qed.

Lemma good_noslash c : good c -> Forall (fun x => x <> 47) c.
Proof. intros (_ & _ & H & _). eapply Forall_impl; [exact H|]. by intros x [_ ?]. Qed.

Lemma good_nonul c : good c -> Forall (fun x => x <> 0) c.
Proof. intros (_ & _ & H & _). eapply Forall_impl; [exact H|]. intros x [? _]. lia. Qed.

Lemma elems_good c : good c -> elems [] c = [c].
Proof.
  intros Hg. rewrite elems_word by (by apply good_noslash). destruct Hg as (Hn & Hl & _). cbn [app]. destruct c; [done|].
  rewrite take_ge; [done|]. unfold DIRSIZ. lia.
Qed.

(** A directory part is empty or ends in a slash. *)
Definition dir_part (s : str) : Prop := s = [] \/ exists s', s = s' ++ [47].

Lemma elems_join s c : dir_part s -> good c -> elems [] (s ++ c) = elems [] s ++ [c].
Proof.
  intros [->|[s' ->]] Hc; [by apply elems_good|]. rewrite <- (assoc_L (++)). cbn [app]. by rewrite (elems_at_slash s' [] c), (elems_good c).
Qed.

Lemma join_first s c : s <> [] -> at_ (s ++ c) 0 = at_ s 0.
Proof. by destruct s. Qed.

Lemma spells_join cw s p c : dir_part s -> good c -> spells cw s p -> spells cw (s ++ c) (p ++ [c]).
Proof.
  intros Hs Hc [Hd ->]. pose proof Hc as (Hne & _ & Hx & H1 & H2). unfold spells. rewrite elems_join by done. split.
  - apply Forall_app. split; [done|]. by apply Forall_singleton.
  - rewrite (assoc_L (++)). f_equal. f_equal. destruct s as [|x s]; [|done]. cbn [app at_ lookup list_lookup].
    destruct c as [|x c]; [done|]. apply Forall_cons in Hx as [[_ Hx] _]. unfold at_. cbn. by rewrite (proj2 (Z.eqb_neq x 47) Hx).
Qed.

Lemma spells_slash cw s p : s <> [] -> spells cw s p -> spells cw (s ++ [47]) p.
Proof. intros Hs [Hd ->]. unfold spells. rewrite elems_end, join_first by done. done. Qed.

(** The parent and the last element. *)
Lemma resolve_parent_spells w s c p i sl :
  dir_part s -> good c -> spells (cwd w) s p -> (length (s ++ c) < MAXPATH)%nat -> get (root w) p = Some (NDir i sl) ->
  resolve_parent w (s ++ c) = Some (p, c).
Proof.
  intros Hs Hc Hsp Hl Hg. unfold resolve_parent. rewrite (proj2 (Nat.ltb_lt _ _) Hl), elems_join, last_snoc, removelast_last by done.
  destruct (spells_join _ _ _ _ Hs Hc Hsp) as [_ Hj]. rewrite elems_join in Hj by done. rewrite (assoc_L (++)) in Hj.
  apply app_inj_tail in Hj as [-> _]. destruct Hsp as [Hd Hp]. unfold start_dir.
  rewrite (steps_plain _ _ _ (NDir i sl)) by done. cbn [mbind option_bind]. by rewrite Hg.
Qed.

Lemma entry_good w p c i sl : good c -> get (root w) p = Some (NDir i sl) ->
  entry w p c = (fun n => (p ++ [c], n)) <$> find_slot c sl.
Proof.
  intros (_ & _ & _ & H1 & H2) Hg. unfold entry, step. rewrite Hg, !decide_False by done.
  destruct (find_slot c sl) as [n|] eqn:E; [|done]. cbn [mbind option_bind]. rewrite get_app, Hg. cbn [mbind option_bind get]. by rewrite E.
Qed.
