(* ===== verification/Utils.v ===== *)
(** * Moving, copying, listing and finding files: user/utils.c, mv.c, cp.c,
    ls.c and find.c

    The programs of these files over the system calls of Usys.v.  A path in a
    buffer is the list of its bytes.  [malloc] is taken to succeed; a buffer
    that [joinpath] does not fill, because the path is too long, is undefined
    to read, and so is an array of a directory entry's name without a NUL. *)
From S2P Require Import Prelude Cstring Ulib Printf Uprintf Usys Cmds.

(** ** user/utils.c *)

Definition MAX_PATH_LEN : Z := 700.
Definition verbose : bool := true.

(** [while (in[0] == '.' && in[1] == '/') in += 2] *)
Fixpoint strip_dots (p : str) : str :=
  match p with
  | c :: ((d :: p') as rest) => if (c =? 46) && (d =? 47) then strip_dots p' else p
  | _ => p
  end.

(** [while (i > 1 && out[i-1] == '/') i--] *)
Fixpoint strip_slashes (i : nat) (out : str) : nat :=
  match i with
  | O => 0
  | S j => if (1 <? i)%nat && (at_ out j =? 47) then strip_slashes j out else i
  end.

Definition normalize_path (p : str) : str :=
  let out := take (Z.to_nat MAX_PATH_LEN - 1) (strip_dots p) in
  match out with
  | [] => [46]
  | _ => take (strip_slashes (length out) out) out
  end.

(** [joinpath] of user/ulib.c into a fresh buffer of [bufsize] bytes:
    [None] when the result does not fit.  With an empty [dir] it reads the
    byte before the string. *)
Definition joined (dir filename : str) (bufsize : Z) : option str :=
  let dn := Ulib.strlen dir in
  let nn := Ulib.strlen filename in
  if bufsize <? dn + 1 + nn + 1 then None
  else Some (dir ++ (if negb (at_ dir (Z.to_nat (dn - 1)) =? 47) then [47] else []) ++ filename).

Section Utils.
Context {W : Type} {SY : Sys W}.

Definition join (dir filename : str) : prog W str :=
  match dir, joined dir filename MAX_PATH_LEN with
  | _ :: _, Some p => mret p
  | _, _ => undef
  end.

(** The fields of a [struct dirent] in the 16 bytes [de]. *)
Definition de_inum (de : list Z) : Z := at_ de 0 + 256 * at_ de 1.
Definition de_name (de : list Z) : list Z := drop 2 de.

(** The name as a string; without a NUL the array is overrun. *)
Definition name_string (name : list Z) : prog W str :=
  if decide (0 ∈ name) then mret (cstr name) else undef.

Definition moveFile (src dst : str) (shouldDelete : bool) : prog W Z :=
  let filename := Ulib.getFilename src in
  new_dst ← join dst filename;
  r ← link src new_dst;
  if r <? 0 then
    _ ← fprintf 2 (lit "mv: link src %s to dst %s failed\n") [Str (Some src); Str (Some new_dst)];
    mret (-1)
  else
    _ ← (if verbose then printf (lit "done linking %s to %s\n") [Str (Some src); Str (Some new_dst)] else mret tt);
    if shouldDelete then
      r ← unlink src;
      if r <? 0 then
        _ ← fprintf 2 (lit "mv: unlink %s failed\n") [Str (Some src)];
        r ← unlink new_dst;
        _ ← (if r <? 0 then fprintf 2 (lit "mv: rollback failed for %s\n") [Str (Some new_dst)] else mret tt);
        mret (-1)
      else mret 0
    else mret 0.

(** The test of [move] that the destination is not inside the source. *)
Definition inside (norm_src norm_dst : str) : bool :=
  let src_len := Ulib.strlen norm_src in
  (Ulib.strcmp norm_dst norm_src =? 0) ||
  ((src_len <? Ulib.strlen norm_dst) && (Ulib.strncmp norm_dst norm_src src_len =? 0) &&
   (at_ norm_dst (Z.to_nat src_len) =? 47)).

(** [move] and [moveDir], with the loop of [moveDir] over the entries; the
    recursion is bounded by fuel. *)
Fixpoint move (fuel : nat) (src dst : str) (shouldDelete : bool) : prog W Z :=
  match fuel with
  | O => loops
  | S f =>
      let norm_src := normalize_path src in
      let norm_dst := normalize_path dst in
      d ← isdir dst;
      if negb d then _ ← printf (lit "mv: dst must be a directory") []; mret (-1)
      else if inside norm_src norm_dst then _ ← fprintf 2 (lit "mv: destination is inside source\n") []; mret (-1)
      else
        d ← isdir src;
        if (d : bool) then moveDir f src dst shouldDelete else moveFile src dst shouldDelete
  end
with moveDir (fuel : nat) (src dst : str) (shouldDelete : bool) : prog W Z :=
  match fuel with
  | O => loops
  | S f =>
      let filename := Ulib.getFilename src in
      new_dst ← join dst filename;
      r ← mkdir new_dst;
      if r <? 0 then _ ← fprintf 2 (lit "mv: mkdir failed\n") []; mret (-1)
      else
        _ ← (if verbose then printf (lit "1 made directory at %s\n") [Str (Some new_dst)] else mret tt);
        fd ← open src O_RDONLY;
        if fd <? 0 then
          _ ← fprintf 2 (lit "mv: open source directory failed\n") [];
          _ ← unlink new_dst;
          mret (-1)
        else
          _ ← (if verbose then printf (lit "2, opened %s to read content\n") [Str (Some src)] else mret tt);
          done ← move_entries f fd src new_dst shouldDelete;
          if negb done then mret (-1)
          else
            _ ← close fd;
            r ← (if shouldDelete then unlink src else mret 0);
            if shouldDelete && (r <? 0) then
              _ ← fprintf 2 (lit "mv: unlink source directory failed\n") [];
              mret (-1)
            else
              _ ← (if verbose then printf (lit "5. this Subcall done succesfully\n") [] else mret tt);
              mret 0
  end
with move_entries (fuel : nat) (fd : Z) (src new_dst : str) (shouldDelete : bool) : prog W bool :=
  match fuel with
  | O => loops
  | S f =>
      n ← read fd 16;
      match n with
      | Some de =>
          if negb (length de =? 16)%nat then mret true
          else if de_inum de =? 0 then move_entries f fd src new_dst shouldDelete
          else
            name ← name_string (de_name de);
            if (Ulib.strcmp name (lit ".") =? 0) || (Ulib.strcmp name (lit "..") =? 0) then move_entries f fd src new_dst shouldDelete
            else
              item_src ← join src name;
              _ ← (if verbose then printf (lit "3. item src: %s, item dst: %s, shouldDelete: %d\n")
                     [Str (Some item_src); Str (Some new_dst); Word (b2z shouldDelete)] else mret tt);
              r ← move f item_src new_dst shouldDelete;
              if r <? 0 then
                _ ← close fd;
                _ ← unlink new_dst;
                _ ← (if verbose then printf (lit "Welp that call failed\n") [] else mret tt);
                mret false
              else move_entries f fd src new_dst shouldDelete
      | None => mret true
      end
  end.

(** ** user/cp.c and user/mv.c *)

Definition cp_main (fuel : nat) (argv : list str) : prog W Z :=
  if asks_usage argv then _ ← printf (lit "Usage: cp <src> <dst>\n") []; mret 0
  else
    match argv with
    | [_; src; dst] => r ← move fuel src dst false; exit r
    | _ => _ ← fprintf 2 (lit "cp: Incorrect usage, cp src dst\n") []; exit 1
    end.

Definition mv_main (fuel : nat) (argv : list str) : prog W Z :=
  if asks_usage argv then _ ← printf (lit "Usage: mv <src> <dst>\n") []; mret 0
  else
    match argv with
    | [_; src; dst] => r ← move fuel src dst true; exit r
    | _ => _ ← fprintf 2 (lit "mv: Incorrect usage, mv src dst\n") []; exit 1
    end.

(** ** user/ls.c *)

(** The characters after the last slash. *)
Fixpoint after_slash (k : nat) (path : str) : str :=
  match k with
  | O => if at_ path 0 =? 47 then drop 1 path else path
  | S j => if at_ path k =? 47 then drop (S k) path else after_slash j path
  end.

Definition fmtname (path : str) : str :=
  let p := after_slash (length path) path in
  if (14 <=? length p)%nat then p else p ++ replicate (14 - length p) 32.

Definition print_stat (path : str) (st : stat) : prog W unit :=
  printf (lit "%s %d %d %d\n") [Str (Some (fmtname path)); Word (st_type st); Word (st_ino st); Word (s32 (st_size st))].

(** [p[DIRSIZ] = 0] ends the name that is copied behind the path. *)
Definition item (path : str) (de : list Z) : str := path ++ [47] ++ cstr (de_name de).

Fixpoint ls_entries (fuel : nat) (fd : Z) (path : str) : prog W unit :=
  match fuel with
  | O => loops
  | S f =>
      n ← read fd 16;
      match n with
      | Some de =>
          if negb (length de =? 16)%nat then mret tt
          else if de_inum de =? 0 then ls_entries f fd path
          else
            let buf := item path de in
            st ← ustat buf;
            match st with
            | None => _ ← printf (lit "ls: cannot stat %s\n") [Str (Some buf)]; ls_entries f fd path
            | Some st => _ ← print_stat buf st; ls_entries f fd path
            end
      | None => mret tt
      end
  end.

Definition ls (fuel : nat) (path : str) : prog W unit :=
  fd ← open path O_RDONLY;
  if fd <? 0 then fprintf 2 (lit "ls: cannot open %s\n") [Str (Some path)]
  else
    st ← fstat fd;
    match st with
    | None => _ ← fprintf 2 (lit "ls: cannot stat %s\n") [Str (Some path)]; _ ← close fd; mret tt
    | Some st =>
        _ ← (if (st_type st =? T_DEVICE) || (st_type st =? T_FILE) then print_stat path st
             else if st_type st =? T_DIR then
               if (512 <? length path + 1 + 14 + 1)%nat then printf (lit "ls: path too long\n") []
               else ls_entries fuel fd path
             else mret tt);
        _ ← close fd;
        mret tt
    end.

Fixpoint ls_args (fuel : nat) (args : list str) : prog W unit :=
  match args with
  | [] => exit 0
  | a :: args => _ ← ls fuel a; ls_args fuel args
  end.

Definition ls_main (fuel : nat) (argv : list str) : prog W unit :=
  if (length argv <? 2)%nat then _ ← ls fuel (lit "."); exit 0 else ls_args fuel (drop 1 argv).

(** ** user/find.c *)

(** [s = path + strlen(path) - 1; while (s >= path && *s != '/') s--; s++] *)
Definition last_name (path : str) : str :=
  match length path with O => path | S k => after_slash k path end.

Fixpoint find_helper (fuel : nat) (path name : str) : prog W unit :=
  match fuel with
  | O => loops
  | S f =>
      fd ← open path O_RDONLY;
      if fd <? 0 then mret tt
      else
        st ← fstat fd;
        match st with
        | None => _ ← close fd; mret tt
        | Some st =>
            if st_type st =? T_FILE then
              _ ← (if Ulib.strcmp (last_name path) name =? 0 then printf (lit "%s\n") [Str (Some path)] else mret tt);
              _ ← close fd; mret tt
            else if st_type st =? T_DIR then
              if (512 <? length path + 1 + 14 + 1)%nat then _ ← close fd; mret tt
              else _ ← find_entries f fd path name; _ ← close fd; mret tt
            else _ ← close fd; mret tt
        end
  end
with find_entries (fuel : nat) (fd : Z) (path name : str) : prog W unit :=
  match fuel with
  | O => loops
  | S f =>
      n ← read fd 16;
      match n with
      | Some de =>
          if negb (length de =? 16)%nat then mret tt
          else if de_inum de =? 0 then find_entries f fd path name
          else
            let p := cstr (de_name de) in
            let buf := item path de in
            if (Ulib.strcmp p (lit ".") =? 0) || (Ulib.strcmp p (lit "..") =? 0) then find_entries f fd path name
            else
              st ← ustat buf;
              match st with
              | None => find_entries f fd path name
              | Some st =>
                  _ ← (if st_type st =? T_FILE then
                         if Ulib.strcmp (last_name buf) name =? 0 then printf (lit "%s\n") [Str (Some buf)] else mret tt
                       else if st_type st =? T_DIR then find_helper f buf name
                       else mret tt);
                  find_entries f fd path name
              end
      | None => mret tt
      end
  end.

Definition find_main (fuel : nat) (argv : list str) : prog W unit :=
  match argv with
  | _ :: name :: path :: _ => _ ← find_helper fuel path name; exit 0
  | _ => _ ← printf (lit "usage: find filename path\n") []; exit 1
  end.

End Utils.
