(* ===== verification/UtilsTheory.v ===== *)
(** * Moving and copying trees

    [move] of user/utils.c over the reference system of Reffs.v: the steps of
    the program, and the tree after each. *)
From S2P Require Import Prelude Cstring Ulib UlibFlags Printf Uprintf PrintfTheory Grep Usys Cmds CmdsTheory Reffs.
From S2P Require Import Utils.

(** ** Worlds up to what is on the console *)

Definition mute (o : option desc) : option desc := match o with Some (DCons _) => Some (DCons []) | o => o end.

(** The same files' bytes, directory and descriptors. *)
Record calm (w w' : world) : Prop := {
  ca_cwd : cwd w' = cwd w;
  ca_data : data w' = data w;
  ca_stdin : stdin w' = stdin w;
  ca_fds : map mute (fds w') = map mute (fds w)
}.

Lemma calm_refl w : calm w w.
Proof. by split. Qed.

Lemma calm_trans w w' w'' : calm w w' -> calm w' w'' -> calm w w''.
Proof. intros [] []. split; congruence. Qed.

(** Both the output and the error descriptor are the console. *)
Definition talks (w : world) : Prop := ref_writable 1 w /\ ref_writable 2 w.

Lemma mute_lookup (f f' : list (option desc)) k : map mute f' = map mute f -> mute <$> f' !! k = mute <$> f !! k.
Proof. intros H. change (map mute) with (fmap mute : list _ -> list _) in H. rewrite <- !list_lookup_fmap. by rewrite H. Qed.

Lemma calm_writable w w' fd : calm w w' -> ref_writable fd w -> ref_writable fd w'.
Proof.
  intros [_ _ _ Hf] [out H]. apply (mute_lookup _ _ (Z.to_nat fd)) in Hf. unfold ref_writable, fd_of in *.
  destruct (fd <? 0); [done|]. destruct (fds w !! Z.to_nat fd) as [[d|]|]; [|done..]. injection H as ->.
  destruct (fds w' !! Z.to_nat fd) as [[[]|]|]; try done. by eexists.
Qed.

Lemma calm_talks w w' : calm w w' -> talks w -> talks w'.
Proof. intros Hc [H1 H2]. split; by eapply calm_writable. Qed.

Lemma calm_free w w' : calm w w' -> free_fds (fds w') = free_fds (fds w).
Proof.
  intros [_ _ _ Hf]. revert Hf. generalize (fds w') as f', (fds w) as f.
  induction f' as [|o f' IH]; intros [|o' f] H; try done. cbn [map] in H. injection H as Ho H. cbn [free_fds]. rewrite (IH f H).
  by destruct o as [[]|], o' as [[]|].
Qed.

(** A descriptor that is not the console. *)
Lemma calm_fd w w' fd d : calm w w' -> fd_of fd w = Some d -> (forall out, d <> DCons out) -> fd_of fd w' = Some d.
Proof.
  intros [_ _ _ Hf] H Hd. apply (mute_lookup _ _ (Z.to_nat fd)) in Hf. unfold fd_of in *.
  destruct (fd <? 0); [done|]. destruct (fds w !! Z.to_nat fd) as [[d0|]|]; [|done..]. injection H as ->.
  destruct (fds w' !! Z.to_nat fd) as [[[]|]|]; try done; destruct d; try done; try (by destruct (Hd written)); cbn in Hf; congruence.
Qed.

(** Printing changes nothing else. *)
Record said (w w' : world) : Prop := {
  sa_calm : calm w w';
  sa_root : root w' = root w;
  sa_next : next_ino w' = next_ino w
}.

Lemma said_refl w : said w w.
Proof. split; [apply calm_refl|done..]. Qed.

Lemma said_trans w w' w'' : said w w' -> said w' w'' -> said w w''.
Proof. intros [A1 A2 A3] [B1 B2 B3]. split; [by eapply calm_trans|congruence..]. Qed.

Lemma mute_insert (f : list (option desc)) k o o' : f !! k = Some o' -> mute o = mute o' -> map mute (<[k := o]> f) = map mute f.
Proof.
  intros H E. change (map mute) with (fmap mute : list _ -> list _). rewrite list_fmap_insert, E. apply list_insert_id.
  by rewrite list_lookup_fmap, H.
Qed.

Lemma write_said fd bs w : ref_writable fd w -> exists r w', sys_write fd bs w = (r, w') /\ said w w'.
Proof.
  intros Hw. destruct (ref_write_law fd bs w Hw) as (d & E & _ & ->). destruct Hw as [out Ef]. eexists _, _. split; [exact E|].
  split; [|done..]. split; [done..|]. cbn [fds set_fd set_fds]. by eapply mute_insert; [by apply fds_lookup|].
Qed.

Lemma puts_said fd out : forall w, ref_writable fd w -> exists w', puts fd out w = Ret tt w' /\ said w w'.
Proof.
  induction out as [|c out IH]; intros w Hw; cbn [puts]; [exists w; split; [done|apply said_refl]|].
  destruct (write_said fd [c] w Hw) as (r & w1 & E & H1). destruct (IH w1) as (w2 & E2 & H2); [by eapply calm_writable; [apply H1|]|].
  exists w2. split; [|by eapply said_trans]. rewrite (bind_ret _ _ w tt w1); [done|]. unfold putc, write. by rewrite (bind_sys _ _ w _ w1 E).
Qed.

Lemma fprintf_said fd fmt ap w : is_Some (render fmt ap) -> ref_writable fd w -> exists w', fprintf fd fmt ap w = Ret tt w' /\ said w w'.
Proof. intros [t E] Hw. unfold fprintf. rewrite (vprintf_render _ _ _ E). by apply puts_said. Qed.

(** ** System calls *)

Lemma set_fds_id w : set_fds (fds w) w = w.
Proof. by destruct w. Qed.

Definition is_dir (n : node) : bool := match n with NDir _ _ => true | _ => false end.

(** Opening a place for reading. *)
Definition desc_of (p : list str) (n : node) : desc :=
  match n with NDir i _ => DDir p i 0 | NFile i => DFile i 0 true false | NDev _ => DCons [] end.

Lemma open_run w s p n : resolve w s = Some p -> get (root w) p = Some n -> (0 < free_fds (fds w))%nat ->
  exists fd, sys_open s O_RDONLY w = (fd, set_fd fd (Some (desc_of p n)) w) /\ 0 <= fd /\ fd_of fd w = None /\
    fds w !! Z.to_nat fd = Some None /\ fd_of fd (set_fd fd (Some (desc_of p n)) w) = Some (desc_of p n) /\
    S (free_fds (fds (set_fd fd (Some (desc_of p n)) w))) = free_fds (fds w).
Proof.
  intros Hr Hg Hf. destruct (install_new (desc_of p n) w Hf) as (fd & Ei & H0 & H1 & H2 & H3). exists fd.
  split_and!; auto.
  - cbn [sys_open ref_sys]. unfold ref_open. change (has_flag O_RDONLY O_CREATE) with false. cbn iota. rewrite Hr. cbn [mbind option_bind].
    rewrite Hg. destruct n; exact Ei.
  - destruct (lowest_free _ Hf) as [k Hk]. unfold install in Ei. rewrite Hk in Ei. injection Ei as Efd _. rewrite <- Efd, Nat2Z.id.
    by destruct (lowest_some _ k (desc_of p n) Hk).
Qed.

(** Closing it again. *)
Lemma close_set w fd d : 0 <= fd -> fds w !! Z.to_nat fd = Some None -> sys_close fd (set_fd fd (Some d) w) = (0, w).
Proof.
  intros H0 Hn. cbn [sys_close ref_sys]. unfold ref_close.
  assert (E : fd_of fd (set_fd fd (Some d) w) = Some d).
  { unfold fd_of, set_fd. rewrite (proj2 (Z.ltb_ge fd 0)) by lia. cbn [fds set_fds].
    by rewrite list_lookup_insert_eq by (by eapply lookup_lt_Some). }
  rewrite E. f_equal. unfold set_fd. cbn [fds set_fds]. rewrite list_insert_insert_eq, list_insert_id by done. by destruct w.
Qed.

Lemma fstat_type w p n fd : get (root w) p = Some n ->
  fd_of fd (set_fd fd (Some (desc_of p n)) w) = Some (desc_of p n) ->
  exists st, sys_fstat fd (set_fd fd (Some (desc_of p n)) w) = (Some st, set_fd fd (Some (desc_of p n)) w) /\
    (st_type st =? T_DIR) = is_dir n /\ (st_type st =? T_FILE) = match n with NFile _ => true | _ => false end.
Proof.
  intros Hg E. cbn [sys_fstat ref_sys]. unfold ref_fstat. rewrite E. destruct n as [i|i|i s]; cbn [desc_of]; eexists; split; try reflexivity; try done.
  cbn [root set_fd set_fds]. rewrite Hg. cbn [ino_of]. rewrite Z.eqb_refl. done.
Qed.

Lemma isdir_run w s p n : resolve w s = Some p -> get (root w) p = Some n -> (0 < free_fds (fds w))%nat ->
  isdir s w = Ret (is_dir n) w.
Proof.
  intros Hr Hg Hf. destruct (open_run w s p n Hr Hg Hf) as (fd & E & H0 & H1 & H2 & H3 & _).
  destruct (fstat_type w p n fd Hg H3) as (st & E2 & Ht & _).
  assert (Eu : ustat s w = Ret (Some st) w).
  { unfold ustat, open, fstat, close. rewrite (bind_sys _ _ w _ _ E), (proj2 (Z.ltb_ge fd 0)) by lia.
    rewrite (bind_sys _ _ _ _ _ E2), (bind_sys _ _ _ _ _ (close_set w fd _ H0 H2)). done. }
  unfold isdir. rewrite (bind_ret _ _ w _ w Eu), Ht. done.
Qed.

Lemma mkdir_run w s c p i sl :
  dir_part s -> good c -> spells (cwd w) s p -> (length (s ++ c) < MAXPATH)%nat -> get (root w) p = Some (NDir i sl) ->
  find_slot c sl = None ->
  sys_mkdir (s ++ c) w = (0, bump_ino (enter p c (NDir (next_ino w) []) w)).
Proof.
  intros Hs Hc Hsp Hl Hg Hn. cbn [sys_mkdir ref_sys]. unfold ref_mkdir.
  by rewrite (resolve_parent_spells w s c p i sl Hs Hc Hsp Hl Hg), (entry_good w p c i sl Hc Hg), Hn.
Qed.

Lemma link_step w old s c p i sl po n :
  resolve w old = Some po -> get (root w) po = Some n -> is_dir n = false ->
  dir_part s -> good c -> spells (cwd w) s p -> (length (s ++ c) < MAXPATH)%nat -> get (root w) p = Some (NDir i sl) ->
  find_slot c sl = None ->
  sys_link old (s ++ c) w = (0, enter p c n w).
Proof.
  intros Ho Hgo Hd Hs Hc Hsp Hl Hg Hn. cbn [sys_link ref_sys]. unfold ref_link. rewrite Ho. cbn [mbind option_bind]. rewrite Hgo.
  rewrite (resolve_parent_spells w s c p i sl Hs Hc Hsp Hl Hg), (entry_good w p c i sl Hc Hg), Hn. by destruct n.
Qed.

Lemma unlink_run w s c p i sl n :
  dir_part s -> good c -> spells (cwd w) s p -> (length (s ++ c) < MAXPATH)%nat -> get (root w) p = Some (NDir i sl) ->
  find_slot c sl = Some n -> removable n = true ->
  sys_unlink (s ++ c) w = (0, set_root (alter (in_dir (clear_slot c)) p (root w)) w).
Proof.
  intros Hs Hc Hsp Hl Hg Hn Hr. cbn [sys_unlink ref_sys]. unfold ref_unlink.
  rewrite (resolve_parent_spells w s c p i sl Hs Hc Hsp Hl Hg), (entry_good w p c i sl Hc Hg), Hn.
  destruct Hc as (_ & _ & _ & H1 & H2). rewrite !decide_False by done. cbn [fmap option_fmap option_map]. by rewrite Hr.
Qed.

(** ** Reading a directory *)

Lemma length_dirent ino c : length (dirent ino c) = 16%nat.
Proof.
  unfold dirent. cbn [length app]. rewrite length_take, length_app, length_replicate. unfold DIRSIZ. lia.
Qed.

Lemma length_slot_bytes o : length (slot_bytes o) = 16%nat.
Proof. destruct o as [[c n]|]; [apply length_dirent|done]. Qed.

Lemma slots_drop (s : list slot) k : drop (16 * k) (concat (map slot_bytes s)) = concat (map slot_bytes (drop k s)).
Proof.
  revert s. induction k as [|k IH]; intros s; [by rewrite !drop_0|]. destruct s as [|o s]; [by rewrite !drop_nil|].
  cbn [map concat drop]. replace (16 * S k)%nat with (length (slot_bytes o) + 16 * k)%nat by (rewrite length_slot_bytes; lia).
  rewrite drop_app_add. apply IH.
Qed.

(** The entries that programs see: [.], [..] and the slots. *)
Definition dir_entry (w : world) (p : list str) (i : Z) (sl : list slot) (k : nat) : list Z :=
  match k with
  | O => dirent i dot
  | S O => dirent (match get (root w) (removelast p) with Some n => ino_of n | None => 0 end) dotdot
  | S (S k) => match sl !! k with Some o => slot_bytes o | None => [] end
  end.

Lemma dir_bytes_entry w p i sl k : get (root w) p = Some (NDir i sl) ->
  take 16 (drop (16 * k) (dir_bytes w p i)) = dir_entry w p i sl k.
Proof.
  intros Hg. unfold dir_bytes. rewrite Hg, Z.eqb_refl. cbn zeta. set (up := match get _ _ with Some _ => _ | None => _ end).
  destruct k as [|[|k]]; cbn [dir_entry].
  - rewrite Nat.mul_0_r, drop_0. apply take_app_length'. by rewrite length_dirent.
  - rewrite drop_app_length' by (by rewrite length_dirent). apply take_app_length'. by rewrite length_dirent.
  - replace (16 * S (S k))%nat with (length (dirent i dot) + (length (dirent up dotdot) + 16 * k))%nat by (rewrite !length_dirent; lia).
    rewrite !drop_app_add, slots_drop. destruct (sl !! k) as [o|] eqn:E.
    + rewrite (drop_S sl o k E). cbn [map concat]. apply take_app_length'. by rewrite length_slot_bytes.
    + rewrite drop_ge by (by apply lookup_ge_None). done.
Qed.

(** The entry at which the descriptor stands. *)
Lemma dir_read w fd p i sl k : fd_of fd w = Some (DDir p i (16 * k)) -> get (root w) p = Some (NDir i sl) ->
  exists d, sys_read fd 16 w = (Some (dir_entry w p i sl k), set_fd fd (Some d) w) /\
    ((k < 2 + length sl)%nat -> d = DDir p i (16 * S k)).
Proof.
  intros Hf Hg. cbn [sys_read ref_sys]. unfold ref_read. rewrite Hf, (dir_bytes_entry w p i sl k Hg). eexists. split; [done|].
  intros Hk. f_equal. assert (length (dir_entry w p i sl k) = 16%nat); [|lia].
  destruct k as [|[|k]]; [apply length_dirent..|]. cbn [dir_entry]. destruct (lookup_lt_is_Some_2 sl k) as [o ->]; [lia|]. apply length_slot_bytes.
Qed.

(** ** The test for a destination inside the source *)

Lemma strlen_from_length s : forall n, no_nul s -> Ulib.strlen_from s n = n + Z.of_nat (length s).
Proof.
  induction s as [|c s IH]; intros n Hs; cbn [Ulib.strlen_from length]; [lia|]. apply Forall_cons in Hs as [Hc Hs].
  rewrite (proj2 (Z.eqb_neq c 0) Hc), IH by done. lia.
Qed.

Lemma strlen_nonul s : no_nul s -> Ulib.strlen s = Z.of_nat (length s).
Proof. intros Hs. unfold Ulib.strlen. by rewrite strlen_from_length. Qed.

Lemma strncmp_prefix q : forall p, no_nul q -> Ulib.strncmp_loop p q (length q) = 0 -> take (length q) p = q.
Proof.
  induction q as [|c q IH]; intros p Hq; [done|]. apply Forall_cons in Hq as [Hc Hq]. cbn [length Ulib.strncmp_loop].
  change (at_ (c :: q) 0) with c. cbn [tail]. destruct p as [|d p].
  - change (at_ [] 0) with 0. rewrite (proj2 (Z.eqb_neq 0 c)) by done. cbn [negb]. lia.
  - change (at_ (d :: p) 0) with d. destruct (Z.eqb_spec d c) as [->|Hn]; cbn [negb]; [|lia]. rewrite (proj2 (Z.eqb_neq c 0) Hc).
    intros H. cbn [take]. f_equal. by apply IH.
Qed.

Lemma strip_slashes_spec out : forall i, let j := strip_slashes i out in
  (j <= i)%nat /\ ((0 < i)%nat -> (0 < j)%nat) /\ forall k, (j <= k < i)%nat -> at_ out k = 47.
Proof.
  induction i as [|i IH]; cbn [strip_slashes]; [split_and!; lia|].
  destruct ((1 <? S i)%nat && (at_ out i =? 47)) eqn:E; [|split_and!; lia].
  apply andb_prop in E as [E1%Nat.ltb_lt E2%Z.eqb_eq]. destruct IH as (H1 & H2 & H3). split_and!; [lia|lia|].
  intros k Hk. destruct (decide (k = i)) as [->|]; [done|]. apply H3. lia.
Qed.

Lemma elems_slashes s z : Forall (fun x => x = 47) z -> elems [] (s ++ z) = elems [] s.
Proof.
  induction z as [|x z IH] using rev_ind; intros Hz; [by rewrite app_nil_r|]. apply Forall_app in Hz as [Hz Hx].
  apply Forall_singleton in Hx as ->. rewrite (assoc_L (++)), elems_end. by apply IH.
Qed.

Lemma strip_dots_id s : nodots (elems [] s) -> strip_dots s = s.
Proof.
  destruct s as [|c [|d s]]; [done..|]. cbn [strip_dots]. destruct ((c =? 46) && (d =? 47)) eqn:E; [|done].
  apply andb_prop in E as [->%Z.eqb_eq ->%Z.eqb_eq]. cbn [elems Z.eqb Pos.eqb app]. intros H. apply Forall_cons in H as [[H _] _]. done.
Qed.

Lemma normalize_spec s : s <> [] -> (length s < MAXPATH)%nat -> nodots (elems [] s) ->
  exists z, s = normalize_path s ++ z /\ normalize_path s <> [] /\ Forall (fun x => x = 47) z.
Proof.
  intros Hs Hl Hd. unfold normalize_path. rewrite strip_dots_id by done. unfold MAXPATH in Hl.
  rewrite take_ge by (unfold MAX_PATH_LEN; lia). destruct s as [|c s']; [done|]. set (s := c :: s') in *.
  destruct (strip_slashes_spec s (length s)) as (H1 & H2 & H3). set (j := strip_slashes (length s) s) in *.
  exists (drop j s). split_and!; [by rewrite take_drop| |].
  - intros H. apply (f_equal length) in H. rewrite length_take in H. cbn in *. lia.
  - apply Forall_lookup. intros k x Hx. rewrite lookup_drop in Hx. pose proof (lookup_lt_Some _ _ _ Hx).
    specialize (H3 (j + k)%nat). unfold at_ in H3. rewrite Hx in H3. apply H3. lia.
Qed.

(** When the test succeeds, the source is on the way to the destination. *)
Lemma inside_prefix cw src dst ps pd :
  src <> [] -> dst <> [] -> (length src < MAXPATH)%nat -> (length dst < MAXPATH)%nat -> no_nul src -> no_nul dst ->
  spells cw src ps -> spells cw dst pd -> inside (normalize_path src) (normalize_path dst) = true -> ps `prefix_of` pd.
Proof.
  intros Hs Hd Hls Hld Hns Hnd [Ds ->] [Dd ->] Hin.
  destruct (normalize_spec src Hs Hls Ds) as (zs & Es & Hs' & Hzs). destruct (normalize_spec dst Hd Hld Dd) as (zd & Ed & Hd' & Hzd).
  set (ns := normalize_path src) in *. set (nd := normalize_path dst) in *.
  assert (Els : elems [] src = elems [] ns) by (rewrite Es; by apply elems_slashes).
  assert (Eld : elems [] dst = elems [] nd) by (rewrite Ed; by apply elems_slashes).
  assert (E0s : at_ src 0 = at_ ns 0) by (rewrite Es; by apply join_first).
  assert (E0d : at_ dst 0 = at_ nd 0) by (rewrite Ed; by apply join_first).
  assert (Nns : no_nul ns) by (rewrite Es in Hns; by apply Forall_app in Hns as [? _]).
  assert (Nnd : no_nul nd) by (rewrite Ed in Hnd; by apply Forall_app in Hnd as [? _]).
  assert (Hpre : nd = ns \/ exists r, nd = ns ++ 47 :: r).
  { unfold inside in Hin. apply orb_prop in Hin as [H|H].
    - left. apply Z.eqb_eq, strcmp_eq in H; done.
    - right. apply andb_prop in H as [H H3]. apply andb_prop in H as [H1 H2]. rewrite !strlen_nonul in * by done.
      rewrite Nat2Z.id in H3. bool_to_prop. unfold Ulib.strncmp in H2.
      destruct (Z.leb_spec (Z.of_nat (length ns)) 0) as [Hz|Hz]; [destruct ns; [done|cbn in Hz; lia]|].
      rewrite Nat2Z.id in H2. apply strncmp_prefix in H2; [|done]. exists (drop (S (length ns)) nd).
      rewrite <- H2 at 1. rewrite <- (take_drop (length ns) nd) at 1. f_equal.
      destruct (lookup_lt_is_Some_2 nd (length ns)) as [x Hx]; [lia|]. rewrite (drop_S nd x _ Hx). f_equal.
      unfold at_ in H3. rewrite Hx in H3. exact H3. }
  rewrite Els, Eld, E0s, E0d. destruct Hpre as [->|[r ->]]; [done|]. rewrite join_first, elems_at_slash, elems_end, (assoc_L (++)) by done.
  by eexists.
Qed.

(** * joinpath of user/ulib.c in memory

    [strcpy], [strcat] and [joinpath] write into a buffer what the functions
    on lists of Utils.v compute. *)

(** The string [s] is in memory at [a]. *)
Definition chars (s : list Z) : Prop := Forall (fun c => 0 < c < 256) s.
Definition bytes_in (m : mem) (a : Z) (s : list Z) : Prop := forall k, (k < length s)%nat -> ld8 m (a + Z.of_nat k) = at_ s k.
Definition string_in (m : mem) (a : Z) (s : list Z) : Prop := chars s /\ bytes_in m a s /\ ld8 m (a + Z.of_nat (length s)) = 0.

Lemma string_cons m a c s : string_in m a (c :: s) <-> ld8 m a = c /\ 0 < c < 256 /\ string_in m (a + 1) s.
Proof.
  unfold string_in, bytes_in, chars. rewrite Forall_cons. cbn [length].
  replace (a + Z.of_nat (S (length s))) with (a + 1 + Z.of_nat (length s)) by lia. split.
  - intros ([Hc Hn] & Hk & H0). split; [|split; [done|split; [done|split; [|done]]]].
    + specialize (Hk 0%nat). rewrite Z.add_0_r in Hk. apply Hk. lia.
    + intros k H. replace (a + 1 + Z.of_nat k) with (a + Z.of_nat (S k)) by lia. apply (Hk (S k)). lia.
  - intros (Hc & Hr & Hn & Hk & H0). split; [done|]. split; [|done]. intros [|k] H; [by rewrite Z.add_0_r|].
    replace (a + Z.of_nat (S k)) with (a + 1 + Z.of_nat k) by lia. apply Hk. lia.
Qed.

Lemma string_same m m' a s : (forall x, a <= x <= a + Z.of_nat (length s) -> ld8 m' x = ld8 m x) -> string_in m a s -> string_in m' a s.
Proof.
  intros H (Hn & Hk & H0). split_and!; [done| |rewrite H by lia; done]. intros k Hl. rewrite H by lia. by apply Hk.
Qed.

(** [n + 1] bytes at [a] and [n' + 1] bytes at [b] do not overlap. *)
Definition disjoint_at (a : Z) (n : nat) (b : Z) (n' : nat) : Prop := a + Z.of_nat n < b \/ b + Z.of_nat n' < a.

Lemma strcpy_run s : forall fuel m o a, string_in m a s -> disjoint_at o (length s) a (length s) -> (length s < fuel)%nat ->
  exists m', Ulib.strcpy fuel m o a = Ok m' /\ string_in m' o s /\
    (forall x, ~ (o <= x <= o + Z.of_nat (length s)) -> ld8 m' x = ld8 m x).
Proof.
  induction s as [|c s IH]; intros fuel m o a Hs Hd Hf; (destruct fuel as [|f]; [lia|]); cbn [Ulib.strcpy].
  - destruct Hs as (_ & _ & H0). cbn [length] in *. rewrite Z.add_0_r in H0. rewrite H0, ld8_st8_eq. cbn. eexists. split; [done|].
    split; [|intros x Hx; apply ld8_st8_ne; lia]. split_and!; [constructor|intros k Hk; cbn in Hk; lia|]. cbn. by rewrite Z.add_0_r, ld8_st8_eq.
  - apply string_cons in Hs as (Ha & Hc & Hs). rewrite Ha, ld8_st8_eq, u8_id, (proj2 (Z.eqb_neq c 0)) by lia.
    unfold disjoint_at in *. cbn [length] in *.
    assert (Hs' : string_in (st8 m o c) (a + 1) s) by (eapply string_same; [|exact Hs]; intros x Hx; apply ld8_st8_ne; lia).
    destruct (IH f (st8 m o c) (o + 1) (a + 1) Hs') as (m' & E & Hm & Hx); [lia|lia|]. exists m'. split; [done|]. split.
    + apply string_cons. split; [|by split]. rewrite Hx by lia. rewrite ld8_st8_eq. apply u8_id. lia.
    + intros x H. rewrite Hx by lia. apply ld8_st8_ne. lia.
Qed.

Lemma str_end_run s : forall fuel m a, string_in m a s -> (length s < fuel)%nat -> Ulib.str_end fuel m a = Ok (a + Z.of_nat (length s)).
Proof.
  induction s as [|c s IH]; intros fuel m a Hs Hf; (destruct fuel as [|f]; [lia|]); cbn [Ulib.str_end length].
  - destruct Hs as (_ & _ & H0). cbn in H0. rewrite Z.add_0_r in *. by rewrite H0.
  - apply string_cons in Hs as (Ha & Hc & Hs). cbn [length] in Hf. rewrite Ha, (proj2 (Z.eqb_neq c 0)) by lia. rewrite (IH f) by (done || lia). f_equal. lia.
Qed.

Lemma strcat_loop_run s : forall fuel m p a, string_in m a s -> disjoint_at p (length s) a (length s) -> (length s < fuel)%nat ->
  exists m', Ulib.strcat_loop fuel m p a = Ok m' /\ string_in m' p s /\
    (forall x, ~ (p <= x <= p + Z.of_nat (length s)) -> ld8 m' x = ld8 m x).
Proof.
  induction s as [|c s IH]; intros fuel m p a Hs Hd Hf; (destruct fuel as [|f]; [lia|]); cbn [Ulib.strcat_loop].
  - destruct Hs as (_ & _ & H0). cbn [length] in *. rewrite Z.add_0_r in H0. rewrite H0. cbn. eexists. split; [done|].
    split; [|intros x Hx; apply ld8_st8_ne; lia]. split_and!; [constructor|intros k Hk; cbn in Hk; lia|]. cbn. by rewrite Z.add_0_r, ld8_st8_eq.
  - apply string_cons in Hs as (Ha & Hc & Hs). rewrite Ha, (proj2 (Z.eqb_neq c 0)) by lia. unfold disjoint_at in *. cbn [length] in *.
    assert (Hs' : string_in (st8 m p c) (a + 1) s) by (eapply string_same; [|exact Hs]; intros x Hx; apply ld8_st8_ne; lia).
    destruct (IH f (st8 m p c) (p + 1) (a + 1) Hs') as (m' & E & Hm & Hx); [lia|lia|]. exists m'. split; [done|]. split.
    + apply string_cons. split; [|by split]. rewrite Hx by lia. rewrite ld8_st8_eq. apply u8_id. lia.
    + intros x H. rewrite Hx by lia. apply ld8_st8_ne. lia.
Qed.

Lemma string_app m a s t : string_in m a (s ++ t) <-> chars s /\ bytes_in m a s /\ string_in m (a + Z.of_nat (length s)) t.
Proof.
  revert a. induction s as [|c s IH]; intros a.
  - cbn [app length]. rewrite Z.add_0_r. split; [|tauto]. intros H. split_and!; [constructor|intros k Hk; cbn in Hk; lia|done].
  - cbn [app]. rewrite string_cons, IH. unfold chars. rewrite Forall_cons. unfold bytes_in. cbn [length].
    replace (a + 1 + Z.of_nat (length s)) with (a + Z.of_nat (S (length s))) by lia. split.
    + intros (Ha & Hc & Hs & Hb & Ht). split; [done|]. split; [|done]. intros [|k] Hk; [by rewrite Z.add_0_r|].
      replace (a + Z.of_nat (S k)) with (a + 1 + Z.of_nat k) by lia. apply Hb. lia.
    + intros ([Hc Hs] & Hb & Ht). split; [|split; [done|split; [done|split; [|done]]]].
      * specialize (Hb 0%nat). rewrite Z.add_0_r in Hb. apply Hb. lia.
      * intros k Hk. replace (a + 1 + Z.of_nat k) with (a + Z.of_nat (S k)) by lia. apply (Hb (S k)). lia.
Qed.

Lemma strlen_in m a s fuel : string_in m a s -> (length s <= fuel)%nat -> Cstring.strlen fuel m a = Ok (Z.of_nat (length s)).
Proof.
  intros (Hn & Hk & H0) Hf. unfold Cstring.strlen. rewrite (strlen_loop_spec m a (length s) 0); [done| |by rewrite Z.add_0_r|done].
  intros i Hi. rewrite Z.add_0_r. replace i with (Z.of_nat (Z.to_nat i)) by lia. rewrite Hk by lia.
  destruct (lookup_lt_is_Some_2 s (Z.to_nat i)) as [c Hc]; [lia|]. unfold at_. rewrite Hc.
  assert (0 < c < 256) by (exact (proj1 (Forall_lookup _ _) Hn _ _ Hc)). cbn. lia.
Qed.

Lemma strcat_run s t fuel m o a : string_in m o s -> string_in m a t -> disjoint_at o (length s + length t) a (length t) ->
  (length s + length t < fuel)%nat ->
  exists m', Ulib.strcat fuel m o a = Ok m' /\ string_in m' o (s ++ t) /\
    (forall x, ~ (o <= x <= o + Z.of_nat (length s + length t)) -> ld8 m' x = ld8 m x).
Proof.
  intros Hs Ht Hd Hf. unfold Ulib.strcat. rewrite (str_end_run s) by (done || lia). cbn [mbind outcome_bind].
  destruct (strcat_loop_run t fuel m (o + Z.of_nat (length s)) a Ht) as (m' & E & Hm & Hx); [unfold disjoint_at in *; lia|lia|].
  exists m'. split; [done|]. split; [|intros x H; apply Hx; lia]. apply string_app. destruct Hs as (Hc & Hb & _). split; [done|].
  split; [|done]. intros k Hk. rewrite Hx by lia. by apply Hb.
Qed.

Lemma strlen_chars s : chars s -> Ulib.strlen s = Z.of_nat (length s).
Proof.
  intros Hs. unfold Ulib.strlen. assert (E : forall n, Ulib.strlen_from s n = n + Z.of_nat (length s)); [|by rewrite E].
  induction Hs as [|c s Hc _ IH]; intros n; cbn [Ulib.strlen_from length]; [lia|]. rewrite (proj2 (Z.eqb_neq c 0)) by lia. rewrite IH. lia.
Qed.

Lemma add_slash m out d : string_in m out d ->
  let m' := st8 (st8 m (out + Z.of_nat (length d)) 47) (out + (Z.of_nat (length d) + 1)) 0 in
  string_in m' out (d ++ [47]) /\
  (forall x, x <> out + Z.of_nat (length d) -> x <> out + (Z.of_nat (length d) + 1) -> ld8 m' x = ld8 m x).
Proof.
  intros (Hc & Hb & _) m'.
  assert (X : forall x, x <> out + Z.of_nat (length d) -> x <> out + (Z.of_nat (length d) + 1) -> ld8 m' x = ld8 m x)
    by (intros x ? ?; unfold m'; by rewrite !ld8_st8_ne by done).
  split; [|done]. apply string_app. split; [done|]. split; [intros k Hk; rewrite X by lia; by apply Hb|].
  apply string_cons. unfold m'. rewrite ld8_st8_ne, ld8_st8_eq by lia. split; [done|]. split; [lia|].
  split_and!; [constructor|intros k Hk; cbn in Hk; lia|]. cbn [length]. rewrite Z.add_0_r.
  replace (out + Z.of_nat (length d) + 1) with (out + (Z.of_nat (length d) + 1)) by lia. by rewrite ld8_st8_eq.
Qed.

(** [joinpath] of a directory and a name into a buffer apart from both: the
    buffer then holds [joined]; when that does not fit, memory is as before. *)
Lemma joinpath_joined fuel m dir file out bufsize d f :
  string_in m dir d -> string_in m file f -> d <> [] -> (length d + length f + 2 <= fuel)%nat ->
  disjoint_at out (length d + length f + 1) dir (length d) -> disjoint_at out (length d + length f + 1) file (length f) ->
  match joined d f bufsize with
  | None => Ulib.joinpath fuel m dir file out bufsize = Ok (false, m)
  | Some p => exists m', Ulib.joinpath fuel m dir file out bufsize = Ok (true, m') /\ string_in m' out p /\
      (forall x, ~ (out <= x <= out + Z.of_nat (length d + length f + 1)) -> ld8 m' x = ld8 m x)
  end.
Proof.
  intros Hd Hf Hne Hfuel Ddir Dfile.
  unfold Ulib.joinpath, joined. rewrite (strlen_in m dir d), (strlen_in m file f) by (done || lia). cbn [mbind outcome_bind].
  rewrite (strlen_chars d), (strlen_chars f) by (apply Hd || apply Hf). destruct (bufsize <? _); [done|].
  unfold disjoint_at in *. destruct (strcpy_run d fuel m out dir Hd) as (m1 & E1 & H1 & X1); [unfold disjoint_at; lia|lia|].
  rewrite E1. cbn [mbind outcome_bind].
  assert (Hf1 : string_in m1 file f) by (eapply string_same; [|exact Hf]; intros x Hx; apply X1; lia).
  assert (Hlast : ld8 m1 (dir + (Z.of_nat (length d) - 1)) = at_ d (Z.to_nat (Z.of_nat (length d) - 1))).
  { destruct d as [|c d']; [done|]. set (l := c :: d') in *. rewrite X1 by (cbn in *; lia). destruct Hd as (_ & Hb & _).
    replace (dir + (Z.of_nat (length l) - 1)) with (dir + Z.of_nat (Z.to_nat (Z.of_nat (length l) - 1))) by (cbn; lia). apply Hb. cbn. lia. }
  rewrite Hlast. destruct (negb (at_ d (Z.to_nat (Z.of_nat (length d) - 1)) =? 47)) eqn:E47.
  - set (m2 := st8 (st8 m1 (out + Z.of_nat (length d)) 47) (out + (Z.of_nat (length d) + 1)) 0).
    destruct (add_slash m1 out d H1) as [H2 X2]. fold m2 in H2, X2.
    assert (Hf2 : string_in m2 file f) by (eapply string_same; [|exact Hf1]; intros x Hx; apply X2; lia).
    destruct (strcat_run (d ++ [47]) f fuel m2 out file H2 Hf2) as (m3 & E3 & H3 & X3);
      [unfold disjoint_at; rewrite length_app; cbn; lia|rewrite length_app; cbn; lia|].
    rewrite E3. cbn [mbind outcome_bind]. exists m3. split; [done|]. rewrite <- (assoc_L (++)) in H3. split; [exact H3|].
    intros x Hx. rewrite length_app in X3. cbn [length] in X3. rewrite X3, X2, X1 by lia. done.
  - destruct (strcat_run d f fuel m1 out file H1 Hf1) as (m3 & E3 & H3 & X3); [unfold disjoint_at; lia|lia|].
    rewrite E3. cbn [mbind outcome_bind]. exists m3. split; [done|]. split; [exact H3|]. intros x Hx. rewrite X3, X1 by lia. done.
Qed.
