(* ===== verification/MoveTheory.v ===== *)
(** * mv and cp move and copy whole trees *)
From S2P Require Import Prelude Cstring Ulib UlibFlags Printf Uprintf PrintfTheory Grep Usys Cmds CmdsTheory Reffs.
From S2P Require Import Utils UtilsTheory.

(** ** Trees that can be moved *)

Definition slot_names (s : list slot) : list str := omap (fmap fst) s.

(** Names are distinct and fit, with their NUL, in a directory entry; inode
    numbers fit in its [ushort]. *)
Inductive fine : node -> Prop :=
| fine_file i : fine (NFile i)
| fine_dev i : fine (NDev i)
| fine_dir i s :
    0 < i < 65536 -> NoDup (slot_names s) -> (forall c n, Some (c, n) ∈ s -> good c /\ 0 < ino_of n < 65536) ->
    (forall c n, Some (c, n) ∈ s -> fine n) -> fine (NDir i s).

(** The tree that mv and cp make: the files are the same, each directory is a
    new one, with the next inode number and without the empty slots. *)
Fixpoint relabel_slots (f : node -> Z -> node * Z) (s : list slot) (k : Z) : list slot * Z :=
  match s with
  | [] => ([], k)
  | None :: s => relabel_slots f s k
  | Some (c, n) :: s =>
      let '(n', k) := f n k in
      let '(s', k) := relabel_slots f s k in
      (Some (c, n') :: s', k)
  end.
Fixpoint relabel (n : node) (k : Z) : node * Z :=
  match n with
  | NDir _ s => let '(s', k') := relabel_slots relabel s (k + 1) in (NDir k s', k')
  | _ => (n, k)
  end.

(** The fuel, the descriptors and the length of paths that moving takes. *)
Fixpoint cost (n : node) : nat :=
  match n with
  | NDir _ s => 5 + sum_list_with (fun o : slot => match o with Some (_, m) => S (cost m) | None => 1%nat end) s
  | _ => 1
  end.
Fixpoint depth (n : node) : nat :=
  match n with
  | NDir _ s => S (foldr (fun (o : slot) a => Nat.max (match o with Some (_, m) => depth m | None => 1%nat end) a) 1%nat s)
  | _ => 1
  end.
Fixpoint span (n : node) : nat :=
  match n with
  | NDir _ s => foldr (fun (o : slot) a => Nat.max (match o with Some (c, m) => S (length c + span m) | None => 0%nat end) a) 0%nat s
  | _ => 0
  end.

Lemma relabel_snoc f s c n k :
  relabel_slots f (s ++ [Some (c, n)]) k =
  (fst (relabel_slots f s k) ++ [Some (c, fst (f n (snd (relabel_slots f s k))))], snd (f n (snd (relabel_slots f s k)))).
Proof.
  revert k. induction s as [|[[c' n']|] s IH]; intros k; cbn [app relabel_slots].
  - cbn. by destruct (f n k).
  - destruct (f n' k) as [m k']. rewrite IH. by destruct (relabel_slots f s k').
  - apply IH.
Qed.

Lemma relabel_snoc_none f s k : relabel_slots f (s ++ [None]) k = relabel_slots f s k.
Proof.
  revert k. induction s as [|[[c' n']|] s IH]; intros k; cbn [app relabel_slots]; [done| |apply IH].
  destruct (f n' k) as [m k']. by rewrite IH.
Qed.

(** No slot of the new directory is empty, and its names are the old ones. *)
Lemma relabel_full f s k : Forall (fun o => o <> None) (fst (relabel_slots f s k)) /\
  slot_names (fst (relabel_slots f s k)) = slot_names s.
Proof.
  revert k. induction s as [|[[c n]|] s IH]; intros k; cbn [relabel_slots]; [split; [constructor|done]| |].
  - destruct (f n k) as [m k1]. specialize (IH k1). destruct (relabel_slots f s k1) as [s' k2]. cbn [fst] in *.
    destruct IH as [H1 H2]. split; [by constructor|]. unfold slot_names in *. cbn. by rewrite H2.
  - specialize (IH k). destruct IH as [H1 H2]. split; [done|]. unfold slot_names in *. cbn. exact H2.
Qed.

Lemma add_full c n s : Forall (fun o => o <> None) s -> add_slot c n s = s ++ [Some (c, n)].
Proof. induction 1 as [|[[c' n']|] s Hx Hs IH]; [done| |done]. cbn [add_slot app]. by rewrite IH. Qed.

Lemma find_names c s : find_slot c s = None <-> c ∉ slot_names s.
Proof.
  unfold slot_names. induction s as [|[[c' n]|] s IH]; cbn [find_slot omap list_omap]; [split; [set_solver|done]| |].
  - cbn. destruct (decide (c' = c)) as [->|Hc]; [split; [done|set_solver]|]. rewrite IH. set_solver.
  - cbn. apply IH.
Qed.

Lemma find_in c n s : NoDup (slot_names s) -> Some (c, n) ∈ s -> find_slot c s = Some n.
Proof.
  unfold slot_names. induction s as [|[[c' n']|] s IH]; intros Hnd Hin; [by apply elem_of_nil in Hin| |].
  - cbn in Hnd. apply NoDup_cons in Hnd as [Hni Hnd]. cbn [find_slot]. apply elem_of_cons in Hin as [[= -> ->]|Hin]; [by rewrite decide_True|].
    rewrite decide_False; [by apply IH|]. intros ->. apply Hni. apply list_elem_of_omap. exists (Some (c, n)). done.
  - apply elem_of_cons in Hin as [|Hin]; [done|]. by apply IH.
Qed.

(** Clearing the entries of a directory one after the other. *)
Lemma clear_next (done rest : list slot) c n : NoDup (slot_names (done ++ Some (c, n) :: rest)) ->
  clear_slot c (map (fun _ => None) done ++ Some (c, n) :: rest) = map (fun _ => None) (done ++ [Some (c, n)]) ++ rest.
Proof.
  intros _. unfold clear_slot. induction done as [|o done IH]; cbn [map app change_slot]; [by rewrite decide_True|]. by rewrite IH.
Qed.

Lemma cost_in i s c n : Some (c, n) ∈ s -> (cost n < cost (NDir i s))%nat /\ (depth n < depth (NDir i s))%nat /\
  (S (length c + span n) <= span (NDir i s))%nat.
Proof.
  cbn [cost depth span]. induction s as [|o s IH]; intros Hin; [by apply elem_of_nil in Hin|]. cbn [sum_list_with foldr].
  apply elem_of_cons in Hin as [<-|Hin]; [lia|]. specialize (IH Hin). lia.
Qed.

(** ** Paths of the entries *)

Lemma getFilename_loop_word c : forall d, Forall (fun x => x <> 47) c -> Ulib.getFilename_loop c d = d.
Proof.
  induction c as [|x c IH]; intros d Hc; [done|]. apply Forall_cons in Hc as [Hx Hc]. cbn [Ulib.getFilename_loop].
  destruct (x =? 0); [done|]. rewrite (proj2 (Z.eqb_neq x 47) Hx). by apply IH.
Qed.

Lemma getFilename_loop_slash s c : forall d, no_nul s -> Forall (fun x => x <> 47) c -> Ulib.getFilename_loop (s ++ 47 :: c) d = c.
Proof.
  induction s as [|x s IH]; intros d Hs Hc; cbn [app Ulib.getFilename_loop].
  - cbn. by apply getFilename_loop_word.
  - apply Forall_cons in Hs as [Hx Hs]. rewrite (proj2 (Z.eqb_neq x 0) Hx). by apply IH.
Qed.

Lemma getFilename_join s c : dir_part s -> no_nul s -> good c -> Ulib.getFilename (s ++ c) = c.
Proof.
  intros Hs Hn Hc. unfold Ulib.getFilename. pose proof (good_noslash c Hc) as Hc'. destruct Hs as [->|[s' ->]]; [by apply getFilename_loop_word|].
  rewrite <- (assoc_L (++)). cbn [app]. apply Forall_app in Hn as [Hn _]. by apply getFilename_loop_slash.
Qed.

(** The path of an entry of [dir] as [joinpath] builds it. *)
Definition with_slash (dir : str) : str := dir ++ (if negb (at_ dir (length dir - 1) =? 47) then [47] else []).

Lemma with_slash_dir dir : dir <> [] -> dir_part (with_slash dir).
Proof.
  intros Hd. unfold with_slash. right. destruct (Z.eqb_spec (at_ dir (length dir - 1)) 47) as [E|E]; cbn [negb]; [|by eexists].
  rewrite app_nil_r. destruct (exists_last Hd) as (d' & x & ->). exists d'. f_equal. f_equal.
  rewrite length_app in E. cbn [length] in E. rewrite Nat.add_sub, at_snoc_eq in E. done.
Qed.

Lemma with_slash_spells cw dir p : dir <> [] -> spells cw dir p -> spells cw (with_slash dir) p.
Proof.
  intros Hd Hs. unfold with_slash. destruct (negb _); [by apply spells_slash|by rewrite app_nil_r].
Qed.

Lemma with_slash_length dir : (length (with_slash dir) <= S (length dir))%nat.
Proof. unfold with_slash. rewrite length_app. destruct (negb _); cbn; lia. Qed.

Lemma with_slash_nonul dir : no_nul dir -> no_nul (with_slash dir).
Proof. intros H. apply Forall_app. split; [done|]. destruct (negb _); [by apply Forall_singleton|constructor]. Qed.

Lemma join_run dir c (w : world) : dir <> [] -> no_nul dir -> good c -> (length dir + 1 + length c < MAXPATH)%nat ->
  join dir c w = Ret (with_slash dir ++ c) w.
Proof.
  intros Hd Hn Hc Hl.
  assert (E : joined dir c MAX_PATH_LEN = Some (with_slash dir ++ c)).
  { unfold joined. rewrite !strlen_nonul by (done || by apply good_nonul). unfold MAXPATH in Hl.
    rewrite (proj2 (Z.ltb_ge _ _)) by (unfold MAX_PATH_LEN; lia).
    replace (Z.to_nat (Z.of_nat (length dir) - 1)) with (length dir - 1)%nat by lia.
    unfold with_slash. by rewrite <- (assoc_L (++)). }
  unfold join. destruct dir; [done|]. by rewrite E.
Qed.

(** A directory that ends in no slash. *)
Lemma with_slash_plain s c : good c -> with_slash (s ++ c) = (s ++ c) ++ [47].
Proof.
  intros Hc. unfold with_slash. pose proof (good_noslash c Hc) as Hns. destruct Hc as (Hne & _).
  destruct (exists_last Hne) as (c' & x & ->). rewrite (assoc_L (++)), length_app. cbn [length]. rewrite Nat.add_sub, at_snoc_eq.
  apply Forall_app in Hns as [_ Hx]. apply Forall_cons in Hx as [Hx _]. by rewrite (proj2 (Z.eqb_neq x 47) Hx).
Qed.

(** ** The tree after a step *)

(** A new entry does not hide what there was. *)
Lemma get_enter t p j sd c m q n :
  get t p = Some (NDir j sd) -> find_slot c sd = None -> get t q = Some n -> ~ q `prefix_of` p ->
  get (alter (in_dir (add_slot c m)) p t) q = Some n.
Proof.
  intros Hp Hc Hq Hn. destruct (decide (p `prefix_of` q)) as [[r ->]|Hpq].
  - rewrite get_app, get_alter, Hp. rewrite get_app, Hp in Hq. cbn [mbind option_bind fmap option_fmap option_map in_dir] in *.
    destruct r as [|d r]; [destruct Hn; by rewrite app_nil_r|]. cbn [get] in *. rewrite find_add by done.
    destruct (decide (c = d)) as [->|]; [by rewrite Hc in Hq|done].
  - rewrite get_alter_apart; [done|]. by split.
Qed.

Lemma get_prefix t p q n : get t (p ++ q) = Some n -> exists m, get t p = Some m.
Proof. rewrite get_app. destruct (get t p); [by eexists|done]. Qed.

Lemma get_parent t p c n : get t (p ++ [c]) = Some n -> exists i s, get t p = Some (NDir i s) /\ find_slot c s = Some n.
Proof.
  rewrite get_app. destruct (get t p) as [[| |i s]|]; try done. cbn [mbind option_bind get]. intros H. exists i, s.
  split; [done|]. by destruct (find_slot c s).
Qed.

(** The source is neither the new entry nor on the way to it. *)
Lemma apart_new t q p c n j sd :
  get t q = Some n -> get t p = Some (NDir j sd) -> find_slot c sd = None -> ~ q `prefix_of` p -> apart q (p ++ [c]).
Proof.
  intros Hq Hp Hc Hn.
  assert (Hno : get t (p ++ [c]) = None) by (rewrite get_app, Hp; cbn; by rewrite Hc).
  split; intros [r Hr].
  - destruct (decide (r = [])) as [->|Hne]; [rewrite app_nil_r in Hr; congruence|].
    destruct (exists_last Hne) as (r' & x & ->). rewrite (assoc_L (++)) in Hr. apply app_inj_tail in Hr as [-> _]. apply Hn. by eexists.
  - rewrite Hr in Hq. apply get_prefix in Hq as [m Hm]. congruence.
Qed.

(** The tree with the new entry, and without the old one when it is moved. *)
Definition moved (del : bool) (ps : list str) (name : str) (pd : list str) (n : node) (t : node) : node :=
  let t' := alter (in_dir (add_slot name n)) pd t in
  if del then alter (in_dir (clear_slot name)) ps t' else t'.

(** The tree while a directory is moved: the slots of the source at [q], and
    the copy so far, [cp], in the new directory. *)
Definition moving (q : list str) (i : Z) (cur : list slot) (pd : list str) (name : str) (k0 : Z) (cp : list slot) (t : node) : node :=
  alter (fun _ => NDir i cur) q (alter (in_dir (add_slot name (NDir k0 cp))) pd t).

Lemma change_id c s : change_slot c (fun n => Some (c, n)) s = s.
Proof.
  induction s as [|[[c' n]|] s IH]; cbn [change_slot]; [done| |by rewrite IH]. destruct (decide (c' = c)) as [->|]; [done|by rewrite IH].
Qed.

Lemma alter_same p : forall t, alter (fun n => n) p t = t.
Proof.
  induction p as [|c p IH]; intros t; [done|]. cbn [alter]. destruct t as [| |i s]; [done..|]. f_equal.
  rewrite <- (change_id c s) at 2. apply change_ext. intros n _. by rewrite IH.
Qed.

Lemma alter_id p t n : get t p = Some n -> alter (fun _ => n) p t = t.
Proof. intros H. rewrite <- (alter_same p t) at 2. apply alter_ext. intros m Hm. congruence. Qed.

Section Moving.
Variables (t : node) (q pd : list str) (i j : Z) (s sd : list slot) (name : str).
Hypothesis Hq : get t q = Some (NDir i s).
Hypothesis Hpd : get t pd = Some (NDir j sd).
Hypothesis Hfree : find_slot name sd = None.
Hypothesis Hnot : ~ q `prefix_of` pd.

Lemma moving_apart : apart q (pd ++ [name]).
Proof. by eapply apart_new. Qed.

Lemma moving_src cur k0 cp : get (moving q i cur pd name k0 cp t) q = Some (NDir i cur).
Proof. unfold moving. rewrite get_alter. by rewrite (get_enter t pd j sd name _ q _ Hpd Hfree Hq Hnot). Qed.

Lemma moving_dst cur k0 cp : get (moving q i cur pd name k0 cp t) (pd ++ [name]) = Some (NDir k0 cp).
Proof.
  unfold moving. rewrite get_alter_apart by apply moving_apart. rewrite get_app, get_alter, Hpd.
  cbn [fmap option_fmap option_map mbind option_bind in_dir get]. rewrite find_add by done. by rewrite decide_True.
Qed.

Lemma moving_init k0 : alter (in_dir (add_slot name (NDir k0 []))) pd t = moving q i s pd name k0 [] t.
Proof. unfold moving. symmetry. apply alter_id. by eapply get_enter. Qed.

Lemma moving_step del c m cur k0 cp :
  moved del q c (pd ++ [name]) m (moving q i cur pd name k0 cp t) =
  moving q i (if del then clear_slot c cur else cur) pd name k0 (add_slot c m cp) t.
Proof.
  assert (E : alter (in_dir (add_slot c m)) (pd ++ [name]) (moving q i cur pd name k0 cp t) =
    moving q i cur pd name k0 (add_slot c m cp) t).
  { unfold moving. rewrite <- alter_comm by apply moving_apart. f_equal. rewrite alter_app, alter_alter. apply alter_ext.
    intros n Hn. rewrite Hpd in Hn. injection Hn as <-. cbn [in_dir alter]. by rewrite change_add by done. }
  unfold moved. cbv zeta. rewrite E. destruct del; [|done]. unfold moving. by rewrite alter_alter.
Qed.

End Moving.

Lemma moving_end ps name i cur pd k0 cp t :
  alter (in_dir (clear_slot name)) ps (moving (ps ++ [name]) i cur pd name k0 cp t) = moved true ps name pd (NDir k0 cp) t.
Proof.
  unfold moving, moved. rewrite alter_app, alter_alter. apply alter_ext. intros n _. destruct n as [| |i' s']; [done..|].
  cbn [alter in_dir]. by rewrite clear_change.
Qed.

Lemma moving_copied t ps name i s pd j sd k0 cp :
  get t (ps ++ [name]) = Some (NDir i s) -> get t pd = Some (NDir j sd) -> find_slot name sd = None -> ~ (ps ++ [name]) `prefix_of` pd ->
  moving (ps ++ [name]) i s pd name k0 cp t = moved false ps name pd (NDir k0 cp) t.
Proof. intros Hq Hpd Hf Hn. unfold moving, moved. apply alter_id. by eapply get_enter. Qed.

(** ** Running [move] *)

(** What is moved: the node [n], named by [src0 ++ name] at [ps ++ [name]],
    into the directory [dst] at [pd], which has no entry of that name and is
    not below it; the paths are short enough. *)
Record job (w : world) (src0 name dst : str) (ps pd : list str) (j : Z) (sd : list slot) (n : node) : Prop := {
  jb_talks : talks w;
  jb_src : dir_part src0 /\ no_nul src0 /\ spells (cwd w) src0 ps;
  jb_name : good name;
  jb_dst : dst <> [] /\ no_nul dst /\ spells (cwd w) dst pd;
  jb_get : get (root w) (ps ++ [name]) = Some n;
  jb_dir : get (root w) pd = Some (NDir j sd);
  jb_new : find_slot name sd = None;
  jb_not : ~ (ps ++ [name]) `prefix_of` pd;
  jb_len : (length (src0 ++ name) + span n < MAXPATH)%nat /\ (length dst + 1 + length name + span n < MAXPATH)%nat;
  jb_free : (depth n <= free_fds (fds w))%nat
}.

Definition moves (n : node) : Prop := forall del w src0 name dst ps pd j sd fuel,
  job w src0 name dst ps pd j sd n -> (cost n <= fuel)%nat ->
  exists w', move fuel (src0 ++ name) dst del w = Ret 0 w' /\ calm w w' /\
    root w' = moved del ps name pd (fst (relabel n (next_ino w))) (root w) /\ next_ino w' = snd (relabel n (next_ino w)).

Lemma depth_pos n : (0 < depth n)%nat.
Proof. destruct n; cbn; lia. Qed.

Lemma cost_pos n : (0 < cost n)%nat.
Proof. destruct n; cbn; lia. Qed.

Lemma nonul_join s c : no_nul s -> good c -> no_nul (s ++ c).
Proof. intros H1 H2. apply Forall_app. split; [done|by apply good_nonul]. Qed.

Lemma job_same w w' src0 name dst ps pd j sd n : job w src0 name dst ps pd j sd n ->
  root w' = root w -> cwd w' = cwd w -> talks w' -> free_fds (fds w') = free_fds (fds w) -> job w' src0 name dst ps pd j sd n.
Proof. intros [] Hr Hc Ht Hf. split; rewrite ?Hr, ?Hc, ?Hf; done. Qed.

Section Job.
Context {w : world} {src0 name dst : str} {ps pd : list str} {j : Z} {sd : list slot} {n : node}.
Hypothesis J : job w src0 name dst ps pd j sd n.

Lemma job_src : resolve w (src0 ++ name) = Some (ps ++ [name]).
Proof.
  destruct J as [_ (S1 & S2 & S3) Hn _ Hg _ _ _ [Hl _] _]. eapply resolve_spells; [by apply spells_join|lia|exact Hg].
Qed.

Lemma job_dst : resolve w dst = Some pd.
Proof. destruct J as [_ _ _ (_ & _ & D3) _ Hg _ _ [_ Hl] _]. eapply resolve_spells; [done|lia|exact Hg]. Qed.

Lemma job_outside : inside (normalize_path (src0 ++ name)) (normalize_path dst) = false.
Proof.
  destruct J as [_ (S1 & S2 & S3) Hn (D1 & D2 & D3) _ _ _ Hnot [Hl1 Hl2] _]. apply not_true_is_false. intros H. apply Hnot.
  eapply (inside_prefix (cwd w) (src0 ++ name) dst); try done; try lia; [|by apply nonul_join|by apply spells_join].
  intros E. apply app_nil in E as [_ E]. by destruct Hn.
Qed.

Lemma move_dispatch f del :
  move (S f) (src0 ++ name) dst del w = (if is_dir n then moveDir f (src0 ++ name) dst del else moveFile (src0 ++ name) dst del) w.
Proof.
  pose proof (depth_pos n). pose proof (jb_free _ _ _ _ _ _ _ _ _ J). cbn [move].
  rewrite (bind_ret _ _ w _ w (isdir_run w dst pd _ job_dst (jb_dir _ _ _ _ _ _ _ _ _ J) ltac:(lia))). cbn [is_dir negb].
  rewrite job_outside. rewrite (bind_ret _ _ w _ w (isdir_run w _ _ n job_src (jb_get _ _ _ _ _ _ _ _ _ J) ltac:(lia))).
  by destruct (is_dir n).
Qed.

Lemma job_join : Utils.join dst (Ulib.getFilename (src0 ++ name)) w = Ret (with_slash dst ++ name) w.
Proof.
  destruct J as [_ (S1 & S2 & S3) Hn (D1 & D2 & D3) _ _ _ _ [_ Hl] _]. rewrite getFilename_join by done. apply join_run; try done. lia.
Qed.

End Job.

Ltac renders :=
  repeat match goal with |- context [lit ?s] => let v := eval vm_compute in (lit s) in change (lit s) with v end;
  cbn [render Z.eqb Pos.eqb fmap option_fmap option_map]; by eexists.

(** Printing in the middle of a program. *)
Lemma say fd fmt ap w : is_Some (render fmt ap) -> ref_writable fd w ->
  exists w', (forall A (k : prog world A), (fprintf fd fmt ap ≫= fun _ => k) w = k w') /\ said w w'.
Proof.
  intros Hr Hw. destruct (fprintf_said fd fmt ap w Hr Hw) as (w' & E & H). exists w'. split; [|done]. intros A k. by rewrite (bind_ret _ _ w tt w' E).
Qed.

Lemma file_moves n : is_dir n = false -> moves n.
Proof.
  intros Hd del w src0 name dst ps pd j sd fuel J Hc. destruct fuel as [|f]; [pose proof (cost_pos n); lia|].
  rewrite (move_dispatch J), Hd. unfold moveFile. rewrite (bind_ret _ _ w _ w (job_join J)).
  pose proof J as [Ht (S1 & S2 & S3) Hn (D1 & D2 & D3) Hg Hgd Hnew Hnot [Hl1 Hl2] Hfr].
  assert (Hrel : relabel n (next_ino w) = (n, next_ino w)) by (by destruct n). rewrite Hrel. cbn [fst snd].
  pose proof (with_slash_length dst) as Hwl.
  assert (Elink : sys_link (src0 ++ name) (with_slash dst ++ name) w = (0, enter pd name n w)).
  { apply (link_step w _ _ _ _ j sd (ps ++ [name]) n); auto; [by apply (job_src J)|by apply with_slash_dir|by apply with_slash_spells|].
    rewrite length_app. lia. }
  unfold link. rewrite (bind_sys _ _ w _ _ Elink). cbn [Z.ltb Z.compare]. unfold verbose, printf.
  set (w1 := enter pd name n w). assert (C1 : calm w w1) by (by split).
  destruct (say 1 (lit "done linking %s to %s\n") [Str (Some (src0 ++ name)); Str (Some (with_slash dst ++ name))] w1)
    as (w2 & E2 & [C2 R2 N2]); [renders|apply (calm_talks _ _ C1 Ht)|]. rewrite E2.
  destruct del; [|exists w2; split_and!; [done|by eapply calm_trans|exact R2|exact N2]].
  assert (Hg2 : get (root w2) (ps ++ [name]) = Some n) by (rewrite R2; by eapply get_enter).
  destruct (get_parent _ _ _ _ Hg2) as (i' & s' & Hp & Hf).
  assert (Eun : sys_unlink (src0 ++ name) w2 = (0, set_root (alter (in_dir (clear_slot name)) ps (root w2)) w2)).
  { apply (unlink_run w2 src0 name ps i' s' n); auto; [by rewrite (ca_cwd _ _ C2)|lia|by destruct n]. }
  unfold unlink. rewrite (bind_sys _ _ w2 _ _ Eun). cbn [Z.ltb Z.compare].
  eexists. split; [done|]. split_and!; [|by rewrite R2|exact N2]. apply (calm_trans _ w1); [done|]. by destruct C2.
Qed.

(** ** Entries of a directory *)

Lemma cstr_pad_nul c n : no_nul c -> cstr (c ++ replicate (S n) 0) = c.
Proof.
  intros Hc. induction Hc as [|x c Hx Hc IH]; [done|]. cbn [app]. rewrite cstr_cons, (proj2 (Z.eqb_neq x 0) Hx). by f_equal.
Qed.

Lemma dirent_name ino c : (length c <= 13)%nat -> de_name (dirent ino c) = c ++ replicate (S (13 - length c)) 0.
Proof.
  intros Hl. replace (S (13 - length c)) with (14 - length c)%nat by lia. unfold de_name, dirent, DIRSIZ. cbn [app drop].
  rewrite take_app, (take_ge c), take_replicate by lia. by rewrite Nat.min_l by lia.
Qed.

Lemma dirent_inum ino c : 0 < ino < 65536 -> de_inum (dirent ino c) = ino.
Proof. intros H. unfold de_inum, dirent. cbn [app at_ lookup list_lookup]. unfold at_. cbn. unfold u8. zlia. Qed.

Lemma name_string_run ino c (w : world) : no_nul c -> (length c <= 13)%nat -> name_string (de_name (dirent ino c)) w = Ret c w.
Proof.
  intros Hc Hl. unfold name_string. rewrite dirent_name by done. rewrite decide_True by (apply elem_of_app; right; by left).
  by rewrite cstr_pad_nul.
Qed.

Lemma set_fd_set fd d d' w : set_fd fd d (set_fd fd d' w) = set_fd fd d w.
Proof. unfold set_fd. cbn [fds set_fds]. by rewrite list_insert_insert_eq. Qed.

Lemma calm_set fd d w w' : calm w w' -> calm (set_fd fd d w) (set_fd fd d w').
Proof.
  intros [H1 H2 H3 H4]. split; [done..|]. cbn [fds set_fd set_fds]. change (map mute) with (fmap mute : list _ -> list _) in *.
  by rewrite !list_fmap_insert, H4.
Qed.

Lemma talks_set w fd p i k d : fd_of fd w = Some (DDir p i k) -> talks w -> talks (set_fd fd d w).
Proof.
  intros Hf [[o1 H1] [o2 H2]]. pose proof (fd_of_nonneg _ _ _ Hf). assert (fd <> 1 /\ fd <> 2) as [? ?] by (split; intros ->; congruence).
  split; [exists o1|exists o2]; by rewrite fd_of_set_ne.
Qed.

(** The loop of [moveDir] over [s], of which [done] has been moved: [w0] is
    the world before the directory was opened. *)
Record midway (del : bool) (w0 : world) (t : node) (fd : Z) (q : list str) (i : Z) (pd : list str) (name : str) (k0 : Z)
    (moved_ rest : list slot) (w : world) : Prop := {
  md_talks : talks w;
  md_fd : fd_of fd w = Some (DDir q i (16 * (2 + length moved_)));
  md_calm : calm w0 (set_fd fd None w);
  md_root : root w = moving q i ((if del then map (fun _ => None) moved_ else moved_) ++ rest) pd name k0
    (fst (relabel_slots relabel moved_ (k0 + 1))) t;
  md_next : next_ino w = snd (relabel_slots relabel moved_ (k0 + 1))
}.

Lemma find_cleared (done rest : list slot) c : find_slot c (map (fun _ => None) done ++ rest) = find_slot c rest.
Proof. by induction done. Qed.

Section Entries.
Context {del : bool} {w0 : world} {src0 name dst : str} {ps pd : list str} {j i : Z} {sd s : list slot} {fd k0 : Z}.
Hypothesis J : job w0 src0 name dst ps pd j sd (NDir i s).
Hypothesis Hfine : fine (NDir i s).
Hypothesis IHs : forall c n, Some (c, n) ∈ s -> moves n.
Abbreviation q := (ps ++ [name]).
Abbreviation mid := (midway del w0 (root w0) fd q i pd name k0).

(** The job of moving the next entry. *)
Lemma entry_job done c n rest w : s = done ++ Some (c, n) :: rest -> mid done (Some (c, n) :: rest) w ->
  job w ((src0 ++ name) ++ [47]) c (with_slash dst ++ name) q (pd ++ [name]) k0 (fst (relabel_slots relabel done (k0 + 1))) n.
Proof.
  intros Es [Ht Hf Hcalm Hroot Hnext]. destruct J as [_ (S1 & S2 & S3) Hn (D1 & D2 & D3) Hg Hgd Hnew Hnot [Hl1 Hl2] Hfr].
  inversion Hfine as [| |? ? Hi Hnd Hgood Hfs]; subst i0 s0. assert (Hin : Some (c, n) ∈ s) by (rewrite Es; set_solver).
  destruct (Hgood c n Hin) as [Hc Hino]. destruct (cost_in i s c n Hin) as (_ & Hdep & Hspan).
  assert (Hcw : cwd w = cwd w0) by (by destruct Hcalm).
  assert (Hfree : S (free_fds (fds w)) = free_fds (fds w0)).
  { rewrite <- (calm_free _ _ Hcalm). cbn [fds set_fd set_fds]. by rewrite (free_close _ _ _ (fds_lookup _ _ _ Hf)). }
  pose proof (with_slash_length dst). rewrite !length_app in Hl1.
  destruct (relabel_full relabel done (k0 + 1)) as [_ Hnames].
  split; auto.
  - rewrite Hcw. split_and!; [right; by eexists|apply Forall_app; split; [by apply nonul_join|by apply Forall_singleton]|].
    apply spells_slash; [|by apply spells_join]. intros E. apply app_nil in E as [_ E]. by destruct Hn.
  - rewrite Hcw. split_and!; [|apply nonul_join; [by apply with_slash_nonul|done]|].
    + intros E. apply app_nil in E as [_ E]. by destruct Hn.
    + apply spells_join; [by apply with_slash_dir|done|by apply with_slash_spells].
  - rewrite Hroot, get_app, (moving_src _ _ _ _ j s sd _ Hg Hgd Hnew Hnot). cbn [mbind option_bind get].
    assert (E : find_slot c ((if del then map (fun _ => None) done else done) ++ Some (c, n) :: rest) = Some n).
    { destruct del; [|rewrite <- Es; by apply find_in]. rewrite find_cleared. cbn [find_slot]. by rewrite decide_True. }
    by rewrite E.
  - rewrite Hroot. by apply (moving_dst _ _ _ _ j s sd).
  - apply find_names. rewrite Hnames. rewrite Es in Hnd. unfold slot_names in *. rewrite omap_app in Hnd.
    apply NoDup_app in Hnd as (_ & Hdis & _). intros Hc'. apply (Hdis c Hc'). cbn. by left.
  - intros Hp. destruct (moving_apart _ _ _ i j s sd _ Hg Hgd Hnew Hnot) as [Ha _]. apply Ha. etransitivity; [|exact Hp]. by eexists.
  - rewrite !length_app. cbn [length]. lia.
  - lia.
Qed.

(** The source directory as the loop sees it. *)
Lemma mid_dir done rest w : mid done rest w -> s = done ++ rest ->
  get (root w) q = Some (NDir i ((if del then map (fun _ => None) done else done) ++ rest)).
Proof.
  intros [_ _ _ Hroot _] Es. destruct J as [_ _ _ _ Hg Hgd Hnew Hnot _ _]. rewrite Hroot. by apply (moving_src _ _ _ _ j s sd).
Qed.

(** The next entry is read. *)
Lemma mid_read done o rest w : mid done (o :: rest) w -> s = done ++ o :: rest ->
  exists w1, sys_read fd 16 w = (Some (slot_bytes o), w1) /\ w1 = set_fd fd (Some (DDir q i (16 * (2 + S (length done))))) w.
Proof.
  intros Hm Es. pose proof (mid_dir _ _ _ Hm Es) as Hd. destruct Hm as [Ht Hf Hcalm Hroot Hnext].
  destruct (dir_read w fd q i _ _ Hf Hd) as (d & E & Hd'). eexists. split; [|done]. rewrite E. f_equal.
  - f_equal. cbn [Nat.add dir_entry]. rewrite lookup_app_r by (destruct del; by rewrite ?length_map).
    replace (length done - length (if del then map (fun _ => None) done else done))%nat with 0%nat by (destruct del; rewrite ?length_map; lia). done.
  - f_equal. f_equal. rewrite Hd'; [done|]. rewrite length_app. destruct del; rewrite ?length_map; cbn; lia.
Qed.

(** At the end of the directory. *)
Lemma mid_eof w : mid s [] w -> exists w1 d, sys_read fd 16 w = (Some [], w1) /\ w1 = set_fd fd (Some d) w.
Proof.
  intros Hm. pose proof (mid_dir _ _ _ Hm (eq_sym (app_nil_r s))) as Hd. destruct Hm as [Ht Hf Hcalm Hroot Hnext].
  destruct (dir_read w fd q i _ _ Hf Hd) as (d & E & _). eexists _, d. split; [|done]. rewrite E. f_equal. f_equal. cbn [Nat.add dir_entry].
  rewrite lookup_ge_None_2; [done|]. rewrite app_nil_r. destruct del; by rewrite ?length_map.
Qed.

Lemma mid_empty done rest w w1 : mid done (None :: rest) w -> s = done ++ None :: rest ->
  w1 = set_fd fd (Some (DDir q i (16 * (2 + S (length done))))) w -> mid (done ++ [None]) rest w1.
Proof.
  intros [Ht Hf Hcalm Hroot Hnext] Es ->. rewrite <- (set_fd_set fd None (Some (DDir q i (16 * (2 + S (length done)))))) in Hcalm.
  split; auto.
  - by eapply talks_set.
  - rewrite length_app, Nat.add_1_r. apply fd_of_set_eq. by eexists.
  - rewrite relabel_snoc_none. cbn [root set_fd set_fds]. rewrite Hroot. f_equal.
    destruct del; rewrite ?map_app; by rewrite <- (assoc_L (++)).
  - by rewrite relabel_snoc_none.
Qed.

(** The next entry has been moved by [move]. *)
Lemma mid_moved done c n rest w1 w3 : s = done ++ Some (c, n) :: rest ->
  talks w1 -> fd_of fd w1 = Some (DDir q i (16 * (2 + S (length done)))) -> calm w0 (set_fd fd None w1) ->
  root w1 = moving q i ((if del then map (fun _ => None) done else done) ++ Some (c, n) :: rest) pd name k0
    (fst (relabel_slots relabel done (k0 + 1))) (root w0) ->
  next_ino w1 = snd (relabel_slots relabel done (k0 + 1)) ->
  calm w1 w3 -> root w3 = moved del q c (pd ++ [name]) (fst (relabel n (next_ino w1))) (root w1) ->
  next_ino w3 = snd (relabel n (next_ino w1)) ->
  mid (done ++ [Some (c, n)]) rest w3.
Proof.
  intros Es Ht Hf Hcalm Hroot Hnext C3 R3 N3. destruct J as [_ _ _ _ Hg Hgd Hnew Hnot _ _].
  destruct (relabel_full relabel done (k0 + 1)) as [Hfull _]. split.
  - by eapply calm_talks.
  - rewrite length_app, Nat.add_1_r. by eapply calm_fd.
  - eapply calm_trans; [exact Hcalm|by apply calm_set].
  - rewrite R3, Hroot, (moving_step _ _ _ _ j s sd _ Hg Hgd Hnew Hnot), relabel_snoc, add_full, Hnext by done. cbn [fst]. f_equal.
    inversion Hfine as [| |? ? Hi Hnd _ _]. rewrite Es in Hnd. destruct del; [by apply clear_next|by rewrite <- (assoc_L (++))].
  - by rewrite relabel_snoc, N3, Hnext.
Qed.

(** What one entry costs. *)
Definition slot_cost (o : slot) : nat := match o with Some (_, m) => S (cost m) | None => 1 end.

Lemma entries_run rest : forall done w fuel, s = done ++ rest -> mid done rest w -> (sum_list_with slot_cost rest < fuel)%nat ->
  exists w' w'' d, move_entries fuel fd (src0 ++ name) (with_slash dst ++ name) del w = Ret true w' /\
    mid s [] w'' /\ w' = set_fd fd (Some d) w''.
Proof.
  induction rest as [|o rest IH]; intros done w fuel Es Hm Hfuel; destruct fuel as [|f]; cbn [sum_list_with] in Hfuel; try lia.
  { rewrite app_nil_r in Es. subst done. destruct (mid_eof w Hm) as (w1 & d & E & ->). exists (set_fd fd (Some d) w), w, d.
    split; [|done]. cbn [move_entries]. unfold read. by rewrite (bind_sys _ _ w _ _ E). }
  destruct (mid_read done o rest w Hm Es) as (w1 & E & Ew1). cbn [move_entries]. unfold read. rewrite (bind_sys _ _ w _ w1 E).
  rewrite length_slot_bytes, Nat.eqb_refl. cbn [negb].
  assert (Es' : s = (done ++ [o]) ++ rest) by (by rewrite <- (assoc_L (++))).
  destruct o as [[c n]|]; cbn [slot_bytes slot_cost] in *.
  2: { change (de_inum (replicate 16 0) =? 0) with true. cbv iota. apply (IH (done ++ [None]) w1 f Es'); [by eapply mid_empty|lia]. }
  inversion Hfine as [| |? ? Hi Hnd Hgood Hfs]; subst i0 s0. assert (Hin : Some (c, n) ∈ s) by (rewrite Es; set_solver).
  destruct (Hgood c n Hin) as [Hc Hino]. rewrite dirent_inum by done. rewrite (proj2 (Z.eqb_neq _ 0)) by lia.
  pose proof Hc as (Hne & Hlen & _ & Hd1 & Hd2). pose proof (good_nonul c Hc) as Hnn.
  rewrite (bind_ret _ _ w1 _ w1 (name_string_run _ c w1 Hnn Hlen)).
  assert (Hcmp : (Ulib.strcmp c (lit ".") =? 0) || (Ulib.strcmp c (lit "..") =? 0) = false).
  { apply orb_false_iff. split; apply Z.eqb_neq; intros E0; apply strcmp_eq in E0; try done; by repeat constructor. }
  rewrite Hcmp. pose proof (entry_job done c n rest w Es Hm) as Jw. destruct J as [_ (_ & S2 & _) Hn _ _ _ _ _ [Hl1 _] _].
  destruct (cost_in i s c n Hin) as (_ & _ & Hspan). rewrite length_app in Hl1.
  rewrite (bind_ret _ _ w1 (((src0 ++ name) ++ [47]) ++ c) w1).
  2: { rewrite <- (with_slash_plain src0 name Hn). apply join_run; auto; [|by apply nonul_join|rewrite length_app; lia].
    intros E0. apply app_nil in E0 as [_ E0]. by destruct Hn. }
  unfold verbose, printf. destruct Hm as [Ht Hf Hcalm Hroot Hnext].
  assert (Ht1 : talks w1) by (rewrite Ew1; by eapply talks_set).
  destruct (say 1 (lit "3. item src: %s, item dst: %s, shouldDelete: %d\n")
    [Str (Some (((src0 ++ name) ++ [47]) ++ c)); Str (Some (with_slash dst ++ name)); Word (b2z del)] w1) as (w2 & E2 & [C2 R2 N2]);
    [renders|apply Ht1|]. rewrite E2.
  assert (Hf1 : fd_of fd w1 = Some (DDir q i (16 * (2 + S (length done))))) by (rewrite Ew1; apply fd_of_set_eq; by eexists).
  assert (Hfree1 : free_fds (fds w1) = free_fds (fds w)).
  { rewrite Ew1. cbn [fds set_fd set_fds]. by apply (free_insert _ _ _ _ (fds_lookup _ _ _ Hf)). }
  assert (J2 : job w2 ((src0 ++ name) ++ [47]) c (with_slash dst ++ name) q (pd ++ [name]) k0 (fst (relabel_slots relabel done (k0 + 1))) n).
  { apply (job_same w); auto; [by rewrite R2, Ew1|by rewrite (ca_cwd _ _ C2), Ew1|by eapply calm_talks|by rewrite (calm_free _ _ C2)]. }
  destruct (IHs c n Hin del w2 _ _ _ _ _ _ _ f J2) as (w3 & E3 & C3 & R3 & N3); [lia|].
  rewrite (bind_ret _ _ w2 _ w3 E3). cbn [Z.ltb Z.compare].
  apply (IH (done ++ [Some (c, n)]) w3 f Es'); [|lia].
  apply (mid_moved done c n rest w2 w3 Es); auto.
  - by eapply calm_talks.
  - by eapply calm_fd.
  - eapply calm_trans; [exact Hcalm|]. rewrite <- (set_fd_set fd None (Some (DDir q i (16 * (2 + S (length done))))) w), <- Ew1. by apply calm_set.
  - by rewrite R2, Ew1.
  - by rewrite N2, Ew1.
Qed.

End Entries.

(** The entries [.] and [..] are passed over. *)
Lemma skip_dots f fd q i sl src new_dst del w : fd_of fd w = Some (DDir q i 0) -> get (root w) q = Some (NDir i sl) -> 0 < i < 65536 ->
  exists w', move_entries (S (S f)) fd src new_dst del w = move_entries f fd src new_dst del w' /\ w' = set_fd fd (Some (DDir q i 32)) w.
Proof.
  intros Hf Hg Hi. destruct (dir_read w fd q i sl 0 Hf Hg) as (d1 & E1 & Hd1). specialize (Hd1 ltac:(lia)). subst d1.
  set (w1 := set_fd fd (Some (DDir q i (16 * 1))) w) in *.
  assert (Hf1 : fd_of fd w1 = Some (DDir q i (16 * 1))) by (apply fd_of_set_eq; by eexists).
  destruct (dir_read w1 fd q i sl 1 Hf1 Hg) as (d2 & E2 & Hd2). specialize (Hd2 ltac:(lia)). subst d2.
  exists (set_fd fd (Some (DDir q i 32)) w). split; [|done]. rewrite <- (set_fd_set fd (Some (DDir q i 32)) (Some (DDir q i (16 * 1))) w).
  cbn [dir_entry] in *. set (up := match get _ _ with Some _ => _ | None => _ end) in *.
  cbn [move_entries]. unfold read. rewrite (bind_sys _ _ w _ w1 E1), length_dirent. cbn [Nat.eqb negb].
  rewrite dirent_inum, (proj2 (Z.eqb_neq i 0)) by lia.
  rewrite (bind_ret _ _ w1 dot w1) by (apply (name_string_run i dot w1); [by repeat constructor|cbn; lia]).
  change (Ulib.strcmp dot (lit ".") =? 0) with true. cbn [orb]. rewrite (bind_sys _ _ w1 _ _ E2), length_dirent. cbn [Nat.eqb negb].
  destruct (de_inum (dirent up dotdot) =? 0); [done|].
  match goal with |- (_ ≫= _) ?w2 = _ =>
    rewrite (bind_ret _ _ w2 dotdot w2) by (apply (name_string_run up dotdot w2); [by repeat constructor|cbn; lia]) end.
  done.
Qed.

Lemma removable_cleared i (s : list slot) : removable (NDir i (map (fun _ => None) s)) = true.
Proof. cbn. by induction s. Qed.

(** [moveDir] from the test for the source's removal to its end. *)
Lemma dir_finish del w src0 name dst ps pd j i sd s k0 fd w'' :
  job w src0 name dst ps pd j sd (NDir i s) -> midway del w (root w) fd (ps ++ [name]) i pd name k0 s [] w'' ->
  exists w', (r ← (if del then unlink (src0 ++ name) else mret 0);
      if del && (r <? 0) then _ ← fprintf 2 (lit "mv: unlink source directory failed\n") []; mret (-1)
      else _ ← (if verbose then printf (lit "5. this Subcall done succesfully\n") [] else mret tt); mret 0) (set_fd fd None w'') = Ret 0 w' /\
    calm w w' /\ root w' = moved del ps name pd (NDir k0 (fst (relabel_slots relabel s (k0 + 1)))) (root w) /\
    next_ino w' = snd (relabel_slots relabel s (k0 + 1)).
Proof.
  intros J Hm. pose proof (mid_dir J s [] w'' Hm (eq_sym (app_nil_r s))) as Hd. destruct Hm as [Ht Hf Hcalm Hroot Hnext].
  set (w7 := set_fd fd None w'') in *. assert (Ht7 : talks w7) by (by eapply talks_set).
  destruct J as [_ (S1 & S2 & S3) Hn _ Hg Hgd Hnew Hnot [Hl1 _] _]. rewrite app_nil_r in *. unfold verbose, printf.
  assert (Hun : exists r w8, (if del then unlink (src0 ++ name) else mret 0) w7 = Ret r w8 /\ (del && (r <? 0)) = false /\ calm w7 w8 /\
    root w8 = moved del ps name pd (NDir k0 (fst (relabel_slots relabel s (k0 + 1)))) (root w) /\ next_ino w8 = next_ino w7).
  { destruct del.
    - destruct (get_parent _ _ _ _ Hd) as (i' & s' & Hp & Hfs).
      assert (Eun : sys_unlink (src0 ++ name) w7 = (0, set_root (alter (in_dir (clear_slot name)) ps (root w7)) w7)).
      { apply (unlink_run w7 src0 name ps i' s' (NDir i (map (fun _ => None) s)) S1 Hn);
          [by rewrite (ca_cwd _ _ Hcalm)|lia|exact Hp|exact Hfs|apply removable_cleared]. }
      eexists 0, _. split; [unfold unlink, sys; by rewrite Eun|]. split_and!; [done|by split| |done].
      cbn [root set_root]. change (root w7) with (root w''). rewrite Hroot. apply moving_end.
    - exists 0, w7. split_and!; [done..|apply calm_refl| |done]. change (root w7) with (root w''). rewrite Hroot. by eapply moving_copied. }
  destruct Hun as (r & w8 & E8 & H8 & C8 & R8 & N8).
  rewrite (bind_ret _ _ w7 r w8 E8), H8.
  destruct (say 1 (lit "5. this Subcall done succesfully\n") [] w8) as (w9 & E9 & [C9 R9 N9]); [renders|apply (calm_talks _ _ C8 Ht7)|].
  rewrite E9. exists w9. split_and!; [done| |congruence|]; [|by rewrite N9, N8]. eapply calm_trans; [exact Hcalm|by eapply calm_trans].
Qed.

Lemma cost_dir i (s : list slot) : cost (NDir i s) = (5 + sum_list_with slot_cost s)%nat.
Proof. reflexivity. Qed.

(** [moveDir] up to the loop. *)
Lemma dir_start del w src0 name dst ps pd j i sd s f :
  job w src0 name dst ps pd j sd (NDir i s) -> 0 < i < 65536 -> (4 + sum_list_with slot_cost s <= f)%nat ->
  exists fd f' w5, moveDir f (src0 ++ name) dst del w =
      (done ← move_entries f' fd (src0 ++ name) (with_slash dst ++ name) del;
       if negb done then mret (-1)
       else
         _ ← close fd;
         r ← (if del then unlink (src0 ++ name) else mret 0);
         if del && (r <? 0) then _ ← fprintf 2 (lit "mv: unlink source directory failed\n") []; mret (-1)
         else _ ← (if verbose then printf (lit "5. this Subcall done succesfully\n") [] else mret tt); mret 0) w5 /\
    (sum_list_with slot_cost s < f' - 2)%nat /\ fd_of fd w5 = Some (DDir (ps ++ [name]) i 0) /\ talks w5 /\ calm w (set_fd fd None w5) /\
    root w5 = moving (ps ++ [name]) i s pd name (next_ino w) [] (root w) /\ next_ino w5 = next_ino w + 1.
Proof.
  intros J Hi Hf. destruct f as [|f]; [lia|]. cbn [moveDir]. rewrite (bind_ret _ _ w _ w (job_join J)).
  pose proof J as [Ht (S1 & S2 & S3) Hn (D1 & D2 & D3) Hg Hgd Hnew Hnot [Hl1 Hl2] Hfr]. pose proof (with_slash_length dst) as Hwl.
  assert (Emk : sys_mkdir (with_slash dst ++ name) w = (0, bump_ino (enter pd name (NDir (next_ino w) []) w))).
  { apply (mkdir_run w _ _ _ j sd); auto; [by apply with_slash_dir|by apply with_slash_spells|rewrite length_app; lia]. }
  unfold mkdir. rewrite (bind_sys _ _ w _ _ Emk). cbn [Z.ltb Z.compare]. set (w1 := bump_ino _). unfold verbose, printf.
  assert (C1 : calm w w1) by (by split).
  destruct (say 1 (lit "1 made directory at %s\n") [Str (Some (with_slash dst ++ name))] w1) as (w2 & E2 & [C2 R2 N2]);
    [renders|apply (calm_talks _ _ C1 Ht)|]. rewrite E2.
  assert (C12 : calm w w2) by (by eapply calm_trans). assert (Ht2 : talks w2) by (by eapply calm_talks).
  assert (Hg2 : get (root w2) (ps ++ [name]) = Some (NDir i s)) by (rewrite R2; by eapply get_enter).
  assert (Hr2 : resolve w2 (src0 ++ name) = Some (ps ++ [name])).
  { eapply resolve_spells; [rewrite (ca_cwd _ _ C12); by apply spells_join|lia|exact Hg2]. }
  destruct (open_run w2 _ _ _ Hr2 Hg2) as (fd & E3 & H0 & H1 & H2 & H3 & _).
  { rewrite (calm_free _ _ C12). pose proof (depth_pos (NDir i s)). lia. }
  unfold open. rewrite (bind_sys _ _ w2 _ _ E3), (proj2 (Z.ltb_ge fd 0)) by lia. cbn [desc_of] in *. set (w3 := set_fd fd _ w2) in *.
  assert (Ht3 : talks w3).
  { destruct Ht2 as [[o1 T1] [o2 T2]]. assert (fd <> 1 /\ fd <> 2) as [? ?] by (split; intros ->; congruence).
    split; [exists o1|exists o2]; unfold w3; by rewrite fd_of_set_ne. }
  destruct (say 1 (lit "2, opened %s to read content\n") [Str (Some (src0 ++ name))] w3) as (w4 & E4 & [C4 R4 N4]); [renders|apply Ht3|].
  rewrite E4. exists fd, f, w4. split; [reflexivity|]. split_and!; [lia|by eapply calm_fd|by eapply calm_talks| | |].
  - eapply calm_trans; [exact C12|]. assert (E : set_fd fd None w3 = w2).
    { unfold w3. rewrite set_fd_set. unfold set_fd. rewrite list_insert_id by done. apply set_fds_id. }
    rewrite <- E at 1. by apply calm_set.
  - rewrite R4. change (root w3) with (root w2). rewrite R2. by eapply (moving_init _ _ _ _ j).
  - rewrite N4. change (next_ino w3) with (next_ino w2). by rewrite N2.
Qed.

Lemma dir_moves i s : fine (NDir i s) -> (forall c n, Some (c, n) ∈ s -> moves n) -> moves (NDir i s).
Proof.
  intros Hfine IHs del w src0 name dst ps pd j sd fuel J Hc. rewrite cost_dir in Hc. destruct fuel as [|f]; [lia|].
  rewrite (move_dispatch J). cbn [is_dir]. inversion Hfine as [| |? ? Hi _ _ _].
  destruct (dir_start del w src0 name dst ps pd j i sd s f J Hi ltac:(lia)) as (fd & f' & w5 & -> & Hf' & Hfd & Ht5 & C5 & R5 & N5).
  destruct f' as [|[|f']]; [lia..|]. pose proof J as [_ _ _ _ Hg Hgd Hnew Hnot _ _].
  assert (Hg5 : get (root w5) (ps ++ [name]) = Some (NDir i s)) by (rewrite R5; by eapply moving_src).
  destruct (skip_dots f' fd _ i s (src0 ++ name) (with_slash dst ++ name) del w5 Hfd Hg5 Hi) as (w6 & E6 & Ew6).
  assert (Hm : midway del w (root w) fd (ps ++ [name]) i pd name (next_ino w) [] s w6).
  { rewrite Ew6. split; [by eapply talks_set|apply fd_of_set_eq; by eexists|by rewrite set_fd_set|destruct del; exact R5|exact N5]. }
  destruct (entries_run J Hfine IHs s [] w6 f' eq_refl Hm ltac:(lia)) as (w7 & w'' & d & E7 & Hm' & Ew7).
  unfold mbind at 1, prog_bind at 1. rewrite E6, E7. cbn [negb].
  assert (Ecl : sys_close fd w7 = (0, set_fd fd None w'')).
  { cbn [sys_close ref_sys]. unfold ref_close. rewrite Ew7, (fd_of_set_eq fd (Some d) w'') by (eexists; apply (md_fd _ _ _ _ _ _ _ _ _ _ _ _ Hm')).
    by rewrite set_fd_set. }
  unfold close. rewrite (bind_sys _ _ w7 _ _ Ecl).
  destruct (dir_finish del w src0 name dst ps pd j i sd s (next_ino w) fd w'' J Hm') as (w8 & E8 & C8 & R8 & N8).
  exists w8. split; [exact E8|]. cbn [relabel]. destruct (relabel_slots relabel s (next_ino w + 1)) as [s' k']. done.
Qed.

(** Every tree that can be moved is moved. *)
Lemma fine_moves n : fine n -> moves n.
Proof.
  induction 1 as [i|i|i s Hi Hnd Hg Hfs IH]; [by apply file_moves..|]. apply dir_moves; [by constructor|done].
Qed.
