(* ===== verification/TreeProps.v ===== *)
(** * find prints the files of a tree that have a name *)
From S2P Require Import Prelude Cstring Ulib UlibFlags Printf Uprintf PrintfTheory Grep Usys Cmds CmdsTheory.
From S2P Require Import CmdsProps Reffs Utils UtilsTheory MoveTheory.

(** The files below [path] whose last element is [name], in the order of the
    directories. *)
Fixpoint found (path name : str) (n : node) : list str :=
  match n with
  | NFile _ => if decide (last_name path = name) then [path] else []
  | NDev _ => []
  | NDir _ s => concat (map (fun o : slot => match o with Some (c, m) => found (path ++ [47] ++ c) name m | None => [] end) s)
  end.

Definition found_lines (l : list str) : list Z := concat (map (fun x => x ++ [10]) l).

Lemma found_lines_app l l' : found_lines (l ++ l') = found_lines l ++ found_lines l'.
Proof. unfold found_lines. by rewrite map_app, concat_app. Qed.

(** Text [t] on the console, and nothing else. *)
Record spoke (t : list Z) (w w' : world) : Prop := {
  sp_said : said w w';
  sp_writable : ref_writable 1 w';
  sp_output : ref_output 1 w' = ref_output 1 w ++ t
}.

Lemma spoke_trans t t' w w' w'' : spoke t w w' -> spoke t' w' w'' -> spoke (t ++ t') w w''.
Proof. intros [A1 A2 A3] [B1 B2 B3]. split; [by eapply said_trans|done|]. by rewrite B3, A3, <- (assoc_L (++)). Qed.

Lemma spoke_nil w : ref_writable 1 w -> spoke [] w w.
Proof. intros H. split; [apply said_refl|done|by rewrite app_nil_r]. Qed.

Lemma print_spoke fmt ap t w : render fmt ap = Some t -> ref_writable 1 w -> exists w', printf fmt ap w = Ret tt w' /\ spoke t w w'.
Proof.
  intros Hr Hw. destruct (fprintf_prints (ST := ref_streams) 1 fmt ap t w Hr Hw) as (w' & E & [P1 P2 _ _ _]).
  destruct (fprintf_said 1 fmt ap w (ex_intro _ t Hr) Hw) as (w2 & E2 & S2). exists w'. split; [exact E|].
  rewrite E in E2. injection E2 as <-. by split.
Qed.

(** A line of output. *)
Lemma print_line (b : bool) x w : no_nul x -> ref_writable 1 w ->
  exists w', (if b then printf (lit "%s\n") [Str (Some x)] else mret tt) w = Ret tt w' /\
    spoke (found_lines (if b then [x] else [])) w w'.
Proof.
  intros Hx Hw. destruct b; [|exists w; split; [done|by apply spoke_nil]]. apply print_spoke; [|done].
  unfold found_lines. cbn [map concat]. rewrite app_nil_r.
  change (lit "%s\n") with [37; 115; 10]. cbn [render Z.eqb Pos.eqb fmap option_fmap option_map]. by rewrite cstr_no_nul.
Qed.

Lemma strcmp_decide x y : no_nul x -> no_nul y -> (Ulib.strcmp x y =? 0) = bool_decide (x = y).
Proof.
  intros Hx Hy. destruct (Z.eqb_spec (Ulib.strcmp x y) 0) as [E|E].
  - symmetry. apply bool_decide_eq_true. by apply strcmp_eq.
  - symmetry. apply bool_decide_eq_false. intros ->. by apply E, strcmp_eq.
Qed.

Lemma after_slash_nonul k path : no_nul path -> no_nul (after_slash k path).
Proof.
  intros H. induction k as [|k IH]; cbn [after_slash].
  - destruct (_ =? 47); [by apply Forall_drop|done].
  - destruct (_ =? 47); [by apply Forall_drop|done].
Qed.

Lemma last_name_nonul path : no_nul path -> no_nul (last_name path).
Proof. intros H. unfold last_name. destruct (length path); [done|by apply after_slash_nonul]. Qed.

(** The path of an entry, with the slash that find adds. *)
Lemma item_dirent path ino c : no_nul c -> (length c <= 13)%nat -> item path (dirent ino c) = (path ++ [47]) ++ c.
Proof. intros Hc Hl. unfold item. rewrite dirent_name, cstr_pad_nul by done. by rewrite <- (assoc_L (++)). Qed.

Lemma calm_open w w' fd d : calm w w' -> fd_of fd w = Some d -> exists d', fd_of fd w' = Some d'.
Proof.
  intros [_ _ _ Hf] H. apply (mute_lookup _ _ (Z.to_nat fd)) in Hf. unfold fd_of in *.
  destruct (fd <? 0); [done|]. destruct (fds w !! Z.to_nat fd) as [[d0|]|]; [|done..].
  destruct (fds w' !! Z.to_nat fd) as [[d1|]|]; [by eexists|by destruct d0|done].
Qed.

Lemma close_run w fd d : fd_of fd w = Some d -> sys_close fd w = (0, set_fd fd None w).
Proof. intros H. cbn [sys_close ref_sys]. unfold ref_close. by rewrite H. Qed.

(** Work between [open] and [close]: [w2] is reached from the world in which
    the descriptor [fd] has been installed. *)
Lemma spoke_close w fd d t w2 : fds w !! Z.to_nat fd = Some None -> 0 <= fd -> ref_writable 1 w -> root w2 = root w -> next_ino w2 = next_ino w ->
  calm w (set_fd fd None w2) -> fd_of fd w2 = Some d -> fd_of fd w = None -> ref_output 1 w2 = ref_output 1 w ++ t ->
  sys_close fd w2 = (0, set_fd fd None w2) /\ spoke t w (set_fd fd None w2).
Proof.
  intros Hn H0 Hw Hr Hni Hc Hf Hnone Ho. split; [by eapply close_run|].
  assert (fd <> 1) by (intros ->; destruct Hw; congruence). split; [by split|by eapply calm_writable|].
  rewrite <- Ho. unfold ref_output. by rewrite fd_of_set_ne.
Qed.

Definition finds (n : node) : Prop := forall w path p name fuel,
  ref_writable 1 w -> spells (cwd w) path p -> path <> [] -> no_nul path -> no_nul name -> get (root w) p = Some n ->
  (length path + span n < MAXPATH)%nat -> (depth n <= free_fds (fds w))%nat -> (cost n <= fuel)%nat ->
  exists w', find_helper fuel path name w = Ret tt w' /\ spoke (found_lines (found path name n)) w w'.

Lemma set_fd_back w fd d : fds w !! Z.to_nat fd = Some None -> set_fd fd None (set_fd fd d w) = w.
Proof. intros H. rewrite set_fd_set. unfold set_fd. rewrite list_insert_id by done. apply set_fds_id. Qed.

Lemma output_set w fd d : 0 <= fd -> fd <> 1 -> ref_output 1 (set_fd fd d w) = ref_output 1 w.
Proof. intros H0 H1. unfold ref_output. by rewrite fd_of_set_ne. Qed.

Lemma writable_set w fd d : 0 <= fd -> fd <> 1 -> ref_writable 1 w -> ref_writable 1 (set_fd fd d w).
Proof. intros H0 H1 [o H]. exists o. by rewrite fd_of_set_ne. Qed.

Lemma file_finds n : is_dir n = false -> finds n.
Proof.
  intros Hd w path p name fuel Hw Hsp Hne Hn Hname Hg Hl Hf Hc. destruct fuel as [|f]; [pose proof (cost_pos n); lia|]. cbn [find_helper].
  assert (Hr : resolve w path = Some p) by (eapply resolve_spells; [done|lia|done]).
  destruct (open_run w path p n Hr Hg) as (fd & E & H0 & H1 & H2 & H3 & _); [pose proof (depth_pos n); lia|].
  destruct (fstat_type w p n fd Hg H3) as (st & E2 & Ht1 & Ht2). set (w1 := set_fd fd _ w) in *.
  assert (Hfd1 : fd <> 1) by (intros ->; destruct Hw; congruence).
  unfold open, fstat. rewrite (bind_sys _ _ w _ _ E), (proj2 (Z.ltb_ge fd 0)) by lia. rewrite (bind_sys _ _ _ _ _ E2), Ht2, Ht1, Hd.
  destruct n as [i|i|]; [| |done]; cbn [found].
  - destruct (print_line (Ulib.strcmp (last_name path) name =? 0) path w1 Hn) as (w2 & E3 & [[C R N] Hw2 Ho]); [by apply writable_set|].
    rewrite (bind_ret _ _ w1 tt w2 E3). destruct (calm_open _ _ _ _ C H3) as [d' Hd'].
    destruct (spoke_close w fd d' (found_lines (if Ulib.strcmp (last_name path) name =? 0 then [path] else [])) w2) as [Ec Hs]; auto.
    { rewrite <- (set_fd_back w fd (Some (desc_of p (NFile i))) H2). by apply calm_set. }
    { rewrite Ho. unfold w1. by rewrite output_set. }
    unfold close. rewrite (bind_sys _ _ w2 _ _ Ec). eexists. split; [done|]. rewrite strcmp_decide in Hs by (done || by apply last_name_nonul).
    destruct (decide (last_name path = name)); [by rewrite bool_decide_true in Hs|by rewrite bool_decide_false in Hs].
  - destruct (spoke_close w fd (desc_of p (NDev i)) [] w1) as [Ec Hs]; auto.
    { unfold w1. rewrite set_fd_back by done. apply calm_refl. }
    { unfold w1. by rewrite output_set, app_nil_r. }
    unfold close. rewrite (bind_sys _ _ w1 _ _ Ec). eexists. by split.
Qed.

Lemma ustat_run w s p n : resolve w s = Some p -> get (root w) p = Some n -> (0 < free_fds (fds w))%nat ->
  exists st, ustat s w = Ret (Some st) w /\ (st_type st =? T_DIR) = is_dir n /\
    (st_type st =? T_FILE) = match n with NFile _ => true | _ => false end.
Proof.
  intros Hr Hg Hf. destruct (open_run w s p n Hr Hg Hf) as (fd & E & H0 & H1 & H2 & H3 & _).
  destruct (fstat_type w p n fd Hg H3) as (st & E2 & Ht & Ht'). exists st. split; [|done].
  unfold ustat, open, fstat, close. rewrite (bind_sys _ _ w _ _ E), (proj2 (Z.ltb_ge fd 0)) by lia.
  by rewrite (bind_sys _ _ _ _ _ E2), (bind_sys _ _ _ _ _ (close_set w fd _ H0 H2)).
Qed.

(** The loop over a directory, opened in [w0]: [k] slots have been seen and
    the text [t] printed. *)
Record scanning (w0 : world) (fd : Z) (p : list str) (i : Z) (k : nat) (t : list Z) (w : world) : Prop := {
  sc_root : root w = root w0;
  sc_next : next_ino w = next_ino w0;
  sc_calm : calm w0 (set_fd fd None w);
  sc_fd : fd_of fd w = Some (DDir p i (16 * (2 + k)));
  sc_writable : ref_writable 1 w;
  sc_output : ref_output 1 w = ref_output 1 w0 ++ t
}.

Lemma scanning_next w0 fd p i k t w : scanning w0 fd p i k t w -> scanning w0 fd p i (S k) t (set_fd fd (Some (DDir p i (16 * (2 + S k)))) w).
Proof.
  intros [A1 A2 A3 A4 A5 A6]. pose proof (fd_of_nonneg _ _ _ A4). assert (fd <> 1) by (intros ->; destruct A5; congruence).
  split; auto; [by rewrite set_fd_set|apply fd_of_set_eq; by eexists|by apply writable_set|by rewrite output_set].
Qed.

Lemma scanning_spoke w0 fd p i k t t' w w' : scanning w0 fd p i k t w -> spoke t' w w' -> scanning w0 fd p i k (t ++ t') w'.
Proof.
  intros [A1 A2 A3 A4 A5 A6] [[C R N] B2 B3]. split; [congruence..|eapply calm_trans; [exact A3|by apply calm_set]| |done|].
  - by eapply calm_fd.
  - by rewrite B3, A6, <- (assoc_L (++)).
Qed.

Section Entries.
Context {w0 : world} {path : str} {p : list str} {i fd : Z} {s : list slot} {name : str}.
Hypothesis Hsp : spells (cwd w0) path p.
Hypothesis Hne : path <> [].
Hypothesis Hnn : no_nul path /\ no_nul name.
Hypothesis Hg : get (root w0) p = Some (NDir i s).
Hypothesis Hl : (length path + span (NDir i s) < MAXPATH)%nat.
Hypothesis Hf : (depth (NDir i s) <= free_fds (fds w0))%nat.
Hypothesis Hfine : fine (NDir i s).
Hypothesis IHs : forall c n, Some (c, n) ∈ s -> finds n.

Lemma scanning_free k t w : scanning w0 fd p i k t w -> S (free_fds (fds w)) = free_fds (fds w0).
Proof.
  intros [_ _ C Hfd _ _]. rewrite <- (calm_free _ _ C). cbn [fds set_fd set_fds]. by rewrite (free_close _ _ _ (fds_lookup _ _ _ Hfd)).
Qed.

(** What the loop does with one entry. *)
Lemma entry_found c n k t w f : Some (c, n) ∈ s -> scanning w0 fd p i k t w -> (cost n <= f)%nat ->
  exists st w', ustat ((path ++ [47]) ++ c) w = Ret (Some st) w /\
    (if st_type st =? T_FILE then
       if Ulib.strcmp (last_name ((path ++ [47]) ++ c)) name =? 0 then printf (lit "%s\n") [Str (Some ((path ++ [47]) ++ c))] else mret tt
     else if st_type st =? T_DIR then find_helper f ((path ++ [47]) ++ c) name
     else mret tt) w = Ret tt w' /\
    scanning w0 fd p i k (t ++ found_lines (found (path ++ [47] ++ c) name n)) w'.
Proof.
  intros Hin Hsc Hcost. inversion Hfine as [| |? ? Hi Hnd Hgood Hfs]; subst i0 s0. destruct (Hgood c n Hin) as [Hc Hino].
  destruct (cost_in i s c n Hin) as (_ & Hdep & Hspan). pose proof (scanning_free _ _ _ Hsc) as Hfree. destruct Hnn as [Hn1 Hn2].
  pose proof Hsc as [R N C Hfd Hw Ho]. set (buf := (path ++ [47]) ++ c).
  assert (Hcw : cwd w = cwd w0) by (by destruct C).
  assert (Hbuf : spells (cwd w) buf (p ++ [c])).
  { rewrite Hcw. apply spells_join; [right; by eexists|done|by apply spells_slash]. }
  assert (Hbl : length buf = (length path + 1 + length c)%nat) by (unfold buf; rewrite !length_app; done).
  assert (Hgc : get (root w) (p ++ [c]) = Some n).
  { rewrite R, get_app, Hg. cbn [mbind option_bind get]. by rewrite (find_in c n s Hnd Hin). }
  assert (Hnb : no_nul buf) by (apply nonul_join; [apply Forall_app; split; [done|by apply Forall_singleton]|done]).
  destruct (ustat_run w buf (p ++ [c]) n) as (st' & E & T1 & T2); [eapply resolve_spells; [done|lia|done]|done|pose proof (depth_pos n); lia|].
  exists st'. rewrite T1, T2. replace (path ++ [47] ++ c) with buf by (unfold buf; by rewrite <- (assoc_L (++))).
  destruct n as [i'|i'|i' s']; cbn [is_dir].
  - destruct (print_line (Ulib.strcmp (last_name buf) name =? 0) buf w Hnb Hw) as (w' & E2 & Hs). exists w'. split_and!; [done..|].
    apply (scanning_spoke _ _ _ _ _ _ _ w); [done|]. cbn [found]. rewrite strcmp_decide in Hs by (done || by apply last_name_nonul).
    destruct (decide (last_name buf = name)); [by rewrite bool_decide_true in Hs|by rewrite bool_decide_false in Hs].
  - exists w. split_and!; [done..|]. cbn [found]. unfold found_lines. cbn. by rewrite app_nil_r.
  - destruct (IHs c _ Hin w buf (p ++ [c]) name f) as (w' & E2 & Hs); auto; try lia.
    { unfold buf. intros E0. apply app_nil in E0 as [E0 _]. by apply app_nil in E0 as [_ ?]. }
    exists w'. split_and!; [done..|]. by apply (scanning_spoke _ _ _ _ _ _ _ w).
Qed.

Definition slots_found (l : list slot) : list Z :=
  found_lines (concat (map (fun o : slot => match o with Some (c, m) => found (path ++ [47] ++ c) name m | None => [] end) l)).

Lemma scan_run rest : forall done t w fuel, s = done ++ rest -> scanning w0 fd p i (length done) t w -> (sum_list_with slot_cost rest < fuel)%nat ->
  exists w' w'' d, find_entries fuel fd path name w = Ret tt w' /\ w' = set_fd fd (Some d) w'' /\
    scanning w0 fd p i (length s) (t ++ slots_found rest) w''.
Proof.
  induction rest as [|o rest IH]; intros done t w fuel Es Hsc Hfuel; destruct fuel as [|f]; cbn [sum_list_with] in Hfuel; try lia.
  all: pose proof Hsc as [R N C Hfd Hw Ho]; assert (Hgw : get (root w) p = Some (NDir i s)) by (by rewrite R).
  all: destruct (dir_read w fd p i s _ Hfd Hgw) as (d & E & Hd); cbn [find_entries]; unfold read; cbn [Nat.add dir_entry] in E.
  { rewrite app_nil_r in Es. subst done. rewrite lookup_ge_None_2 in E by done. rewrite (bind_sys _ _ w _ _ E). cbn [length Nat.eqb negb].
    eexists _, w, d. split; [done|]. split; [done|]. unfold slots_found, found_lines. cbn. by rewrite app_nil_r. }
  rewrite Es, lookup_app_r, Nat.sub_diag in E by done. cbn [lookup list_lookup] in E. rewrite (bind_sys _ _ w _ _ E).
  rewrite Hd by (rewrite Es, length_app; cbn; lia). pose proof (scanning_next _ _ _ _ _ _ _ Hsc) as Hsc1.
  change (16 * S (2 + length done))%nat with (16 * (2 + S (length done)))%nat.
  set (w1 := set_fd fd (Some (DDir p i (16 * (2 + S (length done))))) w) in *.
  rewrite length_slot_bytes, Nat.eqb_refl. cbn [negb].
  assert (Es' : s = (done ++ [o]) ++ rest) by (by rewrite <- (assoc_L (++))).
  assert (Hlen : length (done ++ [o]) = S (length done)) by (rewrite length_app; cbn; lia).
  destruct o as [[c n]|]; cbn [slot_bytes slot_cost] in *.
  2: { change (de_inum (replicate 16 0) =? 0) with true. cbv iota. apply (IH (done ++ [None]) t w1 f Es'); [by rewrite Hlen|lia]. }
  inversion Hfine as [| |? ? Hi Hnd Hgood Hfs]; subst i0 s0. assert (Hin : Some (c, n) ∈ s) by (rewrite Es; set_solver).
  destruct (Hgood c n Hin) as [Hc Hino]. rewrite dirent_inum by done. rewrite (proj2 (Z.eqb_neq _ 0)) by lia.
  pose proof Hc as (Hne' & Hlenc & _ & Hd1 & Hd2). pose proof (good_nonul c Hc) as Hcn.
  rewrite item_dirent, dirent_name, cstr_pad_nul by done.
  rewrite !strcmp_decide by (done || by repeat constructor). rewrite !bool_decide_false by done. cbn [orb].
  destruct (entry_found c n (S (length done)) t w1 f Hin Hsc1) as (st & w2 & E1 & E2 & Hsc2); [lia|].
  rewrite (bind_ret _ _ w1 _ w1 E1), (bind_ret _ _ w1 _ w2 E2).
  destruct (IH (done ++ [Some (c, n)]) _ w2 f Es' ltac:(rewrite Hlen; exact Hsc2) ltac:(lia)) as (w' & w'' & d' & E3 & Ew & Hsc3).
  exists w', w'', d'. split; [exact E3|]. split; [exact Ew|]. unfold slots_found in *. cbn [map concat]. rewrite found_lines_app.
  by rewrite (assoc_L (++)).
Qed.

End Entries.

(** [.] and [..] are passed over. *)
Lemma scan_dots f fd p i sl path name w : fd_of fd w = Some (DDir p i 0) -> get (root w) p = Some (NDir i sl) -> 0 < i < 65536 ->
  find_entries (S (S f)) fd path name w = find_entries f fd path name (set_fd fd (Some (DDir p i 32)) w).
Proof.
  intros Hf Hg Hi. destruct (dir_read w fd p i sl 0 Hf Hg) as (d1 & E1 & Hd1). specialize (Hd1 ltac:(lia)). subst d1.
  set (w1 := set_fd fd (Some (DDir p i (16 * 1))) w) in *.
  assert (Hf1 : fd_of fd w1 = Some (DDir p i (16 * 1))) by (apply fd_of_set_eq; by eexists).
  destruct (dir_read w1 fd p i sl 1 Hf1 Hg) as (d2 & E2 & Hd2). specialize (Hd2 ltac:(lia)). subst d2.
  rewrite <- (set_fd_set fd (Some (DDir p i 32)) (Some (DDir p i (16 * 1))) w).
  cbn [dir_entry] in *. set (up := match get _ _ with Some _ => _ | None => _ end) in *.
  cbn [find_entries]. unfold read. rewrite (bind_sys _ _ w _ w1 E1), length_dirent. cbn [Nat.eqb negb].
  rewrite dirent_inum, (proj2 (Z.eqb_neq i 0)) by lia.
  rewrite (dirent_name i dot) by (cbn; lia). rewrite cstr_pad_nul by (by repeat constructor).
  change (Ulib.strcmp dot (lit ".") =? 0) with true. cbn [orb]. rewrite (bind_sys _ _ w1 _ _ E2), length_dirent. cbn [Nat.eqb negb].
  destruct (de_inum (dirent up dotdot) =? 0); [done|].
  rewrite (dirent_name up dotdot) by (cbn; lia). rewrite cstr_pad_nul by (by repeat constructor). done.
Qed.

Lemma dir_finds i s : fine (NDir i s) -> (forall c n, Some (c, n) ∈ s -> finds n) -> finds (NDir i s).
Proof.
  intros Hfine IHs w path p name fuel Hw Hsp Hne Hn Hname Hg Hl Hf Hc. rewrite cost_dir in Hc. destruct fuel as [|f]; [lia|]. cbn [find_helper].
  assert (Hr : resolve w path = Some p) by (eapply resolve_spells; [done|lia|done]).
  destruct (open_run w path p _ Hr Hg) as (fd & E & H0 & H1 & H2 & H3 & _); [pose proof (depth_pos (NDir i s)); lia|].
  destruct (fstat_type w p _ fd Hg H3) as (st & E2 & Ht1 & Ht2). cbn [desc_of] in *. set (w1 := set_fd fd _ w) in *.
  assert (Hfd1 : fd <> 1) by (intros ->; destruct Hw; congruence). inversion Hfine as [| |? ? Hi _ _ _].
  unfold open, fstat. rewrite (bind_sys _ _ w _ _ E), (proj2 (Z.ltb_ge fd 0)) by lia. rewrite (bind_sys _ _ _ _ _ E2), Ht2, Ht1. cbn [is_dir].
  assert (Hlen : (512 <? length path + 1 + 14 + 1)%nat = false) by (apply Nat.ltb_ge; unfold MAXPATH in Hl; lia). rewrite Hlen.
  destruct f as [|[|f]]; [lia..|].
  assert (Hsc : scanning w fd p i 0 [] (set_fd fd (Some (DDir p i 32)) w1)).
  { unfold w1. rewrite set_fd_set. split; auto; [rewrite set_fd_back by done; apply calm_refl| |by apply writable_set|by rewrite output_set, app_nil_r].
    unfold fd_of, set_fd. rewrite (proj2 (Z.ltb_ge fd 0)) by lia. cbn [fds set_fds].
    by rewrite list_lookup_insert_eq by (by eapply lookup_lt_Some). }
  destruct (scan_run Hsp Hne (conj Hn Hname) Hg Hl Hf Hfine IHs s [] [] _ f eq_refl Hsc ltac:(lia)) as (w' & w'' & d & E3 & Ew & Hsc').
  rewrite <- (scan_dots f fd p i s path name w1) in E3 by done. rewrite (bind_ret _ _ w1 tt w' E3).
  destruct Hsc' as [R' N' C' Hfd' Hw' Ho'].
  destruct (spoke_close w fd d (found_lines (found path name (NDir i s))) w') as [Ec Hs]; subst w'; auto.
  - by rewrite set_fd_set.
  - apply fd_of_set_eq. by eexists.
  - by rewrite output_set.
  - unfold close. rewrite (bind_sys _ _ _ _ _ Ec). eexists. by split.
Qed.

Lemma fine_finds n : fine n -> finds n.
Proof. induction 1 as [i|i|i s Hi Hnd Hg Hfs IH]; [by apply file_finds..|]. apply dir_finds; [by constructor|done]. Qed.

(** * mv, cp and find on whole trees: theorems *)

(** The copy has the same files under the same names. *)
Lemma find_relabel f c s : forall k, match find_slot c s with
  | Some m => exists k', find_slot c (fst (relabel_slots f s k)) = Some (fst (f m k'))
  | None => find_slot c (fst (relabel_slots f s k)) = None
  end.
Proof.
  induction s as [|[[c' n]|] s IH]; intros k; cbn [find_slot relabel_slots]; [done| |apply IH].
  destruct (f n k) as [n' k1] eqn:E. specialize (IH k1). destruct (relabel_slots f s k1) as [s' k2]. cbn [fst find_slot] in *.
  destruct (decide (c' = c)); [exists k; by rewrite E|exact IH].
Qed.

Lemma relabel_get r : forall n k i, get n r = Some (NFile i) <-> get (fst (relabel n k)) r = Some (NFile i).
Proof.
  induction r as [|c r IH]; intros n k i; destruct n as [i'|i'|i' s]; cbn [relabel fst get]; try done.
  { by destruct (relabel_slots relabel s (k + 1)). }
  pose proof (find_relabel relabel c s (k + 1)) as Hf. destruct (relabel_slots relabel s (k + 1)) as [s' k']. cbn [fst get] in *.
  destruct (find_slot c s) as [m|]; [destruct Hf as [k2 ->]; cbn [mbind option_bind]; apply IH|by rewrite Hf].
Qed.


(** find prints, one to a line and in the order of the directories, exactly
    the paths of the files below its argument whose name is the one asked
    for, and leaves everything as it was. *)
Theorem find_prints fuel prog w path p name n :
  ref_writable 1 w -> spells (cwd w) path p -> path <> [] -> no_nul path -> no_nul name -> get (root w) p = Some n -> fine n ->
  (length path + span n < MAXPATH)%nat -> (depth n <= free_fds (fds w))%nat -> (cost n <= fuel)%nat ->
  exists w', find_main fuel [prog; name; path] w = Exited 0 w' /\ said w w' /\
    ref_output 1 w' = ref_output 1 w ++ found_lines (found path name n).
Proof.
  intros Hw Hsp Hne Hn Hname Hg Hf Hl Hd Hc. destruct (fine_finds n Hf w path p name fuel) as (w' & E & [S1 _ S3]); auto.
  exists w'. split; [|done]. unfold find_main. by rewrite (bind_ret _ _ w tt w' E).
Qed.

(** ** A small tree *)

Definition tree_a : node := NDir 2 [Some (lit "f", NFile 3); None; Some (lit "sub", NDir 4 [Some (lit "g", NFile 5)])].
Definition tree1 : node := NDir 1 [Some (lit "a", tree_a); Some (lit "b", NDir 6 [])].
Definition world1 : world := world0 tree1 (<[3 := lit "one\ntwo\n"]> (<[5 := lit "one\n"]> ∅)) 7.

Lemma good_dec c : bool_decide (c <> [] /\ (length c <= 13)%nat /\ Forall (fun x => 0 < x < 256 /\ x <> 47) c /\ c <> dot /\ c <> dotdot) = true -> good c.
Proof. apply bool_decide_eq_true. Qed.

Lemma tree_a_fine : fine tree_a.
Proof.
  assert (Hg : good (lit "f") /\ good (lit "sub") /\ good (lit "g")) by (split_and!; apply good_dec; vm_compute; reflexivity).
  destruct Hg as (G1 & G2 & G3). constructor; [lia|by apply (bool_decide_unpack _); vm_compute| |].
  - intros c n. rewrite !elem_of_cons, elem_of_nil. intros [[= -> ->]|[[=]|[[= -> ->]|[]]]]; (split; [done|cbn; lia]).
  - intros c n. rewrite !elem_of_cons, elem_of_nil. intros [[= -> ->]|[[=]|[[= -> ->]|[]]]]; [constructor|].
    constructor; [lia|by apply (bool_decide_unpack _); vm_compute| |].
    + intros c n. rewrite !elem_of_cons, elem_of_nil. intros [[= -> ->]|[]]. split; [done|cbn; lia].
    + intros c n. rewrite !elem_of_cons, elem_of_nil. intros [[= -> ->]|[]]. constructor.
Qed.

Lemma job1 : job world1 [] (lit "a") (lit "b") [] [lit "b"] 6 [] tree_a.
Proof.
  split.
  - split; by eexists.
  - split_and!; [by left|constructor|]. split; [constructor|done].
  - apply good_dec. vm_compute. reflexivity.
  - split_and!; [done|by repeat constructor|]. split; [by apply (bool_decide_unpack _); vm_compute|done].
  - reflexivity.
  - reflexivity.
  - reflexivity.
  - by apply (bool_decide_unpack _); vm_compute.
  - vm_compute. lia.
  - vm_compute. lia.
Qed.

